(* ===== verification/_CoqProject ===== *)
-Q . S2P
Prelude.v
RustStr.v
FileSystem.v
External.v
Models.v
Time.v
ConfigPersistence.v
OrderJournal.v
RiskUsage.v
Risk.v
OrderSubmission.v
Trading.v
BTreeMap.v
KlineStore.v
KlineFacts.v
Workflow.v
Mapper.v
ApiClient.v
Accounts.v
WsManager.v
WsSafety.v
NotificationTypes.v
Connection.v
StrategyTypes.v
StrategyStore.v
SafeDocument.v
SafeDocumentFacts.v
AtomicFile.v
StrategyRun.v
Supervisor.v
Worker.v
ContractFacts.v
Engine.v
EngineFacts.v
EngineSafety.v
StrategyDurable.v
TaskRun.v
Scheduler.v
SchedulerSteps.v
SchedulerSafety.v
SchedulerTheorems.v
SchedulerLiveness.v
SchedulerProgress.v
NotificationPolicy.v
NotificationFile.v
NotificationIncidents.v
NotificationStore.v
NotificationService.v
NotificationFacts.v
NotificationValid.v
NotificationKeep.v
NotificationPublish.v
NotificationHistory.v
NotificationDurable.v
NotificationTheorems.v
PluginManifest.v
PluginCatalog.v
PluginPackages.v
PluginState.v
PluginOwnership.v
PluginRegistry.v
PluginLifecycle.v
PluginScan.v
PluginImport.v
PluginIndexFacts.v
PluginRegistryFacts.v
PluginLifecycleFacts.v
PluginProtocol.v
PluginScanFacts.v
PluginReconcileFacts.v
PluginCompute.v
WorkflowRuntime.v
WorkflowSafety.v
Concrete.v
Witnesses.v
SessionWitnesses.v
EngineWitnesses.v
SchedulerWitnesses.v
NotificationWitnesses.v
PluginWitnesses.v
