(* ===== verification/Prelude.v ===== *)
(** EasiFlux Desktop: verification of the core of its Rust backend
    (src/src-tauri/src; every source file below is named from there).

    * The program

    A desktop client trades on an exchange: it signs requests with the
    exchange's time, checks and counts orders before it sends them, never sends
    an order twice, follows its market and account over two streams, switches
    between accounts, keeps charts, journals and documents in files, runs periodic
    tasks over its services, notifies its user of what happens to orders, and
    lets sandboxed plugins trade within limits the user granted.  The parts
    modelled here, the files that model them, and how they call each other:

    - Foundations.  This file: outcomes (a value, an error, a panic or a crash),
      the state and error monad [M], machine widths, tactics and hint databases.
      RustStr: strings as bytes with the methods of [str] the sources use.
      FileSystem: [std::fs] over a tree of nodes, where the
      environment may refuse, shorten or interrupt any call, unsynced bytes are
      lost in a crash and unsynced directory operations in a power loss, and
      weakest preconditions for code over it.  External:
      serde_json values, and the crates the program calls (uuid, sha2,
      rust_decimal, chrono-tz, serde) as classes, with classes of documented
      laws where a theorem needs them.  Models (error.rs, models/): the records
      components exchange.  BTreeMap: ordered maps.
    - Time (services/time.rs, auth/time_sync.rs): epochs, trading days, the
      offset to the exchange's clock.
    - ConfigPersistence, OrderJournal, RiskUsage (storage/): a file replaced
      through a temporary and a backup, one record per submission identity, the
      daily ledger.  AtomicFile and SafeDocument (storage/atomic_file.rs,
      storage/safe_plugin_document.rs with the Unix half of its platform
      module), SafeDocumentFacts: replacement protocols for documents.
    - Risk (services/risk*.rs) over RiskUsage; OrderSubmission
      (services/order_submission.rs) over OrderJournal; Trading
      (services/trading*.rs) over both.
    - KlineStore and KlineFacts (storage/kline_store.rs): series of bars in
      memory, appended to or compacted into files.
    - The exchange.  Mapper (api/response.rs, api/mapper.rs, the receipts of
      api/private.rs): answers and lists read into records, requests written.
      ApiClient (api/client.rs, auth/signer.rs): credentials, sessions and
      their expiry, signing, the reading of a response and the single retry,
      over the crates url and hmac and an arbitrary network (the classes
      UrlLib, HmacLib, ApiEnvironment).
    - Accounts (services/account_profiles*, models/config.rs): the transactions
      that switch, save and delete accounts, over the interface
      AccountLifecyclePort and its laws; its theorems hold of every port.
    - Connection (services/connection.rs, storage/credentials.rs, what
      events/emitter.rs tells of a connection, commands/connection.rs,
      commands/account_profiles.rs): connecting, disconnecting and observing over
      ApiClient, Time and WsManager, the store of credentials, the probe of a
      credential, and the port of Accounts made of them, which is shown to keep
      the port's laws.  The key store, the configuration store and the components
      a connection only notifies are the class DesktopParts.
    - WsManager (ws/*.rs): topics, messages, freshness, the gate of live
      orders, and the two streams of a session as a step relation with the
      control operations; its observers are Trading's, its records Mapper's, its
      signer ApiClient's.  WsSafety: what holds in every execution.
    - Workflow, StrategyTypes, ContractFacts
      (plugin/workflow/, plugin/strategy/): what a plugin may propose and what
      a strategy is granted; StrategyStore (store.rs) over SafeDocument;
      StrategyRun, Supervisor, Worker (execution.rs, supervisor.rs, recovery.rs)
      and Engine, their interleaving as a step relation; EngineFacts,
      EngineSafety; StrategyDurable, the refinement that links the file store
      to what the engine assumes of it.
    - TaskRun, Scheduler, SchedulerSteps (services/scheduler.rs): the runs of
      one task, the lifecycle of generations, and their interleaving;
      SchedulerSafety, SchedulerTheorems, SchedulerLiveness, SchedulerProgress.
    - Notifications (models/notification.rs, services/notification.rs,
      services/notification/policy.rs, storage/notification_store.rs).
      NotificationTypes: records and their validation.  NotificationPolicy: the
      inputs made of orders, incidents and sessions.  NotificationFile: the
      document, its retention, eviction, index and size.  NotificationIncidents:
      open incidents and order states rebuilt from it.  NotificationStore: the
      document on disk.  NotificationService: the operations over any store (the
      class [NotificationPersistence]) and the start.  NotificationFacts, Valid,
      Keep and Publish: what each step keeps of an acceptable document;
      NotificationHistory: what a call may do to the service as a relation,
      [history], that every operation is shown to stay in; NotificationDurable and NotificationTheorems: the theorems.
    - Plugins (plugin/*.rs, plugin/runtime/, storage/plugin_state.rs and the
      storage of ownership and packages).  PluginManifest and PluginCatalog: what
      a plugin declares, and the catalog with its readers.  PluginScan: the
      bounded scan of the plugin directories and its platform module of Unix over
      the system calls (the class Rustix); PluginPackages: what a scan becomes.
      PluginState and PluginOwnership: the two documents, their stores and the
      reconciliation of the index with a scan.  PluginRegistry: the catalog's
      registry and its operations; PluginLifecycle: discovery, decisions, removal
      and import under the runtime's gate; PluginImport: the session of previews.
      What the scan asks of its platform, the package files of a removal and of
      an import, and the discovery are classes (ScanPlatform, RemovalStorage,
      ImportStorage, PluginDiscovery).  PluginIndexFacts, PluginRegistryFacts,
      PluginLifecycleFacts, PluginProtocol, PluginScanFacts and
      PluginReconcileFacts: the facts and theorems.
    - Running plugins.  PluginCompute (plugin/registry/{workflow,compute,
      strategy}.rs, plugin/compute.rs, plugin/compute/, plugin/runtime/compute.rs):
      what the published catalog lends to a run, the slot all computations share,
      and the sandbox over an engine given as the class WasmLib.
      WorkflowRuntime (plugin/runtime/workflow.rs): grants, runs, confirmation
      tokens and receipts of account workflows; WorkflowSafety: their calls
      interleaved, and the theorems.
    Concrete instantiates every interface by small functions with the documented
    behaviour; the files named Witnesses apply the theorems at concrete inputs.

    * How state and effects are modelled

    An operation has the name of its function in the source.  Code under one
    mutex is one function from state to state; what happens between two critical
    sections (an [await], a file call outside the lock) separates steps, and
    every interleaving of steps is considered where the source allows it
    (Engine, SchedulerSteps, WorkflowSafety, WsManager, KlineStore's flushes,
    TaskRun).
    WorkflowSafety lets the calls interleave more than the runtime's gate does,
    and lets catalog and account be any at each binding; what it shows holds of
    the executions the gate allows.  A task that is dropped
    where it waits is a step of its own.  Errors are values of [outcome]; a panic
    and a crash are outcomes too, so theorems speak of them.  Integers are [Z]
    with the width's wrapping, saturation or check written out.  Objects shared by
    reference (a generation's control, a desired-run token, a cleanup slot) are
    names into a heap.  Where the scheduler's source decrements an owner count
    after it released a task's mutex, the model does both in one step; the
    count only falls earlier than in the source, inside a region nothing else reads.

    * What the theorems show

    - Money: no order identity is submitted twice, no strategy sequence number is
      handed over twice, intents are durable before they are handed over, limits
      and daily counts hold, an unresolved hand-over survives restarts
      (OrderSubmission, Risk, Trading, EngineSafety).  An order a workflow proposes is
      handed over only under an unchanged grant of the user, for the account it
      was prepared for, once and in time; receipts say what was answered
      (WorkflowSafety).  A request is sent a second time only after the exchange
      refused the first one for its time or signature (ApiClient).
    - Sessions: switching an account and editing its credential are all or
      nothing, or say that they are not (Accounts), also over the connection the
      desktop has (Connection).  Live orders reach the
      notifications once, in order and in their own session, and what is called
      healthy rests on a linked stream and fresh data of that session (WsSafety).
    - Files: what an interrupted save leaves is the old or the new document, what
      a reported success guarantees (against a crash that keeps the names of the
      files; against any power loss for the notifications' store), and how the strategy store's five files
      refine the promise the engine assumes (ConfigPersistence, SafeDocumentFacts,
      AtomicFile, StrategyDurable, KlineFacts).
    - Scheduling: generations never overlap, a running one has all its loops, a
      stop holds, a cleanup can always be finished, forced runs are answered
      (SchedulerTheorems, SchedulerProgress, TaskRun).
    - Notifications: the document stays acceptable, its revisions are announced
      one by one, a source and an order's outcome are published once, paging
      enumerates a view, accounts do not touch each other, and what was
      announced is found again after a power loss (NotificationTheorems,
      NotificationFacts, NotificationDurable).
    - Plugins: two catalogs of one version are equal, a removal renames after the
      decision and the entry are durable, an import arrives disabled, a scan ends
      within its bounds and its catalog is accepted by its reader, a lost state
      document enables nothing, a disabled plugin is lent to nobody
      (PluginReconcileFacts, PluginProtocol, PluginRegistryFacts, WorkflowSafety).  A guest
      ends within its fuel and stays in its memory (PluginCompute).
    - Validation: the risk checks, canonical texts of counters and decimals,
      protections that bracket the entry, agreement of the layers that check a
      plugin's proposal (Risk, ContractFacts).
    - Errors and defects: executions in which the code does not do what it means
      to, each with the theorem that exhibits it (the status of an unknown time
      zone, a ledger that cannot be examined, a torn append, lost day bounds, a
      pending document rolled back, two interrupted saves of the configuration).

    * Bounds and fuel

    Recursion follows the data nearly everywhere.  The exceptions are KlineStore.evict, whose fuel is
    the number of bars, one of which goes at each turn (evict_spec shows that
    it is enough), in NotificationFile.make_room, whose fuel is the number of
    records, and in its searches over the eviction candidates, whose fuel is
    their number; PluginScan.read_loop, one turn for each byte of the bound it
    reads to and two more, which its facts show are enough; read_again and
    collect_entries there, one turn for each read that will be interrupted and
    for each entry of the directory, both finite by the laws of the system calls; and
    PluginCompute.finish_call, one round for each unit of fuel left to issue, which
    guests_terminate shows is enough.  A client's paging has one turn per record of the view.  File calls are answered from a script of faults that is
    arbitrary and as long as the run.  The scheduler's step relation asks
    that live guards number at most what a [usize] counts.

    * What is not modelled

    - Poisoned mutexes: no critical section of the modelled code unwinds halfway
      in a state another one relies on.  Wake-ups (Notify, watch channels): a
      waiter may take its step whenever its condition holds.  Timers.
    - The network and the exchange are arguments; so are the WebAssembly engine,
      the catalog a strategy run is bound to, and the answers of a user.
    - The Windows half of the platform modules; permissions, links and identity
      of open files beyond what the protocols check.
    - The adapter of account, client and trading service to the workflow host
      (plugin/workflow/production.rs), and the calls by which packages are
      staged, renamed and deleted (storage/local_plugin_package/).
    - The bodies of the sockets and of HTTP: what arrives is the choice of a
      step or of the environment.  Two functions of the mapper whose texts come
      from floating point (tickers, funding balances), and the endpoints that
      only pass a request on.
    - Components without an entry above: the commands and events of the window,
      the market service, the chart workspace, analytics.  *)
From Stdlib Require Export ZArith Lia.
From Stdlib Require Import Ascii.
From stdpp Require Export base strings numbers tactics sorting gmap list.

#[global] Open Scope string_scope.
#[global] Open Scope Z_scope.

(** ** Outcomes *)

(** How a computation can stop without a Rust value: a panic unwinds the
    calling task, a crash ends the process. *)
Inductive halt := Panicked | Crashed.

(** [Result<A, E>], extended with the two abnormal ends. *)
Inductive outcome (E A : Type) :=
| Ok (a : A)
| Err (e : E)
| Halt (h : halt).
Arguments Ok {E A} _.
Arguments Err {E A} _.
Arguments Halt {E A} _.

Definition obind {E A B} (x : outcome E A) (f : A -> outcome E B) : outcome E B :=
  match x with
  | Ok a => f a
  | Err e => Err e
  | Halt h => Halt h
  end.

(** [Result::map_err]. *)
Definition omap_err {E F A} (f : E -> F) (x : outcome E A) : outcome F A :=
  match x with
  | Ok a => Ok a
  | Err e => Err (f e)
  | Halt h => Halt h
  end.

(** [Option::ok_or_else]. *)
Definition ok_or {E A} (e : E) (x : option A) : outcome E A :=
  match x with Some a => Ok a | None => Err e end.

(** An arithmetic operator of a library type that panics on overflow. *)
Definition or_panic {E A} (x : option A) : outcome E A :=
  match x with Some a => Ok a | None => Halt Panicked end.

(** An early [return Err(e)]. *)
Definition guard {E} (b : bool) (e : E) : outcome E unit :=
  if b then Err e else Ok tt.

Definition is_ok {E A} (x : outcome E A) : bool :=
  match x with Ok _ => true | _ => false end.

(** [Result::ok] on a result that is a value. *)
Definition ok_of {E A} (x : outcome E A) : option A :=
  match x with Ok a => Some a | _ => None end.

Declare Scope rust_scope.
Delimit Scope rust_scope with rust.
#[global] Open Scope rust_scope.

Notation "'let?' x := c 'in' k" := (obind c (fun x => k))
  (at level 10, x pattern, c at level 100, k at level 200)
  : rust_scope.

(** ** State passing *)

(** A computation that reads and changes a world of type [W]. *)
Definition M (W E A : Type) : Type := W -> outcome E A * W.

Definition mret {W E A} (a : A) : M W E A := fun w => (Ok a, w).
Definition mfail {W E A} (e : E) : M W E A := fun w => (Err e, w).
Definition mlift {W E A} (x : outcome E A) : M W E A := fun w => (x, w).

Definition mbind {W E A B} (c : M W E A) (k : A -> M W E B) : M W E B :=
  fun w =>
    match c w with
    | (Ok a, w') => k a w'
    | (Err e, w') => (Err e, w')
    | (Halt h, w') => (Halt h, w')
    end.

Definition mmap_err {W E F A} (f : E -> F) (c : M W E A) : M W F A :=
  fun w => let '(o, w') := c w in (omap_err f o, w').

(** A [match] on a [Result]: errors become values, panics and crashes pass. *)
Definition mtry {W E F A} (c : M W E A) : M W F (E + A) :=
  fun w =>
    match c w with
    | (Ok a, w') => (Ok (inr a), w')
    | (Err e, w') => (Ok (inl e), w')
    | (Halt h, w') => (Halt h, w')
    end.

Notation "'let*' x := c 'in' k" := (mbind c (fun x => k))
  (at level 10, x pattern, c at level 100, k at level 200)
  : rust_scope.
Notation "c1 ';;;' c2" := (mbind c1 (fun _ => c2))
  (at level 199, right associativity) : rust_scope.

(** [for x in xs { f(x)?; }]. *)
Fixpoint mfor {W E A} (f : A -> M W E unit) (xs : list A) : M W E unit :=
  match xs with
  | [] => mret tt
  | x :: xs' => f x ;;; mfor f xs'
  end.

(** [xs.into_iter().map(f).collect::<Result<Vec<_>, _>>()]. *)
Fixpoint mmap {W E A B} (f : A -> M W E B) (xs : list A) : M W E (list B) :=
  match xs with
  | [] => mret []
  | x :: xs' => let* y := f x in let* ys := mmap f xs' in mret (y :: ys)
  end.

(** ** Generic facts of state passing *)

(** [preserves P c]: [c] started where [P] holds ends where [P] holds, however
    it ends. *)
Definition preserves {W E A} (P : W -> Prop) (c : M W E A) : Prop :=
  forall w, P w -> P (snd (c w)).

Create HintDb preserve.

Lemma preserves_ret {W E A} (P : W -> Prop) (a : A) : preserves P (@mret W E A a).
Proof. intros w Hw; exact Hw. Qed.
Lemma preserves_fail {W E A} (P : W -> Prop) (e : E) : preserves P (@mfail W E A e).
Proof. intros w Hw; exact Hw. Qed.
Lemma preserves_lift {W E A} (P : W -> Prop) (x : outcome E A) :
  preserves P (@mlift W E A x).
Proof. intros w Hw; exact Hw. Qed.
Lemma preserves_bind {W E A B} (P : W -> Prop) (c : M W E A) (k : A -> M W E B) :
  preserves P c -> (forall a, preserves P (k a)) -> preserves P (mbind c k).
Proof.
  intros Hc Hk w Hw. unfold mbind. specialize (Hc w Hw).
  destruct (c w) as [[a|e|h] w']; simpl in *; auto. by apply Hk.
Qed.
Lemma preserves_map_err {W E F A} (P : W -> Prop) (f : E -> F) (c : M W E A) :
  preserves P c -> preserves P (mmap_err f c).
Proof.
  intros Hc w Hw. unfold mmap_err. specialize (Hc w Hw).
  by destruct (c w).
Qed.
Lemma preserves_try {W E F A} (P : W -> Prop) (c : M W E A) :
  preserves P c -> preserves P (@mtry W E F A c).
Proof.
  intros Hc w Hw. unfold mtry. specialize (Hc w Hw).
  by destruct (c w) as [[]].
Qed.
Lemma preserves_mmap {W E A B} (P : W -> Prop) (f : A -> M W E B) xs :
  (forall x, preserves P (f x)) -> preserves P (mmap f xs).
Proof.
  intros Hf. induction xs; simpl; [apply preserves_ret|].
  apply preserves_bind; [done|intros]. apply preserves_bind; [done|intros].
  apply preserves_ret.
Qed.
#[export] Hint Resolve preserves_ret preserves_fail preserves_lift
  preserves_bind preserves_map_err preserves_try preserves_mmap : preserve.

(** [never_halts c]: no start makes [c] panic or crash. *)
#[global] Arguments mbind : simpl never.
#[global] Arguments mtry : simpl never.
#[global] Arguments mmap_err : simpl never.

(** Running one step whose result is known. *)
Lemma mbind_run {W E A B} (c : M W E A) (k : A -> M W E B) w a w' :
  c w = (Ok a, w') -> mbind c k w = k a w'.
Proof. unfold mbind. by intros ->. Qed.
Lemma mbind_run_err {W E A B} (c : M W E A) (k : A -> M W E B) w e w' :
  c w = (Err e, w') -> mbind c k w = (Err e, w').
Proof. unfold mbind. by intros ->. Qed.
Lemma mtry_run {W E F A} (c : M W E A) w a w' :
  c w = (Ok a, w') -> @mtry W E F A c w = (Ok (inr a), w').
Proof. unfold mtry. by intros ->. Qed.
Lemma mtry_run_err {W E F A} (c : M W E A) w e w' :
  c w = (Err e, w') -> @mtry W E F A c w = (Ok (inl e), w').
Proof. unfold mtry. by intros ->. Qed.
Lemma mmap_err_run {W E F A} (f : E -> F) (c : M W E A) w a w' :
  c w = (Ok a, w') -> mmap_err f c w = (Ok a, w').
Proof. unfold mmap_err. by intros ->. Qed.
Lemma mmap_err_run_err {W E F A} (f : E -> F) (c : M W E A) w e w' :
  c w = (Err e, w') -> mmap_err f c w = (Err (f e), w').
Proof. unfold mmap_err. by intros ->. Qed.

(** The three ends of a bind. *)
Lemma mbind_inv {W E A B} (c : M W E A) (k : A -> M W E B) w o w' :
  mbind c k w = (o, w') ->
  (exists a w1, c w = (Ok a, w1) /\ k a w1 = (o, w')) \/
  (exists e, c w = (Err e, w') /\ o = Err e) \/
  (exists h, c w = (Halt h, w') /\ o = Halt h).
Proof. unfold mbind. destruct (c w) as [[] ?]; naive_solver. Qed.

(** Step a goal [mbind c k w = _] with an equation for [c w]. *)
Ltac run_with H :=
  first [ erewrite (mbind_run _ _ _ _ _ H)
        | erewrite (mbind_run _ _ _ _ _ (mtry_run _ _ _ _ H))
        | erewrite (mbind_run _ _ _ _ _ (mtry_run_err _ _ _ _ H))
        | erewrite (mbind_run _ _ _ _ _ (mmap_err_run _ _ _ _ _ H))
        | erewrite (mbind_run_err _ _ _ _ _ H)
        | erewrite (mbind_run_err _ _ _ _ _ (mmap_err_run_err _ _ _ _ _ H)) ];
  cbn beta iota.

Lemma mbind_ok {W E A B} (c : M W E A) (k : A -> M W E B) w b w' :
  mbind c k w = (Ok b, w') <->
  exists a w1, c w = (Ok a, w1) /\ k a w1 = (Ok b, w').
Proof.
  unfold mbind. destruct (c w) as [[a|e|h] w1].
  - split; [eauto|]. by intros (?&?&[= -> ->]&?).
  - split; [done|]. by intros (?&?&?&?).
  - split; [done|]. by intros (?&?&?&?).
Qed.

Lemma obind_ok {E A B} (x : outcome E A) (f : A -> outcome E B) b :
  obind x f = Ok b <-> exists a, x = Ok a /\ f a = Ok b.
Proof.
  destruct x; simpl; split; try done; [eauto|by intros (?&[= ->]&?)| |];
    by intros (?&?&?).
Qed.

Lemma guard_ok {E} b (e : E) u : guard b e = Ok u <-> b = false.
Proof. destruct u, b; simpl; naive_solver. Qed.

Lemma ok_or_ok {E A} (e : E) (x : option A) a : ok_or e x = Ok a <-> x = Some a.
Proof. destruct x; simpl; naive_solver. Qed.

Lemma mlift_ok {W E A} (x : outcome E A) (w : W) a w' :
  mlift x w = (Ok a, w') <-> x = Ok a /\ w' = w.
Proof. unfold mlift. naive_solver. Qed.

Lemma mmap_err_ok {W E F A} (f : E -> F) (c : M W E A) w a w' :
  mmap_err f c w = (Ok a, w') <-> c w = (Ok a, w').
Proof. unfold mmap_err. destruct (c w) as [[] ?]; simpl; naive_solver. Qed.

Lemma mtry_ok {W E F A} (c : M W E A) w r w' :
  @mtry W E F A c w = (Ok r, w') <->
  match r with inr a => c w = (Ok a, w') | inl e => c w = (Err e, w') end.
Proof. unfold mtry. destruct (c w) as [[] ?], r; naive_solver. Qed.

(** Peel the binds and guards of a hypothesis that a computation returned a
    value. *)
Ltac run_ok :=
  repeat match goal with
  | H : obind _ _ = Ok _ |- _ => apply obind_ok in H as (? & ? & H)
  | H : mbind _ _ _ = (Ok _, _) |- _ => apply mbind_ok in H as (? & ? & ? & H)
  | H : mlift _ _ = (Ok _, _) |- _ => apply mlift_ok in H as [H ?]; subst
  | H : mmap_err _ _ _ = (Ok _, _) |- _ => apply mmap_err_ok in H
  | H : mtry _ _ = (Ok _, _) |- _ => apply mtry_ok in H
  | H : mret _ _ = (Ok _, _) |- _ => unfold mret in H
  | H : mfail _ _ = (Ok _, _) |- _ => unfold mfail in H
  | H : guard _ _ = Ok _ |- _ => apply guard_ok in H
  | H : ok_or _ _ = Ok _ |- _ => apply ok_or_ok in H
  | H : Ok _ = Ok _ |- _ => injection H as H; subst
  | H : Err _ = Ok _ |- _ => discriminate H
  | H : Halt _ = Ok _ |- _ => discriminate H
  | H : (Ok _, _) = (Ok _, _) |- _ => injection H as H; subst
  | H : (Err _, _) = (Ok _, _) |- _ => discriminate H
  | H : (Halt _, _) = (Ok _, _) |- _ => discriminate H
  end.

(** Split boolean connectives in the hypotheses. *)
Ltac bools :=
  repeat match goal with
  | H : _ || _ = false |- _ => apply orb_false_iff in H as [? ?]
  | H : _ && _ = true |- _ => apply andb_true_iff in H as [? ?]
  | H : negb _ = false |- _ => apply negb_false_iff in H
  | H : negb _ = true |- _ => apply negb_true_iff in H
  | H : bool_decide _ = true |- _ => apply bool_decide_eq_true in H
  | H : bool_decide _ = false |- _ => apply bool_decide_eq_false in H
  end.

(** Case analysis on the hypothesis variable of a given type. *)
Tactic Notation "destruct_var" open_constr(T) :=
  match goal with x : ?T' |- _ => unify T T'; destruct x end.

(** ** Lists *)

(** Members of a list are told apart by a key they do not share. *)
Lemma NoDup_map_inj {A B} (f : A -> B) l x y :
  NoDup (map f l) -> x ∈ l -> y ∈ l -> f x = f y -> x = y.
Proof.
  induction l as [|z l IH]; simpl; [by intros _ ?%elem_of_nil|].
  intros [Hz Hl]%NoDup_cons. rewrite !elem_of_cons.
  intros [->|Hx] [->|Hy] E; [done|..].
  - destruct Hz. rewrite E. by apply list_elem_of_fmap_2.
  - destruct Hz. rewrite <- E. by apply list_elem_of_fmap_2.
  - by apply IH.
Qed.

(** ** Machine widths *)

Definition u32_max : Z := 4294967295.
Definition u64_max : Z := 18446744073709551615.
Definition i64_min : Z := -9223372036854775808.
Definition i64_max : Z := 9223372036854775807.

Definition in_u32 (z : Z) : Prop := 0 <= z <= u32_max.
Definition in_u64 (z : Z) : Prop := 0 <= z <= u64_max.
Definition in_i64 (z : Z) : Prop := i64_min <= z <= i64_max.

(** [x as i64] for a 64-bit word. *)
Definition as_i64 (z : Z) : Z :=
  let m := z mod 2 ^ 64 in if m <=? i64_max then m else m - 2 ^ 64.
(** [x as u64]. *)
Definition as_u64 (z : Z) : Z := z mod 2 ^ 64.

Definition saturating_sub (a b : Z) : Z := Z.max 0 (a - b).
Definition u64_saturating_add (a b : Z) : Z := Z.min u64_max (a + b).
Definition u64_checked_add (a b : Z) : option Z :=
  if a + b <=? u64_max then Some (a + b) else None.
Definition u64_checked_sub (a b : Z) : option Z :=
  if b <=? a then Some (a - b) else None.
Definition u32_checked_add (a b : Z) : option Z :=
  if a + b <=? u32_max then Some (a + b) else None.

Lemma as_i64_small z : 0 <= z <= i64_max -> as_i64 z = z.
Proof.
  intros H. unfold as_i64. rewrite Z.mod_small by (unfold i64_max in *; lia).
  destruct (Z.leb_spec z i64_max); lia.
Qed.

Lemma as_i64_bounds z : in_i64 (as_i64 z).
Proof.
  unfold as_i64, in_i64, i64_min, i64_max.
  pose proof (Z.mod_pos_bound z (2 ^ 64) ltac:(lia)) as Hb.
  assert (2 ^ 64 = 18446744073709551616) as E by reflexivity.
  rewrite E in *. destruct (Z.leb_spec (z mod 18446744073709551616) 9223372036854775807); lia.
Qed.

Lemma forallb_impl {A} (f g : A -> bool) l :
  (forall a, f a = true -> g a = true) -> forallb f l = true -> forallb g l = true.
Proof.
  intros Hi. induction l; simpl; [done|]. rewrite !andb_true_iff. naive_solver.
Qed.
