(* ===== verification/RustStr.v ===== *)
(** The fragment of [str], [char] and integer formatting the sources use.
    A Rust string is its UTF-8 bytes, here a [string] of 8-bit characters, so
    [String.length] is [str::len]. *)
From Stdlib Require Import Ascii String DecimalString Decimal DecimalN.
From S2P Require Import Prelude.

(** ** Bytes *)

Definition byte_val (c : ascii) : Z := Z.of_N (N_of_ascii c).

Definition bytes_of (s : string) : list Z := map byte_val (list_ascii_of_string s).

Definition len (s : string) : Z := Z.of_nat (String.length s).

Definition is_empty (s : string) : bool :=
  match s with EmptyString => true | _ => false end.

Definition is_ascii_digit (b : Z) : bool := (48 <=? b) && (b <=? 57).
Definition is_ascii_uppercase (b : Z) : bool := (65 <=? b) && (b <=? 90).
Definition is_ascii_lowercase (b : Z) : bool := (97 <=? b) && (b <=? 122).
Definition is_ascii_hexdigit (b : Z) : bool :=
  is_ascii_digit b || ((65 <=? b) && (b <=? 70)) || ((97 <=? b) && (b <=? 102)).

(** [a == b] on [str]. *)
Notation "a '==s' b" := (String.eqb a b) (at level 70, no associativity) : rust_scope.
Notation "a '!=s' b" := (negb (String.eqb a b)) (at level 70, no associativity) : rust_scope.

(** ** Case

    Every [to_lowercase] of the modelled code is compared with an ASCII word
    that contains no [k]; the characters outside ASCII whose lower case is an
    ASCII word of one letter are only the Kelvin sign (to [k]), so lowering
    the ASCII letters decides those comparisons. *)
Definition ascii_lower_char (c : ascii) : ascii :=
  if is_ascii_uppercase (byte_val c)
  then ascii_of_N (N_of_ascii c + 32) else c.

Fixpoint to_ascii_lowercase (s : string) : string :=
  match s with
  | EmptyString => EmptyString
  | String c s' => String (ascii_lower_char c) (to_ascii_lowercase s')
  end.

Definition eq_ignore_ascii_case (a b : string) : bool :=
  String.eqb (to_ascii_lowercase a) (to_ascii_lowercase b).

(** ** Searching *)

Definition starts_with (s p : string) : bool := String.prefix p s.

Fixpoint strip_prefix (p s : string) : option string :=
  match p, s with
  | EmptyString, _ => Some s
  | String a p', String b s' => if Ascii.eqb a b then strip_prefix p' s' else None
  | String _ _, EmptyString => None
  end.

Fixpoint string_rev_app (s acc : string) : string :=
  match s with
  | EmptyString => acc
  | String c s' => string_rev_app s' (String c acc)
  end.
Definition string_rev (s : string) : string := string_rev_app s "".

Definition strip_suffix (p s : string) : option string :=
  option_map string_rev (strip_prefix (string_rev p) (string_rev s)).

Definition ends_with (s p : string) : bool :=
  match strip_suffix p s with Some _ => true | None => false end.

Fixpoint str_contains (s p : string) : bool :=
  starts_with s p ||
  match s with
  | EmptyString => false
  | String _ s' => str_contains s' p
  end.

(** ** Characters of the UTF-8 text *)

(** [s.trim().is_empty()]: every character has the White_Space property. *)
Definition white1 (a : Z) : bool := ((9 <=? a) && (a <=? 13)) || (a =? 32).
Definition white2 (a b : Z) : bool := (a =? 194) && ((b =? 133) || (b =? 160)).
Definition white3 (a b c : Z) : bool :=
  ((a =? 225) && (b =? 154) && (c =? 128))
  || ((a =? 226) && (b =? 128) && (((128 <=? c) && (c <=? 138)) || (c =? 168) || (c =? 169) || (c =? 175)))
  || ((a =? 226) && (b =? 129) && (c =? 159))
  || ((a =? 227) && (b =? 128) && (c =? 128)).

Fixpoint all_white (l : list Z) : bool :=
  match l with
  | [] => true
  | a :: l1 =>
      if white1 a then all_white l1
      else match l1 with
           | b :: l2 =>
               if white2 a b then all_white l2
               else match l2 with
                    | c :: l3 => white3 a b c && all_white l3
                    | [] => false
                    end
           | [] => false
           end
  end.

Definition trim_is_empty (s : string) : bool := all_white (bytes_of s).

(** [s.trim()], a character at a time from either end; [trim_end_rev] reads the
    text backwards. *)
Fixpoint trim_start (s : string) : string :=
  match s with
  | String a s1 =>
      if white1 (byte_val a) then trim_start s1
      else match s1 with
           | String b s2 =>
               if white2 (byte_val a) (byte_val b) then trim_start s2
               else match s2 with
                    | String c s3 =>
                        if white3 (byte_val a) (byte_val b) (byte_val c) then trim_start s3 else s
                    | EmptyString => s
                    end
           | EmptyString => s
           end
  | EmptyString => s
  end.

Fixpoint trim_end_rev (s : string) : string :=
  match s with
  | String c s1 =>
      if white1 (byte_val c) then trim_end_rev s1
      else match s1 with
           | String b s2 =>
               if white2 (byte_val b) (byte_val c) then trim_end_rev s2
               else match s2 with
                    | String a s3 =>
                        if white3 (byte_val a) (byte_val b) (byte_val c) then trim_end_rev s3 else s
                    | EmptyString => s
                    end
           | EmptyString => s
           end
  | EmptyString => s
  end.

Definition trim (s : string) : string := string_rev (trim_end_rev (string_rev (trim_start s))).

(** [s.trim_matches(c)] of an ASCII character. *)
Fixpoint skip_char (c : ascii) (s : string) : string :=
  match s with
  | String a s' => if Ascii.eqb a c then skip_char c s' else s
  | EmptyString => s
  end.
Definition trim_matches (c : ascii) (s : string) : string :=
  string_rev (skip_char c (string_rev (skip_char c s))).

(** [s.split(p)] on single-byte separators: there is always one segment. *)
Fixpoint split_on (p : Z -> bool) (s : string) : list string :=
  match s with
  | EmptyString => [""]
  | String c s' =>
      if p (byte_val c) then "" :: split_on p s'
      else match split_on p s' with
           | x :: l => String c x :: l
           | [] => [String c ""]
           end
  end.

(** [s.chars().count()]: the bytes that do not continue a character. *)
Definition chars_count (s : string) : Z :=
  Z.of_nat (List.length (List.filter (fun b => negb ((128 <=? b) && (b <=? 191))) (bytes_of s))).

(** [s.chars().any(char::is_control)]: general category Cc, that is
    U+0000..U+001F, U+007F and U+0080..U+009F. *)
Fixpoint has_control (l : list Z) : bool :=
  match l with
  | [] => false
  | a :: l' =>
      (a <? 32) || (a =? 127)
      || match l' with
         | b :: _ => (a =? 194) && (128 <=? b) && (b <=? 159)
         | [] => false
         end
      || has_control l'
  end.

Definition any_control (s : string) : bool := has_control (bytes_of s).

(** ** Integers in decimal *)

(** [u64::to_string]. *)
Definition u64_to_string (z : Z) : string :=
  NilZero.string_of_uint (N.to_uint (Z.to_N z)).

(** [str::parse::<u64>]: an optional [+], then decimal digits in range. *)
Definition parse_u64 (s : string) : option Z :=
  let digits := default s (strip_prefix "+" s) in
  match NilZero.uint_of_string digits with
  | Some u =>
      let z := Z.of_N (N.of_uint u) in
      if z <=? u64_max then Some z else None
  | None => None
  end.

(** [str::parse::<i64>]: an optional sign, then decimal digits in range. *)
Definition parse_i64 (s : string) : option Z :=
  match strip_prefix "-" s with
  | Some digits =>
      match NilZero.uint_of_string digits with
      | Some u => let z := - Z.of_N (N.of_uint u) in
                  if i64_min <=? z then Some z else None
      | None => None
      end
  | None =>
      match NilZero.uint_of_string (default s (strip_prefix "+" s)) with
      | Some u => let z := Z.of_N (N.of_uint u) in
                  if z <=? i64_max then Some z else None
      | None => None
      end
  end.

(** [i64::to_string]. *)
Definition i64_to_string (z : Z) : string :=
  if z <? 0 then "-" +:+ u64_to_string (- z) else u64_to_string z.

(** ** Facts *)

Lemma to_uint_not_nil n : N.to_uint n <> Nil.
Proof.
  intros E. destruct n as [|p]; [done|].
  pose proof (Unsigned.of_to (N.pos p)) as H. rewrite E in H. done.
Qed.

Lemma uint_string_head u :
  u <> Nil ->
  exists c s, NilZero.string_of_uint u = String c s /\ Ascii.eqb "+" c = false.
Proof. destruct u; simpl; eauto; done. Qed.

(** Printing a [u64] and parsing it back gives the number. *)
Lemma parse_u64_to_string z : in_u64 z -> parse_u64 (u64_to_string z) = Some z.
Proof.
  intros [H0 H1]. unfold parse_u64, u64_to_string.
  pose proof (to_uint_not_nil (Z.to_N z)) as Hn.
  destruct (uint_string_head _ Hn) as (c & s & E & Ec).
  assert (strip_prefix "+" (NilZero.string_of_uint (N.to_uint (Z.to_N z))) = None) as ->.
  { rewrite E. cbn [strip_prefix]. by rewrite Ec. }
  simpl default. rewrite NilZero.usu by done.
  rewrite Unsigned.of_to, Z2N.id by done.
  by destruct (Z.leb_spec z u64_max); [|lia].
Qed.

Lemma u64_to_string_inj a b :
  in_u64 a -> in_u64 b -> u64_to_string a = u64_to_string b -> a = b.
Proof.
  intros Ha Hb E. apply parse_u64_to_string in Ha, Hb. rewrite E in Ha. congruence.
Qed.

Lemma parse_u64_range s z : parse_u64 s = Some z -> in_u64 z.
Proof.
  unfold parse_u64, in_u64. repeat case_match; try done. intros [= <-].
  rewrite Z.leb_le in *. lia.
Qed.

#[export] Hint Resolve parse_u64_range : core.

Lemma string_length_app a b :
  String.length (a +:+ b) = (String.length a + String.length b)%nat.
Proof. induction a; simpl; [done|]. by rewrite IHa. Qed.

(** Prefixes. *)
Lemma prefix_substring n s : String.prefix (String.substring 0 n s) s = true.
Proof.
  revert n. induction s as [|c s IH]; intros [|n]; simpl; try done.
  destruct (ascii_dec c c); [apply IH|done].
Qed.

Lemma prefix_refl s : String.prefix s s = true.
Proof. induction s as [|c s IH]; simpl; [done|]. by destruct (ascii_dec c c). Qed.

Lemma prefix_trans a c d :
  String.prefix a c = true -> String.prefix c d = true -> String.prefix a d = true.
Proof.
  revert c d. induction a as [|x a IH]; intros [|y c] [|z d]; simpl; try done.
  destruct (ascii_dec x y) as [->|]; [|done]. destruct (ascii_dec y z); [|done].
  apply IH.
Qed.

(** ** Trimming twice *)

(** Whether [trim_start] drops something, and [trim_end_rev]. *)
Definition starts_white (s : string) : bool :=
  match s with
  | String a s1 =>
      white1 (byte_val a) ||
      match s1 with
      | String b s2 =>
          white2 (byte_val a) (byte_val b) ||
          match s2 with
          | String c _ => white3 (byte_val a) (byte_val b) (byte_val c)
          | EmptyString => false
          end
      | EmptyString => false
      end
  | EmptyString => false
  end.

Definition ends_white (s : string) : bool :=
  match s with
  | String c s1 =>
      white1 (byte_val c) ||
      match s1 with
      | String b s2 =>
          white2 (byte_val b) (byte_val c) ||
          match s2 with
          | String a _ => white3 (byte_val a) (byte_val b) (byte_val c)
          | EmptyString => false
          end
      | EmptyString => false
      end
  | EmptyString => false
  end.

Lemma trim_start_fixed s : starts_white s = false -> trim_start s = s.
Proof.
  destruct s as [|a [|b [|c s]]]; simpl; try done;
    intros E; repeat (apply orb_false_iff in E as [-> E]); rewrite ?E; done.
Qed.
Lemma trim_end_fixed s : ends_white s = false -> trim_end_rev s = s.
Proof.
  destruct s as [|a [|b [|c s]]]; simpl; try done;
    intros E; repeat (apply orb_false_iff in E as [-> E]); rewrite ?E; done.
Qed.

Lemma str_app_assoc (a b c : string) : a +:+ (b +:+ c) = (a +:+ b) +:+ c.
Proof. induction a as [|x a IH]; [done|]. exact (f_equal (String x) IH). Qed.
Lemma str_app_empty (a : string) : a +:+ "" = a.
Proof. induction a as [|x a IH]; [done|]. exact (f_equal (String x) IH). Qed.

(** One turn of either loop: nothing more to drop, or a shorter text. *)
Lemma trim_start_turn s :
  (starts_white s = false /\ trim_start s = s) \/
  exists p s', s = p +:+ s' /\ (String.length s' < String.length s)%nat /\ trim_start s = trim_start s'.
Proof.
  destruct (starts_white s) eqn:E; [right|left; split; [done|by apply trim_start_fixed]].
  destruct s as [|a [|b [|c s]]]; simpl in E |- *; [done|..];
    destruct (white1 _); try (eexists (String a ""), _; split_and!; [reflexivity|simpl; lia|reflexivity]);
    try done;
    (destruct (white2 _ _);
      [eexists (String a (String b "")), _; split_and!; [reflexivity|simpl; lia|reflexivity]|]); try done.
  simpl in E. rewrite E.
  eexists (String a (String b (String c ""))), _; split_and!; [reflexivity|simpl; lia|reflexivity].
Qed.
Lemma trim_end_turn s :
  (ends_white s = false /\ trim_end_rev s = s) \/
  exists p s', s = p +:+ s' /\ (String.length s' < String.length s)%nat /\ trim_end_rev s = trim_end_rev s'.
Proof.
  destruct (ends_white s) eqn:E; [right|left; split; [done|by apply trim_end_fixed]].
  destruct s as [|a [|b [|c s]]]; simpl in E |- *; [done|..];
    destruct (white1 _); try (eexists (String a ""), _; split_and!; [reflexivity|simpl; lia|reflexivity]);
    try done;
    (destruct (white2 _ _);
      [eexists (String a (String b "")), _; split_and!; [reflexivity|simpl; lia|reflexivity]|]); try done.
  simpl in E. rewrite E.
  eexists (String a (String b (String c ""))), _; split_and!; [reflexivity|simpl; lia|reflexivity].
Qed.

(** What is left has nothing to drop and is an end of the text. *)
Lemma turns_end (f : string -> string) (white : string -> bool) :
  (forall s, (white s = false /\ f s = s) \/
     exists p s', s = p +:+ s' /\ (String.length s' < String.length s)%nat /\ f s = f s') ->
  forall s, white (f s) = false /\ exists p, s = p +:+ f s.
Proof.
  intros Hturn s. remember (String.length s) as n eqn:En. revert s En.
  induction n as [n IH] using lt_wf_ind. intros s ->.
  destruct (Hturn s) as [[Hw ->]|(p & s' & E & Hlt & ->)]; [by split; [|exists ""]|].
  destruct (IH _ Hlt s' eq_refl) as [Hw [q Hq]]. split; [done|].
  exists (p +:+ q). rewrite <- str_app_assoc, <- Hq. exact E.
Qed.

Lemma starts_white_app p q : starts_white (p +:+ q) = false -> starts_white p = false.
Proof.
  destruct p as [|a [|b [|c p]]]; simpl; try done;
    intros E; repeat (apply orb_false_iff in E as [-> E]); done.
Qed.

Lemma string_rev_app_spec s acc : string_rev_app s acc = string_rev s +:+ acc.
Proof.
  unfold string_rev. revert acc. induction s as [|c s IH]; intros acc; simpl; [done|].
  rewrite IH, (IH (String c "")), <- str_app_assoc. done.
Qed.
Lemma string_rev_cons c s : string_rev (String c s) = string_rev s +:+ String c "".
Proof. unfold string_rev at 1. simpl. apply string_rev_app_spec. Qed.
Lemma string_rev_of_app a b : string_rev (a +:+ b) = string_rev b +:+ string_rev a.
Proof.
  induction a as [|c a IH]; [symmetry; apply str_app_empty|].
  change (String c a +:+ b) with (String c (a +:+ b)).
  by rewrite !string_rev_cons, IH, str_app_assoc.
Qed.
Lemma string_rev_twice s : string_rev (string_rev s) = s.
Proof. induction s as [|c s IH]; [done|]. by rewrite string_rev_cons, string_rev_of_app, IH. Qed.

Lemma trim_again s : trim (trim s) = trim s.
Proof.
  destruct (turns_end trim_start starts_white trim_start_turn s) as [Hs _].
  destruct (turns_end trim_end_rev ends_white trim_end_turn (string_rev (trim_start s))) as [He [p Hp]].
  unfold trim at 1. rewrite trim_start_fixed.
  - unfold trim. by rewrite string_rev_twice, trim_end_fixed.
  - unfold trim. apply (f_equal string_rev) in Hp. rewrite string_rev_twice, string_rev_of_app in Hp.
    rewrite Hp in Hs. by apply starts_white_app in Hs.
Qed.
