(* ===== verification/FileSystem.v ===== *)
(** A model of the part of [std::fs] the stores use: a tree of files and
    directories, each operation of which may be refused or interrupted by the
    environment.

    A path is the list of its components, the last one first.  The world
    carries a schedule of faults: each operation consumes one entry and either
    runs ([Pass]), is refused with an error that is never [NotFound] or
    [AlreadyExists] ([FailOp]), or ends the process ([CrashOp]).  A refused or
    interrupted write leaves a prefix of its bytes behind; every other
    refused operation leaves the tree as it was.  Bytes written and not yet
    synced are at the mercy of the next crash ([crash_nodes]).

    Directory operations (create, rename, remove) are atomic and ordered, and
    volatile until their directory is synced: the world keeps the earlier
    states of the names, each with where its names point now ([ref]), and a
    power loss brings back any of them ([power_loss]).  A crash that keeps the
    names is [restart].  Symbolic links, permissions and concurrent processes
    are not modelled: a permission error is a [FailOp]. *)
From stdpp Require Import gmap.
From S2P Require Import Prelude RustStr.

Abbreviation path := (list string).

Definition parent (p : path) : path := tail p.
Definition join (p : path) (name : string) : path := name :: p.

(** Append to the whole path as an [OsString] does: the last component grows. *)
Definition sibling (p : path) (suffix : string) : path :=
  match p with
  | [] => [suffix]
  | name :: dir => (name +:+ suffix) :: dir
  end.

Inductive node :=
| File (data : string) (synced : bool)
| Dir.

Inductive io_error := NotFound | AlreadyExists | OtherIo.

Inductive fault :=
| Pass
| FailOp (written : nat)
| CrashOp (written : nat).

(** Where a name of an earlier state of the directories points: to a file that
    is reachable now, under this path or another one, or to one that is not. *)
Inductive ref :=
| Live (now : path)
| Gone (n : node).
#[export] Instance node_eq_dec : EqDecision node.
Proof. solve_decision. Defined.
#[export] Instance ref_eq_dec : EqDecision ref.
Proof. solve_decision. Defined.

Abbreviation snapshot := (gmap path ref).

(** What the environment does with the coming calls, and the earlier states of
    the directories that are not overwritten on the disk yet, latest first. *)
Record environment := Env { schedule : list fault; older : list snapshot }.

(** Every directory operation so far is durable. *)
Definition durable_so_far (schedule : list fault) : environment :=
  {| schedule := schedule; older := [] |}.
#[warning="-uniform-inheritance"] Coercion durable_so_far : list >-> environment.

Record fs_world := FsWorld { nodes : gmap path node; fs_env : environment }.

Definition faults (w : fs_world) : list fault := schedule (fs_env w).

Abbreviation IO := (M fs_world io_error).

(** One file system call: what it does to the tree, to the earlier states when
    it succeeds, and to the tree when it is refused or interrupted. *)
Definition prim_with {A : Type} (remember : gmap path node -> list snapshot -> list snapshot)
    (partial : nat -> gmap path node -> gmap path node)
    (op : gmap path node -> outcome io_error A * gmap path node) : IO A :=
  fun w =>
    let past := older (fs_env w) in
    let run rest :=
      let '(o, m) := op (nodes w) in
      (o, FsWorld m (Env rest match o with Ok _ => remember (nodes w) past | _ => past end)) in
    match faults w with
    | [] => run []
    | Pass :: rest => run rest
    | FailOp n :: rest => (Err OtherIo, FsWorld (partial n (nodes w)) (Env rest past))
    | CrashOp n :: rest => (Halt Crashed, FsWorld (partial n (nodes w)) (Env rest past))
    end.

(** A call that changes no name. *)
Definition prim {A : Type} (partial : nat -> gmap path node -> gmap path node)
    (op : gmap path node -> outcome io_error A * gmap path node) : IO A :=
  prim_with (fun _ past => past) partial op.

(** *** The earlier states of the directories *)

(** Every name points to what is there. *)
Definition links (m : gmap path node) : snapshot := map_imap (fun p _ => Some (Live p)) m.

Definition retarget (f : path -> option ref) (s : snapshot) : snapshot :=
  omap (fun r => match r with Live q => f q | Gone n => Some (Gone n) end) s.

(** The name [p] is about to point to something else, or to nothing. *)
Definition unnamed (m : gmap path node) (p q : path) : option ref :=
  if bool_decide (q = p) then Gone <$> m !! p else Some (Live q).

Definition before_unlink (p : path) (m : gmap path node) (past : list snapshot) : list snapshot :=
  map (retarget (unnamed m p)) (links m :: past).

(** Opening a file that exists changes no name. *)
Definition before_create (p : path) (m : gmap path node) (past : list snapshot) : list snapshot :=
  match m !! p with Some _ => past | None => before_unlink p m past end.

Definition unchanged (_ : nat) (m : gmap path node) : gmap path node := m.

(** ** The tree *)

Definition is_file_node (n : option node) : bool :=
  match n with Some (File _ _) => true | _ => false end.
Definition is_dir_node (n : option node) : bool :=
  match n with Some Dir => true | _ => false end.

Fixpoint ancestors (p : path) : list path :=
  match p with
  | [] => []
  | _ :: dir => dir :: ancestors dir
  end.

(** Some ancestor is a regular file: the path cannot be walked. *)
Definition blocked (m : gmap path node) (p : path) : bool :=
  existsb (fun q => is_file_node (m !! q)) (ancestors p).

Definition is_dir_at (m : gmap path node) (p : path) : bool :=
  match p with [] => true | _ => is_dir_node (m !! p) end.

Inductive file_kind := KFile | KDir.

Definition lookup_op (p : path) (m : gmap path node) : outcome io_error file_kind :=
  if blocked m p then Err OtherIo
  else match m !! p with
       | Some (File _ _) => Ok KFile
       | Some Dir => Ok KDir
       | None => match p with [] => Ok KDir | _ => Err NotFound end
       end.

(** [fs::symlink_metadata] and [fs::metadata] (no symbolic links). *)
Definition fs_metadata (p : path) : IO file_kind :=
  prim unchanged (fun m => (lookup_op p m, m)).

(** [Path::exists] and [Path::is_file] answer [false] for every error. *)
Definition fs_exists {E} (p : path) : M fs_world E bool :=
  let* r := mtry (fs_metadata p) in
  mret match r with inl _ => false | inr _ => true end.

Definition fs_is_file {E} (p : path) : M fs_world E bool :=
  let* r := mtry (fs_metadata p) in
  mret match r with inr KFile => true | _ => false end.

(** [fs::read]. *)
Definition fs_read (p : path) : IO string :=
  prim unchanged (fun m =>
    (if blocked m p then Err OtherIo
     else match m !! p with
          | Some (File d _) => Ok d
          | Some Dir => Err OtherIo
          | None => Err NotFound
          end, m)).

(** What [open] with [create] does before the kind of open matters. *)
Definition open_check (p : path) (m : gmap path node) : outcome io_error unit :=
  if blocked m p then Err OtherIo
  else if negb (is_dir_at m (parent p)) then Err NotFound
  else if is_dir_at m p then Err OtherIo
  else Ok tt.

(** [OpenOptions::new().create(true).truncate(true).write(true).open]. *)
Definition fs_open_truncate (p : path) : IO unit :=
  prim_with (before_create p) unchanged (fun m =>
    match open_check p m with
    | Ok _ => (Ok tt, <[p := File "" false]> m)
    | o => (o, m)
    end).

(** [OpenOptions::new().write(true).create_new(true).open]. *)
Definition fs_create_new (p : path) : IO unit :=
  prim_with (before_create p) unchanged (fun m =>
    if blocked m p then (Err OtherIo, m)
    else match m !! p with
         | Some _ => (Err AlreadyExists, m)
         | None =>
             match open_check p m with
             | Ok _ => (Ok tt, <[p := File "" false]> m)
             | o => (o, m)
             end
         end).

(** [OpenOptions::new().create(true).append(true).open]. *)
Definition fs_open_append (p : path) : IO unit :=
  prim_with (before_create p) unchanged (fun m =>
    match open_check p m with
    | Ok _ =>
        (Ok tt, match m !! p with
                | Some _ => m
                | None => <[p := File "" false]> m
                end)
    | o => (o, m)
    end).

Definition append_bytes (p : path) (bytes : string) (m : gmap path node) : gmap path node :=
  match m !! p with
  | Some (File d _) => <[p := File (d +:+ bytes) false]> m
  | _ => m
  end.

(** [file.write_all(bytes)] on the handle open at [p], at its end. *)
Definition fs_write_all (p : path) (bytes : string) : IO unit :=
  prim (fun n => append_bytes p (String.substring 0 n bytes))
    (fun m => (Ok tt, append_bytes p bytes m)).

(** [file.sync_all()]. *)
Definition fs_sync_all (p : path) : IO unit :=
  prim unchanged (fun m =>
    (Ok tt, match m !! p with
            | Some (File d _) => <[p := File d true]> m
            | _ => m
            end)).

(** [fs::remove_file]. *)
Definition fs_remove_file (p : path) : IO unit :=
  prim_with (before_unlink p) unchanged (fun m =>
    if blocked m p then (Err OtherIo, m)
    else match m !! p with
         | Some (File _ _) => (Ok tt, delete p m)
         | Some Dir => (Err OtherIo, m)
         | None => (Err NotFound, m)
         end).

(** The paths below a directory, and a whole subtree moved. *)
Fixpoint below (dir p : path) : bool :=
  match p with
  | [] => false
  | _ :: up => bool_decide (up = dir) || below dir up
  end.

Definition has_children (m : gmap path node) (p : path) : bool :=
  existsb (fun q => below p q) (map fst (map_to_list m)).

Definition rebase (src dst p : path) : path :=
  take (length p - length src) p ++ dst.

Definition move_tree (src dst : path) (m : gmap path node) : gmap path node :=
  list_to_map (map (fun '(p, n) =>
    (if bool_decide (p = src) || below src p then rebase src dst p else p, n))
    (map_to_list m)).

(** [fs::rename]. *)
Definition rename_op (src dst : path) (m : gmap path node)
    : outcome io_error unit * gmap path node :=
  if blocked m src || blocked m dst then (Err OtherIo, m)
  else match m !! src with
       | None => (Err NotFound, m)
       | Some n =>
           if negb (is_dir_at m (parent dst)) then (Err NotFound, m)
           else match n, m !! dst with
                | File _ _, Some Dir => (Err OtherIo, m)
                | File _ _, _ => (Ok tt, <[dst := n]> (delete src m))
                | Dir, Some (File _ _) => (Err OtherIo, m)
                | Dir, Some Dir =>
                    if has_children m dst then (Err OtherIo, m)
                    else (Ok tt, move_tree src dst (delete dst m))
                | Dir, None => (Ok tt, move_tree src dst m)
                end
       end.

(** What is renamed is found under its new name, what was there under none. *)
Definition renamed (m : gmap path node) (src dst q : path) : option ref :=
  if bool_decide (q = src) || is_dir_node (m !! src) && below src q
  then Some (Live (rebase src dst q)) else unnamed m dst q.

Definition before_rename (src dst : path) (m : gmap path node) (past : list snapshot)
    : list snapshot :=
  if bool_decide (src = dst) then past else map (retarget (renamed m src dst)) (links m :: past).

Definition fs_rename (src dst : path) : IO unit :=
  prim_with (before_rename src dst) unchanged (rename_op src dst).

(** [fs::create_dir_all]: the missing ancestors, outermost first. *)
Definition fs_mkdir (p : path) : IO unit :=
  prim_with (before_create p) unchanged (fun m =>
    match m !! p with
    | Some Dir => (Ok tt, m)
    | Some (File _ _) => (Err OtherIo, m)
    | None => (Ok tt, <[p := Dir]> m)
    end).

Fixpoint fs_create_dir_all (p : path) : IO unit :=
  match p with
  | [] => mret tt
  | _ :: dir => fs_create_dir_all dir ;;; fs_mkdir p
  end.

(** [fs::read_dir], the names in the order of the directory. *)
Definition child_name (dir p : path) : option string :=
  match p with
  | name :: up => if bool_decide (up = dir) then Some name else None
  | [] => None
  end.

Definition children (m : gmap path node) (dir : path) : list string :=
  omap (child_name dir) (map fst (map_to_list m)).

Definition fs_read_dir (p : path) : IO (list string) :=
  prim unchanged (fun m =>
    (if blocked m p then Err OtherIo
     else if is_dir_at m p then Ok (children m p)
     else match m !! p with
          | None => Err NotFound
          | Some _ => Err OtherIo
          end, m)).

(** The directory was there, under this name. *)
Definition knows (dir : path) (s : snapshot) : bool :=
  match dir, s !! dir with
  | [], _ => true
  | _, Some (Live q) => bool_decide (q = dir)
  | _, _ => false
  end.

(** [sync_all] of a directory: the names in it are on the disk now, in every
    earlier state that has the directory. *)
Definition agree_on (dir : path) (m : gmap path node) (s : snapshot) : snapshot :=
  if knows dir s then
    filter (fun e => child_name dir e.1 = None) s
    ∪ filter (fun e => child_name dir e.1 <> None) (links m)
  else s.

Definition fs_sync_dir (p : path) : IO unit :=
  prim_with (fun m => map (agree_on p m)) unchanged (fun m => (Ok tt, m)).

(** [fs::copy] of a regular file. *)
Definition fs_copy (src dst : path) : IO unit :=
  let* d := fs_read src in
  fs_open_truncate dst ;;; fs_write_all dst d.

(** [File::metadata().len()]. *)
Definition fs_len (p : path) : IO Z :=
  prim unchanged (fun m =>
    (if blocked m p then Err OtherIo
     else match m !! p with
          | Some (File d _) => Ok (len d)
          | Some Dir => Ok 0
          | None => Err NotFound
          end, m)).

(** ** UTF-8, which [fs::read_to_string] checks *)

Definition cont (b : Z) : bool := (128 <=? b) && (b <=? 191).

Fixpoint utf8_valid (l : list Z) : bool :=
  match l with
  | [] => true
  | a :: l1 =>
      if a <? 128 then utf8_valid l1
      else match l1 with
           | [] => false
           | b :: l2 =>
               if (194 <=? a) && (a <=? 223) then cont b && utf8_valid l2
               else match l2 with
                    | [] => false
                    | c :: l3 =>
                        if (224 <=? a) && (a <=? 239) then
                          cont b && cont c
                          && negb ((a =? 224) && (b <? 160))
                          && negb ((a =? 237) && (159 <? b)) && utf8_valid l3
                        else match l3 with
                             | [] => false
                             | d :: l4 =>
                                 (240 <=? a) && (a <=? 244)
                                 && cont b && cont c && cont d
                                 && negb ((a =? 240) && (b <? 144))
                                 && negb ((a =? 244) && (143 <? b)) && utf8_valid l4
                             end
                    end
           end
  end.

Definition fs_read_to_string (p : path) : IO string :=
  let* d := fs_read p in
  if utf8_valid (bytes_of d) then mret d else mfail OtherIo.

(** ** Crash and restart *)

(** What a crash leaves: an unsynced file keeps a prefix of its bytes chosen by
    the environment. *)
Definition crash_node (cut : path -> nat) (p : path) (n : node) : node :=
  match n with
  | File d false => File (String.substring 0 (cut p) d) true
  | _ => n
  end.

Definition crash_nodes (cut : path -> nat) (m : gmap path node) : gmap path node :=
  map_imap (fun p n => Some (crash_node cut p n)) m.

(** The process starts again on the tree a crash left, with a new schedule; the
    names are as they were. *)
Definition restart (cut : path -> nat) (schedule : list fault) (w : fs_world) : fs_world :=
  FsWorld (crash_nodes cut (nodes w)) schedule.

(** The tree an earlier state of the directories shows now. *)
Definition resolve (m : gmap path node) (s : snapshot) : gmap path node :=
  omap (fun r => match r with Live q => m !! q | Gone n => Some n end) s.

(** The trees a power loss may leave: the current one, and what earlier states
    of the directories show. *)
Definition trees (w : fs_world) : list (gmap path node) :=
  nodes w :: map (resolve (nodes w)) (older (fs_env w)).

(** The power fails: the last [back] directory operations that were not synced
    are undone, and unsynced bytes are cut. *)
Definition power_loss (back : nat) (cut : path -> nat) (schedule : list fault) (w : fs_world)
    : fs_world :=
  FsWorld (crash_nodes cut (default (nodes w) (trees w !! back))) schedule.

#[global] Arguments prim : simpl never.
#[global] Arguments fs_sync_dir : simpl never.
#[global] Arguments fs_metadata : simpl never.
#[global] Arguments fs_read : simpl never.
#[global] Arguments fs_read_to_string : simpl never.
#[global] Arguments fs_open_truncate : simpl never.
#[global] Arguments fs_create_new : simpl never.
#[global] Arguments fs_open_append : simpl never.
#[global] Arguments fs_write_all : simpl never.
#[global] Arguments fs_sync_all : simpl never.
#[global] Arguments fs_remove_file : simpl never.
#[global] Arguments fs_rename : simpl never.
#[global] Arguments fs_mkdir : simpl never.
#[global] Arguments fs_read_dir : simpl never.
#[global] Arguments fs_len : simpl never.
#[global] Arguments fs_exists : simpl never.
#[global] Arguments fs_is_file : simpl never.

(** ** Lemmas *)

Lemma lookup_crash_nodes cut m p :
  crash_nodes cut m !! p = crash_node cut p <$> m !! p.
Proof. unfold crash_nodes. rewrite map_lookup_imap. by destruct (m !! p). Qed.

(** A property of the tree that an operation and its interrupted forms keep is
    kept by the call under every schedule. *)
Lemma preserves_prim {A : Type} (P : gmap path node -> Prop)
    (remember : gmap path node -> list snapshot -> list snapshot)
    (partial : nat -> gmap path node -> gmap path node)
    (op : gmap path node -> outcome io_error A * gmap path node) :
  (forall n m, P m -> P (partial n m)) ->
  (forall m, P m -> P (snd (op m))) ->
  preserves (fun w => P (nodes w)) (prim_with remember partial op).
Proof.
  intros Hp Hop w Hw. unfold prim_with.
  pose proof (Hop _ Hw) as Ho. destruct (op (nodes w)) as [o m].
  destruct (faults w) as [|[|n|n] rest]; simpl in *; auto.
Qed.

Lemma preserves_unchanged (P : gmap path node -> Prop) (n : nat) m :
  P m -> P (unchanged n m).
Proof. done. Qed.

(** A path that holds a node. *)
Definition occupied (p : path) (m : gmap path node) : Prop := is_Some (m !! p).

Lemma occupied_insert p q n m : occupied p m -> occupied p (<[q := n]> m).
Proof. unfold occupied. rewrite lookup_insert. case_decide; naive_solver. Qed.

Lemma occupied_append p q b m : occupied p m -> occupied p (append_bytes q b m).
Proof. unfold append_bytes. intros. repeat case_match; auto using occupied_insert. Qed.

Lemma occupied_crash cut p m : occupied p m -> occupied p (crash_nodes cut m).
Proof. unfold occupied. rewrite lookup_crash_nodes. intros [n ->]. simpl. eauto. Qed.

#[export] Hint Resolve occupied_insert occupied_append : preserve.

(** An error the environment injects is never [NotFound]. *)
Lemma metadata_not_found p w w' :
  fs_metadata p w = (Err NotFound, w') -> nodes w !! p = None /\ nodes w' = nodes w.
Proof.
  unfold fs_metadata, prim, prim_with, lookup_op.
  destruct (faults w) as [|[|n|n] rest]; simpl; repeat case_match; naive_solver.
Qed.

Lemma metadata_ok p w k w' :
  fs_metadata p w = (Ok k, w') -> p <> [] ->
  is_Some (nodes w !! p) /\ nodes w' = nodes w.
Proof.
  unfold fs_metadata, prim, prim_with, lookup_op.
  destruct p; [done|].
  destruct (faults w) as [|[|n|n] rest]; simpl;
    repeat case_match; naive_solver.
Qed.

(** Computations that leave a view of the world as it is; with [nodes] as the
    view, the reading operations. *)
Definition reads {W V E A : Type} (view : W -> V) (c : M W E A) : Prop :=
  forall w, view (snd (c w)) = view w.

Lemma reads_prim {A : Type} (remember : gmap path node -> list snapshot -> list snapshot)
    (f : gmap path node -> outcome io_error A) :
  reads nodes (prim_with remember unchanged (fun m => (f m, m))).
Proof. intros w. unfold prim_with. by destruct (faults w) as [|[|n|n] rest]. Qed.
Lemma reads_ret {W V E A : Type} (view : W -> V) (a : A) : reads view (@mret W E A a).
Proof. done. Qed.
Lemma reads_fail {W V E A : Type} (view : W -> V) (e : E) : reads view (@mfail W E A e).
Proof. done. Qed.
Lemma reads_lift {W V E A : Type} (view : W -> V) (x : outcome E A) : reads view (@mlift W E A x).
Proof. done. Qed.
Lemma reads_bind {W V E A B : Type} (view : W -> V) (c : M W E A) (k : A -> M W E B) :
  reads view c -> (forall a, reads view (k a)) -> reads view (mbind c k).
Proof.
  intros Hc Hk w. unfold mbind. specialize (Hc w).
  destruct (c w) as [[a|e|h] w']; simpl in *; auto. by rewrite Hk.
Qed.
Lemma reads_try {W V E F A : Type} (view : W -> V) (c : M W E A) :
  reads view c -> reads view (@mtry W E F A c).
Proof. intros Hc w. unfold mtry. specialize (Hc w). by destruct (c w) as [[]]. Qed.
Lemma reads_map_err {W V E F A : Type} (view : W -> V) (f : E -> F) (c : M W E A) :
  reads view c -> reads view (mmap_err f c).
Proof. intros Hc w. unfold mmap_err. specialize (Hc w). by destruct (c w). Qed.
Lemma reads_mmap {W V E A B : Type} (view : W -> V) (f : A -> M W E B) xs :
  (forall x, reads view (f x)) -> reads view (mmap f xs).
Proof.
  intros Hf. induction xs; simpl; [apply reads_ret|].
  apply reads_bind; [done|intros]. apply reads_bind; [done|intros]. apply reads_ret.
Qed.
Lemma reads_metadata p : reads nodes (fs_metadata p).
Proof. apply reads_prim. Qed.
Lemma reads_exists {E} p : reads nodes (@fs_exists E p).
Proof. apply reads_bind; [apply reads_try, reads_metadata|intros; apply reads_ret]. Qed.
Lemma reads_is_file {E} p : reads nodes (@fs_is_file E p).
Proof. apply reads_bind; [apply reads_try, reads_metadata|intros; apply reads_ret]. Qed.
Lemma reads_read p : reads nodes (fs_read p).
Proof. apply reads_prim. Qed.
Lemma reads_len p : reads nodes (fs_len p).
Proof. apply reads_prim. Qed.
Lemma reads_read_dir p : reads nodes (fs_read_dir p).
Proof. apply reads_prim. Qed.
Lemma reads_sync_dir p : reads nodes (fs_sync_dir p).
Proof. apply (reads_prim (fun m => map (agree_on p m)) (fun _ => Ok tt)). Qed.
Lemma reads_read_to_string p : reads nodes (fs_read_to_string p).
Proof.
  apply reads_bind; [apply reads_read|intros]. case_match; [apply reads_ret|apply reads_fail].
Qed.

(** A reading operation preserves every property of the tree. *)
Lemma reads_preserves {W V E A : Type} (view : W -> V) (P : V -> Prop) (c : M W E A) :
  reads view c -> preserves (fun w => P (view w)) c.
Proof. intros Hr w Hw. by rewrite Hr. Qed.

Create HintDb reads.
#[export] Hint Resolve reads_ret reads_fail reads_lift reads_bind reads_try
  reads_map_err reads_mmap reads_metadata reads_exists reads_is_file reads_read
  reads_len reads_read_dir reads_sync_dir reads_read_to_string : reads.

(** ** The trees of earlier directory states *)

Lemma lookup_resolve m s p :
  resolve m s !! p = s !! p ≫= fun r => match r with Live q => m !! q | Gone n => Some n end.
Proof. apply lookup_omap. Qed.

Lemma lookup_retarget f s p :
  retarget f s !! p = s !! p ≫= fun r => match r with Live q => f q | Gone n => Some (Gone n) end.
Proof. apply lookup_omap. Qed.

Lemma lookup_links m p : links m !! p = (fun _ => Live p) <$> m !! p.
Proof. unfold links. rewrite map_lookup_imap. by destruct (m !! p). Qed.

Lemma resolve_links m : resolve m (links m) = m.
Proof.
  apply map_eq. intros p. rewrite lookup_resolve, lookup_links. by destruct (m !! p) eqn:E; simpl.
Qed.

(** A change of the names that says where what they pointed to is now. *)
Definition tracks (m m' : gmap path node) (f : path -> option ref) : Prop :=
  forall q, m !! q = f q ≫= fun r => match r with Live q' => m' !! q' | Gone n => Some n end.

Lemma resolve_retarget m m' f s : tracks m m' f -> resolve m' (retarget f s) = resolve m s.
Proof.
  intros Hf. apply map_eq. intros p. rewrite !lookup_resolve, lookup_retarget.
  destruct (s !! p) as [[q|n]|]; simpl; [|done..]. by rewrite (Hf q).
Qed.

(** A directory operation adds the tree before it to those before. *)
Lemma trees_grow m m' f past fs fs' :
  tracks m m' f ->
  trees (FsWorld m' (Env fs' (map (retarget f) (links m :: past)))) = m' :: trees (FsWorld m (Env fs past)).
Proof.
  intros Hf. unfold trees. cbn [nodes fs_env older map]. f_equal.
  rewrite (resolve_retarget m m' f), resolve_links by done. f_equal. rewrite map_map.
  apply map_ext. intros s. by apply resolve_retarget.
Qed.

Lemma tracks_insert m p n : tracks m (<[p := n]> m) (unnamed m p).
Proof.
  intros q. unfold unnamed. case_bool_decide as E; [subst; by destruct (m !! p)|].
  simpl. by rewrite lookup_insert_ne.
Qed.
Lemma tracks_delete m p : tracks m (delete p m) (unnamed m p).
Proof.
  intros q. unfold unnamed. case_bool_decide as E; [subst; by destruct (m !! p)|].
  simpl. by rewrite lookup_delete_ne.
Qed.
Lemma rebase_self src dst : rebase src dst src = dst.
Proof. unfold rebase. by rewrite Nat.sub_diag. Qed.
Lemma tracks_rename m src dst d s :
  m !! src = Some (File d s) -> tracks m (<[dst := File d s]> (delete src m)) (renamed m src dst).
Proof.
  intros Hs q. unfold renamed. rewrite Hs. simpl. rewrite orb_false_r. case_bool_decide as E.
  - subst q. simpl. by rewrite rebase_self, lookup_insert_eq.
  - unfold unnamed. case_bool_decide as E'; [subst; by destruct (m !! dst)|].
    simpl. by rewrite lookup_insert_ne, lookup_delete_ne.
Qed.

(** The names the current tree and the earlier states are made of. *)
Definition disk (w : fs_world) : gmap path node * list snapshot := (nodes w, older (fs_env w)).

Lemma reads_disk_prim {A : Type} (f : gmap path node -> outcome io_error A) :
  reads disk (prim unchanged (fun m => (f m, m))).
Proof.
  intros w. unfold prim, prim_with. destruct (faults w) as [|[|n|n] rest]; try done;
    by destruct (f (nodes w)).
Qed.

(** * Weakest preconditions over the file system *)

(** How a run may end: with a value, with an error, by a panic or crash. *)
Definition wp {W E A : Type} (c : M W E A) (Q : A -> W -> Prop) (R : E -> W -> Prop)
    (C : W -> Prop) (w : W) : Prop :=
  match c w with
  | (Ok a, w') => Q a w'
  | (Err e, w') => R e w'
  | (Halt _, w') => C w'
  end.

Lemma wp_ret {W E A : Type} (a : A) (Q : A -> W -> Prop) (R : E -> W -> Prop) C w :
  Q a w -> wp (mret a) Q R C w.
Proof. done. Qed.

Lemma wp_fail {W E A : Type} (e : E) (Q : A -> W -> Prop) (R : E -> W -> Prop) C w :
  R e w -> wp (mfail e) Q R C w.
Proof. done. Qed.

Lemma wp_bind {W E A B : Type} (c : M W E A) (k : A -> M W E B) Q R C w :
  wp c (fun a w' => wp (k a) Q R C w') R C w -> wp (mbind c k) Q R C w.
Proof. unfold wp, mbind. by destruct (c w) as [[a|e|h] w']. Qed.

Lemma wp_try {W E F A : Type} (c : M W E A) (Q : E + A -> W -> Prop) (R : F -> W -> Prop) C w :
  wp c (fun a => Q (inr a)) (fun e => Q (inl e)) C w -> wp (mtry c) Q R C w.
Proof. unfold wp, mtry. by destruct (c w) as [[a|e|h] w']. Qed.

Lemma wp_map_err {W E F A : Type} (f : E -> F) (c : M W E A) Q R C w :
  wp c Q (fun e => R (f e)) C w -> wp (mmap_err f c) Q R C w.
Proof. unfold wp, mmap_err. by destruct (c w) as [[a|e|h] w']. Qed.

Lemma wp_mono {W E A : Type} (c : M W E A) (Q Q' : A -> W -> Prop) (R R' : E -> W -> Prop)
    (C C' : W -> Prop) w :
  wp c Q R C w ->
  (forall a w', Q a w' -> Q' a w') -> (forall e w', R e w' -> R' e w') ->
  (forall w', C w' -> C' w') -> wp c Q' R' C' w.
Proof. unfold wp. destruct (c w) as [[a|e|h] w']; auto. Qed.

(** A call of the file system: it may be refused, end the process, or run. *)
Lemma wp_prim_past {A : Type} (remember : gmap path node -> list snapshot -> list snapshot)
    (partial : nat -> gmap path node -> gmap path node)
    (op : gmap path node -> outcome io_error A * gmap path node) Q R C w :
  let past := older (fs_env w) in
  (forall n fs, R OtherIo (FsWorld (partial n (nodes w)) (Env fs past))) ->
  (forall n fs, C (FsWorld (partial n (nodes w)) (Env fs past))) ->
  (forall fs, match op (nodes w) with
              | (Ok a, m) => Q a (FsWorld m (Env fs (remember (nodes w) past)))
              | (Err e, m) => R e (FsWorld m (Env fs past))
              | (Halt _, m) => C (FsWorld m (Env fs past))
              end) ->
  wp (prim_with remember partial op) Q R C w.
Proof.
  intros past HR HC HQ. unfold wp, prim_with.
  destruct (faults w) as [|[|n|n] rest]; [specialize (HQ [])|specialize (HQ rest)|by auto..];
    by destruct (op (nodes w)) as [[] ?].
Qed.

(** ... when the earlier states do not matter. *)
Lemma wp_prim {A : Type} (remember : gmap path node -> list snapshot -> list snapshot)
    (partial : nat -> gmap path node -> gmap path node)
    (op : gmap path node -> outcome io_error A * gmap path node)
    Q R C w :
  (forall n fs, R OtherIo (FsWorld (partial n (nodes w)) fs)) ->
  (forall n fs, C (FsWorld (partial n (nodes w)) fs)) ->
  (forall fs, match op (nodes w) with
              | (Ok a, m) => Q a (FsWorld m fs)
              | (Err e, m) => R e (FsWorld m fs)
              | (Halt _, m) => C (FsWorld m fs)
              end) ->
  wp (prim_with remember partial op) Q R C w.
Proof.
  intros HR HC HQ. apply wp_prim_past; [auto..|]. intros fs.
  destruct (op (nodes w)) as [[] m]; apply HQ.
Qed.

Lemma wp_preserves {W E A : Type} (P : W -> Prop) (c : M W E A) w :
  preserves P c -> P w -> wp c (fun _ => P) (fun _ => P) P w.
Proof. intros Hc Hw. specialize (Hc w Hw). unfold wp. by destruct (c w) as [[] ?]. Qed.

Lemma preserves_wp {W E A : Type} (P : W -> Prop) (c : M W E A) :
  (forall w, P w -> wp c (fun _ => P) (fun _ => P) P w) -> preserves P c.
Proof. intros H w Hw. specialize (H w Hw). unfold wp in H. by destruct (c w) as [[] ?]. Qed.

(** ** Paths of one directory *)

(** No regular file stands where the path to the children of [dir] passes. *)
Definition walkable (dir : path) (m : gmap path node) : Prop :=
  forall name, blocked m (name :: dir) = false.

Lemma ancestor_shorter p q : q ∈ ancestors p -> (length q < length p)%nat.
Proof.
  induction p as [|a p IH]; simpl; [by intros ?%elem_of_nil|].
  intros [->|H]%elem_of_cons; [lia|]. specialize (IH H). lia.
Qed.

Lemma blocked_false m p :
  blocked m p = false <-> forall q, q ∈ ancestors p -> is_file_node (m !! q) = false.
Proof.
  unfold blocked. rewrite <- not_true_iff_false, existsb_exists.
  split.
  - intros H q Hq. apply not_true_iff_false. intros E. apply H.
    exists q. split; [by apply list_elem_of_In|done].
  - intros H (q & Hq & E). rewrite H in E; [done|by apply list_elem_of_In].
Qed.

Lemma walkable_iff dir m :
  walkable dir m <-> forall q, q = dir \/ q ∈ ancestors dir -> is_file_node (m !! q) = false.
Proof.
  unfold walkable. setoid_rewrite blocked_false. simpl. split.
  - intros H q Hq. apply (H ""). by rewrite elem_of_cons.
  - intros H _ q Hq. apply H. by rewrite <- elem_of_cons.
Qed.

(** Changing a child of [dir] leaves the path to [dir] alone. *)
Lemma walkable_child dir name m m' :
  walkable dir m ->
  (forall q, q <> name :: dir -> m' !! q = m !! q) -> walkable dir m'.
Proof.
  rewrite !walkable_iff. intros Hw Hm q Hq. rewrite Hm; auto.
  intros ->. destruct Hq as [E|E].
  - apply (f_equal length) in E. simpl in E. lia.
  - apply ancestor_shorter in E. simpl in E. lia.
Qed.

Lemma walkable_insert dir name n m : walkable dir m -> walkable dir (<[name :: dir := n]> m).
Proof. intros. eapply walkable_child; [done|]. intros. by rewrite lookup_insert_ne. Qed.

Lemma walkable_delete dir name m : walkable dir m -> walkable dir (delete (name :: dir) m).
Proof. intros. eapply walkable_child; [done|]. intros. by rewrite lookup_delete_ne. Qed.

Lemma walkable_insert_dir dir p m : walkable dir m -> walkable dir (<[p := Dir]> m).
Proof.
  rewrite !walkable_iff. intros Hw q Hq. rewrite lookup_insert. case_decide; auto.
Qed.

Lemma walkable_append dir name b m :
  walkable dir m -> walkable dir (append_bytes (name :: dir) b m).
Proof. intros. unfold append_bytes. repeat case_match; auto using walkable_insert. Qed.

Lemma is_file_crash (cut : path -> nat) (p : path) (m : gmap path node) :
  is_file_node (crash_nodes cut m !! p) = is_file_node (m !! p).
Proof. rewrite lookup_crash_nodes. by destruct (m !! p) as [[? []|]|]. Qed.

Lemma walkable_crash cut dir m : walkable dir m -> walkable dir (crash_nodes cut m).
Proof. rewrite !walkable_iff. intros H q Hq. rewrite is_file_crash. auto. Qed.

#[export] Hint Resolve walkable_insert walkable_delete walkable_insert_dir
  walkable_append walkable_crash : preserve.

(** [create_dir_all] only adds directories. *)
Lemma create_dir_all_spec p w :
  wp (fs_create_dir_all p)
    (fun _ w' => (forall q n, nodes w !! q = Some n -> nodes w' !! q = Some n) /\
                 (forall q n, nodes w' !! q = Some n -> nodes w !! q = Some n \/ n = Dir) /\
                 is_dir_at (nodes w') p = true)
    (fun _ w' => (forall q n, nodes w !! q = Some n -> nodes w' !! q = Some n) /\
                 (forall q n, nodes w' !! q = Some n -> nodes w !! q = Some n \/ n = Dir))
    (fun w' => (forall q n, nodes w !! q = Some n -> nodes w' !! q = Some n) /\
               (forall q n, nodes w' !! q = Some n -> nodes w !! q = Some n \/ n = Dir)) w.
Proof.
  revert w. induction p as [|name dir IH]; intros w; simpl.
  { apply wp_ret. naive_solver. }
  apply wp_bind. eapply wp_mono; [apply IH| |naive_solver|naive_solver].
  clear IH. intros [] w1 (H1 & H2 & _).
  apply wp_prim; simpl; unfold unchanged; [naive_solver..|].
  intros fs. destruct (nodes w1 !! (name :: dir)) as [[]|] eqn:E; simpl.
  - naive_solver.
  - split_and!; [naive_solver|naive_solver|by rewrite E].
  - rewrite lookup_insert_eq. split_and!; [|intros q n; rewrite lookup_insert; case_decide; naive_solver|done].
    intros q n Hq. rewrite lookup_insert_ne; [by apply H1|].
    intros <-. apply H1 in Hq. congruence.
Qed.

Lemma create_dir_all_preserves_below (P : gmap path node -> Prop) (p : path) :
  (forall m q, (length q <= length p)%nat -> m !! q = None -> P m -> P (<[q := Dir]> m)) ->
  preserves (fun w => P (nodes w)) (fs_create_dir_all p).
Proof.
  induction p as [|name dir IH]; intros HP; simpl; [apply preserves_ret|].
  apply preserves_bind.
  { apply IH. intros m q Hq. apply HP. simpl. lia. }
  intros _. apply preserves_prim; [by intros|].
  intros m Hm. repeat case_match; simpl; auto.
Qed.

Lemma create_dir_all_preserves (P : gmap path node -> Prop) (p : path) :
  (forall m q, m !! q = None -> P m -> P (<[q := Dir]> m)) ->
  preserves (fun w => P (nodes w)) (fs_create_dir_all p).
Proof. intros HP. apply create_dir_all_preserves_below. auto. Qed.

(** Walk through the binds of a goal [wp _ _ _ _ _]. *)
Ltac wp_step :=
  match goal with
  | |- wp (mbind _ _) _ _ _ _ => apply wp_bind
  | |- wp (mtry _) _ _ _ _ => apply wp_try
  | |- wp (mmap_err _ _) _ _ _ _ => apply wp_map_err
  | |- wp (mret _) _ _ _ _ => apply wp_ret
  | |- wp (mfail _) _ _ _ _ => apply wp_fail
  end.

(** Run one call of the file system. *)
Ltac wp_call := apply wp_prim; unfold unchanged; cbn [nodes faults].
