(* ===== verification/External.v ===== *)
(** Code the program calls and does not contain, as interfaces: each class
    lists the operations of a crate the sources use, and a companion class of
    laws states the documented behaviour a theorem relies on.  Nothing here
    fixes an implementation. *)
From Stdlib Require Import SpecFloat.
From S2P Require Import Prelude RustStr FileSystem.

(** ** [f64], IEEE 754 binary64 without primitive operations *)

Abbreviation f64 := spec_float.

(** [f64::from(u32)]: exact. *)
Definition f64_of_Z (z : Z) : f64 := binary_normalize 53 1024 z 0 false.
Definition f64_is_finite (x : f64) : bool :=
  match x with S754_zero _ | S754_finite _ _ _ => true | _ => false end.
Definition f64_ge_zero (x : f64) : bool := SFleb (S754_zero false) x.

(** ** rust_decimal *)

Class DecimalLib := {
  Dec : Type;
  dec_from_str : string -> option Dec;
  dec_from_str_exact : string -> option Dec;
  (* [Ord]: the numeric order, blind to the scale. *)
  dec_cmp : Dec -> Dec -> comparison;
  dec_of_Z : Z -> Dec;
  dec_checked_add : Dec -> Dec -> option Dec;
  (* The operators panic on overflow and on division by zero. *)
  dec_sub : Dec -> Dec -> option Dec;
  dec_mul : Dec -> Dec -> option Dec;
  dec_div : Dec -> Dec -> option Dec;
  dec_abs : Dec -> Dec;
  dec_normalize : Dec -> Dec;
  dec_to_string : Dec -> string;
  dec_to_f64 : Dec -> option f64;
}.

Section Comparisons.
Context `{DecimalLib}.
Definition dec_zero : Dec := dec_of_Z 0.
Definition dec_ltb (a b : Dec) : bool := match dec_cmp a b with Lt => true | _ => false end.
Definition dec_leb (a b : Dec) : bool := match dec_cmp a b with Gt => false | _ => true end.
Definition dec_eqb (a b : Dec) : bool := match dec_cmp a b with Eq => true | _ => false end.
End Comparisons.

(** The order is a total preorder, [normalize] keeps the number, and the text
    of a normalized number reads back as that number. *)
Class DecimalLaws `{DecimalLib} := {
  dec_cmp_antisym a b : dec_cmp b a = CompOpp (dec_cmp a b);
  dec_leb_trans a b c : dec_leb a b = true -> dec_leb b c = true -> dec_leb a c = true;
  dec_normalize_eq d : dec_cmp (dec_normalize d) d = Eq;
  (* a sum with a number that is not negative is no less, rounded or not *)
  dec_checked_add_le a b c :
    dec_checked_add a b = Some c -> dec_leb dec_zero a = true -> dec_leb b c = true;
  dec_exact_to_string d :
    exists d', dec_from_str_exact (dec_to_string (dec_normalize d)) = Some d' /\
               dec_cmp d' d = Eq;
}.

(** The text of a normalized number: equal numbers print alike, in at most 31
    bytes, with digits around an optional point and a sign only below zero. *)
Class DecimalTextLaws `{DecimalLib} := {
  dec_exact_zero : exists z, dec_from_str_exact "0" = Some z /\ dec_cmp z dec_zero = Eq;
  dec_text_canonical a b :
    dec_cmp a b = Eq -> dec_to_string (dec_normalize a) = dec_to_string (dec_normalize b);
  dec_text_length d : 1 <= len (dec_to_string (dec_normalize d)) <= 31;
  dec_text_chars d :
    forallb (fun b => is_ascii_digit b || (b =? 46) || (dec_ltb d dec_zero && (b =? 45)))
      (bytes_of (dec_to_string (dec_normalize d))) = true;
  dec_text_points d :
    let text := dec_to_string (dec_normalize d) in
    let unsigned := default text (strip_prefix "-" text) in
    starts_with unsigned "." = false /\ ends_with unsigned "." = false;
}.

(** ** chrono and chrono_tz *)

Class TimezoneLib := {
  Tz : Type;
  DateTime : Type;
  LocalMidnight : Type;
  (* [tz.parse::<chrono_tz::Tz>().ok()] *)
  tz_parse : string -> option Tz;
  tz_shanghai : Tz;
  (* [Utc.timestamp_millis_opt(ms).single()], [None] out of chrono's range *)
  utc_from_millis : Z -> option DateTime;
  (* [dt.with_timezone(&tz).date_naive()] at 00:00:00 *)
  local_midnight : Tz -> DateTime -> LocalMidnight;
  (* the ["%Y-%m-%d"] text of a local date *)
  date_text : LocalMidnight -> string;
  (* [tz.from_local_datetime(&midnight).single()] in milliseconds *)
  local_single_millis : Tz -> LocalMidnight -> option Z;
}.

(** ** sha2 and hex *)

Class Sha256Lib := {
  (* [hex::encode(Sha256::digest(bytes))] *)
  sha256_hex : string -> string;
}.

Class Sha256Laws `{Sha256Lib} := {
  sha256_hex_length s : String.length (sha256_hex s) = 64%nat;
  sha256_hex_digits s : forallb is_ascii_hexdigit (bytes_of (sha256_hex s)) = true;
}.

(** ** serde: one format at one type *)

Class Codec (A : Type) := {
  encode : A -> option string;
  decode : string -> option A;
}.

(** Encoding and decoding a value the type's own checks accept is the
    identity. *)
Class CodecLaws (A : Type) `{Codec A} (storable : A -> Prop) := {
  decode_encode a bytes : storable a -> encode a = Some bytes -> decode bytes = Some a;
}.

(** The text of a JSON object: a proper prefix of it is no JSON text, but for
    white space after the object. *)
Class ObjectTextLaws (A : Type) `{Codec A} := {
  decode_prefix t t' a a' :
    decode t = Some a -> String.prefix t' t = true -> decode t' = Some a' -> a' = a;
}.

(** ** uuid *)

Class UuidLib := {
  (* [uuid::Uuid::parse_str(s).is_ok()] *)
  uuid_ok : string -> bool;
}.

(** ** base64: the STANDARD engine; bytes are the characters of a [string] *)

Class Base64Lib := {
  b64_decode : string -> option string;
  b64_encode : string -> string;
}.

(** ** The text of operating system and parser errors *)

Class ErrorText := {
  io_display : io_error -> string;
  toml_error_text : string -> string;
}.

(** ** Facts *)

Section DecimalFacts.
Context `{DecimalLaws}.

Lemma dec_cmp_refl a : dec_cmp a a = Eq.
Proof. pose proof (dec_cmp_antisym a a) as E. revert E. by destruct (dec_cmp a a). Qed.

Lemma dec_leb_refl a : dec_leb a a = true.
Proof. unfold dec_leb. by rewrite dec_cmp_refl. Qed.

Lemma dec_ltb_negb_leb a b : dec_ltb a b = negb (dec_leb b a).
Proof.
  unfold dec_ltb, dec_leb. rewrite (dec_cmp_antisym a b). by destruct (dec_cmp a b).
Qed.

Lemma dec_eq_leb a b : dec_cmp a b = Eq -> dec_leb a b = true.
Proof. unfold dec_leb. by intros ->. Qed.

Lemma dec_eq_sym a b : dec_cmp a b = Eq -> dec_cmp b a = Eq.
Proof. intros E. by rewrite (dec_cmp_antisym a b), E. Qed.

Lemma dec_eq_trans a b c : dec_cmp a b = Eq -> dec_cmp b c = Eq -> dec_cmp a c = Eq.
Proof.
  intros Hab Hbc.
  assert (dec_leb a c = true) as H1.
  { apply (dec_leb_trans a b c); by apply dec_eq_leb. }
  assert (dec_leb c a = true) as H2.
  { apply (dec_leb_trans c b a); by apply dec_eq_leb, dec_eq_sym. }
  revert H1 H2. unfold dec_leb. rewrite (dec_cmp_antisym a c).
  by destruct (dec_cmp a c).
Qed.
End DecimalFacts.

(** * serde_json::Value: objects keep their members as an association list, numbers are unsigned, negative or float *)

Inductive json :=
| JNull
| JBool (b : bool)
| JPosInt (n : Z)
| JNegInt (n : Z)
| JFloat (x : f64)
| JString (s : string)
| JArray (items : list json)
| JObject (members : list (string * json)).

Fixpoint assoc {A} (key : string) (members : list (string * A)) : option A :=
  match members with
  | [] => None
  | (k, v) :: rest => if k ==s key then Some v else assoc key rest
  end.

(** [value.get(key)]: [None] on anything but an object. *)
Definition json_get (key : string) (v : json) : option json :=
  match v with JObject members => assoc key members | _ => None end.

Definition as_u64_value (v : json) : option Z :=
  match v with JPosInt n => Some n | _ => None end.
Definition as_i64_value (v : json) : option Z :=
  match v with
  | JPosInt n => if n <=? i64_max then Some n else None
  | JNegInt n => Some n
  | _ => None
  end.
Definition as_str (v : json) : option string :=
  match v with JString s => Some s | _ => None end.
Definition as_array (v : json) : option (list json) :=
  match v with JArray l => Some l | _ => None end.
Definition as_object (v : json) : option (list (string * json)) :=
  match v with JObject m => Some m | _ => None end.
Definition as_bool (v : json) : option bool :=
  match v with JBool b => Some b | _ => None end.
Definition is_null (v : json) : bool :=
  match v with JNull => true | _ => false end.

(** [iter().find_map(f)]. *)
Fixpoint find_map {A B} (f : A -> option B) (xs : list A) : option B :=
  match xs with
  | [] => None
  | x :: xs' => match f x with Some y => Some y | None => find_map f xs' end
  end.

Lemma find_map_some {A B} (f : A -> option B) xs y :
  find_map f xs = Some y -> exists x, x ∈ xs /\ f x = Some y.
Proof.
  induction xs as [|x xs IH]; simpl; [done|]. destruct (f x) eqn:E.
  - intros [= ->]. exists x. split; [apply elem_of_cons; by left|done].
  - intros (z & ? & ?)%IH. exists z. split; [apply elem_of_cons; by right|done].
Qed.
