(* ===== verification/Models.v ===== *)
(** The data the components exchange: the application error (error.rs), the
    trading records (models/trading.rs), the journal record
    (models/order_submission.rs), the risk configuration and violations
    (models/config.rs, models/risk.rs). *)
From S2P Require Import Prelude RustStr FileSystem External.

(** ** error.rs *)

Inductive AuthFailureKind :=
| SessionExpired | MissingCredential | CredentialStorage | SigningConfiguration
| Timestamp | Signature | AccessDenied | RateLimited | AuthOther.

Inductive NotificationCause := CauseAuthFailure (kind : AuthFailureKind).

Inductive TradingFailureKind := FailureRejected.
Record TradingFailure := { failure_kind : TradingFailureKind }.

Inductive AppError :=
| Auth (message : string)
| AuthFailure (kind : AuthFailureKind)
| Connection (message : string)
| Trading (message : string)
| TradingFailed (failure : TradingFailure)
| Risk (message : string)
| Config (message : string)
| Storage (message : string)
| NotConnected
| Internal (message : string)
| Notified (code message notification_id : string) (cause : option NotificationCause)
| Observed (message : string)
| OrderSubmissionUnknown (order_link_id : string)
| OrderSubmissionBlocked (order_link_id : string)
| OrderSubmissionRejected (message : string)
| Plugin (code message : string) (diagnostic : option string).

#[export] Instance AuthFailureKind_eq_dec : EqDecision AuthFailureKind.
Proof. solve_decision. Defined.
#[export] Instance NotificationCause_eq_dec : EqDecision NotificationCause.
Proof. solve_decision. Defined.
#[export] Instance TradingFailureKind_eq_dec : EqDecision TradingFailureKind.
Proof. solve_decision. Defined.
#[export] Instance TradingFailure_eq_dec : EqDecision TradingFailure.
Proof. solve_decision. Defined.
#[export] Instance AppError_eq_dec : EqDecision AppError.
Proof. solve_decision. Defined.

Definition TradingFailure_rejected : TradingFailure := {| failure_kind := FailureRejected |}.

Definition TradingFailure_user_message (f : TradingFailure) : string :=
  match failure_kind f with FailureRejected => "订单请求被交易端拒绝" end.

(** [Display], hence [user_message]. *)
Definition user_message (e : AppError) : string :=
  match e with
  | Auth m => "认证失败: " +:+ m
  | AuthFailure _ => "认证失败"
  | Connection m => "连接错误: " +:+ m
  | Trading m => "交易错误: " +:+ m
  | TradingFailed f => "交易错误: " +:+ TradingFailure_user_message f
  | Risk m => "风控拒绝: " +:+ m
  | Config m => "配置错误: " +:+ m
  | Storage m => "存储错误: " +:+ m
  | NotConnected => "未连接"
  | Internal m => "内部错误: " +:+ m
  | Notified _ message _ _ => message
  | Observed m => m
  | OrderSubmissionUnknown _ => "订单提交结果待确认，请查询原订单，勿重复提交"
  | OrderSubmissionBlocked _ => "存在待确认订单，请先查询原订单结果"
  | OrderSubmissionRejected m => m
  | Plugin _ message _ => message
  end.

(** What [Serialize] writes: a structure with named fields, or one string. *)
Inductive Serialized :=
| SerStruct (name : string) (fields : list (string * string))
| SerStr (value : string).

Definition serialize_error (e : AppError) : Serialized :=
  match e with
  | OrderSubmissionUnknown id =>
      SerStruct "OrderSubmissionError"
        [("code", "ORDER_SUBMISSION_UNKNOWN"); ("message", user_message e); ("orderLinkId", id)]
  | OrderSubmissionBlocked id =>
      SerStruct "OrderSubmissionError"
        [("code", "ORDER_SUBMISSION_BLOCKED"); ("message", user_message e); ("orderLinkId", id)]
  | OrderSubmissionRejected message =>
      SerStruct "OrderSubmissionError"
        [("code", "ORDER_SUBMISSION_REJECTED"); ("message", message)]
  | Plugin code message _ =>
      SerStruct "PluginError" [("code", code); ("message", message)]
  | Notified code message notification_id _ =>
      SerStruct "CommandError"
        [("code", code); ("message", message); ("notificationId", notification_id)]
  | _ => SerStr (user_message e)
  end.

(** [impl From<std::io::Error> for AppError]. *)
Definition AppError_from_io `{ErrorText} (e : io_error) : AppError := Internal (io_display e).

(** ** models/trading.rs *)

Record SubmissionContext := {
  sc_submission_id : string;
  sc_account_id : string;
  sc_session_epoch : Z;
}.

Record SessionContext := { ses_account_id : string; ses_session_epoch : Z }.

Definition SessionContext_from (c : SubmissionContext) : SessionContext :=
  {| ses_account_id := sc_account_id c; ses_session_epoch := sc_session_epoch c |}.

Inductive OrderStatus := New | PartiallyFilled | Filled | Cancelled | Rejected | Unknown.

#[export] Instance OrderStatus_eq_dec : EqDecision OrderStatus.
Proof. solve_decision. Defined.

Definition one_of (s : string) (words : list string) : bool :=
  existsb (String.eqb s) words.

Definition OrderStatus_from_raw (value : string) : OrderStatus :=
  let v := to_ascii_lowercase value in
  if one_of v ["new"; "created"; "active"; "untriggered"] then New
  else if one_of v ["partiallyfilled"; "partially_filled"] then PartiallyFilled
  else if one_of v ["filled"] then Filled
  else if one_of v ["cancelled"; "canceled"] then Cancelled
  else if one_of v ["rejected"] then Rejected
  else Unknown.

Record Order := {
  o_order_id : string;
  o_symbol : string;
  o_side : string;
  o_order_type : string;
  o_price : string;
  o_qty : string;
  o_status : OrderStatus;
  o_order_link_id : option string;
  o_filled_qty : string;
  o_avg_price : string;
}.

#[export] Instance Order_eq_dec : EqDecision Order.
Proof. solve_decision. Defined.

Record OrderProtection := {
  take_profit : option string;
  stop_loss : option string;
  trigger_by : string;
}.

#[export] Instance OrderProtection_eq_dec : EqDecision OrderProtection.
Proof. solve_decision. Defined.

Record PlaceOrderRequest := {
  r_symbol : string;
  r_side : string;
  r_order_type : string;
  r_qty : string;
  r_position_idx : Z;
  r_price : option string;
  r_time_in_force : option string;
  r_order_link_id : option string;
  r_reduce_only : option bool;
  r_protection : option OrderProtection;
}.

#[export] Instance PlaceOrderRequest_eq_dec : EqDecision PlaceOrderRequest.
Proof. solve_decision. Defined.

Record OrderAcknowledgement := {
  ack_order_id : string;
  ack_order_link_id : option string;
}.

Record CancelOrderRequest := {
  c_symbol : string;
  c_order_id : option string;
  c_order_link_id : option string;
}.

Definition option_list {A} (x : option A) : list A :=
  match x with Some a => [a] | None => [] end.

Section Protection.
Context `{DecimalLib}.

(** One price leg of [OrderProtection::validate_shape]. *)
Definition protection_price_ok (value : string) : bool :=
  negb (is_empty value) && (len value <=? 64)
  && forallb (fun b => is_ascii_digit b || (b =? 46)) (bytes_of value)
  && negb (starts_with value ".") && negb (ends_with value ".")
  && match dec_from_str_exact value with
     | Some n => dec_ltb dec_zero n
     | None => false
     end.

Definition validate_shape (p : OrderProtection) : outcome string unit :=
  if negb (one_of (trigger_by p) ["LastPrice"; "MarkPrice"])
     || (negb (bool_decide (is_Some (take_profit p))) && negb (bool_decide (is_Some (stop_loss p))))
  then Err "invalid protection selector or empty legs"
  else if forallb protection_price_ok (option_list (take_profit p) ++ option_list (stop_loss p))%list
  then Ok tt
  else Err "invalid protection price".
End Protection.

(** ** models/order_submission.rs *)

Inductive SubmissionOutcome :=
| Pending
| Accepted (order : Order)
| SubRejected.

#[export] Instance SubmissionOutcome_eq_dec : EqDecision SubmissionOutcome.
Proof. solve_decision. Defined.

Record StoredSubmission := {
  s_schema_version : Z;
  s_scope : string;
  s_order_link_id : string;
  s_request : PlaceOrderRequest;
  s_created_at_ms : Z;
  s_outcome : SubmissionOutcome;
  s_acknowledged : bool;
}.

#[export] Instance StoredSubmission_eq_dec : EqDecision StoredSubmission.
Proof. solve_decision. Defined.

Record PendingOrderSubmission := {
  p_order_link_id : string;
  p_symbol : string;
  p_side : string;
  p_order_type : string;
  p_qty : string;
  p_price : option string;
  p_reduce_only : option bool;
  p_created_at_ms : Z;
}.

Definition PendingOrderSubmission_from (record : StoredSubmission) : PendingOrderSubmission :=
  {| p_order_link_id := s_order_link_id record;
     p_symbol := r_symbol (s_request record);
     p_side := r_side (s_request record);
     p_order_type := r_order_type (s_request record);
     p_qty := r_qty (s_request record);
     p_price := r_price (s_request record);
     p_reduce_only := r_reduce_only (s_request record);
     p_created_at_ms := s_created_at_ms record |}.

(** ** models/risk.rs *)

Inductive RiskViolationCode :=
| InvalidQuantity | NonPositiveQuantity | MaxOrderQty | MissingLimitPrice
| InvalidLimitPrice | NonPositiveLimitPrice | ReferencePriceUnavailable
| MaxPriceDeviation | DailyOrderLimit | LedgerUnavailable.

#[export] Instance RiskViolationCode_eq_dec : EqDecision RiskViolationCode.
Proof. solve_decision. Defined.

Definition risk_code_parse (value : string) : option RiskViolationCode :=
  if value ==s "invalidQuantity" then Some InvalidQuantity
  else if value ==s "nonPositiveQuantity" then Some NonPositiveQuantity
  else if value ==s "maxOrderQty" then Some MaxOrderQty
  else if value ==s "missingLimitPrice" then Some MissingLimitPrice
  else if value ==s "invalidLimitPrice" then Some InvalidLimitPrice
  else if value ==s "nonPositiveLimitPrice" then Some NonPositiveLimitPrice
  else if value ==s "referencePriceUnavailable" then Some ReferencePriceUnavailable
  else if value ==s "maxPriceDeviation" then Some MaxPriceDeviation
  else if value ==s "dailyOrderLimit" then Some DailyOrderLimit
  else if value ==s "ledgerUnavailable" then Some LedgerUnavailable
  else None.

(** [policy.rs: risk_code], the text the codes travel as. *)
Definition risk_code (code : RiskViolationCode) : string :=
  match code with
  | InvalidQuantity => "invalidQuantity"
  | NonPositiveQuantity => "nonPositiveQuantity"
  | MaxOrderQty => "maxOrderQty"
  | MissingLimitPrice => "missingLimitPrice"
  | InvalidLimitPrice => "invalidLimitPrice"
  | NonPositiveLimitPrice => "nonPositiveLimitPrice"
  | ReferencePriceUnavailable => "referencePriceUnavailable"
  | MaxPriceDeviation => "maxPriceDeviation"
  | DailyOrderLimit => "dailyOrderLimit"
  | LedgerUnavailable => "ledgerUnavailable"
  end.

Record RiskViolation := { v_code : RiskViolationCode; v_limit : option f64 }.

Definition RiskViolation_new (code : RiskViolationCode) : RiskViolation :=
  {| v_code := code; v_limit := None |}.

Definition RiskViolation_with_limit (code : RiskViolationCode) (limit : f64) : RiskViolation :=
  {| v_code := code;
     v_limit := if f64_is_finite limit && f64_ge_zero limit then Some limit else None |}.

(** [f64_text] is [Display] of [f64]. *)
Definition RiskViolation_user_message (f64_text : f64 -> string) (v : RiskViolation) : string :=
  match v_code v, v_limit v with
  | InvalidQuantity, _ => "订单数量格式无效"
  | NonPositiveQuantity, _ => "订单数量必须大于 0"
  | MaxOrderQty, Some limit => "订单数量超过最大限制 " +:+ f64_text limit
  | MaxOrderQty, None => "订单数量超过最大限制"
  | MissingLimitPrice, _ => "限价单必须提供价格"
  | InvalidLimitPrice, _ => "限价格式无效"
  | NonPositiveLimitPrice, _ => "限价必须大于 0"
  | ReferencePriceUnavailable, _ => "无法获取有效的最新市价，请刷新行情后重试"
  | MaxPriceDeviation, Some limit => "限价偏离市价超过限制 " +:+ f64_text limit +:+ "%"
  | MaxPriceDeviation, None => "限价偏离市价超过限制"
  | DailyOrderLimit, Some limit => "今日下单次数已达上限 " +:+ f64_text limit
  | DailyOrderLimit, None => "今日下单次数已达上限"
  | LedgerUnavailable, _ => "风控用量账本不可用，请检查本地存储权限或文件格式。"
  end.

(** [impl From<RiskViolation> for AppError]. *)
Definition AppError_from_violation (f64_text : f64 -> string) (v : RiskViolation) : AppError :=
  Risk (RiskViolation_user_message f64_text v).

Inductive RiskLedgerState := Disabled | Ready | Unavailable.

Record RiskStatus := {
  st_enabled : bool;
  st_max_order_qty : string;
  st_max_price_deviation_pct : string;
  st_max_daily_orders : Z;
  st_trading_day_timezone : string;
  st_ledger_state : RiskLedgerState;
  st_trading_day : string;
  st_occupied_orders : option Z;
  st_remaining_orders : option Z;
  st_updated_at_ms : option Z;
  st_error : option string;
}.

(** ** models/config.rs: the risk part *)

Definition DEFAULT_TRADING_DAY_TIMEZONE : string := "Asia/Shanghai".

Record RiskConfig := {
  max_order_qty : string;
  max_price_deviation_pct : string;
  max_daily_orders : Z;
  trading_day_timezone : string;
  enabled : bool;
}.

Definition RiskConfig_default : RiskConfig :=
  {| max_order_qty := "100";
     max_price_deviation_pct := "5";
     max_daily_orders := 500;
     trading_day_timezone := DEFAULT_TRADING_DAY_TIMEZONE;
     enabled := true |}.

(** ** Facts *)

Lemma risk_code_roundtrip c : risk_code_parse (risk_code c) = Some c.
Proof. by destruct c. Qed.
