(* ===== verification/Time.v ===== *)
(** services/time.rs and auth/time_sync.rs: epoch normalization, trading days,
    and the offset to the clock of the exchange. *)
From S2P Require Import Prelude RustStr External Models.

(** ** Epoch values *)

Definition normalize_epoch_ms (value : Z) : option Z :=
  if 10 ^ 12 <=? value then Some value
  else if 10 ^ 9 <=? value then Some (value * 1000)
  else None.

Definition normalize_epoch_ms_i64 (value : Z) : option Z :=
  if value <=? 0 then None
  else option_map as_i64 (normalize_epoch_ms (as_u64 value)).

(** ** Trading days *)

Section TradingDay.
Context `{TimezoneLib}.
(** [Utc::now()], read when a time is out of chrono's range. *)
Context (utc_now : DateTime).

Definition is_valid_iana_timezone (tz : string) : bool :=
  match tz_parse tz with Some _ => true | None => false end.

Definition resolve_trading_day_timezone (tz : string) : string :=
  if is_valid_iana_timezone tz then tz else DEFAULT_TRADING_DAY_TIMEZONE.

Definition trading_day_key (now_ms : Z) (timezone : string) : string :=
  let timezone := resolve_trading_day_timezone timezone in
  let tz := default tz_shanghai (tz_parse timezone) in
  let now := default utc_now (utc_from_millis (as_i64 now_ms)) in
  date_text (local_midnight tz now).

Definition trading_day_bounds (now_ms : Z) (timezone : string) : Z * Z :=
  let tz := default tz_shanghai (tz_parse timezone) in
  let now := default utc_now (utc_from_millis (as_i64 now_ms)) in
  let start := default 0 (local_single_millis tz (local_midnight tz now)) in
  (start, start + 86400000).
End TradingDay.

(** ** The clock of the exchange (auth/time_sync.rs) *)

(** [a + b] and [a - b] on [i64] as the release profile computes them. *)
Definition i64_add (a b : Z) : Z := as_i64 (a + b).
Definition i64_sub (a b : Z) : Z := as_i64 (a - b).
Definition u64_add (a b : Z) : Z := as_u64 (a + b).

(** [timestamp_ms], with the local clock reading as an argument. *)
Definition timestamp_ms (offset local : Z) : Z :=
  Z.max 0 (i64_add (as_i64 local) offset).

(** The offsets the two setters store. *)
Definition set_server_time (server_ms local : Z) : Z :=
  i64_sub (as_i64 server_ms) (as_i64 local).

Definition set_server_time_midpoint (server_ms request_start_ms request_end_ms : Z) : Z :=
  let midpoint := as_i64 (u64_add request_start_ms request_end_ms / 2) in
  i64_sub (as_i64 server_ms) midpoint.

Definition parse_timestamp_value (value : json) : option Z :=
  let raw :=
    match as_u64_value value with
    | Some ts => Some ts
    | None =>
        match as_i64_value value with
        | Some ts => Some (Z.max ts 0)
        | None => match as_str value with Some s => parse_u64 s | None => None end
        end
    end in
  match raw with Some raw => normalize_epoch_ms raw | None => None end.

Definition parse_server_time (payload : json) : outcome AppError Z :=
  let at_key key v := match json_get key v with Some t => parse_timestamp_value t | None => None end in
  match at_key "time" payload with
  | Some ts => Ok ts
  | None =>
      match (match json_get "data" payload with Some data => at_key "time" data | None => None end) with
      | Some ts => Ok ts
      | None =>
          match parse_timestamp_value payload with
          | Some ts => Ok ts
          | None =>
              match find_map (fun key => at_key key payload)
                      ["serverTime"; "server_time"; "time"; "timestamp"] with
              | Some ts => Ok ts
              | None => Err (Connection "无法解析服务器时间")
              end
          end
      end
  end.

(** ** The time service *)

Inductive TimeSyncStatus := Syncing | Synced | Failed | LocalFallback.
Inductive TimeSource := Server | Local.

Record TimeMeta := {
  sync_status : TimeSyncStatus;
  source : TimeSource;
  last_sync_at : option Z;
  last_attempt_at : option Z;
  last_error : option string;
}.

Definition TimeMeta_default : TimeMeta :=
  {| sync_status := LocalFallback; source := Local; last_sync_at := None;
     last_attempt_at := None; last_error := None |}.

Record TimeState := { ts_offset_ms : Z; ts_meta : TimeMeta }.

Record TimeSnapshot := {
  snap_server_time_ms : Z;
  snap_local_time_ms : Z;
  snap_offset_ms : Z;
  snap_meta : TimeMeta;
}.

(** [snapshot], with the two readings of the local clock it takes. *)
Definition time_snapshot (clock1 clock2 : Z) (st : TimeState) : TimeSnapshot :=
  {| snap_server_time_ms := timestamp_ms (ts_offset_ms st) clock1;
     snap_local_time_ms := clock2;
     snap_offset_ms := ts_offset_ms st;
     snap_meta := ts_meta st |}.

(** [sync] up to its request to the exchange. *)
Definition sync_begin (now : Z) (st : TimeState) : TimeState :=
  {| ts_offset_ms := ts_offset_ms st;
     ts_meta := {| sync_status := Syncing; source := source (ts_meta st);
                   last_sync_at := last_sync_at (ts_meta st);
                   last_attempt_at := Some now;
                   last_error := last_error (ts_meta st) |} |}.

(** [sync] from the answer on. *)
Definition sync_end (started finished : Z) (result : outcome AppError Z) (st : TimeState)
    : TimeState :=
  let meta := ts_meta st in
  match result with
  | Ok server_ms =>
      {| ts_offset_ms := set_server_time_midpoint server_ms started finished;
         ts_meta := {| sync_status := Synced; source := Server;
                       last_sync_at := Some finished; last_attempt_at := Some finished;
                       last_error := None |} |}
  | Err error =>
      {| ts_offset_ms := ts_offset_ms st;
         ts_meta := {| sync_status := Failed; source := Local;
                       last_sync_at := last_sync_at meta; last_attempt_at := Some finished;
                       last_error := Some (user_message error) |} |}
  | Halt _ => st
  end.

Definition apply_server_time (server_ms local : Z) (st : TimeState) : TimeState :=
  {| ts_offset_ms := set_server_time_midpoint server_ms local local;
     ts_meta := {| sync_status := Synced; source := Server; last_sync_at := Some local;
                   last_attempt_at := Some local; last_error := None |} |}.

(** ** Theorems *)

Lemma normalize_epoch_ms_range v ms :
  in_u64 v -> normalize_epoch_ms v = Some ms -> 10 ^ 12 <= ms /\ in_u64 ms.
Proof.
  unfold normalize_epoch_ms, in_u64, u64_max. intros Hv.
  destruct (Z.leb_spec (10 ^ 12) v); [intros [= <-]; lia|].
  destruct (Z.leb_spec (10 ^ 9) v); [intros [= <-]; lia|done].
Qed.

Lemma parse_timestamp_value_range v ts :
  parse_timestamp_value v = Some ts -> 10 ^ 12 <= ts.
Proof.
  unfold parse_timestamp_value. intros E. case_match; [|done].
  unfold normalize_epoch_ms in E.
  destruct (Z.leb_spec (10 ^ 12) z); [by simplify_eq|].
  destruct (Z.leb_spec (10 ^ 9) z); [|done]. simplify_eq. lia.
Qed.

(** A server time taken from a payload, wherever the payload carries it and
    in whichever unit, is a number of milliseconds: at least 10^12. *)
Theorem parse_server_time_milliseconds payload ts :
  parse_server_time payload = Ok ts -> 10 ^ 12 <= ts.
Proof.
  unfold parse_server_time. intros E.
  repeat case_match; simplify_eq;
    repeat match goal with
    | H : find_map _ _ = Some _ |- _ => apply find_map_some in H as (? & _ & H)
    end; repeat case_match; eauto using parse_timestamp_value_range; done.
Qed.

(** The clock estimate errs by at most half the round trip: when the exchange
    read its clock at a local instant [t] of the request, then at every later
    local reading the estimate differs from the exchange's clock by no more
    than half the request's duration (rounded up). *)
Theorem midpoint_error server started finished t now :
  0 <= started <= t -> t <= finished -> finished <= now ->
  finished <= 2 ^ 61 -> now <= 2 ^ 62 -> 0 <= server <= 2 ^ 61 ->
  0 <= server + (now - t) ->
  Z.abs (timestamp_ms (set_server_time_midpoint server started finished) now
         - (server + (now - t))) <= (finished - started + 1) / 2.
Proof.
  intros. unfold timestamp_ms, set_server_time_midpoint, u64_add, as_u64, i64_sub, i64_add.
  assert (2 ^ 61 = 2305843009213693952) as E1 by reflexivity.
  assert (2 ^ 62 = 4611686018427387904) as E2 by reflexivity.
  assert (2 ^ 64 = 18446744073709551616) as E3 by reflexivity.
  rewrite (Z.mod_small (started + finished)) by lia.
  pose proof (Z.div_mod (started + finished) 2 ltac:(lia)) as Hm.
  pose proof (Z.mod_pos_bound (started + finished) 2 ltac:(lia)) as Hb.
  set (mid := (started + finished) / 2) in *.
  pose proof (Z.div_mod (finished - started + 1) 2 ltac:(lia)) as Hm2.
  pose proof (Z.mod_pos_bound (finished - started + 1) 2 ltac:(lia)) as Hb2.
  rewrite (as_i64_small mid), (as_i64_small server), (as_i64_small now)
    by (unfold i64_max; lia).
  assert (as_i64 (server - mid) = server - mid) as ->.
  { unfold as_i64, i64_max. rewrite E3.
    destruct (decide (0 <= server - mid)).
    - rewrite Z.mod_small by lia. destruct (Z.leb_spec (server - mid) 9223372036854775807); lia.
    - rewrite <- (Z.mod_add _ 1), Z.mod_small by lia.
      destruct (Z.leb_spec (server - mid + 1 * 18446744073709551616) 9223372036854775807); lia. }
  assert (0 <= now + (server - mid) \/ now + (server - mid) < 0) as [Hp|Hn] by lia.
  - rewrite as_i64_small by (unfold i64_max; lia). lia.
  - assert (as_i64 (now + (server - mid)) = now + (server - mid)) as ->.
    { unfold as_i64, i64_max. rewrite E3.
      rewrite <- (Z.mod_add _ 1), Z.mod_small by lia.
      destruct (Z.leb_spec (now + (server - mid) + 1 * 18446744073709551616) 9223372036854775807); lia. }
    lia.
Qed.

(** When local midnight does not exist or is ambiguous in the zone (a clock
    change at midnight), the bounds of the trading day are those of the first
    day of the epoch: no present time lies within them. *)
Theorem trading_day_bounds_lost `{TimezoneLib} utc_now now_ms timezone :
  local_single_millis (default tz_shanghai (tz_parse timezone))
    (local_midnight (default tz_shanghai (tz_parse timezone))
       (default utc_now (utc_from_millis (as_i64 now_ms)))) = None ->
  86400000 <= now_ms ->
  let '(start, stop) := trading_day_bounds utc_now now_ms timezone in
  ~ (start <= now_ms < stop).
Proof. intros E Hn. unfold trading_day_bounds. rewrite E. simpl. lia. Qed.

(** What a finished synchronisation leaves does not depend on the state it
    found, and a failed one keeps the offset and the time of the last success. *)
Lemma sync_end_failed started finished e st :
  ts_offset_ms (sync_end started finished (Err e) st) = ts_offset_ms st /\
  last_sync_at (ts_meta (sync_end started finished (Err e) st)) = last_sync_at (ts_meta st).
Proof. done. Qed.
