(* ===== verification/ConfigPersistence.v ===== *)
(** storage/config_persistence.rs: replacing a file through a temporary copy
    and a backup, and reading back the first usable candidate. *)
From stdpp Require Import gmap.
From S2P Require Import Prelude RustStr FileSystem External Models.

Record ConfigPaths := { main : path; temp : path; backup : path }.

Definition ConfigPaths_new (p : path) : ConfigPaths :=
  {| main := p; temp := sibling p ".tmp"; backup := sibling p ".bak" |}.

Section ConfigPersistence.
Context `{ErrorText}.

(** [?] on an [io::Result] in a function that returns [AppResult]. *)
Definition io {A : Type} (c : IO A) : M fs_world AppError A := mmap_err AppError_from_io c.

(** ** Loading *)

Fixpoint load_candidates {T : Type} (parse : string -> outcome AppError T)
    (candidates : list (string * path)) (invalid : list string)
    : M fs_world AppError (option T) :=
  match candidates with
  | [] =>
      match invalid with
      | [] => mret None
      | _ => mfail (Config ("配置文件及恢复副本均不可用：" +:+ String.concat "、" invalid))
      end
  | (label, candidate) :: rest =>
      let skip := load_candidates parse rest (invalid ++ [label]) in
      let* r := mtry (fs_metadata candidate) in
      match r with
      | inl NotFound => load_candidates parse rest invalid
      | inl _ => skip
      | inr _ =>
          let* t := mtry (fs_read_to_string candidate) in
          match t with
          | inl _ => skip
          | inr text =>
              match parse text with
              | Ok config => mret (Some config)
              | Err _ => skip
              | Halt h => mlift (Halt h)
              end
          end
      end
  end.

Definition load {T : Type} (parse : string -> outcome AppError T) (p : path)
    : M fs_world AppError (option T) :=
  let paths := ConfigPaths_new p in
  load_candidates parse
    [("主配置", main paths); ("临时副本", temp paths); ("备份", backup paths)] [].

(** ** Saving *)

Definition write_temp (p : path) (contents : string) : M fs_world AppError unit :=
  io (fs_open_truncate p) ;;;
  io (fs_write_all p contents) ;;;
  io (fs_sync_all p) ;;;
  mret tt.

Definition remove_old_backup (p : path) : M fs_world AppError unit :=
  let* r := mtry (fs_remove_file p) in
  match r with
  | inr _ => mret tt
  | inl NotFound => mret tt
  | inl e => mfail (AppError_from_io e)
  end.

Definition replace_existing_main (paths : ConfigPaths) : M fs_world AppError unit :=
  remove_old_backup (backup paths) ;;;
  io (fs_rename (main paths) (backup paths)) ;;;
  let* r := mtry (fs_rename (temp paths) (main paths)) in
  match r with
  | inl replace_error =>
      (* a failed restore is only logged *)
      let* _ := mtry (fs_rename (backup paths) (main paths)) in
      mfail (AppError_from_io replace_error)
  | inr _ => mret tt
  end.

Definition replace_main (paths : ConfigPaths) : M fs_world AppError unit :=
  let* r := mtry (fs_metadata (main paths)) in
  match r with
  | inr KDir => mfail (Storage "配置主路径不是普通文件")
  | inr KFile => replace_existing_main paths
  | inl NotFound => io (fs_rename (temp paths) (main paths)) ;;; mret tt
  | inl e => mfail (AppError_from_io e)
  end.

Definition save (p : path) (contents : string) : M fs_world AppError unit :=
  let paths := ConfigPaths_new p in
  io (fs_create_dir_all (parent (main paths))) ;;;
  write_temp (temp paths) contents ;;;
  replace_main paths.
End ConfigPersistence.

(** ** Lemmas on the three candidates *)

Lemma suffix_ne name a b : a <> b -> name +:+ a <> name +:+ b.
Proof. intros Hne E. by apply (inj (String.append name)) in E. Qed.

Lemma suffix_self name a : a <> "" -> name <> name +:+ a.
Proof.
  intros Ha E. apply (f_equal String.length) in E. rewrite string_length_app in E.
  destruct a; simpl in *; [done|lia].
Qed.

Lemma candidate_ne name (dir : path) :
  name :: dir <> (name +:+ ".tmp") :: dir /\
  name :: dir <> (name +:+ ".bak") :: dir /\
  (name +:+ ".tmp") :: dir <> (name +:+ ".bak") :: dir.
Proof.
  split_and!; intros [= E]; revert E;
    first [by apply suffix_self | by apply suffix_ne].
Qed.

Lemma wp_rename_file (src dst : path) d s (Q : unit -> fs_world -> Prop) R C w :
  nodes w !! src = Some (File d s) ->
  (forall fs, Q tt (FsWorld (<[dst := File d s]> (delete src (nodes w))) fs)) ->
  (forall e fs, R e (FsWorld (nodes w) fs)) ->
  (forall fs, C (FsWorld (nodes w) fs)) ->
  wp (fs_rename src dst) Q R C w.
Proof.
  intros Hsrc HQ HR HC. apply wp_prim; unfold unchanged; [auto..|].
  intros fs. unfold rename_op. rewrite Hsrc. repeat case_match; naive_solver.
Qed.

Lemma wp_remove_file (p : path) (Q : unit -> fs_world -> Prop) R C w :
  (forall fs, Q tt (FsWorld (delete p (nodes w)) fs)) ->
  (forall e fs, R e (FsWorld (nodes w) fs)) ->
  (forall fs, C (FsWorld (nodes w) fs)) ->
  wp (fs_remove_file p) Q R C w.
Proof.
  intros HQ HR HC. apply wp_prim; unfold unchanged; [auto..|].
  intros fs. repeat case_match; naive_solver.
Qed.

(** ** The states of a save *)

Section SaveStates.
Context (name : string) (dir : path) (old new : string).

Let p : path := name :: dir.
Let t : path := (name +:+ ".tmp") :: dir.
Let b : path := (name +:+ ".bak") :: dir.

Lemma candidates_distinct :
  (p <> t /\ t <> p) /\ (p <> b /\ b <> p) /\ (t <> b /\ b <> t).
Proof. destruct (candidate_ne name dir) as (?&?&?). split_and!; done. Qed.

(** The main file holds the old contents. *)
Definition Old (m : gmap path node) : Prop :=
  walkable dir m /\ m !! p = Some (File old true).
(** ... and the new contents are staged and synced. *)
Definition Staged (m : gmap path node) : Prop :=
  Old m /\ m !! t = Some (File new true).
(** The main file is moved away, both contents survive beside it. *)
Definition Moved (m : gmap path node) : Prop :=
  walkable dir m /\ m !! p = None /\
  m !! t = Some (File new true) /\ m !! b = Some (File old true).
(** The new contents are in place. *)
Definition Replaced (m : gmap path node) : Prop :=
  walkable dir m /\ m !! p = Some (File new true).

Definition Recoverable (m : gmap path node) : Prop := Old m \/ Moved m \/ Replaced m.

Lemma Old_insert_temp n m : Old m -> Old (<[t := n]> m).
Proof.
  intros [Hw Hp]. destruct candidates_distinct as ((?&?)&(?&?)&(?&?)).
  split; [by apply walkable_insert|]. by rewrite lookup_insert_ne.
Qed.

Lemma Recoverable_crash cut m : Recoverable m -> Recoverable (crash_nodes cut m).
Proof.
  intros [[Hw Hp]|[(Hw & Hp & Ht & Hb)|[Hw Hp]]]; [left|right;left|right;right];
    repeat split; auto with preserve; rewrite lookup_crash_nodes; by simplify_option_eq.
Qed.

Context `{ErrorText}.

Lemma write_temp_spec w :
  Old (nodes w) ->
  wp (write_temp t new) (fun _ w' => Staged (nodes w')) (fun _ w' => Old (nodes w'))
    (fun w' => Old (nodes w')) w.
Proof.
  intros HO. unfold write_temp, io.
  repeat wp_step. wp_call; try done. intros fs.
  destruct (open_check t (nodes w)) as [[]| |]; simpl; try done.
  assert (HO1 : Old (<[t := File "" false]> (nodes w))) by by apply Old_insert_temp.
  repeat wp_step; wp_call; simpl.
  - intros n fs1. unfold append_bytes. rewrite lookup_insert_eq.
    by do 2 apply Old_insert_temp.
  - intros n fs1. unfold append_bytes. rewrite lookup_insert_eq.
    by do 2 apply Old_insert_temp.
  - intros fs1. unfold append_bytes. rewrite lookup_insert_eq. simpl.
    repeat wp_step; wp_call; simpl; try (intros; by do 2 apply Old_insert_temp).
    intros fs2. rewrite lookup_insert_eq. apply wp_ret. simpl. split.
    + by do 3 apply Old_insert_temp.
    + by rewrite lookup_insert_eq.
Qed.

Lemma remove_old_backup_spec w :
  Staged (nodes w) ->
  wp (remove_old_backup b) (fun _ w' => Staged (nodes w')) (fun _ w' => Staged (nodes w'))
    (fun w' => Staged (nodes w')) w.
Proof.
  intros [[Hw Hp] Ht]. destruct candidates_distinct as ((?&?)&(?&?)&(?&?)).
  assert (Staged (nodes w)) by done.
  unfold remove_old_backup. repeat wp_step. apply wp_remove_file.
  - intros fs. apply wp_ret. simpl. split; [split|].
    + by apply walkable_delete.
    + by rewrite lookup_delete_ne.
    + by rewrite lookup_delete_ne.
  - intros [] fs; by apply wp_ret || by apply wp_fail.
  - done.
Qed.

(** The replacement of an existing main file, wherever it stops. *)
Lemma replace_existing_main_spec w :
  Staged (nodes w) ->
  wp (replace_existing_main (ConfigPaths_new p)) (fun _ w' => Replaced (nodes w'))
    (fun _ w' => Recoverable (nodes w')) (fun w' => Recoverable (nodes w')) w.
Proof.
  intros HS. destruct candidates_distinct as ((?&?)&(?&?)&(?&?)).
  unfold replace_existing_main. wp_step.
  eapply wp_mono; [apply remove_old_backup_spec, HS| | |]; simpl.
  2: { intros _ w1 [? _]. by left. }
  2: { intros w1 [? _]. by left. }
  intros _ w1 [[Hw Hp] Ht]. unfold io. repeat wp_step.
  eapply wp_rename_file; [exact Hp| |by left|by left].
  intros fs. cbn [nodes]. set (m2 := <[_ := _]> _).
  assert (HM : Moved m2).
  { subst m2. split_and!.
    - by apply walkable_insert, walkable_delete.
    - rewrite lookup_insert_ne by done. by rewrite lookup_delete_eq.
    - rewrite lookup_insert_ne by done. rewrite lookup_delete_ne by done. exact Ht.
    - by rewrite lookup_insert_eq. }
  clearbody m2. destruct HM as (Hw2 & Hp2 & Ht2 & Hb2).
  repeat wp_step.
  eapply wp_rename_file; cbn [nodes]; [exact Ht2| | |].
  - intros fs'. apply wp_ret. split; cbn [nodes];
      [by apply walkable_insert, walkable_delete|by rewrite lookup_insert_eq].
  - intros e fs'. repeat wp_step.
    eapply wp_rename_file; cbn [nodes]; [exact Hb2| | |].
    + intros fs''. repeat wp_step. left. split; cbn [nodes];
        [by apply walkable_insert, walkable_delete|by rewrite lookup_insert_eq].
    + intros e' fs''. repeat wp_step. right; left. done.
    + right; left. done.
  - right; left. done.
Qed.

Lemma replace_main_spec w :
  Staged (nodes w) ->
  wp (replace_main (ConfigPaths_new p)) (fun _ w' => Replaced (nodes w'))
    (fun _ w' => Recoverable (nodes w')) (fun w' => Recoverable (nodes w')) w.
Proof.
  intros HS. assert (HS' := HS). destruct HS' as [[Hw Hp] Ht]. unfold replace_main.
  repeat wp_step; wp_call; simpl.
  - intros. apply wp_fail. by left.
  - intros. by left.
  - intros fs. unfold lookup_op.
    change (main (ConfigPaths_new (name :: dir))) with p. change (name :: dir) with p.
    assert (blocked (nodes w) p = false) as -> by apply Hw. rewrite Hp.
    by apply replace_existing_main_spec.
Qed.

Lemma save_spec w :
  Old (nodes w) ->
  wp (save p new) (fun _ w' => Replaced (nodes w'))
    (fun _ w' => Recoverable (nodes w')) (fun w' => Recoverable (nodes w')) w.
Proof.
  intros HO. unfold save, io. repeat wp_step.
  eapply wp_mono; [apply (wp_preserves (fun w => Old (nodes w)) _ w)| | |]; simpl; try done.
  - apply (create_dir_all_preserves Old). intros m q Hq [Hw Hp].
    split; [by apply walkable_insert_dir|]. rewrite lookup_insert_ne; congruence.
  - intros _ w' HO'. repeat wp_step.
    eapply wp_mono; [by apply write_temp_spec| | |]; simpl.
    + intros _ w2 HS. by apply replace_main_spec.
    + intros _ w2 HS. by left.
    + intros w2 HS. by left.
  - intros _ w' HO'. by left.
  - intros w' HO'. by left.
Qed.

(** ** Reading back *)

Lemma read_candidate_quiet q d s m :
  blocked m q = false -> m !! q = Some (File d s) -> utf8_valid (bytes_of d) = true ->
  fs_metadata q (FsWorld m []) = (Ok KFile, FsWorld m []) /\
  fs_read_to_string q (FsWorld m []) = (Ok d, FsWorld m []).
Proof.
  intros Hb Hq Hu. split.
  - unfold fs_metadata, prim, prim_with, lookup_op. simpl. by rewrite Hb, Hq.
  - unfold fs_read_to_string, fs_read, mbind, prim, prim_with. simpl. rewrite Hb, Hq, Hu. done.
Qed.

Lemma missing_candidate_quiet q m :
  q <> [] -> blocked m q = false -> m !! q = None ->
  fs_metadata q (FsWorld m []) = (Err NotFound, FsWorld m []).
Proof.
  intros Hn Hb Hq. unfold fs_metadata, prim, prim_with, lookup_op. simpl. rewrite Hb, Hq.
  by destruct q.
Qed.

(** What a load finds in each state of a save, when nothing interferes. *)
Lemma load_states {T : Type} (parse : string -> outcome AppError T) co cn m :
  parse old = Ok co -> parse new = Ok cn ->
  utf8_valid (bytes_of old) = true -> utf8_valid (bytes_of new) = true ->
  Recoverable m ->
  exists c, load parse p (FsWorld m []) = (Ok (Some c), FsWorld m []) /\
    (c = co \/ c = cn) /\ (Replaced m -> c = cn).
Proof.
  intros Ho Hn Uo Un [[Hw Hp]|[(Hw & Hp & Ht & Hb)|[Hw Hp]]];
    [exists co|exists cn|exists cn];
    unfold load, load_candidates; cbn [main temp backup ConfigPaths_new];
    change (sibling p ".tmp") with t; change (sibling p ".bak") with b.
  - destruct (read_candidate_quiet p old true m) as [E1 E2]; [apply Hw|done|done|].
    run_with E1. run_with E2. rewrite Ho. split_and!; auto.
    intros [_ Hp']. assert (old = new) by congruence. congruence.
  - pose proof (missing_candidate_quiet p m ltac:(done) (Hw _) Hp) as E0.
    destruct (read_candidate_quiet t new true m) as [E1 E2]; [apply Hw|done|done|].
    run_with E0. run_with E1. run_with E2. rewrite Hn. auto.
  - destruct (read_candidate_quiet p new true m) as [E1 E2]; [apply Hw|done|done|].
    run_with E1. run_with E2. rewrite Hn. auto.
Qed.
End SaveStates.

(** C4: Where the main file is present and on the disk when a save of a
    configuration begins: whatever the environment does to the save (refusing any call, leaving any partial write, ending the process
    at any point), after a crash and a restart [load] returns a parsed
    configuration, the old one or the new one; and when the save returned [Ok],
    the new one. *)
Theorem save_crash_atomic `{ErrorText} {T : Type} (parse : string -> outcome AppError T)
    name dir old new co cn w cut :
  walkable dir (nodes w) ->
  nodes w !! (name :: dir) = Some (File old true) ->
  parse old = Ok co -> parse new = Ok cn ->
  utf8_valid (bytes_of old) = true -> utf8_valid (bytes_of new) = true ->
  let '(saved, w1) := save (name :: dir) new w in
  exists c w2,
    load parse (name :: dir) (restart cut [] w1) = (Ok (Some c), w2) /\
    (c = co \/ c = cn) /\ (saved = Ok tt -> c = cn).
Proof.
  intros Hw Hp Ho Hn Uo Un.
  pose proof (save_spec name dir old new w (conj Hw Hp)) as Hs. unfold wp in Hs.
  destruct (save (name :: dir) new w) as [saved w1].
  assert (Recoverable name dir old new (crash_nodes cut (nodes w1))) as HR.
  { apply Recoverable_crash. destruct saved; [by right; right|done|done]. }
  destruct (load_states name dir old new parse co cn _ Ho Hn Uo Un HR) as (c & Hl & Hc & Hr).
  exists c, (FsWorld (crash_nodes cut (nodes w1)) []). split_and!; [exact Hl|exact Hc|].
  intros ->. apply Hr. destruct Hs as [Hw1 Hp1].
  split; [by apply walkable_crash|]. by rewrite lookup_crash_nodes, Hp1.
Qed.

(** ** What every save keeps *)

(** A save only inserts nodes, drops the backup while the main file stands, and
    moves files between the three names; a property with these closure
    conditions holds at every point where the save may stop. *)
Section SaveKeeps.
Context `{ErrorText} (name : string) (dir : path) (contents : string).
Context (I : gmap path node -> Prop).

Let p : path := name :: dir.
Let t : path := (name +:+ ".tmp") :: dir.
Let b : path := (name +:+ ".bak") :: dir.

Hypothesis I_insert : forall m x n, I m -> I (<[x := n]> m).
Hypothesis I_drop_backup : forall m, I m -> occupied p m -> I (delete b m).
Hypothesis I_to_backup : forall m n, I m -> I (<[b := n]> (delete p m)).
Hypothesis I_promote : forall m n, I m -> I (<[p := n]> (delete t m)).
Hypothesis I_restore : forall m n, I m -> I (<[p := n]> (delete b m)).

Definition holds_file (q : path) (m : gmap path node) : Prop :=
  exists d s, m !! q = Some (File d s).

Let keep (w : fs_world) : Prop := I (nodes w).

Lemma keeps_append q d m : I m -> I (append_bytes q d m).
Proof. intros. unfold append_bytes. repeat case_match; auto. Qed.

Lemma write_temp_keeps w :
  keep w ->
  wp (write_temp t contents) (fun _ w' => keep w' /\ holds_file t (nodes w'))
    (fun _ => keep) keep w.
Proof.
  intros Hw. unfold write_temp, io.
  repeat wp_step; wp_call; [done..|]. intros fs.
  destruct (open_check t (nodes w)) as [[]| |]; simpl; try done.
  repeat wp_step; wp_call; [by intros; apply keeps_append, I_insert..|].
  intros fs1. unfold append_bytes. rewrite lookup_insert_eq. simpl.
  repeat wp_step; wp_call; [by intros; apply I_insert, I_insert..|].
  intros fs2. rewrite lookup_insert_eq. apply wp_ret. split; [by apply I_insert, I_insert, I_insert|].
  eexists _, _. simpl. by rewrite lookup_insert_eq.
Qed.

Lemma replace_existing_main_keeps w :
  keep w -> holds_file p (nodes w) -> holds_file t (nodes w) ->
  wp (replace_existing_main (ConfigPaths_new p)) (fun _ => keep) (fun _ => keep) keep w.
Proof.
  intros Hw (dp & sp & Hp) (dt & st & Ht).
  destruct (candidates_distinct name dir) as ((?&?)&(?&?)&(?&?)).
  unfold replace_existing_main, remove_old_backup, io. repeat wp_step.
  assert (Hgo : forall m fs, I m -> m !! p = Some (File dp sp) -> m !! t = Some (File dt st) ->
    wp (mmap_err AppError_from_io (fs_rename p b) ;;;
        let* r := mtry (fs_rename t p) in
        match r with
        | inl replace_error =>
            let* _ := mtry (fs_rename b p) in mfail (AppError_from_io replace_error)
        | inr _ => mret tt
        end) (fun _ => keep) (fun _ => keep) keep (FsWorld m fs)).
  { intros m fs HI Hmp Hmt. repeat wp_step.
    eapply wp_rename_file; cbn [nodes]; [exact Hmp| |by intros|by intros].
    intros fs1. repeat wp_step.
    eapply wp_rename_file; cbn [nodes].
    { rewrite lookup_insert_ne by done. rewrite lookup_delete_ne by done. exact Hmt. }
    - intros fs2. apply wp_ret. by apply I_promote, I_to_backup.
    - intros e fs2. repeat wp_step.
      eapply wp_rename_file; cbn [nodes]; [by rewrite lookup_insert_eq| | |];
        intros; repeat wp_step; first [by apply I_restore, I_to_backup|by apply I_to_backup].
    - intros. by apply I_to_backup. }
  apply wp_remove_file.
  - intros fs. apply wp_ret. cbn [nodes]. apply Hgo.
    + apply I_drop_backup; [done|]. unfold occupied. by rewrite Hp.
    + by rewrite lookup_delete_ne.
    + by rewrite lookup_delete_ne.
  - intros [] fs; first [by apply wp_fail|by apply wp_ret, Hgo].
  - by intros.
Qed.

Lemma replace_main_keeps w :
  keep w -> holds_file t (nodes w) ->
  wp (replace_main (ConfigPaths_new p)) (fun _ => keep) (fun _ => keep) keep w.
Proof.
  intros Hw Ht. unfold replace_main, io. repeat wp_step; wp_call.
  - intros. by apply wp_fail.
  - by intros.
  - intros fs. cbn [main ConfigPaths_new]. unfold lookup_op.
    destruct (blocked (nodes w) p); [by apply wp_fail|].
    destruct (nodes w !! p) as [[d s|]|] eqn:E; cbn [p].
    + apply replace_existing_main_keeps; [done|by eexists _, _|done].
    + by apply wp_fail.
    + destruct Ht as (dt & st & Ht). repeat wp_step.
      eapply wp_rename_file; cbn [nodes]; [exact Ht|..]; intros; repeat wp_step; auto.
      by apply I_promote.
Qed.

Lemma save_keeps : preserves keep (save p contents).
Proof.
  apply preserves_wp. intros w Hw. unfold save, io. repeat wp_step.
  eapply wp_mono; [apply (wp_preserves keep _ w)| | |]; try done.
  - apply (create_dir_all_preserves I). auto.
  - intros u w' Hw'. repeat wp_step.
    eapply wp_mono; [by apply write_temp_keeps| | |]; try done.
    intros u2 w2 [Hk Ht]. by apply replace_main_keeps.
Qed.
End SaveKeeps.
