(* ===== verification/OrderJournal.v ===== *)
(** storage/order_submissions.rs: the durable journal of order submissions, one
    file per submission identity under a directory per account scope. *)
From stdpp Require Import gmap sorting.
From Stdlib Require Import Ascii.
From S2P Require Import Prelude RustStr FileSystem External Models ConfigPersistence.

Definition SCHEMA_VERSION : Z := 1.

(** [Path::file_stem] of a name: the part before the last dot, if any is left. *)
Fixpoint split_last_dot (s : string) : option (string * string) :=
  match s with
  | EmptyString => None
  | String c s' =>
      match split_last_dot s' with
      | Some (before, after) => Some (String c before, after)
      | None => if Ascii.eqb c "."%char then Some ("", s') else None
      end
  end.

Definition file_stem (p : path) : option string :=
  match p with
  | [] => None
  | name :: _ =>
      match split_last_dot name with
      | Some ("", _) | None => Some name
      | Some (before, _) => Some before
      end
  end.

(** The order of [String], and a [BTreeSet<String>] as its sorted elements. *)
Definition string_le (a b : string) : Prop := String.leb a b = true.
#[export] Instance string_le_dec : RelDecision string_le.
Proof. intros a b. unfold string_le. apply _. Defined.

Definition btree_set (names : list string) : list string :=
  merge_sort string_le (remove_dups names).

(** The order of [(created_at_ms, &order_link_id)]. *)
Definition pending_le (a b : PendingOrderSubmission) : Prop :=
  p_created_at_ms a < p_created_at_ms b \/
  (p_created_at_ms a = p_created_at_ms b /\
   string_le (p_order_link_id a) (p_order_link_id b)).
#[export] Instance pending_le_dec : RelDecision pending_le.
Proof. intros a b. unfold pending_le. apply _. Defined.

Definition storage_error (message : string) : AppError := Storage message.

Definition journal_io_error (_ : io_error) : AppError :=
  storage_error "订单提交记录存储不可用，请检查存储后再查询原订单".

Definition jio {A : Type} (c : IO A) : M fs_world AppError A := mmap_err journal_io_error c.

Definition validate_identity (id : string) : outcome AppError unit :=
  guard (is_empty id || (36 <? len id))
    (storage_error "订单提交标识长度必须为 1 至 36 字节").

(** [record.outcome] asks for recovery: unresolved, or accepted and not yet
    acknowledged. *)
Definition is_unresolved (record : StoredSubmission) : bool :=
  match s_outcome record with
  | Pending => true
  | Accepted _ => negb (s_acknowledged record)
  | SubRejected => false
  end.

Definition with_outcome (outcome : SubmissionOutcome) (r : StoredSubmission) : StoredSubmission :=
  {| s_schema_version := s_schema_version r; s_scope := s_scope r;
     s_order_link_id := s_order_link_id r; s_request := s_request r;
     s_created_at_ms := s_created_at_ms r; s_outcome := outcome;
     s_acknowledged := s_acknowledged r |}.

Definition with_acknowledged (r : StoredSubmission) : StoredSubmission :=
  {| s_schema_version := s_schema_version r; s_scope := s_scope r;
     s_order_link_id := s_order_link_id r; s_request := s_request r;
     s_created_at_ms := s_created_at_ms r; s_outcome := s_outcome r;
     s_acknowledged := true |}.

Section Journal.
Context `{ErrorText} `{Sha256Lib} `{Codec StoredSubmission}.
(** The directory of the store. *)
Context (store : path).

Definition identity_hash (id : string) : string := sha256_hex id.

Definition scope_dir (scope : string) : outcome AppError path :=
  if is_empty scope then Err (storage_error "订单提交记录缺少账户范围")
  else Ok (join store (identity_hash scope)).

Definition record_name (id : string) : string := identity_hash id +:+ ".json".

Definition serialize_record (record : StoredSubmission) : outcome AppError string :=
  ok_or (storage_error "无法编码订单提交记录") (encode record).

(** The checks a decoded record passes before it is returned. *)
Definition check_record (p : path) (scope : string) (id : option string)
    (record : StoredSubmission) : outcome AppError StoredSubmission :=
  if negb (s_schema_version record =? SCHEMA_VERSION)
  then Err (storage_error "不支持的订单提交记录版本")
  else
    let? _ := validate_identity (s_order_link_id record) in
    if (s_scope record !=s scope)
       || match id with Some id => id !=s s_order_link_id record | None => false end
       || bool_decide (r_order_link_id (s_request record) <> Some (s_order_link_id record))
       || bool_decide (file_stem p <> Some (identity_hash (s_order_link_id record)))
    then Err (storage_error "订单提交记录与原请求标识不一致")
    else Ok record.

Fixpoint read_candidates (p : path) (scope : string) (id : option string)
    (candidates : list path) : M fs_world AppError (option StoredSubmission) :=
  match candidates with
  | [] => mret None
  | candidate :: rest =>
      let* r := mtry (fs_metadata candidate) in
      match r with
      | inr KFile =>
          let* contents := jio (fs_read candidate) in
          let* record := mlift (ok_or (storage_error "订单提交记录已损坏，请先恢复原记录")
                                  (decode contents)) in
          let* record := mlift (check_record p scope id record) in
          mret (Some record)
      | inr KDir => mfail (storage_error "订单提交记录不是普通文件")
      | inl NotFound => read_candidates p scope id rest
      | inl e => mfail (journal_io_error e)
      end
  end.

Definition read_record (p : path) (scope : string) (id : option string)
    : M fs_world AppError (option StoredSubmission) :=
  read_candidates p scope id [p; sibling p ".tmp"; sibling p ".bak"].

Definition get (scope id : string) : M fs_world AppError (option StoredSubmission) :=
  let* _ := mlift (validate_identity id) in
  let* dir := mlift (scope_dir scope) in
  read_record (join dir (record_name id)) scope (Some id).

Definition begin (scope : string) (request : PlaceOrderRequest) (now : Z)
    : M fs_world AppError StoredSubmission :=
  let* id := mlift (ok_or (storage_error "订单请求缺少提交标识") (r_order_link_id request)) in
  let* existing := get scope id in
  match existing with
  | Some existing => mret existing
  | None =>
      let record :=
        {| s_schema_version := SCHEMA_VERSION; s_scope := scope; s_order_link_id := id;
           s_request := request; s_created_at_ms := now; s_outcome := Pending;
           s_acknowledged := false |} in
      let* contents := mlift (serialize_record record) in
      let* dir := mlift (scope_dir scope) in
      jio (fs_create_dir_all dir) ;;;
      let p := join dir (record_name id) in
      let* opened := mtry (fs_create_new p) in
      match opened with
      | inl AlreadyExists =>
          let* again := get scope id in
          mlift (ok_or (storage_error "订单提交记录在读取期间发生变化") again)
      | inl e => mfail (journal_io_error e)
      | inr _ =>
          (* a partial file is kept: its existence blocks resubmission *)
          jio (fs_write_all p contents) ;;;
          jio (fs_sync_all p) ;;;
          mret record
      end
  end.

(** The record name a directory entry stands for. *)
Definition entry_name (name : string) : outcome AppError string :=
  let invalid := storage_error "订单提交记录文件名无效" in
  if negb (utf8_valid (bytes_of name)) then Err invalid
  else
    let main_name := default name
      (match strip_suffix ".tmp" name with
       | Some n => Some n
       | None => strip_suffix ".bak" name
       end) in
    match strip_suffix ".json" main_name with
    | Some hash =>
        if (len hash =? 64) && forallb is_ascii_hexdigit (bytes_of hash)
        then Ok (hash +:+ ".json") else Err invalid
    | None => Err invalid
    end.

Definition list_pending (scope : string) : M fs_world AppError (list PendingOrderSubmission) :=
  let* dir := mlift (scope_dir scope) in
  let* entries := mtry (fs_read_dir dir) in
  match entries with
  | inl NotFound => mret []
  | inl e => mfail (journal_io_error e)
  | inr entries =>
      let* names := mmap (fun name => mlift (entry_name name)) entries in
      let* records := mmap (fun name =>
        let* record := read_record (join dir name) scope None in
        mlift (ok_or (storage_error "订单提交记录在读取期间发生变化") record))
        (btree_set names) in
      mret (merge_sort pending_le
              (map PendingOrderSubmission_from (List.filter is_unresolved records)))
  end.

Definition finish (scope id : string) (outcome : SubmissionOutcome)
    : M fs_world AppError unit :=
  let* record := get scope id in
  let* record := mlift (ok_or (storage_error "找不到原订单提交记录") record) in
  let record := with_outcome outcome record in
  let* dir := mlift (scope_dir scope) in
  let* contents := mlift (serialize_record record) in
  mmap_err (fun _ => storage_error "无法保存订单提交结果，请查询原订单")
    (save (join dir (record_name id)) contents).

Definition acknowledge (scope id : string) : M fs_world AppError unit :=
  let* record := get scope id in
  let* record := mlift (ok_or (storage_error "找不到原订单提交记录") record) in
  match s_outcome record with
  | Accepted _ =>
      if s_acknowledged record then mret tt
      else
        let record := with_acknowledged record in
        let* dir := mlift (scope_dir scope) in
        let* contents := mlift (serialize_record record) in
        mmap_err (fun _ => storage_error "无法保存订单收据确认，请重新查询原订单")
          (save (join dir (record_name id)) contents)
  | _ => mfail (storage_error "仅已确认成功的订单可确认收据")
  end.
End Journal.

(** ** A claimed identity *)

(** The record of an identity exists under one of its three names: the identity
    is taken, whatever its contents say. *)
Definition claimed (q : path) (m : gmap path node) : Prop :=
  occupied q m \/ occupied (sibling q ".tmp") m \/ occupied (sibling q ".bak") m.

Lemma string_app_inj_len a b x y :
  String.length a = String.length b -> a +:+ x = b +:+ y -> a = b /\ x = y.
Proof.
  revert b. induction a as [|c a IH]; intros [|c' b] Hl E; simpl in *; try done.
  injection Hl as Hl. injection E as -> E.
  destruct (IH b Hl E) as [-> ->]. done.
Qed.

Lemma occupied_delete q r m : q <> r -> occupied q m -> occupied q (delete r m).
Proof. unfold occupied. intros. by rewrite lookup_delete_ne. Qed.

Lemma claimed_insert q x n m : claimed q m -> claimed q (<[x := n]> m).
Proof.
  intros [Hc|[Hc|Hc]]; [left|right;left|right;right]; by apply occupied_insert.
Qed.

Lemma claimed_crash cut q m : claimed q m -> claimed q (crash_nodes cut m).
Proof.
  intros [Hc|[Hc|Hc]]; [left|right;left|right;right]; by apply occupied_crash.
Qed.

(** Removing a node that is none of the three names of [q]. *)
Lemma claimed_delete q r m :
  q <> r -> sibling q ".tmp" <> r -> sibling q ".bak" <> r ->
  claimed q m -> claimed q (delete r m).
Proof.
  intros ??? [Hc|[Hc|Hc]]; [left|right;left|right;right]; by apply occupied_delete.
Qed.

Section RecordNames.
Context (name name' : string) (dir dir' : path).
Hypothesis same_length : String.length name = String.length name'.

Let p : path := name :: dir.
Let q : path := name' :: dir'.

Lemma length_conflict (a b : string) :
  String.length a <> String.length b -> name +:+ a <> name' +:+ b.
Proof. intros Hl E. apply (f_equal String.length) in E. rewrite !string_length_app in E. lia. Qed.

Lemma suffix_conflict a b : a <> b -> name +:+ a <> name' +:+ b.
Proof. intros Hab E. by apply string_app_inj_len in E as [_ E]. Qed.

(** The names of two records meet only when the records are the same. *)
Lemma names_apart :
  q <> sibling p ".tmp" /\ q <> sibling p ".bak" /\
  sibling q ".tmp" <> p /\ sibling q ".bak" <> p /\
  sibling q ".tmp" <> sibling p ".bak" /\ sibling q ".bak" <> sibling p ".tmp".
Proof.
  split_and!; intros [= E _].
  - apply (f_equal String.length) in E. rewrite string_length_app in E. simpl in E. lia.
  - apply (f_equal String.length) in E. rewrite string_length_app in E. simpl in E. lia.
  - apply (f_equal String.length) in E. rewrite string_length_app in E. simpl in E. lia.
  - apply (f_equal String.length) in E. rewrite string_length_app in E. simpl in E. lia.
  - by apply (suffix_conflict ".bak" ".tmp").
  - by apply (suffix_conflict ".tmp" ".bak").
Qed.

Lemma names_same s : sibling q s = sibling p s -> q = p.
Proof. intros [= E ->]. by apply string_app_inj_len in E as [-> _]. Qed.

Lemma save_keeps_claim `{ErrorText} contents :
  preserves (fun w => claimed q (nodes w)) (save p contents).
Proof.
  destruct names_apart as (N1 & N2 & N3 & N4 & N5 & N6).
  apply (save_keeps name dir contents (claimed q)); fold p;
    change ((name +:+ ".tmp") :: dir) with (sibling p ".tmp");
    change ((name +:+ ".bak") :: dir) with (sibling p ".bak").
  - intros. by apply claimed_insert.
  - intros m HI Hp. destruct (decide (q = p)) as [E|Hne].
    + left. apply occupied_delete; [done|by rewrite E].
    + apply claimed_delete; auto. intros E. by apply Hne, (names_same ".bak").
  - intros m n HI. destruct (decide (q = p)) as [E|Hne].
    + right; right. rewrite E. unfold occupied. rewrite lookup_insert_eq. eauto.
    + apply claimed_insert, claimed_delete; auto.
  - intros m n HI. destruct (decide (q = p)) as [E|Hne].
    + left. rewrite E. unfold occupied. rewrite lookup_insert_eq. eauto.
    + apply claimed_insert, claimed_delete; auto. intros E. by apply Hne, (names_same ".tmp").
  - intros m n HI. destruct (decide (q = p)) as [E|Hne].
    + left. rewrite E. unfold occupied. rewrite lookup_insert_eq. eauto.
    + apply claimed_insert, claimed_delete; auto. intros E. by apply Hne, (names_same ".bak").
Qed.
End RecordNames.

(** ** What the operations keep and what they answer *)

Section JournalFacts.
Context `{ErrorText} `{Sha256Laws} `{Codec StoredSubmission}.
Context (store : path).

(** The path of the record of an identity. *)
Definition record_path (scope id : string) : path :=
  join (join store (identity_hash scope)) (record_name id).

Definition taken (scope id : string) (w : fs_world) : Prop :=
  claimed (record_path scope id) (nodes w).

Lemma record_name_length a b :
  String.length (record_name a) = String.length (record_name b).
Proof. unfold record_name, identity_hash. by rewrite !string_length_app, !sha256_hex_length. Qed.

Lemma reads_read_candidates p scope id cs :
  reads nodes (read_candidates p scope id cs).
Proof.
  induction cs as [|c cs IH]; simpl; [apply reads_ret|].
  apply reads_bind; [auto with reads|]. intros [[]|[]]; auto with reads.
  - apply reads_bind; [unfold jio; auto with reads|]. intros. auto 6 with reads.
Qed.

Lemma reads_get scope id : reads nodes (get store scope id).
Proof.
  unfold get, read_record. apply reads_bind; [auto with reads|]. intros _.
  apply reads_bind; [auto with reads|]. intros dir. apply reads_read_candidates.
Qed.

Lemma reads_list_pending scope : reads nodes (list_pending store scope).
Proof.
  unfold list_pending, read_record. apply reads_bind; [auto with reads|]. intros dir.
  apply reads_bind; [auto with reads|]. intros [[]|names]; auto with reads.
  apply reads_bind; [apply reads_mmap; auto with reads|]. intros.
  apply reads_bind; [|auto with reads]. apply reads_mmap. intros.
  apply reads_bind; [apply reads_read_candidates|auto with reads].
Qed.

(** A read answers [None] only when none of the candidates exists. *)
Lemma read_candidates_none p scope id cs w w' :
  read_candidates p scope id cs w = (Ok None, w') ->
  Forall (fun c => nodes w !! c = None) cs.
Proof.
  revert w. induction cs as [|c cs IH]; intros w Hr; [constructor|].
  simpl in Hr. apply mbind_ok in Hr as (r & w1 & Hm & Hr). unfold mtry in Hm.
  destruct (fs_metadata c w) as [[k|e|h] w2] eqn:E; try done; injection Hm as <- <-.
  - destruct k; [|done].
    repeat (apply mbind_ok in Hr as (? & ? & ? & Hr)). done.
  - destruct e; try done. apply metadata_not_found in E as [Hc Hn].
    constructor; [done|]. rewrite <- Hn. by apply IH in Hr.
Qed.

Lemma scope_dir_ok scope dir :
  scope_dir store scope = Ok dir <->
  is_empty scope = false /\ dir = join store (identity_hash scope).
Proof. unfold scope_dir. destruct (is_empty scope); naive_solver. Qed.

(** A value of [get] comes from the candidates of the record's path. *)
Lemma get_reads scope id w x w' :
  get store scope id w = (Ok x, w') ->
  validate_identity id = Ok tt /\ is_empty scope = false /\
  read_record (record_path scope id) scope (Some id) w = (Ok x, w').
Proof.
  unfold get. intros Hg. run_ok.
  match goal with H : scope_dir _ _ = Ok _ |- _ => apply scope_dir_ok in H as [? ->] end.
  match goal with H : validate_identity _ = Ok ?u |- _ => destruct u end. done.
Qed.

Lemma get_none_free scope id w w' :
  get store scope id w = (Ok None, w') -> ~ taken scope id w.
Proof.
  intros (_ & _ & Hg)%get_reads. apply read_candidates_none in Hg.
  decompose_Forall_hyps. unfold taken, claimed, occupied, is_Some.
  simpl in *. intros [[n E]|[[n E]|[n E]]]; congruence.
Qed.

Lemma preserves_taken_insert scope id :
  forall m x n, claimed (record_path scope id) m -> claimed (record_path scope id) (<[x := n]> m).
Proof. intros. by apply claimed_insert. Qed.

Lemma begin_keeps_taken s i scope request now :
  preserves (taken s i) (begin store scope request now).
Proof.
  unfold begin, jio. apply preserves_bind; [auto with preserve|]. intros id.
  apply preserves_bind; [apply (reads_preserves nodes), reads_get|]. intros [r|]; [auto with preserve|].
  apply preserves_bind; [auto with preserve|]. intros contents.
  apply preserves_bind; [auto with preserve|]. intros dir.
  apply preserves_bind.
  { apply preserves_map_err, (create_dir_all_preserves (claimed (record_path s i))).
    intros. by apply claimed_insert. }
  intros _. apply preserves_bind.
  { apply preserves_try, (preserves_prim (claimed (record_path s i))); [done|].
    intros m Hm. repeat case_match; simpl; auto using claimed_insert. }
  intros [[]|]; auto with preserve.
  - apply preserves_bind; [apply (reads_preserves nodes), reads_get|auto with preserve].
  - apply preserves_bind.
    { apply preserves_map_err, (preserves_prim (claimed (record_path s i)));
        intros; unfold append_bytes; repeat case_match; simpl; auto using claimed_insert. }
    intros _. apply preserves_bind; [|auto with preserve].
    apply preserves_map_err, (preserves_prim (claimed (record_path s i))); [done|].
    intros m Hm. simpl. repeat case_match; auto using claimed_insert.
Qed.

Lemma finish_keeps_taken s i scope id outcome :
  preserves (taken s i) (finish store scope id outcome).
Proof.
  unfold finish. apply preserves_bind; [apply (reads_preserves nodes), reads_get|]. intros r.
  apply preserves_bind; [auto with preserve|]. intros r'.
  apply preserves_bind; [auto with preserve|]. intros dir.
  apply preserves_bind; [auto with preserve|]. intros contents.
  apply preserves_map_err, save_keeps_claim. apply record_name_length.
Qed.

Lemma acknowledge_keeps_taken s i scope id :
  preserves (taken s i) (acknowledge store scope id).
Proof.
  unfold acknowledge. apply preserves_bind; [apply (reads_preserves nodes), reads_get|]. intros r.
  apply preserves_bind; [auto with preserve|]. intros r'.
  destruct (s_outcome r'); auto with preserve. destruct (s_acknowledged r'); auto with preserve.
  apply preserves_bind; [auto with preserve|]. intros dir.
  apply preserves_bind; [auto with preserve|]. intros contents.
  apply preserves_map_err, save_keeps_claim. apply record_name_length.
Qed.

(** A read that finds a record has found one of the candidates. *)
Lemma read_candidates_some p scope id cs w r w' :
  read_candidates p scope id cs w = (Ok (Some r), w') ->
  Forall (fun c => c <> []) cs ->
  Exists (fun c => occupied c (nodes w)) cs.
Proof.
  revert w. induction cs as [|c cs IH]; intros w Hr Hne; [done|].
  inversion Hne; subst. simpl in Hr. apply mbind_ok in Hr as (k & w1 & Hm & Hr). unfold mtry in Hm.
  destruct (fs_metadata c w) as [[k'|e|h] w2] eqn:E; try done; injection Hm as <- <-.
  - left. by apply metadata_ok in E as [? _].
  - destruct e; try done. apply metadata_not_found in E as [Hc Hn].
    right. rewrite <- Hn. by apply IH in Hr.
Qed.

Lemma get_some_taken scope id w r w' :
  get store scope id w = (Ok (Some r), w') -> taken scope id w.
Proof.
  intros (_ & _ & Hg)%get_reads. apply read_candidates_some in Hg; [|by repeat constructor].
  unfold taken, claimed. rewrite !Exists_cons, Exists_nil in Hg. naive_solver.
Qed.

Lemma get_some_taken_after scope id w r w' :
  get store scope id w = (Ok (Some r), w') -> taken scope id w'.
Proof.
  intros Hg. assert (nodes w' = nodes w) as E.
  { pose proof (reads_get scope id w) as E. by rewrite Hg in E. }
  unfold taken. rewrite E. by apply get_some_taken in Hg.
Qed.

Lemma create_new_ok p w u w' :
  fs_create_new p w = (Ok u, w') -> nodes w' !! p = Some (File "" false).
Proof.
  unfold fs_create_new, prim_with.
  destruct (faults w) as [|[|n|n] rest]; simpl; repeat case_match; simplify_eq/=;
    intros; simplify_eq/=; by rewrite ?lookup_insert_eq.
Qed.

Lemma write_all_occupied q p bytes w u w' :
  fs_write_all p bytes w = (Ok u, w') -> occupied q (nodes w) -> occupied q (nodes w').
Proof.
  intros E Ho.
  assert (preserves (fun w => occupied q (nodes w)) (fs_write_all p bytes)) as Hp.
  { apply (preserves_prim (occupied q)); intros; simpl; auto using occupied_append. }
  specialize (Hp w Ho). by rewrite E in Hp.
Qed.

Lemma sync_all_occupied q p w u w' :
  fs_sync_all p w = (Ok u, w') -> occupied q (nodes w) -> occupied q (nodes w').
Proof.
  intros E Ho.
  assert (preserves (fun w => occupied q (nodes w)) (fs_sync_all p)) as Hp.
  { apply (preserves_prim (occupied q)); [done|].
    intros m Hm. simpl. repeat case_match; auto using occupied_insert. }
  specialize (Hp w Ho). by rewrite E in Hp.
Qed.

(** A begun submission has claimed its identity. *)
Lemma begin_takes scope request now w r w' :
  begin store scope request now w = (Ok r, w') ->
  exists id, r_order_link_id request = Some id /\ taken scope id w'.
Proof.
  intros Hb. unfold begin, jio in Hb. run_ok. eexists; split; [done|].
  destruct_var (option StoredSubmission); run_ok.
  { by eapply get_some_taken_after. }
  match goal with H : scope_dir _ _ = Ok _ |- _ => apply scope_dir_ok in H as [? ->] end.
  destruct_var (io_error + unit)%type.
  - destruct_var io_error; run_ok. subst. by eapply get_some_taken_after.
  - run_ok. left. eapply sync_all_occupied; [done|]. eapply write_all_occupied; [done|].
    match goal with H : fs_create_new _ _ = _ |- _ => apply create_new_ok in H end.
    unfold occupied, record_path. eauto.
Qed.
End JournalFacts.
