(* ===== verification/RiskUsage.v ===== *)
(** storage/risk_usage.rs: the daily usage ledger, one TOML file replaced
    through a synced temporary and a backup. *)
From stdpp Require Import gmap.
From Stdlib Require Import Ascii.
From S2P Require Import Prelude RustStr FileSystem External Models ConfigPersistence.

Record RiskUsage := {
  u_schema_version : Z;
  u_trading_day : string;
  u_timezone : string;
  u_occupied_orders : Z;
  u_updated_at_ms : Z;
}.

#[export] Instance RiskUsage_eq_dec : EqDecision RiskUsage.
Proof. solve_decision. Defined.

Section RiskUsageStore.
Context `{ErrorText} `{Codec RiskUsage}.
(** The path of the store. *)
Context (p : path).

Definition storage_error (e : io_error) : AppError := Storage (io_display e).

Definition sio {A : Type} (c : IO A) : M fs_world AppError A := mmap_err storage_error c.

Definition read_usage (q : path) : M fs_world AppError RiskUsage :=
  let* text := sio (fs_read_to_string q) in
  mlift (ok_or (Storage "无法读取风控用量账本") (decode text)).

Definition load : M fs_world AppError (option RiskUsage) :=
  let* main := fs_exists p in
  if (main : bool) then let* u := read_usage p in mret (Some u)
  else
    let* temp := fs_exists (sibling p ".tmp") in
    if (temp : bool) then let* u := read_usage (sibling p ".tmp") in mret (Some u)
    else
      let* backup := fs_exists (sibling p ".bak") in
      if (backup : bool) then mfail (Storage "风控用量主账本缺失，且仅存在无法确认时效的备份")
      else mret None.

Definition save (usage : RiskUsage) : M fs_world AppError unit :=
  sio (fs_create_dir_all (parent p)) ;;;
  let* text := mlift (ok_or (Storage "toml") (encode usage)) in
  let temp_path := sibling p ".tmp" in
  let backup_path := sibling p ".bak" in
  sio (fs_open_truncate temp_path) ;;;
  sio (fs_write_all temp_path text) ;;;
  sio (fs_sync_all temp_path) ;;;
  let* old_backup := fs_exists backup_path in
  (if (old_backup : bool) then sio (fs_remove_file backup_path) else mret tt) ;;;
  let* had_main := fs_exists p in
  (if (had_main : bool) then sio (fs_rename p backup_path) else mret tt) ;;;
  let* promoted := mtry (fs_rename temp_path p) in
  match promoted with
  | inr _ => mret tt
  | inl error =>
      (if (had_main : bool) then
         let* there := fs_exists backup_path in
         if (there : bool) then let* _ := mtry (fs_rename backup_path p) in mret tt else mret tt
       else mret tt) ;;;
      mfail (storage_error error)
  end.
End RiskUsageStore.

(** The ledger is a TOML table whose last key is [updated_at_ms]: a torn text
    either lacks a key, and is refused, or differs in that key only. *)
Class TornLaws `{Codec RiskUsage} := {
  decode_torn u text torn u' :
    encode u = Some text -> String.prefix torn text = true -> decode torn = Some u' ->
    u_trading_day u' = u_trading_day u /\ u_timezone u' = u_timezone u /\
    u_occupied_orders u' = u_occupied_orders u;
  (* the field is a [u32] *)
  decode_unsigned text u : decode text = Some u -> 0 <= u_occupied_orders u;
}.

(** ** What the files of the ledger guarantee *)

Section Guarantee.
Context `{ErrorText} `{TornLaws}.
Context (name : string) (dir : path).
(** The trading day the guarantee speaks of. *)
Context (day tz : string).

Let p : path := name :: dir.
Let t : path := (name +:+ ".tmp") :: dir.
Let b : path := (name +:+ ".bak") :: dir.

(** The usage counts at least [g] orders of the day. *)
Definition counts (g : Z) (u : RiskUsage) : Prop :=
  u_trading_day u = day /\ u_timezone u = tz /\ g <= u_occupied_orders u.

(** Whatever a reader decodes from the node, now or after a crash tore it. *)
Definition node_counts (g : Z) (n : node) : Prop :=
  match n with
  | Dir => False
  | File d s =>
      forall torn u, (if s then torn = d else String.prefix torn d = true) ->
        decode torn = Some u -> counts g u
  end.

Definition Ledger (g : Z) (m : gmap path node) : Prop :=
  (walkable dir m /\ m !! p <> Some Dir) /\
  (g <= 0 \/
   match m !! p with
   | Some n => node_counts g n
   | None =>
       match m !! t with
       | Some n => node_counts g n
       | None => occupied b m
       end
   end).

Lemma node_counts_mono g g' n : g' <= g -> node_counts g n -> node_counts g' n.
Proof.
  destruct n as [d s|]; [|done]. intros Hg Hn torn u Ht Hd.
  destruct (Hn torn u Ht Hd) as (?&?&?). split_and!; [done..|lia].
Qed.

Lemma Ledger_mono g g' m : g' <= g -> Ledger g m -> Ledger g' m.
Proof.
  intros Hg [Hw [Hz|HL]]; (split; [done|]); [left; lia|right].
  repeat case_match; eauto using node_counts_mono.
Qed.

Lemma node_counts_crash g cut q n : node_counts g n -> node_counts g (crash_node cut q n).
Proof.
  destruct n as [d [|]|]; simpl; [done| |done]. intros Hn torn u -> Hd.
  eapply Hn; [|done]. apply prefix_substring.
Qed.

Lemma Ledger_crash g cut m : Ledger g m -> Ledger g (crash_nodes cut m).
Proof.
  intros [[Hw Hd] HL]. split.
  { split; [by apply walkable_crash|]. rewrite lookup_crash_nodes. by destruct (m !! p) as [[? []|]|]. }
  destruct HL as [Hz|HL]; [by left|right].
  rewrite !lookup_crash_nodes. destruct (m !! p); simpl; [by apply node_counts_crash|].
  destruct (m !! t); simpl; [by apply node_counts_crash|]. by apply occupied_crash.
Qed.

(** The written text of a usage that counts, at every stage of its writing. *)
Lemma node_counts_written g u text torn s :
  counts g u -> encode u = Some text -> String.prefix torn text = true ->
  node_counts g (File torn s).
Proof.
  intros (Hd & Hz & Ho) He Hp torn' u' Ht' Hdec.
  assert (String.prefix torn' text = true) as Hp'.
  { destruct s; [by subst|]. by eapply prefix_trans. }
  destruct (decode_torn u text torn' u' He Hp' Hdec) as (E1 & E2 & E3).
  split_and!; [congruence..|lia].
Qed.

Lemma paths_apart : p <> t /\ p <> b /\ t <> b.
Proof. apply candidate_ne. Qed.

(** Writing the temporary keeps the guarantee, whoever is the main file. *)
Lemma Ledger_temp g n m : node_counts g n \/ is_Some (m !! p) -> Ledger g m -> Ledger g (<[t := n]> m).
Proof.
  destruct paths_apart as (?&?&?). intros Hn [[Hw Hd] HL]. split.
  { split; [by apply walkable_insert|by rewrite lookup_insert_ne]. }
  destruct HL as [Hz|HL]; [by left|right]. rewrite lookup_insert_ne by done.
  destruct (m !! p) eqn:E; [done|]. rewrite lookup_insert_eq.
  destruct Hn as [Hn|[? Hn]]; [done|congruence].
Qed.

Lemma Ledger_mkdirs g m q :
  (length q <= length dir)%nat -> m !! q = None -> Ledger g m -> Ledger g (<[q := Dir]> m).
Proof.
  intros Hl Hq [[Hw Hd] HL]. assert (forall x, x :: dir <> q) as Hne.
  { intros x <-. simpl in Hl. lia. }
  split.
  { split; [by apply walkable_insert_dir|]. rewrite lookup_insert_ne; [done|]. symmetry. apply Hne. }
  destruct HL as [Hz|HL]; [by left|right].
  rewrite !lookup_insert_ne by (symmetry; apply Hne).
  unfold occupied. by rewrite lookup_insert_ne by (symmetry; apply Hne).
Qed.

(** The temporary holds the whole synced text. *)
Definition Ready (g : Z) (text : string) (m : gmap path node) : Prop :=
  Ledger g m /\ m !! t = Some (File text true).

Definition Promoted (text : string) (m : gmap path node) : Prop :=
  walkable dir m /\ m !! p = Some (File text true).

Lemma Ready_keep g text m : Ready g text m -> Ledger g m.
Proof. by intros []. Qed.

Lemma usage_temp_spec {A : Type} g u text (k : M fs_world AppError A) w Q R C :
  (counts g u \/ g <= 0) -> encode u = Some text -> Ledger g (nodes w) ->
  (forall e w', Ledger g (nodes w') -> R e w') ->
  (forall w', Ledger g (nodes w') -> C w') ->
  (forall w', Ready g text (nodes w') -> wp k Q R C w') ->
  wp (sio (fs_open_truncate t) ;;; sio (fs_write_all t text) ;;; sio (fs_sync_all t) ;;; k)
    Q R C w.
Proof.
  intros Hc He HL HR HC HQ.
  assert (Hn : forall torn s m, String.prefix torn text = true -> Ledger g m ->
                Ledger g (<[t := File torn s]> m)).
  { intros torn s m Ht Hm. destruct Hc as [Hc|Hz].
    - apply Ledger_temp; [left; by eapply node_counts_written|done].
    - destruct paths_apart as (?&?&?), Hm as [[Hw Hd] _].
      split; [split; [by apply walkable_insert|by rewrite lookup_insert_ne]|by left]. }
  unfold sio. repeat wp_step. wp_call; [by auto..|]. intros fs.
  destruct (open_check t (nodes w)) as [[]| |]; simpl; [|by auto..].
  assert (HL1 : Ledger g (<[t := File "" false]> (nodes w))) by (apply Hn; [by destruct text|exact HL]).
  repeat wp_step; wp_call; unfold append_bytes; rewrite lookup_insert_eq; simpl.
  - intros n fs1. apply HR, Hn; [apply prefix_substring|done].
  - intros n fs1. apply HC, Hn; [apply prefix_substring|done].
  - intros fs1. pose proof (Hn text false _ (prefix_refl text) HL1) as HL2.
    repeat wp_step; wp_call; simpl; [by auto..|].
    intros fs2. rewrite lookup_insert_eq. apply HQ. split; cbn [nodes].
    + by apply Hn; [apply prefix_refl|].
    + by rewrite lookup_insert_eq.
Qed.

Lemma wp_exists {E : Type} q (Q : bool -> fs_world -> Prop) (R : E -> fs_world -> Prop) C w :
  (forall x fs, Q x (FsWorld (nodes w) fs)) -> (forall fs, C (FsWorld (nodes w) fs)) ->
  wp (fs_exists q) Q R C w.
Proof.
  intros HQ HC. unfold fs_exists. repeat wp_step. wp_call.
  - intros. apply wp_ret. auto.
  - auto.
  - intros fs. unfold lookup_op. repeat case_match; simplify_eq; apply wp_ret; auto.
Qed.

(** ** Reading back, when the existence checks are answered *)

(** How many of the ledger's files a load asks for. *)
Definition checks (m : gmap path node) : nat :=
  match m !! p, m !! t with Some _, _ => 1 | None, Some _ => 2 | None, None => 3 end.

(** A refused existence check reads as a missing file. *)
Definition answered (f : fault) : bool := match f with FailOp _ => false | _ => true end.

(** None of the checks of a load is refused; they may end the process, and
    what follows them may fail. *)
Definition examined (m : gmap path node) (fs : list fault) : Prop :=
  forallb answered (take (checks m) fs) = true.

Lemma wp_exists_answered {E : Type} (x : string) n (Q : bool -> fs_world -> Prop)
    (R : E -> fs_world -> Prop) C w :
  walkable dir (nodes w) -> forallb answered (take (S n) (faults w)) = true ->
  (forall fs, forallb answered (take n (schedule fs)) = true ->
     Q (bool_decide (is_Some (nodes w !! (x :: dir)))) (FsWorld (nodes w) fs)) ->
  (forall fs, C (FsWorld (nodes w) fs)) ->
  wp (fs_exists (x :: dir)) Q R C w.
Proof.
  intros Hw Ha HQ HC. unfold wp, fs_exists, fs_metadata, mbind, mtry, prim, prim_with, lookup_op.
  rewrite (Hw x). destruct (faults w) as [|[|k|k] fs]; simpl in Ha; [| |done|apply HC];
    specialize (fun a => HQ a Ha) || specialize (fun e => HQ e);
    destruct (nodes w !! (x :: dir)) as [[]|]; apply HQ; simpl; try done; by rewrite take_nil.
Qed.

(** What a load may answer when the files guarantee [g]. *)
Definition loads (g : Z) (o : option RiskUsage) : Prop :=
  match o with
  | Some u => 0 <= u_occupied_orders u /\ (g <= 0 \/ counts g u)
  | None => g <= 0
  end.

Definition read_some (q : path) : M fs_world AppError (option RiskUsage) :=
  let* u := read_usage q in mret (Some u).

Abbreviation keeps_tree w := (fun w' : fs_world => nodes w' = nodes w).

Lemma read_some_spec g (q : path) n w :
  nodes w !! q = Some n -> (g <= 0 \/ node_counts g n) ->
  wp (read_some q) (fun o w' => nodes w' = nodes w /\ loads g o) (fun _ => keeps_tree w)
     (keeps_tree w) w.
Proof.
  intros Hq Hn. unfold read_some, read_usage, sio, fs_read_to_string, fs_read. repeat wp_step.
  wp_call; [done..|]. intros fs. destruct (blocked (nodes w) q); [done|]. rewrite Hq.
  destruct n as [d s|]; [|done]. destruct (utf8_valid (bytes_of d)); [|done].
  wp_step. unfold mlift, wp. destruct (decode d) as [u|] eqn:E; simpl; [|done].
  split; [done|]. split; [by eapply decode_unsigned|].
  destruct Hn as [Hz|Hn]; [by left|right]. apply (Hn d u); [|done].
  destruct s; [done|apply prefix_refl].
Qed.

Lemma load_spec g w :
  Ledger g (nodes w) -> examined (nodes w) (faults w) ->
  wp (load p) (fun o w' => nodes w' = nodes w /\ loads g o) (fun _ => keeps_tree w)
     (keeps_tree w) w.
Proof.
  intros [[Hw Hd] HL] Hx. unfold load, examined, checks in *.
  assert (Hstep : forall (q : path) fs n, nodes w !! q = Some n -> (g <= 0 \/ node_counts g n) ->
    wp (read_some q) (fun o w' => nodes w' = nodes w /\ loads g o) (fun _ => keeps_tree w)
      (keeps_tree w) (FsWorld (nodes w) fs))
    by (intros q fs n; exact (read_some_spec g q n (FsWorld (nodes w) fs))).
  destruct (nodes w !! p) as [n|] eqn:Ep.
  { wp_step. eapply (wp_exists_answered _ 0); [done..| |done]. intros fs _.
    change (name :: dir) with p. rewrite Ep, bool_decide_true by eauto.
    eapply Hstep; [exact Ep|tauto]. }
  destruct (nodes w !! t) as [n|] eqn:Et.
  { wp_step. eapply (wp_exists_answered _ 1); [done..| |done]. intros fs Hfs.
    change (name :: dir) with p. rewrite Ep, bool_decide_false by (by intros []).
    wp_step. eapply (wp_exists_answered _ 0); [done..| |done]. intros fs' _. cbn [nodes].
    change ((name +:+ ".tmp") :: dir) with t. rewrite Et, bool_decide_true by eauto.
    eapply Hstep; [exact Et|tauto]. }
  wp_step. eapply (wp_exists_answered _ 2); [done..| |done]. intros fs Hfs.
  change (name :: dir) with p. rewrite Ep, bool_decide_false by (by intros []).
  wp_step. eapply (wp_exists_answered _ 1); [done..| |done]. intros fs' Hfs'. cbn [nodes].
  change ((name +:+ ".tmp") :: dir) with t. rewrite Et, bool_decide_false by (by intros []).
  wp_step. eapply (wp_exists_answered _ 0); [done..| |done]. intros fs'' _. cbn [nodes].
  change ((name +:+ ".bak") :: dir) with b.
  case_bool_decide as Hb; [done|]. wp_step. split; [done|]. by destruct HL.
Qed.

Context (usage : RiskUsage) (text : string) (g : Z).
Hypothesis usage_counts : counts g usage \/ g <= 0.
Hypothesis usage_text : encode usage = Some text.

Lemma text_counts : g <= 0 \/ node_counts g (File text true).
Proof.
  destruct usage_counts as [Hc|Hz]; [right|by left].
  eapply node_counts_written; [done..|apply prefix_refl].
Qed.

(** Removing the backup while the temporary is complete. *)
Lemma Ready_drop_backup m : Ready g text m -> Ready g text (delete b m).
Proof.
  destruct paths_apart as (?&?&?). intros [[[Hw Hd] HL] Ht].
  split; [split|by rewrite lookup_delete_ne].
  { split; [by apply walkable_delete|by rewrite lookup_delete_ne]. }
  destruct HL as [Hz|HL]; [by left|right].
  rewrite !lookup_delete_ne by done. destruct (m !! p); [done|]. by rewrite Ht in *.
Qed.

(** The main file is moved away, the temporary is complete. *)
Definition Displaced (m : gmap path node) : Prop :=
  walkable dir m /\ m !! p = None /\ m !! t = Some (File text true) /\
  exists d s, m !! b = Some (File d s) /\ (g <= 0 \/ node_counts g (File d s)).

Lemma Displaced_keep m : Displaced m -> Ledger g m.
Proof.
  intros (Hw & Hp & Ht & _). split; [split; [done|congruence]|]. rewrite Hp, Ht.
  apply text_counts.
Qed.

(** Moving the main file away. *)
Lemma displace m d s :
  Ready g text m -> m !! p = Some (File d s) ->
  Displaced (<[b := File d s]> (delete p m)).
Proof.
  destruct paths_apart as (?&?&?). intros [[[Hw Hd] HL] Ht] Hp. split_and!.
  - by apply walkable_insert, walkable_delete.
  - rewrite lookup_insert_ne by done. by rewrite lookup_delete_eq.
  - rewrite lookup_insert_ne by done. by rewrite lookup_delete_ne.
  - exists d, s. rewrite lookup_insert_eq. split; [done|]. by rewrite Hp in HL.
Qed.

(** Moving it back. *)
Lemma restore m d s :
  Displaced m -> m !! b = Some (File d s) -> Ledger g (<[p := File d s]> (delete b m)).
Proof.
  intros (Hw & Hp & Ht & d' & s' & Hb & Hc) E. assert (d' = d /\ s' = s) as [-> ->] by naive_solver.
  split; [split; [by apply walkable_insert, walkable_delete|by rewrite lookup_insert_eq]|].
  rewrite lookup_insert_eq. done.
Qed.

Lemma promote m d s :
  walkable dir m -> m !! t = Some (File d s) -> s = true -> d = text ->
  Promoted text (<[p := File d s]> (delete t m)).
Proof.
  intros Hw Ht -> ->. split; [by apply walkable_insert, walkable_delete|by rewrite lookup_insert_eq].
Qed.

Abbreviation keeps := (fun w' : fs_world => Ledger g (nodes w')).
Abbreviation moves := (fun (_ : unit) (w' : fs_world) => Promoted text (nodes w')).

(** The promotion of the temporary and what follows its failure. *)
Definition promotion (had_main : bool) : M fs_world AppError unit :=
  let* promoted := mtry (fs_rename t p) in
  match promoted with
  | inr _ => mret tt
  | inl error =>
      (if (had_main : bool) then
         let* there := fs_exists b in
         if (there : bool) then let* _ := mtry (fs_rename b p) in mret tt else mret tt
       else mret tt) ;;;
      mfail (storage_error error)
  end.

Lemma promotion_spec (had_main : bool) (w : fs_world) :
  (if had_main then Displaced (nodes w) else Ready g text (nodes w)) ->
  wp (promotion had_main) moves (fun _ : AppError => keeps) keeps w.
Proof.
  intros Hs. assert (HL : Ledger g (nodes w)).
  { destruct had_main; [by apply Displaced_keep|apply Hs]. }
  assert (Hw : walkable dir (nodes w)) by apply HL.
  assert (Ht : nodes w !! t = Some (File text true)) by (destruct had_main; apply Hs).
  unfold promotion. repeat wp_step. eapply wp_rename_file; cbn [nodes]; [exact Ht| | |done].
  - intros fs. apply wp_ret. by eapply promote.
  - intros e fs. destruct had_main; repeat wp_step; [|done]. apply wp_exists; cbn [nodes]; [|done].
    intros [] fs'; repeat wp_step; [|done].
    assert (Hb := Hs). destruct Hb as (_ & _ & _ & d & s & Hb & _).
    eapply wp_rename_file; cbn [nodes]; [exact Hb| | |done]; intros; repeat wp_step; [|done].
    by apply restore.
Qed.

Lemma displace_spec (w : fs_world) :
  Ready g text (nodes w) ->
  wp (fs_rename p b) (fun (_ : unit) (w' : fs_world) => Displaced (nodes w')) (fun _ : io_error => keeps) keeps w.
Proof.
  intros HR. apply wp_prim; unfold unchanged; [intros; apply HR..|]. intros fs.
  unfold rename_op. destruct (_ || _); [apply HR|].
  destruct (nodes w !! p) as [[d s|]|] eqn:E; [| |apply HR].
  - destruct (negb _); [apply HR|].
    destruct (nodes w !! b) as [[]|]; first [by apply displace | apply HR].
  - destruct HR as [[[_ Hd] _] _]. done.
Qed.

Lemma usage_save_spec (w : fs_world) :
  Ledger g (nodes w) -> wp (save p usage) moves (fun _ : AppError => keeps) keeps w.
Proof.
  intros HL. unfold save, sio. repeat wp_step.
  eapply wp_mono; [apply (wp_preserves keeps _ w); [|exact HL]| | |]; simpl; try done.
  { apply (create_dir_all_preserves_below (Ledger g)). intros. by apply Ledger_mkdirs. }
  intros _ w1 HL1. wp_step. unfold mlift, wp at 1. rewrite usage_text. cbn.
  eapply (usage_temp_spec g usage); try done.
  intros w2 HR. wp_step. apply wp_exists; [|intros; apply HR].
  intros old fs. wp_step.
  apply (wp_mono _ (fun (_ : unit) (w' : fs_world) => Ready g text (nodes w')) _
           (fun (_ : AppError) => keeps) _ keeps); [| |done|done].
  { destruct old; unfold sio; repeat wp_step; [|done].
    apply wp_remove_file; cbn [nodes]; intros; [by apply Ready_drop_backup|apply HR..]. }
  intros _ w3 HR3. wp_step. apply wp_exists; [|intros; apply HR3]. intros had fs3. wp_step.
  apply (wp_mono _ (fun (_ : unit) (w' : fs_world) =>
             if had then Displaced (nodes w') else Ready g text (nodes w')) _
           (fun (_ : AppError) => keeps) _ keeps); [| |done|done].
  { destruct had; unfold sio; repeat wp_step; [|done]. by apply displace_spec. }
  intros _ w4 H4. by apply promotion_spec.
Qed.

(** A promoted text guarantees what its usage counts. *)
Lemma Promoted_counts g' m : counts g' usage -> Promoted text m -> Ledger g' m.
Proof.
  intros Hc [Hw Hp]. split; [split; [done|by rewrite Hp]|right]. rewrite Hp.
  eapply node_counts_written; [done..|apply prefix_refl].
Qed.
End Guarantee.

Section SaveOutcome.
Context `{ErrorText} `{TornLaws}.

(** A save, whatever it is asked to write and wherever it stops. *)
Lemma save_outcome name dir day tz usage g (w : fs_world) :
  counts day tz g usage \/ g <= 0 -> Ledger name dir day tz g (nodes w) ->
  wp (save (name :: dir) usage)
    (fun (_ : unit) w' => forall g', counts day tz g' usage -> Ledger name dir day tz g' (nodes w'))
    (fun (_ : AppError) w' => Ledger name dir day tz g (nodes w'))
    (fun w' => Ledger name dir day tz g (nodes w')) w.
Proof.
  intros Hc HL. destruct (encode usage) as [text|] eqn:E.
  - eapply wp_mono; [by apply (usage_save_spec _ _ day tz usage text g)| |done|done].
    simpl. intros _ w' Hp g' Hg'. by eapply Promoted_counts.
  - unfold save, sio. repeat wp_step.
    eapply wp_mono; [apply (wp_preserves (fun w' => Ledger name dir day tz g (nodes w')) _ w); [|exact HL]| | |]; simpl; try done.
    { apply (create_dir_all_preserves_below (Ledger name dir day tz g)). intros. by apply Ledger_mkdirs. }
    intros _ w' HL'. wp_step. unfold mlift, wp at 1. by rewrite E.
Qed.
End SaveOutcome.
