(* ===== verification/Risk.v ===== *)
(** services/risk.rs, services/risk/validation.rs, services/risk/status.rs: the
    checks an order passes and the daily count of orders. *)
From stdpp Require Import gmap relations.
From S2P Require Import Prelude RustStr FileSystem External Models Time RiskUsage.

Definition LEDGER_UNAVAILABLE_MESSAGE : string := "风控用量账本不可用，请检查本地存储权限或文件格式。".

Record RiskReservation := {
  rv_trading_day : string;
  rv_timezone : string;
  rv_counted : bool;
}.

Definition not_counted : RiskReservation :=
  {| rv_trading_day := ""; rv_timezone := ""; rv_counted := false |}.
Definition counted (trading_day timezone : string) : RiskReservation :=
  {| rv_trading_day := trading_day; rv_timezone := timezone; rv_counted := true |}.

(** ** validation.rs *)

Section Validation.
Context `{DecimalLib} `{TimezoneLib}.

Definition dec_hundred : Dec := dec_of_Z 100.

Definition validate_risk_config (config : RiskConfig) : outcome AppError unit :=
  let? max_qty := ok_or (Config "最大单笔下单数量格式无效")
                    (dec_from_str (max_order_qty config)) in
  let? _ := guard (dec_leb max_qty dec_zero) (Config "最大单笔下单数量必须大于 0") in
  let? max_deviation := ok_or (Config "最大价格偏离格式无效")
                          (dec_from_str (max_price_deviation_pct config)) in
  let? _ := guard (dec_ltb max_deviation dec_zero) (Config "最大价格偏离不能为负数") in
  let? _ := guard (max_daily_orders config =? 0) (Config "每日最大下单次数必须大于 0") in
  guard (negb (is_valid_iana_timezone (trading_day_timezone config))) (Config "交易日时区无效").

Definition violation_with_decimal_limit (code : RiskViolationCode) (limit : Dec) : RiskViolation :=
  match dec_to_f64 limit with
  | Some value =>
      if f64_is_finite value && f64_ge_zero value then RiskViolation_with_limit code value
      else RiskViolation_new code
  | None => RiskViolation_new code
  end.

(** The reference price, when it is a positive number. *)
Definition positive_reference (reference_price : option string) : option Dec :=
  match reference_price with
  | Some value =>
      match dec_from_str value with
      | Some d => if dec_ltb dec_zero d then Some d else None
      | None => None
      end
  | None => None
  end.

(** [((price - ref).abs() / ref) * 100], whose operators panic on overflow. *)
Definition price_deviation (price ref_price : Dec) : option Dec :=
  match dec_sub price ref_price with
  | Some difference =>
      match dec_div (dec_abs difference) ref_price with
      | Some ratio => dec_mul ratio dec_hundred
      | None => None
      end
  | None => None
  end.

Definition validate_limit_price (config : RiskConfig) (request : PlaceOrderRequest)
    (reference_price : option string) : outcome RiskViolation unit :=
  let? price_str := ok_or (RiskViolation_new MissingLimitPrice) (r_price request) in
  let? price := ok_or (RiskViolation_new InvalidLimitPrice) (dec_from_str price_str) in
  let? _ := guard (dec_leb price dec_zero) (RiskViolation_new NonPositiveLimitPrice) in
  let? ref_price := ok_or (RiskViolation_new ReferencePriceUnavailable)
                      (positive_reference reference_price) in
  let? deviation := or_panic (price_deviation price ref_price) in
  let? max_deviation := ok_or (RiskViolation_new LedgerUnavailable)
                          (dec_from_str (max_price_deviation_pct config)) in
  guard (dec_ltb max_deviation deviation)
    (violation_with_decimal_limit MaxPriceDeviation max_deviation).

(** [to_lowercase() == "limit"]: no character beyond ASCII lowercases to one
    of these letters. *)
Definition is_limit (order_type : string) : bool := eq_ignore_ascii_case order_type "limit".

Definition validate_order (config : RiskConfig) (request : PlaceOrderRequest)
    (reference_price : option string) : outcome RiskViolation unit :=
  let? qty := ok_or (RiskViolation_new InvalidQuantity) (dec_from_str (r_qty request)) in
  let? _ := guard (dec_leb qty dec_zero) (RiskViolation_new NonPositiveQuantity) in
  let? _ :=
    if bool_decide (r_reduce_only request <> Some true) then
      let? max_qty := ok_or (RiskViolation_new LedgerUnavailable)
                        (dec_from_str (max_order_qty config)) in
      guard (dec_ltb max_qty qty) (violation_with_decimal_limit MaxOrderQty max_qty)
    else Ok tt in
  if is_limit (r_order_type request) then validate_limit_price config request reference_price
  else Ok tt.
End Validation.

(** ** risk.rs *)

(** The service: its configuration and the state behind its lock. *)
Record RiskService := {
  rs_config : RiskConfig;
  rs_usage : option RiskUsage;
  rs_load_error : option string;
  rs_poisoned : bool;
}.

Record risk_world := RiskWorld { rw_fs : fs_world; rw_service : RiskService }.

Section Service.
Context `{ErrorText} `{Codec RiskUsage} `{DecimalLib} `{TimezoneLib}.
(** The ledger's path, and [Utc::now()] for times out of chrono's range. *)
Context (store : path) (utc_now : DateTime).

Definition on_store {E A : Type} (c : M fs_world E A) : M risk_world E A :=
  fun w => let '(o, fs) := c (rw_fs w) in (o, RiskWorld fs (rw_service w)).

Definition read_service {E : Type} : M risk_world E RiskService := fun w => (Ok (rw_service w), w).

Definition set_state {E : Type} (usage : option RiskUsage) (load_error : option string)
    : M risk_world E unit :=
  fun w =>
    let s := rw_service w in
    (Ok tt, RiskWorld (rw_fs w)
      {| rs_config := rs_config s; rs_usage := usage; rs_load_error := load_error;
         rs_poisoned := rs_poisoned s |}).

Definition set_usage {E : Type} (usage : option RiskUsage) : M risk_world E unit :=
  fun w => set_state usage (rs_load_error (rw_service w)) w.

Definition set_config {E : Type} (config : RiskConfig) : M risk_world E unit :=
  fun w =>
    let s := rw_service w in
    (Ok tt, RiskWorld (rw_fs w)
      {| rs_config := config; rs_usage := rs_usage s; rs_load_error := rs_load_error s;
         rs_poisoned := rs_poisoned s |}).

Definition load_usage {E : Type} : M fs_world E (option RiskUsage * option string) :=
  let* r := mtry (load store) in
  match r with
  | inr usage => mret (usage, None)
  | inl error => mret (None, Some (user_message error))
  end.

Definition with_store {E : Type} (config : RiskConfig) : M fs_world E RiskService :=
  let* r := (if enabled config then load_usage else mret (None, None)) in
  mret {| rs_config := config; rs_usage := r.1; rs_load_error := r.2; rs_poisoned := false |}.

Definition update_config {E : Type} (config : RiskConfig) : M risk_world E unit :=
  let* s := read_service in
  let was_enabled := enabled (rs_config s) in
  set_config config ;;;
  if negb (enabled config) then
    if rs_poisoned s then mret tt else set_state None None
  else if negb was_enabled then
    let* r := on_store load_usage in
    if rs_poisoned s then mret tt else set_state r.1 r.2
  else mret tt.

Definition requires_reference_price (s : RiskService) (request : PlaceOrderRequest) : bool :=
  enabled (rs_config s) && is_limit (r_order_type request).

(** The usage the reservation of a day starts from. *)
Definition usage_for (trading_day timezone : string) (now_ms : Z) (usage : option RiskUsage)
    : RiskUsage :=
  let fresh := {| u_schema_version := 1; u_trading_day := trading_day; u_timezone := timezone;
                  u_occupied_orders := 0; u_updated_at_ms := now_ms |} in
  match usage with
  | Some usage =>
      if (u_trading_day usage ==s trading_day) && (u_timezone usage ==s timezone)
      then usage else fresh
  | None => fresh
  end.

Definition with_occupied (n now_ms : Z) (u : RiskUsage) : RiskUsage :=
  {| u_schema_version := u_schema_version u; u_trading_day := u_trading_day u;
     u_timezone := u_timezone u; u_occupied_orders := n; u_updated_at_ms := now_ms |}.

Definition reserve_order (request : PlaceOrderRequest) (reference_price : option string)
    (now_ms : Z) : M risk_world RiskViolation RiskReservation :=
  let* s := read_service in
  let config := rs_config s in
  if negb (enabled config) then mret not_counted
  else
    mlift (validate_order config request reference_price) ;;;
    if bool_decide (r_reduce_only request = Some true) then mret not_counted
    else
      let timezone := resolve_trading_day_timezone (trading_day_timezone config) in
      let trading_day := trading_day_key utc_now now_ms timezone in
      mlift (guard (rs_poisoned s) (RiskViolation_new LedgerUnavailable)) ;;;
      mlift (guard (bool_decide (is_Some (rs_load_error s))) (RiskViolation_new LedgerUnavailable)) ;;;
      let next := usage_for trading_day timezone now_ms (rs_usage s) in
      mlift (guard (max_daily_orders config <=? u_occupied_orders next)
        (RiskViolation_with_limit DailyOrderLimit (f64_of_Z (max_daily_orders config)))) ;;;
      let next := with_occupied (u_occupied_orders next + 1) now_ms next in
      mmap_err (fun _ => RiskViolation_new LedgerUnavailable) (on_store (save store next)) ;;;
      set_usage (Some next) ;;;
      mret (counted trading_day timezone).

Definition release_reservation (reservation : RiskReservation) (now_ms : Z)
    : M risk_world AppError unit :=
  if negb (rv_counted reservation) then mret tt
  else
    let* s := read_service in
    mlift (guard (rs_poisoned s) (Storage "风控用量锁已损坏")) ;;;
    match rs_usage s with
    | None => mret tt
    | Some current =>
        if (u_trading_day current !=s rv_trading_day reservation)
           || (u_timezone current !=s rv_timezone reservation)
        then mret tt
        else
          let next := with_occupied (saturating_sub (u_occupied_orders current) 1) now_ms current in
          on_store (save store next) ;;;
          set_usage (Some next)
    end.

(** ** status.rs *)

Definition status (s : RiskService) (now_ms : Z) : RiskStatus :=
  let config := rs_config s in
  let timezone := trading_day_timezone config in
  let trading_day := trading_day_key utc_now now_ms timezone in
  let base ledger_state occupied remaining updated error :=
    {| st_enabled := enabled config;
       st_max_order_qty := max_order_qty config;
       st_max_price_deviation_pct := max_price_deviation_pct config;
       st_max_daily_orders := max_daily_orders config;
       st_trading_day_timezone := timezone;
       st_ledger_state := ledger_state;
       st_trading_day := trading_day;
       st_occupied_orders := occupied;
       st_remaining_orders := remaining;
       st_updated_at_ms := updated;
       st_error := error |} in
  let unavailable := base Unavailable None None None (Some LEDGER_UNAVAILABLE_MESSAGE) in
  let free := base Models.Ready (Some 0) (Some (max_daily_orders config)) None None in
  if negb (enabled config) then base Disabled None None None None
  else if rs_poisoned s then unavailable
  else if bool_decide (is_Some (rs_load_error s)) then unavailable
  else match rs_usage s with
       | Some usage =>
           if (u_trading_day usage ==s trading_day) && (u_timezone usage ==s timezone)
           then base Models.Ready (Some (u_occupied_orders usage))
                  (Some (saturating_sub (max_daily_orders config) (u_occupied_orders usage)))
                  (Some (u_updated_at_ms usage)) None
           else free
       | None => free
       end.
End Service.

(** ** The daily limit *)

Lemma wp_on_store {E A : Type} (c : M fs_world E A) Q R C (w : risk_world) :
  wp c (fun a fs => Q a (RiskWorld fs (rw_service w))) (fun e fs => R e (RiskWorld fs (rw_service w)))
    (fun fs => C (RiskWorld fs (rw_service w))) (rw_fs w) ->
  wp (on_store c) Q R C w.
Proof. unfold wp, on_store. by destruct (c (rw_fs w)) as [[] fs]. Qed.

Section DailyLimit.
Context `{ErrorText} `{TornLaws} `{DecimalLib} `{TimezoneLib}.
Context (name : string) (dir : path) (utc_now : DateTime).
(** One trading day, and a bound on the configured limits. *)
Context (day tz : string) (limit : Z).

Let store : path := name :: dir.

(** The time falls on the trading day, under the configuration in force. *)
Definition on_day (config : RiskConfig) (now_ms : Z) : Prop :=
  resolve_trading_day_timezone (trading_day_timezone config) = tz /\
  trading_day_key utc_now now_ms tz = day.

Definition granted (o : outcome RiskViolation RiskReservation) : nat :=
  match o with Ok r => if rv_counted r then 1 else 0 | _ => 0 end.

(** The process starts on the files a crash left, maybe after attempts that died
    while they read the ledger. *)
Inductive boots : fs_world -> fs_world * RiskService -> Prop :=
| boot_up fs0 cut schedule config service fs :
    max_daily_orders config <= limit ->
    (enabled config = true -> examined name dir (crash_nodes cut (nodes fs0)) schedule) ->
    with_store (E := AppError) store config (restart cut schedule fs0) = (Ok service, fs) ->
    boots fs0 (fs, service)
| boot_dies fs0 cut schedule config h fs st :
    with_store (E := AppError) store config (restart cut schedule fs0) = (Halt h, fs) ->
    boots fs st -> boots fs0 st.

(** The life of the service on one trading day, with the number of counted
    reservations granted and not given back.  Any call of the file system may
    fail or end the process, except that a start, or a change of the
    configuration that enables the checks, is not refused the look whether a
    file of the ledger exists: the code takes the refusal for a missing file. *)
Inductive day_step : risk_world * nat -> risk_world * nat -> Prop :=
| day_reserve w g request reference now_ms :
    on_day (rs_config (rw_service w)) now_ms ->
    let r := reserve_order store utc_now request reference now_ms w in
    day_step (w, g) (snd r, (granted (fst r) + g)%nat)
| day_release w g now_ms :
    day_step (w, S g) (snd (release_reservation store (counted day tz) now_ms w), g)
| day_update w g config w' :
    max_daily_orders config <= limit ->
    (enabled config = true -> enabled (rs_config (rw_service w)) = true \/
       examined name dir (nodes (rw_fs w)) (faults (rw_fs w))) ->
    update_config (E := AppError) store config w = (Ok tt, w') ->
    day_step (w, g) (w', g)
| day_update_dies w g config h w' fs service :
    update_config (E := AppError) store config w = (Halt h, w') ->
    boots (rw_fs w') (fs, service) ->
    day_step (w, g) (RiskWorld fs service, g)
| day_faults w g schedule :
    day_step (w, g) (RiskWorld (FsWorld (nodes (rw_fs w)) schedule) (rw_service w), g)
| day_restart w g fs service :
    boots (rw_fs w) (fs, service) ->
    day_step (w, g) (RiskWorld fs service, g).

(** The state in memory counts the outstanding reservations, or refuses new
    ones, or loads the ledger before it grants any. *)
Definition remembers (s : RiskService) (g : nat) : Prop :=
  (forall u, rs_usage s = Some u -> 0 <= u_occupied_orders u) /\
  (g = 0%nat \/ rs_poisoned s = true \/
   match rs_usage s with
   | Some u => counts day tz (Z.of_nat g) u
   | None => is_Some (rs_load_error s) \/ enabled (rs_config s) = false
   end).

Definition day_inv (st : risk_world * nat) : Prop :=
  let '(w, g) := st in
  Ledger name dir day tz (Z.of_nat g) (nodes (rw_fs w)) /\
  max_daily_orders (rs_config (rw_service w)) <= limit /\
  Z.of_nat g <= limit /\
  remembers (rw_service w) g.

Lemma remembers_mono s g g' : (g' <= g)%nat -> remembers s g -> remembers s g'.
Proof.
  intros Hg [Hu Hr]. split; [done|]. destruct Hr as [->|[?|Hr]]; [left; lia|auto|].
  do 2 right. destruct (rs_usage s) as [u|]; [|done]. destruct Hr as (? & ? & ?).
  split_and!; [done..|lia].
Qed.

(** The usage a reservation of the day starts from counts what is out. *)
Lemma usage_for_counts s g now_ms :
  remembers s g -> rs_poisoned s = false -> rs_load_error s = None -> enabled (rs_config s) = true ->
  counts day tz (Z.of_nat g) (usage_for day tz now_ms (rs_usage s)).
Proof.
  intros [Hu Hr] Hp Hl He. unfold usage_for.
  destruct Hr as [->|[?|Hr]]; [|congruence|].
  - destruct (rs_usage s) as [u|]; [|done]. specialize (Hu u eq_refl).
    destruct (_ && _) eqn:E; [|done]. bools. unfold counts.
    rewrite !String.eqb_eq in *. done.
  - destruct (rs_usage s) as [u|].
    + destruct Hr as (<- & <- & ?). by rewrite !String.eqb_refl.
    + rewrite Hl, He in Hr. destruct Hr as [[]|]; done.
Qed.

(** What a load puts in memory. *)
Definition remembered (g : Z) (r : option RiskUsage * option string) : Prop :=
  (forall u, r.1 = Some u -> 0 <= u_occupied_orders u) /\
  (g <= 0 \/ match r.1 with Some u => counts day tz g u | None => is_Some r.2 end).

Lemma load_usage_spec {E : Type} g w :
  Ledger name dir day tz g (nodes w) -> examined name dir (nodes w) (faults w) ->
  wp (load_usage (E := E) store) (fun r w' => nodes w' = nodes w /\ remembered g r)
    (fun _ _ => False) (fun w' => nodes w' = nodes w) w.
Proof.
  intros HL Hx. unfold load_usage. repeat wp_step.
  eapply wp_mono; [by apply (load_spec name dir day tz g)|..]; simpl; [| |done].
  - intros [u|] w' [E' Ho]; wp_step; (split; [done|]); simpl in Ho.
    + destruct Ho as [? Ho]. split; [by intros ? [= <-]|]. simpl. tauto.
    + split; [done|]. by left.
  - intros e w' E'. wp_step. split; [done|]. split; [done|]. right. simpl. by eexists.
Qed.

Lemma reads_load_usage {E : Type} : reads nodes (load_usage (E := E) store).
Proof.
  assert (forall q, reads nodes (read_usage q)) as Hr
    by (intros; unfold read_usage, sio; eauto with reads).
  unfold load_usage, load.
  repeat first [apply reads_exists|apply Hr|apply reads_bind; [|intros]|apply reads_try
               |apply reads_ret|apply reads_fail|case_match].
Qed.

Lemma reserve_inv w g request reference now_ms :
  on_day (rs_config (rw_service w)) now_ms -> day_inv (w, g) ->
  let r := reserve_order store utc_now request reference now_ms w in
  day_inv (snd r, (granted (fst r) + g)%nat).
Proof.
  intros [Htz Hday] (HL & Hmax & Hg & Hr).
  assert (HI : day_inv (w, g)) by done. cbv zeta.
  set (post := fun (n : nat) w' => day_inv (w', (n + g)%nat)).
  cut (wp (reserve_order store utc_now request reference now_ms)
         (fun rv w' => post (granted (Ok rv)) w') (fun _ => post 0%nat) (post 0%nat) w).
  { unfold wp. destruct (reserve_order _ _ _ _ _ w) as [[] w']; done. }
  unfold reserve_order. wp_step. unfold read_service at 1, wp at 1. set (s := rw_service w) in *.
  destruct (enabled (rs_config s)) eqn:He; simpl; [|by apply wp_ret].
  wp_step. unfold mlift at 1, wp at 1.
  destruct (validate_order _ _ _); [|done|done].
  case_bool_decide; [by apply wp_ret|]. rewrite Htz, Hday.
  wp_step. unfold mlift at 1, wp at 1. destruct (rs_poisoned s) eqn:Hp; simpl; [done|].
  wp_step. unfold mlift at 1, wp at 1. case_bool_decide as Hle; simpl; [done|].
  apply eq_None_not_Some in Hle.
  pose proof (usage_for_counts s g now_ms Hr Hp Hle He) as (Ed & Ez & Ho).
  set (next := usage_for day tz now_ms (rs_usage s)) in *.
  wp_step. unfold mlift at 1, wp at 1. destruct (Z.leb_spec (max_daily_orders (rs_config s)) (u_occupied_orders next));
    simpl; [done|].
  repeat wp_step. apply wp_on_store.
  eapply wp_mono; [apply (save_outcome name dir day tz _ (Z.of_nat g)); [left|exact HL]| | |]; simpl.
  - split_and!; simpl; [done..|lia].
  - intros _ fs HL'. wp_step. unfold set_usage, set_state, wp at 1. apply wp_ret. simpl.
    unfold post, day_inv. simpl. split_and!; [|done|lia|].
    + apply HL'. split_and!; simpl; [done..|lia].
    + split; [intros u [= <-]; simpl; lia|]. do 2 right. simpl.
      split_and!; simpl; [done..|lia].
  - intros _ fs HL'. unfold post, day_inv. simpl. done.
  - intros fs HL'. unfold post, day_inv. simpl. done.
Qed.

Lemma release_inv w g now_ms :
  day_inv (w, S g) -> day_inv (snd (release_reservation store (counted day tz) now_ms w), g).
Proof.
  intros (HL & Hmax & Hg & Hr).
  assert (HL' := Ledger_mono name dir day tz (Z.of_nat (S g)) (Z.of_nat g) _ ltac:(lia) HL).
  assert (Hr' : remembers (rw_service w) g) by (apply (remembers_mono _ (S g)); [lia|done]).
  assert (HI : day_inv (w, g)) by (refine (conj HL' (conj Hmax (conj _ Hr'))); lia).
  cut (wp (release_reservation store (counted day tz) now_ms)
         (fun _ w' => day_inv (w', g)) (fun _ w' => day_inv (w', g)) (fun w' => day_inv (w', g)) w).
  { unfold wp. by destruct (release_reservation _ _ _ w) as [[] w']. }
  unfold release_reservation. simpl. wp_step. unfold read_service at 1, wp at 1.
  set (s := rw_service w) in *.
  wp_step. unfold mlift at 1, wp at 1. destruct (rs_poisoned s) eqn:Hp; simpl; [done|].
  destruct (rs_usage s) as [u|] eqn:Hu; [|by apply wp_ret].
  destruct (_ || _) eqn:Ek; [by apply wp_ret|]. bools.
  rewrite !String.eqb_eq in *.
  assert (0 <= u_occupied_orders u) as Hpos by by apply Hr.
  destruct Hr as [_ [?|[?|Hr]]]; [done|congruence|]. rewrite Hu in Hr. destruct Hr as (Ed & Ez & Ho).
  set (next := with_occupied _ now_ms u).
  assert (Hnext : counts day tz (Z.of_nat g) next).
  { split_and!; simpl; [done..|]. unfold saturating_sub. lia. }
  wp_step. apply wp_on_store.
  eapply wp_mono; [apply (save_outcome name dir day tz next (Z.of_nat g)); [by left|exact HL']| | |]; simpl.
  - intros _ fs Hs. unfold set_usage, set_state, wp. simpl. split_and!; simpl; [by apply Hs|done|lia|].
    split; [intros ? [= <-]; simpl; unfold saturating_sub; lia|]. by do 2 right.
  - intros _ fs Hs. refine (conj Hs (conj Hmax (conj _ Hr'))). lia.
  - intros fs Hs. refine (conj Hs (conj Hmax (conj _ Hr'))). lia.
Qed.

Lemma update_inv w g config w' :
  max_daily_orders config <= limit ->
  (enabled config = true -> enabled (rs_config (rw_service w)) = true \/
     examined name dir (nodes (rw_fs w)) (faults (rw_fs w))) ->
  update_config (E := AppError) store config w = (Ok tt, w') ->
  day_inv (w, g) -> day_inv (w', g).
Proof.
  intros Hc Hf Hrun (HL & Hmax & Hg & Hu & Hr).
  destruct w as [fs [cfg usage err poisoned]]. simpl in *.
  unfold update_config, read_service, set_config, mbind in Hrun. simpl in Hrun.
  destruct (enabled config) eqn:He; simpl in Hrun.
  - destruct (enabled cfg) eqn:Hold; simpl in Hrun.
    + injection Hrun as <-. refine (conj HL (conj Hc (conj Hg _))). split; [done|]. simpl.
      destruct Hr as [?|[?|Hr]]; auto. do 2 right. destruct usage; auto.
      destruct Hr; [auto|congruence].
    + destruct Hf as [?|Hx]; [done..|].
      pose proof (load_usage_spec (E := AppError) (Z.of_nat g) fs HL Hx) as Hload.
      unfold wp, on_store in *. simpl in Hrun. unfold store in *.
      destruct (load_usage _ fs) as [[r|e|h] fs']; [|done..]. destruct Hload as [En [Hr1 Hr2]].
      rewrite <-En in HL. destruct poisoned; simpl in Hrun; injection Hrun as <-;
        refine (conj HL (conj Hc (conj Hg _))); (split; [done|]); [right; by left|].
      destruct Hr2 as [Hz|Hr2]; [left; lia|]. do 2 right. simpl. destruct r.1; auto.
  - destruct poisoned; simpl in Hrun; injection Hrun as <-; refine (conj HL (conj Hc (conj Hg _))).
    + split; [done|]. right; by left.
    + split; [done|]. do 2 right. by right.
Qed.

Lemma update_nodes w config o w' :
  update_config (E := AppError) store config w = (o, w') -> nodes (rw_fs w') = nodes (rw_fs w).
Proof.
  assert (reads (fun w => nodes (rw_fs w)) (update_config (E := AppError) store config)) as Hr.
  { unfold update_config. apply reads_bind; [done|intros s]. apply reads_bind; [done|intros []].
    repeat case_match; try apply reads_ret; try done.
    all: apply reads_bind; [|intros; first [apply reads_ret|done]].
    all: intros w0; unfold on_store; pose proof (reads_load_usage (E := AppError) (rw_fs w0)) as Hl;
      unfold store in *; by destruct (load_usage _ (rw_fs w0)). }
  intros E. specialize (Hr w). by rewrite E in Hr.
Qed.

Lemma boots_inv g fs0 st :
  boots fs0 st -> Ledger name dir day tz (Z.of_nat g) (nodes fs0) -> Z.of_nat g <= limit ->
  day_inv (RiskWorld st.1 st.2, g).
Proof.
  induction 1 as [fs0 cut schedule config service fs Hc Hx Hs|fs0 cut schedule config h fs st Hs _ IH];
    intros HL Hg; apply (Ledger_crash _ _ _ _ _ cut) in HL; unfold with_store, mbind in Hs.
  - destruct (enabled config) eqn:He.
    + pose proof (load_usage_spec (E := AppError) (Z.of_nat g) (restart cut schedule fs0) HL (Hx eq_refl)) as Hl.
      unfold wp, store in *. destruct (load_usage _ _) as [[r|e|h] fs']; [|done..].
      destruct Hl as [En [Hr1 Hr2]]. injection Hs as <- <-. cbn [restart nodes] in En. rewrite <-En in HL.
      refine (conj HL (conj Hc (conj Hg _))). split; [done|]. simpl.
      destruct Hr2 as [Hz|Hr2]; [left; lia|]. do 2 right. destruct r.1; auto.
    + injection Hs as <- <-. refine (conj HL (conj Hc (conj Hg _))).
      split; [done|]. do 2 right. by right.
  - apply IH; [|done]. destruct (enabled config); [|done].
    pose proof (reads_load_usage (E := AppError) (restart cut schedule fs0)) as Hl. unfold store in *.
    destruct (load_usage _ _) as [[r|e|h'] fs']; simplify_eq. cbn [snd restart nodes] in Hl. by rewrite Hl.
Qed.

Lemma day_step_inv s s' : day_step s s' -> day_inv s -> day_inv s'.
Proof.
  intros [w g request reference now_ms Hd|w g now_ms|w g config w' ? ? ?
         |w g config h w' fs service Hu Hb|w g schedule|w g fs service Hb].
  - by apply reserve_inv.
  - by apply release_inv.
  - by eapply update_inv.
  - intros (HL & _ & Hg & _). apply (boots_inv g _ _ Hb); [|done].
    by rewrite (update_nodes _ _ _ _ Hu).
  - done.
  - intros (HL & _ & Hg & _). by apply (boots_inv g _ _ Hb).
Qed.
End DailyLimit.

(** C2: On one trading day the reservations granted and not given back never
    exceed the configured limit, whatever orders are checked, whatever file
    system calls fail, and however often the process crashes in the middle of
    a write and reloads the ledger, as long as no look whether a file of the
    ledger exists is refused while the ledger is loaded ([load_fails_open]
    shows why that is needed). *)
Theorem daily_order_limit `{ErrorText} `{TornLaws} `{DecimalLib} `{TimezoneLib}
    name dir utc_now day tz limit w w' g :
  walkable dir (nodes (rw_fs w)) -> nodes (rw_fs w) !! (name :: dir) <> Some Dir ->
  (forall u, rs_usage (rw_service w) = Some u -> 0 <= u_occupied_orders u) ->
  0 <= limit -> max_daily_orders (rs_config (rw_service w)) <= limit ->
  rtc (day_step name dir utc_now day tz limit) (w, 0%nat) (w', g) ->
  Z.of_nat g <= limit.
Proof.
  intros Hw Hd Hu Hl Hm Hr.
  assert (day_inv name dir day tz limit (w, 0%nat)) as HI.
  { split_and!; [split; [done|by left]|done|done|]. split; [done|by left]. }
  assert (day_inv name dir day tz limit (w', g)) as (_ & _ & ? & _); [|done].
  revert HI. clear -Hr H1. generalize dependent (w, 0%nat). intros s Hr.
  induction Hr as [|? ? ? Hs _ IH]; [done|]. intros HI. apply IH.
  exact (day_step_inv name dir utc_now day tz limit _ _ Hs HI).
Qed.

(** ** What the checks accept *)

Section Checks.
Context `{DecimalLib}.

Definition quantity_within (config : RiskConfig) (request : PlaceOrderRequest) : Prop :=
  exists qty, dec_from_str (r_qty request) = Some qty /\ dec_ltb dec_zero qty = true /\
    (r_reduce_only request <> Some true ->
     exists max_qty, dec_from_str (max_order_qty config) = Some max_qty /\
       dec_leb qty max_qty = true).

Definition price_within (config : RiskConfig) (request : PlaceOrderRequest)
    (reference_price : option string) : Prop :=
  exists text price reference deviation max_deviation,
    r_price request = Some text /\ dec_from_str text = Some price /\
    dec_ltb dec_zero price = true /\
    positive_reference reference_price = Some reference /\
    price_deviation price reference = Some deviation /\
    dec_from_str (max_price_deviation_pct config) = Some max_deviation /\
    dec_leb deviation max_deviation = true.

Context `{!DecimalLaws}.

Lemma dec_leb_false a b : dec_leb a b = false <-> dec_ltb b a = true.
Proof. rewrite dec_ltb_negb_leb. by destruct (dec_leb a b). Qed.

Lemma dec_ltb_false a b : dec_ltb a b = false <-> dec_leb b a = true.
Proof. rewrite dec_ltb_negb_leb. by destruct (dec_leb b a). Qed.

Lemma validate_limit_price_iff config request reference_price :
  validate_limit_price config request reference_price = Ok tt <->
  price_within config request reference_price.
Proof.
  unfold validate_limit_price, price_within. split.
  - intros E. run_ok. rewrite dec_leb_false in *. rewrite dec_ltb_false in *.
    destruct (price_deviation _ _) eqn:Ed; [|done]. simpl in *. simplify_eq. eauto 20.
  - intros (text & price & reference & deviation & max_deviation & -> & E1 & E2 & E3 & E4 & E5 & E6).
    simpl. rewrite E1. simpl. apply dec_leb_false in E2. rewrite E2. simpl. rewrite E3. simpl.
    rewrite E4. simpl. rewrite E5. simpl. apply dec_ltb_false in E6. by rewrite E6.
Qed.
End Checks.

(** The checks accept an order exactly when its quantity is a positive number,
    not above the maximum unless it only reduces, and, for a limit order, its
    price is a positive number whose deviation from a positive reference price
    is within the configured percentage. *)
Theorem validate_order_iff `{DecimalLaws} config request reference_price :
  validate_order config request reference_price = Ok tt <->
  quantity_within config request /\
  (is_limit (r_order_type request) = true -> price_within config request reference_price).
Proof.
  unfold validate_order, quantity_within. split.
  - intros E. run_ok. rewrite dec_leb_false in *. split.
    + eexists. split_and!; [done..|]. intros Hr. rewrite bool_decide_true in * by done.
      run_ok. rewrite dec_ltb_false in *. eauto.
    + intros Hl. rewrite Hl in E. by apply validate_limit_price_iff.
  - intros [(qty & E1 & E2 & Hm) Hl]. rewrite E1. simpl. apply dec_leb_false in E2. rewrite E2. simpl.
    assert ((if is_limit (r_order_type request)
             then validate_limit_price config request reference_price else Ok tt) = Ok tt) as Hlim.
    { destruct (is_limit _); [|done]. by apply validate_limit_price_iff, Hl. }
    case_bool_decide as Hr; simpl; [|done].
    destruct (Hm Hr) as (max_qty & -> & Hle). simpl. apply dec_ltb_false in Hle. by rewrite Hle.
Qed.

Section ServiceFacts.
Context `{ErrorText} `{Codec RiskUsage} `{DecimalLib} `{TimezoneLib}.
Context (store : path) (utc_now : DateTime).

Lemma on_store_ok {E A : Type} (c : M fs_world E A) w a w' :
  on_store c w = (Ok a, w') -> c (rw_fs w) = (Ok a, rw_fs w') /\ rw_service w' = rw_service w.
Proof. unfold on_store. destruct (c (rw_fs w)). intros [= -> <-]. done. Qed.

Lemma reads_service_on_store {E A : Type} (c : M fs_world E A) : reads rw_service (on_store c).
Proof. intros w. unfold on_store. by destruct (c (rw_fs w)). Qed.

(** What a granted reservation has done. *)
Lemma reserve_granted request reference now_ms w r w' :
  reserve_order store utc_now request reference now_ms w = (Ok r, w') ->
  let config := rs_config (rw_service w) in
  let timezone := resolve_trading_day_timezone (trading_day_timezone config) in
  let trading_day := trading_day_key utc_now now_ms timezone in
  let before := usage_for trading_day timezone now_ms (rs_usage (rw_service w)) in
  rs_config (rw_service w') = config /\
  if enabled config && bool_decide (r_reduce_only request <> Some true)
  then r = counted trading_day timezone /\
       u_occupied_orders before < max_daily_orders config /\
       rs_usage (rw_service w') = Some (with_occupied (u_occupied_orders before + 1) now_ms before)
  else r = not_counted /\ w' = w.
Proof.
  unfold reserve_order. intros E. apply mbind_ok in E as (s & w1 & [= <- <-] & E).
  destruct (enabled (rs_config (rw_service w))) eqn:He; simpl in E |- *; [|unfold mret in E; naive_solver].
  run_ok. destruct (decide (r_reduce_only request = Some true)) as [Hr|Hr].
  { rewrite bool_decide_true in E by done. rewrite bool_decide_false by naive_solver.
    unfold mret in E. naive_solver. }
  rewrite bool_decide_false in E by done. rewrite bool_decide_true by done.
  run_ok. match goal with Hs : on_store _ _ = _ |- _ => apply on_store_ok in Hs as [_ Hs] end.
  match goal with Hs : set_usage _ _ = _ |- _ => unfold set_usage, set_state in Hs; injection Hs as _ Hs; subst w' end.
  simpl. match goal with Hs : rw_service _ = rw_service w |- _ => rewrite Hs end.
  match goal with Hs : (_ <=? _) = false |- _ => apply Z.leb_gt in Hs end. done.
Qed.

(** The status of a service that is enabled and has its ledger. *)
Lemma status_ready s now_ms :
  enabled (rs_config s) = true -> rs_poisoned s = false -> rs_load_error s = None ->
  0 <= max_daily_orders (rs_config s) ->
  let timezone := trading_day_timezone (rs_config s) in
  let before := usage_for (trading_day_key utc_now now_ms timezone) timezone now_ms (rs_usage s) in
  st_ledger_state (status utc_now s now_ms) = Models.Ready /\
  st_occupied_orders (status utc_now s now_ms) = Some (u_occupied_orders before) /\
  st_remaining_orders (status utc_now s now_ms) =
    Some (saturating_sub (max_daily_orders (rs_config s)) (u_occupied_orders before)).
Proof.
  intros He Hp Hl Hm. unfold status, usage_for. rewrite He, Hp, Hl. simpl.
  destruct (rs_usage s) as [u|]; [destruct (_ && _)|]; simpl;
    (split_and!; [done|done|]); f_equal; unfold saturating_sub; lia.
Qed.

(** What a counted reservation leaves of the lock, the errors and the usage. *)
Lemma reserve_counted request reference now_ms w r w' :
  reserve_order store utc_now request reference now_ms w = (Ok r, w') -> rv_counted r = true ->
  let config := rs_config (rw_service w) in
  let timezone := resolve_trading_day_timezone (trading_day_timezone config) in
  let trading_day := trading_day_key utc_now now_ms timezone in
  let before := usage_for trading_day timezone now_ms (rs_usage (rw_service w)) in
  enabled config = true /\ rs_poisoned (rw_service w) = false /\
  rs_load_error (rw_service w) = None /\ u_occupied_orders before < max_daily_orders config /\
  rw_service w' =
    {| rs_config := config;
       rs_usage := Some (with_occupied (u_occupied_orders before + 1) now_ms before);
       rs_load_error := None; rs_poisoned := false |}.
Proof.
  intros E Hc. apply reserve_granted in E as Hg. simpl in Hg. destruct Hg as [Hcfg Hg].
  destruct (enabled (rs_config (rw_service w))) eqn:He; simpl in Hg; [|by destruct Hg as [-> _]].
  case_bool_decide as Hr; [|by destruct Hg as [-> _]]. destruct Hg as (_ & Hlt & Hu).
  unfold reserve_order in E. apply mbind_ok in E as (s & w1 & [= <- <-] & E). rewrite He in E. simpl in E.
  run_ok. rewrite bool_decide_false in E by done. run_ok.
  repeat match goal with Hs : on_store _ _ = _ |- _ => apply on_store_ok in Hs as [_ Hs] end.
  match goal with Hs : set_usage _ _ = _ |- _ => unfold set_usage, set_state in Hs; injection Hs as _ Hs; subst w' end.
  simpl in *. bools.
  repeat match goal with Hs : ~ is_Some _ |- _ => apply eq_None_not_Some in Hs end.
  match goal with Hs : rw_service _ = rw_service w |- _ => rewrite Hs end.
  split_and!; [done..|]. congruence.
Qed.

Lemma usage_for_same day tz now_ms n now' u :
  u_trading_day u = day -> u_timezone u = tz ->
  usage_for day tz now_ms (Some (with_occupied n now' u)) = with_occupied n now' u.
Proof. intros <- <-. unfold usage_for. simpl. by rewrite !String.eqb_refl. Qed.

Lemma usage_for_key day tz now_ms usage :
  u_trading_day (usage_for day tz now_ms usage) = day /\
  u_timezone (usage_for day tz now_ms usage) = tz.
Proof.
  unfold usage_for. destruct usage as [u|]; [|done]. destruct (_ && _) eqn:E; [|done].
  bools. by rewrite !String.eqb_eq in *.
Qed.
End ServiceFacts.

(** With a valid time zone the status and the limit agree: an order is counted
    only if the status just before showed orders remaining, and the status just
    after shows one more occupied and one less remaining. *)
Theorem status_agrees_with_limit `{ErrorText} `{Codec RiskUsage} `{DecimalLib} `{TimezoneLib}
    store utc_now request reference now_ms w r w' :
  reserve_order store utc_now request reference now_ms w = (Ok r, w') -> rv_counted r = true ->
  is_valid_iana_timezone (trading_day_timezone (rs_config (rw_service w))) = true ->
  (forall u, rs_usage (rw_service w) = Some u -> 0 <= u_occupied_orders u) ->
  exists occupied remaining,
    st_occupied_orders (status utc_now (rw_service w) now_ms) = Some occupied /\
    st_remaining_orders (status utc_now (rw_service w) now_ms) = Some remaining /\
    0 < remaining /\
    st_occupied_orders (status utc_now (rw_service w') now_ms) = Some (occupied + 1) /\
    st_remaining_orders (status utc_now (rw_service w') now_ms) = Some (remaining - 1).
Proof.
  intros E Hc Hv Hu. destruct (reserve_counted _ _ _ _ _ _ _ _ E Hc) as (He & Hp & Hl & Hlt & ->).
  unfold resolve_trading_day_timezone in *. rewrite Hv in *.
  set (timezone := trading_day_timezone _) in *. set (day := trading_day_key _ _ _) in *.
  set (before := usage_for day timezone now_ms (rs_usage (rw_service w))) in *.
  assert (0 <= u_occupied_orders before) as Hpos.
  { subst before. unfold usage_for. destruct (rs_usage (rw_service w)) as [u|] eqn:Eu; [|done].
    destruct (_ && _); [by apply Hu|done]. }
  destruct (status_ready utc_now (rw_service w) now_ms He Hp Hl ltac:(lia)) as (_ & E1 & E2).
  fold timezone day before in E1, E2.
  exists (u_occupied_orders before), (max_daily_orders (rs_config (rw_service w)) - u_occupied_orders before).
  set (s' := Build_RiskService _ _ _ _).
  destruct (status_ready utc_now s' now_ms He eq_refl eq_refl ltac:(simpl; lia)) as (_ & E3 & E4).
  destruct (usage_for_key day timezone now_ms (rs_usage (rw_service w))) as [Ed Ez].
  fold before in Ed, Ez. subst s'. simpl in E3, E4. fold timezone in E3, E4. fold day in E3, E4.
  rewrite Ed, Ez, !String.eqb_refl in E3, E4. simpl in E3, E4.
  unfold saturating_sub in *. rewrite E1, E2, E3, E4. simpl.
  split_and!; [done|f_equal; lia|lia|done|f_equal; lia].
Qed.

(** With a time zone the crate does not know, orders are counted under the
    default zone while the status looks for the unknown one: it reports a free
    ledger after an order was counted. *)
Theorem status_hides_usage `{ErrorText} `{Codec RiskUsage} `{DecimalLib} `{TimezoneLib}
    store utc_now request reference now_ms w r w' later :
  is_valid_iana_timezone DEFAULT_TRADING_DAY_TIMEZONE = true ->
  is_valid_iana_timezone (trading_day_timezone (rs_config (rw_service w))) = false ->
  reserve_order store utc_now request reference now_ms w = (Ok r, w') -> rv_counted r = true ->
  (exists u, rs_usage (rw_service w') = Some u /\
     u_occupied_orders u = u_occupied_orders (usage_for
       (trading_day_key utc_now now_ms DEFAULT_TRADING_DAY_TIMEZONE)
       DEFAULT_TRADING_DAY_TIMEZONE now_ms (rs_usage (rw_service w))) + 1) /\
  st_occupied_orders (status utc_now (rw_service w') later) = Some 0 /\
  st_remaining_orders (status utc_now (rw_service w') later) =
    Some (max_daily_orders (rs_config (rw_service w))).
Proof.
  intros Hd Hv E Hc. destruct (reserve_counted _ _ _ _ _ _ _ _ E Hc) as (He & Hp & Hl & Hlt & ->).
  unfold resolve_trading_day_timezone in *. rewrite Hv in *. simpl.
  split; [eexists; split; [done|by simpl]|].
  unfold status. simpl. rewrite He. simpl.
  destruct (usage_for_key (trading_day_key utc_now now_ms DEFAULT_TRADING_DAY_TIMEZONE)
    DEFAULT_TRADING_DAY_TIMEZONE now_ms (rs_usage (rw_service w))) as [_ ->].
  assert ((DEFAULT_TRADING_DAY_TIMEZONE ==s trading_day_timezone (rs_config (rw_service w))) = false) as ->.
  { apply String.eqb_neq. intros E'. rewrite <- E' in Hv. congruence. }
  by rewrite andb_false_r.
Qed.

(** Giving back a counted reservation undoes it: after a reservation and its
    release on the same ledger the number of occupied orders is the one before. *)
Theorem release_undoes_reserve `{ErrorText} `{Codec RiskUsage} `{DecimalLib} `{TimezoneLib}
    store utc_now request reference now_ms w r w1 later u w2 :
  reserve_order store utc_now request reference now_ms w = (Ok r, w1) -> rv_counted r = true ->
  (forall u, rs_usage (rw_service w) = Some u -> 0 <= u_occupied_orders u) ->
  release_reservation store r later w1 = (Ok u, w2) ->
  exists before after,
    before = usage_for (rv_trading_day r) (rv_timezone r) now_ms (rs_usage (rw_service w)) /\
    rs_usage (rw_service w2) = Some after /\
    u_trading_day after = u_trading_day before /\ u_timezone after = u_timezone before /\
    u_occupied_orders after = u_occupied_orders before.
Proof.
  intros E Hc Hu Hr. apply reserve_granted in E as Hg.
  destruct (reserve_counted _ _ _ _ _ _ _ _ E Hc) as (He & Hp & Hl & Hlt & Hs).
  destruct Hg as [_ Hg]. rewrite He in Hg. case_bool_decide; simpl in Hg; [|by destruct Hg as [-> _]].
  destruct Hg as (-> & _ & _).
  set (timezone := resolve_trading_day_timezone _) in *. set (day := trading_day_key _ _ _) in *.
  set (before := usage_for day timezone now_ms (rs_usage (rw_service w))) in *.
  destruct (usage_for_key day timezone now_ms (rs_usage (rw_service w))) as [Ed Ez]. fold before in Ed, Ez.
  assert (0 <= u_occupied_orders before) as Hpos.
  { subst before. unfold usage_for. destruct (rs_usage (rw_service w)) as [u'|] eqn:Eu; [|done].
    destruct (_ && _); [by apply Hu|done]. }
  unfold release_reservation in Hr. simpl in Hr.
  apply mbind_ok in Hr as (s & w' & [= <- <-] & Hr). rewrite Hs in Hr. simpl in Hr. run_ok.
  rewrite Ed, Ez, !String.eqb_refl in Hr. simpl in Hr. run_ok.
  match goal with Ho : on_store _ _ = _ |- _ => apply on_store_ok in Ho as [_ Hs'] end.
  unfold set_usage, set_state in Hr. injection Hr as _ <-.
  eexists before, _. split; [done|]. simpl. split; [done|]. split_and!; [done..|].
  simpl. unfold saturating_sub. lia.
Qed.

(** A ledger whose files cannot be examined is taken for an absent one: when
    the three existence checks fail, whatever the files hold, the service
    starts with no usage and no error and counts from zero. *)
Theorem load_fails_open `{ErrorText} `{Codec RiskUsage} store config m :
  enabled config = true ->
  with_store (E := AppError) store config (FsWorld m [FailOp 0; FailOp 0; FailOp 0]) =
  (Ok {| rs_config := config; rs_usage := None; rs_load_error := None; rs_poisoned := false |},
   FsWorld m []).
Proof. intros He. unfold with_store. rewrite He. reflexivity. Qed.
