(* ===== verification/OrderSubmission.v ===== *)
(** services/order_submission.rs: a submission whose response was lost is
    queried, never sent again. *)
From stdpp Require Import gmap sorting relations.
From S2P Require Import Prelude RustStr FileSystem External Models ConfigPersistence OrderJournal.

(** ** services/trading.rs: how a failed submission is classified *)

Definition is_confirmed_submission_rejection (error : AppError) : bool :=
  match error with
  | TradingFailed failure =>
      match failure_kind failure with FailureRejected => true end
  | _ => false
  end.

Definition is_certain_submission_failure (error : AppError) : bool :=
  is_confirmed_submission_rejection error
  || match error with
     | AuthFailure (SessionExpired | Timestamp | Signature | AccessDenied | RateLimited) => true
     | _ => false
     end
  || match error with
     | Notified _ _ _ (Some (CauseAuthFailure SessionExpired)) => true
     | _ => false
     end.

Definition finalize_submission_failure (submit_error : AppError) (rollback_failed : bool)
    (notification_id : option string) : AppError :=
  match submit_error with
  | Notified _ _ _ (Some _) => submit_error
  | _ =>
      match notification_id with
      | Some notification_id =>
          Notified "ORDER_REJECTED" "订单请求被交易端拒绝" notification_id None
      | None =>
          if rollback_failed && negb (is_certain_submission_failure submit_error)
          then Internal "订单提交失败且风控预占回滚失败"
          else submit_error
      end
  end.

(** [serde_json::to_value(a).ok() == serde_json::to_value(b).ok()]. *)
Class JsonEq (A : Type) := { json_eqb : A -> A -> bool }.
Class JsonEqLaws (A : Type) `{JsonEq A} := {
  json_eqb_eq a b : json_eqb a b = true <-> a = b;
}.

Definition definitely_not_accepted (error : AppError) : bool :=
  is_certain_submission_failure error
  || match error with
     | Risk _ | Auth _ | NotConnected | Config _ | OrderSubmissionRejected _ => true
     | _ => false
     end
  || match error with
     | Notified code _ _ _ => one_of code ["RISK_ORDER_BLOCKED"; "ORDER_REJECTED"]
     | _ => false
     end.

(** The file system, what was handed to the exchange, and the exchange. *)
Record sub_world {X : Type} := SubWorld {
  w_fs : fs_world;
  w_sent : list (string * PlaceOrderRequest);
  w_exchange : X;
}.
Arguments sub_world : clear implicits.
Arguments SubWorld {X} _ _ _.

Definition on_fs {X E A : Type} (c : M fs_world E A) : M (sub_world X) E A :=
  fun w => let '(o, fs) := c (w_fs w) in (o, SubWorld fs (w_sent w) (w_exchange w)).

Definition before_submission (error : AppError) : AppError :=
  OrderSubmissionRejected (user_message error).

(** The pending record that blocks a request: all of them block an opening
    order, the reducing ones block a reducing order. *)
Definition blocks (request : PlaceOrderRequest) (pending : PendingOrderSubmission) : bool :=
  bool_decide (r_reduce_only request <> Some true)
  || bool_decide (p_reduce_only pending = Some true).

Section Hydrate.
Context `{DecimalLib}.

Definition is_blank_number (s : string) : bool :=
  is_empty s || match dec_from_str s with Some d => dec_eqb d dec_zero | None => false end.

(** The receipt completed from the durable intent. *)
Definition hydrate_order (id : string) (original : PlaceOrderRequest) (order : Order) : Order :=
  {| o_order_id := o_order_id order;
     o_symbol := if is_empty (o_symbol order) then r_symbol original else o_symbol order;
     o_side := if is_empty (o_side order) then r_side original else o_side order;
     o_order_type :=
       if is_empty (o_order_type order) then r_order_type original else o_order_type order;
     o_price :=
       if eq_ignore_ascii_case (r_order_type original) "limit" && is_blank_number (o_price order)
       then default (o_price order) (r_price original) else o_price order;
     o_qty := if is_blank_number (o_qty order) then r_qty original else o_qty order;
     o_status := o_status order;
     o_order_link_id := Some id;
     o_filled_qty := o_filled_qty order;
     o_avg_price := o_avg_price order |}.

Definition receipt_mismatch (id : string) (order : Order) : bool :=
  trim_is_empty (o_order_id order)
  || match o_order_link_id order with Some link => link !=s id | None => false end.
End Hydrate.

Section Submission.
Context `{ErrorText} `{Sha256Lib} `{Codec StoredSubmission} `{JsonEq PlaceOrderRequest} `{DecimalLib}.
Context {X : Type} (store : path).

Abbreviation submitter := (PlaceOrderRequest -> X -> outcome AppError Order * X).
Abbreviation querier := (PlaceOrderRequest -> X -> outcome AppError (list Order) * X).

(** [submit(request).await]: the hand-over to the exchange is recorded. *)
Definition call_submit (scope : string) (submit : submitter) (request : PlaceOrderRequest)
    : M (sub_world X) AppError Order :=
  fun w =>
    let '(o, x) := submit request (w_exchange w) in
    (o, SubWorld (w_fs w) (w_sent w ++ [(scope, request)]) x).

Definition call_query (query : querier) (request : PlaceOrderRequest)
    : M (sub_world X) AppError (list Order) :=
  fun w =>
    let '(o, x) := query request (w_exchange w) in
    (o, SubWorld (w_fs w) (w_sent w) x).

(** The answer for an identity the journal already knows. *)
Definition replay (id : string) (record : StoredSubmission) (request : PlaceOrderRequest)
    : outcome AppError Order :=
  if negb (json_eqb (s_request record) request)
  then Err (OrderSubmissionRejected "同一提交标识不能用于不同订单")
  else match s_outcome record with
       | Accepted order => Ok order
       | SubRejected => Err (OrderSubmissionRejected "原订单已确认未受理，请重新填写后提交")
       | Pending => Err (OrderSubmissionUnknown id)
       end.

(** What follows the hand-over. *)
Definition settle (scope id : string) (original : StoredSubmission)
    (response : AppError + Order) : M (sub_world X) AppError Order :=
  match response with
  | inr order =>
      if receipt_mismatch id order then mfail (OrderSubmissionUnknown id)
      else
        let order := hydrate_order id (s_request original) order in
        (* a failed write is only logged: the intent stays pending *)
        let* _ := mtry (on_fs (finish store scope id (Accepted order))) in
        mret order
  | inl error =>
      if definitely_not_accepted error then
        mmap_err (fun _ => OrderSubmissionUnknown id)
          (on_fs (finish store scope id SubRejected)) ;;;
        match error with
        | Notified _ _ _ _ => mfail error
        | _ => mfail (OrderSubmissionRejected (user_message error))
        end
      else mfail (OrderSubmissionUnknown id)
  end.

Definition submit_once (scope : string) (request : PlaceOrderRequest) (now_ms : Z)
    (submit : submitter) : M (sub_world X) AppError Order :=
  let* id := mlift
    match r_order_link_id request with
    | Some id =>
        if negb (is_empty id) && (len id <=? 36) then Ok id
        else Err (OrderSubmissionRejected "订单提交标识无效")
    | None => Err (OrderSubmissionRejected "订单提交标识无效")
    end in
  let* known := mmap_err before_submission (on_fs (get store scope id)) in
  match known with
  | Some record => mlift (replay id record request)
  | None =>
      let* pending := mmap_err before_submission (on_fs (list_pending store scope)) in
      match List.find (blocks request) pending with
      | Some blocker => mfail (OrderSubmissionBlocked (p_order_link_id blocker))
      | None =>
          let* original := mmap_err before_submission
            (on_fs (begin store scope request now_ms)) in
          let* response := mtry (call_submit scope submit request) in
          settle scope id original response
      end
  end.

Definition matches_identity (order_link_id symbol : string) (order : Order) : bool :=
  bool_decide (o_order_link_id order = Some order_link_id)
  && (o_symbol order ==s symbol) && negb (trim_is_empty (o_order_id order)).

Definition reconcile (scope order_link_id : string) (query : querier)
    : M (sub_world X) AppError (option Order) :=
  let* record := on_fs (get store scope order_link_id) in
  match record with
  | None => mret None
  | Some record =>
      match s_outcome record with
      | Accepted order => mret (Some order)
      | SubRejected => mfail (OrderSubmissionRejected "原订单已确认未受理，可重新提交")
      | Pending =>
          let symbol := r_symbol (s_request record) in
          let* orders := call_query query (s_request record) in
          let found := List.find (matches_identity order_link_id symbol) orders in
          match found with
          | Some order => on_fs (finish store scope order_link_id (Accepted order))
          | None => mret tt
          end ;;;
          mret found
      end
  end.

(** ** The life of the process *)

(** One operation under an arbitrary exchange, a change of the fault schedule,
    or a crash with restart. *)
Inductive step : sub_world X -> sub_world X -> Prop :=
| step_submit w scope request now_ms submit :
    step w (snd (submit_once scope request now_ms submit w))
| step_reconcile w scope id query :
    step w (snd (reconcile scope id query w))
| step_acknowledge w scope id :
    step w (snd (on_fs (acknowledge store scope id) w))
| step_faults w schedule :
    step w (SubWorld (FsWorld (nodes (w_fs w)) schedule) (w_sent w) (w_exchange w))
| step_restart w cut schedule :
    step w (SubWorld (restart cut schedule (w_fs w)) (w_sent w) (w_exchange w)).

Definition identity_of (s : string * PlaceOrderRequest) : string * option string :=
  (s.1, r_order_link_id s.2).
End Submission.

(** ** Lemmas *)

Lemma preserves_on_fs {X E A : Type} (P : fs_world -> Prop) (c : M fs_world E A) :
  preserves P c -> preserves (fun w : sub_world X => P (w_fs w)) (on_fs c).
Proof.
  intros Hc w Hw. unfold on_fs. specialize (Hc _ Hw). by destruct (c (w_fs w)).
Qed.

Lemma reads_sent_on_fs {X E A : Type} (c : M fs_world E A) :
  reads (@w_sent X) (on_fs c).
Proof. intros w. unfold on_fs. by destruct (c (w_fs w)). Qed.

Lemma on_fs_ok {X E A : Type} (c : M fs_world E A) (w : sub_world X) a w' :
  on_fs c w = (Ok a, w') ->
  c (w_fs w) = (Ok a, w_fs w') /\ w_sent w' = w_sent w /\ w_exchange w' = w_exchange w.
Proof. unfold on_fs. destruct (c (w_fs w)) as [o fs]. intros [= -> <-]. done. Qed.

Lemma reads_nodes_on_fs {X E A : Type} (c : M fs_world E A) :
  reads nodes c -> reads (fun w : sub_world X => nodes (w_fs w)) (on_fs c).
Proof.
  intros Hc w. unfold on_fs. specialize (Hc (w_fs w)). by destruct (c (w_fs w)).
Qed.

#[export] Hint Resolve reads_sent_on_fs reads_nodes_on_fs : reads.
#[export] Hint Resolve preserves_on_fs : preserve.

Section SubmissionFacts.
Context `{ErrorText} `{Sha256Laws} `{Codec StoredSubmission} `{JsonEq PlaceOrderRequest} `{DecimalLib}.
Context {X : Type} (store : path).

Abbreviation submitter := (PlaceOrderRequest -> X -> outcome AppError Order * X).
Abbreviation querier := (PlaceOrderRequest -> X -> outcome AppError (list Order) * X).

Definition holds_identity (scope id : string) (w : sub_world X) : Prop :=
  taken store scope id (w_fs w).

Lemma reads_preserves_identity s i {A : Type} (c : M fs_world AppError A) :
  reads nodes c -> preserves (holds_identity s i) (on_fs c).
Proof.
  intros Hc. apply preserves_on_fs.
  apply (reads_preserves nodes (fun m => claimed (record_path store s i) m)). done.
Qed.

Lemma settle_keeps_identity s i scope id original response :
  preserves (holds_identity s i) (settle (X := X) store scope id original response).
Proof.
  assert (Hf : forall out, preserves (holds_identity s i)
                  (on_fs (X := X) (finish store scope id out))).
  { intros out. apply preserves_on_fs. apply finish_keeps_taken. }
  unfold settle. destruct response as [error|order].
  - case_match; [|auto with preserve]. apply preserves_bind; [auto with preserve|].
    intros. case_match; auto with preserve.
  - case_match; auto with preserve.
Qed.

Lemma reads_sent_settle scope id original response :
  reads w_sent (settle (X := X) store scope id original response).
Proof.
  unfold settle. destruct response as [error|order]; case_match; auto 6 with reads.
  apply reads_bind; [auto with reads|]. intros. case_match; auto with reads.
Qed.

Lemma reads_sent_run {A : Type} (c : M (sub_world X) AppError A) w o w' :
  reads w_sent c -> c w = (o, w') -> w_sent w' = w_sent w.
Proof. intros Hr E. pose proof (Hr w) as Hw. by rewrite E in Hw. Qed.

(** What a submission can add to the hand-overs, and when. *)
Lemma submit_once_sent scope request now_ms (submit : submitter) w o w' :
  submit_once store scope request now_ms submit w = (o, w') ->
  w_sent w' = w_sent w \/
  exists id, r_order_link_id request = Some id /\
    w_sent w' = (w_sent w ++ [(scope, request)])%list /\
    ~ holds_identity scope id w /\ holds_identity scope id w'.
Proof.
  unfold submit_once. intros Hrun.
  apply mbind_inv in Hrun as [(id & w0 & Hid & Hrun)|[(e & [= _ <-] & _)|(h & [= _ <-] & _)]];
    [|by left..].
  apply mlift_ok in Hid as [Hid ->].
  destruct (r_order_link_id request) as [id'|] eqn:Hlink; [|done].
  destruct (negb (is_empty id') && (len id' <=? 36)); [|done]. injection Hid as ->.
  (* get *)
  apply mbind_inv in Hrun as [(known & w1 & Hget & Hrun)|[(e & Hc & _)|(h & Hc & _)]];
    [|left; eapply reads_sent_run, Hc; auto with reads..].
  apply reads_sent_run in Hget as Hs1; [|auto with reads].
  destruct known as [record|]; [left; unfold mlift in Hrun; congruence|].
  apply mmap_err_ok, on_fs_ok in Hget as (Hget & _ & _).
  apply get_none_free in Hget as Hfree.
  (* list_pending *)
  apply mbind_inv in Hrun as [(pending & w2 & Hlist & Hrun)|[(e & Hc & _)|(h & Hc & _)]];
    [|left; rewrite <- Hs1; eapply reads_sent_run, Hc; auto with reads..].
  apply reads_sent_run in Hlist as Hs2; [|auto with reads].
  destruct (List.find (blocks request) pending); [left; unfold mfail in Hrun; congruence|].
  (* begin *)
  apply mbind_inv in Hrun as [(original & w3 & Hbegin & Hrun)|[(e & Hc & _)|(h & Hc & _)]];
    [|left; rewrite <- Hs1, <- Hs2; eapply reads_sent_run, Hc; auto with reads..].
  apply reads_sent_run in Hbegin as Hs3; [|auto with reads].
  apply mmap_err_ok, on_fs_ok in Hbegin as (Hbegin & _ & _).
  destruct (begin_takes _ _ _ _ _ _ _ Hbegin) as (id' & Hid' & Htaken).
  assert (id' = id) as -> by congruence.
  (* the hand-over and what follows *)
  right. exists id. split; [done|]. unfold mtry, mbind, call_submit in Hrun.
  destruct (submit request (w_exchange w3)) as [r x].
  assert (Hsent : (w_sent w3 ++ [(scope, request)] = w_sent w ++ [(scope, request)])%list)
    by congruence.
  set (w4 := SubWorld (w_fs w3) (w_sent w3 ++ [(scope, request)]) x) in *.
  assert (Hw4 : holds_identity scope id w4) by done.
  destruct r as [order|e|h]; [| |by injection Hrun as <- <-].
  - pose proof (settle_keeps_identity scope id scope id original (inr order) w4 Hw4) as Hk.
    rewrite Hrun in Hk. apply reads_sent_run in Hrun; [|apply reads_sent_settle].
    split_and!; [by etrans; [exact Hrun|exact Hsent]|done|done].
  - pose proof (settle_keeps_identity scope id scope id original (inl e) w4 Hw4) as Hk.
    rewrite Hrun in Hk. apply reads_sent_run in Hrun; [|apply reads_sent_settle].
    split_and!; [by etrans; [exact Hrun|exact Hsent]|done|done].
Qed.

Lemma submit_once_keeps_identity s i scope request now_ms (submit : submitter) :
  preserves (holds_identity s i) (submit_once store scope request now_ms submit).
Proof.
  unfold submit_once. apply preserves_bind; [auto with preserve|]. intros id.
  apply preserves_bind.
  { apply preserves_map_err, reads_preserves_identity, reads_get. }
  intros [record|]; [auto with preserve|]. apply preserves_bind.
  { apply preserves_map_err, reads_preserves_identity, reads_list_pending. }
  intros pending. case_match; [auto with preserve|]. apply preserves_bind.
  { apply preserves_map_err, preserves_on_fs, begin_keeps_taken. }
  intros original. apply preserves_bind.
  { apply preserves_try. intros w Hw. unfold call_submit.
    by destruct (submit request (w_exchange w)). }
  intros response. apply settle_keeps_identity.
Qed.

Lemma reconcile_keeps_identity s i scope id (query : querier) :
  preserves (holds_identity s i) (reconcile store scope id query).
Proof.
  unfold reconcile. apply preserves_bind; [apply reads_preserves_identity, reads_get|].
  intros [record|]; [|auto with preserve]. case_match; auto with preserve.
  apply preserves_bind.
  { intros w Hw. unfold call_query. by destruct (query _ (w_exchange w)). }
  intros orders. apply preserves_bind; [|auto with preserve].
  case_match; [|auto with preserve]. apply preserves_on_fs, finish_keeps_taken.
Qed.

Lemma reads_sent_reconcile scope id (query : querier) :
  reads w_sent (reconcile store scope id query).
Proof.
  unfold reconcile. apply reads_bind; [auto with reads|]. intros [record|]; [|auto with reads].
  case_match; auto with reads. apply reads_bind.
  { intros w. unfold call_query. by destruct (query _ (w_exchange w)). }
  intros orders. apply reads_bind; [|auto with reads]. case_match; auto with reads.
Qed.

(** Every hand-over has its identity in the journal, and no identity was
    handed over twice. *)
Definition submission_inv (w : sub_world X) : Prop :=
  (forall scope request, (scope, request) ∈ w_sent w ->
     exists id, r_order_link_id request = Some id /\ holds_identity scope id w) /\
  NoDup (map identity_of (w_sent w)).

(** A step that keeps the hand-overs and the claimed identities. *)
Lemma inv_keep w w' :
  w_sent w' = w_sent w ->
  (forall s i, holds_identity s i w -> holds_identity s i w') ->
  submission_inv w -> submission_inv w'.
Proof.
  intros Hs Hk [Hin1 Hnd]. split; rewrite Hs; [|done].
  intros scope request Hin. destruct (Hin1 _ _ Hin) as (id & ? & ?). eauto.
Qed.

Lemma step_inv w w' : step store w w' -> submission_inv w -> submission_inv w'.
Proof.
  intros [w0 scope request now_ms submit|w0 scope id query|w0 scope id|w0 schedule|w0 cut schedule];
    last 1 first.
  - apply inv_keep; [done|]. intros s i. unfold holds_identity, taken. simpl.
    apply claimed_crash.
  - intros [Hin1 Hnd].
    pose proof (fun s i => submit_once_keeps_identity s i scope request now_ms submit) as Hk.
    destruct (submit_once store scope request now_ms submit w0) as [o w1] eqn:Erun.
    assert (Hk' : forall s i, holds_identity s i w0 -> holds_identity s i w1).
    { intros s i Hh. specialize (Hk s i w0 Hh). by rewrite Erun in Hk. }
    destruct (submit_once_sent scope request now_ms submit w0 o w1 Erun)
      as [Hs|(id & Hid & Hs & Hfree & Ht)]; simpl.
    { eapply inv_keep; [exact Hs|exact Hk'|]. by split. }
    split; rewrite Hs.
    + intros s r [Hin|Hin]%elem_of_app.
      * destruct (Hin1 _ _ Hin) as (i & ? & ?). eauto.
      * apply list_elem_of_singleton in Hin as [= -> ->]. eauto.
    + rewrite map_app. apply NoDup_app. split_and!; [done| |apply NoDup_singleton].
      intros x Hx Hy. apply list_elem_of_singleton in Hy as ->.
      apply list_elem_of_fmap in Hx as ([s r] & [= -> Er] & Hin).
      destruct (Hin1 _ _ Hin) as (i & Hi & Hhold). apply Hfree.
      assert (i = id) as -> by congruence. done.
  - apply inv_keep; [apply reads_sent_reconcile|]. intros s i. apply reconcile_keeps_identity.
  - apply inv_keep; [apply reads_sent_on_fs|]. intros s i.
    apply preserves_on_fs, acknowledge_keeps_taken.
  - by apply inv_keep.
Qed.
End SubmissionFacts.

(** C1: Whatever the exchange answers, whatever file system calls fail, however
    often the process crashes (leaving torn unsynced files) and restarts, and
    in whatever order submissions, reconciliations and acknowledgements come,
    no order identity of an account scope is handed to the exchange twice. *)
Theorem at_most_one_submission
    `{ErrorText} `{Sha256Laws} `{Codec StoredSubmission} `{JsonEq PlaceOrderRequest} `{DecimalLib}
    {X : Type} (store : path) (w w' : sub_world X) :
  w_sent w = [] -> rtc (step store) w w' -> NoDup (map identity_of (w_sent w')).
Proof.
  intros Hnil Hr. assert (submission_inv store w) as Hi.
  { split; rewrite Hnil; [intros ?? Hin; by apply elem_of_nil in Hin|apply NoDup_nil_2]. }
  assert (submission_inv store w') as [_ Hn]; [|exact Hn].
  clear Hnil. induction Hr as [|? ? ? Hs _ IH]; [done|]. by apply IH, (step_inv store _ _ Hs).
Qed.
