(* ===== verification/Trading.v ===== *)
(** services/trading.rs, services/trading/strategy.rs, services/trading/quote.rs:
    how an order is checked, counted, handed to the exchange and reported. *)
From stdpp Require Import gmap.
From S2P Require Import Prelude RustStr FileSystem External Models Time RiskUsage Risk OrderSubmission.

(** ** The order observer *)

Inductive ObservedOrderStatus := ONew | OPartiallyFilled | OFilled | OCanceled | ORejected.
Inductive OrderObservationOrigin := Snapshot | Realtime | Command.

Record OrderObservation := {
  ob_account_id : string;
  ob_session_epoch : Z;
  ob_order_id : option string;
  ob_submission_id : option string;
  ob_order_link_id : option string;
  ob_status : ObservedOrderStatus;
  ob_origin : OrderObservationOrigin;
}.

(** The notification service, as the trading service sees it: whether it is
    available, and what it answers to an observation or to a blocked order.  An
    error of the service is [true] when it is a retryable persistence failure. *)
Record NotificationEnv {X : Type} := {
  env_available : X -> bool;
  env_observe_order : OrderObservation -> Z -> X -> (bool + option string) * X;
  env_publish_risk_block : SubmissionContext -> RiskViolation -> Z -> X -> option string * X;
}.
Arguments NotificationEnv : clear implicits.

Definition observed_status (status : OrderStatus) : option ObservedOrderStatus :=
  match status with
  | New => Some ONew
  | PartiallyFilled => Some OPartiallyFilled
  | Filled => Some OFilled
  | Cancelled => Some OCanceled
  | Rejected => Some ORejected
  | Unknown => None
  end.

Definition is_correlatable_order_link (value : string) : bool :=
  negb (is_empty value) && (chars_count value <=? 36).

Definition filter_link (link : option string) : option string :=
  match link with
  | Some value => if is_correlatable_order_link value then Some value else None
  | None => None
  end.

Definition orders_share_identity (left right : Order) : bool :=
  (negb (trim_is_empty (o_order_id left)) && negb (trim_is_empty (o_order_id right))
   && (o_order_id left ==s o_order_id right))
  || match o_order_link_id left, o_order_link_id right with
     | Some l, Some r =>
         is_correlatable_order_link l && is_correlatable_order_link r && (l ==s r)
     | _, _ => false
     end.

(** What [observe_checked] asks the service, if it asks at all. *)
Definition observation_of (account_id : string) (session_epoch : Z) (order : Order)
    (origin : OrderObservationOrigin) (submission_id : option string) : option OrderObservation :=
  match observed_status (o_status order) with
  | None => None
  | Some status =>
      let order_id :=
        if negb (trim_is_empty (o_order_id order)) then Some (o_order_id order) else None in
      let order_link_id := filter_link (o_order_link_id order) in
      if negb (bool_decide (is_Some order_id)) && negb (bool_decide (is_Some submission_id))
         && negb (bool_decide (is_Some order_link_id))
      then None
      else Some {| ob_account_id := account_id; ob_session_epoch := session_epoch;
                   ob_order_id := order_id; ob_submission_id := submission_id;
                   ob_order_link_id := order_link_id; ob_status := status; ob_origin := origin |}
  end.

Section Observer.
Context {X : Type} (env : NotificationEnv X).

Definition observe_checked (account_id : string) (session_epoch : Z) (order : Order)
    (origin : OrderObservationOrigin) (submission_id : option string) (now_ms : Z)
    : M X AppError (option string) :=
  fun x =>
    match observation_of account_id session_epoch order origin submission_id with
    | None => (Ok None, x)
    | Some observation =>
        if negb (env_available env x) then (Ok None, x)
        else
          match env_observe_order env observation now_ms x with
          | (inr notification, x') => (Ok notification, x')
          | (inl true, x') => (Err (Internal "订单通知同步暂时不可用，请稍后重试"), x')
          | (inl false, x') => (Ok None, x')
          end
    end.

(** [observe]: [unwrap_or_default] of the checked one. *)
Definition observe {E : Type} (account_id : string) (session_epoch : Z) (order : Order)
    (origin : OrderObservationOrigin) (submission_id : option string) (now_ms : Z)
    : M X E (option string) :=
  let* r := mtry (observe_checked account_id session_epoch order origin submission_id now_ms) in
  mret match r with inr id => id | inl _ => None end.

Definition observe_rejection {E : Type} (context : SubmissionContext)
    (order_link_id : option string) (now_ms : Z) : M X E (option string) :=
  fun x =>
    if negb (env_available env x) then (Ok None, x)
    else
      match env_observe_order env
        {| ob_account_id := sc_account_id context;
           ob_session_epoch := sc_session_epoch context;
           ob_order_id := None; ob_submission_id := Some (sc_submission_id context);
           ob_order_link_id := filter_link order_link_id;
           ob_status := ORejected; ob_origin := Command |} now_ms x with
      | (inr notification, x') => (Ok notification, x')
      | (inl _, x') => (Ok None, x')
      end.

Definition observe_risk_block {E : Type} (context : SubmissionContext)
    (violation : RiskViolation) (now_ms : Z) : M X E (option string) :=
  fun x =>
    if negb (env_available env x) then (Ok None, x)
    else let '(id, x') := env_publish_risk_block env context violation now_ms x in (Ok id, x').

(** A terminal live event of the snapshot's order after a non-terminal one. *)
Fixpoint settles_live (snapshot : Order) (saw_live_nonterminal : bool) (buffered : list Order)
    : bool :=
  match buffered with
  | [] => false
  | live :: rest =>
      if negb (orders_share_identity snapshot live)
      then settles_live snapshot saw_live_nonterminal rest
      else
        match o_status live with
        | New | PartiallyFilled => settles_live snapshot true rest
        | Filled | Cancelled | Rejected =>
            if saw_live_nonterminal then true
            else settles_live snapshot saw_live_nonterminal rest
        | Unknown => settles_live snapshot saw_live_nonterminal rest
        end
  end.

(** One of the three loops: each event is observed a millisecond later. *)
Fixpoint observe_each (context : SessionContext) (origin : OrderObservationOrigin)
    (now_ms offset : Z) (orders : list Order) : M X AppError Z :=
  match orders with
  | [] => mret offset
  | order :: rest =>
      let* _ := observe_checked (ses_account_id context) (ses_session_epoch context) order
                  origin None (u64_saturating_add now_ms offset) in
      observe_each context origin now_ms (u64_saturating_add offset 1) rest
  end.

Definition seed_snapshot_then_replay (context : SessionContext) (snapshots buffered : list Order)
    (now_ms : Z) : M X AppError unit :=
  let deferred := List.filter (fun s => settles_live s false buffered) snapshots in
  let baseline := List.filter (fun s => negb (settles_live s false buffered)) snapshots in
  let* offset := observe_each context Snapshot now_ms 0 baseline in
  let* offset := observe_each context Realtime now_ms offset buffered in
  let* _ := observe_each context Snapshot now_ms offset deferred in
  mret tt.
End Observer.

(** ** quote.rs *)

Section Quotes.
Context `{DecimalLib}.

Record Ticker := { tk_symbol : string; tk_last_price : string; tk_mark_price : string }.

Definition positive_text (value : string) : bool :=
  match dec_from_str value with Some d => dec_ltb dec_zero d | None => false end.

(** The ticker is what the exchange answered, [None] on any failure. *)
Definition fresh_reference_price (ticker : option Ticker) (symbol : string) : option string :=
  match ticker with
  | Some ticker =>
      if negb (eq_ignore_ascii_case (tk_symbol ticker) symbol)
         || negb (positive_text (tk_last_price ticker))
      then None else Some (tk_last_price ticker)
  | None => None
  end.

Definition fresh_protection_reference (ticker : option Ticker) (symbol trigger_by : string)
    : option string :=
  match ticker with
  | Some ticker =>
      if negb (eq_ignore_ascii_case (tk_symbol ticker) symbol) then None
      else
        match (if trigger_by ==s "LastPrice" then Some (tk_last_price ticker)
               else if trigger_by ==s "MarkPrice" then Some (tk_mark_price ticker)
               else None) with
        | Some selected => if positive_text selected then Some selected else None
        | None => None
        end
  | None => None
  end.
End Quotes.

(** ** Placing an order *)

(** The risk service with its files, the requests handed to the exchange, the
    orders whose success was reported, and the rest of the environment. *)
Record trading_world {X : Type} := TradingWorld {
  tw_risk : risk_world;
  tw_submitted : list PlaceOrderRequest;
  tw_reported : list Order;
  tw_env : X;
}.
Arguments trading_world : clear implicits.
Arguments TradingWorld {X} _ _ _ _.

Definition with_link (link : string) (r : PlaceOrderRequest) : PlaceOrderRequest :=
  {| r_symbol := r_symbol r; r_side := r_side r; r_order_type := r_order_type r; r_qty := r_qty r;
     r_position_idx := r_position_idx r; r_price := r_price r;
     r_time_in_force := r_time_in_force r; r_order_link_id := Some link;
     r_reduce_only := r_reduce_only r; r_protection := r_protection r |}.

Definition link_if_missing (link : string) (o : Order) : Order :=
  {| o_order_id := o_order_id o; o_symbol := o_symbol o; o_side := o_side o;
     o_order_type := o_order_type o; o_price := o_price o; o_qty := o_qty o;
     o_status := o_status o;
     o_order_link_id := match o_order_link_id o with Some l => Some l | None => Some link end;
     o_filled_qty := o_filled_qty o; o_avg_price := o_avg_price o |}.

Section Placement.
Context `{ErrorText} `{Codec RiskUsage} `{DecimalLib} `{TimezoneLib}.
Context {X : Type} (env : NotificationEnv X) (store : path) (utc_now : DateTime).
(** [Display] of [f64]. *)
Context (f64_text : f64 -> string).

Abbreviation world := (trading_world X).
Abbreviation action A := (X -> outcome AppError A * X).

Definition on_risk {E A : Type} (c : M risk_world E A) : M world E A :=
  fun w =>
    let '(o, r) := c (tw_risk w) in
    (o, TradingWorld r (tw_submitted w) (tw_reported w) (tw_env w)).

Definition on_env {E A : Type} (c : M X E A) : M world E A :=
  fun w =>
    let '(o, x) := c (tw_env w) in
    (o, TradingWorld (tw_risk w) (tw_submitted w) (tw_reported w) x).

(** [submit(request)]: the hand-over is recorded. *)
Definition call_submit {A : Type} (submit : PlaceOrderRequest -> action A)
    (request : PlaceOrderRequest) : M world AppError A :=
  fun w =>
    let '(o, x) := submit request (tw_env w) in
    (o, TradingWorld (tw_risk w) (tw_submitted w ++ [request]) (tw_reported w) x).

(** [success_side_effects(order)]. *)
Definition report {E : Type} (order : Order) : M world E unit :=
  fun w => (Ok tt, TradingWorld (tw_risk w) (tw_submitted w) (tw_reported w ++ [order]) (tw_env w)).

(** strategy.rs *)
Definition dispatch {A : Type} (admission : option (action unit)) (submit : M world AppError A)
    : M world AppError A :=
  match admission with
  | Some admission => on_env admission ;;; submit
  | None => submit
  end.

Definition release {E : Type} (reservation : RiskReservation) (now_ms : Z)
    : M world E (AppError + unit) :=
  mtry (on_risk (release_reservation store reservation now_ms)).

Definition dispatch_reserved {A : Type} (reservation : RiskReservation) (now_ms : Z)
    (admission : option (action unit)) (submit : M world AppError A) : M world AppError A :=
  match admission with
  | Some admission =>
      let* r := mtry (on_env admission) in
      match r with
      | inl rejection => let* _ := release reservation now_ms in mfail rejection
      | inr _ => submit
      end
  | None => submit
  end.

Definition handle_failed_submission {E : Type} (reservation : RiskReservation)
    (context : SubmissionContext) (transmitted_order_link_id : string) (submit_error : AppError)
    (now_ms : Z) : M world E AppError :=
  let* rollback_failed :=
    (if is_certain_submission_failure submit_error then
       let* r := release reservation now_ms in
       mret match r with inl _ => true | inr _ => false end
     else mret false) in
  let* notification_id :=
    (if is_confirmed_submission_rejection submit_error then
       on_env (observe_rejection env context (Some transmitted_order_link_id) now_ms)
     else mret None) in
  mret (finalize_submission_failure submit_error rollback_failed notification_id).

Definition risk_block_error (violation : RiskViolation) (notification_id : option string)
    : AppError :=
  match notification_id with
  | Some notification_id =>
      Notified "RISK_ORDER_BLOCKED"
        (if bool_decide (v_code violation = ReferencePriceUnavailable)
         then "无法获取有效的最新市价，请稍后重试" else "订单被风控拦截") notification_id None
  | None => AppError_from_violation f64_text violation
  end.

(** The identity the exchange will see. *)
Definition transmitted_link (context : SubmissionContext) (request : PlaceOrderRequest)
    : outcome AppError string :=
  match r_order_link_id request with
  | Some value =>
      if is_correlatable_order_link value then Ok value
      else Err (Trading "订单关联标识必须为 1 到 36 个字符")
  | None => Ok (sc_submission_id context)
  end.

Definition execute_place_order_with_submit (context : SubmissionContext)
    (request : PlaceOrderRequest) (reference_price : option string) (now_ms : Z)
    (admission : option (action unit)) (prepare : action unit)
    (submit : PlaceOrderRequest -> action Order) : M world AppError Order :=
  let* link := mlift (transmitted_link context request) in
  let request := with_link link request in
  let request_protection_absent := bool_decide (r_protection request = None) in
  let* reserved := mtry (on_risk (reserve_order store utc_now request reference_price now_ms)) in
  match reserved with
  | inl violation =>
      let* notification_id := on_env (observe_risk_block env context violation now_ms) in
      mfail (risk_block_error violation notification_id)
  | inr reservation =>
      let* prepared := mtry (on_env prepare) in
      match prepared with
      | inl preflight_error =>
          let* _ := release reservation now_ms in
          mfail (OrderSubmissionRejected (user_message preflight_error))
      | inr _ =>
          let* placed := mtry (dispatch_reserved reservation now_ms admission
                                 (call_submit submit request)) in
          match placed with
          | inl submit_error =>
              let* e := handle_failed_submission reservation context link submit_error now_ms in
              mfail e
          | inr order =>
              (if request_protection_absent then
                 let* _ := on_env (observe env (sc_account_id context) (sc_session_epoch context)
                                     (link_if_missing link order) Command
                                     (Some (sc_submission_id context)) now_ms) in
                 mret tt
               else mret tt) ;;;
              report order ;;;
              mret order
          end
      end
  end.

(** [execute_place_order]: no admission and no preparation. *)
Definition execute_place_order (context : SubmissionContext) (request : PlaceOrderRequest)
    (reference_price : option string) (now_ms : Z) (create_order : PlaceOrderRequest -> action Order)
    : M world AppError Order :=
  execute_place_order_with_submit context request reference_price now_ms None
    (fun x => (Ok tt, x)) create_order.

Definition execute_reserved_order (request : PlaceOrderRequest) (reference_price : option string)
    (now_ms : Z) (submit : PlaceOrderRequest -> action Order) : M world AppError Order :=
  let* reservation := mmap_err (AppError_from_violation f64_text)
                        (on_risk (reserve_order store utc_now request reference_price now_ms)) in
  let* r := mtry (call_submit submit request) in
  match r with
  | inr order => mret order
  | inl submit_error =>
      if negb (is_certain_submission_failure submit_error) then mfail submit_error
      else
        let* released := release reservation now_ms in
        match released with
        | inl _ => mfail (finalize_submission_failure submit_error true None)
        | inr _ => mfail submit_error
        end
  end.

(** [amend_strategy_order]: the amendment is counted as another order. *)
Definition amend_strategy_order (effective : PlaceOrderRequest) (reference_price : string)
    (now_ms : Z) (admission : action unit)
    (replace : PlaceOrderRequest -> action OrderAcknowledgement)
    : M world AppError OrderAcknowledgement :=
  let* reservation := mmap_err (AppError_from_violation f64_text)
    (on_risk (reserve_order store utc_now effective (Some reference_price) now_ms)) in
  dispatch_reserved reservation now_ms (Some admission) (call_submit replace effective).
End Placement.

(** ** Facts *)

(** Reporting a failed submission keeps what the journal concludes from it. *)
Lemma finalize_keeps_class e rollback_failed id :
  (is_confirmed_submission_rejection e = false -> id = None) ->
  definitely_not_accepted (finalize_submission_failure e rollback_failed id)
  = definitely_not_accepted e \/
  (rollback_failed = true /\ is_certain_submission_failure e = false).
Proof.
  intros Hid. destruct (is_confirmed_submission_rejection e) eqn:Hc.
  - left. destruct e as [| | | |failure| | | | | | | | | | |]; try done.
    destruct failure as [[]], id; simpl; [done|]. by rewrite andb_false_r.
  - rewrite Hid by done. unfold finalize_submission_failure.
    destruct (rollback_failed && negb (is_certain_submission_failure e)) eqn:Er.
    + right. bools. auto.
    + left. destruct e as [| | | | | | | | | |? ? ? [[]|]| | | | |]; done.
Qed.

Section ServiceKept.
Context `{ErrorText} `{Codec RiskUsage}.
Context (store : path).

(** A release that does not return [Ok] leaves the service as it was. *)
Lemma release_not_ok reservation now_ms w o w' :
  release_reservation store reservation now_ms w = (o, w') -> o <> Ok tt ->
  rw_service w' = rw_service w.
Proof.
  unfold release_reservation, read_service, on_store, mbind, mlift, mret, set_usage, set_state.
  destruct (negb (rv_counted reservation)); [naive_solver|].
  destruct (guard _ _) as [[]| |]; [|naive_solver..].
  destruct (rs_usage (rw_service w)) as [u|]; [|naive_solver].
  destruct (_ || _); [naive_solver|].
  destruct (save _ _ _) as [[[]| |] fs]; naive_solver.
Qed.
End ServiceKept.

Section PlacementFacts.
Context `{ErrorText} `{Codec RiskUsage} `{DecimalLib} `{TimezoneLib}.
Context {X : Type} (env : NotificationEnv X) (store : path) (utc_now : DateTime).
Context (f64_text : f64 -> string).

Abbreviation world := (trading_world X).
Abbreviation action A := (X -> outcome AppError A * X).

(** A call that leaves the risk service, the hand-overs and the reports alone. *)
Definition quiet (w w' : world) : Prop :=
  rw_service (tw_risk w') = rw_service (tw_risk w) /\
  tw_submitted w' = tw_submitted w /\ tw_reported w' = tw_reported w.

Lemma wp_on_env {E A : Type} (c : M X E A) (w : world) :
  wp (on_env c) (fun _ => quiet w) (fun _ => quiet w) (quiet w) w.
Proof. unfold wp, on_env. by destruct (c (tw_env w)) as [[] x]. Qed.

(** A release changes the service only when it returns [Ok]. *)
Lemma wp_release {E : Type} reservation now_ms (w : world) :
  wp (release (E := E) store reservation now_ms)
    (fun _ w' => tw_submitted w' = tw_submitted w /\ tw_reported w' = tw_reported w)
    (fun _ _ => False) (quiet w) w.
Proof.
  unfold wp, release, mtry, on_risk.
  destruct (release_reservation _ _ _ _) as [[]] eqn:Er; simpl; [done..|].
  apply release_not_ok in Er; [done|by intros].
Qed.

(** Handling a failure whose order may have been accepted leaves the count. *)
Lemma wp_handle_failed {E : Type} reservation context link e now_ms (w : world) :
  wp (handle_failed_submission (E := E) env store reservation context link e now_ms)
    (fun e' w' => tw_submitted w' = tw_submitted w /\ tw_reported w' = tw_reported w /\
       (definitely_not_accepted e' = false -> quiet w w') /\
       definitely_not_accepted e' = definitely_not_accepted e)
    (fun _ _ => False) (fun w' => quiet w w') w.
Proof.
  unfold handle_failed_submission. wp_step.
  set (certain := is_certain_submission_failure e).
  apply (wp_mono _ (fun rollback_failed w' =>
           tw_submitted w' = tw_submitted w /\ tw_reported w' = tw_reported w /\
           (certain = false -> quiet w w' /\ rollback_failed = false)) _
           (fun (_ : E) _ => False) _ (fun w' => quiet w w')); [| |done|done].
  { destruct certain; [|by apply wp_ret]. wp_step.
    eapply wp_mono; [apply wp_release| |done|done]. simpl.
    intros r w' [? ?]. apply wp_ret. done. }
  intros rollback_failed w1 (Hs & Hr & Hq). wp_step.
  apply (wp_mono _ (fun id w' => quiet w1 w' /\
           (is_confirmed_submission_rejection e = false -> id = None)) _
           (fun (_ : E) _ => False) _ (fun _ => False)); [| |done|done].
  { destruct (is_confirmed_submission_rejection e); [|by apply wp_ret].
    unfold wp, on_env, observe_rejection.
    destruct (negb _); [done|]. by destruct (env_observe_order _ _ _ _) as [[[]|] x]. }
  intros id w2 [(Q1 & Q2 & Q3) Hid]. apply wp_ret.
  assert (Hclass : definitely_not_accepted (finalize_submission_failure e rollback_failed id)
                   = definitely_not_accepted e).
  { destruct (finalize_keeps_class e rollback_failed id Hid) as [?|[Hrf Hc]]; [done|].
    destruct (Hq Hc) as [_ ?]. congruence. }
  split_and!; [congruence..| |done]. rewrite Hclass. intros Hd.
  assert (certain = false) as Hc.
  { unfold definitely_not_accepted in Hd. by bools. }
  destruct (Hq Hc) as [(? & ? & ?) _]. split_and!; congruence.
Qed.

(** What a placement owes once its request was handed over. *)
Definition handed_over (request : PlaceOrderRequest) (w1 : risk_world) (w : world)
    (o : outcome AppError Order) (w' : world) : Prop :=
  tw_submitted w' = (tw_submitted w ++ [request])%list /\
  match o with
  | Ok order => rw_service (tw_risk w') = rw_service w1 /\ tw_reported w' = (tw_reported w ++ [order])%list
  | Err e => (definitely_not_accepted e = false -> rw_service (tw_risk w') = rw_service w1) /\
             tw_reported w' = tw_reported w
  | Halt _ => rw_service (tw_risk w') = rw_service w1
  end.

(** The end of a placement: nothing was handed over, or what is owed is kept. *)
Definition ends (request : PlaceOrderRequest) (w1 : risk_world) (w : world)
    (o : outcome AppError Order) (w' : world) : Prop :=
  tw_submitted w' = tw_submitted w /\ tw_reported w' = tw_reported w /\ is_ok o = false \/
  handed_over request w1 w o w'.

(** From the reservation on. *)
Lemma after_reservation_ends context request link reservation now_ms admission
    (prepare : action unit) submit absent (w : world) :
  wp (let* prepared := mtry (on_env prepare) in
      match prepared with
      | inl preflight_error =>
          let* _ := release store reservation now_ms in
          mfail (OrderSubmissionRejected (user_message preflight_error))
      | inr _ =>
          let* placed := mtry (dispatch_reserved store reservation now_ms admission
                                 (call_submit submit request)) in
          match placed with
          | inl submit_error =>
              let* e := handle_failed_submission env store reservation context link submit_error now_ms in
              mfail e
          | inr order =>
              (if (absent : bool) then
                 let* _ := on_env (observe env (sc_account_id context) (sc_session_epoch context)
                                     (link_if_missing link order) Command
                                     (Some (sc_submission_id context)) now_ms) in
                 mret tt
               else mret tt) ;;;
              report order ;;;
              mret order
          end
      end)
    (fun order => ends request (tw_risk w) w (Ok order)) (fun e => ends request (tw_risk w) w (Err e))
    (fun w' => forall h, ends request (tw_risk w) w (Halt h) w') w.
Proof.
  set (C := fun w' : world => forall h, ends request (tw_risk w) w (Halt h) w').
  assert (Hquiet : forall o w', is_ok o = false -> quiet w w' -> ends request (tw_risk w) w o w').
  { intros o w' Ho (_ & ? & ?). by left. }
  do 2 wp_step. eapply wp_mono; [apply wp_on_env| | |]; cbn beta.
  2: { intros e w1 Hw1. wp_step. eapply wp_mono; [apply wp_release| |done|].
       - intros r w2 [Hs Hr]. apply wp_fail. destruct Hw1 as (_ & ? & ?). left. split_and!; [congruence..|done].
       - intros w2 (? & ? & ?) h. destruct Hw1 as (_ & ? & ?). left. split_and!; [congruence..|done]. }
  2: { intros w1 Hw1 h. by apply Hquiet. }
  intros _ w1 Hw1.
  (* the hand-over and what follows it *)
  assert (Hsent : forall w2 : world, quiet w w2 ->
    wp (call_submit submit request)
      (fun _ w' => tw_submitted w' = (tw_submitted w ++ [request])%list /\
                   tw_reported w' = tw_reported w /\
                   rw_service (tw_risk w') = rw_service (tw_risk w))
      (fun _ w' => tw_submitted w' = (tw_submitted w ++ [request])%list /\
                   tw_reported w' = tw_reported w /\
                   rw_service (tw_risk w') = rw_service (tw_risk w))
      (fun w' => forall h, ends request (tw_risk w) w (Halt h) w') w2).
  { intros w2 (E1 & E2 & E3). unfold wp, call_submit.
    destruct (submit request (tw_env w2)) as [[] x]; simpl; [by rewrite E1, E2, E3..|].
    intros h'. right. split; simpl; [by rewrite E2|done]. }
  set (Sent := fun w' : world => tw_submitted w' = (tw_submitted w ++ [request])%list /\
                 tw_reported w' = tw_reported w /\
                 rw_service (tw_risk w') = rw_service (tw_risk w)) in Hsent.
  set (Unsent := fun w' : world => tw_submitted w' = tw_submitted w /\ tw_reported w' = tw_reported w).
  wp_step. wp_step.
  apply (wp_mono _ (fun (_ : Order) w' => Sent w') _ (fun (_ : AppError) w' => Sent w' \/ Unsent w') _ C).
  { unfold dispatch_reserved. destruct admission as [admission|].
    - do 2 wp_step. eapply wp_mono; [apply wp_on_env| | |]; cbn beta.
      + intros _ w2 Hw2. eapply wp_mono; [apply Hsent|done|by left|done].
        destruct Hw1 as (?&?&?), Hw2 as (?&?&?). split_and!; congruence.
      + intros e w2 Hw2. wp_step. eapply wp_mono; [apply wp_release| |done|].
        * intros r w3 [? ?]. apply wp_fail. right.
          destruct Hw1 as (?&?&?), Hw2 as (?&?&?). split; congruence.
        * intros w3 (?&?&?) h. destruct Hw1 as (?&?&?), Hw2 as (?&?&?).
          left. split_and!; [congruence..|done].
      + intros w2 (?&?&?) h. destruct Hw1 as (?&?&?). left. split_and!; [congruence..|done].
    - eapply wp_mono; [apply Hsent, Hw1|done|by left|done]. }
  3: done.
  - intros order w2 (S1 & S2 & S3). wp_step.
    apply (wp_mono _ (fun (_ : unit) w' => Sent w') _ (fun (_ : AppError) _ => False) _ (fun _ => False));
      [| |done|done].
    { destruct absent; [|by apply wp_ret]. wp_step. unfold wp, on_env, observe, mbind, mtry, observe_checked.
      destruct (observation_of _ _ _ _ _); [|done]. destruct (negb _); [done|].
      by destruct (env_observe_order _ _ _ _) as [[[]|] x]. }
    intros _ w3 (T1 & T2 & T3). unfold wp, report, mbind, mret. right.
    split; simpl; [done|]. split; [done|]. by rewrite T2.
  - intros e w2 Hcase. wp_step. eapply wp_mono; [apply wp_handle_failed| |done|].
    + intros e' w3 (E1 & E2 & Hq & Hcl). apply wp_fail. destruct Hcase as [(S1 & S2 & S3)|[U1 U2]].
      * right. split; [congruence|]. split; [|congruence]. intros Hd.
        destruct (Hq Hd) as (? & _ & _). congruence.
      * left. split_and!; [congruence..|done].
    + intros w3 (Q1 & Q2 & Q3) h. destruct Hcase as [(S1 & S2 & S3)|[U1 U2]].
      * right. split; [congruence|]. simpl. congruence.
      * left. split_and!; [congruence..|done].
Qed.
End PlacementFacts.

(** C3: A placement hands its request over at most once, and only after the risk
    checks accepted that very request and counted it.  Unless the answer proves
    that the exchange did not accept the order, the count is kept: on success,
    on every error the journal takes for undecided, and when the process stops.
    Success is reported exactly when the placement returns it. *)
Theorem placement_accounting `{ErrorText} `{Codec RiskUsage} `{DecimalLib} `{TimezoneLib}
    {X : Type} (env : NotificationEnv X) store utc_now f64_text context request reference_price
    now_ms admission prepare submit (w : trading_world X) o w' :
  execute_place_order_with_submit env store utc_now f64_text context request reference_price now_ms
    admission prepare submit w = (o, w') ->
  (tw_submitted w' = tw_submitted w /\ tw_reported w' = tw_reported w /\ is_ok o = false) \/
  exists link reservation w1,
    transmitted_link context request = Ok link /\
    reserve_order store utc_now (with_link link request) reference_price now_ms (tw_risk w)
      = (Ok reservation, w1) /\
    handed_over (with_link link request) w1 w o w'.
Proof.
  unfold execute_place_order_with_submit. intros Hrun.
  unfold mbind at 1, mlift in Hrun.
  destruct (transmitted_link context request) as [link| |] eqn:Hlink; [|left; by simplify_eq..].
  unfold mbind at 1, mtry at 1, on_risk at 1 in Hrun.
  destruct (reserve_order _ _ _ _ _ _) as [[reservation|violation|h] w1] eqn:Hres.
  - pose proof (after_reservation_ends env store context (with_link link request) link reservation
      now_ms admission prepare submit (bool_decide (r_protection (with_link link request) = None))
      (TradingWorld w1 (tw_submitted w) (tw_reported w) (tw_env w))) as Hends.
    unfold wp in Hends. simpl in Hends, Hrun. rewrite Hrun in Hends.
    assert (ends (with_link link request) w1 (TradingWorld w1 (tw_submitted w) (tw_reported w) (tw_env w)) o w')
      as [Hn|Hh] by (destruct o; apply Hends); [by left|right].
    exists link, reservation, w1. done.
  - left. unfold mbind, mfail, on_env, observe_risk_block in Hrun. simpl in Hrun.
    destruct (negb _); [by simplify_eq/=|].
    destruct (env_publish_risk_block _ _ _ _ _). by simplify_eq/=.
  - left. by simplify_eq/=.
Qed.

(** ** Seeding the observer *)

(** The order in which a stream's snapshot and buffered events are observed. *)
Definition replay_order (snapshots buffered : list Order) : list (OrderObservationOrigin * Order) :=
  (map (pair Snapshot) (List.filter (fun s => negb (settles_live s false buffered)) snapshots)
   ++ map (pair Realtime) buffered
   ++ map (pair Snapshot) (List.filter (fun s => settles_live s false buffered) snapshots))%list.

Section Replay.
Context {X : Type} (env : NotificationEnv X) (context : SessionContext) (now_ms : Z).

(** Observing a sequence of events, the [i]-th one [i] milliseconds later. *)
Fixpoint observe_all (offset : Z) (events : list (OrderObservationOrigin * Order))
    : M X AppError Z :=
  match events with
  | [] => mret offset
  | (origin, order) :: rest =>
      let* _ := observe_checked env (ses_account_id context) (ses_session_epoch context) order
                  origin None (u64_saturating_add now_ms offset) in
      observe_all (u64_saturating_add offset 1) rest
  end.

(** The events such a run shows the observer, a refused one included. *)
Fixpoint shown (offset : Z) (events : list (OrderObservationOrigin * Order)) (x : X)
    : list (OrderObservationOrigin * Order) :=
  match events with
  | [] => []
  | (origin, order) :: rest =>
      (origin, order) ::
        match observe_checked env (ses_account_id context) (ses_session_epoch context) order
                origin None (u64_saturating_add now_ms offset) x with
        | (Ok _, x) => shown (u64_saturating_add offset 1) rest x
        | _ => []
        end
  end.

Lemma shown_prefix offset events x : shown offset events x `prefix_of` events.
Proof.
  revert offset x. induction events as [|[origin order] events IH]; intros offset x; simpl; [done|].
  apply prefix_cons. destruct (observe_checked _ _ _ _ _ _ _ x) as [[] x'];
    [apply IH|apply prefix_nil..].
Qed.

Lemma observe_all_app offset l1 l2 x :
  observe_all offset (l1 ++ l2) x = (let* o := observe_all offset l1 in observe_all o l2) x.
Proof.
  revert offset x. induction l1 as [|[origin order] l1 IH]; intros offset x; [done|].
  simpl. unfold mbind at 1 2 3. destruct (observe_checked _ _ _ _ _ _ _ x) as [[] x']; [|done..].
  rewrite IH. done.
Qed.

Lemma observe_each_all origin offset orders x :
  observe_each env context origin now_ms offset orders x =
  observe_all offset (map (pair origin) orders) x.
Proof.
  revert offset x. induction orders as [|order orders IH]; intros offset x; [done|].
  simpl. unfold mbind. destruct (observe_checked _ _ _ _ _ _ _ x) as [[] x']; [|done..]. apply IH.
Qed.

Lemma seed_is_replay snapshots buffered x :
  seed_snapshot_then_replay env context snapshots buffered now_ms x =
  (let* _ := observe_all 0 (replay_order snapshots buffered) in mret tt) x.
Proof.
  unfold seed_snapshot_then_replay, replay_order. unfold mbind at 1.
  rewrite observe_each_all. unfold mbind at 3. rewrite observe_all_app. unfold mbind at 3.
  destruct (observe_all 0 _ x) as [[offset| |] x1]; [|done..].
  unfold mbind at 1. rewrite observe_each_all, observe_all_app. unfold mbind at 2.
  destruct (observe_all offset _ x1) as [[offset2| |] x2]; [|done..].
  unfold mbind. by rewrite observe_each_all.
Qed.
End Replay.

Lemma filter_permutation {A} (f : A -> bool) l :
  Permutation (List.filter (fun x => negb (f x)) l ++ List.filter f l) l.
Proof.
  induction l as [|x l IH]; simpl; [done|]. destruct (f x); simpl; [|by rewrite IH].
  by rewrite <- Permutation_middle, IH.
Qed.

(** Seeding observes every order of the snapshot and every buffered event
    exactly once, the buffered events in their order of arrival, and it shows a
    snapshot after them exactly when they hold a terminal event of its order
    after a non-terminal one: such a snapshot cannot hide the transition. *)
Theorem seed_observes_once {X : Type} (env : NotificationEnv X) context snapshots buffered now_ms x :
  seed_snapshot_then_replay env context snapshots buffered now_ms x =
    (let* _ := observe_all env context now_ms 0 (replay_order snapshots buffered) in mret tt) x /\
  Permutation (replay_order snapshots buffered)
    (map (pair Snapshot) snapshots ++ map (pair Realtime) buffered) /\
  (exists before after,
     replay_order snapshots buffered = (before ++ map (pair Realtime) buffered ++ after)%list /\
     (forall s, (Snapshot, s) ∈ before <-> s ∈ snapshots /\ settles_live s false buffered = false) /\
     (forall s, (Snapshot, s) ∈ after <-> s ∈ snapshots /\ settles_live s false buffered = true)).
Proof.
  split; [apply seed_is_replay|]. unfold replay_order. split.
  - rewrite (Permutation_app_comm (map (pair Realtime) buffered)), app_assoc, <- map_app.
    by rewrite filter_permutation.
  - eexists _, _. split; [done|]. 
    assert (forall f (s : Order), (Snapshot, s) ∈ map (pair Snapshot) (List.filter f snapshots) <->
              s ∈ snapshots /\ f s = true) as Hin.
    { intros f s. rewrite !list_elem_of_In, in_map_iff. split.
      - intros (y & [= ->] & Hy). by apply filter_In in Hy.
      - intros Hy. exists s. split; [done|]. by apply filter_In. }
    split; intros s; rewrite Hin; [|done]. by rewrite negb_true_iff.
Qed.
