(* ===== verification/BTreeMap.v ===== *)
(** [BTreeMap] as a finite map with its keys in order: numbers as keys, and
    texts in the order of their bytes. *)
From stdpp Require Import gmap sorting strings.
From S2P Require Import Prelude RustStr.

Section BTree.
Context {V : Type}.
Implicit Types m : gmap Z V.

Definition bt_keys (m : gmap Z V) : list Z := merge_sort Z.le (map fst (map_to_list m)).
Definition bt_values (m : gmap Z V) : list V := omap (fun k => m !! k) (bt_keys m).
Definition bt_first_key (m : gmap Z V) : option Z := head (bt_keys m).
Definition bt_last_key (m : gmap Z V) : option Z := last (bt_keys m).
(** [map.range(from..=to)], the values. *)
Definition bt_range (from to : Z) (m : gmap Z V) : list V :=
  omap (fun k => m !! k) (List.filter (fun k => (from <=? k) && (k <=? to)) (bt_keys m)).
(** [map.retain(|_, v| keep(v))]. *)
Definition bt_retain (keep : V -> bool) (m : gmap Z V) : gmap Z V :=
  filter (fun kv => keep kv.2 = true) m.

Lemma bt_keys_perm m : bt_keys m ≡ₚ (map_to_list m).*1.
Proof. apply merge_sort_Permutation. Qed.

Lemma bt_keys_spec m k : k ∈ bt_keys m <-> is_Some (m !! k).
Proof.
  rewrite bt_keys_perm, list_elem_of_fmap. split.
  - intros ([k' v] & -> & H). apply elem_of_map_to_list in H. eauto.
  - intros [v H]. exists (k, v). split; [done|]. by apply elem_of_map_to_list.
Qed.

Lemma bt_keys_NoDup m : NoDup (bt_keys m).
Proof. rewrite bt_keys_perm. apply NoDup_fst_map_to_list. Qed.

Lemma bt_keys_sorted m : StronglySorted Z.le (bt_keys m).
Proof. apply (StronglySorted_merge_sort Z.le). Qed.

Lemma strictly_sorted (l : list Z) :
  StronglySorted Z.le l -> NoDup l -> StronglySorted Z.lt l.
Proof.
  induction 1 as [|x l Hs IH Hf]; intros Hn; constructor.
  - apply IH. by apply NoDup_cons in Hn as [_ ?].
  - apply NoDup_cons in Hn as [Hx _]. rewrite Forall_forall in Hf |- *. intros y Hy.
    specialize (Hf y Hy). assert (x <> y) by (intros ->; done). lia.
Qed.

Lemma bt_keys_lt m : StronglySorted Z.lt (bt_keys m).
Proof. apply strictly_sorted; [apply bt_keys_sorted|apply bt_keys_NoDup]. Qed.

Lemma bt_keys_length m : length (bt_keys m) = size m.
Proof. rewrite bt_keys_perm, length_fmap. apply length_map_to_list. Qed.

Lemma bt_first_key_some m k :
  bt_first_key m = Some k -> is_Some (m !! k) /\ forall k', is_Some (m !! k') -> k <= k'.
Proof.
  unfold bt_first_key. pose proof (bt_keys_sorted m) as Hs. pose proof (bt_keys_spec m) as Hk.
  destruct (bt_keys m) as [|x l]; [done|]. intros [= ->]. split.
  - apply Hk, elem_of_cons. by left.
  - intros k' [->|Hin]%Hk%elem_of_cons; [lia|]. apply StronglySorted_inv in Hs as [_ Hf].
    rewrite Forall_forall in Hf. by apply Hf.
Qed.

Lemma bt_first_key_none m : bt_first_key m = None -> m = ∅.
Proof.
  unfold bt_first_key. intros H. apply map_empty. intros k.
  destruct (m !! k) eqn:E; [|done]. exfalso.
  assert (k ∈ bt_keys m) as Hin by (apply bt_keys_spec; eauto).
  destruct (bt_keys m); [by apply elem_of_nil in Hin|done].
Qed.

Lemma bt_values_elem m v : v ∈ bt_values m <-> exists k, m !! k = Some v.
Proof.
  unfold bt_values. rewrite list_elem_of_omap. split.
  - intros (k & _ & H). eauto.
  - intros [k H]. exists k. split; [|done]. apply bt_keys_spec. eauto.
Qed.

Lemma omap_lookup_keys m (l : list Z) :
  (forall k, k ∈ l -> is_Some (m !! k)) -> length (omap (fun k => m !! k) l) = length l.
Proof.
  induction l as [|k l IH]; intros Hl; simpl; [done|].
  destruct (Hl k) as [v ->]; [apply elem_of_cons; by left|]. simpl. f_equal. apply IH.
  intros k' Hk'. apply Hl, elem_of_cons. by right.
Qed.

Lemma bt_values_length m : length (bt_values m) = size m.
Proof.
  unfold bt_values. rewrite omap_lookup_keys; [apply bt_keys_length|].
  intros k. by rewrite bt_keys_spec.
Qed.
End BTree.

(** * Texts as keys *)

Section StringMap.
Context {V : Type}.
Implicit Types m : gmap string V.

Definition sm_keys m : list string := merge_sort String.le (map fst (map_to_list m)).
Definition sm_values m : list V := omap (fun k => m !! k) (sm_keys m).

Lemma sm_keys_perm m : sm_keys m ≡ₚ (map_to_list m).*1.
Proof. apply merge_sort_Permutation. Qed.

Lemma sm_keys_spec m k : k ∈ sm_keys m <-> is_Some (m !! k).
Proof.
  rewrite sm_keys_perm, list_elem_of_fmap. split.
  - intros ([k' v] & -> & Hin). apply elem_of_map_to_list in Hin. eauto.
  - intros [v Hk]. exists (k, v). split; [done|]. by apply elem_of_map_to_list.
Qed.

Lemma sm_keys_NoDup m : NoDup (sm_keys m).
Proof. rewrite sm_keys_perm. apply NoDup_fst_map_to_list. Qed.

Lemma sm_keys_sorted m : StronglySorted String.le (sm_keys m).
Proof. apply (StronglySorted_merge_sort String.le). Qed.

Lemma sm_values_elem m v : v ∈ sm_values m <-> exists k, m !! k = Some v.
Proof.
  unfold sm_values. rewrite list_elem_of_omap. split.
  - intros (k & _ & Hk). eauto.
  - intros (k & Hk). exists k. split; [|done]. apply sm_keys_spec. eauto.
Qed.
End StringMap.

(** Texts in strictly increasing order. *)
Definition string_lt (a b : string) : Prop := String.le a b /\ a <> b.

Lemma string_lt_leb a b : string_lt a b -> String.leb b a = false.
Proof.
  intros [Hle Hne]. destruct (String.leb b a) eqn:E; [|done].
  destruct Hne. apply (anti_symm String.le); [done|]. unfold String.le. by rewrite E.
Qed.

Lemma sorted_strictly (l : list string) :
  StronglySorted String.le l -> NoDup l -> StronglySorted string_lt l.
Proof.
  induction 1 as [|x l Hs IH Hf]; intros Hn; constructor; apply NoDup_cons in Hn as [Hx Hn].
  - by apply IH.
  - rewrite Forall_forall in Hf |- *. intros y Hy. split; [by apply Hf|]. by intros ->.
Qed.

Lemma sm_keys_lt {V} (m : gmap string V) : StronglySorted string_lt (sm_keys m).
Proof. apply sorted_strictly; [apply sm_keys_sorted|apply sm_keys_NoDup]. Qed.

(** The values of a map whose keys are a field of the values. *)
Lemma sm_values_keyed {V} (key : V -> string) (m : gmap string V) :
  (forall k v, m !! k = Some v -> key v = k) ->
  map key (sm_values m) = sm_keys m.
Proof.
  intros Hk. unfold sm_values.
  assert (forall ks, (forall k, k ∈ ks -> is_Some (m !! k)) ->
            map key (omap (fun k => m !! k) ks) = ks) as Hl.
  { induction ks as [|k ks IH]; intros Hks; simpl; [done|].
    destruct (Hks k) as [v Hv]; [by left|]. rewrite Hv. simpl.
    rewrite (Hk _ _ Hv). f_equal. apply IH. intros k' Hk'. apply Hks. by right. }
  apply Hl. intros k. apply sm_keys_spec.
Qed.
