(* ===== verification/KlineStore.v ===== *)
(** storage/kline_store.rs: the bars of each chart, buffered in memory and
    appended to, or compacted into, one JSON-lines file. *)
From stdpp Require Import gmap sorting relations.
From Stdlib Require Import Ascii.
From S2P Require Import Prelude RustStr FileSystem External Models BTreeMap.

Definition MAX_STORED_BARS : nat := Z.to_nat 10000.
Definition COMPACT_PHYSICAL_RECORDS : Z := 12000.

Record Kline := {
  k_symbol : string;
  k_interval : string;
  k_open_time : Z;
  k_open : string;
  k_high : string;
  k_low : string;
  k_close : string;
  k_volume : string;
}.

#[export] Instance Kline_eq_dec : EqDecision Kline.
Proof. solve_decision. Defined.

Record ChartWorkspaceKey := { key_symbol : string; key_interval : string }.

#[export] Instance ChartWorkspaceKey_eq_dec : EqDecision ChartWorkspaceKey.
Proof. solve_decision. Defined.
#[export] Instance ChartWorkspaceKey_countable : Countable ChartWorkspaceKey.
Proof.
  apply (inj_countable' (fun k => (key_symbol k, key_interval k))
           (fun p => {| key_symbol := p.1; key_interval := p.2 |})).
  by intros [].
Defined.

Record PendingEntry := { pe_kline : Kline; pe_revision : Z }.

Record BufferedSeries := {
  loaded : bool;
  bars : gmap Z Kline;
  pending : gmap Z PendingEntry;
  revision : Z;
  physical_records : Z;
  compaction_revision : option Z;
}.

Definition BufferedSeries_default : BufferedSeries :=
  {| loaded := false; bars := ∅; pending := ∅; revision := 0; physical_records := 0;
     compaction_revision := None |}.

Record FlushBatch := {
  fb_key : ChartWorkspaceKey;
  fb_entries : list PendingEntry;
  fb_snapshot : list Kline;
  fb_snapshot_revision : Z;
  fb_compact : bool;
}.

Record LoadedSeries := {
  ls_bars : gmap Z Kline;
  ls_physical_records : Z;
  ls_recovered_fallback : bool;
}.

Record KlineMergeResult := { mr_revision : Z; mr_changed : bool }.
Record KlineFlushOutcome := { fo_revision : Z; fo_wrote : bool; fo_compacted : bool }.

(** ** Lines of a file *)

Definition newline : ascii := "010"%char.

(** [BufRead::lines]: each line with whether a newline ended it. *)
Fixpoint split_lines (s : string) : list (string * bool) :=
  match s with
  | EmptyString => []
  | String c s' =>
      if Ascii.eqb c newline then ("", true) :: split_lines s'
      else match split_lines s' with
           | [] => [(String c "", false)]
           | (l, t) :: rest => (String c l, t) :: rest
           end
  end.

Fixpoint drop_last_cr (s : string) : string :=
  match s with
  | EmptyString => ""
  | String c "" => if Ascii.eqb c "013"%char then "" else String c ""
  | String c s' => String c (drop_last_cr s')
  end.

Definition lines (s : string) : list string :=
  map (fun '(l, terminated) => if (terminated : bool) then drop_last_cr l else l) (split_lines s).

(** ** The bounded map of bars *)

Definition u64_increment (z : Z) : Z := u64_saturating_add z 1.

(** [while bars.len() > MAX_STORED_BARS]: the oldest bar goes, from both maps. *)
Fixpoint evict {V : Type} (fuel : nat) (bars : gmap Z Kline) (pending : gmap Z V)
    : gmap Z Kline * gmap Z V :=
  match fuel with
  | O => (bars, pending)
  | S fuel =>
      if (MAX_STORED_BARS <? size bars)%nat then
        match bt_first_key bars with
        | Some oldest => evict fuel (delete oldest bars) (delete oldest pending)
        | None => (bars, pending)
        end
      else (bars, pending)
  end.

Definition crop_bars (bars : gmap Z Kline) : gmap Z Kline :=
  (evict (V := unit) (size bars) bars ∅).1.

Definition bar_matches (key : ChartWorkspaceKey) (bar : Kline) : bool :=
  (0 <? k_open_time bar) && (k_symbol bar ==s key_symbol key)
  && (k_interval bar ==s key_interval key).

(** ** Operations on one series *)

Section Series.
Definition with_loaded (l : LoadedSeries) (s : BufferedSeries) : BufferedSeries :=
  {| loaded := true; bars := ls_bars l; pending := pending s; revision := revision s;
     physical_records := ls_physical_records l;
     compaction_revision :=
       if ls_recovered_fallback l || (COMPACT_PHYSICAL_RECORDS <? ls_physical_records l)
       then Some (revision s) else compaction_revision s |}.

(** The body of the loop over the bars. *)
Definition upsert_one (acc : BufferedSeries * bool) (bar : Kline) : BufferedSeries * bool :=
  let '(s, changed) := acc in
  if (k_open_time bar <=? 0) || bool_decide (bars s !! k_open_time bar = Some bar)
  then (s, changed)
  else
    let r := u64_increment (revision s) in
    ({| loaded := loaded s; bars := <[k_open_time bar := bar]> (bars s);
        pending := <[k_open_time bar := {| pe_kline := bar; pe_revision := r |}]> (pending s);
        revision := r; physical_records := physical_records s;
        compaction_revision := compaction_revision s |}, true).

Definition bound_series (s : BufferedSeries) : BufferedSeries :=
  if (MAX_STORED_BARS <? size (bars s))%nat then
    let '(b, p) := evict (size (bars s)) (bars s) (pending s) in
    {| loaded := loaded s; bars := b; pending := p; revision := revision s;
       physical_records := physical_records s; compaction_revision := Some (revision s) |}
  else s.

Definition upsert_series (new_bars : list Kline) (s : BufferedSeries) : BufferedSeries * bool :=
  let '(s, changed) := fold_left upsert_one new_bars (s, false) in
  (bound_series s, changed).

Definition prepare_flush (key : ChartWorkspaceKey) (s : BufferedSeries) : option FlushBatch :=
  if bool_decide (pending s = ∅) && bool_decide (compaction_revision s = None) then None
  else
    let entries := bt_values (pending s) in
    Some {| fb_key := key; fb_entries := entries; fb_snapshot := bt_values (bars s);
            fb_snapshot_revision := revision s;
            fb_compact := bool_decide (is_Some (compaction_revision s))
              || (COMPACT_PHYSICAL_RECORDS <? physical_records s + Z.of_nat (length entries)) |}.

Definition acknowledge_flush (batch : FlushBatch) (s : BufferedSeries) : BufferedSeries :=
  {| loaded := loaded s; bars := bars s;
     pending := bt_retain (fun p => fb_snapshot_revision batch <? pe_revision p) (pending s);
     revision := revision s;
     physical_records :=
       if fb_compact batch then Z.of_nat (length (fb_snapshot batch))
       else physical_records s + Z.of_nat (length (fb_entries batch));
     compaction_revision :=
       if fb_compact batch then
         match compaction_revision s with
         | Some r => if r <=? fb_snapshot_revision batch then None else Some r
         | None => None
         end
       else compaction_revision s |}.

Definition clamp (lo hi n : nat) : nat := Nat.max lo (Nat.min n hi).

Definition range_of (from to : option Z) (limit : nat) (s : BufferedSeries) : list Kline :=
  let found := bt_range (default i64_min from) (default i64_max to) (bars s) in
  let limit := clamp 1 MAX_STORED_BARS limit in
  if (limit <? length found)%nat then drop (length found - limit) found else found.

Fixpoint detect_gaps_from (prev : Kline) (rest : list Kline) (interval_ms : Z) : list (Z * Z) :=
  match rest with
  | [] => []
  | next :: rest =>
      let expected := k_open_time prev + interval_ms in
      ((if expected <? k_open_time next then [(expected, k_open_time next - interval_ms)] else [])
       ++ detect_gaps_from next rest interval_ms)%list
  end.

Definition detect_gaps (series : list Kline) (interval_ms : Z) : list (Z * Z) :=
  match series with
  | [] => []
  | prev :: rest => if interval_ms <=? 0 then [] else detect_gaps_from prev rest interval_ms
  end.
End Series.

(** ** The files *)

Section KlineFiles.
Context `{ErrorText} `{Codec Kline}.
Context (dir : path).

Definition storage_error (e : io_error) : AppError := Storage (io_display e).
Definition kio {A : Type} (c : IO A) : M fs_world AppError A := mmap_err storage_error c.

Definition file_path (key : ChartWorkspaceKey) : path :=
  join dir (key_symbol key +:+ "_" +:+ key_interval key +:+ ".jsonl").

(** The main file: lines that are not bars of the key are skipped. *)
Fixpoint parse_main_lines (key : ChartWorkspaceKey) (ls : list string) (found : gmap Z Kline)
    (records : Z) : outcome AppError (gmap Z Kline * Z) :=
  match ls with
  | [] => Ok (found, records)
  | line :: rest =>
      if negb (utf8_valid (bytes_of line)) then Err (storage_error OtherIo)
      else if trim_is_empty line then parse_main_lines key rest found (records + 1)
      else
        match decode line with
        | None => parse_main_lines key rest found (records + 1)
        | Some bar =>
            parse_main_lines key rest
              (if bar_matches key bar then <[k_open_time bar := bar]> found else found)
              (records + 1)
        end
  end.

(** A fallback file: one bad line disqualifies it. *)
Fixpoint parse_fallback_lines (key : ChartWorkspaceKey) (ls : list string)
    (found : gmap Z Kline) (records : Z) : outcome AppError (option (gmap Z Kline * Z)) :=
  match ls with
  | [] => Ok (if 0 <? records then Some (found, records) else None)
  | line :: rest =>
      if negb (utf8_valid (bytes_of line)) then Err (storage_error OtherIo)
      else if trim_is_empty line then Ok None
      else
        match decode line with
        | None => Ok None
        | Some bar =>
            if negb (bar_matches key bar) then Ok None
            else parse_fallback_lines key rest (<[k_open_time bar := bar]> found) (records + 1)
        end
  end.

Definition parse_main_file (p : path) (key : ChartWorkspaceKey)
    : M fs_world AppError (gmap Z Kline * Z) :=
  let* contents := kio (fs_read p) in
  mlift (parse_main_lines key (lines contents) ∅ 0).

Definition parse_fallback_file (p : path) (key : ChartWorkspaceKey)
    : M fs_world AppError (option (gmap Z Kline * Z)) :=
  let* file := fs_is_file p in
  if negb file then mret None
  else
    let* size := kio (fs_len p) in
    if size =? 0 then mret None
    else
      let* contents := kio (fs_read p) in
      mlift (parse_fallback_lines key (lines contents) ∅ 0).

Fixpoint load_fallbacks (key : ChartWorkspaceKey) (candidates : list path)
    : M fs_world AppError LoadedSeries :=
  match candidates with
  | [] => mret {| ls_bars := ∅; ls_physical_records := 0; ls_recovered_fallback := false |}
  | fallback :: rest =>
      let* found := parse_fallback_file fallback key in
      match found with
      | Some (b, n) =>
          mret {| ls_bars := crop_bars b; ls_physical_records := n; ls_recovered_fallback := true |}
      | None => load_fallbacks key rest
      end
  end.

Definition load_from_disk (key : ChartWorkspaceKey) : M fs_world AppError LoadedSeries :=
  let p := file_path key in
  let fallbacks := load_fallbacks key [sibling p ".tmp"; sibling p ".bak"] in
  let* file := fs_is_file p in
  if negb file then fallbacks
  else
    let* size := kio (fs_len p) in
    if negb (0 <? size) then fallbacks
    else
      let* r := parse_main_file p key in
      mret {| ls_bars := crop_bars r.1; ls_physical_records := r.2;
              ls_recovered_fallback := false |}.

(** [serde_json::to_writer] and the newline, for each bar in order. *)
Fixpoint write_lines (p : path) (ks : list Kline) : M fs_world AppError unit :=
  match ks with
  | [] => mret tt
  | k :: rest =>
      let* text := mlift (ok_or (Storage "json") (encode k)) in
      kio (fs_write_all p text) ;;;
      kio (fs_write_all p (String newline "")) ;;;
      write_lines p rest
  end.

Definition append_batch (batch : FlushBatch) : M fs_world AppError unit :=
  let p := file_path (fb_key batch) in
  kio (fs_open_append p) ;;;
  write_lines p (map pe_kline (fb_entries batch)) ;;;
  kio (fs_sync_all p).

Definition is_fully_parseable_file (p : path) (key : ChartWorkspaceKey)
    : M fs_world AppError bool :=
  let* found := parse_fallback_file p key in
  mret (bool_decide (is_Some found)).

Definition compact_batch (batch : FlushBatch) : M fs_world AppError unit :=
  let p := file_path (fb_key batch) in
  let tmp := sibling p ".tmp" in
  let backup := sibling p ".bak" in
  kio (fs_open_truncate tmp) ;;;
  write_lines tmp (fb_snapshot batch) ;;;
  kio (fs_sync_all tmp) ;;;
  let* main_is_valid := is_fully_parseable_file p (fb_key batch) in
  (if (main_is_valid : bool) then
     let* there := fs_exists backup in
     (if (there : bool) then
        let* file := fs_is_file backup in
        if (file : bool) then kio (fs_remove_file backup)
        else mfail (Storage "backup path is not a file")
      else mret tt) ;;;
     kio (fs_rename p backup)
   else
     let* there := fs_exists p in
     let* file := (if (there : bool) then fs_is_file p else mret false) in
     if (file : bool) then kio (fs_remove_file p) else mret tt) ;;;
  let* promoted := mtry (fs_rename tmp p) in
  match promoted with
  | inr _ => mret tt
  | inl promote_error =>
      let* there := (if (main_is_valid : bool) then fs_exists backup else mret false) in
      (if (there : bool) then
         mmap_err (fun _ => Storage "failed to promote compacted kline file; failed to restore backup")
           (fs_copy backup p)
       else mret tt) ;;;
      mfail (storage_error promote_error)
  end.
End KlineFiles.

(** ** The store *)

Record kline_world := KlineWorld {
  kw_fs : fs_world;
  kw_entries : gmap ChartWorkspaceKey BufferedSeries;
}.

Section KlineStore.
Context `{ErrorText} `{Codec Kline}.
Context (dir : path).

Definition on_kline_fs {E A : Type} (c : M fs_world E A) : M kline_world E A :=
  fun w => let '(o, fs) := c (kw_fs w) in (o, KlineWorld fs (kw_entries w)).

(** [state_for] and the lock of its series. *)
Definition series_of (key : ChartWorkspaceKey) (w : kline_world) : BufferedSeries :=
  default BufferedSeries_default (kw_entries w !! key).

Definition get_series {E : Type} (key : ChartWorkspaceKey) : M kline_world E BufferedSeries :=
  fun w => (Ok (series_of key w), KlineWorld (kw_fs w) (<[key := series_of key w]> (kw_entries w))).

Definition put_series {E : Type} (key : ChartWorkspaceKey) (s : BufferedSeries)
    : M kline_world E unit :=
  fun w => (Ok tt, KlineWorld (kw_fs w) (<[key := s]> (kw_entries w))).

Definition ensure_loaded (key : ChartWorkspaceKey) : M kline_world AppError BufferedSeries :=
  let* s := get_series key in
  if loaded s then mret s
  else
    let* l := on_kline_fs (load_from_disk dir key) in
    let s := with_loaded l s in
    put_series key s ;;;
    mret s.

Definition upsert_bars (key : ChartWorkspaceKey) (new_bars : list Kline)
    : M kline_world AppError KlineMergeResult :=
  if existsb (fun bar => (k_symbol bar !=s key_symbol key) || (k_interval bar !=s key_interval key))
       new_bars
  then mfail (Storage "kline key mismatch")
  else
    let* s := ensure_loaded key in
    let '(s, changed) := upsert_series new_bars s in
    put_series key s ;;;
    mret {| mr_revision := revision s; mr_changed := changed |}.

Definition load_range (key : ChartWorkspaceKey) (from to : option Z) (limit : nat)
    : M kline_world AppError (list Kline) :=
  if match from, to with Some from, Some to => to <? from | _, _ => false end
  then mfail (Storage "kline range start exceeds end")
  else
    let* s := ensure_loaded key in
    mret (range_of from to limit s).

Definition last_open_time (key : ChartWorkspaceKey) : M kline_world AppError (option Z) :=
  let* s := ensure_loaded key in
  mret (bt_last_key (bars s)).

(** The write of a batch, outside the lock of the series. *)
Definition write_batch (batch : FlushBatch) : M fs_world AppError unit :=
  if fb_compact batch then compact_batch dir batch else append_batch dir batch.

Definition flush_key (key : ChartWorkspaceKey) : M kline_world AppError KlineFlushOutcome :=
  let* s := ensure_loaded key in
  match prepare_flush key s with
  | None => mret {| fo_revision := revision s; fo_wrote := false; fo_compacted := false |}
  | Some batch =>
      on_kline_fs (write_batch batch) ;;;
      let* s := get_series key in
      put_series key (acknowledge_flush batch s) ;;;
      mret {| fo_revision := fb_snapshot_revision batch;
              fo_wrote := negb (bool_decide (fb_entries batch = []));
              fo_compacted := fb_compact batch |}
  end.

Definition key_le (a b : ChartWorkspaceKey) : Prop :=
  (String.ltb (key_symbol a) (key_symbol b)
   || ((key_symbol a ==s key_symbol b) && String.leb (key_interval a) (key_interval b))) = true.
#[local] Instance key_le_dec : RelDecision key_le.
Proof. intros a b. unfold key_le. apply _. Defined.

Definition dirty (s : BufferedSeries) : bool :=
  negb (bool_decide (pending s = ∅)) || bool_decide (is_Some (compaction_revision s)).

Definition dirty_keys (w : kline_world) : list ChartWorkspaceKey :=
  merge_sort key_le
    (omap (fun '(key, s) => if dirty s then Some key else None) (map_to_list (kw_entries w))).

Definition flush_dirty {E : Type}
    : M kline_world E (list (ChartWorkspaceKey * (AppError + KlineFlushOutcome))) :=
  fun w =>
    mmap (fun key => let* outcome := mtry (flush_key key) in mret (key, outcome))
      (dirty_keys w) w.
End KlineStore.
