(* ===== verification/KlineFacts.v ===== *)
(** What the kline store guarantees: what a flush made durable, what a
    concurrent update keeps, and what its queries answer. *)
From stdpp Require Import gmap sorting relations.
From Stdlib Require Import Ascii.
From S2P Require Import Prelude RustStr FileSystem External Models BTreeMap KlineStore.

(** ** The bound on the bars *)

Lemma evict_spec {V : Type} fuel (b : gmap Z Kline) (p : gmap Z V) :
  (size b <= fuel)%nat ->
  let '(b', p') := evict fuel b p in
  (size b' <= MAX_STORED_BARS)%nat /\ b' ⊆ b /\ p' ⊆ p /\
  (forall t, is_Some (b' !! t) -> p' !! t = p !! t) /\
  (forall t, b !! t = None -> p !! t = None -> p' !! t = None) /\
  (forall t, is_Some (p' !! t) -> is_Some (b !! t) -> is_Some (b' !! t)) /\
  (forall t t', is_Some (b !! t) -> b' !! t = None -> is_Some (b' !! t') -> t < t').
Proof.
  revert b p. induction fuel as [|fuel IH]; intros b p Hf; simpl.
  { split_and!; try done; [lia|]. intros t t' [x E] E'. congruence. }
  destruct (Nat.ltb_spec MAX_STORED_BARS (size b)) as [Hlt|Hle].
  2: { split_and!; try done. intros t t' [x E] E'. congruence. }
  destruct (bt_first_key b) as [k|] eqn:Ek.
  2: { apply bt_first_key_none in Ek as ->. rewrite map_size_empty in Hlt. lia. }
  apply bt_first_key_some in Ek as [[x Hk] Hmin].
  specialize (IH (delete k b) (delete k p)).
  assert (size (delete k b) = (size b - 1)%nat) as Hsz.
  { rewrite map_size_delete_Some by eauto. lia. }
  destruct (evict fuel (delete k b) (delete k p)) as [b' p'].
  destruct IH as (H1 & H2 & H3 & H4 & H5 & H6 & H7); [lia|]. split_and!.
  - done.
  - etrans; [done|apply delete_subseteq].
  - etrans; [done|apply delete_subseteq].
  - intros t Ht. rewrite (H4 t Ht). assert (t <> k) as Hne; [|by rewrite lookup_delete_ne].
    intros ->. destruct Ht as [y Hy]. eapply lookup_weaken in Hy; [|exact H2].
    by rewrite lookup_delete_eq in Hy.
  - intros t Hb Hp. apply H5; rewrite lookup_delete; by case_decide.
  - intros t [y Hy] Hb. apply H6; [eauto|]. assert (t <> k) as Hne; [|by rewrite lookup_delete_ne].
    intros ->. eapply lookup_weaken in Hy; [|exact H3]. by rewrite lookup_delete_eq in Hy.
  - intros t t' Ht Hn Ht'. destruct (decide (t = k)) as [->|Hne].
    + destruct Ht' as [y Hy]. eapply lookup_weaken in Hy as Hy'; [|exact H2].
      assert (t' <> k) by (intros ->; by rewrite lookup_delete_eq in Hy').
      rewrite lookup_delete_ne in Hy' by done. specialize (Hmin t' ltac:(eauto)). lia.
    + apply (H7 t t'); [by rewrite lookup_delete_ne|done|done].
Qed.

Lemma evict_small {V : Type} fuel (b : gmap Z Kline) (p : gmap Z V) :
  (size b <= MAX_STORED_BARS)%nat -> evict fuel b p = (b, p).
Proof.
  intros Hb. destruct fuel; simpl; [done|].
  destruct (Nat.ltb_spec MAX_STORED_BARS (size b)); [lia|done].
Qed.

Lemma evict_nonempty {V : Type} fuel (b : gmap Z Kline) (p : gmap Z V) :
  b <> ∅ -> (evict fuel b p).1 <> ∅.
Proof.
  revert b p. induction fuel as [|fuel IH]; intros b p Hb; simpl; [done|].
  destruct (Nat.ltb_spec MAX_STORED_BARS (size b)) as [Hlt|]; [|done].
  destruct (bt_first_key b) as [k|] eqn:Ek; [|done]. apply IH.
  apply bt_first_key_some in Ek as [Hk _]. intros E. apply map_size_empty_iff in E.
  rewrite map_size_delete_Some in E by done. unfold MAX_STORED_BARS in Hlt. lia.
Qed.

Lemma crop_bars_small b : (size b <= MAX_STORED_BARS)%nat -> crop_bars b = b.
Proof. intros Hb. unfold crop_bars. by rewrite evict_small. Qed.

(** ** Well-formed series, and a series after updates *)

Record well_formed (key : ChartWorkspaceKey) (s : BufferedSeries) : Prop := {
  wf_size : (size (bars s) <= MAX_STORED_BARS)%nat;
  wf_bars t b : bars s !! t = Some b -> k_open_time b = t /\ bar_matches key b = true;
  wf_pending t e : pending s !! t = Some e ->
    bars s !! t = Some (pe_kline e) /\ pe_revision e <= revision s;
  wf_compaction r : compaction_revision s = Some r -> r <= revision s;
}.

Definition same_key (key : ChartWorkspaceKey) (bar : Kline) : bool :=
  (k_symbol bar ==s key_symbol key) && (k_interval bar ==s key_interval key).

(** [s1] is [s0] after updates: everything that changed is pending with a newer
    revision, unless a newer compaction is asked for. *)
Record later (s0 s1 : BufferedSeries) : Prop := {
  lt_loaded : loaded s1 = loaded s0;
  lt_physical : physical_records s1 = physical_records s0;
  lt_revision : revision s0 <= revision s1;
  lt_pending t e : pending s1 !! t = Some e -> revision s0 < pe_revision e \/ pending s0 !! t = Some e;
  lt_compaction :
    (exists r, compaction_revision s1 = Some r /\ revision s0 < r) \/
    (compaction_revision s1 = compaction_revision s0 /\
     forall t, (exists e, pending s1 !! t = Some e /\ revision s0 < pe_revision e) \/
       (bars s1 !! t = bars s0 !! t /\ pending s1 !! t = pending s0 !! t));
}.

(** Both, without the bound on the size, which the end of an update restores. *)
Record updated (key : ChartWorkspaceKey) (s0 s1 : BufferedSeries) : Prop := {
  up_bars t b : bars s1 !! t = Some b -> k_open_time b = t /\ bar_matches key b = true;
  up_pending t e : pending s1 !! t = Some e ->
    bars s1 !! t = Some (pe_kline e) /\ pe_revision e <= revision s1;
  up_compaction r : compaction_revision s1 = Some r -> r <= revision s1;
  up_later : later s0 s1;
  up_grown : (size (bars s1) <= MAX_STORED_BARS)%nat \/ revision s0 < revision s1;
}.

Lemma updated_refl key s : well_formed key s -> updated key s s.
Proof. intros []. split; eauto. split; eauto; lia. Qed.

Lemma updated_wf key s0 s1 :
  updated key s0 s1 -> (size (bars s1) <= MAX_STORED_BARS)%nat -> well_formed key s1.
Proof. intros [] Hs. by split. Qed.

Lemma u64_increment_lt r : r < u64_max -> u64_increment r = r + 1.
Proof. unfold u64_increment, u64_saturating_add. lia. Qed.

(** The number a revision counter ends at, and that it did not saturate. *)
Lemma upsert_one_revision s c b : revision s <= revision (upsert_one (s, c) b).1 \/ u64_max <= revision s.
Proof.
  simpl. destruct (_ || _); simpl; [left; lia|]. destruct (decide (revision s < u64_max)).
  - left. rewrite u64_increment_lt by done. lia.
  - right. lia.
Qed.

Lemma upsert_one_updated key s0 s c b :
  revision s < u64_max -> same_key key b = true ->
  updated key s0 s -> updated key s0 (upsert_one (s, c) b).1.
Proof.
  intros Hr Hk Hup. simpl. destruct (_ || _) eqn:Eskip; simpl; [done|]. bools.
  rewrite (u64_increment_lt _ Hr). apply Z.leb_gt in H.
  destruct Hup as [U1 U2 U3 [L1 L2 L3 L4 L5] U5]. split; simpl.
  - intros t b'. rewrite lookup_insert. case_decide as Ht.
    + intros [= <-]. split; [done|]. unfold bar_matches, same_key in *. bools.
      apply Z.ltb_lt in H. by rewrite H, H1, H2.
    + apply U1.
  - intros t e. rewrite !lookup_insert. case_decide as Ht.
    + intros [= <-]. simpl. split; [done|lia].
    + intros He. destruct (U2 t e He). split; [done|lia].
  - intros r Er. specialize (U3 r Er). lia.
  - split; simpl; [done|done|lia| |].
    + intros t e. rewrite lookup_insert. case_decide; [|apply L4].
      intros [= <-]. left. simpl. lia.
    + destruct L5 as [?|[Ec Hsame]]; [by left|]. right. split; [done|]. intros t.
      rewrite !lookup_insert. case_decide; [|apply Hsame]. left. eexists. split; [done|]. simpl. lia.
  - right. lia.
Qed.

Lemma upsert_one_grows s c b :
  revision s < u64_max -> revision (upsert_one (s, c) b).1 <= revision s + 1.
Proof.
  intros Hr. simpl. destruct (_ || _); simpl; [lia|]. by rewrite u64_increment_lt.
Qed.

Lemma upsert_fold_updated key s0 new_bars s c :
  revision s + Z.of_nat (length new_bars) < u64_max ->
  Forall (fun b => same_key key b = true) new_bars ->
  updated key s0 s ->
  updated key s0 (fold_left upsert_one new_bars (s, c)).1.
Proof.
  revert s c. induction new_bars as [|b new_bars IH]; intros s c Hr Hk Hup; [done|].
  apply Forall_cons_1 in Hk as [Hb Hk]. simpl length in Hr. cbn [fold_left].
  pose proof (upsert_one_grows s c b ltac:(lia)) as Hg.
  pose proof (upsert_one_updated key s0 s c b ltac:(lia) Hb Hup) as Hu.
  destruct (upsert_one (s, c) b) as [s' c']. apply IH; [simpl in Hg; lia|done|done].
Qed.

Lemma bound_series_updated key s0 s :
  updated key s0 s -> updated key s0 (bound_series s) /\
  (size (bars (bound_series s)) <= MAX_STORED_BARS)%nat.
Proof.
  intros Hup. unfold bound_series.
  destruct (Nat.ltb_spec MAX_STORED_BARS (size (bars s))) as [Hlt|Hle]; [|done].
  pose proof (evict_spec (size (bars s)) (bars s) (pending s) ltac:(lia)) as He.
  destruct (evict _ _ _) as [b' p']. destruct He as (H1 & H2 & H3 & H4 & H5 & H6 & H7).
  destruct Hup as [U1 U2 U3 [L1 L2 L3 L4 L5] [U5|U5]]; [lia|].
  split; [|done]. split; simpl.
  - intros t b Hb. eapply U1, lookup_weaken; done.
  - intros t e Hpe. assert (pending s !! t = Some e) as Hpe' by by eapply lookup_weaken.
    destruct (U2 t e Hpe') as [Hbt ?]. split; [|done].
    destruct (H6 t ltac:(eauto) ltac:(eauto)) as [x Hx]. rewrite Hx.
    eapply lookup_weaken in Hx; [|exact H2]. congruence.
  - intros r [= <-]. lia.
  - split; simpl; [done|done|lia| |left; eauto].
    intros t e Hpe. apply L4. by eapply lookup_weaken.
  - by left.
Qed.

Lemma upsert_series_updated key s0 new_bars s :
  revision s + Z.of_nat (length new_bars) < u64_max ->
  Forall (fun b => same_key key b = true) new_bars ->
  updated key s0 s -> updated key s0 (upsert_series new_bars s).1 /\
  (size (bars (upsert_series new_bars s).1) <= MAX_STORED_BARS)%nat.
Proof.
  intros Hr Hk Hup. unfold upsert_series.
  pose proof (upsert_fold_updated key s0 new_bars s false Hr Hk Hup) as Hf.
  destruct (fold_left upsert_one new_bars (s, false)) as [s' c']. simpl.
  by apply bound_series_updated.
Qed.

(** An update keeps a series well formed: at most ten thousand bars, each under
    its own open time and of the series' symbol and interval, every pending
    bar the current one. *)
Theorem upsert_keeps_well_formed key new_bars s :
  well_formed key s -> revision s + Z.of_nat (length new_bars) < u64_max ->
  Forall (fun b => same_key key b = true) new_bars ->
  well_formed key (upsert_series new_bars s).1.
Proof.
  intros Hwf Hr Hk.
  destruct (upsert_series_updated key s new_bars s Hr Hk (updated_refl key s Hwf)) as [Hup Hs].
  by apply (updated_wf key s).
Qed.

(** A series with bars keeps some, and a compaction asked for has some to write. *)
Definition writable (s : BufferedSeries) : Prop := compaction_revision s = None \/ bars s <> ∅.

Lemma upsert_one_keeps acc b :
  (bars acc.1 <> ∅ -> bars (upsert_one acc b).1 <> ∅) /\
  compaction_revision (upsert_one acc b).1 = compaction_revision acc.1.
Proof.
  destruct acc as [s c]. simpl. destruct (_ || _); simpl; [done|]. split; [|done].
  intros _. apply insert_non_empty.
Qed.

Lemma upsert_series_writable new_bars s : writable s -> writable (upsert_series new_bars s).1.
Proof.
  intros Hw. unfold upsert_series.
  assert (forall acc, writable acc.1 -> writable (fold_left upsert_one new_bars acc).1) as Hf.
  { induction new_bars as [|b new_bars IH]; intros acc Ha; [done|]. simpl. apply IH.
    destruct (upsert_one_keeps acc b) as [Hb Hc]. unfold writable in *. rewrite Hc. tauto. }
  specialize (Hf (s, false) Hw). destruct (fold_left upsert_one new_bars (s, false)) as [s' c].
  simpl in *. unfold bound_series.
  destruct (Nat.ltb_spec MAX_STORED_BARS (size (bars s'))) as [Hlt|]; [|done].
  pose proof (evict_nonempty (size (bars s')) (bars s') (pending s')) as He.
  destruct (evict _ _ _) as [b' p']. right. simpl. apply He. intros E. rewrite E, map_size_empty in Hlt. lia.
Qed.

(** ** The lines of a file *)

Lemma split_lines_line (l : string) rest :
  forallb (fun b => negb (b =? 10)) (bytes_of l) = true ->
  split_lines (l +:+ String newline rest) = (l, true) :: split_lines rest.
Proof.
  induction l as [|c l IH]; simpl; [done|]. intros Hl. bools.
  assert (Ascii.eqb c newline = false) as ->.
  { apply Ascii.eqb_neq. intros ->.
    match goal with Hn : (_ =? 10) = false |- _ => vm_compute in Hn; discriminate Hn end. }
  by rewrite IH.
Qed.

(** A text that is empty or ends with a newline. *)
Fixpoint clean (s : string) : bool :=
  match s with
  | EmptyString => true
  | String c "" => Ascii.eqb c newline
  | String _ s' => clean s'
  end.

Lemma split_lines_cons c s :
  split_lines (String c s) =
  if Ascii.eqb c newline then ("", true) :: split_lines s
  else match split_lines s with
       | [] => [(String c "", false)]
       | (l, t) :: rest => (String c l, t) :: rest
       end.
Proof. done. Qed.

Lemma split_lines_nonempty c s : split_lines (String c s) <> [].
Proof.
  rewrite split_lines_cons. destruct (Ascii.eqb c newline); [done|]. by destruct (split_lines s) as [|[]].
Qed.

Lemma split_lines_app (d e : string) :
  clean d = true -> split_lines (d +:+ e) = (split_lines d ++ split_lines e)%list.
Proof.
  induction d as [|c d IH]; [done|]. intros Hc.
  change (String c d +:+ e) with (String c (d +:+ e)). rewrite !split_lines_cons.
  destruct d as [|c' d].
  - cbn [clean] in Hc. by rewrite Hc.
  - specialize (IH Hc). rewrite IH. destruct (Ascii.eqb c newline); [done|].
    pose proof (split_lines_nonempty c' d) as Hne.
    by destruct (split_lines (String c' d)) as [|[l t] rest].
Qed.

Lemma lines_app (d e : string) : clean d = true -> lines (d +:+ e) = (lines d ++ lines e)%list.
Proof. intros Hc. unfold lines. by rewrite split_lines_app, map_app. Qed.

Lemma clean_app d e : clean d = true -> clean e = true -> clean (d +:+ e) = true.
Proof.
  induction d as [|c d IH]; [done|]. intros Hd He. destruct d as [|c' d].
  - destruct e; [by simpl in *|done].
  - cbn [clean] in Hd. specialize (IH Hd He). exact IH.
Qed.

Lemma clean_line l : clean (l +:+ String newline "") = true.
Proof.
  induction l as [|c l IH]; [done|]. change ((String c l) +:+ String newline "") with (String c (l +:+ String newline "")).
  destruct l; [done|exact IH].
Qed.

(** ** Bars written as lines *)

(** A bar is encoded as one line of JSON, which decodes to it. *)
Class KlineLaws `{Codec Kline} := {
  kline_decode_encode k text : encode k = Some text -> decode text = Some k;
  kline_one_line k text : encode k = Some text ->
    forallb (fun b => negb (b =? 10)) (bytes_of text) = true /\
    drop_last_cr text = text /\ trim_is_empty text = false /\ utf8_valid (bytes_of text) = true;
}.

Section Content.
Context `{ErrorText} `{KlineLaws}.

Fixpoint content (ks : list Kline) : option string :=
  match ks with
  | [] => Some ""
  | k :: rest =>
      match encode k, content rest with
      | Some text, Some texts => Some (text +:+ String newline texts)
      | _, _ => None
      end
  end.

(** The bars of a file whose later lines replace the earlier ones. *)
Definition overlay (ks : list Kline) (found : gmap Z Kline) : gmap Z Kline :=
  fold_left (fun m k => <[k_open_time k := k]> m) ks found.

Lemma overlay_lookup ks found t :
  (exists k, k ∈ ks /\ k_open_time k = t /\ overlay ks found !! t = Some k) \/
  ((forall k, k ∈ ks -> k_open_time k <> t) /\ overlay ks found !! t = found !! t).
Proof.
  revert found. induction ks as [|k ks IH]; intros found; simpl.
  { right. split; [|done]. by intros k Hk%elem_of_nil. }
  destruct (IH (<[k_open_time k := k]> found)) as [(k' & Hk' & Ht & E)|[Hn E]].
  - left. exists k'. split_and!; [apply elem_of_cons; by right|done|done].
  - destruct (decide (k_open_time k = t)) as [Ht|Ht].
    + left. exists k. split_and!; [apply elem_of_cons; by left|done|].
      rewrite E, <- Ht. by rewrite lookup_insert_eq.
    + right. split.
      * intros k' [->|Hk']%elem_of_cons; [done|by apply Hn].
      * rewrite E. by rewrite lookup_insert_ne.
Qed.

Lemma append_assoc (a b c : string) : (a +:+ b) +:+ c = a +:+ (b +:+ c).
Proof. induction a as [|x a IH]; [done|]. change (String x ((a +:+ b) +:+ c) = String x (a +:+ (b +:+ c))). by rewrite IH. Qed.

Lemma append_empty (a : string) : a +:+ "" = a.
Proof. induction a as [|x a IH]; [done|]. change (String x (a +:+ "") = String x a). by rewrite IH. Qed.

Lemma content_lines ks text :
  content ks = Some text -> exists texts, lines text = texts /\ clean text = true /\
    (ks <> [] -> text <> "") /\
    forall key found n, Forall (fun k => bar_matches key k = true) ks ->
      parse_main_lines key texts found n = Ok (overlay ks found, n + Z.of_nat (length ks)).
Proof.
  revert text. induction ks as [|k ks IH]; intros text Ht; simpl in Ht.
  { injection Ht as <-. exists []. split_and!; [done..|]. intros. by rewrite Z.add_0_r. }
  destruct (encode k) as [line|] eqn:E; [|done].
  destruct (content ks) as [rest|] eqn:Er; [|done]. injection Ht as <-.
  destruct (IH rest eq_refl) as (texts & Hl & Hc & _ & Hp).
  destruct (kline_one_line k line E) as (Hn & Hcr & Hb & Hu).
  exists (line :: texts). split_and!.
  - unfold lines. rewrite split_lines_line by done. simpl. rewrite Hcr. f_equal. exact Hl.
  - change (String newline rest) with (String newline "" +:+ rest). rewrite <- append_assoc.
    apply clean_app; [apply clean_line|done].
  - intros _. by destruct line.
  - intros key found n Hk. apply Forall_cons_1 in Hk as [Hk1 Hk]. cbn [parse_main_lines].
    rewrite Hu, Hb. cbn [negb]. rewrite (kline_decode_encode k line E), Hk1.
    rewrite (Hp key _ (n + 1) Hk). cbn [length overlay fold_left]. f_equal. f_equal. lia.
Qed.

Lemma parse_main_lines_app key l1 l2 found n :
  parse_main_lines key (l1 ++ l2) found n =
  let? r := parse_main_lines key l1 found n in parse_main_lines key l2 r.1 r.2.
Proof.
  revert found n. induction l1 as [|line l1 IH]; intros found n; [done|].
  simpl. destruct (negb _); [done|]. destruct (trim_is_empty line); [apply IH|].
  destruct (decode line); apply IH.
Qed.

(** *** Runs that returned [Ok] *)

Lemma prim_ok {A : Type} (remember : gmap path node -> list snapshot -> list snapshot)
    (partial : nat -> gmap path node -> gmap path node)
    (op : gmap path node -> outcome io_error A * gmap path node) (w : fs_world) a w' :
  prim_with remember partial op w = (Ok a, w') -> op (nodes w) = (Ok a, nodes w').
Proof.
  unfold prim_with. destruct (faults w) as [|[|n|n] rest]; simpl; [| |done|done];
    destruct (op (nodes w)) as [o m]; by intros [= -> <-].
Qed.

Lemma write_all_ok (p : path) bytes (w : fs_world) u w' :
  fs_write_all p bytes w = (Ok u, w') -> nodes w' = append_bytes p bytes (nodes w).
Proof. intros [= _ Hm]%prim_ok. done. Qed.

Lemma write_lines_ok (p : path) ks (w : fs_world) u w' d s :
  nodes w !! p = Some (File d s) -> write_lines p ks w = (Ok u, w') ->
  exists text s', content ks = Some text /\ nodes w' = <[p := File (d +:+ text) s']> (nodes w).
Proof.
  revert w d s. induction ks as [|k ks IH]; intros w d s Hp Hr; simpl in Hr.
  { injection Hr as _ <-. exists "", s. split; [done|]. rewrite insert_id; [done|].
    by rewrite append_empty. }
  unfold kio in Hr. run_ok.
  repeat match goal with Hw : fs_write_all _ _ _ = (Ok _, _) |- _ => apply write_all_ok in Hw end.
  unfold append_bytes in *. rewrite Hp in *.
  match goal with Ha : nodes ?w1 = <[p := File (d +:+ ?t) false]> (nodes w),
                  Hb : nodes ?w2 = match nodes ?w1 !! p with _ => _ end |- _ =>
    rewrite Ha, lookup_insert_eq, insert_insert_eq in Hb;
    destruct (IH w2 ((d +:+ t) +:+ String newline "") false) as (text & s' & Hc & Hn)
  end.
  - match goal with Hb : nodes ?w2 = _ |- nodes ?w2 !! p = _ => by rewrite Hb, lookup_insert_eq end.
  - done.
  - match goal with He : encode k = Some ?t |- _ => exists (t +:+ String newline text), s' end.
    simpl. split.
    + match goal with He : encode k = Some _ |- _ => by rewrite He, Hc end.
    + rewrite Hn. match goal with Hb : nodes _ = <[p := _]> _ |- _ => rewrite Hb end.
      rewrite insert_insert_eq. by rewrite !append_assoc.
Qed.

(** The main file [p] of a key holds the bars [D]. *)
Definition stored (key : ChartWorkspaceKey) (p : path) (m : gmap path node) (D : gmap Z Kline)
    : Prop :=
  match m !! p with
  | Some (File d s) =>
      s = true /\ clean d = true /\ exists n, parse_main_lines key (lines d) ∅ 0 = Ok (D, n)
  | Some Dir => False
  | None => D = ∅
  end.

Lemma sync_all_ok (p : path) (w : fs_world) u w' d s :
  fs_sync_all p w = (Ok u, w') -> nodes w !! p = Some (File d s) ->
  nodes w' = <[p := File d true]> (nodes w).
Proof. intros [= _ Hm]%prim_ok Hp. by rewrite Hp in Hm. Qed.

Lemma open_append_ok (p : path) (w : fs_world) u w' :
  fs_open_append p w = (Ok u, w') ->
  nodes w' = match nodes w !! p with Some _ => nodes w | None => <[p := File "" false]> (nodes w) end.
Proof.
  intros Hm%prim_ok. cbn in Hm. destruct (open_check p (nodes w)); by inversion Hm.
Qed.

Lemma append_batch_ok dir batch (w : fs_world) u w' D :
  let p := file_path dir (fb_key batch) in
  Forall (fun k => bar_matches (fb_key batch) k = true) (map pe_kline (fb_entries batch)) ->
  stored (fb_key batch) p (nodes w) D -> append_batch dir batch w = (Ok u, w') ->
  exists d, nodes w' = <[p := File d true]> (nodes w) /\
    (fb_entries batch <> [] -> d <> "") /\
    stored (fb_key batch) p (nodes w') (overlay (map pe_kline (fb_entries batch)) D).
Proof.
  intros p Hk Hst Hr. unfold append_batch, kio in Hr. fold p in Hr. run_ok.
  match goal with Ho : fs_open_append _ _ = _ |- _ => apply open_append_ok in Ho as Hopen end.
  match goal with Hw : write_lines _ _ ?w1 = _ |- _ => rename Hw into Hwr; set (w1' := w1) in * end.
  assert (exists d s, nodes w1' !! p = Some (File d s) /\ clean d = true /\
            (exists n, parse_main_lines (fb_key batch) (lines d) ∅ 0 = Ok (D, n)) /\
            forall n', <[p := n']> (nodes w1') = <[p := n']> (nodes w)) as (d & s & Hd & Hc & [n Hn] & Hins).
  { unfold stored in Hst. destruct (nodes w !! p) as [[d s|]|] eqn:E; [|done|].
    - destruct Hst as (-> & Hc & Hn). exists d, true. rewrite Hopen. done.
    - subst D. exists "", false. rewrite Hopen, lookup_insert_eq. split_and!; [done..|by exists 0|].
      intros n'. by rewrite insert_insert_eq. }
  apply (write_lines_ok _ _ _ _ _ d s Hd) in Hwr as (text & s' & Htext & Hn2).
  eapply sync_all_ok in Hr; [|by rewrite Hn2, lookup_insert_eq].
  rewrite Hn2, insert_insert_eq, Hins in Hr.
  destruct (content_lines _ _ Htext) as (texts & Hl & Hct & Hne & Hparse).
  exists (d +:+ text). split_and!; [exact Hr| |].
  - intros He. assert (text <> "") as Hte. { apply Hne. by destruct (fb_entries batch). }
    intros Hemp. destruct d; [by apply Hte|done].
  - unfold stored. rewrite Hr, lookup_insert_eq. split_and!; [done|by apply clean_app|].
    eexists. rewrite lines_app, parse_main_lines_app by done. rewrite Hn. cbn [obind fst snd].
    rewrite Hl. by apply Hparse.
Qed.

(** *** Compaction *)

Lemma rename_ok (src dst : path) (w : fs_world) u w' d s :
  fs_rename src dst w = (Ok u, w') -> nodes w !! src = Some (File d s) ->
  nodes w' = <[dst := File d s]> (delete src (nodes w)).
Proof.
  intros Hm%prim_ok Hs. unfold rename_op in Hm. rewrite Hs in Hm.
  repeat case_match; by inversion Hm.
Qed.

Lemma remove_ok (p : path) (w : fs_world) u w' :
  fs_remove_file p w = (Ok u, w') -> nodes w' = delete p (nodes w).
Proof. intros Hm%prim_ok. cbn in Hm. repeat case_match; by inversion Hm. Qed.

Lemma reads_ok {A E : Type} (c : M fs_world E A) w o w' :
  reads nodes c -> c w = (o, w') -> nodes w' = nodes w.
Proof. intros Hr Hc. specialize (Hr w). by rewrite Hc in Hr. Qed.

Lemma parse_fallback_reads p key : reads nodes (parse_fallback_file p key).
Proof.
  unfold parse_fallback_file, kio. apply reads_bind; [auto with reads|]. intros []; simpl.
  - apply reads_bind; [auto with reads|]. intros size. case_match; auto 8 with reads.
  - auto with reads.
Qed.

Lemma parse_fallback_file_some (p : path) key (w : fs_world) r w' :
  parse_fallback_file p key w = (Ok (Some r), w') -> exists d s, nodes w !! p = Some (File d s).
Proof.
  unfold parse_fallback_file, kio. intros Hr. run_ok.
  match goal with Hf : fs_is_file _ _ = _ |- _ => apply reads_ok in Hf as E1; [|auto with reads] end.
  destruct_var bool; simpl in Hr; [|by run_ok]. run_ok.
  match goal with Hf : fs_len _ _ = _ |- _ => apply reads_ok in Hf as E2; [|auto with reads] end.
  case_match; [by run_ok|]. run_ok.
  match goal with Hf : fs_read _ _ = _ |- _ => apply prim_ok in Hf as Hm end.
  rewrite E2, E1 in Hm. repeat case_match; try done. eauto.
Qed.

Lemma open_truncate_ok (p : path) (w : fs_world) u w' :
  fs_open_truncate p w = (Ok u, w') -> nodes w' = <[p := File "" false]> (nodes w).
Proof. intros Hm%prim_ok. cbn in Hm. destruct (open_check p (nodes w)); by inversion Hm. Qed.

Lemma suffixes_differ (p : path) : p <> [] -> p <> sibling p ".tmp" /\ sibling p ".bak" <> sibling p ".tmp".
Proof.
  destruct p as [|name up]; [done|]. intros _. simpl.
  split; intros [= E].
  - apply (f_equal String.length) in E. rewrite string_length_app in E. simpl in E. lia.
  - by apply (inj (String.append name)) in E.
Qed.

(** The main file is out of the way, the temporary untouched. *)
Lemma move_main_aside_ok (p : path) key valid (w : fs_world) u w' n :
  p <> [] -> nodes w !! sibling p ".tmp" = Some n ->
  (valid = true -> exists d s, nodes w !! p = Some (File d s)) ->
  (if (valid : bool) then
     let* there := fs_exists (sibling p ".bak") in
     (if (there : bool) then
        let* file := fs_is_file (sibling p ".bak") in
        if (file : bool) then kio (fs_remove_file (sibling p ".bak"))
        else mfail (Storage key)
      else mret tt) ;;;
     kio (fs_rename p (sibling p ".bak"))
   else
     let* there := fs_exists p in
     let* file := (if (there : bool) then fs_is_file p else mret false) in
     if (file : bool) then kio (fs_remove_file p) else mret tt) w = (Ok u, w') ->
  nodes w' !! sibling p ".tmp" = Some n /\
  (walkable (parent p) (nodes w) -> walkable (parent p) (nodes w')).
Proof.
  intros Hp Ht Hv Hr. destruct (suffixes_differ p Hp) as [Hpt Hbt].
  assert (Hwd : forall q m, q = p \/ q = sibling p ".bak" ->
            walkable (parent p) m -> walkable (parent p) (delete q m)).
  { destruct p as [|name up]; [done|]. intros q m [->| ->]; apply walkable_delete. }
  assert (Hwi : forall x m, walkable (parent p) m -> walkable (parent p) (<[sibling p ".bak" := x]> m)).
  { destruct p as [|name up]; [done|]. intros x m. apply walkable_insert. }
  set (bak := sibling p ".bak") in *. set (tmp := sibling p ".tmp") in *.
  destruct valid; unfold kio in Hr; run_ok.
  - destruct (Hv eq_refl) as (d & s & Hd).
    match goal with Hf : fs_exists _ _ = _ |- _ => apply reads_ok in Hf as E1; [|auto with reads] end.
    match goal with Hf : fs_rename p bak ?w1 = _ |- _ =>
      assert ((nodes w1 !! tmp = Some n /\ nodes w1 !! p = Some (File d s)) /\
              (walkable (parent p) (nodes w) -> walkable (parent p) (nodes w1)))
        as [[Ht1 Hp1] Hw1] end.
    { assert (p <> bak) as Hpb.
      { intros E. destruct p as [|name up]; [done|]. injection E as E.
        apply (f_equal String.length) in E. rewrite string_length_app in E. simpl in E. lia. }
      match goal with Hf : (if ?b then _ else _) _ = _ |- _ => destruct b end; run_ok; [|by rewrite E1].
      match goal with Hf : fs_is_file _ _ = _ |- _ => apply reads_ok in Hf as E2; [|auto with reads] end.
      match goal with Hf : (if ?b then _ else _) _ = _ |- _ => destruct b end; run_ok.
      match goal with Hf : fs_remove_file _ _ = _ |- _ => apply remove_ok in Hf as -> end.
      rewrite E2, E1. split; [by rewrite !lookup_delete_ne|]. apply Hwd. by right. }
    eapply rename_ok in Hr; [|exact Hp1]. rewrite Hr, lookup_insert_ne by done. split.
    { by rewrite lookup_delete_ne. }
    intros Hw. apply Hwi, Hwd; [by left|by apply Hw1].
  - match goal with Hf : fs_exists _ _ = _ |- _ => apply reads_ok in Hf as E1; [|auto with reads] end.
    match goal with Hf : (if _ then fs_is_file p else _) _ = _ |- _ =>
      apply reads_ok in Hf as E2; [|match goal with |- reads _ (if ?b then _ else _) => destruct b end; auto with reads] end.
    case_match; run_ok; [|by rewrite E2, E1].
    apply remove_ok in Hr as ->. rewrite E2, E1. split; [by rewrite lookup_delete_ne|].
    apply Hwd. by left.
Qed.

Lemma compact_batch_ok dir batch (w : fs_world) u w' :
  let p := file_path dir (fb_key batch) in
  compact_batch dir batch w = (Ok u, w') ->
  exists text, content (fb_snapshot batch) = Some text /\ nodes w' !! p = Some (File text true) /\
    (walkable dir (nodes w) -> walkable dir (nodes w')).
Proof.
  intros p Hr. unfold compact_batch, kio in Hr. fold p in Hr. run_ok.
  match goal with Ho : fs_open_truncate _ _ = _ |- _ => apply open_truncate_ok in Ho as Hopen end.
  match goal with Hw : write_lines _ _ _ = _ |- _ =>
    eapply write_lines_ok in Hw as (text & s' & Htext & Hn); [|by rewrite Hopen, lookup_insert_eq] end.
  match goal with Hs : fs_sync_all _ _ = _ |- _ =>
    eapply sync_all_ok in Hs; [|by rewrite Hn, lookup_insert_eq] end.
  exists text. split; [done|].
  match goal with Hv : is_fully_parseable_file _ _ _ = (Ok ?v, ?w1) |- _ =>
    assert ((nodes w1 !! sibling p ".tmp" = Some (File text true) /\
             (walkable dir (nodes w) -> walkable dir (nodes w1))) /\
            (v = true -> exists d s, nodes w1 !! p = Some (File d s))) as [[Ht1 Hw1] Hvalid] end.
  { match goal with Hv : is_fully_parseable_file _ _ _ = _ |- _ => unfold is_fully_parseable_file in Hv end.
    run_ok. match goal with Hv : parse_fallback_file _ _ _ = _ |- _ =>
      apply reads_ok in Hv as E1; [|apply parse_fallback_reads]; rename Hv into Hpf end.
    split.
    - rewrite E1. match goal with Hs : nodes ?a = <[_ := File ("" +:+ text) true]> _ |- nodes ?a !! _ = _ /\ _ => rewrite Hs end.
      split; [by rewrite lookup_insert_eq|]. rewrite Hn, Hopen. intros Hw.
      by do 3 apply walkable_insert.
    - intros Hb%bool_decide_eq_true. destruct Hb as [r ->].
      apply parse_fallback_file_some in Hpf. by rewrite E1. }
  match goal with Ha : (if _ then _ else _) _ = _ |- _ =>
    eapply move_main_aside_ok in Ha as [Ht2 Hw2]; [|done|exact Ht1|exact Hvalid] end.
  destruct_var (io_error + unit)%type; run_ok.
  match goal with Hf : fs_rename _ _ _ = _ |- _ => eapply rename_ok in Hf; [|exact Ht2] end.
  match goal with Hs : nodes _ = <[p := _]> _ |- _ => rewrite Hs end.
  split; [by rewrite lookup_insert_eq|]. intros Hw.
  apply (walkable_insert dir (key_symbol (fb_key batch) +:+ _)), (walkable_delete dir).
  by apply Hw2, Hw1.
Qed.
End Content.

(** ** Flushing *)

Section Flush.
Context `{ErrorText} `{KlineLaws}.
Context (dir : path) (key : ChartWorkspaceKey).

Let p : path := file_path dir key.

(** The bars of a loaded series are those of its file under the pending ones,
    unless the series asks for its file to be rewritten. *)
Definition consistent (s : BufferedSeries) (m : gmap path node) : Prop :=
  well_formed key s /\
  (compaction_revision s = None ->
   exists D, stored key p m D /\
     forall t, bars s !! t = match pending s !! t with
                             | Some e => Some (pe_kline e)
                             | None => D !! t
                             end).

Lemma entries_match s : well_formed key s ->
  Forall (fun k => bar_matches key k = true) (map pe_kline (bt_values (pending s))).
Proof.
  intros Hwf. apply Forall_forall. intros k Hk. apply list_elem_of_In, in_map_iff in Hk as (e & <- & He).
  apply list_elem_of_In, bt_values_elem in He as [t He].
  destruct (wf_pending _ _ Hwf t e He) as [Hb _]. by apply (wf_bars _ _ Hwf t).
Qed.

Lemma snapshot_match s : well_formed key s ->
  Forall (fun k => bar_matches key k = true) (bt_values (bars s)).
Proof.
  intros Hwf. apply Forall_forall. intros k [t Hk]%bt_values_elem. by apply (wf_bars _ _ Hwf t).
Qed.

(** The pending bars written over the file are the bars of the series. *)
Lemma overlay_entries s D t : well_formed key s ->
  overlay (map pe_kline (bt_values (pending s))) D !! t =
  match pending s !! t with Some e => Some (pe_kline e) | None => D !! t end.
Proof.
  intros Hwf. destruct (overlay_lookup (map pe_kline (bt_values (pending s))) D t) as [(k & Hk & Ht & E)|[Hn E]];
    rewrite E.
  - apply list_elem_of_In, in_map_iff in Hk as (e & <- & He).
    apply list_elem_of_In, bt_values_elem in He as [t' He].
    destruct (wf_pending _ _ Hwf t' e He) as [Hb _]. destruct (wf_bars _ _ Hwf t' _ Hb) as [Ht' _].
    assert (t' = t) as -> by congruence. by rewrite He.
  - destruct (pending s !! t) as [e|] eqn:He; [|done]. exfalso.
    destruct (wf_pending _ _ Hwf t e He) as [Hb _]. destruct (wf_bars _ _ Hwf t _ Hb) as [Ht _].
    apply (Hn (pe_kline e)); [|done]. apply list_elem_of_In, in_map_iff. exists e. split; [done|].
    apply list_elem_of_In, bt_values_elem. eauto.
Qed.

Lemma overlay_snapshot s t : well_formed key s -> overlay (bt_values (bars s)) ∅ !! t = bars s !! t.
Proof.
  intros Hwf. destruct (overlay_lookup (bt_values (bars s)) ∅ t) as [(k & Hk & Ht & E)|[Hn E]]; rewrite E.
  - apply bt_values_elem in Hk as [t' Hk]. destruct (wf_bars _ _ Hwf t' _ Hk) as [Ht' _].
    by assert (t' = t) as -> by congruence.
  - rewrite lookup_empty. destruct (bars s !! t) as [b|] eqn:Hb; [|done]. exfalso.
    destruct (wf_bars _ _ Hwf t _ Hb) as [Ht _]. apply (Hn b); [|done]. apply bt_values_elem. eauto.
Qed.

(** What a written batch leaves in the file: the bars it was prepared from. *)
Lemma write_batch_stored s batch (w : fs_world) u w' :
  consistent s (nodes w) -> prepare_flush key s = Some batch ->
  write_batch dir batch w = (Ok u, w') ->
  exists D, stored key p (nodes w') D /\ (forall t, D !! t = bars s !! t) /\
    (walkable dir (nodes w) -> walkable dir (nodes w')).
Proof.
  intros [Hwf Hc] Hprep Hw. unfold prepare_flush in Hprep.
  destruct (_ && _); [done|]. injection Hprep as <-. unfold write_batch in Hw. simpl in Hw.
  destruct (bool_decide _ || _) eqn:Ecompact.
  - apply compact_batch_ok in Hw as (text & Htext & Hp & Hwalk). simpl in *.
    destruct (content_lines _ _ Htext) as (texts & Hl & Hcl & _ & Hparse).
    eexists. split; [|split; [intros t; by apply overlay_snapshot|done]].
    unfold stored. unfold p. rewrite Hp. split_and!; [done|done|].
    eexists. rewrite Hl. by apply Hparse, snapshot_match.
  - bools. destruct (compaction_revision s) as [r|]; [exfalso; eauto|].
    destruct (Hc eq_refl) as (D & Hst & Hbars).
    edestruct append_batch_ok as (d & Hn & _ & Hst'); [| |exact Hw|]; [by apply entries_match|exact Hst|].
    simpl in *. eexists. split; [exact Hst'|]. split.
    + intros t. by rewrite overlay_entries, Hbars.
    + intros Hwalk. rewrite Hn. by apply walkable_insert.
Qed.

(** The acknowledgement of a written batch, after updates that came between. *)
Lemma acknowledge_consistent s0 s1 batch m D :
  prepare_flush key s0 = Some batch -> well_formed key s0 -> updated key s0 s1 ->
  (size (bars s1) <= MAX_STORED_BARS)%nat ->
  stored key p m D -> (forall t, D !! t = bars s0 !! t) ->
  consistent (acknowledge_flush batch s1) m.
Proof.
  intros Hprep Hwf0 Hup Hsz Hst HD. pose proof (updated_wf _ _ _ Hup Hsz) as Hwf1.
  assert (fb_snapshot_revision batch = revision s0) as Hsnap.
  { unfold prepare_flush in Hprep. destruct (_ && _); [done|]. by injection Hprep as <-. }
  assert (Hret : forall t e, bt_retain (fun e => fb_snapshot_revision batch <? pe_revision e) (pending s1) !! t = Some e <->
            pending s1 !! t = Some e /\ revision s0 < pe_revision e).
  { intros t e. unfold bt_retain. rewrite map_lookup_filter_Some, Hsnap, Z.ltb_lt. done. }
  split.
  - split; simpl.
    + done.
    + apply Hwf1.
    + intros t e [He _]%Hret. by apply (wf_pending _ _ Hwf1).
    + intros r Hr. apply (wf_compaction _ _ Hwf1). repeat case_match; simplify_eq; done.
  - intros Hnone. exists D. split; [done|]. intros t. simpl in *.
    destruct (lt_compaction _ _ (up_later _ _ _ Hup)) as [(r & Er & Hr)|[Ec Hsame]].
    { exfalso. rewrite Er, Hsnap in Hnone. destruct (fb_compact batch); [|done].
      destruct (Z.leb_spec r (revision s0)); [lia|done]. }
    destruct (bt_retain _ (pending s1) !! t) as [e|] eqn:Ee.
    { apply Hret in Ee as [Ee _]. by apply (wf_pending _ _ Hwf1). }
    destruct (Hsame t) as [(e & He & Hlt)|[Eb Ep]].
    { exfalso. assert (Some e = None) as Habs; [|done]. rewrite <- Ee. symmetry. by apply Hret. }
    by rewrite Eb, HD.
Qed.

(** Loading what a file stores. *)
Lemma load_stored_at m D :
  walkable dir m -> stored key p m D -> D <> ∅ -> (size D <= MAX_STORED_BARS)%nat ->
  exists l, load_from_disk dir key (FsWorld m []) = (Ok l, FsWorld m []) /\
            ls_bars l = D /\ ls_recovered_fallback l = false.
Proof.
  intros Hw Hst Hne Hsz. unfold stored in Hst.
  destruct (m !! p) as [[d s|]|] eqn:Ep; [|done|done]. destruct Hst as (-> & Hc & n & Hn).
  assert (0 < len d) as Hlen.
  { unfold len. destruct d as [|c d]; [|simpl; lia]. exfalso. by simplify_eq/=. }
  unfold load_from_disk. fold p.
  assert (Hb : blocked m p = false) by apply Hw.
  assert (E1 : fs_is_file (E := AppError) p (FsWorld m []) = (Ok true, FsWorld m [])).
  { unfold fs_is_file, fs_metadata, mbind, mtry, prim, prim_with, lookup_op, mret. simpl. by rewrite Hb, Ep. }
  assert (E2 : fs_len p (FsWorld m []) = (Ok (len d), FsWorld m [])).
  { unfold fs_len, prim, prim_with. simpl. by rewrite Hb, Ep. }
  assert (E3 : fs_read p (FsWorld m []) = (Ok d, FsWorld m [])).
  { unfold fs_read, prim, prim_with. simpl. by rewrite Hb, Ep. }
  rewrite (mbind_run _ _ _ _ _ E1). cbn [negb]. unfold kio.
  rewrite (mbind_run _ _ _ _ _ (mmap_err_run _ _ _ _ _ E2)).
  apply Z.ltb_lt in Hlen. rewrite Hlen. cbn [negb].
  assert (E4 : parse_main_file p key (FsWorld m []) = (Ok (D, n), FsWorld m [])).
  { unfold parse_main_file, kio. rewrite (mbind_run _ _ _ _ _ (mmap_err_run _ _ _ _ _ E3)).
    unfold mlift. by rewrite Hn. }
  rewrite (mbind_run _ _ _ _ _ E4).
  eexists. split; [done|]. simpl. split; [by apply crop_bars_small|done].
Qed.

(** A crash leaves what was synced. *)
Lemma stored_crash cut m D : stored key p m D -> stored key p (crash_nodes cut m) D.
Proof.
  unfold stored. rewrite lookup_crash_nodes. destruct (m !! p) as [[d s|]|]; [|done..].
  by intros (-> & ?).
Qed.

Lemma consistent_updated s0 s1 m :
  updated key s0 s1 -> (size (bars s1) <= MAX_STORED_BARS)%nat ->
  consistent s0 m -> consistent s1 m.
Proof.
  intros Hup Hsz [Hwf Hc]. pose proof (updated_wf _ _ _ Hup Hsz) as Hwf1. split; [done|]. intros Hnone.
  destruct (lt_compaction _ _ (up_later _ _ _ Hup)) as [(r & Er & _)|[Ec Hsame]]; [congruence|].
  destruct (Hc ltac:(congruence)) as (D & Hst & HD). exists D. split; [done|]. intros t.
  destruct (Hsame t) as [(e & He & _)|[-> ->]]; [|done].
  rewrite He. by apply (wf_pending _ _ Hwf1).
Qed.

Lemma parse_main_matches ls found n D k :
  parse_main_lines key ls found n = Ok (D, k) ->
  (forall t b, found !! t = Some b -> k_open_time b = t /\ bar_matches key b = true) ->
  forall t b, D !! t = Some b -> k_open_time b = t /\ bar_matches key b = true.
Proof.
  revert found n. induction ls as [|line ls IH]; intros found n Hp Hf; simpl in Hp.
  { by injection Hp as <- <-. }
  destruct (negb _); [done|]. destruct (trim_is_empty line); [by eapply IH|].
  destruct (decode line) as [b|]; [|by eapply IH]. eapply IH; [exact Hp|].
  destruct (bar_matches key b) eqn:Eb; [|done]. intros t b'. rewrite lookup_insert.
  case_decide; [|apply Hf]. intros [= <-]. done.
Qed.

(** Neither the main file nor a file it could be recovered from is there. *)
Definition absent (m : gmap path node) : Prop :=
  m !! p = None /\ m !! sibling p ".tmp" = None /\ m !! sibling p ".bak" = None.

(** The file after writes that were not disturbed. *)
Definition intact (m : gmap path node) : Prop :=
  walkable dir m /\
  (absent m \/ exists D, stored key p m D /\ D <> ∅ /\ (size D <= MAX_STORED_BARS)%nat).

Lemma intact_crash cut m : intact m -> intact (crash_nodes cut m).
Proof.
  intros [Hw Hf]. split; [by apply walkable_crash|]. destruct Hf as [(E1 & E2 & E3)|(D & Hst & HD)].
  - left. unfold absent. by rewrite !lookup_crash_nodes, E1, E2, E3.
  - right. exists D. split; [by apply stored_crash|done].
Qed.

Lemma load_absent m :
  walkable dir m -> absent m ->
  load_from_disk dir key (FsWorld m []) =
  (Ok {| ls_bars := ∅; ls_physical_records := 0; ls_recovered_fallback := false |}, FsWorld m []).
Proof.
  intros Hw (E1 & E2 & E3).
  assert (forall x, m !! (x :: dir) = None ->
    fs_is_file (E := AppError) (x :: dir) (FsWorld m []) = (Ok false, FsWorld m [])) as Hf.
  { intros x Hx. unfold fs_is_file, fs_metadata, mbind, mtry, prim, prim_with, lookup_op, mret. simpl.
    by rewrite (Hw x), Hx. }
  unfold load_from_disk. fold p. unfold p, file_path, join in *. cbn [sibling] in *.
  rewrite (mbind_run _ _ _ _ _ (Hf _ E1)). cbn [negb load_fallbacks]. unfold parse_fallback_file.
  unfold mbind at 1. rewrite (mbind_run _ _ _ _ _ (Hf _ E2)). cbn [negb mret].
  unfold mbind at 1. rewrite (mbind_run _ _ _ _ _ (Hf _ E3)). done.
Qed.

(** What a start finds in an intact file. *)
Lemma load_intact m l w' :
  intact m -> load_from_disk dir key (FsWorld m []) = (Ok l, w') ->
  consistent (with_loaded l BufferedSeries_default) m /\ writable (with_loaded l BufferedSeries_default).
Proof.
  intros [Hw [Ha|(D & Hst & Hne & Hsz)]] Hl.
  - rewrite (load_absent m Hw Ha) in Hl. injection Hl as <- _. split; [|by left]. split.
    + split; simpl; [by rewrite map_size_empty; lia|done..].
    + intros _. exists ∅. split; [|done]. unfold stored. by destruct Ha as [-> _].
  - destruct (load_stored_at m D Hw Hst Hne Hsz) as (l' & El & Eb & Ef).
    rewrite El in Hl. injection Hl as <- _. split; [|right; simpl; by rewrite Eb]. split.
    + split; simpl; rewrite ?Eb; [done| |done|].
      * unfold stored in Hst. destruct (m !! p) as [[d s|]|]; [|done..].
        destruct Hst as (_ & _ & n & Hn). by eapply parse_main_matches.
      * intros r. destruct (_ || _); [|done]. intros [= <-]. simpl. lia.
    + intros _. exists D. split; [done|]. intros t. simpl. by rewrite Eb, lookup_empty.
Qed.

(** The life of a series and its file in which no write of the file failed or
    was cut off: starts, updates, flushes that returned [Ok] with the updates
    that came while they wrote, and crashes between the writes.  The files of
    the key are missing at first. *)
Inductive undisturbed : BufferedSeries -> gmap path node -> Prop :=
| first_start m l w' :
    walkable dir m -> absent m ->
    load_from_disk dir key (FsWorld m []) = (Ok l, w') ->
    undisturbed (with_loaded l BufferedSeries_default) m
| updates s m new_bars :
    undisturbed s m -> Forall (fun b => same_key key b = true) new_bars ->
    revision s + Z.of_nat (length new_bars) < u64_max ->
    undisturbed (upsert_series new_bars s).1 m
| flushes s batch (w : fs_world) u w' new_bars :
    undisturbed s (nodes w) -> prepare_flush key s = Some batch ->
    write_batch dir batch w = (Ok u, w') ->
    Forall (fun b => same_key key b = true) new_bars ->
    revision s + Z.of_nat (length new_bars) < u64_max ->
    undisturbed (acknowledge_flush batch (upsert_series new_bars s).1) (nodes w')
| restarts s m cut l w' :
    undisturbed s m ->
    load_from_disk dir key (FsWorld (crash_nodes cut m) []) = (Ok l, w') ->
    undisturbed (with_loaded l BufferedSeries_default) (crash_nodes cut m).

Lemma flush_intact s batch (w : fs_world) u w' :
  consistent s (nodes w) -> writable s -> intact (nodes w) ->
  prepare_flush key s = Some batch -> write_batch dir batch w = (Ok u, w') ->
  intact (nodes w') /\ stored key p (nodes w') (bars s) /\ bars s <> ∅.
Proof.
  intros Hc Hwr [Hw _] Hprep Hwrite. assert (Hwf := Hc). destruct Hwf as [Hwf _].
  destruct (write_batch_stored s batch w u w' Hc Hprep Hwrite) as (D & Hst & HD & Hwalk).
  assert (D = bars s) as -> by by apply map_eq.
  assert (bars s <> ∅) as Hne.
  { destruct Hwr as [Hn|?]; [|done]. unfold prepare_flush in Hprep. rewrite Hn in Hprep.
    case_bool_decide as Hp; [by rewrite bool_decide_true in Hprep|].
    apply map_choose in Hp as (t & e & He). destruct (wf_pending _ _ Hwf t e He) as [Hb _].
    intros E. by rewrite E in Hb. }
  split_and!; [|done..]. split; [auto|]. right. exists (bars s). split_and!; [done..|apply Hwf].
Qed.

Lemma undisturbed_inv s m : undisturbed s m -> consistent s m /\ writable s /\ intact m.
Proof.
  induction 1 as [m l w' Hw Ha Hl|s m new_bars _ (Hc & Hwr & Hi) Hk Hr
                 |s batch w u w' new_bars _ (Hc & Hwr & Hi) Hprep Hwrite Hk Hr|s m cut l w' _ (_ & _ & Hi) Hl].
  - assert (intact m) as Hi by (split; [done|by left]). destruct (load_intact m l w' Hi Hl). done.
  - destruct (upsert_series_updated key s new_bars s Hr Hk (updated_refl key s (proj1 Hc))) as [Hup Hsz].
    split_and!; [by eapply consistent_updated|by apply upsert_series_writable|done].
  - destruct (flush_intact s batch w u w' Hc Hwr Hi Hprep Hwrite) as (Hi' & Hst & Hne).
    destruct (upsert_series_updated key s new_bars s Hr Hk (updated_refl key s (proj1 Hc))) as [Hup Hsz].
    split_and!; [|..|done].
    + by apply (acknowledge_consistent s _ _ _ (bars s)); first [apply Hc|done].
    + destruct (upsert_series_writable new_bars s Hwr) as [Hn|Hn]; [left|by right]. simpl. rewrite Hn.
      by case_match.
  - apply (intact_crash cut) in Hi. destruct (load_intact _ l w' Hi Hl). done.
Qed.
End Flush.

(** C8: As long as no earlier write of its file failed or was cut off, a flush
    that returns [Ok] is durable: whatever updates came between its preparation
    and its acknowledgement, the file then holds the bars the batch was
    prepared from (a crash and a reload give them back), and the series keeps
    every bar changed meanwhile pending: file and pending bars together are
    again the bars of the series.  [torn_append_loses_bar] shows what a write
    that failed halfway costs. *)
Theorem flush_durable `{ErrorText} `{KlineLaws} dir key s0 batch (w : fs_world) u w' new_bars cut :
  undisturbed dir key s0 (nodes w) ->
  prepare_flush key s0 = Some batch -> write_batch dir batch w = (Ok u, w') ->
  Forall (fun b => same_key key b = true) new_bars ->
  revision s0 + Z.of_nat (length new_bars) < u64_max ->
  (exists l w2, load_from_disk dir key (restart cut [] w') = (Ok l, w2) /\ ls_bars l = bars s0) /\
  consistent dir key (acknowledge_flush batch (upsert_series new_bars s0).1) (nodes w').
Proof.
  intros Hd Hprep Hwrite Hk Hr. destruct (undisturbed_inv dir key _ _ Hd) as (Hc & Hwr & Hi).
  destruct (flush_intact dir key s0 batch w u w' Hc Hwr Hi Hprep Hwrite) as ([Hw _] & Hst & Hne).
  split.
  - destruct (load_stored_at dir key (crash_nodes cut (nodes w')) (bars s0)) as (l & Hl & Hb & _).
    + by apply walkable_crash.
    + by apply stored_crash.
    + done.
    + apply Hc.
    + eauto.
  - by apply (undisturbed_inv dir key _ _ (flushes dir key s0 batch w u w' new_bars Hd Hprep Hwrite Hk Hr)).
Qed.

(** ** Queries *)

Section Queries.
Context (key : ChartWorkspaceKey) (s : BufferedSeries) (Hwf : well_formed key s).

Lemma range_times from to :
  map k_open_time (bt_range from to (bars s)) =
  List.filter (fun k => (from <=? k) && (k <=? to)) (bt_keys (bars s)).
Proof.
  unfold bt_range.
  assert (forall ks, (forall k, k ∈ ks -> is_Some (bars s !! k)) ->
    map k_open_time (omap (fun k => bars s !! k) ks) = ks) as Hgen.
  { induction ks as [|k ks IH]; intros Hk; simpl; [done|].
    destruct (Hk k) as [b Hb]; [apply elem_of_cons; by left|]. rewrite Hb. simpl.
    destruct (wf_bars _ _ Hwf k b Hb) as [-> _]. f_equal. apply IH.
    intros k' Hk'. apply Hk, elem_of_cons. by right. }
  apply Hgen. intros k Hk. apply list_elem_of_In, filter_In in Hk as [Hk _].
  by apply bt_keys_spec, list_elem_of_In.
Qed.

Lemma filter_sorted (f : Z -> bool) (l : list Z) :
  StronglySorted Z.lt l -> StronglySorted Z.lt (List.filter f l).
Proof.
  induction 1 as [|x l Hs IH Hf]; simpl; [constructor|]. destruct (f x); [|done].
  constructor; [done|]. rewrite Forall_forall in *. intros y Hy. apply Hf.
  apply list_elem_of_In, filter_In in Hy as [Hy _]. by apply list_elem_of_In.
Qed.

Lemma range_elem from to b :
  b ∈ bt_range from to (bars s) <->
  bars s !! k_open_time b = Some b /\ from <= k_open_time b <= to.
Proof.
  unfold bt_range. rewrite list_elem_of_omap. split.
  - intros (k & Hk & Hb). apply list_elem_of_In, filter_In in Hk as [_ Hr]. bools.
    destruct (wf_bars _ _ Hwf k b Hb) as [<- _].
    rewrite Z.leb_le in *. done.
  - intros [Hb Hr]. exists (k_open_time b). split; [|done].
    apply list_elem_of_In, filter_In. split; [apply list_elem_of_In, bt_keys_spec; eauto|].
    apply andb_true_iff. rewrite !Z.leb_le. done.
Qed.

Lemma sorted_app_lt (l1 l2 : list Z) x y :
  StronglySorted Z.lt (l1 ++ l2)%list -> x ∈ l1 -> y ∈ l2 -> x < y.
Proof.
  induction l1 as [|z l1 IH]; simpl; intros Hs Hx Hy; [by apply elem_of_nil in Hx|].
  apply StronglySorted_inv in Hs as [Hs Hf]. apply elem_of_cons in Hx as [->|Hx]; [|by apply IH].
  rewrite Forall_forall in Hf. apply Hf, elem_of_app. by right.
Qed.
End Queries.

(** A range query answers the newest bars of the range, in order of time: at
    most the limit, none outside the range, and a bar of the range is left out
    only when the limit is reached by newer ones. *)
Theorem load_range_newest key s from to limit :
  well_formed key s ->
  let result := range_of from to limit s in
  StronglySorted Z.lt (map k_open_time result) /\
  (length result <= clamp 1 MAX_STORED_BARS limit)%nat /\
  (forall b, b ∈ result -> bars s !! k_open_time b = Some b /\
     default i64_min from <= k_open_time b <= default i64_max to) /\
  (forall b, bars s !! k_open_time b = Some b ->
     default i64_min from <= k_open_time b <= default i64_max to -> b ∉ result ->
     length result = clamp 1 MAX_STORED_BARS limit /\
     forall b', b' ∈ result -> k_open_time b < k_open_time b').
Proof.
  intros Hwf. unfold range_of. cbv zeta.
  set (lo := default i64_min from). set (hi := default i64_max to). set (n := clamp 1 MAX_STORED_BARS limit).
  set (found := bt_range lo hi (bars s)).
  assert (Hsorted : StronglySorted Z.lt (map k_open_time found)).
  { unfold found. rewrite (range_times key s Hwf). apply filter_sorted, bt_keys_lt. }
  destruct (Nat.ltb_spec n (length found)) as [Hlt|Hle].
  - set (k := (length found - n)%nat).
    assert (Hsplit : (map k_open_time (take k found) ++ map k_open_time (drop k found))%list = map k_open_time found).
    { by rewrite <- map_app, take_drop. }
    rewrite <- Hsplit in Hsorted.
    assert (Hlen : length (drop k found) = n) by (rewrite length_drop; lia).
    split_and!.
    + clear -Hsorted. revert Hsorted. generalize (map k_open_time (take k found)). intros l1.
      induction l1 as [|x l1 IH]; simpl; [done|]. intros Hs. by apply StronglySorted_inv in Hs as [Hs%IH _].
    + lia.
    + intros b Hb. apply (range_elem key s Hwf). fold found.
      rewrite <- (take_drop k found). apply elem_of_app. by right.
    + intros b Hb Hr Hout. split; [done|]. intros b' Hb'.
      assert (b ∈ found) as Hin by (by apply (range_elem key s Hwf)).
      rewrite <- (take_drop k found) in Hin. apply elem_of_app in Hin as [Hin|Hin]; [|done].
      eapply sorted_app_lt; [exact Hsorted| |].
      * apply list_elem_of_In, in_map. by apply list_elem_of_In.
      * apply list_elem_of_In, in_map. by apply list_elem_of_In.
  - split_and!; [done|done| |].
    + intros b Hb. by apply (range_elem key s Hwf).
    + intros b Hb Hr Hout. exfalso. apply Hout. by apply (range_elem key s Hwf).
Qed.

(** [t] lies in a reported gap. *)
Definition in_gap (gaps : list (Z * Z)) (t : Z) : Prop := exists a b, (a, b) ∈ gaps /\ a <= t <= b.

(** The last bar of a series. *)
Fixpoint final_bar (prev : Kline) (rest : list Kline) : Kline :=
  match rest with [] => prev | next :: rest => final_bar next rest end.

(** On a series sorted by time whose bars lie on the grid of the interval,
    every grid time from the first bar to the last has its bar or lies in
    exactly a reported gap: gaps miss nothing and report nothing present. *)
Theorem detect_gaps_exact prev rest interval_ms t :
  0 < interval_ms ->
  StronglySorted Z.lt (map k_open_time (prev :: rest)) ->
  Forall (fun k => (k_open_time k - k_open_time prev) mod interval_ms = 0) rest ->
  (t - k_open_time prev) mod interval_ms = 0 ->
  k_open_time prev <= t <= k_open_time (final_bar prev rest) ->
  (in_gap (detect_gaps (prev :: rest) interval_ms) t <->
   ~ exists k, k ∈ (prev :: rest) /\ k_open_time k = t).
Proof.
  intros Hi. unfold detect_gaps. destruct (Z.leb_spec interval_ms 0) as [|_]; [lia|].
  revert prev. induction rest as [|next rest IH]; intros prev Hs Hg Ht Hr.
  { simpl in Hr. split.
    - intros (a & b & Hab%elem_of_nil & _). done.
    - intros Hn. exfalso. apply Hn. exists prev. split; [apply elem_of_cons; by left|lia]. }
  simpl map in Hs. apply StronglySorted_inv in Hs as [Hs Hf].
  assert (Hpn : k_open_time prev < k_open_time next).
  { rewrite Forall_forall in Hf. apply Hf, elem_of_cons. by left. }
  assert (Hnt : forall k, k ∈ rest -> k_open_time next < k_open_time k).
  { intros k Hk. simpl in Hs. apply StronglySorted_inv in Hs as [_ Hf2]. rewrite Forall_forall in Hf2.
    apply Hf2, list_elem_of_In, in_map. by apply list_elem_of_In. }
  apply Forall_cons_1 in Hg as [Hgn Hg].
  assert (Hgaps_after : forall a b, (a, b) ∈ detect_gaps_from next rest interval_ms -> k_open_time next + interval_ms <= a).
  { clear -Hi Hs. revert next Hs. induction rest as [|k rest IH]; intros next Hs a b Hab; [by apply elem_of_nil in Hab|].
    simpl in Hs. apply StronglySorted_inv in Hs as [Hs Hf].
    assert (k_open_time next < k_open_time k) by (rewrite Forall_forall in Hf; apply Hf, elem_of_cons; by left).
    simpl in Hab. apply elem_of_app in Hab as [Hab|Hab].
    - destruct (_ <? _); [|by apply elem_of_nil in Hab]. apply list_elem_of_singleton in Hab as [= -> ->]. lia.
    - specialize (IH k Hs a b Hab). lia. }
  destruct (Z_lt_ge_dec t (k_open_time next)) as [Hlt|Hge].
  - (* between the first two bars *)
    split.
    + intros (a & b & Hab & Hrange) (k & Hk & Hkt). simpl in Hab. apply elem_of_app in Hab as [Hab|Hab].
      * destruct (Z.ltb_spec (k_open_time prev + interval_ms) (k_open_time next)); [|by apply elem_of_nil in Hab].
        apply list_elem_of_singleton in Hab as [= -> ->].
        apply elem_of_cons in Hk as [->|Hk]; [lia|]. apply elem_of_cons in Hk as [->|Hk]; [lia|].
        specialize (Hnt k Hk). lia.
      * specialize (Hgaps_after a b Hab). lia.
    + intros Hn. assert (k_open_time prev <> t) as Hpt.
      { intros E. apply Hn. exists prev. split; [apply elem_of_cons; by left|done]. }
      apply Z.mod_divide in Ht as [q Hq]; [|lia]. apply Z.mod_divide in Hgn as [r Hr']; [|lia].
      assert (1 <= q) by nia. assert (q + 1 <= r) by nia.
      exists (k_open_time prev + interval_ms), (k_open_time next - interval_ms). split.
      * simpl. apply elem_of_app. left.
        destruct (Z.ltb_spec (k_open_time prev + interval_ms) (k_open_time next)); [|nia].
        by apply list_elem_of_singleton.
      * nia.
  - (* from the second bar on *)
    specialize (IH next Hs). destruct IH as [IH1 IH2].
    + apply Forall_forall. intros k Hk. rewrite Forall_forall in Hg. specialize (Hg k Hk).
      apply Z.mod_divide; [lia|]. apply Z.mod_divide in Hg as [q Hq]; [|lia].
      apply Z.mod_divide in Hgn as [r Hr']; [|lia]. exists (q - r). lia.
    + apply Z.mod_divide; [lia|]. apply Z.mod_divide in Ht as [q Hq]; [|lia].
      apply Z.mod_divide in Hgn as [r Hr']; [|lia]. exists (q - r). lia.
    + simpl in Hr. lia.
    + split.
      * intros (a & b & Hab & Hrange). simpl in Hab. apply elem_of_app in Hab as [Hab|Hab].
        { destruct (_ <? _); [|by apply elem_of_nil in Hab].
          apply list_elem_of_singleton in Hab as [= -> ->]. lia. }
        intros (k & Hk & Hkt). apply elem_of_cons in Hk as [->|Hk]; [lia|].
        revert Hk Hkt. assert (in_gap (detect_gaps_from next rest interval_ms) t) as Hin by (by exists a, b).
        intros Hk Hkt. apply (IH1 Hin). eauto.
      * intros Hn. destruct IH2 as (a & b & Hab & Hrange).
        { intros (k & Hk & Hkt). apply Hn. exists k. split; [apply elem_of_cons; by right|done]. }
        exists a, b. split; [|done]. simpl. apply elem_of_app. by right.
Qed.

Lemma lines_unfinished (d line : string) :
  clean d = true -> forallb (fun b => negb (b =? 10)) (bytes_of line) = true ->
  lines (d +:+ (line +:+ String newline "")) = (lines d ++ [drop_last_cr line])%list.
Proof.
  intros Hc Hl. rewrite lines_app by done. f_equal. unfold lines. by rewrite split_lines_line.
Qed.

Lemma bytes_of_app a b : bytes_of (a +:+ b) = (bytes_of a ++ bytes_of b)%list.
Proof.
  induction a as [|c a IH]; [done|]. change (bytes_of (String c (a +:+ b)) = bytes_of (String c a) ++ bytes_of b)%list.
  unfold bytes_of in *. simpl. by f_equal.
Qed.

(** A write that failed halfway costs the next bar: when the file ends in a
    fragment without a newline, a later flush of one bar returns [Ok], yet the
    file reads as if the bar had never been written. *)
Theorem torn_append_loses_bar `{ErrorText} `{KlineLaws} dir key d s frag pe text (w : fs_world) u w' D n revision :
  let p := file_path dir key in
  nodes w !! p = Some (File (d +:+ frag) s) ->
  clean d = true -> parse_main_lines key (lines d) ∅ 0 = Ok (D, n) ->
  encode (pe_kline pe) = Some text ->
  forallb (fun b => negb (b =? 10)) (bytes_of frag) = true ->
  utf8_valid (bytes_of (drop_last_cr (frag +:+ text))) = true ->
  decode (drop_last_cr (frag +:+ text)) = None ->
  append_batch dir {| fb_key := key; fb_entries := [pe]; fb_snapshot := [pe_kline pe];
                      fb_snapshot_revision := revision; fb_compact := false |} w = (Ok u, w') ->
  exists contents, nodes w' !! p = Some (File contents true) /\
    parse_main_lines key (lines contents) ∅ 0 = Ok (D, n + 1).
Proof.
  intros p Hp Hc Hparse He Hf Hu Hdec Hr. unfold append_batch, kio in Hr. simpl in Hr.
  fold p in Hr. run_ok.
  match goal with Ho : fs_open_append _ _ = _ |- _ => apply open_append_ok in Ho as Hopen end.
  rewrite Hp in Hopen. unfold kio in *. run_ok.
  repeat match goal with Hw : fs_write_all _ _ _ = (Ok _, _) |- _ => apply write_all_ok in Hw end.
  unfold append_bytes in *.
  match goal with Ha : encode _ = Some ?t |- _ => assert (t = text) as -> by congruence end.
  match goal with Ha : nodes ?w1 = match nodes ?w0 !! p with _ => _ end, Hb : nodes ?w2 = match nodes ?w1 !! p with _ => _ end |- _ =>
    rewrite Hopen, Hp in Ha; rewrite Ha, lookup_insert_eq, insert_insert_eq in Hb end.
  eapply sync_all_ok in Hr.
  2: { match goal with Hb : nodes ?w2 = _ |- nodes ?w2 !! p = _ => by rewrite Hb, lookup_insert_eq end. }
  eexists. split; [by rewrite Hr, lookup_insert_eq|].
  rewrite !append_assoc, <- (append_assoc frag), lines_unfinished; [|done|].
  - rewrite parse_main_lines_app, Hparse. cbn [obind fst snd]. cbn [parse_main_lines].
    rewrite Hu, Hdec. cbn [negb]. by destruct (trim_is_empty _).
  - destruct (kline_one_line _ _ He) as [Hl _]. rewrite bytes_of_app, forallb_app. by rewrite Hf, Hl.
Qed.
