(* ===== verification/Workflow.v ===== *)
(** plugin/workflow/contract.rs and host.rs: what a plugin may ask for, the
    proposals it may make, and the snapshot it decides on.  Canonical texts of
    counters and decimals, with the theorems that they are fixed points. *)
From Stdlib Require Import Ascii.
From S2P Require Import Prelude RustStr External Models.

Definition workflow_error (code : string) : AppError :=
  Plugin code "插件账户工作流未完成，请重新检查授权和账户状态" None.

(** [values.iter().any(|v| v == c)]. *)
Definition has (values : list string) (c : string) : bool :=
  existsb (fun v => v ==s c) values.

Definition CAPABILITIES : list string :=
  ["account.read"; "balances.read"; "positions.read"; "orders.read"; "market.read";
   "trade.place"; "trade.cancel"].

(** The loop over the names, with the set of those already seen. *)
Fixpoint all_new (allowed : string -> bool) (seen values : list string) : bool :=
  match values with
  | [] => true
  | value :: rest =>
      if negb (allowed value) || has seen value then false
      else all_new allowed (value :: seen) rest
  end.

Definition validate_capabilities (values : list string) : outcome string unit :=
  if negb (all_new (fun v => one_of v CAPABILITIES) [] values)
  then Err "invalid or duplicate capability"
  else match values with
       | [] => Ok tt
       | _ => guard (negb (has values "account.read")) "account.read required"
       end.

Section Input.
Context `{Codec json}.

Definition validate_input (value : string) : outcome string unit :=
  guard ((4096 <? len value)
         || negb match decode value with
                 | Some v => bool_decide (is_Some (as_object v))
                 | None => false
                 end)
    "input must be a bounded JSON object".
End Input.

(** ** Identifiers (plugin/manifest.rs) *)

Definition MAX_IDENTIFIER_LENGTH : Z := 128.
Definition MAX_IDENTIFIER_SEGMENT_LENGTH : Z := 63.

(** [value.split('.')]: the current segment is accumulated in reverse. *)
Fixpoint split_dots (s acc : string) : list string :=
  match s with
  | EmptyString => [string_rev acc]
  | String c s' =>
      if Ascii.eqb c "."%char then string_rev acc :: split_dots s' ""
      else split_dots s' (String c acc)
  end.

Definition domain_label (segment : string) : bool :=
  forallb (fun b => is_ascii_lowercase b || is_ascii_digit b || (b =? 45)) (bytes_of segment)
  && negb (starts_with segment "-") && negb (ends_with segment "-").

Fixpoint validate_segments (segments : list string) : outcome string unit :=
  match segments with
  | [] => Ok tt
  | segment :: rest =>
      if is_empty segment || (MAX_IDENTIFIER_SEGMENT_LENGTH <? len segment)
      then Err "identifier has an empty or oversized segment"
      else if negb (domain_label segment)
      then Err "identifier segments must be lowercase ASCII domain labels"
      else validate_segments rest
  end.

Definition validate_reverse_domain (value : string) : outcome string unit :=
  if MAX_IDENTIFIER_LENGTH <? len value then Err "identifier exceeds 128 bytes"
  else
    let segments := split_dots value "" in
    if (length segments <? 2)%nat then Err "identifier must contain at least two segments"
    else validate_segments segments.

(** ** Canonical scalars *)

Definition counter (value : string) : outcome AppError Z :=
  ok_or (workflow_error "plugin_workflow_invalid_request")
    (match parse_u64 value with
     | Some v => if u64_to_string v ==s value then Some v else None
     | None => None
     end).

Definition symbol (value : string) : outcome AppError unit :=
  guard (negb ((1 <=? len value) && (len value <=? 32))
         || negb (forallb (fun b => is_ascii_uppercase b || is_ascii_digit b) (bytes_of value)))
    (workflow_error "plugin_workflow_invalid_request").

Definition bounded_id (value : string) : bool :=
  negb (trim_is_empty value) && (len value <=? 128) && negb (any_control value).

Section Decimals.
Context `{DecimalLib}.

Definition invalid_output : AppError := workflow_error "plugin_workflow_invalid_output".

Definition decimal_chars (value : string) (positive : bool) : bool :=
  negb (is_empty value) && (len value <=? 64)
  && forallb (fun b => is_ascii_digit b || (b =? 46) || (negb positive && (b =? 45)))
       (bytes_of value).

Definition decimal (value : string) (positive : bool) : outcome AppError string :=
  let? _ := guard (negb (decimal_chars value positive)) invalid_output in
  let? parsed := ok_or invalid_output (dec_from_str_exact value) in
  let unsigned := default value (strip_prefix "-" value) in
  let? _ := guard (starts_with unsigned "." || ends_with unsigned ".") invalid_output in
  let? _ := guard (positive && dec_leb parsed dec_zero) invalid_output in
  Ok (dec_to_string (dec_normalize parsed)).
End Decimals.

(** ** Requests and proposals *)

Record AuthorityRequest := {
  ar_plugin_id : string;
  ar_contribution_id : string;
  ar_expected_catalog_generation : string;
  ar_expected_revision : string;
}.
#[export] Instance AuthorityRequest_eq_dec : EqDecision AuthorityRequest.
Proof. solve_decision. Defined.

Definition plugin_id_ok (id : string) : bool := is_ok (validate_reverse_domain id).

Definition AuthorityRequest_validate (r : AuthorityRequest) : outcome AppError unit :=
  let? _ := guard (negb (plugin_id_ok (ar_plugin_id r)))
              (workflow_error "plugin_workflow_invalid_request") in
  let? _ := guard (negb (plugin_id_ok (ar_contribution_id r)))
              (workflow_error "plugin_workflow_invalid_request") in
  let? _ := counter (ar_expected_catalog_generation r) in
  let? _ := counter (ar_expected_revision r) in
  Ok tt.

Record Account := {
  account_id : string;
  session_epoch : string;
  environment : string;
}.
#[export] Instance Account_eq_dec : EqDecision Account.
Proof. solve_decision. Defined.

Record PlaceProposal := {
  pp_symbol : string;
  pp_side : string;
  pp_order_type : string;
  pp_qty : string;
  pp_price : option string;
  pp_time_in_force : string;
  pp_position_idx : Z;
  pp_reduce_only : bool;
}.
#[export] Instance PlaceProposal_eq_dec : EqDecision PlaceProposal.
Proof. solve_decision. Defined.

Record CancelProposal := { cp_symbol : string; cp_order_id : string }.
#[export] Instance CancelProposal_eq_dec : EqDecision CancelProposal.
Proof. solve_decision. Defined.

Inductive WorkflowOutput :=
| Display (text : string)
| PlaceOrder (order : PlaceProposal)
| CancelOrder (order : CancelProposal).

Record Section_ (T : Type) := { items : list T; fetched_at_ms : string; partial : bool }.
Arguments items {T} _.
Arguments fetched_at_ms {T} _.
Arguments partial {T} _.
Arguments Build_Section_ {T} _ _ _.

Definition is_working (status : OrderStatus) : bool :=
  match status with New | PartiallyFilled => true | _ => false end.

Section Outputs.
Context `{DecimalLib}.

(** The index a hedged position of that side has. *)
Definition expected_position_idx (side : string) (reduce_only : bool) : Z :=
  if negb (Bool.eqb (side ==s "Buy") reduce_only) then 1 else 2.

Definition with_qty_price (qty : string) (price : option string) (o : PlaceProposal)
    : PlaceProposal :=
  {| pp_symbol := pp_symbol o; pp_side := pp_side o; pp_order_type := pp_order_type o;
     pp_qty := qty; pp_price := price; pp_time_in_force := pp_time_in_force o;
     pp_position_idx := pp_position_idx o; pp_reduce_only := pp_reduce_only o |}.

(** The [PlaceOrder] arm of [WorkflowOutput::validate]. *)
Definition validate_place (order : PlaceProposal) (expected_symbol : string)
    (capabilities : list string) : outcome AppError PlaceProposal :=
  let? _ := guard (negb (has capabilities "trade.place"))
              (workflow_error "plugin_workflow_denied") in
  let? _ := guard ((pp_symbol order !=s expected_symbol)
                   || negb (one_of (pp_side order) ["Buy"; "Sell"])
                   || negb (pp_position_idx order
                            =? expected_position_idx (pp_side order) (pp_reduce_only order)))
              invalid_output in
  let? _ := symbol (pp_symbol order) in
  let? qty := decimal (pp_qty order) true in
  if (pp_order_type order ==s "Limit")
     && one_of (pp_time_in_force order) ["GTC"; "IOC"; "FOK"] then
    let? price := ok_or invalid_output (pp_price order) in
    let? price := decimal price true in
    Ok (with_qty_price qty (Some price) order)
  else if (pp_order_type order ==s "Market") && bool_decide (pp_price order = None)
          && (pp_time_in_force order ==s "IOC") then
    Ok (with_qty_price qty (pp_price order) order)
  else Err invalid_output.

(** The [CancelOrder] arm. *)
Definition validate_cancel (order : CancelProposal) (expected_symbol : string)
    (capabilities : list string) (orders : option (Section_ Order))
    : outcome AppError CancelProposal :=
  let? _ := guard (negb (has capabilities "trade.cancel") || negb (has capabilities "orders.read"))
              (workflow_error "plugin_workflow_denied") in
  let? _ := guard ((cp_symbol order !=s expected_symbol)
                   || negb (bounded_id (cp_order_id order))
                   || negb match orders with
                           | Some section =>
                               existsb (fun v => (o_symbol v ==s expected_symbol)
                                          && (o_order_id v ==s cp_order_id order)
                                          && is_working (o_status v)) (items section)
                           | None => false
                           end)
              invalid_output in
  Ok order.

Definition validate_output (output : WorkflowOutput) (expected_symbol : string)
    (capabilities : list string) (orders : option (Section_ Order))
    : outcome AppError WorkflowOutput :=
  match output with
  | Display text =>
      let? _ := guard (2000 <? len text) invalid_output in Ok output
  | PlaceOrder order =>
      let? order := validate_place order expected_symbol capabilities in
      Ok (PlaceOrder order)
  | CancelOrder order =>
      let? order := validate_cancel order expected_symbol capabilities orders in
      Ok (CancelOrder order)
  end.
End Outputs.

(** ** host.rs: the snapshot a decision is made on *)

Record Balance := { b_asset : string; b_available : string; b_frozen : string; b_total : string }.
Record Position := {
  po_symbol : string;
  po_side : string;
  po_size : string;
  po_entry_price : string;
  po_leverage : string;
  po_unrealised_pnl : string;
  po_position_idx : Z;
}.
Record Quote := {
  q_symbol : string;
  q_last_price : string;
  q_bid_price : string;
  q_ask_price : string;
  q_mark_price : string;
}.
Record MarketSection := { ms_ticker : Quote; ms_fetched_at_ms : string }.

Record Snapshot := {
  sn_schema_version : Z;
  sn_account : Account;
  sn_captured_at_ms : string;
  sn_symbol : string;
  sn_granted_capabilities : list string;
  sn_balances : option (Section_ Balance);
  sn_positions : option (Section_ Position);
  sn_orders : option (Section_ Order);
  sn_market : option MarketSection;
}.

Record AccountAuthority := { au_account : Account; au_private_session : string }.
#[export] Instance AccountAuthority_eq_dec : EqDecision AccountAuthority.
Proof. solve_decision. Defined.

(** The reads of the [WorkflowHost] trait, over the world [X] of the host. *)
Class WorkflowHost (X : Type) := {
  host_now_ms : M X AppError Z;
  host_balances : M X AppError (list Balance);
  host_positions : string -> M X AppError (list Position);
  host_orders : string -> M X AppError (list Order);
  host_market : string -> M X AppError Quote;
}.

Section Host.
Context `{DecimalLib}.

Fixpoint decimals (values : list string) (positive : bool) : outcome AppError unit :=
  match values with
  | [] => Ok tt
  | value :: rest => let? _ := decimal value positive in decimals rest positive
  end.

Fixpoint check_all {A} (check : A -> outcome AppError unit) (xs : list A)
    : outcome AppError unit :=
  match xs with
  | [] => Ok tt
  | x :: rest => let? _ := check x in check_all check rest
  end.

Definition validate_order (o : Order) (expected_symbol : string) : outcome AppError unit :=
  let? _ := guard (negb (bounded_id (o_order_id o))
                   || (o_symbol o !=s expected_symbol)
                   || negb (one_of (o_side o) ["Buy"; "Sell"])
                   || negb (one_of (o_order_type o) ["Market"; "Limit"])
                   || match o_order_link_id o with Some id => negb (bounded_id id) | None => false end)
              (workflow_error "plugin_workflow_data_unavailable") in
  let? _ := if (o_order_type o ==s "Market") && is_empty (o_price o) then Ok tt
            else let? _ := decimal (o_price o) false in Ok tt in
  decimals [o_qty o; o_filled_qty o; o_avg_price o] false.

Definition validate_balance (b : Balance) : outcome AppError unit :=
  let? _ := symbol (b_asset b) in
  decimals [b_available b; b_frozen b; b_total b] false.

Definition validate_position (symbol_value : string) (p : Position) : outcome AppError unit :=
  let? _ := guard ((po_symbol p !=s symbol_value)
                   || negb (one_of (po_side p) ["Buy"; "Sell"])
                   || negb ((0 <=? po_position_idx p) && (po_position_idx p <=? 2)))
              (workflow_error "plugin_workflow_data_unavailable") in
  decimals [po_size p; po_entry_price p; po_leverage p; po_unrealised_pnl p] false.

Definition validate_quote (symbol_value : string) (q : Quote) : outcome AppError unit :=
  let? _ := guard (q_symbol q !=s symbol_value)
              (workflow_error "plugin_workflow_data_unavailable") in
  decimals [q_last_price q; q_bid_price q; q_ask_price q; q_mark_price q] true.

Context {X : Type} `{WorkflowHost X}.

Definition safe {A} (c : M X AppError A) : M X AppError A :=
  mmap_err (fun _ => workflow_error "plugin_workflow_data_unavailable") c.

(** One of the three list sections: fetched, stamped, cut to 100 and checked. *)
Definition fetch_section {A} (granted : bool) (fetch : M X AppError (list A))
    (check : A -> outcome AppError unit) : M X AppError (option (Section_ A)) :=
  if granted then
    let* found := safe fetch in
    let* now := host_now_ms in
    let found := take 100 found in
    let* _ := safe (mlift (check_all check found)) in
    mret (Some {| items := found; fetched_at_ms := u64_to_string now; partial := true |})
  else mret None.

Definition snapshot_locked (authority : AccountAuthority) (symbol_value : string)
    (capabilities : list string) : M X AppError Snapshot :=
  let* balances := fetch_section (has capabilities "balances.read") host_balances
                     validate_balance in
  let* positions := fetch_section (has capabilities "positions.read")
                      (host_positions symbol_value) (validate_position symbol_value) in
  let* orders := fetch_section (has capabilities "orders.read") (host_orders symbol_value)
                   (fun o => validate_order o symbol_value) in
  let* market :=
    (if has capabilities "market.read" then
       let* ticker := safe (host_market symbol_value) in
       let* now := host_now_ms in
       let* _ := safe (mlift (validate_quote symbol_value ticker)) in
       mret (Some {| ms_ticker := ticker; ms_fetched_at_ms := u64_to_string now |})
     else mret None) in
  let* now := host_now_ms in
  mret {| sn_schema_version := 1; sn_account := au_account authority;
          sn_captured_at_ms := u64_to_string now; sn_symbol := symbol_value;
          sn_granted_capabilities := capabilities; sn_balances := balances;
          sn_positions := positions; sn_orders := orders; sn_market := market |}.
End Host.

(** ** contract.rs: the module of a workflow *)

Record PluginWorkflowParams := {
  wp_runtime : string;
  wp_abi : string;
  wp_module_base64 : string;
  wp_default_input : string;
}.

Definition wasm_magic : string :=
  String.string_of_list_ascii (map ascii_of_nat [0; 97; 115; 109; 1; 0; 0; 0]%nat).

Section Modules.
Context `{Codec json} `{Base64Lib}.

Definition module_bytes (p : PluginWorkflowParams) : outcome string string :=
  (* 8192.div_ceil(3) * 4 *)
  let? _ := guard (2731 * 4 <? len (wp_module_base64 p)) "module too large" in
  let? bytes := ok_or "invalid module encoding" (b64_decode (wp_module_base64 p)) in
  let? _ := guard ((8192 <? len bytes) || negb (starts_with bytes wasm_magic)
                   || (b64_encode bytes !=s wp_module_base64 p))
              "invalid module encoding" in
  Ok bytes.

Definition PluginWorkflowParams_validate (p : PluginWorkflowParams) : outcome string unit :=
  let? _ := guard ((wp_runtime p !=s "wasm-v1") || (wp_abi p !=s "account-json-v1"))
              "unsupported workflow ABI" in
  let? _ := validate_input (wp_default_input p) in
  let? _ := module_bytes p in
  Ok tt.
End Modules.
