(* ===== verification/Mapper.v ===== *)
(** api/response.rs, api/mapper.rs and the receipts of api/private.rs: what the
    desktop reads out of an exchange payload, and what it writes into one. *)
From stdpp Require Import gmap.
From Stdlib Require Import Ascii.
From S2P Require Import Prelude RustStr External Models BTreeMap KlineStore Workflow.

(** ** Records of models/market.rs *)

Record DepthLevel := { dl_price : string; dl_qty : string }.
Record Depth := { d_symbol : string; d_bids : list DepthLevel; d_asks : list DepthLevel }.

(** ** response.rs *)

Definition is_object (v : json) : bool := match v with JObject _ => true | _ => false end.
Definition is_number (v : json) : bool :=
  match v with JPosInt _ | JNegInt _ | JFloat _ => true | _ => false end.
Definition json_has (key : string) (v : json) : bool := bool_decide (is_Some (json_get key v)).

Definition SUCCESS_CODES : list string := ["0"; "200"; "SUCCESS"; "success"].

Definition LIST_KEYS : list string :=
  ["list"; "items"; "records"; "orders"; "positions"; "balances"; "tickers"; "kline"; "klines";
   "fills"; "rows"; "result"; "dataList"; "orderList"; "positionList"; "order_list";
   "position_list"].

Definition classify_auth_failure (http_status : option Z) (payload : json) : AuthFailureKind :=
  match http_status with
  | Some 403 => RateLimited
  | _ =>
      match json_get "code" payload with
      | Some code =>
          match as_i64_value code with
          | Some (26200003 | 20011005) => SessionExpired
          | Some 26200002 => Timestamp
          | Some 26200004 => Signature
          | Some (26200005 | 26200008 | 26200010) => AccessDenied
          | Some (26200006 | 26200018) => RateLimited
          | _ => AuthOther
          end
      | None => AuthOther
      end
  end.

Definition extract_data (payload : json) : json := default payload (json_get "data" payload).

Record ListEnvelopeMeta := { hint : string; raw_count : Z }.

Definition is_entity_object (obj : json) : bool :=
  json_has "orderId" obj || json_has "order_id" obj || json_has "orderLinkId" obj
  || json_has "order_link_id" obj
  || (json_has "symbol" obj && (json_has "side" obj || json_has "size" obj))
  || (json_has "symbol" obj && (json_has "position_idx" obj || json_has "positionIdx" obj)).

(** The array with the most objects, the first one of a draw. *)
Fixpoint collect_object_arrays (value : json) (path : string)
    (best : option (list json * string * nat)) : option (list json * string * nat) :=
  match value with
  | JArray arr =>
      let object_count := length (List.filter is_object arr) in
      if (object_count =? 0)%nat then best
      else match best with
           | Some (_, _, count) =>
               if (count <? object_count)%nat then Some (arr, path, object_count) else best
           | None => Some (arr, path, object_count)
           end
  | JObject members =>
      (fix each (ms : list (string * json)) (best : option (list json * string * nat)) :=
         match ms with
         | [] => best
         | (key, child) :: rest =>
             each rest
               (if one_of key ["symbol"; "interval"; "coin"; "cursor"; "total"] then best
                else collect_object_arrays child (path +:+ "." +:+ key) best)
         end) members best
  | _ => best
  end.

Definition find_best_object_array (value : json) : option (list json * string) :=
  option_map fst (collect_object_arrays value "data" None).

Definition extract_list_with_meta (payload : json) : list json * ListEnvelopeMeta :=
  let data := extract_data payload in
  let counted items hint := (items, {| hint := hint; raw_count := Z.of_nat (length items) |}) in
  match data with
  | JArray arr => counted arr "data[]"
  | JObject _ =>
      let listed := find_map (fun key =>
        match json_get key data with Some (JArray arr) => Some (key, arr) | _ => None end) LIST_KEYS in
      match listed with
      | Some (key, arr) => counted arr ("data." +:+ key)
      | None =>
          match find_best_object_array data with
          | Some (items, hint) => counted items hint
          | None => if is_entity_object data then counted [data] "data(entity)" else counted [] "empty"
          end
      end
  | _ => counted [] "empty"
  end.

Definition extract_list (payload : json) : list json := fst (extract_list_with_meta payload).

Definition code_matches_success (code : json) : bool :=
  match as_i64_value code with
  | Some n => (n =? 0) || (n =? 200)
  | None => match as_str code with Some s => one_of s SUCCESS_CODES | None => false end
  end.

Definition is_success_response (payload : json) : bool :=
  match find_map (fun field => json_get field payload) ["code"; "errorCode"; "status"] with
  | Some code => code_matches_success code
  | None => true
  end.

Inductive CreateOrderOutcome := OrderAccepted (candidate : json) | OrderRejected | Ambiguous.

Definition code_is_zero (payload : json) : bool :=
  match json_get "code" payload with
  | Some code => bool_decide (as_i64_value code = Some 0)
  | None => false
  end.

Definition classify_create_order_outcome (payload : json) : CreateOrderOutcome :=
  if negb (code_is_zero payload) then Ambiguous
  else match json_get "data" payload with
       | Some (JObject _ as candidate) =>
           let status := find_map (fun key => json_get key candidate ≫= as_str)
                           ["status"; "orderStatus"; "order_status"] in
           if match status with
              | Some s => bool_decide (OrderStatus_from_raw s = Rejected)
              | None => false
              end
           then OrderRejected
           else match json_get "order_id" candidate ≫= as_str with
                | Some order_id =>
                    if negb (trim_is_empty order_id) then OrderAccepted candidate else Ambiguous
                | None => Ambiguous
                end
       | _ => Ambiguous
       end.

(** ** mapper.rs *)

(** serde_json's text of a value. *)
Class JsonText := { json_text : json -> string }.

Definition DEFAULT_SETTLE_COIN : string := "USDT".

Section Mapper.
Context `{JsonText} `{DecimalLib}.

(** The first key whose member is a text or a number; any other is passed over. *)
Definition get_str (value : json) (keys : list string) : option string :=
  find_map (fun key =>
    match json_get key value with
    | Some (JString s) => Some s
    | Some v => if is_number v then Some (json_text v) else None
    | None => None
    end) keys.

Definition list_envelope_meta (payload : json) : ListEnvelopeMeta := snd (extract_list_with_meta payload).

Definition parse_decimal_value (raw : string) : Dec := default dec_zero (dec_from_str (trim raw)).

Definition is_zero_size (raw : string) : bool :=
  trim_is_empty raw || dec_eqb (parse_decimal_value raw) dec_zero.

(** [as_i64], else [as_u64 as i64], else the text parsed. *)
Definition parse_i64_value (value : json) : option Z :=
  match as_i64_value value with
  | Some n => Some n
  | None =>
      match as_u64_value value with
      | Some n => Some (as_i64 n)
      | None => as_str value ≫= parse_i64
      end
  end.

(** [n as i32]. *)
Definition as_i32 (z : Z) : Z :=
  let r := z mod 2 ^ 32 in if r <? 2 ^ 31 then r else r - 2 ^ 32.

Definition parse_i32_value (value : json) : Z := as_i32 (default 0 (parse_i64_value value)).

Definition normalize_open_time_ms (value : Z) : Z :=
  if (0 <? value) && (value <? 10000000000) then value * 1000 else value.

(** The text of an item, without double quotes around it. *)
Definition quote : ascii := Ascii.ascii_of_nat 34.
Definition bare_text (item : json) : string := trim_matches quote (json_text item).

Definition parse_level (item : json) : option DepthLevel :=
  match item with
  | JArray (price :: qty :: _) => Some {| dl_price := bare_text price; dl_qty := bare_text qty |}
  | JObject _ =>
      Some {| dl_price := default "" (get_str item ["price"; "p"]);
              dl_qty := default "" (get_str item ["qty"; "size"; "q"]) |}
  | _ => None
  end.

Definition parse_levels (data : json) (key : string) : list DepthLevel :=
  match json_get key data with
  | Some (JArray arr) => omap parse_level arr
  | _ => []
  end.

Definition levels_or (data : json) (key fallback : string) : list DepthLevel :=
  match parse_levels data key with
  | [] => parse_levels data fallback
  | levels => levels
  end.

Definition parse_depth (value : json) (symbol : string) : Depth :=
  let data := extract_data value in
  {| d_symbol := default symbol (get_str data ["symbol"; "s"]);
     d_bids := levels_or data "bids" "b";
     d_asks := levels_or data "asks" "a" |}.

Definition parse_kline (symbol interval : string) (item : json) : option Kline :=
  match item with
  | JArray (t :: o :: h :: l :: c :: v :: _) =>
      Some {| k_symbol := symbol; k_interval := interval;
              k_open_time := normalize_open_time_ms (default 0 (parse_i64_value t));
              k_open := bare_text o; k_high := bare_text h; k_low := bare_text l;
              k_close := bare_text c; k_volume := bare_text v |}
  | JObject _ =>
      let price keys := default "0" (get_str item keys) in
      Some {| k_symbol := symbol; k_interval := interval;
              k_open_time := normalize_open_time_ms (default 0
                (get_str item ["openTime"; "open_time"; "t"; "timestamp"; "start"; "time"]
                 ≫= parse_i64));
              k_open := price ["open"; "o"]; k_high := price ["high"; "h"];
              k_low := price ["low"; "l"]; k_close := price ["close"; "c"];
              k_volume := price ["volume"; "v"] |}
  | _ => None
  end.

(** The bars of positive time by time, the last one of each time. *)
Definition parse_klines (payload : json) (symbol interval : string) : list Kline :=
  let klines := List.filter (fun k => 0 <? k_open_time k)
                  (omap (parse_kline symbol interval) (extract_list payload)) in
  bt_values (fold_left (fun by_time k => <[k_open_time k := k]> by_time) klines (∅ : gmap Z Kline)).

Definition parse_order (value : json) : Order :=
  {| o_order_id := default "" (get_str value ["orderId"; "order_id"; "id"]);
     o_symbol := default "" (get_str value ["symbol"; "s"]);
     o_side := default "" (get_str value ["side"]);
     o_order_type := default "" (get_str value ["orderType"; "order_type"; "type"]);
     o_price := default "0" (get_str value ["price"]);
     o_qty := default "0" (get_str value ["qty"; "quantity"; "size"]);
     o_status := OrderStatus_from_raw
       (default "" (get_str value ["status"; "orderStatus"; "order_status"]));
     o_order_link_id := get_str value ["orderLinkId"; "order_link_id"];
     o_filled_qty :=
       default "0" (get_str value ["cumExecQty"; "cum_exec_qty"; "filled_qty"; "filledQty"]);
     o_avg_price := default "0" (get_str value ["avgPrice"; "avg_price"]) |}.

Definition parse_orders (payload : json) : list Order := map parse_order (extract_list payload).

Definition parse_position (value : json) : Position :=
  let index := match json_get "positionIdx" value with
               | Some v => Some v
               | None => json_get "position_idx" value
               end in
  {| po_symbol := default "" (get_str value ["symbol"; "s"]);
     po_side := default "" (get_str value ["side"; "positionSide"; "position_side"; "direction"]);
     po_size := default "0" (get_str value
       ["size"; "qty"; "quantity"; "positionAmt"; "position_amt"; "positionQty"; "position_qty";
        "holdQty"; "hold_qty"; "openQty"; "open_qty"; "currentPiece"; "current_piece";
        "totalPiece"; "total_piece"]);
     po_entry_price := default "0" (get_str value
       ["entryPrice"; "entry_price"; "avgPrice"; "avg_price"; "openPrice"; "open_price"]);
     po_leverage := default "1" (get_str value ["leverage"]);
     po_unrealised_pnl := default "0" (get_str value
       ["unrealisedPnl"; "unrealised_pnl"; "unrealizedPnl"; "unrealized_pnl"; "profitUnreal";
        "profit_unreal"; "pnl"]);
     po_position_idx := match index with Some v => parse_i32_value v | None => 0 end |}.

Definition position_key (p : Position) : string :=
  po_symbol p +:+ ":" +:+ i64_to_string (po_position_idx p).

(** The open positions, the last one of each symbol and index. *)
Definition parse_positions (payload : json) : list Position :=
  let open_ones := List.filter (fun p => negb (is_empty (po_symbol p) || is_zero_size (po_size p)))
                     (map parse_position (extract_list payload)) in
  sm_values (fold_left (fun unique p => <[position_key p := p]> unique) open_ones
               (∅ : gmap string Position)).

Definition parse_balance (value : json) : Balance :=
  let available :=
    default "0" (get_str value ["available"; "availableBalance"; "available_balance"]) in
  {| b_asset := default "USDT" (get_str value ["asset"; "coin"; "currency"]);
     b_available := available;
     b_frozen := default "0" (get_str value ["frozen"; "locked"; "frozenBalance"]);
     b_total := default available
       (get_str value ["total"; "balance"; "equity"; "walletBalance"; "wallet_balance"]) |}.

Definition parse_balances (payload : json) : list Balance := map parse_balance (extract_list payload).

(** *** Requests *)

Definition some_param {A} (key : string) (text : A -> string) (value : option A)
    : list (string * string) :=
  match value with Some v => [(key, text v)] | None => [] end.

Definition normalize_kline_query_time (value : Z) : Z :=
  if 10000000000 <=? value then value ÷ 1000 else value.

Definition build_kline_params (symbol interval : string) (limit start stop : option Z)
    : gmap string string :=
  let time v := i64_to_string (normalize_kline_query_time v) in
  list_to_map (some_param "end" time stop ++ some_param "start" time start
    ++ some_param "limit" u64_to_string limit ++ [("interval", interval); ("symbol", symbol)]).

Definition build_depth_params (symbol : string) (depth : Z) : gmap string string :=
  list_to_map [("depth", u64_to_string depth); ("symbol", symbol)].

Definition given (key : string) (value : option string) : list (string * string) :=
  match value with
  | Some v => if is_empty v then [] else [(key, v)]
  | None => []
  end.

Definition build_order_query_params (symbol coin order_id order_link_id order_filter : option string)
    (limit : option Z) (cursor : option string) (start_time end_time : option Z)
    (exec_type : option string) : list (string * string) :=
  let text (s : string) := s in
  let params := (given "symbol" symbol ++ given "coin" coin
    ++ some_param "order_id" text order_id ++ some_param "order_link_id" text order_link_id
    ++ some_param "order_filter" text order_filter ++ some_param "limit" u64_to_string limit
    ++ some_param "cursor" text cursor ++ some_param "start_time" i64_to_string start_time
    ++ some_param "end_time" i64_to_string end_time ++ some_param "exec_type" text exec_type)%list in
  if existsb (fun p => (p.1 ==s "symbol") || (p.1 ==s "coin")) params then params
  else (params ++ [("coin", DEFAULT_SETTLE_COIN)])%list.

(** [to_value] with [skip_serializing_if = "Option::is_none"]. *)
Definition text_field (key : string) (value : option string) : list (string * json) :=
  match value with Some v => [(key, JString v)] | None => [] end.
Definition json_int (z : Z) : json := if z <? 0 then JNegInt z else JPosInt z.

Definition build_place_order_body (req : PlaceOrderRequest) : json :=
  let leg (pick : OrderProtection -> option string) := r_protection req ≫= pick in
  let trigger (pick : OrderProtection -> option string) :=
    r_protection req ≫= (fun p => option_map (fun _ => trigger_by p) (pick p)) in
  JObject ([("symbol", JString (r_symbol req)); ("side", JString (r_side req));
            ("qty", JString (r_qty req)); ("position_idx", json_int (r_position_idx req));
            ("order_type", JString (r_order_type req))]
    ++ text_field "price" (r_price req) ++ text_field "time_in_force" (r_time_in_force req)
    ++ text_field "order_link_id" (r_order_link_id req)
    ++ match r_reduce_only req with Some b => [("reduce_only", JBool b)] | None => [] end
    ++ text_field "take_profit" (leg take_profit) ++ text_field "stop_loss" (leg stop_loss)
    ++ text_field "tp_trigger_by" (trigger take_profit)
    ++ text_field "sl_trigger_by" (trigger stop_loss)).

Definition build_cancel_order_body (req : CancelOrderRequest) : json :=
  JObject ([("symbol", JString (c_symbol req))] ++ text_field "order_id" (c_order_id req)
    ++ text_field "order_link_id" (c_order_link_id req)).

(** ** private.rs: the receipts *)

Definition valid_ack_id (id : string) : bool :=
  negb (trim_is_empty id) && (len id <=? 128) && negb (any_control id).

Definition unclear_order : AppError := Internal "订单提交结果不明确".

Definition parse_create_order_payload (payload : json) : outcome AppError Order :=
  match classify_create_order_outcome payload with
  | OrderAccepted candidate =>
      let order := parse_order candidate in
      if trim_is_empty (o_order_id order) then Err unclear_order else Ok order
  | OrderRejected => Err (TradingFailed TradingFailure_rejected)
  | Ambiguous => Err unclear_order
  end.

(** The members [order_link_id] and [orderLinkId]: the text of the first one,
    which the other one has to repeat. *)
Definition ack_link (unknown : AppError) (data : json) : outcome AppError (option string) :=
  match json_get "order_link_id" data, json_get "orderLinkId" data with
  | None, None => Ok None
  | Some v, None | None, Some v => let? s := ok_or unknown (as_str v) in Ok (Some s)
  | Some v, Some w =>
      let? s := ok_or unknown (as_str v) in
      let? _ := guard (bool_decide (as_str w <> Some s)) unknown in
      Ok (Some s)
  end.

(** [data.get(camel).is_some_and(|other| other.as_str() != Some(value))]. *)
Definition contradicts (data : json) (camel value : string) : bool :=
  match json_get camel data with
  | Some other => bool_decide (as_str other <> Some value)
  | None => false
  end.

Definition foreign_link (link expected : option string) : bool :=
  match link with
  | Some v => negb (is_empty v) && bool_decide (Some v <> expected)
  | None => false
  end.

Definition nonempty (link : option string) : option string :=
  match link with Some v => if is_empty v then None else Some v | None => None end.

(** Every spelling of the status that is present holds the same text. *)
Fixpoint agreed_status (data : json) (keys : list string) (status : option string)
    : option (option string) :=
  match keys with
  | [] => Some status
  | key :: rest =>
      match json_get key data with
      | None => agreed_status data rest status
      | Some v =>
          match as_str v with
          | None => None
          | Some s =>
              if match status with Some old => old !=s s | None => false end then None
              else agreed_status data rest (Some s)
          end
      end
  end.

Definition unclear_protected : AppError := Internal "受保护订单提交结果不明确".

Definition parse_protected_create_ack (payload : json) (request : PlaceOrderRequest)
    : outcome AppError Order :=
  let? _ := guard (negb (code_is_zero payload) || bool_decide (r_protection request = None))
              unclear_protected in
  let? data := ok_or unclear_protected
    match json_get "data" payload with Some (JObject _ as d) => Some d | _ => None end in
  let? status := ok_or unclear_protected
    (agreed_status data ["status"; "orderStatus"; "order_status"] None) in
  let? _ := guard match status with
                  | Some s => bool_decide (OrderStatus_from_raw s = Rejected)
                  | None => false
                  end (TradingFailed TradingFailure_rejected) in
  let? id := ok_or unclear_protected (json_get "order_id" data ≫= as_str) in
  let? _ := guard (contradicts data "orderId" id) unclear_protected in
  let? link := ack_link unclear_protected data in
  let? _ := guard (negb (valid_ack_id id) || foreign_link link (r_order_link_id request))
              unclear_protected in
  Ok {| o_order_id := id; o_symbol := ""; o_side := ""; o_order_type := ""; o_price := "";
        o_qty := ""; o_status := Unknown; o_order_link_id := nonempty link;
        o_filled_qty := "0"; o_avg_price := "0" |}.

Definition unclear_amendment : AppError := Internal "改单受理结果不明确".

Definition parse_amend_ack (payload : json) (expected_id : string) (client_id : option string)
    : outcome AppError OrderAcknowledgement :=
  let? _ := guard (negb (code_is_zero payload)) unclear_amendment in
  let? data := ok_or unclear_amendment
    match json_get "data" payload with Some (JObject _ as d) => Some d | _ => None end in
  let? id := ok_or unclear_amendment (json_get "order_id" data ≫= as_str) in
  let? _ := guard (negb (valid_ack_id id) || (id !=s expected_id) || contradicts data "orderId" id)
              unclear_amendment in
  let? link := ack_link unclear_amendment data in
  let? _ := guard (foreign_link link client_id) unclear_amendment in
  Ok {| ack_order_id := id; ack_order_link_id := nonempty link |}.

Definition unclear_cancellation : AppError := Internal "撤单受理结果不明确，请查询原订单".

Definition parse_cancel_acknowledgement (payload : json) (request : CancelOrderRequest)
    : outcome AppError Order :=
  let? expected := ok_or unclear_cancellation (c_order_id request) in
  let? data := ok_or unclear_cancellation
    match json_get "data" payload with Some (JObject _ as d) => Some d | _ => None end in
  let? id := ok_or unclear_cancellation
    (match json_get "order_id" data with
     | Some v => Some v
     | None => json_get "orderId" data
     end ≫= as_str) in
  let? _ := guard (trim_is_empty id || (128 <? len id) || any_control id || (id !=s expected)
                   || contradicts data "orderId" id || negb (is_success_response payload))
              unclear_cancellation in
  let order := parse_order data in
  Ok {| o_order_id := id; o_symbol := c_symbol request; o_side := o_side order;
        o_order_type := o_order_type order; o_price := o_price order; o_qty := o_qty order;
        o_status := Unknown; o_order_link_id := o_order_link_id order;
        o_filled_qty := o_filled_qty order; o_avg_price := o_avg_price order |}.
End Mapper.
