(* ===== verification/ApiClient.v ===== *)
(** models/config.rs (credentials), auth/signer.rs and api/client.rs: signed
    requests, what becomes of an answer, the one retry, and the session whose
    expiry is announced.  A request is a point where other tasks run: the
    environment answers it and says what the client's state is by then. *)
From stdpp Require Import gmap.
From Stdlib Require Import Ascii.
From S2P Require Import Prelude RustStr External Models Time OrderSubmission Mapper.

(** ** models/config.rs *)

(** The crates url and form_urlencoded. *)
Class UrlLib := {
  Url : Type;
  url_parse : string -> option Url;
  url_scheme : Url -> string;
  url_username : Url -> string;
  url_password : Url -> option string;
  url_query : Url -> option string;
  url_fragment : Url -> option string;
  url_host_str : Url -> option string;
  url_port : Url -> option Z;
  url_path : Url -> string;
  (* [url.set_port(None)], refused on a URL that can have no port *)
  url_without_port : Url -> option Url;
  url_with_path : string -> Url -> Url;
  url_to_string : Url -> string;
  form_urlencode : list (string * string) -> string;
}.

(** The crates hmac and hex: [hex::encode] of the HMAC-SHA256 of a text. *)
Class HmacLib := { hmac_sha256_hex : string -> string -> string }.

(** [http::StatusCode] as text. *)
Class StatusText := { status_text : Z -> string }.

Definition DEFAULT_BASE_URL : string := "https://api.easicoin.io".
Definition RECV_WINDOW_MS : Z := 5000.

Record ApiCredential := {
  api_key : string;
  api_secret : string;
  base_url : string;
  label : string;
}.
#[export] Instance ApiCredential_eq_dec : EqDecision ApiCredential.
Proof. solve_decision. Defined.

Definition slash : ascii := Ascii.ascii_of_nat 47.
Definition trim_end_slashes (s : string) : string := string_rev (skip_char slash (string_rev s)).

Section Credentials.
Context `{UrlLib}.

Definition canonical_api_base_url (value : string) : option string :=
  let trimmed := trim value in
  url ← url_parse (if is_empty trimmed then DEFAULT_BASE_URL else trimmed);
  if negb (one_of (url_scheme url) ["http"; "https"])
     || negb (is_empty (url_username url))
     || bool_decide (is_Some (url_password url)) || bool_decide (is_Some (url_query url))
     || bool_decide (is_Some (url_fragment url)) || bool_decide (url_host_str url = None)
  then None
  else
    url ← (if bool_decide ((url_scheme url, url_port url) = ("https", Some 443))
              || bool_decide ((url_scheme url, url_port url) = ("http", Some 80))
           then url_without_port url else Some url);
    let normalized_path := trim_end_slashes (url_path url) in
    Some (trim_end_slashes (url_to_string (url_with_path normalized_path url))).

Definition normalize (c : ApiCredential) : ApiCredential :=
  let trimmed := trim (base_url c) in
  {| api_key := trim (api_key c);
     api_secret := trim (api_secret c);
     base_url := if is_empty trimmed then DEFAULT_BASE_URL
                 else default trimmed (canonical_api_base_url trimmed);
     label := trim (label c) |}.

Definition is_valid (c : ApiCredential) : bool :=
  negb (is_empty (api_key c)) && negb (is_empty (api_secret c))
  && negb (is_empty (trim (base_url c)))
  && bool_decide (is_Some (canonical_api_base_url (base_url c))).

Definition has_secret (c : ApiCredential) : bool := negb (is_empty (api_secret c)).

Definition normalize_base_url (url : string) : string := default "" (canonical_api_base_url url).
End Credentials.

(** ** auth/signer.rs *)

Record Signer := { sg_api_key : string; sg_api_secret : string }.

Definition Signer_new (c : ApiCredential) : Signer :=
  {| sg_api_key := api_key c; sg_api_secret := api_secret c |}.

Section Signing.
Context `{HmacLib}.

Definition sign (s : Signer) (payload : string) : string := hmac_sha256_hex (sg_api_secret s) payload.

Definition prepare_headers (s : Signer) (timestamp_ms recv_window_ms : Z) (signature_payload : string)
    : list (string * string) :=
  let timestamp := u64_to_string timestamp_ms in
  let recv_window := u64_to_string recv_window_ms in
  let payload := timestamp +:+ sg_api_key s +:+ recv_window +:+ signature_payload in
  [("Access-Key", sg_api_key s); ("Access-Sign", sign s payload);
   ("Access-Timestamp", timestamp); ("Recv-Window", recv_window)].

Definition sign_ws_auth (s : Signer) (expires_ms : Z) : string :=
  sign s ("GET/realtime" +:+ u64_to_string expires_ms).
End Signing.

(** ** client.rs: the installed session *)

Record ApiSessionContext := { ac_session : SessionContext; notification_session_token : string }.

Record InstalledApiSession := {
  in_context : ApiSessionContext;
  in_fingerprint : string;
  request_owner : string;
  in_rearm_pending : bool;
}.

Record RememberedApiSession := {
  rm_fingerprint : string;
  rm_token : string;
  rm_rearm_pending : bool;
}.

#[export] Instance SessionContext_eq_dec : EqDecision SessionContext.
Proof. solve_decision. Defined.
#[export] Instance ApiSessionContext_eq_dec : EqDecision ApiSessionContext.
Proof. solve_decision. Defined.
#[export] Instance InstalledApiSession_eq_dec : EqDecision InstalledApiSession.
Proof. solve_decision. Defined.

Record ApiClient := {
  cl_base_url : string;
  cl_credential : option ApiCredential;
  cl_signer : option Signer;
  cl_offset_ms : Z;
  cl_session_context : option InstalledApiSession;
  cl_remembered_session : option RememberedApiSession;
}.

Definition ApiClient_new : ApiClient :=
  {| cl_base_url := DEFAULT_BASE_URL; cl_credential := None; cl_signer := None;
     cl_offset_ms := 0; cl_session_context := None; cl_remembered_session := None |}.

Definition with_session (session : option InstalledApiSession)
    (remembered : option RememberedApiSession) (c : ApiClient) : ApiClient :=
  {| cl_base_url := cl_base_url c; cl_credential := cl_credential c; cl_signer := cl_signer c;
     cl_offset_ms := cl_offset_ms c; cl_session_context := session;
     cl_remembered_session := remembered |}.

(** [(n as u64).to_be_bytes()]. *)
Definition be_bytes (n : Z) : string :=
  fold_right (fun i s => String (Ascii.ascii_of_N (Z.to_N (Z.shiftr n (8 * i) mod 256))) s) ""
    [7; 6; 5; 4; 3; 2; 1; 0].

Definition length_prefixed (fields : list string) : string :=
  fold_right (fun f s => be_bytes (len f) +:+ f +:+ s) "" fields.

Definition NUL : string := String Ascii.zero "".

Section Session.
Context `{UrlLib} `{Sha256Lib}.

(** The digest, written in hexadecimal. *)
Definition api_session_fingerprint (account_id : string) (c : ApiCredential) : string :=
  sha256_hex ("easiflux.api-notification-session.v1" +:+ NUL
              +:+ length_prefixed [account_id; api_key c; api_secret c; base_url c]).

Definition order_submission_scope (account_id : string) (c : ApiClient) : outcome AppError string :=
  let? credential := ok_or NotConnected (cl_credential c) in
  Ok (sha256_hex ("easiflux.order-submissions.v1" +:+ NUL
                  +:+ length_prefixed [account_id; base_url credential; api_key credential])).

Definition set_credential_material (credential : ApiCredential) (c : ApiClient) : ApiClient :=
  {| cl_base_url := normalize_base_url (base_url credential);
     cl_credential := Some credential; cl_signer := Some (Signer_new credential);
     cl_offset_ms := cl_offset_ms c; cl_session_context := cl_session_context c;
     cl_remembered_session := cl_remembered_session c |}.

(** What an invalid credential leaves behind. *)
Definition without_material (c : ApiClient) : ApiClient :=
  {| cl_base_url := ""; cl_credential := None; cl_signer := None;
     cl_offset_ms := cl_offset_ms c; cl_session_context := None;
     cl_remembered_session := cl_remembered_session c |}.

Definition set_credential (credential : ApiCredential) (c : ApiClient) : ApiClient :=
  let credential := normalize credential in
  if negb (is_valid credential) then without_material c
  else with_session None (cl_remembered_session c) (set_credential_material credential c).

(** [token] and [owner] are the new UUIDs; the first is drawn when the
    credentials are not the remembered ones. *)
Definition set_credential_for_session (credential : ApiCredential) (context : SessionContext)
    (token owner : string) (c : ApiClient) : ApiClient :=
  let credential := normalize credential in
  if negb (is_valid credential) then without_material c
  else
    let fingerprint := api_session_fingerprint (ses_account_id context) credential in
    let remembered := match cl_remembered_session c with
                      | Some r => if rm_fingerprint r ==s fingerprint then Some r else None
                      | None => None
                      end in
    let token := match remembered with Some r => rm_token r | None => token end in
    let rearm := match remembered with Some r => rm_rearm_pending r | None => false end in
    with_session
      (Some {| in_context := {| ac_session := context; notification_session_token := token |};
               in_fingerprint := fingerprint; request_owner := owner; in_rearm_pending := rearm |})
      (Some {| rm_fingerprint := fingerprint; rm_token := token; rm_rearm_pending := rearm |})
      (set_credential_material credential c).

Definition clear_credential (c : ApiClient) : ApiClient :=
  {| cl_base_url := cl_base_url c; cl_credential := None; cl_signer := None;
     cl_offset_ms := cl_offset_ms c; cl_session_context := None;
     cl_remembered_session := cl_remembered_session c |}.

Definition set_base_url (url : string) (c : ApiClient) : ApiClient :=
  {| cl_base_url := normalize_base_url url; cl_credential := cl_credential c;
     cl_signer := cl_signer c; cl_offset_ms := cl_offset_ms c;
     cl_session_context := cl_session_context c; cl_remembered_session := cl_remembered_session c |}.

Definition owns_response (current request : InstalledApiSession) : bool :=
  (request_owner current ==s request_owner request)
  && (in_fingerprint current ==s in_fingerprint request)
  && bool_decide (in_context current = in_context request).

Definition mark_current_session_expired (request : InstalledApiSession) (c : ApiClient)
    : option ApiSessionContext * ApiClient :=
  match cl_session_context c with
  | Some current =>
      if owns_response current request then
        (Some (in_context current),
         with_session
           (Some {| in_context := in_context current; in_fingerprint := in_fingerprint current;
                    request_owner := request_owner current; in_rearm_pending := true |})
           (Some {| rm_fingerprint := in_fingerprint request;
                    rm_token := notification_session_token (in_context current);
                    rm_rearm_pending := true |}) c)
      else (None, c)
  | None => (None, c)
  end.

(** [token] is the new UUID, drawn when the session is rearmed. *)
Definition confirm_authenticated_private_response (request : InstalledApiSession) (token : string)
    (c : ApiClient) : ApiClient :=
  match cl_session_context c with
  | Some current =>
      if owns_response current request && in_rearm_pending current then
        with_session
          (Some {| in_context := {| ac_session := ac_session (in_context current);
                                    notification_session_token := token |};
                   in_fingerprint := in_fingerprint current;
                   request_owner := request_owner current; in_rearm_pending := false |})
          (Some {| rm_fingerprint := in_fingerprint current; rm_token := token;
                   rm_rearm_pending := false |}) c
      else c
  | None => c
  end.
End Session.

(** ** Requests and answers *)

Inductive HttpMethod := GET | POST.
#[export] Instance HttpMethod_eq_dec : EqDecision HttpMethod.
Proof. solve_decision. Defined.

Record HttpRequest := {
  q_method : HttpMethod;
  q_url : string;
  q_params : list (string * string);
  q_headers : list (string * string);
  q_body : string;
}.

(** No answer; or a status, and the text when it could be read. *)
Inductive HttpAnswer := Unreachable | Answered (status : Z) (body : option string).

Definition status_is_success (status : Z) : bool := (200 <=? status) && (status <=? 299).

(** The outside of the client.  [env_send] answers a request, and
    [env_observe_auth] is the registered observer, if there is one; the client
    they return is what other tasks have made of it meanwhile. *)
Class ApiEnvironment (X : Type) := {
  env_uuid : X -> string * X;
  env_local_ms : X -> Z * X;
  env_send : HttpRequest -> ApiClient -> X -> HttpAnswer * (ApiClient * X);
  env_observe_auth : option (ApiSessionContext -> AuthFailureKind -> ApiClient -> X ->
                             option string * (ApiClient * X));
}.

(** The client, the answers to the requests so far, and the outside. *)
Record api_world {X : Type} := ApiWorld {
  w_client : ApiClient;
  w_answers : list (HttpRequest * HttpAnswer);
  w_outside : X;
}.
Arguments api_world : clear implicits.
Arguments ApiWorld {X} _ _ _.

Definition SERVER_TIME : string := "/futures/public/v1/market/time".
Definition CREATE_ORDER : string := "/futures/private/v1/create-order".
Definition CANCEL_ORDER : string := "/futures/private/v1/cancel-order".

(** [impl From<reqwest::Error> for AppError]. *)
Definition request_failed : AppError := Connection "网络请求失败".

Definition should_retry_private_request (e : AppError) : bool :=
  match e with AuthFailure (Timestamp | Signature) => true | _ => false end.

Section Client.
Context `{UrlLib} `{HmacLib} `{StatusText} `{JsonText} `{Codec json} `{DecimalLib}.
Context {X : Type} `{ApiEnvironment X}.

Abbreviation action A := (M (api_world X) AppError A).

Definition reading {A} (f : ApiClient -> A) : action A :=
  fun w => (Ok (f (w_client w)), w).

Definition changing (f : ApiClient -> ApiClient) : action unit :=
  fun w => (Ok tt, ApiWorld (f (w_client w)) (w_answers w) (w_outside w)).

Definition local_timestamp_ms : action Z :=
  fun w => let '(t, x) := env_local_ms (w_outside w) in
           (Ok t, ApiWorld (w_client w) (w_answers w) x).

Definition new_uuid : action string :=
  fun w => let '(u, x) := env_uuid (w_outside w) in
           (Ok u, ApiWorld (w_client w) (w_answers w) x).

(** [req.send().await?], the answer's text read with it. *)
Definition http (request : HttpRequest) : action (Z * option string) :=
  fun w =>
    let '(answer, (c, x)) := env_send request (w_client w) (w_outside w) in
    (match answer with
     | Unreachable => Err request_failed
     | Answered status body => Ok (status, body)
     end, ApiWorld c (w_answers w ++ [(request, answer)]) x).

(** The observer's turn, when the answer belongs to the current session. *)
Definition announce_expiry (context : option InstalledApiSession) : action (option string) :=
  fun w =>
    match context with
    | None => (Ok None, w)
    | Some request =>
        let '(current, c) := mark_current_session_expired request (w_client w) in
        match current, env_observe_auth with
        | Some current, Some observer =>
            let '(id, (c, x)) := observer current SessionExpired c (w_outside w) in
            (Ok id, ApiWorld c (w_answers w) x)
        | _, _ => (Ok None, ApiWorld c (w_answers w) (w_outside w))
        end
    end.

Definition confirm (context : option InstalledApiSession) : action unit :=
  match context with
  | Some request =>
      let* token := new_uuid in
      changing (confirm_authenticated_private_response request token)
  | None => mret tt
  end.

(** The part of [parse_response] that reads the payload. *)
Definition read_payload (status : Z) (body : option string) : outcome AppError json :=
  let status_auth_failure := classify_auth_failure (Some status) (JObject []) in
  let? text := ok_or request_failed body in
  if is_empty text && negb (status_is_success status) then
    Err (if bool_decide (status_auth_failure <> AuthOther) then AuthFailure status_auth_failure
         else Connection ("HTTP " +:+ status_text status))
  else if is_empty text then Ok (JObject [])
  else match decode text with
       | Some payload => Ok payload
       | None => Err (if bool_decide (status_auth_failure <> AuthOther)
                      then AuthFailure status_auth_failure else Connection "API 响应格式无效")
       end.

Definition expired_session (notification_id : string) : AppError :=
  Notified "AUTH_SESSION_EXPIRED" "账户会话已失效" notification_id
    (Some (CauseAuthFailure SessionExpired)).

Definition parse_response (status : Z) (body : option string) (path : option string)
    (context : option InstalledApiSession) : action json :=
  let* payload := mlift (read_payload status body) in
  let auth_failure := classify_auth_failure (Some status) payload in
  let* notified := if decide (auth_failure = SessionExpired) then announce_expiry context
                   else mret None in
  match notified with
  | Some notification_id => mfail (expired_session notification_id)
  | None =>
      if decide (auth_failure <> AuthOther) then mfail (AuthFailure auth_failure)
      else if negb (status_is_success status)
      then mfail (Connection ("HTTP " +:+ status_text status))
      else
        let* _ := if bool_decide (path = Some CREATE_ORDER) then
            match classify_create_order_outcome payload with
            | OrderRejected => confirm context ;;; mfail (TradingFailed TradingFailure_rejected)
            | OrderAccepted _ => mret tt
            | Ambiguous => mfail unclear_order
            end
          else mret tt in
        if negb (is_success_response payload) then mfail (Trading "API 返回错误")
        else confirm context ;;; mret payload
  end.

Definition public_get (path : string) (params : list (string * string)) : action json :=
  let* base := reading cl_base_url in
  let* answer := http {| q_method := GET; q_url := base +:+ path; q_params := params;
                         q_headers := []; q_body := "" |} in
  parse_response answer.1 answer.2 None None.

Definition server_time : action Z :=
  let* payload := public_get SERVER_TIME [] in
  mlift (parse_server_time payload).

Definition set_offset (offset : Z) (c : ApiClient) : ApiClient :=
  {| cl_base_url := cl_base_url c; cl_credential := cl_credential c; cl_signer := cl_signer c;
     cl_offset_ms := offset; cl_session_context := cl_session_context c;
     cl_remembered_session := cl_remembered_session c |}.

Definition force_time_sync : action unit :=
  let* server_ms := server_time in
  let* local := local_timestamp_ms in
  changing (set_offset (set_server_time server_ms local)).

Definition ensure_time_sync : action unit :=
  let* offset := reading cl_offset_ms in
  if offset =? 0 then force_time_sync else mret tt.

Definition sign_headers (query body : string) : action (list (string * string)) :=
  let* signer := reading cl_signer in
  let* signer := mlift (ok_or (Auth "未配置 API 凭据") signer) in
  let* local := local_timestamp_ms in
  let* offset := reading cl_offset_ms in
  mret (prepare_headers signer (timestamp_ms offset local) RECV_WINDOW_MS
          (if is_empty body then query else body)).

Definition encode_query (params : list (string * string)) : string :=
  match params with [] => "" | _ => form_urlencode params end.

Definition private_get_once (path : string) (params : list (string * string)) : action json :=
  let* context := reading cl_session_context in
  let query := encode_query params in
  let* headers := sign_headers query "" in
  let* base := reading cl_base_url in
  let url := base +:+ path in
  let* answer := http {| q_method := GET;
                         q_url := if is_empty query then url else url +:+ "?" +:+ query;
                         q_params := []; q_headers := headers; q_body := "" |} in
  parse_response answer.1 answer.2 None context.

Definition private_post_once (path : string) (body : json) : action json :=
  let* context := reading cl_session_context in
  let* base := reading cl_base_url in
  let body_text := json_text body in
  let* headers := sign_headers "" body_text in
  let* answer := http {| q_method := POST; q_url := base +:+ path; q_params := [];
                         q_headers := ("Content-Type", "application/json") :: headers;
                         q_body := body_text |} in
  parse_response answer.1 answer.2 (Some path) context.

(** A refusal of the time stamp or the signature is tried once more, with the
    clock set anew. *)
Definition with_retry {A} (once : action A) : action A :=
  ensure_time_sync ;;;
  let* first := mtry once in
  match first with
  | inr v => mret v
  | inl e => if should_retry_private_request e then force_time_sync ;;; once else mfail e
  end.

Definition private_get (path : string) (params : list (string * string)) : action json :=
  with_retry (private_get_once path params).

Definition private_post (path : string) (body : json) : action json :=
  with_retry (private_post_once path body).

(** ** private.rs: the mutations the submission journal calls *)

Definition create_order (request : PlaceOrderRequest) : action Order :=
  let* payload := private_post CREATE_ORDER (build_place_order_body request) in
  mlift (parse_create_order_payload payload).

Definition create_protected_order_ack (request : PlaceOrderRequest) : action Order :=
  let* payload := private_post CREATE_ORDER (build_place_order_body request) in
  mlift (parse_protected_create_ack payload request).

Definition cancel_order_acknowledged (request : CancelOrderRequest) : action Order :=
  let* payload := private_post CANCEL_ORDER (build_cancel_order_body request) in
  mlift (parse_cancel_acknowledgement payload request).
End Client.

(** * What the answers say of an order *)

(** The verdict of an answer to an order: refused before it was looked at,
    declined, taken, or unclear. *)
Inductive verdict := RefusedFor (kind : AuthFailureKind) | Declined | Took (candidate : json) | Unclear.

Definition denies (v : verdict) : bool :=
  match v with RefusedFor _ | Declined => true | _ => false end.

(** Refused for the time stamp or the signature. *)
Definition stale (v : verdict) : bool :=
  match v with RefusedFor (Timestamp | Signature) => true | _ => false end.

Definition is_post (exchange : HttpRequest * HttpAnswer) : bool :=
  bool_decide (q_method exchange.1 = POST).
Definition posts (log : list (HttpRequest * HttpAnswer)) : list (HttpRequest * HttpAnswer) :=
  List.filter is_post log.

Lemma posts_app l1 l2 : posts (l1 ++ l2) = (posts l1 ++ posts l2)%list.
Proof. apply List.filter_app. Qed.

Create HintDb asks.

Section ClientFacts.
Context `{UrlLib} `{HmacLib} `{StatusText} `{JsonText} `{Codec json} `{DecimalLib}.
Context {X : Type} `{ApiEnvironment X}.

Abbreviation action A := (M (api_world X) AppError A).

Definition verdict_of (answer : HttpAnswer) : verdict :=
  match answer with
  | Unreachable => Unclear
  | Answered status body =>
      match read_payload status body with
      | Ok payload =>
          match classify_auth_failure (Some status) payload with
          | AuthOther =>
              if negb (status_is_success status) then Unclear
              else match classify_create_order_outcome payload with
                   | OrderAccepted candidate => Took candidate
                   | OrderRejected => Declined
                   | Ambiguous => Unclear
                   end
          | kind => RefusedFor kind
          end
      | Err (AuthFailure kind) => RefusedFor kind
      | _ => Unclear
      end
  end.

(** What an action adds to the log of answers, with its result. *)
Definition logs {A} (Q : outcome AppError A -> list (HttpRequest * HttpAnswer) -> Prop)
    (c : action A) : Prop :=
  forall w, exists l, w_answers (c w).2 = (w_answers w ++ l)%list /\ Q (c w).1 l.

Lemma logs_mono {A} (Q R : outcome AppError A -> _ -> Prop) c :
  logs Q c -> (forall o l, Q o l -> R o l) -> logs R c.
Proof. intros Hc HQ w. destruct (Hc w) as (l & ? & ?). eauto. Qed.

Lemma logs_bind {A B} (Q : outcome AppError A -> _ -> Prop) (R : outcome AppError B -> _ -> Prop) c k :
  logs Q c ->
  (forall a l, Q (Ok a) l -> logs (fun o l' => R o (l ++ l')%list) (k a)) ->
  (forall e l, Q (Err e) l -> R (Err e) l) -> (forall h l, Q (Halt h) l -> R (Halt h) l) ->
  logs R (mbind c k).
Proof.
  intros Hc Hk He Hh w. unfold mbind. destruct (Hc w) as (l & Hl & HQ).
  destruct (c w) as [[a|e|h] w1]; simpl in *; [|by eauto..].
  destruct (Hk a l HQ w1) as (l' & Hl' & HR). exists (l ++ l')%list.
  by rewrite Hl', Hl, app_assoc.
Qed.

Lemma logs_try {A} (Q : outcome AppError A -> _ -> Prop) (R : outcome AppError (AppError + A) -> _ -> Prop) c :
  logs Q c ->
  (forall a l, Q (Ok a) l -> R (Ok (inr a)) l) -> (forall e l, Q (Err e) l -> R (Ok (inl e)) l) ->
  (forall h l, Q (Halt h) l -> R (Halt h) l) -> logs R (mtry c).
Proof.
  intros Hc Ha He Hh w. unfold mtry. destruct (Hc w) as (l & Hl & HQ).
  destruct (c w) as [[a|e|h] w1]; simpl in *; eauto.
Qed.

(** An action that sends nothing. *)
Definition silent {A} (Q : outcome AppError A -> Prop) : action A -> Prop :=
  logs (fun o l => l = [] /\ Q o).

Lemma silent_lift {A} (o : outcome AppError A) : silent (fun o' => o' = o) (mlift o).
Proof. intros w. exists []. by rewrite app_nil_r. Qed.
Lemma silent_ret {A} (a : A) : silent (fun o' => o' = Ok a) (mret a).
Proof. apply silent_lift. Qed.
Lemma silent_fail {A} e : silent (fun o' => o' = Err e) (mfail e : action A).
Proof. apply (silent_lift (Err e)). Qed.
Lemma silent_reading {A} (f : ApiClient -> A) : silent (fun o => exists a, o = Ok a) (reading f).
Proof. intros w. exists []. rewrite app_nil_r. simpl. eauto. Qed.
Lemma silent_changing f : silent (fun o => o = Ok tt) (changing f).
Proof. intros w. exists []. by rewrite app_nil_r. Qed.
Lemma silent_local : silent (fun o => exists t, o = Ok t) local_timestamp_ms.
Proof.
  intros w. exists []. rewrite app_nil_r. unfold local_timestamp_ms.
  destruct (env_local_ms _). simpl. eauto.
Qed.
Lemma silent_uuid : silent (fun o => exists t, o = Ok t) new_uuid.
Proof.
  intros w. exists []. rewrite app_nil_r. unfold new_uuid. destruct (env_uuid _). simpl. eauto.
Qed.
Lemma silent_announce context : silent (fun o => exists id, o = Ok id) (announce_expiry context).
Proof.
  intros w. exists []. rewrite app_nil_r. unfold announce_expiry.
  destruct context as [request|]; [|simpl; eauto].
  destruct (mark_current_session_expired _ _) as [[current|] c]; [|simpl; eauto].
  destruct env_observe_auth as [observer|]; [|simpl; eauto].
  destruct (observer _ _ _ _) as [id [c' x]]. simpl. eauto.
Qed.

Lemma silent_bind {A B} (Q : outcome AppError A -> Prop) (R : outcome AppError B -> Prop) c k :
  silent Q c -> (forall a, Q (Ok a) -> silent R (k a)) ->
  (forall e, Q (Err e) -> R (Err e)) -> (forall h, Q (Halt h) -> R (Halt h)) -> silent R (mbind c k).
Proof.
  intros Hc Hk He Hh. eapply logs_bind; [exact Hc|..]; simpl; [|naive_solver..].
  intros a l [-> HQ]. by apply Hk.
Qed.

(** After an action that cannot fail. *)
Lemma silent_after {A B} (P : A -> Prop) (R : outcome AppError B -> Prop) c k :
  silent (fun o => exists a, o = Ok a /\ P a) c -> (forall a, P a -> silent R (k a)) ->
  silent R (mbind c k).
Proof. intros Hc Hk. eapply silent_bind; [exact Hc|..]; naive_solver. Qed.

Lemma silent_confirm context : silent (fun o => o = Ok tt) (confirm context).
Proof.
  destruct context as [request|]; [|apply silent_ret]. simpl.
  eapply silent_bind; [apply silent_uuid| |naive_solver..].
  intros token _. apply silent_changing.
Qed.

(** What [parse_response] makes of an answer to an order. *)
Definition judged (v : verdict) (o : outcome AppError json) : Prop :=
  match o with
  | Ok payload => exists c, v = Took c /\ classify_create_order_outcome payload = OrderAccepted c
  | Err e => (definitely_not_accepted e = true -> denies v = true) /\
             (should_retry_private_request e = true -> stale v = true)
  | Halt _ => False
  end.

Lemma parse_response_judged status body context :
  silent (judged (verdict_of (Answered status body)))
    (parse_response status body (Some CREATE_ORDER) context).
Proof.
  unfold parse_response, verdict_of.
  destruct (read_payload status body) as [payload|e|h] eqn:Er.
  - eapply silent_bind; [apply silent_lift| |naive_solver..]. intros p [= ->].
    destruct (classify_auth_failure (Some status) payload) eqn:Ek; simpl;
      try (eapply silent_bind; [apply silent_ret| |naive_solver..]; intros ? [= ->]; simpl;
           eapply logs_mono; [apply silent_fail|]; simpl; intros ? ? [-> ->];
           split; [done|]; simpl; split; by intros).
    + eapply silent_bind; [apply silent_announce| |naive_solver..]. intros [id|] _;
        (eapply logs_mono; [apply silent_fail|]; simpl; intros ? ? [-> ->];
         split; [done|]; simpl; split; by intros).
    + eapply silent_bind; [apply silent_ret| |naive_solver..]. intros ? [= ->]. simpl.
      destruct (status_is_success status); simpl;
        [|eapply logs_mono; [apply silent_fail|]; simpl; intros ? ? [-> ->]; by split].
      destruct (classify_create_order_outcome payload) as [c| |] eqn:Ec.
      * eapply silent_bind; [apply silent_ret| |naive_solver..]. intros _ _.
        destruct (negb (is_success_response payload)).
        { eapply logs_mono; [apply silent_fail|]; simpl; intros ? ? [-> ->]; by split. }
        eapply silent_bind; [apply silent_confirm| |naive_solver..]. intros _ _.
        eapply logs_mono; [apply silent_ret|]; simpl; intros ? ? [-> ->]. split; [done|]. simpl. eauto.
      * eapply silent_bind with (Q := fun o => o = Err (TradingFailed TradingFailure_rejected));
          [|naive_solver| |naive_solver]; [|intros e [= ->]; by split].
        eapply silent_bind; [apply silent_confirm| |naive_solver..]. intros _ _. apply silent_fail.
      * eapply silent_bind; [apply silent_fail|naive_solver|intros e [= ->]; by split|naive_solver].
  - eapply silent_bind; [apply silent_lift|naive_solver| |naive_solver]. intros e' [= ->]. simpl.
    revert Er. unfold read_payload. destruct body as [text|]; simpl; [|intros [= <-]; by split].
    destruct (is_empty text && negb (status_is_success status)).
    { case_bool_decide; intros [= <-]; [|by split]. by split. }
    destruct (is_empty text); [done|]. destruct (decode text); [done|].
    case_bool_decide; intros [= <-]; by split.
  - revert Er. unfold read_payload. destruct body as [text|]; simpl; [|done].
    repeat case_match; done.
Qed.

(** An action that sends no order and ends. *)
Definition ended {A} (o : outcome AppError A) : Prop := match o with Halt _ => False | _ => True end.
Definition asks {A} : action A -> Prop := logs (fun o l => posts l = [] /\ ended o).

Lemma asks_silent {A} (Q : outcome AppError A -> Prop) c :
  silent Q c -> (forall o, Q o -> ended o) -> asks c.
Proof. intros Hc HQ. eapply logs_mono; [exact Hc|]. intros o l [-> Ho]. eauto. Qed.

Lemma asks_bind {A B} (c : action A) (k : A -> action B) :
  asks c -> (forall a, asks (k a)) -> asks (mbind c k).
Proof.
  intros Hc Hk. eapply logs_bind; [exact Hc| |naive_solver..]. intros a l [Hl _].
  eapply logs_mono; [apply Hk|]. intros o l' [Hl' Ho]. by rewrite posts_app, Hl, Hl'.
Qed.

Lemma asks_lift {A} (o : outcome AppError A) : ended o -> asks (mlift o).
Proof. intros Ho. eapply asks_silent; [apply silent_lift|]. by intros ? ->. Qed.
Lemma asks_ret {A} (a : A) : asks (mret a).
Proof. by apply (asks_lift (Ok a)). Qed.
Lemma asks_fail {A} e : asks (mfail e : action A).
Proof. by apply (asks_lift (Err e)). Qed.
Lemma asks_reading {A} (f : ApiClient -> A) : asks (reading f).
Proof. eapply asks_silent; [apply silent_reading|]. by intros ? [? ->]. Qed.
Lemma asks_changing f : asks (changing f).
Proof. eapply asks_silent; [apply silent_changing|]. by intros ? ->. Qed.
Lemma asks_local : asks local_timestamp_ms.
Proof. eapply asks_silent; [apply silent_local|]. by intros ? [? ->]. Qed.
Lemma asks_announce context : asks (announce_expiry context).
Proof. eapply asks_silent; [apply silent_announce|]. by intros ? [? ->]. Qed.
Lemma asks_confirm context : asks (confirm context).
Proof. eapply asks_silent; [apply silent_confirm|]. by intros ? ->. Qed.

Lemma http_logs request :
  logs (fun o l => exists answer, l = [(request, answer)] /\
          o = match answer with
              | Unreachable => Err request_failed
              | Answered status body => Ok (status, body)
              end) (http request).
Proof.
  intros w. unfold http. destruct (env_send _ _ _) as [answer [c x]]. simpl. eauto 6.
Qed.

Lemma asks_http request : q_method request = GET -> asks (http request).
Proof.
  intros Hm. eapply logs_mono; [apply http_logs|]. intros o l (answer & -> & ->). split.
  - unfold posts, is_post. simpl. by rewrite Hm.
  - by destruct answer.
Qed.

Lemma read_payload_ended status body : ended (read_payload status body).
Proof. unfold read_payload. destruct body; simpl; repeat case_match; done. Qed.

#[local] Hint Resolve asks_bind asks_lift asks_ret asks_fail asks_reading asks_changing asks_local
  asks_announce asks_confirm read_payload_ended : asks.

Lemma asks_parse_response status body context : asks (parse_response status body None context).
Proof.
  unfold parse_response. apply asks_bind; [solve [auto with asks]|]. intros payload.
  apply asks_bind; [case_decide; solve [auto with asks]|]. intros [id|]; [solve [auto with asks]|].
  case_decide; [solve [auto with asks]|]. case_match; [solve [auto with asks]|].
  rewrite bool_decide_eq_false_2 by done.
  apply asks_bind; [solve [auto with asks]|]. intros []. case_match; [|apply asks_bind; [|intros]]; solve [auto with asks].
Qed.

Lemma parse_server_time_ended payload : ended (parse_server_time payload).
Proof. unfold parse_server_time. repeat case_match; done. Qed.

Lemma asks_public_get path params : asks (public_get path params).
Proof.
  apply asks_bind; [solve [auto with asks]|]. intros base.
  apply asks_bind; [by apply asks_http|]. intros [status body]. apply asks_parse_response.
Qed.

Lemma asks_force_time_sync : asks force_time_sync.
Proof.
  apply asks_bind; [|intros server; apply asks_bind; solve [auto with asks]].
  apply asks_bind; [apply asks_public_get|]. intros payload. apply asks_lift, parse_server_time_ended.
Qed.

Lemma asks_ensure_time_sync : asks ensure_time_sync.
Proof.
  apply asks_bind; [solve [auto with asks]|]. intros offset.
  case_match; [apply asks_force_time_sync|solve [auto with asks]].
Qed.

Lemma asks_sign_headers query body :
  logs (fun o l => posts l = [] /\ match o with
                                  | Ok _ => True
                                  | Err e => should_retry_private_request e = false
                                  | Halt _ => False
                                  end) (sign_headers query body).
Proof.
  unfold sign_headers. eapply logs_bind; [apply silent_reading| |naive_solver..].
  intros signer l [-> _]. eapply logs_bind; [apply silent_lift| |simpl..].
  - intros s l' [-> _]. simpl.
    eapply logs_mono; [|intros o l'' Hq; exact Hq]. simpl.
    eapply logs_bind; [apply silent_local| |naive_solver..]. intros t ? [-> _].
    eapply logs_bind; [apply silent_reading| |naive_solver..]. intros off ? [-> _].
    eapply logs_mono; [apply silent_ret|]. by intros o l'' [-> ->].
  - intros e l' [-> Hs]. destruct signer; naive_solver.
  - intros h l' [-> Hs]. destruct signer; naive_solver.
Qed.

(** One transmission of an order: nothing was sent, or one answer decides. *)
Definition transmission (body : json) (o : outcome AppError json)
    (log : list (HttpRequest * HttpAnswer)) : Prop :=
  (posts log = [] /\ exists e, o = Err e /\ should_retry_private_request e = false) \/
  exists request answer, posts log = [(request, answer)] /\ q_body request = json_text body /\
    judged (verdict_of answer) o.

Lemma private_post_once_logs body :
  logs (transmission body) (private_post_once CREATE_ORDER body).
Proof.
  unfold private_post_once. eapply logs_bind; [apply silent_reading| |naive_solver..].
  intros context l [-> _]. eapply logs_bind; [apply silent_reading| |naive_solver..].
  intros base l [-> _]. eapply logs_bind; [apply asks_sign_headers| |simpl|simpl].
  - intros headers l [Hl _]. eapply logs_bind; [apply http_logs| |simpl|simpl].
    + intros [status text] l' (answer & -> & Ha). destruct answer as [|status' text']; [done|].
      injection Ha as -> ->. eapply logs_mono; [apply parse_response_judged|].
      intros o l' [-> Hj]. right. eexists _, _.
      split; [simpl; rewrite posts_app, Hl; done|]. by split.
    + intros e l' (answer & -> & Ha). destruct answer; [|done]. injection Ha as ->. right.
      eexists _, _. split; [simpl; rewrite posts_app, Hl; done|]. split; [done|]. by split.
    + intros h l' (answer & _ & Ha). by destruct answer.
  - intros e l [Hl He]. left. eauto.
  - intros h l [_ []].
Qed.

Lemma private_post_logs body :
  logs (fun o log =>
          (posts log = [] /\ exists e, o = Err e) \/
          (exists request answer, posts log = [(request, answer)] /\ q_body request = json_text body /\
             match o with
             | Ok _ => judged (verdict_of answer) o
             | Err e => definitely_not_accepted e = true -> denies (verdict_of answer) = true
             | Halt _ => False
             end) \/
          (exists request answer request' answer',
             posts log = [(request, answer); (request', answer')] /\
             q_body request = json_text body /\ q_body request' = json_text body /\
             stale (verdict_of answer) = true /\ judged (verdict_of answer') o))
       (private_post CREATE_ORDER body).
Proof.
  unfold private_post, with_retry.
  eapply logs_bind; [apply asks_ensure_time_sync| |naive_solver|intros h l [_ []]].
  intros [] l0 [Hp0 _]. eapply logs_bind.
  { eapply logs_try with
      (R := fun o log => match o with
                         | Ok (inr payload) => transmission body (Ok payload) log
                         | Ok (inl e) => transmission body (Err e) log
                         | Err _ => False
                         | Halt _ => False
                         end); [apply private_post_once_logs|naive_solver..|].
    intros h l [(_ & e & [=] & _)|(request & answer & _ & _ & [])]. }
  2,3: naive_solver.
  intros [e|payload] l1 Ht; [destruct (should_retry_private_request e) eqn:Er|].
  - destruct Ht as [(_ & e' & [= <-] & He)|(request & answer & Hp1 & Hq & Hd & Hs)]; [congruence|].
    specialize (Hs Er). eapply logs_bind; [apply asks_force_time_sync| | |intros h l [_ []]].
    + intros [] l2 [Hp2 _]. eapply logs_mono; [apply private_post_once_logs|].
      intros o l3 [(Hp3 & e' & -> & He)|(request' & answer' & Hp3 & Hq' & Hj)].
      * right; left. exists request, answer. rewrite !posts_app, Hp0, Hp1, Hp2, Hp3. split_and!; [done..|].
        intros _. by destruct (verdict_of answer).
      * right; right. exists request, answer, request', answer'.
        by rewrite !posts_app, Hp0, Hp1, Hp2, Hp3.
    + intros e' l2 [Hp2 _]. right; left. exists request, answer.
      rewrite !posts_app, Hp0, Hp1, Hp2. split_and!; [done..|]. intros _. by destruct (verdict_of answer).
  - eapply logs_mono; [apply silent_fail|]. intros o l2 [-> ->]. rewrite app_nil_r.
    destruct Ht as [(Hp1 & _)|(request & answer & Hp1 & Hq & Hd & _)].
    + left. rewrite posts_app, Hp0, Hp1. eauto.
    + right; left. exists request, answer. by rewrite posts_app, Hp0, Hp1.
  - eapply logs_mono; [apply silent_ret|]. intros o l2 [-> ->]. rewrite app_nil_r.
    destruct Ht as [(_ & e & [=] & _)|(request & answer & Hp1 & Hq & Hj)].
    right; left. exists request, answer. by rewrite posts_app, Hp0, Hp1.
Qed.
End ClientFacts.

Lemma single_before {A} (P : A -> Prop) a before last :
  [a] = (before ++ [last])%list -> Forall P before.
Proof. destruct before as [|? []]; [by constructor|done..]. Qed.

Lemma pair_before {A} (P : A -> Prop) a b : P a -> forall before last,
  [a; b] = (before ++ [last])%list -> Forall P before.
Proof.
  intros Ha [|x [|y [|]]] last; [by constructor|intros [= -> _]; by repeat constructor|done..].
Qed.

(** C14: An order is transmitted at most twice, with the same body, and the second
    time only when the first was refused for its time stamp or signature.  The
    caller is given an order only when the last answer took it, and the order
    is the one that answer names; it is given an error the journal settles as
    not accepted only when every answer refused or declined the order. *)
Theorem an_order_is_resent_only_after_a_refusal
    `{UrlLib} `{HmacLib} `{StatusText} `{JsonText} `{Codec json} `{DecimalLib}
    {X : Type} `{ApiEnvironment X} (request : PlaceOrderRequest) (w : api_world X) :
  exists log, w_answers (create_order request w).2 = (w_answers w ++ log)%list /\
    Forall (fun p => q_body p.1 = json_text (build_place_order_body request)) (posts log) /\
    (length (posts log) <= 2)%nat /\
    (forall before last, posts log = (before ++ [last])%list ->
       Forall (fun p => stale (verdict_of p.2) = true) before) /\
    match (create_order request w).1 with
    | Ok order => exists before last candidate,
        posts log = (before ++ [last])%list /\ verdict_of last.2 = Took candidate /\
        order = parse_order candidate
    | Err e => definitely_not_accepted e = true ->
        Forall (fun p => denies (verdict_of p.2) = true) (posts log)
    | Halt _ => False
    end.
Proof.
  assert (logs (fun o log => 
    Forall (fun p => q_body p.1 = json_text (build_place_order_body request)) (posts log) /\
    (length (posts log) <= 2)%nat /\
    (forall before last, posts log = (before ++ [last])%list ->
       Forall (fun p => stale (verdict_of p.2) = true) before) /\
    match o with
    | Ok order => exists before last candidate,
        posts log = (before ++ [last])%list /\ verdict_of last.2 = Took candidate /\
        order = parse_order candidate
    | Err e => definitely_not_accepted e = true ->
        Forall (fun p => denies (verdict_of p.2) = true) (posts log)
    | Halt _ => False
    end) (create_order request)) as Hlogs; [|exact (Hlogs w)].
  unfold create_order. eapply logs_bind; [apply private_post_logs| | |].
  - intros payload l Hl. eapply logs_mono; [apply silent_lift|]. intros o l' [-> ->].
    rewrite app_nil_r. unfold parse_create_order_payload.
    destruct Hl as [(_ & e & [=])|[(q & a & -> & Hq & c & Hv & ->)|
                     (q & a & q' & a' & -> & Hq & Hq' & Hs & c & Hv & ->)]].
    + split_and!; [by repeat constructor|simpl; lia|by apply single_before|].
      destruct (trim_is_empty _); [done|]. by exists [], (q, a), c.
    + split_and!; [by repeat constructor|simpl; lia|by apply pair_before|].
      destruct (trim_is_empty _); [done|]. by exists [(q, a)], (q', a'), c.
  - intros e l [(-> & _)|[(q & a & -> & Hq & Hd)|(q & a & q' & a' & -> & Hq & Hq' & Hs & Hd & _)]].
    + split_and!; [by repeat constructor|simpl; lia|by intros [] ?|by constructor].
    + split_and!; [by repeat constructor|simpl; lia|by apply single_before|].
      intros He. repeat constructor. by apply Hd.
    + split_and!; [by repeat constructor|simpl; lia|by apply pair_before|].
      intros He. repeat constructor; [|by apply Hd]. simpl. by destruct (verdict_of a).
  - intros h l [(_ & e & [=])|[(q & a & _ & _ & [])|(q & a & q' & a' & _ & _ & _ & _ & [])]].
Qed.
