(* ===== verification/Accounts.v ===== *)
(** services/account_profiles.rs and its modules: the accounts of the desktop,
    and the transactions that switch, save and delete them under the lifecycle
    lock.  What they need of the rest of the program is the interface
    [AccountLifecyclePort], with its laws. *)
From stdpp Require Import gmap.
From Stdlib Require Import Ascii.
From S2P Require Import Prelude RustStr FileSystem External Models Mapper ApiClient.

(** ** models/config.rs *)

Definition normalize_account_id (account_id : string) : string :=
  let trimmed := trim account_id in if is_empty trimmed then "default" else trimmed.

Inductive ThemeMode := Dark | Light.
Inductive ConnectionStatus := Disconnected | Connecting | Connected | ConnectionError.
#[export] Instance ConnectionStatus_eq_dec : EqDecision ConnectionStatus.
Proof. solve_decision. Defined.

Record NotificationSettings := {
  trading_toast : bool;
  risk_account_toast : bool;
  connection_system_toast : bool;
}.

Record AppConfig := {
  active_symbol : string;
  active_account_id : string;
  watchlist_symbols : list string;
  theme : ThemeMode;
  kline_interval : string;
  use_websocket : bool;
  ws_public_url : string;
  ws_private_url : string;
  ticker_poll_interval : f64;
  window_width : Z;
  window_height : Z;
  accounts : list string;
  risk_enabled : bool;
  risk_max_order_qty : string;
  risk_max_price_deviation_pct : string;
  risk_max_daily_orders : Z;
  trading_day_timezone : string;
  notification_settings : NotificationSettings;
}.

(** The two fields the transactions write. *)
Definition with_accounts (active : string) (ids : list string) (c : AppConfig) : AppConfig :=
  {| active_symbol := active_symbol c; active_account_id := active;
     watchlist_symbols := watchlist_symbols c; theme := theme c;
     kline_interval := kline_interval c; use_websocket := use_websocket c;
     ws_public_url := ws_public_url c; ws_private_url := ws_private_url c;
     ticker_poll_interval := ticker_poll_interval c; window_width := window_width c;
     window_height := window_height c; accounts := ids; risk_enabled := risk_enabled c;
     risk_max_order_qty := risk_max_order_qty c;
     risk_max_price_deviation_pct := risk_max_price_deviation_pct c;
     risk_max_daily_orders := risk_max_daily_orders c;
     trading_day_timezone := trading_day_timezone c;
     notification_settings := notification_settings c |}.

(** commands/config.rs: what a saved configuration cannot change. *)
Definition merge_lifecycle_config (incoming current : AppConfig) : AppConfig :=
  with_accounts (active_account_id current) (accounts current) incoming.

Record SaveCredentialRequest := {
  sv_account_id : string;
  sv_api_key : string;
  sv_api_secret : string;
  sv_base_url : string;
  sv_label : string;
}.

(** ** models/account.rs *)

Inductive CredentialState := Present | Missing | CredentialUnavailable.

Record AccountProfile := {
  ap_account_id : string;
  ap_label : string;
  ap_base_url : string;
  ap_credential_state : CredentialState;
  ap_active : bool;
}.

Record AccountSwitchResult := {
  sw_active_account_id : string;
  sw_connected : bool;
  sw_session_epoch : Z;
}.

Record DeleteAccountResult := { notification_cleanup_pending : bool; warning_code : option string }.

Definition DeleteAccountResult_complete : DeleteAccountResult :=
  {| notification_cleanup_pending := false; warning_code := None |}.
Definition DeleteAccountResult_cleanup_pending : DeleteAccountResult :=
  {| notification_cleanup_pending := true; warning_code := Some "NOTIFICATION_CLEANUP_PENDING" |}.

(** ** listing.rs *)

(** The loop over the trimmed identities, with those already seen. *)
Fixpoint keep_new (seen : list string) (ids : list string) : list string :=
  match ids with
  | [] => []
  | id :: rest =>
      if is_empty id || bool_decide (id ∈ seen) then keep_new seen rest
      else id :: keep_new (id :: seen) rest
  end.

Definition normalize_account_ids (ids : list string) (active_account_id : string) : list string :=
  let active := normalize_account_id active_account_id in
  let normalized := keep_new [] (map trim ids) in
  if bool_decide (active ∈ normalized) then normalized else active :: normalized.

Section Listing.
Context `{UrlLib}.

Definition unavailable_profile (account_id active : string) : AccountProfile :=
  {| ap_account_id := account_id; ap_label := account_id; ap_base_url := DEFAULT_BASE_URL;
     ap_credential_state := CredentialUnavailable; ap_active := account_id ==s active |}.

Definition account_profile (active account_id : string)
    (loaded : outcome AppError (option ApiCredential)) : AccountProfile :=
  match loaded with
  | Ok (Some credential) =>
      let credential := normalize credential in
      if is_valid credential then
        {| ap_account_id := account_id;
           ap_label := if is_empty (label credential) then account_id else label credential;
           ap_base_url := base_url credential; ap_credential_state := Present;
           ap_active := account_id ==s active |}
      else unavailable_profile account_id active
  | Ok None =>
      {| ap_account_id := account_id; ap_label := account_id; ap_base_url := DEFAULT_BASE_URL;
         ap_credential_state := Missing; ap_active := account_id ==s active |}
  | _ => unavailable_profile account_id active
  end.

Definition build_account_profiles (ids : list string) (active_account_id : string)
    (load : string -> outcome AppError (option ApiCredential)) : list AccountProfile :=
  let active := normalize_account_id active_account_id in
  map (fun id => account_profile active id (load id)) (normalize_account_ids ids active).
End Listing.

(** ** account_profiles.rs *)

(** What the transactions ask of the rest of the program. *)
Class AccountLifecyclePort (W : Type) := {
  read_config : W -> AppConfig;
  replace_runtime_config : AppConfig -> W -> W;
  persist_config : AppConfig -> M W AppError unit;
  load_credential : string -> M W AppError (option ApiCredential);
  save_credential : string -> ApiCredential -> M W AppError unit;
  delete_credential : string -> M W AppError unit;
  connection_status : W -> ConnectionStatus;
  preflight : ApiCredential -> M W AppError unit;
  (* these take the coordinator's epoch too, last *)
  disconnect : Z -> W -> W;
  connect : string -> bool -> ApiCredential -> Z -> Z -> M W AppError unit;
  activate_public_environment : ApiCredential -> W -> W;
  activate_session : SessionContext -> Z -> W -> W;
  clear_account_data : W -> W;
  (* [true] when the partition is gone *)
  delete_notification_partition : string -> W -> bool * W;
}.

(** The coordinator's epoch beside the port. *)
Record lifecycle {W : Type} := Lifecycle { session_epoch : Z; port : W }.
Arguments lifecycle : clear implicits.
Arguments Lifecycle {W} _ _.

Definition ACCOUNT_SWITCH_RECOVERY_REQUIRED_MARKER : string := "ACCOUNT_SWITCH_RECOVERY_REQUIRED".

Section Transactions.
Context `{UrlLib} {W : Type} `{AccountLifecyclePort W}.

Abbreviation action A := (M (lifecycle W) AppError A).

Definition reads_port {A} (f : W -> A) : action A := fun w => (Ok (f (port w)), w).
Definition does (f : W -> W) : action unit :=
  fun w => (Ok tt, Lifecycle (session_epoch w) (f (port w))).
Definition asks_port {A} (c : M W AppError A) : action A :=
  fun w => let '(o, x) := c (port w) in (o, Lifecycle (session_epoch w) x).

Definition current_session_epoch : action Z := fun w => (Ok (session_epoch w), w).
Definition next_session_epoch (epoch : Z) : Z := u64_saturating_add epoch 1.
(** [fetch_add(1) + 1]. *)
Definition advance_session_epoch : action Z :=
  fun w => let next := as_u64 (session_epoch w + 1) in (Ok next, Lifecycle next (port w)).

Definition safe_load (account_id : string) : action (option ApiCredential) :=
  mmap_err (fun _ => Auth "账户凭据不可用") (asks_port (load_credential account_id)).

Definition valid_credential (value : option ApiCredential) : outcome AppError ApiCredential :=
  let? c := ok_or (Auth "未找到账户凭据") value in
  let c := normalize c in
  if is_valid c then Ok c else Err (Auth "账户凭据不可用").

Definition is_notified (e : AppError) : bool :=
  match e with Notified _ _ _ _ => true | _ => false end.

Definition recovery_required : AppError :=
  Internal (ACCOUNT_SWITCH_RECOVERY_REQUIRED_MARKER +:+ ": 账户切换失败且恢复原账户失败").

(** The error of a call whose result is collected, if it has one. *)
Definition collect (c : action unit) : action (list AppError) :=
  let* r := mtry c in mret match r with inl e => [e] | inr _ => [] end.

Definition rollback_switch (former_config : AppConfig) (former_status : ConnectionStatus)
    (former_credential : option ApiCredential) (primary : AppError) : action AppError :=
  let* persisted := collect (asks_port (persist_config former_config)) in
  does (replace_runtime_config former_config) ;;;
  let* epoch := current_session_epoch in
  let* connected :=
    match former_credential with
    | Some credential =>
        if decide (former_status = Connected) then
          collect (asks_port (connect (normalize_account_id (active_account_id former_config))
                                (use_websocket former_config) credential epoch epoch))
        else mret []
    | None => mret []
    end in
  let rollback_errors := (persisted ++ connected)%list in
  match rollback_errors with
  | [] => mret primary
  | _ =>
      does (disconnect epoch) ;;;
      mret match List.find is_notified rollback_errors with
           | Some e => e
           | None => if is_notified primary then primary else recovery_required
           end
  end.

(** A step of the switch that is undone when it fails. *)
Definition or_roll_back (former_config : AppConfig) (former_status : ConnectionStatus)
    (former_credential : option ApiCredential) (c : action unit) : action unit :=
  let* r := mtry c in
  match r with
  | inr _ => mret tt
  | inl primary =>
      let* e := rollback_switch former_config former_status former_credential primary in mfail e
  end.

(** From the disconnection on. *)
Definition commit_switch (former_config target_config : AppConfig) (former_status : ConnectionStatus)
    (former_credential : option ApiCredential) (target_credential : ApiCredential)
    (start_realtime : option bool) : action AccountSwitchResult :=
  let target_id := active_account_id target_config in
  let connected := bool_decide (former_status = Connected) in
  let* epoch := current_session_epoch in
  does (disconnect epoch) ;;;
  or_roll_back former_config former_status former_credential
    (asks_port (persist_config target_config)) ;;;
  does (replace_runtime_config target_config) ;;;
  (if connected then
     let* epoch := current_session_epoch in
     or_roll_back former_config former_status former_credential
       (asks_port (connect target_id (default (use_websocket former_config) start_realtime)
                     target_credential (next_session_epoch epoch) epoch))
   else does (activate_public_environment target_credential)) ;;;
  does clear_account_data ;;;
  let* epoch := advance_session_epoch in
  does (activate_session {| ses_account_id := target_id; ses_session_epoch := epoch |} epoch) ;;;
  mret {| sw_active_account_id := target_id; sw_connected := connected;
          sw_session_epoch := epoch |}.

(** The credential of an account the switch needs. *)
Definition required_credential (account_id : string) : action ApiCredential :=
  let* loaded := safe_load account_id in
  mlift (valid_credential loaded).

Definition switch_account (account_id : string) (start_realtime : option bool)
    : action AccountSwitchResult :=
  let* former_config := reads_port read_config in
  let former_id := normalize_account_id (active_account_id former_config) in
  let target_id := normalize_account_id account_id in
  let* former_status := reads_port connection_status in
  let connected := bool_decide (former_status = Connected) in
  if target_id ==s former_id then
    let* epoch := current_session_epoch in
    mret {| sw_active_account_id := former_id; sw_connected := connected;
            sw_session_epoch := epoch |}
  else
    let ids := normalize_account_ids (accounts former_config) former_id in
    if negb (bool_decide (target_id ∈ ids)) then mfail (Config "账户配置不存在")
    else
      let* target_credential := required_credential target_id in
      asks_port (preflight target_credential) ;;;
      let* former_credential :=
        if connected then let* c := required_credential former_id in mret (Some c) else mret None in
      commit_switch former_config (with_accounts target_id ids former_config) former_status
        former_credential target_credential start_realtime.

(** ** mutations.rs *)

(** The error reported when the credentials could not be put back. *)
Definition with_rollback_failure (primary : AppError) : AppError :=
  Internal (user_message primary +:+ "；回滚失败：无法恢复账户凭据").

Definition undo {A} (primary : AppError) (c : M W AppError unit) : action A :=
  let* r := mtry (asks_port c) in
  mfail match r with inr _ => primary | inl _ => with_rollback_failure primary end.

Definition delete_account (account_id : string) : action DeleteAccountResult :=
  let* config := reads_port read_config in
  let active := normalize_account_id (active_account_id config) in
  let target := normalize_account_id account_id in
  let ids := normalize_account_ids (accounts config) active in
  if target ==s active then mfail (Config "不能删除当前账户")
  else if (length ids <=? 1)%nat then mfail (Config "不能删除唯一账户")
  else if negb (bool_decide (target ∈ ids)) then mfail (Config "账户配置不存在")
  else
    let* former_credential := safe_load target in
    mmap_err (fun _ => Auth "删除账户凭据失败") (asks_port (delete_credential target)) ;;;
    let next := with_accounts (active_account_id config)
                  (List.filter (fun id => id !=s target) ids) config in
    let* persisted := mtry (asks_port (persist_config next)) in
    match persisted with
    | inl primary =>
        match former_credential with
        | Some credential => undo primary (save_credential target credential)
        | None => mfail primary
        end
    | inr _ =>
        does (replace_runtime_config next) ;;;
        fun w =>
          let '(gone, x) := delete_notification_partition target (port w) in
          (Ok (if gone then DeleteAccountResult_complete else DeleteAccountResult_cleanup_pending),
           Lifecycle (session_epoch w) x)
    end.

Definition labelled (base label_ : string) (c : ApiCredential) : ApiCredential :=
  normalize {| api_key := api_key c; api_secret := api_secret c; base_url := base; label := label_ |}.

(** The credential a request stands for, beside what is stored. *)
Definition requested_credential (account_id : string) (configured : bool)
    (existing : option ApiCredential) (request : SaveCredentialRequest)
    : outcome AppError ApiCredential :=
  let key := trim (sv_api_key request) in
  let secret := trim (sv_api_secret request) in
  let? _ := guard (xorb (is_empty key) (is_empty secret))
              (Auth "API 访问密钥和签名密钥必须同时填写") in
  let? credential :=
    if is_empty key then
      if configured then valid_credential existing
      else Err (Auth "新账户必须填写 API 访问密钥和签名密钥")
    else Ok (normalize {| api_key := key; api_secret := secret; base_url := sv_base_url request;
                          label := sv_label request |}) in
  let credential := labelled (sv_base_url request) (sv_label request) credential in
  let credential :=
    if is_empty (label credential) then
      {| api_key := api_key credential; api_secret := api_secret credential;
         base_url := base_url credential; label := account_id |}
    else credential in
  let? _ := guard (negb (is_valid credential)) (Auth "API 服务地址无效") in
  Ok credential.

Definition save_credentials (request : SaveCredentialRequest) : action unit :=
  let account_id := normalize_account_id (sv_account_id request) in
  let* config := reads_port read_config in
  let configured_accounts :=
    normalize_account_ids (accounts config) (active_account_id config) in
  let configured := bool_decide (account_id ∈ configured_accounts) in
  let* existing := safe_load account_id in
  let* credential := mlift (requested_credential account_id configured existing request) in
  mmap_err (fun _ => Auth "保存账户凭据失败")
    (asks_port (save_credential account_id credential)) ;;;
  let next := with_accounts (active_account_id config)
    (if configured then configured_accounts else configured_accounts ++ [account_id])%list config in
  let* persisted := mtry (asks_port (persist_config next)) in
  match persisted with
  | inl primary =>
      undo primary match existing with
                   | Some former => save_credential account_id former
                   | None => delete_credential account_id
                   end
  | inr _ => does (replace_runtime_config next)
  end.
End Transactions.

(** * What the port promises *)

(** What the transactions are about: the running and the stored configuration,
    the credentials as they load, and the connection. *)
Record account_view := AccountView {
  v_config : AppConfig;
  v_persisted : AppConfig;
  v_vault : gmap string ApiCredential;
  v_status : ConnectionStatus;
}.

Definition with_status (s : ConnectionStatus) (v : account_view) : account_view :=
  AccountView (v_config v) (v_persisted v) (v_vault v) s.

(** Each operation changes its own part only; a refused write leaves the old
    value or, when it failed late, the new one. *)
Class AccountLifecycleLaws (W : Type) `{UrlLib} `{AccountLifecyclePort W} := {
  view : W -> account_view;
  view_config x : read_config x = v_config (view x);
  view_status x : connection_status x = v_status (view x);
  (* a credential is normalized when it is loaded *)
  view_normal id c x : v_vault (view x) !! id = Some c -> normalize c = c;
  view_replace c x :
    view (replace_runtime_config c x) =
    AccountView c (v_persisted (view x)) (v_vault (view x)) (v_status (view x));
  view_persist c x :
    wp (persist_config c)
      (fun _ x' => view x' = AccountView (v_config (view x)) c (v_vault (view x)) (v_status (view x)))
      (fun _ x' => exists p, (p = v_persisted (view x) \/ p = c) /\
         view x' = AccountView (v_config (view x)) p (v_vault (view x)) (v_status (view x)))
      (fun _ => False) x;
  view_load id x :
    wp (load_credential id) (fun v x' => v = v_vault (view x) !! id /\ view x' = view x)
      (fun _ x' => view x' = view x) (fun _ => False) x;
  view_save id c x :
    wp (save_credential id c)
      (fun _ x' => is_valid c = true /\ view x' = AccountView (v_config (view x)) (v_persisted (view x))
                               (<[id := normalize c]> (v_vault (view x))) (v_status (view x)))
      (fun _ x' => exists m, (m = v_vault (view x) \/ m = <[id := normalize c]> (v_vault (view x))) /\
         view x' = AccountView (v_config (view x)) (v_persisted (view x)) m (v_status (view x)))
      (fun _ => False) x;
  view_delete id x :
    wp (delete_credential id)
      (fun _ x' => view x' = AccountView (v_config (view x)) (v_persisted (view x))
                               (delete id (v_vault (view x))) (v_status (view x)))
      (fun _ x' => exists m, (m = v_vault (view x) \/ m = delete id (v_vault (view x))) /\
         view x' = AccountView (v_config (view x)) (v_persisted (view x)) m (v_status (view x)))
      (fun _ => False) x;
  view_preflight c x :
    wp (preflight c) (fun _ x' => view x' = view x) (fun _ x' => view x' = view x) (fun _ => False) x;
  view_disconnect now x : view (disconnect now x) = with_status Disconnected (view x);
  view_connect id realtime c epoch now x :
    wp (connect id realtime c epoch now) (fun _ x' => view x' = with_status Connected (view x))
      (fun _ x' => view x' = with_status ConnectionError (view x)) (fun _ => False) x;
  view_environment c x : view (activate_public_environment c x) = view x;
  view_session s now x : view (activate_session s now x) = view x;
  view_clear x : view (clear_account_data x) = view x;
  view_partition id x : view (delete_notification_partition id x).2 = view x;
}.

Section TransactionFacts.
Context {W : Type} `{AccountLifecycleLaws W}.

Abbreviation action A := (M (lifecycle W) AppError A).

(** Runs that end. *)
Definition ends {A} (c : action A) (Q : A -> lifecycle W -> Prop)
    (R : AppError -> lifecycle W -> Prop) (w : lifecycle W) : Prop :=
  wp c Q R (fun _ => False) w.

Definition seen (w : lifecycle W) : account_view := view (port w).

Lemma ends_bind {A B} (c : action A) (k : A -> action B) Q R w :
  ends c (fun a w' => ends (k a) Q R w') R w -> ends (mbind c k) Q R w.
Proof. apply wp_bind. Qed.

Lemma ends_weaken {A} (c : action A) (Q Q' : A -> lifecycle W -> Prop) (R R' : AppError -> lifecycle W -> Prop) w :
  ends c Q R w -> (forall a w', Q a w' -> Q' a w') -> (forall e w', R e w' -> R' e w') ->
  ends c Q' R' w.
Proof. intros Hc HQ HR. by eapply wp_mono. Qed.

Lemma ends_lift {A} (o : outcome AppError A) Q R w :
  match o with Ok a => Q a w | Err e => R e w | Halt _ => False end -> ends (mlift o) Q R w.
Proof. by destruct o. Qed.

Lemma ends_asks {A} (c : M W AppError A) (Q : A -> lifecycle W -> Prop) R w :
  wp c (fun a x => Q a (Lifecycle (session_epoch w) x)) (fun e x => R e (Lifecycle (session_epoch w) x))
    (fun _ => False) (port w) -> ends (asks_port c) Q R w.
Proof. unfold ends, wp, asks_port. by destruct (c (port w)) as [[] x]. Qed.

Lemma ends_try {A} (c : action A) (Q : AppError + A -> lifecycle W -> Prop) R w :
  ends c (fun a => Q (inr a)) (fun e => Q (inl e)) w -> ends (mtry c) Q R w.
Proof. apply wp_try. Qed.

Lemma ends_map_err {A} f (c : action A) Q R w :
  ends c Q (fun e => R (f e)) w -> ends (mmap_err f c) Q R w.
Proof. apply wp_map_err. Qed.

Lemma ends_ret {A} (a : A) (Q : A -> lifecycle W -> Prop) R w : Q a w -> ends (mret a) Q R w.
Proof. done. Qed.
Lemma ends_reads {A} (f : W -> A) (Q : A -> lifecycle W -> Prop) R w :
  Q (f (port w)) w -> ends (reads_port f) Q R w.
Proof. done. Qed.
Lemma ends_epoch (Q : Z -> lifecycle W -> Prop) R w :
  Q (session_epoch w) w -> ends current_session_epoch Q R w.
Proof. done. Qed.
Lemma ends_does f (Q : unit -> lifecycle W -> Prop) R w :
  (forall w', session_epoch w' = session_epoch w -> seen w' = view (f (port w)) -> Q tt w') ->
  ends (does f) Q R w.
Proof. intros HQ. by apply HQ. Qed.

(** The calls of the port, on the world as it is seen. *)
Lemma ends_persist c (Q : unit -> lifecycle W -> Prop) (R : AppError -> lifecycle W -> Prop) w :
  (forall w', session_epoch w' = session_epoch w ->
     seen w' = AccountView (v_config (seen w)) c (v_vault (seen w)) (v_status (seen w)) -> Q tt w') ->
  (forall e w' p, session_epoch w' = session_epoch w -> p = v_persisted (seen w) \/ p = c ->
     seen w' = AccountView (v_config (seen w)) p (v_vault (seen w)) (v_status (seen w)) -> R e w') ->
  ends (asks_port (persist_config c)) Q R w.
Proof.
  intros HQ HR. apply ends_asks. eapply wp_mono; [apply view_persist|..]; [|intros e|done].
  - intros [] x Hx. by apply HQ.
  - intros x (p & Hp & Hx). by eapply HR.
Qed.

Lemma ends_load id (Q : option ApiCredential -> lifecycle W -> Prop) (R : AppError -> lifecycle W -> Prop) w :
  (forall w', session_epoch w' = session_epoch w -> seen w' = seen w -> Q (v_vault (seen w) !! id) w') ->
  (forall w', session_epoch w' = session_epoch w -> seen w' = seen w -> R (Auth "账户凭据不可用") w') ->
  ends (safe_load id) Q R w.
Proof.
  intros HQ HR. apply ends_map_err, ends_asks. eapply wp_mono; [apply view_load|..]; [|intros e|done].
  - intros v x [-> Hx]. by apply HQ.
  - intros x Hx. by apply HR.
Qed.

Lemma ends_connect id realtime c epoch now (Q : unit -> lifecycle W -> Prop) (R : AppError -> lifecycle W -> Prop) w :
  (forall w', session_epoch w' = session_epoch w -> seen w' = with_status Connected (seen w) -> Q tt w') ->
  (forall e w', session_epoch w' = session_epoch w ->
     seen w' = with_status ConnectionError (seen w) -> R e w') ->
  ends (asks_port (connect id realtime c epoch now)) Q R w.
Proof.
  intros HQ HR. apply ends_asks. eapply wp_mono; [apply view_connect|..]; [|intros e|done].
  - intros [] x Hx. by apply HQ.
  - intros x Hx. by apply HR.
Qed.

Lemma ends_collect c (Q : list AppError -> lifecycle W -> Prop) (R : AppError -> lifecycle W -> Prop) w :
  ends c (fun _ => Q []) (fun e => Q [e]) w -> ends (collect c) Q R w.
Proof. intros Hc. apply ends_bind, ends_try. by eapply ends_weaken. Qed.

(** How a switch that failed late leaves the world: rolled back to the former
    configuration and connection, or disconnected with an error that says so. *)
Definition rolled_back (former : AppConfig) (status : ConnectionStatus) (e : AppError)
    (w w' : lifecycle W) : Prop :=
  session_epoch w' = session_epoch w /\ v_config (seen w') = former /\
  v_vault (seen w') = v_vault (seen w) /\
  ((v_persisted (seen w') = former /\
    v_status (seen w') = if decide (status = Connected) then Connected else Disconnected) \/
   (v_status (seen w') = Disconnected /\ (is_notified e = true \/ e = recovery_required) /\
    (v_persisted (seen w') = former \/ v_persisted (seen w') = v_persisted (seen w)))).

Lemma find_notified (l : list AppError) e : List.find is_notified l = Some e -> is_notified e = true.
Proof. by intros [_ Hf]%List.find_some. Qed.

(** The last step of a rollback, from what is known of the world before it. *)
Ltac close Hend :=
  apply Hend; repeat match goal with V : seen _ = _ |- _ => rewrite V end; simpl;
  first [done | congruence | by auto | naive_solver].

Lemma rollback_ends former status credential primary w Q R :
  v_status (seen w) <> Connected -> (status <> Connected -> v_status (seen w) = Disconnected) ->
  (status = Connected -> is_Some credential) ->
  (forall e w', rolled_back former status e w w' -> Q e w') ->
  ends (rollback_switch former status credential primary) Q R w.
Proof.
  intros Hs Hd Hc HQ.
  assert (forall w' errors epoch, session_epoch w' = session_epoch w -> v_config (seen w') = former ->
            v_vault (seen w') = v_vault (seen w) ->
            (v_persisted (seen w') = former \/ v_persisted (seen w') = v_persisted (seen w)) ->
            (errors = [] -> v_persisted (seen w') = former /\
               v_status (seen w') = if decide (status = Connected) then Connected else Disconnected) ->
            ends match errors with
                 | [] => mret primary
                 | _ => does (disconnect epoch) ;;;
                        mret match List.find is_notified errors with
                             | Some e => e
                             | None => if is_notified primary then primary else recovery_required
                             end
                 end Q R w') as Hend.
  { intros w' errors epoch Ee Ev Eu Ep Hclean. destruct errors as [|e0 errors].
    - apply HQ. destruct (Hclean eq_refl). split_and!; [done..|]. by left.
    - apply HQ. unfold rolled_back, seen in *. simpl. rewrite view_disconnect. split_and!; [done..|]. right.
      split; [done|]. split; [|exact Ep]. pose proof (find_notified (e0 :: errors)) as Hn. simpl in Hn.
      destruct (if is_notified e0 then _ else _) as [e|]; [by left; apply Hn|].
      destruct (is_notified primary) eqn:Ei; auto. }
  apply ends_bind, ends_collect, ends_persist.
  - intros w1 E1 V1. apply ends_bind, ends_does. intros w2 E2 V2.
    rewrite view_replace in V2. fold (seen w1) in V2. rewrite V1 in V2. simpl in V2.
    apply ends_bind, ends_epoch.
    destruct (decide (status = Connected)) as [Hst|Hst].
    + destruct (Hc Hst) as [c ->]. apply ends_bind, ends_collect, ends_connect.
      * intros w3 E3 V3. close Hend.
      * intros e w3 E3 V3. close Hend.
    + apply ends_bind. destruct credential as [c|]; close Hend.
  - intros e w1 p E1 Hp V1. apply ends_bind, ends_does. intros w2 E2 V2.
    rewrite view_replace in V2. fold (seen w1) in V2. rewrite V1 in V2. simpl in V2.
    apply ends_bind, ends_epoch.
    destruct (decide (status = Connected)) as [Hst|Hst].
    + destruct (Hc Hst) as [c ->]. apply ends_bind, ends_collect, ends_connect.
      * intros w3 E3 V3. close Hend.
      * intros e' w3 E3 V3. close Hend.
    + apply ends_bind. destruct credential as [c|]; close Hend.
Qed.
End TransactionFacts.

Section SwitchFacts.
Context {W : Type} `{AccountLifecycleLaws W}.

Lemma ends_or_roll_back former status credential c (Q : unit -> lifecycle W -> Prop) R w :
  (status = Connected -> is_Some credential) ->
  ends c (fun _ => Q tt)
    (fun e w1 => v_status (seen w1) <> Connected /\
                 (status <> Connected -> v_status (seen w1) = Disconnected) /\
                 forall e' w', rolled_back former status e' w1 w' -> R e' w') w ->
  ends (or_roll_back former status credential c) Q R w.
Proof.
  intros Hc Hrun. apply ends_bind, ends_try. eapply ends_weaken; [exact Hrun|..].
  - intros [] w1 HQ. exact HQ.
  - intros e w1 (Hs & Hd & HR). apply ends_bind. by apply rollback_ends.
Qed.

Definition kept_status (status : ConnectionStatus) : ConnectionStatus :=
  if decide (status = Connected) then Connected else Disconnected.

(** The world after a switch to [next], and after one that failed. *)
Definition switch_done (next : AppConfig) (w w' : lifecycle W) (r : AccountSwitchResult) : Prop :=
  r = {| sw_active_account_id := active_account_id next;
         sw_connected := bool_decide (v_status (seen w) = Connected);
         sw_session_epoch := session_epoch w' |} /\
  session_epoch w' = as_u64 (session_epoch w + 1) /\
  seen w' = AccountView next next (v_vault (seen w)) (kept_status (v_status (seen w))).

Definition switch_failed (next : AppConfig) (w w' : lifecycle W) (e : AppError) : Prop :=
  session_epoch w' = session_epoch w /\ v_config (seen w') = v_config (seen w) /\
  v_vault (seen w') = v_vault (seen w) /\
  (seen w' = seen w \/
   (v_persisted (seen w') = v_config (seen w) /\
    v_status (seen w') = kept_status (v_status (seen w))) \/
   (v_status (seen w') = Disconnected /\ (is_notified e = true \/ e = recovery_required) /\
    (v_persisted (seen w') = v_config (seen w) \/ v_persisted (seen w') = v_persisted (seen w) \/
     v_persisted (seen w') = next))).

Lemma switch_unchanged next e w w' :
  session_epoch w' = session_epoch w -> seen w' = seen w -> switch_failed next w w' e.
Proof. intros E V. unfold switch_failed. rewrite V. split_and!; auto. Qed.

Lemma rolled_back_failed next e w w1 w' :
  session_epoch w1 = session_epoch w -> v_vault (seen w1) = v_vault (seen w) ->
  v_persisted (seen w1) = v_persisted (seen w) \/ v_persisted (seen w1) = next ->
  rolled_back (v_config (seen w)) (v_status (seen w)) e w1 w' -> switch_failed next w w' e.
Proof.
  intros E V P (E' & C & U & D). unfold switch_failed. rewrite E', C, U, E, V. split_and!; [done..|].
  right. destruct D as [D|(S & N & D)]; [by left|right]. split_and!; [done..|].
  destruct D as [->|D]; [by left|right]. by rewrite D.
Qed.

(** The end of a switch, once the connection stands. *)
Lemma publish_ends target connected w (Q : AccountSwitchResult -> lifecycle W -> Prop) R :
  (forall w', session_epoch w' = as_u64 (session_epoch w + 1) -> seen w' = seen w ->
     Q {| sw_active_account_id := target; sw_connected := connected;
          sw_session_epoch := session_epoch w' |} w') ->
  ends (does clear_account_data ;;;
        let* epoch := advance_session_epoch in
        does (activate_session {| ses_account_id := target; ses_session_epoch := epoch |} epoch) ;;;
        mret {| sw_active_account_id := target; sw_connected := connected;
                sw_session_epoch := epoch |}) Q R w.
Proof.
  intros HQ. apply ends_bind, ends_does. intros w1 E1 V1. rewrite view_clear in V1.
  apply ends_bind. unfold ends at 1, wp, advance_session_epoch at 1.
  apply ends_bind, ends_does. intros w2 E2 V2. rewrite view_session in V2. simpl in E2, V2.
  apply ends_ret. rewrite E1 in *. rewrite <- E2. apply HQ; [done|]. by rewrite V2.
Qed.

Lemma commit_ends next credential target_credential start_realtime w w0 :
  session_epoch w0 = session_epoch w -> seen w0 = seen w ->
  (v_status (seen w) = Connected -> is_Some credential) ->
  ends (commit_switch (v_config (seen w)) next (v_status (seen w)) credential target_credential
          start_realtime)
    (fun r w' => switch_done next w w' r) (fun e w' => switch_failed next w w' e) w0.
Proof.
  intros E0 V0 Hc. apply ends_bind, ends_epoch, ends_bind, ends_does. intros w1 E1 V1.
  rewrite view_disconnect in V1. fold (seen w0) in V1. rewrite V0 in V1. rewrite E0 in E1.
  apply ends_bind, ends_or_roll_back; [done|]. apply ends_persist; rewrite V1; simpl.
  2: { intros e w2 p E2 Hp V2. rewrite V2. split_and!; [done..|]. intros e' w'.
       apply rolled_back_failed; [by rewrite E2|by rewrite V2..]. }
  intros w2 E2 V2. apply ends_bind, ends_does. intros w3 E3 V3. rewrite view_replace in V3.
  fold (seen w2) in V3. rewrite V2 in V3. simpl in V3. rewrite E2, E1 in E3.
  apply ends_bind. destruct (decide (v_status (seen w) = Connected)) as [Hst|Hst].
  - rewrite bool_decide_eq_true_2 by done. apply ends_bind, ends_epoch.
    apply ends_or_roll_back; [done|]. apply ends_connect; rewrite V3; unfold with_status; simpl.
    + intros w4 E4 V4. apply publish_ends. intros w' E' V'. unfold switch_done, kept_status.
      rewrite bool_decide_eq_true_2, decide_True by done. by rewrite E', E4, E3, V', V4.
    + intros e w4 E4 V4. rewrite V4. split_and!; [done..|]. intros e' w'.
      apply rolled_back_failed; [by rewrite E4|rewrite V4; by auto..].
  - rewrite bool_decide_eq_false_2 by done. apply ends_does. intros w4 E4 V4.
    rewrite view_environment in V4. fold (seen w3) in V4. apply publish_ends. intros w' E' V'.
    unfold switch_done, kept_status. rewrite bool_decide_eq_false_2, decide_False by done.
    by rewrite E', E4, E3, V', V4, V3.
Qed.

Lemma required_ends id w w0 (Q : ApiCredential -> lifecycle W -> Prop) R :
  session_epoch w0 = session_epoch w -> seen w0 = seen w ->
  (forall c w', session_epoch w' = session_epoch w -> seen w' = seen w ->
     v_vault (seen w) !! id = Some c -> is_valid (normalize c) = true -> Q (normalize c) w') ->
  (forall e w', session_epoch w' = session_epoch w -> seen w' = seen w -> R e w') ->
  ends (required_credential id) Q R w0.
Proof.
  intros E0 V0 HQ HR. apply ends_bind, ends_load; rewrite E0, V0; [|by auto].
  intros w1 E1 V1. apply ends_lift. unfold valid_credential.
  destruct (v_vault (seen w) !! id) as [c|] eqn:Ec; simpl; [|by apply HR].
  destruct (is_valid (normalize c)) eqn:Ev; [by eapply HQ|by apply HR].
Qed.

(** What a switch does to the world, by its result. *)
Definition switched (account_id : string) (w w' : lifecycle W) (o : outcome AppError AccountSwitchResult)
    : Prop :=
  let config := v_config (seen w) in
  let former := normalize_account_id (active_account_id config) in
  let target := normalize_account_id account_id in
  let ids := normalize_account_ids (accounts config) former in
  match o with
  | Ok r =>
      (target = former /\ w' = w /\ sw_session_epoch r = session_epoch w /\
       sw_active_account_id r = former) \/
      (target <> former /\ target ∈ ids /\
       (exists c, v_vault (seen w) !! target = Some c /\ is_valid (normalize c) = true) /\
       switch_done (with_accounts target ids config) w w' r)
  | Err e => target <> former /\ switch_failed (with_accounts target ids config) w w' e
  | Halt _ => False
  end.

Lemma switch_ends account_id start_realtime w :
  ends (switch_account account_id start_realtime)
    (fun r w' => switched account_id w w' (Ok r)) (fun e w' => switched account_id w w' (Err e)) w.
Proof.
  unfold switch_account. apply ends_bind, ends_reads. rewrite view_config. fold (seen w).
  apply ends_bind, ends_reads. rewrite view_status. fold (seen w).
  set (former := normalize_account_id (active_account_id (v_config (seen w)))).
  set (target := normalize_account_id account_id).
  destruct (String.eqb_spec target former) as [Ht|Ht].
  { apply ends_bind, ends_epoch, ends_ret. by left. }
  set (ids := normalize_account_ids _ _).
  destruct (decide (target ∈ ids)) as [Hin|Hin];
    [rewrite bool_decide_eq_true_2 by done|rewrite bool_decide_eq_false_2 by done]; simpl;
    [|split; [done|by apply switch_unchanged]].
  apply ends_bind, (required_ends _ w); [done..| |intros e w1 E V; split; [done|by apply switch_unchanged]].
  intros c w1 E1 V1 Ec Hv. apply ends_bind, ends_asks.
  eapply wp_mono; [apply view_preflight|..]; [intros []|intros e|done]; intros x V;
    fold (seen w1) in V; rewrite V1 in V; [|split; [done|by apply switch_unchanged]].
  apply ends_bind. eapply ends_weaken with
    (Q := fun cred w2 => session_epoch w2 = session_epoch w /\ seen w2 = seen w /\
                         (v_status (seen w) = Connected -> is_Some cred))
    (R := fun _ w2 => session_epoch w2 = session_epoch w /\ seen w2 = seen w).
  - case_bool_decide; [|by apply ends_ret]. apply ends_bind, (required_ends _ w); [done..| |done].
    intros c' w2 E2 V2 _ _. apply ends_ret. split_and!; eauto.
  - intros cred w2 (E2 & V2 & Hcred).
    eapply ends_weaken; [by apply (commit_ends (with_accounts target ids (v_config (seen w))) cred _ _ w)|..].
    + intros r w' Hdone. right. split_and!; eauto.
    + intros e w' Hf. by split.
  - intros e w2 [E2 V2]. split; [done|]. by apply switch_unchanged.
Qed.
End SwitchFacts.

(** C17: Switching the account is all or nothing.  An [Ok] either found the account
    already active and changed nothing, or the account is configured, its stored
    credential is valid, the running and the stored configuration both name it,
    the session epoch has moved on by one, and the desktop is connected exactly
    if it was.  An error leaves the epoch, the running configuration and every
    credential as they were; unless the connection was never touched, the stored
    configuration and the connection are put back, or else the desktop is
    disconnected, the error says that recovery is required or is one the user has
    been notified of, and the stored configuration is the running one, the one
    stored before or the target's. *)
Theorem switch_is_all_or_nothing {W : Type} `{AccountLifecycleLaws W} account_id start_realtime w :
  let '(o, w') := switch_account account_id start_realtime w in switched account_id w w' o.
Proof.
  pose proof (switch_ends account_id start_realtime w) as Hends. unfold ends, wp in Hends.
  by destruct (switch_account account_id start_realtime w) as [[] w'].
Qed.

Section EditFacts.
Context {W : Type} `{AccountLifecycleLaws W}.

(** What an edit of an account's credential leaves behind when it failed, [next]
    the configuration it was to store and [edited] what it was to make of the
    credential.  The configuration runs on, with the connection and every other
    credential.  The account's own is the former one, the configuration stored
    or not; or the key store refused the edit and made it all the same, before
    any configuration was stored; or the edit stands since it could not be
    taken back, which the error says. *)
Definition edit_failed (account : string) (refused : AppError) (next : AppConfig)
    (edited : option ApiCredential -> Prop) (w w' : lifecycle W) (e : AppError) : Prop :=
  let former := v_vault (seen w) !! account in
  let own := v_vault (seen w') !! account in
  let stored_either := v_persisted (seen w') = v_persisted (seen w) \/ v_persisted (seen w') = next in
  session_epoch w' = session_epoch w /\ v_config (seen w') = v_config (seen w) /\
  v_status (seen w') = v_status (seen w) /\
  (forall id, id <> account -> v_vault (seen w') !! id = v_vault (seen w) !! id) /\
  ((own = former /\ stored_either) \/
   (edited own /\ e = refused /\ v_persisted (seen w') = v_persisted (seen w)) \/
   (edited own /\ (exists primary, e = with_rollback_failure primary) /\ stored_either)).

Definition edit_done (vault : gmap string ApiCredential) (next : AppConfig) (w w' : lifecycle W) : Prop :=
  session_epoch w' = session_epoch w /\
  seen w' = AccountView next next vault (v_status (seen w)).

Lemma edit_unchanged account refused next edited w w' e :
  session_epoch w' = session_epoch w -> seen w' = seen w ->
  edit_failed account refused next edited w w' e.
Proof. intros E V. unfold edit_failed. rewrite V. split_and!; auto. Qed.

(** A key store that refused the edit left the old credentials or the new ones. *)
Lemma edit_refused account refused next (edited : option ApiCredential -> Prop) m w w' :
  session_epoch w' = session_epoch w ->
  seen w' = AccountView (v_config (seen w)) (v_persisted (seen w)) m (v_status (seen w)) ->
  m = v_vault (seen w) \/
    edited (m !! account) /\ (forall id, id <> account -> m !! id = v_vault (seen w) !! id) ->
  edit_failed account refused next edited w w' refused.
Proof.
  intros E V Hm. unfold edit_failed. rewrite V. simpl.
  destruct Hm as [->|[Hm Hid]]; split_and!; auto.
Qed.

(** Putting the credential back after the configuration could not be stored. *)
Lemma undo_ends {A} account refused next (edited : option ApiCredential -> Prop) primary c w w0
    (Q : A -> lifecycle W -> Prop) :
  session_epoch w0 = session_epoch w -> v_config (seen w0) = v_config (seen w) ->
  v_status (seen w0) = v_status (seen w) ->
  v_persisted (seen w0) = v_persisted (seen w) \/ v_persisted (seen w0) = next ->
  (forall id, id <> account -> v_vault (seen w0) !! id = v_vault (seen w) !! id) ->
  edited (v_vault (seen w0) !! account) ->
  c = match v_vault (seen w) !! account with
      | Some former => save_credential account former
      | None => delete_credential account
      end ->
  ends (undo primary c) Q (fun e w' => edit_failed account refused next edited w w' e) w0.
Proof.
  intros E C S P U D ->.
  assert (forall e x m, view x = AccountView (v_config (seen w0)) (v_persisted (seen w0)) m
              (v_status (seen w0)) ->
            (forall id, id <> account -> m !! id = v_vault (seen w) !! id) ->
            m !! account = v_vault (seen w) !! account \/
              edited (m !! account) /\ e = with_rollback_failure primary ->
            edit_failed account refused next edited w (Lifecycle (session_epoch w0) x) e) as Hend.
  { intros e x m V Hid Hm. unfold edit_failed. change (seen (Lifecycle (session_epoch w0) x)) with (view x). rewrite V. simpl.
    split_and!; [done..|]. destruct Hm as [Hm|[Hm He]]; eauto 8. }
  apply ends_bind, ends_try, ends_asks.
  destruct (v_vault (seen w) !! account) as [former|] eqn:Ef.
  - assert (normalize former = former) as Hn by (by eapply view_normal).
    eapply wp_mono; [apply view_save|..]; [|intros e|done].
    + intros [] x [_ V]. eapply Hend; [exact V|..].
      * intros id Hid. rewrite lookup_insert_ne by done. by apply U.
      * left. rewrite lookup_insert_eq. by f_equal.
    + intros x (m & Hm & V). eapply Hend; [exact V|..].
      * intros id Hid. destruct Hm as [->| ->]; [by apply U|].
        rewrite lookup_insert_ne by done. by apply U.
      * destruct Hm as [->| ->]; [by right|]. left. rewrite lookup_insert_eq. by f_equal.
  - eapply wp_mono; [apply view_delete|..]; [|intros e|done].
    + intros [] x V. eapply Hend; [exact V|..].
      * intros id Hid. rewrite lookup_delete_ne by done. by apply U.
      * left. apply lookup_delete_eq.
    + intros x (m & Hm & V). eapply Hend; [exact V|..].
      * intros id Hid. destruct Hm as [->| ->]; [by apply U|].
        rewrite lookup_delete_ne by done. by apply U.
      * destruct Hm as [->| ->]; [by right|]. left. apply lookup_delete_eq.
Qed.

(** What saving a credential does to the world, by its result. *)
Definition credential_saved (request : SaveCredentialRequest) (w w' : lifecycle W)
    (o : outcome AppError unit) : Prop :=
  let config := v_config (seen w) in
  let account := normalize_account_id (sv_account_id request) in
  let ids := normalize_account_ids (accounts config) (active_account_id config) in
  let configured := bool_decide (account ∈ ids) in
  let requested c :=
    requested_credential account configured (v_vault (seen w) !! account) request = Ok c in
  let next :=
    with_accounts (active_account_id config) (if configured then ids else ids ++ [account])%list
      config in
  match o with
  | Ok _ => exists c, requested c /\ is_valid c = true /\
      edit_done (<[account := normalize c]> (v_vault (seen w))) next w w'
  | Err e =>
      edit_failed account (Auth "保存账户凭据失败") next
        (fun own => exists c, requested c /\ own = Some (normalize c)) w w' e
  | Halt _ => False
  end.

Lemma requested_ended account configured existing request h :
  requested_credential account configured existing request <> Halt h.
Proof.
  assert (forall b (e : AppError) h', guard b e <> Halt h') as Hg by (by intros []).
  intros Hr. unfold requested_credential in Hr. destruct (guard (xorb _ _) _) eqn:E1; simpl in Hr;
    [|done|by apply Hg in E1]. clear E1.
  destruct (is_empty (trim (sv_api_key request))); [destruct configured; [|done]|].
  - unfold valid_credential in Hr. destruct existing as [c|]; simpl in Hr; [|done].
    destruct (is_valid (normalize c)); simpl in Hr; [|done].
    destruct (guard (negb _) _) eqn:E2; simpl in Hr; [done|done|by apply Hg in E2].
  - simpl in Hr. destruct (guard (negb _) _) eqn:E2; simpl in Hr; [done|done|by apply Hg in E2].
Qed.

Lemma save_ends request w :
  ends (save_credentials request) (fun r w' => credential_saved request w w' (Ok r))
    (fun e w' => credential_saved request w w' (Err e)) w.
Proof.
  unfold save_credentials. apply ends_bind, ends_reads. rewrite view_config. fold (seen w).
  set (account := normalize_account_id _). set (ids := normalize_account_ids _ _).
  apply ends_bind, ends_load; [|intros w1 E1 V1; by apply edit_unchanged]. intros w1 E1 V1.
  apply ends_bind, ends_lift.
  destruct (requested_credential _ _ _ _) as [c|e|h] eqn:Ec; [|by apply edit_unchanged|].
  2: { by apply requested_ended in Ec. }
  apply ends_bind, ends_map_err, ends_asks.
  eapply wp_mono; [apply view_save|..]; [intros []|intros e|done]; intros x; fold (seen w1); rewrite V1.
  2: { intros (m & Hm & V). apply (edit_refused _ _ _ _ m); [done..|].
       destruct Hm as [->| ->]; [by left|right]. rewrite lookup_insert_eq. split; [by eauto|].
       intros id Hid. by rewrite lookup_insert_ne. }
  intros [Hv V]. apply ends_bind, ends_try.
  set (w2 := Lifecycle (session_epoch w1) x). change (view x) with (seen w2) in V.
  assert (session_epoch w2 = session_epoch w) as E2 by done. clearbody w2.
  apply ends_persist; rewrite V; simpl.
  - intros w3 E3 V3. apply ends_does. intros w4 E4 V4. rewrite view_replace in V4. fold (seen w3) in V4.
    rewrite V3 in V4. exists c. do 2 (split; [done|]). split; [congruence|done].
  - intros e w3 p E3 Hp V3. apply (undo_ends account); rewrite ?V3; [congruence|done..| | |done].
    + intros id Hid. by apply lookup_insert_ne.
    + simpl. rewrite lookup_insert_eq. by eauto.
Qed.

(** What deleting an account does to the world, by its result. *)
Definition account_deleted (account_id : string) (w w' : lifecycle W)
    (o : outcome AppError DeleteAccountResult) : Prop :=
  let config := v_config (seen w) in
  let active := normalize_account_id (active_account_id config) in
  let account := normalize_account_id account_id in
  let ids := normalize_account_ids (accounts config) active in
  let next :=
    with_accounts (active_account_id config) (List.filter (fun id => id !=s account) ids) config in
  match o with
  | Ok _ => account <> active /\ account ∈ ids /\ (1 < length ids)%nat /\
      edit_done (delete account (v_vault (seen w))) next w w'
  | Err e =>
      edit_failed account (Auth "删除账户凭据失败") next (fun own => own = None) w w' e
  | Halt _ => False
  end.

Lemma delete_ends account_id w :
  ends (delete_account account_id) (fun r w' => account_deleted account_id w w' (Ok r))
    (fun e w' => account_deleted account_id w w' (Err e)) w.
Proof.
  unfold delete_account. apply ends_bind, ends_reads. rewrite view_config. fold (seen w).
  set (active := normalize_account_id (active_account_id _)).
  set (account := normalize_account_id account_id). set (ids := normalize_account_ids _ _).
  destruct (String.eqb_spec account active) as [Ha|Ha]; [by apply edit_unchanged|].
  destruct (Nat.leb_spec (length ids) 1) as [Hl|Hl]; [by apply edit_unchanged|].
  case_bool_decide as Hin; [|by apply edit_unchanged]. simpl.
  apply ends_bind, ends_load; [|intros w1 E1 V1; by apply edit_unchanged]. intros w1 E1 V1.
  apply ends_bind, ends_map_err, ends_asks.
  eapply wp_mono; [apply view_delete|..]; [intros []|intros e|done]; intros x; fold (seen w1); rewrite V1.
  2: { intros (m & Hm & V). apply (edit_refused _ _ _ _ m); [done..|].
       destruct Hm as [->| ->]; [by left|right]. split; [apply lookup_delete_eq|].
       intros id Hid. by rewrite lookup_delete_ne. }
  intros V. apply ends_bind, ends_try.
  set (w2 := Lifecycle (session_epoch w1) x). change (view x) with (seen w2) in V.
  assert (session_epoch w2 = session_epoch w) as E2 by done. clearbody w2.
  apply ends_persist; rewrite V; simpl.
  - intros w3 E3 V3. apply ends_bind, ends_does. intros w4 E4 V4. rewrite view_replace in V4.
    fold (seen w3) in V4. rewrite V3 in V4. unfold ends, wp.
    destruct (delete_notification_partition account (port w4)) as [gone x4] eqn:Ed.
    pose proof (view_partition account (port w4)) as V5. rewrite Ed in V5. simpl in V5.
    unfold account_deleted. do 3 (split; [done|]). split; [simpl; congruence|].
    unfold seen at 1. simpl. by rewrite V5.
  - intros e w3 p E3 Hp V3. destruct (v_vault (seen w) !! account) as [former|] eqn:Ef.
    + apply (undo_ends account); rewrite ?V3, ?Ef; [congruence|done..| | |done].
      * intros id Hid. by apply lookup_delete_ne.
      * apply lookup_delete_eq.
    + unfold ends, wp, mfail, account_deleted, edit_failed. rewrite V3. simpl.
      split_and!; [congruence|done|done| |].
      * intros id Hid. by apply lookup_delete_ne.
      * left. split; [rewrite lookup_delete_eq; symmetry; exact Ef|done].
Qed.
End EditFacts.

(** C40: Saving a credential and deleting an account are transactions over the key
    store and the configuration.  After an [Ok] the account's credential is the
    valid one the request stands for, or is gone, and the running and the stored
    configuration list the accounts accordingly; the active account cannot be
    deleted, nor the only one.  After an error the running configuration, the
    connection and the credentials of every other account are as they were.  The
    account's own is the former one, unless it is the edited one and the key
    store reported the edit as refused, with nothing stored of the
    configuration, or the error says that putting the credential back failed.
    The stored configuration may be the edited one, if storing it failed after
    it was written: that is not undone. *)
Theorem credential_edits_are_undone {W : Type} `{AccountLifecycleLaws W} request account_id w :
  (let '(o, w') := save_credentials request w in credential_saved request w w' o) /\
  (let '(o, w') := delete_account account_id w in account_deleted account_id w w' o).
Proof.
  split.
  - pose proof (save_ends request w) as Hends. unfold ends, wp in Hends.
    by destruct (save_credentials request w) as [[] w'].
  - pose proof (delete_ends account_id w) as Hends. unfold ends, wp in Hends.
    by destruct (delete_account account_id w) as [[] w'].
Qed.
