(* ===== verification/WsManager.v ===== *)
(** ws/topics.rs, ws/messages.rs and ws/manager.rs: the public and the private
    stream of a session, how fresh their data is, and the gate that holds live
    orders back until the snapshot has been observed.  The streams, the control
    operations and the readers under the lifecycle lock interleave step by step. *)
From stdpp Require Import gmap.
From Stdlib Require Import Ascii.
From S2P Require Import Prelude RustStr External Models Trading KlineStore Workflow Mapper ApiClient Accounts.

(** ** topics.rs *)

Definition TOPIC_TICKER_PREFIX : string := "tickers-100.".
Definition TOPIC_DEPTH_PREFIX : string := "ob_snap_shot.".
Definition TOPIC_TRADES_PREFIX : string := "trades-100.".
Definition TOPIC_CANDLE_PREFIX : string := "candle.".
Definition TOPIC_POSITION : string := "contract.position".
Definition TOPIC_ORDER : string := "contract.order".
Definition TOPIC_EXECUTION : string := "contract.execution".
Definition TOPIC_WALLET : string := "contract.wallet".

Definition topic_ticker (symbol : string) : string := TOPIC_TICKER_PREFIX +:+ symbol.
Definition topic_depth (symbol tick : string) : string :=
  TOPIC_DEPTH_PREFIX +:+ symbol +:+ "." +:+ tick.
Definition topic_candle (symbol interval : string) : string :=
  TOPIC_CANDLE_PREFIX +:+ interval +:+ "." +:+ symbol.

Definition event_name_for_topic (topic : string) : string :=
  if starts_with topic TOPIC_TICKER_PREFIX then "ticker"
  else if starts_with topic TOPIC_DEPTH_PREFIX then "depth"
  else if starts_with topic TOPIC_TRADES_PREFIX then "trades"
  else if starts_with topic TOPIC_CANDLE_PREFIX then "candle"
  else if topic ==s TOPIC_POSITION then "position"
  else if topic ==s TOPIC_ORDER then "order"
  else if topic ==s TOPIC_EXECUTION then "execution"
  else if topic ==s TOPIC_WALLET then "balance"
  else if str_contains topic "ticker" then "ticker"
  else if str_contains topic "depth" || starts_with topic "ob_snap" then "depth"
  else if str_contains topic "order" then "order"
  else if str_contains topic "position" then "position"
  else if str_contains topic "wallet" || str_contains topic "balance" then "balance"
  else "unknown".

(** ** messages.rs *)

Definition build_subscribe_message (topics : list string) : json :=
  JObject [("op", JString "subscribe"); ("args", JArray (map JString topics))].
Definition build_ping_message : json := JObject [("op", JString "ping")].
Definition build_auth_message `{HmacLib} (signer : Signer) (expires_ms : Z) : json :=
  JObject [("op", JString "auth");
           ("args", JArray [JString (sg_api_key signer); JPosInt expires_ms;
                            JString (sign_ws_auth signer expires_ms)])].
Definition default_auth_expires_ms (now_ms : Z) : Z := as_u64 (now_ms + 60000).

(** ** manager.rs: freshness *)

Inductive FreshnessDomain := DTicker | DDepth | DCandle | DBalance | DOrder | DPosition.
#[export] Instance FreshnessDomain_eq_dec : EqDecision FreshnessDomain.
Proof. solve_decision. Defined.

(** The time of the last message of each domain, [0] for none. *)
Definition WsFreshness : Type := FreshnessDomain -> Z.
Definition WsFreshness_default : WsFreshness := fun _ => 0.

Definition touch (domain : FreshnessDomain) (timestamp_ms : Z) (f : WsFreshness) : WsFreshness :=
  fun d => if decide (d = domain) then timestamp_ms else f d.

Definition reset_domains (domains : list FreshnessDomain) (f : WsFreshness) : WsFreshness :=
  fold_left (fun f d => touch d 0 f) domains f.
Definition reset_public : WsFreshness -> WsFreshness := reset_domains [DTicker; DDepth; DCandle].
Definition reset_private : WsFreshness -> WsFreshness := reset_domains [DBalance; DOrder; DPosition].
Definition reset_freshness (f : WsFreshness) : WsFreshness := reset_private (reset_public f).

Definition is_fresh_at (f : WsFreshness) (d : FreshnessDomain) (now_ms stale_ms : Z) : bool :=
  let last := f d in negb (last =? 0) && (saturating_sub now_ms last <=? stale_ms).
Definition is_market_fresh_at (f : WsFreshness) (now_ms stale_ms : Z) : bool :=
  forallb (fun d => is_fresh_at f d now_ms stale_ms) [DTicker; DDepth; DCandle].
Definition is_balance_fresh_at (f : WsFreshness) (now_ms stale_ms : Z) : bool :=
  is_fresh_at f DBalance now_ms stale_ms.
Definition is_private_panels_fresh_at (f : WsFreshness) (now_ms stale_ms : Z) : bool :=
  forallb (fun d => is_fresh_at f d now_ms stale_ms) [DOrder; DPosition].

(** ** manager.rs: messages *)

Definition member_text (v : option json) : option string := v ≫= as_str.

(** [message.get("topic").or_else(|| message.get("channel"))] as text. *)
Definition message_topic (message : json) : string :=
  default "" (member_text match json_get "topic" message with
                          | Some v => Some v
                          | None => json_get "channel" message
                          end).

Definition message_is_control_frame (message : json) : bool :=
  json_has "op" message
  || match json_get "request" message with
     | Some (JObject _ as request) => json_has "op" request
     | _ => false
     end.

Definition freshness_domain_for_topic (topic : string) : option FreshnessDomain :=
  if starts_with topic TOPIC_TICKER_PREFIX then Some DTicker
  else if starts_with topic TOPIC_DEPTH_PREFIX then Some DDepth
  else if starts_with topic TOPIC_CANDLE_PREFIX then Some DCandle
  else if topic ==s TOPIC_WALLET then Some DBalance
  else if topic ==s TOPIC_ORDER then Some DOrder
  else if topic ==s TOPIC_POSITION then Some DPosition
  else None.

(** The domain a message refreshes. *)
Definition message_domain (message : json) : option FreshnessDomain :=
  if message_is_control_frame message then None
  else freshness_domain_for_topic (message_topic message).

Definition record_message_freshness (message : json) (timestamp_ms : Z) (f : WsFreshness) : WsFreshness :=
  match message_domain message with Some d => touch d timestamp_ms f | None => f end.

(** The calls a message makes on the market service and the emitter. *)
Inductive stream_call :=
| MergeTicker (value : json) (symbol : string)
| EmitDepth (depth : Depth)
| MergeKlines (symbol interval : string) (updates : list Kline)
| EmitOrder (context : SessionContext) (order : Order)
| EmitPosition (context : SessionContext) (position : Position)
| EmitBalance (context : SessionContext) (balance : Balance)
| ScheduleBackfill (symbol : string).

Definition message_data (message : json) : json := default message (json_get "data" message).

Definition dispatch_list {A} (data : json) (handler : json -> A) : list A :=
  match data with
  | JArray items => map handler items
  | JObject _ => [handler data]
  | _ => []
  end.

(** [topic.split('.').nth(n)]. *)
Fixpoint split_nth (n : nat) (s : string) : option string :=
  match s with
  | EmptyString => match n with O => Some "" | S _ => None end
  | String c rest =>
      if Ascii.eqb c "." then match n with O => Some "" | S n' => split_nth n' rest end
      else match n with
           | O => option_map (String c) (split_nth O rest)
           | S _ => split_nth n rest
           end
  end.

Section Messages.
Context `{JsonText}.

Definition handle_message (message : json) (symbol : string) (has_market : bool)
    (context : SessionContext) : list stream_call :=
  let topic := message_topic message in
  let data := message_data message in
  let name := event_name_for_topic topic in
  if name ==s "ticker" then
    if has_market then
      match data with
      | JObject _ => [MergeTicker data symbol]
      | JArray (first :: _) => [MergeTicker first symbol]
      | _ => []
      end
    else []
  else if name ==s "depth" then [EmitDepth (parse_depth data symbol)]
  else if name ==s "candle" then
    let interval := default "1" (split_nth 1 topic) in
    if has_market then [MergeKlines symbol interval (parse_klines data symbol interval)] else []
  else if name ==s "order" then dispatch_list data (fun v => EmitOrder context (parse_order v))
  else if name ==s "position" then dispatch_list data (fun v => EmitPosition context (parse_position v))
  else if name ==s "balance" then dispatch_list data (fun v => EmitBalance context (parse_balance v))
  else [].

(** The orders [observe_private_orders] finds in a message. *)
Definition message_orders (message : json) : list Order :=
  if event_name_for_topic (message_topic message) ==s "order"
  then dispatch_list (message_data message) parse_order else [].
End Messages.

(** The only answer taken for an authentication: [op] is [auth], [success] is
    [true], and neither an echoed request nor an error code is present. *)
Definition validate_private_auth_ack (response : json) : bool :=
  bool_decide (member_text (json_get "op" response) = Some "auth")
  && bool_decide (json_get "success" response ≫= as_bool = Some true)
  && negb (json_has "request" response)
  && forallb (fun field => negb (json_has field response)) ["code"; "retCode"; "ret_code"].

(** ** manager.rs: the gate of live orders *)

Record OrderObservationBuffer := {
  ob_context : option SessionContext;
  snapshot_seeded : bool;
  ob_pending : list Order;
}.

Definition OrderObservationBuffer_default : OrderObservationBuffer :=
  {| ob_context := None; snapshot_seeded := false; ob_pending := [] |}.

Definition buffer_reset (context : SessionContext) : OrderObservationBuffer :=
  {| ob_context := Some context; snapshot_seeded := false; ob_pending := [] |}.

Definition matches (context : SessionContext) (b : OrderObservationBuffer) : bool :=
  bool_decide (ob_context b = Some context).

Definition defer (context : SessionContext) (orders : list Order) (b : OrderObservationBuffer)
    : bool * OrderObservationBuffer :=
  if negb (matches context b) || snapshot_seeded b then (false, b)
  else (true, {| ob_context := ob_context b; snapshot_seeded := false;
                 ob_pending := ob_pending b ++ orders |}).

Definition pending_for_seed (context : SessionContext) (b : OrderObservationBuffer)
    : option (list Order) :=
  if negb (matches context b) || snapshot_seeded b then None else Some (ob_pending b).

Definition finish_seed (context : SessionContext) (b : OrderObservationBuffer)
    : bool * OrderObservationBuffer :=
  if negb (matches context b) || snapshot_seeded b then (false, b)
  else (true, {| ob_context := ob_context b; snapshot_seeded := true; ob_pending := [] |}).

(** ** manager.rs: the manager and its streams *)

Record Subscription := { sub_topic : string; sub_private : bool }.

Record WsManager := {
  ws_public : string;
  ws_private : string;
  ws_signer : option Signer;
  subscriptions : list Subscription;
  running : bool;
  public_connected : bool;
  private_connected : bool;
  ws_symbol : string;
  public_task : option nat;
  private_task : option nat;
  freshness : WsFreshness;
  order_observation_buffer : OrderObservationBuffer;
  order_snapshot_seeded : bool;
}.

Definition WsManager_new (public_url private_url : string) : WsManager :=
  {| ws_public := public_url; ws_private := private_url; ws_signer := None; subscriptions := [];
     running := false; public_connected := false; private_connected := false; ws_symbol := "";
     public_task := None; private_task := None; freshness := WsFreshness_default;
     order_observation_buffer := OrderObservationBuffer_default; order_snapshot_seeded := false |}.

Definition topic_snapshot (subs : list Subscription) (private : bool) : list string :=
  map sub_topic (List.filter (fun s => Bool.eqb (sub_private s) private) subs).

Definition all_subscriptions (symbol kline_interval : string) : list Subscription :=
  [{| sub_topic := topic_ticker symbol; sub_private := false |};
   {| sub_topic := topic_depth symbol "1"; sub_private := false |};
   {| sub_topic := topic_candle symbol kline_interval; sub_private := false |}]
  ++ map (fun t => {| sub_topic := t; sub_private := true |})
       [TOPIC_POSITION; TOPIC_ORDER; TOPIC_EXECUTION; TOPIC_WALLET].

(** Setters of the shared cells. *)
Definition set_connected (private value : bool) (m : WsManager) : WsManager :=
  {| ws_public := ws_public m; ws_private := ws_private m; ws_signer := ws_signer m;
     subscriptions := subscriptions m; running := running m;
     public_connected := if private then public_connected m else value;
     private_connected := if private then value else private_connected m;
     ws_symbol := ws_symbol m; public_task := public_task m; private_task := private_task m;
     freshness := freshness m; order_observation_buffer := order_observation_buffer m;
     order_snapshot_seeded := order_snapshot_seeded m |}.

Definition set_freshness (f : WsFreshness) (m : WsManager) : WsManager :=
  {| ws_public := ws_public m; ws_private := ws_private m; ws_signer := ws_signer m;
     subscriptions := subscriptions m; running := running m;
     public_connected := public_connected m; private_connected := private_connected m;
     ws_symbol := ws_symbol m; public_task := public_task m; private_task := private_task m;
     freshness := f; order_observation_buffer := order_observation_buffer m;
     order_snapshot_seeded := order_snapshot_seeded m |}.

Definition set_gate (b : OrderObservationBuffer) (seeded : bool) (m : WsManager) : WsManager :=
  {| ws_public := ws_public m; ws_private := ws_private m; ws_signer := ws_signer m;
     subscriptions := subscriptions m; running := running m;
     public_connected := public_connected m; private_connected := private_connected m;
     ws_symbol := ws_symbol m; public_task := public_task m; private_task := private_task m;
     freshness := freshness m; order_observation_buffer := b; order_snapshot_seeded := seeded |}.

Definition configure (public_url private_url : string) (signer : Signer) (m : WsManager) : WsManager :=
  {| ws_public := public_url; ws_private := private_url; ws_signer := Some signer;
     subscriptions := subscriptions m; running := running m;
     public_connected := public_connected m; private_connected := private_connected m;
     ws_symbol := ws_symbol m; public_task := public_task m; private_task := private_task m;
     freshness := freshness m; order_observation_buffer := order_observation_buffer m;
     order_snapshot_seeded := order_snapshot_seeded m |}.

Definition subscribe_all (symbol kline_interval : string) (m : WsManager) : WsManager :=
  {| ws_public := ws_public m; ws_private := ws_private m; ws_signer := ws_signer m;
     subscriptions := all_subscriptions symbol kline_interval; running := running m;
     public_connected := public_connected m; private_connected := private_connected m;
     ws_symbol := ws_symbol m; public_task := public_task m; private_task := private_task m;
     freshness := freshness m; order_observation_buffer := order_observation_buffer m;
     order_snapshot_seeded := order_snapshot_seeded m |}.

(** [is_market_healthy] and its kin, at the local clock's [now_ms]. *)
Definition is_market_healthy (m : WsManager) (now_ms stale_ms : Z) : bool :=
  public_connected m && is_market_fresh_at (freshness m) now_ms stale_ms.
Definition is_balance_healthy (m : WsManager) (now_ms stale_ms : Z) : bool :=
  private_connected m && is_balance_fresh_at (freshness m) now_ms stale_ms.
Definition is_private_panels_healthy (m : WsManager) (now_ms stale_ms : Z) : bool :=
  order_snapshot_seeded m && private_connected m
  && is_private_panels_fresh_at (freshness m) now_ms stale_ms.

(** The first half of [stop]: the flags are lowered and the handles taken. *)
Definition stop_begin (m : WsManager) : WsManager :=
  {| ws_public := ws_public m; ws_private := ws_private m; ws_signer := ws_signer m;
     subscriptions := subscriptions m; running := false;
     public_connected := false; private_connected := false;
     ws_symbol := ws_symbol m; public_task := None; private_task := None;
     freshness := freshness m; order_observation_buffer := order_observation_buffer m;
     order_snapshot_seeded := order_snapshot_seeded m |}.

(** The second half, when the aborted tasks have ended. *)
Definition stop_end (m : WsManager) : WsManager :=
  set_freshness (reset_freshness (freshness m)) (set_connected true false (set_connected false false m)).

(** Where a stream is in its loop and its session.  What several threads can see
    happen in between is a point of its own: [running] is read before
    [connected] is raised. *)
Inductive stream_pc :=
| LoopTop                                (* [while running] *)
| Dialing (topics : list string)         (* [connect_async] *)
| AwaitingAck (topics : list string)     (* private: the authentication was sent *)
| Acknowledged (topics : list string)    (* about to read [running] *)
| SawRunning (topics : list string)      (* it was true: about to raise [connected] *)
| Subscribing                            (* public: the subscription is still to be sent *)
| Checking                               (* private: about to read [connected] *)
| Reporting (status : ConnectionStatus)  (* private: waits for the lifecycle lock *)
| Open                                   (* [select!] *)
| Observing (orders : list Order)        (* private: waits for the lifecycle lock *)
| SessionFailed                          (* the session ended with an error *)
| SessionClosed                          (* the session ended with [Ok] *)
| Resetting                              (* about to reset the freshness *)
| Pausing                                (* about to read [running], then to sleep *)
| Finished.

Record stream_task := StreamTask {
  t_private : bool;
  t_url : string;
  t_symbol : string;
  t_context : SessionContext;
  t_pc : stream_pc;
}.

Definition goto (pc : stream_pc) (t : stream_task) : stream_task :=
  StreamTask (t_private t) (t_url t) (t_symbol t) (t_context t) pc.

(** What [start] does once the former streams have ended, and the tasks it
    spawns, numbered from [n] on. *)
Definition start_session (symbol : string) (context : SessionContext) (n : nat) (m : WsManager)
    : WsManager * list (nat * stream_task) :=
  let m := stop_end m in
  let public := match topic_snapshot (subscriptions m) false with
                | [] => None
                | _ => Some (n, StreamTask false (ws_public m) symbol context LoopTop)
                end in
  let private := match topic_snapshot (subscriptions m) true, ws_signer m with
                 | _ :: _, Some _ => Some (S n, StreamTask true (ws_private m) symbol context LoopTop)
                 | _, _ => None
                 end in
  ({| ws_public := ws_public m; ws_private := ws_private m; ws_signer := ws_signer m;
      subscriptions := subscriptions m; running := true;
      public_connected := public_connected m; private_connected := private_connected m;
      ws_symbol := symbol;
      public_task := match public with Some (i, _) => Some i | None => public_task m end;
      private_task := match private with Some (i, _) => Some i | None => private_task m end;
      freshness := freshness m; order_observation_buffer := buffer_reset context;
      order_snapshot_seeded := false |}, option_list public ++ option_list private)%list.

(** What happens, newest first. *)
Inductive stream_event :=
| EAccount (account : string) (epoch : Z)
| EStarted (context : SessionContext)
| EStopped
| EWebsocket (context : SessionContext) (status : string)
| EAcked (context : SessionContext)
| EMessage (private : bool) (domain : FreshnessDomain) (timestamp_ms : Z)
| ECalls (calls : list stream_call)
| EReset (private : bool)
| EConnection (context : SessionContext) (status : ConnectionStatus)
| EArrived (context : SessionContext) (orders : list Order)
| EAttempted (context : SessionContext) (shown : list (OrderObservationOrigin * Order))
| EReplayed (context : SessionContext) (snapshots pending : list Order)
| ELive (context : SessionContext) (order : Order)
| EManual (context : SessionContext) (orders : list Order).

(** The steps of a stream that wait for nobody. *)
Inductive local_step `{JsonText} (has_market : bool)
    : stream_task -> WsManager -> stream_task -> WsManager -> list stream_event -> Prop :=
| ls_top t m :
    t_pc t = LoopTop -> running m = true ->
    local_step has_market t m
      (goto match topic_snapshot (subscriptions m) (t_private t) with
            | [] => LoopTop
            | topics => Dialing topics
            end t) m []
| ls_top_stopped t m :
    t_pc t = LoopTop -> running m = false -> local_step has_market t m (goto Finished t) m []
| ls_dial_failed t m topics :
    t_pc t = Dialing topics -> local_step has_market t m (goto SessionFailed t) m []
| ls_dialed_public t m topics :
    t_pc t = Dialing topics -> t_private t = false ->
    local_step has_market t m (goto (Acknowledged topics) t) m []
| ls_dialed_private t m topics pc :
    (* the authentication is sent, or is not *)
    t_pc t = Dialing topics -> t_private t = true -> pc = AwaitingAck topics \/ pc = SessionFailed ->
    local_step has_market t m (goto pc t) (set_connected true false m) []
| ls_ack t m response topics pc :
    (* the subscription is sent, or is not *)
    t_pc t = AwaitingAck topics -> validate_private_auth_ack response = true ->
    pc = Acknowledged topics \/ pc = SessionFailed ->
    local_step has_market t m (goto pc t) m [EAcked (t_context t)]
| ls_nack t m topics :
    (* nothing in time, an error, or any other answer *)
    t_pc t = AwaitingAck topics -> local_step has_market t m (goto SessionFailed t) m []
| ls_running t m topics :
    t_pc t = Acknowledged topics -> running m = true ->
    local_step has_market t m (goto (SawRunning topics) t) m []
| ls_not_running t m topics :
    t_pc t = Acknowledged topics -> running m = false ->
    local_step has_market t m (goto (if t_private t then Checking else SessionClosed) t) m []
| ls_raise t m topics :
    t_pc t = SawRunning topics ->
    local_step has_market t m (goto (if t_private t then Checking else Subscribing) t)
      (set_connected (t_private t) true m)
      (if t_private t then []
       else [ECalls (if has_market then [ScheduleBackfill (t_symbol t)] else []);
             EWebsocket (t_context t) "connected"])
| ls_subscribe t m pc :
    t_pc t = Subscribing -> pc = Open \/ pc = SessionFailed ->
    local_step has_market t m (goto pc t) m []
| ls_check t m :
    t_pc t = Checking ->
    local_step has_market t m (goto (if private_connected m then Reporting Connected else Open) t) m
      (if private_connected m then [EWebsocket (t_context t) "connected"] else [])
| ls_open_stopped t m :
    t_pc t = Open -> running m = false -> local_step has_market t m (goto SessionClosed t) m []
| ls_open_failed t m :
    t_pc t = Open -> local_step has_market t m (goto SessionFailed t) m []
| ls_text t m message now_ms :
    t_pc t = Open ->
    local_step has_market t m
      (goto (if t_private t then match message_orders message with
                                 | [] => Open
                                 | orders => Observing orders
                                 end else Open) t)
      (set_freshness (record_message_freshness message now_ms (freshness m)) m)
      (ECalls (handle_message message (t_symbol t) has_market (t_context t))
       :: match message_domain message with
          | Some d => [EMessage (t_private t) d now_ms]
          | None => []
          end)
| ls_failed t m :
    t_pc t = SessionFailed -> t_private t = false \/ running m = true ->
    local_step has_market t m (goto (if t_private t then Reporting ConnectionError else Resetting) t)
      (set_connected (t_private t) false m) [EWebsocket (t_context t) "error"]
| ls_failed_stopped t m :
    t_pc t = SessionFailed -> t_private t = true -> running m = false ->
    local_step has_market t m (goto Resetting t) m []
| ls_closed t m :
    t_pc t = SessionClosed ->
    local_step has_market t m (goto Resetting t) (set_connected (t_private t) false m) []
| ls_reset t m :
    t_pc t = Resetting ->
    local_step has_market t m (goto Pausing t)
      (set_freshness ((if t_private t then reset_private else reset_public) (freshness m)) m)
      [EReset (t_private t)]
| ls_pause t m :
    t_pc t = Pausing ->
    local_step has_market t m (goto (if running m then LoopTop else Finished) t) m [].

(** The lifecycle lock, as the control operations hold it. *)
Inductive control_state :=
| Free
| Mutating
| Stopping (aborted : list nat) (next : option (string * SessionContext)).

Record stream_system {X : Type} := StreamSystem {
  manager : WsManager;
  tasks : gmap nat stream_task;
  next_task : nat;
  control : control_state;
  active_account : string;
  session_epoch_now : Z;
  notifications : X;
}.
Arguments stream_system : clear implicits.
Arguments StreamSystem {X} _ _ _ _ _ _ _.

Section System.
Context `{JsonText} (has_market : bool) {X : Type} (env : NotificationEnv X).

(** The session a context names is the current one. *)
Definition is_current (context : SessionContext) (s : stream_system X) : bool :=
  (session_epoch_now s =? ses_session_epoch context)
  && (active_account s ==s ses_account_id context).

Definition with_manager (m : WsManager) (s : stream_system X) : stream_system X :=
  StreamSystem m (tasks s) (next_task s) (control s) (active_account s) (session_epoch_now s)
    (notifications s).
Definition with_notifications (x : X) (s : stream_system X) : stream_system X :=
  StreamSystem (manager s) (tasks s) (next_task s) (control s) (active_account s)
    (session_epoch_now s) x.
Definition with_control (c : control_state) (s : stream_system X) : stream_system X :=
  StreamSystem (manager s) (tasks s) (next_task s) c (active_account s) (session_epoch_now s)
    (notifications s).
Definition with_task (i : nat) (t : stream_task) (s : stream_system X) : stream_system X :=
  StreamSystem (manager s) (<[i := t]> (tasks s)) (next_task s) (control s) (active_account s)
    (session_epoch_now s) (notifications s).

Definition gate (s : stream_system X) : OrderObservationBuffer := order_observation_buffer (manager s).

(** [seed_order_snapshots_and_mark] with [seed_order_gate]; a replay that fails
    has shown a part of the batch, which is kept. *)
Definition seed_order_snapshots_and_mark (context : SessionContext) (snapshots : list Order)
    (now_ms : Z) (s : stream_system X) : outcome AppError unit * stream_system X * list stream_event :=
  if negb (is_current context s) then (Ok tt, s, [])
  else match pending_for_seed context (gate s) with
       | None => (Ok tt, s, [])
       | Some pending =>
           let '(o, x) := seed_snapshot_then_replay env context snapshots pending now_ms
                            (notifications s) in
           let attempted := shown env context now_ms 0 (replay_order snapshots pending) (notifications s) in
           let s := with_notifications x s in
           match o with
           | Ok _ =>
               let '(finished, b) := finish_seed context (gate s) in
               (Ok tt,
                with_manager (set_gate b (finished || order_snapshot_seeded (manager s)) (manager s)) s,
                [EReplayed context snapshots pending])
           | _ => (o, s, [EAttempted context attempted])
           end
       end.

(** A list of observations, the [i]-th one [step i] milliseconds later. *)
Fixpoint observe_orders (context : SessionContext) (origin : OrderObservationOrigin)
    (times : nat -> Z) (orders : list Order) (x : X) : X :=
  match orders with
  | [] => x
  | order :: rest =>
      let '(_, x) := @observe X env Empty_set (ses_account_id context) (ses_session_epoch context) order
                       origin None (times O) x in
      observe_orders context origin (fun i => times (S i)) rest x
  end.

Definition observe_manual_order_snapshots (context : SessionContext) (snapshots : list Order)
    (now_ms : Z) (s : stream_system X) : stream_system X * list stream_event :=
  if negb (is_current context s) || negb (matches context (gate s) && snapshot_seeded (gate s))
  then (s, [])
  else (with_notifications
          (observe_orders context Trading.Snapshot (fun i => u64_saturating_add now_ms (Z.of_nat i)) snapshots
             (notifications s)) s, [EManual context snapshots]).

(** [observe_private_orders] under the lifecycle lock. *)
Definition observe_private_orders (context : SessionContext) (orders : list Order)
    (times : nat -> Z) (s : stream_system X) : stream_system X * list stream_event :=
  if negb (is_current context s) || negb (matches context (gate s)) then (s, [])
  else if negb (snapshot_seeded (gate s)) then
    (with_manager (set_gate (snd (defer context orders (gate s))) (order_snapshot_seeded (manager s))
                     (manager s)) s, [EArrived context orders])
  else
    (with_notifications (observe_orders context Realtime times orders (notifications s)) s,
     rev (map (ELive context) orders) ++ [EArrived context orders])%list.

Inductive step : stream_system X -> stream_system X -> list stream_event -> Prop :=
| st_local s i t t' m' es :
    tasks s !! i = Some t -> local_step has_market t (manager s) t' m' es ->
    step s (with_manager m' (with_task i t' s)) es
| st_report s i t status :
    tasks s !! i = Some t -> t_pc t = Reporting status -> control s = Free ->
    step s (with_task i (goto (if decide (status = Connected) then Open else Resetting) t) s)
      (if is_current (t_context t) s then [EConnection (t_context t) status] else [])
| st_observe s i t orders times s' es :
    tasks s !! i = Some t -> t_pc t = Observing orders -> control s = Free ->
    observe_private_orders (t_context t) orders times s = (s', es) ->
    step s (with_task i (goto Open t) s') es
| st_seed s context snapshots now_ms o s' es :
    control s = Free -> seed_order_snapshots_and_mark context snapshots now_ms s = (o, s', es) ->
    step s s' es
| st_seed_dropped s context snapshots pending now_ms k o x :
    (* the caller is dropped while the replay runs *)
    control s = Free -> is_current context s = true ->
    pending_for_seed context (gate s) = Some pending ->
    observe_all env context now_ms 0 (take k (replay_order snapshots pending)) (notifications s)
      = (o, x) ->
    step s (with_notifications x s)
      [EAttempted context
         (shown env context now_ms 0 (take k (replay_order snapshots pending)) (notifications s))]
| st_manual s context snapshots now_ms s' es :
    control s = Free -> observe_manual_order_snapshots context snapshots now_ms s = (s', es) ->
    step s s' es
| st_notifications s x : step s (with_notifications x s) []
| st_lock s : control s = Free -> step s (with_control Mutating s) []
| st_unlock s : control s = Mutating -> step s (with_control Free s) []
| st_account s account epoch :
    control s = Mutating ->
    step s (StreamSystem (manager s) (tasks s) (next_task s) Mutating account epoch (notifications s))
      [EAccount account epoch]
| st_configure s public_url private_url signer :
    control s = Mutating -> step s (with_manager (configure public_url private_url signer (manager s)) s) []
| st_subscribe s symbol interval :
    control s = Mutating -> step s (with_manager (subscribe_all symbol interval (manager s)) s) []
| st_stop s next :
    control s = Mutating ->
    step s (with_manager (stop_begin (manager s))
              (with_control (Stopping (option_list (public_task (manager s))
                                       ++ option_list (private_task (manager s))) next) s)) []
| st_stopped s aborted :
    control s = Stopping aborted None ->
    step s (StreamSystem (stop_end (manager s)) (foldr delete (tasks s) aborted) (next_task s) Mutating
              (active_account s) (session_epoch_now s) (notifications s)) [EStopped]
| st_start s aborted symbol context m spawned :
    control s = Stopping aborted (Some (symbol, context)) ->
    start_session symbol context (next_task s) (manager s) = (m, spawned) ->
    step s (StreamSystem m (list_to_map spawned ∪ foldr delete (tasks s) aborted)
              (next_task s + 2) Mutating (active_account s) (session_epoch_now s) (notifications s))
      [EWebsocket context "connecting"; EStarted context; EStopped].

Definition initial (public_url private_url account : string) (epoch : Z) (x : X) : stream_system X :=
  StreamSystem (WsManager_new public_url private_url) ∅ 0 Free account epoch x.

(** An execution, with what has happened newest first; the beginning tells the
    account. *)
Inductive execution : list stream_event -> stream_system X -> Prop :=
| ex_start public_url private_url account epoch x :
    execution [EAccount account epoch] (initial public_url private_url account epoch x)
| ex_step tr s s' es : execution tr s -> step s s' es -> execution (es ++ tr) s'.
End System.
