(* ===== verification/WsSafety.v ===== *)
(** What holds in every execution of the streams: the gate hands live orders
    over once and in order, only in their own session; and the health the
    manager reports rests on the streams and the data of the session that runs. *)
From stdpp Require Import gmap.
From S2P Require Import Prelude RustStr External Models Trading KlineStore Workflow Mapper ApiClient Accounts WsManager.

(** ** Reading a trace, newest first *)

(** The account the events before now belong to, and the session started last. *)
Fixpoint current_of (tr : list stream_event) : option (string * Z) :=
  match tr with
  | [] => None
  | EAccount account epoch :: _ => Some (account, epoch)
  | _ :: tr => current_of tr
  end.

Fixpoint last_started (tr : list stream_event) : option SessionContext :=
  match tr with
  | [] => None
  | EStarted context :: _ => Some context
  | _ :: tr => last_started tr
  end.

(** The events up to the last one that [ends]. *)
Fixpoint recent (ends : stream_event -> bool) (tr : list stream_event) : list stream_event :=
  match tr with
  | [] => []
  | e :: tr => if ends e then [] else e :: recent ends tr
  end.

Definition is_start (e : stream_event) : bool := match e with EStarted _ => true | _ => false end.
Definition this_session : list stream_event -> list stream_event := recent is_start.

(** What takes the data of a kind of stream away. *)
Definition resets (private : bool) (e : stream_event) : bool :=
  match e with
  | EReset p => Bool.eqb p private
  | EStopped | EStarted _ => true
  | _ => false
  end.

(** The live orders that reached the gate, in the order of their arrival, and
    those handed on to the notification service. *)
Fixpoint arrived (l : list stream_event) : list Order :=
  match l with
  | [] => []
  | EArrived _ orders :: l => arrived l ++ orders
  | _ :: l => arrived l
  end.

Fixpoint handed (l : list stream_event) : list Order :=
  match l with
  | [] => []
  | EReplayed _ _ pending :: l => handed l ++ pending
  | ELive _ order :: l => handed l ++ [order]
  | _ :: l => handed l
  end.

Fixpoint replays (l : list stream_event) : nat :=
  match l with
  | [] => 0
  | EReplayed _ _ _ :: l => S (replays l)
  | _ :: l => replays l
  end.

(** The observations of one session, newest first: live and manual ones only after
    a replay of the snapshot went through, which showed all the live orders that
    had arrived, and was the first; the attempts before it each showed a part,
    from its beginning, of a replay of what had arrived by then. *)
Fixpoint gate_history (l : list stream_event) : Prop :=
  match l with
  | [] => True
  | EAttempted _ part :: l =>
      (replays l = 0%nat /\ exists snapshots, part `prefix_of` replay_order snapshots (arrived l)) /\
      gate_history l
  | EReplayed _ _ pending :: l => (replays l = 0%nat /\ pending = arrived l) /\ gate_history l
  | ELive _ _ :: l | EManual _ _ :: l => replays l = 1%nat /\ gate_history l
  | _ :: l => gate_history l
  end.

(** The session an observation is made for. *)
Definition observed_session (e : stream_event) : option SessionContext :=
  match e with
  | EArrived context _ | EAttempted context _ | EReplayed context _ _ | ELive context _
  | EManual context _ => Some context
  | _ => None
  end.

Definition names_current (context : SessionContext) (tr : list stream_event) : Prop :=
  current_of tr = Some (ses_account_id context, ses_session_epoch context).

(** Every observation is made for the session started last, while its account
    and epoch are the current ones. *)
Fixpoint observed_in_session (tr : list stream_event) : Prop :=
  match tr with
  | [] => True
  | e :: tr =>
      match observed_session e with
      | Some context => names_current context tr /\ last_started tr = Some context
      | None => match e with EConnection context _ => names_current context tr | _ => True end
      end /\ observed_in_session tr
  end.

(** ** Events that leave the gate alone *)

Definition inert (e : stream_event) : bool :=
  match e with
  | EWebsocket _ _ | EAcked _ | EMessage _ _ _ | ECalls _ | EReset _ | EStopped => true
  | _ => false
  end.

Lemma inert_app es tr :
  Forall (fun e => inert e = true) es ->
  current_of (es ++ tr) = current_of tr /\ last_started (es ++ tr) = last_started tr /\
  arrived (this_session (es ++ tr)) = arrived (this_session tr) /\
  handed (this_session (es ++ tr)) = handed (this_session tr) /\
  replays (this_session (es ++ tr)) = replays (this_session tr) /\
  (observed_in_session (es ++ tr) <-> observed_in_session tr) /\
  (gate_history (this_session (es ++ tr)) <-> gate_history (this_session tr)).
Proof.
  induction 1 as [|e es He _ IH]; [done|]. destruct e; try discriminate He; simpl; tauto.
Qed.

(** ** Which stream a flag, a handle and a domain belong to *)

Definition connected (private : bool) (m : WsManager) : bool :=
  if private then private_connected m else public_connected m.

Definition handle (private : bool) (m : WsManager) : option nat :=
  if private then private_task m else public_task m.

Definition domain_private (d : FreshnessDomain) : bool :=
  match d with DTicker | DDepth | DCandle => false | _ => true end.

Definition stopping (c : control_state) : bool :=
  match c with Stopping _ _ => true | _ => false end.

(** A stream in a session whose flag it may have raised. *)
Definition linked (pc : stream_pc) : bool :=
  match pc with
  | Checking | Reporting Connected | Observing _ | Subscribing | Open | SessionFailed | SessionClosed => true
  | _ => false
  end.

#[export] Instance resetting_dec (pc : stream_pc) : Decision (pc = Resetting).
Proof. destruct pc; first [by left|by right]. Defined.

(** A stream about to raise its flag. *)
Definition raising (pc : stream_pc) : bool :=
  match pc with Acknowledged _ | SawRunning _ => true | _ => false end.

(** A message of the domain that is at most [stale_ms] old. *)
Definition heard (tr : list stream_event) (now_ms stale_ms : Z) (d : FreshnessDomain) : Prop :=
  exists private timestamp_ms,
    In (EMessage private d timestamp_ms) (recent (resets (domain_private d)) tr) /\
    saturating_sub now_ms timestamp_ms <= stale_ms.

Lemma recent_app ends es tr :
  Forall (fun e => ends e = false) es -> recent ends (es ++ tr) = (es ++ recent ends tr)%list.
Proof. induction 1 as [|e es He _ IH]; [done|]. simpl. by rewrite He, IH. Qed.

Lemma recent_keeps ends es tr e :
  Forall (fun e => ends e = false) es -> In e (recent ends tr) -> In e (recent ends (es ++ tr)).
Proof. intros Hes He. rewrite recent_app by done. apply in_or_app. by right. Qed.

Lemma foldr_delete_all {A} (m : gmap nat A) l :
  (forall i t, m !! i = Some t -> In i l) -> foldr delete m l = ∅.
Proof.
  intros Hall. apply map_eq. intros i. rewrite lookup_empty.
  destruct (m !! i) as [t|] eqn:E.
  - apply Hall in E. clear Hall. induction l as [|j l IH]; [done|].
    destruct (decide (j = i)) as [->|Hne]; simpl; [apply lookup_delete_eq|].
    rewrite lookup_delete_ne by done. apply IH. by destruct E.
  - clear Hall. induction l as [|j l IH]; [done|].
    destruct (decide (j = i)) as [->|Hne]; simpl; [apply lookup_delete_eq|].
    by rewrite lookup_delete_ne.
Qed.

Lemma reset_other f private d :
  domain_private d <> private ->
  (if private : bool then reset_private else reset_public) f d = f d.
Proof. by destruct d, private. Qed.

Lemma reset_own f private d :
  domain_private d = private ->
  (if private : bool then reset_private else reset_public) f d = 0.
Proof. by destruct d; intros <-. Qed.

Section Safety.
Context `{JsonText} {has_market : bool} {X : Type} {env : NotificationEnv X}.

Lemma local_inert t m t' m' es :
  local_step has_market t m t' m' es ->
  Forall (fun e => inert e = true) es /\
  order_observation_buffer m' = order_observation_buffer m /\
  order_snapshot_seeded m' = order_snapshot_seeded m /\
  t_context t' = t_context t /\ t_private t' = t_private t /\
  public_task m' = public_task m /\ private_task m' = private_task m /\ running m' = running m.
Proof.
  destruct 1; split_and!; try done; repeat case_match; by repeat constructor.
Qed.

(** What the trace says of the gate. *)
Record gate_agrees (tr : list stream_event) (s : stream_system X) : Prop := {
  ga_current : current_of tr = Some (active_account s, session_epoch_now s);
  ga_started : last_started tr = ob_context (gate s);
  ga_observed : observed_in_session tr;
  ga_history : gate_history (this_session tr);
  ga_flow : arrived (this_session tr) = (handed (this_session tr) ++ ob_pending (gate s))%list;
  ga_closed : snapshot_seeded (gate s) = false ->
              handed (this_session tr) = [] /\ replays (this_session tr) = 0%nat;
  ga_open : snapshot_seeded (gate s) = true ->
            ob_pending (gate s) = [] /\ replays (this_session tr) = 1%nat;
  ga_flag : order_snapshot_seeded (manager s) = true -> snapshot_seeded (gate s) = true;
}.

(** A step that touches neither the gate nor the account. *)
Lemma gate_frame tr s s' es :
  gate_agrees tr s -> Forall (fun e => inert e = true) es ->
  gate s' = gate s -> order_snapshot_seeded (manager s') = order_snapshot_seeded (manager s) ->
  active_account s' = active_account s -> session_epoch_now s' = session_epoch_now s ->
  gate_agrees (es ++ tr) s'.
Proof.
  intros [] Hes Hg Hf Ha He. destruct (inert_app es tr Hes) as (E1 & E2 & E3 & E4 & E5 & E6 & E7).
  constructor; rewrite ?E1, ?E2, ?E3, ?E4, ?E5, ?Hg, ?Hf, ?Ha, ?He; tauto.
Qed.

Lemma is_current_names tr (s : stream_system X) context :
  current_of tr = Some (active_account s, session_epoch_now s) -> is_current context s = true ->
  names_current context tr.
Proof.
  intros Hc [He Ha]%andb_true_iff. apply Z.eqb_eq in He. apply String.eqb_eq in Ha.
  unfold names_current. congruence.
Qed.

Lemma live_events context orders done tr :
  let l := (rev (map (ELive context) done) ++ EArrived context orders :: tr)%list in
  current_of l = current_of tr /\ last_started l = last_started tr /\
  arrived (this_session l) = (arrived (this_session tr) ++ orders)%list /\
  handed (this_session l) = (handed (this_session tr) ++ done)%list /\
  replays (this_session l) = replays (this_session tr) /\
  (names_current context tr -> last_started tr = Some context -> observed_in_session tr ->
   observed_in_session l) /\
  (replays (this_session tr) = 1%nat -> gate_history (this_session tr) -> gate_history (this_session l)).
Proof.
  induction done as [|order done IH] using rev_ind; [rewrite app_nil_r; simpl; tauto|].
  rewrite map_app, rev_app_distr. simpl in IH |- *. destruct IH as (E1 & E2 & E3 & E4 & E5 & E6 & E7).
  unfold this_session in *. rewrite E4, <- app_assoc. split_and!; try done.
  - intros Hn Hs Ho. unfold names_current. rewrite E1, E2. auto.
  - intros Hr Hh. rewrite E5. auto.
Qed.

Lemma gate_observed tr s context orders times s' es :
  gate_agrees tr s -> observe_private_orders env context orders times s = (s', es) ->
  gate_agrees (es ++ tr) s'.
Proof.
  intros G. unfold observe_private_orders.
  destruct (is_current context s) eqn:Ec; [|by intros [= <- <-]].
  destruct (matches context (gate s)) eqn:Em; [|by intros [= <- <-]].
  pose proof Em as Em'. apply bool_decide_eq_true in Em'. destruct G.
  assert (Hn : names_current context tr) by by eapply is_current_names.
  destruct (snapshot_seeded (gate s)) eqn:Es; cbn [negb orb]; intros [= <- <-].
  - destruct (ga_open0 eq_refl) as [Hp Hr].
    destruct (live_events context orders orders tr) as (E1 & E2 & E3 & E4 & E5 & E6 & E7).
    rewrite <- app_assoc. cbn [app].
    constructor; rewrite ?E1, ?E2, ?E3, ?E4, ?E5; try done.
    + apply E6; [done| |done]. by rewrite ga_started0.
    + by apply E7.
    + change (gate (with_notifications _ s)) with (gate s). by rewrite ga_flow0, Hp, !app_nil_r.
    + unfold gate in *. simpl. congruence.
  - unfold defer. rewrite Em, Es. cbn. destruct (ga_closed0 eq_refl) as [Hh Hr].
    constructor; try done; cbn.
    + split; [|done]. split; [done|]. by rewrite ga_started0.
    + unfold this_session in *. by rewrite ga_flow0, Hh.
Qed.

(** A replay that did not go through. *)
Lemma gate_attempted tr s context snapshots part x :
  gate_agrees tr s -> is_current context s = true -> ob_context (gate s) = Some context ->
  snapshot_seeded (gate s) = false -> part `prefix_of` replay_order snapshots (ob_pending (gate s)) ->
  gate_agrees (EAttempted context part :: tr) (with_notifications x s).
Proof.
  intros [] Hc Hm Hs Hp. destruct (ga_closed0 Hs) as [Hh Hr].
  constructor; try done; cbn.
  - split; [|done]. split; [by eapply is_current_names|]. by rewrite ga_started0.
  - split; [|done]. split; [done|]. exists snapshots. unfold this_session in *. by rewrite ga_flow0, Hh.
Qed.

Lemma gate_seeded tr s context snapshots now_ms o s' es :
  gate_agrees tr s -> seed_order_snapshots_and_mark env context snapshots now_ms s = (o, s', es) ->
  gate_agrees (es ++ tr) s'.
Proof.
  intros G. unfold seed_order_snapshots_and_mark, pending_for_seed, finish_seed.
  destruct (is_current context s) eqn:Ec; [|by intros [= <- <- <-]].
  destruct (matches context (gate s)) eqn:Em; [|by intros [= <- <- <-]].
  pose proof Em as Em'. apply bool_decide_eq_true in Em'.
  destruct (snapshot_seeded (gate s)) eqn:Es; cbn [negb orb]; [by intros [= <- <- <-]|].
  destruct (seed_snapshot_then_replay _ _ _ _ _ _) as [[[]| |] x];
    [|by intros [= <- <- <-]; apply (gate_attempted _ _ _ snapshots); [..|apply shown_prefix] ..].
  cbn. change (gate (with_notifications x s)) with (gate s). rewrite Em, Es.
  intros [= <- <- <-]. destruct G.
  destruct (ga_closed0 Es) as [Hh Hr].
  constructor; try done; cbn.
  - split; [|done]. split; [by eapply is_current_names|]. by rewrite ga_started0.
  - split; [|done]. split; [done|]. unfold this_session in *. by rewrite ga_flow0, Hh.
  - unfold this_session in *. by rewrite app_nil_r, ga_flow0.
  - unfold this_session in *. by rewrite Hr.
Qed.

Lemma gate_restarted tr s symbol context n m spawned :
  gate_agrees tr s -> start_session symbol context n (manager s) = (m, spawned) -> forall ts k c,
  gate_agrees ([EWebsocket context "connecting"; EStarted context; EStopped] ++ tr)
    (StreamSystem m ts k c (active_account s) (session_epoch_now s) (notifications s)).
Proof. intros [] [= <- _] ts k c. by constructor. Qed.

Lemma step_gate tr s s' es :
  gate_agrees tr s -> step has_market env s s' es -> gate_agrees (es ++ tr) s'.
Proof.
  intros G Hstep.
  destruct Hstep as [s i t t' m' es Ht Hl|s i t status Ht Hpc Hc|s i t orders times s' es Ht Hpc Hc Ho
    |s context snapshots now_ms o s' es Hc Hs|s context snapshots pending now_ms k o x Hc Hi Hp Ho
    |s context snapshots now_ms s' es Hc Hm|s x|s Hc|s Hc|s account epoch Hc|s pub priv signer Hc
    |s symbol interval Hc|s next Hc|s aborted Hc|s aborted symbol context m spawned Hc Hs].
  - apply local_inert in Hl as (He & Hb & Hf & _). by eapply gate_frame.
  - case_match eqn:Ec; [|by apply (gate_frame _ s _ [])].
    destruct G. constructor; try done. simpl. split; [|done]. by eapply is_current_names.
  - eapply gate_observed in Ho; [|done]. destruct Ho. by constructor.
  - by eapply gate_seeded.
  - unfold pending_for_seed in Hp. destruct (negb _ || _) eqn:E; [done|]. injection Hp as <-.
    apply orb_false_iff in E as [Em%negb_false_iff%bool_decide_eq_true Es].
    apply (gate_attempted _ _ _ snapshots); try done.
    etransitivity; [apply shown_prefix|]. apply prefix_take.
  - unfold observe_manual_order_snapshots in Hm.
    destruct (is_current context s) eqn:Ec;
      cbn in Hm; [|by injection Hm as <- <-].
    destruct (matches context (gate s) && _) eqn:Em; cbn in Hm; injection Hm as <- <-; [|done].
    apply andb_true_iff in Em as [Em%bool_decide_eq_true Es].
    destruct G. constructor; try done; simpl.
    + split; [|done]. split; [by eapply is_current_names|by rewrite ga_started0].
    + split; [|done]. by apply ga_open0.
  - by apply (gate_frame _ s _ []).
  - by apply (gate_frame _ s _ []).
  - by apply (gate_frame _ s _ []).
  - destruct G. by constructor.
  - by apply (gate_frame _ s _ []).
  - by apply (gate_frame _ s _ []).
  - by apply (gate_frame _ s _ []).
  - apply (gate_frame _ s _ [EStopped]); try done. by repeat constructor.
  - by eapply gate_restarted.
Qed.

Lemma execution_gate tr s : execution has_market env tr s -> gate_agrees tr s.
Proof.
  induction 1 as [public_url private_url account epoch x|tr s s' es _ IH Hstep].
  - by constructor.
  - by eapply step_gate.
Qed.

(** What one move of a stream may do. *)
Record moves (t : stream_task) (m : WsManager) (t' : stream_task) (m' : WsManager)
    (es : list stream_event) : Prop := {
  mv_context : t_context t' = t_context t;
  mv_private : t_private t' = t_private t;
  mv_handle private : handle private m' = handle private m;
  mv_running : running m' = running m;
  mv_started tr : last_started (es ++ tr) = last_started tr;
  mv_resets : t_pc t = Resetting -> t_pc t' = Pausing /\ es = [EReset (t_private t)] /\
      freshness m' = (if t_private t then reset_private else reset_public) (freshness m);
  mv_grows : t_pc t <> Resetting ->
      (forall private, Forall (fun e => resets private e = false) es) /\
      forall d, freshness m' d = freshness m d \/ In (EMessage (t_private t) d (freshness m' d)) es;
  mv_acked : t_private t = true -> raising (t_pc t') = true ->
      raising (t_pc t) = true \/ In (EAcked (t_context t)) es;
  mv_flag private : connected private m' = true ->
      (connected private m = true /\
       (t_private t = private -> linked (t_pc t) = true ->
        linked (t_pc t') = true \/ running m = false))
      \/ (private = t_private t /\ raising (t_pc t) = true /\ linked (t_pc t') = true);
}.

Lemma message_freshness (message : json) now_ms f d private :
  record_message_freshness message now_ms f d = f d \/
  In (EMessage private d (record_message_freshness message now_ms f d))
    (match message_domain message with Some d => [EMessage private d now_ms] | None => [] end).
Proof.
  unfold record_message_freshness. destruct (message_domain message) as [d'|]; [|by left].
  unfold touch. destruct (decide (d = d')) as [->|]; [right; by left|by left].
Qed.

Lemma local_moves t m t' m' es : local_step has_market t m t' m' es -> moves t m t' m' es.
Proof.
  intros Hl. pose proof (local_inert _ _ _ _ _ Hl) as (Hes & _ & _ & Hc & Hp & Hpub & Hpriv & Hr).
  constructor; try done.
  - by intros []; simpl.
  - intros tr. by apply inert_app.
  - destruct Hl; intros Hpc; try congruence; by destruct (t_private _).
  - intros Hpc. split.
    + intros private. destruct Hl; try congruence; repeat case_match; by repeat constructor.
    + intros d. destruct Hl; try congruence; try by left.
      destruct (message_freshness message now_ms (freshness m) d (t_private t)); [by left|].
      right. simpl. by right.
  - intros Ht Hraise. destruct Hl; simpl in *; try congruence; try (by left; rewrite ?H0, ?H1).
    all: try (destruct_or?; simplify_eq/=; try done; right; by left).
    all: repeat case_match; done.
  - intros private Hflag. destruct Hl as [| | | | |? ? ? ? ? ? ? []| | | |t m topics Hpc|? ? ? ? []| | | | | | | | |];
      try (left; split; [exact Hflag|]; intros Hpr Hlk; simplify_eq/=;
           repeat match goal with E : t_pc _ = _ |- _ => rewrite E in * end;
           simpl in *; auto; repeat case_match; auto; discriminate).
    all: destruct (t_private t) eqn:E, private; cbn in *; rewrite ?E; try discriminate;
      first [left; split; [exact Hflag|discriminate]|right; by rewrite Hpc].
Qed.

Lemma report_moves t m status es :
  t_pc t = Reporting status -> (forall e, In e es -> exists context status, e = EConnection context status) ->
  moves t m (goto (if decide (status = Connected) then Open else Resetting) t) m es.
Proof.
  intros Hpc Hes.
  assert (Hquiet : forall tr, last_started (es ++ tr) = last_started tr).
  { intros tr. induction es as [|e es IH]; [done|]. simpl.
    destruct (Hes e (or_introl eq_refl)) as (c & st & ->). apply IH. intros e' He. apply Hes. by right. }
  constructor; try done; rewrite ?Hpc; try done.
  - intros _. split; [|by left]. intros private. apply List.Forall_forall. intros e He.
    by destruct (Hes e He) as (c & st & ->).
  - intros _. simpl. by case_decide.
  - intros private Hflag. left. split; [done|]. intros _. destruct status; simpl; try done.
    by left.
Qed.

Lemma observe_moves context orders times (s s' : stream_system X) es t :
  t_pc t = Observing orders -> observe_private_orders env context orders times s = (s', es) ->
  moves t (manager s) (goto Open t) (manager s') es /\
  tasks s' = tasks s /\ control s' = control s.
Proof.
  intros Hpc Ho.
  assert (Hquiet : (forall tr, last_started (es ++ tr) = last_started tr) /\
                   forall private, Forall (fun e => resets private e = false) es).
  { unfold observe_private_orders in Ho. repeat case_match; injection Ho as <- <-; try done.
    - split; [done|]. by repeat constructor.
    - split; [intros tr; rewrite <- app_assoc; apply (live_events context orders orders tr)|].
      intros private. apply List.Forall_forall. intros e [He|[<-|[]]]%in_app_or; [|done].
      rewrite <- in_rev in He. by apply in_map_iff in He as (order & <- & _). }
  destruct Hquiet as [Hs Hr].
  assert (Hm : (forall private, handle private (manager s') = handle private (manager s)) /\
               (forall private, connected private (manager s') = connected private (manager s)) /\
               running (manager s') = running (manager s) /\
               freshness (manager s') = freshness (manager s) /\
               tasks s' = tasks s /\ control s' = control s).
  { unfold observe_private_orders in Ho. by repeat case_match; injection Ho as <- <-. }
  destruct Hm as (Hh & Hc & Hrun & Hf & Ht & Hctl). split; [|done].
  constructor; rewrite ?Hpc; try done.
  - intros _. split; [done|]. rewrite Hf. by left.
  - intros private Hflag. left. rewrite Hc in Hflag. split; [done|]. auto.
Qed.

(** The streams, their flags and their data are those of the session started last. *)
Record streams_agree (tr : list stream_event) (s : stream_system X) : Prop := {
  sa_handle i t : tasks s !! i = Some t ->
      match control s with
      | Stopping aborted _ => In i aborted
      | _ => handle (t_private t) (manager s) = Some i
      end;
  sa_context i t : tasks s !! i = Some t -> last_started tr = Some (t_context t);
  sa_unique i j t u : tasks s !! i = Some t -> tasks s !! j = Some u ->
      t_private t = t_private u -> i = j;
  sa_running i t : tasks s !! i = Some t -> stopping (control s) = true \/ running (manager s) = true;
  sa_acked i t : tasks s !! i = Some t -> t_private t = true -> raising (t_pc t) = true ->
      In (EAcked (t_context t)) (recent (resets true) tr);
  sa_linked private : connected private (manager s) = true ->
      stopping (control s) = true \/
      exists i t, tasks s !! i = Some t /\ t_private t = private /\ linked (t_pc t) = true /\
        (private = true -> In (EAcked (t_context t)) (recent (resets true) tr));
  sa_fresh d : freshness (manager s) d <> 0 ->
      exists private, In (EMessage private d (freshness (manager s) d)) (recent (resets (domain_private d)) tr);
}.

(** A step that leaves the streams, their flags and their data alone. *)
Lemma streams_frame tr s s' es :
  streams_agree tr s -> (forall tr, last_started (es ++ tr) = last_started tr) ->
  (forall private, Forall (fun e => resets private e = false) es) ->
  (forall private, handle private (manager s') = handle private (manager s)) ->
  (forall private, connected private (manager s') = connected private (manager s)) ->
  running (manager s') = running (manager s) -> freshness (manager s') = freshness (manager s) ->
  tasks s' = tasks s -> stopping (control s) = false -> stopping (control s') = false ->
  streams_agree (es ++ tr) s'.
Proof.
  intros [] Hs Hr Hh Hc Hrun Hf Ht Hn Hn'.
  constructor; rewrite ?Ht, ?Hs, ?Hf, ?Hrun; try done.
  - intros i t Hi. rewrite Hh. specialize (sa_handle0 i t Hi).
    destruct (control s); try done; by destruct (control s').
  - intros i t Hi. right. destruct (sa_running0 i t Hi); [congruence|done].
  - intros i t Hi Hp Hra. apply recent_keeps; [done|]. eauto.
  - intros private Hflag. rewrite Hc in Hflag. right.
    destruct (sa_linked0 _ Hflag) as [|(i & t & Hi & Hp & Hl & Ha)]; [congruence|].
    exists i, t. split_and!; try done. intros Hpr. apply recent_keeps; auto.
  - intros d Hd. destruct (sa_fresh0 d Hd) as [private He]. exists private. by apply recent_keeps.
Qed.

(** A step that moves one stream. *)
Section Moved.
Context (tr : list stream_event) (s s' : stream_system X) (i : nat) (t t' : stream_task)
  (es : list stream_event).
Hypothesis agrees : streams_agree tr s.
Hypothesis here : tasks s !! i = Some t.
Hypothesis moved : moves t (manager s) t' (manager s') es.
Hypothesis put : tasks s' = <[i := t']> (tasks s).
Hypothesis same_control : control s' = control s.

Lemma moved_back j u : tasks s' !! j = Some u ->
  exists u0, tasks s !! j = Some u0 /\ t_context u = t_context u0 /\ t_private u = t_private u0 /\
    (j <> i -> u = u0) /\ (j = i -> u = t' /\ u0 = t).
Proof using here moved put.
  destruct moved. rewrite put. intros [[<- <-]|[Hne Hj]]%lookup_insert_Some; [by exists t|].
  exists u. by split_and!.
Qed.

Lemma moved_quiet private :
  (t_private t = private -> t_pc t <> Resetting) -> Forall (fun e => resets private e = false) es.
Proof using moved.
  intros Hpc. destruct moved. destruct (decide (t_pc t = Resetting)) as [Hr|Hr]; [|by apply mv_grows0].
  destruct (mv_resets0 Hr) as (_ & -> & _). repeat constructor. simpl.
  destruct private, (t_private t); try done; by destruct (Hpc eq_refl).
Qed.

Lemma moved_other j u private : tasks s !! j = Some u -> t_private u = private -> j <> i ->
  Forall (fun e => resets private e = false) es.
Proof using agrees here moved.
  intros Hj Hp Hne. apply moved_quiet. intros Htp. destruct agrees.
  destruct (Hne (sa_unique0 j i u t Hj here ltac:(congruence))).
Qed.

Lemma moved_acked j u : tasks s' !! j = Some u -> t_private u = true -> raising (t_pc u) = true ->
  In (EAcked (t_context u)) (recent (resets true) (es ++ tr)).
Proof using agrees here moved put.
  intros Hj Hp Hra. destruct (moved_back j u Hj) as (u0 & Hj0 & Hc & Hpu & Hne & Heq).
  destruct (decide (j = i)) as [->|Hji].
  - destruct (Heq eq_refl) as [-> ->], agrees. pose proof moved as []. rewrite mv_private0 in Hp. rewrite Hc.
    assert (t_pc t <> Resetting).
    { intros Hr. destruct (mv_resets0 Hr) as (E & _). by rewrite E in Hra. }
    destruct (mv_acked0 Hp Hra) as [Hra'|He].
    + apply recent_keeps; [by apply moved_quiet|]. eauto.
    + rewrite recent_app by by apply moved_quiet. apply in_or_app. by left.
  - rewrite (Hne Hji) in *. apply recent_keeps; [by eapply moved_other|]. destruct agrees. eauto.
Qed.

Lemma moved_linked private : connected private (manager s') = true ->
  stopping (control s') = true \/
  exists j u, tasks s' !! j = Some u /\ t_private u = private /\ linked (t_pc u) = true /\
    (private = true -> In (EAcked (t_context u)) (recent (resets true) (es ++ tr))).
Proof using agrees here moved put same_control.
  intros Hflag. pose proof agrees as []. pose proof moved as []. rewrite same_control.
  destruct (mv_flag0 private Hflag) as [[Hold Hl]|(-> & Hra & Hl)].
  - destruct (sa_linked0 private Hold) as [|(j & u & Hj & Hp & Hlu & Ha)]; [by left|].
    destruct (decide (j = i)) as [->|Hji].
    + simplify_eq. destruct (Hl eq_refl Hlu) as [Hl'|Hrun].
      { right. exists i, t'. rewrite put, lookup_insert_eq, mv_private0, mv_context0.
        split_and!; try done. intros Hp. apply recent_keeps; [|by apply Ha].
        apply moved_quiet. intros _ Hr. by rewrite Hr in Hlu. }
      left. destruct (sa_running0 i t here); [done|congruence].
    + right. exists j, u. rewrite put, lookup_insert_ne by done. split_and!; try done.
      intros Hpr. apply recent_keeps; [|by apply Ha]. eapply moved_other; [done|congruence|done].
  - right. exists i, t'. rewrite put, lookup_insert_eq, mv_private0, mv_context0.
    split_and!; try done. intros Hp. apply recent_keeps; [|by eapply sa_acked0].
    apply moved_quiet. intros _ Hr. by rewrite Hr in Hra.
Qed.

Lemma moved_fresh d : freshness (manager s') d <> 0 ->
  exists private, In (EMessage private d (freshness (manager s') d))
                    (recent (resets (domain_private d)) (es ++ tr)).
Proof using agrees moved.
  intros Hd. pose proof agrees as []. pose proof moved as [].
  destruct (decide (t_pc t = Resetting)) as [Hr|Hr].
  - destruct (mv_resets0 Hr) as (_ & -> & Hf). rewrite Hf in *.
    destruct (decide (domain_private d = t_private t)) as [Hp|Hp]; [by rewrite reset_own in Hd|].
    rewrite reset_other in * by done. destruct (sa_fresh0 d Hd) as [private He].
    exists private. apply (recent_keeps _ [_]); [|done]. repeat constructor. simpl.
    by destruct (t_private t), (domain_private d).
  - destruct (mv_grows0 Hr) as [Hq Hf]. destruct (Hf d) as [E|He].
    + rewrite E in *. destruct (sa_fresh0 d Hd) as [private He]. exists private.
      by apply recent_keeps.
    + exists (t_private t). rewrite recent_app by done. apply in_or_app. by left.
Qed.

Lemma streams_moved : streams_agree (es ++ tr) s'.
Proof using agrees here moved put same_control.
  pose proof agrees as []. pose proof moved as [].
  constructor; [| | | |exact moved_acked|exact moved_linked|exact moved_fresh].
  - intros j u (u0 & Hj0 & _ & Hp & _)%moved_back.
    rewrite same_control, Hp, mv_handle0. exact (sa_handle0 j u0 Hj0).
  - intros j u (u0 & Hj0 & Hc & _)%moved_back. rewrite mv_started0, Hc. by eapply sa_context0.
  - intros j k u v (u0 & Hj0 & _ & Hpu & _)%moved_back (v0 & Hk0 & _ & Hpv & _)%moved_back Hp.
    eapply sa_unique0; [done..|congruence].
  - intros j u (u0 & Hj0 & _)%moved_back. rewrite same_control, mv_running0. eauto.
Qed.
End Moved.

(** The lock is taken to stop the streams. *)
Lemma streams_stopping tr s next :
  streams_agree tr s -> control s = Mutating ->
  streams_agree tr (with_manager (stop_begin (manager s))
    (with_control (Stopping (option_list (public_task (manager s))
                             ++ option_list (private_task (manager s))) next) s)).
Proof.
  intros [] Hc. rewrite Hc in *. constructor; try done.
  - intros i t Hi. specialize (sa_handle0 i t Hi). cbn. apply in_or_app. unfold handle in *.
    destruct (t_private t); rewrite sa_handle0; simpl; auto.
  - by left.
  - by left.
Qed.

(** All streams have ended: what is left of them. *)
Lemma streams_ended tr s aborted next :
  streams_agree tr s -> control s = Stopping aborted next -> foldr delete (tasks s) aborted = ∅.
Proof. intros [] Hc. rewrite Hc in *. by apply foldr_delete_all. Qed.

Lemma spawned_streams symbol context n m ms spawned i t :
  start_session symbol context n m = (ms, spawned) ->
  (list_to_map spawned : gmap nat stream_task) !! i = Some t ->
  t_context t = context /\ t_pc t = LoopTop /\ handle (t_private t) ms = Some i /\ running ms = true.
Proof.
  unfold start_session. intros [= <- <-] Hi%elem_of_list_to_map_2%list_elem_of_In.
  apply in_app_or in Hi. by repeat case_match; destruct_or?; simplify_eq/=; destruct_or?; simplify_eq/=.
Qed.

Lemma streams_started tr symbol context n (m : WsManager) k c account epoch x ms spawned :
  start_session symbol context n m = (ms, spawned) -> stopping c = false ->
  streams_agree ([EWebsocket context "connecting"; EStarted context; EStopped] ++ tr)
    (StreamSystem ms (list_to_map spawned ∪ ∅) k c account epoch x : stream_system X).
Proof.
  intros Hs Hc. pose proof (fun i t => spawned_streams _ _ _ _ _ _ i t Hs) as Hin.
  pose proof Hs as Hm. unfold start_session in Hm. apply (f_equal fst) in Hm. cbn in Hm.
  rewrite (right_id_L ∅ (∪)). constructor; cbn [tasks manager control freshness].
  - intros i t (_ & _ & Hh & _)%Hin. by destruct c.
  - by intros i t (-> & _)%Hin.
  - intros i j t u (_ & _ & Hi & _)%Hin (_ & _ & Hj & _)%Hin Hp. rewrite Hp in Hi. congruence.
  - intros i t (_ & _ & _ & Hr)%Hin. by right.
  - intros i t (_ & Hpc & _)%Hin _. by rewrite Hpc.
  - intros private. rewrite <- Hm. by destruct private.
  - intros d. rewrite <- Hm. by destruct d.
Qed.

Lemma step_streams tr s s' es :
  streams_agree tr s -> step has_market env s s' es -> streams_agree (es ++ tr) s'.
Proof.
  intros G Hstep.
  destruct Hstep as [s i t t' m' es Ht Hl|s i t status Ht Hpc Hc|s i t orders times s' es Ht Hpc Hc Ho
    |s context snapshots now_ms o s' es Hc Hs|s context snapshots pending now_ms k o x Hc Hi Hp Ho
    |s context snapshots now_ms s' es Hc Hm|s x|s Hc|s Hc|s account epoch Hc|s pub priv signer Hc
    |s symbol interval Hc|s next Hc|s aborted Hc|s aborted symbol context m spawned Hc Hs].
  - apply local_moves in Hl. by eapply streams_moved.
  - eapply streams_moved; [done|done|apply (report_moves _ _ status); [done|]|done|done].
    case_match; [|done]. intros e [<-|[]]. by eexists _, _.
  - destruct (observe_moves _ _ _ _ _ _ _ Hpc Ho) as (Hmv & Hts & Hctl).
    eapply streams_moved; [done|done|exact Hmv| |done]. simpl. by rewrite Hts.
  - unfold seed_order_snapshots_and_mark in Hs.
    repeat case_match; simplify_eq; (eapply streams_frame; [done|..]; try done); cbn;
      rewrite ?Hc; repeat constructor.
  - eapply (streams_frame _ s _ [_]); try done; cbn; rewrite ?Hc; by repeat constructor.
  - unfold observe_manual_order_snapshots in Hm.
    case_match; injection Hm as <- <-; (eapply streams_frame; [done|..]; try done); cbn;
      rewrite ?Hc; repeat constructor.
  - destruct G. by constructor.
  - eapply (streams_frame _ s _ []); try done; cbn; by rewrite ?Hc.
  - eapply (streams_frame _ s _ []); try done; cbn; by rewrite ?Hc.
  - eapply (streams_frame _ s _ [EAccount account epoch]); try done; [|cbn; by rewrite ?Hc].
    by repeat constructor.
  - eapply (streams_frame _ s _ []); try done; cbn; by rewrite ?Hc.
  - eapply (streams_frame _ s _ []); try done; cbn; by rewrite ?Hc.
  - by apply streams_stopping.
  - rewrite (streams_ended _ _ _ _ G Hc).
    constructor; try done; cbn; [by intros []|by intros []].
  - rewrite (streams_ended _ _ _ _ G Hc). by eapply streams_started.
Qed.

Lemma execution_streams tr s : execution has_market env tr s -> streams_agree tr s.
Proof.
  induction 1 as [public_url private_url account epoch x|tr s s' es _ IH Hstep].
  - constructor; try done. by intros [].
  - by eapply step_streams.
Qed.

(** A replay of this session is one for the session started last. *)
Lemma replayed_here tr context : (0 < replays (this_session tr))%nat -> observed_in_session tr ->
  last_started tr = Some context ->
  exists snapshots pending, In (EReplayed context snapshots pending) (this_session tr).
Proof.
  unfold this_session. induction tr as [|e tr IH]; simpl; [lia|].
  destruct e; simpl; try lia; intros Hr [Hseen Ho] Hs;
    try (destruct (IH Hr Ho Hs) as (snapshots' & pending' & Hin); exists snapshots', pending'; by right).
  destruct Hseen as [_ Hs']. simplify_eq. do 2 eexists. by left.
Qed.

Lemma heard_fresh tr s d now_ms stale_ms : streams_agree tr s ->
  is_fresh_at (freshness (manager s)) d now_ms stale_ms = true -> heard tr now_ms stale_ms d.
Proof.
  intros [] [Hd Hs]%andb_true_iff. apply Z.leb_le in Hs.
  destruct (sa_fresh0 d) as [private He]; [|by exists private, (freshness (manager s) d)].
  intros E. by rewrite E in Hd.
Qed.

(** C15: The order gate.  In every execution, an observation is made only for the
    session started last and while its account and epoch are the current ones;
    of the live orders that have reached this session's gate, exactly the
    pending ones have not been handed on, and they are handed on in the order of
    their arrival, each once, by the one replay that goes through and opens the
    gate or after it.  Nothing is pending after it.  Before it only attempts of
    a replay that failed or were dropped show the observer orders: each a part,
    from its beginning, of the whole batch, which is kept, so that the replay
    that goes through shows all of it, what an attempt has shown once more. *)
Theorem live_orders_pass_the_gate_once (tr : list stream_event) (s : stream_system X)
    (Hex : execution has_market env tr s) :
  observed_in_session tr /\ gate_history (this_session tr) /\
  arrived (this_session tr) = (handed (this_session tr) ++ ob_pending (gate s))%list /\
  if snapshot_seeded (gate s)
  then ob_pending (gate s) = [] /\ replays (this_session tr) = 1%nat
  else handed (this_session tr) = [] /\ replays (this_session tr) = 0%nat.
Proof.
  destruct (execution_gate tr s Hex). split_and!; [done..|].
  destruct (snapshot_seeded (gate s)); auto.
Qed.

(** C16: What the health of the streams rests on.  In every execution, unless the
    streams are being stopped, each stream that runs belongs to the session
    started last and is the one its handle names; the private panels are healthy
    only while a private stream of that session is linked, its authentication
    has been acknowledged since the data were last reset, the order snapshot has
    been replayed in this session, and a message at most [stale_ms] old of each
    domain has come since that reset; and the market and the balance only with
    such messages of their domains and a linked stream of this session. *)
Theorem stream_health_is_current (tr : list stream_event) (s : stream_system X) (now_ms stale_ms : Z)
    (Hex : execution has_market env tr s) (Hrun : stopping (control s) = false) :
  (forall i t, tasks s !! i = Some t ->
     last_started tr = Some (t_context t) /\ handle (t_private t) (manager s) = Some i) /\
  (is_private_panels_healthy (manager s) now_ms stale_ms = true ->
   exists i t snapshots pending,
     tasks s !! i = Some t /\ t_private t = true /\ linked (t_pc t) = true /\
     In (EAcked (t_context t)) (recent (resets true) tr) /\
     In (EReplayed (t_context t) snapshots pending) (this_session tr) /\
     heard tr now_ms stale_ms DOrder /\ heard tr now_ms stale_ms DPosition) /\
  (is_market_healthy (manager s) now_ms stale_ms = true ->
   exists i t, tasks s !! i = Some t /\ t_private t = false /\ linked (t_pc t) = true /\
     heard tr now_ms stale_ms DTicker /\ heard tr now_ms stale_ms DDepth /\
     heard tr now_ms stale_ms DCandle) /\
  (is_balance_healthy (manager s) now_ms stale_ms = true ->
   exists i t, tasks s !! i = Some t /\ t_private t = true /\ linked (t_pc t) = true /\
     In (EAcked (t_context t)) (recent (resets true) tr) /\ heard tr now_ms stale_ms DBalance).
Proof.
  pose proof (execution_streams tr s Hex) as G. pose proof G as [].
  destruct (execution_gate tr s Hex).
  assert (Hlink : forall private, connected private (manager s) = true ->
    exists i t, tasks s !! i = Some t /\ t_private t = private /\ linked (t_pc t) = true /\
      (private = true -> In (EAcked (t_context t)) (recent (resets true) tr))).
  { intros private Hc. destruct (sa_linked0 private Hc); [congruence|done]. }
  split_and!.
  - intros i t Hi. split; [eauto|]. specialize (sa_handle0 i t Hi). by destruct (control s).
  - intros [[Hseed Hc]%andb_true_iff Hf]%andb_true_iff. cbn in Hf. rewrite andb_true_r in Hf.
    apply andb_true_iff in Hf as [Ho Hp]. destruct (Hlink true Hc) as (i & t & Hi & Ht & Hl & Ha).
    destruct (replayed_here tr (t_context t)) as (snapshots & pending & He); [|done|eauto|].
    { destruct (ga_open0 (ga_flag0 Hseed)) as [_ ->]. lia. }
    exists i, t, snapshots, pending. split_and!; auto; by eapply heard_fresh.
  - intros [Hc Hf]%andb_true_iff. cbn in Hf. rewrite andb_true_r in Hf.
    apply andb_true_iff in Hf as [Hti [Hde Hca]%andb_true_iff].
    destruct (Hlink false Hc) as (i & t & Hi & Ht & Hl & _).
    exists i, t. split_and!; auto; by eapply heard_fresh.
  - intros [Hc Hf]%andb_true_iff. destruct (Hlink true Hc) as (i & t & Hi & Ht & Hl & Ha).
    exists i, t. split_and!; auto; by eapply heard_fresh.
Qed.
End Safety.
