(* ===== verification/NotificationTypes.v ===== *)
(** models/notification.rs: what a notification says, who may see it, and the
    closed shapes its producers must keep to. *)
From stdpp Require Import strings.
From S2P Require Import Prelude RustStr External Models.
#[local] Open Scope list_scope.

(** ** Identifiers *)

(** [uuid::Uuid::parse_str]: the version number and the hyphenated text. *)
Class UuidText := { uuid_parse : string -> option (Z * string) }.

Definition MAX_JAVASCRIPT_SAFE_INTEGER : Z := 9007199254740991.
Definition DEFAULT_NOTIFICATION_PAGE_LIMIT : Z := 50.
Definition MAX_NOTIFICATION_PAGE_LIMIT : Z := 100.
Definition MAX_NOTIFICATION_SOURCE_EVENT_ID_BYTES : Z := 256.
Definition MAX_NOTIFICATION_DEDUPE_KEY_BYTES : Z := 512.

Record NotificationValidationError := { nv_code : string; nv_message : string }.

Definition invalid_record : NotificationValidationError :=
  {| nv_code := "INVALID_NOTIFICATION_RECORD"; nv_message := "通知记录无效" |}.
Definition invalid_content : NotificationValidationError :=
  {| nv_code := "INVALID_NOTIFICATION_CONTENT"; nv_message := "通知内容无效" |}.
Definition invalid_event : NotificationValidationError :=
  {| nv_code := "INVALID_NOTIFICATION_EVENT"; nv_message := "通知变更事件无效" |}.
Definition content_error (message : string) : NotificationValidationError :=
  {| nv_code := "INVALID_NOTIFICATION_CONTENT"; nv_message := message |}.

(** [s.trim() == s] of a text: neither end is white space. *)
Definition starts_white (l : list Z) : bool :=
  match l with
  | a :: b :: c :: _ => white1 a || white2 a b || white3 a b c
  | [a; b] => white1 a || white2 a b
  | [a] => white1 a
  | [] => false
  end.
Definition ends_white (l : list Z) : bool :=
  match rev l with
  | c :: b :: a :: _ => white1 c || white2 b c || white3 a b c
  | [c; b] => white1 c || white2 b c
  | [c] => white1 c
  | [] => false
  end.
Definition is_trimmed (s : string) : bool :=
  negb (starts_white (bytes_of s)) && negb (ends_white (bytes_of s)).

Definition AccountId_parse (value : string) : bool := negb (is_empty value) && is_trimmed value.

Definition looks_like_secret (value : string) : bool :=
  let lower := to_ascii_lowercase value in
  existsb (starts_with lower)
    ["sk_"; "sk-"; "api_key"; "api-key"; "secret"; "token"; "bearer"; "akia"; "ghp_"; "gho_";
     "ghu_"; "ghs_"; "github_pat_"; "xoxb-"; "xoxp-"]
  || starts_with value "eyJ".

Definition is_ascii_alphanumeric (b : Z) : bool :=
  is_ascii_digit b || is_ascii_uppercase b || is_ascii_lowercase b.

Definition OrderId_parse (value : string) : bool :=
  negb (is_empty value) && (len value <=? 64) && existsb is_ascii_digit (bytes_of value)
  && forallb (fun b => is_ascii_alphanumeric b || (b =? 45) || (b =? 95)) (bytes_of value)
  && negb (looks_like_secret value).

Definition colon (b : Z) : bool := b =? 58.

Definition is_safe_notification_identifier (value : string) (max_bytes : Z) : bool :=
  negb (is_empty value || (max_bytes <? len value)
        || negb (forallb (fun b => is_ascii_alphanumeric b || (b =? 45) || (b =? 95) || colon b)
                   (bytes_of value))
        || existsb looks_like_secret (split_on colon value))
  && negb (existsb
       (fun segment =>
          let segment := to_ascii_lowercase segment in
          (segment ==s "sk") || (segment ==s "secret") || (segment ==s "token")
          || (segment ==s "bearer") || (segment ==s "apikey"))
       (split_on (fun b => colon b || (b =? 45) || (b =? 95)) value)).

Definition is_safe_notification_source_event_id (value : string) : bool :=
  is_safe_notification_identifier value MAX_NOTIFICATION_SOURCE_EVENT_ID_BYTES.
Definition is_safe_notification_dedupe_key (value : string) : bool :=
  is_safe_notification_identifier value MAX_NOTIFICATION_DEDUPE_KEY_BYTES.
Definition is_safe_timestamp (value : Z) : bool := value <=? MAX_JAVASCRIPT_SAFE_INTEGER.

Definition is_generated_uuid `{UuidText} (value : string) : bool :=
  match uuid_parse value with
  | Some (version, text) => (version =? 4) && (text ==s value)
  | None => false
  end.

(** ** Data *)

Inductive NotificationScope := Global | AccountScope (account_id : string).
#[export] Instance NotificationScope_eq_dec : EqDecision NotificationScope.
Proof. solve_decision. Defined.

Definition scope_validate (s : NotificationScope) : outcome NotificationValidationError unit :=
  match s with
  | AccountScope account_id =>
      guard (negb (AccountId_parse account_id))
        {| nv_code := "INVALID_NOTIFICATION_SCOPE"; nv_message := "通知账户范围无效" |}
  | Global => Ok tt
  end.

Inductive NotificationCategory := TradingCategory | RiskAccount | ConnectionSystem.
#[export] Instance NotificationCategory_eq_dec : EqDecision NotificationCategory.
Proof. solve_decision. Defined.

Inductive NotificationKind :=
| OrderFilled | OrderCanceled | OrderRejected | RiskOrderBlocked | AccountSessionExpired
| AccountRecoveryFailed | AccountReconciliationFailed | ConnectionUnavailable
| ConnectionRecovered | EnvironmentUnavailable | EnvironmentRecovered.
#[export] Instance NotificationKind_eq_dec : EqDecision NotificationKind.
Proof. solve_decision. Defined.

Inductive NotificationSeverity := Success | Info | Warning | ErrorSeverity | Critical.
#[export] Instance NotificationSeverity_eq_dec : EqDecision NotificationSeverity.
Proof. solve_decision. Defined.

Inductive NotificationScalar := ScalarString (s : string) | ScalarBool (b : bool) | ScalarNumber (x : f64).

Definition scalar_validate (v : NotificationScalar) : outcome NotificationValidationError unit :=
  match v with
  | ScalarNumber x => guard (negb (f64_is_finite x)) (content_error "通知内容包含非有限数值")
  | _ => Ok tt
  end.

Inductive NotificationChannel := Api | Websocket.
#[export] Instance NotificationChannel_eq_dec : EqDecision NotificationChannel.
Proof. solve_decision. Defined.

Definition channel_parse (value : string) : option NotificationChannel :=
  if value ==s "api" then Some Api else if value ==s "websocket" then Some Websocket else None.

Inductive NotificationEnvironment := Production | Development | UnknownEnvironment.

Definition environment_parse (value : string) : option NotificationEnvironment :=
  if value ==s "production" then Some Production
  else if value ==s "development" then Some Development
  else if value ==s "unknown" then Some UnknownEnvironment
  else None.

(** *** Templates: one for each kind, with its key and its fallback text *)

Definition from_message_key (value : string) : option NotificationKind :=
  if value ==s "order.filled" then Some OrderFilled
  else if value ==s "order.canceled" then Some OrderCanceled
  else if value ==s "order.rejected" then Some OrderRejected
  else if value ==s "risk.orderBlocked" then Some RiskOrderBlocked
  else if value ==s "account.sessionExpired" then Some AccountSessionExpired
  else if value ==s "account.recoveryFailed" then Some AccountRecoveryFailed
  else if value ==s "account.reconciliationFailed" then Some AccountReconciliationFailed
  else if value ==s "connection.unavailable" then Some ConnectionUnavailable
  else if value ==s "connection.recovered" then Some ConnectionRecovered
  else if value ==s "environment.unavailable" then Some EnvironmentUnavailable
  else if value ==s "environment.recovered" then Some EnvironmentRecovered
  else None.

Definition fallback (template : NotificationKind) : string * string :=
  match template with
  | OrderFilled => ("订单已成交", "订单已完全成交，请前往交易页查看。")
  | OrderCanceled => ("订单已取消", "订单已取消，请前往交易页查看。")
  | OrderRejected => ("订单被拒绝", "订单请求被交易端拒绝，请检查订单参数。")
  | RiskOrderBlocked => ("订单被风控拦截", "请检查风控设置")
  | AccountSessionExpired => ("账户会话已失效", "请检查账户 API 设置。")
  | AccountRecoveryFailed => ("账户恢复失败", "请检查账户设置后重试。")
  | AccountReconciliationFailed => ("账户对账失败", "请检查账户数据后重试。")
  | ConnectionUnavailable => ("连接不可用", "交易连接暂时不可用，请检查网络或稍后重试。")
  | ConnectionRecovered => ("连接已恢复", "交易连接已恢复。")
  | EnvironmentUnavailable => ("环境不可达", "当前交易环境暂时不可达，请稍后重试。")
  | EnvironmentRecovered => ("环境已恢复", "当前交易环境已恢复。")
  end.

Inductive NotificationParameterKey :=
| KeyAccountId | KeyAttemptId | KeyChannel | KeyEnvironment | KeyFailedSteps | KeyLimit
| KeyOrderId | KeySubmissionId | KeyViolationCode.
#[export] Instance NotificationParameterKey_eq_dec : EqDecision NotificationParameterKey.
Proof. solve_decision. Defined.

Definition key_parse (value : string) : option NotificationParameterKey :=
  if value ==s "accountId" then Some KeyAccountId
  else if value ==s "attemptId" then Some KeyAttemptId
  else if value ==s "channel" then Some KeyChannel
  else if value ==s "environment" then Some KeyEnvironment
  else if value ==s "failedSteps" then Some KeyFailedSteps
  else if value ==s "limit" then Some KeyLimit
  else if value ==s "orderId" then Some KeyOrderId
  else if value ==s "submissionId" then Some KeySubmissionId
  else if value ==s "violationCode" then Some KeyViolationCode
  else None.

Definition template_accepts (template : NotificationKind) (key : NotificationParameterKey) : bool :=
  match template with
  | OrderFilled | OrderCanceled => bool_decide (key = KeyOrderId)
  | OrderRejected => bool_decide (key = KeyOrderId) || bool_decide (key = KeySubmissionId)
  | RiskOrderBlocked => bool_decide (key = KeyLimit) || bool_decide (key = KeyViolationCode)
  | AccountSessionExpired => bool_decide (key = KeyAccountId)
  | AccountRecoveryFailed | AccountReconciliationFailed =>
      bool_decide (key = KeyAttemptId) || bool_decide (key = KeyFailedSteps)
  | ConnectionUnavailable | ConnectionRecovered => bool_decide (key = KeyChannel)
  | EnvironmentUnavailable | EnvironmentRecovered => bool_decide (key = KeyEnvironment)
  end.

Inductive ClientNotificationKind := ClientRecoveryFailed | ClientReconciliationFailed.
Inductive ClientNotificationFailedStep := StepConfig | StepProfiles | StepConnection | StepBootstrap.
#[export] Instance ClientNotificationFailedStep_eq_dec : EqDecision ClientNotificationFailedStep.
Proof. solve_decision. Defined.

Definition step_rank (step : string) : option Z :=
  if step ==s "config" then Some 0
  else if step ==s "profiles" then Some 1
  else if step ==s "connection" then Some 2
  else if step ==s "bootstrap" then Some 3
  else None.

Fixpoint normalized_from (previous : option Z) (steps : list string) : bool :=
  match steps with
  | [] => match previous with Some _ => true | None => false end
  | step :: steps' =>
      match step_rank step with
      | Some rank =>
          match previous with Some prior => prior <? rank | None => true end
          && normalized_from (Some rank) steps'
      | None => false
      end
  end.

Definition is_normalized_list (value : string) : bool :=
  normalized_from None (split_on (fun b => b =? 44) value).

Section Identifiers.
Context `{UuidText}.

Definition key_accepts (key : NotificationParameterKey) (value : NotificationScalar) : bool :=
  match key, value with
  | KeyAccountId, ScalarString value => AccountId_parse value
  | KeyAttemptId, ScalarString value => is_generated_uuid value
  | KeyChannel, ScalarString value => bool_decide (is_Some (channel_parse value))
  | KeyEnvironment, ScalarString value =>
      match environment_parse value with Some _ => true | None => false end
  | KeyFailedSteps, ScalarString value => is_normalized_list value
  | KeyLimit, ScalarNumber value => f64_ge_zero value
  | KeyOrderId, ScalarString value => OrderId_parse value
  | KeySubmissionId, ScalarString value => is_generated_uuid value
  | KeyViolationCode, ScalarString value =>
      match risk_code_parse value with Some _ => true | None => false end
  | _, _ => false
  end.
End Identifiers.

(** [BTreeMap<String, NotificationScalar>]: an association list in the order
    of its keys. *)
Definition Params : Type := list (string * NotificationScalar).

Fixpoint params_insert (k : string) (v : NotificationScalar) (m : Params) : Params :=
  match m with
  | [] => [(k, v)]
  | (k', v') :: m' =>
      match String.compare k k' with
      | Lt => (k, v) :: m
      | Eq => (k, v) :: m'
      | Gt => (k', v') :: params_insert k v m'
      end
  end.

Definition params_of (l : list (string * NotificationScalar)) : Params :=
  foldl (fun m '(k, v) => params_insert k v m) [] l.

Definition params_get (k : string) (m : Params) : option NotificationScalar :=
  option_map snd (List.find (fun e => e.1 ==s k) m).

Definition contains_key (k : string) (m : Params) : bool :=
  match params_get k m with Some _ => true | None => false end.

Record NotificationContent := {
  message_key : string;
  params : Params;
  fallback_title : string;
  fallback_body : string;
}.

Section Content.
Context `{UuidText}.

Fixpoint validate_params (template : NotificationKind) (l : Params)
    : outcome NotificationValidationError unit :=
  match l with
  | [] => Ok tt
  | (key, value) :: l' =>
      match key_parse key with
      | None => Err (content_error "通知参数名不受支持")
      | Some parameter_key =>
          let? _ := scalar_validate value in
          let? _ := guard (negb (template_accepts template parameter_key) || negb (key_accepts parameter_key value))
                      (content_error "通知参数值不受支持") in
          validate_params template l'
      end
  end.

Definition requires_limit (code : string) : bool :=
  match risk_code_parse code with
  | Some (MaxOrderQty | MaxPriceDeviation | DailyOrderLimit) => true
  | _ => false
  end.

Definition validate_exact_task5_params (template : NotificationKind) (c : NotificationContent)
    : outcome NotificationValidationError unit :=
  let n := List.length (params c) in
  match template with
  | OrderFilled | OrderCanceled =>
      guard (negb (Nat.eqb n 1 && contains_key "orderId" (params c))) invalid_content
  | OrderRejected =>
      guard (negb (Nat.eqb n 1 && xorb (contains_key "orderId" (params c)) (contains_key "submissionId" (params c))))
        invalid_content
  | RiskOrderBlocked =>
      match params_get "violationCode" (params c) with
      | Some (ScalarString code) =>
          guard (negb (Nat.eqb n ((if requires_limit code then 1 else 0) + 1)
                       && contains_key "violationCode" (params c)
                       && Bool.eqb (contains_key "limit" (params c)) (requires_limit code)))
            invalid_content
      | _ => Err invalid_content
      end
  | _ => Ok tt
  end.

Definition content_validate (c : NotificationContent) : outcome NotificationValidationError unit :=
  match from_message_key (message_key c) with
  | None => Err (content_error "通知消息模板不受支持")
  | Some template =>
      let '(title, body) := fallback template in
      let? _ := guard ((fallback_title c !=s title) || (fallback_body c !=s body))
                  (content_error "通知兜底文本不匹配受控模板") in
      let? _ := validate_params template (params c) in
      validate_exact_task5_params template c
  end.

Definition NotificationContent_new (key : string) (l : list (string * NotificationScalar))
    (title body : string) : outcome NotificationValidationError NotificationContent :=
  let content := {| message_key := key; params := params_of l;
                    fallback_title := title; fallback_body := body |} in
  let? _ := content_validate content in
  Ok content.
End Content.

Inductive NotificationEntityType := EntityOrder | EntityAccount | EntityConnection | EntityEnvironment.
#[export] Instance NotificationEntityType_eq_dec : EqDecision NotificationEntityType.
Proof. solve_decision. Defined.

Record NotificationEntity := { entity_type : NotificationEntityType; entity_id : string }.
#[export] Instance NotificationEntity_eq_dec : EqDecision NotificationEntity.
Proof. solve_decision. Defined.

Definition entity_validate (e : NotificationEntity) : outcome NotificationValidationError unit :=
  let valid := match entity_type e with
               | EntityAccount => AccountId_parse (entity_id e)
               | _ => negb (trim_is_empty (entity_id e))
               end in
  guard (negb valid) {| nv_code := "INVALID_NOTIFICATION_RECORD"; nv_message := "通知实体标识不能为空" |}.

Inductive AccountNotificationSection := ApiSection | RiskSection.
#[export] Instance AccountNotificationSection_eq_dec : EqDecision AccountNotificationSection.
Proof. solve_decision. Defined.

Inductive NotificationAction :=
| OpenTrading (order_id : option string)
| OpenAccountSettings (account_section : AccountNotificationSection)
| OpenGeneralSettings.
#[export] Instance NotificationAction_eq_dec : EqDecision NotificationAction.
Proof. solve_decision. Defined.

Definition action_validate (a : NotificationAction) : outcome NotificationValidationError unit :=
  match a with
  | OpenTrading (Some order_id) =>
      guard (negb (OrderId_parse order_id))
        {| nv_code := "INVALID_NOTIFICATION_ACTION"; nv_message := "通知动作订单标识无效" |}
  | _ => Ok tt
  end.

(** ** Inputs and records *)

Record NotificationInput := {
  in_scope : NotificationScope;
  in_category : NotificationCategory;
  in_kind : NotificationKind;
  in_severity : NotificationSeverity;
  in_content : NotificationContent;
  in_entity : option NotificationEntity;
  in_action : option NotificationAction;
  in_source_event_id : option string;
  in_dedupe_key : string;
  in_session_epoch : option Z;
}.

Record NotificationRecord := {
  id : string;
  scope : NotificationScope;
  category : NotificationCategory;
  kind : NotificationKind;
  severity : NotificationSeverity;
  content : NotificationContent;
  entity : option NotificationEntity;
  action : option NotificationAction;
  source_event_id : option string;
  dedupe_key : string;
  occurrence_count : Z;
  created_at_ms : Z;
  updated_at_ms : Z;
  read_at_ms : option Z;
}.

(** [strip_prefix("client:")?.split_once(':')?]. *)
Definition client_parts (source : string) : option (string * string) :=
  match strip_prefix "client:" source with
  | Some rest =>
      match split_on colon rest with
      | [attempt; suffix] => Some (attempt, suffix)
      | _ => None
      end
  | None => None
  end.

Section Shapes.
Context `{UuidText}.

Definition client_notification_source_parts (source : string)
    : option (string * NotificationKind * string) :=
  match client_parts source with
  | Some (attempt_id, suffix) =>
      if negb (is_generated_uuid attempt_id) then None
      else if suffix ==s "recovery" then Some (attempt_id, AccountRecoveryFailed, "recovery")
      else if suffix ==s "reconciliation"
      then Some (attempt_id, AccountReconciliationFailed, "reconciliation")
      else None
  | None => None
  end.

Definition client_failure_identity_matches (input : NotificationInput) (expected_suffix : string) : bool :=
  match in_source_event_id input with
  | Some source =>
      match client_notification_source_parts source with
      | Some (attempt_id, source_kind, suffix) =>
          bool_decide (source_kind = in_kind input) && (suffix ==s expected_suffix)
          && (in_dedupe_key input ==s "client:" +:+ attempt_id +:+ ":" +:+ expected_suffix)
      | None => false
      end
  | None => false
  end.

Definition order_identity (input : NotificationInput) : option string :=
  match params_get "orderId" (params (in_content input)) with
  | Some (ScalarString value) => Some value
  | _ => None
  end.

Definition order_shape (input : NotificationInput) (expected_kind : NotificationKind)
    (expected_severity : NotificationSeverity) (expected_key : string) : bool :=
  match order_identity input with
  | Some order_id =>
      bool_decide (in_category input = TradingCategory) && bool_decide (in_kind input = expected_kind)
      && bool_decide (in_severity input = expected_severity)
      && (message_key (in_content input) ==s expected_key)
      && bool_decide (in_entity input = Some {| entity_type := EntityOrder; entity_id := order_id |})
      && bool_decide (in_action input = Some (OpenTrading (Some order_id)))
      && bool_decide (is_Some (in_session_epoch input))
  | None => false
  end.

Definition client_shape (input : NotificationInput) (expected_kind : NotificationKind)
    (expected_severity : NotificationSeverity) (expected_key expected_suffix : string) : bool :=
  match in_scope input with
  | AccountScope account_id =>
      bool_decide (in_kind input = expected_kind) && bool_decide (in_category input = RiskAccount)
      && bool_decide (in_severity input = expected_severity)
      && (message_key (in_content input) ==s expected_key)
      && Nat.eqb (List.length (params (in_content input))) 1
      && contains_key "failedSteps" (params (in_content input))
      && bool_decide (in_entity input = Some {| entity_type := EntityAccount; entity_id := account_id |})
      && bool_decide (in_action input = Some (OpenAccountSettings ApiSection))
      && bool_decide (is_Some (in_session_epoch input))
      && client_failure_identity_matches input expected_suffix
  | Global => false
  end.

Definition is_task5_kind (k : NotificationKind) : bool :=
  match k with OrderFilled | OrderCanceled | OrderRejected | RiskOrderBlocked => true | _ => false end.
Definition is_client_kind (k : NotificationKind) : bool :=
  match k with AccountRecoveryFailed | AccountReconciliationFailed => true | _ => false end.

Definition kind_shape (input : NotificationInput) : bool :=
  let key := message_key (in_content input) in
  match in_kind input with
  | OrderFilled => order_shape input OrderFilled Success "order.filled"
  | OrderCanceled => order_shape input OrderCanceled Info "order.canceled"
  | OrderRejected =>
      bool_decide (in_category input = TradingCategory) && bool_decide (in_severity input = ErrorSeverity)
      && (key ==s "order.rejected") && bool_decide (is_Some (in_session_epoch input))
      && match order_identity input with
         | Some order_id =>
             bool_decide (in_entity input = Some {| entity_type := EntityOrder; entity_id := order_id |})
             && bool_decide (in_action input = Some (OpenTrading (Some order_id)))
         | None =>
             bool_decide (in_entity input = None) && bool_decide (in_action input = Some (OpenTrading None))
         end
  | RiskOrderBlocked =>
      bool_decide (in_category input = RiskAccount) && bool_decide (in_severity input = Warning)
      && (key ==s "risk.orderBlocked") && bool_decide (in_entity input = None)
      && bool_decide (in_action input = Some (OpenAccountSettings RiskSection))
      && bool_decide (is_Some (in_session_epoch input))
  | AccountRecoveryFailed =>
      client_shape input AccountRecoveryFailed ErrorSeverity "account.recoveryFailed" "recovery"
  | AccountReconciliationFailed =>
      client_shape input AccountReconciliationFailed Critical "account.reconciliationFailed" "reconciliation"
  | _ => true
  end.

Definition validate_exact_task5_shape (input : NotificationInput)
    : outcome NotificationValidationError unit :=
  let key := message_key (in_content input) in
  let task5_message :=
    existsb (String.eqb key) ["order.filled"; "order.canceled"; "order.rejected"; "risk.orderBlocked"] in
  let client_message := existsb (String.eqb key) ["account.recoveryFailed"; "account.reconciliationFailed"] in
  let valid :=
    Bool.eqb (is_task5_kind (in_kind input)) task5_message
    && Bool.eqb (is_client_kind (in_kind input)) client_message
    && (negb (is_task5_kind (in_kind input))
        || match in_scope input with AccountScope _ => true | Global => false end)
    && kind_shape input in
  guard (negb valid) invalid_content.

Definition optional {A} (f : A -> outcome NotificationValidationError unit) (x : option A) : bool :=
  match x with Some a => is_ok (f a) | None => true end.

Definition input_validate (input : NotificationInput) : outcome NotificationValidationError unit :=
  let? _ := omap_err (fun _ => invalid_content) (scope_validate (in_scope input)) in
  let? _ := content_validate (in_content input) in
  let? _ := guard (negb (optional entity_validate (in_entity input))
                   || negb (optional action_validate (in_action input))
                   || match in_source_event_id input with
                      | Some source => negb (is_safe_notification_source_event_id source)
                      | None => false
                      end
                   || negb (is_safe_notification_dedupe_key (in_dedupe_key input))) invalid_content in
  validate_exact_task5_shape input.

(** The input a record could have come from. *)
Definition record_shape (r : NotificationRecord) : NotificationInput := {|
  in_scope := scope r; in_category := category r; in_kind := kind r; in_severity := severity r;
  in_content := content r; in_entity := entity r; in_action := action r;
  in_source_event_id := source_event_id r; in_dedupe_key := dedupe_key r;
  in_session_epoch := Some 0;
|}.

Definition record_validate (r : NotificationRecord) : outcome NotificationValidationError unit :=
  let? _ := guard (negb (is_generated_uuid (id r))) invalid_record in
  let? _ := omap_err (fun _ => invalid_record) (scope_validate (scope r)) in
  let? _ := omap_err (fun _ => invalid_record) (content_validate (content r)) in
  let? _ := guard (negb (optional entity_validate (entity r))
                   || negb (optional action_validate (action r))
                   || match source_event_id r with
                      | Some source => negb (is_safe_notification_source_event_id source)
                      | None => false
                      end
                   || negb (is_safe_notification_dedupe_key (dedupe_key r))
                   || (occurrence_count r =? 0)
                   || negb (is_safe_timestamp (created_at_ms r))
                   || negb (is_safe_timestamp (updated_at_ms r))
                   || match read_at_ms r with Some t => negb (is_safe_timestamp t) | None => false end
                   || (updated_at_ms r <? created_at_ms r)
                   || match read_at_ms r with
                      | Some t => (t <? created_at_ms r) || (updated_at_ms r <? t)
                      | None => false
                      end) invalid_record in
  omap_err (fun _ => invalid_record) (validate_exact_task5_shape (record_shape r)).

(** [==] of scalars and contents: numbers by IEEE 754. *)
Definition scalar_eqb (a b : NotificationScalar) : bool :=
  match a, b with
  | ScalarString a, ScalarString b => a ==s b
  | ScalarBool a, ScalarBool b => Bool.eqb a b
  | ScalarNumber a, ScalarNumber b => SpecFloat.SFeqb a b
  | _, _ => false
  end.

Fixpoint params_eqb (a b : Params) : bool :=
  match a, b with
  | [], [] => true
  | (k, v) :: a', (k', v') :: b' => (k ==s k') && scalar_eqb v v' && params_eqb a' b'
  | _, _ => false
  end.

Definition content_eqb (a b : NotificationContent) : bool :=
  (message_key a ==s message_key b) && params_eqb (params a) (params b)
  && (fallback_title a ==s fallback_title b) && (fallback_body a ==s fallback_body b).

Definition client_notification_record_matches_input (r : NotificationRecord) (input : NotificationInput)
    : bool :=
  is_client_kind (in_kind input) && is_ok (record_validate r) && is_ok (input_validate input)
  && bool_decide (scope r = in_scope input) && bool_decide (category r = in_category input)
  && bool_decide (kind r = in_kind input) && bool_decide (severity r = in_severity input)
  && content_eqb (content r) (in_content input) && bool_decide (entity r = in_entity input)
  && bool_decide (action r = in_action input)
  && bool_decide (source_event_id r = in_source_event_id input)
  && (dedupe_key r ==s in_dedupe_key input).

(** ** Requests, pages, events *)

Inductive NotificationFilter := All | Unread.
#[export] Instance NotificationFilter_eq_dec : EqDecision NotificationFilter.
Proof. solve_decision. Defined.

Record ListNotificationsRequest := {
  req_account_id : option string;
  req_filter : NotificationFilter;
  req_cursor : option string;
  req_limit : Z;
}.

Definition request_validate (r : ListNotificationsRequest) : outcome NotificationValidationError unit :=
  guard (match req_account_id r with Some id => trim_is_empty id | None => false end
         || match req_cursor r with Some cursor => trim_is_empty cursor | None => false end
         || negb ((1 <=? req_limit r) && (req_limit r <=? MAX_NOTIFICATION_PAGE_LIMIT)))
    {| nv_code := "INVALID_NOTIFICATION_REQUEST"; nv_message := "通知查询请求无效" |}.

Record NotificationPage := {
  page_items : list NotificationRecord;
  next_cursor : option string;
  page_unread_count : Z;
  page_revision : string;
}.

Record NotificationMutationResult := {
  res_notification : option NotificationRecord;
  affected_count : Z;
  affected_scopes : list NotificationScope;
  res_unread_count : Z;
  res_revision : string;
}.

Inductive NotificationChange := Created | Updated | Removed | Reset.
#[export] Instance NotificationChange_eq_dec : EqDecision NotificationChange.
Proof. solve_decision. Defined.

Record NotificationToastCandidate := {
  toast_id : string;
  toast_scope : NotificationScope;
  toast_session_epoch : option Z;
  toast_category : NotificationCategory;
  toast_severity : NotificationSeverity;
  toast_content : NotificationContent;
  toast_action : option NotificationAction;
}.

Record NotificationChangedEvent := {
  ev_previous_revision : string;
  ev_revision : string;
  ev_change : NotificationChange;
  ev_affected_scopes : list NotificationScope;
  ev_notification_id : option string;
  ev_toast_candidate : option NotificationToastCandidate;
}.

Definition toast_validate (t : NotificationToastCandidate) : outcome NotificationValidationError unit :=
  let? _ := guard (negb (is_generated_uuid (toast_id t))) invalid_event in
  let? _ := omap_err (fun _ => invalid_event) (scope_validate (toast_scope t)) in
  let? _ := omap_err (fun _ => invalid_event) (content_validate (toast_content t)) in
  guard (match toast_session_epoch t with Some epoch => negb (is_safe_timestamp epoch) | None => false end
         || negb (optional action_validate (toast_action t))) invalid_event.

Definition event_validate (e : NotificationChangedEvent) : outcome NotificationValidationError unit :=
  let? _ := guard (negb (bool_decide (ev_change e = Created))
                   && bool_decide (is_Some (ev_toast_candidate e))) invalid_event in
  match ev_toast_candidate e with
  | Some candidate => toast_validate candidate
  | None => Ok tt
  end.

Record CreateClientNotificationRequest := {
  cr_account_id : string;
  cr_session_epoch : Z;
  cr_attempt_id : string;
  cr_kind : ClientNotificationKind;
  cr_failed_steps : list ClientNotificationFailedStep;
}.

Definition client_request_validate (r : CreateClientNotificationRequest)
    : outcome NotificationValidationError unit :=
  guard (negb (AccountId_parse (cr_account_id r)) || negb (is_generated_uuid (cr_attempt_id r))
         || negb (is_safe_timestamp (cr_session_epoch r))
         || bool_decide (cr_failed_steps r = [])
         || negb (bool_decide (NoDup (cr_failed_steps r))))
    {| nv_code := "INVALID_NOTIFICATION_REQUEST"; nv_message := "客户端通知请求无效" |}.
End Shapes.
