(* ===== verification/Connection.v ===== *)
(** services/connection.rs, storage/credentials.rs, events/emitter.rs and the
    adapters of commands/connection.rs and commands/account_profiles.rs: the
    connection of the desktop, composed of the client, the clock and the streams,
    and the implementation of the port the account transactions ask for. *)
From stdpp Require Import gmap.
From S2P Require Import Prelude RustStr FileSystem External Models Time Workflow Mapper ApiClient Accounts WsManager NotificationTypes.

(** ** events/emitter.rs *)

Inductive desktop_event :=
| ConnectionStatusEvent (context : SessionContext) (status : string)
| WebsocketStatusEvent (context : SessionContext) (status : string)
| TimeUpdatedEvent (snapshot : TimeSnapshot)
| DiagnosticEvent (message : string) (include_error_event : bool)
| LogEntryEvent (level message : string).

(** The tracked status of the streams, whether the strategies were woken, and
    what was emitted, newest first. *)
Record EventEmitter := {
  em_websocket_status : ConnectionStatus;
  em_strategy_woken : bool;
  em_events : list desktop_event;
}.

Definition EventEmitter_new : EventEmitter :=
  {| em_websocket_status := Disconnected; em_strategy_woken := false; em_events := [] |}.

Definition emit (events : list desktop_event) (e : EventEmitter) : EventEmitter :=
  {| em_websocket_status := em_websocket_status e; em_strategy_woken := em_strategy_woken e;
     em_events := (events ++ em_events e)%list |}.

(** [WebsocketStatusTracker::record]. *)
Definition recorded_status (status : string) (old : ConnectionStatus) : ConnectionStatus :=
  if status ==s "disconnected" then Disconnected
  else if status ==s "connecting" then Connecting
  else if status ==s "connected" then Connected
  else if status ==s "error" then ConnectionError
  else old.

Definition emit_connection_for_session (context : SessionContext) (status : string) (e : EventEmitter)
    : EventEmitter :=
  emit [LogEntryEvent "info" ("API 连接状态: " +:+ status); ConnectionStatusEvent context status]
    {| em_websocket_status := em_websocket_status e; em_strategy_woken := true;
       em_events := em_events e |}.

Definition emit_websocket_for_session (context : SessionContext) (status : string) (e : EventEmitter)
    : EventEmitter :=
  emit [LogEntryEvent "info" ("WebSocket 状态: " +:+ status); WebsocketStatusEvent context status]
    {| em_websocket_status := recorded_status status (em_websocket_status e);
       em_strategy_woken := true; em_events := em_events e |}.

(** [format!("{:?}", status).to_lowercase()]. *)
Definition status_name (s : ConnectionStatus) : string :=
  match s with
  | Disconnected => "disconnected"
  | Connecting => "connecting"
  | Connected => "connected"
  | ConnectionError => "error"
  end.

(** ** What the desktop is built on *)

Inductive KeyringError := NoEntry | KeyringFailure.

(** serde_json on a credential; an error is its text. *)
Class CredentialJson := {
  credential_to_json : ApiCredential -> outcome string string;
  credential_from_json : string -> outcome string ApiCredential;
}.

(** The key store, which is the crate keyring, and the components that are not
    the connection's: the configuration store, the notification runtime, the
    market service and the analytics.  An observation answers the identity of
    what was published, and [None] also when the runtime is unavailable or
    failed. *)
Class DesktopParts (P : Type) := {
  keyring_get : string -> P -> (KeyringError + string) * P;
  keyring_set : string -> string -> P -> option KeyringError * P;
  keyring_delete : string -> P -> option KeyringError * P;
  config_store_save : AppConfig -> M P AppError unit;
  notify_connection : SessionContext -> NotificationChannel -> bool -> Z -> P -> option string * P;
  notify_environment : SessionContext -> string -> NotificationEnvironment -> bool -> Z -> P -> option string * P;
  (* with whether it was committed *)
  notify_session_expired : SessionContext -> string -> Z -> P -> option (bool * option string) * P;
  notify_delete_partition : string -> Z -> P -> bool * P;
  market_kline_interval : P -> string;
  analytics_clear : P -> P;
}.

Record desktop {X P : Type} := Desktop {
  dk_config : AppConfig;
  dk_status : ConnectionStatus;
  dk_api : api_world X;
  dk_time : TimeMeta;
  dk_ws : WsManager;
  dk_next_task : nat;
  dk_emitter : EventEmitter;
  dk_parts : P;
}.
Arguments desktop : clear implicits.
Arguments Desktop {X P} _ _ _ _ _ _ _ _.

Section Desktop.
Context `{UrlLib} `{Sha256Lib} `{HmacLib} `{StatusText} `{JsonText} `{Codec json} `{DecimalLib}.
Context `{CredentialJson} {X : Type} `{ApiEnvironment X} {P : Type} `{DesktopParts P}.

Abbreviation action A := (M (desktop X P) AppError A).

Definition asks_client {A} (c : M (api_world X) AppError A) : action A :=
  fun d => let '(o, w) := c (dk_api d) in
           (o, Desktop (dk_config d) (dk_status d) w (dk_time d) (dk_ws d) (dk_next_task d)
                 (dk_emitter d) (dk_parts d)).

Definition asks_parts {A} (c : M P AppError A) : action A :=
  fun d => let '(o, p) := c (dk_parts d) in
           (o, Desktop (dk_config d) (dk_status d) (dk_api d) (dk_time d) (dk_ws d) (dk_next_task d)
                 (dk_emitter d) p).

(** A call that cannot fail. *)
Definition calls_parts {A} (f : P -> A * P) : action A :=
  asks_parts (fun p => let '(a, p) := f p in (Ok a, p)).

Definition emits (f : EventEmitter -> EventEmitter) : action unit :=
  fun d => (Ok tt, Desktop (dk_config d) (dk_status d) (dk_api d) (dk_time d) (dk_ws d)
                     (dk_next_task d) (f (dk_emitter d)) (dk_parts d)).

Definition streams (f : WsManager -> WsManager) : action unit :=
  fun d => (Ok tt, Desktop (dk_config d) (dk_status d) (dk_api d) (dk_time d) (f (dk_ws d))
                     (dk_next_task d) (dk_emitter d) (dk_parts d)).

Definition looks {A} (f : desktop X P -> A) : action A := fun d => (Ok (f d), d).

Definition local_now : action Z := asks_client ApiClient.local_timestamp_ms.

(** ** storage/credentials.rs *)

Definition credential_backend_error : AppError := Auth "系统凭据存储不可用，请稍后重试".

Definition keyring_result (e : option KeyringError) : outcome AppError unit :=
  match e with None => Ok tt | Some _ => Err credential_backend_error end.

Definition store_save (account_id : string) (credential : ApiCredential) : action unit :=
  mlift (guard (negb (is_valid credential)) (Auth "API Key 与 Secret 均不能为空")) ;;;
  let* text := mlift (omap_err Config (credential_to_json credential)) in
  let* e := calls_parts (keyring_set account_id text) in
  mlift (keyring_result e).

Definition store_load (account_id : string) : action (option ApiCredential) :=
  let* entry := calls_parts (keyring_get account_id) in
  match entry with
  | inr text =>
      let* c := mlift (omap_err Config (credential_from_json text)) in mret (Some (normalize c))
  | inl NoEntry => mret None
  | inl KeyringFailure => mfail credential_backend_error
  end.

Definition store_delete (account_id : string) : action unit :=
  let* e := calls_parts (keyring_delete account_id) in
  match e with
  | None | Some NoEntry => mret tt
  | Some KeyringFailure => mfail credential_backend_error
  end.

Definition store_has (account_id : string) : action bool :=
  let* loaded := mtry (store_load account_id) in
  mret match loaded with inr (Some c) => is_valid c | _ => false end.

(** ** services/connection.rs: observing *)

Inductive ConnectionObservationSource := FromApi | FromPrivateWebsocket | FromPublicWebsocket.

(** [epoch] is the coordinator's current session epoch, here and below. *)
Definition is_current_guarded (epoch : Z) (context : SessionContext) (d : desktop X P) : bool :=
  (normalize_account_id (active_account_id (dk_config d)) ==s ses_account_id context)
  && (epoch =? ses_session_epoch context).

Definition observe_connection_status_guarded (epoch : Z) (context : SessionContext)
    (source : ConnectionObservationSource) (status : ConnectionStatus) (now_ms : Z)
    : action (option string) :=
  match source with
  | FromPublicWebsocket => mret None
  | _ =>
      let channel := match source with FromApi => Api | _ => Websocket end in
      match status with
      | Connecting | Disconnected => mret None
      | _ =>
          let* current := looks (is_current_guarded epoch context) in
          if negb current then mret None
          else calls_parts (notify_connection context channel (bool_decide (status = Connected)) now_ms)
      end
  end.

Definition observe_environment_guarded (epoch : Z) (context : SessionContext) (environment_key : string)
    (environment : NotificationEnvironment) (reachable : bool) (now_ms : Z) : action (option string) :=
  let* current := looks (is_current_guarded epoch context) in
  if negb current then mret None
  else calls_parts (notify_environment context environment_key environment reachable now_ms).

Definition observe_api_auth_failure_guarded (epoch : Z) (context : ApiSessionContext)
    (failure : AuthFailureKind) (now_ms : Z) : action (option string) :=
  if negb (bool_decide (failure = SessionExpired)) then mret None
  else
    let* current := looks (is_current_guarded epoch (ac_session context)) in
    if negb current then mret None
    else
      let* published := calls_parts (notify_session_expired (ac_session context)
                                       (notification_session_token context) now_ms) in
      match published with
      | None => mret None
      | Some (committed, notification_id) =>
          (if committed : bool
           then emits (emit [DiagnosticEvent "NOTIFIED_SESSION_FAILURE:AUTH_SESSION_EXPIRED" false])
           else mret tt) ;;;
          mret notification_id
      end.

Definition notified_connection_error (error : AppError) (notification_id : option string) : AppError :=
  match notification_id with
  | Some notification_id =>
      match error with
      | AuthFailure SessionExpired => expired_session notification_id
      | _ => Notified "CONNECTION_UNAVAILABLE" "交易连接暂时不可用" notification_id None
      end
  | None => error
  end.

Definition deliver_notified_connection_error (error : AppError) : action unit :=
  match error with
  | Notified code _ _ _ =>
      if code ==s "AUTH_SESSION_EXPIRED" then mret tt
      else emits (emit [DiagnosticEvent ("NOTIFIED_CONNECTION_FAILURE:" +:+ code) false])
  | _ => mret tt
  end.

(** ** services/time.rs: [sync] *)

Definition time_state (d : desktop X P) : TimeState :=
  {| ts_offset_ms := cl_offset_ms (w_client (dk_api d)); ts_meta := dk_time d |}.

Definition set_time (st : TimeState) : action unit :=
  fun d =>
    let w := dk_api d in
    (Ok tt, Desktop (dk_config d) (dk_status d)
              (ApiWorld (set_offset (ts_offset_ms st) (w_client w)) (w_answers w) (w_outside w))
              (ts_meta st) (dk_ws d) (dk_next_task d) (dk_emitter d) (dk_parts d)).

Definition emit_snapshot : action TimeSnapshot :=
  let* clock1 := local_now in
  let* clock2 := local_now in
  let* st := looks time_state in
  let snapshot := time_snapshot clock1 clock2 st in
  emits (emit [TimeUpdatedEvent snapshot]) ;;;
  mret snapshot.

Definition sync_time : action TimeSnapshot :=
  let* now := local_now in
  let* st := looks time_state in
  set_time (sync_begin now st) ;;;
  let* _ := emit_snapshot in
  let* started := local_now in
  let* result := mtry (asks_client server_time) in
  let* finished := local_now in
  let* st := looks time_state in
  set_time (sync_end started finished
              (match result with inr ms => Ok ms | inl e => Err e end) st) ;;;
  emit_snapshot.

(** ** services/connection.rs: the service *)

Definition set_status (context : SessionContext) (status : ConnectionStatus) : action unit :=
  fun d => (Ok tt, Desktop (dk_config d) status (dk_api d) (dk_time d) (dk_ws d) (dk_next_task d)
                     (emit_connection_for_session context (status_name status) (dk_emitter d))
                     (dk_parts d)).

(** [WsManager::stop] and [WsManager::start], when the former streams have ended. *)
Definition ws_stop : action unit := streams (fun m => stop_end (stop_begin m)).

Definition ws_start (symbol : string) (context : SessionContext) : action unit :=
  fun d =>
    let '(m, _) := start_session symbol context (dk_next_task d) (stop_begin (dk_ws d)) in
    (Ok tt, Desktop (dk_config d) (dk_status d) (dk_api d) (dk_time d) m (dk_next_task d + 2)
              (emit_websocket_for_session context "connecting" (dk_emitter d)) (dk_parts d)).

Definition credential_missing : AppError := Auth "未找到 API 凭据".

(** The credential given, completed by the stored one; or the stored one. *)
Definition resolve_credential (account_id : string) (given : option ApiCredential)
    : action ApiCredential :=
  match given with
  | Some c =>
      let c := normalize c in
      let* c :=
        if has_secret c then mret c
        else
          let* stored := store_load account_id in
          let* stored := mlift (ok_or credential_missing stored) in
          mret {| api_key := if is_empty (api_key c) then api_key stored else api_key c;
                  api_secret := api_secret stored;
                  base_url := if is_empty (base_url c) then base_url stored else base_url c;
                  label := label c |} in
      mlift (guard (negb (is_valid c))
               (Auth "API 凭据无效，请在设置中重新保存 API Key 与 Secret")) ;;;
      mret c
  | None =>
      let* stored := store_load account_id in
      let* stored := mlift (ok_or credential_missing stored) in
      mret (normalize stored)
  end.

Definition start_streams (context : SessionContext) (symbol : string) (credential : ApiCredential)
    : action unit :=
  let* config := looks dk_config in
  streams (configure (ws_public_url config) (ws_private_url config) (Signer_new credential)) ;;;
  let* kline_interval := looks (fun d => market_kline_interval (dk_parts d)) in
  streams (subscribe_all symbol kline_interval) ;;;
  ws_start symbol context.

Definition connect_inner (epoch : Z) (context : SessionContext) (start_realtime : bool)
    (symbol : string) (given : option ApiCredential) : action unit :=
  (if start_realtime then mret tt
   else ws_stop ;;; emits (emit_websocket_for_session context "disconnected")) ;;;
  let* credential := resolve_credential (ses_account_id context) given in
  mlift (guard (negb (is_valid credential)) (Auth "API Secret 缺失，请在设置中重新保存完整凭据")) ;;;
  let* token := asks_client new_uuid in
  let* owner := asks_client new_uuid in
  asks_client (changing (set_credential_for_session credential context token owner)) ;;;
  let* snapshot := sync_time in
  match sync_status (snap_meta snapshot) with
  | Failed => mfail (Connection (default "无法同步服务器时间" (last_error (snap_meta snapshot))))
  | _ =>
      (if start_realtime then start_streams context symbol credential else mret tt) ;;;
      set_status context Connected ;;;
      let* now := local_now in
      let* _ := observe_connection_status_guarded epoch context FromApi Connected now in
      emits (emit [LogEntryEvent "info" "API 连接成功"])
  end.

(** The error arm of [connect_for_session]. *)
Definition fail_connection (epoch : Z) (context : SessionContext) (e : AppError) : action unit :=
  set_status context ConnectionError ;;;
  let* notification_id :=
    match e with
    | Connection _ =>
        let* now := local_now in
        observe_connection_status_guarded epoch context FromApi ConnectionError now
    | _ => mret None
    end in
  let error := notified_connection_error e notification_id in
  deliver_notified_connection_error error ;;;
  mfail error.

Definition connect_for_session (epoch : Z) (context : SessionContext) (start_realtime : bool)
    (symbol : string) (given : option ApiCredential) : action unit :=
  set_status context Connecting ;;;
  let* r := mtry (connect_inner epoch context start_realtime symbol given) in
  match r with
  | inr _ => mret tt
  | inl e => fail_connection epoch context e
  end.

(** The session of the account an identity names, in the current epoch. *)
Definition session_of (epoch : Z) (account_id : string) : SessionContext :=
  {| ses_account_id := normalize_account_id account_id; ses_session_epoch := epoch |}.

Definition service_connect (epoch : Z) (account_id : string) (start_realtime : bool) (symbol : string)
    (given : option ApiCredential) : action unit :=
  connect_for_session epoch (session_of epoch account_id) start_realtime symbol given.

Definition service_disconnect (epoch : Z) : action unit :=
  let* config := looks dk_config in
  let context := session_of epoch (active_account_id config) in
  ws_stop ;;;
  emits (emit_websocket_for_session context "disconnected") ;;;
  asks_client (changing clear_credential) ;;;
  set_status context Disconnected.

Definition service_activate_committed_session (epoch : Z) (context : SessionContext) : action unit :=
  let* status := looks dk_status in
  if decide (status = Connected) then
    let* now := local_now in
    let* _ := observe_connection_status_guarded epoch context FromApi Connected now in mret tt
  else mret tt.

(** [WsManager::activate_committed_session]. *)
Definition streams_activate_committed_session (epoch : Z) (context : SessionContext) : action unit :=
  let* linked := looks (fun d => private_connected (dk_ws d)) in
  if linked then
    let* now := local_now in
    let* _ := observe_connection_status_guarded epoch context FromPrivateWebsocket Connected now in
    mret tt
  else mret tt.

Definition refresh_realtime (epoch : Z) (symbol : string) : action unit :=
  let* config := looks dk_config in
  let* status := looks dk_status in
  if negb (use_websocket config) || negb (bool_decide (status = Connected)) then mret tt
  else
    let* kline_interval := looks (fun d => market_kline_interval (dk_parts d)) in
    streams (subscribe_all symbol kline_interval) ;;;
    ws_start symbol (session_of epoch (active_account_id config)).

(** ** commands/connection.rs *)

Definition TICKER : string := "/futures/public/v1/market/tickers".
Definition BALANCES : string := "/futures/private/v1/account/balance".

(** What a client of its own asks to probe a credential. *)
Definition probes (credential : ApiCredential) : M (api_world X) AppError unit :=
  changing (set_credential credential) ;;;
  force_time_sync ;;;
  let* _ := public_get TICKER [("symbol", "BTCUSDT")] in
  let* _ := private_get BALANCES
              (build_order_query_params None None None None None None None None None None) in
  mret tt.

Definition preflight_credential (credential : ApiCredential) : action unit :=
  let credential := normalize credential in
  mlift (guard (negb (is_valid credential)) (Auth "API 凭据或服务地址无效")) ;;;
  fun d =>
    let w := dk_api d in
    let '(o, w') := probes credential (ApiWorld ApiClient_new (w_answers w) (w_outside w)) in
    (o, Desktop (dk_config d) (dk_status d) (ApiWorld (w_client w) (w_answers w') (w_outside w'))
          (dk_time d) (dk_ws d) (dk_next_task d) (dk_emitter d) (dk_parts d)).

(** ** commands/account_profiles.rs *)

#[export] Instance StateLifecyclePort : AccountLifecyclePort (desktop X P) := {
  read_config := dk_config;
  replace_runtime_config c d :=
    Desktop c (dk_status d) (dk_api d) (dk_time d) (dk_ws d) (dk_next_task d) (dk_emitter d) (dk_parts d);
  persist_config c := asks_parts (config_store_save c);
  load_credential := store_load;
  save_credential := store_save;
  delete_credential := store_delete;
  connection_status := dk_status;
  preflight := preflight_credential;
  disconnect epoch d := (service_disconnect epoch d).2;
  connect account_id realtime credential session_epoch epoch d :=
    connect_for_session epoch (session_of session_epoch account_id) realtime
      (active_symbol (dk_config d)) (Some credential) d;
  activate_public_environment credential d :=
    (asks_client (changing (set_base_url (base_url credential))) d).2;
  activate_session context epoch d :=
    (streams_activate_committed_session epoch context
       (service_activate_committed_session epoch context d).2).2;
  clear_account_data d :=
    Desktop (dk_config d) (dk_status d) (dk_api d) (dk_time d) (dk_ws d) (dk_next_task d) (dk_emitter d)
      (analytics_clear (dk_parts d));
  delete_notification_partition account_id d :=
    let '(now, w) := env_local_ms (w_outside (dk_api d)) in
    let '(gone, p) := notify_delete_partition account_id now (dk_parts d) in
    (gone, Desktop (dk_config d) (dk_status d)
             (ApiWorld (w_client (dk_api d)) (w_answers (dk_api d)) w)
             (dk_time d) (dk_ws d) (dk_next_task d) (dk_emitter d) p);
}.
End Desktop.

(** * Normalizing a credential *)

(** The service addresses the program takes. *)
Definition plain_url `{UrlLib} (u : Url) : bool :=
  one_of (url_scheme u) ["http"; "https"] && is_empty (url_username u)
  && negb (bool_decide (is_Some (url_password u))) && negb (bool_decide (is_Some (url_query u)))
  && negb (bool_decide (is_Some (url_fragment u))) && negb (bool_decide (url_host_str u = None)).

(** The text of an address without its last slashes. *)
Definition bare_url `{UrlLib} (u : Url) : string :=
  trim_end_slashes (url_to_string (url_with_path (trim_end_slashes (url_path u)) u)).

(** The crate url: the port of a scheme is never reported, and the bare text of
    an address reads back as an address with that text. *)
Class UrlLaws `{UrlLib} := {
  url_port_reported u : (url_scheme u, url_port u) <> ("https", Some 443) /\
                        (url_scheme u, url_port u) <> ("http", Some 80);
  url_reads_back u : plain_url u = true ->
    trim (bare_url u) = bare_url u /\ is_empty (bare_url u) = false /\
    exists u', url_parse (bare_url u) = Some u' /\ plain_url u' = true /\ bare_url u' = bare_url u;
  url_default : exists u, url_parse DEFAULT_BASE_URL = Some u /\ plain_url u = true /\
                          bare_url u = DEFAULT_BASE_URL;
}.

Section Normal.
Context `{UrlLaws}.

Lemma canonical_plain v : canonical_api_base_url v =
  match url_parse (if is_empty (trim v) then DEFAULT_BASE_URL else trim v) with
  | Some u => if plain_url u then Some (bare_url u) else None
  | None => None
  end.
Proof.
  unfold canonical_api_base_url. destruct (url_parse _) as [u|]; [|done].
  cbn [base.mbind option_bind].
  destruct (url_port_reported u) as [H443 H80].
  rewrite (bool_decide_eq_false_2 _ H443), (bool_decide_eq_false_2 _ H80). cbn [orb base.mbind option_bind].
  unfold plain_url.
  destruct (one_of _ _), (is_empty _), (bool_decide _), (bool_decide _), (bool_decide _), (bool_decide _);
    reflexivity.
Qed.

Lemma canonical_again v b : canonical_api_base_url v = Some b ->
  trim b = b /\ is_empty b = false /\ canonical_api_base_url b = Some b.
Proof.
  rewrite canonical_plain. destruct (url_parse _) as [u|]; [|done].
  destruct (plain_url u) eqn:Hp; [|done]. intros [= <-].
  destruct (url_reads_back u Hp) as (Ht & He & u' & Hu & Hp' & Hb).
  split_and!; [done..|]. by rewrite canonical_plain, Ht, He, Hu, Hp', Hb.
Qed.

Lemma canonical_default : canonical_api_base_url DEFAULT_BASE_URL = Some DEFAULT_BASE_URL.
Proof.
  rewrite canonical_plain. destruct url_default as (u & Hu & Hp & Hb).
  change (if is_empty (trim DEFAULT_BASE_URL) then DEFAULT_BASE_URL else trim DEFAULT_BASE_URL)
    with DEFAULT_BASE_URL. by rewrite Hu, Hp, Hb.
Qed.

Lemma normalize_again c : normalize (normalize c) = normalize c.
Proof.
  unfold normalize. cbn [api_key api_secret base_url label]. rewrite !trim_again. f_equal.
  destruct (is_empty (trim (base_url c))) eqn:He.
  - change (is_empty (trim DEFAULT_BASE_URL)) with false. cbv beta iota zeta.
    change (trim DEFAULT_BASE_URL) with DEFAULT_BASE_URL. by rewrite canonical_default.
  - destruct (canonical_api_base_url (trim (base_url c))) as [b|] eqn:Hc; cbn [from_option Datatypes.id].
    + destruct (canonical_again _ _ Hc) as (Ht & Hb & Ha). by rewrite Ht, Hb, Ha.
    + by rewrite trim_again, He, Hc.
Qed.
End Normal.

(** * The desktop keeps the promises of the port *)

Create HintDb keeps.

Definition is_halt {E A} (o : outcome E A) : bool := match o with Halt _ => true | _ => false end.

Class CredentialJsonLaws `{CredentialJson} := {
  credential_round_trip c text : credential_to_json c = Ok text -> credential_from_json text = Ok c;
  credential_to_ended c : is_halt (credential_to_json c) = false;
  credential_from_ended text : is_halt (credential_from_json text) = false;
}.

(** The key store is a map that a refused write leaves alone, or changes when it
    failed late; no other part writes to it, or to the stored configuration. *)
Class DesktopPartsLaws (P : Type) `{DesktopParts P} := {
  parts_keys : P -> gmap string string;
  parts_config : P -> AppConfig;
  same_parts : P -> P -> Prop := fun p p' => parts_keys p' = parts_keys p /\ parts_config p' = parts_config p;
  parts_get i p :
    let '(r, p') := keyring_get i p in
    same_parts p p' /\ match r with
                       | inr text => parts_keys p !! i = Some text
                       | inl NoEntry => parts_keys p !! i = None
                       | inl KeyringFailure => True
                       end;
  parts_set i text p :
    let '(r, p') := keyring_set i text p in
    parts_config p' = parts_config p /\
    (parts_keys p' = <[i := text]> (parts_keys p) \/ r <> None /\ parts_keys p' = parts_keys p);
  parts_delete i p :
    let '(r, p') := keyring_delete i p in
    parts_config p' = parts_config p /\
    (parts_keys p' = delete i (parts_keys p) \/
     r = Some KeyringFailure /\ parts_keys p' = parts_keys p);
  parts_save c p :
    wp (config_store_save c)
      (fun _ p' => parts_keys p' = parts_keys p /\ parts_config p' = c)
      (fun _ p' => parts_keys p' = parts_keys p /\ (parts_config p' = parts_config p \/ parts_config p' = c))
      (fun _ => False) p;
  parts_connection s channel up now p : same_parts p (notify_connection s channel up now p).2;
  parts_partition i now p : same_parts p (notify_delete_partition i now p).2;
  parts_analytics p : same_parts p (analytics_clear p);
}.

(** Reads of the client that end. *)
Section Reads.
Context `{UrlLib} `{HmacLib} `{StatusText} `{JsonText} `{Codec json} `{DecimalLib} {X : Type} `{ApiEnvironment X}.

Lemma asks_server_time : asks server_time.
Proof.
  apply asks_bind; [apply asks_public_get|]. intros payload. apply asks_lift, parse_server_time_ended.
Qed.

Lemma asks_uuid : asks new_uuid.
Proof. eapply asks_silent; [apply silent_uuid|]. by intros ? [? ->]. Qed.

Lemma asks_private_get path params : asks (private_get path params).
Proof.
  assert (Honce : asks (private_get_once path params)).
  { apply asks_bind; [apply asks_reading|]. intros session.
    apply asks_bind; [|intros headers; apply asks_bind; [apply asks_reading|]; intros base;
                       apply asks_bind; [by apply asks_http|]; intros answer; apply asks_parse_response].
    eapply logs_mono; [apply asks_sign_headers|]. intros o l [Hl Ho]. split; [done|]. by destruct o. }
  apply asks_bind; [apply asks_ensure_time_sync|]. intros _.
  apply asks_bind.
  - eapply logs_try; [exact Honce|..]; simpl; tauto.
  - intros [e|v]; [|apply asks_ret]. case_match; [|apply asks_fail].
    apply asks_bind; [apply asks_force_time_sync|done].
Qed.
End Reads.

Section Laws.
Context `{UrlLaws} `{Sha256Lib} `{HmacLib} `{StatusText} `{JsonText} `{Codec json} `{DecimalLib}.
Context `{CredentialJsonLaws} {X : Type} `{ApiEnvironment X} {P : Type} `{DesktopPartsLaws P}.

Abbreviation action A := (M (desktop X P) AppError A).

Definition readable (text : string) : option ApiCredential :=
  match credential_from_json text with Ok c => Some (normalize c) | _ => None end.

(** What the transactions see of the desktop. *)
Definition desktop_view (d : desktop X P) : account_view :=
  AccountView (dk_config d) (parts_config (dk_parts d)) (omap readable (parts_keys (dk_parts d)))
    (dk_status d).

(** An action that ends and leaves a part alone; [keeps]: what is seen. *)
Definition leaves {T} (f : desktop X P -> T) {A} (c : action A) : Prop := forall d,
  wp c (fun _ d' => f d' = f d) (fun _ d' => f d' = f d) (fun _ => False) d.
Definition keeps {A} : action A -> Prop := leaves desktop_view.

Lemma leaves_bind {T} (f : desktop X P -> T) {A B} (c : action A) (k : A -> action B) :
  leaves f c -> (forall a, leaves f (k a)) -> leaves f (mbind c k).
Proof.
  intros Hc Hk d. apply wp_bind. eapply wp_mono; [apply Hc|..]; [|done..].
  intros a d' V. eapply wp_mono; [apply Hk|..]; [intros ? ? V'..|done]; congruence.
Qed.
Lemma leaves_try {T} (f : desktop X P -> T) {A} (c : action A) : leaves f c -> leaves f (mtry c).
Proof. intros Hc d. apply wp_try, Hc. Qed.
Lemma leaves_asks {T} (f : desktop X P -> T) {A} (c : M (api_world X) AppError A) :
  (forall d w, f (Desktop (dk_config d) (dk_status d) w (dk_time d) (dk_ws d) (dk_next_task d)
                    (dk_emitter d) (dk_parts d)) = f d) ->
  asks c -> leaves f (asks_client c).
Proof.
  intros Hf Hc d. destruct (Hc (dk_api d)) as (l & _ & _ & Ho). unfold wp, asks_client.
  by destruct (c (dk_api d)) as [[] w].
Qed.

Lemma keeps_bind {A B} (c : action A) (k : A -> action B) :
  keeps c -> (forall a, keeps (k a)) -> keeps (mbind c k).
Proof. apply leaves_bind. Qed.
Lemma keeps_ret {A} (a : A) : keeps (mret a).
Proof. done. Qed.
Lemma keeps_fail {A} e : keeps (mfail e : action A).
Proof. done. Qed.
Lemma keeps_lift {A} (o : outcome AppError A) : is_halt o = false -> keeps (mlift o).
Proof. by destruct o. Qed.
Lemma keeps_looks {A} (f : desktop X P -> A) : keeps (looks f).
Proof. done. Qed.
Lemma keeps_emits f : keeps (emits f).
Proof. done. Qed.
Lemma keeps_streams f : keeps (streams f).
Proof. done. Qed.
Lemma keeps_set_time st : keeps (set_time st).
Proof. done. Qed.
Lemma keeps_ws_start symbol context : keeps (ws_start symbol context).
Proof. intros d. unfold wp, ws_start. by destruct (start_session _ _ _ _). Qed.
Lemma keeps_try {A} (c : action A) : keeps c -> keeps (mtry c).
Proof. apply leaves_try. Qed.
Lemma keeps_asks {A} (c : M (api_world X) AppError A) : asks c -> keeps (asks_client c).
Proof. by apply leaves_asks. Qed.

(** A call that writes to neither the keys nor the stored configuration. *)
Lemma keeps_parts {A} (f : P -> A * P) : (forall p, same_parts p (f p).2) -> keeps (calls_parts f).
Proof.
  intros Hf d. unfold wp, calls_parts, asks_parts. specialize (Hf (dk_parts d)).
  destruct (f (dk_parts d)) as [a p]. destruct Hf as [Hk Hs]. unfold desktop_view. simpl in *.
  by rewrite Hk, Hs.
Qed.

Lemma keeps_load account_id : keeps (store_load account_id).
Proof.
  apply keeps_bind.
  - apply keeps_parts. intros p. pose proof (parts_get account_id p) as Hg.
    destruct (keyring_get account_id p). apply Hg.
  - intros [[]|text]; [apply keeps_ret|apply keeps_fail|].
    apply keeps_bind; [|intros c; apply keeps_ret]. apply keeps_lift.
    pose proof (credential_from_ended text). by destruct (credential_from_json text).
Qed.

#[local] Hint Resolve keeps_ret keeps_fail keeps_looks keeps_emits keeps_streams keeps_set_time
  keeps_ws_start keeps_load : keeps.
#[local] Hint Extern 1 (keeps (mtry _)) => apply keeps_try : keeps.
#[local] Hint Extern 1 (keeps (asks_client _)) => apply keeps_asks : keeps.
#[local] Hint Extern 1 (keeps (mlift _)) => apply keeps_lift : keeps.
#[local] Hint Extern 1 (keeps (mbind _ _)) => apply keeps_bind; [|intros ?] : keeps.
#[local] Hint Resolve asks_local asks_uuid asks_changing asks_server_time : keeps.

Lemma keeps_local_now : keeps local_now.
Proof. apply keeps_asks, asks_local. Qed.
#[local] Hint Resolve keeps_local_now : keeps.

Lemma keeps_emit_snapshot : keeps emit_snapshot.
Proof. unfold emit_snapshot. solve [auto 12 with keeps]. Qed.
#[local] Hint Resolve keeps_emit_snapshot : keeps.

Lemma keeps_sync_time : keeps sync_time.
Proof. unfold sync_time. solve [auto 30 with keeps]. Qed.

Lemma keeps_observe epoch context source status now :
  keeps (observe_connection_status_guarded epoch context source status now).
Proof.
  unfold observe_connection_status_guarded.
  destruct source, status; try apply keeps_ret; (apply keeps_bind; [apply keeps_looks|]); intros [];
    try apply keeps_ret; apply keeps_parts; intros p; apply parts_connection.
Qed.

Lemma keeps_ws_stop : keeps ws_stop.
Proof. apply keeps_streams. Qed.

Lemma keeps_start_streams context symbol c : keeps (start_streams context symbol c).
Proof. unfold start_streams. solve [auto 20 with keeps]. Qed.

Lemma keeps_resolve account_id given : keeps (resolve_credential account_id given).
Proof.
  destruct given as [c|]; unfold resolve_credential.
  - apply keeps_bind.
    + destruct (has_secret _); [apply keeps_ret|]. apply keeps_bind; [apply keeps_load|].
      intros stored. apply keeps_bind; [by destruct stored|intros; apply keeps_ret].
    + intros c'. apply keeps_bind; [|intros; apply keeps_ret]. apply keeps_lift. by destruct (negb _).
  - apply keeps_bind; [apply keeps_load|]. intros stored.
    apply keeps_bind; [by destruct stored|intros; apply keeps_ret].
Qed.

(** An action that ends, by what is seen of the desktop at its end. *)
Definition views {A} (c : action A) (Q : A -> account_view -> Prop) (R : AppError -> account_view -> Prop)
    (d : desktop X P) : Prop :=
  wp c (fun a d' => Q a (desktop_view d')) (fun e d' => R e (desktop_view d')) (fun _ => False) d.

(** After an action that leaves the view alone, and one that is the last. *)
Lemma after_keeps {A B} (c : action A) (k : A -> action B) (Q : B -> account_view -> Prop)
    (R : AppError -> account_view -> Prop) v d :
  desktop_view d = v -> keeps c -> (forall e, R e v) ->
  (forall a d', desktop_view d' = v ->
     views (k a) Q R d') -> views (mbind c k) Q R d.
Proof.
  intros <- Hc HR Hk. apply wp_bind. eapply wp_mono; [apply Hc|..]; [|intros e|done].
  - intros a d' V. by apply Hk.
  - intros d' V. by rewrite V.
Qed.

Lemma ends_keeps {A} (c : action A) (Q : A -> account_view -> Prop) (R : AppError -> account_view -> Prop) v d :
  desktop_view d = v -> keeps c -> (forall a, Q a v) -> (forall e, R e v) ->
  views c Q R d.
Proof.
  intros <- Hc HQ HR. eapply wp_mono; [apply Hc|..]; [intros a d' V|intros e d' V|done]; by rewrite V.
Qed.

Lemma after_status {B} context status (k : unit -> action B) (Q : B -> account_view -> Prop)
    (R : AppError -> account_view -> Prop) v d :
  desktop_view d = v ->
  (forall d', desktop_view d' = with_status status v ->
     views (k tt) Q R d') -> views (mbind (set_status context status) k) Q R d.
Proof. intros <- Hk. apply wp_bind. unfold wp at 1. simpl. by apply Hk. Qed.

(** An attempt to connect is seen as connected at its end. *)
Lemma connect_inner_view epoch context realtime symbol given v d : desktop_view d = v ->
  views (connect_inner epoch context realtime symbol given) (fun _ w => w = with_status Connected v)
    (fun _ w => with_status ConnectionError w = with_status ConnectionError v) d.
Proof.
  intros V. unfold connect_inner.
  eapply after_keeps; [exact V|destruct realtime; solve [auto using keeps_ws_stop with keeps]|done|]; intros _ d1 V1.
  eapply after_keeps; [done|apply keeps_resolve|done|]; intros c d2 V2.
  eapply after_keeps; [done|apply keeps_lift; by destruct (negb _)|done|]; intros _ d3 V3.
  do 3 (eapply after_keeps; [done|solve [auto with keeps]|done|]; intros ? ? ?).
  eapply after_keeps; [done|apply keeps_sync_time|done|]; intros snapshot d7 V7.
  destruct (sync_status (snap_meta snapshot));
    [| |apply (f_equal (with_status ConnectionError)) in V7; exact V7|].
  all: eapply after_keeps; [done|destruct realtime; [apply keeps_start_streams|apply keeps_ret]|done|];
    intros _ d8 V8.
  all: eapply after_status; [done|]; intros d9 V9.
  all: eapply after_keeps; [done|apply keeps_local_now|done|]; intros now d10 V10.
  all: eapply after_keeps; [done|apply keeps_observe|done|]; intros _ d11 V11.
  all: eapply ends_keeps; [done|apply keeps_emits|done..].
Qed.

Lemma connect_view epoch context realtime symbol given v d : desktop_view d = v ->
  views (connect_for_session epoch context realtime symbol given)
    (fun _ w => w = with_status Connected v) (fun _ w => w = with_status ConnectionError v) d.
Proof.
  intros V. unfold connect_for_session.
  eapply after_status; [exact V|]; intros d1 V1.
  apply wp_bind, wp_try. eapply wp_mono; [by apply connect_inner_view|..]; [|intros e|done].
  - by intros ? d2 V2.
  - intros d2 V2.
    apply (after_status _ _ _ (fun _ w => w = with_status Connected v)
             (fun _ w => w = with_status ConnectionError v) (desktop_view d2)); [done|]; intros d3 V3.
    rewrite V2 in V3. change (with_status _ (with_status _ v)) with (with_status ConnectionError v) in V3.
    eapply after_keeps; [done|..|done|].
    { destruct e; try apply keeps_ret. apply keeps_bind; [apply keeps_local_now|intros; apply keeps_observe]. }
    intros id d4 V4. eapply after_keeps; [done|..|done|].
    { unfold deliver_notified_connection_error.
      repeat case_match; first [apply keeps_ret|apply keeps_emits]. }
    intros _ d5 V5. unfold wp. done.
Qed.

Lemma disconnect_view epoch d :
  desktop_view (service_disconnect epoch d).2 = with_status Disconnected (desktop_view d).
Proof. done. Qed.

Lemma asks_probes c : asks (probes c).
Proof.
  apply asks_bind; [apply asks_changing|]. intros _.
  apply asks_bind; [apply asks_force_time_sync|]. intros _.
  apply asks_bind; [apply asks_public_get|]. intros _.
  apply asks_bind; [apply asks_private_get|]. intros _. apply asks_ret.
Qed.

Lemma preflight_keeps c : keeps (preflight_credential c).
Proof.
  apply keeps_bind; [apply keeps_lift; by destruct (negb _)|]. intros _ d. unfold wp.
  destruct (asks_probes (normalize c) (ApiWorld ApiClient_new (w_answers (dk_api d)) (w_outside (dk_api d))))
    as (l & _ & _ & Ho).
  by destruct (probes _ _) as [[] w].
Qed.

(** The key store, by what is seen of it. *)
Lemma load_view i (d : desktop X P) :
  wp (store_load i) (fun v d' => v = v_vault (desktop_view d) !! i /\ desktop_view d' = desktop_view d)
    (fun _ d' => desktop_view d' = desktop_view d) (fun _ => False) d.
Proof.
  pose proof (keeps_load i d) as Hk. unfold wp, store_load, mbind, calls_parts, asks_parts in *.
  pose proof (parts_get i (dk_parts d)) as Hg. destruct (keyring_get i (dk_parts d)) as [[[]|text] p].
  - split; [|exact Hk]. simpl. by rewrite lookup_omap, (proj2 Hg).
  - exact Hk.
  - unfold mlift, omap_err in *. destruct (credential_from_json text) as [c|e|h] eqn:Ec; try exact Hk.
    split; [|exact Hk]. simpl. rewrite lookup_omap, (proj2 Hg). unfold readable. simpl. by rewrite Ec.
Qed.

Lemma save_view i c (d : desktop X P) :
  wp (store_save i c)
    (fun _ d' => is_valid c = true /\
       desktop_view d' = AccountView (v_config (desktop_view d)) (v_persisted (desktop_view d))
                           (<[i := normalize c]> (v_vault (desktop_view d))) (v_status (desktop_view d)))
    (fun _ d' => exists m, (m = v_vault (desktop_view d) \/ m = <[i := normalize c]> (v_vault (desktop_view d))) /\
       desktop_view d' = AccountView (v_config (desktop_view d)) (v_persisted (desktop_view d)) m
                           (v_status (desktop_view d)))
    (fun _ => False) d.
Proof.
  unfold wp, store_save, mbind, mlift, guard. destruct (is_valid c) eqn:Hv; cbn [negb]; [|by eauto].
  pose proof (credential_to_ended c) as He.
  destruct (credential_to_json c) as [text|e|h] eqn:Et; cbn [omap_err]; [|by eauto|done].
  assert (Hr : readable text = Some (normalize c)).
  { unfold readable. by rewrite (credential_round_trip _ _ Et). }
  unfold calls_parts, asks_parts. pose proof (parts_set i text (dk_parts d)) as Hs.
  destruct (keyring_set i text (dk_parts d)) as [[e|] p]; destruct Hs as [Hc Hk]; cbn.
  - exists (omap readable (parts_keys p)). unfold desktop_view. cbn. rewrite Hc. split; [|done].
    destruct Hk as [->|[_ ->]]; [right; by apply omap_insert_Some|by left].
  - split; [done|]. unfold desktop_view. cbn. rewrite Hc. destruct Hk as [->|[? _]]; [|done].
    f_equal. by apply omap_insert_Some.
Qed.

Lemma delete_view i (d : desktop X P) :
  wp (store_delete i)
    (fun _ d' => desktop_view d' = AccountView (v_config (desktop_view d)) (v_persisted (desktop_view d))
                                     (delete i (v_vault (desktop_view d))) (v_status (desktop_view d)))
    (fun _ d' => exists m, (m = v_vault (desktop_view d) \/ m = delete i (v_vault (desktop_view d))) /\
       desktop_view d' = AccountView (v_config (desktop_view d)) (v_persisted (desktop_view d)) m
                           (v_status (desktop_view d)))
    (fun _ => False) d.
Proof.
  unfold wp, store_delete, mbind, calls_parts, asks_parts. pose proof (parts_delete i (dk_parts d)) as Hs.
  destruct (keyring_delete i (dk_parts d)) as [[[]|] p]; destruct Hs as [Hc Hk]; cbn.
  - unfold desktop_view. cbn. rewrite Hc. destruct Hk as [->|[[=] _]]. by rewrite omap_delete.
  - exists (omap readable (parts_keys p)). unfold desktop_view. cbn. rewrite Hc. split; [|done].
    destruct Hk as [->|[_ ->]]; [right; by rewrite omap_delete|by left].
  - unfold desktop_view. cbn. rewrite Hc. destruct Hk as [->|[[=] _]]. by rewrite omap_delete.
Qed.

Lemma activate_keeps epoch context :
  keeps (service_activate_committed_session epoch context) /\
  keeps (streams_activate_committed_session epoch context).
Proof.
  split; (apply keeps_bind; [apply keeps_looks|]); intros a; case_match;
    try apply keeps_ret; (apply keeps_bind; [apply keeps_local_now|]); intros now;
    (apply keeps_bind; [apply keeps_observe|intros; apply keeps_ret]).
Qed.

Lemma keeps_snd {A} (c : action A) d : keeps c -> desktop_view (c d).2 = desktop_view d.
Proof. intros Hc. specialize (Hc d). unfold wp in Hc. by destruct (c d) as [[] d']. Qed.

#[export] Program Instance desktop_keeps_the_port : AccountLifecycleLaws (desktop X P) := {
  view := desktop_view;
}.
Next Obligation. done. Qed.
Next Obligation. done. Qed.
Next Obligation.
  simpl. intros i c d. rewrite lookup_omap. unfold readable.
  destruct (_ !! i) as [text|]; [|done]. simpl. destruct (credential_from_json text); try done.
  intros [= <-]. apply normalize_again.
Qed.
Next Obligation. done. Qed.
Next Obligation.
  intros c d. pose proof (parts_save c (dk_parts d)) as Hs. unfold wp in *. simpl. unfold asks_parts.
  destruct (config_store_save c (dk_parts d)) as [[[]|e|h] p]; [| |done].
  - destruct Hs as [Hk Hc]. unfold desktop_view. simpl. by rewrite Hk, Hc.
  - destruct Hs as [Hk Hc]. exists (parts_config p). split; [exact Hc|].
    unfold desktop_view. simpl. by rewrite Hk.
Qed.
Next Obligation. apply load_view. Qed.
Next Obligation. apply save_view. Qed.
Next Obligation. apply delete_view. Qed.
Next Obligation. apply preflight_keeps. Qed.
Next Obligation. apply disconnect_view. Qed.
Next Obligation. intros i realtime c s epoch d. by apply connect_view. Qed.
Next Obligation. done. Qed.
Next Obligation.
  intros s epoch d. simpl. destruct (activate_keeps epoch s) as [Ha Hs].
  by rewrite (keeps_snd _ _ Hs), (keeps_snd _ _ Ha).
Qed.
Next Obligation.
  intros d. destruct (parts_analytics (dk_parts d)) as [Hk Hc]. unfold desktop_view. simpl.
  by rewrite Hk, Hc.
Qed.
Next Obligation.
  intros i d. simpl. destruct (env_local_ms _) as [now w].
  destruct (parts_partition i now (dk_parts d)) as [Hk Hc].
  destruct (notify_delete_partition i now (dk_parts d)) as [gone p]. unfold desktop_view. simpl in *.
  by rewrite Hk, Hc.
Qed.

(** *** The streams of a connection *)

Abbreviation steady := (leaves dk_ws).

Lemma steady_asks {A} (c : M (api_world X) AppError A) : asks c -> steady (asks_client c).
Proof. by apply leaves_asks. Qed.
Lemma steady_parts {A} (f : P -> A * P) : steady (calls_parts f).
Proof. intros d. unfold wp, calls_parts, asks_parts. by destruct (f _). Qed.
Lemma steady_lift {A} (o : outcome AppError A) : is_halt o = false -> steady (mlift o).
Proof. by destruct o. Qed.

Lemma steady_now : steady local_now.
Proof. apply steady_asks, asks_local. Qed.

Lemma steady_snapshot : steady emit_snapshot.
Proof. do 2 (apply leaves_bind; [apply steady_now|intros ?]). done. Qed.

Lemma steady_sync : steady sync_time.
Proof.
  unfold sync_time. apply leaves_bind; [apply steady_now|intros now].
  do 2 (apply leaves_bind; [done|intros ?]). apply leaves_bind; [apply steady_snapshot|intros _].
  apply leaves_bind; [apply steady_now|intros started].
  apply leaves_bind; [apply leaves_try, steady_asks, asks_server_time|intros result].
  apply leaves_bind; [apply steady_now|intros finished].
  do 2 (apply leaves_bind; [done|intros ?]). apply steady_snapshot.
Qed.

Lemma steady_observe epoch context source status now :
  steady (observe_connection_status_guarded epoch context source status now).
Proof.
  unfold observe_connection_status_guarded.
  destruct source, status; try done; (apply leaves_bind; [done|]); intros []; try done; apply steady_parts.
Qed.

Lemma steady_load i : steady (store_load i).
Proof.
  apply leaves_bind; [apply steady_parts|]. intros [[]|text]; [done..|].
  apply leaves_bind; [|done]. apply steady_lift. pose proof (credential_from_ended text).
  by destruct (credential_from_json text).
Qed.

Lemma steady_resolve account_id given : steady (resolve_credential account_id given).
Proof.
  destruct given as [c|]; unfold resolve_credential.
  - apply leaves_bind.
    + destruct (has_secret _); [done|]. apply leaves_bind; [apply steady_load|].
      intros stored. apply leaves_bind; [by destruct stored|done].
    + intros c'. apply leaves_bind; [apply steady_lift; by destruct (negb _)|done].
  - apply leaves_bind; [apply steady_load|]. intros stored. apply leaves_bind; [by destruct stored|done].
Qed.

(** What the connection leaves of the streams. *)
Definition streams_as (realtime : bool) (context : SessionContext) (symbol : string) (m : WsManager) : Prop :=
  if realtime
  then running m = true /\ ws_symbol m = symbol /\ order_snapshot_seeded m = false /\
       order_observation_buffer m = buffer_reset context
  else running m = false /\ public_task m = None /\ private_task m = None /\
       public_connected m = false /\ private_connected m = false.

Definition settles {A} (I : WsManager -> Prop) (c : action A) (d : desktop X P) : Prop :=
  match c d with (Ok _, d') => I (dk_ws d') | _ => True end.

Lemma settles_bind {A B} I (c : action A) (k : A -> action B) d :
  (forall a d', settles I (k a) d') -> settles I (mbind c k) d.
Proof. intros Hk. unfold settles, mbind. destruct (c d) as [[a|e|h] d']; [apply Hk|done..]. Qed.
Lemma settles_after {A B} I (c : action A) (k : A -> action B) d :
  settles I c d -> (forall a d', I (dk_ws d') -> settles I (k a) d') -> settles I (mbind c k) d.
Proof.
  unfold settles, mbind. intros Hc Hk. destruct (c d) as [[a|e|h] d']; [by apply Hk|done..].
Qed.
Lemma settles_steady {A} (I : WsManager -> Prop) (c : action A) d : steady c -> I (dk_ws d) -> settles I c d.
Proof. intros Hc HI. specialize (Hc d). unfold settles, wp in *. by destruct (c d) as [[] d']; [rewrite Hc|..]. Qed.

(** The end of an attempt that succeeds. *)
Lemma settles_end epoch context (I : WsManager -> Prop) d : I (dk_ws d) ->
  settles I (set_status context Connected ;;;
             let* now := local_now in
             let* _ := observe_connection_status_guarded epoch context FromApi Connected now in
             emits (emit [LogEntryEvent "info" "API 连接成功"])) d.
Proof.
  intros HI. apply settles_after; [exact HI|]. intros _ d1 I1.
  apply settles_after; [by apply settles_steady; [apply steady_now|]|]. intros now d2 I2.
  apply settles_after; [by apply settles_steady; [apply steady_observe|]|]. intros _ d3 I3. exact I3.
Qed.

Lemma starts_streams context symbol c d :
  settles (streams_as true context symbol) (start_streams context symbol c) d.
Proof.
  do 4 (apply settles_bind; intros ? ?). unfold settles, ws_start.
  by destruct (start_session _ _ _ _) eqn:E; injection E as <- _.
Qed.

Lemma connect_settles epoch context realtime symbol given d :
  settles (streams_as realtime context symbol) (connect_inner epoch context realtime symbol given) d.
Proof.
  unfold connect_inner. destruct realtime.
  - do 7 (apply settles_bind; intros ? ?).
    destruct (sync_status _);
      try (apply settles_after; [apply starts_streams|]; intros _ d1 I1; by apply settles_end).
    exact I.
  - apply settles_after; [by unfold settles; cbn|]. intros _ d1 I1.
    apply settles_after; [by apply settles_steady; [apply steady_resolve|]|]. intros c d2 I2.
    apply settles_after; [apply settles_steady; [apply steady_lift; by destruct (negb _)|done]|]. intros _ d3 I3.
    do 2 (apply settles_after; [by apply settles_steady; [apply steady_asks, asks_uuid|]|]; intros ? ? ?).
    apply settles_after; [by apply settles_steady; [apply steady_asks, asks_changing|]|]. intros _ d6 I6.
    apply settles_after; [by apply settles_steady; [apply steady_sync|]|]. intros snapshot d7 I7.
    destruct (sync_status _); try (apply settles_after; [exact I7|]; intros _ d8 I8; by apply settles_end).
    exact I.
Qed.

Lemma connection_settles epoch context realtime symbol given d :
  settles (streams_as realtime context symbol) (connect_for_session epoch context realtime symbol given) d.
Proof.
  apply settles_bind. intros _ d1. pose proof (connect_settles epoch context realtime symbol given d1) as Hs.
  unfold settles in Hs |- *. unfold mbind at 1. unfold mtry.
  destruct (connect_inner epoch context realtime symbol given d1) as [[[]|e|h] d2]; [exact Hs| |done].
  change (settles (streams_as realtime context symbol) (fail_connection epoch context e) d2).
  do 3 (apply settles_bind; intros ? ?). exact I.
Qed.
End Laws.

(** C18: The connection service and the key store keep what the account transactions
    rely on.  A connection that succeeds leaves the desktop connected, with the
    streams of its session running when they were asked for and stopped
    otherwise; one that fails leaves it in error; neither changes the
    configuration, running or stored, nor a credential.  Disconnecting stops the
    streams and takes the credential and the session from the client.  So a
    switch of the account on the desktop is all or nothing. *)
Theorem desktop_connection_refines_port
    `{UrlLaws} `{Sha256Lib} `{HmacLib} `{StatusText} `{JsonText} `{Codec json} `{DecimalLib}
    `{CredentialJsonLaws} {X : Type} `{ApiEnvironment X} {P : Type} `{DesktopPartsLaws P}
    epoch context realtime symbol given (d : desktop X P) account_id start_realtime :
  (let '(o, d') := connect_for_session epoch context realtime symbol given d in
   match o with
   | Ok _ => desktop_view d' = with_status Connected (desktop_view d) /\
             streams_as realtime context symbol (dk_ws d')
   | Err _ => desktop_view d' = with_status ConnectionError (desktop_view d)
   | Halt _ => False
   end) /\
  (let d' := (service_disconnect epoch d).2 in
   desktop_view d' = with_status Disconnected (desktop_view d) /\
   streams_as false context symbol (dk_ws d') /\
   cl_credential (w_client (dk_api d')) = None /\ cl_signer (w_client (dk_api d')) = None /\
   cl_session_context (w_client (dk_api d')) = None) /\
  (let '(o, w') := switch_account account_id start_realtime (Lifecycle epoch d) in
   switched account_id (Lifecycle epoch d) w' o).
Proof.
  split_and!; [| |done..|].
  - pose proof (connect_view epoch context realtime symbol given _ d eq_refl) as Hv.
    pose proof (connection_settles epoch context realtime symbol given d) as Hs.
    unfold views, wp, settles in *.
    by destruct (connect_for_session epoch context realtime symbol given d) as [[] d'].
  - done.
  - pose proof (switch_ends account_id start_realtime (Lifecycle epoch d)) as Hends. unfold ends, wp in Hends.
    by destruct (switch_account account_id start_realtime (Lifecycle epoch d)) as [[] w'].
Qed.
