(* ===== verification/StrategyTypes.v ===== *)
(** plugin/strategy/types.rs, contract.rs and management.rs: the records of an
    automatic strategy, what its author, its user and its stored run must
    satisfy, and the rules for amendments and protected orders. *)
From stdpp Require Import gmap strings.
From S2P Require Import Prelude RustStr External Models Workflow.

Definition strategy_error (code : string) : AppError :=
  Plugin code "自动策略未完成，请检查授权、账户与恢复状态" None.

Definition invalid_request : AppError := strategy_error "plugin_strategy_invalid_request".
Definition strategy_invalid_output : AppError := strategy_error "plugin_strategy_invalid_output".
Definition denied : AppError := strategy_error "plugin_strategy_denied".
Definition storage_unavailable : AppError := strategy_error "plugin_strategy_storage_unavailable".
Definition limit_reached : AppError := strategy_error "plugin_strategy_limit_reached".
Definition stale : AppError := strategy_error "plugin_strategy_stale".

(** [result.map_err(|_| error(code))]. *)
Definition or_code {E A} (e : AppError) (x : outcome E A) : outcome AppError A :=
  omap_err (fun _ => e) x.

(** ** types.rs *)

Record StrategyPolicy := {
  interval_ms : Z;
  sp_max_order_qty : string;
  max_total_qty : string;
  max_actions : Z;
  max_run_seconds : Z;
  sp_reduce_only : bool;
}.
#[export] Instance StrategyPolicy_eq_dec : EqDecision StrategyPolicy.
Proof. solve_decision. Defined.

Inductive ControlAction := Pause | Stop.
Inductive StrategyStatus :=
| Running | Paused | Stopping | Stopped | RecoveryRequired | Faulted | Completed.
Inductive ReceiptKind :=
| KPlaceOrder | KCancelOrder | KAmendOrder | KPlaceProtectedOrder.
Inductive ReceiptStatus := RAccepted | RRejected | RUnknown.

#[export] Instance ControlAction_eq_dec : EqDecision ControlAction.
Proof. solve_decision. Defined.
#[export] Instance StrategyStatus_eq_dec : EqDecision StrategyStatus.
Proof. solve_decision. Defined.
#[export] Instance ReceiptKind_eq_dec : EqDecision ReceiptKind.
Proof. solve_decision. Defined.
#[export] Instance ReceiptStatus_eq_dec : EqDecision ReceiptStatus.
Proof. solve_decision. Defined.

Record AmendProposal := {
  ap_symbol : string;
  ap_order_id : string;
  ap_price : string;
  ap_qty : string;
}.
#[export] Instance AmendProposal_eq_dec : EqDecision AmendProposal.
Proof. solve_decision. Defined.

Inductive StrategyAction :=
| ANone
| AStop
| APlaceOrder (order : PlaceProposal)
| ACancelOrder (order : CancelProposal)
| AAmendOrder (order : AmendProposal)
| APlaceProtectedOrder (order : PlaceProposal) (protection : OrderProtection).
#[export] Instance StrategyAction_eq_dec : EqDecision StrategyAction.
Proof. solve_decision. Defined.

Record StrategyReceipt := {
  rc_sequence : string;
  rc_kind : ReceiptKind;
  rc_status : ReceiptStatus;
  rc_submission_id : option string;
  rc_order_id : option string;
  rc_error_code : option string;
}.
#[export] Instance StrategyReceipt_eq_dec : EqDecision StrategyReceipt.
Proof. solve_decision. Defined.

Record StrategyStartRequest := {
  sr_authorization_token : string;
  sr_request_id : string;
  sr_resume_run_id : option string;
  sr_symbol : string;
  sr_input_json : string;
  sr_capabilities : list string;
  sr_policy : StrategyPolicy;
  sr_acknowledge_automatic_trading : bool;
}.

Record StrategyRunView := {
  v_schema_version : Z;
  v_run_id : string;
  v_request_id : string;
  v_plugin_id : string;
  v_contribution_id : string;
  v_account : Account;
  v_symbol : string;
  v_status : StrategyStatus;
  v_reason : option string;
  v_policy : StrategyPolicy;
  v_capabilities : list string;
  v_input_json : string;
  v_started_at_ms : string;
  v_expires_at_ms : string;
  v_sequence : string;
  v_actions_submitted : Z;
  v_total_submitted_qty : string;
  v_last_message : string;
  v_last_receipt : option StrategyReceipt;
}.
#[export] Instance StrategyRunView_eq_dec : EqDecision StrategyRunView.
Proof. solve_decision. Defined.

Record StrategyOutput := { so_state : json; so_action : StrategyAction; so_message : string }.

Definition REASONS : list string :=
  ["plugin_strategy_paused"; "plugin_strategy_stopped"; "plugin_strategy_restarted";
   "plugin_strategy_expired"; "plugin_strategy_limit_reached"; "plugin_strategy_stale";
   "plugin_strategy_data_unavailable"; "plugin_strategy_compute_failed";
   "plugin_strategy_invalid_output"; "plugin_strategy_recovery_required";
   "plugin_strategy_storage_unavailable"; "plugin_strategy_ack_failed";
   "plugin_strategy_unavailable"].

(** ** contract.rs *)

Definition strategy_capability (c : string) : bool :=
  one_of c CAPABILITIES || one_of c ["strategy.run"; "trade.amend"; "trade.protect"].

Definition validate_strategy_capabilities (values : list string) : outcome string unit :=
  if negb (all_new strategy_capability [] values) then Err "invalid strategy capability"
  else guard (negb (has values "account.read") || negb (has values "strategy.run"))
         "mandatory strategy capability missing".

Definition validate_management_dependencies (values : list string) : outcome string unit :=
  guard ((has values "trade.amend"
          && negb (has values "trade.place" && has values "orders.read" && has values "market.read"))
         || (has values "trade.protect"
             && negb (has values "trade.place" && has values "market.read")))
    "management capability dependency missing".

Section Params.
Context `{Codec json} `{Base64Lib}.

(** [PluginStrategyParams] has the fields of [PluginWorkflowParams]. *)
Record PluginStrategyParams := {
  psp_runtime : string;
  psp_abi : string;
  psp_module_base64 : string;
  psp_default_input : string;
}.

Definition strategy_module_bytes (p : PluginStrategyParams) : outcome string string :=
  module_bytes {| wp_runtime := psp_runtime p; wp_abi := "account-json-v1";
                  wp_module_base64 := psp_module_base64 p;
                  wp_default_input := psp_default_input p |}.

Definition PluginStrategyParams_validate (p : PluginStrategyParams) : outcome string unit :=
  let? _ := guard ((psp_runtime p !=s "wasm-v1") || (psp_abi p !=s "strategy-json-v1"))
              "unsupported strategy ABI" in
  let? _ := validate_input (psp_default_input p) in
  let? _ := strategy_module_bytes p in
  Ok tt.
End Params.

(** ** Validation *)

Section Validation.
Context `{DecimalLib} `{Codec json} `{UuidLib}.

Definition quantity (value : string) : outcome AppError Dec :=
  let? _ := or_code invalid_request (decimal value true) in
  ok_or invalid_request (dec_from_str_exact value).

(** [quantity(a)? > quantity(b)?]. *)
Definition quantity_exceeds (a b : string) : outcome AppError bool :=
  let? x := quantity a in
  let? y := quantity b in
  Ok (dec_ltb y x).

Definition validate_state (state : json) : outcome AppError unit :=
  let? _ := guard (negb (bool_decide (is_Some (as_object state)))) strategy_invalid_output in
  let? text := ok_or strategy_invalid_output (encode state) in
  guard (4096 <? len text) strategy_invalid_output.

Definition within (lo hi n : Z) : bool := (lo <=? n) && (n <=? hi).

Definition StrategyPolicy_validate (p : StrategyPolicy) : outcome AppError unit :=
  let? _ := guard (negb (within 5000 60000 (interval_ms p))
                   || negb (within 60 86400 (max_run_seconds p))
                   || negb (within 1 1000 (max_actions p))) invalid_request in
  let? exceeds := quantity_exceeds (sp_max_order_qty p) (max_total_qty p) in
  guard exceeds invalid_request.

Definition StrategyOutput_validate (o : StrategyOutput) : outcome AppError unit :=
  let? _ := validate_state (so_state o) in
  guard (2000 <? len (so_message o)) strategy_invalid_output.

Definition StrategyStartRequest_validate (r : StrategyStartRequest) : outcome AppError unit :=
  let? _ := guard (negb (forallb uuid_ok ([sr_authorization_token r; sr_request_id r]
                                          ++ option_list (sr_resume_run_id r))%list))
              invalid_request in
  let? _ := guard (negb (sr_acknowledge_automatic_trading r)) denied in
  let? _ := or_code invalid_request (symbol (sr_symbol r)) in
  let? _ := or_code invalid_request (validate_input (sr_input_json r)) in
  let? _ := or_code denied (validate_strategy_capabilities (sr_capabilities r)) in
  let? _ := guard (has (sr_capabilities r) "trade.cancel"
                   && negb (has (sr_capabilities r) "orders.read")) denied in
  let? _ := or_code denied (validate_management_dependencies (sr_capabilities r)) in
  StrategyPolicy_validate (sr_policy r).

Definition receipt_error_code (status : ReceiptStatus) : option string :=
  match status with
  | RAccepted => None
  | RRejected => Some "plugin_strategy_rejected"
  | RUnknown => Some "plugin_strategy_unknown"
  end.

Definition is_placement (kind : ReceiptKind) : bool :=
  match kind with KPlaceOrder | KPlaceProtectedOrder => true | _ => false end.

Definition is_none {A} (x : option A) : bool := match x with None => true | Some _ => false end.
Definition is_some {A} (x : option A) : bool := negb (is_none x).
(** [x.is_some_and(f)]. *)
Definition is_some_and {A} (f : A -> bool) (x : option A) : bool :=
  match x with Some a => f a | None => false end.

Definition validate_receipt (sequence : string) (receipt : StrategyReceipt)
    : outcome AppError unit :=
  let? at_ := counter (rc_sequence receipt) in
  let? current := counter sequence in
  guard ((current <? at_)
         || bool_decide (rc_error_code receipt <> receipt_error_code (rc_status receipt))
         || is_some_and (fun id => negb (bounded_id id)) (rc_order_id receipt)
         || is_some_and (fun id => negb (uuid_ok id)) (rc_submission_id receipt)
         || negb (Bool.eqb (is_placement (rc_kind receipt)) (is_some (rc_submission_id receipt)))
         || (bool_decide (rc_kind receipt = KAmendOrder) && is_none (rc_order_id receipt))
         || (bool_decide (rc_status receipt = RAccepted) && is_none (rc_order_id receipt)))
    storage_unavailable.

Definition StrategyRunView_validate (v : StrategyRunView) : outcome AppError unit :=
  let? _ := StrategyPolicy_validate (v_policy v) in
  let? _ := or_code storage_unavailable (validate_strategy_capabilities (v_capabilities v)) in
  let? _ := or_code storage_unavailable (validate_management_dependencies (v_capabilities v)) in
  let? _ := symbol (v_symbol v) in
  let? _ := or_code storage_unavailable (validate_input (v_input_json v)) in
  let? _ := guard (negb (plugin_id_ok (v_plugin_id v) && plugin_id_ok (v_contribution_id v)))
              storage_unavailable in
  let? _ := guard (negb (uuid_ok (v_run_id v) && uuid_ok (v_request_id v))) storage_unavailable in
  let? start := counter (v_started_at_ms v) in
  let? expiry := counter (v_expires_at_ms v) in
  let? sequence := counter (v_sequence v) in
  let? _ := counter (session_epoch (v_account v)) in
  let? text := decimal (v_total_submitted_qty v) false in
  let? total := ok_or storage_unavailable (dec_from_str_exact text) in
  let? _ := guard (negb (v_schema_version v =? 1)
                   || negb (bounded_id (account_id (v_account v)))
                   || is_empty (environment (v_account v))
                   || (256 <? len (environment (v_account v)))
                   || any_control (environment (v_account v))) storage_unavailable in
  let? bound := ok_or storage_unavailable
                  (u64_checked_add start (max_run_seconds (v_policy v) * 1000)) in
  let? _ := guard (negb (expiry =? bound)
                   || (max_actions (v_policy v) <? v_actions_submitted v)
                   || (sequence <? v_actions_submitted v)
                   || dec_ltb total dec_zero) storage_unavailable in
  let? max_total := quantity (max_total_qty (v_policy v)) in
  let? _ := guard (dec_ltb max_total total
                   || (2000 <? len (v_last_message v))
                   || is_some_and (fun c => negb (one_of c REASONS)) (v_reason v))
              storage_unavailable in
  match v_last_receipt v with
  | None => Ok tt
  | Some receipt => validate_receipt (v_sequence v) receipt
  end.
End Validation.

(** ** management.rs *)

Section Management.
Context `{DecimalLib} `{UuidLib}.

Definition AmendProposal_validate (sym : string) (p : AmendProposal)
    : outcome AppError AmendProposal :=
  let? _ := guard ((ap_symbol p !=s sym) || negb (bounded_id (ap_order_id p)))
              strategy_invalid_output in
  let? price := decimal (ap_price p) true in
  let? qty := decimal (ap_qty p) true in
  Ok {| ap_symbol := ap_symbol p; ap_order_id := ap_order_id p;
        ap_price := price; ap_qty := qty |}.

Definition validate_structure (p : OrderProtection) : outcome AppError unit :=
  or_code strategy_invalid_output (validate_shape p).

(** [decimal(value, true)?] read back. *)
Definition canonical_decimal (value : string) : outcome AppError (string * Dec) :=
  let? text := decimal value true in
  let? n := ok_or strategy_invalid_output (dec_from_str_exact text) in
  Ok (text, n).

(** Whether a leg has to be above the entry: a profit of a long position and a
    loss of a short one. *)
Definition leg_above (side : string) (take : bool) : bool := Bool.eqb (side ==s "Buy") take.

Definition leg_ok (above : bool) (n reference : Dec) (entry : option Dec) : bool :=
  if above
  then dec_ltb reference n && match entry with Some e => dec_ltb e n | None => true end
  else dec_ltb n reference && match entry with Some e => dec_ltb n e | None => true end.

Definition validate_leg (side : string) (reference : Dec) (entry : option Dec) (take : bool)
    (value : option string) : outcome AppError (option string) :=
  match value with
  | None => Ok None
  | Some raw =>
      let? (text, n) := canonical_decimal raw in
      if leg_ok (leg_above side take) n reference entry then Ok (Some text)
      else Err strategy_invalid_output
  end.

Definition OrderProtection_validate (side : string) (entry : option string) (reference : string)
    (p : OrderProtection) : outcome AppError OrderProtection :=
  let? _ := validate_structure p in
  let? (_, reference) := canonical_decimal reference in
  let? entry :=
    match entry with
    | None => Ok None
    | Some v => let? (_, e) := canonical_decimal v in Ok (Some e)
    end in
  let? take := validate_leg side reference entry true (take_profit p) in
  let? stop := validate_leg side reference entry false (stop_loss p) in
  Ok {| take_profit := take; stop_loss := stop; trigger_by := trigger_by p |}.

Definition amend_leg (side : string) (entry : Dec) (take : bool) (leg : option string)
    : outcome AppError unit :=
  match leg with
  | None => Ok tt
  | Some leg =>
      let? bound := ok_or strategy_invalid_output (dec_from_str_exact leg) in
      guard (negb (if leg_above side take then dec_ltb entry bound else dec_ltb bound entry))
        strategy_invalid_output
  end.

Definition validate_amend_entry (original : PlaceOrderRequest) (price : string)
    : outcome AppError unit :=
  match r_protection original with
  | None => Ok tt
  | Some protection =>
      let? _ := or_code strategy_invalid_output (validate_shape protection) in
      let? entry := ok_or strategy_invalid_output (dec_from_str_exact price) in
      let? _ := amend_leg (r_side original) entry true (take_profit protection) in
      amend_leg (r_side original) entry false (stop_loss protection)
  end.

Definition tif_short (tif : option string) : outcome AppError string :=
  match tif with
  | Some "GoodTillCancel" => Ok "GTC"
  | Some "ImmediateOrCancel" => Ok "IOC"
  | Some "FillOrKill" => Ok "FOK"
  | _ => Err storage_unavailable
  end.

Definition validate_canonical_placement (id : string) (request : PlaceOrderRequest)
    : outcome AppError unit :=
  let? _ := guard (negb (uuid_ok id) || bool_decide (r_order_link_id request <> Some id))
              storage_unavailable in
  let? tif := tif_short (r_time_in_force request) in
  let? reduce_only := ok_or storage_unavailable (r_reduce_only request) in
  let proposal :=
    {| pp_symbol := r_symbol request; pp_side := r_side request;
       pp_order_type := r_order_type request; pp_qty := r_qty request;
       pp_price := r_price request; pp_time_in_force := tif;
       pp_position_idx := r_position_idx request; pp_reduce_only := reduce_only |} in
  let? order := validate_place proposal (r_symbol request) ["trade.place"] in
  let? _ := guard ((pp_qty order !=s r_qty request)
                   || bool_decide (pp_price order <> r_price request)) storage_unavailable in
  match r_protection request with
  | None => Ok tt
  | Some protection =>
      let? _ := guard (bool_decide (r_reduce_only request <> Some false)) storage_unavailable in
      let? normalized :=
        if r_order_type request ==s "Limit" then
          let? entry := ok_or storage_unavailable (r_price request) in
          OrderProtection_validate (r_side request) (Some entry) entry protection
        else let? _ := validate_structure protection in Ok protection in
      guard (bool_decide (normalized <> protection)) storage_unavailable
  end.
End Management.
