(* ===== verification/StrategyStore.v ===== *)
(** plugin/strategy/store.rs: the durable document of the strategy engine, its
    validation, and the store that reads and replaces it. *)
From stdpp Require Import gmap strings.
From Stdlib Require Import SpecFloat.
From S2P Require Import Prelude RustStr External Models Workflow StrategyTypes.

(** ** [PartialEq] on [serde_json::Value]: floats compare as numbers *)

Fixpoint json_eqb (a b : json) {struct a} : bool :=
  match a, b with
  | JNull, JNull => true
  | JBool x, JBool y => Bool.eqb x y
  | JPosInt x, JPosInt y => x =? y
  | JNegInt x, JNegInt y => x =? y
  | JFloat x, JFloat y => SFeqb x y
  | JString x, JString y => x ==s y
  | JArray xs, JArray ys =>
      (fix go (xs ys : list json) : bool :=
         match xs, ys with
         | [], [] => true
         | x :: xs, y :: ys => json_eqb x y && go xs ys
         | _, _ => false
         end) xs ys
  | JObject xs, JObject ys =>
      (fix go (xs ys : list (string * json)) : bool :=
         match xs, ys with
         | [], [] => true
         | (k, x) :: xs, (l, y) :: ys => (k ==s l) && json_eqb x y && go xs ys
         | _, _ => false
         end) xs ys
  | _, _ => false
  end.

(** ** The records *)

Record OwnedOrder := {
  oo_submission_id : string;
  cancel_requested : bool;
  placement_of : option PlaceOrderRequest;
}.
#[export] Instance OwnedOrder_eq_dec : EqDecision OwnedOrder.
Proof. solve_decision. Defined.

Record PendingAction := {
  pa_sequence : string;
  pa_action : StrategyAction;
  pa_submission_id : option string;
  pa_state : json;
  pa_message : string;
}.

Definition pending_eqb (p q : PendingAction) : bool :=
  (pa_sequence p ==s pa_sequence q) && bool_decide (pa_action p = pa_action q)
  && bool_decide (pa_submission_id p = pa_submission_id q)
  && json_eqb (pa_state p) (pa_state q) && (pa_message p ==s pa_message q).

Record RunRecord := {
  view : StrategyRunView;
  fingerprint : string;
  scope : string;
  state : json;
  owned : gmap string OwnedOrder;
  pending_action : option PendingAction;
  last_observed_at_ms : string;
}.

Definition option_eqb {A} (eqb : A -> A -> bool) (x y : option A) : bool :=
  match x, y with
  | Some a, Some b => eqb a b
  | None, None => true
  | _, _ => false
  end.

Definition run_eqb (r s : RunRecord) : bool :=
  bool_decide (view r = view s) && (fingerprint r ==s fingerprint s) && (scope r ==s scope s)
  && json_eqb (state r) (state s) && bool_decide (owned r = owned s)
  && option_eqb pending_eqb (pending_action r) (pending_action s)
  && (last_observed_at_ms r ==s last_observed_at_ms s).

Record StrategyDocument := {
  d_schema_version : Z;
  d_revision : string;
  d_runs : list RunRecord;
}.

Fixpoint runs_eqb (rs ss : list RunRecord) : bool :=
  match rs, ss with
  | [], [] => true
  | r :: rs, s :: ss => run_eqb r s && runs_eqb rs ss
  | _, _ => false
  end.

Definition document_eqb (a b : StrategyDocument) : bool :=
  (d_schema_version a =? d_schema_version b) && (d_revision a ==s d_revision b)
  && runs_eqb (d_runs a) (d_runs b).

Definition default_document : StrategyDocument :=
  {| d_schema_version := 1; d_revision := "0"; d_runs := [] |}.

(** ** Validation *)

Definition MAX_STORE_BYTES : Z := 16 * 1024 * 1024.

Section Validate.
Context `{DecimalLib} `{Codec json} `{UuidLib}.

Definition hex_of (s : string) : bool := forallb is_ascii_hexdigit (bytes_of s).

Definition identity_ok (r : RunRecord) : bool :=
  (len (scope r) =? 64) && hex_of (scope r)
  && (len (fingerprint r) =? 74)
  && is_some_and hex_of (strip_prefix "v1:sha256:" (fingerprint r))
  && (Z.of_nat (size (owned r)) <=? v_actions_submitted (view r)).

Definition placement_ok (r : RunRecord) (o : OwnedOrder) (p : PlaceOrderRequest) : bool :=
  bool_decide (r_order_link_id p = Some (oo_submission_id o))
  && (r_symbol p ==s v_symbol (view r))
  && has (v_capabilities (view r)) "trade.place"
  && negb (is_some (r_protection p) && negb (has (v_capabilities (view r)) "trade.protect"))
  && negb (sp_reduce_only (v_policy (view r)) && bool_decide (r_reduce_only p <> Some true))
  && is_ok (validate_canonical_placement (oo_submission_id o) p).

Definition owned_ok (r : RunRecord) (entry : string * OwnedOrder) : bool :=
  bounded_id entry.1 && uuid_ok (oo_submission_id entry.2)
  && match placement_of entry.2 with
     | Some p => placement_ok r entry.2 p
     | None => true
     end.

(** The submissions of the owned orders are told apart. *)
Definition all_owned_ok (r : RunRecord) : bool :=
  forallb (owned_ok r) (map_to_list (owned r))
  && bool_decide (NoDup (map (fun entry => oo_submission_id entry.2) (map_to_list (owned r)))).

(** The total read back for a comparison. *)
Definition stored_total (v : StrategyRunView) : outcome AppError Dec :=
  ok_or storage_unavailable (dec_from_str_exact (v_total_submitted_qty v)).

(** [quantity(q)? > total?]. *)
Definition exceeds_total (q : string) (v : StrategyRunView) : outcome AppError bool :=
  let? qty := quantity q in
  let? total := stored_total v in
  Ok (dec_ltb total qty).

Definition validate_pending_place (v : StrategyRunView) (p : PendingAction)
    (order : PlaceProposal) (protection : option OrderProtection) : outcome AppError unit :=
  let? _ := validate_place order (v_symbol v) (v_capabilities v) in
  let? _ := guard (negb (is_some_and uuid_ok (pa_submission_id p))) storage_unavailable in
  let? over := quantity_exceeds (pp_qty order) (sp_max_order_qty (v_policy v)) in
  let? _ := guard over storage_unavailable in
  let? over := exceeds_total (pp_qty order) v in
  guard (over || (sp_reduce_only (v_policy v) && negb (pp_reduce_only order))
         || is_some_and (fun protection =>
              negb (has (v_capabilities v) "trade.protect") || pp_reduce_only order
              || negb (is_ok (validate_structure protection))) protection)
    storage_unavailable.

Definition validate_pending_cancel (r : RunRecord) (p : PendingAction) (order : CancelProposal)
    : outcome AppError unit :=
  guard ((cp_symbol order !=s v_symbol (view r)) || is_some (pa_submission_id p)
         || is_none (owned r !! cp_order_id order)) storage_unavailable.

Definition amend_original (r : RunRecord) (order_id : string) : option PlaceOrderRequest :=
  match owned r !! order_id with
  | Some o => if cancel_requested o then None else placement_of o
  | None => None
  end.

Definition validate_pending_amend (r : RunRecord) (p : PendingAction) (order : AmendProposal)
    : outcome AppError unit :=
  let v := view r in
  let? _ := guard (is_some (pa_submission_id p)
                   || negb (has (v_capabilities v) "trade.amend")
                   || match amend_original r (ap_order_id order) with
                      | None => true
                      | Some o => (r_symbol o !=s ap_symbol order)
                                  || (r_order_type o !=s "Limit")
                                  || negb (is_ok (validate_amend_entry o (ap_price order)))
                      end
                   || (ap_symbol order !=s v_symbol v)) storage_unavailable in
  let? over := quantity_exceeds (ap_qty order) (sp_max_order_qty (v_policy v)) in
  let? _ := guard over storage_unavailable in
  let? over := exceeds_total (ap_qty order) v in
  guard (over || negb (is_ok (AmendProposal_validate (v_symbol v) order))) storage_unavailable.

Definition validate_pending (r : RunRecord) (p : PendingAction) : outcome AppError unit :=
  let? _ := validate_state (pa_state p) in
  let? _ := guard ((pa_sequence p !=s v_sequence (view r)) || (2000 <? len (pa_message p))
                   || (v_actions_submitted (view r) =? 0)) storage_unavailable in
  match pa_action p with
  | APlaceOrder order => validate_pending_place (view r) p order None
  | APlaceProtectedOrder order protection =>
      validate_pending_place (view r) p order (Some protection)
  | ACancelOrder order => validate_pending_cancel r p order
  | AAmendOrder order => validate_pending_amend r p order
  | ANone | AStop => Err storage_unavailable
  end.

(** The receipt kind and order an action is settled under. *)
Definition settled_as (action : StrategyAction) : option (ReceiptKind * option string) :=
  match action with
  | APlaceOrder _ => Some (KPlaceOrder, None)
  | APlaceProtectedOrder _ _ => Some (KPlaceProtectedOrder, None)
  | ACancelOrder order => Some (KCancelOrder, Some (cp_order_id order))
  | AAmendOrder order => Some (KAmendOrder, Some (ap_order_id order))
  | ANone | AStop => None
  end.

(** An unknown receipt needs the unresolved intent it belongs to. *)
Definition validate_unknown (pending : option PendingAction) (receipt : StrategyReceipt)
    : outcome AppError unit :=
  let? pending := ok_or storage_unavailable pending in
  let? (kind, order_id) := ok_or storage_unavailable (settled_as (pa_action pending)) in
  guard ((rc_sequence receipt !=s pa_sequence pending)
         || bool_decide (rc_kind receipt <> kind)
         || bool_decide (rc_submission_id receipt <> pa_submission_id pending)
         || bool_decide (rc_order_id receipt <> order_id)) storage_unavailable.

(** What is checked of a run before its identifiers. *)
Definition validate_head (r : RunRecord) : outcome AppError unit :=
  let? _ := StrategyRunView_validate (view r) in
  let? observed := counter (last_observed_at_ms r) in
  let? started := counter (v_started_at_ms (view r)) in
  let? _ := guard (observed <? started) storage_unavailable in
  validate_state (state r).

(** What is checked after them. *)
Definition validate_tail (r : RunRecord) : outcome AppError unit :=
  let? _ := guard (negb (all_owned_ok r)) storage_unavailable in
  let? _ := match pending_action r with Some p => validate_pending r p | None => Ok tt end in
  match v_last_receipt (view r) with
  | Some receipt =>
      if bool_decide (rc_status receipt = RUnknown)
      then validate_unknown (pending_action r) receipt else Ok tt
  | None => Ok tt
  end.

(** The loop over the runs, with the identifiers already seen. *)
Fixpoint validate_runs (ids requests : list string) (runs : list RunRecord)
    : outcome AppError unit :=
  match runs with
  | [] => Ok tt
  | r :: rest =>
      let? _ := validate_head r in
      let? _ := guard (has ids (v_run_id (view r)) || has requests (v_request_id (view r))
                       || negb (identity_ok r)) storage_unavailable in
      let? _ := validate_tail r in
      validate_runs (v_run_id (view r) :: ids) (v_request_id (view r) :: requests) rest
  end.

Definition StrategyDocument_validate (d : StrategyDocument) : outcome AppError unit :=
  let? _ := guard (negb (d_schema_version d =? 1) || (32 <? Z.of_nat (length (d_runs d))))
              storage_unavailable in
  let? _ := counter (d_revision d) in
  validate_runs [] [] (d_runs d).
End Validate.

(** ** The store *)

(** What the document's candidates hold: [SafePluginDocument::load_all_candidates]. *)
Inductive CandidateBytes := Missing | Oversized | Bounded (bytes : string).

(** The [StrategyStore] trait, over a world of durable state. *)
Class StrategyStore (X : Type) := {
  store_load : M X AppError StrategyDocument;
  store_save : StrategyDocument -> M X AppError unit;
}.

(** The safe document of storage/safe_plugin_document.rs as an interface: the
    candidates it finds, and the replacement of the current bytes, which
    answers whether the outcome satisfies the destructive barrier. *)
Class SafeDocument (X : Type) := {
  load_all_candidates : M X unit (list CandidateBytes);
  persist : option string -> string -> M X unit bool;
}.

Section FileStore.
Context `{DecimalLib} `{Codec json} `{UuidLib} `{Codec StrategyDocument}.

(** The versions read so far, by revision; [None] when two candidates of one
    revision disagree. *)
Definition add_version (versions : gmap Z StrategyDocument) (doc : StrategyDocument)
    : outcome AppError (gmap Z StrategyDocument) :=
  let? revision := counter (d_revision doc) in
  if is_some_and (fun old => negb (document_eqb old doc)) (versions !! revision)
  then Err storage_unavailable
  else Ok (<[revision := doc]> versions).

Definition read_candidate (bytes : string) : outcome AppError StrategyDocument :=
  let? doc := ok_or storage_unavailable (decode bytes) in
  let? _ := or_code storage_unavailable (StrategyDocument_validate doc) in
  Ok doc.

Fixpoint read_versions (candidates : list CandidateBytes) (versions : gmap Z StrategyDocument)
    : outcome AppError (gmap Z StrategyDocument) :=
  match candidates with
  | [] => Ok versions
  | Missing :: rest => read_versions rest versions
  | Oversized :: _ => Err storage_unavailable
  | Bounded bytes :: rest =>
      let? doc := read_candidate bytes in
      let? versions := add_version versions doc in
      read_versions rest versions
  end.

(** [versions.pop_last()]: the document of the greatest revision. *)
Definition newest (versions : gmap Z StrategyDocument) : StrategyDocument :=
  match foldr (fun k acc => Some (default k (Z.max k <$> acc))) None
              (map fst (map_to_list versions)) with
  | Some k => default default_document (versions !! k)
  | None => default_document
  end.

Definition read_document (candidates : list CandidateBytes) : outcome AppError StrategyDocument :=
  let? versions := read_versions candidates ∅ in
  Ok (newest versions).

Context {X : Type} `{SafeDocument X}.

Definition unavailable_io {A} (c : M X unit A) : M X AppError A :=
  mmap_err (fun _ => storage_unavailable) c.

Definition file_load : M X AppError StrategyDocument :=
  let* candidates := unavailable_io load_all_candidates in
  mlift (read_document candidates).

Definition file_save (doc : StrategyDocument) : M X AppError unit :=
  let* _ := mlift (or_code storage_unavailable (StrategyDocument_validate doc)) in
  let* old := file_load in
  let* revision := mlift (counter (d_revision doc)) in
  let* before := mlift (counter (d_revision old)) in
  let* next := mlift (ok_or storage_unavailable (u64_checked_add before 1)) in
  let* _ := mlift (guard (negb (revision =? next)) storage_unavailable) in
  let* bytes := mlift (ok_or storage_unavailable (encode doc)) in
  let* previous := mlift (ok_or storage_unavailable (encode old)) in
  let* barrier := unavailable_io (persist (Some previous) bytes) in
  mlift (guard (negb barrier) storage_unavailable).

#[export] Instance FileStrategyStore : StrategyStore X := {
  store_load := file_load;
  store_save := file_save;
}.
End FileStore.
