(* ===== verification/SafeDocument.v ===== *)
(** storage/safe_plugin_document.rs with the Unix half of its platform module:
    a document kept under five reserved names, replaced by a protocol of
    synced work files and renames.

    A handle is the path its object is at: the sources require a single writer,
    so the identity of an object is its path. *)
From stdpp Require Import gmap strings.
From S2P Require Import Prelude RustStr FileSystem External StrategyStore.

(** ** platform.rs *)

(** [io::Error::other("unsafe plugin document object")]. *)
Definition rejected {A : Type} : IO A := mfail OtherIo.

(** [openat] of an existing object, and of a directory. *)
Definition fs_openat (p : path) : IO unit :=
  prim unchanged (fun m => (let? _ := lookup_op p m in Ok tt, m)).
Definition fs_open_dir (p : path) : IO unit :=
  prim unchanged (fun m =>
    (let? k := lookup_op p m in match k with KDir => Ok tt | KFile => Err OtherIo end, m)).

(** [mkdirat]. *)
Definition fs_mkdirat (p : path) : IO unit :=
  prim_with (before_create p) unchanged (fun m =>
    if blocked m p then (Err OtherIo, m)
    else match m !! p with
         | Some _ => (Err AlreadyExists, m)
         | None => if is_dir_at m (parent p) then (Ok tt, <[p := Dir]> m) else (Err NotFound, m)
         end).

(** No entry of the directory differs from the name by case only. *)
Definition exact_case (dir : path) (name : string) : IO unit :=
  let* names := fs_read_dir dir in
  if existsb (fun actual => eq_ignore_ascii_case actual name && (actual !=s name)) names
  then rejected else mret tt.

(** [identity]: the object is a regular file. *)
Definition identity (h : path) : IO path :=
  let* kind := fs_metadata h in
  match kind with KFile => mret h | KDir => rejected end.

Fixpoint open_components (create : bool) (p : path) : IO unit :=
  match p with
  | [] => mret tt
  | name :: dir =>
      open_components create dir ;;;
      exact_case dir name ;;;
      (if create then
         let* made := mtry (fs_mkdirat p) in
         match made with
         | inr _ => fs_sync_dir dir
         | inl AlreadyExists => mret tt
         | inl e => mfail e
         end
       else mret tt) ;;;
      fs_open_dir p
  end.

(** [Directory::open]; a path is absolute by construction. *)
Definition directory_open (root : path) (create : bool) : IO unit :=
  if existsb (fun c => (c ==s ".") || (c ==s "..")) root then rejected
  else open_components create root.

Definition open_file (dir : path) (name : string) (create : bool) : IO path :=
  exact_case dir name ;;;
  (if create then fs_create_new (name :: dir) else fs_openat (name :: dir)) ;;;
  identity (name :: dir).

Definition verify (dir : path) (name : string) (h : path) : IO unit :=
  let* found := open_file dir name false in
  let* found := identity found in
  let* held := identity h in
  if bool_decide (found <> held) then rejected else mret tt.

Definition remove (dir : path) (name : string) (h : path) : IO unit :=
  verify dir name h ;;; fs_remove_file (name :: dir).

Definition replace (dir : path) (source : string) (h : path) (target : string)
    (previous : option path) : IO unit :=
  verify dir source h ;;;
  exact_case dir target ;;;
  match previous with
  | Some previous => verify dir target previous
  | None =>
      let* found := mtry (open_file dir target false) in
      match found with inl NotFound => mret tt | _ => rejected end
  end ;;;
  fs_rename (source :: dir) (target :: dir).

(** ** safe_plugin_document.rs *)

Inductive PersistOutcome := NotCommitted | CommittedProcessCrashSafe | CommittedDurable.
#[export] Instance PersistOutcome_eq_dec : EqDecision PersistOutcome.
Proof. solve_decision. Defined.

Definition persist_outcome_committed (outcome : PersistOutcome) : bool :=
  bool_decide (outcome <> NotCommitted).

(** Off Windows only a durable replacement lets the caller go on. *)
Definition outcome_satisfies_destructive_barrier (outcome : PersistOutcome) : bool :=
  bool_decide (outcome = CommittedDurable).

Record SafeDocumentNames := {
  n_main : string;
  n_tmp : string;
  n_bak : string;
  n_pending : string;
  n_bak_pending : string;
}.

Definition strategy_names : SafeDocumentNames :=
  {| n_main := "strategy.json"; n_tmp := "strategy.json.tmp"; n_bak := "strategy.json.bak";
     n_pending := "strategy.json.pending"; n_bak_pending := "strategy.json.bak.pending" |}.
Definition plugin_state_names : SafeDocumentNames :=
  {| n_main := "state.json"; n_tmp := "state.json.tmp"; n_bak := "state.json.bak";
     n_pending := "state.json.pending"; n_bak_pending := "state.json.bak.pending" |}.
Definition managed_ownership_names : SafeDocumentNames :=
  {| n_main := "managed-ownership.json"; n_tmp := "managed-ownership.json.tmp";
     n_bak := "managed-ownership.json.bak"; n_pending := "managed-ownership.json.pending";
     n_bak_pending := "managed-ownership.json.bak.pending" |}.

Definition all_names (n : SafeDocumentNames) : list string :=
  [n_main n; n_tmp n; n_bak n; n_pending n; n_bak_pending n].

Section Document.
Context (root : path) (names : SafeDocumentNames) (max_bytes : Z).

Definition open_existing (name : string) : IO (option path) :=
  exact_case root name ;;;
  let* opened := mtry (open_file root name false) in
  match opened with
  | inr h => let* _ := identity h in mret (Some h)
  | inl NotFound => mret None
  | inl e => mfail e
  end.

(** The bytes are read up to one beyond the limit. *)
Definition load_name (name : string) : IO CandidateBytes :=
  let* found := open_existing name in
  match found with
  | None => mret Missing
  | Some h =>
      let* bytes := fs_read h in
      mret (if max_bytes <? len bytes then Oversized else Bounded bytes)
  end.

Definition load_names (ns : list string) : IO (list CandidateBytes) :=
  let* opened := mtry (directory_open root false) in
  match opened with
  | inr _ => mmap load_name ns
  | inl NotFound => mret (map (fun _ => Missing) ns)
  | inl e => mfail e
  end.

Definition load_candidates : IO (list CandidateBytes) :=
  load_names [n_main names; n_tmp names; n_bak names].
Definition load_all : IO (list CandidateBytes) := load_names (all_names names).

Definition bounded (h : path) : IO unit :=
  let* n := fs_len h in
  if max_bytes <? n then mfail OtherIo else mret tt.

Definition bounded_opt (h : option path) : IO unit :=
  match h with Some h => bounded h | None => mret tt end.

Definition hold (name : string) : IO (option path) :=
  let* found := open_existing name in
  bounded_opt found ;;; mret found.

Definition clean (name : string) (held : option path) : IO unit :=
  match held with
  | Some h => bounded h ;;; remove root name h
  | None => mret tt
  end.

(** A work file: created, written and synced. *)
Definition write_work (name bytes : string) : IO path :=
  let* h := open_file root name true in
  let* _ := identity h in
  fs_write_all h bytes ;;;
  fs_sync_all h ;;;
  mret h.

Definition keep_backup (previous : option string) (held_bak : option path) : IO unit :=
  match previous with
  | None => mret tt
  | Some previous =>
      let* backup := write_work (n_bak_pending names) previous in
      bounded backup ;;;
      bounded_opt held_bak ;;;
      replace root (n_bak_pending names) backup (n_bak names) held_bak ;;;
      let backup := n_bak names :: root in
      verify root (n_bak names) backup ;;;
      bounded backup
  end.

(** Everything up to the replacement of the main file. *)
Definition prepare (previous : option string) (next : string) : IO unit :=
  mlift (guard ((max_bytes <? len next)
                || match previous with Some p => max_bytes <? len p | None => false end) OtherIo) ;;;
  directory_open root true ;;;
  let* held_main := hold (n_main names) in
  let* held_tmp := hold (n_tmp names) in
  let* held_bak := hold (n_bak names) in
  let* held_pending := hold (n_pending names) in
  let* held_bak_pending := hold (n_bak_pending names) in
  clean (n_pending names) held_pending ;;;
  clean (n_bak_pending names) held_bak_pending ;;;
  fs_sync_dir root ;;;
  let* pending := write_work (n_pending names) next in
  keep_backup previous held_bak ;;;
  clean (n_tmp names) held_tmp ;;;
  fs_sync_dir root ;;;
  bounded pending ;;;
  bounded_opt held_main ;;;
  replace root (n_pending names) pending (n_main names) held_main.

(** What follows the replacement; the handle now names the main file. *)
Definition confirm : IO unit :=
  let main := n_main names :: root in
  verify root (n_main names) main ;;;
  bounded main ;;;
  fs_sync_dir root.

(** [persist]: an error carries the outcome reached. *)
Definition persist_document (previous : option string) (next : string)
    : M fs_world PersistOutcome PersistOutcome :=
  mmap_err (fun _ => NotCommitted) (prepare previous next) ;;;
  mmap_err (fun _ => CommittedProcessCrashSafe) confirm ;;;
  mret CommittedDurable.
End Document.
