(* ===== verification/SafeDocumentFacts.v ===== *)
(** What the replacement protocol of SafeDocument.v leaves behind when it is
    stopped anywhere, and what a later load finds. *)
From stdpp Require Import gmap strings.
From S2P Require Import Prelude RustStr FileSystem External StrategyStore SafeDocument.

(** ** Directories and their entries *)

(** [p] and everything above it are directories. *)
Definition dirs (p : path) (m : gmap path node) : Prop :=
  forall q, q ∈ p :: ancestors p -> is_dir_at m q = true.

(** The entry of a name in [dir]. *)
Definition entry (dir : path) (m : gmap path node) (name : string) : option node :=
  m !! (name :: dir).

(** Between two trees nothing changed but missing directories up to [dir]. *)
Definition grown (dir : path) (m m' : gmap path node) : Prop :=
  (forall p, dirs p m -> dirs p m') /\ forall name, entry dir m' name = entry dir m name.

Lemma grown_refl dir m : grown dir m m.
Proof. done. Qed.
Lemma grown_trans dir m1 m2 m3 : grown dir m1 m2 -> grown dir m2 m3 -> grown dir m1 m3.
Proof. intros [? E] [? E']. split; [auto|]. intros n. by rewrite E', E. Qed.

Lemma shorter_than_entry p dir name : p ∈ dir :: ancestors dir -> p <> name :: dir.
Proof.
  intros [->|H]%elem_of_cons E; [|apply ancestor_shorter in H]; subst; simpl in *; [|lia].
  by apply (f_equal length) in E; simpl in E; lia.
Qed.

(** An operation on an entry leaves the directories alone. *)
Lemma dirs_frame dir m m' :
  (forall q, q ∈ dir :: ancestors dir -> m' !! q = m !! q) -> dirs dir m -> dirs dir m'.
Proof.
  intros Hf Hd q Hq. specialize (Hd q Hq). unfold is_dir_at in *.
  destruct q; [done|]. by rewrite Hf.
Qed.

Lemma dirs_insert dir name n m : dirs dir m -> dirs dir (<[name :: dir := n]> m).
Proof.
  apply dirs_frame. intros q Hq. apply lookup_insert_ne. by apply not_eq_sym, shorter_than_entry.
Qed.
Lemma dirs_delete dir name m : dirs dir m -> dirs dir (delete (name :: dir) m).
Proof.
  apply dirs_frame. intros q Hq. apply lookup_delete_ne. by apply not_eq_sym, shorter_than_entry.
Qed.

(** ** Specifications of the operations

    [same]: the tree is as it was. *)
Definition same (w w' : fs_world) : Prop := nodes w' = nodes w.

Lemma wp_reads {A} (c : IO A) w :
  reads nodes c -> wp c (fun _ => same w) (fun _ => same w) (same w) w.
Proof. intros Hr. specialize (Hr w). unfold wp, same. by destruct (c w) as [[] w']. Qed.

Lemma wp_and {W E A : Type} (c : M W E A) (Q Q' : A -> W -> Prop) (R R' : E -> W -> Prop) C C' w :
  wp c Q R C w -> wp c Q' R' C' w ->
  wp c (fun a w' => Q a w' /\ Q' a w') (fun e w' => R e w' /\ R' e w')
       (fun w' => C w' /\ C' w') w.
Proof. unfold wp. by destruct (c w) as [[] w']. Qed.

Lemma wp_assoc {W E A B D : Type} (c : M W E A) (k : A -> M W E B) (j : B -> M W E D) Q R C w :
  wp (mbind c k) (fun b => wp (j b) Q R C) R C w -> wp (mbind c (fun a => mbind (k a) j)) Q R C w.
Proof. unfold wp, mbind. destruct (c w) as [[a|e|h] w']; [|done..]. by destruct (k a w') as [[]]. Qed.

Lemma reads_openat p : reads nodes (fs_openat p).
Proof. apply reads_prim. Qed.
Lemma reads_open_dir p : reads nodes (fs_open_dir p).
Proof. apply reads_prim. Qed.
#[local] Hint Resolve reads_openat reads_open_dir : reads.

Lemma reads_exact_case dir name : reads nodes (exact_case dir name).
Proof. apply reads_bind; [auto with reads|intros]. case_match; auto with reads. apply reads_fail. Qed.
Lemma reads_identity h : reads nodes (identity h).
Proof. apply reads_bind; [auto with reads|intros []]; [apply reads_ret|apply reads_fail]. Qed.
#[local] Hint Resolve reads_exact_case reads_identity : reads.
Lemma reads_open_file dir name : reads nodes (open_file dir name false).
Proof.
  apply reads_bind; [auto with reads|intros]. apply reads_bind; auto with reads.
Qed.
#[local] Hint Resolve reads_open_file : reads.
Lemma reads_verify dir name h : reads nodes (verify dir name h).
Proof.
  do 3 (apply reads_bind; [auto with reads|intros]). case_match; [apply reads_fail|apply reads_ret].
Qed.
Lemma reads_open_existing dir name : reads nodes (open_existing dir name).
Proof.
  do 2 (apply reads_bind; [auto with reads|intros]). case_match.
  - case_match; first [apply reads_ret|apply reads_fail].
  - apply reads_bind; auto with reads.
Qed.
Lemma reads_bounded limit h : reads nodes (bounded limit h).
Proof. apply reads_bind; [auto with reads|intros]. case_match; [apply reads_fail|apply reads_ret]. Qed.
Lemma reads_bounded_opt limit h : reads nodes (bounded_opt limit h).
Proof. destruct h; [apply reads_bounded|apply reads_ret]. Qed.
#[local] Hint Resolve reads_verify reads_open_existing reads_bounded reads_bounded_opt : reads.
Lemma reads_hold dir limit name : reads nodes (hold dir limit name).
Proof. do 2 (apply reads_bind; [auto with reads|intros]). apply reads_ret. Qed.
Lemma reads_load_names dir limit ns : reads nodes (load_names dir limit ns).
Proof.
  apply reads_bind.
  - apply reads_try. unfold directory_open. case_match; [apply reads_fail|]. clear.
    induction dir; simpl; [apply reads_ret|]. repeat (apply reads_bind; [auto with reads|intros]).
    auto with reads.
  - intros [[]|]; try first [apply reads_ret|apply reads_fail].
    apply reads_mmap. intros name. apply reads_bind; [auto with reads|intros [h|]]; [|apply reads_ret].
    apply reads_bind; [auto with reads|intros; apply reads_ret].
Qed.
#[local] Hint Resolve reads_hold reads_load_names : reads.

(** [exact_case] and [open_file] answer [NotFound] in a directory only for the
    name itself. *)
Lemma exact_case_found dir name w :
  is_dir_at (nodes w) dir = true ->
  wp (exact_case dir name) (fun _ => same w) (fun e w' => same w w' /\ e <> NotFound) (same w) w.
Proof.
  intros Hd. unfold exact_case. wp_step. apply wp_prim; unfold unchanged; cbn [nodes faults].
  - done.
  - done.
  - intros fs. destruct (blocked _ _); [done|]. rewrite Hd.
    case_match; [by apply wp_fail|by apply wp_ret].
Qed.

Lemma wp_same {A} (c : IO A) (Q : A -> fs_world -> Prop) (R : io_error -> fs_world -> Prop) C w :
  reads nodes c ->
  (forall a w', same w w' -> Q a w') -> (forall e w', same w w' -> R e w') ->
  (forall w', same w w' -> C w') -> wp c Q R C w.
Proof. intros Hc HQ HR HC. eapply wp_mono; [by apply wp_reads|auto..]. Qed.

(** Step over an operation that only reads. *)
Ltac wp_pass := eapply wp_same; [by auto with reads|..].

Definition file_at (n : option node) : Prop := exists d s, n = Some (File d s).

Lemma metadata_kind p w :
  p <> [] ->
  wp (fs_metadata p)
     (fun k w' => same w w' /\ (k = KFile -> file_at (nodes w !! p)))
     (fun e w' => same w w' /\ (e = NotFound -> nodes w !! p = None)) (same w) w.
Proof.
  intros Hp. unfold fs_metadata. apply wp_prim; unfold unchanged; cbn [nodes faults]; [done..|].
  intros fs. unfold lookup_op, file_at. repeat case_match; simplify_eq; naive_solver.
Qed.

Lemma identity_spec dir name w :
  wp (identity (name :: dir))
     (fun h w' => same w w' /\ h = name :: dir /\ file_at (entry dir (nodes w) name))
     (fun e w' => same w w' /\ (e = NotFound -> entry dir (nodes w) name = None)) (same w) w.
Proof.
  unfold identity. wp_step. eapply wp_mono; [by apply metadata_kind|..]; [|done..].
  intros [] w' [Hs Hk]; [wp_step; by eauto|by apply wp_fail].
Qed.

Lemma open_existing_file dir name w :
  is_dir_at (nodes w) dir = true ->
  wp (open_file dir name false)
     (fun h w' => same w w' /\ h = name :: dir /\ file_at (entry dir (nodes w) name))
     (fun e w' => same w w' /\ (e = NotFound -> entry dir (nodes w) name = None)) (same w) w.
Proof.
  intros Hd. unfold open_file. wp_step. eapply wp_mono; [by apply exact_case_found|..];
    [|intros e w' [? He]; split; [done|by intros ->]|done].
  intros ? w1 E1. wp_step. unfold fs_openat. apply wp_prim; unfold unchanged; cbn [nodes faults].
  - intros n fs. split; [exact E1|done].
  - intros n fs. exact E1.
  - intros fs. unfold same in *. rewrite E1.
    destruct (lookup_op (name :: dir) (nodes w)) as [k|e|h] eqn:El; simpl.
    + eapply wp_mono; [apply identity_spec|..]; unfold same; cbn [nodes]; naive_solver.
    + split; [done|]. intros ->. unfold lookup_op in El. unfold entry.
      repeat case_match; naive_solver.
    + done.
Qed.

(** What holding a name finds. *)
Definition found_at (dir : path) (m : gmap path node) (name : string) (held : option path) : Prop :=
  match held with
  | Some h => h = name :: dir /\ file_at (entry dir m name)
  | None => entry dir m name = None
  end.

Lemma open_existing_spec dir name w :
  is_dir_at (nodes w) dir = true ->
  wp (open_existing dir name)
     (fun held w' => same w w' /\ found_at dir (nodes w) name held) (fun _ => same w) (same w) w.
Proof.
  intros Hd. unfold open_existing. wp_step. wp_pass; [|done..].
  intros ? w1 E1. unfold same in *. wp_step. wp_step.
  eapply wp_mono; [apply open_existing_file; by rewrite E1|..]; unfold same.
  - intros h w2 (E2 & -> & Hf). wp_step. rewrite E1 in *. eapply wp_mono; [apply identity_spec|..].
    + intros h w3 (E3 & -> & _). wp_step. unfold same in *. split; [congruence|]. by split.
    + unfold same. intros e w3 [E3 _]. congruence.
    + unfold same. intros w3 E3. congruence.
  - intros e w2 [E2 Hn]. rewrite E1 in *. destruct e; wp_step; [|congruence..].
    split; [congruence|]. by apply Hn.
  - intros w2 E2. congruence.
Qed.

Lemma hold_spec dir limit name w :
  is_dir_at (nodes w) dir = true ->
  wp (hold dir limit name)
     (fun held w' => same w w' /\ found_at dir (nodes w) name held) (fun _ => same w) (same w) w.
Proof.
  intros Hd. unfold hold. wp_step. eapply wp_mono; [by apply open_existing_spec|..]; [|done..].
  intros held w1 [E1 Hf]. wp_step. unfold same in *.
  wp_pass; unfold same; intros; [wp_step; split|..]; congruence.
Qed.

(** The directory is opened, its missing parents created. *)
Lemma mkdirat_spec root p w :
  p ∈ root :: ancestors root ->
  wp (fs_mkdirat p) (fun _ w' => grown root (nodes w) (nodes w'))
     (fun _ => same w) (same w) w.
Proof.
  intros Hp. unfold fs_mkdirat. apply wp_prim; unfold unchanged; cbn [nodes faults]; [done..|].
  intros fs. destruct (blocked _ _); [done|]. destruct (nodes w !! p) eqn:E; [done|].
  destruct (is_dir_at _ _); [|done]. split; cbn [nodes].
  - intros p' Hd q Hq. specialize (Hd q Hq). unfold is_dir_at in *. destruct q as [|x q]; [done|].
    rewrite lookup_insert. by case_decide.
  - intros name. unfold entry. apply lookup_insert_ne. by apply shorter_than_entry.
Qed.

Lemma same_grown dir w w' : same w w' -> grown dir (nodes w) (nodes w').
Proof. intros E. unfold same in E. rewrite E. apply grown_refl. Qed.

Lemma open_components_spec root p w :
  p ∈ root :: ancestors root ->
  wp (open_components true p)
     (fun _ w' => dirs p (nodes w') /\ grown root (nodes w) (nodes w'))
     (fun _ w' => grown root (nodes w) (nodes w')) (fun w' => grown root (nodes w) (nodes w')) w.
Proof.
  revert w. induction p as [|name dir IH]; intros w Hp; simpl.
  { wp_step. split; [|apply grown_refl]. intros q [->|Hq]%elem_of_cons; [done|].
    by apply elem_of_nil in Hq. }
  assert (dir ∈ root :: ancestors root) as Hdir.
  { clear -Hp. induction root as [|x root IHr]; simpl in *.
    - apply elem_of_cons in Hp as [?|?%elem_of_nil]; done.
    - apply elem_of_cons in Hp as [[= -> ->]|Hp]; [by right; left|right; by apply IHr]. }
  set (G := fun w' : fs_world => grown root (nodes w) (nodes w')).
  assert (forall w1 w2, grown root (nodes w1) (nodes w2) -> G w1 -> G w2) as HG
    by (intros; by eapply grown_trans).
  pose proof (fun w1 w2 (E : same w1 w2) => HG w1 w2 (same_grown root w1 w2 E)) as HS.
  wp_step. eapply wp_mono; [by apply IH|..]; [|done..]. intros ? w1 [Hd1 Hg1].
  wp_step. wp_pass; [|by eauto..]. intros ? w2 E2. wp_step.
  apply wp_mono with (Q := fun _ w3 => dirs dir (nodes w3) /\ G w3) (R := fun _ => G) (C := G);
    [|clear w1 w2 Hd1 Hg1 E2; intros ? w3 [Hd3 Hg3]|done..].
  - pose proof (HS _ _ E2 Hg1) as Hg2. assert (dirs dir (nodes w2)) as Hd2 by by rewrite E2.
    wp_step. wp_step. eapply wp_mono; [by apply mkdirat_spec|..]; [|intros e w3 E3|by eauto].
    + intros ? w3 E3. pose proof (HG _ _ E3 Hg2) as Hg3. wp_pass; [|by eauto..].
      intros ? w4 E4. split; [|by eauto]. unfold same in E4. rewrite E4. by apply E3.
    + pose proof (HS _ _ E3 Hg2) as Hg3. destruct e; wp_step; [done| |done].
      split; [|done]. unfold same in E3. by rewrite E3.
  - unfold fs_open_dir. apply wp_prim; unfold unchanged; cbn [nodes faults]; [done..|].
    intros fs. destruct (lookup_op (name :: dir) (nodes w3)) as [[]|e|h] eqn:El; try done.
    split; [|done]. intros q [->|Hq]%elem_of_cons; [|by apply Hd3].
    unfold lookup_op in El. unfold is_dir_at, is_dir_node. cbn [nodes].
    repeat case_match; naive_solver.
Qed.

Lemma directory_open_spec root w :
  wp (directory_open root true)
     (fun _ w' => dirs root (nodes w') /\ grown root (nodes w) (nodes w'))
     (fun _ w' => grown root (nodes w) (nodes w')) (fun w' => grown root (nodes w) (nodes w')) w.
Proof.
  unfold directory_open. case_match; [by apply wp_fail, grown_refl|].
  apply open_components_spec. by left.
Qed.

(** ** The operations that change entries *)

Lemma clean_spec dir limit name held w :
  found_at dir (nodes w) name held ->
  wp (clean dir limit name held)
     (fun _ w' => nodes w' = delete (name :: dir) (nodes w)) (fun _ => same w) (same w) w.
Proof.
  intros Hf. unfold clean. destruct held as [h|].
  - wp_step. wp_pass; [|done..]. intros ? w1 E1. unfold remove. wp_step.
    unfold same in *. wp_pass; unfold same; intros; try congruence.
    unfold fs_remove_file. apply wp_prim; unfold unchanged; cbn [nodes faults]; try (intros; congruence).
    intros fs. repeat case_match; simplify_eq; cbn [nodes]; congruence.
  - wp_step. simpl in Hf. by rewrite delete_id.
Qed.

(** What a work file that is being written can look like. *)
Definition partly (bytes : string) (n : option node) : Prop :=
  n = None \/ exists t s, n = Some (File t s) /\ String.prefix t bytes = true.

(** A tree that differs at one entry only. *)
Definition at_entry (dir : path) (name : string) (P : option node -> Prop)
    (m m' : gmap path node) : Prop :=
  m' = m \/ exists n, m' = <[name :: dir := n]> m /\ P (Some n).

Lemma write_work_spec dir name bytes w :
  entry dir (nodes w) name = None ->
  let partial w' := at_entry dir name (partly bytes) (nodes w) (nodes w') in
  wp (write_work dir name bytes)
     (fun h w' => h = name :: dir /\ nodes w' = <[name :: dir := File bytes true]> (nodes w))
     (fun _ => partial) partial w.
Proof.
  intros Hn partial. unfold write_work, open_file.
  assert (forall w', nodes w' = nodes w -> partial w') as P0 by (intros; by left).
  assert (forall t s w', nodes w' = <[name :: dir := File t s]> (nodes w) ->
            String.prefix t bytes = true -> partial w') as P1.
  { intros t s w' E Hp. right. exists (File t s). split; [done|]. right. by eauto. }
  unfold same in *. do 2 wp_step. wp_pass; [|by auto..]. intros ? w1 E1. wp_step.
  apply wp_mono with (Q := fun _ w' => nodes w' = <[name :: dir := File "" false]> (nodes w))
    (R := fun _ => partial) (C := partial); [| |done..].
  { unfold fs_create_new. apply wp_prim; unfold unchanged; cbn [nodes faults]; [by auto..|].
    intros fs. unfold same, entry in *. rewrite E1, Hn.
    repeat case_match; simplify_eq; auto. }
  clear w1 E1. intros ? w1 E1. pose proof (P1 _ _ _ E1 ltac:(by destruct bytes)) as H1.
  assert (forall w', same w1 w' -> partial w') as HS.
  { intros w' E. unfold same in E. unfold partial. rewrite E. exact H1. }
  eapply wp_mono; [apply identity_spec|..]; [|intros e w' [? _]; by apply HS|done].
  intros h w2 (E2 & -> & _). wp_step. eapply wp_mono; [apply identity_spec|..]; [|intros e w' [E _]; apply HS; unfold same in *; congruence|intros w' E; apply HS; unfold same in *; congruence].
  intros h w3 (E3 & -> & _). unfold same in *.
  assert (nodes w3 = <[name :: dir := File "" false]> (nodes w)) as E by congruence.
  clear E1 E2 E3 H1 HS. wp_step. unfold fs_write_all.
  assert (forall b, append_bytes (name :: dir) b (nodes w3)
                    = <[name :: dir := File b false]> (nodes w)) as Ha.
  { intros b. unfold append_bytes. rewrite E, lookup_insert_eq. simpl. by rewrite insert_insert_eq. }
  apply wp_prim; cbn [nodes faults].
  - intros n fs. rewrite Ha. exact (P1 _ _ (FsWorld _ fs) eq_refl (prefix_substring _ _)).
  - intros n fs. rewrite Ha. exact (P1 _ _ (FsWorld _ fs) eq_refl (prefix_substring _ _)).
  - intros fs. rewrite Ha. wp_step. unfold fs_sync_all.
    apply wp_prim; unfold unchanged; cbn [nodes faults].
    + intros n fs'. exact (P1 _ _ (FsWorld _ fs') eq_refl (prefix_refl _)).
    + intros n fs'. exact (P1 _ _ (FsWorld _ fs') eq_refl (prefix_refl _)).
    + intros fs'. rewrite lookup_insert_eq. wp_step. cbn [nodes]. by rewrite insert_insert_eq.
Qed.

Lemma replace_spec dir source target previous d s w :
  entry dir (nodes w) source = Some (File d s) ->
  wp (replace dir source (source :: dir) target previous)
     (fun _ w' => nodes w' = <[target :: dir := File d s]> (delete (source :: dir) (nodes w)))
     (fun _ => same w) (same w) w.
Proof.
  intros Hs. unfold replace. wp_step. wp_pass; [|done..]. intros ? w1 E1.
  wp_step. unfold same in *. wp_pass; unfold same; try (intros; congruence). intros ? w2 E2.
  wp_step.
  apply wp_mono with (Q := fun _ w' => nodes w' = nodes w) (R := fun _ w' => nodes w' = nodes w)
    (C := fun w' => nodes w' = nodes w); [| |done..].
  { destruct previous as [p|].
    - wp_pass; unfold same; intros; congruence.
    - wp_step. wp_step. wp_pass; unfold same; [|intros e|]; intros; simpl;
        repeat case_match; first [apply wp_ret|apply wp_fail|idtac]; congruence. }
  intros ? w3 E3. unfold fs_rename. apply wp_prim; unfold unchanged; cbn [nodes faults];
    try (intros; unfold same; congruence).
  intros fs. unfold rename_op, entry in *. rewrite E3, Hs.
  repeat case_match; simplify_eq; cbn [nodes]; done.
Qed.

(** ** The stages of a replacement *)

Section Protocol.
Context (root : path) (names : SafeDocumentNames) (max_bytes : Z).
Context (distinct : NoDup (all_names names)).
Context (m0 : gmap path node) (previous : option string) (next : string).

Local Abbreviation at_ := (entry root).

Definition kept (m : gmap path node) (name : string) : Prop := at_ m name = at_ m0 name.

Definition old_files (m : gmap path node) : Prop :=
  kept m (n_main names) /\ kept m (n_tmp names) /\ kept m (n_bak names).

(** The work files of an earlier replacement are removed, one after the other. *)
Definition cleaning (m : gmap path node) : Prop :=
  old_files m /\
  (kept m (n_pending names) \/ at_ m (n_pending names) = None) /\
  (kept m (n_bak_pending names) \/ at_ m (n_bak_pending names) = None).

(** The new work files are written. *)
Definition preparing (m : gmap path node) : Prop :=
  old_files m /\ partly next (at_ m (n_pending names)) /\
  (at_ m (n_bak_pending names) = None \/
   exists p, previous = Some p /\ partly p (at_ m (n_bak_pending names))).

Definition new_backup (m : gmap path node) : Prop :=
  match previous with
  | Some p => at_ m (n_bak names) = Some (File p true)
  | None => kept m (n_bak names)
  end.

(** The backup is in place, the new document waits under its pending name. *)
Definition backed (m : gmap path node) : Prop :=
  kept m (n_main names) /\ (kept m (n_tmp names) \/ at_ m (n_tmp names) = None) /\
  new_backup m /\ at_ m (n_pending names) = Some (File next true) /\
  at_ m (n_bak_pending names) = None.

Definition committed (m : gmap path node) : Prop :=
  dirs root m /\ at_ m (n_main names) = Some (File next true) /\ at_ m (n_tmp names) = None /\
  new_backup m /\ at_ m (n_pending names) = None /\ at_ m (n_bak_pending names) = None.

Definition before_commit (m : gmap path node) : Prop :=
  grown root m0 m \/ (dirs root m /\ (cleaning m \/ preparing m \/ backed m)).

Lemma distinct_names :
  n_main names <> n_tmp names /\ n_main names <> n_bak names /\
  n_main names <> n_pending names /\ n_main names <> n_bak_pending names /\
  n_tmp names <> n_bak names /\ n_tmp names <> n_pending names /\
  n_tmp names <> n_bak_pending names /\ n_bak names <> n_pending names /\
  n_bak names <> n_bak_pending names /\ n_pending names <> n_bak_pending names.
Proof.
  revert distinct. unfold all_names. rewrite !NoDup_cons, !not_elem_of_cons. tauto.
Qed.

Lemma entry_insert m n n' x :
  at_ (<[n :: root := x]> m) n' = if decide (n = n') then Some x else at_ m n'.
Proof.
  unfold entry. case_decide as E; [subst; apply lookup_insert_eq|].
  apply lookup_insert_ne. congruence.
Qed.
Lemma entry_delete m n n' :
  at_ (delete (n :: root) m) n' = if decide (n = n') then None else at_ m n'.
Proof.
  unfold entry. case_decide as E; [subst; apply lookup_delete_eq|].
  apply lookup_delete_ne. congruence.
Qed.

(** Evaluate the entries of a tree after changes of other entries. *)
Ltac entries :=
  destruct distinct_names as (?&?&?&?&?&?&?&?&?&?);
  unfold kept in *;
  repeat first [rewrite entry_insert | rewrite entry_delete];
  repeat first [rewrite decide_False by congruence | rewrite decide_True by congruence].

Lemma grown_cleaning m : grown root m0 m -> cleaning m.
Proof. intros [_ E]. unfold cleaning, old_files, kept. rewrite !E. tauto. Qed.

Lemma found_grown m m' name held :
  grown root m m' -> found_at root m name held -> found_at root m' name held.
Proof. intros [_ E]. unfold found_at. by rewrite E. Qed.

Lemma preparing_before m :
  dirs root m -> old_files m -> partly next (at_ m (n_pending names)) ->
  at_ m (n_bak_pending names) = None -> before_commit m.
Proof. intros Hd Ho Hp Hb. right. split; [done|]. right. left. split_and!; [done..|by left]. Qed.

Lemma partly_all bytes s : partly bytes (Some (File bytes s)).
Proof. right. exists bytes, s. split; [done|apply prefix_refl]. Qed.

(** The backup, with the pending file in place. *)
Lemma keep_backup_spec held_bak w :
  dirs root (nodes w) -> old_files (nodes w) ->
  at_ (nodes w) (n_pending names) = Some (File next true) ->
  at_ (nodes w) (n_bak_pending names) = None ->
  wp (keep_backup root names max_bytes previous held_bak)
     (fun _ w' => dirs root (nodes w') /\ backed (nodes w') /\ kept (nodes w') (n_tmp names))
     (fun _ w' => before_commit (nodes w')) (fun w' => before_commit (nodes w')) w.
Proof.
  intros Hd (Hm & Ht & Hb) Hp Hbp. unfold keep_backup.
  assert (before_commit (nodes w)) as H0.
  { apply preparing_before; [done|done|rewrite Hp; apply partly_all|done]. }
  destruct previous as [p|] eqn:Eprev.
  2: { wp_step. unfold backed, new_backup. rewrite Eprev. tauto. }
  assert (forall n m, m = <[n_bak_pending names :: root := n]> (nodes w) -> partly p (Some n) ->
            before_commit m) as Hwork.
  { intros n m -> Hn. right. split; [by apply dirs_insert|]. right. left.
    unfold preparing, old_files. entries. split_and!; [done..|rewrite Hp; apply partly_all|].
    right. by exists p. }
  wp_step. eapply wp_mono; [by apply write_work_spec|..].
  2: { intros _ w' [E|(n & E & Hn)]; [by rewrite E|by eapply Hwork]. }
  2: { intros w' [E|(n & E & Hn)]; [by rewrite E|by eapply Hwork]. }
  intros h w1 [-> E1]. assert (before_commit (nodes w1)) as H1
    by (eapply Hwork; [done|apply partly_all]).
  assert (forall w', same w1 w' -> before_commit (nodes w')) as HS1
    by (intros w' E; unfold same in E; by rewrite E).
  wp_step. wp_pass; [|by auto..]. intros ? w2 E2. wp_step. unfold same in *.
  wp_pass; unfold same; [|intros; apply HS1; congruence..]. intros ? w3 E3.
  assert (nodes w3 = nodes w1) as E31 by congruence. clear E2 E3 w2.
  wp_step. eapply wp_mono.
  { apply (replace_spec _ _ _ _ p true). rewrite E31, E1. by entries. }
  2-3: unfold same; intros; apply HS1; congruence.
  intros ? w4 E4. rewrite E31, E1 in E4.
  assert (dirs root (nodes w4) /\ backed (nodes w4) /\ kept (nodes w4) (n_tmp names)) as H4.
  { rewrite E4. unfold backed, new_backup. rewrite Eprev.
    split; [by apply dirs_insert, dirs_delete, dirs_insert|]. entries. tauto. }
  assert (forall w', nodes w' = nodes w4 -> before_commit (nodes w')) as HS4.
  { intros w' ->. right. split; [apply H4|]. right. right. apply H4. }
  cbv zeta. wp_step. wp_pass; unfold same; [|auto..]. intros ? w5 E5.
  wp_pass; unfold same; [|intros; apply HS4; congruence..]. intros ? w6 E6.
  by rewrite E6, E5.
Qed.

(** The work files of an earlier replacement, removed. *)
Lemma cleaned_spec held_pending held_bak_pending w :
  dirs root (nodes w) -> grown root m0 (nodes w) ->
  found_at root (nodes w) (n_pending names) held_pending ->
  found_at root (nodes w) (n_bak_pending names) held_bak_pending ->
  wp (clean root max_bytes (n_pending names) held_pending ;;;
      clean root max_bytes (n_bak_pending names) held_bak_pending)
     (fun _ w' => nodes w' = delete (n_bak_pending names :: root)
                               (delete (n_pending names :: root) (nodes w)))
     (fun _ w' => before_commit (nodes w')) (fun w' => before_commit (nodes w')) w.
Proof.
  intros Hd Hg Fp Fb. pose proof (grown_cleaning _ Hg) as Hc.
  wp_step. eapply wp_mono; [by apply clean_spec|..]; unfold same.
  2: by intros e w' ->; left. 2: by intros w' ->; left.
  intros ? w1 E1.
  assert (before_commit (nodes w1)) as H1.
  { rewrite E1. right. split; [by apply dirs_delete|]. left. destruct Hc as (Ho & Hp & Hb).
    unfold cleaning, old_files in *. entries. tauto. }
  eapply wp_mono; [apply clean_spec|..]; unfold same.
  - rewrite E1. unfold found_at, file_at in *. entries. done.
  - intros ? w2 E2. by rewrite E2, E1.
  - by intros e w2 ->.
  - by intros w2 ->.
Qed.

(** From the new pending file to the replacement of the main file. *)
Lemma replaced_spec held_main held_tmp held_bak w :
  dirs root (nodes w) -> old_files (nodes w) ->
  at_ (nodes w) (n_pending names) = Some (File next true) ->
  at_ (nodes w) (n_bak_pending names) = None ->
  found_at root (nodes w) (n_tmp names) held_tmp ->
  wp (keep_backup root names max_bytes previous held_bak ;;;
      clean root max_bytes (n_tmp names) held_tmp ;;;
      fs_sync_dir root ;;;
      bounded max_bytes (n_pending names :: root) ;;;
      bounded_opt max_bytes held_main ;;;
      replace root (n_pending names) (n_pending names :: root) (n_main names) held_main)
     (fun _ w' => committed (nodes w'))
     (fun _ w' => before_commit (nodes w')) (fun w' => before_commit (nodes w')) w.
Proof.
  intros Hd Ho Hp Hb Ft. wp_step. eapply wp_mono; [by apply keep_backup_spec|..]; [|done..].
  intros ? w1 (Hd1 & Hk & Ht).
  assert (before_commit (nodes w1)) as H1 by (right; tauto).
  wp_step. eapply wp_mono; [apply clean_spec|..]; unfold same.
  { unfold found_at, file_at. rewrite Ht. destruct Ho as (_ & Ht0 & _).
    rewrite <-Ht0. exact Ft. }
  2: by intros e w' ->. 2: by intros w' ->.
  intros ? w2 E2.
  assert (backed (nodes w2) /\ at_ (nodes w2) (n_tmp names) = None) as [Hk2 Ht2].
  { rewrite E2. unfold backed, new_backup in *. destruct previous; entries; tauto. }
  assert (dirs root (nodes w2)) as Hd2 by (rewrite E2; by apply dirs_delete).
  assert (forall w', nodes w' = nodes w2 -> before_commit (nodes w')) as HS
    by (intros w' ->; right; tauto).
  wp_step. wp_pass; unfold same; [|auto..]. intros ? w3 E3.
  wp_step. wp_pass; unfold same; [|intros; apply HS; congruence..]. intros ? w4 E4.
  wp_step. wp_pass; unfold same; [|intros; apply HS; congruence..]. intros ? w5 E5.
  assert (nodes w5 = nodes w2) as E by congruence. destruct Hk2 as (Hm2 & _ & Hn2 & Hp2 & Hb2).
  eapply wp_mono; [apply (replace_spec _ _ _ _ next true); by rewrite E|..]; unfold same.
  2-3: intros; apply HS; congruence.
  intros ? w6 E6. rewrite E6, E. split; [by apply dirs_insert, dirs_delete|].
  unfold new_backup in *. destruct previous; entries; tauto.
Qed.

(** [prepare]: when it ends well the main file is the new one. *)
Lemma prepare_spec w :
  nodes w = m0 ->
  wp (prepare root names max_bytes previous next) (fun _ w' => committed (nodes w'))
     (fun _ w' => before_commit (nodes w')) (fun w' => before_commit (nodes w')) w.
Proof.
  intros E0. unfold prepare. wp_step.
  assert (before_commit (nodes w)) as H0 by (rewrite E0; by left).
  unfold guard. case_match; [done|]. clear H. apply (wp_ret tt). wp_step.
  eapply wp_mono; [apply directory_open_spec|..]; rewrite ?E0; [|by intros; left..].
  intros ? w1 [Hd Hg]. pose proof (Hd root ltac:(by left)) as Hr.
  assert (forall w', nodes w' = nodes w1 -> before_commit (nodes w')) as HS
    by (intros w' ->; by left).
  pose proof (grown_cleaning _ Hg) as ((Hm & Ht & Hb) & _).
  do 5 (wp_step; eapply wp_mono; [apply hold_spec; congruence|..];
        [|unfold same; intros; apply HS; congruence..];
        let h := fresh "held" in let w' := fresh "w" in let E := fresh "E" in
        let F := fresh "F" in intros h w' [E F]; unfold same in E).
  assert (nodes w5 = nodes w1) as E5 by congruence.
  assert (nodes w3 = nodes w1 /\ nodes w4 = nodes w1 /\ nodes w0 = nodes w1) as (H3 & H4 & H2)
    by (split_and!; congruence).
  rewrite H2 in F0. rewrite H3 in F2. rewrite H4 in F3. clear E E1 E2 E3 E4 H2 H3 H4 F F1.
  apply wp_assoc. eapply wp_mono; [apply cleaned_spec; rewrite ?E5; done|..]; [|done..].
  intros ? w6 E6. rewrite E5 in E6.
  assert (dirs root (nodes w6)) as Hd6 by (rewrite E6; by apply dirs_delete, dirs_delete).
  assert (old_files (nodes w6) /\ at_ (nodes w6) (n_pending names) = None /\
          at_ (nodes w6) (n_bak_pending names) = None /\
          at_ (nodes w6) (n_tmp names) = at_ (nodes w1) (n_tmp names)) as (Ho6 & Hp6 & Hb6 & Et6).
  { rewrite E6. unfold old_files. entries. tauto. }
  assert (forall w', nodes w' = nodes w6 -> before_commit (nodes w')) as HS6.
  { intros w' ->. apply preparing_before; [done..|by left|done]. }
  wp_step. wp_pass; unfold same; [|auto..]. intros ? w7 E7.
  assert (forall w', at_entry root (n_pending names) (partly next) (nodes w7) (nodes w') ->
            before_commit (nodes w')) as HP.
  { intros w' [->|(n & -> & Hn)]; [auto|]. rewrite E7.
    apply preparing_before; [by apply dirs_insert|unfold old_files in *; entries; tauto|..];
      by entries. }
  wp_step. eapply wp_mono; [apply write_work_spec; by rewrite E7|..]; [|by auto..].
  intros h w8 [-> E8]. rewrite E7 in E8. apply replaced_spec.
  - rewrite E8. by apply dirs_insert.
  - rewrite E8. unfold old_files in *. entries. tauto.
  - rewrite E8. by entries.
  - rewrite E8. by entries.
  - rewrite E8. unfold found_at, file_at in *. entries. by rewrite Et6.
Qed.

(** What follows the replacement changes nothing. *)
Lemma confirm_spec w :
  wp (confirm root names max_bytes) (fun _ => same w) (fun _ => same w) (same w) w.
Proof.
  unfold confirm. wp_step. wp_pass; [|done..]. intros ? w1 E1. wp_step. unfold same in *.
  wp_pass; unfold same; [|intros; congruence..]. intros ? w2 E2.
  wp_pass; unfold same; intros; congruence.
Qed.

(** The outcome a replacement reports is the truth. *)
Lemma persist_spec w :
  nodes w = m0 ->
  wp (persist_document root names max_bytes previous next)
     (fun o w' => o = CommittedDurable /\ committed (nodes w'))
     (fun o w' => o = NotCommitted /\ before_commit (nodes w') \/
                  o = CommittedProcessCrashSafe /\ committed (nodes w'))
     (fun w' => before_commit (nodes w') \/ committed (nodes w')) w.
Proof.
  intros E0. unfold persist_document. do 2 wp_step.
  eapply wp_mono; [by apply prepare_spec|..]; [|by auto..].
  intros ? w1 Hc. do 2 wp_step. unfold same in *.
  eapply wp_mono; [apply confirm_spec|..]; unfold same.
  - intros ? w2 E2. wp_step. by rewrite E2.
  - intros e w2 E2. right. by rewrite E2.
  - intros w2 E2. right. by rewrite E2.
Qed.
End Protocol.

(** ** What a load finds *)

(** A tree in which nothing lies below a missing directory. *)
Definition rooted (root : path) (m : gmap path node) : Prop :=
  dirs root m \/ forall name, entry root m name = None.

Definition seen (n : option node) (c : CandidateBytes) : Prop :=
  match c with
  | Missing => n = None
  | Bounded bytes => exists s, n = Some (File bytes s)
  | Oversized => True
  end.

Lemma open_components_reads p w :
  wp (open_components false p)
     (fun _ w' => same w w' /\ is_dir_at (nodes w) p = true)
     (fun e w' => same w w' /\ (e = NotFound -> ~ dirs p (nodes w))) (same w) w.
Proof.
  revert w. induction p as [|name dir IH]; intros w; simpl; [by wp_step|].
  assert (dirs (name :: dir) (nodes w) -> dirs dir (nodes w)) as Hup.
  { intros Hd q Hq. apply Hd. by right. }
  wp_step. eapply wp_mono; [apply IH|..]; unfold same in *;
    [|intros e w1 [E1 He]; split; [done|by intros -> ?; apply He; auto]|done].
  intros ? w1 [E1 Hd1]. wp_step.
  eapply wp_mono; [apply exact_case_found; by rewrite E1|..]; unfold same;
    [|intros e w2 [E2 He]; split; [congruence|by intros ->]|intros; congruence].
  intros ? w2 E2. do 2 wp_step. unfold fs_open_dir.
  apply wp_prim; unfold unchanged; cbn [nodes faults].
  - intros. split; [congruence|done].
  - intros. congruence.
  - intros fs. rewrite E2, E1. unfold lookup_op.
    destruct (blocked _ _); [by split|].
    destruct (nodes w !! (name :: dir)) as [[]|] eqn:E; simpl.
    + by split.
    + by split.
    + split; [done|]. intros _ Hd. specialize (Hd (name :: dir) ltac:(by left)).
      unfold is_dir_at in Hd. by rewrite E in Hd.
Qed.

Lemma load_name_spec root limit name w :
  is_dir_at (nodes w) root = true ->
  wp (load_name root limit name)
     (fun c w' => same w w' /\ seen (entry root (nodes w) name) c) (fun _ => same w) (same w) w.
Proof.
  intros Hd. unfold load_name. wp_step.
  eapply wp_mono; [by apply open_existing_spec|..]; [|done..].
  intros [h|] w1 [E1 Hf]; [|by wp_step]. destruct Hf as [-> Hf]. unfold same in *.
  wp_step. unfold fs_read. apply wp_prim; unfold unchanged; cbn [nodes faults]; [by intros..|].
  intros fs. rewrite E1. destruct (blocked _ _); [done|].
  destruct (nodes w !! (name :: root)) as [[d s|]|] eqn:E; [|done..].
  wp_step. split; [done|]. case_match; [done|]. simpl. unfold entry. rewrite E. eauto.
Qed.

Lemma load_names_spec root limit ns w :
  rooted root (nodes w) ->
  wp (load_names root limit ns)
     (fun cs w' => same w w' /\ Forall2 (fun n => seen (entry root (nodes w) n)) ns cs)
     (fun _ => same w) (same w) w.
Proof.
  intros Hr. unfold load_names. do 2 wp_step.
  apply wp_mono with (Q := fun _ w' => same w w' /\ is_dir_at (nodes w) root = true)
    (R := fun e w' => same w w' /\ (e = NotFound -> ~ dirs root (nodes w))) (C := same w).
  { unfold directory_open. case_match; [by apply wp_fail|apply open_components_reads]. }
  - intros ? w1 [E1 Hd]. clear Hr. revert w1 E1. induction ns as [|n ns IH]; intros w1 E1; simpl.
    + wp_step. by split; [|constructor].
    + unfold same in *. wp_step.
      eapply wp_mono; [apply load_name_spec; by rewrite E1|..]; unfold same; [|congruence..].
      intros c w2 [E2 Hc]. rewrite E1 in *. wp_step.
      eapply wp_mono; [by apply IH|..]; [|done..]. intros cs w3 [E3 Hcs]. wp_step.
      by split; [|constructor].
  - intros e w1 [E1 Hn]. destruct e; [|by apply wp_fail..]. wp_step. split; [done|].
    destruct Hr as [Hd|Hnone]; [by destruct (Hn eq_refl)|].
    clear -Hnone. induction ns; simpl; constructor; [|done]. by apply Hnone.
  - done.
Qed.

(** C6: However a replacement ends, after a crash the main file is the old or the
    new document in full; it is the new one, with the previous one as backup,
    when the outcome reported says committed, and the old one when it says not
    committed. *)
Theorem persist_crash_atomic (root : path) (names : SafeDocumentNames) (max_bytes : Z)
    (previous : option string) (next : string) (w w' : fs_world)
    (o : outcome PersistOutcome PersistOutcome) (cut : path -> nat) (schedule : list fault)
    (distinct : NoDup (all_names names))
    (run : persist_document root names max_bytes previous next w = (o, w')) :
  let main m := entry root m (n_main names) in
  let after := nodes (restart cut schedule w') in
  (main after = main (crash_nodes cut (nodes w)) \/ main after = Some (File next true)) /\
  (o = Ok CommittedDurable \/ o = Err CommittedProcessCrashSafe ->
     main after = Some (File next true) /\
     forall p, previous = Some p -> entry root after (n_bak names) = Some (File p true)) /\
  (o = Err NotCommitted -> main (nodes w') = main (nodes w)).
Proof.
  pose proof (persist_spec root names max_bytes distinct (nodes w) previous next w eq_refl) as H.
  unfold wp in H. rewrite run in H.
  assert (forall m, before_commit root names (nodes w) previous next m ->
            entry root m (n_main names) = entry root (nodes w) (n_main names)) as Hbefore.
  { intros m [[_ E]|[_ [((E & _) & _)|[((E & _) & _)|(E & _)]]]]; [apply E|exact E..]. }
  assert (committed root names (nodes w) previous next (nodes w') ->
            entry root (crash_nodes cut (nodes w')) (n_main names) = Some (File next true) /\
            forall p, previous = Some p ->
              entry root (crash_nodes cut (nodes w')) (n_bak names) = Some (File p true)) as Hafter.
  { intros (_ & Em & _ & Eb & _). unfold entry in *. split.
    - by rewrite lookup_crash_nodes, Em.
    - intros p ->. by rewrite lookup_crash_nodes, Eb. }
  assert (forall m, entry root m (n_main names) = entry root (nodes w) (n_main names) ->
            entry root (crash_nodes cut m) (n_main names)
            = entry root (crash_nodes cut (nodes w)) (n_main names)) as Hcrash.
  { intros m E. unfold entry in *. by rewrite !lookup_crash_nodes, E. }
  cbn [nodes restart]. destruct o as [o|o|h].
  - destruct H as [-> Hc]. split_and!; [right; by apply Hafter|by intros _; apply Hafter|done].
  - destruct H as [[-> Hc]|[-> Hc]].
    + split_and!; [left; by apply Hcrash, Hbefore|by intros [|]|by intros _; apply Hbefore].
    + split_and!; [right; by apply Hafter|by intros _; apply Hafter|done].
  - split_and!; [|by intros [|]|done].
    destruct H as [Hc|Hc]; [left; by apply Hcrash, Hbefore|right; by apply Hafter].
Qed.
