(* ===== verification/AtomicFile.v ===== *)
(** storage/atomic_file.rs: bounded reads and same-directory replacement, with
    staged files that no recovery reads. *)
From stdpp Require Import gmap strings.
From S2P Require Import Prelude RustStr FileSystem StrategyStore SafeDocument SafeDocumentFacts.

(** ** Operations *)

Definition temp (main : path) : path := sibling main ".tmp".
Definition backup (main : path) : path := sibling main ".bak".
Definition pending_file (main : path) : path := sibling main ".pending".
Definition backup_pending (main : path) : path := sibling main ".bak.pending".

Definition read_bounded (p : path) (max_bytes : Z) : IO CandidateBytes :=
  let* opened := mtry (fs_openat p) in
  match opened with
  | inl NotFound => mret Missing
  | inl e => mfail e
  | inr _ =>
      let* size := fs_len p in
      if max_bytes <? size then mret Oversized
      else
        let* bytes := fs_read p in
        mret (if max_bytes <? len bytes then Oversized else Bounded bytes)
  end.

Definition write_and_sync (p : path) (bytes : string) : IO unit :=
  fs_open_truncate p ;;; fs_write_all p bytes ;;; fs_sync_all p.

Definition remove_if_present (p : path) : IO unit :=
  let* removed := mtry (fs_remove_file p) in
  match removed with
  | inr _ | inl NotFound => mret tt
  | inl e => mfail e
  end.

Definition sync_parent_directory (p : path) : IO unit :=
  fs_openat (parent p) ;;; fs_sync_dir (parent p).

(** A failed promotion puts the previous bytes back; its own failure is logged. *)
Definition restore (main : path) (previous : option string) : IO unit :=
  match previous with
  | None => mret tt
  | Some previous =>
      let* _ := mtry (write_and_sync main previous ;;; sync_parent_directory main) in
      mret tt
  end.

(** [AtomicFile::replace]. *)
Definition replace_file (main : path) (bytes : string) (previous : option string) : IO unit :=
  fs_create_dir_all (parent main) ;;;
  write_and_sync (pending_file main) bytes ;;;
  match previous with
  | None => mret tt
  | Some previous =>
      write_and_sync (backup_pending main) previous ;;;
      fs_rename (backup_pending main) (backup main) ;;;
      sync_parent_directory (backup main)
  end ;;;
  remove_if_present (temp main) ;;;
  remove_if_present main ;;;
  let* promoted := mtry (fs_rename (pending_file main) main) in
  match promoted with
  | inl e => restore main previous ;;; mfail e
  | inr _ =>
      let* _ := mtry (sync_parent_directory main) in
      mret tt
  end.

(** ** Specifications *)

Lemma reads_sync_parent p : reads nodes (sync_parent_directory p).
Proof. apply reads_bind; [apply reads_openat|intros; apply reads_sync_dir]. Qed.

Lemma write_and_sync_spec dir name bytes w :
  let partial w' := at_entry dir name (partly bytes) (nodes w) (nodes w') in
  wp (write_and_sync (name :: dir) bytes)
     (fun _ w' => nodes w' = <[name :: dir := File bytes true]> (nodes w))
     (fun _ => partial) partial w.
Proof.
  intros partial. unfold write_and_sync.
  assert (forall w', nodes w' = nodes w -> partial w') as P0 by (intros; by left).
  assert (forall t s w', nodes w' = <[name :: dir := File t s]> (nodes w) ->
            String.prefix t bytes = true -> partial w') as P1.
  { intros t s w' E Hp. right. exists (File t s). split; [done|]. right. by eauto. }
  wp_step. unfold fs_open_truncate. apply wp_prim; unfold unchanged; cbn [nodes faults]; [by auto..|].
  intros fs. destruct (open_check _ _); [|by auto..].
  assert (forall b, append_bytes (name :: dir) b (<[name :: dir := File "" false]> (nodes w))
                    = <[name :: dir := File b false]> (nodes w)) as Ha.
  { intros b. unfold append_bytes. rewrite lookup_insert_eq. simpl. by rewrite insert_insert_eq. }
  wp_step. unfold fs_write_all. apply wp_prim; cbn [nodes faults].
  - intros n fs'. rewrite Ha. exact (P1 _ _ (FsWorld _ fs') eq_refl (prefix_substring _ _)).
  - intros n fs'. rewrite Ha. exact (P1 _ _ (FsWorld _ fs') eq_refl (prefix_substring _ _)).
  - intros fs'. rewrite Ha. unfold fs_sync_all. apply wp_prim; unfold unchanged; cbn [nodes faults].
    + intros n fs2. exact (P1 _ _ (FsWorld _ fs2) eq_refl (prefix_refl _)).
    + intros n fs2. exact (P1 _ _ (FsWorld _ fs2) eq_refl (prefix_refl _)).
    + intros fs2. rewrite lookup_insert_eq. cbn [nodes]. by rewrite insert_insert_eq.
Qed.

Lemma remove_if_present_spec p w :
  wp (remove_if_present p) (fun _ w' => nodes w' = delete p (nodes w)) (fun _ => same w) (same w) w.
Proof.
  unfold remove_if_present. do 2 wp_step. unfold fs_remove_file, same.
  apply wp_prim; unfold unchanged; cbn [nodes faults]; [by intros; apply wp_fail|done|].
  intros fs. destruct (blocked _ _); [by apply wp_fail|].
  destruct (nodes w !! p) as [[]|] eqn:E; [by apply wp_ret|by apply wp_fail|].
  apply wp_ret. cbn [nodes]. by rewrite delete_id.
Qed.

Lemma rename_file_spec dir source target d s w :
  entry dir (nodes w) source = Some (File d s) ->
  wp (fs_rename (source :: dir) (target :: dir))
     (fun _ w' => nodes w' = <[target :: dir := File d s]> (delete (source :: dir) (nodes w)))
     (fun _ => same w) (same w) w.
Proof.
  intros Hs. unfold fs_rename, same. apply wp_prim; unfold unchanged; cbn [nodes faults]; [done..|].
  intros fs. unfold rename_op, entry in *. rewrite Hs.
  repeat case_match; simplify_eq; cbn [nodes]; done.
Qed.

(** ** The stages of a replacement *)

Section Replacement.
Context (dir : path) (name bytes : string) (previous : option string) (m0 : gmap path node).

Local Abbreviation at_ := (entry dir).
Local Abbreviation tmp_ := (name +:+ ".tmp").
Local Abbreviation bak_ := (name +:+ ".bak").
Local Abbreviation new_ := (name +:+ ".pending").
Local Abbreviation new_bak_ := (name +:+ ".bak.pending").

(** The previous document is the backup; without one the backup is left alone.
    Until then the other files a recovery reads are left alone too. *)
Definition backed_up (m : gmap path node) : Prop :=
  at_ m bak_ = match previous with Some p => Some (File p true) | None => at_ m0 bak_ end.

Definition untouched (m : gmap path node) : Prop :=
  at_ m name = at_ m0 name /\
  (at_ m tmp_ = at_ m0 tmp_ /\ at_ m bak_ = at_ m0 bak_ \/
   backed_up m /\ (at_ m tmp_ = at_ m0 tmp_ \/ at_ m tmp_ = None)).

(** The main file is gone, or being restored. *)
Definition unlinked (m : gmap path node) : Prop :=
  at_ m tmp_ = None /\ backed_up m /\
  match previous with Some p => partly p (at_ m name) | None => at_ m name = None end.

Definition replaced (m : gmap path node) : Prop :=
  at_ m name = Some (File bytes true) /\ at_ m tmp_ = None /\ backed_up m.

Lemma sibling_names :
  name <> tmp_ /\ name <> bak_ /\ name <> new_ /\ name <> new_bak_ /\ tmp_ <> bak_ /\
  tmp_ <> new_ /\ tmp_ <> new_bak_ /\ bak_ <> new_ /\ bak_ <> new_bak_ /\ new_ <> new_bak_.
Proof.
  assert (forall a, a <> "" -> name <> name +:+ a) as Hs.
  { intros a Ha E. apply (f_equal String.length) in E. rewrite string_length_app in E.
    destruct a; simpl in *; [done|lia]. }
  assert (forall a b, a <> b -> name +:+ a <> name +:+ b) as Hn.
  { intros a b Hne E. by apply (inj (String.append name)) in E. }
  split_and!; first [by apply Hs | by apply Hn].
Qed.

Ltac sib_entries :=
  destruct sibling_names as (?&?&?&?&?&?&?&?&?&?);
  repeat first [rewrite entry_insert | rewrite entry_delete];
  repeat first [rewrite decide_False by congruence | rewrite decide_True by congruence].

(** Staging does not touch what a recovery reads. *)
Lemma at_entry_same P n n' m m' :
  n <> n' -> at_entry dir n P m m' -> at_ m' n' = at_ m n'.
Proof. intros Hn [->|(x & -> & _)]; [done|]. rewrite entry_insert. by rewrite decide_False. Qed.

Lemma untouched_same m m' :
  at_ m' name = at_ m name -> at_ m' tmp_ = at_ m tmp_ -> at_ m' bak_ = at_ m bak_ ->
  untouched m -> untouched m'.
Proof. unfold untouched, backed_up. intros -> -> ->. done. Qed.

Lemma staged_untouched P n m m' :
  n = new_ \/ n = new_bak_ -> at_entry dir n P m m' -> untouched m -> untouched m'.
Proof.
  intros Hn Ha. destruct sibling_names as (?&?&?&?&?&?&?&?&?&?).
  apply untouched_same; eapply at_entry_same; try exact Ha; destruct Hn as [-> | ->]; congruence.
Qed.

(** The backup, staged and renamed. *)
Lemma backup_spec w :
  untouched (nodes w) -> at_ (nodes w) new_ = Some (File bytes true) ->
  wp (match previous with
      | None => mret tt
      | Some p =>
          write_and_sync (backup_pending (name :: dir)) p ;;;
          fs_rename (backup_pending (name :: dir)) (backup (name :: dir)) ;;;
          sync_parent_directory (backup (name :: dir))
      end)
     (fun _ w' => untouched (nodes w') /\ at_ (nodes w') new_ = Some (File bytes true) /\
                  backed_up (nodes w'))
     (fun _ w' => untouched (nodes w')) (fun w' => untouched (nodes w')) w.
Proof.
  intros Hu Hp. destruct previous as [p|] eqn:Ep.
  2: { wp_step. split_and!; [done..|]. destruct Hu as (_ & Hb).
       unfold backed_up in *. rewrite Ep in *. by destruct Hb as [(_ & Hb)|(Hb & _)]. }
  change (backup_pending (name :: dir)) with (new_bak_ :: dir).
  change (backup (name :: dir)) with (bak_ :: dir). simpl.
  wp_step. eapply wp_mono; [apply write_and_sync_spec|..].
  2: intros e w' Ha; (eapply staged_untouched; [by right|exact Ha|exact Hu]).
  2: intros w' Ha; (eapply staged_untouched; [by right|exact Ha|exact Hu]).
  intros ? w1 E1.
  assert (untouched (nodes w1)) as Hu1.
  { rewrite E1. eapply untouched_same, Hu; by sib_entries. }
  wp_step. eapply wp_mono; [apply (rename_file_spec _ _ _ p true); rewrite E1; by sib_entries|..];
    unfold same. 2: by intros e w' ->. 2: by intros w' ->.
  intros ? w2 E2. rewrite E1 in E2.
  assert (backed_up (nodes w2)) as Hb by (unfold backed_up; rewrite Ep, E2; by sib_entries).
  assert (untouched (nodes w2)) as Hu2.
  { destruct Hu as (Hn & Ht). split; [rewrite E2; by sib_entries|]. right. split; [done|].
    rewrite E2. sib_entries. destruct Ht as [(-> & _)|(_ & [-> | ->])]; auto. }
  assert (at_ (nodes w2) new_ = Some (File bytes true)) as Hp2 by (rewrite E2; by sib_entries).
  eapply wp_same; [apply reads_sync_parent|..]; unfold same;
    [by intros ? w3 ->|by intros ? w3 ->|by intros w3 ->].
Qed.

Lemma unlinked_partial p m m' :
  previous = Some p -> at_ m name = None ->
  at_entry dir name (partly p) m m' -> unlinked m -> unlinked m'.
Proof.
  intros Ep Hm [->|(n & -> & Hn)] (Ht & Hb & _); [unfold unlinked; rewrite Ep|].
  - split_and!; [done..|]. by left.
  - unfold unlinked, backed_up in *. rewrite Ep in *. sib_entries. done.
Qed.

Lemma restore_spec w :
  unlinked (nodes w) -> at_ (nodes w) name = None ->
  wp (restore (name :: dir) previous : IO unit) (fun _ w' => unlinked (nodes w'))
     (fun _ w' => unlinked (nodes w')) (fun w' => unlinked (nodes w')) w.
Proof.
  intros Hu Hm. unfold restore. destruct previous as [p|] eqn:Ep; [|by wp_step].
  do 3 wp_step. eapply wp_mono; [apply write_and_sync_spec|..].
  2: { intros e w' Ha. wp_step. by eapply unlinked_partial. }
  2: { intros w' Ha. by eapply unlinked_partial. }
  intros ? w1 E1.
  assert (unlinked (nodes w1)) as Hu1.
  { rewrite E1. unfold unlinked, backed_up in *. rewrite Ep in *. sib_entries.
    split_and!; [apply Hu..|]. apply partly_all. }
  eapply wp_same; [apply reads_sync_parent|..]; unfold same; intros; try wp_step; congruence.
Qed.

(** From the removal of the old main file on. *)
Lemma promote_spec w :
  untouched (nodes w) -> backed_up (nodes w) -> at_ (nodes w) tmp_ = None ->
  at_ (nodes w) new_ = Some (File bytes true) ->
  wp (remove_if_present (name :: dir) ;;;
      let* promoted := mtry (fs_rename (pending_file (name :: dir)) (name :: dir)) in
      match promoted with
      | inl e => restore (name :: dir) previous ;;; mfail e
      | inr _ =>
          let* _ := mtry (sync_parent_directory (name :: dir)) in
          mret tt
      end)
     (fun _ w' => replaced (nodes w'))
     (fun _ w' => untouched (nodes w') \/ unlinked (nodes w'))
     (fun w' => untouched (nodes w') \/ unlinked (nodes w') \/ replaced (nodes w')) w.
Proof.
  intros Hu Hb Ht Hp. wp_step. eapply wp_mono; [apply remove_if_present_spec|..];
    unfold same; [|by intros ? w' ->; left|by intros w' ->; left].
  intros ? w1 E1.
  assert (unlinked (nodes w1)) as Hu1.
  { rewrite E1. unfold unlinked, backed_up in *. sib_entries. split_and!; [done..|].
    destruct previous; [by left|done]. }
  assert (at_ (nodes w1) name = None) as Hn1 by (rewrite E1; by sib_entries).
  change (pending_file (name :: dir)) with (new_ :: dir).
  do 2 wp_step. eapply wp_mono; [apply (rename_file_spec _ _ _ bytes true); rewrite E1; by sib_entries|..];
    unfold same; [|intros e w2 E2|intros w2 ->; auto].
  - intros ? w2 E2.
    assert (replaced (nodes w2)) as Hr.
    { rewrite E2, E1. unfold replaced, backed_up in *. by sib_entries. }
    do 2 wp_step. eapply wp_same; [apply reads_sync_parent|..]; unfold same; intros;
      try wp_step; try (do 2 right); congruence.
  - wp_step. rewrite <-E2 in Hu1, Hn1. eapply wp_mono; [by apply restore_spec|..]; auto.
    intros ? w3 H3. wp_step. auto.
Qed.

Lemma replace_file_spec w :
  nodes w = m0 ->
  wp (replace_file (name :: dir) bytes previous)
     (fun _ w' => replaced (nodes w'))
     (fun _ w' => untouched (nodes w') \/ unlinked (nodes w'))
     (fun w' => untouched (nodes w') \/ unlinked (nodes w') \/ replaced (nodes w')) w.
Proof.
  intros E0. unfold replace_file.
  wp_step. eapply wp_mono.
  { apply (wp_preserves (fun w' => untouched (nodes w'))); [|rewrite E0; unfold untouched; auto].
    apply create_dir_all_preserves_below. intros m q Hq Hn Hu. eapply untouched_same, Hu;
      unfold entry; apply lookup_insert_ne; intros ->; simpl in Hq; lia. }
  2-3: auto.
  intros ? w1 Hu1. wp_step. change (pending_file (name :: dir)) with (new_ :: dir).
  eapply wp_mono; [apply write_and_sync_spec|..].
  2: intros e w' Ha; left; eapply staged_untouched; [by left|exact Ha|exact Hu1].
  2: intros w' Ha; left; eapply staged_untouched; [by left|exact Ha|exact Hu1].
  intros ? w2 E2.
  assert (untouched (nodes w2)) as Hu2.
  { rewrite E2. eapply untouched_same, Hu1; by sib_entries. }
  wp_step. eapply wp_mono; [apply backup_spec; [done|rewrite E2; by sib_entries]|..]; auto.
  intros ? w3 (Hu3 & Hp3 & Hb3). wp_step.
  change (temp (name :: dir)) with (tmp_ :: dir).
  eapply wp_mono; [apply remove_if_present_spec|..]; unfold same;
    [|by intros ? w' ->; left|by intros w' ->; left].
  intros ? w4 E4. apply promote_spec; rewrite E4; unfold untouched, backed_up in *; sib_entries; tauto.
Qed.
End Replacement.

Lemma entry_crash cut sched dir name w :
  entry dir (nodes (restart cut sched w)) name
  = crash_node cut (name :: dir) <$> entry dir (nodes w) name.
Proof. unfold entry. cbn [restart nodes]. apply lookup_crash_nodes. Qed.

Lemma crash_entry cut sched dir name m w :
  entry dir (nodes w) name = entry dir m name ->
  entry dir (nodes (restart cut sched w)) name = entry dir (crash_nodes cut m) name.
Proof. rewrite entry_crash. unfold entry. intros ->. by rewrite lookup_crash_nodes. Qed.

Lemma partly_crash bytes cut p n : partly bytes n -> partly bytes (crash_node cut p <$> n).
Proof.
  intros [->|(t & [] & -> & Hp)]; [by left|right..].
  - by exists t, true.
  - exists (String.substring 0 (cut p) t), true. split; [done|].
    by eapply prefix_trans, Hp; apply prefix_substring.
Qed.

(** C7: However a replacement ends, after a crash either the main file is as it
    was, and the staged and the backup file too unless the backup already holds the
    previous document in full; or the main file is the new document in full and the
    backup the previous one; or the main file is missing or on its way back to the
    previous document while the backup holds that one in full.  A reported success
    is the second; a reported error leaves nothing of the new document in any file
    a recovery reads. *)
Theorem replace_keeps_a_version (dir : path) (name bytes : string) (previous : option string)
    (w w' : fs_world) (o : outcome io_error unit) (cut : path -> nat) (schedule : list fault)
    (run : replace_file (name :: dir) bytes previous w = (o, w')) :
  let before := entry dir (crash_nodes cut (nodes w)) in
  let after := entry dir (nodes (restart cut schedule w')) in
  let tmp := name +:+ ".tmp" in
  let bak := name +:+ ".bak" in
  let backed_up :=
    match previous with
    | Some p => after bak = Some (File p true)
    | None => after bak = before bak
    end in
  let as_before :=
    after name = before name /\
    (after tmp = before tmp /\ after bak = before bak \/
     backed_up /\ (after tmp = before tmp \/ after tmp = None)) in
  let replaced := after name = Some (File bytes true) /\ after tmp = None /\ backed_up in
  let restoring :=
    match previous with Some p => partly p (after name) | None => after name = None end /\
    after tmp = None /\ backed_up in
  match o with
  | Ok _ => replaced
  | Err _ => as_before \/ restoring
  | Halt _ => as_before \/ restoring \/ replaced
  end.
Proof.
  intros before after tmp bak backed as_before done_ restoring.
  pose proof (replace_file_spec dir name bytes previous (nodes w) w eq_refl) as H.
  unfold wp in H. rewrite run in H.
  assert (backed_up dir name previous (nodes w) (nodes w') -> backed) as Hb.
  { unfold backed_up, backed, bak, after, before. destruct previous as [p|]; intros E.
    - by rewrite entry_crash, E.
    - by apply crash_entry. }
  assert (untouched dir name previous (nodes w) (nodes w') -> as_before) as Hu.
  { intros (Hn & Hr). split; [by apply crash_entry|].
    destruct Hr as [(Ht & Hk)|(Hk & Ht)]; [left; split; by apply crash_entry|right].
    split; [auto|]. destruct Ht as [E|E]; [left; by apply crash_entry|right].
    unfold after, tmp. by rewrite entry_crash, E. }
  assert (unlinked dir name previous (nodes w) (nodes w') -> restoring) as Hl.
  { intros (Ht & Hk & Hn). unfold restoring, after, tmp. rewrite !entry_crash, Ht.
    split_and!; [|done|auto]. destruct previous as [p|]; [by apply partly_crash|by rewrite Hn]. }
  assert (replaced dir name bytes previous (nodes w) (nodes w') -> done_) as Hr.
  { intros (E & Ht & Hk). unfold done_, after, tmp. rewrite !entry_crash, E, Ht. auto. }
  destruct o as [[]|e|h]; naive_solver.
Qed.
