(* ===== verification/StrategyRun.v ===== *)
(** plugin/strategy/execution.rs, the part that decides about one run: which
    action of the guest is admitted, how it is committed to the record, and how
    the answer of the exchange settles it. *)
From stdpp Require Import gmap strings.
From S2P Require Import Prelude RustStr External Models OrderSubmission Workflow StrategyTypes StrategyStore.

(** ** Placements *)

Definition placement (order : PlaceProposal) (id : string) : PlaceOrderRequest :=
  {| r_symbol := pp_symbol order; r_side := pp_side order; r_order_type := pp_order_type order;
     r_qty := pp_qty order; r_position_idx := pp_position_idx order; r_price := pp_price order;
     r_time_in_force := Some (pp_time_in_force order); r_order_link_id := Some id;
     r_reduce_only := Some (pp_reduce_only order); r_protection := None |}.

Definition with_tif_protection (tif : string) (protection : option OrderProtection)
    (r : PlaceOrderRequest) : PlaceOrderRequest :=
  {| r_symbol := r_symbol r; r_side := r_side r; r_order_type := r_order_type r;
     r_qty := r_qty r; r_position_idx := r_position_idx r; r_price := r_price r;
     r_time_in_force := Some tif; r_order_link_id := r_order_link_id r;
     r_reduce_only := r_reduce_only r; r_protection := protection |}.

(** Any other time in force is [unreachable!]. *)
Definition tif_long (tif : string) : outcome AppError string :=
  if tif ==s "GTC" then Ok "GoodTillCancel"
  else if tif ==s "IOC" then Ok "ImmediateOrCancel"
  else if tif ==s "FOK" then Ok "FillOrKill"
  else Halt Panicked.

Definition canonical_placement (order : PlaceProposal) (id : string)
    (protection : option OrderProtection) : outcome AppError PlaceOrderRequest :=
  let? tif := tif_long (pp_time_in_force order) in
  Ok (with_tif_protection tif protection (placement order id)).

(** ** Rejections and answers *)

Definition known_rejection (f : AppError) : bool :=
  is_certain_submission_failure f
  || match f with
     | OrderSubmissionRejected _ | OrderSubmissionBlocked _ | Risk _ => true
     | Notified code _ _ _ => one_of code ["RISK_ORDER_BLOCKED"; "ORDER_REJECTED"]
     | _ => false
     end.

Inductive StrategyMutationResponse :=
| ROrder (order : Order)
| RAcknowledgement (ack : OrderAcknowledgement).

Section Decisions.
Context `{DecimalLib}.

(** [a.ok() == b.ok()] on two decimals. *)
Definition same_number (a b : option Dec) : bool :=
  match a, b with
  | Some x, Some y => dec_eqb x y
  | None, None => true
  | _, _ => false
  end.

Definition same_quantity (a b : string) : bool :=
  same_number (ok_of (quantity a)) (ok_of (quantity b)).

Definition matches_placement (p : PendingAction) (order : PlaceProposal) (o : Order) : bool :=
  is_ok (validate_order o (pp_symbol order))
  && bool_decide (o_order_link_id o = pa_submission_id p)
  && (o_side o ==s pp_side order) && (o_order_type o ==s pp_order_type order)
  && same_quantity (o_qty o) (pp_qty order)
  && ((pp_order_type order !=s "Limit")
      || same_number (dec_from_str (o_price o))
           (match pp_price order with Some price => dec_from_str price | None => None end)).

Definition matches_response (p : PendingAction) (o : Order) : bool :=
  match pa_action p with
  | APlaceOrder order | APlaceProtectedOrder order _ => matches_placement p order o
  | ACancelOrder order =>
      (o_symbol o ==s cp_symbol order) && (o_order_id o ==s cp_order_id order)
      && bounded_id (o_order_id o)
  | AAmendOrder order =>
      (o_symbol o ==s ap_symbol order) && (o_order_id o ==s ap_order_id order)
      && is_none (pa_submission_id p) && bounded_id (o_order_id o)
      && same_quantity (o_price o) (ap_price order) && same_quantity (o_qty o) (ap_qty order)
  | _ => false
  end.

(** ** Admission of the guest's action *)

(** The run's total after spending [qty]. *)
Definition total_with (v : StrategyRunView) (qty : Dec) : outcome AppError Dec :=
  let? total := ok_or limit_reached (dec_from_str_exact (v_total_submitted_qty v)) in
  ok_or limit_reached (dec_checked_add total qty).

(** [qty > quantity(max_order_qty)? || total > quantity(max_total_qty)?]. *)
Definition over_limits (p : StrategyPolicy) (qty total : Dec) : outcome AppError bool :=
  let? max_order := quantity (sp_max_order_qty p) in
  if dec_ltb max_order qty then Ok true
  else
    let? max_total := quantity (max_total_qty p) in
    Ok (dec_ltb max_total total).

Definition admit_place (order : PlaceProposal) (v : StrategyRunView)
    : outcome AppError StrategyAction :=
  let? order := or_code strategy_invalid_output
                  (validate_place order (v_symbol v) (v_capabilities v)) in
  let? qty := quantity (pp_qty order) in
  let? total := total_with v qty in
  let? over := over_limits (v_policy v) qty total in
  let? _ := guard (over || (sp_reduce_only (v_policy v) && negb (pp_reduce_only order)))
              limit_reached in
  Ok (APlaceOrder order).

Definition admit_cancel (order : CancelProposal) (r : RunRecord) (snapshot : Snapshot)
    : outcome AppError StrategyAction :=
  let? _ := guard (negb (is_some_and (fun o => negb (cancel_requested o))
                           (owned r !! cp_order_id order))) strategy_invalid_output in
  let? order := or_code strategy_invalid_output
                  (validate_cancel order (v_symbol (view r)) (v_capabilities (view r))
                     (sn_orders snapshot)) in
  Ok (ACancelOrder order).

Definition protection_reference (protection : OrderProtection) (q : Quote) : string :=
  if trigger_by protection ==s "LastPrice" then q_last_price q else q_mark_price q.

Definition admit_protected (order : PlaceProposal) (protection : OrderProtection)
    (v : StrategyRunView) (snapshot : Snapshot) : outcome AppError StrategyAction :=
  let? _ := guard (negb (has (v_capabilities v) "trade.protect")
                   || sp_reduce_only (v_policy v) || pp_reduce_only order)
              strategy_invalid_output in
  let? order := or_code strategy_invalid_output
                  (validate_place order (v_symbol v) (v_capabilities v)) in
  let? market := ok_or strategy_invalid_output (sn_market snapshot) in
  let? protection := OrderProtection_validate (pp_side order) (pp_price order)
                       (protection_reference protection (ms_ticker market)) protection in
  let? qty := quantity (pp_qty order) in
  let? total := total_with v qty in
  let? over := over_limits (v_policy v) qty total in
  let? _ := guard over limit_reached in
  Ok (APlaceProtectedOrder order protection).

(** The one order of the snapshot with that identifier. *)
Definition visible_order (snapshot : Snapshot) (order_id : string) : outcome AppError Order :=
  let? orders := ok_or strategy_invalid_output (sn_orders snapshot) in
  match List.filter (fun o => o_order_id o ==s order_id) (items orders) with
  | [target] => Ok target
  | _ => Err strategy_invalid_output
  end.

Definition admit_amend (order : AmendProposal) (r : RunRecord) (snapshot : Snapshot)
    : outcome AppError StrategyAction :=
  let v := view r in
  let? _ := guard (negb (has (v_capabilities v) "trade.amend")) strategy_invalid_output in
  let? order := AmendProposal_validate (v_symbol v) order in
  let? original := ok_or strategy_invalid_output (amend_original r (ap_order_id order)) in
  let? _ := guard (r_order_type original !=s "Limit") strategy_invalid_output in
  let? _ := validate_amend_entry original (ap_price order) in
  let? target := visible_order snapshot (ap_order_id order) in
  let? _ := guard (bool_decide (o_order_link_id target <> r_order_link_id original)
                   || (o_side target !=s r_side original) || (o_order_type target !=s "Limit")
                   || negb (is_working (o_status target))) strategy_invalid_output in
  let? new_qty := quantity (ap_qty order) in
  let? current_qty := quantity (o_qty target) in
  let? filled := ok_or strategy_invalid_output (dec_from_str_exact (o_filled_qty target)) in
  let? new_price := quantity (ap_price order) in
  let? current_price := quantity (o_price target) in
  let? total := total_with v new_qty in
  let? _ := guard (dec_ltb current_qty new_qty || dec_leb new_qty filled
                   || (dec_eqb new_qty current_qty && dec_eqb new_price current_price))
              strategy_invalid_output in
  let? over := over_limits (v_policy v) new_qty total in
  let? _ := guard over strategy_invalid_output in
  Ok (AAmendOrder order).

Definition validate_action (action : StrategyAction) (r : RunRecord) (snapshot : Snapshot)
    : outcome AppError StrategyAction :=
  match action with
  | ANone | AStop => Ok action
  | _ =>
      let? _ := guard (max_actions (v_policy (view r)) <=? v_actions_submitted (view r))
                  limit_reached in
      match action with
      | APlaceOrder order => admit_place order (view r)
      | ACancelOrder order => admit_cancel order r snapshot
      | APlaceProtectedOrder order protection =>
          admit_protected order protection (view r) snapshot
      | AAmendOrder order => admit_amend order r snapshot
      | ANone | AStop => Ok action
      end
  end.
End Decisions.

(** ** Field updates *)

Definition view_with (v : StrategyRunView) (status : StrategyStatus) (reason : option string)
    (sequence : string) (actions : Z) (total message : string)
    (receipt : option StrategyReceipt) : StrategyRunView :=
  {| v_schema_version := v_schema_version v; v_run_id := v_run_id v;
     v_request_id := v_request_id v; v_plugin_id := v_plugin_id v;
     v_contribution_id := v_contribution_id v; v_account := v_account v;
     v_symbol := v_symbol v; v_status := status; v_reason := reason; v_policy := v_policy v;
     v_capabilities := v_capabilities v; v_input_json := v_input_json v;
     v_started_at_ms := v_started_at_ms v; v_expires_at_ms := v_expires_at_ms v;
     v_sequence := sequence; v_actions_submitted := actions; v_total_submitted_qty := total;
     v_last_message := message; v_last_receipt := receipt |}.

Definition set_status (status : StrategyStatus) (reason : option string) (v : StrategyRunView)
    : StrategyRunView :=
  view_with v status reason (v_sequence v) (v_actions_submitted v) (v_total_submitted_qty v)
    (v_last_message v) (v_last_receipt v).

Definition run_with (r : RunRecord) (v : StrategyRunView) (st : json)
    (own : gmap string OwnedOrder) (p : option PendingAction) (observed : string) : RunRecord :=
  {| view := v; fingerprint := fingerprint r; scope := scope r; state := st; owned := own;
     pending_action := p; last_observed_at_ms := observed |}.

Definition set_view (v : StrategyRunView) (r : RunRecord) : RunRecord :=
  run_with r v (state r) (owned r) (pending_action r) (last_observed_at_ms r).

Definition mark_run (status : StrategyStatus) (reason : option string) (r : RunRecord)
    : RunRecord := set_view (set_status status reason (view r)) r.

Definition set_pending (p : option PendingAction) (r : RunRecord) : RunRecord :=
  run_with r (view r) (state r) (owned r) p (last_observed_at_ms r).

Definition set_observed (text : string) (r : RunRecord) : RunRecord :=
  run_with r (view r) (state r) (owned r) (pending_action r) text.

Definition request_cancel (o : OwnedOrder) : OwnedOrder :=
  {| oo_submission_id := oo_submission_id o; cancel_requested := true;
     placement_of := placement_of o |}.

(** ** Committing an admitted action to the record *)

Section Commit.
Context `{DecimalLib}.

(** What the action spends: the new total, the submission it gets, and the
    owned orders it marks. *)
Definition spend (action : StrategyAction) (new_id : string) (r : RunRecord)
    : outcome AppError (string * option string * gmap string OwnedOrder) :=
  let spent qty :=
    let? total := ok_or limit_reached (dec_from_str_exact (v_total_submitted_qty (view r))) in
    let? qty := quantity qty in
    let? total := ok_or limit_reached (dec_checked_add total qty) in
    Ok (dec_to_string (dec_normalize total)) in
  match action with
  | APlaceOrder order | APlaceProtectedOrder order _ =>
      let? total := spent (pp_qty order) in
      Ok (total, Some new_id, owned r)
  | ACancelOrder order =>
      let? o := ok_or strategy_invalid_output (owned r !! cp_order_id order) in
      Ok (v_total_submitted_qty (view r), None,
          <[cp_order_id order := request_cancel o]> (owned r))
  | AAmendOrder order =>
      let? total := spent (ap_qty order) in
      Ok (total, None, owned r)
  | ANone | AStop => Halt Panicked
  end.

(** A pass that submits nothing keeps or completes the run. *)
Definition commit_quiet (keep : bool) (sequence now_ms : string) (output : StrategyOutput)
    (r : RunRecord) : RunRecord :=
  let v := view r in
  run_with r
    (view_with v (if keep then v_status v else Completed) (if keep then v_reason v else None)
       sequence (v_actions_submitted v) (v_total_submitted_qty v) (so_message output)
       (v_last_receipt v))
    (so_state output) (owned r) (pending_action r) now_ms.

Definition commit_submission (action : StrategyAction) (new_id sequence now_ms : string)
    (output : StrategyOutput) (r : RunRecord) : outcome AppError (RunRecord * PendingAction) :=
  let v := view r in
  let? actions := ok_or limit_reached (u32_checked_add (v_actions_submitted v) 1) in
  let? (total, submission_id, own) := spend action new_id r in
  let pending := {| pa_sequence := sequence; pa_action := action;
                    pa_submission_id := submission_id; pa_state := so_state output;
                    pa_message := so_message output |} in
  Ok (run_with r
        (view_with v (v_status v) (v_reason v) sequence actions total (v_last_message v)
           (v_last_receipt v))
        (state r) own (Some pending) now_ms, pending).

(** ** Settling the answer of the exchange *)

Definition receipt_kind (action : StrategyAction) : outcome AppError ReceiptKind :=
  match action with
  | APlaceOrder _ => Ok KPlaceOrder
  | APlaceProtectedOrder _ _ => Ok KPlaceProtectedOrder
  | ACancelOrder _ => Ok KCancelOrder
  | AAmendOrder _ => Ok KAmendOrder
  | ANone | AStop => Halt Panicked
  end.

(** The link of the order an amendment changes. *)
Definition original_link (p : PendingAction) (r : RunRecord) : option string :=
  match pa_action p with
  | AAmendOrder order =>
      match owned r !! ap_order_id order with
      | Some o => match placement_of o with Some p => r_order_link_id p | None => None end
      | None => None
      end
  | _ => None
  end.

(** The status of the receipt, the accepted order and its identifier. *)
Definition classify (p : PendingAction) (link : option string)
    (response : AppError + StrategyMutationResponse)
    : ReceiptStatus * option Order * option string :=
  match response with
  | inr (ROrder order) =>
      if matches_response p order then (RAccepted, Some order, Some (o_order_id order))
      else (RUnknown, None, None)
  | inr (RAcknowledgement ack) =>
      match pa_action p with
      | AAmendOrder order =>
          if (ack_order_id ack ==s ap_order_id order)
             && match ack_order_link_id ack with
                | None => true
                | Some l => bool_decide (Some l = link)
                end
          then (RAccepted, None, Some (ack_order_id ack))
          else (RUnknown, None, None)
      | _ => (RUnknown, None, None)
      end
  | inl failure => if known_rejection failure then (RRejected, None, None)
                   else (RUnknown, None, None)
  end.

Definition settled_order_id (action : StrategyAction) (accepted : option string) : option string :=
  match accepted with
  | Some id => Some id
  | None => match action with
            | ACancelOrder order => Some (cp_order_id order)
            | AAmendOrder order => Some (ap_order_id order)
            | _ => None
            end
  end.

(** The owned orders after an accepted order of a submission. *)
Definition own_accepted (p : PendingAction) (accepted : option Order)
    (own : gmap string OwnedOrder) : outcome AppError (gmap string OwnedOrder) :=
  match accepted, pa_submission_id p with
  | Some order, Some submission_id =>
      if is_some_and (fun o => oo_submission_id o !=s submission_id) (own !! o_order_id order)
      then Err (strategy_error "plugin_strategy_recovery_required")
      else
        let? placed :=
          match pa_action p with
          | APlaceOrder order =>
              let? c := canonical_placement order submission_id None in Ok (Some c)
          | APlaceProtectedOrder order protection =>
              let? c := canonical_placement order submission_id (Some protection) in Ok (Some c)
          | _ => Ok None
          end in
        Ok (<[o_order_id order := {| oo_submission_id := submission_id;
                                     cancel_requested := false;
                                     placement_of := placed |}]> own)
  | _, _ => Ok own
  end.

Definition settle_run (p : PendingAction) (kind : ReceiptKind) (status : ReceiptStatus)
    (accepted : option Order) (accepted_id : option string) (r : RunRecord)
    : outcome AppError RunRecord :=
  let v := view r in
  let receipt := {| rc_sequence := pa_sequence p; rc_kind := kind; rc_status := status;
                    rc_submission_id := pa_submission_id p;
                    rc_order_id := settled_order_id (pa_action p) accepted_id;
                    rc_error_code := receipt_error_code status |} in
  let? own := own_accepted p accepted (owned r) in
  let unknown := bool_decide (status = RUnknown) in
  let closes := bool_decide (status = RRejected)
                || bool_decide (kind = KCancelOrder) || bool_decide (kind = KAmendOrder) in
  Ok (run_with r
        (view_with v (if unknown then RecoveryRequired else v_status v)
           (if unknown then Some "plugin_strategy_recovery_required" else v_reason v)
           (v_sequence v) (v_actions_submitted v) (v_total_submitted_qty v) (pa_message p)
           (Some receipt))
        (pa_state p) own
        (if unknown then pending_action r
         else if closes then None else pending_action r)
        (last_observed_at_ms r)).
End Commit.
