(* ===== verification/Supervisor.v ===== *)
(** plugin/strategy/supervisor.rs: the shared state of the strategy engine and
    its critical sections.  Every definition that runs under the [inner] mutex
    of the source is one atomic operation here; what the source reads before
    (the clock, the catalog, the account) is an argument. *)
From stdpp Require Import gmap strings.
From S2P Require Import Prelude RustStr External Models Workflow StrategyTypes StrategyStore StrategyRun.

Inductive PluginSource := BuiltIn | LocalDeclarative.
#[export] Instance PluginSource_eq_dec : EqDecision PluginSource.
Proof. solve_decision. Defined.

Record PluginIdentity := {
  pi_id : string;
  pi_source : PluginSource;
  pi_publisher_id : string;
  pi_approval_fingerprint : string;
}.
#[export] Instance PluginIdentity_eq_dec : EqDecision PluginIdentity.
Proof. solve_decision. Defined.

Record CapturedStrategy := {
  cs_params : PluginStrategyParams;
  cs_identity : PluginIdentity;
  cs_requested : list string;
}.

Record Ticket := {
  t_request : AuthorityRequest;
  t_captured : CapturedStrategy;
  t_authority : AccountAuthority;
  t_scope : string;
  t_epoch : Z;
  t_admission : Z;
  t_deadline : Z;
}.

(** A worker's shared cell.  [l_intent], [l_last_wall], [l_cancel] and
    [l_signal] change; the other fields are fixed at the start.  Instants are
    milliseconds of the monotonic clock. *)
Record Live := {
  l_request : AuthorityRequest;
  l_captured : CapturedStrategy;
  l_authority : AccountAuthority;
  l_epoch : Z;
  l_intent : Z;
  l_cancel : option bool;
  l_signal : bool;
  l_deadline : Z;
  l_last_wall : Z;
  l_clock_anchor : Z;
  l_wall_anchor_ms : Z;
}.

(** [Live::revoke]: [fetch_max] on the intent, the flag of a running
    computation, a permit for the waiting worker. *)
Definition revoke_live (stop : bool) (l : Live) : Live :=
  {| l_request := l_request l; l_captured := l_captured l; l_authority := l_authority l;
     l_epoch := l_epoch l;
     l_intent := Z.max (l_intent l) (if stop then 2 else 1);
     l_cancel := match l_cancel l with Some _ => Some true | None => None end;
     l_signal := true; l_deadline := l_deadline l; l_last_wall := l_last_wall l;
     l_clock_anchor := l_clock_anchor l; l_wall_anchor_ms := l_wall_anchor_ms l |}.

Definition admitted (l : Live) : bool := l_intent l =? 0.

Definition see_wall (now : Z) (l : Live) : Live :=
  {| l_request := l_request l; l_captured := l_captured l; l_authority := l_authority l;
     l_epoch := l_epoch l; l_intent := l_intent l; l_cancel := l_cancel l;
     l_signal := l_signal l; l_deadline := l_deadline l;
     l_last_wall := Z.max (l_last_wall l) now;
     l_clock_anchor := l_clock_anchor l; l_wall_anchor_ms := l_wall_anchor_ms l |}.

(** The supervisor over a store [X].  [cells] is the heap of the shared [Live]
    cells, which [live] and [controls] both point into. *)
Record Supervisor {X : Type} := {
  s_document : StrategyDocument;
  s_tickets : gmap string Ticket;
  s_live : gmap string nat;
  s_unavailable : bool;
  s_controls : gmap string nat;
  s_cells : gmap nat Live;
  s_admission : Z;
  s_closed : bool;
  s_workers : Z;
  s_store : X;
}.
Arguments Supervisor : clear implicits.

Section State.
Context {X : Type}.

Definition with_document (d : StrategyDocument) (s : Supervisor X) : Supervisor X :=
  {| s_document := d; s_tickets := s_tickets s; s_live := s_live s;
     s_unavailable := s_unavailable s; s_controls := s_controls s; s_cells := s_cells s;
     s_admission := s_admission s; s_closed := s_closed s; s_workers := s_workers s;
     s_store := s_store s |}.

Definition with_tickets (t : gmap string Ticket) (s : Supervisor X) : Supervisor X :=
  {| s_document := s_document s; s_tickets := t; s_live := s_live s;
     s_unavailable := s_unavailable s; s_controls := s_controls s; s_cells := s_cells s;
     s_admission := s_admission s; s_closed := s_closed s; s_workers := s_workers s;
     s_store := s_store s |}.

Definition with_cells (c : gmap nat Live) (s : Supervisor X) : Supervisor X :=
  {| s_document := s_document s; s_tickets := s_tickets s; s_live := s_live s;
     s_unavailable := s_unavailable s; s_controls := s_controls s; s_cells := c;
     s_admission := s_admission s; s_closed := s_closed s; s_workers := s_workers s;
     s_store := s_store s |}.

Definition with_admission (a : Z) (closed : bool) (s : Supervisor X) : Supervisor X :=
  {| s_document := s_document s; s_tickets := s_tickets s; s_live := s_live s;
     s_unavailable := s_unavailable s; s_controls := s_controls s; s_cells := s_cells s;
     s_admission := a; s_closed := closed; s_workers := s_workers s; s_store := s_store s |}.

Definition with_workers (live controls : gmap string nat) (workers : Z) (s : Supervisor X)
    : Supervisor X :=
  {| s_document := s_document s; s_tickets := s_tickets s; s_live := live;
     s_unavailable := s_unavailable s; s_controls := controls; s_cells := s_cells s;
     s_admission := s_admission s; s_closed := s_closed s; s_workers := workers;
     s_store := s_store s |}.

Definition with_store (x : X) (s : Supervisor X) : Supervisor X :=
  {| s_document := s_document s; s_tickets := s_tickets s; s_live := s_live s;
     s_unavailable := s_unavailable s; s_controls := s_controls s; s_cells := s_cells s;
     s_admission := s_admission s; s_closed := s_closed s; s_workers := s_workers s;
     s_store := x |}.

Definition set_unavailable (s : Supervisor X) : Supervisor X :=
  {| s_document := s_document s; s_tickets := s_tickets s; s_live := s_live s;
     s_unavailable := true; s_controls := s_controls s; s_cells := s_cells s;
     s_admission := s_admission s; s_closed := s_closed s; s_workers := s_workers s;
     s_store := s_store s |}.

Definition get_sup {E} : M (Supervisor X) E (Supervisor X) := fun s => (Ok s, s).
Definition modify {E} (f : Supervisor X -> Supervisor X) : M (Supervisor X) E unit :=
  fun s => (Ok tt, f s).

(** Revoking every cell a map of pointers reaches. *)
Definition revoke_cells (stop : bool) (pointers : gmap string nat) (cells : gmap nat Live)
    : gmap nat Live :=
  map_imap (fun p l => Some (if bool_decide (p ∈ map snd (map_to_list pointers))
                             then revoke_live stop l else l)) cells.

Definition run_id_of (r : RunRecord) : string := v_run_id (view r).

Fixpoint find_run (id : string) (runs : list RunRecord) : option RunRecord :=
  match runs with
  | [] => None
  | r :: rest => if run_id_of r ==s id then Some r else find_run id rest
  end.

(** [iter_mut().find(..)]: the first run of that identifier is changed. *)
Fixpoint update_run (id : string) (f : RunRecord -> RunRecord) (runs : list RunRecord)
    : list RunRecord :=
  match runs with
  | [] => []
  | r :: rest => if run_id_of r ==s id then f r :: rest else r :: update_run id f rest
  end.

Definition with_runs (runs : list RunRecord) (d : StrategyDocument) : StrategyDocument :=
  {| d_schema_version := d_schema_version d; d_revision := d_revision d; d_runs := runs |}.
Definition with_revision (revision : string) (d : StrategyDocument) : StrategyDocument :=
  {| d_schema_version := d_schema_version d; d_revision := revision; d_runs := d_runs d |}.
End State.

(** ** Construction *)

Section Startup.
Context `{DecimalLib} `{Codec json} `{UuidLib} {X : Type} `{StrategyStore X}.

(** A run of the loaded document: an unresolved intent asks for recovery, an
    interrupted one is paused. *)
Definition restart_run (r : RunRecord) : RunRecord :=
  if is_some (pending_action r)
  then mark_run RecoveryRequired (Some "plugin_strategy_recovery_required") r
  else match v_status (view r) with
       | Running | Stopping | RecoveryRequired =>
           mark_run Paused (Some "plugin_strategy_restarted") r
       | _ => r
       end.

(** [StrategySupervisor::new]. *)
Definition new_supervisor (x : X) : Supervisor X :=
  let '(loaded, x) := store_load x in
  let loaded := let? d := loaded in let? _ := StrategyDocument_validate d in Ok d in
  let document := match loaded with Ok d => d | _ => default_document end in
  {| s_document := with_runs (map restart_run (d_runs document)) document;
     s_tickets := ∅; s_live := ∅; s_unavailable := negb (is_ok loaded); s_controls := ∅;
     s_cells := ∅; s_admission := 0; s_closed := false; s_workers := 0; s_store := x |}.
End Startup.

(** ** Saving *)

Section Save.
Context {X : Type} `{StrategyStore X}.

Definition ready : M (Supervisor X) AppError unit :=
  let* s := get_sup in
  mlift (guard (s_unavailable s) storage_unavailable).

Definition admission_epoch : M (Supervisor X) AppError Z :=
  let* s := get_sup in
  if s_closed s || (s_admission s =? u64_max)
  then mfail (strategy_error "plugin_strategy_unavailable")
  else mret (s_admission s).

(** The wall time a live run has certainly reached. *)
Definition floor_run (s : Supervisor X) (wall mono : Z) (r : RunRecord)
    : outcome AppError RunRecord :=
  match s_live s !! run_id_of r with
  | None => Ok r
  | Some p =>
      match s_cells s !! p with
      | None => Ok r
      | Some l =>
          let floor := u64_saturating_add (l_wall_anchor_ms l) (mono - l_clock_anchor l) in
          let? observed := counter (last_observed_at_ms r) in
          Ok (set_observed (u64_to_string (Z.max (Z.max observed wall) floor)) r)
      end
  end.

Fixpoint floor_runs (s : Supervisor X) (wall mono : Z) (runs : list RunRecord)
    : outcome AppError (list RunRecord) :=
  match runs with
  | [] => Ok []
  | r :: rest =>
      let? r := floor_run s wall mono r in
      let? rest := floor_runs s wall mono rest in
      Ok (r :: rest)
  end.

(** The state a run is shown in after the store failed. *)
Definition fault_run (r : RunRecord) : RunRecord :=
  mark_run (if is_some (pending_action r) then RecoveryRequired else Faulted)
    (Some "plugin_strategy_storage_unavailable") r.

(** [inner.unavailable || self.store.save(&next).is_err()]. *)
Definition try_store (next : StrategyDocument) : M (Supervisor X) AppError bool :=
  fun s =>
    if s_unavailable s then (Ok false, s)
    else
      match store_save next (s_store s) with
      | (Ok _, x) => (Ok true, with_store x s)
      | (Err _, x) => (Ok false, with_store x s)
      | (Halt h, x) => (Halt h, with_store x s)
      end.

Definition fail_closed (next : StrategyDocument) (s : Supervisor X) : Supervisor X :=
  with_document (with_runs (map fault_run (d_runs next)) next)
    (with_cells (revoke_cells false (s_live s) (s_cells s))
       (with_tickets ∅ (set_unavailable s))).

(** [StrategySupervisor::save]. *)
Definition save (wall mono : Z) (next : StrategyDocument) : M (Supervisor X) AppError unit :=
  let* s := get_sup in
  let* runs := mlift (floor_runs s wall mono (d_runs next)) in
  let* revision := mlift (counter (d_revision (s_document s))) in
  let* revision := mlift (ok_or storage_unavailable (u64_checked_add revision 1)) in
  let next := with_revision (u64_to_string revision) (with_runs runs next) in
  let* saved := try_store next in
  if saved then modify (with_document next)
  else modify (fail_closed next) ;;; mfail storage_unavailable.

Definition list_runs : M (Supervisor X) AppError (list StrategyRunView) :=
  let* s := get_sup in
  if s_unavailable s && bool_decide (d_runs (s_document s) = [])
  then mfail storage_unavailable
  else mret (map view (d_runs (s_document s))).

Definition state_of (id : string) : M (Supervisor X) AppError RunRecord :=
  let* s := get_sup in
  mlift (ok_or stale (find_run id (d_runs (s_document s)))).

(** [StrategySupervisor::mark]: errors are ignored. *)
Definition mark (wall mono : Z) (id : string) (status : StrategyStatus) (reason : string)
    : M (Supervisor X) AppError unit :=
  let* s := get_sup in
  match find_run id (d_runs (s_document s)) with
  | None => mret tt
  | Some _ =>
      let next := with_runs (update_run id (mark_run status (Some reason))
                               (d_runs (s_document s))) (s_document s) in
      let* _ := @mtry _ _ AppError _ (save wall mono next) in
      mret tt
  end.
End Save.

(** ** Tickets and starts *)

Section Start.
Context `{DecimalLib} `{Codec json} `{UuidLib} {X : Type} `{StrategyStore X}.

Definition unavailable_error : AppError := strategy_error "plugin_strategy_unavailable".

(** The second half of [access]: everything read in between is in [t], issued
    under the admission epoch the first half saw. *)
Definition issue_ticket (mono : Z) (token : string) (t : Ticket)
    : M (Supervisor X) AppError unit :=
  ready ;;;
  let* admission := admission_epoch in
  mlift (guard (negb (admission =? t_admission t)) stale) ;;;
  let* s := get_sup in
  let tickets := filter (fun e => mono < t_deadline e.2) (s_tickets s) in
  modify (with_tickets tickets) ;;;
  mlift (guard (32 <=? Z.of_nat (size tickets)) (strategy_error "plugin_strategy_capacity")) ;;;
  modify (with_tickets (<[token := t]> tickets)).

(** [start]: the ticket is taken out before anything else happens. *)
Definition take_ticket (request : StrategyStartRequest) : M (Supervisor X) AppError Ticket :=
  mlift (StrategyStartRequest_validate request) ;;;
  ready ;;;
  let* s := get_sup in
  let* t := mlift (ok_or (strategy_error "plugin_strategy_token_invalid")
                     (s_tickets s !! sr_authorization_token request)) in
  modify (with_tickets (delete (sr_authorization_token request) (s_tickets s))) ;;;
  mret t.

(** The ticket against what the catalog and the account are now. *)
Definition ticket_stale (t : Ticket) (request : StrategyStartRequest) (mono epoch : Z)
    (captured : CapturedStrategy) (authority : AccountAuthority) (scope_now : string) : bool :=
  (t_deadline t <=? mono) || negb (t_epoch t =? epoch)
  || bool_decide (cs_identity captured <> cs_identity (t_captured t))
  || bool_decide (authority <> t_authority t) || (scope_now !=s t_scope t)
  || existsb (fun c => negb (has (cs_requested captured) c)) (sr_capabilities request).

Definition is_live (s : Supervisor X) (r : RunRecord) : bool :=
  is_some (s_live s !! run_id_of r).

(** A run that keeps its account from starting another one. *)
Definition blocks_account (s : Supervisor X) (account : Account) (r : RunRecord) : bool :=
  (is_live s r && (account_id (v_account (view r)) ==s account_id account))
  || (is_some (pending_action r)
      && (account_id (v_account (view r)) ==s account_id account)
      && (environment (v_account (view r)) ==s environment account)).

Definition resumable_status (status : StrategyStatus) : bool :=
  match status with Paused | Stopped | Faulted => true | _ => false end.

(** The conditions under which a stored run may go on. *)
Definition resume_refused (r : RunRecord) (t : Ticket) (request : StrategyStartRequest)
    (captured : CapturedStrategy) (account : Account) (scope_now : string) (now : Z)
    : outcome AppError bool :=
  let v := view r in
  if negb (resumable_status (v_status v)) || is_some (pending_action r)
     || (fingerprint r !=s pi_approval_fingerprint (cs_identity captured))
     || (scope r !=s scope_now)
     || (v_plugin_id v !=s ar_plugin_id (t_request t))
     || (v_contribution_id v !=s ar_contribution_id (t_request t))
     || (account_id (v_account v) !=s account_id account)
     || (environment (v_account v) !=s environment account)
     || (v_symbol v !=s sr_symbol request) || (v_input_json v !=s sr_input_json request)
     || bool_decide (v_capabilities v <> sr_capabilities request)
     || bool_decide (v_policy v <> sr_policy request)
  then Ok true
  else
    let? observed := counter (last_observed_at_ms r) in
    if now <? observed then Ok true
    else
      let? expires := counter (v_expires_at_ms v) in
      Ok ((expires <=? now) || (max_actions (v_policy v) <=? v_actions_submitted v)).

(** The record of a new run. *)
Definition fresh_run (run_id : string) (t : Ticket) (request : StrategyStartRequest)
    (captured : CapturedStrategy) (account : Account) (scope_now : string) (now : Z)
    : outcome AppError RunRecord :=
  let? expires := ok_or invalid_request
                    (u64_checked_add now (max_run_seconds (sr_policy request) * 1000)) in
  Ok {| view :=
          {| v_schema_version := 1; v_run_id := run_id; v_request_id := sr_request_id request;
             v_plugin_id := ar_plugin_id (t_request t);
             v_contribution_id := ar_contribution_id (t_request t); v_account := account;
             v_symbol := sr_symbol request; v_status := Running; v_reason := None;
             v_policy := sr_policy request; v_capabilities := sr_capabilities request;
             v_input_json := sr_input_json request; v_started_at_ms := u64_to_string now;
             v_expires_at_ms := u64_to_string expires; v_sequence := "0";
             v_actions_submitted := 0; v_total_submitted_qty := "0"; v_last_message := "";
             v_last_receipt := None |};
        fingerprint := pi_approval_fingerprint (cs_identity captured); scope := scope_now;
        state := JObject []; owned := ∅; pending_action := None;
        last_observed_at_ms := u64_to_string now |}.

(** The run is bound to its request and to the account of the session. *)
Definition rebind_run (request : StrategyStartRequest) (account : Account) (r : RunRecord)
    : RunRecord :=
  let v := view r in
  set_view
    {| v_schema_version := v_schema_version v; v_run_id := v_run_id v;
       v_request_id := sr_request_id request; v_plugin_id := v_plugin_id v;
       v_contribution_id := v_contribution_id v; v_account := account;
       v_symbol := v_symbol v; v_status := Running; v_reason := None; v_policy := v_policy v;
       v_capabilities := v_capabilities v; v_input_json := v_input_json v;
       v_started_at_ms := v_started_at_ms v; v_expires_at_ms := v_expires_at_ms v;
       v_sequence := v_sequence v; v_actions_submitted := v_actions_submitted v;
       v_total_submitted_qty := v_total_submitted_qty v; v_last_message := v_last_message v;
       v_last_receipt := v_last_receipt v |} r.

(** The runs with the started one, and that one. *)
Definition admit_start (runs : list RunRecord) (run_id : string) (t : Ticket)
    (request : StrategyStartRequest) (captured : CapturedStrategy) (account : Account)
    (scope_now : string) (now : Z) : outcome AppError (list RunRecord * RunRecord) :=
  match sr_resume_run_id request with
  | Some id =>
      let? r := ok_or invalid_request (find_run id runs) in
      let? refused := resume_refused r t request captured account scope_now now in
      let? _ := guard refused stale in
      Ok (update_run id (rebind_run request account) runs, rebind_run request account r)
  | None =>
      let? _ := guard (32 <=? Z.of_nat (length runs))
                  (strategy_error "plugin_strategy_capacity") in
      let? r := fresh_run run_id t request captured account scope_now now in
      Ok ((runs ++ [rebind_run request account r])%list, rebind_run request account r)
  end.

(** A pointer no cell is at. *)
Definition next_pointer (s : Supervisor X) : nat :=
  S (foldr Nat.max 0%nat (map fst (map_to_list (s_cells s)))).

Definition new_live (t : Ticket) (captured : CapturedStrategy) (authority : AccountAuthority)
    (mono remaining now : Z) : Live :=
  {| l_request := t_request t; l_captured := captured; l_authority := authority;
     l_epoch := t_epoch t; l_intent := 0; l_cancel := None; l_signal := false;
     l_deadline := mono + remaining; l_last_wall := now; l_clock_anchor := mono;
     l_wall_anchor_ms := now |}.

(** [start_owned], under its locks.  [admission_later] is what the admission
    counter shows after the save, when the controls are taken: a stop that ran
    during the save has counted it up. *)
Definition start_owned (t : Ticket) (request : StrategyStartRequest)
    (captured : CapturedStrategy) (authority : AccountAuthority) (scope_now run_id : string)
    (epoch mono now wall : Z) (admission_later : option Z)
    : M (Supervisor X) AppError StrategyRunView :=
  let account := au_account authority in
  mlift (guard (ticket_stale t request mono epoch captured authority scope_now) stale) ;;;
  ready ;;;
  let* admission := admission_epoch in
  let* s := get_sup in
  mlift (guard (negb (admission =? t_admission t)
                || existsb (fun r => v_request_id (view r) ==s sr_request_id request)
                     (d_runs (s_document s))
                || (4 <=? Z.of_nat (size (s_live s)))) stale) ;;;
  mlift (guard (existsb (blocks_account s account) (d_runs (s_document s)))
           (strategy_error "plugin_strategy_recovery_required")) ;;;
  let* (runs, started) := mlift (admit_start (d_runs (s_document s)) run_id t request captured
                                   account scope_now now) in
  let id := run_id_of started in
  let* expires := mlift (counter (v_expires_at_ms (view started))) in
  let cell := new_live t captured authority mono (expires - now) now in
  save wall mono (with_runs runs (s_document s)) ;;;
  let* s := get_sup in
  if bool_decide (admission_later <> Some (t_admission t)) then
    let stopped := update_run id (mark_run Stopped (Some "plugin_strategy_stopped"))
                     (d_runs (s_document s)) in
    save wall mono (with_runs stopped (s_document s)) ;;;
    mfail stale
  else
    let p := next_pointer s in
    modify (with_cells (<[p := cell]> (s_cells s))) ;;;
    modify (with_workers (<[id := p]> (s_live s)) (<[id := p]> (s_controls s))
              (s_workers s + 1)) ;;;
    mret (view started).
End Start.

(** ** Control *)

Section Control.
Context {X : Type} `{UuidLib} `{StrategyStore X}.

(** [revoke_intent]: the admission counter goes up, and the workers named are
    revoked through the controls map. *)
Definition revoke_intent (stop : bool) (id : option string) : M (Supervisor X) AppError unit :=
  let* s := get_sup in
  let* admission := mlift (ok_or unavailable_error (u64_checked_add (s_admission s) 1)) in
  modify (with_admission admission (s_closed s)) ;;;
  let* s := get_sup in
  let pointers := match id with
                  | Some id => match s_controls s !! id with
                               | Some p => {[id := p]}
                               | None => ∅
                               end
                  | None => s_controls s
                  end in
  modify (with_cells (revoke_cells stop pointers (s_cells s))).

Definition control_reason (stop : bool) : string :=
  if stop then "plugin_strategy_stopped" else "plugin_strategy_paused".

Definition control_run (live stop : bool) (r : RunRecord) : RunRecord :=
  if live then mark_run Stopping (Some (control_reason stop)) r
  else if is_some (pending_action r)
  then mark_run RecoveryRequired (Some "plugin_strategy_recovery_required") r
  else if bool_decide (v_status (view r) = Completed) then r
  else mark_run (if stop then Stopped else Paused) (Some (control_reason stop)) r.

(** [control], after the intent was revoked. *)
Definition control (id : string) (action : ControlAction) (wall mono : Z)
    : M (Supervisor X) AppError StrategyRunView :=
  mlift (guard (negb (uuid_ok id)) invalid_request) ;;;
  let stop := bool_decide (action = Stop) in
  revoke_intent stop (Some id) ;;;
  modify (with_tickets ∅) ;;;
  let* s := get_sup in
  let* _ := mlift (ok_or invalid_request (find_run id (d_runs (s_document s)))) in
  let runs := update_run id (control_run (is_some (s_live s !! id)) stop)
                (d_runs (s_document s)) in
  save wall mono (with_runs runs (s_document s)) ;;;
  let* r := state_of id in
  mret (view r).

Definition stop_run (live : bool) (r : RunRecord) : RunRecord :=
  if live then mark_run Stopping (Some "plugin_strategy_stopped") r
  else if is_some (pending_action r)
  then mark_run RecoveryRequired (Some "plugin_strategy_recovery_required") r
  else match v_status (view r) with
       | Completed | Stopped => r
       | _ => mark_run Stopped (Some "plugin_strategy_stopped") r
       end.

Definition stop_all (wall mono : Z) : M (Supervisor X) AppError (list StrategyRunView) :=
  revoke_intent true None ;;;
  modify (with_tickets ∅) ;;;
  let* s := get_sup in
  let runs := map (fun r => stop_run (is_live s r) r) (d_runs (s_document s)) in
  (if bool_decide (runs = []) then mret tt
   else save wall mono (with_runs runs (s_document s))) ;;;
  list_runs.

Definition revoke_for_exit : M (Supervisor X) AppError unit :=
  let* s := get_sup in
  modify (with_admission (s_admission s) true) ;;;
  let* _ := @mtry _ _ AppError _ (revoke_intent true None) in
  mret tt.

(** The status a finished worker leaves. *)
Definition finish_run (intent : Z) (r : RunRecord) : RunRecord :=
  let v := view r in
  if is_some (pending_action r) then
    mark_run RecoveryRequired
      (if is_none (v_reason v) || bool_decide (v_reason v = Some "plugin_strategy_stopped")
       then Some "plugin_strategy_recovery_required" else v_reason v) r
  else if (0 <? intent) && negb match v_status v with Faulted | Completed => true | _ => false end
  then mark_run (if intent =? 2 then Stopped else Paused)
         (Some (control_reason (intent =? 2))) r
  else r.

(** [finish], for the worker whose cell is at [p]. *)
Definition finish (wall mono : Z) (id : string) (p : nat) : M (Supervisor X) AppError unit :=
  let* s := get_sup in
  if bool_decide (s_live s !! id <> Some p) then mret tt
  else
    let intent := match s_cells s !! p with Some l => l_intent l | None => 0 end in
    let runs := update_run id (finish_run intent) (d_runs (s_document s)) in
    let* _ := (if s_unavailable s then mret (inr tt)
               else @mtry _ _ AppError _ (save wall mono (with_runs runs (s_document s)))) in
    let* s := get_sup in
    modify (with_workers (delete id (s_live s)) (delete id (s_controls s)) (s_workers s - 1)).
End Control.
