(* ===== verification/Worker.v ===== *)
(** plugin/strategy/execution.rs and recovery.rs: the worker of a run.  A pass
    reads the run, computes, commits the intent, hands the request over and
    settles the answer; between these steps other operations may run, so each
    step is an operation of its own on the supervisor. *)
From stdpp Require Import gmap strings.
From S2P Require Import Prelude RustStr External Models Workflow StrategyTypes StrategyStore StrategyRun Supervisor.

Definition recovery_required : AppError := strategy_error "plugin_strategy_recovery_required".
Definition data_unavailable : AppError := strategy_error "plugin_strategy_data_unavailable".

(** [now.checked_sub(then).is_none_or(|gap| gap > limit)]. *)
Definition gap_over (now before limit : Z) : bool :=
  match u64_checked_sub now before with Some gap => limit <? gap | None => true end.

(** ** Clocks and admission *)

Definition clock_check (v : StrategyRunView) (now mono : Z) (l : Live)
    : outcome string unit * Live :=
  let last := l_last_wall l in
  (let? _ := guard (now <? last) "plugin_strategy_stale" in
   if l_deadline l <=? mono then Err "plugin_strategy_expired"
   else
     let? expires := omap_err (fun _ => "plugin_strategy_stale") (counter (v_expires_at_ms v)) in
     guard (expires <=? now) "plugin_strategy_expired",
   see_wall now l).

(** What the host and the runtime show at a check of the dispatch: the wall
    clock twice, the monotonic clock and the compute epoch. *)
Record Sight := { g_now : Z; g_later : Z; g_mono : Z; g_epoch : outcome AppError Z }.

Section Worker.
Context `{DecimalLib} `{Codec json} `{UuidLib} {X : Type} `{StrategyStore X}.

(** Operations on the cell at [p]; a worker holds its cell, so it exists. *)
Definition on_cell {A} (p : nat) (f : Live -> outcome AppError A * Live)
    : M (Supervisor X) AppError A :=
  fun s =>
    match s_cells s !! p with
    | Some l => let '(o, l) := f l in (o, with_cells (<[p := l]> (s_cells s)) s)
    | None => (Halt Panicked, s)
    end.

Definition check_dispatch (p : nat) (record : RunRecord) (observed observed_wall : Z) (g : Sight)
    : M (Supervisor X) AppError unit :=
  on_cell p (fun l =>
    let '(clock, l) := clock_check (view record) (g_now g) (g_mono g) l in
    (let? _ := omap_err strategy_error clock in
     let? _ := guard ((30000 <? g_mono g - observed) || gap_over (g_later g) observed_wall 30000)
                 data_unavailable in
     let? epoch := g_epoch g in
     guard (negb (epoch =? l_epoch l) || negb (admitted l)) stale, l)).

(** [check_binding]: the catalog and the account still are what was granted. *)
Definition check_binding (p : nat) (epoch : outcome AppError Z)
    (captured : outcome AppError CapturedStrategy) (authority : outcome AppError AccountAuthority)
    (epoch_later : outcome AppError Z) : M (Supervisor X) AppError unit :=
  on_cell p (fun l =>
    (let? _ := guard (negb (admitted l)) stale in
     let? e := epoch in
     let? _ := guard (negb (e =? l_epoch l)) stale in
     let? current := captured in
     let? authority := or_code stale authority in
     let? _ := guard (bool_decide (cs_identity current <> cs_identity (l_captured l))
                      || bool_decide (authority <> l_authority l) || negb (admitted l)) stale in
     let? e := epoch_later in
     guard (negb (e =? l_epoch l)) stale, l)).

(** [*live.cancel.lock() = flag]: the flag of the computation that runs for the
    worker, raised at once when the worker was revoked before. *)
Definition set_cancel (p : nat) (flag : option bool) : M (Supervisor X) AppError unit :=
  on_cell p (fun l =>
    (guard (is_some flag && negb (admitted l)) stale,
     {| l_request := l_request l; l_captured := l_captured l; l_authority := l_authority l;
        l_epoch := l_epoch l; l_intent := l_intent l;
        l_cancel := match flag with
                    | Some _ => Some (negb (admitted l))
                    | None => None
                    end;
        l_signal := l_signal l; l_deadline := l_deadline l; l_last_wall := l_last_wall l;
        l_clock_anchor := l_clock_anchor l; l_wall_anchor_ms := l_wall_anchor_ms l |})).

(** ** The steps of [pass] *)

(** The run as the pass reads it, and the sequence number it will take. *)
Definition pass_read (id : string) : M (Supervisor X) AppError (RunRecord * string) :=
  let* record := state_of id in
  mlift (guard (is_some (pending_action record)) recovery_required) ;;;
  let* sequence := mlift (counter (v_sequence (view record))) in
  let* sequence := mlift (ok_or limit_reached (u64_checked_add sequence 1)) in
  mret (record, u64_to_string sequence).

Definition replace_run (id : string) (r : RunRecord) (d : StrategyDocument) : StrategyDocument :=
  with_runs (update_run id (fun _ => r) (d_runs d)) d.

(** The commit: [inl keep] when nothing is submitted, else the durable intent. *)
Definition pass_commit (id : string) (p : nat) (record : RunRecord) (sequence : string)
    (action : StrategyAction) (output : StrategyOutput) (new_id : string)
    (epoch : outcome AppError Z) (now wall mono : Z)
    : M (Supervisor X) AppError (bool + PendingAction) :=
  ready ;;;
  let* s := get_sup in
  let* epoch := mlift epoch in
  mlift (guard match s_cells s !! p with
               | Some l => negb (admitted l) || negb (epoch =? l_epoch l)
                           || bool_decide (s_live s !! id <> Some p)
               | None => true
               end stale) ;;;
  let* r := mlift (ok_or stale (find_run id (d_runs (s_document s)))) in
  mlift (guard ((v_sequence (view r) !=s v_sequence (view record))
                || is_some (pending_action r)) stale) ;;;
  match action with
  | ANone | AStop =>
      let keep := bool_decide (action = ANone) in
      save wall mono (replace_run id (commit_quiet keep sequence (u64_to_string now) output r)
                        (s_document s)) ;;;
      mret (inl keep)
  | _ =>
      let* (r, pending) := mlift (commit_submission action new_id sequence (u64_to_string now)
                                    output r) in
      save wall mono (replace_run id r (s_document s)) ;;;
      mret (inr pending)
  end.

(** [fresh]: a snapshot that took longer than 30 seconds on either clock is not
    used; [None] is the timeout. *)
Definition fresh (result : option (outcome AppError Snapshot)) (elapsed now wall : Z)
    : outcome AppError Snapshot :=
  match result with
  | Some (Ok snapshot) =>
      let? _ := guard ((30000 <? elapsed) || gap_over now wall 30000) data_unavailable in
      Ok snapshot
  | Some (Halt h) => Halt h
  | _ => Err data_unavailable
  end.

(** The actions that are judged by a second snapshot. *)
Definition needs_fresh (action : StrategyAction) : bool :=
  match action with
  | ACancelOrder _ | AAmendOrder _ | APlaceProtectedOrder _ _ => true
  | _ => false
  end.

(** The decision: the guest's state and message are checked, and its action is
    admitted against the run as it was read and the snapshot it is judged by. *)
Definition pass_decide (record : RunRecord) (output : StrategyOutput) (first : Snapshot)
    (second : outcome AppError Snapshot) : outcome AppError StrategyAction :=
  let? _ := StrategyOutput_validate output in
  let? snapshot := if needs_fresh (so_action output) then second else Ok first in
  validate_action (so_action output) record snapshot.

(** What is handed to the host. *)
Inductive HandOver :=
| PlaceRequest (request : PlaceOrderRequest)
| CancelRequest (request : CancelOrderRequest)
| AmendRequest (request : AmendProposal) (original : PlaceOrderRequest).

Definition with_protection (protection : OrderProtection) (r : PlaceOrderRequest)
    : PlaceOrderRequest :=
  {| r_symbol := r_symbol r; r_side := r_side r; r_order_type := r_order_type r;
     r_qty := r_qty r; r_position_idx := r_position_idx r; r_price := r_price r;
     r_time_in_force := r_time_in_force r; r_order_link_id := r_order_link_id r;
     r_reduce_only := r_reduce_only r; r_protection := Some protection |}.

Definition hand_over (record : RunRecord) (pending : PendingAction) : outcome AppError HandOver :=
  match pa_action pending with
  | APlaceOrder order =>
      let? id := ok_or unavailable_error (pa_submission_id pending) in
      Ok (PlaceRequest (placement order id))
  | APlaceProtectedOrder order protection =>
      let? id := ok_or unavailable_error (pa_submission_id pending) in
      Ok (PlaceRequest (with_protection protection (placement order id)))
  | AAmendOrder order =>
      let? original := ok_or strategy_invalid_output
        (match owned record !! ap_order_id order with
         | Some o => placement_of o
         | None => None
         end) in
      Ok (AmendRequest order original)
  | ACancelOrder order =>
      Ok (CancelRequest {| c_symbol := cp_symbol order; c_order_id := Some (cp_order_id order);
                           c_order_link_id := None |})
  | ANone | AStop => Halt Panicked
  end.

(** ** [account_response] *)

(** Its first critical section: the receipt, durable before anything else. *)
Definition settle_response (id : string) (pending : PendingAction)
    (response : AppError + StrategyMutationResponse) (wall mono : Z)
    : M (Supervisor X) AppError (ReceiptStatus * option Order) :=
  let* link := (match pa_action pending with
                | AAmendOrder _ => let* r := state_of id in mret (original_link pending r)
                | _ => mret None
                end) in
  let '(status, accepted, accepted_id) := classify pending link response in
  let* kind := mlift (receipt_kind (pa_action pending)) in
  let* s := get_sup in
  let* r := mlift (ok_or stale (find_run id (d_runs (s_document s)))) in
  mlift (guard (negb (is_some_and (pending_eqb pending) (pending_action r))) stale) ;;;
  let* r := mlift (settle_run pending kind status accepted accepted_id r) in
  save wall mono (replace_run id r (s_document s)) ;;;
  mret (status, accepted).

(** What the host is asked to acknowledge: the order of a placement. *)
Definition acknowledges (pending : PendingAction) (status : ReceiptStatus)
    (accepted : option Order) : bool :=
  negb (bool_decide (status = RUnknown)) && is_some accepted
  && is_some (pa_submission_id pending)
  && match pa_action pending with
     | APlaceOrder _ | APlaceProtectedOrder _ _ => true
     | _ => false
     end.

(** The second critical section, after the host acknowledged or failed to. *)
Definition conclude (id : string) (pending : PendingAction) (acknowledged : bool)
    (wall mono : Z) : M (Supervisor X) AppError unit :=
  if acknowledged then
    let* s := get_sup in
    let* r := mlift (ok_or stale (find_run id (d_runs (s_document s)))) in
    mlift (guard (negb (is_some_and (pending_eqb pending) (pending_action r))) stale) ;;;
    save wall mono (replace_run id (set_pending None r) (s_document s))
  else mark wall mono id RecoveryRequired "plugin_strategy_ack_failed".

Definition account_response (id : string) (pending : PendingAction)
    (response : AppError + StrategyMutationResponse) (acknowledged : bool) (wall mono : Z)
    : M (Supervisor X) AppError unit :=
  let* (status, accepted) := settle_response id pending response wall mono in
  if acknowledges pending status accepted
  then conclude id pending acknowledged wall mono
  else mret tt.

(** ** The loop *)

(** How a failed pass ends the run: the status and the reason it is marked
    with; [None] when the pass is tried again. *)
Definition failure_mark (failure : AppError) : option (StrategyStatus * string) :=
  match failure with
  | Plugin code _ _ =>
      if code ==s "plugin_strategy_busy" then None
      else
        let code := if one_of code REASONS then code else "plugin_strategy_unavailable" in
        Some (if one_of code ["plugin_strategy_stale"; "plugin_strategy_data_unavailable"]
              then Paused
              else if one_of code ["plugin_strategy_expired"; "plugin_strategy_limit_reached"]
              then Completed else Faulted, code)
  | _ => Some (Faulted, "plugin_strategy_unavailable")
  end.

(** The check at the head of the loop marks an expired run as completed. *)
Definition clock_mark (code : string) : StrategyStatus :=
  if code ==s "plugin_strategy_expired" then Completed else Paused.

(** The scheduling gap after which a pass may not trust its clocks. *)
Definition max_gap (p : StrategyPolicy) : Z := Z.max 30000 (interval_ms p * 3).

Definition missed_schedule (p : StrategyPolicy) (elapsed now wall : Z) : bool :=
  (max_gap p <? elapsed) || gap_over now wall (max_gap p).

(** The event of the next pass: the first one is kept until the guest ran. *)
Definition next_event (initial_callback_pending woken : bool) (event : string) : string :=
  if initial_callback_pending then event else if woken then "update" else "timer".

(** ** recovery.rs *)

Definition is_terminal (status : OrderStatus) : bool :=
  match status with Filled | Cancelled | Rejected => true | _ => false end.

(** The checks of [reconcile_owned] before the host is asked. *)
Definition reconcile_admit (id : string) (authority : AccountAuthority) (scope_now : string)
    : M (Supervisor X) AppError (RunRecord * PendingAction) :=
  ready ;;;
  let* s := get_sup in
  mlift (guard (is_some (s_live s !! id)) (strategy_error "plugin_strategy_busy")) ;;;
  let* record := state_of id in
  let* pending := mlift (ok_or invalid_request (pending_action record)) in
  let account := v_account (view record) in
  mlift (guard ((account_id (au_account authority) !=s account_id account)
                || (environment (au_account authority) !=s environment account)
                || (scope_now !=s scope record)) stale) ;;;
  mret (record, pending).

(** The question to the host, or why there is none. *)
Inductive Reconciliation :=
| AskAmend (order : AmendProposal) (original : PlaceOrderRequest)
| AskProtected (canonical : PlaceOrderRequest)
| AskPlain (submission exchange : option string).

Definition cancelled_order (action : StrategyAction) : option string :=
  match action with ACancelOrder order => Some (cp_order_id order) | _ => None end.

Definition reconcile_question (record : RunRecord) (pending : PendingAction)
    : outcome AppError Reconciliation :=
  match pa_action pending with
  | AAmendOrder order =>
      let? original := ok_or recovery_required
        (match owned record !! ap_order_id order with
         | Some o => placement_of o
         | None => None
         end) in
      Ok (AskAmend order original)
  | APlaceProtectedOrder order protection =>
      let? id := ok_or recovery_required (pa_submission_id pending) in
      let? canonical := canonical_placement order id (Some protection) in
      let? _ := guard (existsb (fun e => (oo_submission_id e.2 ==s id)
                                   && bool_decide (placement_of e.2 <> Some canonical))
                         (map_to_list (owned record))) recovery_required in
      Ok (AskProtected canonical)
  | _ => Ok (AskPlain (pa_submission_id pending) (cancelled_order (pa_action pending)))
  end.

(** The answers that settle the intent; any other leaves it for recovery. *)
Definition reconcile_response (pending : PendingAction)
    (result : outcome AppError (option Order)) : outcome AppError (AppError + StrategyMutationResponse) :=
  match result with
  | Ok (Some order) =>
      if matches_response pending order
         && (is_none (cancelled_order (pa_action pending)) || is_terminal (o_status order))
      then Ok (inr (ROrder order)) else Err recovery_required
  | Err failure =>
      if match pa_action pending with APlaceOrder _ => true | _ => false end
         && known_rejection failure
      then Ok (inl failure) else Err recovery_required
  | _ => Err recovery_required
  end.

(** The end of a reconciliation: a settled run is paused, never resumed. *)
Definition reconcile_conclude (id : string) (wall mono : Z)
    : M (Supervisor X) AppError StrategyRunView :=
  let* record := state_of id in
  (if is_none (pending_action record)
   then mark wall mono id Paused "plugin_strategy_paused" else mret tt) ;;;
  let* record := state_of id in
  mret (view record).
End Worker.
