(* ===== verification/ContractFacts.v ===== *)
(** What the validations of plugin proposals guarantee: canonical texts are
    fixed points, accepted proposals stay accepted, protected orders bracket
    their entry. *)
From Stdlib Require Import Ascii.
From stdpp Require Import gmap strings.
From S2P Require Import Prelude RustStr External Models Workflow StrategyTypes StrategyStore StrategyRun.

#[local] Arguments one_of : simpl never.

(** Run a computation whose steps are known from the hypotheses. *)
Ltac replay :=
  repeat (match goal with
          | Hx : ?l = ?r |- context [?l] => rewrite Hx; clear Hx
          end; simpl guard; simpl obind).

(** ** Strings without a minus sign *)

Definition no_minus (s : string) : bool := forallb (fun b => negb (b =? 45)) (bytes_of s).

Lemma strip_minus_none s : no_minus s = true -> strip_prefix "-" s = None.
Proof.
  destruct s as [|c s]; [done|]. unfold no_minus, bytes_of. intros Hc.
  cbn [strip_prefix]. destruct (Ascii.eqb_spec "-"%char c) as [<-|]; done.
Qed.

(** ** Counters *)

(** A counter is accepted exactly when it is the canonical decimal text of a
    64-bit number, so two counters are equal texts when they are equal numbers. *)
Theorem counter_canonical (s : string) (n : Z) :
  counter s = Ok n <-> in_u64 n /\ s = u64_to_string n.
Proof.
  unfold counter. split.
  - destruct (parse_u64 s) as [v|] eqn:E; [|done]. simpl.
    destruct (String.eqb_spec (u64_to_string v) s) as [Es|]; [|done].
    intros [= <-]. split; [eauto|done].
  - intros [Hn ->]. rewrite parse_u64_to_string by done. by rewrite String.eqb_refl.
Qed.

Lemma counter_range s n : counter s = Ok n -> in_u64 n.
Proof. by intros [? _]%counter_canonical. Qed.

(** ** Decimals *)

Section DecimalFacts.
Context `{DecimalLaws} `{!DecimalTextLaws}.

Definition canonical_text (d : Dec) : string := dec_to_string (dec_normalize d).

Lemma canonical_chars d (positive : bool) :
  (positive = true -> dec_leb d dec_zero = false) ->
  decimal_chars (canonical_text d) positive = true.
Proof.
  intros Hp. unfold decimal_chars, canonical_text.
  pose proof (dec_text_length d) as Hl.
  assert (is_empty (dec_to_string (dec_normalize d)) = false) as ->.
  { unfold len in Hl. destruct (dec_to_string _); simpl in *; [lia|done]. }
  destruct (Z.leb_spec (len (dec_to_string (dec_normalize d))) 64); [|lia]. simpl.
  eapply forallb_impl; [|apply (dec_text_chars d)]. intros b.
  destruct positive; simpl.
  - assert (dec_ltb d dec_zero = false) as ->.
    { specialize (Hp eq_refl). revert Hp. unfold dec_leb, dec_ltb. by destruct (dec_cmp _ _). }
    done.
  - rewrite !orb_true_iff, !andb_true_iff. naive_solver.
Qed.

Lemma dec_leb_eq_l a b c : dec_cmp a b = Eq -> dec_leb a c = dec_leb b c.
Proof.
  intros E. apply eq_bool_prop_intro. rewrite !Is_true_true. split; intros Hl.
  - apply (dec_leb_trans b a c); [by apply dec_eq_leb, dec_eq_sym|done].
  - apply (dec_leb_trans a b c); [by apply dec_eq_leb|done].
Qed.

Lemma dec_leb_eq_r a b c : dec_cmp a b = Eq -> dec_leb c a = dec_leb c b.
Proof.
  intros E. apply eq_bool_prop_intro. rewrite !Is_true_true. split; intros Hl.
  - apply (dec_leb_trans c a b); [done|by apply dec_eq_leb].
  - apply (dec_leb_trans c b a); [done|by apply dec_eq_leb, dec_eq_sym].
Qed.

Lemma dec_ltb_eq_l a b c : dec_cmp a b = Eq -> dec_ltb a c = dec_ltb b c.
Proof. intros E. by rewrite !dec_ltb_negb_leb, (dec_leb_eq_r a b). Qed.
Lemma dec_ltb_eq_r a b c : dec_cmp a b = Eq -> dec_ltb c a = dec_ltb c b.
Proof. intros E. by rewrite !dec_ltb_negb_leb, (dec_leb_eq_l a b). Qed.

(** A text [decimal] accepts, with the number it stands for. *)
Lemma decimal_ok s (positive : bool) t :
  decimal s positive = Ok t ->
  exists d, dec_from_str_exact s = Some d /\ t = canonical_text d /\
            (positive = true -> dec_leb d dec_zero = false).
Proof.
  unfold decimal. intros Hd. run_ok.
  match goal with E : dec_from_str_exact s = Some ?d |- _ => exists d end.
  split_and!; [done|done|]. intros ->. by bools.
Qed.

Lemma decimal_canonical_text d (positive : bool) :
  (positive = true -> dec_leb d dec_zero = false) ->
  decimal (canonical_text d) positive = Ok (canonical_text d).
Proof.
  intros Hp. unfold decimal. rewrite canonical_chars by done.
  destruct (dec_exact_to_string d) as (d' & E & Hc). fold (canonical_text d) in E.
  rewrite E. cbn [negb guard obind ok_or].
  pose proof (dec_text_points d) as [Hs He]. fold (canonical_text d) in Hs, He.
  rewrite Hs, He. cbn [orb guard obind].
  assert (positive && dec_leb d' dec_zero = false) as ->.
  { destruct positive; [|done]. simpl. rewrite (dec_leb_eq_l d' d) by done. by apply Hp. }
  simpl. f_equal. by apply dec_text_canonical.
Qed.

(** C37: The text a decimal is replaced by stands for the same number and is
    accepted again without a change. *)
Theorem decimal_canonical (s : string) (positive : bool) (t : string)
    (accepted : decimal s positive = Ok t) :
  decimal t positive = Ok t /\
  exists d d', dec_from_str_exact s = Some d /\ dec_from_str_exact t = Some d' /\
               dec_cmp d' d = Eq /\ (positive = true -> dec_ltb dec_zero d = true).
Proof.
  apply decimal_ok in accepted as (d & E & -> & Hp).
  split; [by apply decimal_canonical_text|].
  destruct (dec_exact_to_string d) as (d' & E' & Hc). exists d, d'. split_and!; try done.
  intros Ht. rewrite dec_ltb_negb_leb. by rewrite Hp.
Qed.

Lemma decimal_idem s positive t : decimal s positive = Ok t -> decimal t positive = Ok t.
Proof. intros (d & _ & -> & Hp)%decimal_ok. by apply decimal_canonical_text. Qed.

(** ** Proposals *)

Lemma validate_place_canonical o sym caps o' :
  validate_place o sym caps = Ok o' ->
  validate_place o' sym caps = Ok o'.
Proof.
  unfold validate_place. intros Hv. run_ok.
  match goal with
  | Hq : decimal (pp_qty o) true = Ok ?q |- _ => apply decimal_idem in Hq as Hq'
  end.
  destruct ((pp_order_type o ==s "Limit") && _) eqn:El.
  - run_ok. match goal with
    | Hp : pp_price o = Some ?p, Hd : decimal ?p true = Ok _ |- _ => apply decimal_idem in Hd as Hd'
    end.
    cbn [with_qty_price pp_symbol pp_side pp_order_type pp_qty pp_price pp_time_in_force
         pp_position_idx pp_reduce_only ok_or]. replay.
    cbn [ok_or obind]. by replay.
  - destruct ((pp_order_type o ==s "Market") && _ && _) eqn:Em; [|done].
    injection Hv as <-.
    cbn [with_qty_price pp_symbol pp_side pp_order_type pp_qty pp_price pp_time_in_force
         pp_position_idx pp_reduce_only ok_or]. by replay.
Qed.

(** ** Protections *)

Lemma canonical_no_minus d :
  dec_ltb d dec_zero = false -> strip_prefix "-" (canonical_text d) = None.
Proof.
  intros Hd. apply strip_minus_none. unfold no_minus.
  eapply forallb_impl; [|apply (dec_text_chars d)]. intros b. rewrite Hd. simpl.
  unfold is_ascii_digit. rewrite !orb_true_iff, andb_true_iff, !Z.leb_le, Z.eqb_eq, negb_true_iff, Z.eqb_neq.
  naive_solver lia.
Qed.

Lemma positive_not_negative d : dec_leb d dec_zero = false -> dec_ltb d dec_zero = false.
Proof. unfold dec_leb, dec_ltb. by destruct (dec_cmp _ _). Qed.

Lemma canonical_price_ok d :
  dec_leb d dec_zero = false -> protection_price_ok (canonical_text d) = true.
Proof.
  intros Hd. pose proof (canonical_chars d true (fun _ => Hd)) as Hc.
  unfold decimal_chars in Hc. bools.
  pose proof (dec_text_points d) as [Hs He]. fold (canonical_text d) in Hs, He.
  rewrite canonical_no_minus in Hs, He by by apply positive_not_negative.
  cbn [default] in Hs, He.
  destruct (dec_exact_to_string d) as (d' & E & Hcmp). fold (canonical_text d) in E.
  unfold protection_price_ok. rewrite E, Hs, He.
  rewrite (dec_ltb_eq_r d' d) by done.
  assert (dec_ltb dec_zero d = true) as -> by (by rewrite dec_ltb_negb_leb, Hd).
  match goal with Hx : is_empty _ = false |- _ => rewrite Hx end.
  match goal with Hx : (_ <=? 64) = true |- _ => rewrite Hx end.
  rewrite !andb_true_r. simpl.
  eapply forallb_impl; [|eassumption]. intros b. simpl. by rewrite orb_false_r.
Qed.

Lemma canonical_decimal_ok raw text n :
  canonical_decimal raw = Ok (text, n) ->
  decimal raw true = Ok text /\ dec_from_str_exact text = Some n /\
  canonical_decimal text = Ok (text, n) /\ protection_price_ok text = true.
Proof.
  unfold canonical_decimal. intros Hc.
  apply obind_ok in Hc as (t & Hraw & Hc). apply obind_ok in Hc as (m & Hm & Hc).
  apply ok_or_ok in Hm. injection Hc as -> ->. split_and!; [done|done| |].
  - rewrite (decimal_idem _ _ _ Hraw). simpl. by rewrite Hm.
  - apply decimal_ok in Hraw as (d & _ & -> & Hp). by apply canonical_price_ok, Hp.
Qed.

(** A leg that was accepted, canonical and on its side. *)
Lemma validate_leg_ok side reference entry take value value' :
  validate_leg side reference entry take value = Ok value' ->
  match value' with
  | None => value = None
  | Some text => is_Some value /\ protection_price_ok text = true /\
      exists n, canonical_decimal text = Ok (text, n) /\ dec_from_str_exact text = Some n /\
                leg_ok (leg_above side take) n reference entry = true
  end.
Proof.
  unfold validate_leg. destruct value as [raw|]; [|by intros [= <-]].
  destruct (canonical_decimal raw) as [[text n]|?|?] eqn:E; try done. simpl.
  destruct (leg_ok _ n reference entry) eqn:El; [|done]. intros [= <-].
  apply canonical_decimal_ok in E as (_ & Hx & Hc & Hp). eauto 8.
Qed.

Lemma validate_leg_again side reference entry take value value' reference' entry' :
  validate_leg side reference entry take value = Ok value' ->
  (forall n, leg_ok (leg_above side take) n reference entry = true ->
             leg_ok (leg_above side take) n reference' entry' = true) ->
  validate_leg side reference' entry' take value' = Ok value'.
Proof.
  intros Hv Hn. apply validate_leg_ok in Hv. destruct value' as [text|]; [|done].
  destruct Hv as (_ & _ & n & Hc & _ & Hl). simpl. rewrite Hc. simpl. by rewrite Hn.
Qed.

Lemma protection_structure side entry reference p p' :
  OrderProtection_validate side entry reference p = Ok p' ->
  validate_structure p' = Ok tt.
Proof.
  unfold OrderProtection_validate. intros Hv.
  apply obind_ok in Hv as (u & Hs & Hv). apply obind_ok in Hv as ([rt ref] & _ & Hv).
  apply obind_ok in Hv as (e & _ & Hv). apply obind_ok in Hv as (tk & Ht & Hv).
  apply obind_ok in Hv as (sl & Hl & Hv). injection Hv as <-.
  apply validate_leg_ok in Ht, Hl.
  unfold validate_structure, or_code, validate_shape in *. simpl.
  destruct (negb (one_of (trigger_by p) _)) eqn:Etr; [done|]. simpl in *.
  destruct tk as [tk|], sl as [sl|]; simpl.
  - destruct Ht as (_ & -> & _), Hl as (_ & -> & _). done.
  - destruct Ht as (_ & -> & _). done.
  - destruct Hl as (_ & -> & _). done.
  - rewrite Ht, Hl in Hs. done.
Qed.

(** A protection that was accepted brackets the reference price and the entry:
    its profit leg lies beyond both in the direction of the order, its loss leg
    before both. *)
Theorem protection_brackets (side : string) (entry : option string) (reference : string)
    (p p' : OrderProtection)
    (accepted : OrderProtection_validate side entry reference p = Ok p') :
  exists r e, canonical_decimal reference = Ok (fst r, snd r) /\
    match entry with
    | Some text => exists t n, canonical_decimal text = Ok (t, n) /\ e = Some n
    | None => e = None
    end /\
    (forall text, take_profit p' = Some text -> exists n, dec_from_str_exact text = Some n /\
       leg_ok (side ==s "Buy") n (snd r) e = true) /\
    (forall text, stop_loss p' = Some text -> exists n, dec_from_str_exact text = Some n /\
       leg_ok (negb (side ==s "Buy")) n (snd r) e = true).
Proof.
  unfold OrderProtection_validate in accepted.
  apply obind_ok in accepted as (u & Hs & Hv). apply obind_ok in Hv as ([rt ref] & Hr & Hv).
  apply obind_ok in Hv as (e & He & Hv). apply obind_ok in Hv as (tk & Ht & Hv).
  apply obind_ok in Hv as (sl & Hl & Hv). injection Hv as <-.
  apply validate_leg_ok in Ht, Hl. exists (rt, ref), e. split_and!; [done| | |].
  - destruct entry as [text|]; [|by injection He as <-].
    apply obind_ok in He as ([t n] & Hn & He). injection He as <-. eauto.
  - simpl. intros text ->. destruct Ht as (_ & _ & n & _ & Hx & Hn). exists n. split; [done|].
    revert Hn. unfold leg_above. by destruct (side ==s "Buy").
  - simpl. intros text ->. destruct Hl as (_ & _ & n & _ & Hx & Hn). exists n. split; [done|].
    revert Hn. unfold leg_above. by destruct (side ==s "Buy").
Qed.

(** With its own entry as the reference an accepted protection is a fixed
    point. *)
Lemma protection_own_entry side text n reference p p' :
  canonical_decimal text = Ok (text, n) ->
  OrderProtection_validate side (Some text) reference p = Ok p' ->
  OrderProtection_validate side (Some text) text p' = Ok p'.
Proof.
  intros Hc Hv. pose proof (protection_structure _ _ _ _ _ Hv) as Hst.
  unfold OrderProtection_validate in Hv.
  apply obind_ok in Hv as (u & Hs & Hv). apply obind_ok in Hv as ([rt ref] & Hr & Hv).
  apply obind_ok in Hv as (e & He & Hv). apply obind_ok in Hv as (tk & Ht & Hv).
  apply obind_ok in Hv as (sl & Hl & Hv). injection Hv as <-.
  rewrite Hc in He. injection He as <-.
  unfold OrderProtection_validate. rewrite Hst. simpl. rewrite Hc. simpl.
  assert (forall above m, leg_ok above m ref (Some n) = true -> leg_ok above m n (Some n) = true)
    as Hmono.
  { intros [] m; simpl; rewrite !andb_true_iff; naive_solver. }
  rewrite (validate_leg_again _ _ _ _ _ _ n (Some n) Ht (Hmono _)). simpl.
  rewrite (validate_leg_again _ _ _ _ _ _ n (Some n) Hl (Hmono _)). done.
Qed.
End DecimalFacts.

(** * The strategy engine and the order contract agree *)

#[local] Arguments one_of : simpl never.

Section Agreement.
Context `{DecimalLaws} `{!DecimalTextLaws} `{Codec json} `{UuidLib}.

(** ** Accepted proposals *)

Lemma validate_place_symbol o sym caps o' :
  validate_place o sym caps = Ok o' ->
  has caps "trade.place" = true /\ pp_symbol o = sym /\ pp_symbol o' = sym /\
  pp_side o' = pp_side o /\ pp_reduce_only o' = pp_reduce_only o /\
  validate_place o (pp_symbol o) ["trade.place"] = Ok o'.
Proof.
  unfold validate_place. intros Hv.
  apply obind_ok in Hv as (u1 & H1' & Hv). apply obind_ok in Hv as (u2 & H2' & Hv).
  apply guard_ok in H1', H2'. bools.
  match goal with Hx : (pp_symbol o ==s sym) = true |- _ => apply String.eqb_eq in Hx as <- end.
  split_and!; try done.
  - run_ok. destruct (_ && one_of _ _); [run_ok; by subst|]. destruct (_ && _ && _); [|done].
    by injection Hv as <-.
  - run_ok. destruct (_ && one_of _ _); [run_ok; by subst|]. destruct (_ && _ && _); [|done].
    by injection Hv as <-.
  - run_ok. destruct (_ && one_of _ _); [run_ok; by subst|]. destruct (_ && _ && _); [|done].
    by injection Hv as <-.
  - change (has ["trade.place"] "trade.place") with true. rewrite String.eqb_refl.
    cbn [negb guard obind orb].
    match goal with Hx : one_of (pp_side o) _ = true |- _ => rewrite Hx end.
    match goal with Hx : (pp_position_idx o =? _) = true |- _ => rewrite Hx end.
    exact Hv.
Qed.

(** The shape of a proposal after its validation. *)
Lemma validate_place_shape o sym caps o' :
  validate_place o sym caps = Ok o' ->
  (exists d, pp_qty o' = canonical_text d /\ dec_leb d dec_zero = false) /\
  ((exists price n, pp_order_type o' = "Limit" /\ pp_price o' = Some price /\
      canonical_decimal price = Ok (price, n) /\
      one_of (pp_time_in_force o') ["GTC"; "IOC"; "FOK"] = true) \/
   (pp_order_type o' = "Market" /\ pp_price o' = None /\ pp_time_in_force o' = "IOC")).
Proof.
  unfold validate_place. intros Hv.
  do 3 (apply obind_ok in Hv as (? & _ & Hv)). apply obind_ok in Hv as (qty & Hq & Hv).
  apply decimal_ok in Hq as (d & _ & -> & Hp).
  destruct ((pp_order_type o ==s "Limit") && _) eqn:El.
  - apply obind_ok in Hv as (price & Hprice & Hv). apply obind_ok in Hv as (text & Hd & Hv).
    injection Hv as <-. simpl. split; [eauto|]. left. bools.
    match goal with Hx : (pp_order_type o ==s _) = true |- _ => apply String.eqb_eq in Hx as El end.
    apply decimal_ok in Hd as (m & _ & -> & Hm).
    destruct (dec_exact_to_string m) as (m' & Em & _). fold (canonical_text m) in Em.
    exists (canonical_text m), m'. split_and!; try done.
    unfold canonical_decimal. rewrite decimal_canonical_text by done. simpl. by rewrite Em.
  - destruct ((pp_order_type o ==s "Market") && _ && _) eqn:Em; [|done].
    injection Hv as <-. simpl. split; [eauto|]. right. bools.
    repeat match goal with Hx : (_ ==s _) = true |- _ => apply String.eqb_eq in Hx end. done.
Qed.

Lemma tif_round tif :
  one_of tif ["GTC"; "IOC"; "FOK"] = true ->
  exists long, tif_long tif = Ok long /\ tif_short (Some long) = Ok tif.
Proof.
  unfold one_of, tif_long. simpl.
  destruct (String.eqb_spec tif "GTC") as [->|]; [by eexists|].
  destruct (String.eqb_spec tif "IOC") as [->|]; [by eexists|].
  destruct (String.eqb_spec tif "FOK") as [->|]; [by eexists|]. done.
Qed.

(** The canonical request kept for an accepted proposal, protected or not,
    passes the check of stored placements: nothing of it changes when it is
    validated again. *)
Theorem canonical_placement_accepted (proposal order : PlaceProposal) (sym id : string)
    (caps : list string) (protection : option OrderProtection)
    (accepted : validate_place proposal sym caps = Ok order)
    (identified : uuid_ok id = true)
    (bracketed : match protection with
                 | None => True
                 | Some p => pp_reduce_only order = false /\ exists reference raw,
                     OrderProtection_validate (pp_side order) (pp_price order) reference raw = Ok p
                 end) :
  exists c, canonical_placement order id protection = Ok c /\
            validate_canonical_placement id c = Ok tt.
Proof.
  pose proof (validate_place_shape _ _ _ _ accepted) as [_ Hshape].
  pose proof (validate_place_canonical _ _ _ _ accepted) as Hagain.
  apply validate_place_symbol in Hagain as (_ & _ & _ & _ & _ & Hagain).
  assert (one_of (pp_time_in_force order) ["GTC"; "IOC"; "FOK"] = true) as Htif.
  { destruct Hshape as [(? & ? & _ & _ & _ & ?)|(_ & _ & ->)]; done. }
  destruct (tif_round _ Htif) as (long & Hlong & Hshort).
  unfold canonical_placement. rewrite Hlong. simpl. eexists. split; [done|].
  unfold validate_canonical_placement. simpl r_order_link_id. rewrite identified.
  rewrite bool_decide_false by (by intros ?). cbn [negb orb guard obind].
  simpl r_time_in_force. rewrite Hshort. cbn [obind ok_or r_reduce_only with_tif_protection placement].
  cbn [r_symbol r_side r_order_type r_qty r_price r_position_idx with_tif_protection placement].
  assert (forall o : PlaceProposal,
    {| pp_symbol := pp_symbol o; pp_side := pp_side o; pp_order_type := pp_order_type o;
       pp_qty := pp_qty o; pp_price := pp_price o; pp_time_in_force := pp_time_in_force o;
       pp_position_idx := pp_position_idx o; pp_reduce_only := pp_reduce_only o |} = o) as Heta
    by by intros [].
  rewrite Heta, Hagain. cbn [obind]. rewrite String.eqb_refl.
  rewrite bool_decide_false by (by intros Hx; apply Hx). cbn [negb orb guard obind r_protection].
  destruct protection as [p|]; [|done]. destruct bracketed as [Hro (reference & raw & Hv)].
  rewrite Hro. rewrite bool_decide_false by (by intros Hx; apply Hx). cbn [guard obind].
  destruct Hshape as [(price & n & -> & Hprice & Hc & _)|(-> & Hprice & _)].
  - rewrite Hprice in Hv |- *. simpl.
    rewrite (protection_own_entry _ _ _ _ _ _ Hc Hv). simpl.
    by rewrite bool_decide_false by (by intros Hx; apply Hx).
  - simpl. rewrite (protection_structure _ _ _ _ _ Hv). simpl.
    by rewrite bool_decide_false by (by intros Hx; apply Hx).
Qed.

(** ** The pending action of an admitted intent *)

Lemma quantity_exceeds_false p qty total q :
  quantity q = Ok qty -> over_limits p qty total = Ok false ->
  quantity_exceeds q (sp_max_order_qty p) = Ok false.
Proof.
  unfold over_limits, quantity_exceeds. intros -> Ho.
  destruct (quantity (sp_max_order_qty p)) as [m|?|?]; try done. simpl in *.
  by destruct (dec_ltb m qty).
Qed.

(** What was added to a total that is not negative is within the new total. *)
Lemma exceeds_new_total v v' q qty total :
  quantity q = Ok qty -> total_with v qty = Ok total ->
  v_total_submitted_qty v' = canonical_text total ->
  (forall t, dec_from_str_exact (v_total_submitted_qty v) = Some t -> dec_ltb t dec_zero = false) ->
  exceeds_total q v' = Ok false.
Proof.
  unfold total_with, exceeds_total, stored_total. intros Hq Ht Hv Hpos. rewrite Hq, Hv. simpl.
  apply obind_ok in Ht as (t & Ht & Hadd). apply ok_or_ok in Ht, Hadd.
  destruct (dec_exact_to_string total) as (t' & E & Hc). fold (canonical_text total) in E.
  rewrite E. simpl. f_equal. rewrite (dec_ltb_eq_l t' total) by done.
  rewrite dec_ltb_negb_leb. apply negb_false_iff. eapply dec_checked_add_le; [done|].
  specialize (Hpos t Ht). rewrite dec_ltb_negb_leb in Hpos. by apply negb_false_iff.
Qed.

(** The committed record, in the fields the validation reads. *)
Lemma commit_view action new_id sequence now_ms output r r' pending :
  commit_submission action new_id sequence now_ms output r = Ok (r', pending) ->
  v_symbol (view r') = v_symbol (view r) /\ v_capabilities (view r') = v_capabilities (view r) /\
  v_policy (view r') = v_policy (view r) /\ v_sequence (view r') = sequence /\
  pa_state pending = so_state output /\ pa_message pending = so_message output /\
  pa_sequence pending = sequence /\ pa_action pending = action /\
  u32_checked_add (v_actions_submitted (view r)) 1 = Some (v_actions_submitted (view r')) /\
  pa_submission_id pending = match action with
                             | APlaceOrder _ | APlaceProtectedOrder _ _ => Some new_id
                             | _ => None
                             end /\
  owned r' = match action with
             | ACancelOrder order =>
                 match owned r !! cp_order_id order with
                 | Some o => <[cp_order_id order := request_cancel o]> (owned r)
                 | None => owned r
                 end
             | _ => owned r
             end.
Proof.
  unfold commit_submission. intros Hc. apply obind_ok in Hc as (n & Hn & Hc).
  apply ok_or_ok in Hn. apply obind_ok in Hc as ([[total sub] own] & Hs & Hc).
  injection Hc as <- <-. simpl. split_and!; try done; destruct action; simpl in *; run_ok; try done.
  match goal with Hx : owned r !! _ = Some _ |- _ => by rewrite Hx end.
Qed.

Lemma commit_spends action new_id sequence now_ms output r r' pending q :
  commit_submission action new_id sequence now_ms output r = Ok (r', pending) ->
  match action with
  | APlaceOrder order | APlaceProtectedOrder order _ => Some (pp_qty order)
  | AAmendOrder order => Some (ap_qty order)
  | _ => None
  end = Some q ->
  exists qty total, quantity q = Ok qty /\ total_with (view r) qty = Ok total /\
    v_total_submitted_qty (view r') = canonical_text total.
Proof.
  unfold commit_submission. intros Hc Hq. apply obind_ok in Hc as (n & Hn & Hc).
  apply obind_ok in Hc as ([[total sub] own] & Hs & Hc). injection Hc as <- <-. simpl.
  destruct action; simplify_eq; simpl in Hs; apply obind_ok in Hs as (tot & Hs & Ho);
    injection Ho as <- <- <-; apply obind_ok in Hs as (t & Ht & Hs);
    apply obind_ok in Hs as (qty & Hqty & Hs); apply obind_ok in Hs as (sum & Hsum & Hs);
    injection Hs as <-; exists qty, sum; (split; [done|]); (split; [|done]);
    unfold total_with; by rewrite Ht.
Qed.

Lemma amend_again sym p p' :
  AmendProposal_validate sym p = Ok p' ->
  AmendProposal_validate sym p' = Ok p' /\ ap_symbol p' = sym.
Proof.
  unfold AmendProposal_validate. intros Hv. apply obind_ok in Hv as (u & Hg & Hv).
  apply obind_ok in Hv as (price & Hp & Hv). apply obind_ok in Hv as (qty & Hq & Hv).
  injection Hv as <-. simpl. rewrite Hg. simpl. rewrite (decimal_idem _ _ _ Hp).
  simpl. rewrite (decimal_idem _ _ _ Hq). split; [done|].
  apply guard_ok in Hg. bools. by apply String.eqb_eq.
Qed.
(** A stored view is within its limits, and its total is not negative. *)
Lemma view_within_caps v :
  StrategyRunView_validate v = Ok tt ->
  v_actions_submitted v <= max_actions (v_policy v) /\
  exists total limit, dec_from_str_exact (v_total_submitted_qty v) = Some total /\
    quantity (max_total_qty (v_policy v)) = Ok limit /\ dec_ltb limit total = false /\
    dec_ltb total dec_zero = false.
Proof.
  unfold StrategyRunView_validate. intros Hv. run_ok. bools.
  match goal with Hx : (max_actions _ <? _) = false |- _ => apply Z.ltb_ge in Hx end.
  split; [done|].
  match goal with Hx : decimal _ false = Ok _ |- _ =>
    apply decimal_ok in Hx as (d & Ed & -> & _) end.
  destruct (dec_exact_to_string d) as (d' & Ed' & Hcmp). fold (canonical_text d) in Ed'.
  match goal with Hx : dec_from_str_exact (canonical_text d) = Some ?t |- _ =>
    assert (t = d') as -> by congruence end.
  match goal with Hx : quantity _ = Ok ?l |- _ => exists d, l end.
  split_and!; [done|done| |].
  - by rewrite <- (dec_ltb_eq_r d' d).
  - by rewrite <- (dec_ltb_eq_l d' d).
Qed.


Lemma pending_place_ok v v' order sym caps protection qty total p new_id proposal :
  validate_place proposal sym caps = Ok order ->
  v_symbol v' = sym -> v_capabilities v' = caps -> v_policy v' = v_policy v ->
  pa_submission_id p = Some new_id -> uuid_ok new_id = true ->
  quantity (pp_qty order) = Ok qty -> total_with v qty = Ok total ->
  over_limits (v_policy v) qty total = Ok false ->
  v_total_submitted_qty v' = canonical_text total ->
  StrategyRunView_validate v = Ok tt ->
  (sp_reduce_only (v_policy v) = true -> pp_reduce_only order = true) ->
  match protection with
  | None => True
  | Some p => has caps "trade.protect" = true /\ pp_reduce_only order = false /\
              validate_structure p = Ok tt
  end ->
  validate_pending_place v' p order protection = Ok tt.
Proof.
  intros Hpl <- <- Hpol Hsub Hid Hq Ht Ho Hv' Hview Hro Hprot.
  unfold validate_pending_place. rewrite (validate_place_canonical _ _ _ _ Hpl).
  rewrite Hsub, Hpol. simpl is_some_and. rewrite Hid.
  rewrite (quantity_exceeds_false _ _ _ _ Hq Ho). cbn [obind guard negb].
  rewrite (exceeds_new_total v v' _ _ _ Hq Ht Hv').
  2: { intros t Et. apply view_within_caps in Hview as (_ & t' & l & Et' & _ & _ & Hneg).
       congruence. }
  cbn [obind orb].
  assert (sp_reduce_only (v_policy v) && negb (pp_reduce_only order) = false) as ->.
  { destruct (sp_reduce_only (v_policy v)); [|done]. by rewrite Hro. }
  destruct protection as [pr|]; [|done]. destruct Hprot as (Hc & Hr & Hs). simpl.
  by rewrite Hc, Hr, Hs.
Qed.

(** What the store checked of an owned order. *)
Lemma owned_placement r id o p :
  all_owned_ok r = true -> owned r !! id = Some o -> placement_of o = Some p ->
  r_symbol p = v_symbol (view r).
Proof.
  unfold all_owned_ok. intros [Ha _]%andb_prop Ho Hp.
  rewrite forallb_forall in Ha. specialize (Ha (id, o)).
  assert (In (id, o) (map_to_list (owned r))) as Hin
    by (by apply list_elem_of_In, elem_of_map_to_list).
  apply Ha in Hin. unfold owned_ok in Hin. simpl in Hin. rewrite Hp in Hin.
  unfold placement_ok in Hin. bools. by apply String.eqb_eq.
Qed.

Lemma pending_amend_ok r r' p proposal order snapshot qty total :
  validate_tail r = Ok tt ->
  AmendProposal_validate (v_symbol (view r)) proposal = Ok order ->
  admit_amend proposal r snapshot = Ok (AAmendOrder order) ->
  v_symbol (view r') = v_symbol (view r) -> v_capabilities (view r') = v_capabilities (view r) ->
  v_policy (view r') = v_policy (view r) -> owned r' = owned r -> pa_submission_id p = None ->
  quantity (ap_qty order) = Ok qty -> total_with (view r) qty = Ok total ->
  v_total_submitted_qty (view r') = canonical_text total ->
  StrategyRunView_validate (view r) = Ok tt ->
  validate_pending_amend r' p order = Ok tt.
Proof.
  intros Htail Hvp Hadm Es Ec Ep Eo Hsub Hq Ht Hv' Hview.
  pose proof (amend_again _ _ _ Hvp) as [Hagain Hsym].
  unfold admit_amend in Hadm. rewrite Hvp in Hadm. cbn [obind] in Hadm.
  apply obind_ok in Hadm as (u1 & Hcap & Hadm). apply guard_ok, negb_false_iff in Hcap.
  apply obind_ok in Hadm as (original & Horig & Hadm). apply ok_or_ok in Horig.
  apply obind_ok in Hadm as (u2 & Hlim & Hadm). apply guard_ok, negb_false_iff in Hlim.
  apply obind_ok in Hadm as (u3 & Hent & Hadm). destruct u3.
  apply obind_ok in Hadm as (target & _ & Hadm). apply obind_ok in Hadm as (u4 & _ & Hadm).
  rewrite Hq in Hadm. cbn [obind] in Hadm.
  do 4 (apply obind_ok in Hadm as (? & _ & Hadm)).
  rewrite Ht in Hadm. cbn [obind] in Hadm. apply obind_ok in Hadm as (u5 & _ & Hadm).
  apply obind_ok in Hadm as (over & Ho & Hadm). apply obind_ok in Hadm as (u6 & Hg & _).
  apply guard_ok in Hg as ->.
  assert (amend_original r' (ap_order_id order) = Some original) as Horig'
    by (unfold amend_original in *; by rewrite Eo).
  assert (r_symbol original = ap_symbol order) as Hos.
  { rewrite Hsym. unfold amend_original in Horig.
    destruct (owned r !! ap_order_id order) as [o|] eqn:Hl; [|done].
    destruct (cancel_requested o); [done|]. eapply owned_placement; [|done|done].
    unfold validate_tail in Htail. apply obind_ok in Htail as (u & Hu & _).
    by apply guard_ok, negb_false_iff in Hu. }
  unfold validate_pending_amend. rewrite Hsub, Ec, Hcap, Horig', Hos, Es, Ep, Hsym.
  rewrite Hlim, Hent, !String.eqb_refl.
  cbn [is_some is_none negb orb guard obind is_ok].
  rewrite (quantity_exceeds_false _ _ _ _ Hq Ho). cbn [obind guard].
  rewrite (exceeds_new_total (view r) _ _ _ _ Hq Ht Hv').
  2: { intros t Et. apply view_within_caps in Hview as (_ & t' & l & Et' & _ & _ & Hneg).
       congruence. }
  cbn [obind orb]. by rewrite Hagain.
Qed.

(** C36: The store accepts the pending action of every intent the worker commits:
    what was admitted against the snapshot passes the validation of stored
    documents. *)
Theorem admitted_intent_storable (r r' : RunRecord) (output : StrategyOutput)
    (snapshot : Snapshot) (action : StrategyAction) (new_id sequence now_ms : string)
    (pending : PendingAction)
    (view_stored : StrategyRunView_validate (view r) = Ok tt)
    (stored : validate_tail r = Ok tt)
    (counted : 0 <= v_actions_submitted (view r))
    (output_ok : StrategyOutput_validate output = Ok tt)
    (admitted : validate_action (so_action output) r snapshot = Ok action)
    (identified : uuid_ok new_id = true)
    (committed : commit_submission action new_id sequence now_ms output r = Ok (r', pending)) :
  validate_pending r' pending = Ok tt.
Proof.
  pose proof (commit_view _ _ _ _ _ _ _ _ committed)
    as (Es & Ec & Ep & Eq & Est & Em & Eseq & Eact & En & Esub & Eown).
  pose proof (fun q => commit_spends _ _ _ _ _ _ _ _ q committed) as Hspend.
  unfold u32_checked_add in En. destruct (_ <=? u32_max); [|done]. injection En as En.
  unfold StrategyOutput_validate in output_ok. apply obind_ok in output_ok as ([] & Hst & Hmsg).
  apply guard_ok in Hmsg.
  unfold validate_pending. rewrite Est, Hst, Eseq, Eq, Em, Hmsg, String.eqb_refl.
  destruct (Z.eqb_spec (v_actions_submitted (view r')) 0); [lia|]. cbn [negb orb guard obind].
  rewrite Eact. unfold validate_action in admitted.
  assert (match action with ANone | AStop => False | _ => True end) as Hsome.
  { unfold commit_submission in committed. destruct action; try done;
      apply obind_ok in committed as (? & _ & Hc); done. }
  destruct (so_action output) as [| |o|o|o|o pr]; try (by injection admitted as <-);
    apply obind_ok in admitted as (u & _ & admitted).
  - unfold admit_place in admitted. apply obind_ok in admitted as (order & Hv & Ha).
    apply obind_ok in Ha as (qty & Hq & Ha). apply obind_ok in Ha as (total & Ht & Ha).
    apply obind_ok in Ha as (over & Ho & Ha). apply obind_ok in Ha as (u2 & Hg & Ha).
    injection Ha as <-. apply guard_ok, orb_false_iff in Hg as [-> Hro].
    destruct (Hspend _ eq_refl) as (qty' & total' & Hq' & Ht' & Htot).
    assert (qty' = qty) as -> by congruence. assert (total' = total) as -> by congruence.
    assert (validate_place o (v_symbol (view r)) (v_capabilities (view r)) = Ok order) as Hpl.
    { unfold or_code in Hv. by destruct (validate_place _ _ _); try done; injection Hv as <-. }
    apply (pending_place_ok (view r) _ _ _ _ None qty total _ new_id o Hpl); auto.
    intros Hp. by destruct (sp_reduce_only _), (pp_reduce_only order).
  - unfold admit_cancel in admitted. apply obind_ok in admitted as (u1 & Hg & Ha).
    apply guard_ok, negb_false_iff in Hg. apply obind_ok in Ha as (order & Hv & Ha).
    injection Ha as <-. unfold or_code in Hv.
    destruct (validate_cancel _ _ _ _) as [c|?|?] eqn:Hc in Hv; try done. injection Hv as <-.
    unfold validate_cancel in Hc. apply obind_ok in Hc as (u2 & _ & Hc).
    apply obind_ok in Hc as (u3 & Hs & Hc). injection Hc as <-. apply guard_ok in Hs. bools.
    unfold validate_pending_cancel. rewrite Esub, Es, Eown.
    match goal with Hx : (cp_symbol o ==s _) = true |- _ => rewrite Hx end. simpl.
    destruct (owned r !! cp_order_id o); [|done]. by rewrite lookup_insert_eq.
  - pose proof admitted as Hadm. unfold admit_amend in Hadm.
    apply obind_ok in Hadm as (u1 & _ & Hadm). apply obind_ok in Hadm as (order & Hv & Hadm).
    assert (action = AAmendOrder order) as ->.
    { do 14 (apply obind_ok in Hadm as (? & _ & Hadm)). by injection Hadm as <-. }
    destruct (Hspend _ eq_refl) as (qty & total & Hq & Ht & Htot).
    by eapply (pending_amend_ok r r' pending o order).
  - unfold admit_protected in admitted. apply obind_ok in admitted as (u1 & Hg1 & Ha).
    apply guard_ok in Hg1. bools. apply obind_ok in Ha as (order & Hv & Ha).
    apply obind_ok in Ha as (market & _ & Ha). apply obind_ok in Ha as (pr' & Hpr & Ha).
    apply obind_ok in Ha as (qty & Hq & Ha). apply obind_ok in Ha as (total & Ht & Ha).
    apply obind_ok in Ha as (over & Ho & Ha). apply obind_ok in Ha as (u2 & Hg & Ha).
    injection Ha as <-. apply guard_ok in Hg as ->.
    destruct (Hspend _ eq_refl) as (qty' & total' & Hq' & Ht' & Htot).
    assert (qty' = qty) as -> by congruence. assert (total' = total) as -> by congruence.
    assert (validate_place o (v_symbol (view r)) (v_capabilities (view r)) = Ok order) as Hpl.
    { unfold or_code in Hv. by destruct (validate_place _ _ _); try done; injection Hv as <-. }
    apply (pending_place_ok (view r) _ _ _ _ (Some pr') qty total _ new_id o Hpl); auto.
    + intros Hp. congruence.
    + split_and!; [done| |by eapply protection_structure].
      apply validate_place_symbol in Hpl as (_ & _ & _ & _ & -> & _). done.
Qed.
End Agreement.
