(* ===== verification/Engine.v ===== *)
(** The strategy engine as a transition system: the supervisor, its workers
    between the steps of their passes, a reconciliation, crashes and restarts.
    The invariants say what the durable document guarantees. *)
From stdpp Require Import gmap strings relations.
From S2P Require Import Prelude RustStr External Models Workflow StrategyTypes StrategyStore StrategyRun Supervisor Worker ContractFacts.

(** ** The promise of a store *)

(** [holds x d]: a load of [x] may answer [d].  A save that answers [Ok] leaves
    nothing but its document; one that fails may leave either. *)
Class StoreLaws (X : Type) `{StrategyStore X} (holds : X -> StrategyDocument -> Prop)
    (crash : X -> X -> Prop) := {
  load_holds x d x' : store_load x = (Ok d, x') -> holds x d;
  load_keeps x d : holds (snd (store_load x)) d -> holds x d;
  save_ok x doc x' d : store_save doc x = (Ok tt, x') -> holds x' d -> d = doc;
  save_any x doc d : holds (snd (store_save doc x)) d -> holds x d \/ d = doc;
  crash_keeps x x' d : crash x x' -> holds x' d -> holds x d;
}.

(** ** The transition system *)

Inductive Task :=
| Looping (id : string)
| Deciding (id : string) (record : RunRecord) (sequence : string)
| Prepared (id : string) (record : RunRecord) (pending : PendingAction)
| Awaiting (id : string) (record : RunRecord) (pending : PendingAction)
| Acknowledging (id : string) (pending : PendingAction)
| Ending (id : string).

Definition task_id (t : Task) : string :=
  match t with
  | Looping id | Deciding id _ _ | Prepared id _ _ | Awaiting id _ _
  | Acknowledging id _ | Ending id => id
  end.

(** The supervisor, its workers by the pointer of their cell, and what was
    handed to the exchange. *)
Record Engine {X : Type} := MkEngine {
  e_sup : Supervisor X;
  e_tasks : gmap nat Task;
  e_sent : list (string * PendingAction);
}.
Arguments Engine : clear implicits.
Arguments MkEngine {X} _ _ _.

(** The marks a worker leaves a run with when it ends by itself. *)
Inductive end_mark : StrategyStatus -> string -> Prop :=
| mark_failure failure status code :
    failure_mark failure = Some (status, code) -> end_mark status code
| mark_clock code : end_mark (clock_mark code) code
| mark_gap : end_mark Paused "plugin_strategy_stale"
| mark_panic : end_mark Faulted "plugin_strategy_unavailable".

Section Steps.
Context `{DecimalLib} `{Codec json} `{UuidLib} {X : Type} `{StrategyStore X}.
Context (crash : X -> X -> Prop).

Inductive step : Engine X -> Engine X -> Prop :=
| step_issue s tasks sent mono token t :
    step (MkEngine s tasks sent) (MkEngine (snd (issue_ticket mono token t s)) tasks sent)
| step_take s tasks sent request :
    step (MkEngine s tasks sent) (MkEngine (snd (take_ticket request s)) tasks sent)
| step_start s s' tasks sent t request captured authority scope_now run_id epoch mono now wall
    later v p :
    StrategyStartRequest_validate request = Ok tt ->
    (* [Uuid::new_v4] is not the identifier of a run *)
    find_run run_id (d_runs (s_document s)) = None ->
    start_owned t request captured authority scope_now run_id epoch mono now wall later s
      = (Ok v, s') ->
    s_live s' !! v_run_id v = Some p ->
    step (MkEngine s tasks sent) (MkEngine s' (<[p := Looping (v_run_id v)]> tasks) sent)
| step_start_fails s o s' tasks sent t request captured authority scope_now run_id epoch mono
    now wall later :
    StrategyStartRequest_validate request = Ok tt ->
    find_run run_id (d_runs (s_document s)) = None ->
    start_owned t request captured authority scope_now run_id epoch mono now wall later s
      = (o, s') ->
    is_ok o = false ->
    step (MkEngine s tasks sent) (MkEngine s' tasks sent)
| step_control s tasks sent id action wall mono :
    step (MkEngine s tasks sent) (MkEngine (snd (control id action wall mono s)) tasks sent)
| step_stop_all s tasks sent wall mono :
    step (MkEngine s tasks sent) (MkEngine (snd (stop_all wall mono s)) tasks sent)
| step_exit s tasks sent :
    step (MkEngine s tasks sent) (MkEngine (snd (revoke_for_exit s)) tasks sent)
| step_read s tasks sent p id record sequence :
    tasks !! p = Some (Looping id) ->
    pass_read id s = (Ok (record, sequence), s) ->
    step (MkEngine s tasks sent) (MkEngine s (<[p := Deciding id record sequence]> tasks) sent)
| step_commit s s' tasks sent p id record sequence output action first second new_id epoch
    now wall mono pending :
    tasks !! p = Some (Deciding id record sequence) ->
    pass_decide record output first second = Ok action ->
    pass_commit id p record sequence action output new_id epoch now wall mono s
      = (Ok (inr pending), s') ->
    step (MkEngine s tasks sent) (MkEngine s' (<[p := Prepared id record pending]> tasks) sent)
| step_quiet s s' tasks sent p id record sequence output action first second new_id epoch
    now wall mono keep :
    tasks !! p = Some (Deciding id record sequence) ->
    pass_decide record output first second = Ok action ->
    pass_commit id p record sequence action output new_id epoch now wall mono s
      = (Ok (inl keep), s') ->
    step (MkEngine s tasks sent)
      (MkEngine s' (<[p := if keep : bool then Looping id else Ending id]> tasks) sent)
| step_commit_fails s o s' tasks sent p id record sequence output action first second new_id
    epoch now wall mono :
    tasks !! p = Some (Deciding id record sequence) ->
    pass_decide record output first second = Ok action ->
    pass_commit id p record sequence action output new_id epoch now wall mono s = (o, s') ->
    is_ok o = false ->
    step (MkEngine s tasks sent) (MkEngine s' (<[p := Ending id]> tasks) sent)
| step_cancel_handle s tasks sent p flag :
    step (MkEngine s tasks sent) (MkEngine (snd (set_cancel p flag s)) tasks sent)
| step_check s tasks sent p record observed observed_wall g :
    step (MkEngine s tasks sent)
      (MkEngine (snd (check_dispatch p record observed observed_wall g s)) tasks sent)
| step_dispatch s s' tasks sent p id record pending request observed observed_wall g :
    tasks !! p = Some (Prepared id record pending) ->
    hand_over record pending = Ok request ->
    (* the admission is asked directly before the request leaves *)
    check_dispatch p record observed observed_wall g s = (Ok tt, s') ->
    step (MkEngine s tasks sent)
      (MkEngine s' (<[p := Awaiting id record pending]> tasks) (sent ++ [(id, pending)]))
| step_refused s o s' tasks sent p id record pending failure wall mono :
    (* nothing was handed over: the host can only fail *)
    tasks !! p = Some (Prepared id record pending) ->
    settle_response id pending (inl failure) wall mono s = (o, s') ->
    step (MkEngine s tasks sent) (MkEngine s' (<[p := Ending id]> tasks) sent)
| step_answer s s' tasks sent p id record pending response status accepted wall mono :
    tasks !! p = Some (Awaiting id record pending) ->
    settle_response id pending response wall mono s = (Ok (status, accepted), s') ->
    step (MkEngine s tasks sent)
      (MkEngine s' (<[p := if acknowledges pending status accepted
                           then Acknowledging id pending else Looping id]> tasks) sent)
| step_answer_fails s o s' tasks sent p id record pending response wall mono :
    tasks !! p = Some (Awaiting id record pending) ->
    settle_response id pending response wall mono s = (o, s') ->
    is_ok o = false ->
    step (MkEngine s tasks sent) (MkEngine s' (<[p := Ending id]> tasks) sent)
| step_conclude s tasks sent p id pending acknowledged wall mono :
    tasks !! p = Some (Acknowledging id pending) ->
    step (MkEngine s tasks sent)
      (MkEngine (snd (conclude id pending acknowledged wall mono s))
         (<[p := Looping id]> tasks) sent)
| step_end s tasks sent p t status reason wall mono :
    tasks !! p = Some t ->
    end_mark status reason ->
    step (MkEngine s tasks sent)
      (MkEngine (snd (mark wall mono (task_id t) status reason s))
         (<[p := Ending (task_id t)]> tasks) sent)
| step_return s tasks sent p t :
    (* the loop returns without a mark: the worker was revoked *)
    tasks !! p = Some t ->
    step (MkEngine s tasks sent) (MkEngine s (<[p := Ending (task_id t)]> tasks) sent)
| step_finish s tasks sent p id wall mono :
    tasks !! p = Some (Ending id) ->
    step (MkEngine s tasks sent)
      (MkEngine (snd (finish wall mono id p s)) (delete p tasks) sent)
| step_reconcile s tasks sent id authority scope_now record pending result response wall mono :
    reconcile_admit id authority scope_now s = (Ok (record, pending), s) ->
    reconcile_response pending result = Ok response ->
    step (MkEngine s tasks sent)
      (MkEngine (snd (settle_response id pending response wall mono s)) tasks sent)
| step_reconcile_conclude s tasks sent id pending acknowledged wall mono :
    s_live s !! id = None ->
    step (MkEngine s tasks sent)
      (MkEngine (snd (conclude id pending acknowledged wall mono s)) tasks sent)
| step_reconciled s tasks sent id wall mono :
    s_live s !! id = None ->
    step (MkEngine s tasks sent)
      (MkEngine (snd (reconcile_conclude id wall mono s)) tasks sent)
| step_restart s tasks sent x :
    crash (s_store s) x ->
    step (MkEngine s tasks sent) (MkEngine (new_supervisor x) ∅ sent).
End Steps.

(** ** Ledgers: what a document says a run has spent and owes *)

Record Core := {
  c_sequence : string;
  c_actions : Z;
  c_total : string;
  c_policy : StrategyPolicy;
  c_owned : gmap string OwnedOrder;
  c_pending : option PendingAction;
}.

Definition core (r : RunRecord) : Core :=
  {| c_sequence := v_sequence (view r); c_actions := v_actions_submitted (view r);
     c_total := v_total_submitted_qty (view r); c_policy := v_policy (view r);
     c_owned := owned r; c_pending := pending_action r |}.

Definition ledger (d : StrategyDocument) (id : string) : option Core :=
  core <$> find_run id (d_runs d).

Definition same_ledger (d d' : StrategyDocument) : Prop := forall id, ledger d id = ledger d' id.

#[export] Instance same_ledger_equiv : Equivalence same_ledger.
Proof.
  split; unfold same_ledger; [done|by intros d d' E id; rewrite E|].
  by intros a b c E1 E2 id; rewrite E1.
Qed.

(** Changes of a run that the ledger does not show. *)
Definition keeps_core (f : RunRecord -> RunRecord) : Prop :=
  forall r, core (f r) = core r /\ run_id_of (f r) = run_id_of r.

Create HintDb ledger.
Create HintDb calm.

Lemma keeps_mark st reason : keeps_core (mark_run st reason).
Proof. by intros r. Qed.
#[export] Hint Resolve keeps_mark : ledger.

Lemma keeps_restart : keeps_core restart_run.
Proof. intros r. unfold restart_run. by repeat case_match. Qed.
Lemma keeps_fault : keeps_core fault_run.
Proof. by intros r. Qed.
Lemma keeps_control live stop : keeps_core (control_run live stop).
Proof. intros r. unfold control_run. by repeat case_match. Qed.
Lemma keeps_stop live : keeps_core (stop_run live).
Proof. intros r. unfold stop_run. by repeat case_match. Qed.
Lemma keeps_finish intent : keeps_core (finish_run intent).
Proof. intros r. unfold finish_run. by repeat case_match. Qed.
Lemma keeps_rebind request account : keeps_core (rebind_run request account).
Proof. by intros r. Qed.
#[export] Hint Resolve keeps_restart keeps_fault keeps_control keeps_stop keeps_finish
  keeps_rebind : ledger.

Lemma find_run_id id runs r : find_run id runs = Some r -> run_id_of r = id.
Proof.
  induction runs as [|r' runs IH]; simpl; [done|].
  destruct (String.eqb_spec (run_id_of r') id); [by intros [= <-]|done].
Qed.

Lemma find_run_elem id runs r : find_run id runs = Some r -> r ∈ runs.
Proof.
  induction runs as [|r' runs IH]; simpl; [done|].
  destruct (String.eqb_spec (run_id_of r') id); [intros [= <-]; by left|].
  intros ?. right. auto.
Qed.

Lemma find_run_map f id runs :
  (forall r, run_id_of (f r) = run_id_of r) ->
  find_run id (map f runs) = f <$> find_run id runs.
Proof. intros Hf. induction runs as [|r runs IH]; simpl; [done|]. rewrite Hf. by case_match. Qed.

Lemma find_run_update id f runs id' :
  (forall r, run_id_of r = id -> run_id_of (f r) = id) ->
  find_run id' (update_run id f runs)
  = if decide (id' = id) then f <$> find_run id runs else find_run id' runs.
Proof.
  intros Hf. induction runs as [|r runs IH]; simpl; [by case_decide|].
  destruct (String.eqb_spec (run_id_of r) id) as [E|Hne]; simpl.
  - rewrite (Hf r E). case_decide as Hd.
    + subst id'. by rewrite String.eqb_refl.
    + destruct (String.eqb_spec id id'); [congruence|].
      destruct (String.eqb_spec (run_id_of r) id'); [congruence|done].
  - rewrite IH. case_decide as Hd; [|done]. subst id'.
    destruct (String.eqb_spec (run_id_of r) id); [congruence|done].
Qed.

Lemma find_run_app id runs r :
  find_run id (runs ++ [r]) =
    match find_run id runs with
    | Some x => Some x
    | None => if decide (run_id_of r = id) then Some r else None
    end.
Proof.
  induction runs as [|x runs IH]; simpl.
  - destruct (String.eqb_spec (run_id_of r) id); by case_decide.
  - rewrite IH. by destruct (run_id_of x ==s id).
Qed.

Lemma ledger_map f d :
  keeps_core f -> same_ledger (with_runs (map f (d_runs d)) d) d.
Proof.
  intros Hf id. unfold ledger. simpl. rewrite find_run_map by apply Hf.
  destruct (find_run id (d_runs d)) as [r|]; [|done]. simpl. f_equal. apply Hf.
Qed.

Lemma ledger_update f id d :
  keeps_core f -> same_ledger (with_runs (update_run id f (d_runs d)) d) d.
Proof.
  intros Hf id'. unfold ledger. simpl. rewrite find_run_update.
  - case_decide as Hd; [|done]. subst id'.
    destruct (find_run id (d_runs d)) as [r|]; [|done]. simpl. f_equal. apply Hf.
  - intros r E. by rewrite (proj2 (Hf r)).
Qed.

Lemma ledger_replace id r d id' :
  run_id_of r = id -> is_Some (find_run id (d_runs d)) ->
  ledger (replace_run id r d) id' = if decide (id' = id) then Some (core r) else ledger d id'.
Proof.
  intros E [r' Hr]. unfold ledger, replace_run. simpl. rewrite find_run_update by done.
  case_decide; [|done]. by rewrite Hr.
Qed.
#[export] Hint Resolve ledger_map ledger_update : ledger.

(** ** Effects of the operations *)

Section Effects.
Context {X : Type} `{StrategyStore X} {holds : X -> StrategyDocument -> Prop}
  {crash : X -> X -> Prop} `{!StoreLaws X holds crash}.
Local Abbreviation sup := (Supervisor X).

(** What no operation but a start or the end of a worker changes, and what an
    operation may leave in the store: what was there, or its document [next]. *)
Definition advance (next : StrategyDocument) (s s' : sup) : Prop :=
  s_live s' = s_live s /\
  (forall p, is_Some (s_cells s' !! p) <-> is_Some (s_cells s !! p)) /\
  (same_ledger (s_document s') (s_document s) \/
   (same_ledger (s_document s') next)) /\
  (forall d, holds (s_store s') d -> holds (s_store s) d \/
             (s_unavailable s = false /\ same_ledger d next)) /\
  (s_unavailable s = true -> s_unavailable s' = true).

(** An operation the ledger does not show. *)
Definition quiet (s s' : sup) : Prop :=
  s_live s' = s_live s /\
  (forall p, is_Some (s_cells s' !! p) <-> is_Some (s_cells s !! p)) /\
  same_ledger (s_document s') (s_document s) /\
  (forall d, holds (s_store s') d -> holds (s_store s) d \/
             (s_unavailable s = false /\ same_ledger d (s_document s))) /\
  (s_unavailable s = true -> s_unavailable s' = true).

Definition calm {E A} (c : M sup E A) : Prop := forall s, quiet s (snd (c s)).

Lemma quiet_refl s : quiet s s.
Proof. split_and!; try done. auto. Qed.

Lemma quiet_trans s1 s2 s3 : quiet s1 s2 -> quiet s2 s3 -> quiet s1 s3.
Proof.
  intros (L1 & C1 & D1 & H1 & U1) (L2 & C2 & D2 & H2 & U2). split_and!.
  - congruence.
  - intros p. rewrite C2. apply C1.
  - by rewrite D2.
  - intros d [Hd|[Hu Hd]]%H2; [auto|]. right. split.
    + destruct (s_unavailable s1); [rewrite U1 in Hu by done; done|done].
    + by rewrite Hd.
  - auto.
Qed.

Lemma advance_quiet next s s' :
  same_ledger next (s_document s) -> advance next s s' -> quiet s s'.
Proof.
  intros E (L & C & D & Hh & U). split_and!; try done.
  - destruct D as [D|D]; [done|by rewrite D].
  - intros d [Hd|[Hu Hd]]%Hh; [auto|right]. split; [done|by rewrite Hd].
Qed.

Lemma calm_ret {E A} (a : A) : calm (@mret sup E A a).
Proof. intros s. apply quiet_refl. Qed.
Lemma calm_fail {E A} (e : E) : calm (@mfail sup E A e).
Proof. intros s. apply quiet_refl. Qed.
Lemma calm_lift {E A} (x : outcome E A) : calm (@mlift sup E A x).
Proof. intros s. apply quiet_refl. Qed.
Lemma calm_get {E} : calm (@get_sup X E).
Proof. intros s. apply quiet_refl. Qed.
Lemma calm_bind {E A B} (c : M sup E A) (k : A -> M sup E B) :
  calm c -> (forall a, calm (k a)) -> calm (mbind c k).
Proof.
  intros Hc Hk s. unfold mbind. specialize (Hc s).
  destruct (c s) as [[a|e|h] s']; simpl in *; try done.
  eapply quiet_trans; [done|apply Hk].
Qed.
Lemma calm_try {E F A} (c : M sup E A) : calm c -> calm (@mtry sup E F A c).
Proof. intros Hc s. unfold mtry. specialize (Hc s). by destruct (c s) as [[] ?]. Qed.
Lemma calm_map_err {E F A} (f : E -> F) (c : M sup E A) : calm c -> calm (mmap_err f c).
Proof. intros Hc s. unfold mmap_err. specialize (Hc s). by destruct (c s). Qed.

(** A bind after reading the supervisor knows what was read. *)
Lemma calm_read {E B} (k : sup -> M sup E B) :
  (forall s, quiet s (snd (k s s))) -> calm (mbind get_sup k).
Proof. intros Hk s. apply Hk. Qed.

Lemma calm_cells {E} (f : sup -> gmap nat Live) :
  (forall s p, is_Some (f s !! p) <-> is_Some (s_cells s !! p)) ->
  calm (@modify X E (fun s => with_cells (f s) s)).
Proof. intros Hf s. split_and!; simpl; try done; auto. Qed.
Lemma calm_tickets {E} (f : sup -> gmap string Ticket) :
  calm (@modify X E (fun s => with_tickets (f s) s)).
Proof. intros s. split_and!; simpl; try done; auto. Qed.
Lemma calm_admission {E} a closed : calm (@modify X E (with_admission a closed)).
Proof. intros s. split_and!; simpl; try done; auto. Qed.

Lemma calm_on_cell {A} p (f : Live -> outcome AppError A * Live) :
  calm (@on_cell X A p f).
Proof.
  intros s. unfold on_cell. destruct (s_cells s !! p) as [l|] eqn:E; [|apply quiet_refl].
  destruct (f l) as [o l']. split_and!; simpl; try done; auto.
  intros q. destruct (decide (q = p)) as [->|Hne].
  - rewrite lookup_insert_eq, E. split; eauto.
  - by rewrite lookup_insert_ne by done.
Qed.

Lemma revoke_cells_dom stop pointers (cells : gmap nat Live) p :
  is_Some (revoke_cells stop pointers cells !! p) <-> is_Some (cells !! p).
Proof.
  unfold revoke_cells. rewrite map_lookup_imap.
  destruct (cells !! p); simpl; split; intros [? ?]; eauto; done.
Qed.

(** ** Saving *)

Lemma floor_run_core (s : sup) wall mono r r' :
  floor_run s wall mono r = Ok r' -> core r' = core r /\ run_id_of r' = run_id_of r.
Proof.
  unfold floor_run. intros Hf. repeat case_match; run_ok; done.
Qed.

Lemma floor_runs_ledger (s : sup) wall mono runs runs' id :
  floor_runs s wall mono runs = Ok runs' ->
  core <$> find_run id runs' = core <$> find_run id runs.
Proof.
  revert runs'. induction runs as [|r runs IH]; intros runs' Hf; simpl in Hf; run_ok; [done|].
  match goal with Hr : floor_run _ _ _ r = Ok _ |- _ => apply floor_run_core in Hr as [Ec Ei] end.
  simpl. rewrite Ei. case_match; simpl; [by rewrite Ec|auto].
Qed.

Lemma fail_closed_effect next (s : sup) :
  s_live (fail_closed next s) = s_live s /\
  (forall p, is_Some (s_cells (fail_closed next s) !! p) <-> is_Some (s_cells s !! p)) /\
  same_ledger (s_document (fail_closed next s)) next /\
  s_store (fail_closed next s) = s_store s /\ s_unavailable (fail_closed next s) = true.
Proof.
  split_and!; simpl; try done; [apply revoke_cells_dom|apply ledger_map, keeps_fault].
Qed.

Lemma try_store_effect next s o s' :
  try_store next s = (o, s') ->
  exists x, s' = with_store x s /\
  (forall d, holds x d -> holds (s_store s) d \/ (s_unavailable s = false /\ d = next)) /\
  (o = Ok true -> s_unavailable s = false /\ forall d, holds x d -> d = next).
Proof.
  unfold try_store. destruct (s_unavailable s) eqn:Eu.
  { intros [= <- <-]. exists (s_store s). by destruct s; naive_solver. }
  destruct (store_save next (s_store s)) as [r x] eqn:E. intros Ht. exists x.
  assert (forall d, holds x d -> holds (s_store s) d \/ d = next) as Hany.
  { intros d Hd. apply (save_any (s_store s) next d). by rewrite E. }
  split_and!.
  - by destruct r; injection Ht as _ <-.
  - intros d Hd. destruct (Hany d Hd); auto.
  - intros ->. split; [done|]. intros d Hd. destruct r as [u|e|h]; try done.
    destruct u. by apply (save_ok _ _ _ _ E).
Qed.

Lemma advance_refl next (s : sup) : advance next s s.
Proof. split_and!; try done; [by left|by auto]. Qed.

(** A lifted result that is no value ends the computation where it started. *)
Lemma lift_stops {E A B} (x : outcome E A) (s s' : sup) (o : outcome E B) :
  (exists e, mlift x s = (Err e, s') /\ o = Err e) \/
  (exists h, mlift x s = (Halt h, s') /\ o = Halt h) ->
  s' = s /\ forall b, o <> Ok b.
Proof. unfold mlift. intros [(e & [= _ <-] & ->)|(h & [= _ <-] & ->)]; done. Qed.

Lemma save_effect wall mono next s o s' :
  save wall mono next s = (o, s') ->
  advance next s s' /\
  (o = Ok tt -> s_unavailable s = false /\ s_unavailable s' = false /\
                same_ledger (s_document s') next /\
                s_cells s' = s_cells s /\ s_controls s' = s_controls s /\
                forall d, holds (s_store s') d -> same_ledger d next).
Proof.
  unfold save. intros Hs.
  apply mbind_inv in Hs as [(s0 & w & [= <- <-] & Hs)|[(e & [=] & _)|(h & [=] & _)]].
  apply mbind_inv in Hs as [(runs & w & [Hf ->]%mlift_ok & Hs)|Hs].
  2: { apply lift_stops in Hs as [-> Ho]; split; [apply advance_refl|by intros E%Ho]. }
  apply mbind_inv in Hs as [(rev & w & [Hr ->]%mlift_ok & Hs)|Hs].
  2: { apply lift_stops in Hs as [-> Ho]; split; [apply advance_refl|by intros E%Ho]. }
  apply mbind_inv in Hs as [(rev' & w & [Hr' ->]%mlift_ok & Hs)|Hs].
  2: { apply lift_stops in Hs as [-> Ho]; split; [apply advance_refl|by intros E%Ho]. }
  set (next' := with_revision _ _) in Hs.
  assert (same_ledger next' next) as El.
  { intros id. unfold ledger. simpl. by apply (floor_runs_ledger s wall mono). }
  apply mbind_inv in Hs as [(saved & w & Ht & Hs)|Hs].
  - apply try_store_effect in Ht as (x & -> & Hany & Hok). destruct saved.
    + injection Hs as <- <-. destruct Hok as [Hu Hd]; [done|]. split.
      * split_and!; simpl; try done; [by right|].
        intros d ->%Hd. right. auto.
      * intros _. split_and!; simpl; try done. by intros d ->%Hd.
    + injection Hs as <- <-. split; [|done].
      destruct (fail_closed_effect next' (with_store x s)) as (EL & EC & ED & ES & EU).
      split_and!; simpl in *; try done.
      * right. by rewrite ED.
      * intros d [?|[? ->]]%Hany; auto.
  - assert (exists x, s' = with_store x s /\
      (forall d, holds x d -> holds (s_store s) d \/ (s_unavailable s = false /\ d = next')) /\
      o <> Ok tt) as (x & -> & Hany & Ho).
    { destruct Hs as [(e & Ht & ->)|(h & Ht & ->)];
        apply try_store_effect in Ht as (x & -> & Hany & _); exists x; done. }
    split; [|done]. split_and!; simpl; try done; [by left|].
    intros d [?|[? ->]]%Hany; auto.
Qed.

Lemma calm_save wall mono next s :
  same_ledger next (s_document s) -> quiet s (snd (save wall mono next s)).
Proof.
  intros E. destruct (save wall mono next s) as [o s'] eqn:Es.
  apply save_effect in Es as [Ha _]. by eapply advance_quiet.
Qed.
End Effects.
