(* ===== verification/EngineFacts.v ===== *)
(** What holds in every reachable state of the strategy engine: each intent is
    durable before it is handed over, handed over at most once, within the
    limits the user granted; and an unresolved one survives restarts. *)
From stdpp Require Import gmap strings relations.
From S2P Require Import Prelude RustStr External Models Workflow StrategyTypes StrategyStore StrategyRun Supervisor Worker ContractFacts Engine.

(** ** The operations the ledger does not show *)

Section Calm.
Context {X : Type} `{StrategyStore X} {holds : X -> StrategyDocument -> Prop}
  {crash : X -> X -> Prop} `{!StoreLaws X holds crash}.
Local Abbreviation sup := (Supervisor X).
Local Abbreviation quiet := (quiet (holds := holds)).
Local Abbreviation calm := (calm (holds := holds)).

Lemma quiet_bind {E A B} (c : M sup E A) (k : A -> M sup E B) s :
  quiet s (snd (c s)) ->
  (forall a s', c s = (Ok a, s') -> quiet s' (snd (k a s'))) ->
  quiet s (snd (mbind c k s)).
Proof.
  intros Hc Hk. unfold mbind. destruct (c s) as [[a|e|h] s'] eqn:E'; simpl in *; try done.
  eapply quiet_trans; [done|by apply Hk].
Qed.

Lemma calm_set_tickets {E} t : calm (@modify X E (with_tickets t)).
Proof. exact (calm_tickets (fun _ => t)). Qed.

Lemma calm_map_tickets {E} (c : M sup E unit) t : calm c -> calm (modify (with_tickets t) ;;; c).
Proof. intros Hc. apply calm_bind; [apply calm_set_tickets|done]. Qed.

Hint Resolve calm_ret calm_fail calm_lift calm_get calm_bind calm_try calm_map_err
  calm_set_tickets calm_admission calm_on_cell : calm.

Lemma calm_ready : calm (@ready X).
Proof. unfold ready. eauto with calm. Qed.
Lemma calm_admission_epoch : calm (@admission_epoch X).
Proof. unfold admission_epoch. apply calm_bind; [eauto with calm|]. intros s. case_match; eauto with calm. Qed.
Lemma calm_state_of id : calm (@state_of X id).
Proof. unfold state_of. eauto with calm. Qed.
Lemma calm_list_runs : calm (@list_runs X).
Proof. unfold list_runs. apply calm_bind; [eauto with calm|]. intros s. case_match; eauto with calm. Qed.
Hint Resolve calm_ready calm_admission_epoch calm_state_of calm_list_runs : calm.

Lemma calm_mark wall mono id status reason : calm (mark wall mono id status reason).
Proof.
  unfold mark. apply calm_read. intros s. case_match; [|apply quiet_refl].
  apply quiet_bind.
  - unfold mtry. pose proof (calm_save (holds := holds) wall mono
      (with_runs (update_run id (mark_run status (Some reason)) (d_runs (s_document s)))
         (s_document s)) s) as Hs.
    destruct (save _ _ _ s) as [[] ?]; apply Hs; auto with ledger.
  - intros. apply quiet_refl.
Qed.
Hint Resolve calm_mark : calm.

Lemma calm_issue_ticket mono token t : calm (issue_ticket mono token t).
Proof.
  unfold issue_ticket. repeat (apply calm_bind; [eauto with calm|intros]). eauto with calm.
Qed.

Lemma calm_revoke_intent stop id : calm (@revoke_intent X stop id).
Proof.
  unfold revoke_intent. do 3 (apply calm_bind; [eauto with calm|intros]).
  apply calm_read. intros s. split_and!; simpl; auto; [|done].
  intros p. apply revoke_cells_dom.
Qed.
Hint Resolve calm_revoke_intent : calm.

Lemma calm_exit : calm (@revoke_for_exit X).
Proof. unfold revoke_for_exit. repeat (apply calm_bind; [eauto with calm|intros]). eauto with calm. Qed.

Lemma calm_stop_all wall mono : calm (stop_all wall mono).
Proof.
  unfold stop_all. do 2 (apply calm_bind; [eauto with calm|intros]).
  apply calm_read. intros s. apply quiet_bind.
  - case_match; [apply quiet_refl|]. apply calm_save.
    intros id. unfold ledger. simpl. rewrite find_run_map by (intros r; apply keeps_stop).
    destruct (find_run id _) as [r|]; [|done]. simpl. f_equal. apply keeps_stop.
  - intros. apply calm_list_runs.
Qed.

Lemma calm_control `{UuidLib} id action wall mono : calm (control id action wall mono).
Proof.
  unfold control. do 3 (apply calm_bind; [eauto with calm|intros]).
  apply calm_read. intros s. apply quiet_bind; [apply calm_lift|]. intros r s' [_ ->]%mlift_ok.
  apply quiet_bind; [apply calm_save; auto with ledger|].
  intros. apply calm_bind; eauto with calm.
Qed.

Lemma calm_reconcile_conclude id wall mono : calm (reconcile_conclude id wall mono).
Proof.
  unfold reconcile_conclude. apply calm_bind; [eauto with calm|]. intros r.
  apply calm_bind; [case_match; eauto with calm|]. intros _.
  apply calm_bind; eauto with calm.
Qed.

Lemma calm_take_ticket `{DecimalLib} `{Codec json} `{UuidLib} request :
  calm (@take_ticket _ _ _ X request).
Proof.
  unfold take_ticket. repeat (apply calm_bind; [eauto with calm|intros]). eauto with calm.
Qed.
End Calm.
#[export] Hint Resolve calm_mark calm_issue_ticket calm_exit calm_stop_all calm_control
  calm_reconcile_conclude calm_take_ticket calm_on_cell : calm.

(** ** The invariant *)

Definition seq_num (s : string) : Z := default 0 (parse_u64 s).

Lemma counter_seq s n : counter s = Ok n -> seq_num s = n /\ in_u64 n /\ s = u64_to_string n.
Proof.
  intros [Hn ->]%counter_canonical. unfold seq_num. by rewrite parse_u64_to_string.
Qed.

Lemma seq_num_text n : in_u64 n -> seq_num (u64_to_string n) = n.
Proof. intros Hn. unfold seq_num. by rewrite parse_u64_to_string. Qed.

Definition key_of (e : string * PendingAction) : string * string := (e.1, pa_sequence e.2).

(** How many requests of a run were handed over. *)
Fixpoint count_sent (id : string) (sent : list (string * PendingAction)) : nat :=
  match sent with
  | [] => 0
  | e :: rest => (if String.eqb e.1 id then 1 else 0) + count_sent id rest
  end.

Lemma count_sent_app id sent e :
  count_sent id (sent ++ [e]) = (count_sent id sent + if String.eqb e.1 id then 1 else 0)%nat.
Proof. induction sent as [|x sent IH]; simpl; [lia|]. rewrite IH. lia. Qed.

Lemma count_sent_none id sent :
  (forall p, (id, p) ∉ sent) -> count_sent id sent = 0%nat.
Proof.
  induction sent as [|[id' p] sent IH]; intros Hn; simpl; [done|].
  destruct (String.eqb_spec id' id) as [->|].
  - exfalso. apply (Hn p). by left.
  - rewrite IH; [done|]. intros q Hq. apply (Hn q). by right.
Qed.

Section Invariant.
Context `{DecimalLaws} `{!DecimalTextLaws} `{Codec json} `{UuidLib}.
Context {X : Type} `{StrategyStore X} {holds : X -> StrategyDocument -> Prop}
  {crash : X -> X -> Prop} `{!StoreLaws X holds crash}.
Local Abbreviation sup := (Supervisor X).

(** The limits the user granted, on what the run has spent. *)
Definition within_caps (c : Core) : Prop :=
  c_actions c <= max_actions (c_policy c) /\
  exists total limit, dec_from_str_exact (c_total c) = Some total /\
    quantity (max_total_qty (c_policy c)) = Ok limit /\ dec_ltb limit total = false.

(** What a ledger shows of a task: its intent. *)
Definition shows (sent : list (string * PendingAction)) (L : string -> option Core) (t : Task)
    : Prop :=
  match t with
  | Prepared id _ pending =>
      exists c, L id = Some c /\ c_pending c = Some pending /\
                c_sequence c = pa_sequence pending /\
                Z.of_nat (count_sent id sent) + 1 <= c_actions c
  | Awaiting id _ pending => exists c, L id = Some c /\ c_pending c = Some pending
  | _ => True
  end.

(** A ledger that accounts for everything that was handed over. *)
Record good (tasks : gmap nat Task) (sent : list (string * PendingAction))
    (L : string -> option Core) : Prop := {
  g_sent id p : (id, p) ∈ sent ->
    exists c, L id = Some c /\ seq_num (pa_sequence p) <= seq_num (c_sequence c);
  g_caps id c : L id = Some c ->
    Z.of_nat (count_sent id sent) <= c_actions c /\ within_caps c;
  g_tasks q t : tasks !! q = Some t -> shows sent L t;
}.

(** What a worker knows that only it can change. *)
Definition knows (sent : list (string * PendingAction)) (L : string -> option Core) (t : Task)
    : Prop :=
  match t with
  | Deciding id record sequence =>
      L id = Some (core record) /\ pending_action record = None /\
      exists n, counter (v_sequence (view record)) = Ok n /\ n + 1 <= u64_max /\
                sequence = u64_to_string (n + 1)
  | Prepared id _ pending => (id, pa_sequence pending) ∉ map key_of sent
  | _ => True
  end.

Record inv (e : Engine X) : Prop := {
  i_memory : good (e_tasks e) (e_sent e) (ledger (s_document (e_sup e))) \/
             (s_unavailable (e_sup e) = true /\ e_tasks e = ∅ /\ s_live (e_sup e) = ∅);
  i_store d : holds (s_store (e_sup e)) d -> good (e_tasks e) (e_sent e) (ledger d);
  i_live q t : e_tasks e !! q = Some t ->
    s_live (e_sup e) !! task_id t = Some q /\ is_Some (s_cells (e_sup e) !! q);
  i_known id : is_Some (s_live (e_sup e) !! id) ->
    is_Some (ledger (s_document (e_sup e)) id);
  i_knows q t : e_tasks e !! q = Some t ->
    knows (e_sent e) (ledger (s_document (e_sup e))) t;
  i_once : NoDup (map key_of (e_sent e));
}.

Lemma good_ext tasks sent L L' :
  (forall id, L' id = L id) -> good tasks sent L -> good tasks sent L'.
Proof.
  intros E [G1 G2 G3]. split.
  - intros id p Hp. rewrite E. by apply G1.
  - intros id c. rewrite E. apply G2.
  - intros q t Ht. specialize (G3 q t Ht). destruct t; simpl in *; try done; by rewrite E.
Qed.

Lemma knows_ext sent L L' t : (forall id, L' id = L id) -> knows sent L t -> knows sent L' t.
Proof. intros E. destruct t; simpl; try done. by rewrite E. Qed.

(** Replacing a task by one the ledger need not show. *)
Lemma good_task tasks sent L q t :
  good tasks sent L -> shows sent L t -> good (<[q := t]> tasks) sent L.
Proof.
  intros [G1 G2 G3] Ht. split; [done|done|].
  intros q' t' [[<- <-]|[Hne Hl]]%lookup_insert_Some; [done|by apply (G3 q')].
Qed.

Lemma good_no_tasks tasks sent L : good tasks sent L -> good ∅ sent L.
Proof. intros [G1 G2 G3]. split; [done|done|]. intros q t. by rewrite lookup_empty. Qed.

Lemma good_delete tasks sent L q : good tasks sent L -> good (delete q tasks) sent L.
Proof.
  intros [G1 G2 G3]. split; [done|done|]. intros q' t [_ Ht]%lookup_delete_Some. by apply (G3 q').
Qed.

(** An operation the ledger does not show keeps the invariant. *)
Lemma inv_quiet s s' tasks sent :
  quiet (holds := holds) s s' ->
  inv (MkEngine s tasks sent) -> inv (MkEngine s' tasks sent).
Proof.
  intros (EL & EC & ED & EH & EU) [I1 I2 I3 I4 I5 I6]. split; simpl in *; [..|done].
  - destruct I1 as [I1|(? & ? & ?)]; [left|right].
    + by apply (good_ext _ _ (ledger (s_document s))).
    + rewrite EL. auto.
  - intros d [Hd|[Hu Hd]]%EH; [auto|]. destruct I1 as [I1|(? & _)]; [|congruence].
    by apply (good_ext _ _ (ledger (s_document s))).
  - intros q t Ht. rewrite EL, EC. by apply I3.
  - intros id. rewrite EL, ED. apply I4.
  - intros q t Ht. apply (knows_ext _ (ledger (s_document s))); [done|by apply (I5 q)].
Qed.

Lemma inv_calm {E A} (c : M sup E A) s tasks sent :
  calm (holds := holds) c ->
  inv (MkEngine s tasks sent) -> inv (MkEngine (snd (c s)) tasks sent).
Proof. intros Hc. apply inv_quiet, Hc. Qed.

(** A worker's step to a task without claims. *)
Lemma inv_task s tasks sent q t t' :
  tasks !! q = Some t -> task_id t' = task_id t ->
  (forall L, shows sent L t') -> knows sent (ledger (s_document s)) t' ->
  inv (MkEngine s tasks sent) -> inv (MkEngine s (<[q := t']> tasks) sent).
Proof.
  intros Ht Ei Hs Hk [I1 I2 I3 I4 I5 I6]. split; simpl in *; [..|done].
  - destruct I1 as [I1|(_ & Em & _)].
    + left. by apply good_task.
    + rewrite Em in Ht. by rewrite lookup_empty in Ht.
  - intros d Hd. apply good_task; auto.
  - intros q' u [[<- <-]|[Hne Hl]]%lookup_insert_Some; [rewrite Ei|]; by apply I3.
  - done.
  - intros q' u [[<- <-]|[Hne Hl]]%lookup_insert_Some; [done|by apply (I5 q')].
Qed.

(** Two tasks never work on one run. *)
Lemma task_unique e q q' t t' :
  inv e -> e_tasks e !! q = Some t -> e_tasks e !! q' = Some t' ->
  task_id t = task_id t' -> q = q'.
Proof.
  intros I [T1 _]%(i_live _ I) [T2 _]%(i_live _ I) E. rewrite E in T1. congruence.
Qed.

(** ** Updates of one run *)

(** What an update of a run may do to its core. *)
Definition grows (c c' : Core) : Prop :=
  seq_num (c_sequence c) <= seq_num (c_sequence c') /\
  c_actions c <= c_actions c' /\ within_caps c'.

Definition update (L : string -> option Core) (id : string) (c : Core) : string -> option Core :=
  fun id' => if decide (id' = id) then Some c else L id'.

Lemma shows_other sent L id c t :
  task_id t <> id -> shows sent L t -> shows sent (update L id c) t.
Proof. destruct t; simpl; try done; unfold update; intros; by rewrite decide_False. Qed.

Lemma knows_other sent L id c t :
  task_id t <> id -> knows sent L t -> knows sent (update L id c) t.
Proof. destruct t; simpl; try done; unfold update; intros; by rewrite decide_False. Qed.

Lemma good_update tasks tasks' sent L id c c' :
  good tasks sent L -> L id = Some c -> grows c c' ->
  (forall q t, tasks' !! q = Some t ->
     shows sent (update L id c') t \/ (tasks !! q = Some t /\ task_id t <> id)) ->
  good tasks' sent (update L id c').
Proof.
  intros [G1 G2 G3] Hc (Hs & Ha & Hw) Ht. split.
  - intros id' p Hp. destruct (G1 id' p Hp) as (c1 & E1 & Hle). unfold update.
    case_decide as Hd; [|eauto]. subst id'. exists c'. split; [done|].
    assert (c1 = c) as -> by congruence. lia.
  - intros id' c1. unfold update. case_decide as Hd.
    + intros [= <-]. subst id'. destruct (G2 id c Hc). split; [lia|done].
    + apply G2.
  - intros q t Hq. destruct (Ht q t Hq) as [?|[Hq' Hne]]; [done|].
    apply shows_other; [done|by apply (G3 q)].
Qed.

Lemma inv_advance s s' tasks tasks' sent next :
  advance (holds := holds) next s s' ->
  inv (MkEngine s tasks sent) ->
  (tasks = ∅ -> tasks' = ∅) ->
  (forall L, good tasks sent L -> good tasks' sent L) ->
  (good tasks sent (ledger (s_document s)) -> good tasks' sent (ledger next)) ->
  (forall q t, tasks' !! q = Some t -> exists t0, tasks !! q = Some t0 /\ task_id t = task_id t0) ->
  (forall q t, tasks' !! q = Some t ->
     knows sent (ledger (s_document s)) t /\ knows sent (ledger next) t) ->
  (forall id, is_Some (ledger (s_document s) id) -> is_Some (ledger next id)) ->
  inv (MkEngine s' tasks' sent).
Proof.
  intros (EL & EC & ED & EH & EU) [I1 I2 I3 I4 I5 I6] Ha Hb Hc Hd He Hf.
  simpl in *. split; simpl; [..|done].
  - destruct I1 as [I1|(? & ? & ?)]; [left|right].
    + destruct ED as [ED|ED]; eapply good_ext; [exact ED|by apply Hb|exact ED|by apply Hc].
    + rewrite EL. auto.
  - intros d [Hh|[Hu Hh]]%EH; [by apply Hb, I2|]. destruct I1 as [I1|(? & _)]; [|congruence].
    eapply good_ext; [exact Hh|by apply Hc].
  - intros q t (t0 & Ht0 & Ei)%Hd. rewrite EL, EC, Ei. by apply I3.
  - intros id. rewrite EL. intros Hl%I4. destruct ED as [ED|ED]; rewrite ED; auto.
  - intros q t [H1' H2']%He. destruct ED as [ED|ED]; by eapply knows_ext.
Qed.

(** An update of the run a worker is at, or of a run no worker is at. *)
Lemma inv_replace wall mono s o s' tasks q t t' sent id r r' :
  save wall mono (replace_run id r' (s_document s)) s = (o, s') ->
  inv (MkEngine s tasks sent) ->
  find_run id (d_runs (s_document s)) = Some r -> run_id_of r' = id ->
  (within_caps (core r) -> grows (core r) (core r')) ->
  tasks !! q = Some t -> task_id t = id -> task_id t' = id ->
  (forall L, shows sent L t') -> (forall L, knows sent L t') ->
  inv (MkEngine s' (<[q := t']> tasks) sent).
Proof.
  intros Hs Hi Hr Hid Hg Hq Ei Ei' Hsh Hk.
  assert (forall id', ledger (replace_run id r' (s_document s)) id'
          = update (ledger (s_document s)) id (core r') id') as El.
  { intros id'. rewrite ledger_replace by (rewrite ?Hr; eauto). done. }
  assert (forall q' u, <[q := t']> tasks !! q' = Some u -> u = t' \/
            (tasks !! q' = Some u /\ task_id u <> id)) as Hcase.
  { intros q' u [[<- <-]|[Hne Hl]]%lookup_insert_Some; [by left|right].
    split; [done|]. intros E. apply Hne. eapply (task_unique (MkEngine s tasks sent)); eauto.
    by rewrite E, Ei. }
  apply save_effect in Hs as [Ha _].
  eapply inv_advance; try done.
  - intros ->. by rewrite lookup_empty in Hq.
  - intros L Hl. by apply good_task.
  - intros Hm. eapply good_ext; [exact El|].
    apply (good_update tasks _ _ _ _ (core r)); [done| | |].
    + unfold ledger. by rewrite Hr.
    + apply Hg. apply (g_caps _ _ _ Hm id). unfold ledger. by rewrite Hr.
    + intros q' u [->|?]%Hcase; auto.
  - intros q' u Hu. destruct (Hcase _ _ Hu) as [->|[Hl _]].
    + apply lookup_insert_Some in Hu as [[<- _]|[_ Hl]]; [|eauto].
      exists t. split; [done|congruence].
    + eauto.
  - intros q' u [->|[Hl Hne]]%Hcase; [auto|].
    pose proof (i_knows _ Hi q' u Hl) as Hku. simpl in Hku. split; [done|].
    eapply knows_ext; [exact El|]. by apply knows_other.
  - intros id' Hl. rewrite El. unfold update. case_decide; eauto.
Qed.

Lemma inv_replace_idle wall mono s o s' tasks sent id r r' :
  save wall mono (replace_run id r' (s_document s)) s = (o, s') ->
  inv (MkEngine s tasks sent) ->
  find_run id (d_runs (s_document s)) = Some r -> run_id_of r' = id ->
  (within_caps (core r) -> grows (core r) (core r')) ->
  (forall q t, tasks !! q = Some t -> task_id t <> id) ->
  inv (MkEngine s' tasks sent).
Proof.
  intros Hs Hi Hr Hid Hg Hno.
  assert (forall id', ledger (replace_run id r' (s_document s)) id'
          = update (ledger (s_document s)) id (core r') id') as El.
  { intros id'. rewrite ledger_replace by (rewrite ?Hr; eauto). done. }
  apply save_effect in Hs as [Ha _].
  eapply inv_advance; try done; eauto.
  - intros Hm. eapply good_ext; [exact El|].
    apply (good_update tasks _ _ _ _ (core r)); [done| | |].
    + unfold ledger. by rewrite Hr.
    + apply Hg. apply (g_caps _ _ _ Hm id). unfold ledger. by rewrite Hr.
    + intros q' u Hu. right. eauto.
  - intros q' u Hu. pose proof (i_knows _ Hi q' u Hu) as Hku. simpl in Hku. split; [done|].
    eapply knows_ext; [exact El|]. apply knows_other; eauto.
  - intros id' Hl. rewrite El. unfold update. case_decide; eauto.
Qed.
End Invariant.
