(* ===== verification/EngineSafety.v ===== *)
(** The steps of the strategy engine keep the invariant of EngineFacts.v, and
    what follows: intents are durable, unique and within the limits. *)
From stdpp Require Import gmap strings relations.
From S2P Require Import Prelude RustStr External Models Workflow StrategyTypes StrategyStore StrategyRun Supervisor Worker ContractFacts Engine EngineFacts.

Section Steps.
Context `{DecimalLaws} `{!DecimalTextLaws} `{Codec json} `{UuidLib}.
Context {X : Type} `{StrategyStore X} {holds : X -> StrategyDocument -> Prop}
  {crash : X -> X -> Prop} `{!StoreLaws X holds crash}.
Local Abbreviation sup := (Supervisor X).
Local Abbreviation inv := (inv (holds := holds)).
Local Abbreviation quiet := (quiet (holds := holds)).

(** ** Settling *)

Lemma settle_run_core p kind status accepted accepted_id r r' :
  settle_run p kind status accepted accepted_id r = Ok r' ->
  run_id_of r' = run_id_of r /\
  (within_caps (core r) -> grows (core r) (core r')).
Proof.
  unfold settle_run. intros Hs. run_ok. split; [done|].
  intros Hw. split_and!; simpl; [lia|lia|done].
Qed.

(** A settlement saves one updated run, or ends before it changed anything. *)
Lemma settle_response_inv id pending response wall mono s o s' :
  settle_response id pending response wall mono s = (o, s') ->
  (s' = s /\ forall x, o <> Ok x) \/
  exists r r' o', find_run id (d_runs (s_document s)) = Some r /\ run_id_of r' = id /\
    (within_caps (core r) -> grows (core r) (core r')) /\
    save wall mono (replace_run id r' (s_document s)) s = (o', s') /\
    (forall x, o = Ok x -> o' = Ok tt).
Proof.
  unfold settle_response. intros Hs.
  assert (forall (c : M sup AppError (option string)),
    c = match pa_action pending with
        | AAmendOrder _ => let* r := state_of id in mret (original_link pending r)
        | _ => mret None
        end -> forall r w, c s = (r, w) -> w = s) as Hread.
  { intros c -> r w. destruct (pa_action pending); try (by intros [= _ <-]).
    unfold state_of, mbind, get_sup, mlift. destruct (ok_or _ _); by intros [= _ <-]. }
  apply mbind_inv in Hs as [(link & w & Hl & Hs)|[(e & Hl & ->)|(h & Hl & ->)]];
    apply Hread in Hl as ->; [|done|by left|done|by left|done].
  destruct (classify pending link response) as [[status accepted] accepted_id].
  apply mbind_inv in Hs as [(kind & w & [Hk ->]%mlift_ok & Hs)|Hs];
    [|left; by apply lift_stops in Hs].
  apply mbind_inv in Hs as [(s0 & w & [= <- <-] & Hs)|[(e & [=] & _)|(h & [=] & _)]].
  apply mbind_inv in Hs as [(r & w & [Hr ->]%mlift_ok & Hs)|Hs];
    [|left; by apply lift_stops in Hs].
  apply mbind_inv in Hs as [(u & w & [_ ->]%mlift_ok & Hs)|Hs];
    [|left; by apply lift_stops in Hs].
  apply mbind_inv in Hs as [(r' & w & [Hr' ->]%mlift_ok & Hs)|Hs];
    [|left; by apply lift_stops in Hs].
  apply ok_or_ok in Hr. right. exists r, r'.
  pose proof (settle_run_core _ _ _ _ _ _ _ Hr') as [Ei Hg].
  rewrite (find_run_id _ _ _ Hr) in Ei.
  apply mbind_inv in Hs as [(u' & w & Hsv & Hs)|[(e & Hsv & ->)|(h & Hsv & ->)]].
  - destruct u'. injection Hs as <- <-. exists (Ok tt). split_and!; auto.
  - exists (Err e). split_and!; done.
  - exists (Halt h). split_and!; done.
Qed.

Lemma inv_settle id pending response wall mono s o s' tasks q t t' sent :
  settle_response id pending response wall mono s = (o, s') ->
  inv (MkEngine s tasks sent) ->
  tasks !! q = Some t -> task_id t = id -> task_id t' = id ->
  (forall L, shows sent L t') -> (forall L, knows sent L t') ->
  inv (MkEngine s' (<[q := t']> tasks) sent).
Proof.
  intros Hs Hi Hq Ei Ei' Hsh Hk.
  apply settle_response_inv in Hs as [[-> _]|(r & r' & o' & Hr & Hid & Hg & Hs & _)].
  - apply (inv_task _ _ _ _ t); auto. congruence.
  - eapply inv_replace; eauto.
Qed.

Lemma inv_settle_idle id pending response wall mono s tasks sent :
  inv (MkEngine s tasks sent) -> s_live s !! id = None ->
  inv (MkEngine (snd (settle_response id pending response wall mono s)) tasks sent).
Proof.
  intros Hi Hn. destruct (settle_response id pending response wall mono s) as [o s'] eqn:Hs.
  apply settle_response_inv in Hs as [[-> _]|(r & r' & o' & Hr & Hid & Hg & Hs & _)]; [done|].
  eapply inv_replace_idle; eauto.
  intros q t Ht E. apply (i_live _ Hi) in Ht as [Hl _]. simpl in Hl. congruence.
Qed.

(** ** Concluding *)

(** A conclusion clears one pending intent, or the ledger does not show it. *)
Lemma conclude_inv id pending acknowledged wall mono s :
  quiet s (snd (conclude id pending acknowledged wall mono s)) \/
  exists r o, find_run id (d_runs (s_document s)) = Some r /\
    save wall mono (replace_run id (set_pending None r) (s_document s)) s
    = (o, snd (conclude id pending acknowledged wall mono s)).
Proof.
  unfold conclude. destruct acknowledged; [|left; apply calm_mark].
  destruct ((let* _ := _ in _) s) as [o s'] eqn:Hs. simpl.
  apply mbind_inv in Hs as [(s0 & w & [= <- <-] & Hs)|[(e & [=] & _)|(h & [=] & _)]].
  apply mbind_inv in Hs as [(r & w & [Hr ->]%mlift_ok & Hs)|Hs];
    [|left; apply lift_stops in Hs as [-> _]; apply quiet_refl].
  apply mbind_inv in Hs as [(u & w & [_ ->]%mlift_ok & Hs)|Hs];
    [|left; apply lift_stops in Hs as [-> _]; apply quiet_refl].
  apply ok_or_ok in Hr. right. eauto.
Qed.

Lemma set_pending_grows r : within_caps (core r) -> grows (core r) (core (set_pending None r)).
Proof. intros Hw. split_and!; simpl; [lia|lia|done]. Qed.

Lemma inv_conclude id pending acknowledged wall mono s tasks q t t' sent :
  inv (MkEngine s tasks sent) ->
  tasks !! q = Some t -> task_id t = id -> task_id t' = id ->
  (forall L, shows sent L t') -> (forall L, knows sent L t') ->
  inv (MkEngine (snd (conclude id pending acknowledged wall mono s)) (<[q := t']> tasks) sent).
Proof.
  intros Hi Hq Ei Ei' Hsh Hk.
  destruct (conclude_inv id pending acknowledged wall mono s) as [Hc|(r & o & Hr & Hs)].
  - apply (inv_quiet s); [done|]. apply (inv_task _ _ _ _ t); auto. congruence.
  - eapply inv_replace; eauto using set_pending_grows. exact (find_run_id _ _ _ Hr).
Qed.

Lemma inv_conclude_idle id pending acknowledged wall mono s tasks sent :
  inv (MkEngine s tasks sent) -> s_live s !! id = None ->
  inv (MkEngine (snd (conclude id pending acknowledged wall mono s)) tasks sent).
Proof.
  intros Hi Hn.
  destruct (conclude_inv id pending acknowledged wall mono s) as [Hc|(r & o & Hr & Hs)].
  - by apply (inv_quiet s).
  - eapply inv_replace_idle; eauto using set_pending_grows; [exact (find_run_id _ _ _ Hr)|].
    intros q t Ht E. apply (i_live _ Hi) in Ht as [Hl _]. simpl in Hl. congruence.
Qed.

(** ** Deciding and committing *)

Definition spent_qty (a : StrategyAction) : option string :=
  match a with
  | APlaceOrder order | APlaceProtectedOrder order _ => Some (pp_qty order)
  | AAmendOrder order => Some (ap_qty order)
  | _ => None
  end.

Lemma over_limits_false p qty total :
  over_limits p qty total = Ok false ->
  exists limit, quantity (max_total_qty p) = Ok limit /\ dec_ltb limit total = false.
Proof.
  unfold over_limits. intros Ho. run_ok. case_match; run_ok; [done|].
  eauto.
Qed.

(** An admitted submission is within the limits of the run it was judged by. *)
Lemma validate_action_limits action r snapshot a :
  validate_action action r snapshot = Ok a -> a <> ANone -> a <> AStop ->
  v_actions_submitted (view r) < max_actions (v_policy (view r)) /\
  forall q, spent_qty a = Some q ->
    exists qty total limit, quantity q = Ok qty /\ total_with (view r) qty = Ok total /\
      quantity (max_total_qty (v_policy (view r))) = Ok limit /\ dec_ltb limit total = false.
Proof.
  intros Hv Hn Hs. unfold validate_action in Hv. destruct action; run_ok; try done.
  all: match goal with Hg : (_ <=? _) = false |- _ => apply Z.leb_gt in Hg end; split; [done|].
  - unfold admit_place in Hv. run_ok. bools. subst. simpl. intros q [= <-].
    edestruct over_limits_false as (limit & ? & ?); [done|]. by eauto 10.
  - unfold admit_cancel in Hv. run_ok. done.
  - unfold admit_amend in Hv. run_ok. subst. simpl. intros q [= <-].
    edestruct over_limits_false as (limit & ? & ?); [done|]. by eauto 10.
  - unfold admit_protected in Hv. run_ok. subst. simpl. intros q [= <-].
    edestruct over_limits_false as (limit & ? & ?); [done|]. by eauto 10.
Qed.

(** What a commit does to the core of its run. *)
Lemma commit_submission_core action new_id sequence now_ms output r r' pending :
  commit_submission action new_id sequence now_ms output r = Ok (r', pending) ->
  run_id_of r' = run_id_of r /\ c_sequence (core r') = sequence /\
  c_actions (core r') = c_actions (core r) + 1 /\ c_policy (core r') = c_policy (core r) /\
  c_pending (core r') = Some pending /\ pa_sequence pending = sequence /\
  pa_action pending = action /\
  match spent_qty action with
  | Some q => exists qty total, quantity q = Ok qty /\ total_with (view r) qty = Ok total /\
                c_total (core r') = canonical_text total
  | None => c_total (core r') = c_total (core r)
  end.
Proof.
  unfold commit_submission. intros Hc. run_ok.
  match goal with Hu : u32_checked_add _ _ = Some _ |- _ =>
    unfold u32_checked_add in Hu; destruct (_ <=? u32_max); [injection Hu as <-|done] end.
  match goal with x : (_ * _ * gmap string OwnedOrder)%type |- _ => destruct x as [[total sub] own] end.
  simpl in Hc. injection Hc as <- <-. simpl. split_and!; try done.
  destruct action; simpl in *; run_ok; try done;
    eexists _, _; (split; [done|]); (split; [|done]); unfold total_with;
    repeat match goal with Hx : _ = Some _ |- _ => rewrite Hx; clear Hx; simpl end; done.
Qed.

Lemma then_ret {B} (c : M sup AppError unit) (k : B) s o w :
  (c ;;; mret k) s = (o, w) ->
  exists o', c s = (o', w) /\ (forall x, o = Ok x -> o' = Ok tt /\ x = k).
Proof.
  intros Hk.
  apply mbind_inv in Hk as [([] & ? & Hk & [= <- <-])|[(e & Hk & ->)|(h & Hk & ->)]];
    rewrite Hk; eexists; (split; [done|]); by intros ? [= <-].
Qed.

(** A commit saves one updated run, or ends before it changed anything. *)
Lemma pass_commit_inv id p record sequence action output new_id epoch now wall mono s o s' :
  pass_commit id p record sequence action output new_id epoch now wall mono s = (o, s') ->
  (s' = s /\ forall x, o <> Ok x) \/
  exists r r' o', s_unavailable s = false /\ find_run id (d_runs (s_document s)) = Some r /\
    pending_action r = None /\
    save wall mono (replace_run id r' (s_document s)) s = (o', s') /\
    (forall x, o = Ok x -> o' = Ok tt) /\
    ((exists keep, (action = ANone \/ action = AStop) /\
        r' = commit_quiet keep sequence (u64_to_string now) output r /\
        forall x, o = Ok x -> x = inl keep) \/
     (exists pending, action <> ANone /\ action <> AStop /\
        commit_submission action new_id sequence (u64_to_string now) output r
          = Ok (r', pending) /\ forall x, o = Ok x -> x = inr pending)).
Proof.
  unfold pass_commit. intros Hs.
  apply mbind_inv in Hs as [([] & w & Hr & Hs)|Hs].
  2: { left. unfold ready in Hs. destruct Hs as [(e & He & ->)|(h & He & ->)];
       apply mbind_inv in He as [(? & ? & [= <- <-] & He)|[(? & [=] & _)|(? & [=] & _)]];
       by injection He as _ <-. }
  unfold ready in Hr. apply mbind_ok in Hr as (? & ? & [= <- <-] & [Hu ->]%mlift_ok).
  apply guard_ok in Hu.
  apply mbind_inv in Hs as [(s0 & w & [= <- <-] & Hs)|[(e & [=] & _)|(h & [=] & _)]].
  do 4 (apply mbind_inv in Hs as [(? & ? & [? ->]%mlift_ok & Hs)|Hs];
    [|left; by apply lift_stops in Hs]).
  match goal with Hf : ok_or stale (find_run id _) = Ok ?r |- _ => apply ok_or_ok in Hf as Hr; rename r into r0 end.
  match goal with Hg : guard (_ || is_some (pending_action r0)) _ = _ |- _ =>
    apply guard_ok in Hg; bools end.
  assert (pending_action r0 = None) as Hp by (by destruct (pending_action r0)).
  assert ((exists keep, (action = ANone \/ action = AStop) /\
      (save wall mono (replace_run id (commit_quiet keep sequence (u64_to_string now) output r0)
         (s_document s)) ;;; mret (inl keep)) s = (o, s')) \/
    (action <> ANone /\ action <> AStop /\
     (let* (r, pending) := mlift (commit_submission action new_id sequence (u64_to_string now)
                                    output r0) in
      save wall mono (replace_run id r (s_document s)) ;;; mret (inr pending)) s = (o, s')))
    as [(keep & Ha & Hk)|(Hn & Hst & Hk)].
  { destruct action; [left; exists true; split; [by left|exact Hs]
      |left; exists false; split; [by right|exact Hs]|right; done..]. }
  - right. apply then_ret in Hk as (o' & Hsv & Ho). exists r0, (commit_quiet keep sequence (u64_to_string now) output r0), o'.
    split_and!; [done..|by intros y [? _]%Ho|]. left. exists keep. split_and!; [done..|].
    by intros y [_ ?]%Ho.
  - apply mbind_inv in Hk as [([r1 pending] & ? & [Hc ->]%mlift_ok & Hk)|Hk];
      [|left; by apply lift_stops in Hk].
    right. apply then_ret in Hk as (o' & Hsv & Ho). exists r0, r1, o'.
    split_and!; [done..|by intros y [? _]%Ho|]. right. exists pending. split_and!; [done..|].
    by intros y [_ ?]%Ho.
Qed.

Lemma pass_read_inv id (s w : sup) record sequence :
  pass_read id s = (Ok (record, sequence), w) ->
  w = s /\ ledger (s_document s) id = Some (core record) /\ pending_action record = None /\
  exists n, counter (v_sequence (view record)) = Ok n /\ n + 1 <= u64_max /\
            sequence = u64_to_string (n + 1).
Proof.
  unfold pass_read. intros Hp.
  apply mbind_ok in Hp as (r & w1 & Hr & Hp). unfold state_of in Hr.
  apply mbind_ok in Hr as (s0 & w0 & [= <- <-] & [Hr ->]%mlift_ok). apply ok_or_ok in Hr.
  run_ok. bools. unfold u64_checked_add in *.
  match goal with Hx : (if ?b then _ else _) = Some _ |- _ =>
    destruct b eqn:Eb; [injection Hx as <-|done] end.
  apply Z.leb_le in Eb. unfold ledger. rewrite Hr. split_and!; [done..| |].
  - by destruct (pending_action record).
  - eauto.
Qed.

Lemma inv_read s tasks sent p id record sequence :
  inv (MkEngine s tasks sent) -> tasks !! p = Some (Looping id) ->
  pass_read id s = (Ok (record, sequence), s) ->
  inv (MkEngine s (<[p := Deciding id record sequence]> tasks) sent).
Proof.
  intros Hi Ht (_ & Hk)%pass_read_inv. by apply (inv_task _ _ _ _ (Looping id)).
Qed.

(** The committed core is within the limits the action was admitted under. *)
Lemma commit_grows action record first second output r r' pending new_id sequence now_ms n :
  pass_decide record output first second = Ok action -> action <> ANone -> action <> AStop ->
  core r = core record ->
  commit_submission action new_id sequence now_ms output r = Ok (r', pending) ->
  counter (v_sequence (view record)) = Ok n -> n + 1 <= u64_max ->
  sequence = u64_to_string (n + 1) ->
  within_caps (core r) -> grows (core r) (core r').
Proof.
  intros Hd Hn Hs Ec Hc Hcnt Hmax Hseq Hw.
  unfold pass_decide in Hd. run_ok.
  match goal with Hv : validate_action _ _ _ = Ok _ |- _ =>
    apply validate_action_limits in Hv as [Hlt Hq]; [|done..] end.
  apply commit_submission_core in Hc as (_ & E1 & E2 & E3 & _ & _ & _ & E4).
  apply counter_seq in Hcnt as (En & Hr & _).
  assert (v_sequence (view r) = v_sequence (view record)) as Es by (by injection Ec).
  assert (v_actions_submitted (view r) = v_actions_submitted (view record)) as Ea by (by injection Ec).
  assert (v_policy (view r) = v_policy (view record)) as Ep by (by injection Ec).
  assert (v_total_submitted_qty (view r) = v_total_submitted_qty (view record)) as Et
    by (by injection Ec).
  split_and!.
  - rewrite E1, Hseq. simpl. rewrite Es, En, seq_num_text; [lia|]. unfold in_u64 in *. lia.
  - rewrite E2. lia.
  - destruct Hw as [Hwa (t & l & Ht & Hl & Hle)]. split.
    + rewrite E2, E3. simpl. rewrite Ea, Ep. lia.
    + rewrite E3. destruct (spent_qty action) as [q|].
      * destruct E4 as (qty & total & Hqty & Htot & ->).
        destruct (Hq q eq_refl) as (qty' & total' & limit & Hqty' & Htot' & Hlim & Hle').
        assert (qty' = qty) as -> by congruence.
        assert (total' = total) as ->.
        { revert Htot Htot'. unfold total_with. rewrite Et. congruence. }
        destruct (dec_exact_to_string total) as (t' & Ht' & Hcmp).
        exists t', limit. split_and!; [done|simpl; by rewrite Ep|].
        by rewrite (dec_ltb_eq_r t' total).
      * rewrite E4. eauto.
Qed.

(** What a commit saves, in the knowledge of its worker. *)
Lemma commit_update s tasks sent p id record sequence output action first second new_id epoch
    now wall mono o s' :
  inv (MkEngine s tasks sent) -> tasks !! p = Some (Deciding id record sequence) ->
  pass_decide record output first second = Ok action ->
  pass_commit id p record sequence action output new_id epoch now wall mono s = (o, s') ->
  (s' = s /\ forall x, o <> Ok x) \/
  exists r r' o', find_run id (d_runs (s_document s)) = Some r /\ run_id_of r' = id /\
    s_unavailable s = false /\
    (within_caps (core r) -> grows (core r) (core r')) /\
    save wall mono (replace_run id r' (s_document s)) s = (o', s') /\
    (forall x, o = Ok x -> o' = Ok tt) /\
    (forall pending, o = Ok (inr pending) ->
       c_pending (core r') = Some pending /\ c_sequence (core r') = sequence /\
       pa_sequence pending = sequence /\ c_actions (core r') = c_actions (core r) + 1).
Proof.
  intros Hi Ht Hd Hc.
  pose proof (i_knows _ Hi _ _ Ht) as (EL & Hp & n & Hcnt & Hmax & Hseq). simpl in EL.
  apply pass_commit_inv in Hc as [?|(r & r' & o' & Hu & Hr & _ & Hs & Ho & Hcase)]; [by left|].
  assert (core r = core record) as Ec.
  { unfold ledger in EL. rewrite Hr in EL. by apply (inj Some) in EL. }
  pose proof (find_run_id _ _ _ Hr) as Hid.
  assert (v_sequence (view r) = v_sequence (view record)) as Es by (by injection Ec).
  right. exists r, r', o'.
  destruct Hcase as [(keep & _ & -> & Hx)|(pending & Hn & Hst & Hcs & Hx)].
  - split_and!; try done.
    + intros Hw. apply counter_seq in Hcnt as (En & Hr0 & _). split_and!; simpl; [|lia|done].
      rewrite Es, En, Hseq, seq_num_text; [lia|]. unfold in_u64 in *. lia.
    + intros pending ->. by specialize (Hx _ eq_refl).
  - pose proof (commit_submission_core _ _ _ _ _ _ _ _ Hcs) as (E0 & E1 & E2 & _ & E4 & E5 & _).
    split_and!; try done; [congruence| |].
    + by eapply commit_grows.
    + intros pending' ->. specialize (Hx _ eq_refl). by injection Hx as <-.
Qed.

Lemma inv_commit s s' tasks sent p id record sequence output action first second new_id epoch
    now wall mono pending :
  inv (MkEngine s tasks sent) -> tasks !! p = Some (Deciding id record sequence) ->
  pass_decide record output first second = Ok action ->
  pass_commit id p record sequence action output new_id epoch now wall mono s
    = (Ok (inr pending), s') ->
  inv (MkEngine s' (<[p := Prepared id record pending]> tasks) sent).
Proof.
  intros Hi Ht Hd Hc.
  pose proof (i_knows _ Hi _ _ Ht) as (EL & _ & n & Hcnt & Hmax & Hseq). simpl in EL.
  eapply commit_update in Hc as [[_ Hc]|(r & r' & o' & Hr & Hid & Hu & Hg & Hs & Ho & Hp)];
    [by destruct (Hc (inr pending))| |done..].
  assert (core r = core record) as Ec.
  { unfold ledger in EL. rewrite Hr in EL. by apply (inj Some) in EL. }
  assert (v_sequence (view r) = v_sequence (view record)) as Es by (by injection Ec).
  specialize (Ho _ eq_refl) as ->. destruct (Hp _ eq_refl) as (P1 & P2 & P3 & P4).
  apply save_effect in Hs as [(SL & SC & _) Hok].
  destruct Hok as (_ & _ & ED & _ & _ & EH); [done|].
  assert (forall id', ledger (replace_run id r' (s_document s)) id'
          = update (ledger (s_document s)) id (core r') id') as El.
  { intros id'. rewrite ledger_replace by (rewrite ?Hr; eauto). done. }
  assert (good tasks sent (ledger (s_document s))) as Hm.
  { destruct (i_memory _ Hi) as [?|[? _]]; simpl in *; [done|congruence]. }
  assert (ledger (s_document s) id = Some (core r)) as Elr by (unfold ledger; by rewrite Hr).
  destruct (g_caps _ _ _ Hm _ _ Elr) as [Hcount Hcaps].
  assert (forall q' u, <[p := Prepared id record pending]> tasks !! q' = Some u ->
            u = Prepared id record pending \/ (tasks !! q' = Some u /\ task_id u <> id)) as Hcase.
  { intros q' u [[<- <-]|[Hne Hl]]%lookup_insert_Some; [by left|right].
    split; [done|]. intros E. apply Hne. eapply (task_unique (MkEngine s tasks sent)); eauto. }
  assert (good (<[p := Prepared id record pending]> tasks) sent
            (update (ledger (s_document s)) id (core r'))) as Hgood.
  { apply (good_update tasks _ _ _ _ (core r)); auto.
    intros q' u [->|?]%Hcase; [left|by right]. exists (core r'). unfold update.
    rewrite decide_True by done. split_and!; [done|done|congruence|lia]. }
  split; simpl.
  - left. eapply good_ext; [|exact Hgood]. intros id'. by rewrite ED.
  - intros d Hd'%EH. eapply good_ext; [|exact Hgood]. intros id'. by rewrite Hd'.
  - intros q' u Hu'. rewrite SL, SC.
    apply lookup_insert_Some in Hu' as [[<- <-]|[_ Hl]]; [apply (i_live _ Hi _ _ Ht)|].
    apply (i_live _ Hi _ _ Hl).
  - intros id'. rewrite SL, ED, El. intros Hl. unfold update. case_decide; [eauto|].
    by apply (i_known _ Hi).
  - intros q' u [->|[Hl Hne]]%Hcase.
    + simpl. intros ((id0 & p0) & [= <- E0] & Hin)%list_elem_of_fmap.
      destruct (g_sent _ _ _ Hm _ _ Hin) as (c & Hc & Hle).
      assert (c = core r) as -> by congruence. simpl in Hle.
      apply counter_seq in Hcnt as (En & Hrg & _).
      rewrite <- E0, P3, Hseq, Es, En, seq_num_text in Hle; [lia|]. unfold in_u64 in *. lia.
    + eapply knows_ext; [|by apply knows_other, (i_knows _ Hi _ _ Hl)].
      intros id'. rewrite ED. apply El.
  - apply (i_once _ Hi).
Qed.

Lemma inv_commit_other s o s' tasks sent p id record sequence output action first second new_id
    epoch now wall mono t' :
  inv (MkEngine s tasks sent) -> tasks !! p = Some (Deciding id record sequence) ->
  pass_decide record output first second = Ok action ->
  pass_commit id p record sequence action output new_id epoch now wall mono s = (o, s') ->
  task_id t' = id -> (forall L, shows sent L t') -> (forall L, knows sent L t') ->
  inv (MkEngine s' (<[p := t']> tasks) sent).
Proof.
  intros Hi Ht Hd Hc Ei Hsh Hk.
  eapply commit_update in Hc as [[-> _]|(r & r' & o' & Hr & Hid & Hu & Hg & Hs & _)]; [..|done|done|done].
  - by apply (inv_task _ _ _ _ (Deciding id record sequence)).
  - by eapply inv_replace.
Qed.

(** ** Handing over *)

Lemma inv_sent s tasks sent p id record pending :
  inv (MkEngine s tasks sent) -> tasks !! p = Some (Prepared id record pending) ->
  inv (MkEngine s (<[p := Awaiting id record pending]> tasks) (sent ++ [(id, pending)])%list).
Proof.
  intros Hi Ht.
  pose proof (i_knows _ Hi _ _ Ht) as Hfresh. simpl in Hfresh.
  assert (forall q' u, <[p := Awaiting id record pending]> tasks !! q' = Some u ->
            u = Awaiting id record pending \/ (tasks !! q' = Some u /\ task_id u <> id)) as Hcase.
  { intros q' u [[<- <-]|[Hne Hl]]%lookup_insert_Some; [by left|right].
    split; [done|]. intros E. apply Hne. eapply (task_unique (MkEngine s tasks sent)); eauto. }
  assert (forall L, good tasks sent L ->
    good (<[p := Awaiting id record pending]> tasks) (sent ++ [(id, pending)])%list L) as Hgood.
  { intros L Hg. destruct (g_tasks _ _ _ Hg _ _ Ht) as (c & Hc & Hcp & Hcs & Hcnt). split.
    - intros id' p' [Hin|Hin]%elem_of_app; [by apply (g_sent _ _ _ Hg)|].
      apply list_elem_of_singleton in Hin as [= -> ->]. exists c. split; [done|]. by rewrite Hcs.
    - intros id' c' Hc'. destruct (g_caps _ _ _ Hg _ _ Hc') as [Hle Hw]. split; [|done].
      rewrite count_sent_app. simpl. destruct (String.eqb_spec id id') as [->|Hne]; [|lia].
      assert (c' = c) as -> by congruence. lia.
    - intros q' u [->|[Hl Hne]]%Hcase; [by exists c|].
      pose proof (g_tasks _ _ _ Hg _ _ Hl) as Hs. destruct u as [| |id' r' p'| | |]; try done.
      destruct Hs as (c' & ? & ? & ? & Hle). exists c'. split_and!; try done.
      rewrite count_sent_app. simpl. simpl in Hne.
      destruct (String.eqb_spec id id'); [congruence|]. lia. }
  split; simpl.
  - destruct (i_memory _ Hi) as [?|(_ & Hemp & _)]; [left; by apply Hgood|].
    simpl in Hemp. subst tasks. by rewrite lookup_empty in Ht.
  - intros d Hd. by apply Hgood, (i_store _ Hi).
  - intros q' u Hu. apply lookup_insert_Some in Hu as [[<- <-]|[_ Hl]].
    + apply (i_live _ Hi _ _ Ht).
    + apply (i_live _ Hi _ _ Hl).
  - apply (i_known _ Hi).
  - intros q' u [->|[Hl Hne]]%Hcase; [done|].
    pose proof (i_knows _ Hi _ _ Hl) as Hk. destruct u as [| |id' r' p'| | |]; try done.
    simpl in *. rewrite fmap_app, not_elem_of_app. split; [done|].
    intros [= Ei _]%list_elem_of_singleton. congruence.
  - rewrite fmap_app. apply NoDup_app. split_and!; [apply (i_once _ Hi)| |apply NoDup_singleton].
    intros k Hk ->%list_elem_of_singleton. done.
Qed.

(** ** Ends of workers, restarts *)

Lemma inv_delete s tasks sent p :
  inv (MkEngine s tasks sent) -> inv (MkEngine s (delete p tasks) sent).
Proof.
  intros [I1 I2 I3 I4 I5 I6]. split; simpl in *; try done.
  - destruct I1 as [?|(? & -> & ?)]; [left; by apply good_delete|right].
    split_and!; [done| |done]. apply delete_empty.
  - intros d Hd. by apply good_delete, I2.
  - intros q t [_ Ht]%lookup_delete_Some. by apply I3.
  - intros q t [_ Ht]%lookup_delete_Some. by apply (I5 q).
Qed.

(** The worker of a run leaves the maps. *)
Lemma inv_leave s tasks sent id controls workers :
  inv (MkEngine s tasks sent) -> (forall q t, tasks !! q = Some t -> task_id t <> id) ->
  inv (MkEngine (with_workers (delete id (s_live s)) controls workers s) tasks sent).
Proof.
  intros [I1 I2 I3 I4 I5 I6] Hno. split; simpl in *; try done.
  - destruct I1 as [?|(? & ? & ->)]; [by left|right]. split_and!; [done..|]. apply delete_empty.
  - intros q t Ht. rewrite lookup_delete_ne by (by intros E; destruct (Hno _ _ Ht)).
    by apply I3.
  - intros id' [p [_ Hl]%lookup_delete_Some]. eauto.
Qed.

Lemma inv_finish s tasks sent p id wall mono :
  inv (MkEngine s tasks sent) -> tasks !! p = Some (Ending id) ->
  inv (MkEngine (snd (finish wall mono id p s)) (delete p tasks) sent).
Proof.
  intros Hi Ht. pose proof (i_live _ Hi _ _ Ht) as [Hl _]. simpl in Hl.
  assert (forall q t, delete p tasks !! q = Some t -> task_id t <> id) as Hno.
  { intros q t [Hne Hq]%lookup_delete_Some E. apply Hne.
    eapply (task_unique (MkEngine s tasks sent)); eauto. }
  unfold finish. rewrite (mbind_run _ _ _ _ _ (eq_refl : get_sup s = (Ok s, s))).
  rewrite bool_decide_false by (by intros ?).
  set (next := with_runs _ _).
  assert (exists r s1, (if s_unavailable s then mret (inr tt)
       else @mtry _ _ AppError _ (save wall mono next)) s = (r, s1) /\ quiet s s1)
    as (r & s1 & E & Hq).
  { destruct (s_unavailable s); [eexists _, _; split_and!; [done|apply quiet_refl]|].
    pose proof (calm_save (holds := holds) wall mono next s
      ltac:(apply ledger_update, keeps_finish)) as Hq. unfold mtry.
    destruct (save wall mono next s) as [[x|x|x] s1]; eexists _, _; split; eauto. }
  unfold mbind at 1. rewrite E.
  assert (inv (MkEngine s1 (delete p tasks) sent)) as Hi1
    by (by apply inv_delete, (inv_quiet s)).
  destruct r; [|done|done]. by apply (inv_leave s1).
Qed.

Lemma inv_restart s tasks sent x :
  inv (MkEngine s tasks sent) -> crash (s_store s) x ->
  inv (MkEngine (new_supervisor x) ∅ sent).
Proof.
  intros Hi Hx. unfold new_supervisor.
  destruct (store_load x) as [loaded x'] eqn:El.
  assert (forall d, holds x' d -> good ∅ sent (ledger d)) as Hh.
  { intros d Hd. eapply good_no_tasks, (i_store _ Hi). simpl.
    eapply crash_keeps; [done|]. apply (load_keeps x). by rewrite El. }
  set (ok := let? d := loaded in _). split; simpl; try done.
  - destruct ok as [d|e|h] eqn:Eo; [left|right; done..].
    unfold ok in Eo. run_ok. subst.
    eapply good_ext; [apply ledger_map, keeps_restart|].
    eapply good_no_tasks, (i_store _ Hi). simpl.
    eapply crash_keeps; [done|]. by eapply load_holds.
  - intros id. rewrite lookup_empty. by intros [? ?].
  - apply (i_once _ Hi).
Qed.

Lemma inv_end s tasks sent p t status reason wall mono :
  inv (MkEngine s tasks sent) -> tasks !! p = Some t ->
  inv (MkEngine (snd (mark wall mono (task_id t) status reason s))
         (<[p := Ending (task_id t)]> tasks) sent).
Proof.
  intros Hi Ht. apply (inv_calm (holds := holds) (mark wall mono (task_id t) status reason));
    [apply calm_mark|].
  by apply (inv_task _ _ _ _ t).
Qed.

(** ** Starting *)

Lemma next_pointer_fresh (s : sup) : s_cells s !! next_pointer s = None.
Proof.
  destruct (s_cells s !! next_pointer s) as [l|] eqn:E; [|done]. exfalso.
  apply elem_of_map_to_list in E.
  assert (forall (ps : list (nat * Live)) x, x ∈ ps ->
            (x.1 <= foldr Nat.max 0%nat (map fst ps))%nat) as Hmax.
  { induction ps as [|y ps IH]; intros x Hx; [by apply not_elem_of_nil in Hx|].
    apply elem_of_cons in Hx as [->|Hx]; simpl; [lia|]. specialize (IH x Hx). lia. }
  apply Hmax in E. unfold next_pointer in E. simpl in E. lia.
Qed.

(** The limits hold of a fresh run. *)
Lemma fresh_run_core run_id t request captured account scope_now now r :
  StrategyPolicy_validate (sr_policy request) = Ok tt ->
  fresh_run run_id t request captured account scope_now now = Ok r ->
  run_id_of r = run_id /\ c_actions (core r) = 0 /\ within_caps (core r).
Proof.
  unfold fresh_run. intros Hp Hf. run_ok. split_and!; [done|done|]. split; simpl.
  - unfold StrategyPolicy_validate in Hp. run_ok. bools. unfold within in *. bools.
    match goal with Hx : (1 <=? max_actions _) = true |- _ => apply Z.leb_le in Hx end. lia.
  - destruct dec_exact_zero as (z & Ez & Hz). exists z.
    unfold StrategyPolicy_validate in Hp. run_ok. subst.
    match goal with Hx : quantity_exceeds _ _ = Ok _ |- _ => unfold quantity_exceeds in Hx; run_ok end.
    match goal with Hx : quantity (max_total_qty _) = Ok ?m |- _ =>
      exists m; split_and!; [done|done|]; unfold quantity in Hx end.
    run_ok.
    match goal with Hx : or_code _ (decimal _ true) = Ok _ |- _ => unfold or_code in Hx end.
    destruct (decimal (max_total_qty (sr_policy request)) true) as [txt| |] eqn:Ed; try done.
    apply decimal_ok in Ed as (d & Ed & _ & Hpos).
    match goal with Hx : dec_from_str_exact (max_total_qty _) = Some ?m |- _ =>
      assert (d = m) as -> by congruence end.
    rewrite (dec_ltb_eq_r _ _ _ Hz). unfold dec_ltb. specialize (Hpos eq_refl).
    unfold dec_leb in Hpos. by destruct (dec_cmp _ _).
Qed.

(** The runs a start saves: the same ledger, or one with the new run; and no
    worker is at the started run. *)
Lemma admit_start_ledger s run_id t request captured account scope_now now runs started tasks sent :
  inv (MkEngine s tasks sent) -> s_unavailable s = false ->
  StrategyPolicy_validate (sr_policy request) = Ok tt ->
  find_run run_id (d_runs (s_document s)) = None ->
  existsb (blocks_account s account) (d_runs (s_document s)) = false ->
  admit_start (d_runs (s_document s)) run_id t request captured account scope_now now
    = Ok (runs, started) ->
  s_live s !! run_id_of started = None /\
  is_Some (ledger (with_runs runs (s_document s)) (run_id_of started)) /\
  (forall id, is_Some (ledger (s_document s) id) ->
     ledger (with_runs runs (s_document s)) id = ledger (s_document s) id) /\
  good tasks sent (ledger (with_runs runs (s_document s))).
Proof.
  intros Hi Hu Hp Hfresh Hb Ha.
  assert (good tasks sent (ledger (s_document s))) as Hm.
  { destruct (i_memory _ Hi) as [?|[? _]]; simpl in *; [done|congruence]. }
  unfold admit_start in Ha. destruct (sr_resume_run_id request) as [id|].
  - run_ok. match goal with Hf : find_run id _ = Some ?r |- _ => rename r into r0, Hf into Hr end.
    pose proof (find_run_id _ _ _ Hr) as Hid.
    assert (same_ledger (with_runs (update_run id (rebind_run request account)
              (d_runs (s_document s))) (s_document s)) (s_document s)) as El
      by auto with ledger.
    change (run_id_of (rebind_run request account r0)) with (run_id_of r0). rewrite Hid.
    split_and!; [|by rewrite El; unfold ledger; rewrite Hr|done|by eapply good_ext].
    assert (blocks_account s account r0 = false) as Hbr.
    { destruct (blocks_account s account r0) eqn:E; [|done].
      rewrite (proj2 (existsb_exists _ _)) in Hb; [done|].
      exists r0. split; [|done]. apply list_elem_of_In. by eapply find_run_elem. }
    match goal with Hf : resume_refused _ _ _ _ _ _ _ = Ok ?b |- _ =>
      assert (b = false) as Hbf by done; rewrite ?Hbf in Hf; unfold resume_refused in Hf end.
    match goal with Hf : (if ?b then _ else _) = Ok false |- _ =>
      destruct b eqn:Eb; [done|] end.
    bools. assert (is_live s r0 = false) as Hl.
    { destruct (is_live s r0) eqn:E; [|done]. unfold blocks_account in Hbr. rewrite E in Hbr.
      match goal with Hf : (account_id _ ==s account_id account) = true |- _ =>
        rewrite Hf in Hbr end. done. }
    unfold is_live in Hl. rewrite Hid in Hl. by destruct (s_live s !! id).
  - run_ok. match goal with Hf : fresh_run _ _ _ _ _ _ _ = Ok ?r |- _ => rename r into r0, Hf into Hr end.
    apply fresh_run_core in Hr as (Hid & Hact & Hcaps); [|done].
    change (run_id_of (rebind_run request account r0)) with (run_id_of r0). rewrite Hid.
    assert (ledger (s_document s) run_id = None) as Hnone by (unfold ledger; by rewrite Hfresh).
    assert (forall id', ledger (with_runs (d_runs (s_document s) ++ [rebind_run request account r0])%list
              (s_document s)) id'
            = if decide (id' = run_id) then Some (core r0) else ledger (s_document s) id') as El.
    { intros id'. unfold ledger. simpl. rewrite find_run_app.
      change (run_id_of (rebind_run request account r0)) with (run_id_of r0). rewrite Hid.
      case_decide as Hd.
      - subst id'. rewrite Hfresh. by rewrite decide_True.
      - rewrite (decide_False (P := id' = run_id)) by congruence. by destruct (find_run id' _). }
    split_and!.
    + destruct (s_live s !! run_id) eqn:E; [|done].
      destruct (i_known _ Hi run_id) as [? Hx]; simpl in *; [eauto|congruence].
    + rewrite El. rewrite decide_True by done. eauto.
    + intros id' [c Hc]. rewrite El. rewrite decide_False; [done|]. intros ->. congruence.
    + eapply good_ext; [exact El|]. split.
      * intros id' p Hin. destruct (g_sent _ _ _ Hm _ _ Hin) as (c & Hc & Hle).
        exists c. split; [|done]. rewrite decide_False; [done|]. intros ->. congruence.
      * intros id' c. case_decide as Hd; [|apply (g_caps _ _ _ Hm)]. subst id'.
        intros [= <-]. split; [|done]. rewrite count_sent_none; [rewrite Hact; done|].
        intros p Hin. destruct (g_sent _ _ _ Hm _ _ Hin) as (c & Hc & _). congruence.
      * intros q u Hq. pose proof (g_tasks _ _ _ Hm _ _ Hq) as Hs.
        destruct u as [| |id' r' p'|id' r' p'| |]; try done; simpl in *;
          destruct Hs as (c & Hc & Hs); exists c; (split; [|done]);
          (rewrite decide_False; [done|]); intros ->; congruence.
Qed.

(** The state between the two saves of a start, whatever it does. *)
Lemma inv_start_save s s1 o tasks sent wall mono runs :
  inv (MkEngine s tasks sent) ->
  save wall mono (with_runs runs (s_document s)) s = (o, s1) ->
  (forall id, is_Some (ledger (s_document s) id) ->
     ledger (with_runs runs (s_document s)) id = ledger (s_document s) id) ->
  good tasks sent (ledger (with_runs runs (s_document s))) ->
  inv (MkEngine s1 tasks sent).
Proof.
  intros Hi Hs Hext Hg. apply save_effect in Hs as [Ha _].
  eapply inv_advance; try done; eauto.
  - intros q t Ht. pose proof (i_knows _ Hi _ _ Ht) as Hk. simpl in Hk. split; [done|].
    destruct t; try done. simpl in *. destruct Hk as (El & ?).
    rewrite Hext by eauto. done.
  - intros id Hid. by rewrite Hext.
Qed.

Lemma inv_enter s tasks sent id p cell workers :
  inv (MkEngine s tasks sent) -> s_cells s !! p = None -> s_live s !! id = None ->
  is_Some (ledger (s_document s) id) -> s_unavailable s = false ->
  inv (MkEngine (with_workers (<[id := p]> (s_live s)) (<[id := p]> (s_controls s)) workers
                   (with_cells (<[p := cell]> (s_cells s)) s))
         (<[p := Looping id]> tasks) sent).
Proof.
  intros Hi Hp Hid Hl Hu. split; simpl.
  - destruct (i_memory _ Hi) as [?|[? _]]; simpl in *; [left|congruence]. by apply good_task.
  - intros d Hd. apply good_task; [|done]. by apply (i_store _ Hi).
  - intros q t [[<- <-]|[Hne Ht]]%lookup_insert_Some.
    + simpl. rewrite !lookup_insert_eq. eauto.
    + apply (i_live _ Hi) in Ht as [Ht1 Ht2]. simpl in *.
      rewrite !lookup_insert_ne; [done|done|]. intros ->. congruence.
  - intros id'. destruct (decide (id' = id)) as [->|Hne]; [done|].
    rewrite lookup_insert_ne by done. apply (i_known _ Hi).
  - intros q t [[<- <-]|[Hne Ht]]%lookup_insert_Some; [done|]. apply (i_knows _ Hi _ _ Ht).
  - apply (i_once _ Hi).
Qed.

Lemma ready_inv (s : sup) o w :
  ready s = (o, w) -> w = s /\ (forall x, o = Ok x -> s_unavailable s = false).
Proof.
  unfold ready, mbind, get_sup, mlift. destruct (s_unavailable s); by intros [= <- <-].
Qed.

Lemma admission_epoch_inv (s : sup) o w : admission_epoch s = (o, w) -> w = s.
Proof. unfold admission_epoch, mbind, get_sup. case_match; by intros [= _ <-]. Qed.

(** Peeling the checks in front of the saves of a start. *)
Lemma start_owned_inv t request captured authority scope_now run_id epoch mono now wall later
    s o s' :
  start_owned t request captured authority scope_now run_id epoch mono now wall later s = (o, s') ->
  (s' = s /\ forall x, o <> Ok x) \/
  exists runs started o1 s1, s_unavailable s = false /\
    existsb (blocks_account s (au_account authority)) (d_runs (s_document s)) = false /\
    admit_start (d_runs (s_document s)) run_id t request captured (au_account authority)
      scope_now now = Ok (runs, started) /\
    save wall mono (with_runs runs (s_document s)) s = (o1, s1) /\
    ((forall x, o <> Ok x) /\ (s' = s1 \/ o1 = Ok tt /\ quiet s1 s') \/
     o1 = Ok tt /\ o = Ok (view started) /\
     exists cell, s' = with_workers (<[run_id_of started := next_pointer s1]> (s_live s1))
       (<[run_id_of started := next_pointer s1]> (s_controls s1)) (s_workers s1 + 1)
       (with_cells (<[next_pointer s1 := cell]> (s_cells s1)) s1)).
Proof.
  unfold start_owned. intros Hs.
  apply mbind_inv in Hs as [(? & ? & [_ ->]%mlift_ok & Hs)|Hs]; [|left; by apply lift_stops in Hs].
  apply mbind_inv in Hs as [(? & ? & Hr & Hs)|[(? & Hr & ->)|(? & Hr & ->)]];
    apply ready_inv in Hr as [-> Hu]; [|by left|by left]. specialize (Hu _ eq_refl).
  apply mbind_inv in Hs as [(? & ? & Hr & Hs)|[(? & Hr & ->)|(? & Hr & ->)]];
    apply admission_epoch_inv in Hr as ->; [|by left|by left].
  apply mbind_inv in Hs as [(s0 & w & [= <- <-] & Hs)|[(e & [=] & _)|(h & [=] & _)]].
  apply mbind_inv in Hs as [(? & ? & [_ ->]%mlift_ok & Hs)|Hs]; [|left; by apply lift_stops in Hs].
  apply mbind_inv in Hs as [(? & ? & [Hb ->]%mlift_ok & Hs)|Hs]; [|left; by apply lift_stops in Hs].
  apply guard_ok in Hb.
  apply mbind_inv in Hs as [([runs started] & ? & [Ha ->]%mlift_ok & Hs)|Hs];
    [|left; by apply lift_stops in Hs].
  apply mbind_inv in Hs as [(expires & ? & [_ ->]%mlift_ok & Hs)|Hs];
    [|left; by apply lift_stops in Hs].
  right. exists runs, started.
  apply mbind_inv in Hs as [([] & s1 & Hsv & Hs)|[(? & Hsv & ->)|(? & Hsv & ->)]].
  2,3: eexists _, _; split_and!; [done..|left; by auto].
  exists (Ok tt), s1. split_and!; [done..|].
  apply mbind_inv in Hs as [(? & w & [= <- <-] & Hs)|[(e & [=] & _)|(h & [=] & _)]].
  case_bool_decide as Hl.
  - left. pose proof (calm_save (holds := holds) wall mono (with_runs
      (update_run (run_id_of started) (mark_run Stopped (Some "plugin_strategy_stopped"))
         (d_runs (s_document s1))) (s_document s1)) s1 ltac:(auto with ledger)) as Hq.
    unfold mbind in Hs. revert Hq Hs. destruct (save wall mono _ s1) as [[[]|?|?] s2];
      intros Hq [= <- <-]; split; auto; done.
  - right. injection Hs as <- <-. split_and!; [done..|]. by eexists.
Qed.

Lemma inv_start s tasks sent t request captured authority scope_now run_id epoch mono now wall
    later o s' :
  inv (MkEngine s tasks sent) ->
  StrategyStartRequest_validate request = Ok tt ->
  find_run run_id (d_runs (s_document s)) = None ->
  start_owned t request captured authority scope_now run_id epoch mono now wall later s = (o, s') ->
  match o with
  | Ok v => forall p, s_live s' !! v_run_id v = Some p ->
              inv (MkEngine s' (<[p := Looping (v_run_id v)]> tasks) sent)
  | _ => inv (MkEngine s' tasks sent)
  end.
Proof.
  intros Hi Hv Hfresh Hs.
  assert (StrategyPolicy_validate (sr_policy request) = Ok tt) as Hp
    by (unfold StrategyStartRequest_validate in Hv; run_ok; done).
  apply start_owned_inv in Hs as [[-> Ho]|(runs & started & o1 & s1 & Hu & Hb & Ha & Hs & Hc)].
  { destruct o; [by destruct (Ho a)|done..]. }
  destruct (admit_start_ledger _ _ _ _ _ _ _ _ _ _ _ _ Hi Hu Hp Hfresh Hb Ha)
    as (Hl & Hid & Hext & Hg).
  pose proof (inv_start_save _ _ _ _ _ _ _ _ Hi Hs Hext Hg) as Hi1.
  destruct Hc as [[Ho Hq]|(-> & -> & cell & ->)].
  - assert (inv (MkEngine s' tasks sent)) as Hi'.
    { destruct Hq as [->|[_ Hq]]; [done|by apply (inv_quiet s1)]. }
    destruct o; [by destruct (Ho a)|done..].
  - intros p Hlp. simpl in Hlp. change (v_run_id (view started)) with (run_id_of started) in *.
    rewrite lookup_insert_eq in Hlp. injection Hlp as <-.
    apply save_effect in Hs as [(SL & _) Hok].
    destruct Hok as (_ & Hu1 & ED & _ & _ & _); [done|].
    apply inv_enter; [done|apply next_pointer_fresh|by rewrite SL|by rewrite ED|done].
Qed.

(** ** Every step *)

Lemma reconcile_admit_idle id authority scope_now (s w : sup) x :
  reconcile_admit id authority scope_now s = (Ok x, w) -> s_live s !! id = None.
Proof.
  unfold reconcile_admit. intros Hr.
  apply mbind_ok in Hr as (? & ? & Hr1 & Hr). apply ready_inv in Hr1 as [-> _].
  apply mbind_ok in Hr as (? & ? & [= <- <-] & Hr).
  apply mbind_ok in Hr as (? & ? & [Hg _]%mlift_ok & _). apply guard_ok in Hg.
  by destruct (s_live s !! id).
Qed.

Lemma inv_step e e' : step crash e e' -> inv e -> inv e'.
Proof.
  intros Hst Hi. destruct Hst.
  - by apply (inv_calm (holds := holds) (issue_ticket _ _ _)); [apply calm_issue_ticket|].
  - by apply (inv_calm (holds := holds) (take_ticket _)); [apply calm_take_ticket|].
  - match goal with Hs : start_owned _ _ _ _ _ _ _ _ _ _ _ _ = _ |- _ =>
      exact (inv_start _ _ _ _ _ _ _ _ _ _ _ _ _ _ _ _ Hi ltac:(done) ltac:(done) Hs _ ltac:(done)) end.
  - match goal with Hs : start_owned _ _ _ _ _ _ _ _ _ _ _ _ = _ |- _ =>
      pose proof (inv_start _ _ _ _ _ _ _ _ _ _ _ _ _ _ _ _ Hi ltac:(done) ltac:(done) Hs) end.
    by destruct o.
  - by apply (inv_calm (holds := holds) (control _ _ _ _)); [apply calm_control|].
  - by apply (inv_calm (holds := holds) (stop_all _ _)); [apply calm_stop_all|].
  - by apply (inv_calm (holds := holds) revoke_for_exit); [apply calm_exit|].
  - by eapply inv_read.
  - by eapply inv_commit.
  - by eapply inv_commit_other; eauto; destruct keep.
  - by eapply inv_commit_other; eauto.
  - by apply (inv_calm (holds := holds) (set_cancel _ _)); [apply calm_on_cell|].
  - by apply (inv_calm (holds := holds) (check_dispatch _ _ _ _ _)); [apply calm_on_cell|].
  - match goal with Hs : check_dispatch ?p ?r ?a ?b ?g ?s = (Ok tt, ?s') |- _ =>
      apply inv_sent; [|done]; change s' with (snd (Ok (E := AppError) tt, s')); rewrite <- Hs end.
    by apply (inv_calm (holds := holds) (check_dispatch _ _ _ _ _)); [apply calm_on_cell|].
  - by eapply inv_settle; eauto.
  - eapply inv_settle; eauto; by case_match.
  - by eapply inv_settle; eauto.
  - by eapply inv_conclude; eauto.
  - by apply inv_end.
  - by apply (inv_task _ _ _ _ t).
  - by apply inv_finish.
  - apply inv_settle_idle; [done|].
    by eapply reconcile_admit_idle.
  - by apply inv_conclude_idle.
  - by apply (inv_calm (holds := holds) (reconcile_conclude _ _ _)); [apply calm_reconcile_conclude|].
  - by eapply inv_restart.
Qed.

(** ** The engine of a process that starts *)

(** What a store holds before the first process: documents that validate, with
    counts that are 32-bit words. *)
Definition loadable (d : StrategyDocument) : Prop :=
  StrategyDocument_validate d = Ok tt /\
  Forall (fun r => in_u32 (v_actions_submitted (view r))) (d_runs d).

Definition started (x : X) : Engine X := MkEngine (new_supervisor x) ∅ [].

Lemma validate_runs_elem ids requests runs r :
  validate_runs ids requests runs = Ok tt -> r ∈ runs ->
  validate_head r = Ok tt /\ identity_ok r = true /\ validate_tail r = Ok tt.
Proof.
  revert ids requests. induction runs as [|r0 runs IH]; intros ids requests Hv Hr;
    [by apply not_elem_of_nil in Hr|].
  simpl in Hv. run_ok. bools. apply elem_of_cons in Hr as [->|Hr]; [|by eapply IH].
  repeat match goal with x : () |- _ => destruct x end. done.
Qed.

Lemma loadable_good d : loadable d -> good ∅ [] (ledger d).
Proof.
  intros [Hv Hu]. split; [by intros id p ?%not_elem_of_nil| |by intros q t; rewrite lookup_empty].
  intros id c Hc. unfold ledger in Hc.
  destruct (find_run id (d_runs d)) as [r|] eqn:Hr; [|done]. injection Hc as <-.
  apply find_run_elem in Hr. unfold StrategyDocument_validate in Hv. run_ok.
  destruct (validate_runs_elem _ _ _ _ Hv Hr) as (Hh & _ & _).
  unfold validate_head in Hh. run_ok. destruct_var unit.
  match goal with Hx : StrategyRunView_validate _ = Ok ?u |- _ =>
    destruct u; apply view_within_caps in Hx as (Ha & total & limit & H1' & H2' & H3' & _) end.
  rewrite Forall_forall in Hu. specialize (Hu r Hr). unfold in_u32 in Hu.
  split; [simpl; lia|]. split; [done|]. by exists total, limit.
Qed.

Lemma inv_started x : (forall d, holds x d -> loadable d) -> inv (started x).
Proof.
  intros Hl. unfold started, new_supervisor.
  destruct (store_load x) as [loaded x'] eqn:El.
  assert (forall d, holds x' d -> good ∅ [] (ledger d)) as Hh.
  { intros d Hd. apply loadable_good, Hl, (load_keeps x). by rewrite El. }
  set (ok := let? d := loaded in _). split; simpl; try done.
  - destruct ok as [d|e|h] eqn:Eo; [left|right; done..].
    unfold ok in Eo. run_ok. subst.
    eapply good_ext; [apply ledger_map, keeps_restart|].
    by eapply loadable_good, Hl, load_holds.
  - intros id. rewrite lookup_empty. by intros [? ?].
  - constructor.
Qed.

Lemma inv_reachable x e :
  (forall d, holds x d -> loadable d) -> rtc (step crash) (started x) e -> inv e.
Proof.
  intros Hl Hs. assert (inv (started x)) as Hi by by apply inv_started.
  clear Hl. induction Hs as [|e1 e2 e3 H12 _ IH]; [done|]. apply IH. by eapply inv_step.
Qed.
End Steps.

(** * The safety properties *)

Section Theorems.
Context `{DecimalLaws} `{!DecimalTextLaws} `{Codec json} `{UuidLib}.
Context {X : Type} `{StrategyStore X} {holds : X -> StrategyDocument -> Prop}
  {crash : X -> X -> Prop} `{!StoreLaws X holds crash}.
Local Abbreviation sup := (Supervisor X).

(** C9: Whatever fails, stops or crashes, no sequence number of a run is handed
    to the exchange twice, also not after a restart. *)
Theorem handed_over_once (x : X) (e : Engine X)
    (initial : forall d, holds x d -> loadable d)
    (run : rtc (step crash) (started x) e) :
  NoDup (map key_of (e_sent e)).
Proof. exact (i_once _ (inv_reachable x e initial run)). Qed.

(** C10: A request is handed over only when every document the store can still
    answer holds its intent, and the intent stays there until the answer is
    settled. *)
Theorem intent_durable_first (x : X) (e : Engine X) (p : nat) (id : string)
    (record : RunRecord) (pending : PendingAction) (d : StrategyDocument)
    (initial : forall d, holds x d -> loadable d)
    (run : rtc (step crash) (started x) e)
    (worker : e_tasks e !! p = Some (Prepared id record pending) \/
              e_tasks e !! p = Some (Awaiting id record pending))
    (stored : holds (s_store (e_sup e)) d) :
  exists r, find_run id (d_runs d) = Some r /\ pending_action r = Some pending.
Proof.
  pose proof (i_store _ (inv_reachable x e initial run) d stored) as Hg.
  assert (exists c, ledger d id = Some c /\ c_pending c = Some pending) as (c & Hc & Hp).
  { destruct worker as [Hw|Hw]; apply (g_tasks _ _ _ Hg) in Hw; simpl in Hw; [|done].
    destruct Hw as (c & ? & ? & _). by exists c. }
  unfold ledger in Hc. destruct (find_run id (d_runs d)) as [r|]; [|done].
  injection Hc as <-. by exists r.
Qed.

(** C11: In every document the store can answer, the requests handed over for a
    run are covered by its action count, and count and quantity are within the
    limits the user granted. *)
Theorem spent_within_limits (x : X) (e : Engine X) (d : StrategyDocument) (id : string)
    (r : RunRecord)
    (initial : forall d, holds x d -> loadable d)
    (run : rtc (step crash) (started x) e)
    (stored : holds (s_store (e_sup e)) d)
    (found : find_run id (d_runs d) = Some r) :
  Z.of_nat (count_sent id (e_sent e)) <= v_actions_submitted (view r) /\
  v_actions_submitted (view r) <= max_actions (v_policy (view r)) /\
  exists total limit, dec_from_str_exact (v_total_submitted_qty (view r)) = Some total /\
    quantity (max_total_qty (v_policy (view r))) = Ok limit /\ dec_leb total limit = true.
Proof.
  pose proof (i_store _ (inv_reachable x e initial run) d stored) as Hg.
  destruct (g_caps _ _ _ Hg id (core r)) as [Hc [Ha (t & l & Ht & Hl & Hle)]].
  { unfold ledger. by rewrite found. }
  split_and!; [done|done|]. exists t, l. split_and!; [done|done|].
  by rewrite dec_ltb_negb_leb, negb_false_iff in Hle.
Qed.

(** What a restart does to the runs. *)
Lemma restarted_run x d id r :
  fst (store_load x) = Ok d -> StrategyDocument_validate d = Ok tt ->
  find_run id (d_runs d) = Some r ->
  s_unavailable (new_supervisor x) = false /\
  find_run id (d_runs (s_document (new_supervisor x))) = Some (restart_run r).
Proof.
  intros El Hv Hr. unfold new_supervisor. destruct (store_load x) as [loaded x'].
  simpl in El. subst loaded. simpl. rewrite Hv. simpl. split; [done|].
  rewrite find_run_map by apply keeps_restart. by rewrite Hr.
Qed.

(** C35: A crash at any moment between the hand-over and the settled answer leaves
    a restarted engine that is unavailable, or shows the intent for recovery
    and lets no run of that account start. *)
Theorem unresolved_survives_restart (x y : X) (e : Engine X) (p : nat) (id : string)
    (record : RunRecord) (pending : PendingAction)
    (initial : forall d, holds x d -> loadable d)
    (run : rtc (step crash) (started x) e)
    (worker : e_tasks e !! p = Some (Awaiting id record pending))
    (crashed : crash (s_store (e_sup e)) y) :
  let s := new_supervisor y in
  s_unavailable s = true \/
  exists r, find_run id (d_runs (s_document s)) = Some r /\
    pending_action r = Some pending /\ v_status (view r) = RecoveryRequired /\
    forall t request captured authority scope_now run_id epoch mono now wall later v,
      account_id (au_account authority) = account_id (v_account (view r)) ->
      environment (au_account authority) = environment (v_account (view r)) ->
      fst (start_owned t request captured authority scope_now run_id epoch mono now wall
             later s) <> Ok v.
Proof.
  intros s. destruct (s_unavailable s) eqn:Eu; [by left|right].
  assert (exists d, fst (store_load y) = Ok d /\ StrategyDocument_validate d = Ok tt)
    as (d & Hd & Hv).
  { unfold s, new_supervisor in Eu. destruct (store_load y) as [[d|?|?] y']; simpl in *; try done.
    exists d. split; [done|]. destruct (StrategyDocument_validate d) as [[]|?|?]; done. }
  destruct (intent_durable_first x e p id record pending d) as (r & Hr & Hp); auto.
  { eapply crash_keeps; [done|]. destruct (store_load y) as [o y'] eqn:El.
    simpl in Hd. subst o. by eapply load_holds. }
  destruct (restarted_run y d id r Hd Hv Hr) as [_ Hf].
  exists (restart_run r). unfold s.
  assert (restart_run r = mark_run RecoveryRequired (Some "plugin_strategy_recovery_required") r)
    as Er by (unfold restart_run; by rewrite Hp).
  split_and!; [done|by rewrite Er|by rewrite Er|].
  intros t request captured authority scope_now run_id epoch mono now wall later v Ha He Hs.
  destruct (start_owned _ _ _ _ _ _ _ _ _ _ _ _) as [o s'] eqn:Est in Hs. simpl in Hs. subst o.
  apply start_owned_inv in Est as [[_ Hn]|(runs & st & o1 & s1 & _ & Hb & _)]; [by destruct (Hn v)|].
  rewrite (proj2 (existsb_exists _ _)) in Hb; [done|].
  exists (restart_run r). split; [apply list_elem_of_In; by eapply find_run_elem|].
  unfold blocks_account. rewrite Ha, He, !String.eqb_refl.
  assert (pending_action (restart_run r) = Some pending) as -> by by rewrite Er.
  simpl. by rewrite orb_true_r.
Qed.
End Theorems.
