(* ===== verification/StrategyDurable.v ===== *)
(** The file store of the strategy engine keeps the promise the engine relies
    on: its five candidate files are replaced so that a load answers nothing
    but the old documents or the new one, and only the new one after a save
    that answered [Ok]. *)
From stdpp Require Import gmap strings.
From S2P Require Import Prelude RustStr FileSystem External Models Workflow StrategyTypes StrategyStore SafeDocument SafeDocumentFacts ContractFacts Engine.

(** ** The store over the file system *)

Section Store.
Context `{DecimalLib} `{Codec json} `{UuidLib} `{Codec StrategyDocument}.
Context (root : path).

Definition file_document : SafeDocument fs_world := {|
  load_all_candidates :=
    mmap_err (fun _ => tt) (load_all root strategy_names MAX_STORE_BYTES);
  persist previous next :=
    mmap_err (fun _ => tt)
      (let* outcome := persist_document root strategy_names MAX_STORE_BYTES previous next in
       mret (outcome_satisfies_destructive_barrier outcome));
|}.

Definition file_store : StrategyStore fs_world :=
  @FileStrategyStore _ _ _ _ fs_world file_document.

(** What a crash leaves of an entry. *)
Definition aged (n n' : option node) : Prop :=
  n' = n \/ exists d k, n = Some (File d false) /\ n' = Some (File (String.substring 0 k d) true).

(** The work files of an interrupted save may be removed by the next one. *)
Definition volatile (name : string) : Prop :=
  name = n_pending strategy_names \/ name = n_bak_pending strategy_names.

Definition may_find (m : gmap path node) (name : string) (c : CandidateBytes) : Prop :=
  exists n, (aged (entry root m name) n \/ volatile name /\ n = None) /\ seen n c.

(** A load may answer [d], now or after crashes and interrupted saves. *)
Definition file_holds (x : fs_world) (d : StrategyDocument) : Prop :=
  rooted root (nodes x) ->
  exists cs, Forall2 (may_find (nodes x)) (all_names strategy_names) cs /\ read_document cs = Ok d.

Definition file_crash (x y : fs_world) : Prop := exists cut schedule, y = restart cut schedule x.
End Store.

(** ** Which document a list of candidates answers *)

Section Candidates.
Context `{DecimalLib} `{Codec json} `{UuidLib} `{Codec StrategyDocument}.

(** The documents of the candidates with their revisions, in order. *)
Inductive decoded : list CandidateBytes -> list (Z * StrategyDocument) -> Prop :=
| decoded_nil : decoded [] []
| decoded_missing cs l : decoded cs l -> decoded (Missing :: cs) l
| decoded_bounded bytes doc k cs l :
    read_candidate bytes = Ok doc -> counter (d_revision doc) = Ok k ->
    decoded cs l -> decoded (Bounded bytes :: cs) ((k, doc) :: l).

Definition insert_all (l : list (Z * StrategyDocument)) (vs : gmap Z StrategyDocument)
    : gmap Z StrategyDocument := fold_left (fun vs e => <[e.1 := e.2]> vs) l vs.

Lemma read_versions_decoded cs vs vs' :
  read_versions cs vs = Ok vs' -> exists l, decoded cs l /\ vs' = insert_all l vs.
Proof.
  revert vs. induction cs as [|c cs IH]; intros vs; simpl.
  { intros [= <-]. exists []. split; [constructor|done]. }
  destruct c as [| |bytes]; [|done|].
  - intros (l & Hl & ->)%IH. exists l. by split; [constructor|].
  - intros (doc & Hd & (vs1 & Ha & Hr)%obind_ok)%obind_ok.
    unfold add_version in Ha. apply obind_ok in Ha as (k & Hk & Ha).
    case_match; [done|]. injection Ha as <-. apply IH in Hr as (l & Hl & ->).
    exists ((k, doc) :: l). by split; [econstructor|].
Qed.

Lemma decoded_unique cs l l' : decoded cs l -> decoded cs l' -> l = l'.
Proof.
  intros Hl. revert l'. induction Hl as [|cs l _ IH|bytes doc k cs l Hd Hk _ IH]; intros l' Hl';
    inversion Hl'; subst; [done|by apply IH|].
  assert (doc0 = doc) as -> by congruence. assert (k0 = k) as -> by congruence.
  f_equal. by apply IH.
Qed.

Lemma insert_all_lookup l vs k :
  (forall e, e ∈ l -> e.1 <> k) -> insert_all l vs !! k = vs !! k.
Proof.
  revert vs. induction l as [|[k' doc] l IH]; intros vs Hl; simpl; [done|].
  rewrite IH by (intros e He; apply Hl; by right).
  apply lookup_insert_ne. apply (Hl (k', doc)). by left.
Qed.

Lemma insert_all_app l1 l2 vs : insert_all (l1 ++ l2) vs = insert_all l2 (insert_all l1 vs).
Proof. apply fold_left_app. Qed.

Lemma insert_all_keys l vs k :
  is_Some (insert_all l vs !! k) -> is_Some (vs !! k) \/ exists e, e ∈ l /\ e.1 = k.
Proof.
  revert vs. induction l as [|[k' doc] l IH]; intros vs; simpl; [by left|].
  intros [Hs|(e & He & Ek)]%IH.
  - rewrite lookup_insert in Hs. case_decide; [|by left].
    right. exists (k', doc). split; [by left|done].
  - right. exists e. split; [by right|done].
Qed.

(** [newest] picks the greatest key. *)
Lemma newest_key vs k doc :
  vs !! k = Some doc -> (forall k', is_Some (vs !! k') -> k' <= k) -> newest vs = doc.
Proof.
  intros Hk Hmax. unfold newest.
  assert (forall ks, (forall k', k' ∈ ks -> k' <= k) -> k ∈ ks ->
    foldr (fun k acc => Some (default k (Z.max k <$> acc))) None ks = Some k) as Hf.
  { induction ks as [|a ks IH]; [by intros _ ?%elem_of_nil|]. intros Hle Hin. simpl.
    assert (a <= k) by (apply Hle; by left).
    destruct (decide (k ∈ ks)) as [Hin'|Hn].
    - rewrite IH by (done || (intros; apply Hle; by right)). simpl. f_equal. lia.
    - apply elem_of_cons in Hin as [<-|]; [|done]. f_equal.
      assert (forall b, foldr (fun k acc => Some (default k (Z.max k <$> acc))) None ks = Some b ->
                b <= k) as Hb.
      { clear -Hle. assert (forall k', k' ∈ ks -> k' <= k) as H by (intros; apply Hle; by right).
        clear Hle. induction ks as [|c ks IH]; simpl; [done|]. intros b [= <-].
        assert (c <= k) by (apply H; by left).
        destruct (foldr _ None ks) as [b'|] eqn:E; simpl; [|done].
        assert (b' <= k) by (apply IH; [intros; apply H; by right|done]). lia. }
      destruct (foldr _ None ks) as [b|]; simpl; [|done]. specialize (Hb b eq_refl). lia. }
  rewrite Hf.
  - by rewrite Hk.
  - intros k' Hk'. apply Hmax. apply list_elem_of_fmap in Hk' as ([k1 d1] & -> & Hin).
    apply elem_of_map_to_list in Hin. by exists d1.
  - apply list_elem_of_fmap. exists (k, doc). split; [done|]. by apply elem_of_map_to_list.
Qed.

(** The answer is the last document of the greatest revision. *)
Lemma read_document_last cs l l1 l2 k doc d :
  read_document cs = Ok d -> decoded cs l -> l = (l1 ++ (k, doc) :: l2)%list ->
  (forall e, e ∈ l1 -> e.1 <= k) -> (forall e, e ∈ l2 -> e.1 < k) -> d = doc.
Proof.
  intros Hr Hl -> Hb Ha. unfold read_document in Hr.
  apply obind_ok in Hr as (vs & Hv & [= <-]).
  apply read_versions_decoded in Hv as (l' & Hl' & ->).
  rewrite (decoded_unique _ _ _ Hl' Hl) in *.
  apply newest_key with (k := k).
  - rewrite insert_all_app. simpl. rewrite insert_all_lookup; [apply lookup_insert_eq|].
    intros e He. specialize (Ha e He). lia.
  - intros k' Hs. apply insert_all_keys in Hs as [[? Hs]|(e & He & <-)]; [by rewrite lookup_empty in Hs|].
    apply elem_of_app in He as [He|[->|He]%elem_of_cons]; [auto|simpl; lia|].
    specialize (Ha e He). lia.
Qed.
(** The answer's revision is the greatest. *)
Lemma read_document_greatest cs d :
  read_document cs = Ok d ->
  exists l r, decoded cs l /\ counter (d_revision d) = Ok r /\ (forall e, e ∈ l -> e.1 <= r) /\
              (d = default_document \/ (r, d) ∈ l).
Proof.
  intros Hr. pose proof Hr as Hr'. unfold read_document in Hr.
  apply obind_ok in Hr as (vs & Hv & _). apply read_versions_decoded in Hv as (l & Hl & _).
  assert (l = [] \/ exists l1 k doc l2, l = (l1 ++ (k, doc) :: l2)%list /\
            (forall e, e ∈ l1 -> e.1 <= k) /\ (forall e, e ∈ l2 -> e.1 < k)) as Hcase.
  { clear. induction l as [|[k doc] l IH]; [by left|right].
    destruct IH as [->|(l1 & k' & doc' & l2 & -> & Hb & Ha)].
    - exists [], k, doc, []. split_and!; [done|by intros ? ?%elem_of_nil..].
    - destruct (Z_le_gt_dec k k') as [Hle|Hgt].
      + exists ((k, doc) :: l1), k', doc', l2. split_and!; [done| |done].
        intros e [->|He]%elem_of_cons; [done|auto].
      + exists [], k, doc, (l1 ++ (k', doc') :: l2)%list. split_and!; [done|by intros ? ?%elem_of_nil|].
        intros e [He|[->|He]%elem_of_cons]%elem_of_app; simpl; [specialize (Hb e He)| |specialize (Ha e He)]; lia. }
  destruct Hcase as [->|(l1 & k & doc & l2 & El & Hb & Ha)].
  - assert (d = default_document) as ->.
    { assert (forall cs, decoded cs [] -> read_document cs = Ok default_document) as Hdef.
      { clear. intros cs Hcs. unfold read_document.
        assert (read_versions cs ∅ = Ok ∅) as ->; [|done].
        remember [] as l eqn:E in Hcs. induction Hcs; [done|by apply IHHcs|done]. }
      rewrite Hdef in Hr' by done. by injection Hr' as <-. }
    exists [], 0. split_and!; [done|done|by intros ? ?%elem_of_nil|by left].
  - assert (d = doc) as -> by by eapply read_document_last.
    exists l, k. split_and!; [done| | |right; subst l; apply elem_of_app; right; by left].
    + subst l. clear -Hl. remember (l1 ++ (k, doc) :: l2)%list as l eqn:E.
      revert l1 E. induction Hl as [|cs l Hl IH|bytes doc' k' cs l Hd Hk Hl IH]; intros l1 E.
      * by destruct l1.
      * by eapply IH.
      * destruct l1 as [|e l1]; simpl in E; injection E as Ee El; [by simplify_eq|by eapply IH].
    + subst l. intros e [He|[->|He]%elem_of_cons]%elem_of_app; simpl; [auto|lia|].
      specialize (Ha e He). lia.
Qed.
End Candidates.

(** ** What an entry can decode to *)

Section Entries.
Context `{DecimalLib} `{Codec json} `{UuidLib} `{Codec StrategyDocument}.
Context `{!CodecLaws StrategyDocument (fun d => StrategyDocument_validate d = Ok tt)}.
Context `{!ObjectTextLaws StrategyDocument}.

(** The documents of one candidate. *)
Inductive decoded1 : CandidateBytes -> list (Z * StrategyDocument) -> Prop :=
| decoded1_missing : decoded1 Missing []
| decoded1_bounded bytes doc k :
    read_candidate bytes = Ok doc -> counter (d_revision doc) = Ok k ->
    decoded1 (Bounded bytes) [(k, doc)].

Lemma decoded_cons c cs l :
  decoded (c :: cs) l -> exists l1 l2, decoded1 c l1 /\ decoded cs l2 /\ l = (l1 ++ l2)%list.
Proof.
  inversion 1; subst; [exists [], l|eexists [_], _]; split_and!; try done; by constructor.
Qed.

Lemma read_candidate_inv bytes doc :
  read_candidate bytes = Ok doc -> decode bytes = Some doc /\ StrategyDocument_validate doc = Ok tt.
Proof.
  unfold read_candidate. intros (doc' & Hd & (u & Hv & [= ->])%obind_ok)%obind_ok.
  unfold ok_or in Hd. destruct (decode bytes); [|done]. injection Hd as ->. split; [done|].
  unfold or_code in Hv. by destruct (StrategyDocument_validate doc) as [[]|?|?].
Qed.

(** An entry that was decoded decodes to the same after a crash, or to nothing. *)
Lemma aged_decoded n n' c c' l l' :
  aged n n' -> seen n c -> decoded1 c l -> seen n' c' -> decoded1 c' l' -> l' = l.
Proof.
  intros Ha Hc Hl Hc' Hl'. destruct Hl as [|bytes doc k Hr Hk]; simpl in Hc.
  - destruct Ha as [->|(d & j & -> & _)]; [|done].
    destruct Hl' as [|bytes' doc' k' _ _]; [done|]. destruct Hc' as [s E]. congruence.
  - destruct Hc as [s ->].
    assert (exists bytes' s', n' = Some (File bytes' s') /\ String.prefix bytes' bytes = true)
      as (bytes' & s' & -> & Hp).
    { destruct Ha as [->|(d & j & [= <- ->] & ->)]; eauto using prefix_refl, prefix_substring. }
    destruct Hl' as [|bytes2 doc' k' Hr' Hk']; [done|]. destruct Hc' as [s2 [= <- <-]].
    apply read_candidate_inv in Hr as [Hd _]. apply read_candidate_inv in Hr' as [Hd' _].
    assert (doc' = doc) as -> by by eapply decode_prefix.
    by assert (k' = k) as -> by congruence.
Qed.

(** The text of a valid document, perhaps torn. *)
Lemma partly_decoded bytes doc k n n' c l :
  encode doc = Some bytes -> StrategyDocument_validate doc = Ok tt ->
  counter (d_revision doc) = Ok k ->
  partly bytes n -> aged n n' \/ n' = None -> seen n' c -> decoded1 c l ->
  (c = Missing /\ l = []) \/ l = [(k, doc)].
Proof.
  intros He Hv Hk Hn Ha Hc Hl.
  assert (n' = None \/ exists t s, n' = Some (File t s) /\ String.prefix t bytes = true) as Hn'.
  { destruct Ha as [Ha| ->]; [|by left].
    destruct Hn as [->|(t & s & -> & Hp)]; destruct Ha as [->|(d & j & E & ->)]; try done; auto; right.
    - eauto.
    - injection E as <- ->. eexists _, _. split; [done|].
      eapply prefix_trans; [apply prefix_substring|done]. }
  destruct Hl as [|b doc' k' Hr Hk']; [by left|right]. destruct Hc as [s ->].
  destruct Hn' as [?|(t & s' & [= <- <-] & Hp)]; [done|].
  apply read_candidate_inv in Hr as [Hd _].
  pose proof (decode_encode doc bytes Hv He) as Hd0.
  assert (doc' = doc) as -> by by eapply decode_prefix.
  by assert (k' = k) as -> by congruence.
Qed.

Lemma whole_decoded bytes doc k n c l :
  encode doc = Some bytes -> StrategyDocument_validate doc = Ok tt ->
  counter (d_revision doc) = Ok k ->
  aged (Some (File bytes true)) n -> seen n c -> decoded1 c l -> l = [(k, doc)].
Proof.
  intros He Hv Hk Ha Hc Hl.
  destruct (partly_decoded bytes doc k (Some (File bytes true)) n c l) as [[-> ->]|E];
    [done..|apply partly_all|by left|done|done| |done].
  simpl in Hc. subst n. by destruct Ha as [?|(? & ? & ? & ?)].
Qed.

Lemma none_decoded n c l : aged None n -> seen n c -> decoded1 c l -> c = Missing /\ l = [].
Proof.
  intros [->|(? & ? & ? & _)] Hc Hl; [|done]. destruct Hl; [done|]. by destruct Hc.
Qed.
End Entries.

(** ** The promise *)

Section Promise.
Context `{DecimalLib} `{Codec json} `{UuidLib} `{Codec StrategyDocument}.
Context `{!CodecLaws StrategyDocument (fun d => StrategyDocument_validate d = Ok tt)}.
Context `{!ObjectTextLaws StrategyDocument}.
Context (root : path).

Local Abbreviation names := strategy_names.
#[local] Instance document_at_root : SafeDocument fs_world := file_document root.

Lemma strategy_names_distinct : NoDup (all_names names).
Proof. apply (bool_decide_unpack _). by vm_compute. Qed.

Lemma wp_lift {W E A : Type} (y : outcome E A) (Q : A -> W -> Prop) (R : E -> W -> Prop) C w :
  (forall a, y = Ok a -> Q a w) -> (forall e, y = Err e -> R e w) -> C w -> wp (mlift y) Q R C w.
Proof. unfold wp, mlift. destruct y; auto. Qed.

(** A load reads the tree only. *)
Lemma file_load_spec x :
  wp (file_load (X := fs_world))
     (fun d w' => same x w' /\ fst (file_load (X := fs_world) x) = Ok d /\
        exists cs, read_document cs = Ok d /\
          (rooted root (nodes x) ->
           Forall2 (fun n => seen (entry root (nodes x) n)) (all_names names) cs))
     (fun _ => same x) (same x) x.
Proof.
  assert (reads nodes (file_load (X := fs_world))) as Hreads.
  { apply reads_bind; [|intros; apply reads_lift]. apply reads_map_err, reads_map_err, reads_load_names. }
  specialize (Hreads x). unfold wp, same.
  destruct (file_load x) as [[d|e|h] x'] eqn:E; simpl in *; [|done..].
  split_and!; [done..|]. unfold file_load in E.
  unfold mbind, unavailable_io, mmap_err, load_all_candidates, document_at_root, file_document in E.
  pose proof (load_names_spec root MAX_STORE_BYTES (all_names names) x) as Hl.
  unfold wp in Hl. unfold load_all in E. unfold mmap_err in E.
  destruct (load_names root MAX_STORE_BYTES (all_names names) x) as [[cs|e|h] w1]; simpl in E; try done.
  unfold mlift in E. injection E as E _. exists cs. split; [done|]. intros Hr. by apply Hl.
Qed.
(** What a save has established when it starts to write. *)
Record saving (x : fs_world) (doc old : StrategyDocument) (r : Z) (bytes prev : string) : Prop := {
  sv_valid : StrategyDocument_validate doc = Ok tt;
  sv_load : exists x', file_load (X := fs_world) x = (Ok old, x');
  sv_old : exists cs, read_document cs = Ok old /\
    (rooted root (nodes x) ->
     Forall2 (fun n => seen (entry root (nodes x) n)) (all_names names) cs);
  sv_before : counter (d_revision old) = Ok r;
  sv_after : counter (d_revision doc) = Ok (r + 1);
  sv_bytes : encode doc = Some bytes;
  sv_previous : encode old = Some prev;
}.

Definition saved (x : fs_world) (doc : StrategyDocument) (w' : fs_world) : Prop :=
  exists old r bytes prev, saving x doc old r bytes prev /\
    committed root names (nodes x) (Some prev) bytes (nodes w').
Definition saving_stopped (x : fs_world) (doc : StrategyDocument) (w' : fs_world) : Prop :=
  same x w' \/ saved x doc w' \/
  exists old r bytes prev, saving x doc old r bytes prev /\
    before_commit root names (nodes x) (Some prev) bytes (nodes w').

Lemma file_save_spec doc x :
  wp (file_save (X := fs_world) doc) (fun _ => saved x doc)
     (fun _ => saving_stopped x doc) (saving_stopped x doc) x.
Proof.
  assert (forall w', same x w' -> saving_stopped x doc w') as HS by (intros; by left).
  assert (saving_stopped x doc x) as H0' by by apply HS.
  unfold file_save. wp_step. apply wp_lift; [intros [] Hv|by auto..].
  assert (StrategyDocument_validate doc = Ok tt) as Hv'.
  { unfold or_code in Hv. by destruct (StrategyDocument_validate doc) as [[]|?|?]. }
  clear Hv. wp_step. eapply wp_mono; [apply file_load_spec|..]; [|by auto..].
  intros old w1 (E1 & Hold & Hcs).
  wp_step. apply wp_lift; [intros rev Hrev|by auto..].
  wp_step. apply wp_lift; [intros r Hr|by auto..].
  wp_step. apply wp_lift; [intros next Hnext|by auto..].
  wp_step. apply wp_lift; [intros [] Hg|by auto..].
  wp_step. apply wp_lift; [intros bytes Hb|by auto..].
  wp_step. apply wp_lift; [intros prev Hp|by auto..].
  assert (saving x doc old r bytes prev) as Hsv.
  { split; auto.
    - destruct (file_load x) as [o' w2]. simpl in Hold. subst. by exists w2.
    - unfold guard in Hg. destruct (Z.eqb_spec rev next) as [->|]; [|done].
      unfold ok_or, u64_checked_add in Hnext. destruct (r + 1 <=? u64_max); [|done].
      injection Hnext as <-. done.
    - unfold ok_or in Hb. destruct (encode doc); [|done]. by injection Hb as ->.
    - unfold ok_or in Hp. destruct (encode old); [|done]. by injection Hp as ->. }
  unfold same in E1. wp_step.
  apply wp_mono with (Q := fun b w' => b = true /\ saved x doc w')
    (R := fun _ => saving_stopped x doc) (C := saving_stopped x doc); [| |done..].
  - unfold unavailable_io, persist, document_at_root, file_document.
    do 3 wp_step. eapply wp_mono; [apply (persist_spec root names MAX_STORE_BYTES strategy_names_distinct (nodes x)); exact E1|..].
    + intros o w2 [-> Hc]. wp_step. split; [done|]. by exists old, r, bytes, prev.
    + intros o w2 [[-> Hc]|[-> Hc]]; right; [right|left]; by exists old, r, bytes, prev.
    + intros w2 [Hc|Hc]; right; [right|left]; by exists old, r, bytes, prev.
  - intros b w2 [-> Hs]. apply wp_lift; [done|by intros|]. right. by left.
Qed.
Lemma decoded_valid cs l e : decoded cs l -> e ∈ l -> StrategyDocument_validate e.2 = Ok tt.
Proof.
  induction 1; [by intros ?%elem_of_nil|done|].
  intros [->|He]%elem_of_cons; [|auto]. by eapply read_candidate_inv.
Qed.

Lemma read_document_valid cs d : read_document cs = Ok d -> StrategyDocument_validate d = Ok tt.
Proof.
  intros (l & r & Hl & _ & _ & [->|Hd])%read_document_greatest; [done|].
  exact (decoded_valid _ _ _ Hl Hd).
Qed.

Lemma saving_old_valid x doc old r bytes prev :
  saving x doc old r bytes prev -> StrategyDocument_validate old = Ok tt.
Proof. intros Hs. destruct (sv_old _ _ _ _ _ _ Hs) as (cs & Hr & _). by eapply read_document_valid. Qed.

(** The candidates of the five names and their documents, one by one. *)
Lemma held_parts (m : gmap path node) cs d :
  Forall2 (may_find root m) (all_names names) cs -> read_document cs = Ok d ->
  exists c1 c2 c3 c4 c5 l1 l2 l3 l4 l5,
    cs = [c1; c2; c3; c4; c5] /\
    decoded cs (l1 ++ l2 ++ l3 ++ l4 ++ l5) /\
    decoded1 c1 l1 /\ decoded1 c2 l2 /\ decoded1 c3 l3 /\ decoded1 c4 l4 /\ decoded1 c5 l5 /\
    may_find root m (n_main names) c1 /\ may_find root m (n_tmp names) c2 /\
    may_find root m (n_bak names) c3 /\ may_find root m (n_pending names) c4 /\
    may_find root m (n_bak_pending names) c5.
Proof.
  intros Hf Hr. unfold all_names in Hf.
  apply Forall2_cons_inv_l in Hf as (c1 & cs1 & F1 & Hf & ->).
  apply Forall2_cons_inv_l in Hf as (c2 & cs2 & F2 & Hf & ->).
  apply Forall2_cons_inv_l in Hf as (c3 & cs3 & F3 & Hf & ->).
  apply Forall2_cons_inv_l in Hf as (c4 & cs4 & F4 & Hf & ->).
  apply Forall2_cons_inv_l in Hf as (c5 & cs5 & F5 & Hf & ->).
  apply Forall2_nil_inv_l in Hf as ->.
  apply read_document_greatest in Hr as (l & _ & Hl & _).
  pose proof Hl as Hl'.
  apply decoded_cons in Hl as (l1 & r1 & D1 & Hl & E1).
  apply decoded_cons in Hl as (l2 & r2 & D2 & Hl & E2).
  apply decoded_cons in Hl as (l3 & r3 & D3 & Hl & E3).
  apply decoded_cons in Hl as (l4 & r4 & D4 & Hl & E4).
  apply decoded_cons in Hl as (l5 & r5 & D5 & Hl & E5).
  inversion Hl. subst. rewrite app_nil_r in Hl'.
  eexists _, _, _, _, _, _, _, _, _, _. split_and!; try done.
Qed.
Lemma may_find_stable m name c :
  ~ volatile name -> may_find root m name c -> exists n, aged (entry root m name) n /\ seen n c.
Proof. intros Hv (n & [Ha|[? _]] & Hs); [by exists n|done]. Qed.

Lemma may_find_any m name c :
  may_find root m name c ->
  exists n, (aged (entry root m name) n \/ n = None) /\ seen n c.
Proof. intros (n & [Ha|[_ ?]] & Hs); exists n; auto. Qed.

Ltac stable := unfold volatile; simpl; intros [?|?]; discriminate.

(** After a save that ended well there is only its document. *)
Lemma saved_holds x doc x' d : saved x doc x' -> file_holds root x' d -> d = doc.
Proof.
  intros (old & r & bytes & prev & Hs & Hd & Hm & Ht & Hb & Hp & Hbp) Hh.
  destruct (Hh (or_introl Hd)) as (cs & Hf & Hr). clear Hh.
  pose proof (saving_old_valid _ _ _ _ _ _ Hs) as Hov. destruct Hs as [Hv _ _ Hk0 Hk1 He He0].
  destruct (held_parts _ _ _ Hf Hr)
    as (c1 & c2 & c3 & c4 & c5 & l1 & l2 & l3 & l4 & l5 & -> & Hl & D1 & D2 & D3 & D4 & D5
        & F1 & F2 & F3 & F4 & F5).
  apply may_find_stable in F1 as (n1 & A1 & S1); [|stable].
  apply may_find_stable in F2 as (n2 & A2 & S2); [|stable].
  apply may_find_stable in F3 as (n3 & A3 & S3); [|stable].
  apply may_find_any in F4 as (n4 & A4 & S4). apply may_find_any in F5 as (n5 & A5 & S5).
  rewrite Hm in A1. rewrite Ht in A2. unfold new_backup in Hb. rewrite Hb in A3. rewrite Hp in A4. rewrite Hbp in A5.
  assert (l1 = [(r + 1, doc)]) as -> by by eapply whole_decoded.
  assert (l3 = [(r, old)]) as -> by by eapply whole_decoded.
  destruct (none_decoded n2 c2 l2 A2 S2 D2) as [-> ->].
  assert (aged None n4) as A4' by (destruct A4 as [?| ->]; [done|by left]).
  assert (aged None n5) as A5' by (destruct A5 as [?| ->]; [done|by left]).
  destruct (none_decoded n4 c4 l4 A4' S4 D4) as [-> ->].
  destruct (none_decoded n5 c5 l5 A5' S5 D5) as [-> ->].
  eapply (read_document_last _ _ [] [(r, old)]); [exact Hr|exact Hl|done|by intros ? ?%elem_of_nil|].
  intros e [->|?%elem_of_nil]%elem_of_cons; [simpl; lia|done].
Qed.

Lemma rooted_or_not m : rooted root m \/ ~ rooted root m.
Proof.
  assert (dirs root m \/ ~ dirs root m) as [?|Hd]; [|by do 2 left|].
  { destruct (forallb (is_dir_at m) (root :: ancestors root)) eqn:E; [left|right].
    - rewrite forallb_forall in E. intros q Hq. apply E. by apply list_elem_of_In.
    - intros Hd. apply not_true_iff_false in E. apply E, forallb_forall.
      intros q Hq. apply Hd. by apply list_elem_of_In. }
  destruct (decide (map_Forall (fun (p : path) (_ : node) =>
                      match p with [] => true | _ :: dir => bool_decide (dir <> root) end
                      = true) m)) as [Hf|Hf].
  - left. right. intros name. destruct (entry root m name) as [n|] eqn:E; [|done].
    specialize (Hf _ _ E). simpl in Hf. by apply bool_decide_eq_true in Hf.
  - right. intros [?|Hn]; [done|]. apply Hf. intros p n Hp. destruct p as [|name dir]; [done|].
    apply bool_decide_eq_true. intros ->. specialize (Hn name). unfold entry in Hn. congruence.
Qed.

(** The entries before and after, where a save was stopped while it cleaned up. *)
Lemma cleaning_may_find x m name c :
  cleaning root names (nodes x) m -> name ∈ all_names names ->
  may_find root m name c -> may_find root (nodes x) name c.
Proof.
  intros ((Em & Et & Eb) & Ep & Ebp) Hn (n & Ha & Hs). exists n. split; [|done].
  assert (aged None n -> n = None) as Hnone by by intros [?|(? & ? & ? & _)].
  unfold kept in *. unfold all_names in Hn. rewrite !elem_of_cons in Hn.
  destruct Hn as [->|[->|[->|[->|[->|?%elem_of_nil]]]]]; [| | | | |done].
  - by rewrite Em in Ha.
  - by rewrite Et in Ha.
  - by rewrite Eb in Ha.
  - destruct Ep as [E|E]; rewrite E in Ha; [exact Ha|]. right. split; [by left|]. tauto.
  - destruct Ebp as [E|E]; rewrite E in Ha; [exact Ha|]. right. split; [by right|]. tauto.
Qed.
(** The documents of an entry the save has not touched are among those it read. *)
Lemma kept_docs x cs0 l0 name c' l' m :
  Forall2 (fun n => seen (entry root (nodes x) n)) (all_names names) cs0 -> decoded cs0 l0 ->
  name ∈ all_names names -> ~ volatile name ->
  entry root m name = entry root (nodes x) name ->
  may_find root m name c' -> decoded1 c' l' -> forall e, e ∈ l' -> e ∈ l0.
Proof.
  intros Hf Hl Hn Hv Ek Hm D' e He.
  apply may_find_stable in Hm as (n' & Ha & Hs); [|done]. rewrite Ek in Ha.
  clear Ek. revert l0 Hl Hn. induction Hf as [|nm c ns cs Hc _ IH]; intros l0 Hl Hn;
    [by apply elem_of_nil in Hn|].
  apply decoded_cons in Hl as (l1 & l2 & D1 & Hl2 & ->). apply elem_of_app.
  apply elem_of_cons in Hn as [<-|Hn]; [left|right; by apply IH].
  assert (l' = l1) as <-; [|done]. by eapply aged_decoded.
Qed.
Lemma in_names :
  n_main names ∈ all_names names /\ n_tmp names ∈ all_names names /\ n_bak names ∈ all_names names.
Proof. unfold all_names. rewrite !elem_of_cons. tauto. Qed.

(** A tmp file that is kept or gone. *)
Lemma tmp_docs x cs0 l0 c' l' m :
  Forall2 (fun n => seen (entry root (nodes x) n)) (all_names names) cs0 -> decoded cs0 l0 ->
  entry root m (n_tmp names) = entry root (nodes x) (n_tmp names) \/
  entry root m (n_tmp names) = None ->
  may_find root m (n_tmp names) c' -> decoded1 c' l' -> forall e, e ∈ l' -> e ∈ l0.
Proof.
  intros Hf Hl [Ek|En] Hm D'.
  - destruct in_names as (_ & Hn & _).
    exact (kept_docs x cs0 l0 _ c' l' m Hf Hl Hn ltac:(stable) Ek Hm D').
  - apply may_find_stable in Hm as (n' & Ha & Hs); [|stable]. rewrite En in Ha.
    destruct (none_decoded n' c' l' Ha Hs D') as [_ ->]. by intros e ?%elem_of_nil.
Qed.

(** While the new work files are written. *)
Lemma preparing_holds x doc old r bytes prev x' cs d :
  saving x doc old r bytes prev -> rooted root (nodes x) ->
  preparing root names (nodes x) (Some prev) bytes (nodes x') ->
  Forall2 (may_find root (nodes x')) (all_names names) cs -> read_document cs = Ok d ->
  d = doc \/ d = old \/ Forall2 (may_find root (nodes x)) (all_names names) cs.
Proof.
  intros Hs Hx ((Em & Et & Eb) & Hp & Hbp) Hf Hr. unfold kept in *.
  pose proof (saving_old_valid _ _ _ _ _ _ Hs) as Hov.
  destruct Hs as [Hv _ (cs0 & Hr0 & Hf0) Hk0 Hk1 He He0]. specialize (Hf0 Hx).
  destruct (read_document_greatest _ _ Hr0) as (l0 & r0 & Hl0 & Hk0' & Hmax & _).
  assert (r0 = r) as -> by congruence.
  destruct (held_parts _ _ _ Hf Hr)
    as (c1 & c2 & c3 & c4 & c5 & l1 & l2 & l3 & l4 & l5 & -> & Hl & D1 & D2 & D3 & D4 & D5
        & F1 & F2 & F3 & F4 & F5).
  assert (forall e, e ∈ l1 ++ l2 ++ l3 -> e.1 <= r)%list as Hold.
  { intros e He'. apply Hmax. rewrite !elem_of_app in He'. destruct in_names as (I1 & I2 & I3).
    destruct He' as [He'|[He'|He']];
      [apply (kept_docs x cs0 l0 _ c1 l1 (nodes x') Hf0 Hl0 I1 ltac:(stable) Em F1 D1 e He')
      |apply (kept_docs x cs0 l0 _ c2 l2 (nodes x') Hf0 Hl0 I2 ltac:(stable) Et F2 D2 e He')
      |apply (kept_docs x cs0 l0 _ c3 l3 (nodes x') Hf0 Hl0 I3 ltac:(stable) Eb F3 D3 e He')]. }
  apply may_find_any in F4 as (n4 & A4 & S4). apply may_find_any in F5 as (n5 & A5 & S5).
  assert ((c5 = Missing /\ l5 = []) \/ l5 = [(r, old)]) as H5.
  { destruct Hbp as [En|(p & [= <-] & Hpb)].
    - left. rewrite En in A5. apply (none_decoded n5); [|done..].
      destruct A5 as [?| ->]; [done|by left].
    - by eapply partly_decoded. }
  assert ((c4 = Missing /\ l4 = []) \/ l4 = [(r + 1, doc)]) as [[-> ->]| ->]
    by by eapply partly_decoded.
  2: { left. eapply (read_document_last _ _ (l1 ++ l2 ++ l3) l5 (r + 1)); [exact Hr|exact Hl| |..].
       - by rewrite <-!app_assoc.
       - intros e He'. specialize (Hold e He'). lia.
       - intros e He'. destruct H5 as [[_ ->]| ->]; [by apply elem_of_nil in He'|].
         apply elem_of_cons in He' as [->|?%elem_of_nil]; [simpl; lia|done]. }
  right. destruct H5 as [[-> ->]| ->].
  2: { left. eapply (read_document_last _ _ (l1 ++ l2 ++ l3) [] r); [exact Hr|exact Hl| |done|].
       - by rewrite <-!app_assoc.
       - by intros e ?%elem_of_nil. }
  right. unfold all_names. repeat constructor.
  - unfold may_find. rewrite <-Em. exact F1.
  - unfold may_find. rewrite <-Et. exact F2.
  - unfold may_find. rewrite <-Eb. exact F3.
  - exists None. split; [right; split; [by left|done]|done].
  - exists None. split; [right; split; [by right|done]|done].
Qed.

(** With the backup in place. *)
Lemma backed_holds x doc old r bytes prev x' cs d :
  saving x doc old r bytes prev -> rooted root (nodes x) ->
  backed root names (nodes x) (Some prev) bytes (nodes x') ->
  Forall2 (may_find root (nodes x')) (all_names names) cs -> read_document cs = Ok d ->
  d = doc \/ d = old.
Proof.
  intros Hs Hx (Em & Et & Eb & Ep & Ebp) Hf Hr. unfold kept, new_backup in *.
  pose proof (saving_old_valid _ _ _ _ _ _ Hs) as Hov.
  destruct Hs as [Hv _ (cs0 & Hr0 & Hf0) Hk0 Hk1 He He0]. specialize (Hf0 Hx).
  destruct (read_document_greatest _ _ Hr0) as (l0 & r0 & Hl0 & Hk0' & Hmax & _).
  assert (r0 = r) as -> by congruence.
  destruct (held_parts _ _ _ Hf Hr)
    as (c1 & c2 & c3 & c4 & c5 & l1 & l2 & l3 & l4 & l5 & -> & Hl & D1 & D2 & D3 & D4 & D5
        & F1 & F2 & F3 & F4 & F5).
  assert (forall e, e ∈ l1 ++ l2 -> e.1 <= r)%list as Hold.
  { intros e He'. apply Hmax. rewrite !elem_of_app in He'. destruct in_names as (I1 & _ & _).
    destruct He' as [He'|He'];
      [apply (kept_docs x cs0 l0 _ c1 l1 (nodes x') Hf0 Hl0 I1 ltac:(stable) Em F1 D1 e He')
      |apply (tmp_docs x cs0 l0 c2 l2 (nodes x') Hf0 Hl0 Et F2 D2 e He')]. }
  apply may_find_stable in F3 as (n3 & A3 & S3); [|stable]. rewrite Eb in A3.
  assert (l3 = [(r, old)]) as -> by by eapply whole_decoded.
  apply may_find_any in F4 as (n4 & A4 & S4). apply may_find_any in F5 as (n5 & A5 & S5).
  rewrite Ep in A4. rewrite Ebp in A5.
  assert (aged None n5) as A5' by (destruct A5 as [?| ->]; [done|by left]).
  destruct (none_decoded n5 c5 l5 A5' S5 D5) as [-> ->].
  assert ((c4 = Missing /\ l4 = []) \/ l4 = [(r + 1, doc)]) as [[-> ->]| ->]
    by exact (partly_decoded bytes doc (r + 1) _ n4 c4 l4 He Hv Hk1 (partly_all _ _) A4 S4 D4).
  - right. eapply (read_document_last _ _ (l1 ++ l2) [] r); [exact Hr|exact Hl| |done|].
    + by rewrite <-!app_assoc.
    + by intros e ?%elem_of_nil.
  - left. eapply (read_document_last _ _ ((l1 ++ l2) ++ [(r, old)]) [] (r + 1));
      [exact Hr|exact Hl| |..].
    + by rewrite <-!app_assoc.
    + intros e [He'|[->|?%elem_of_nil]%elem_of_cons]%elem_of_app; [|simpl; lia|done].
      specialize (Hold e He'). lia.
    + by intros e ?%elem_of_nil.
Qed.
(** A save that stopped leaves the old documents or its own. *)
Lemma stopped_holds x doc x' d :
  saving_stopped x doc x' -> file_holds root x' d -> file_holds root x d \/ d = doc.
Proof.
  intros [Es|[Hs|(old & r & bytes & prev & Hs & Hb)]] Hh.
  - left. unfold same in Es. unfold file_holds in *. by rewrite <-Es.
  - right. by eapply saved_holds.
  - destruct (rooted_or_not (nodes x)) as [Hx|Hx]; [|left; by intros ?].
    assert (file_holds root x old) as Hold.
    { intros _. destruct (sv_old _ _ _ _ _ _ Hs) as (cs & Hr & Hf). exists cs. split; [|done].
      eapply Forall2_impl; [by apply Hf|]. intros name c Hc. exists (entry root (nodes x) name).
      split; [left; by left|done]. }
    destruct Hb as [[Hg En]|[Hd Hb]].
    + left. intros _. assert (rooted root (nodes x')) as Hx'.
      { destruct Hx as [?|Hn]; [left; by apply Hg|right; intros n; by rewrite En]. }
      destruct (Hh Hx') as (cs & Hf & Hr). exists cs. split; [|done].
      eapply Forall2_impl; [exact Hf|]. intros name c. unfold may_find. by rewrite En.
    + destruct (Hh (or_introl Hd)) as (cs & Hf & Hr). destruct Hb as [Hb|[Hb|Hb]].
      * left. intros _. exists cs. split; [|done].
        rewrite Forall2_same_length_lookup in Hf |- *. destruct Hf as [Hlen Hf].
        split; [done|]. intros i name c Hn Hc.
        eapply cleaning_may_find; [exact Hb|by eapply list_elem_of_lookup_2|by eapply Hf].
      * destruct (preparing_holds _ _ _ _ _ _ _ _ _ Hs Hx Hb Hf Hr) as [?|[->|Hf']];
          [by right|by left|]. left. intros _. by exists cs.
      * destruct (backed_holds _ _ _ _ _ _ _ _ _ Hs Hx Hb Hf Hr) as [?| ->]; [by right|by left].
Qed.

Lemma aged_crash cut p m n :
  aged ((crash_nodes cut m : gmap path node) !! p) n -> aged (m !! p) n.
Proof.
  rewrite lookup_crash_nodes. intros Ha.
  destruct (m !! p) as [[d [|]|]|] eqn:E; simpl in Ha;
    try (destruct Ha as [->|(? & ? & ? & _)]; [by left|done]).
  destruct Ha as [->|(? & ? & ? & _)]; [|done]. right. by exists d, (cut p).
Qed.

Lemma dirs_crash cut m : dirs root m -> dirs root (crash_nodes cut m).
Proof.
  intros Hd q Hq. specialize (Hd q Hq). unfold is_dir_at in *. destruct q; [done|].
  rewrite lookup_crash_nodes. by destruct (m !! _) as [[]|].
Qed.

Lemma crash_holds x y d : file_crash x y -> file_holds root y d -> file_holds root x d.
Proof.
  intros (cut & schedule & ->) Hh Hx.
  destruct Hh as (cs & Hf & Hr).
  { destruct Hx as [Hd|Hn]; [left; by apply dirs_crash|right].
    intros name. specialize (Hn name). unfold entry in *. cbn [nodes restart].
    by rewrite lookup_crash_nodes, Hn. }
  exists cs. split; [|done]. eapply Forall2_impl; [exact Hf|].
  intros name c (n & Ha & Hs). exists n. split; [|done]. destruct Ha as [Ha|Ha]; [left|by right].
  exact (aged_crash cut (name :: root) (nodes x) n Ha).
Qed.

(** C5: The file store keeps the promise of a durable store, under any failure of
    the file system and any crash: a load answers a document the store holds, a
    save that answers [Ok] leaves nothing but its document, a save that fails or
    is interrupted leaves the old documents or its own. *)
Theorem file_store_refines : StoreLaws fs_world (file_holds root) file_crash.
Proof.
  split; cbn [store_load store_save FileStrategyStore].
  - intros x d x' E. pose proof (file_load_spec x) as Hl. unfold wp in Hl. rewrite E in Hl.
    destruct Hl as (_ & _ & cs & Hr & Hf). intros Hx. exists cs. split; [|done].
    eapply Forall2_impl; [by apply Hf|]. intros name c Hc. exists (entry root (nodes x) name).
    split; [left; by left|done].
  - intros x d Hh. pose proof (file_load_spec x) as Hl. unfold wp, same in Hl.
    unfold file_holds in *. destruct (file_load x) as [[a|e|h] x']; simpl in Hh.
    + destruct Hl as [E _]. by rewrite E in Hh.
    + by rewrite Hl in Hh.
    + by rewrite Hl in Hh.
  - intros x doc x' d E Hh. pose proof (file_save_spec doc x) as Hs. unfold wp in Hs.
    rewrite E in Hs. by eapply saved_holds.
  - intros x doc d Hh. pose proof (file_save_spec doc x) as Hs. unfold wp in Hs.
    destruct (file_save doc x) as [[a|e|h] x']; simpl in Hh.
    + right. by eapply saved_holds.
    + by eapply stopped_holds.
    + by eapply stopped_holds.
  - intros x y d. apply crash_holds.
Qed.
End Promise.
