(* ===== verification/TaskRun.v ===== *)
(** services/scheduler.rs, one task of one generation: claims, forced reruns
    and their waiters, and what a forced request is answered with. *)
From stdpp Require Import gmap strings relations.
From S2P Require Import Prelude RustStr Models.
#[local] Open Scope list_scope.

(** ** Operations

    Each is one critical section of the task's mutex.  [cancelled] is the
    generation's flag, a waiter is the identity of its one-shot channel. *)

Abbreviation Waiter := nat.
Abbreviation TaskResult := (outcome AppError unit).

Record TaskRunState := {
  closed : bool;
  in_flight : bool;
  owner_token : option Z;
  next_owner_token : Z;
  pending_force : bool;
  forced_rerun : bool;
  pending_force_waiters : list Waiter;
  active_force_waiters : list Waiter;
}.

Definition new_run : TaskRunState := {|
  closed := false; in_flight := false; owner_token := None; next_owner_token := 0;
  pending_force := false; forced_rerun := false;
  pending_force_waiters := []; active_force_waiters := [];
|}.

Definition cancelled_task_result : TaskResult := Err (Internal "调度任务在强制重跑完成前被取消").

(** [cancel_task_run_state]: the waiters to answer with the cancellation. *)
Definition cancel_run (s : TaskRunState) : list Waiter * TaskRunState :=
  (active_force_waiters s ++ pending_force_waiters s,
   {| closed := true; in_flight := in_flight s; owner_token := owner_token s;
      next_owner_token := next_owner_token s;
      pending_force := false; forced_rerun := false;
      pending_force_waiters := []; active_force_waiters := [] |}).

Definition released (s : TaskRunState) : TaskRunState :=
  {| closed := closed s; in_flight := false; owner_token := None;
     next_owner_token := next_owner_token s;
     pending_force := false; forced_rerun := false;
     pending_force_waiters := []; active_force_waiters := [] |}.

(** [TaskRunOwnerGuard::drop]: [None] when the run is another owner's. *)
Definition abandon (token : Z) (s : TaskRunState) : option (list Waiter) * TaskRunState :=
  if bool_decide (owner_token s = Some token)
  then (Some (active_force_waiters s ++ pending_force_waiters s), released s)
  else (None, s).

Inductive TaskRunClaim := Owner (token : Z) | Skip | Wait | Closed.

(** The claim of [run_scheduled_task]. *)
Definition claim_run (cancelled force_if_busy : bool) (sender : Waiter) (s : TaskRunState)
    : TaskRunClaim * TaskRunState :=
  if closed s || cancelled then (Closed, s)
  else if in_flight s then
    if force_if_busy then
      if forced_rerun s then
        (Wait, {| closed := closed s; in_flight := in_flight s; owner_token := owner_token s;
                  next_owner_token := next_owner_token s;
                  pending_force := pending_force s; forced_rerun := forced_rerun s;
                  pending_force_waiters := pending_force_waiters s;
                  active_force_waiters := active_force_waiters s ++ [sender] |})
      else
        (Wait, {| closed := closed s; in_flight := in_flight s; owner_token := owner_token s;
                  next_owner_token := next_owner_token s;
                  pending_force := true; forced_rerun := forced_rerun s;
                  pending_force_waiters := pending_force_waiters s ++ [sender];
                  active_force_waiters := active_force_waiters s |})
    else (Skip, s)
  else
    match u64_checked_add (next_owner_token s) 1 with
    | None =>
        (Closed, {| closed := true; in_flight := in_flight s; owner_token := owner_token s;
                    next_owner_token := next_owner_token s;
                    pending_force := pending_force s; forced_rerun := forced_rerun s;
                    pending_force_waiters := pending_force_waiters s;
                    active_force_waiters := active_force_waiters s |})
    | Some token =>
        (Owner token, {| closed := closed s; in_flight := true; owner_token := Some token;
                         next_owner_token := token;
                         pending_force := pending_force s; forced_rerun := false;
                         pending_force_waiters := pending_force_waiters s;
                         active_force_waiters := active_force_waiters s |})
    end.

(** The critical section of [drain_scheduled_runs] after an execution. *)
Record RunEnd := {
  completed_waiters : list Waiter;
  finished : bool;
  release_owner : bool;
  end_result : TaskResult;
}.

Definition end_run (cancelled : bool) (token : Z) (result : TaskResult) (s : TaskRunState)
    : RunEnd * TaskRunState :=
  if negb (bool_decide (owner_token s = Some token)) then
    ({| completed_waiters := []; finished := true; release_owner := false;
        end_result := cancelled_task_result |}, s)
  else if closed s || cancelled then
    ({| completed_waiters := active_force_waiters s ++ pending_force_waiters s;
        finished := true; release_owner := true; end_result := cancelled_task_result |},
     released s)
  else if negb (forced_rerun s) && pending_force s then
    ({| completed_waiters := []; finished := false; release_owner := false; end_result := result |},
     {| closed := closed s; in_flight := in_flight s; owner_token := owner_token s;
        next_owner_token := next_owner_token s;
        pending_force := false; forced_rerun := true;
        pending_force_waiters := [];
        active_force_waiters := active_force_waiters s ++ pending_force_waiters s |})
  else
    ({| completed_waiters := active_force_waiters s; finished := true; release_owner := true;
        end_result := result |},
     {| closed := closed s; in_flight := false; owner_token := None;
        next_owner_token := next_owner_token s;
        pending_force := pending_force s; forced_rerun := false;
        pending_force_waiters := pending_force_waiters s; active_force_waiters := [] |}).

(** ** A task as a transition system

    [x_drivers] holds, by owner token, the number of the execution each driver
    of the task is in and how many it began; [x_asked] the execution a forced
    request found running, and whether that was a forced rerun; [x_answers]
    what waiters received, with the execution it is the result of. *)
Record Asked := { asked_during : nat; asked_in_rerun : bool }.
Record Answer := { answer_of : option nat; answer : TaskResult }.

Record Task := {
  x_run : TaskRunState;
  x_cancelled : bool;
  x_executions : nat;
  x_drivers : gmap Z (nat * nat);
  x_asked : gmap Waiter Asked;
  x_answers : gmap Waiter Answer;
}.

Definition idle_task : Task := {|
  x_run := new_run; x_cancelled := false; x_executions := 0;
  x_drivers := ∅; x_asked := ∅; x_answers := ∅ |}.

Definition answer_all (a : Answer) (ws : list Waiter) (m : gmap Waiter Answer) : gmap Waiter Answer :=
  foldr (fun w => <[w := a]>) m ws.

Definition no_answer : Answer := {| answer_of := None; answer := cancelled_task_result |}.

(** What [run_scheduled_task] does after its claim. *)
Definition claimed (force : bool) (sender : Waiter) (t : Task) : Task :=
  let '(claim, run) := claim_run (x_cancelled t) force sender (x_run t) in
  match claim with
  | Owner token =>
      {| x_run := run; x_cancelled := x_cancelled t; x_executions := S (x_executions t);
         x_drivers := <[token := (S (x_executions t), 1%nat)]> (x_drivers t);
         x_asked := x_asked t; x_answers := x_answers t |}
  | Wait =>
      {| x_run := run; x_cancelled := x_cancelled t; x_executions := x_executions t;
         x_drivers := x_drivers t;
         x_asked := <[sender := {| asked_during := x_executions t;
                                   asked_in_rerun := forced_rerun (x_run t) |}]> (x_asked t);
         x_answers := x_answers t |}
  | Skip | Closed =>
      {| x_run := run; x_cancelled := x_cancelled t; x_executions := x_executions t;
         x_drivers := x_drivers t; x_asked := x_asked t; x_answers := x_answers t |}
  end.

(** One turn of [drain_scheduled_runs]; the execution answered [result], or the
    cancellation won the race. *)
Definition turned (token : Z) (execution count : nat) (result : TaskResult) (t : Task) : Task :=
  let '(e, run) := end_run (x_cancelled t) token result (x_run t) in
  if finished e then
    {| x_run := run; x_cancelled := x_cancelled t; x_executions := x_executions t;
       x_drivers := delete token (x_drivers t); x_asked := x_asked t;
       x_answers := answer_all {| answer_of := Some execution; answer := end_result e |}
                      (completed_waiters e) (x_answers t) |}
  else
    {| x_run := run; x_cancelled := x_cancelled t; x_executions := S (x_executions t);
       x_drivers := <[token := (S (x_executions t), S count)]> (x_drivers t);
       x_asked := x_asked t; x_answers := x_answers t |}.

Definition abandoned (token : Z) (t : Task) : Task :=
  let '(waiters, run) := abandon token (x_run t) in
  {| x_run := run; x_cancelled := x_cancelled t; x_executions := x_executions t;
     x_drivers := delete token (x_drivers t); x_asked := x_asked t;
     x_answers := answer_all no_answer (default [] waiters) (x_answers t) |}.

Definition closed_task (t : Task) : Task :=
  let '(waiters, run) := cancel_run (x_run t) in
  {| x_run := run; x_cancelled := x_cancelled t; x_executions := x_executions t;
     x_drivers := x_drivers t; x_asked := x_asked t;
     x_answers := answer_all no_answer waiters (x_answers t) |}.

Inductive task_step : Task -> Task -> Prop :=
| task_claim force sender t :
    x_asked t !! sender = None ->
    task_step t (claimed force sender t)
| task_turn token execution count result t :
    x_drivers t !! token = Some (execution, count) ->
    task_step t (turned token execution count result t)
| task_abandon token t :
    is_Some (x_drivers t !! token) ->
    task_step t (abandoned token t)
| task_cancel t :
    task_step t {| x_run := x_run t; x_cancelled := true; x_executions := x_executions t;
                   x_drivers := x_drivers t; x_asked := x_asked t; x_answers := x_answers t |}
| task_close t :
    x_cancelled t = true -> task_step t (closed_task t).

(** ** Invariants *)

(** A request is served by an execution that began after it, or by the forced
    rerun it found running. *)
Definition serves (e : nat) (q : Asked) : Prop :=
  (asked_during q < e)%nat \/ asked_during q = e /\ asked_in_rerun q = true.

Definition answered_well (q : Asked) (a : Answer) : Prop :=
  answer a = cancelled_task_result \/ exists e, answer_of a = Some e /\ serves e q.

Record TaskInv (t : Task) : Prop := {
  inv_driver tok : is_Some (x_drivers t !! tok) <-> owner_token (x_run t) = Some tok;
  inv_latest tok e c :
    x_drivers t !! tok = Some (e, c) -> e = x_executions t /\ (c <= 2)%nat /\
    (forced_rerun (x_run t) = false -> closed (x_run t) = false -> c = 1%nat);
  inv_flight : in_flight (x_run t) = bool_decide (is_Some (owner_token (x_run t)));
  inv_pending_flag : pending_force (x_run t) = false -> pending_force_waiters (x_run t) = [];
  inv_rerun : forced_rerun (x_run t) = true -> pending_force (x_run t) = false;
  inv_not_rerun : forced_rerun (x_run t) = false -> active_force_waiters (x_run t) = [];
  inv_idle : owner_token (x_run t) = None ->
    pending_force (x_run t) = false /\ forced_rerun (x_run t) = false;
  inv_pending w : w ∈ pending_force_waiters (x_run t) ->
    x_asked t !! w = Some {| asked_during := x_executions t; asked_in_rerun := false |};
  inv_active w : w ∈ active_force_waiters (x_run t) ->
    exists q, x_asked t !! w = Some q /\ serves (x_executions t) q;
  inv_queued_once : NoDup (active_force_waiters (x_run t) ++ pending_force_waiters (x_run t));
  inv_asked w q : x_asked t !! w = Some q ->
    (exists a, x_answers t !! w = Some a /\ answered_well q a) \/
    (x_answers t !! w = None /\
     w ∈ active_force_waiters (x_run t) ++ pending_force_waiters (x_run t));
  inv_answered w : is_Some (x_answers t !! w) ->
    is_Some (x_asked t !! w) /\
    w ∉ active_force_waiters (x_run t) ++ pending_force_waiters (x_run t);
}.

Lemma lookup_answer_all a ws m w :
  answer_all a ws m !! w = if decide (w ∈ ws) then Some a else m !! w.
Proof.
  induction ws as [|x ws IH]; simpl; [done|].
  destruct (decide (x = w)) as [->|Hne].
  - rewrite lookup_insert_eq, decide_True; [done|]. by apply elem_of_cons; left.
  - rewrite lookup_insert_ne, IH by done. apply decide_ext. rewrite elem_of_cons. naive_solver.
Qed.

Lemma idle_inv : TaskInv idle_task.
Proof.
  split; simpl; try done; try (by intros ? ?%elem_of_nil); try (by intros ? [? []%lookup_empty_Some]).
  - intros tok. split; [by intros [? []%lookup_empty_Some]|done].
  - constructor.
Qed.

Lemma queued_asked t w :
  TaskInv t -> w ∈ active_force_waiters (x_run t) ++ pending_force_waiters (x_run t) ->
  is_Some (x_asked t !! w).
Proof.
  intros I [H|H]%elem_of_app; [|rewrite (inv_pending t I w H); eauto].
  destruct (inv_active t I w H) as (q & -> & _). eauto.
Qed.

(** The whole queue is answered at once. *)
Lemma drained_asked t a ws :
  TaskInv t -> ws = active_force_waiters (x_run t) ++ pending_force_waiters (x_run t) ->
  (forall w q, w ∈ ws -> x_asked t !! w = Some q -> answered_well q a) ->
  forall w q, x_asked t !! w = Some q ->
    exists a', answer_all a ws (x_answers t) !! w = Some a' /\ answered_well q a'.
Proof.
  intros I -> Ha w q Hq. rewrite lookup_answer_all. case_decide as Hw; [by eauto|].
  destruct (inv_asked t I w q Hq) as [H|[_ H]]; [done|by destruct Hw].
Qed.

Lemma drained_answered t a ws :
  TaskInv t -> ws = active_force_waiters (x_run t) ++ pending_force_waiters (x_run t) ->
  forall w, is_Some (answer_all a ws (x_answers t) !! w) -> is_Some (x_asked t !! w).
Proof.
  intros I -> w. rewrite lookup_answer_all. case_decide as Hw.
  - intros _. by apply queued_asked.
  - apply inv_answered, I.
Qed.

Lemma cancelled_well q e : answered_well q {| answer_of := e; answer := cancelled_task_result |}.
Proof. by left. Qed.

(** A driver is the only one, and drives the latest execution. *)
Lemma only_driver t tok tok' :
  TaskInv t -> is_Some (x_drivers t !! tok) -> is_Some (x_drivers t !! tok') -> tok = tok'.
Proof. intros I H H'. apply (inv_driver t I) in H, H'. congruence. Qed.

Lemma no_driver_after t tok tok' :
  TaskInv t -> is_Some (x_drivers t !! tok) ->
  is_Some (delete tok (x_drivers t) !! tok') <-> (None : option Z) = Some tok'.
Proof.
  intros I H. split; [|done]. rewrite lookup_delete_is_Some. intros [Hne H'].
  by destruct Hne; eapply only_driver.
Qed.

Ltac task_invs I :=
  pose proof (inv_driver _ I); pose proof (inv_latest _ I); pose proof (inv_flight _ I);
  pose proof (inv_pending_flag _ I); pose proof (inv_rerun _ I); pose proof (inv_not_rerun _ I);
  pose proof (inv_idle _ I); pose proof (inv_pending _ I); pose proof (inv_active _ I);
  pose proof (inv_queued_once _ I); pose proof (inv_asked _ I); pose proof (inv_answered _ I).

(** The owner lets the task go, the queue is answered. *)
Lemma released_inv t tok a ws run :
  TaskInv t -> is_Some (x_drivers t !! tok) ->
  ws = active_force_waiters (x_run t) ++ pending_force_waiters (x_run t) ->
  (forall w q, w ∈ ws -> x_asked t !! w = Some q -> answered_well q a) ->
  run = released (x_run t) ->
  TaskInv {| x_run := run; x_cancelled := x_cancelled t; x_executions := x_executions t;
             x_drivers := delete tok (x_drivers t); x_asked := x_asked t;
             x_answers := answer_all a ws (x_answers t) |}.
Proof.
  intros I Hd Hws Ha ->. split; simpl; try done; try (by intros ? ?%elem_of_nil).
  - intros tok'. by apply no_driver_after.
  - intros tok' e c H. destruct (no_driver_after t tok tok' I Hd) as [Hn _].
    by specialize (Hn (mk_is_Some _ _ H)).
  - constructor.
  - intros w q Hq. left. by eapply drained_asked.
  - intros w Hw. split; [by eapply drained_answered|by intros ?%elem_of_nil].
Qed.

Lemma abandon_inv tok t : TaskInv t -> is_Some (x_drivers t !! tok) -> TaskInv (abandoned tok t).
Proof.
  intros I Hd. unfold abandoned, abandon.
  rewrite bool_decide_true by (by apply (inv_driver t I)). simpl.
  apply released_inv; try done. intros; apply cancelled_well.
Qed.

Lemma close_inv t : TaskInv t -> x_cancelled t = true -> TaskInv (closed_task t).
Proof.
  intros I _. split; simpl; try done; try (by intros ? ?%elem_of_nil); try apply I.
  - intros tok e c H. destruct (inv_latest t I tok e c H) as (? & ? & _). done.
  - constructor.
  - intros w q Hq. left. eapply drained_asked; try done. intros; apply cancelled_well.
  - intros w Hw. split; [by eapply drained_answered|by intros ?%elem_of_nil].
Qed.

Lemma turn_inv tok e c r t :
  TaskInv t -> x_drivers t !! tok = Some (e, c) -> TaskInv (turned tok e c r t).
Proof.
  intros I Hd. pose proof (mk_is_Some _ _ Hd) as Hs. unfold turned, end_run.
  pose proof (proj1 (inv_driver t I tok) Hs) as Ho.
  destruct (inv_latest t I tok e c Hd) as (He & Hc & Hc1).
  rewrite bool_decide_true by done. simpl.
  destruct (closed (x_run t) || x_cancelled t) eqn:Ec; simpl.
  { apply released_inv; try done. intros; apply cancelled_well. }
  apply orb_false_iff in Ec as [Ecl _].
  destruct (negb (forced_rerun (x_run t)) && pending_force (x_run t)) eqn:Ef; simpl.
  - apply andb_true_iff in Ef as [Hf Hp]. apply negb_true_iff in Hf.
    specialize (Hc1 Hf Ecl). pose proof (inv_not_rerun t I Hf) as Hact.
    split; simpl; try done; rewrite ?Hact, ?app_nil_r, ?app_nil_l; try (by intros ? ?%elem_of_nil).
    + intros tok'. rewrite lookup_insert_is_Some', Ho. split; [|naive_solver].
      intros [->|H]; [done|]. f_equal. by eapply only_driver.
    + intros tok' e' c' H. rewrite lookup_insert in H. case_decide; simplify_eq.
      * split_and!; [done|lia|done].
      * by destruct (only_driver t tok tok' I Hs (mk_is_Some _ _ H)).
    + rewrite (inv_flight t I). done.
    + congruence.
    + intros w Hw. exists {| asked_during := x_executions t; asked_in_rerun := false |}.
      split; [by apply (inv_pending t I)|left; simpl; lia].
    + pose proof (inv_queued_once t I) as H. by rewrite Hact in H.
    + intros w q Hq. destruct (inv_asked t I w q Hq) as [H|[H H']]; [by left|right].
      split; [done|]. by rewrite Hact in H'.
    + intros w Hw. destruct (inv_answered t I w Hw) as [? H]. by rewrite Hact in H.
  - assert (pending_force (x_run t) = false) as Hp.
    { destruct (forced_rerun (x_run t)) eqn:Hf; [by apply (inv_rerun t I)|done]. }
    pose proof (inv_pending_flag t I Hp) as Hpw. rewrite Hp, Hpw.
    apply released_inv; [done..| | |unfold released; by rewrite ?Hp, ?Hpw].
    + by rewrite Hpw, app_nil_r.
    + intros w q Hw Hq. destruct (inv_active t I w Hw) as (q' & Hq' & Hv). simplify_eq.
      right. by exists (x_executions t).
Qed.

(** A forced request joins the queue of a running task. *)
Lemma enqueue_inv t sender q run :
  TaskInv t -> x_asked t !! sender = None ->
  closed run = closed (x_run t) -> in_flight run = in_flight (x_run t) ->
  owner_token run = owner_token (x_run t) -> forced_rerun run = forced_rerun (x_run t) ->
  is_Some (owner_token (x_run t)) ->
  (forced_rerun run = true /\ pending_force run = pending_force (x_run t) /\
   pending_force_waiters run = pending_force_waiters (x_run t) /\
   active_force_waiters run = active_force_waiters (x_run t) ++ [sender] /\
   serves (x_executions t) q \/
   forced_rerun run = false /\ pending_force run = true /\
   pending_force_waiters run = pending_force_waiters (x_run t) ++ [sender] /\
   active_force_waiters run = active_force_waiters (x_run t) /\
   q = {| asked_during := x_executions t; asked_in_rerun := false |}) ->
  TaskInv {| x_run := run; x_cancelled := x_cancelled t; x_executions := x_executions t;
             x_drivers := x_drivers t; x_asked := <[sender := q]> (x_asked t);
             x_answers := x_answers t |}.
Proof.
  intros I Hn Ec Ei Eo Er Ho Hcase.
  assert (x_answers t !! sender = None) as Ha.
  { destruct (x_answers t !! sender) eqn:E; [|done].
    destruct (inv_answered t I sender) as [H _]; [by eauto|]. rewrite Hn in H. by destruct H. }
  assert (sender ∉ active_force_waiters (x_run t) ++ pending_force_waiters (x_run t)) as Hs.
  { intros H. apply queued_asked in H as [? H]; [congruence|done]. }
  assert (active_force_waiters run ++ pending_force_waiters run ≡ₚ
          sender :: active_force_waiters (x_run t) ++ pending_force_waiters (x_run t)) as Hq.
  { destruct Hcase as [(_ & _ & -> & -> & _)|(_ & _ & -> & -> & _)]; solve_Permutation. }
  assert (forall w, w <> sender -> <[sender := q]> (x_asked t) !! w = x_asked t !! w) as Hne
    by (intros; by apply lookup_insert_ne).
  split; simpl; rewrite ?Ec, ?Ei, ?Eo, ?Er; try apply I.
  - intros Hp. destruct Hcase as [(_ & Ep & Ew & _)|(_ & Ep & _)]; [|congruence].
    rewrite Ew. apply (inv_pending_flag t I). congruence.
  - intros Hr. destruct Hcase as [(_ & -> & _)|(Hr' & _)]; [by apply (inv_rerun t I)|congruence].
  - intros Hr. destruct Hcase as [(Hr' & _)|(_ & _ & _ & -> & _)]; [congruence|].
    by apply (inv_not_rerun t I).
  - intros H. rewrite H in Ho. by destruct Ho.
  - intros w Hw. destruct (decide (w = sender)) as [->|Hd].
    + rewrite lookup_insert_eq. destruct Hcase as [(_ & _ & Ew & _)|(_ & _ & _ & _ & ->)]; [|done].
      rewrite Ew in Hw. destruct Hs. apply elem_of_app. by right.
    + rewrite Hne by done. apply (inv_pending t I).
      destruct Hcase as [(_ & _ & Ew & _)|(_ & _ & Ew & _)]; rewrite Ew in Hw; [done|].
      apply elem_of_app in Hw as [?|?%list_elem_of_singleton]; [done|by destruct Hd].
  - intros w Hw. destruct (decide (w = sender)) as [->|Hd].
    + rewrite lookup_insert_eq. exists q. split; [done|].
      destruct Hcase as [(_ & _ & _ & _ & ?)|(_ & _ & _ & Ew & _)]; [done|].
      rewrite Ew in Hw. destruct Hs. apply elem_of_app. by left.
    + rewrite Hne by done. apply (inv_active t I).
      destruct Hcase as [(_ & _ & _ & Ew & _)|(_ & _ & _ & Ew & _)]; rewrite Ew in Hw; [|done].
      apply elem_of_app in Hw as [?|?%list_elem_of_singleton]; [done|by destruct Hd].
  - rewrite Hq. constructor; [done|apply I].
  - intros w q'. setoid_rewrite Hq. destruct (decide (w = sender)) as [->|Hd].
    + rewrite lookup_insert_eq. intros [= <-]. right. split; [done|by left].
    + rewrite Hne by done. intros H. destruct (inv_asked t I w q' H) as [|[? ?]]; [by left|].
      right. split; [done|by right].
  - intros w Hw. rewrite Hq. destruct (inv_answered t I w Hw) as [H1 H2].
    destruct (decide (w = sender)) as [->|Hd]; [rewrite Ha in Hw; by destruct Hw|].
    rewrite Hne by done. split; [done|]. by apply not_elem_of_cons.
Qed.

Lemma claim_inv force sender t :
  TaskInv t -> x_asked t !! sender = None -> TaskInv (claimed force sender t).
Proof.
  intros I Hn. unfold claimed, claim_run.
  destruct (closed (x_run t) || x_cancelled t) eqn:Ec; [by destruct t|].
  destruct (in_flight (x_run t)) eqn:Ef.
  - rewrite (inv_flight t I) in Ef. apply bool_decide_eq_true in Ef as Ho.
    destruct force; [|by destruct t].
    destruct (forced_rerun (x_run t)) eqn:Er; simpl; apply enqueue_inv; simpl; try done;
      try by rewrite (inv_flight t I), bool_decide_true.
    + left. split_and!; try done. by right.
    + by right.
  - rewrite (inv_flight t I) in Ef. apply bool_decide_eq_false, eq_None_not_Some in Ef as Ho.
    destruct (inv_idle t I Ho) as [Hp Hr].
    pose proof (inv_pending_flag t I Hp) as Hpw. pose proof (inv_not_rerun t I Hr) as Hact.
    assert (forall tok, x_drivers t !! tok = None) as Hnone.
    { intros tok. apply eq_None_not_Some. rewrite (inv_driver t I), Ho. done. }
    destruct (u64_checked_add _ _) as [token|]; simpl.
    + split; simpl; rewrite ?Hpw, ?Hact; try done; try (by intros ? ?%elem_of_nil).
      * intros tok. rewrite lookup_insert_is_Some'. split; [|naive_solver].
        intros [->|H]; [done|]. rewrite Hnone in H. by destruct H.
      * intros tok e c H. rewrite lookup_insert in H. case_decide; [|by rewrite Hnone in H].
        simplify_eq. split_and!; [done|lia|done].
      * constructor.
      * intros w q Hq. destruct (inv_asked t I w q Hq) as [|[_ H]]; [by left|].
        rewrite Hpw, Hact in H. by apply elem_of_nil in H.
      * intros w Hw. destruct (inv_answered t I w Hw) as [? _].
        split; [done|by intros ?%elem_of_nil].
    + split; simpl; try apply I; try done.
      * intros tok e c H. by rewrite Hnone in H.
      * by rewrite Ho.
Qed.

Lemma task_step_inv t t' : task_step t t' -> TaskInv t -> TaskInv t'.
Proof.
  destruct 1; intros I.
  - by apply claim_inv.
  - by apply turn_inv.
  - by apply abandon_inv.
  - destruct I. by split.
  - by apply close_inv.
Qed.

Lemma reachable_task_inv t : rtc task_step idle_task t -> TaskInv t.
Proof.
  intros H. remember idle_task as t0. assert (TaskInv t0) as I by (subst; apply idle_inv).
  clear Heqt0. induction H; [done|]. by eauto using task_step_inv.
Qed.

(** ** Theorems *)

(** C22: A task never runs twice at once, a driver runs it at most twice, and
    every forced request is answered once its driver is gone: with the result of
    an execution that began after the request or of the forced rerun the request
    found, or with the cancellation. *)
Theorem forced_requests_served (t : Task) (reached : rtc task_step idle_task t) :
  (forall tok tok', is_Some (x_drivers t !! tok) -> is_Some (x_drivers t !! tok') -> tok = tok') /\
  (forall tok e c, x_drivers t !! tok = Some (e, c) -> e = x_executions t /\ (c <= 2)%nat) /\
  (forall w q, x_asked t !! w = Some q ->
     (exists a, x_answers t !! w = Some a /\
        (answer a = cancelled_task_result \/
         exists e, answer_of a = Some e /\
           ((asked_during q < e)%nat \/ asked_during q = e /\ asked_in_rerun q = true))) \/
     (exists tok, is_Some (x_drivers t !! tok))).
Proof.
  apply reachable_task_inv in reached as I. split_and!.
  - intros. by eapply only_driver.
  - intros tok e c H. destruct (inv_latest t I tok e c H) as (? & ? & _). done.
  - intros w q Hq. destruct (inv_asked t I w q Hq) as [H|[_ H]]; [by left|right].
    destruct (owner_token (x_run t)) as [tok|] eqn:Eo.
    + exists tok. by apply (inv_driver t I).
    + destruct (inv_idle t I Eo) as [Hp Hr].
      rewrite (inv_pending_flag t I Hp), (inv_not_rerun t I Hr) in H. by apply elem_of_nil in H.
Qed.

(** An answer is final: no later step of the task changes it. *)
Theorem answers_are_final (t t' : Task) (reached : rtc task_step idle_task t)
    (later : rtc task_step t t') (w : Waiter) (a : Answer)
    (answered : x_answers t !! w = Some a) : x_answers t' !! w = Some a.
Proof.
  apply reachable_task_inv in reached as I. clear reached.
  revert I answered. induction later as [t|t u v s _ IH]; intros I Ha; [done|].
  apply IH; [by eapply task_step_inv|].
  destruct (inv_answered t I w (mk_is_Some _ _ Ha)) as [_ Hw].
  destruct s; simpl; try done.
  - unfold claimed. by destruct (claim_run _ _ _ _) as [[] ?].
  - unfold turned, end_run. case_match; simplify_eq.
    repeat case_match; simplify_eq; simpl in *; rewrite ?lookup_answer_all; try done;
      rewrite decide_False; try done.
    intros H'. destruct Hw. apply elem_of_app. by left.
  - unfold abandoned, abandon. case_match; simplify_eq. case_bool_decide; simplify_eq; simpl; [|done].
    by rewrite lookup_answer_all, decide_False.
  - by rewrite lookup_answer_all, decide_False.
Qed.
