(* ===== verification/Scheduler.v ===== *)
(** services/scheduler.rs: the tasks and their schedule, and the lifecycle of
    the scheduler's generations as operations on the state its mutex guards.

    Objects shared by reference are named: a generation's control, flags, run
    states and cleanup by the generation's number (each is created once for
    it), a desired-run token by a serial number. *)
From coqutil Require Import Datatypes.RecordSettersUsingExistingGetters.
From stdpp Require Import gmap strings.
From S2P Require Import Prelude RustStr Models TaskRun.
#[local] Open Scope list_scope.

#[global] Arguments RecordSettersUsingExistingGetters.const {_} _ _ /.

(** ** Tasks *)

Inductive TaskId :=
| TimeSync | FundingRate | Balances | PrivatePanels | DailyPnl | MarketFallback
| KlineFlush | Environment | NotificationMaintenance.
#[export] Instance TaskId_eq_dec : EqDecision TaskId.
Proof. solve_decision. Defined.

Definition all_tasks : list TaskId :=
  [TimeSync; FundingRate; Balances; PrivatePanels; DailyPnl; MarketFallback;
   KlineFlush; Environment; NotificationMaintenance].

#[export] Instance TaskId_finite : finite.Finite TaskId.
Proof. refine {| finite.enum := all_tasks |}; [by apply (bool_decide_unpack _); vm_compute|by intros []; apply (bool_decide_unpack _); vm_compute]. Defined.
#[export] Instance TaskId_countable : Countable TaskId := finite.finite_countable.

Definition from_name (name : string) : option TaskId :=
  if (name ==s "time") || (name ==s "timeSync") then Some TimeSync
  else if (name ==s "funding") || (name ==s "fundingRate") then Some FundingRate
  else if (name ==s "account") || (name ==s "balances") then Some Balances
  else if name ==s "privatePanels" then Some PrivatePanels
  else if name ==s "dailyPnl" then Some DailyPnl
  else if (name ==s "market") || (name ==s "marketFallback") then Some MarketFallback
  else if (name ==s "kline") || (name ==s "klineFlush") then Some KlineFlush
  else if name ==s "environment" then Some Environment
  else None.

(** Durations in milliseconds. *)
Definition interval (t : TaskId) : option Z :=
  match t with
  | TimeSync => Some 45000
  | FundingRate => Some 60000
  | Balances => Some 7000
  | PrivatePanels => Some 4000
  | DailyPnl => Some 60000
  | MarketFallback => Some 1000
  | KlineFlush => Some 5000
  | Environment => None
  | NotificationMaintenance => Some 86400000
  end.

Definition bootstrap_label (t : TaskId) : string :=
  match t with
  | TimeSync => "时间同步"
  | FundingRate => "资金费率"
  | Balances => "账户余额"
  | PrivatePanels => "订单/持仓"
  | DailyPnl => "今日盈亏"
  | MarketFallback => "行情快照"
  | KlineFlush => "K线持久化"
  | Environment => "环境检测"
  | NotificationMaintenance => "通知维护"
  end.

Definition requires_account_lifecycle (t : TaskId) : bool :=
  match t with KlineFlush | Environment => false | _ => true end.

Definition first_tick_delay {E} (t : TaskId) : outcome E Z :=
  match t with
  | KlineFlush | NotificationMaintenance => or_panic (interval t)
  | _ => Ok 0
  end.

Definition periodic_task_ids : list TaskId :=
  [TimeSync; FundingRate; Balances; PrivatePanels; DailyPnl; MarketFallback;
   KlineFlush; NotificationMaintenance].

Definition bootstrap_tasks (connected : bool) : list TaskId :=
  [TimeSync; MarketFallback; FundingRate; Environment]
  ++ (if connected then [Balances; PrivatePanels; DailyPnl] else []).

(** [Duration::checked_mul]; a duration holds 64-bit seconds. *)
Definition duration_max : Z := u64_max * 1000 + 999.
Definition checked_mul_ms (d k : Z) : option Z :=
  if d * k <=? duration_max then Some (d * k) else None.

Definition recovery_backoff (attempt : Z) : Z :=
  let exponent := Z.min (saturating_sub attempt 1) 16 in
  let multiplier := Z.shiftl 1 exponent in
  Z.min (default 5000 (checked_mul_ms 100 multiplier)) 5000.

(** ** What follows a connection *)

Inductive ExecutionMode := Periodic | Bootstrap.

Section Bootstrap.
Context {W : Type}.

Definition run_rest_snapshot_if_needed (mode : ExecutionMode) (matching_ws_domains_fresh : bool)
    (operation : M W AppError unit) : M W AppError unit :=
  match mode with
  | Periodic => if matching_ws_domains_fresh then mret tt else operation
  | Bootstrap => operation
  end.

(** Every task runs; the failures are collected. *)
Fixpoint run_bootstrap_tasks_with_errors (tasks : list TaskId) (run : TaskId -> M W AppError unit)
    : M W AppError (list (TaskId * AppError)) :=
  match tasks with
  | [] => mret []
  | t :: tasks' =>
      let* result := mtry (run t) in
      let* failed := run_bootstrap_tasks_with_errors tasks' run in
      mret (match result with inl e => (t, e) :: failed | inr _ => failed end)
  end.
End Bootstrap.

(** [run_market_reconnect_backfill] over the flag of the last connection seen;
    a cancelled operation ([Halt]) leaves the flag as it was. *)
Definition run_market_reconnect_backfill {W} (connected : bool) (operation : M W AppError unit)
    : M (bool * W) AppError unit :=
  fun '(previous, w) =>
    if negb connected then (Ok tt, (false, w))
    else if previous then (Ok tt, (previous, w))
    else match operation w with
         | (Halt h, w') => (Halt h, (previous, w'))
         | (o, w') => (o, (true, w'))
         end.

Definition bootstrap_failure_needs_generic_error (e : AppError) : bool :=
  match e with Notified _ _ _ _ | Observed _ => false | _ => true end.

Definition join_labels (tasks : list TaskId) : string :=
  String.concat "、" (map bootstrap_label tasks).

Definition aggregate_bootstrap_failure_error (failed : list TaskId) : AppError :=
  Connection ("连接初始化未完成: " +:+ join_labels failed).

Definition is_session_expired (e : AppError) : bool :=
  match e with
  | Notified code _ id _ => (code ==s "AUTH_SESSION_EXPIRED") && negb (trim_is_empty id)
  | _ => false
  end.

Definition bootstrap_failure_error (failed : list (TaskId * AppError)) : AppError :=
  match filter (fun p => bootstrap_failure_needs_generic_error p.2) failed with
  | [] =>
      match find (fun p => is_session_expired p.2) failed with
      | Some (_, e) => e
      | None => aggregate_bootstrap_failure_error (map fst failed)
      end
  | generic => aggregate_bootstrap_failure_error (map fst generic)
  end.

(** ** The state *)

Inductive SchedulerLifecycleState :=
| Stopped | Starting (generation : Z) | Running (generation : Z) | Stopping (generation : Z).
#[export] Instance SchedulerLifecycleState_eq_dec : EqDecision SchedulerLifecycleState.
Proof. solve_decision. Defined.

Record RecoveryTicket := {
  failed_generation : Z;
  attempt : Z;
  ticket_desired : nat;
}.
#[export] Instance RecoveryTicket_eq_dec : EqDecision RecoveryTicket.
Proof. solve_decision. Defined.

Inductive RequiredLoopStatus := Booting | Ready | CommitApproved.
#[export] Instance RequiredLoopStatus_eq_dec : EqDecision RequiredLoopStatus.
Proof. solve_decision. Defined.

Inductive RequiredCommitOutcome := Approved | Published | Rejected.

Record SchedulerLifecycle := {
  state : SchedulerLifecycleState;
  next_generation : Z;
  generation_exhausted : bool;
  handles : gmap TaskId Z;
  run_states : option Z;
  generation_running : option Z;
  control : option Z;
  cleanup_completion : option Z;
  required_loops : gmap TaskId RequiredLoopStatus;
  desired : option nat;
  recovery_attempt : Z;
  pending_recovery : option RecoveryTicket;
  recovery_handler : bool;
  recovery_worker : option nat;
  recovery_active : Z;
  cleanup_job : option Z;
  terminal : bool;
}.

Definition new_lifecycle : SchedulerLifecycle := {|
  state := Stopped; next_generation := 0; generation_exhausted := false;
  handles := ∅; run_states := None; generation_running := None; control := None;
  cleanup_completion := None; required_loops := ∅; desired := None;
  recovery_attempt := 0; pending_recovery := None; recovery_handler := true;
  recovery_worker := None; recovery_active := 0; cleanup_job := None; terminal := false;
|}.

Record GenerationControl := { cancelled : bool; active_owners : Z }.

(** The lives [GenerationControl::active_owners] counts. *)
Inductive Guard :=
| StartActivity (g : Z)                    (* SchedulerStartGuard *)
| LoopOwner (g : Z) (t : TaskId)           (* the future of a required loop *)
| HandleOwner (g : Z) (t : TaskId)         (* GenerationOwnedSchedulerHandle, also deferred *)
| BatchOwner (g : Z)                       (* a deferred batch *)
| RunOwner (g : Z) (t : TaskId) (token : Z)  (* TaskRunOwnerGuard *)
| Activity (g : Z).                        (* GenerationActivityGuard *)
#[export] Instance Guard_eq_dec : EqDecision Guard.
Proof. solve_decision. Defined.

Definition guard_generation (x : Guard) : Z :=
  match x with
  | StartActivity g | LoopOwner g _ | HandleOwner g _ | BatchOwner g | RunOwner g _ _ | Activity g => g
  end.

(** What [SchedulerLifecycle] refers to. *)
Record Heap := {
  cancelled_tokens : gset nat;
  next_token : nat;
  controls : gmap Z GenerationControl;
  flags : gmap Z bool;
  runs : gmap (Z * TaskId) TaskRunState;
  guards : list Guard;
}.

Definition usize_max : Z := u64_max.

Definition is_active (h : Heap) (token : nat) : bool := bool_decide (token ∉ cancelled_tokens h).

Definition cancel_token (token : nat) (h : Heap) : Heap :=
  h <| cancelled_tokens ::= union {[ token ]} |>.

Definition is_cancelled (h : Heap) (g : Z) : bool :=
  match controls h !! g with Some c => cancelled c | None => false end.

Definition cancel_control (g : Z) (h : Heap) : Heap :=
  h <| controls ::= alter (fun c => c <| cancelled := true |>) g |>.

(** [GenerationControl::owner_started] and [owner_finished]. *)
Definition owner_started (g : Z) (h : Heap) : Heap :=
  h <| controls ::= alter (fun c => c <| active_owners ::= fun n => Z.min usize_max (n + 1) |>) g |>.

Definition owner_finished (g : Z) (h : Heap) : Heap :=
  h <| controls ::= alter (fun c => if active_owners c =? 0 then c
                                    else c <| active_owners ::= fun n => n - 1 |>) g |>.

Fixpoint remove_one (x : Guard) (l : list Guard) : list Guard :=
  match l with
  | [] => []
  | y :: l' => if decide (x = y) then l' else y :: remove_one x l'
  end.

(** A counted life begins, ends. *)
Definition hold_guard (x : Guard) (h : Heap) : Heap :=
  owner_started (guard_generation x) h <| guards ::= cons x |>.
Definition drop_guard (x : Guard) (h : Heap) : Heap :=
  owner_finished (guard_generation x) h <| guards ::= remove_one x |>.

(** ** Starting *)

(** [begin_start]; the caller holds the control as an owner at once. *)
Definition fail_generation_exhaustion (l : SchedulerLifecycle) (h : Heap) : SchedulerLifecycle * Heap :=
  (l <| generation_exhausted := true |> <| desired := None |>
     <| pending_recovery := None |> <| recovery_attempt := 0 |>,
   match desired l with Some token => cancel_token token h | None => h end).

Definition new_generation (g : Z) (h : Heap) : Heap :=
  h <| controls ::= insert g {| cancelled := false; active_owners := 0 |} |>
    <| flags ::= insert g true |>
    <| runs ::= fun m => foldr (fun t => insert (g, t) new_run) m all_tasks |>.

Definition begin_start (l : SchedulerLifecycle) (h : Heap) : option Z * (SchedulerLifecycle * Heap) :=
  if negb (bool_decide (state l = Stopped)) || generation_exhausted l || terminal l then (None, (l, h))
  else
    match u64_checked_add (next_generation l) 1 with
    | None => (None, fail_generation_exhaustion l h)
    | Some g =>
        (Some g,
         (l <| next_generation := g |> <| state := Starting g |>
            <| run_states := Some g |> <| generation_running := Some g |>
            <| control := Some g |> <| required_loops := ∅ |>,
          new_generation g h))
    end.

Inductive SchedulerStartDecision :=
| Begin (generation : Z) | AlreadyRunning | WaitCleanup (completion : Z) | Exhausted.

Inductive ExplicitStartRequest := StartAlready | Desired (token : nat) | StartRejected.

Definition request_explicit_start (l : SchedulerLifecycle) (h : Heap)
    : ExplicitStartRequest * (SchedulerLifecycle * Heap) :=
  if terminal l || generation_exhausted l then (StartRejected, (l, h))
  else match state l with
       | Starting _ | Running _ => (StartAlready, (l, h))
       | Stopping _ | Stopped =>
           let token := next_token h in
           let h := h <| next_token ::= S |> in
           let h := match desired l with Some previous => cancel_token previous h | None => h end in
           (Desired token,
            (l <| desired := Some token |> <| pending_recovery := None |>
               <| recovery_attempt := 0 |>, h))
       end.

Definition begin_decision (l : SchedulerLifecycle) (h : Heap)
    : SchedulerStartDecision * (SchedulerLifecycle * Heap) :=
  match begin_start l h with
  | (Some g, (l, h)) => (Begin g, (l, hold_guard (StartActivity g) h))
  | (None, (l, h)) => (Exhausted, (l, h))
  end.

Definition is_desired (l : SchedulerLifecycle) (h : Heap) (token : nat) : bool :=
  match desired l with
  | Some active => bool_decide (active = token) && is_active h active
  | None => false
  end.

Definition start_decision_for (token : nat) (l : SchedulerLifecycle) (h : Heap)
    : SchedulerStartDecision * (SchedulerLifecycle * Heap) :=
  if terminal l || generation_exhausted l || negb (is_desired l h token) then (Exhausted, (l, h))
  else match state l with
       | Starting _ | Running _ => (AlreadyRunning, (l, h))
       | Stopping _ =>
           (match cleanup_completion l with Some c => WaitCleanup c | None => Exhausted end, (l, h))
       | Stopped => begin_decision l h
       end.

Definition is_pending (l : SchedulerLifecycle) (ticket : RecoveryTicket) : bool :=
  match pending_recovery l with
  | Some pending =>
      (failed_generation pending =? failed_generation ticket)
      && bool_decide (ticket_desired pending = ticket_desired ticket)
  | None => false
  end.

Definition recovery_start_decision (ticket : RecoveryTicket) (l : SchedulerLifecycle) (h : Heap)
    : SchedulerStartDecision * (SchedulerLifecycle * Heap) :=
  let valid :=
    negb (terminal l) && negb (generation_exhausted l) && bool_decide (state l = Stopped)
    && is_pending l ticket && is_desired l h (ticket_desired ticket) in
  if valid then begin_decision l h else (Exhausted, (l, h)).

Inductive SchedulerStartOrigin := Explicit | Recovery (ticket : RecoveryTicket).
Inductive SchedulerStartOwner := OwnerExplicit (token : nat) | OwnerRecovery (ticket : RecoveryTicket).

Definition decision_for (owner : option SchedulerStartOwner) (l : SchedulerLifecycle) (h : Heap)
    : SchedulerStartDecision * (SchedulerLifecycle * Heap) :=
  match owner with
  | Some (OwnerExplicit token) => start_decision_for token l h
  | Some (OwnerRecovery ticket) => recovery_start_decision ticket l h
  | None => (Exhausted, (l, h))
  end.

Definition claim_scheduler_start (origin : SchedulerStartOrigin) (l : SchedulerLifecycle) (h : Heap)
    : option SchedulerStartOwner * SchedulerStartDecision * (SchedulerLifecycle * Heap) :=
  let '(owner, (l, h)) :=
    match origin with
    | Explicit =>
        match request_explicit_start l h with
        | (Desired token, s) => (Some (OwnerExplicit token), s)
        | (_, s) => (None, s)
        end
    | Recovery ticket => (Some (OwnerRecovery ticket), (l, h))
    end in
  let '(decision, s) := decision_for owner l h in (owner, decision, s).

Definition mark_start_committed (g : Z) (l : SchedulerLifecycle) : SchedulerLifecycle :=
  if bool_decide (state l = Running g)
  then l <| pending_recovery := None |> <| recovery_attempt := 0 |> else l.

Definition register_required_loops (g : Z) (tasks : list TaskId) (l : SchedulerLifecycle)
    : bool * SchedulerLifecycle :=
  if bool_decide (state l = Starting g)
  then (true, l <| required_loops := list_to_map (map (fun t => (t, Booting)) tasks) |>)
  else (false, l).

Definition mark_required_loop_ready (g : Z) (t : TaskId) (l : SchedulerLifecycle)
    : bool * SchedulerLifecycle :=
  if bool_decide (state l = Starting g) && bool_decide (required_loops l !! t = Some Booting)
  then (true, l <| required_loops ::= insert t Ready |>)
  else (false, l).

Definition all_approved (m : gmap TaskId RequiredLoopStatus) : bool :=
  bool_decide (map_Forall (fun _ s => s = CommitApproved) m).

Definition control_live (l : SchedulerLifecycle) (h : Heap) : bool :=
  match control l with Some g => negb (is_cancelled h g) | None => false end.

Definition approve_required_loop_and_maybe_publish (g : Z) (t : TaskId)
    (l : SchedulerLifecycle) (h : Heap) : RequiredCommitOutcome * SchedulerLifecycle :=
  if negb (bool_decide (state l = Starting g)) then (Rejected, l)
  else if negb (bool_decide (required_loops l !! t = Some Ready)) then (Rejected, l)
  else
    let l := l <| required_loops ::= insert t CommitApproved |> in
    if negb (all_approved (required_loops l)) then (Approved, l)
    else if negb (control_live l h) then (Rejected, l)
    else (Published, l <| state := Running g |>).

Definition install_handles (g : Z) (batch : list TaskId) (l : SchedulerLifecycle)
    : bool * SchedulerLifecycle :=
  if bool_decide (state l = Starting g)
  then (true, l <| handles ::= fun m => foldl (fun m t => <[t := g]> m) m batch |>)
  else (false, l).

Definition finish_start (g : Z) (l : SchedulerLifecycle) (h : Heap) : bool * SchedulerLifecycle :=
  if negb (bool_decide (state l = Starting g)) || negb (control_live l h)
     || negb (all_approved (required_loops l))
  then (false, l)
  else (true, l <| state := Running g |>).

Definition active_generation (l : SchedulerLifecycle) : option Z :=
  match state l with
  | Starting g | Running g | Stopping g => Some g
  | Stopped => None
  end.

(** [SchedulerLifecycle::run_state]: the generation whose run states answer. *)
Definition run_state (l : SchedulerLifecycle) : option Z :=
  match state l with Running _ => run_states l | _ => None end.

(** [claim_generation_activity]: the generation claimed. *)
Definition claim_generation_activity (l : SchedulerLifecycle) (h : Heap) : option Z * Heap :=
  match state l, control l with
  | (Starting _ | Running _), Some g => (Some g, hold_guard (Activity g) h)
  | _, _ => (None, h)
  end.

(** ** Cleanup *)

Inductive CleanupCause := ExplicitStop | StartAborted | UnexpectedRequiredLoop.
#[export] Instance CleanupCause_eq_dec : EqDecision CleanupCause.
Proof. solve_decision. Defined.

(** The parts of [CleanupResources] that are not the generation's own objects:
    the handles, whether control and run states were there, the recovery. *)
Record CleanupResources := {
  res_generation : Z;
  res_handles : list (TaskId * Z);
  res_run_states : option Z;
  res_running : option Z;
  res_control : option Z;
  res_recovery : option RecoveryTicket;
}.

Inductive CleanupRequest :=
| CleanupStart (resources : CleanupResources) | CleanupWait (completion : Z) | CleanupInactive.

Definition u32_saturating_add (a b : Z) : Z := Z.min u32_max (a + b).

Definition reserve_recovery (g : Z) (l : SchedulerLifecycle) (h : Heap)
    : option RecoveryTicket * SchedulerLifecycle :=
  if terminal l || generation_exhausted l then (None, l)
  else match desired l with
       | Some token =>
           if negb (recovery_handler l) || negb (is_active h token) then (None, l)
           else if match pending_recovery l with
                   | Some p => (failed_generation p =? g) && bool_decide (ticket_desired p = token)
                   | None => false
                   end then (None, l)
           else
             let n := u32_saturating_add (recovery_attempt l) 1 in
             let ticket := {| failed_generation := g; attempt := n; ticket_desired := token |} in
             (Some ticket, l <| recovery_attempt := n |> <| pending_recovery := Some ticket |>)
       | None => (None, l)
       end.

Definition cleanup_wait (l : SchedulerLifecycle) : CleanupRequest :=
  match cleanup_completion l with Some c => CleanupWait c | None => CleanupInactive end.

Definition begin_cleanup_active (g : Z) (cause : CleanupCause) (l : SchedulerLifecycle) (h : Heap)
    : CleanupRequest * SchedulerLifecycle :=
  let '(recovery, l) :=
    if bool_decide (cause = ExplicitStop) then (None, l) else reserve_recovery g l h in
  (CleanupStart
     {| res_generation := g; res_handles := map_to_list (handles l);
        res_run_states := run_states l; res_running := generation_running l;
        res_control := control l; res_recovery := recovery |},
   l <| state := Stopping g |> <| cleanup_completion := Some g |>
     <| handles := ∅ |> <| run_states := None |> <| generation_running := None |>
     <| control := None |>).

Definition begin_cleanup_with_cause (g : Z) (cause : CleanupCause) (l : SchedulerLifecycle) (h : Heap)
    : CleanupRequest * SchedulerLifecycle :=
  match state l with
  | Stopping active => (if active =? g then cleanup_wait l else CleanupInactive, l)
  | Starting active | Running active =>
      if active =? g then begin_cleanup_active g cause l h else (CleanupInactive, l)
  | Stopped => (CleanupInactive, l)
  end.

Definition disable_desired_running (l : SchedulerLifecycle) (h : Heap) : SchedulerLifecycle * Heap :=
  (l <| desired := None |> <| pending_recovery := None |> <| recovery_attempt := 0 |>,
   match desired l with Some token => cancel_token token h | None => h end).

Definition begin_explicit_stop (l : SchedulerLifecycle) (h : Heap)
    : CleanupRequest * (SchedulerLifecycle * Heap) :=
  let '(l, h) := disable_desired_running l h in
  match active_generation l with
  | None => (CleanupInactive, (l, h))
  | Some g => let '(r, l) := begin_cleanup_with_cause g ExplicitStop l h in (r, (l, h))
  end.

Definition begin_terminal_shutdown (l : SchedulerLifecycle) (h : Heap)
    : CleanupRequest * (SchedulerLifecycle * Heap) :=
  begin_explicit_stop (l <| terminal := true |>) h.

Definition finish_cleanup (g : Z) (l : SchedulerLifecycle) : bool * SchedulerLifecycle :=
  if negb (bool_decide (state l = Stopping g)) then (false, l)
  else (true, l <| state := Stopped |> <| handles := ∅ |> <| run_states := None |>
                <| generation_running := None |> <| control := None |>
                <| cleanup_completion := None |> <| cleanup_job := None |>
                <| required_loops := ∅ |>).

(** [CleanupCompletionGuard::complete]: only the installed job may finish. *)
Definition complete_cleanup (g : Z) (l : SchedulerLifecycle) : bool * SchedulerLifecycle :=
  if bool_decide (cleanup_job l = Some g) then finish_cleanup g l else (false, l).

(** *** The job slot *)

Record CleanupJob := { job_handles : list (TaskId * Z); job_control : option Z }.

Record CleanupJobSlot := {
  job : option CleanupJob;
  worker_active : bool;
  worker_pending : Z;
}.

Definition new_slot (j : CleanupJob) : CleanupJobSlot :=
  {| job := Some j; worker_active := false; worker_pending := 0 |}.

Definition reserve_worker_launch (s : CleanupJobSlot) : option CleanupJobSlot :=
  if worker_active s || negb (worker_pending s =? 0) || negb (bool_decide (is_Some (job s))) then None
  else Some (s <| worker_pending := 1 |>).

(** [CleanupLaunchPermit::drop], and [begin]: the permit becomes a worker's. *)
Definition drop_launch (s : CleanupJobSlot) : CleanupJobSlot :=
  s <| worker_pending ::= fun n => saturating_sub n 1 |>.

Definition begin_worker (s : CleanupJobSlot) : bool * CleanupJobSlot :=
  let s := drop_launch s in
  if worker_active s || negb (bool_decide (is_Some (job s))) then (false, s)
  else (true, s <| worker_active := true |>).

Definition claim_job (s : CleanupJobSlot) : option CleanupJob * CleanupJobSlot :=
  (job s, s <| job := None |>).

(** [CleanupJobLease::drop]: the job goes back. *)
Definition return_job (j : CleanupJob) (s : CleanupJobSlot) : CleanupJobSlot :=
  match job s with None => s <| job := Some j |> | Some _ => s end.

Definition drop_worker (s : CleanupJobSlot) : CleanupJobSlot := s <| worker_active := false |>.

(** ** Recovery *)

Definition same_ticket (l : SchedulerLifecycle) (ticket : RecoveryTicket) : bool :=
  match pending_recovery l with
  | Some p => (failed_generation p =? failed_generation ticket) && (attempt p =? attempt ticket)
              && bool_decide (ticket_desired p = ticket_desired ticket)
  | None => false
  end.

(** [reconcile_abandoned_recovery]: the ticket whose handler is launched next. *)
Definition reconcile_abandoned_recovery (abandoned : RecoveryTicket) (l : SchedulerLifecycle) (h : Heap)
    : option RecoveryTicket * SchedulerLifecycle :=
  let valid := negb (terminal l) && negb (generation_exhausted l) && same_ticket l abandoned
               && is_desired l h (ticket_desired abandoned) in
  if negb valid then (None, l)
  else
    let n := u32_saturating_add (recovery_attempt l) 1 in
    let ticket := {| failed_generation := failed_generation abandoned; attempt := n;
                     ticket_desired := ticket_desired abandoned |} in
    let l := l <| recovery_attempt := n |> <| pending_recovery := Some ticket |> in
    (if recovery_handler l then Some ticket else None, l).

(** How [launch_recovery_handler] may go: the handler or the spawn panics, there
    is no runtime, or the task runs. *)
Inductive LaunchEnd := HandlerPanicked | NoRuntime | SpawnPanicked | Launched.

(** [inl]: the next ticket to launch; [inr true]: a recovery task was spawned. *)
Definition launch_recovery_handler (how : LaunchEnd) (ticket : RecoveryTicket)
    (l : SchedulerLifecycle) (h : Heap)
    : (option RecoveryTicket + bool) * (SchedulerLifecycle * Heap) :=
  let abandoned := let '(next, l) := reconcile_abandoned_recovery ticket l h in (inl next, (l, h)) in
  match how with
  | HandlerPanicked => abandoned
  | _ =>
      if negb (same_ticket l ticket && is_desired l h (ticket_desired ticket)) then (inr false, (l, h))
      else match how with
           | NoRuntime => (inr false, disable_desired_running (l <| terminal := true |>) h)
           | SpawnPanicked => abandoned
           | _ => (inr true, (l <| recovery_active ::= Z.add 1 |>, h))
           end
  end.

(** [SchedulerStartClaim::drop] of a claim that waits for a cleanup. *)
Definition drop_waiting_claim (owner : SchedulerStartOwner) (l : SchedulerLifecycle) (h : Heap)
    : option RecoveryTicket * SchedulerLifecycle :=
  match owner with
  | OwnerExplicit token =>
      if is_desired l h token
      then reserve_recovery (default (next_generation l) (active_generation l)) l h
      else (None, l)
  | OwnerRecovery _ => (None, l)
  end.
