(* ===== verification/SchedulerSteps.v ===== *)
(** services/scheduler.rs as a transition system: the tasks that start a
    generation, watch its loops, run its tasks, clean it up and recover it,
    interleaved at every critical section.

    Every task may be dropped at any point where it waits.  An action that the
    code would not take at once is one the scheduler of the runtime delays. *)
From coqutil Require Import Datatypes.RecordSettersUsingExistingGetters.
From stdpp Require Import gmap strings relations.
From S2P Require Import Prelude RustStr Models TaskRun Scheduler.
#[local] Open Scope list_scope.

(** ** The world *)

(** [drive_claimed_scheduler_start] between its steps. *)
Inductive StartPhase :=
| Preparing
| Installing (spawned todo : list TaskId)
| Supervising (rest supervised : list TaskId)
| AwaitReady (todo : list TaskId)
| Finishing
| Committing (todo : list TaskId)
| AwaitResult
| Aborting
| Releasing.

(** [supervise_scheduler_handle] between its steps. *)
Inductive WatchPhase := WatchBoot | WatchReady | WatchCommitted | WatchApproved | WatchEnding.
#[export] Instance WatchPhase_eq_dec : EqDecision WatchPhase.
Proof. solve_decision. Defined.

(** [launch_scheduler_cleanup] between its steps. *)
Inductive CleanPhase :=
| CleanRequested
| CleanFlagged
| CleanClosing (todo : list TaskId)
| CleanInstalled.

(** [run_cleanup_job] between its steps. *)
Inductive WorkerPhase :=
| WorkerLaunched
| WorkerBegun
| WorkerDraining (j : CleanupJob)
| WorkerDrained.

Record World := {
  lc : SchedulerLifecycle;
  heap : Heap;
  loops : gset (Z * TaskId);                          (* RequiredLoopRuntimeGuard *)
  watchers : gmap (Z * TaskId) WatchPhase;
  commit_outcome : gmap Z bool;
  starters : gmap Z StartPhase;
  waiting : list SchedulerStartOwner;
  cleaners : gmap Z (CleanupResources * CleanPhase);
  slots : gmap Z CleanupJobSlot;
  workers : gmap nat (Z * WorkerPhase);
  launching : list RecoveryTicket;
  recoveries : gmap nat RecoveryTicket;
}.

Definition new_world : World := {|
  lc := new_lifecycle;
  heap := {| cancelled_tokens := ∅; next_token := 0; controls := ∅; flags := ∅; runs := ∅; guards := [] |};
  loops := ∅; watchers := ∅; commit_outcome := ∅; starters := ∅; waiting := [];
  cleaners := ∅; slots := ∅; workers := ∅; launching := []; recoveries := ∅;
|}.

Definition when (b : bool) (w : World) : option World := if b then Some w else None.

Definition with_state (s : SchedulerLifecycle * Heap) (w : World) : World :=
  w <| lc := s.1 |> <| heap := s.2 |>.

Definition begin_guard (x : Guard) (w : World) : World := w <| heap ::= hold_guard x |>.
Definition end_guard (x : Guard) (w : World) : World := w <| heap ::= drop_guard x |>.

Definition holds_guard (x : Guard) (w : World) : bool := bool_decide (x ∈ guards (heap w)).

(** A cleanup that was requested is launched by the one who requested it. *)
Definition launch_request (r : CleanupRequest) (w : World) : World :=
  match r with
  | CleanupStart res => w <| cleaners ::= insert (res_generation res) (res, CleanRequested) |>
  | CleanupWait _ | CleanupInactive => w
  end.

Definition request_cleanup (g : Z) (cause : CleanupCause) (w : World) : World :=
  let '(r, l) := begin_cleanup_with_cause g cause (lc w) (heap w) in
  launch_request r (w <| lc := l |>).

(** [required_loop_failed], which every caller guards with the generation's flag. *)
Definition required_loop_failed (g : Z) (w : World) : World :=
  if is_cancelled (heap w) g then w else request_cleanup g UnexpectedRequiredLoop w.

(** ** Starting a generation *)

Section Steps.
(** The tasks whose loops a generation requires. *)
Context (required : list TaskId).

Definition apply_decision (owner : option SchedulerStartOwner) (d : SchedulerStartDecision) (w : World)
    : World :=
  match d with
  | Begin g => w <| starters ::= insert g Preparing |>
  | WaitCleanup _ =>
      match owner with Some owner => w <| waiting ::= cons owner |> | None => w end
  | AlreadyRunning | Exhausted => w
  end.

Definition claim_start (origin : SchedulerStartOrigin) (w : World) : World :=
  let '(owner, d, s) := claim_scheduler_start origin (lc w) (heap w) in
  apply_decision owner d (with_state s w).

(** [SchedulerStartClaim::refresh] after a wait. *)
Definition refresh_claim (k : nat) (w : World) : option World :=
  owner ← waiting w !! k;
  let w := w <| waiting ::= delete k |> in
  let '(d, s) := decision_for (Some owner) (lc w) (heap w) in
  Some (apply_decision (Some owner) d (with_state s w)).

Definition drop_claim (k : nat) (w : World) : option World :=
  owner ← waiting w !! k;
  let w := w <| waiting ::= delete k |> in
  let '(ticket, l) := drop_waiting_claim owner (lc w) (heap w) in
  Some (w <| lc := l |> <| launching ::= app (option_list ticket) |>).

Definition set_phase (g : Z) (p : StartPhase) (w : World) : World := w <| starters ::= insert g p |>.

(** One step of a start that goes on. *)
Definition start_step (g : Z) (w : World) : option World :=
  match starters w !! g with
  | Some Preparing =>
      when (bool_decide (state (lc w) = Starting g)) (set_phase g (Installing [] required) w)
  | Some (Installing spawned (t :: todo)) =>
      Some (set_phase g (Installing (spawned ++ [t]) todo)
              (begin_guard (LoopOwner g t) (w <| loops ::= union {[ (g, t) ]} |>)))
  | Some (Installing spawned []) =>
      let '(ok, l) := register_required_loops g spawned (lc w) in
      when ok (set_phase g (Supervising spawned []) (w <| lc := l |>))
  | Some (Supervising (t :: rest) supervised) =>
      Some (set_phase g (Supervising rest (supervised ++ [t]))
              (begin_guard (HandleOwner g t) (w <| watchers ::= insert (g, t) WatchBoot |>)))
  | Some (Supervising [] supervised) =>
      let '(ok, l) := install_handles g supervised (lc w) in
      when ok (set_phase g (AwaitReady supervised) (w <| lc := l |>))
  | Some (AwaitReady (t :: todo)) =>
      when (match required_loops (lc w) !! t with
            | Some Ready | Some CommitApproved => true
            | Some Booting | None => false
            end) (set_phase g (AwaitReady todo) w)
  | Some (AwaitReady []) => Some (set_phase g Finishing w)
  | Some Finishing =>
      match required with
      | [] =>
          let '(ok, l) := finish_start g (lc w) (heap w) in
          when ok (set_phase g AwaitResult (w <| lc := l |> <| commit_outcome ::= insert g true |>))
      | _ => Some (set_phase g (Committing required) w)
      end
  | Some (Committing (t :: todo)) =>
      when (bool_decide (watchers w !! (g, t) = Some WatchReady))
        (set_phase g (Committing todo) (w <| watchers ::= insert (g, t) WatchCommitted |>))
  | Some (Committing []) => Some (set_phase g AwaitResult w)
  | Some AwaitResult =>
      when (bool_decide (commit_outcome w !! g = Some true))
        (end_guard (StartActivity g)
           (w <| lc ::= mark_start_committed g |> <| starters ::= delete g |>))
  | Some Aborting => Some (set_phase g Releasing (request_cleanup g StartAborted w))
  | Some Releasing => Some (end_guard (StartActivity g) (w <| starters ::= delete g |>))
  | None => None
  end.

(** A start that gives up or is dropped: its batches are deferred, then its
    guard requests the cleanup. *)
Definition defer_batch (g : Z) (batch : list TaskId) (w : World) : World :=
  match batch with [] => w | _ => begin_guard (BatchOwner g) w end.

Definition start_abort (g : Z) (w : World) : option World :=
  match starters w !! g with
  | Some (Installing spawned _) => Some (set_phase g Aborting (defer_batch g spawned w))
  | Some (Supervising rest supervised) =>
      Some (set_phase g Aborting (defer_batch g supervised (defer_batch g rest w)))
  | Some Aborting | Some Releasing | None => None
  | Some _ => Some (set_phase g Aborting w)
  end.

(** ** Loops and the tasks that watch them *)

(** A required loop ends: its guard first, its owner afterwards. *)
Definition loop_exit (g : Z) (t : TaskId) (w : World) : option World :=
  when (bool_decide ((g, t) ∈ loops w))
    (required_loop_failed g (w <| loops ::= fun s => s ∖ {[ (g, t) ]} |>)).

Definition loop_dropped (g : Z) (t : TaskId) (w : World) : option World :=
  when (holds_guard (LoopOwner g t) w && bool_decide ((g, t) ∉ loops w))
    (end_guard (LoopOwner g t) w).

Definition set_watch (g : Z) (t : TaskId) (p : WatchPhase) (w : World) : World :=
  w <| watchers ::= insert (g, t) p |>.

Definition watch_step (g : Z) (t : TaskId) (w : World) : option World :=
  let exited := bool_decide ((g, t) ∉ loops w) in
  match watchers w !! (g, t) with
  | Some WatchBoot =>
      if exited then Some (set_watch g t WatchEnding (required_loop_failed g w))
      else if is_cancelled (heap w) g then Some (set_watch g t WatchEnding w)
      else
        let '(ready, l) := mark_required_loop_ready g t (lc w) in
        Some (set_watch g t (if ready then WatchReady else WatchEnding) (w <| lc := l |>))
  | Some WatchReady =>
      if exited then Some (set_watch g t WatchEnding (required_loop_failed g w))
      else if is_cancelled (heap w) g then Some (set_watch g t WatchEnding w)
      else when (bool_decide (starters w !! g = None) || match starters w !! g with
                                                        | Some Aborting | Some Releasing => true
                                                        | _ => false
                                                        end)
             (set_watch g t WatchEnding (required_loop_failed g w))
  | Some WatchCommitted =>
      let '(outcome, l) := approve_required_loop_and_maybe_publish g t (lc w) (heap w) in
      let w := w <| lc := l |> in
      Some match outcome with
           | Approved => set_watch g t WatchApproved w
           | Published => set_watch g t WatchApproved (w <| commit_outcome ::= insert g true |>)
           | Rejected => set_watch g t WatchEnding (w <| commit_outcome ::= insert g false |>)
           end
  | Some WatchApproved =>
      if exited then Some (set_watch g t WatchEnding (required_loop_failed g w))
      else when (is_cancelled (heap w) g) (set_watch g t WatchEnding w)
  | Some WatchEnding =>
      when exited (w <| watchers ::= delete (g, t) |>)
  | None => None
  end.

(** The watching task is aborted: its handle is deferred with its owner. *)
Definition watch_abort (g : Z) (t : TaskId) (w : World) : option World :=
  when (bool_decide (is_Some (watchers w !! (g, t)))) (w <| watchers ::= delete (g, t) |>).

Definition handle_dropped (g : Z) (t : TaskId) (w : World) : option World :=
  when (holds_guard (HandleOwner g t) w && bool_decide (watchers w !! (g, t) = None)
        && bool_decide ((g, t) ∉ loops w))
    (end_guard (HandleOwner g t) w).

Definition batch_dropped (g : Z) (w : World) : option World :=
  when (holds_guard (BatchOwner g) w) (end_guard (BatchOwner g) w).

(** ** Runs and activities *)

Definition set_run (g : Z) (t : TaskId) (s : TaskRunState) (w : World) : World :=
  w <| heap ::= fun h => h <| runs ::= insert (g, t) s |> |>.

(** [run_scheduled_task] by someone who holds the run state. *)
Definition run_claim (g : Z) (t : TaskId) (force : bool) (sender : Waiter) (w : World) : option World :=
  s ← runs (heap w) !! (g, t);
  let '(c, s) := claim_run (is_cancelled (heap w) g) force sender s in
  let w := set_run g t s w in
  Some match c with
       | Owner token => begin_guard (RunOwner g t token) w
       | Skip | Wait | Closed => w
       end.

(** The guard is gone; the count follows only if it still owned the run. *)
Definition release_run (owned : bool) (x : Guard) (w : World) : World :=
  if owned then end_guard x w else w <| heap ::= fun h => h <| guards ::= remove_one x |> |>.

Definition run_turn (g : Z) (t : TaskId) (token : Z) (result : TaskResult) (w : World) : option World :=
  s ← runs (heap w) !! (g, t);
  if holds_guard (RunOwner g t token) w then
    let '(e, s) := end_run (is_cancelled (heap w) g) token result s in
    let w := set_run g t s w in
    Some (if finished e then release_run (release_owner e) (RunOwner g t token) w else w)
  else None.

Definition run_abandon (g : Z) (t : TaskId) (token : Z) (w : World) : option World :=
  s ← runs (heap w) !! (g, t);
  if holds_guard (RunOwner g t token) w then
    let '(waiters, s) := abandon token s in
    Some (release_run (bool_decide (is_Some waiters)) (RunOwner g t token) (set_run g t s w))
  else None.

Definition activity_claim (w : World) : World :=
  w <| heap := (claim_generation_activity (lc w) (heap w)).2 |>.

Definition activity_end (g : Z) (w : World) : option World :=
  when (holds_guard (Activity g) w) (end_guard (Activity g) w).

(** ** Stopping, cleaning up *)

Definition stop (terminal_ : bool) (w : World) : World :=
  let '(r, s) := (if terminal_ then begin_terminal_shutdown else begin_explicit_stop) (lc w) (heap w) in
  launch_request r (with_state s w).

Definition set_cleaner (g : Z) (res : CleanupResources) (p : CleanPhase) (w : World) : World :=
  w <| cleaners ::= insert g (res, p) |>.

Definition install_slot (g : Z) (w : World) : World :=
  if bool_decide (state (lc w) = Stopping g) && bool_decide (cleanup_job (lc w) = None)
  then w <| lc ::= fun l => l <| cleanup_job := Some g |> |> else w.

Definition clean_step (g : Z) (w : World) : option World :=
  match cleaners w !! g with
  | Some (res, CleanRequested) =>
      let w := match res_running res with
               | Some r => w <| heap ::= fun h => h <| flags ::= insert r false |> |>
               | None => w
               end in
      Some (set_cleaner g res CleanFlagged w)
  | Some (res, CleanFlagged) =>
      let w := match res_control res with
               | Some c => w <| heap ::= cancel_control c |>
               | None => w
               end in
      Some (set_cleaner g res
              (CleanClosing (if res_run_states res is Some _ then all_tasks else [])) w)
  | Some (res, CleanClosing (t :: todo)) =>
      r ← res_run_states res;
      s ← runs (heap w) !! (r, t);
      Some (set_cleaner g res (CleanClosing todo) (set_run r t (cancel_run s).2 w))
  | Some (res, CleanClosing []) =>
      let w := w <| slots ::= insert g
                      (new_slot {| job_handles := res_handles res; job_control := res_control res |}) |> in
      Some (set_cleaner g res CleanInstalled (install_slot g w))
  | Some (res, CleanInstalled) =>
      Some (w <| cleaners ::= delete g |> <| launching ::= app (option_list (res_recovery res)) |>)
  | None => None
  end.

(** *** Workers of a slot *)

Definition set_slot (g : Z) (s : CleanupJobSlot) (w : World) : World := w <| slots ::= insert g s |>.

(** [attempt_cleanup_spawn], by the launcher or by anyone who waits. *)
Definition worker_launch (n : nat) (g : Z) (w : World) : option World :=
  s ← slots w !! g;
  s ← reserve_worker_launch s;
  when (bool_decide (workers w !! n = None))
    (set_slot g s (w <| workers ::= insert n (g, WorkerLaunched) |>)).

Definition worker_step (n : nat) (w : World) : option World :=
  '(g, p) ← workers w !! n;
  s ← slots w !! g;
  match p with
  | WorkerLaunched =>
      let '(active, s) := begin_worker s in
      Some (set_slot g s (if active then w <| workers ::= insert n (g, WorkerBegun) |>
                          else w <| workers ::= delete n |>))
  | WorkerBegun =>
      let '(j, s) := claim_job s in
      Some match j with
           | Some j => set_slot g s (w <| workers ::= insert n (g, WorkerDraining j) |>)
           | None => set_slot g (drop_worker s) (w <| workers ::= delete n |>)
           end
  | WorkerDraining j =>
      match job_handles j with
      | (t, g') :: rest =>
          when (bool_decide (watchers w !! (g', t) = None))
            (w <| workers ::= insert n (g, WorkerDraining (j <| job_handles := rest |>)) |>)
      | [] =>
          when (match job_control j with
                | Some c => match controls (heap w) !! c with
                            | Some c => active_owners c =? 0
                            | None => true
                            end
                | None => true
                end)
            (w <| workers ::= insert n (g, WorkerDrained) |>)
      end
  | WorkerDrained =>
      let '(_, l) := complete_cleanup g (lc w) in
      Some (set_slot g (drop_worker s) (w <| lc := l |> <| workers ::= delete n |>))
  end.

Definition worker_abort (n : nat) (w : World) : option World :=
  '(g, p) ← workers w !! n;
  s ← slots w !! g;
  match p with
  | WorkerLaunched => Some (set_slot g (drop_launch s) (w <| workers ::= delete n |>))
  | WorkerBegun => Some (set_slot g (drop_worker s) (w <| workers ::= delete n |>))
  | WorkerDraining j =>
      Some (set_slot g (drop_worker (return_job j s)) (w <| workers ::= delete n |>))
  | WorkerDrained => None
  end.

(** ** Recovery *)

Definition recovery_launch (k n : nat) (how : LaunchEnd) (w : World) : option World :=
  ticket ← launching w !! k;
  let w := w <| launching ::= delete k |> in
  let '(next, (l, h)) := launch_recovery_handler how ticket (lc w) (heap w) in
  let w := w <| lc := l |> <| heap := h |> in
  match next with
  | inl next => Some (w <| launching ::= app (option_list next) |>)
  | inr false => Some w
  | inr true =>
      when (bool_decide (recoveries w !! n = None))
        (w <| recoveries ::= insert n ticket |> <| lc ::= fun l => l <| recovery_worker := Some n |> |>)
  end.

Definition recovery_start (n : nat) (w : World) : option World :=
  ticket ← recoveries w !! n;
  when (is_active (heap w) (ticket_desired ticket)) (claim_start (Recovery ticket) w).

(** [RecoveryTaskGuard::finish], also when the task is aborted. *)
Definition recovery_end (n : nat) (w : World) : option World :=
  ticket ← recoveries w !! n;
  let '(next, l) := reconcile_abandoned_recovery ticket (lc w) (heap w) in
  Some (w <| lc := l <| recovery_active ::= fun a => saturating_sub a 1 |> |>
          <| recoveries ::= delete n |> <| launching ::= app (option_list next) |>).

(** ** All of them *)

Inductive Action :=
| StartExplicit | Refresh (k : nat) | DropClaim (k : nat)
| StartStep (g : Z) | StartAbort (g : Z)
| LoopExit (g : Z) (t : TaskId) | LoopDropped (g : Z) (t : TaskId)
| WatchStep (g : Z) (t : TaskId) | WatchAbort (g : Z) (t : TaskId)
| HandleDropped (g : Z) (t : TaskId) | BatchDropped (g : Z)
| RunClaim (g : Z) (t : TaskId) (force : bool) (sender : Waiter)
| RunTurn (g : Z) (t : TaskId) (token : Z) (result : TaskResult)
| RunAbandon (g : Z) (t : TaskId) (token : Z)
| ActivityClaim | ActivityEnd (g : Z)
| Stop (terminal_ : bool) | CleanStep (g : Z)
| WorkerLaunch (n : nat) (g : Z) | WorkerStep (n : nat) | WorkerAbort (n : nat)
| RecoveryLaunch (k n : nat) (how : LaunchEnd) | RecoveryStart (n : nat) | RecoveryEnd (n : nat).

Definition exec (a : Action) (w : World) : option World :=
  match a with
  | StartExplicit => Some (claim_start Explicit w)
  | Refresh k => refresh_claim k w
  | DropClaim k => drop_claim k w
  | StartStep g => start_step g w
  | StartAbort g => start_abort g w
  | LoopExit g t => loop_exit g t w
  | LoopDropped g t => loop_dropped g t w
  | WatchStep g t => watch_step g t w
  | WatchAbort g t => watch_abort g t w
  | HandleDropped g t => handle_dropped g t w
  | BatchDropped g => batch_dropped g w
  | RunClaim g t force sender => run_claim g t force sender w
  | RunTurn g t token result => run_turn g t token result w
  | RunAbandon g t token => run_abandon g t token w
  | ActivityClaim => Some (activity_claim w)
  | ActivityEnd g => activity_end g w
  | Stop terminal_ => Some (stop terminal_ w)
  | CleanStep g => clean_step g w
  | WorkerLaunch n g => worker_launch n g w
  | WorkerStep n => worker_step n w
  | WorkerAbort n => worker_abort n w
  | RecoveryLaunch k n how => recovery_launch k n how w
  | RecoveryStart n => recovery_start n w
  | RecoveryEnd n => recovery_end n w
  end.

(** An address space has room for fewer lives than a [usize] counts. *)
Definition fits (w : World) : Prop := Z.of_nat (length (guards (heap w))) <= usize_max.

Definition step (w w' : World) : Prop := (exists a, exec a w = Some w') /\ fits w'.

Fixpoint run_actions (l : list Action) (w : World) : option World :=
  match l with
  | [] => Some w
  | a :: l => match exec a w with Some w' => run_actions l w' | None => None end
  end.
End Steps.
