(* ===== verification/SchedulerSafety.v ===== *)
(** The invariants of the scheduler's transition system: what is alive belongs
    to the active generation, a running generation has all its loops. *)
From coqutil Require Import Datatypes.RecordSettersUsingExistingGetters.
From stdpp Require Import gmap strings relations.
From S2P Require Import Prelude RustStr Models TaskRun Scheduler SchedulerSteps.
#[local] Open Scope list_scope.

(** ** Counting lives *)

Definition count (g : Z) (l : list Guard) : Z :=
  Z.of_nat (length (filter (fun x => guard_generation x = g) l)).

Lemma count_cons g x l :
  count g (x :: l) = count g l + (if decide (guard_generation x = g) then 1 else 0).
Proof. unfold count. rewrite filter_cons. case_decide; simpl; lia. Qed.

Lemma count_remove g x l :
  x ∈ l -> count g (remove_one x l) = count g l - (if decide (guard_generation x = g) then 1 else 0).
Proof.
  induction l as [|y l IH]; [by intros ?%elem_of_nil|]. intros Hx. simpl.
  destruct (decide (x = y)) as [->|Hne]; [rewrite count_cons; lia|].
  apply elem_of_cons in Hx as [?|Hx]; [done|]. rewrite !count_cons, IH by done. lia.
Qed.

Lemma count_nonneg g l : 0 <= count g l.
Proof. unfold count. lia. Qed.

Lemma count_le g l : count g l <= Z.of_nat (length l).
Proof. unfold count. pose proof (length_filter (fun x => guard_generation x = g) l). lia. Qed.

Lemma count_zero g l x : count g l = 0 -> x ∈ l -> guard_generation x <> g.
Proof.
  unfold count. intros H Hx E. assert (x ∈ filter (fun x => guard_generation x = g) l) as Hf
    by (by apply list_elem_of_filter).
  destruct (filter _ l); [by apply elem_of_nil in Hf|simpl in H; lia].
Qed.

Lemma elem_of_remove_one x y l : y ∈ remove_one x l -> y ∈ l.
Proof.
  induction l as [|z l IH]; simpl; [done|]. case_decide; [by right|].
  rewrite !elem_of_cons. naive_solver.
Qed.

Lemma elem_of_remove_other x y l : x <> y -> y ∈ l -> y ∈ remove_one x l.
Proof.
  intros Hne. induction l as [|z l IH]; simpl; [done|].
  rewrite elem_of_cons. intros [->|Hy]; case_decide; subst; try done.
  - by left.
  - right. auto.
Qed.

Lemma length_remove_one x l : (length (remove_one x l) <= length l)%nat.
Proof. induction l; simpl; [done|]. case_decide; simpl; lia. Qed.

(** The runs of one task among the lives. *)
Definition is_run (g : Z) (t : TaskId) (x : Guard) : bool :=
  match x with RunOwner g' t' _ => (g =? g') && bool_decide (t = t') | _ => false end.

Definition run_guards (g : Z) (t : TaskId) (l : list Guard) : list Guard :=
  filter (fun x => is_run g t x = true) l.

Lemma run_guards_cons g t x l :
  run_guards g t (x :: l) = if is_run g t x then x :: run_guards g t l else run_guards g t l.
Proof. unfold run_guards. rewrite filter_cons. case_decide; destruct (is_run g t x); done. Qed.

Lemma run_guards_remove g t x l :
  run_guards g t (remove_one x l) =
  if is_run g t x then remove_one x (run_guards g t l) else run_guards g t l.
Proof.
  induction l as [|y l IH]; simpl; [by destruct (is_run g t x)|].
  destruct (decide (x = y)) as [->|Hne].
  - rewrite run_guards_cons. destruct (is_run g t y) eqn:E; [|done]. simpl. by rewrite decide_True.
  - rewrite !run_guards_cons, IH. destruct (is_run g t y), (is_run g t x); try done.
    simpl. by rewrite decide_False.
Qed.

Lemma elem_of_run_guards g t tok l : RunOwner g t tok ∈ l -> RunOwner g t tok ∈ run_guards g t l.
Proof.
  intros H. apply list_elem_of_filter. split; [|done]. simpl.
  by rewrite Z.eqb_refl, bool_decide_true.
Qed.

#[global] Arguments count : simpl never.
#[global] Arguments run_guards : simpl never.

(** ** The invariant *)

Definition cancelled_at (w : World) (g : Z) : Prop := is_cancelled (heap w) g = true.

Definition quiet (w : World) (g : Z) : Prop :=
  cancelled_at w g /\ forall x, x ∈ guards (heap w) -> guard_generation x <> g.

Definition up (w : World) (g : Z) : Prop := state (lc w) = Starting g \/ state (lc w) = Running g.

Definition known (w : World) (g : Z) : Prop := is_Some (controls (heap w) !! g).

Section Invariant.
Context (required : list TaskId).

Record Inv (w : World) : Prop := {
  i_gens g : known w g <-> 1 <= g <= next_generation (lc w);
  i_next : 0 <= next_generation (lc w);
  i_count g c : controls (heap w) !! g = Some c -> active_owners c = count g (guards (heap w));
  i_guards x : x ∈ guards (heap w) -> known w (guard_generation x);
  i_active g : active_generation (lc w) = Some g -> g = next_generation (lc w) /\ known w g;
  i_live g : up w g -> ~ cancelled_at w g /\ control (lc w) = Some g /\ run_states (lc w) = Some g;
  i_quiet g : known w g -> active_generation (lc w) <> Some g -> quiet w g;
  i_starter g p : starters w !! g = Some p -> StartActivity g ∈ guards (heap w);
  i_cleaner g res p : cleaners w !! g = Some (res, p) ->
    known w g /\ ~ up w g /\ res_control res = Some g /\ res_run_states res = Some g /\
    match p with CleanRequested | CleanFlagged => True | _ => cancelled_at w g end;
  i_slot g s : slots w !! g = Some s ->
    cancelled_at w g /\ forall j, job s = Some j -> job_control j = Some g;
  i_worker n g p : workers w !! n = Some (g, p) ->
    is_Some (slots w !! g) /\
    match p with
    | WorkerDraining j => job_control j = Some g
    | WorkerDrained => quiet w g
    | _ => True
    end;
  i_installing g spawned todo : starters w !! g = Some (Installing spawned todo) ->
    spawned ++ todo = required /\
    (state (lc w) = Starting g -> forall t, t ∈ spawned -> (g, t) ∈ loops w);
  i_registered g : state (lc w) = Starting g -> required_loops (lc w) <> ∅ ->
    forall t, t ∈ required -> (g, t) ∈ loops w;
  i_running g : state (lc w) = Running g -> forall t, t ∈ required -> (g, t) ∈ loops w;
  i_runs g t s : runs (heap w) !! (g, t) = Some s ->
    known w g /\ in_flight s = bool_decide (is_Some (owner_token s)) /\
    run_guards g t (guards (heap w)) = option_list (RunOwner g t <$> owner_token s);
  i_no_runs g t : runs (heap w) !! (g, t) = None -> run_guards g t (guards (heap w)) = [];
}.

(** What the invariant looks at. *)
Lemma inv_ext w w' :
  state (lc w') = state (lc w) -> next_generation (lc w') = next_generation (lc w) ->
  control (lc w') = control (lc w) -> run_states (lc w') = run_states (lc w) ->
  required_loops (lc w') = required_loops (lc w) ->
  controls (heap w') = controls (heap w) -> runs (heap w') = runs (heap w) ->
  guards (heap w') = guards (heap w) -> loops w' = loops w -> starters w' = starters w ->
  cleaners w' = cleaners w -> slots w' = slots w -> workers w' = workers w ->
  Inv w -> Inv w'.
Proof.
  intros E1 E2 E3 E4 E5 E6 E7 E8 E9 E10 E11 E12 E13 [].
  split; unfold quiet, up, known, cancelled_at, is_cancelled, active_generation in *;
    rewrite ?E1, ?E2, ?E3, ?E4, ?E5, ?E6, ?E7, ?E8, ?E9, ?E10, ?E11, ?E12, ?E13; assumption.
Qed.

Lemma new_world_inv : Inv new_world.
Proof.
  split; unfold known, up; simpl; try done; try (intros *; rewrite ?lookup_empty; done).
  all: try (intros g; rewrite lookup_empty; split; [by intros []|lia]).
  all: try (by intros x ?%elem_of_nil). all: try (by intros g []).
  all: intros g; rewrite lookup_empty; by intros [].
Qed.

(** *** Lives that begin and end *)

Lemma lookup_started x h g :
  controls (hold_guard x h) !! g =
  (fun c => if decide (guard_generation x = g) then c <| active_owners ::= fun n => Z.min usize_max (n + 1) |>
            else c) <$> controls h !! g.
Proof.
  unfold hold_guard, owner_started. cbn. rewrite lookup_alter.
  case_decide as E; [by rewrite E|]. by destruct (controls h !! g).
Qed.

Lemma lookup_finished x h g :
  controls (drop_guard x h) !! g =
  (fun c => if decide (guard_generation x = g) then
              if active_owners c =? 0 then c else c <| active_owners ::= fun n => n - 1 |>
            else c) <$> controls h !! g.
Proof.
  unfold drop_guard, owner_finished. cbn. rewrite lookup_alter.
  case_decide as E; [by rewrite E|]. by destruct (controls h !! g).
Qed.

Lemma known_hold x w g : known (begin_guard x w) g <-> known w g.
Proof. unfold known, begin_guard. cbn -[hold_guard]. rewrite lookup_started. by rewrite fmap_is_Some. Qed.
Lemma known_drop x w g : known (end_guard x w) g <-> known w g.
Proof. unfold known, end_guard. cbn -[drop_guard]. rewrite lookup_finished. by rewrite fmap_is_Some. Qed.

Lemma is_cancelled_hold x h g : is_cancelled (hold_guard x h) g = is_cancelled h g.
Proof. unfold is_cancelled. rewrite lookup_started. destruct (controls h !! g); [|done]. simpl. by case_decide. Qed.
Lemma is_cancelled_drop x h g : is_cancelled (drop_guard x h) g = is_cancelled h g.
Proof.
  unfold is_cancelled. rewrite lookup_finished. destruct (controls h !! g); [|done]. simpl.
  repeat case_match; done.
Qed.

Lemma quiet_hold x w g : quiet w g -> guard_generation x <> g -> quiet (begin_guard x w) g.
Proof.
  intros [Hc Hq] Hx. split; [unfold cancelled_at, begin_guard; cbn -[hold_guard]; by rewrite is_cancelled_hold|].
  cbn. intros y [->|Hy]%elem_of_cons; auto.
Qed.
Lemma quiet_drop x w g : quiet w g -> quiet (end_guard x w) g.
Proof.
  intros [Hc Hq]. split; [unfold cancelled_at, end_guard; cbn -[drop_guard]; by rewrite is_cancelled_drop|].
  cbn. intros y Hy%elem_of_remove_one. auto.
Qed.

Lemma hold_inv x w :
  Inv w -> known w (guard_generation x) -> ~ quiet w (guard_generation x) ->
  (forall g t, is_run g t x = false) -> fits (begin_guard x w) -> Inv (begin_guard x w).
Proof.
  intros I Hk Hn Hr Hf.
  assert (forall g, cancelled_at (begin_guard x w) g <-> cancelled_at w g) as Hc.
  { intros g. unfold cancelled_at, begin_guard. cbn -[hold_guard]. by rewrite is_cancelled_hold. }
  assert (forall g t, run_guards g t (guards (heap (begin_guard x w))) = run_guards g t (guards (heap w))) as Hrun.
  { intros g t. cbn. by rewrite run_guards_cons, Hr. }
  split; [| exact (i_next _ I)|..]; try (intros *; rewrite ?known_hold, ?Hc, ?Hrun; apply I).
  - intros g c. cbn -[hold_guard]. rewrite lookup_started.
    destruct (controls (heap w) !! g) as [c0|] eqn:E; [|done]. simpl. intros [= <-].
    pose proof (i_count _ I g c0 E) as Hcount. rewrite count_cons.
    unfold fits in Hf. cbn in Hf.
    pose proof (count_le g (guards (heap w))). case_decide; cbn; lia.
  - intros y. rewrite known_hold. cbn. intros [->|Hy]%elem_of_cons; [done|by apply (i_guards _ I)].
  - intros g. rewrite known_hold. intros Hg Ha. apply quiet_hold; [by apply (i_quiet _ I)|].
    intros <-. by apply Hn, (i_quiet _ I).
  - intros g p Hp. cbn. right. by eapply (i_starter _ I).
  - intros g res p Hp. destruct (i_cleaner _ I g res p Hp) as (? & ? & ? & ? & ?).
    split_and!; [by apply known_hold|done..|]. destruct p; try done; by apply Hc.
  - intros n g p Hp. destruct (i_worker _ I n g p Hp) as [Hs Hq]. split; [done|].
    destruct p; try done. apply quiet_hold; [done|]. by intros <-.
Qed.

Lemma drop_inv x w :
  Inv w -> x ∈ guards (heap w) -> (forall g, x = StartActivity g -> starters w !! g = None) ->
  (forall g t, is_run g t x = false) -> Inv (end_guard x w).
Proof.
  intros I Hx Hst Hr.
  assert (forall g, cancelled_at (end_guard x w) g <-> cancelled_at w g) as Hc.
  { intros g. unfold cancelled_at, end_guard. cbn -[drop_guard]. by rewrite is_cancelled_drop. }
  assert (forall g t, run_guards g t (guards (heap (end_guard x w))) = run_guards g t (guards (heap w))) as Hrun.
  { intros g t. cbn. by rewrite run_guards_remove, Hr. }
  split; [| exact (i_next _ I)|..]; try (intros *; rewrite ?known_drop, ?Hc, ?Hrun; apply I).
  - intros g c. cbn -[drop_guard]. rewrite lookup_finished.
    destruct (controls (heap w) !! g) as [c0|] eqn:E; [|done]. simpl. intros [= <-].
    pose proof (i_count _ I g c0 E) as Hcount. rewrite count_remove by done.
    assert (guard_generation x = g -> count g (guards (heap w)) <> 0) as Hne
      by (intros Hg H0; by eapply count_zero).
    pose proof (count_nonneg g (guards (heap w))).
    case_decide; [|cbn; lia]. destruct (Z.eqb_spec (active_owners c0) 0); cbn; lia.
  - intros y. rewrite known_drop. cbn. intros Hy%elem_of_remove_one. by apply (i_guards _ I).
  - intros g. rewrite known_drop. intros Hg Ha. apply quiet_drop. by apply (i_quiet _ I).
  - intros g p Hp. cbn. apply elem_of_remove_other; [|by eapply (i_starter _ I)].
    intros ->. specialize (Hst g eq_refl). cbn in Hp. congruence.
  - intros g res p Hp. destruct (i_cleaner _ I g res p Hp) as (? & ? & ? & ? & ?).
    split_and!; [by apply known_drop|done..|]. destruct p; try done; by apply Hc.
  - intros n g p Hp. destruct (i_worker _ I n g p Hp) as [Hs Hq]. split; [done|].
    destruct p; try done. by apply quiet_drop.
Qed.

(** *** Runs *)

Lemma lookup_set_run g t s w k :
  runs (heap (set_run g t s w)) !! k = if decide ((g, t) = k) then Some s else runs (heap w) !! k.
Proof. cbn. by rewrite lookup_insert. Qed.

Lemma is_run_iff g t g' t' tok : is_run g t (RunOwner g' t' tok) = true <-> (g', t') = (g, t).
Proof. simpl. rewrite andb_true_iff, Z.eqb_eq, bool_decide_eq_true. naive_solver. Qed.

Lemma run_keep_inv g t s s' w :
  Inv w -> runs (heap w) !! (g, t) = Some s -> owner_token s' = owner_token s ->
  in_flight s' = in_flight s -> Inv (set_run g t s' w).
Proof.
  intros I Hs Eo Ei. destruct I. split; try assumption.
  - intros g' t' s2. rewrite lookup_set_run. case_decide as E; [|by apply i_runs0].
    intros [= <-]. injection E as <- <-. rewrite Eo, Ei. by apply i_runs0.
  - intros g' t'. rewrite lookup_set_run. case_decide; [done|]. apply i_no_runs0.
Qed.

Lemma run_own_inv g t s s' tok w :
  Inv w -> runs (heap w) !! (g, t) = Some s -> owner_token s = None ->
  owner_token s' = Some tok -> in_flight s' = true -> ~ cancelled_at w g ->
  fits (begin_guard (RunOwner g t tok) w) -> Inv (begin_guard (RunOwner g t tok) (set_run g t s' w)).
Proof.
  intros I Hs Eo Eo' Ei Hc Hf.
  destruct (i_runs _ I g t s Hs) as (Hk & _ & Hg). rewrite Eo in Hg. simpl in Hg.
  assert (~ quiet w g) as Hq by (by intros [? _]).
  set (w' := begin_guard _ _).
  assert (forall g', cancelled_at w' g' <-> cancelled_at w g') as Hcw.
  { intros g'. unfold w', cancelled_at, begin_guard. cbn -[hold_guard]. by rewrite is_cancelled_hold. }
  assert (forall g', known w' g' <-> known w g') as Hkw
    by (intros g'; exact (known_hold (RunOwner g t tok) (set_run g t s' w) g')).
  assert (forall g', quiet w g' -> quiet w' g') as Hqw.
  { intros g' H. apply (quiet_hold (RunOwner g t tok) (set_run g t s' w)); [done|].
    simpl. by intros <-. }
  split; [|exact (i_next _ I)|..].
  - intros g'. rewrite Hkw. apply (i_gens _ I).
  - intros g' c. cbn -[hold_guard]. rewrite lookup_started. cbn -[hold_guard].
    destruct (controls (heap w) !! g') as [c0|] eqn:E; [|done]. simpl. intros [= <-].
    pose proof (i_count _ I g' c0 E) as Hcount. rewrite count_cons. simpl.
    unfold fits in Hf. cbn in Hf.
    pose proof (count_le g' (guards (heap w))). case_decide; cbn; lia.
  - intros y. rewrite Hkw. cbn. intros [->|Hy]%elem_of_cons; [done|by apply (i_guards _ I)].
  - intros g'. rewrite Hkw. apply (i_active _ I).
  - intros g'. rewrite Hcw. apply (i_live _ I).
  - intros g'. rewrite Hkw. intros Hg' Ha. by apply Hqw, (i_quiet _ I).
  - intros g' p Hp. cbn. right. by eapply (i_starter _ I).
  - intros g' res p Hp. destruct (i_cleaner _ I g' res p Hp) as (? & ? & ? & ? & ?).
    split_and!; [by apply Hkw|done..|]. destruct p; try done; by apply Hcw.
  - intros g' s2 Hs2. destruct (i_slot _ I g' s2 Hs2). split; [by apply Hcw|done].
  - intros n g' p Hp. destruct (i_worker _ I n g' p Hp) as [Hsl Hw]. split; [done|].
    destruct p; try done. by apply Hqw.
  - exact (i_installing _ I).
  - exact (i_registered _ I).
  - exact (i_running _ I).
  - intros g' t' s2. cbn -[hold_guard]. unfold w'. cbn. rewrite lookup_insert, run_guards_cons.
    case_decide as E.
    + intros [= <-]. injection E as <- <-. rewrite Eo', Ei.
      rewrite (proj2 (is_run_iff g t g t tok)) by done. rewrite Hg. split_and!; [by apply Hkw|done|done].
    + intros H2. destruct (is_run g' t' _) eqn:Er; [by apply is_run_iff in Er|].
      destruct (i_runs _ I g' t' s2 H2) as (? & ? & ?). split_and!; [by apply Hkw|done|done].
  - intros g' t'. unfold w'. cbn. rewrite lookup_insert, run_guards_cons. case_decide as E; [done|].
    intros H2. destruct (is_run g' t' _) eqn:Er; [by apply is_run_iff in Er|]. by apply (i_no_runs _ I).
Qed.

Lemma run_release_inv g t s s' tok w :
  Inv w -> runs (heap w) !! (g, t) = Some s -> owner_token s = Some tok ->
  owner_token s' = None -> in_flight s' = false ->
  Inv (end_guard (RunOwner g t tok) (set_run g t s' w)).
Proof.
  intros I Hs Eo Eo' Ei.
  destruct (i_runs _ I g t s Hs) as (Hk & _ & Hg). rewrite Eo in Hg. simpl in Hg.
  assert (RunOwner g t tok ∈ guards (heap w)) as Hin.
  { assert (RunOwner g t tok ∈ run_guards g t (guards (heap w))) as H by (rewrite Hg; by left).
    by apply list_elem_of_filter in H as []. }
  set (w' := end_guard _ _).
  assert (forall g', cancelled_at w' g' <-> cancelled_at w g') as Hcw.
  { intros g'. unfold w', cancelled_at, end_guard. cbn -[drop_guard]. by rewrite is_cancelled_drop. }
  assert (forall g', known w' g' <-> known w g') as Hkw
    by (intros g'; exact (known_drop (RunOwner g t tok) (set_run g t s' w) g')).
  assert (forall g', quiet w g' -> quiet w' g') as Hqw.
  { intros g' H. by apply (quiet_drop (RunOwner g t tok) (set_run g t s' w)). }
  split; [|exact (i_next _ I)|..].
  - intros g'. rewrite Hkw. apply (i_gens _ I).
  - intros g' c. cbn -[drop_guard]. rewrite lookup_finished. cbn -[drop_guard].
    destruct (controls (heap w) !! g') as [c0|] eqn:E; [|done]. simpl. intros [= <-].
    pose proof (i_count _ I g' c0 E) as Hcount. rewrite count_remove by done. simpl.
    assert (g = g' -> count g' (guards (heap w)) <> 0) as Hne.
    { intros -> H0. by eapply (count_zero g' _ (RunOwner g' t tok)). }
    pose proof (count_nonneg g' (guards (heap w))).
    case_decide; [|cbn; lia]. destruct (Z.eqb_spec (active_owners c0) 0); cbn; lia.
  - intros y. rewrite Hkw. cbn. intros Hy%elem_of_remove_one. by apply (i_guards _ I).
  - intros g'. rewrite Hkw. apply (i_active _ I).
  - intros g'. rewrite Hcw. apply (i_live _ I).
  - intros g'. rewrite Hkw. intros Hg' Ha. by apply Hqw, (i_quiet _ I).
  - intros g' p Hp. cbn. apply elem_of_remove_other; [done|]. by eapply (i_starter _ I).
  - intros g' res p Hp. destruct (i_cleaner _ I g' res p Hp) as (? & ? & ? & ? & ?).
    split_and!; [by apply Hkw|done..|]. destruct p; try done; by apply Hcw.
  - intros g' s2 Hs2. destruct (i_slot _ I g' s2 Hs2). split; [by apply Hcw|done].
  - intros n g' p Hp. destruct (i_worker _ I n g' p Hp) as [Hsl Hw]. split; [done|].
    destruct p; try done. by apply Hqw.
  - exact (i_installing _ I).
  - exact (i_registered _ I).
  - exact (i_running _ I).
  - intros g' t' s2. unfold w'. cbn. rewrite lookup_insert, run_guards_remove. case_decide as E.
    + intros [= <-]. injection E as <- <-. rewrite Eo', Ei.
      rewrite (proj2 (is_run_iff g t g t tok)) by done. rewrite Hg. simpl.
      rewrite decide_True by done. split_and!; [by apply Hkw|done|done].
    + intros H2. destruct (is_run g' t' _) eqn:Er; [by apply is_run_iff in Er|].
      destruct (i_runs _ I g' t' s2 H2) as (? & ? & ?). split_and!; [by apply Hkw|done|done].
  - intros g' t'. unfold w'. cbn. rewrite lookup_insert, run_guards_remove. case_decide as E; [done|].
    intros H2. destruct (is_run g' t' _) eqn:Er; [by apply is_run_iff in Er|]. by apply (i_no_runs _ I).
Qed.

(** *** Stopping *)

Lemma reserve_recovery_core g l h :
  exists r n p, reserve_recovery g l h = (r, l <| recovery_attempt := n |> <| pending_recovery := p |>).
Proof.
  assert (l = l <| recovery_attempt := recovery_attempt l |> <| pending_recovery := pending_recovery l |>) as El
    by (by destruct l).
  unfold reserve_recovery. repeat case_match; eauto; do 3 eexists; f_equal; exact El.
Qed.

Lemma begin_cleanup_up g cause w :
  up w g ->
  exists res l', begin_cleanup_with_cause g cause (lc w) (heap w) = (CleanupStart res, l') /\
    res_generation res = g /\ res_control res = control (lc w) /\ res_run_states res = run_states (lc w) /\
    state l' = Stopping g /\ next_generation l' = next_generation (lc w).
Proof.
  intros Hu. unfold begin_cleanup_with_cause.
  assert (begin_cleanup_with_cause g cause (lc w) (heap w) = begin_cleanup_active g cause (lc w) (heap w)) as E.
  { unfold begin_cleanup_with_cause. destruct Hu as [-> | ->]; by rewrite Z.eqb_refl. }
  fold (begin_cleanup_with_cause g cause (lc w) (heap w)). rewrite E. unfold begin_cleanup_active.
  case_bool_decide; [|destruct (reserve_recovery_core g (lc w) (heap w)) as (r & n & p & ->)];
    do 2 eexists; split_and!; done.
Qed.

Lemma begin_cleanup_not_up g cause w :
  ~ up w g ->
  exists r, begin_cleanup_with_cause g cause (lc w) (heap w) = (r, lc w) /\
    match r with CleanupStart _ => False | _ => True end.
Proof.
  unfold up, begin_cleanup_with_cause, cleanup_wait. intros Hn.
  destruct (state (lc w)) eqn:E; [by eexists| | |].
  1,2: destruct (Z.eqb_spec generation g) as [->|]; [by destruct Hn; auto|by eexists].
  destruct (generation =? g); [destruct (cleanup_completion (lc w))|]; by eexists.
Qed.

Lemma up_unique w g g' : up w g -> up w g' -> g = g'.
Proof. unfold up. intros [E|E] [E'|E']; congruence. Qed.

(** A generation that is up begins to stop; what its loops do does not matter
    any more. *)
Lemma stopping_inv g cause ls w :
  Inv w -> up w g -> Inv (request_cleanup g cause (w <| loops := ls |>)).
Proof.
  intros I Hu. destruct (i_live _ I g Hu) as (Hc & Ec & Er).
  unfold request_cleanup.
  destruct (begin_cleanup_up g cause w Hu) as (res & l' & Eb & Eg & Ec' & Er' & Es & En).
  rewrite Ec in Ec'. rewrite Er in Er'. cbn -[begin_cleanup_with_cause]. rewrite Eb.
  assert (active_generation (lc w) = Some g) as Ea.
  { unfold active_generation. by destruct Hu as [-> | ->]. }
  assert (forall g', ~ (state l' = Starting g' \/ state l' = Running g')) as Hnu by (intros g' []; congruence).
  simpl. unfold launch_request. split; unfold up, active_generation; cbn; rewrite ?Es, ?En;
    try exact (i_gens _ I); try exact (i_next _ I); try exact (i_count _ I); try exact (i_guards _ I);
    try exact (i_starter _ I); try exact (i_slot _ I); try exact (i_worker _ I); try exact (i_runs _ I);
    try exact (i_no_runs _ I); try done.
  - intros g' [= <-]. by apply (i_active _ I).
  - by intros g' [].
  - intros g' Hk Hne. apply (i_quiet _ I); [done|]. by rewrite Ea.
  - intros g' res' p. rewrite lookup_insert. case_decide as Eg'.
    + subst g'. intros [= -> <-]. rewrite Eg. split_and!; try done; [by apply (i_active _ I)|by intros []].
    + intros Hp. destruct (i_cleaner _ I g' res' p Hp) as (? & ? & ? & ? & ?).
      split_and!; try done. by intros [].
  - intros g' spawned todo Hp. split; [by apply (i_installing _ I) in Hp as []|done].
Qed.

Lemma request_inv g cause w : Inv w -> Inv (request_cleanup g cause w).
Proof.
  intros I. destruct (decide (up w g)) as [Hu|Hu].
  - replace w with (w <| loops := loops w |>) by (by destruct w). by apply stopping_inv.
  - unfold request_cleanup. destruct (begin_cleanup_not_up g cause w Hu) as (r & -> & Hr).
    eapply inv_ext, I; destruct r; done.
Qed.

Lemma failed_inv g w : Inv w -> Inv (required_loop_failed g w).
Proof. intros I. unfold required_loop_failed. case_match; [done|by apply request_inv]. Qed.

Lemma loop_exit_inv g t w w' : Inv w -> loop_exit g t w = Some w' -> Inv w'.
Proof.
  intros I. unfold loop_exit, when. case_bool_decide; [|done]. intros [= <-].
  assert (~ up w g -> Inv (w <| loops ::= fun s => s ∖ {[ (g, t) ]} |>)) as Hdown.
  { intros Hn. destruct I. split; try assumption; cbn.
    - intros g' spawned todo Hp. destruct (i_installing0 g' spawned todo Hp) as [? Hl].
      split; [done|]. intros Hs t' Ht. apply elem_of_difference. split; [by apply Hl|].
      intros [= -> ->]%elem_of_singleton. destruct Hn. by left.
    - intros g' Hs Hr t' Ht. apply elem_of_difference. split; [by apply i_registered0|].
      intros [= -> ->]%elem_of_singleton. destruct Hn. by left.
    - intros g' Hs t' Ht. apply elem_of_difference. split; [by apply i_running0|].
      intros [= -> ->]%elem_of_singleton. destruct Hn. by right. }
  unfold required_loop_failed. cbn [heap].
  match goal with |- context [is_cancelled ?h g] => change h with (heap w) end.
  destruct (decide (up w g)) as [Hu|Hu].
  - destruct (is_cancelled (heap w) g) eqn:E; [|by apply stopping_inv].
    by destruct (i_live _ I g Hu) as [[] _].
  - case_match; [by apply Hdown|]. by apply request_inv, Hdown.
Qed.

(** *** Starting *)

Lemma lookup_new_runs (g : Z) (m : gmap (Z * TaskId) TaskRunState) (g' : Z) (t : TaskId) :
  foldr (fun t => insert (g, t) new_run) m all_tasks !! (g', t)
  = if decide (g' = g) then Some new_run else m !! (g', t).
Proof.
  case_decide as E.
  - subst g'. assert (t ∈ all_tasks) as Ht by (by destruct t; apply (bool_decide_unpack _); vm_compute).
    induction all_tasks as [|x l IH]; [by apply elem_of_nil in Ht|]. simpl.
    rewrite lookup_insert. case_decide as Ex; [done|].
    apply IH. apply elem_of_cons in Ht as [->|]; [done|done].
  - induction all_tasks as [|x l IH]; [done|]. simpl. rewrite lookup_insert_ne by congruence. done.
Qed.

Lemma start_inv g w w' :
  Inv w -> state (lc w) = Stopped -> g = next_generation (lc w) + 1 ->
  state (lc w') = Starting g -> next_generation (lc w') = g -> control (lc w') = Some g ->
  run_states (lc w') = Some g -> required_loops (lc w') = ∅ ->
  heap w' = hold_guard (StartActivity g) (new_generation g (heap w)) ->
  loops w' = loops w -> starters w' = <[g := Preparing]> (starters w) ->
  cleaners w' = cleaners w -> slots w' = slots w -> workers w' = workers w -> Inv w'.
Proof.
  intros I Hst Eg Es' En' Ec' Er' El' Eh Elo Est Ecl Esl Ewo.
  pose proof (i_next _ I) as Hn0.
  assert (~ known w g) as Hfresh by (rewrite (i_gens _ I g); lia).
  assert (controls (heap w) !! g = None) as Hnone by (by apply eq_None_not_Some).
  assert (forall x, x ∈ guards (heap w) -> guard_generation x <> g) as Hng.
  { intros x Hx <-. by apply Hfresh, (i_guards _ I). }
  assert (count g (guards (heap w)) = 0) as Hcount.
  { unfold count. destruct (filter _ (guards (heap w))) as [|x l] eqn:E; [done|].
    assert (x ∈ filter (fun x => guard_generation x = g) (guards (heap w))) as Hx by (rewrite E; by left).
    apply list_elem_of_filter in Hx as [Hg Hx]. by apply Hng in Hx. }
  assert (forall g', controls (heap w') !! g' =
            if decide (g' = g) then Some {| cancelled := false; active_owners := 1 |}
            else controls (heap w) !! g') as Hctl.
  { intros g'. rewrite Eh, lookup_started. cbn. destruct (decide (g' = g)) as [->|E].
    - rewrite lookup_insert_eq. simpl. by rewrite decide_True.
    - rewrite lookup_insert_ne by done. destruct (controls (heap w) !! g'); [|done]. simpl.
      by rewrite decide_False. }
  assert (guards (heap w') = StartActivity g :: guards (heap w)) as Hgu by (by rewrite Eh).
  assert (forall g', known w' g' <-> g' = g \/ known w g') as Hkw.
  { intros g'. unfold known. rewrite Hctl. case_decide; split; eauto; naive_solver. }
  assert (forall g', g' <> g -> cancelled_at w' g' <-> cancelled_at w g') as Hcw.
  { intros g' Hne. unfold cancelled_at, is_cancelled. rewrite Hctl. by rewrite decide_False. }
  assert (~ cancelled_at w' g) as Hcg.
  { unfold cancelled_at, is_cancelled. rewrite Hctl, decide_True by done. done. }
  assert (forall g', known w g' -> g' <> g) as Hkn by (by intros g' Hk ->).
  assert (forall g', quiet w g' -> g' <> g -> quiet w' g') as Hqw.
  { intros g' [Hc Hq] Hne. split; [by apply Hcw|]. rewrite Hgu.
    intros x [->|Hx]%elem_of_cons; [simpl; congruence|auto]. }
  assert (forall g', cancelled_at w g' -> known w g') as Hck.
  { intros g'. unfold cancelled_at, is_cancelled, known. case_match; [by eauto|done]. }
  split.
  - intros g'. rewrite Hkw, En', (i_gens _ I g'). lia.
  - lia.
  - intros g' c. rewrite Hctl, Hgu, count_cons. simpl. case_decide as E.
    + intros [= <-]. subst g'. rewrite decide_True by done. simpl. lia.
    + intros Hc. rewrite decide_False by done. rewrite (i_count _ I g' c Hc). lia.
  - intros x. rewrite Hgu. intros [->|Hx]%elem_of_cons; apply Hkw; [by left|right; by apply (i_guards _ I)].
  - intros g'. unfold active_generation. rewrite Es', En'. intros [= <-]. split; [done|]. apply Hkw. by left.
  - intros g' [E|E]; rewrite Es' in E; [|done]. injection E as <-. done.
  - intros g'. unfold active_generation. rewrite Es'. intros [->|Hk]%Hkw Hne; [done|].
    apply Hqw; [|by apply Hkn]. apply (i_quiet _ I); [done|]. unfold active_generation. by rewrite Hst.
  - intros g' p. rewrite Est, Hgu, lookup_insert. case_decide as E; [intros _; subst; by left|].
    intros Hp. right. by eapply (i_starter _ I).
  - intros g' res p. rewrite Ecl. intros Hp. destruct (i_cleaner _ I g' res p Hp) as (Hk & _ & ? & ? & ?).
    pose proof (Hkn _ Hk) as Hne. split_and!; try done; [apply Hkw; by right| |].
    + intros [E|E]; rewrite Es' in E; congruence.
    + destruct p; try done; by apply Hcw.
  - intros g' s0. rewrite Esl. intros Hs. destruct (i_slot _ I g' s0 Hs) as [Hc ?].
    split; [|done]. apply Hcw; auto.
  - intros n g' p. rewrite Ewo. intros Hp. destruct (i_worker _ I n g' p Hp) as [? Hw].
    rewrite Esl. split; [done|]. destruct p; try done. apply Hqw; [done|]. apply Hkn, Hck, Hw.
  - intros g' spawned todo. rewrite Est, Elo, Es', lookup_insert. case_decide; [done|].
    intros Hp. split; [by eapply (i_installing _ I)|]. congruence.
  - intros g'. by rewrite El'.
  - intros g'. by rewrite Es'.
  - intros g' t s0. rewrite Hgu, run_guards_cons, Eh. cbn -[all_tasks]. rewrite lookup_new_runs.
    case_decide as E.
    + intros [= <-]. subst g'. split_and!; [apply Hkw; by left|done|].
      unfold run_guards. simpl. apply elem_of_nil_inv. intros x (Hr & Hx)%list_elem_of_filter.
      destruct x; simpl in Hr; try done. apply andb_true_iff in Hr as [Hr _].
      apply Z.eqb_eq in Hr. subst. by apply Hng in Hx.
    + intros Hs. destruct (i_runs _ I g' t s0 Hs) as (? & ? & ?). split_and!; [apply Hkw; by right|done|done].
  - intros g' t. rewrite Hgu, run_guards_cons, Eh. cbn -[all_tasks]. rewrite lookup_new_runs.
    case_decide; [done|]. apply (i_no_runs _ I).
Qed.

(** Steps of the lifecycle the invariant does not see. *)
Definition same_core (l l' : SchedulerLifecycle) : Prop :=
  state l' = state l /\ next_generation l' = next_generation l /\ control l' = control l /\
  run_states l' = run_states l /\ required_loops l' = required_loops l.
Definition same_heap (h h' : Heap) : Prop :=
  controls h' = controls h /\ runs h' = runs h /\ guards h' = guards h.

Definition begins (l l' : SchedulerLifecycle) (h h' : Heap) (g : Z) : Prop :=
  state l = Stopped /\ g = next_generation l + 1 /\ state l' = Starting g /\ next_generation l' = g /\
  control l' = Some g /\ run_states l' = Some g /\ required_loops l' = ∅ /\
  h' = hold_guard (StartActivity g) (new_generation g h).

Lemma core_inv w w' :
  same_core (lc w) (lc w') -> same_heap (heap w) (heap w') -> loops w' = loops w ->
  starters w' = starters w -> cleaners w' = cleaners w -> slots w' = slots w ->
  workers w' = workers w -> Inv w -> Inv w'.
Proof. intros (?&?&?&?&?) (?&?&?). intros. eapply inv_ext; done. Qed.

Lemma same_heap_refl h : same_heap h h.
Proof. done. Qed.
Lemma same_core_refl l : same_core l l.
Proof. done. Qed.

Lemma begin_decision_cases l h d l' h' :
  begin_decision l h = (d, (l', h')) ->
  (d = Exhausted /\ same_core l l' /\ same_heap h h') \/
  (exists g, d = Begin g /\ begins l l' h h' g).
Proof.
  unfold begin_decision, begin_start, u64_checked_add, fail_generation_exhaustion.
  destruct (bool_decide (state l = Stopped)) eqn:Es; simpl; [|intros [= <- <- <-]; by left].
  apply bool_decide_eq_true in Es.
  destruct (generation_exhausted l || terminal l); [intros [= <- <- <-]; by left|].
  destruct (next_generation l + 1 <=? u64_max); intros [= <- <- <-].
  - right. eexists. split; [done|]. done.
  - left. split_and!; [done..|]. by destruct (desired l).
Qed.

Definition starts (d : SchedulerStartDecision) : bool := match d with Begin _ => true | _ => false end.

Lemma decision_cases owner l h d l' h' :
  decision_for owner l h = (d, (l', h')) ->
  (starts d = false /\ same_core l l' /\ same_heap h h') \/
  (exists g, d = Begin g /\ begins l l' h h' g).
Proof.
  assert (begin_decision l h = (d, (l', h')) ->
    (starts d = false /\ same_core l l' /\ same_heap h h') \/
    (exists g, d = Begin g /\ begins l l' h h' g)) as Hb.
  { intros H. apply begin_decision_cases in H as [(-> & ?)|H]; auto. }
  destruct owner as [[token|ticket]|]; simpl; [..|intros [= <- <- <-]; by left].
  - unfold start_decision_for. case_match; [intros [= <- <- <-]; by left|].
    destruct (state l); [done|intros [= <- <- <-]; by left..|].
    destruct (cleanup_completion l); intros [= <- <- <-]; by left.
  - unfold recovery_start_decision. case_match; [done|intros [= <- <- <-]; by left].
Qed.

Lemma apply_decision_inv owner d w l' h' :
  Inv w -> decision_for owner (lc w) (heap w) = (d, (l', h')) ->
  Inv (apply_decision owner d (with_state (l', h') w)).
Proof.
  intros I H. destruct (decision_cases _ _ _ _ _ _ H) as [(Hd & Hc & Hh)|(g & -> & Hb)].
  - destruct d; try done; [|destruct owner|]; by eapply core_inv, I.
  - destruct Hb as (? & ? & ? & ? & ? & ? & ? & ?). by apply (start_inv g w).
Qed.

Lemma request_explicit_cases l h r l' h' :
  request_explicit_start l h = (r, (l', h')) -> same_core l l' /\ same_heap h h'.
Proof.
  unfold request_explicit_start. case_match; [by intros [= <- <- <-]|].
  repeat case_match; by intros [= <- <- <-].
Qed.

Lemma claim_start_inv origin w : Inv w -> Inv (claim_start origin w).
Proof.
  intros I. unfold claim_start, claim_scheduler_start. destruct origin as [|ticket].
  - destruct (request_explicit_start (lc w) (heap w)) as [r [l h]] eqn:E.
    apply request_explicit_cases in E as [Hc Hh].
    assert (Inv (with_state (l, h) w)) as I1 by by eapply core_inv, I.
    set (owner := match r with Desired token => Some (OwnerExplicit token) | _ => None end).
    assert (match r with
            | Desired token => (Some (OwnerExplicit token), (l, h))
            | _ => (None, (l, h)) end = (owner, (l, h))) as -> by (by destruct r).
    destruct (decision_for owner l h) as [d [l' h']] eqn:Ed.
    exact (apply_decision_inv owner d (with_state (l, h) w) l' h' I1 Ed).
  - destruct (decision_for _ _ _) as [d [l' h']] eqn:Ed. by apply apply_decision_inv.
Qed.

Lemma refresh_inv k w w' : Inv w -> refresh_claim k w = Some w' -> Inv w'.
Proof.
  intros I. unfold refresh_claim. destruct (waiting w !! k) as [owner|]; [|done]. simpl.
  set (w1 := w <| waiting ::= delete k |>).
  assert (Inv w1) as I1 by by eapply core_inv, I.
  destruct (decision_for (Some owner) (lc w1) (heap w1)) as [d [l' h']] eqn:Ed.
  pose proof (apply_decision_inv _ _ _ _ _ I1 Ed) as H.
  unfold decision_for in Ed. cbn -[apply_decision start_decision_for recovery_start_decision] in *.
  destruct owner; rewrite Ed; by intros [= <-].
Qed.

Lemma drop_claim_inv k w w' : Inv w -> drop_claim k w = Some w' -> Inv w'.
Proof.
  intros I. unfold drop_claim. destruct (waiting w !! k) as [owner|]; [|done]. simpl.
  unfold drop_waiting_claim. destruct owner as [token|ticket].
  - destruct (is_desired _ _ _).
    + destruct (reserve_recovery_core (default (next_generation (lc w)) (active_generation (lc w)))
                  (lc w) (heap w)) as (r & n & p & ->).
      intros [= <-]. by eapply core_inv, I.
    + intros [= <-]. by eapply core_inv, I.
  - intros [= <-]. by eapply core_inv, I.
Qed.

Lemma stop_inv b w : Inv w -> Inv (stop b w).
Proof.
  intros I. unfold stop.
  assert (forall l, same_core (lc w) l ->
    let '(r, s) := begin_explicit_stop l (heap w) in Inv (launch_request r (with_state s w))) as H.
  { intros l Hl. unfold begin_explicit_stop, disable_desired_running.
    set (l1 := l <| desired := None |> <| pending_recovery := None |> <| recovery_attempt := 0 |>).
    set (h1 := match desired l with Some token => cancel_token token (heap w) | None => heap w end).
    assert (Inv (with_state (l1, h1) w)) as I1.
    { eapply core_inv, I; try done. unfold h1. by destruct (desired l). }
    destruct (active_generation l1) as [g|]; [|done].
    pose proof (request_inv g ExplicitStop _ I1) as H2. unfold request_cleanup in H2.
    cbn [lc heap with_state] in H2.
    assert (lc (with_state (l1, h1) w) = l1) as El by done.
    assert (heap (with_state (l1, h1) w) = h1) as Eh by done.
    rewrite El, Eh in H2. by destruct (begin_cleanup_with_cause g ExplicitStop l1 h1) as [r l2]. }
  destruct b; [unfold begin_terminal_shutdown|].
  - assert (same_core (lc w) ((lc w) <| terminal := true |>)) as Hl by done. pose proof (H _ Hl) as H1.
    by destruct (begin_explicit_stop ((lc w) <| terminal := true |>) (heap w)).
  - pose proof (H (lc w) (same_core_refl _)) as H1. by destruct (begin_explicit_stop (lc w) (heap w)).
Qed.

(** *** The steps of a start *)

Lemma phase_inv g p w :
  Inv w -> is_Some (starters w !! g) ->
  (forall spawned todo, p = Installing spawned todo ->
     spawned ++ todo = required /\
     (state (lc w) = Starting g -> forall t, t ∈ spawned -> (g, t) ∈ loops w)) ->
  Inv (set_phase g p w).
Proof.
  intros I [p0 Hp0] Hp. destruct I. split; try assumption; cbn.
  - intros g' p'. rewrite lookup_insert. case_decide; [subst; intros _; by eapply i_starter0|].
    apply i_starter0.
  - intros g' spawned todo. rewrite lookup_insert. case_decide; [|apply i_installing0].
    subst. intros [= ->]. by apply Hp.
Qed.

Lemma starter_busy g p w : Inv w -> starters w !! g = Some p -> known w g /\ ~ quiet w g.
Proof.
  intros I Hp. pose proof (i_starter _ I g p Hp) as Hg. split; [by apply (i_guards _ I) in Hg|].
  intros [_ Hq]. by apply (Hq _ Hg).
Qed.

Lemma loops_grow_inv k w : Inv w -> Inv (w <| loops ::= union {[ k ]} |>).
Proof.
  intros I. destruct I. split; try assumption; cbn.
  - intros g spawned todo Hp. destruct (i_installing0 g spawned todo Hp) as [? H]. split; [done|].
    intros. apply elem_of_union. right. by apply H.
  - intros. apply elem_of_union. right. by apply i_registered0.
  - intros. apply elem_of_union. right. by apply i_running0.
Qed.

Lemma starting_inv (l' : SchedulerLifecycle) g w :
  Inv w -> state (lc w) = Starting g -> state l' = Starting g \/ state l' = Running g ->
  next_generation l' = next_generation (lc w) -> control l' = control (lc w) ->
  run_states l' = run_states (lc w) ->
  (required_loops l' <> ∅ \/ state l' = Running g -> forall t, t ∈ required -> (g, t) ∈ loops w) ->
  Inv (w <| lc := l' |>).
Proof.
  intros I Es Es' En Ec Er Hl.
  assert (forall g', state l' = Starting g' \/ state l' = Running g' -> g' = g) as Hg
    by (intros g' []; destruct Es'; congruence).
  destruct I. split; unfold up, active_generation in *; cbn; rewrite ?En, ?Ec, ?Er; try assumption.
  - intros g' Ha. apply i_active0. rewrite Es. destruct Es' as [E|E]; rewrite E in Ha; done.
  - intros g' Hu. apply i_live0. left. by rewrite (Hg g' Hu).
  - intros g' Hk Ha. apply i_quiet0; [done|]. rewrite Es. destruct Es' as [E|E]; by rewrite E in Ha.
  - intros g' res p Hp. destruct (i_cleaner0 g' res p Hp) as (? & Hn & ? & ? & ?).
    split_and!; try done. intros Hu. apply Hn. left. by rewrite (Hg g' Hu).
  - intros g' spawned todo Hp. destruct (i_installing0 g' spawned todo Hp) as [? H]. split; [done|].
    intros E. apply H. rewrite (Hg g'); [done|by left].
  - intros g' E Hr t Ht. rewrite (Hg g' (or_introl E)). auto.
  - intros g' E t Ht. pose proof (Hg g' (or_intror E)). subst. auto.
Qed.

Lemma defer_inv g batch p w :
  Inv w -> starters w !! g = Some p -> fits (defer_batch g batch w) -> Inv (defer_batch g batch w).
Proof.
  intros I Hp Hf. destruct batch; [done|].
  destruct (starter_busy g p w I Hp). by apply hold_inv.
Qed.

Lemma defer_starters g batch w : starters (defer_batch g batch w) = starters w.
Proof. by destruct batch. Qed.

Lemma fits_less w w' : fits w' -> (length (guards (heap w)) <= length (guards (heap w')))%nat -> fits w.
Proof. unfold fits. lia. Qed.

Lemma start_abort_inv g w w' : Inv w -> start_abort g w = Some w' -> fits w' -> Inv w'.
Proof.
  intros I. unfold start_abort. destruct (starters w !! g) as [p|] eqn:Ep; [|done].
  assert (Inv (set_phase g Aborting w)) as Ha by (by apply phase_inv).
  destruct p; try done; try (by intros [= <-]).
  - intros [= <-] Hf. apply phase_inv; [|rewrite defer_starters; eauto|done].
    by eapply defer_inv.
  - intros [= <-] Hf. apply phase_inv; [|rewrite !defer_starters; eauto|done].
    eapply defer_inv; [|by rewrite defer_starters|done].
    eapply defer_inv; [done..|]. eapply fits_less; [exact Hf|]. destruct supervised; simpl; lia.
Qed.

(** Drops of lives that no start stands for. *)
Lemma drop_other_inv x w :
  Inv w -> holds_guard x w = true ->
  match x with StartActivity _ | RunOwner _ _ _ => False | _ => True end -> Inv (end_guard x w).
Proof.
  intros I Hx%bool_decide_eq_true Hk. apply drop_inv; [done|done|..].
  - by intros g ->.
  - by destruct x.
Qed.

Lemma start_end_inv g w :
  Inv w -> is_Some (starters w !! g) -> Inv (end_guard (StartActivity g) (w <| starters ::= delete g |>)).
Proof.
  intros I [p Hp]. pose proof (i_starter _ I g p Hp) as Hg.
  assert (Inv (w <| starters ::= delete g |>)) as I1.
  { destruct I. split; try assumption; cbn.
    - intros g' p'. rewrite lookup_delete. case_decide; [done|]. apply i_starter0.
    - intros g' spawned todo. rewrite lookup_delete. case_decide; [done|]. apply i_installing0. }
  apply drop_inv; [done|done| |done]. intros g' [= <-]. cbn. apply lookup_delete_eq.
Qed.

Lemma mark_start_core g l : same_core l (mark_start_committed g l).
Proof. unfold mark_start_committed. by case_match. Qed.

Lemma hold_phase_inv x g p p0 w :
  Inv w -> starters w !! g = Some p0 -> guard_generation x = g -> (forall g t, is_run g t x = false) ->
  fits (begin_guard x w) ->
  (forall spawned todo, p = Installing spawned todo ->
     spawned ++ todo = required /\
     (state (lc w) = Starting g -> forall t, t ∈ spawned -> (g, t) ∈ loops w)) ->
  Inv (set_phase g p (begin_guard x w)).
Proof.
  intros I Hp Hg Hr Hf Hc. destruct (starter_busy g p0 w I Hp).
  apply phase_inv; [|by exists p0|done]. apply hold_inv; rewrite ?Hg; done.
Qed.

Lemma start_step_inv g w w' : Inv w -> start_step required g w = Some w' -> fits w' -> Inv w'.
Proof.
  intros I. unfold start_step. destruct (starters w !! g) as [p|] eqn:Ep; [|done].
  assert (forall q, (forall a b, q <> Installing a b) -> Inv (set_phase g q w)) as Hset
    by (intros q Hq; apply phase_inv; [done|eauto|by intros a b ->; destruct (Hq a b)]).
  destruct p as [|spawned todo|rest supervised|todo| |todo| | |].
  - unfold when. case_bool_decide as Es; [|done]. intros [= <-] _.
    apply phase_inv; [done|eauto|]. intros a b [= <- <-]. split; [done|]. by intros _ t ?%elem_of_nil.
  - destruct (i_installing _ I g spawned todo Ep) as [Happ Hall].
    destruct todo as [|t todo].
    + rewrite app_nil_r in Happ. subst spawned.
      unfold register_required_loops. case_bool_decide as Es; [|done]. intros [= <-] _.
      apply phase_inv; [|eauto|done].
      apply (starting_inv _ g); try done; [by left|]. intros _. by apply Hall.
    + intros [= <-] Hf.
      apply (hold_phase_inv _ g _ (Installing spawned (t :: todo))); try done.
      * by apply loops_grow_inv.
      * intros a b [= <- <-]. split; [by rewrite <-app_assoc|]. cbn.
        intros Es t' [Ht|Ht]%elem_of_app; apply elem_of_union; [right; by apply Hall|left].
        apply list_elem_of_singleton in Ht. by subst; apply elem_of_singleton.
  - destruct rest as [|t rest].
    + unfold install_handles. case_bool_decide as Es; [|done]. intros [= <-] _.
      apply phase_inv; [|eauto|done].
      apply (starting_inv _ g); try done; [by left|]. cbn. intros [H|H]; [|congruence].
      by apply (i_registered _ I).
    + intros [= <-] Hf. apply (hold_phase_inv _ g _ (Supervising (t :: rest) supervised)); try done.
      by eapply core_inv, I.
  - destruct todo as [|t todo]; [intros [= <-] _; by apply Hset|].
    unfold when. case_match; [|done]. intros [= <-] _. by apply Hset.
  - generalize (eq_refl required). generalize required at 2 3. intros r Er.
    destruct r as [|t0 l0]; [|intros [= <-] _; by apply Hset].
    unfold finish_start. destruct (bool_decide (state (lc w) = Starting g)) eqn:Es; [|done].
    apply bool_decide_eq_true in Es. simpl.
    destruct (negb (control_live _ _) || negb (all_approved _)); [done|]. intros [= <-] _.
    assert (Inv (w <| lc := (lc w) <| state := Running g |> |>)) as I1.
    { apply (starting_inv _ g); try done; [by right|]. rewrite Er. by intros _ t ?%elem_of_nil. }
    assert (Inv (set_phase g AwaitResult (w <| lc := (lc w) <| state := Running g |> |>))) as I2
      by (apply phase_inv; [done|by eauto|done]).
    by eapply core_inv, I2.
  - destruct todo as [|t todo]; [intros [= <-] _; by apply Hset|].
    unfold when. case_match; [|done]. intros [= <-] _.
    assert (Inv (w <| watchers ::= insert (g, t) WatchCommitted |>)) as I1 by by eapply core_inv, I.
    apply phase_inv; [done|by eauto|done].
  - unfold when. case_match; [|done]. intros [= <-] _.
    assert (Inv (w <| lc ::= mark_start_committed g |>)) as I1
      by (eapply core_inv, I; try done; apply mark_start_core).
    apply (start_end_inv g _ I1). by eauto.
  - intros [= <-] _. assert (Inv (request_cleanup g StartAborted w)) as I1 by by apply request_inv.
    apply phase_inv; [done| |done].
    unfold request_cleanup. destruct (begin_cleanup_with_cause _ _ _ _) as [[] ?]; by eauto.
  - intros [= <-] _. apply start_end_inv; [done|eauto].
Qed.

(** *** The other steps *)

Lemma watch_inv g t p w : Inv w -> Inv (set_watch g t p w).
Proof. intros I. by eapply core_inv, I. Qed.

Lemma up_starting w g : state (lc w) = Starting g -> up w g.
Proof. by left. Qed.

Lemma loop_ready_inv g t w :
  Inv w -> Inv (w <| lc := (mark_required_loop_ready g t (lc w)).2 |>).
Proof.
  intros I. unfold mark_required_loop_ready.
  destruct (bool_decide (state (lc w) = Starting g) && _) eqn:E; [|by eapply core_inv, I].
  apply andb_true_iff in E as [Es%bool_decide_eq_true El%bool_decide_eq_true].
  apply (starting_inv _ g); try done; [by left|]. intros _. apply (i_registered _ I); [done|].
  intros E0. by rewrite E0 in El.
Qed.

Lemma approve_inv g t w :
  Inv w -> Inv (w <| lc := (approve_required_loop_and_maybe_publish g t (lc w) (heap w)).2 |>).
Proof.
  intros I. unfold approve_required_loop_and_maybe_publish.
  destruct (bool_decide (state (lc w) = Starting g)) eqn:Es; simpl; [|by eapply core_inv, I].
  destruct (bool_decide (required_loops (lc w) !! t = Some Ready)) eqn:El; simpl; [|by eapply core_inv, I].
  apply bool_decide_eq_true in Es, El.
  assert (forall t, t ∈ required -> (g, t) ∈ loops w) as Hl.
  { apply (i_registered _ I); [done|]. intros E0. by rewrite E0 in El. }
  repeat case_match; apply (starting_inv _ g); try done; first [by left | by right].
Qed.

Lemma watch_step_inv g t w w' : Inv w -> watch_step g t w = Some w' -> Inv w'.
Proof.
  intros I. unfold watch_step. pose proof (failed_inv g w I) as If.
  destruct (watchers w !! (g, t)) as [[]|]; [..|done].
  - case_match; [intros [= <-]; by apply watch_inv|].
    case_match; [intros [= <-]; by apply watch_inv|].
    pose proof (loop_ready_inv g t w I). destruct (mark_required_loop_ready g t (lc w)) as [[] l];
      intros [= <-]; by apply watch_inv.
  - case_match; [intros [= <-]; by apply watch_inv|].
    case_match; [intros [= <-]; by apply watch_inv|].
    unfold when. case_match; [|done]. intros [= <-]. by apply watch_inv.
  - pose proof (approve_inv g t w I) as Ia.
    destruct (approve_required_loop_and_maybe_publish g t (lc w) (heap w)) as [[] l];
      intros [= <-]; apply watch_inv; by eapply core_inv, Ia.
  - case_match; [intros [= <-]; by apply watch_inv|].
    unfold when. case_match; [|done]. intros [= <-]. by apply watch_inv.
  - unfold when. case_match; [|done]. intros [= <-]. by eapply core_inv, I.
Qed.

Lemma claim_run_cases cancelled force sender s c s' :
  claim_run cancelled force sender s = (c, s') ->
  match c with
  | Owner tok => cancelled = false /\ in_flight s = false /\ owner_token s' = Some tok /\ in_flight s' = true
  | _ => owner_token s' = owner_token s /\ in_flight s' = in_flight s
  end.
Proof.
  unfold claim_run. destruct (closed s || cancelled) eqn:E; [by intros [= <- <-]|].
  apply orb_false_iff in E as [_ ->].
  destruct (in_flight s) eqn:Ei.
  - destruct force, (forced_rerun s); intros [= <- <-]; simpl; by rewrite ?Ei.
  - destruct (u64_checked_add _ _); intros [= <- <-]; done.
Qed.

Lemma run_claim_inv g t force sender w w' :
  Inv w -> run_claim g t force sender w = Some w' -> fits w' -> Inv w'.
Proof.
  intros I. unfold run_claim. destruct (runs (heap w) !! (g, t)) as [s|] eqn:Es; [|done]. simpl.
  destruct (claim_run _ force sender s) as [c s'] eqn:Ec. apply claim_run_cases in Ec.
  destruct c as [tok| | |]; intros [= <-] Hf; try (destruct Ec; by eapply run_keep_inv).
  destruct Ec as (Hc & Hi & Ho & Hi'). destruct (i_runs _ I g t s Es) as (_ & Hfl & _).
  rewrite Hi in Hfl. symmetry in Hfl. apply bool_decide_eq_false, eq_None_not_Some in Hfl.
  eapply run_own_inv; try done. unfold cancelled_at. by rewrite Hc.
Qed.

(** A live owner of a run is the one its state names. *)
Lemma owner_named g t tok s w :
  Inv w -> runs (heap w) !! (g, t) = Some s -> holds_guard (RunOwner g t tok) w = true ->
  owner_token s = Some tok.
Proof.
  intros I Hs Hg%bool_decide_eq_true. destruct (i_runs _ I g t s Hs) as (_ & _ & Hr).
  apply elem_of_run_guards in Hg. rewrite Hr in Hg.
  destruct (owner_token s); simpl in Hg; [|by apply elem_of_nil in Hg].
  apply list_elem_of_singleton in Hg. congruence.
Qed.

Lemma run_turn_inv g t tok r w w' : Inv w -> run_turn g t tok r w = Some w' -> Inv w'.
Proof.
  intros I. unfold run_turn. destruct (runs (heap w) !! (g, t)) as [s|] eqn:Es; [|done]. simpl.
  destruct (holds_guard _ w) eqn:Eh; [|done]. pose proof (owner_named g t tok s w I Es Eh) as Eo.
  unfold end_run. rewrite bool_decide_true by done. simpl.
  destruct (closed s || _); simpl; [intros [= <-]; by eapply run_release_inv|].
  destruct (negb (forced_rerun s) && pending_force s); simpl; intros [= <-].
  - by eapply run_keep_inv.
  - by eapply run_release_inv.
Qed.

Lemma run_abandon_inv g t tok w w' : Inv w -> run_abandon g t tok w = Some w' -> Inv w'.
Proof.
  intros I. unfold run_abandon. destruct (runs (heap w) !! (g, t)) as [s|] eqn:Es; [|done]. simpl.
  destruct (holds_guard _ w) eqn:Eh; [|done]. pose proof (owner_named g t tok s w I Es Eh) as Eo.
  unfold abandon. rewrite bool_decide_true by done. simpl. intros [= <-]. by eapply run_release_inv.
Qed.

Lemma activity_claim_inv w : Inv w -> fits (activity_claim w) -> Inv (activity_claim w).
Proof.
  intros I. unfold activity_claim, claim_generation_activity.
  assert (forall g, up w g -> control (lc w) = Some g ->
            fits (begin_guard (Activity g) w) -> Inv (begin_guard (Activity g) w)) as H.
  { intros g Hu Ec Hf. destruct (i_live _ I g Hu) as (Hc & _ & _).
    apply hold_inv; simpl; try done; [|by intros []].
    apply (i_active _ I). unfold active_generation. by destruct Hu as [-> | ->]. }
  destruct (state (lc w)) as [|g|g|g] eqn:Es; simpl; try (intros _; by eapply core_inv, I).
  all: destruct (control (lc w)) as [g'|] eqn:Ec; simpl; [|intros _; by eapply core_inv, I].
  all: assert (g' = g) as -> by
    (assert (up w g) as Hu by (unfold up; auto); destruct (i_live _ I g Hu) as (_ & E & _); congruence).
  all: apply H; [unfold up; auto|done].
Qed.

(** *** Cleaning up *)

Lemma cleaner_inv g res p p0 w :
  Inv w -> cleaners w !! g = Some (res, p0) ->
  match p with CleanRequested | CleanFlagged => True | _ => cancelled_at w g end ->
  Inv (set_cleaner g res p w).
Proof.
  intros I Hc Hp. destruct I. split; try assumption. cbn.
  intros g' res' p'. rewrite lookup_insert. case_decide; [|apply i_cleaner0].
  subst. intros [= <- <-]. destruct (i_cleaner0 g' res p0 Hc) as (? & ? & ? & ? & _). done.
Qed.

Lemma is_cancelled_cancel g h g' :
  is_cancelled (cancel_control g h) g' = is_cancelled h g' || bool_decide (g = g' /\ is_Some (controls h !! g)).
Proof.
  unfold is_cancelled, cancel_control. cbn. rewrite lookup_alter. case_decide as E.
  - subst. destruct (controls h !! g'); simpl.
    + rewrite bool_decide_true by eauto. by rewrite orb_true_r.
    + rewrite bool_decide_false; [done|]. by intros [_ [? ?]].
  - rewrite bool_decide_false by naive_solver. by rewrite orb_false_r.
Qed.

Lemma cancel_inv g w : Inv w -> ~ up w g -> Inv (w <| heap ::= cancel_control g |>).
Proof.
  intros I Hu. set (w' := w <| heap ::= cancel_control g |>).
  assert (forall g', known w' g' <-> known w g') as Hk.
  { intros g'. unfold w', known. cbn. rewrite lookup_alter. case_decide; [|done]. subst. by rewrite fmap_is_Some. }
  assert (forall g', cancelled_at w g' -> cancelled_at w' g') as Hc.
  { intros g'. unfold w', cancelled_at. cbn -[cancel_control]. rewrite is_cancelled_cancel. by intros ->. }
  assert (forall g', quiet w g' -> quiet w' g') as Hq by (intros g' []; split; auto).
  split; try exact (i_starter _ I); try exact (i_installing _ I); try exact (i_registered _ I);
    try exact (i_running _ I); try exact (i_no_runs _ I); try exact (i_next _ I).
  - intros g'. rewrite Hk. apply (i_gens _ I).
  - intros g' c. unfold w'. cbn. rewrite lookup_alter. case_decide; [|apply (i_count _ I)].
    subst. destruct (controls (heap w) !! g') as [c0|] eqn:E; [|done]. simpl. intros [= <-].
    by apply (i_count _ I g' c0).
  - intros x Hx. apply Hk. by apply (i_guards _ I).
  - intros g'. rewrite Hk. apply (i_active _ I).
  - intros g' Hu'. destruct (i_live _ I g' Hu') as (Hn & ? & ?). split_and!; try done.
    unfold w', cancelled_at. cbn -[cancel_control]. rewrite is_cancelled_cancel.
    rewrite bool_decide_false by (intros [-> _]; by destruct Hu). by rewrite orb_false_r.
  - intros g'. rewrite Hk. intros ? ?. by apply Hq, (i_quiet _ I).
  - intros g' res p Hp. destruct (i_cleaner _ I g' res p Hp) as (? & ? & ? & ? & ?).
    split_and!; try done; [by apply Hk|]. destruct p; auto.
  - intros g' s Hs. destruct (i_slot _ I g' s Hs). split; auto.
  - intros n g' p Hp. destruct (i_worker _ I n g' p Hp) as [? Hw]. split; [done|]. destruct p; auto.
  - intros g' t s Hs. destruct (i_runs _ I g' t s Hs) as (? & ? & ?). split_and!; [by apply Hk|done|done].
Qed.

Lemma slot_inv g s w :
  Inv w -> cancelled_at w g -> (forall j, job s = Some j -> job_control j = Some g) -> Inv (set_slot g s w).
Proof.
  intros I Hc Hj. destruct I. split; try assumption; cbn.
  - intros g' s'. rewrite lookup_insert. case_decide; [|apply i_slot0]. subst. by intros [= <-].
  - intros n g' p Hp. destruct (i_worker0 n g' p Hp) as [? ?]. split; [|done].
    rewrite lookup_insert. by case_decide.
Qed.

Lemma clean_step_inv g w w' : Inv w -> clean_step g w = Some w' -> Inv w'.
Proof.
  intros I. unfold clean_step. destruct (cleaners w !! g) as [[res p]|] eqn:Ec; [|done].
  destruct (i_cleaner _ I g res p Ec) as (Hk & Hu & Erc & Err & Hp).
  destruct p as [| |[|t todo]|].
  - intros [= <-]. destruct (res_running res) as [r|]; [|by eapply cleaner_inv].
    eapply (cleaner_inv _ _ _ CleanRequested); [by eapply core_inv, I|done|done].
  - rewrite Erc. intros [= <-].
    eapply (cleaner_inv _ _ _ CleanFlagged); [by apply cancel_inv|done|].
    unfold cancelled_at. cbn -[cancel_control]. rewrite is_cancelled_cancel.
    by rewrite bool_decide_true, orb_true_r.
  - intros [= <-]. unfold install_slot.
    assert (Inv (set_slot g (new_slot {| job_handles := res_handles res; job_control := res_control res |}) w)) as I1.
    { apply slot_inv; [done|done|]. by intros j [= <-]. }
    case_match; (eapply (cleaner_inv _ _ _ (CleanClosing [])); [|done|done]); by eapply core_inv, I1.
  - rewrite Err. simpl. destruct (runs (heap w) !! (g, t)) as [s|] eqn:Es; [|done]. simpl.
    intros [= <-]. eapply (cleaner_inv _ _ _ (CleanClosing (t :: todo))); [by eapply run_keep_inv|done|done].
  - intros [= <-]. assert (Inv (w <| cleaners ::= delete g |>)) as I1.
    { destruct I. split; try assumption. cbn. intros g' res' p'. rewrite lookup_delete.
      case_decide; [done|]. apply i_cleaner0. }
    by eapply core_inv, I1.
Qed.

(** *** Workers *)

Lemma workers_inv ws w :
  Inv w ->
  (forall n g p, ws !! n = Some (g, p) ->
     workers w !! n = Some (g, p) \/
     is_Some (slots w !! g) /\
     match p with WorkerDraining j => job_control j = Some g | WorkerDrained => quiet w g | _ => True end) ->
  Inv (w <| workers := ws |>).
Proof.
  intros I Hw. destruct I. split; try assumption. cbn.
  intros n g p Hp. destruct (Hw n g p Hp) as [H|H]; [by apply (i_worker0 n)|exact H].
Qed.

Lemma worker_set_inv n g p w :
  Inv w -> is_Some (slots w !! g) ->
  match p with WorkerDraining j => job_control j = Some g | WorkerDrained => quiet w g | _ => True end ->
  Inv (w <| workers ::= insert n (g, p) |>).
Proof.
  intros I Hs Hp. change (Inv (w <| workers := <[n := (g, p)]> (workers w) |>)). apply workers_inv; [done|].
  intros n' g' p'. rewrite lookup_insert.
  case_decide; [intros [= <- <-]; by right|by left].
Qed.

Lemma worker_gone_inv n w : Inv w -> Inv (w <| workers ::= delete n |>).
Proof.
  intros I. change (Inv (w <| workers := delete n (workers w) |>)). apply workers_inv; [done|].
  intros n' g' p'. rewrite lookup_delete.
  case_decide; [done|by left].
Qed.

Lemma worker_launch_inv n g w w' : Inv w -> worker_launch n g w = Some w' -> Inv w'.
Proof.
  intros I. unfold worker_launch. destruct (slots w !! g) as [s|] eqn:Es; [|done]. simpl.
  destruct (i_slot _ I g s Es) as [Hc Hj]. unfold reserve_worker_launch.
  case_match; [done|]. simpl. unfold when. case_match; [|done]. intros [= <-].
  apply slot_inv; [|exact Hc|exact Hj]. apply worker_set_inv; [done|by eauto|done].
Qed.

(** The end of a cleanup: nothing of the generation is left. *)
Lemma finish_inv g w : Inv w -> quiet w g -> Inv (w <| lc := (complete_cleanup g (lc w)).2 |>).
Proof.
  intros I Hq. unfold complete_cleanup, finish_cleanup.
  case_bool_decide; [|by eapply core_inv, I].
  destruct (bool_decide (state (lc w) = Stopping g)) eqn:Es; simpl; [|by eapply core_inv, I].
  apply bool_decide_eq_true in Es.
  destruct I. split; unfold up, active_generation in *; cbn; try assumption; try done.
  - by intros g' [].
  - intros g' Hk _. destruct (decide (g' = g)) as [->|Hne]; [done|]. apply i_quiet0; [done|].
    rewrite Es. congruence.
  - intros g' res p Hp. destruct (i_cleaner0 g' res p Hp) as (? & ? & ? & ? & ?).
    split_and!; try done. by intros [].
  - intros g' spawned todo Hp. destruct (i_installing0 g' spawned todo Hp). done.
Qed.

Lemma drained_quiet g w c :
  Inv w -> cancelled_at w g -> controls (heap w) !! g = Some c -> active_owners c = 0 -> quiet w g.
Proof.
  intros I Hc Hg H0. split; [done|]. intros x Hx. eapply count_zero; [|done].
  by rewrite <-(i_count _ I g c Hg).
Qed.

Lemma worker_step_inv n w w' : Inv w -> worker_step n w = Some w' -> Inv w'.
Proof.
  intros I. unfold worker_step. destruct (workers w !! n) as [[g p]|] eqn:Ew; [|done]. simpl.
  destruct (slots w !! g) as [s|] eqn:Es; [|done]. simpl.
  destruct (i_slot _ I g s Es) as [Hc Hj]. destruct (i_worker _ I n g p Ew) as [Hs Hp].
  destruct p as [| |j|].
  - unfold begin_worker. destruct (worker_active (drop_launch s) || _); intros [= <-]; (apply slot_inv; [|exact Hc|exact Hj]);
      [by apply worker_gone_inv|by apply worker_set_inv].
  - unfold claim_job. destruct (job s) as [j|] eqn:Ej; intros [= <-]; (apply slot_inv; [|exact Hc|]).
    + apply worker_set_inv; [done|done|by apply Hj].
    + done.
    + by apply worker_gone_inv.
    + done.
  - destruct (job_handles j) as [|[t g'] rest].
    + unfold when. rewrite Hp. destruct (controls (heap w) !! g) as [c|] eqn:Ec.
      * destruct (Z.eqb_spec (active_owners c) 0); [|done]. intros [= <-].
        apply worker_set_inv; [done|done|]. by eapply drained_quiet.
      * unfold cancelled_at, is_cancelled in Hc. by rewrite Ec in Hc.
    + unfold when. case_match; [|done]. intros [= <-]. by apply worker_set_inv.
  - pose proof (finish_inv g w I Hp) as If. destruct (complete_cleanup g (lc w)) as [b l].
    intros [= <-]. apply slot_inv; [|exact Hc|exact Hj]. exact (worker_gone_inv n _ If).
Qed.

Lemma worker_abort_inv n w w' : Inv w -> worker_abort n w = Some w' -> Inv w'.
Proof.
  intros I. unfold worker_abort. destruct (workers w !! n) as [[g p]|] eqn:Ew; [|done]. simpl.
  destruct (slots w !! g) as [s|] eqn:Es; [|done]. simpl.
  destruct (i_slot _ I g s Es) as [Hc Hj]. destruct (i_worker _ I n g p Ew) as [Hs Hp].
  pose proof (worker_gone_inv n w I) as Ig.
  destruct p as [| |j|]; [..|done]; intros [= <-]; (apply slot_inv; [done|exact Hc|]); try exact Hj.
  unfold return_job, drop_worker. cbn. destruct (job s) eqn:Ej; cbn; rewrite ?Ej; [done|].
  by intros j' [= <-].
Qed.

(** *** Recovery *)

Lemma reconcile_core ticket l h :
  exists r n p, reconcile_abandoned_recovery ticket l h
                = (r, l <| recovery_attempt := n |> <| pending_recovery := p |>).
Proof.
  assert (l = l <| recovery_attempt := recovery_attempt l |> <| pending_recovery := pending_recovery l |>) as El
    by (by destruct l).
  unfold reconcile_abandoned_recovery. case_match; eauto.
  do 3 eexists. f_equal. exact El.
Qed.

Lemma launch_core how ticket l h :
  match launch_recovery_handler how ticket l h with
  | (_, (l', h')) => same_core l l' /\ same_heap h h'
  end.
Proof.
  assert (match (let '(next, l1) := reconcile_abandoned_recovery ticket l h
                 in (inl next : option RecoveryTicket + bool, (l1, h))) with
          | (_, (l', h')) => same_core l l' /\ same_heap h h' end) as Ha.
  { destruct (reconcile_core ticket l h) as (r & n & p & ->). done. }
  unfold launch_recovery_handler. destruct how; [exact Ha|..];
    (destruct (negb _); [done|]); [|exact Ha|done].
  split; [done|]. by destruct (desired _).
Qed.

Lemma recovery_launch_inv k n how w w' : Inv w -> recovery_launch k n how w = Some w' -> Inv w'.
Proof.
  intros I. unfold recovery_launch. destruct (launching w !! k) as [ticket|]; [|done]. simpl.
  pose proof (launch_core how ticket (lc w) (heap w)) as Hc. unfold same_core, same_heap in Hc.
  destruct (launch_recovery_handler how ticket (lc w) (heap w)) as [next [l h]].
  destruct Hc as [Hc Hh]. unfold when.
  destruct next as [next|[]]; [|case_match; [|done]|]; intros [= <-]; by eapply core_inv, I.
Qed.

Lemma recovery_end_inv n w w' : Inv w -> recovery_end n w = Some w' -> Inv w'.
Proof.
  intros I. unfold recovery_end. destruct (recoveries w !! n) as [ticket|]; [|done]. simpl.
  destruct (reconcile_core ticket (lc w) (heap w)) as (r & m & p & ->).
  intros [= <-]. by eapply core_inv, I.
Qed.

(** *** Every step *)

Lemma exec_inv a w w' : Inv w -> exec required a w = Some w' -> fits w' -> Inv w'.
Proof.
  intros I. destruct a; simpl.
  - intros [= <-] _. by apply claim_start_inv.
  - intros H _. by eapply refresh_inv.
  - intros H _. by eapply drop_claim_inv.
  - apply start_step_inv, I.
  - apply start_abort_inv, I.
  - intros H _. by eapply loop_exit_inv.
  - unfold loop_dropped, when. case_match eqn:E; [|done]. apply andb_true_iff in E as [E _].
    intros [= <-] _. by apply drop_other_inv.
  - intros H _. by eapply watch_step_inv.
  - unfold watch_abort, when. case_match; [|done]. intros [= <-] _. by eapply core_inv, I.
  - unfold handle_dropped, when. case_match eqn:E; [|done]. rewrite !andb_true_iff in E.
    destruct E as [[E _] _]. intros [= <-] _. by apply drop_other_inv.
  - unfold batch_dropped, when. case_match eqn:E; [|done]. intros [= <-] _. by apply drop_other_inv.
  - apply run_claim_inv, I.
  - intros H _. by eapply run_turn_inv.
  - intros H _. by eapply run_abandon_inv.
  - intros [= <-]. by apply activity_claim_inv.
  - unfold activity_end, when. case_match eqn:E; [|done]. intros [= <-] _. by apply drop_other_inv.
  - intros [= <-] _. by apply stop_inv.
  - intros H _. by eapply clean_step_inv.
  - intros H _. by eapply worker_launch_inv.
  - intros H _. by eapply worker_step_inv.
  - intros H _. by eapply worker_abort_inv.
  - intros H _. by eapply recovery_launch_inv.
  - unfold recovery_start. destruct (recoveries w !! n); [|done]. simpl. unfold when.
    case_match; [|done]. intros [= <-] _. by apply claim_start_inv.
  - intros H _. by eapply recovery_end_inv.
Qed.

Lemma world_step_inv w w' : step required w w' -> Inv w -> Inv w'.
Proof. intros [[a Ha] Hf] I. by eapply exec_inv. Qed.

(** What is alive belongs to the active generation. *)
Lemma guards_active w x : Inv w -> x ∈ guards (heap w) -> active_generation (lc w) = Some (guard_generation x).
Proof.
  intros I Hx. destruct (decide (active_generation (lc w) = Some (guard_generation x))) as [|Hn]; [done|].
  destruct (i_quiet _ I _ (i_guards _ I x Hx) Hn) as [_ Hq]. by destruct (Hq x Hx).
Qed.

Lemma reachable_inv w : rtc (step required) new_world w -> Inv w.
Proof.
  intros H. remember new_world as w0. assert (Inv w0) as I by (subst; apply new_world_inv).
  clear Heqw0. induction H; [done|]. by eauto using world_step_inv.
Qed.
End Invariant.
