(* ===== verification/SchedulerTheorems.v ===== *)
(** What the scheduler promises: generations do not overlap, a running one has
    all its loops, a stop holds, recovery waits a bounded time. *)
From coqutil Require Import Datatypes.RecordSettersUsingExistingGetters.
From stdpp Require Import gmap strings relations.
From S2P Require Import Prelude RustStr Models TaskRun Scheduler SchedulerSteps SchedulerSafety.
#[local] Open Scope list_scope.

(** ** Generations *)

(** C19: Whatever the interleaving, every live start, loop, watcher, task run and
    activity belongs to the active generation, so no task of one generation
    runs beside another one's, and no task runs twice at once. *)
Theorem generations_exclusive (required : list TaskId) (w : World)
    (reached : rtc (step required) new_world w) :
  (forall x, x ∈ guards (heap w) -> active_generation (lc w) = Some (guard_generation x)) /\
  (forall t g tok g' tok', RunOwner g t tok ∈ guards (heap w) -> RunOwner g' t tok' ∈ guards (heap w) ->
     g = g' /\ tok = tok').
Proof.
  apply reachable_inv in reached as I.
  assert (forall x, x ∈ guards (heap w) -> active_generation (lc w) = Some (guard_generation x)) as Ha
    by (intros x; by apply (guards_active required)).
  split; [done|]. intros t g tok g' tok' H H'.
  pose proof (Ha _ H) as E. pose proof (Ha _ H') as E'. simpl in E, E'.
  assert (g = g') as <- by congruence. split; [done|].
  apply elem_of_run_guards in H, H'.
  destruct (runs (heap w) !! (g, t)) as [s|] eqn:Es.
  - destruct (i_runs _ w I g t s Es) as (_ & _ & Hr). rewrite Hr in H, H'.
    destruct (owner_token s); simpl in *; [|by apply elem_of_nil in H].
    apply list_elem_of_singleton in H, H'. congruence.
  - rewrite (i_no_runs _ w I g t Es) in H. by apply elem_of_nil in H.
Qed.

(** In a running generation every required loop is alive: a loop that ends
    takes the generation down in the same critical section, and one that ended
    before keeps it from being published. *)
Theorem running_has_all_loops (required : list TaskId) (w : World) (g : Z)
    (reached : rtc (step required) new_world w) (running : state (lc w) = Running g) :
  (forall t, t ∈ required -> (g, t) ∈ loops w) /\ is_cancelled (heap w) g = false /\
  g = next_generation (lc w).
Proof.
  apply reachable_inv in reached as I. split_and!.
  - by apply (i_running _ w I).
  - apply not_true_iff_false. apply (i_live _ w I). by right.
  - apply (i_active _ w I). unfold active_generation. by rewrite running.
Qed.

(** ** A stop holds *)

Definition down (l : SchedulerLifecycle) : Prop := forall g, state l <> Starting g /\ state l <> Running g.

(** No one may start: the scheduler is terminal, or nobody wants it to run. *)
Definition unwanted (a : Action) (l : SchedulerLifecycle) : Prop :=
  terminal l = true \/ desired l = None /\ a <> StartExplicit.

Definition still (l l' : SchedulerLifecycle) : Prop :=
  down l' /\ next_generation l' = next_generation l /\
  (terminal l = true -> terminal l' = true) /\ (desired l = None -> desired l' = None).

Lemma still_refl l : down l -> still l l.
Proof. intros. split_and!; auto. Qed.

(** Fields that decide about starts. *)
Definition same_wish (l l' : SchedulerLifecycle) : Prop :=
  state l' = state l /\ next_generation l' = next_generation l /\ terminal l' = terminal l /\
  (desired l = None -> desired l' = None).

Lemma wish_still l l' : down l -> same_wish l l' -> still l l'.
Proof.
  intros Hd (E & En & Et & Ed). split_and!; [|done|congruence|auto].
  intros g. rewrite E. apply Hd.
Qed.

Lemma decision_down owner l h d l' h' :
  down l -> terminal l = true \/ desired l = None ->
  decision_for owner l h = (d, (l', h')) -> starts d = false /\ l' = l.
Proof.
  intros Hd Hu. assert (is_desired l h = (fun _ => false) \/ terminal l = true) as Hw.
  { destruct Hu as [|E]; [by right|left]. unfold is_desired. by rewrite E. }
  destruct owner as [[token|ticket]|]; simpl; [..|by intros [= <- <- <-]].
  - unfold start_decision_for. destruct Hw as [-> | ->]; rewrite ?orb_true_r; by intros [= <- <- <-].
  - unfold recovery_start_decision.
    destruct Hw as [-> | ->]; rewrite ?andb_false_r; by intros [= <- <- <-].
Qed.

Lemma request_down g cause w : down (lc w) -> lc (request_cleanup g cause w) = lc w.
Proof.
  intros Hd. unfold request_cleanup.
  destruct (begin_cleanup_not_up g cause w) as (r & -> & Hr); [|by destruct r].
  intros [E|E]; by apply (Hd g) in E.
Qed.

Lemma failed_down g w : down (lc w) -> lc (required_loop_failed g w) = lc w.
Proof. intros Hd. unfold required_loop_failed. case_match; [done|]. by apply request_down. Qed.

Lemma down_not_starting l g : down l -> bool_decide (state l = Starting g) = false.
Proof. intros Hd. apply bool_decide_eq_false. apply Hd. Qed.

Lemma start_step_down required g w w' :
  down (lc w) -> start_step required g w = Some w' -> same_wish (lc w) (lc w').
Proof.
  intros Hd. assert (same_wish (lc w) (lc w)) as Hr by done.
  pose proof (down_not_starting (lc w) g Hd) as Hs.
  unfold start_step. destruct (starters w !! g) as [p|]; [|done].
  destruct p as [|spawned [|t todo]|[|t rest] supervised|[|t todo]| |[|t todo]| | |]; unfold when.
  - by rewrite Hs.
  - unfold register_required_loops. by rewrite Hs.
  - by intros [= <-].
  - unfold install_handles. by rewrite Hs.
  - by intros [= <-].
  - by intros [= <-].
  - case_match; [|done]. by intros [= <-].
  - destruct required; [|by intros [= <-]]. unfold finish_start. by rewrite Hs.
  - by intros [= <-].
  - case_match; [|done]. by intros [= <-].
  - case_match; [|done]. intros [= <-]. cbn. unfold mark_start_committed. by case_match.
  - intros [= <-]. cbn -[request_cleanup]. by rewrite request_down.
  - by intros [= <-].
Qed.

Lemma watch_step_down g t w w' :
  down (lc w) -> watch_step g t w = Some w' -> same_wish (lc w) (lc w').
Proof.
  intros Hd. assert (same_wish (lc w) (lc w)) as Hr by done.
  pose proof (down_not_starting (lc w) g Hd) as Hs. pose proof (failed_down g w Hd) as Hf.
  unfold watch_step. destruct (watchers w !! (g, t)) as [[]|]; [..|done]; unfold when.
  - case_match; [intros [= <-]; cbn -[required_loop_failed]; by rewrite Hf|].
    case_match; [by intros [= <-]|].
    unfold mark_required_loop_ready. rewrite Hs. by intros [= <-].
  - case_match; [intros [= <-]; cbn -[required_loop_failed]; by rewrite Hf|].
    case_match; [by intros [= <-]|]. case_match; [|done].
    intros [= <-]. cbn -[required_loop_failed]. by rewrite Hf.
  - unfold approve_required_loop_and_maybe_publish. rewrite Hs. by intros [= <-].
  - case_match; [intros [= <-]; cbn -[required_loop_failed]; by rewrite Hf|].
    case_match; [|done]. by intros [= <-].
  - case_match; [|done]. by intros [= <-].
Qed.

Lemma reserve_wish g l h : same_wish l (reserve_recovery g l h).2.
Proof. destruct (reserve_recovery_core g l h) as (r & n & p & ->). done. Qed.

Lemma launch_still how ticket l h :
  down l -> still l (launch_recovery_handler how ticket l h).2.1.
Proof.
  intros Hd.
  assert (still l (let '(next, l1) := reconcile_abandoned_recovery ticket l h
                   in (inl next : option RecoveryTicket + bool, (l1, h))).2.1) as Ha.
  { destruct (reconcile_core ticket l h) as (r & n & p & ->). by apply wish_still. }
  unfold launch_recovery_handler. destruct how; [exact Ha|..];
    (destruct (negb _); [by apply still_refl|]); [|exact Ha|by apply wish_still].
  split_and!; cbn; auto.
Qed.

Lemma claim_down origin w :
  down (lc w) -> terminal (lc w) = true \/ desired (lc w) = None /\ origin <> Explicit ->
  still (lc w) (lc (claim_start origin w)).
Proof.
  intros Hd Hu. unfold claim_start, claim_scheduler_start. destruct origin as [|ticket].
  - destruct Hu as [Ht|[_ ?]]; [|done].
    unfold request_explicit_start. rewrite Ht. simpl. by apply still_refl.
  - destruct (decision_for _ _ _) as [d [l' h']] eqn:E.
    apply decision_down in E as [Hs ->]; [|done|tauto].
    destruct d; try done; by apply still_refl.
Qed.

Lemma stop_still b w : down (lc w) -> still (lc w) (lc (stop b w)).
Proof.
  intros Hd. unfold stop.
  assert (forall l, same_wish (lc w) l \/ l = (lc w) <| terminal := true |> ->
    let '(r, s) := begin_explicit_stop l (heap w) in still (lc w) (lc (launch_request r (with_state s w)))) as H.
  { intros l Hl. unfold begin_explicit_stop, disable_desired_running.
    set (l1 := l <| desired := None |> <| pending_recovery := None |> <| recovery_attempt := 0 |>).
    assert (state l1 = state (lc w) /\ next_generation l1 = next_generation (lc w) /\
            (terminal (lc w) = true -> terminal l1 = true)) as (Es & En & Et).
    { destruct Hl as [(? & ? & E & _)| ->]; [by rewrite <-E|done]. }
    assert (down l1) as Hd1 by (intros g; rewrite Es; apply Hd).
    assert (still (lc w) l1) as H1 by (split_and!; auto).
    destruct (active_generation l1) as [g|]; [|done].
    set (h1 := match desired l with Some token => cancel_token token (heap w) | None => heap w end).
    destruct (begin_cleanup_not_up g ExplicitStop (with_state (l1, h1) w)) as (r & E & Hr).
    { intros [E|E]; by apply (Hd1 g) in E. }
    cbn -[begin_cleanup_with_cause] in E. rewrite E. by destruct r. }
  destruct b; [unfold begin_terminal_shutdown|].
  - specialize (H ((lc w) <| terminal := true |>) (or_intror eq_refl)).
    by destruct (begin_explicit_stop ((lc w) <| terminal := true |>) (heap w)).
  - assert (same_wish (lc w) (lc w)) as Hl by done. specialize (H _ (or_introl Hl)).
    by destruct (begin_explicit_stop (lc w) (heap w)).
Qed.

Lemma complete_still g l : down l -> still l (complete_cleanup g l).2.
Proof.
  intros Hd. unfold complete_cleanup, finish_cleanup.
  case_bool_decide; [|by apply still_refl]. case_bool_decide; simpl; [|by apply still_refl].
  by split_and!.
Qed.

Lemma worker_step_still n w w' :
  down (lc w) -> worker_step n w = Some w' -> still (lc w) (lc w').
Proof.
  intros Hd. pose proof (still_refl _ Hd) as Hr. unfold worker_step.
  destruct (workers w !! n) as [[g p]|]; [|done]. simpl.
  destruct (slots w !! g) as [s|]; [|done]. simpl. unfold when.
  destruct p as [| |j|].
  - destruct (begin_worker s) as [[] ?]; by intros [= <-].
  - destruct (job s); intros H; injection H as <-; exact Hr.
  - destruct (job_handles j) as [|[t g'] rest]; (case_match; [|done]); by intros [= <-].
  - pose proof (complete_still g _ Hd) as Hc.
    destruct (complete_cleanup g (lc w)) as [b l]. by intros [= <-].
Qed.

Lemma clean_step_still g w w' :
  down (lc w) -> clean_step g w = Some w' -> still (lc w) (lc w').
Proof.
  intros Hd. pose proof (still_refl _ Hd) as Hr. unfold clean_step.
  destruct (cleaners w !! g) as [[res []]|]; [..|done].
  - intros [= <-]. by destruct (res_running res).
  - intros [= <-]. by destruct (res_control res).
  - destruct todo as [|t todo].
    + intros [= <-]. unfold install_slot. case_match; by apply wish_still.
    + destruct (res_run_states res) as [r|]; [|done]. simpl.
      destruct (runs (heap w) !! (r, t)) as [s|]; [|done]. simpl. by intros [= <-].
  - by intros [= <-].
Qed.

Lemma runs_lc g t tok w w' :
  (exists r, run_turn g t tok r w = Some w') \/ run_abandon g t tok w = Some w' -> lc w' = lc w.
Proof.
  intros [[r H]|H]; revert H; [unfold run_turn|unfold run_abandon];
    (destruct (runs (heap w) !! (g, t)) as [s|]; [|done]); simpl; (case_match; [|done]).
  - destruct (end_run _ _ _ _) as [e s']. intros [= <-]. unfold release_run. by repeat case_match.
  - destruct (abandon _ _) as [ws s']. intros [= <-]. unfold release_run. by case_match.
Qed.

Lemma run_claim_lc g t force sender w w' : run_claim g t force sender w = Some w' -> lc w' = lc w.
Proof.
  unfold run_claim. destruct (runs (heap w) !! (g, t)) as [s|]; [|done]. simpl.
  destruct (claim_run _ _ _ _) as [[] s']; by intros [= <-].
Qed.

Lemma defer_lc g batch w : lc (defer_batch g batch w) = lc w.
Proof. by destruct batch. Qed.

Lemma exec_still required a w w' :
  down (lc w) -> unwanted a (lc w) -> exec required a w = Some w' -> still (lc w) (lc w').
Proof.
  intros Hd Hu. pose proof (still_refl _ Hd) as Hr.
  assert (forall w1, lc w1 = lc w -> still (lc w) (lc w1)) as Hs by (by intros w1 ->).
  destruct a; simpl; unfold when.
  - intros [= <-]. apply claim_down; [done|]. destruct Hu as [|[]]; [by left|done].
  - unfold refresh_claim. destruct (waiting w !! k) as [owner|]; [|done]. simpl.
    destruct (decision_for (Some owner) (lc w) (heap w)) as [d [l' h']] eqn:E.
    pose proof (decision_down _ _ _ _ _ _ Hd ltac:(destruct Hu as [|[]]; auto) E) as [Hds ->].
    simpl in E. destruct owner; rewrite E; intros [= <-]; destruct d; try done; exact Hr.
  - unfold drop_claim, drop_waiting_claim. destruct (waiting w !! k) as [[token|]|]; [..|done]; simpl;
      [|intros [= <-]; exact Hr].
    destruct (is_desired _ _ _); [|intros [= <-]; exact Hr].
    destruct (reserve_recovery_core (default (next_generation (lc w)) (active_generation (lc w)))
                (lc w) (heap w)) as (r & n & p & ->).
    intros [= <-]. by apply wish_still.
  - intros H. by eapply wish_still, start_step_down.
  - unfold start_abort. destruct (starters w !! g) as [[]|]; try done; intros [= <-]; apply Hs;
      repeat case_match; try done; cbn; by rewrite ?defer_lc.
  - unfold loop_exit, when. case_match; [|done]. intros [= <-]. apply Hs. by rewrite failed_down.
  - unfold loop_dropped, when. case_match; [|done]. by intros [= <-].
  - intros H. by eapply wish_still, watch_step_down.
  - unfold watch_abort, when. case_match; [|done]. by intros [= <-].
  - unfold handle_dropped, when. case_match; [|done]. by intros [= <-].
  - unfold batch_dropped, when. case_match; [|done]. by intros [= <-].
  - intros H. eapply Hs, run_claim_lc, H.
  - intros H. eapply Hs, runs_lc. left. by eexists.
  - intros H. eapply Hs, runs_lc. by right.
  - by intros [= <-].
  - unfold activity_end, when. case_match; [|done]. by intros [= <-].
  - intros [= <-]. by apply stop_still.
  - by apply clean_step_still.
  - unfold worker_launch. destruct (slots w !! g); [|done]. simpl.
    destruct (reserve_worker_launch _); [|done]. simpl. unfold when. case_match; [|done]. by intros [= <-].
  - by apply worker_step_still.
  - unfold worker_abort. destruct (workers w !! n) as [[g p]|]; [|done]. simpl.
    destruct (slots w !! g); [|done]. simpl. destruct p; [..|done]; by intros [= <-].
  - unfold recovery_launch. destruct (launching w !! k) as [ticket|]; [|done]. simpl.
    pose proof (launch_still how ticket (lc w) (heap w) Hd) as Hl.
    destruct (launch_recovery_handler how ticket (lc w) (heap w)) as [next [l h]]. unfold when.
    destruct next as [next|[]]; [|case_match; [|done]|]; intros [= <-]; exact Hl.
  - unfold recovery_start. destruct (recoveries w !! n); [|done]. simpl. unfold when.
    case_match; [|done]. intros [= <-]. apply claim_down; [done|].
    destruct Hu as [|[]]; [by left|by right].
  - unfold recovery_end. destruct (recoveries w !! n) as [ticket|]; [|done]. simpl.
    destruct (reconcile_core ticket (lc w) (heap w)) as (r & m & p & ->).
    intros [= <-]. by apply wish_still.
Qed.

(** Right after a stop the scheduler is down and unwanted. *)
Lemma stopped_down b w :
  down (lc (stop b w)) /\ next_generation (lc (stop b w)) = next_generation (lc w) /\
  desired (lc (stop b w)) = None /\ (b = true -> terminal (lc (stop b w)) = true).
Proof.
  assert (forall l, next_generation l = next_generation (lc w) -> state l = state (lc w) ->
    let '(r, s) := begin_explicit_stop l (heap w) in
    let l' := lc (launch_request r (with_state s w)) in
    down l' /\ next_generation l' = next_generation (lc w) /\ desired l' = None /\ terminal l' = terminal l) as H.
  { intros l Hn Hs. unfold begin_explicit_stop, disable_desired_running, begin_cleanup_with_cause.
    unfold active_generation. cbn [state].
    destruct (state l) as [|g|g|g] eqn:Es; cbn; rewrite ?Es; cbn; try (split_and!; [|done..]);
      try (intros g'; cbn; rewrite Es; done).
    all: rewrite Z.eqb_refl; unfold cleanup_wait, begin_cleanup_active; cbn.
    1,2: split_and!; [by intros g'|done..].
    destruct (cleanup_completion l); cbn; (split_and!; [intros g'; cbn; by rewrite Es|done..]). }
  unfold stop. destruct b; [unfold begin_terminal_shutdown|].
  - specialize (H ((lc w) <| terminal := true |>) ltac:(done) ltac:(done)).
    destruct (begin_explicit_stop ((lc w) <| terminal := true |>) (heap w)) as [r s].
    destruct H as (? & ? & ? & ?). auto.
  - specialize (H (lc w) eq_refl eq_refl).
    destruct (begin_explicit_stop (lc w) (heap w)) as [r s]. by destruct H as (? & ? & ? & _).
Qed.

Definition step_but_start (required : list TaskId) (w w' : World) : Prop :=
  exists a, a <> StartExplicit /\ exec required a w = Some w'.

(** C21: After a stop no generation starts until someone asks for it, recovery
    included; after a shutdown none starts at all. *)
Theorem stop_holds (required : list TaskId) (w w' : World) :
  (rtc (step_but_start required) (stop false w) w' ->
     (forall g, state (lc w') <> Starting g /\ state (lc w') <> Running g) /\
     next_generation (lc w') = next_generation (lc w)) /\
  (rtc (step required) (stop true w) w' ->
     (forall g, state (lc w') <> Starting g /\ state (lc w') <> Running g) /\
     next_generation (lc w') = next_generation (lc w)).
Proof.
  assert (forall (R : relation World) v,
    (forall u u', R u u' -> exists a, exec required a u = Some u' /\
       (a <> StartExplicit \/ terminal (lc v) = true)) ->
    down (lc v) -> desired (lc v) = None -> rtc R v w' ->
    down (lc w') /\ next_generation (lc w') = next_generation (lc v)) as H.
  { intros R v HR Hd Hw Hrun.
    assert (forall u, rtc R v u -> down (lc u) /\ next_generation (lc u) = next_generation (lc v) /\
              desired (lc u) = None /\ (terminal (lc v) = true -> terminal (lc u) = true)) as Hall.
    { intros u Hu. pattern u. eapply (rtc_ind_r _ v); [auto| |exact Hu].
      intros u1 u2 _ Hs (Hd1 & En1 & Ew1 & Et1).
      destruct (HR _ _ Hs) as (a & Ha & Hor).
      assert (unwanted a (lc u1)) as Hun by (unfold unwanted; destruct Hor; auto).
      destruct (exec_still required a u1 u2 Hd1 Hun Ha) as (? & ? & ? & ?).
      split_and!; [done|congruence|auto..]. }
    destruct (Hall w' Hrun) as (? & ? & _). done. }
  destruct (stopped_down false w) as (Hd & En & Ew & _).
  destruct (stopped_down true w) as (Hd' & En' & Ew' & Et').
  split; intros Hrun.
  - rewrite <-En. eapply H; try done. intros u u' (a & Hne & Ha). eauto.
  - rewrite <-En'. eapply H; try done. intros u u' [[a Ha] _]. eauto.
Qed.

(** ** The wait before a recovery *)

(** The wait before the n-th recovery is the base doubled each time up to the
    cap, it never decreases and no multiplication overflows. *)
Theorem recovery_backoff_bounded (n m : Z) (positive : 1 <= n <= m) :
  recovery_backoff n = Z.min 5000 (100 * 2 ^ (n - 1)) /\
  100 <= recovery_backoff n <= 5000 /\ recovery_backoff n <= recovery_backoff m.
Proof.
  assert (forall k, 1 <= k -> recovery_backoff k = Z.min 5000 (100 * 2 ^ (k - 1))) as E.
  { intros k Hk. unfold recovery_backoff, checked_mul_ms, saturating_sub.
    rewrite Z.max_r by lia. rewrite Z.shiftl_1_l.
    destruct (Z.le_gt_cases (k - 1) 16) as [Hle|Hgt].
    - rewrite (Z.min_l (k - 1) 16) by done.
      assert (2 ^ (k - 1) <= 2 ^ 16) by (apply Z.pow_le_mono_r; lia).
      assert (100 * 2 ^ (k - 1) <= duration_max) as Hm
        by (change (2 ^ 16) with 65536 in *; unfold duration_max, u64_max; lia).
      apply Z.leb_le in Hm. rewrite Hm. simpl. apply Z.min_comm.
    - rewrite (Z.min_r (k - 1) 16) by lia. change (2 ^ 16) with 65536.
      assert (2 ^ 16 <= 2 ^ (k - 1)) by (apply Z.pow_le_mono_r; lia).
      change (2 ^ 16) with 65536 in *. simpl. lia. }
  rewrite !E by lia.
  assert (1 <= 2 ^ (n - 1)) by (change 1 with (2 ^ 0) at 1; apply Z.pow_le_mono_r; lia).
  assert (2 ^ (n - 1) <= 2 ^ (m - 1)) by (apply Z.pow_le_mono_r; lia). lia.
Qed.
