(* ===== verification/SchedulerLiveness.v ===== *)
(** A cleanup of the scheduler is never lost: from every state of a stopping
    generation the steps of its own tasks lead to the stopped scheduler. *)
From coqutil Require Import Datatypes.RecordSettersUsingExistingGetters.
From stdpp Require Import gmap strings relations.
From S2P Require Import Prelude RustStr Models TaskRun Scheduler SchedulerSteps SchedulerSafety SchedulerTheorems.
#[local] Open Scope list_scope.

(** ** Who holds the cleanup *)

Definition starts_of (g : Z) (l : list Guard) : nat := length (filter (fun x => x = StartActivity g) l).
#[global] Arguments starts_of : simpl never.

Lemma starts_cons g x l : starts_of g (x :: l) = ((if decide (x = StartActivity g) then 1 else 0) + starts_of g l)%nat.
Proof. unfold starts_of. rewrite filter_cons. by case_decide. Qed.

Lemma starts_remove g x l :
  x ∈ l -> starts_of g (remove_one x l) = (starts_of g l - if decide (x = StartActivity g) then 1 else 0)%nat.
Proof.
  induction l as [|y l IH]; [by intros ?%elem_of_nil|]. intros Hx. simpl.
  destruct (decide (x = y)) as [->|Hne]; [rewrite starts_cons; case_decide; lia|].
  apply elem_of_cons in Hx as [?|Hx]; [done|]. rewrite !starts_cons, IH by done.
  destruct (decide (y = StartActivity g)), (decide (x = StartActivity g)); subst; try done; try lia.
Qed.

Lemma starts_remove_other g x l : x <> StartActivity g -> starts_of g (remove_one x l) = starts_of g l.
Proof.
  intros Hne. induction l as [|y l IH]; simpl; [done|].
  destruct (decide (x = y)) as [->|]; rewrite !starts_cons; [by rewrite decide_False|by rewrite IH].
Qed.

Definition open_clean (p : CleanPhase) : Prop := p <> CleanInstalled.

Definition taken (w : World) (g : Z) : Prop :=
  exists n, workers w !! n = Some (g, WorkerDrained) \/ exists j, workers w !! n = Some (g, WorkerDraining j).

Record Kept (w : World) : Prop := {
  k_start g : starts_of g (guards (heap w)) = match starters w !! g with Some _ => 1%nat | None => 0%nat end;
  k_runs g t : known w g -> is_Some (runs (heap w) !! (g, t));
  k_stopping g : state (lc w) = Stopping g ->
    (exists res p, cleaners w !! g = Some (res, p) /\ open_clean p /\ cleanup_job (lc w) = None) \/
    (cleanup_job (lc w) = Some g /\ is_Some (slots w !! g));
  k_idle : (forall g, state (lc w) <> Stopping g) -> cleanup_job (lc w) = None;
  k_open g res p : cleaners w !! g = Some (res, p) -> open_clean p -> slots w !! g = None;
  k_job g s : slots w !! g = Some s -> state (lc w) = Stopping g -> is_Some (job s) \/ taken w g;
  k_active g s : slots w !! g = Some s -> worker_active s = true ->
    exists n p, workers w !! n = Some (g, p) /\ p <> WorkerLaunched;
  k_pending g s : slots w !! g = Some s -> worker_pending s <> 0 ->
    worker_pending s = 1 /\ exists n, workers w !! n = Some (g, WorkerLaunched);
}.

Lemma kept_ext w w' :
  state (lc w') = state (lc w) -> cleanup_job (lc w') = cleanup_job (lc w) ->
  (forall g, known w' g -> known w g) ->
  (forall k, is_Some (runs (heap w) !! k) -> is_Some (runs (heap w') !! k)) ->
  (forall g, starts_of g (guards (heap w')) = starts_of g (guards (heap w))) ->
  starters w' = starters w -> cleaners w' = cleaners w -> slots w' = slots w -> workers w' = workers w ->
  Kept w -> Kept w'.
Proof.
  intros Es Ej Hk Hr Hs Est Ec Esl Ew []. split; unfold taken in *; rewrite ?Es, ?Ej, ?Est, ?Ec, ?Esl, ?Ew; try done.
  - intros g. rewrite Hs. apply k_start0.
  - auto.
Qed.

Lemma new_world_kept : Kept new_world.
Proof.
  split; simpl; try done.
  intros g t [c H]. change ((∅ : gmap Z GenerationControl) !! g = Some c) in H.
  by apply lookup_empty_Some in H.
Qed.

(** ** Preservation *)

Lemma kept_hold x w : (forall g, x <> StartActivity g) -> Kept w -> Kept (begin_guard x w).
Proof.
  intros Hx. apply kept_ext; try done.
  - intros g. apply known_hold.
  - intros g. cbn. rewrite starts_cons. by rewrite decide_False.
Qed.

Lemma kept_drop x w : (forall g, x <> StartActivity g) -> Kept w -> Kept (end_guard x w).
Proof.
  intros Hx. apply kept_ext; try done.
  - intros g. apply known_drop.
  - intros g. cbn. by apply starts_remove_other.
Qed.

Lemma kept_run g t s w : Kept w -> Kept (set_run g t s w).
Proof. apply kept_ext; try done. intros k H. cbn. rewrite lookup_insert. by case_decide. Qed.

Lemma kept_lc l w : state l = state (lc w) -> cleanup_job l = cleanup_job (lc w) -> Kept w -> Kept (w <| lc := l |>).
Proof. intros. eapply kept_ext; done. Qed.

Lemma kept_phase g p w : is_Some (starters w !! g) -> Kept w -> Kept (set_phase g p w).
Proof.
  intros [p0 Hp0] []. split; try assumption. cbn. intros g'. rewrite k_start0, lookup_insert.
  case_decide; [by subst; rewrite Hp0|done].
Qed.

(** A generation that is up has neither cleaner nor slot. *)
Lemma kept_request required g cause ls w :
  Inv required w -> Kept w -> Kept (request_cleanup g cause (w <| loops := ls |>)).
Proof.
  intros I K. destruct (decide (up w g)) as [Hu|Hu].
  - destruct (i_live _ w I g Hu) as (Hc & _ & _). unfold request_cleanup.
    destruct (begin_cleanup_up g cause w Hu) as (res & l' & Eb & Eg & _ & _ & Es & _).
    assert (cleanup_job l' = cleanup_job (lc w)) as Ej.
    { revert Eb. unfold begin_cleanup_with_cause.
      destruct Hu as [-> | ->]; rewrite Z.eqb_refl; unfold begin_cleanup_active;
        (case_bool_decide; [|destruct (reserve_recovery_core g (lc w) (heap w)) as (r & n & p & ->)]);
        by intros [= _ <-]. }
    cbn -[begin_cleanup_with_cause]. rewrite Eb. destruct K. unfold launch_request.
    assert (cleanup_job (lc w) = None) as Hnone.
    { apply k_idle0. intros g' E. destruct Hu; congruence. }
    split; cbn; rewrite ?Es, ?Ej; try done.
    + intros g' [= <-]. left. exists res, CleanRequested. rewrite Eg, lookup_insert_eq. done.
    + intros g' res' p. rewrite Eg, lookup_insert. case_decide; [|by apply k_open0]. intros _ _. subst g'.
      destruct (slots w !! g) as [s|] eqn:E; [|done]. by destruct (i_slot _ w I g s E).
    + intros g' s Hs [= <-]. by destruct (i_slot _ w I g s Hs) as [? _].
  - unfold request_cleanup.
    destruct (begin_cleanup_not_up g cause w Hu) as (r & Eb & Hr).
    cbn -[begin_cleanup_with_cause]. rewrite Eb.
    destruct r; [done|..]; (eapply kept_ext; [..|exact K]; done).
Qed.

Lemma kept_failed required g ls w :
  Inv required w -> Kept w -> Kept (required_loop_failed g (w <| loops := ls |>)).
Proof.
  intros I K. unfold required_loop_failed. case_match; [by eapply kept_ext, K|].
  by eapply kept_request.
Qed.

Lemma loops_same w : w = w <| loops := loops w |>.
Proof. by destruct w. Qed.

(** A generation begins. *)
Lemma kept_begin required g w w' :
  Inv required w -> Kept w -> begins (lc w) (lc w') (heap w) (heap w') g ->
  cleanup_job (lc w') = cleanup_job (lc w) ->
  starters w' = <[g := Preparing]> (starters w) -> cleaners w' = cleaners w ->
  slots w' = slots w -> workers w' = workers w -> Kept w'.
Proof.
  intros I K (Est & Eg & Es & _ & _ & _ & _ & Eh) Ej Ep Ec Esl Ew.
  assert (~ known w g) as Hfresh by (rewrite (i_gens _ w I g); lia).
  assert (starters w !! g = None) as Hnone.
  { destruct (starters w !! g) eqn:E; [|done]. apply (i_starter _ w I) in E.
    by apply (i_guards _ w I) in E. }
  assert (forall g', known w' g' -> g' = g \/ known w g') as Hk.
  { intros g'. unfold known. rewrite Eh, lookup_started, fmap_is_Some. cbn.
    rewrite lookup_insert. case_decide; auto. }
  destruct K. split; unfold taken in *; rewrite ?Es, ?Ej, ?Ec, ?Esl, ?Ew; try done.
  - intros g'. rewrite Eh, Ep. cbn. rewrite starts_cons, k_start0, lookup_insert.
    destruct (decide (g = g')) as [<-|Hne].
    + by rewrite decide_True, Hnone.
    + rewrite decide_False by congruence. done.
  - intros g' t [->|H]%Hk; rewrite Eh; cbn -[all_tasks]; rewrite lookup_new_runs; case_decide; eauto.
    by apply k_runs0.
  - intros _. apply k_idle0. intros g'. by rewrite Est.
Qed.

Lemma begin_decision_job l h d l' h' :
  begin_decision l h = (d, (l', h')) -> cleanup_job l' = cleanup_job l.
Proof.
  unfold begin_decision, begin_start, fail_generation_exhaustion.
  repeat case_match; intros; simplify_eq; done.
Qed.

Lemma decision_job owner l h d l' h' :
  decision_for owner l h = (d, (l', h')) -> cleanup_job l' = cleanup_job l.
Proof.
  destruct owner as [[token|ticket]|]; simpl; [..|by intros [= <- <- <-]].
  - unfold start_decision_for. repeat case_match; intros; simplify_eq; try done;
      by eapply begin_decision_job.
  - unfold recovery_start_decision. case_match; [apply begin_decision_job|by intros [= <- <- <-]].
Qed.

Lemma kept_decision required owner d w l' h' :
  Inv required w -> Kept w -> decision_for owner (lc w) (heap w) = (d, (l', h')) ->
  Kept (apply_decision owner d (with_state (l', h') w)).
Proof.
  intros I K H. pose proof (decision_job _ _ _ _ _ _ H) as Hj.
  destruct (decision_cases _ _ _ _ _ _ H) as [(Hd & Hc & Hh)|(g & -> & Hb)].
  - destruct Hc as (Hs & _), Hh as (H1 & H2 & H3).
    assert (Kept (with_state (l', h') w)) as K1.
    { eapply kept_ext, K; try done; cbn; unfold known; cbn; rewrite ?H1, ?H2, ?H3; done. }
    destruct d; try done; destruct owner; try done; by eapply kept_ext, K1.
  - by apply (kept_begin required g w).
Qed.

Lemma kept_claim required origin w : Inv required w -> Kept w -> Kept (claim_start origin w).
Proof.
  intros I K. unfold claim_start, claim_scheduler_start. destruct origin as [|ticket].
  - destruct (request_explicit_start (lc w) (heap w)) as [r [l h]] eqn:E.
    assert (cleanup_job l = cleanup_job (lc w)) as Hj.
    { revert E. unfold request_explicit_start. repeat case_match; intros; simplify_eq; done. }
    apply request_explicit_cases in E as [Hc Hh].
    assert (Inv required (with_state (l, h) w)) as I1 by by eapply core_inv, I.
    destruct Hc as (Hs & _), Hh as (E1 & E2 & E3).
    assert (Kept (with_state (l, h) w)) as K1.
    { eapply kept_ext, K; try done; cbn; unfold known; cbn; rewrite ?E1, ?E2, ?E3; done. }
    set (owner := match r with Desired token => Some (OwnerExplicit token) | _ => None end).
    assert (match r with
            | Desired token => (Some (OwnerExplicit token), (l, h))
            | _ => (None, (l, h)) end = (owner, (l, h))) as -> by (by destruct r).
    destruct (decision_for owner l h) as [d [l' h']] eqn:Ed.
    exact (kept_decision required owner d (with_state (l, h) w) l' h' I1 K1 Ed).
  - destruct (decision_for _ _ _) as [d [l' h']] eqn:Ed. by eapply kept_decision.
Qed.

Lemma kept_refresh required k w w' : Inv required w -> Kept w -> refresh_claim k w = Some w' -> Kept w'.
Proof.
  intros I K. unfold refresh_claim. destruct (waiting w !! k) as [owner|]; [|done]. simpl.
  set (w1 := w <| waiting ::= delete k |>).
  assert (Inv required w1) as I1 by by eapply core_inv, I.
  assert (Kept w1) as K1 by by eapply kept_ext, K.
  destruct (decision_for (Some owner) (lc w1) (heap w1)) as [d [l' h']] eqn:Ed.
  pose proof (kept_decision _ _ _ _ _ _ I1 K1 Ed) as H.
  unfold decision_for in Ed. cbn -[apply_decision start_decision_for recovery_start_decision] in *.
  destruct owner; rewrite Ed; by intros [= <-].
Qed.

Lemma kept_drop_claim k w w' : Kept w -> drop_claim k w = Some w' -> Kept w'.
Proof.
  intros K. unfold drop_claim. destruct (waiting w !! k) as [owner|]; [|done]. simpl.
  unfold drop_waiting_claim. destruct owner as [token|ticket].
  - destruct (is_desired _ _ _).
    + destruct (reserve_recovery_core (default (next_generation (lc w)) (active_generation (lc w)))
                  (lc w) (heap w)) as (r & n & p & ->).
      intros [= <-]. by eapply kept_ext, K.
    + intros [= <-]. by eapply kept_ext, K.
  - intros [= <-]. by eapply kept_ext, K.
Qed.

Lemma kept_stop required b w : Inv required w -> Kept w -> Kept (stop b w).
Proof.
  intros I K. unfold stop.
  assert (forall l, same_core (lc w) l -> cleanup_job l = cleanup_job (lc w) ->
    let '(r, s) := begin_explicit_stop l (heap w) in Kept (launch_request r (with_state s w))) as H.
  { intros l Hl Hj. unfold begin_explicit_stop, disable_desired_running.
    set (l1 := l <| desired := None |> <| pending_recovery := None |> <| recovery_attempt := 0 |>).
    set (h1 := match desired l with Some token => cancel_token token (heap w) | None => heap w end).
    assert (same_heap (heap w) h1) as Hh by (unfold h1; by destruct (desired l)).
    assert (Inv required (with_state (l1, h1) w)) as I1 by (by eapply core_inv, I).
    assert (Kept (with_state (l1, h1) w)) as K1.
    { destruct Hl as (Hs & _), Hh as (E1 & E2 & E3).
      eapply kept_ext, K; try done; cbn; unfold known; cbn; rewrite ?E1, ?E2, ?E3; done. }
    destruct (active_generation l1) as [g|]; [|done].
    pose proof (kept_request required g ExplicitStop (loops w) _ I1 K1) as H2. unfold request_cleanup in H2.
    change (begin_cleanup_with_cause g ExplicitStop
              (lc ((with_state (l1, h1) w) <| loops := loops w |>))
              (heap ((with_state (l1, h1) w) <| loops := loops w |>)))
      with (begin_cleanup_with_cause g ExplicitStop l1 h1) in H2.
    destruct (begin_cleanup_with_cause g ExplicitStop l1 h1) as [r l2].
    destruct r; (eapply kept_ext; [..|exact H2]; done). }
  destruct b; [unfold begin_terminal_shutdown|].
  - specialize (H ((lc w) <| terminal := true |>) ltac:(done) ltac:(done)).
    by destruct (begin_explicit_stop ((lc w) <| terminal := true |>) (heap w)).
  - specialize (H (lc w) ltac:(done) ltac:(done)). by destruct (begin_explicit_stop (lc w) (heap w)).
Qed.

(** *** Starts *)

Lemma kept_up l w :
  (forall g, state l <> Stopping g) -> (forall g, state (lc w) <> Stopping g) ->
  cleanup_job l = cleanup_job (lc w) -> Kept w -> Kept (w <| lc := l |>).
Proof.
  intros Hl Hw Ej []. split; cbn; rewrite ?Ej; try done.
  - intros g H. by destruct (Hl g).
  - intros _. auto.
  - intros g s _ H. by destruct (Hl g).
Qed.

Lemma kept_start_end g w :
  StartActivity g ∈ guards (heap w) -> is_Some (starters w !! g) -> Kept w ->
  Kept (end_guard (StartActivity g) (w <| starters ::= delete g |>)).
Proof.
  intros Hg [p Hp] []. split; try assumption.
  - intros g'. cbn. rewrite starts_remove by done. rewrite k_start0, lookup_delete.
    destruct (decide (g = g')) as [<-|Hne]; [by rewrite Hp, decide_True|].
    rewrite decide_False by congruence. lia.
  - intros g' t. rewrite known_drop. exact (k_runs0 g' t).
Qed.

Lemma kept_defer g batch w : Kept w -> Kept (defer_batch g batch w).
Proof. destruct batch; [done|]. by apply kept_hold. Qed.

Lemma request_starters g cause w : starters (request_cleanup g cause w) = starters w.
Proof. unfold request_cleanup. by destruct (begin_cleanup_with_cause _ _ _ _) as [[] ?]. Qed.

Lemma kept_start_abort g w w' : Kept w -> start_abort g w = Some w' -> Kept w'.
Proof.
  intros K. unfold start_abort. destruct (starters w !! g) as [p|] eqn:Ep; [|done].
  destruct p; try done; intros [= <-]; (apply kept_phase; [rewrite ?defer_starters; eauto|]); try done;
    by repeat apply kept_defer.
Qed.

Lemma kept_start_step required g w w' :
  Inv required w -> Kept w -> start_step required g w = Some w' -> Kept w'.
Proof.
  intros I K. unfold start_step. destruct (starters w !! g) as [p|] eqn:Ep; [|done].
  assert (forall q, Kept (set_phase g q w)) as Hset by (intros q; apply kept_phase; eauto).
  assert (StartActivity g ∈ guards (heap w)) as Hg by (by eapply (i_starter _ w I)).
  destruct p as [|spawned [|t todo]|[|t rest] supervised|[|t todo]| |[|t todo]| | |]; unfold when;
    try (case_match; [|done]); try (intros [= <-]; apply Hset).
  - unfold register_required_loops. case_bool_decide; [|done]. intros [= <-].
    apply kept_phase; [by eauto|]. by apply kept_lc.
  - intros [= <-]. apply kept_phase; [by eauto|]. apply kept_hold; [done|]. by eapply kept_ext, K.
  - unfold install_handles. case_bool_decide; [|done]. intros [= <-].
    apply kept_phase; [by eauto|]. by apply kept_lc.
  - intros [= <-]. apply kept_phase; [by eauto|]. apply kept_hold; [done|]. by eapply kept_ext, K.
  - case_match eqn:Er; [|intros [= <-]; apply Hset].
    unfold finish_start. destruct (bool_decide (state (lc w) = Starting g)) eqn:Es; [|done].
    apply bool_decide_eq_true in Es. simpl. destruct (negb (control_live _ _) || negb (all_approved _)); [done|]. intros [= <-].
    apply kept_phase; [by eauto|].
    assert (Kept (w <| lc := (lc w) <| state := Running g |> |>)) as K1 by (apply kept_up; cbn; congruence).
    by eapply kept_ext, K1.
  - intros [= <-]. apply kept_phase; [by eauto|]. by eapply kept_ext, K.
  - intros [= <-]. apply (kept_start_end g (w <| lc ::= mark_start_committed g |>)); [done|by eauto|].
    unfold mark_start_committed. apply kept_lc; [by case_match..|done].
  - intros [= <-]. apply kept_phase; [rewrite request_starters; by eauto|].
    rewrite (loops_same w). by eapply kept_request.
  - intros [= <-]. apply kept_start_end; eauto.
Qed.

(** *** Loops, runs *)

Lemma kept_watch g t p w : Kept w -> Kept (set_watch g t p w).
Proof. by apply kept_ext. Qed.

Lemma kept_fails required g w : Inv required w -> Kept w -> Kept (required_loop_failed g w).
Proof. intros I K. rewrite (loops_same w). by eapply kept_failed. Qed.

Lemma kept_watch_step required g t w w' :
  Inv required w -> Kept w -> watch_step g t w = Some w' -> Kept w'.
Proof.
  intros I K. unfold watch_step. pose proof (kept_fails required g w I K) as Kf.
  destruct (watchers w !! (g, t)) as [[]|]; [..|done].
  - case_match; [intros [= <-]; by apply kept_watch|].
    case_match; [intros [= <-]; by apply kept_watch|].
    unfold mark_required_loop_ready. destruct (bool_decide _ && _); intros [= <-]; by apply kept_watch, kept_lc.
  - case_match; [intros [= <-]; by apply kept_watch|].
    case_match; [intros [= <-]; by apply kept_watch|].
    unfold when. case_match; [|done]. intros [= <-]. by apply kept_watch.
  - unfold approve_required_loop_and_maybe_publish.
    destruct (bool_decide (state (lc w) = Starting g)) eqn:Es; simpl;
      [|intros [= <-]; apply kept_watch; by eapply kept_ext, K].
    apply bool_decide_eq_true in Es.
    destruct (negb (bool_decide _)); [|destruct (negb (all_approved _)); [|destruct (negb (control_live _ _))]];
      intros [= <-]; apply kept_watch; try (by eapply kept_ext, K).
    match goal with |- Kept (?u <| lc := ?l |> <| commit_outcome ::= _ |>) =>
      assert (Kept (u <| lc := l |>)) as K1 by (apply kept_up; cbn; congruence) end.
    by eapply kept_ext, K1.
  - case_match; [intros [= <-]; by apply kept_watch|].
    unfold when. case_match; [|done]. intros [= <-]. by apply kept_watch.
  - unfold when. case_match; [|done]. intros [= <-]. by eapply kept_ext, K.
Qed.

Lemma kept_release owned x w : (forall g, x <> StartActivity g) -> Kept w -> Kept (release_run owned x w).
Proof.
  intros Hx K. unfold release_run. destruct owned; [by apply kept_drop|].
  eapply kept_ext, K; try done. intros g. cbn. by apply starts_remove_other.
Qed.

Lemma kept_runs_step g t tok w w' :
  (exists r, run_turn g t tok r w = Some w') \/ run_abandon g t tok w = Some w' -> Kept w -> Kept w'.
Proof.
  intros H K. revert H. intros [[r H]|H]; revert H; [unfold run_turn|unfold run_abandon];
    (destruct (runs (heap w) !! (g, t)) as [s|]; [|done]); simpl; (case_match; [|done]).
  - destruct (end_run _ _ _ _) as [e s']. intros [= <-]. case_match; [apply kept_release; [done|]|]; by apply kept_run.
  - destruct (abandon _ _) as [ws s']. intros [= <-]. apply kept_release; [done|]. by apply kept_run.
Qed.

Lemma kept_run_claim g t force sender w w' : Kept w -> run_claim g t force sender w = Some w' -> Kept w'.
Proof.
  intros K. unfold run_claim. destruct (runs (heap w) !! (g, t)) as [s|]; [|done]. simpl.
  destruct (claim_run _ _ _ _) as [[] s']; intros [= <-]; [apply kept_hold; [done|]|..]; by apply kept_run.
Qed.

Lemma kept_activity w : Kept w -> Kept (activity_claim w).
Proof.
  intros K. unfold activity_claim, claim_generation_activity.
  assert (Kept (w <| heap := heap w |>)) as K0 by by eapply kept_ext, K.
  destruct (state (lc w)), (control (lc w)) as [g|]; try exact K0; by apply (kept_hold (Activity g) w).
Qed.

(** *** Cleaning up *)

Lemma kept_cleaner g res p p0 w :
  Kept w -> cleaners w !! g = Some (res, p0) -> open_clean p0 -> open_clean p -> Kept (set_cleaner g res p w).
Proof.
  intros [] Hc H0 Hp. split; try assumption; cbn.
  - intros g' Hs. destruct (k_stopping0 g' Hs) as [(res' & p' & ? & ? & ?)|]; [left|by right].
    destruct (decide (g = g')) as [<-|]; [exists res, p; by rewrite lookup_insert_eq|].
    exists res', p'. by rewrite lookup_insert_ne.
  - intros g' res' p'. rewrite lookup_insert. case_decide; [|apply k_open0]. subst. intros _ _. by eapply k_open0.
Qed.

Lemma kept_install g res w :
  Kept w -> cleaners w !! g = Some (res, CleanClosing []) ->
  Kept (set_cleaner g res CleanInstalled (install_slot g (w <| slots ::=
    insert g (new_slot {| job_handles := res_handles res; job_control := res_control res |}) |>))).
Proof.
  intros [] Hc. set (s := new_slot _). pose proof (k_open0 g _ _ Hc ltac:(done)) as Hn.
  set (w1 := w <| slots ::= insert g s |>). set (w2 := set_cleaner _ _ _ _).
  assert (state (lc w2) = state (lc w)) as Es by (unfold w2, install_slot; by case_match).
  assert (cleanup_job (lc w2) =
    if bool_decide (state (lc w) = Stopping g) && bool_decide (cleanup_job (lc w) = None) then Some g
    else cleanup_job (lc w)) as Ej by (unfold w2, install_slot; cbn; by case_match).
  assert (starters w2 = starters w /\ heap w2 = heap w /\ slots w2 = <[g := s]> (slots w) /\
    cleaners w2 = <[g := (res, CleanInstalled)]> (cleaners w) /\ workers w2 = workers w)
    as (Est & Eh & Esl & Ec & Ew) by (unfold w2, install_slot; destruct (_ && _); split_and!; reflexivity).
  clearbody w2. split; unfold taken, known in *; rewrite ?Es, ?Est, ?Eh, ?Esl, ?Ec, ?Ew; try done.
  - intros g' Hs. rewrite Ej. destruct (k_stopping0 g' Hs) as [(res' & p' & H1 & H2 & H3)|[H1 H2]].
    + destruct (decide (g = g')) as [<-|Hne].
      * right. rewrite lookup_insert_eq, Hs, H3. split; [|by eauto]. by rewrite !bool_decide_true.
      * left. exists res', p'. rewrite lookup_insert_ne by done.
        rewrite bool_decide_false by congruence. done.
    + right. rewrite H1, (bool_decide_false (Some g' = None)), andb_false_r by done.
      split; [done|]. rewrite lookup_insert. destruct (decide (g = g')); [by eexists|exact H2].
  - intros Hs. rewrite Ej, bool_decide_false by done. auto.
  - intros g' res' p'. rewrite !lookup_insert. destruct (decide (g = g')); [intros [= <- <-] Ho; by destruct Ho|]. apply k_open0.
  - intros g' s'. rewrite lookup_insert. destruct (decide (g = g')); [|apply k_job0]. intros [= <-] _. left. by eexists.
  - intros g' s'. rewrite lookup_insert. destruct (decide (g = g')); [by intros [= <-]|]. apply k_active0.
  - intros g' s'. rewrite lookup_insert. destruct (decide (g = g')); [by intros [= <-]|]. apply k_pending0.
Qed.

Lemma kept_clean_gone g res w :
  Kept w -> cleaners w !! g = Some (res, CleanInstalled) -> Kept (w <| cleaners ::= delete g |>).
Proof.
  intros [] Hc. split; try assumption; cbn.
  - intros g' Hs. destruct (k_stopping0 g' Hs) as [(res' & p' & H1 & H2 & H3)|]; [left|by right].
    exists res', p'. rewrite lookup_delete_ne; [done|]. intros ->. rewrite Hc in H1.
    injection H1 as <- <-. by destruct H2.
  - intros g' res' p'. rewrite lookup_delete. case_decide; [done|]. apply k_open0.
Qed.

Lemma known_cancel g w g' : known (w <| heap ::= cancel_control g |>) g' -> known w g'.
Proof. unfold known. cbn. rewrite lookup_alter. case_decide; [|done]. subst. by rewrite fmap_is_Some. Qed.

Lemma kept_clean_step g w w' : Kept w -> clean_step g w = Some w' -> Kept w'.
Proof.
  intros K. unfold clean_step. destruct (cleaners w !! g) as [[res p]|] eqn:Ec; [|done].
  destruct p as [| |[|t todo]|].
  - intros [= <-]. destruct (res_running res) as [r|]; [|by eapply kept_cleaner].
    eapply (kept_cleaner _ _ _ CleanRequested); [by eapply kept_ext, K|done..].
  - intros [= <-]. destruct (res_control res) as [c|]; [|by eapply kept_cleaner].
    eapply (kept_cleaner _ _ _ CleanFlagged); [|done..].
    eapply kept_ext, K; try done. apply known_cancel.
  - intros [= <-]. by apply kept_install.
  - destruct (res_run_states res) as [r|]; [|done]. simpl.
    destruct (runs (heap w) !! (r, t)) as [s|]; [|done]. simpl. intros [= <-].
    eapply (kept_cleaner _ _ _ (CleanClosing (t :: todo))); [by apply kept_run|done..].
  - intros [= <-]. pose proof (kept_clean_gone g res w K Ec) as K1. by eapply kept_ext, K1.
Qed.

(** *** Workers *)

(** The slot of [g] and one of its workers change. *)
Lemma kept_worker g n s s' ws w w' :
  lc w' = lc w /\ heap w' = heap w /\ starters w' = starters w /\ cleaners w' = cleaners w /\
  slots w' = <[g := s']> (slots w) /\ workers w' = ws ->
  slots w !! g = Some s ->
  (forall n', n' <> n -> ws !! n' = workers w !! n') ->
  (forall g' p, workers w !! n = Some (g', p) -> g' = g) ->
  (state (lc w) = Stopping g -> is_Some (job s') \/
     exists n, ws !! n = Some (g, WorkerDrained) \/ exists j, ws !! n = Some (g, WorkerDraining j)) ->
  (worker_active s' = true -> exists n p, ws !! n = Some (g, p) /\ p <> WorkerLaunched) ->
  (worker_pending s' <> 0 -> worker_pending s' = 1 /\ exists n, ws !! n = Some (g, WorkerLaunched)) ->
  Kept w -> Kept w'.
Proof.
  intros (El & Eh & Est & Ec & Esl & Ew) Hs Hws Hn Hj Ha Hp [].
  assert (forall n' g' p, g' <> g -> workers w !! n' = Some (g', p) -> ws !! n' = Some (g', p)) as Hk.
  { intros n' g' p Hne E. rewrite Hws; [done|]. intros ->. by destruct Hne, (Hn g' p E). }
  split; unfold taken, known in *; rewrite ?El, ?Eh, ?Est, ?Ec, ?Esl, ?Ew; try assumption.
  - intros g' E. destruct (k_stopping0 g' E) as [|[? ?]]; [by left|right]. split; [done|].
    rewrite lookup_insert. destruct (decide (g = g')); [by eexists|done].
  - intros g' res p Hc Ho. rewrite lookup_insert.
    destruct (decide (g = g')) as [<-|]; [|by eapply k_open0]. by rewrite (k_open0 g res p Hc Ho) in Hs.
  - intros g' s0. rewrite lookup_insert. destruct (decide (g = g')) as [<-|Hne]; [by intros [= <-]|].
    intros E1 E2. destruct (k_job0 g' s0 E1 E2) as [|(n' & [H|(j & H)])]; [by left|right..]; exists n'; [left|right];
      [|exists j]; by apply Hk.
  - intros g' s0. rewrite lookup_insert. destruct (decide (g = g')) as [<-|Hne]; [by intros [= <-]|].
    intros E1 E2. destruct (k_active0 g' s0 E1 E2) as (n' & p & ? & ?). exists n', p. split; [by apply Hk|done].
  - intros g' s0. rewrite lookup_insert. destruct (decide (g = g')) as [<-|Hne]; [by intros [= <-]|].
    intros E1 E2. destruct (k_pending0 g' s0 E1 E2) as (? & n' & ?). split; [done|]. exists n'. by apply Hk.
Qed.

Lemma reserve_some s s' :
  reserve_worker_launch s = Some s' ->
  worker_active s = false /\ is_Some (job s) /\ s' = s <| worker_pending := 1 |>.
Proof.
  unfold reserve_worker_launch. destruct (worker_active s); [done|]. destruct (negb _); [done|].
  simpl. case_bool_decide; [|done]. by intros [= <-].
Qed.

Lemma kept_worker_launch n g w w' : Kept w -> worker_launch n g w = Some w' -> Kept w'.
Proof.
  intros K (s & Es & H)%bind_Some. apply bind_Some in H as (s' & (Ea & Ej & ->)%reserve_some & H).
  revert H. unfold when. case_bool_decide as En; [|done]. intros [= <-].
  eapply (kept_worker g n s _ (<[n := (g, WorkerLaunched)]> (workers w)) w); [by split_and!|exact Es|..|exact K].
  - intros. by rewrite lookup_insert_ne.
  - intros g' p. by rewrite En.
  - by left.
  - cbn. by rewrite Ea.
  - intros _. split; [done|]. exists n. by rewrite lookup_insert_eq.
Qed.

Section OneWorker.
Context (n : nat) (g : Z) (s : CleanupJobSlot) (w : World) (p : WorkerPhase).
Hypotheses (K : Kept w) (Hs : slots w !! g = Some s) (Hn : workers w !! n = Some (g, p)).

(** What held of the slot without worker [n] holds when it is gone or goes on. *)
Lemma taken_by_other p' (ws : gmap nat (Z * WorkerPhase)) :
  (forall n', n' <> n -> ws !! n' = workers w !! n') ->
  state (lc w) = Stopping g -> p' = p -> match p' with WorkerDraining _ | WorkerDrained => False | _ => True end ->
  is_Some (job s) \/
  exists n, ws !! n = Some (g, WorkerDrained) \/ exists j, ws !! n = Some (g, WorkerDraining j).
Proof.
  intros Hws Es -> Hp. destruct (k_job _ K g s Hs Es) as [|(n' & H)]; [by left|right]. exists n'.
  rewrite Hws; [done|]. intros ->. destruct H as [H|[j H]]; rewrite Hn in H; by injection H as ->.
Qed.

Lemma active_by_other (ws : gmap nat (Z * WorkerPhase)) :
  (forall n', n' <> n -> ws !! n' = workers w !! n') -> p = WorkerLaunched ->
  worker_active s = true -> exists n p, ws !! n = Some (g, p) /\ p <> WorkerLaunched.
Proof.
  intros Hws -> Ha. destruct (k_active _ K g s Hs Ha) as (n' & q & H & Hq). exists n', q.
  rewrite Hws; [done|]. intros ->. rewrite Hn in H. by injection H as <-.
Qed.

Lemma pending_by_other (ws : gmap nat (Z * WorkerPhase)) :
  (forall n', n' <> n -> ws !! n' = workers w !! n') -> p <> WorkerLaunched ->
  worker_pending s <> 0 -> worker_pending s = 1 /\ exists n, ws !! n = Some (g, WorkerLaunched).
Proof.
  intros Hws Hp Ha. destruct (k_pending _ K g s Hs Ha) as (? & n' & H). split; [done|]. exists n'.
  rewrite Hws; [done|]. intros ->. rewrite Hn in H. injection H as E. by apply Hp.
Qed.

Lemma no_launch_left : worker_pending (drop_launch s) = 0.
Proof.
  cbn. unfold saturating_sub. destruct (decide (worker_pending s = 0)) as [->|Hne]; [done|].
  by destruct (k_pending _ K g s Hs Hne) as [-> _].
Qed.

Lemma insert_others q n' : n' <> n -> <[n := q]> (workers w) !! n' = workers w !! n'.
Proof. intros. by rewrite lookup_insert_ne. Qed.
Lemma delete_others n' : n' <> n -> delete n (workers w) !! n' = workers w !! n'.
Proof. intros. by rewrite lookup_delete_ne. Qed.
Lemma only_of_g g' q : workers w !! n = Some (g', q) -> g' = g.
Proof. rewrite Hn. by intros [= <- _]. Qed.
End OneWorker.

Ltac worker_changes ws w Es K :=
  eapply (kept_worker _ _ _ _ ws w);
    [by split_and!|exact Es
    |first [by apply insert_others|by apply delete_others]|eapply only_of_g; eassumption|..|exact K].

Lemma set_slot_id g s w : slots w !! g = Some s -> set_slot g s w = w.
Proof.
  intros H. change (w <| slots := <[g := s]> (slots w) |> = w). rewrite (insert_id (slots w)) by done.
  by destruct w.
Qed.

Lemma kept_finish g w :
  Kept w -> is_Some (slots w !! g) ->
  Kept (w <| lc := (complete_cleanup g (lc w)).2 |>) /\ state (complete_cleanup g (lc w)).2 <> Stopping g.
Proof.
  intros K [s Hs]. unfold complete_cleanup, finish_cleanup.
  assert (state (lc w) = Stopping g -> cleanup_job (lc w) = Some g) as Hg.
  { intros E. destruct (k_stopping _ K g E) as [(res & p & Hc & Ho & _)|[H _]]; [|done].
    by rewrite (k_open _ K g res p Hc Ho) in Hs. }
  assert (Kept (w <| lc := lc w |>)) as K0 by by eapply kept_ext, K.
  case_bool_decide as Ej; [|split; [exact K0|by intros E; apply Ej, Hg]].
  case_bool_decide as Es; cbn [negb snd]; [|by split].
  split; [|done]. destruct K. split; try assumption; try done.
Qed.

Lemma kept_worker_step n w w' : Kept w -> worker_step n w = Some w' -> Kept w'.
Proof.
  intros K ([g p] & En & H)%bind_Some. apply bind_Some in H as (s & Es & H). revert H.
  pose proof (insert_others n w) as Hi. pose proof (delete_others n w) as Hd.
  pose proof (only_of_g n g w p En) as Ho. destruct p as [| |j|].
  - pose proof (no_launch_left g s w K Es) as H0. unfold begin_worker.
    change (worker_active (drop_launch s)) with (worker_active s).
    change (job (drop_launch s)) with (job s). destruct (worker_active s) eqn:Ea; cbn [orb].
    + intros [= <-]. worker_changes (delete n (workers w)) w Es K.
      * intros E. by eapply (taken_by_other n g s w WorkerLaunched).
      * intros _. by eapply (active_by_other n g s w WorkerLaunched).
      * by rewrite H0.
    + destruct (bool_decide (is_Some (job s))) eqn:Ej; cbn [negb]; intros [= <-].
      * apply bool_decide_eq_true in Ej.
        worker_changes (<[n := (g, WorkerBegun)]> (workers w)) w Es K; [by left| |].
        -- intros _. exists n, WorkerBegun. by rewrite lookup_insert_eq.
        -- cbn -[drop_launch]. by rewrite H0.
      * worker_changes (delete n (workers w)) w Es K.
        -- intros E. by eapply (taken_by_other n g s w WorkerLaunched).
        -- cbn. by rewrite Ea.
        -- by rewrite H0.
  - unfold claim_job. destruct (job s) as [j|] eqn:Ej; intros [= <-].
    + worker_changes (<[n := (g, WorkerDraining j)]> (workers w)) w Es K.
      * intros _. right. exists n. right. exists j. by rewrite lookup_insert_eq.
      * intros _. exists n, (WorkerDraining j). by rewrite lookup_insert_eq.
      * by apply (pending_by_other n g s w WorkerBegun K Es En _ (Hi _)).
    + worker_changes (delete n (workers w)) w Es K.
      * intros E. pose proof (taken_by_other n g s w WorkerBegun K Es En WorkerBegun _ Hd E eq_refl I) as H.
        rewrite Ej in H. exact H.
      * done.
      * by eapply (pending_by_other n g s w WorkerBegun).
  - assert (forall q, q <> WorkerLaunched ->
      (q = WorkerDrained \/ exists j, q = WorkerDraining j) -> Kept (w <| workers ::= insert n (g, q) |>)) as H.
    { intros q Hq Hj. rewrite <-(set_slot_id g s (w <| workers ::= insert n (g, q) |>)) by done.
      worker_changes (<[n := (g, q)]> (workers w)) w Es K.
      - intros _. right. exists n. rewrite lookup_insert_eq. destruct Hj as [->|[j' ->]]; eauto.
      - intros _. exists n, q. by rewrite lookup_insert_eq.
      - by apply (pending_by_other n g s w (WorkerDraining j) K Es En _ (Hi _)). }
    unfold when. destruct (job_handles j) as [|[t g'] rest]; (case_match; [|done]); intros [= <-];
      apply H; eauto.
  - destruct (kept_finish g w K ltac:(by eexists)) as [K1 Hst].
    destruct (complete_cleanup g (lc w)) as [b l]. intros [= <-].
    eapply (kept_worker g n s _ (delete n (workers w)) (w <| lc := l |>)); [split_and!; done|exact Es|exact Hd|exact Ho|..|exact K1].
    + intros E. by destruct Hst.
    + done.
    + by apply (pending_by_other n g s w WorkerDrained K Es En _ Hd).
Qed.

Lemma kept_worker_abort n w w' : Kept w -> worker_abort n w = Some w' -> Kept w'.
Proof.
  intros K ([g p] & En & H)%bind_Some. apply bind_Some in H as (s & Es & H). revert H.
  pose proof (delete_others n w) as Hd. pose proof (only_of_g n g w p En) as Ho.
  destruct p as [| |j|]; [..|done]; intros [= <-];
    worker_changes (delete n (workers w)) w Es K.
  - intros E. by eapply (taken_by_other n g s w WorkerLaunched).
  - intros Ha. by eapply (active_by_other n g s w WorkerLaunched).
  - by rewrite (no_launch_left g s w K Es).
  - intros E. by eapply (taken_by_other n g s w WorkerBegun).
  - done.
  - by eapply (pending_by_other n g s w WorkerBegun).
  - intros _. left. unfold return_job, drop_worker. destruct (job s) eqn:E; cbn; rewrite ?E; by eexists.
  - done.
  - assert (worker_pending (drop_worker (return_job j s)) = worker_pending s) as ->
      by (unfold return_job; by destruct (job s)).
    by apply (pending_by_other n g s w (WorkerDraining j) K Es En _ Hd).
Qed.

(** *** Recovery *)

Lemma launch_job how ticket l h :
  cleanup_job (launch_recovery_handler how ticket l h).2.1 = cleanup_job l.
Proof.
  assert (cleanup_job (let '(next, l1) := reconcile_abandoned_recovery ticket l h
                       in (inl next : option RecoveryTicket + bool, (l1, h))).2.1 = cleanup_job l) as Ha.
  { by destruct (reconcile_core ticket l h) as (r & n & p & ->). }
  unfold launch_recovery_handler. destruct how; [exact Ha|..];
    (destruct (negb _); [done|]); [done|exact Ha|done].
Qed.

Lemma kept_recovery_launch k n how w w' : Kept w -> recovery_launch k n how w = Some w' -> Kept w'.
Proof.
  intros K. unfold recovery_launch. destruct (launching w !! k) as [ticket|]; [|done]. simpl.
  pose proof (launch_core how ticket (lc w) (heap w)) as Hc.
  pose proof (launch_job how ticket (lc w) (heap w)) as Hj.
  destruct (launch_recovery_handler how ticket (lc w) (heap w)) as [next [l h]]. simpl in Hj.
  destruct Hc as ((Es & _) & E1 & E2 & E3).
  assert (Kept (w <| lc := l |> <| heap := h |>)) as K1.
  { eapply kept_ext, K; try done; cbn; unfold known; cbn; by rewrite ?E1, ?E2, ?E3. }
  unfold when. destruct next as [next|[]]; [|case_match; [|done]|]; intros [= <-]; by eapply kept_ext, K1.
Qed.

Lemma kept_recovery_end n w w' : Kept w -> recovery_end n w = Some w' -> Kept w'.
Proof.
  intros K. unfold recovery_end. destruct (recoveries w !! n) as [ticket|]; [|done]. simpl.
  destruct (reconcile_core ticket (lc w) (heap w)) as (r & m & p & ->).
  intros [= <-]. by eapply kept_ext, K.
Qed.

(** *** Every step *)

Lemma kept_drop_when b x w w' :
  (forall g, x <> StartActivity g) -> Kept w -> when b (end_guard x w) = Some w' -> Kept w'.
Proof. intros Hx K. unfold when. destruct b; [|done]. intros [= <-]. by apply kept_drop. Qed.

Lemma kept_exec required a w w' : Inv required w -> Kept w -> exec required a w = Some w' -> Kept w'.
Proof.
  intros I K. destruct a; simpl.
  - intros [= <-]. by eapply kept_claim.
  - by apply (kept_refresh required).
  - by apply kept_drop_claim.
  - by apply (kept_start_step required).
  - by apply kept_start_abort.
  - unfold loop_exit, when. case_match; [|done]. intros [= <-]. by eapply kept_failed.
  - by apply kept_drop_when.
  - by apply (kept_watch_step required).
  - unfold watch_abort, when. case_match; [|done]. intros [= <-]. by eapply kept_ext, K.
  - by apply kept_drop_when.
  - by apply kept_drop_when.
  - by apply kept_run_claim.
  - intros H. eapply kept_runs_step, K. left. by eexists.
  - intros H. eapply kept_runs_step, K. by right.
  - intros [= <-]. by apply kept_activity.
  - by apply kept_drop_when.
  - intros [= <-]. by eapply kept_stop.
  - by apply kept_clean_step.
  - by apply kept_worker_launch.
  - by apply kept_worker_step.
  - by apply kept_worker_abort.
  - by apply kept_recovery_launch.
  - unfold recovery_start. destruct (recoveries w !! n); [|done]. simpl. unfold when.
    case_match; [|done]. intros [= <-]. by eapply kept_claim.
  - by apply kept_recovery_end.
Qed.

Lemma reachable_kept required w : rtc (step required) new_world w -> Inv required w /\ Kept w.
Proof.
  intros H. pattern w. eapply (rtc_ind_r _ new_world); [| |exact H].
  - split; [apply new_world_inv|apply new_world_kept].
  - intros u v _ [[a Ha] Hf] [I K]. split; [by eapply exec_inv|by eapply kept_exec].
Qed.
