(* ===== verification/SchedulerProgress.v ===== *)
(** The end of a cleanup can be reached from wherever a stopping scheduler is. *)
From coqutil Require Import Datatypes.RecordSettersUsingExistingGetters.
From stdpp Require Import gmap strings relations.
From S2P Require Import Prelude RustStr Models TaskRun Scheduler SchedulerSteps SchedulerSafety SchedulerTheorems SchedulerLiveness.
#[local] Open Scope list_scope.

Section Progress.
Context (required : list TaskId) (g : Z).

Definition can_stop (w : World) : Prop :=
  exists w', rtc (step required) w w' /\ state (lc w') = Stopped.

Record Ending (w : World) : Prop := {
  e_inv : Inv required w;
  e_kept : Kept w;
  e_state : state (lc w) = Stopping g;
  e_fits : fits w;
}.

Lemma can_stop_step a w w' :
  Ending w -> exec required a w = Some w' -> state (lc w') = Stopping g ->
  (length (guards (heap w')) <= length (guards (heap w)))%nat \/ fits w' ->
  (Ending w' -> can_stop w') -> can_stop w.
Proof.
  intros [I K Es Hf] Ha Es' Hg Hk.
  assert (fits w') as Hf' by (destruct Hg; [unfold fits in *; lia|done]).
  destruct Hk as (v & Hv & ?); [split; [by eapply exec_inv|by eapply kept_exec|done|done]|].
  exists v. split; [|done]. eapply rtc_l; [|done]. split; [by eexists|done].
Qed.

Lemma failed_same k w : state (lc w) = Stopping g -> required_loop_failed k w = w.
Proof.
  intros Es. unfold required_loop_failed. case_match; [done|]. unfold request_cleanup.
  destruct (begin_cleanup_not_up k UnexpectedRequiredLoop w) as (r & -> & Hr).
  { intros [E|E]; congruence. }
  destruct r; [done|..]; by destruct w.
Qed.

Lemma request_same k cause w : state (lc w) = Stopping g -> request_cleanup k cause w = w.
Proof.
  intros Es. unfold request_cleanup. destruct (begin_cleanup_not_up k cause w) as (r & -> & Hr).
  { intros [E|E]; congruence. }
  destruct r; [done|..]; by destruct w.
Qed.

(** ** The worker *)

Record Settled (w : World) : Prop := {
  s_ending : Ending w;
  s_loops : loops w = ∅;
  s_watchers : watchers w = ∅;
  s_guards : guards (heap w) = [];
}.

Lemma settled_step a w w' :
  Settled w -> exec required a w = Some w' -> state (lc w') = Stopping g ->
  loops w' = loops w -> watchers w' = watchers w -> guards (heap w') = guards (heap w) ->
  (Settled w' -> can_stop w') -> can_stop w.
Proof.
  intros [E Hl Hw Hg] Ha Es Hl' Hw' Hg' Hk. eapply can_stop_step; [exact E|exact Ha|exact Es|left; by rewrite Hg'|].
  intros E'. apply Hk. by split; [done|congruence..].
Qed.

(** An open cleaner has no slot yet, so the job of a slot is installed. *)
Lemma slot_installed w s : Kept w -> state (lc w) = Stopping g -> slots w !! g = Some s -> cleanup_job (lc w) = Some g.
Proof.
  intros K Es Hs. destruct (k_stopping _ K g Es) as [(res & p & Hc & Ho & _)|[H _]]; [|done].
  by rewrite (k_open _ K g res p Hc Ho) in Hs.
Qed.

Lemma stop_drained w n s :
  Settled w -> slots w !! g = Some s -> workers w !! n = Some (g, WorkerDrained) -> can_stop w.
Proof.
  intros [[I K Es Hf] _ _ Hg] Hs Hn. pose proof (slot_installed w s K Es Hs) as Ej.
  destruct (complete_cleanup g (lc w)) as [b l] eqn:Ec.
  exists (set_slot g (drop_worker s) (w <| lc := l |> <| workers ::= delete n |>)). split.
  - apply rtc_once. split.
    + exists (WorkerStep n). simpl. unfold worker_step. rewrite Hn. simpl. rewrite Hs. simpl. by rewrite Ec.
    + unfold fits. cbn. by rewrite Hg.
  - revert Ec. unfold complete_cleanup, finish_cleanup. rewrite Ej, Es, !bool_decide_true by done.
    by intros [= <- <-].
Qed.

Lemma stop_draining w n s j :
  Settled w -> slots w !! g = Some s -> workers w !! n = Some (g, WorkerDraining j) -> can_stop w.
Proof.
  destruct j as [hs c]. revert w. induction hs as [|[t g'] rest IH]; intros w S Hs Hn;
    pose proof (e_inv _ (s_ending _ S)) as I; pose proof (e_state _ (s_ending _ S)) as Es.
  - eapply (settled_step (WorkerStep n) w (w <| workers ::= insert n (g, WorkerDrained) |>)); try done.
    + destruct (i_worker _ w I n g _ Hn) as [_ Hc]. destruct (i_slot _ w I g s Hs) as [Hcan _].
      cbn in Hc. simpl. unfold worker_step. rewrite Hn. simpl. rewrite Hs. simpl. unfold when. rewrite Hc.
      destruct (controls (heap w) !! g) as [k|] eqn:Ek; [|done].
      by rewrite (i_count _ w I g k Ek), (s_guards _ S).
    + intros S'. eapply (stop_drained _ n s S'); [done|]. cbn. by rewrite lookup_insert_eq.
  - eapply (settled_step (WorkerStep n) w
      (w <| workers ::= insert n (g, WorkerDraining {| job_handles := rest; job_control := c |}) |>)); try done.
    + simpl. unfold worker_step. rewrite Hn. simpl. rewrite Hs. simpl. unfold when.
      by rewrite bool_decide_true by (by rewrite (s_watchers _ S)).
    + intros S'. eapply IH; [done..|]. cbn. by rewrite lookup_insert_eq.
Qed.

Lemma stop_taken w s : Settled w -> slots w !! g = Some s -> taken w g -> can_stop w.
Proof. intros S Hs (n & [H|[j H]]); [by eapply stop_drained|by eapply stop_draining]. Qed.

Lemma stop_begun w n s :
  Settled w -> slots w !! g = Some s -> workers w !! n = Some (g, WorkerBegun) -> can_stop w.
Proof.
  intros S Hs Hn. pose proof (e_kept _ (s_ending _ S)) as K. pose proof (e_state _ (s_ending _ S)) as Es.
  destruct (k_job _ K g s Hs Es) as [[j Hj]|Ht]; [|by eapply stop_taken].
  eapply (settled_step (WorkerStep n) w
    (set_slot g (s <| job := None |>) (w <| workers ::= insert n (g, WorkerDraining j) |>))); try done.
  - simpl. unfold worker_step. rewrite Hn. simpl. rewrite Hs. simpl. by rewrite Hj.
  - intros S'. eapply (stop_draining _ n (s <| job := None |>) j S'); cbn; by rewrite lookup_insert_eq.
Qed.

Lemma stop_idle w s :
  Settled w -> slots w !! g = Some s -> is_Some (job s) ->
  (worker_active s = false -> can_stop w) -> can_stop w.
Proof.
  intros S Hs Hj Hk. destruct (worker_active s) eqn:Ea; [|auto].
  destruct (k_active _ (e_kept _ (s_ending _ S)) g s Hs Ea) as (n & p & Hn & Hp).
  destruct p as [| |j|]; [done|by eapply stop_begun|by eapply stop_draining|by eapply stop_drained].
Qed.

Lemma stop_launched w n s :
  Settled w -> slots w !! g = Some s -> workers w !! n = Some (g, WorkerLaunched) -> can_stop w.
Proof.
  intros S Hs Hn. pose proof (e_kept _ (s_ending _ S)) as K. pose proof (e_state _ (s_ending _ S)) as Es.
  destruct (k_job _ K g s Hs Es) as [Hj|Ht]; [|by eapply stop_taken].
  apply (stop_idle w s S Hs Hj). intros Ea.
  eapply (settled_step (WorkerStep n) w
    (set_slot g (drop_launch s <| worker_active := true |>) (w <| workers ::= insert n (g, WorkerBegun) |>))); try done.
  - simpl. unfold worker_step. rewrite Hn. simpl. rewrite Hs. simpl. unfold begin_worker.
    change (worker_active (drop_launch s)) with (worker_active s). rewrite Ea.
    change (job (drop_launch s)) with (job s). by rewrite bool_decide_true.
  - intros S'. eapply (stop_begun _ n _ S'); cbn; by rewrite lookup_insert_eq.
Qed.

Lemma stop_slot w s : Settled w -> slots w !! g = Some s -> can_stop w.
Proof.
  intros S Hs. pose proof (e_kept _ (s_ending _ S)) as K. pose proof (e_state _ (s_ending _ S)) as Es.
  destruct (k_job _ K g s Hs Es) as [Hj|Ht]; [|by eapply stop_taken].
  apply (stop_idle w s S Hs Hj). intros Ea.
  destruct (Z.eqb_spec (worker_pending s) 0) as [Ep|Ep].
  - set (n := fresh (dom (workers w))).
    assert (workers w !! n = None) as Hn by (apply not_elem_of_dom, is_fresh).
    eapply (settled_step (WorkerLaunch n g) w
      (set_slot g (s <| worker_pending := 1 |>) (w <| workers ::= insert n (g, WorkerLaunched) |>))); try done.
    + simpl. unfold worker_launch. rewrite Hs. simpl. unfold reserve_worker_launch. rewrite Ea, Ep.
      rewrite bool_decide_true by done. simpl. unfold when. by rewrite bool_decide_true.
    + intros S'. eapply (stop_launched _ n _ S'); cbn; by rewrite lookup_insert_eq.
  - destruct (k_pending _ K g s Hs Ep) as [_ [n Hn]]. by eapply stop_launched.
Qed.

(** ** The cleaner *)

Lemma stop_installing w res :
  Settled w -> cleaners w !! g = Some (res, CleanClosing []) -> can_stop w.
Proof.
  intros S Hc. pose proof (e_state _ (s_ending _ S)) as Es.
  set (s := new_slot {| job_handles := res_handles res; job_control := res_control res |}).
  eapply (settled_step (CleanStep g) w
    (set_cleaner g res CleanInstalled (install_slot g (w <| slots ::= insert g s |>)))); try done;
    try (unfold install_slot; by case_match).
  - simpl. unfold clean_step. by rewrite Hc.
  - intros S'. eapply (stop_slot _ s S'). unfold install_slot. case_match; cbn; by rewrite lookup_insert_eq.
Qed.

Lemma stop_closing w res todo :
  Settled w -> cleaners w !! g = Some (res, CleanClosing todo) -> can_stop w.
Proof.
  revert w. induction todo as [|t todo IH]; intros w S Hc; [by eapply stop_installing|].
  pose proof (e_state _ (s_ending _ S)) as Es.
  destruct (i_cleaner _ w (e_inv _ (s_ending _ S)) g res _ Hc) as (Hk & _ & _ & Hr & _).
  destruct (k_runs _ (e_kept _ (s_ending _ S)) g t Hk) as [s Hs].
  eapply (settled_step (CleanStep g) w (set_cleaner g res (CleanClosing todo) (set_run g t (cancel_run s).2 w)));
    try done.
  - simpl. unfold clean_step. rewrite Hc, Hr. simpl. by rewrite Hs.
  - intros S'. apply (IH _ S'). cbn. by rewrite lookup_insert_eq.
Qed.

Lemma stop_flagged w res :
  Settled w -> cleaners w !! g = Some (res, CleanFlagged) -> can_stop w.
Proof.
  intros S Hc. pose proof (e_state _ (s_ending _ S)) as Es.
  eapply (settled_step (CleanStep g) w (set_cleaner g res
      (CleanClosing (if res_run_states res is Some _ then all_tasks else []))
      (match res_control res with Some c => w <| heap ::= cancel_control c |> | None => w end)));
    try done; try by destruct (res_control res).
  { simpl. unfold clean_step. by rewrite Hc. }
  intros S'. eapply (stop_closing _ res _ S'). destruct (res_control res); cbn; by rewrite lookup_insert_eq.
Qed.

Lemma stop_settled w : Settled w -> can_stop w.
Proof.
  intros S. pose proof (e_state _ (s_ending _ S)) as Es.
  destruct (k_stopping _ (e_kept _ (s_ending _ S)) g Es) as [(res & p & Hc & Ho & _)|[_ [s Hs]]];
    [|by eapply stop_slot].
  destruct p; [|by eapply stop_flagged|by eapply stop_closing|by destruct Ho].
  eapply (settled_step (CleanStep g) w (set_cleaner g res CleanFlagged
      (match res_running res with
       | Some r => w <| heap ::= fun h => h <| flags ::= insert r false |> |>
       | None => w end)));
    try done; try by destruct (res_running res).
  { simpl. unfold clean_step. by rewrite Hc. }
  intros S'. eapply (stop_flagged _ res S'). destruct (res_running res); cbn; by rewrite lookup_insert_eq.
Qed.

(** ** What is still alive *)

Definition is_start (x : Guard) : bool := match x with StartActivity _ => true | _ => false end.

Lemma length_removed x l : x ∈ l -> length l = S (length (remove_one x l)).
Proof.
  induction l as [|y l IH]; [by intros ?%elem_of_nil|]. intros Hx. simpl.
  destruct (decide (x = y)); [done|]. simpl. f_equal. apply IH. by apply elem_of_cons in Hx as [?|?].
Qed.

Record Watched (w : World) : Prop := {
  w_ending : Ending w;
  w_loops : loops w = ∅;
  w_watchers : watchers w = ∅;
}.

(** Whatever lives beside a start can end at once. *)
Lemma end_other w x :
  Watched w -> x ∈ guards (heap w) -> is_start x = false ->
  exists a w', exec required a w = Some w' /\ lc w' = lc w /\ loops w' = loops w /\ watchers w' = watchers w /\
    starters w' = starters w /\ guards (heap w') = remove_one x (guards (heap w)).
Proof.
  intros [[I K Es Hf] Hl Hw] Hx Hs.
  assert (holds_guard x w = true) as Hh by (by apply bool_decide_eq_true).
  assert (forall b, b = true -> exists w', when b (end_guard x w) = Some w' /\ lc w' = lc w /\ loops w' = loops w /\
    watchers w' = watchers w /\ starters w' = starters w /\ guards (heap w') = remove_one x (guards (heap w))) as H.
  { intros b ->. eexists. by split_and!. }
  destruct x as [k|k t|k t|k|k t tok|k]; [done|..].
  - exists (LoopDropped k t). apply H. by rewrite Hh, Hl.
  - exists (HandleDropped k t). apply H. by rewrite Hh, Hl, Hw.
  - exists (BatchDropped k). by apply H.
  - exists (RunAbandon k t tok). simpl. unfold run_abandon.
    destruct (runs (heap w) !! (k, t)) as [s|] eqn:Er.
    + simpl. rewrite Hh. destruct (abandon tok s) as [ws s']. eexists. split; [done|].
      unfold release_run. by case_match.
    + apply elem_of_run_guards in Hx. rewrite (i_no_runs _ w I k t Er) in Hx. by apply elem_of_nil in Hx.
  - exists (ActivityEnd k). by apply H.
Qed.

Lemma watched_step a w w' :
  Watched w -> exec required a w = Some w' -> state (lc w') = Stopping g -> loops w' = loops w ->
  watchers w' = watchers w ->
  (length (guards (heap w')) <= length (guards (heap w)))%nat \/ fits w' ->
  (Watched w' -> can_stop w') -> can_stop w.
Proof.
  intros [E Hl Hw] Ha Es Hl' Hw' Hg Hk. eapply can_stop_step; [exact E|exact Ha|exact Es|exact Hg|].
  intros E'. apply Hk. by split; [done|congruence..].
Qed.

Lemma stop_others w :
  Watched w ->
  (forall v, Watched v -> starters v = starters w -> (forall x, x ∈ guards (heap v) -> is_start x = true) ->
     can_stop v) ->
  can_stop w.
Proof.
  remember (length (guards (heap w))) as n eqn:En. revert w En.
  induction n as [n IH] using lt_wf_ind. intros w -> W Hk.
  destruct (decide (Forall (fun x => is_start x = true) (guards (heap w)))) as [Hall|Hex].
  - apply Hk; [done..|]. by apply Forall_forall.
  - apply not_Forall_Exists, Exists_exists in Hex as (x & Hx & Hs); [|apply _].
    apply not_true_is_false in Hs. destruct (end_other w x W Hx Hs) as (a & w' & Ha & El & Elo & Ew & Est & Eg).
    pose proof (length_removed x _ Hx).
    eapply (watched_step a w w' W Ha); [rewrite El; apply W|done|done|left; rewrite Eg; lia|].
    intros W'. eapply (IH (length (guards (heap w')))); [rewrite Eg; lia|done|done|].
    intros v Wv Ev. apply Hk; [done|by rewrite Ev].
Qed.

(** The start of the generation is the only one, if there is one. *)
Lemma only_start w :
  Watched w -> (forall x, x ∈ guards (heap w) -> is_start x = true) ->
  guards (heap w) = [] /\ starters w !! g = None \/
  guards (heap w) = [StartActivity g] /\ is_Some (starters w !! g).
Proof.
  intros [[I K Es Hf] _ _] Hall. pose proof (k_start _ K g) as Hc.
  assert (Forall (fun x => x = StartActivity g) (guards (heap w))) as Hg.
  { apply Forall_forall. intros x Hx. pose proof (guards_active _ w x I Hx) as Ha.
    unfold active_generation in Ha. rewrite Es in Ha. specialize (Hall x Hx).
    destruct x; try done. simpl in Ha. congruence. }
  assert (starts_of g (guards (heap w)) = length (guards (heap w))) as Hn.
  { clear -Hg. induction Hg as [|x l -> _ IH]; [done|]. rewrite starts_cons, decide_True by done. simpl. lia. }
  rewrite Hn in Hc. destruct (starters w !! g) as [p|].
  - right. split; [|by eexists]. destruct (guards (heap w)) as [|x [|]]; try done.
    apply Forall_cons in Hg as [-> _]. done.
  - left. by apply nil_length_inv in Hc.
Qed.

Lemma stop_released w :
  Watched w -> starters w !! g = None -> can_stop w.
Proof.
  intros W Hn. apply (stop_others w W). intros v Wv Ev Hall.
  destruct (only_start v Wv Hall) as [[Hg _]|[_ H]].
  - apply stop_settled. by destruct Wv.
  - rewrite Ev, Hn in H. by destruct H.
Qed.

Lemma stop_releasing w : Watched w -> starters w !! g = Some Releasing -> can_stop w.
Proof.
  intros W Hs. eapply (watched_step (StartStep g) w (end_guard (StartActivity g) (w <| starters ::= delete g |>)) W);
    try done; [simpl; unfold start_step; by rewrite Hs|apply W| |].
  - left. cbn. apply length_remove_one.
  - intros W'. apply (stop_released _ W'). cbn. by rewrite lookup_delete_eq.
Qed.

Lemma stop_aborting w : Watched w -> starters w !! g = Some Aborting -> can_stop w.
Proof.
  intros W Hs. pose proof (e_state _ (w_ending _ W)) as Es.
  eapply (watched_step (StartStep g) w (set_phase g Releasing w) W); try done; [|by left|].
  - simpl. unfold start_step. rewrite Hs. by rewrite request_same.
  - intros W'. apply (stop_releasing _ W'). cbn. by rewrite lookup_insert_eq.
Qed.

Lemma stop_watched w : Watched w -> can_stop w.
Proof.
  intros W. apply (stop_others w W). intros v Wv _ Hall.
  destruct (only_start v Wv Hall) as [[Hg Hn]|[Hg [p Hp]]]; [by apply stop_released|].
  assert (p = Aborting \/ p = Releasing \/ exists b1 b2,
            start_abort g v = Some (set_phase g Aborting (defer_batch g b1 (defer_batch g b2 v)))) as Hcases.
  { unfold start_abort. rewrite Hp. destruct p; auto; right; right.
    all: first [by exists [], [] | by eexists [], _ | by do 2 eexists]. }
  destruct Hcases as [->|[->|(b1 & b2 & Ha)]]; [by apply stop_aborting|by apply stop_releasing|].
  eapply (watched_step (StartAbort g) v _ Wv Ha).
  - cbn. rewrite !defer_lc. apply Wv.
  - by destruct b1, b2.
  - by destruct b1, b2.
  - right. unfold fits. assert (length (guards (heap (defer_batch g b1 (defer_batch g b2 v)))) <= 3)%nat as H
      by (destruct b1, b2; cbn; rewrite Hg; simpl; lia).
    cbn. unfold usize_max, u64_max. lia.
  - intros W'. apply (stop_aborting _ W'). cbn. by rewrite lookup_insert_eq.
Qed.

(** ** Loops and their watchers *)

Lemma stop_unlooped w : Ending w -> loops w = ∅ -> can_stop w.
Proof.
  remember (size (watchers w)) as n eqn:En. revert w En.
  induction n as [n IH] using lt_wf_ind. intros w -> E Hl.
  destruct (decide (watchers w = ∅)) as [Hw|Hw]; [by apply stop_watched|].
  apply map_choose in Hw as ((k & t) & p & Hp).
  eapply (can_stop_step (WatchAbort k t) w (w <| watchers ::= delete (k, t) |>) E); [|apply E|by left|].
  - simpl. unfold watch_abort, when. by rewrite bool_decide_true by (rewrite Hp; by eexists).
  - intros E'. eapply IH; [|done|done|done]. cbn.
    assert (size (watchers w) <> 0%nat) by (apply map_size_ne_0_lookup; exists (k, t); rewrite Hp; by eexists).
    rewrite map_size_delete_Some by (by rewrite Hp). lia.
Qed.

Lemma stop_ending w : Ending w -> can_stop w.
Proof.
  remember (size (loops w)) as n eqn:En. revert w En.
  induction n as [n IH] using lt_wf_ind. intros w -> E.
  destruct (decide (loops w = ∅)) as [Hl|Hl]; [by apply stop_unlooped|].
  apply set_choose_L in Hl as [[k t] Hk].
  set (w' := w <| loops ::= fun s => s ∖ {[ (k, t) ]} |>).
  eapply (can_stop_step (LoopExit k t) w w' E); [|apply E|by left|].
  - simpl. unfold loop_exit, when. rewrite bool_decide_true by done.
    rewrite failed_same; [done|apply E].
  - intros E'. eapply IH; [|done|done]. cbn.
    assert (size (loops w ∖ {[(k, t)]}) < size (loops w))%nat; [|done].
    apply subset_size. set_solver.
Qed.
End Progress.

(** C20: A generation that stops can always reach the stopped scheduler by steps
    of its own tasks, dropped ones included: no interleaving, dropped task, aborted worker or lost
    watcher leaves a cleanup that nobody can finish. *)
Theorem cleanup_can_finish (required : list TaskId) (w : World) (g : Z)
    (reached : rtc (step required) new_world w) (stopping : state (lc w) = Stopping g) :
  exists w', rtc (step required) w w' /\ state (lc w') = Stopped.
Proof.
  destruct (reachable_kept required w reached) as [I K]. apply (stop_ending required g w).
  split; [done..|]. destruct (rtc_inv_r _ _ reached) as [<-|(v & _ & _ & Hf)]; [|exact Hf].
  unfold fits. simpl. unfold usize_max, u64_max. lia.
Qed.
