(* ===== verification/NotificationPolicy.v ===== *)
(** services/notification/policy.rs: the notification each event becomes. *)
From stdpp Require Import strings.
From S2P Require Import Prelude RustStr External Models NotificationTypes.
#[local] Open Scope list_scope.

Record NotificationError := { ne_code : string; ne_message : string }.

Definition error_of (message : string) (e : NotificationValidationError) : NotificationError :=
  {| ne_code := nv_code e; ne_message := message |}.
Definition content_invalid (message : string) : NotificationError :=
  {| ne_code := "INVALID_NOTIFICATION_CONTENT"; ne_message := message |}.

Record PolicyContext := {
  pc_account_id : string;
  pc_session_epoch : Z;
  pc_source_event_id : string;
}.

Definition PolicyContext_new (account_id : string) (session_epoch : Z) (source : string)
    : outcome NotificationError PolicyContext :=
  let? _ := omap_err (error_of "通知账户范围无效") (scope_validate (AccountScope account_id)) in
  let? _ := guard ((MAX_JAVASCRIPT_SAFE_INTEGER <? session_epoch)
                   || negb (is_safe_notification_source_event_id source))
              (content_invalid "通知来源标识无效") in
  Ok {| pc_account_id := account_id; pc_session_epoch := session_epoch; pc_source_event_id := source |}.

Definition channel_name (c : NotificationChannel) : string :=
  match c with Api => "api" | Websocket => "websocket" end.

Definition environment_name (e : NotificationEnvironment) : string :=
  match e with
  | Production => "production" | Development => "development" | UnknownEnvironment => "unknown"
  end.

Definition rank_of_step (s : ClientNotificationFailedStep) : Z :=
  match s with StepConfig => 0 | StepProfiles => 1 | StepConnection => 2 | StepBootstrap => 3 end.
Definition step_name (s : ClientNotificationFailedStep) : string :=
  match s with
  | StepConfig => "config" | StepProfiles => "profiles" | StepConnection => "connection"
  | StepBootstrap => "bootstrap"
  end.

(** [slice::sort_by]: stable. *)
Fixpoint insert_by {A} (leb : A -> A -> bool) (x : A) (l : list A) : list A :=
  match l with
  | [] => [x]
  | y :: l' => if leb x y then x :: l else y :: insert_by leb x l'
  end.
Definition sort_by {A} (leb : A -> A -> bool) (l : list A) : list A := foldr (insert_by leb) [] l.

Definition normalize_steps (steps : list ClientNotificationFailedStep) : string :=
  String.concat "," (map step_name (sort_by (fun a b => rank_of_step a <=? rank_of_step b) steps)).

Definition validate_policy_identifier (value message : string) : outcome NotificationError unit :=
  guard (existsb colon (bytes_of value) || negb (is_safe_notification_source_event_id value))
    (content_invalid message).

Section Policy.
Context `{UuidText}.

Definition controlled_input (context : PolicyContext) (category : NotificationCategory)
    (kind : NotificationKind) (severity : NotificationSeverity)
    (content : outcome NotificationValidationError NotificationContent)
    (entity : option NotificationEntity) (action : option NotificationAction) (dedupe_key : string)
    : outcome NotificationError NotificationInput :=
  let? content := omap_err (error_of "通知内容无效") content in
  let input := {|
    in_scope := AccountScope (pc_account_id context); in_category := category; in_kind := kind;
    in_severity := severity; in_content := content; in_entity := entity; in_action := action;
    in_source_event_id := Some (pc_source_event_id context); in_dedupe_key := dedupe_key;
    in_session_epoch := Some (pc_session_epoch context) |} in
  let? _ := omap_err (error_of "通知输入无效") (input_validate input) in
  Ok input.

Definition order_terminal (context : PolicyContext) (order_id : string) (kind : NotificationKind)
    (severity : NotificationSeverity) (key title body suffix : string)
    : outcome NotificationError NotificationInput :=
  controlled_input context TradingCategory kind severity
    (NotificationContent_new key [("orderId", ScalarString order_id)] title body)
    (Some {| entity_type := EntityOrder; entity_id := order_id |})
    (Some (OpenTrading (Some order_id)))
    ("order:" +:+ order_id +:+ ":" +:+ suffix).

Definition order_filled (context : PolicyContext) (order_id : string)
    : outcome NotificationError NotificationInput :=
  order_terminal context order_id OrderFilled Success "order.filled" "订单已成交"
    "订单已完全成交，请前往交易页查看。" "filled".

Definition order_canceled (context : PolicyContext) (order_id : string)
    : outcome NotificationError NotificationInput :=
  order_terminal context order_id OrderCanceled Info "order.canceled" "订单已取消"
    "订单已取消，请前往交易页查看。" "canceled".

Definition order_rejected (context : PolicyContext) (order_id submission_id : option string)
    : outcome NotificationError NotificationInput :=
  let? identified :=
    match order_id with
    | Some order_id => Ok ([("orderId", ScalarString order_id)], order_id)
    | None =>
        let? submission_id := ok_or (content_invalid "订单提交标识无效") submission_id in
        let? _ := validate_policy_identifier submission_id "订单提交标识无效" in
        Ok ([("submissionId", ScalarString submission_id)], submission_id)
    end in
  let '(params, identity) := identified in
  controlled_input context TradingCategory OrderRejected ErrorSeverity
    (NotificationContent_new "order.rejected" params "订单被拒绝" "订单请求被交易端拒绝，请检查订单参数。")
    (option_map (fun id => {| entity_type := EntityOrder; entity_id := id |}) order_id)
    (Some (OpenTrading order_id))
    ("order:" +:+ identity +:+ ":rejected").

Definition risk_order_blocked (context : PolicyContext) (code : RiskViolationCode) (limit : option f64)
    : outcome NotificationError NotificationInput :=
  controlled_input context RiskAccount RiskOrderBlocked Warning
    (NotificationContent_new "risk.orderBlocked"
       (("violationCode", ScalarString (risk_code code))
        :: match limit with Some limit => [("limit", ScalarNumber limit)] | None => [] end)
       "订单被风控拦截" "请检查风控设置")
    None
    (Some (OpenAccountSettings RiskSection))
    ("risk:" +:+ pc_source_event_id context +:+ ":" +:+ risk_code code).

Definition session_expired (context : PolicyContext) : outcome NotificationError NotificationInput :=
  controlled_input context RiskAccount AccountSessionExpired Warning
    (NotificationContent_new "account.sessionExpired"
       [("accountId", ScalarString (pc_account_id context))] "账户会话已失效" "请检查账户 API 设置。")
    (Some {| entity_type := EntityAccount; entity_id := pc_account_id context |})
    (Some (OpenAccountSettings ApiSection))
    (pc_source_event_id context).

Definition client_account_failure (request : CreateClientNotificationRequest)
    : outcome NotificationError NotificationInput :=
  let? _ := omap_err (error_of "客户端通知请求无效") (client_request_validate request) in
  let suffix := match cr_kind request with
                | ClientRecoveryFailed => "recovery"
                | ClientReconciliationFailed => "reconciliation"
                end in
  let? context := PolicyContext_new (cr_account_id request) (cr_session_epoch request)
                    ("client:" +:+ cr_attempt_id request +:+ ":" +:+ suffix) in
  let failed_steps := normalize_steps (cr_failed_steps request) in
  let '(kind, severity, key, title, body) :=
    match cr_kind request with
    | ClientRecoveryFailed =>
        (AccountRecoveryFailed, ErrorSeverity, "account.recoveryFailed", "账户恢复失败",
         "请检查账户设置后重试。")
    | ClientReconciliationFailed =>
        (AccountReconciliationFailed, Critical, "account.reconciliationFailed", "账户对账失败",
         "请检查账户数据后重试。")
    end in
  controlled_input context RiskAccount kind severity
    (NotificationContent_new key [("failedSteps", ScalarString failed_steps)] title body)
    (Some {| entity_type := EntityAccount; entity_id := pc_account_id context |})
    (Some (OpenAccountSettings ApiSection))
    (pc_source_event_id context).

Definition connection_edge (context : PolicyContext) (channel : NotificationChannel)
    (incident_id : string) (recovered : bool) : outcome NotificationError NotificationInput :=
  let? _ := validate_policy_identifier incident_id "连接故障标识无效" in
  let '(kind, severity, key, title, body, suffix) :=
    if recovered
    then (ConnectionRecovered, Success, "connection.recovered", "连接已恢复", "交易连接已恢复。",
          "recovered")
    else (ConnectionUnavailable, ErrorSeverity, "connection.unavailable", "连接不可用",
          "交易连接暂时不可用，请检查网络或稍后重试。", "unavailable") in
  controlled_input context ConnectionSystem kind severity
    (NotificationContent_new key [("channel", ScalarString (channel_name channel))] title body)
    (Some {| entity_type := EntityConnection; entity_id := channel_name channel |})
    None
    ("connection:" +:+ channel_name channel +:+ ":" +:+ incident_id +:+ ":" +:+ suffix).

Definition environment_edge (context : PolicyContext) (environment : NotificationEnvironment)
    (environment_key incident_id : string) (recovered : bool)
    : outcome NotificationError NotificationInput :=
  let? _ := validate_policy_identifier incident_id "环境故障标识无效" in
  let? _ := validate_policy_identifier environment_key "环境标识无效" in
  let '(kind, severity, key, title, body, suffix) :=
    if recovered
    then (EnvironmentRecovered, Success, "environment.recovered", "环境已恢复",
          "当前交易环境已恢复。", "recovered")
    else (EnvironmentUnavailable, ErrorSeverity, "environment.unavailable", "环境不可达",
          "当前交易环境暂时不可达，请稍后重试。", "unavailable") in
  controlled_input context ConnectionSystem kind severity
    (NotificationContent_new key [("environment", ScalarString (environment_name environment))] title body)
    (Some {| entity_type := EntityEnvironment; entity_id := environment_key |})
    None
    ("environment:" +:+ environment_key +:+ ":" +:+ incident_id +:+ ":" +:+ suffix).
End Policy.
