(* ===== verification/NotificationFile.v ===== *)
(** services/notification.rs, the part that works on the stored document:
    retention, capacities, the index of source events, and what is rebuilt from
    the document when the service starts. *)
From coqutil Require Import Datatypes.RecordSettersUsingExistingGetters.
From stdpp Require Import gmap strings.
From S2P Require Import Prelude RustStr External Models NotificationTypes NotificationPolicy.
#[local] Open Scope list_scope.

#[export] Instance NotificationScope_countable : Countable NotificationScope.
Proof.
  refine (inj_countable' (fun s => match s with Global => None | AccountScope a => Some a end)
            (fun o => match o with None => Global | Some a => AccountScope a end) _).
  by intros [].
Defined.

Definition NOTIFICATION_SCHEMA_VERSION : Z := 1.
Definition MAX_NOTIFICATION_PARTITION_ITEMS : Z := 1000.
Definition MAX_NOTIFICATION_SOURCE_INDEX_PER_SCOPE : Z := 10000.
Definition MAX_NOTIFICATION_SOURCE_INDEX_TOTAL : Z := 50000.
Definition MAX_NOTIFICATION_FILE_BYTES : Z := 16 * 1024 * 1024.
Definition RETENTION_MS : Z := 90 * 24 * 60 * 60 * 1000.

(** ** The document (storage/notification_store.rs) *)

Record NotificationSourceEventIndexEntry := {
  se_scope : NotificationScope;
  se_source_event_id : string;
  se_notification_id : string;
}.
#[export] Instance NotificationSourceEventIndexEntry_eq_dec : EqDecision NotificationSourceEventIndexEntry.
Proof. solve_decision. Defined.

Record NotificationPartition := { pt_scope : NotificationScope; items : list NotificationRecord }.

Record NotificationFileV1 := {
  schema_version : Z;
  revision : Z;
  source_event_index : list NotificationSourceEventIndexEntry;
  partitions : list NotificationPartition;
}.

Definition NotificationFileV1_empty : NotificationFileV1 := {|
  schema_version := NOTIFICATION_SCHEMA_VERSION; revision := 0;
  source_event_index := []; partitions := [] |}.

(** A record of a partition, named as the index names it. *)
Abbreviation RecordKey := (NotificationScope * string)%type.

Definition entry_key (e : NotificationSourceEventIndexEntry) : RecordKey :=
  (se_scope e, se_notification_id e).

Definition lenz {A} (l : list A) : Z := Z.of_nat (List.length l).

(** The lexicographic order of creation time and identity. *)
Definition age_leb (a b : Z * string) : bool :=
  (a.1 <? b.1) || ((a.1 =? b.1) && match String.compare a.2 b.2 with Gt => false | _ => true end).
Definition age (r : NotificationRecord) : Z * string := (created_at_ms r, id r).

Definition is_expired (r : NotificationRecord) (now_ms : Z) : bool :=
  created_at_ms r <? saturating_sub now_ms RETENTION_MS.

Definition find_partition (s : NotificationScope) (file : NotificationFileV1) : option NotificationPartition :=
  List.find (fun p => bool_decide (pt_scope p = s)) (partitions file).

Definition partition_record_count (file : NotificationFileV1) (s : NotificationScope) : Z :=
  match find_partition s file with Some p => lenz (items p) | None => 0 end.

(** [required_scope.is_none_or(|scope| scope == s)]. *)
Definition in_scope_of (required : option NotificationScope) (s : NotificationScope) : bool :=
  match required with Some r => bool_decide (r = s) | None => true end.

Definition protects (protected_id : option string) (id : string) : bool :=
  match protected_id with Some p => p ==s id | None => false end.

(** ** What a housekeeping changed *)

Record HousekeepingMutation := { hk_count : Z; hk_scopes : list NotificationScope; hk_changed : bool }.

Definition no_mutation : HousekeepingMutation := {| hk_count := 0; hk_scopes := []; hk_changed := false |}.

Definition add_scope (s : NotificationScope) (l : list NotificationScope) : list NotificationScope :=
  if bool_decide (s ∈ l) then l else l ++ [s].

Definition note_scope (m : HousekeepingMutation) (s : NotificationScope) : HousekeepingMutation :=
  {| hk_count := hk_count m; hk_scopes := add_scope s (hk_scopes m); hk_changed := true |}.

Definition note_removed_record (m : HousekeepingMutation) (s : NotificationScope) : HousekeepingMutation :=
  note_scope {| hk_count := hk_count m + 1; hk_scopes := hk_scopes m; hk_changed := hk_changed m |} s.

Definition merge_mutation (a b : HousekeepingMutation) : HousekeepingMutation := {|
  hk_count := u64_saturating_add (hk_count a) (hk_count b);
  hk_scopes := foldl (fun l s => add_scope s l) (hk_scopes a) (hk_scopes b);
  hk_changed := hk_changed a || hk_changed b |}.

(** ** The index of source events *)

Definition file_keys (file : NotificationFileV1) : list RecordKey :=
  flat_map (fun p => map (fun r => (pt_scope p, id r)) (items p)) (partitions file).

Definition cleanup_source_event_index (file : NotificationFileV1)
    : list NotificationScope * NotificationFileV1 :=
  let keep e := bool_decide (entry_key e ∈ file_keys file) in
  (foldl (fun l e => if keep e then l else add_scope (se_scope e) l) [] (source_event_index file),
   file <| source_event_index ::= List.filter keep |>).

(** Records chosen for eviction leave with their index entries; a partition
    that is empty afterwards leaves too. *)
Definition without (targets : list RecordKey) (drop : NotificationPartition -> bool)
    (file : NotificationFileV1) : NotificationFileV1 :=
  file <| partitions ::= fun l =>
            List.filter (fun p => negb (drop p))
              (map (fun p => {| pt_scope := pt_scope p;
                                items := List.filter (fun r => negb (bool_decide ((pt_scope p, id r) ∈ targets)))
                                           (items p) |}) l) |>
       <| source_event_index ::= List.filter (fun e => negb (bool_decide (entry_key e ∈ targets))) |>.

Definition no_items (p : NotificationPartition) : bool := match items p with [] => true | _ => false end.

Definition Candidate : Type := (Z * string * NotificationScope)%type.
Definition candidate_key (c : Candidate) : RecordKey := let '(_, id, s) := c in (s, id).

Definition remove_record_candidates (candidates : list Candidate) (file : NotificationFileV1)
    : NotificationFileV1 :=
  without (map candidate_key candidates) no_items file.

Fixpoint select_until (limit current : Z) (l : list (NotificationRecord * Z)) : list NotificationRecord :=
  match l with
  | [] => []
  | (r, n) :: l' =>
      let current := saturating_sub current n in
      r :: (if current <=? limit then [] else select_until limit current l')
  end.

Definition evict_indexed_records_to_limit (required : option NotificationScope) (limit : Z)
    (protected_id : option string) (file : NotificationFileV1)
    : list NotificationRecord * NotificationFileV1 :=
  let entries := List.filter (fun e => in_scope_of required (se_scope e)) (source_event_index file) in
  if lenz entries <=? limit then ([], file)
  else
    let counted (k : RecordKey) := lenz (List.filter (fun e => bool_decide (entry_key e = k)) entries) in
    let candidates :=
      flat_map (fun p => if in_scope_of required (pt_scope p)
                         then List.filter (fun c => 0 <? c.2)
                                (map (fun r => (r, counted (pt_scope p, id r))) (items p))
                         else []) (partitions file) in
    let order (a b : NotificationRecord * Z) :=
      match protects protected_id (id a.1), protects protected_id (id b.1) with
      | false, true => true
      | true, false => false
      | _, _ => age_leb (age a.1) (age b.1)
      end in
    let selected := select_until limit (lenz entries) (sort_by order candidates) in
    let targets := map (fun r => (scope r, id r)) selected in
    let affected := map scope selected in
    (selected,
     without targets (fun p => no_items p && bool_decide (pt_scope p ∈ affected)) file).

Definition evict_noting (required : option NotificationScope) (limit : Z) (protected_id : option string)
    (s : NotificationFileV1 * HousekeepingMutation) : NotificationFileV1 * HousekeepingMutation :=
  let '(removed, file) := evict_indexed_records_to_limit required limit protected_id s.1 in
  (file, foldl (fun m r => note_removed_record m (scope r)) s.2 removed).

Definition scope_sort_key (s : NotificationScope) : string * string :=
  match s with Global => ("0", "") | AccountScope id => ("1", id) end.
Definition scope_leb (a b : NotificationScope) : bool :=
  let '(a1, a2) := scope_sort_key a in
  let '(b1, b2) := scope_sort_key b in
  match String.compare a1 b1 with
  | Lt => true
  | Gt => false
  | Eq => match String.compare a2 b2 with Gt => false | _ => true end
  end.

Definition enforce_source_index_caps (s : NotificationFileV1 * HousekeepingMutation)
    : NotificationFileV1 * HousekeepingMutation :=
  let scopes := remove_dups (map se_scope (source_event_index s.1)) in
  let count sc := lenz (List.filter (fun e => bool_decide (se_scope e = sc)) (source_event_index s.1)) in
  let over := sort_by scope_leb
                (List.filter (fun sc => MAX_NOTIFICATION_SOURCE_INDEX_PER_SCOPE <? count sc) scopes) in
  let s := foldl (fun s sc => evict_noting (Some sc) MAX_NOTIFICATION_SOURCE_INDEX_PER_SCOPE None s) s over in
  evict_noting None MAX_NOTIFICATION_SOURCE_INDEX_TOTAL None s.

(** [HashMap] of the sources seen. *)
Definition rebuild_seen_source_events (file : NotificationFileV1) : gset (NotificationScope * string) :=
  list_to_set (map (fun e => (se_scope e, se_source_event_id e)) (source_event_index file)).

(** ** Retention *)

Definition newest_first (a b : NotificationRecord) : bool := age_leb (age b) (age a).

Definition prune_items (now_ms : Z) (l : list NotificationRecord) : list NotificationRecord :=
  let kept := List.filter (fun r => negb (is_expired r now_ms)) l in
  if MAX_NOTIFICATION_PARTITION_ITEMS <? lenz kept
  then take (Z.to_nat MAX_NOTIFICATION_PARTITION_ITEMS) (sort_by newest_first kept)
  else kept.

Fixpoint note_times (n : nat) (m : HousekeepingMutation) (s : NotificationScope) : HousekeepingMutation :=
  match n with O => m | S n => note_times n (note_removed_record m s) s end.

Definition is_orphan (configured : gset string) (p : NotificationPartition) : bool :=
  match pt_scope p with Global => false | AccountScope id => negb (bool_decide (id ∈ configured)) end.

Definition note_orphan (m : HousekeepingMutation) (p : NotificationPartition) : HousekeepingMutation :=
  match items p with
  | [] => note_scope m (pt_scope p)
  | l => note_times (List.length l) m (pt_scope p)
  end.

Definition prune_file (configured : option (gset string)) (now_ms : Z) (file : NotificationFileV1)
    : NotificationFileV1 * HousekeepingMutation :=
  let pruned := map (fun p => {| pt_scope := pt_scope p; items := prune_items now_ms (items p) |})
                  (partitions file) in
  let m := foldl (fun m p => note_times (List.length (items p) - List.length (prune_items now_ms (items p)))%nat
                               m (pt_scope p)) no_mutation (partitions file) in
  let '(kept, m) :=
    match configured with
    | Some configured =>
        (List.filter (fun p => negb (is_orphan configured p)) pruned,
         foldl note_orphan m (List.filter (is_orphan configured) pruned))
    | None => (pruned, m)
    end in
  let kept := List.filter (fun p => negb (no_items p) || negb (bool_decide (pt_scope p ∈ hk_scopes m))) kept in
  let '(scopes, file) := cleanup_source_event_index (file <| partitions := kept |>) in
  enforce_source_index_caps (file, foldl note_scope m scopes).

(** The oldest record of the required scope, with its position. *)
Definition positions (required : option NotificationScope) (file : NotificationFileV1)
    : list (nat * nat * NotificationRecord) :=
  concat (imap (fun i p => if in_scope_of required (pt_scope p)
                           then imap (fun j r => (i, j, r)) (items p) else []) (partitions file)).

Definition oldest_of (required : option NotificationScope) (file : NotificationFileV1)
    : option (nat * nat * NotificationRecord) :=
  foldl (fun best c => match best with
                       | Some b => if age_leb (age b.2) (age c.2) then best else Some c
                       | None => Some c
                       end) None (positions required file).

Definition remove_at (i j : nat) (file : NotificationFileV1) : NotificationFileV1 :=
  file <| partitions ::= alter (fun p => {| pt_scope := pt_scope p; items := delete j (items p) |}) i |>.

Definition evict_oldest_record (required : option NotificationScope) (file : NotificationFileV1)
    : option (NotificationScope * NotificationFileV1) :=
  match oldest_of required file with
  | Some (i, j, _) =>
      match partitions file !! i with
      | Some p =>
          let file := remove_at i j file in
          let file := match items p with
                      | [_] => file <| partitions ::= delete i |>
                      | _ => file
                      end in
          Some (pt_scope p, (cleanup_source_event_index file).2)
      | None => None
      end
  | None => None
  end.

(** ** Publishing into the document *)

Record PreparedPublish := {
  pp_record : NotificationRecord;
  pp_change : NotificationChange;
  pp_toast_candidate : option NotificationToastCandidate;
  pp_source_entry : option NotificationSourceEventIndexEntry;
}.

Definition state_conflict : NotificationError :=
  {| ne_code := "NOTIFICATION_STATE_CONFLICT"; ne_message := "通知状态已发生冲突" |}.
Definition revision_exhausted : NotificationError :=
  {| ne_code := "NOTIFICATION_REVISION_EXHAUSTED"; ne_message := "通知修订号已达上限" |}.
Definition file_capacity_exceeded : NotificationError :=
  {| ne_code := "NOTIFICATION_FILE_CAPACITY_EXCEEDED"; ne_message := "通知存储容量已满" |}.
Definition index_capacity_exceeded : NotificationError :=
  {| ne_code := "NOTIFICATION_SOURCE_INDEX_CAPACITY_EXCEEDED"; ne_message := "通知来源索引容量已满" |}.

Definition source_key (input : NotificationInput) : option (NotificationScope * string) :=
  option_map (pair (in_scope input)) (in_source_event_id input).

Definition semantic_target (input : NotificationInput) (file : NotificationFileV1)
    : option NotificationRecord :=
  match find_partition (in_scope input) file with
  | Some p => List.find (fun r => dedupe_key r ==s in_dedupe_key input) (items p)
  | None => None
  end.

Definition u32_checked_succ (z : Z) : option Z := u32_checked_add z 1.

Section Publish.
Context `{UuidText}.

(** [new_id] is the identity [Uuid::new_v4] would give. *)
Definition prepare_publish_record (file : NotificationFileV1) (input : NotificationInput) (now_ms : Z)
    (new_id : string) : outcome NotificationError PreparedPublish :=
  let? prepared :=
    match semantic_target input file with
    | Some existing =>
        let? count := ok_or {| ne_code := "NOTIFICATION_OCCURRENCE_OVERFLOW";
                               ne_message := "通知出现次数已达上限" |}
                        (u32_checked_succ (occurrence_count existing)) in
        let r := existing <| category := in_category input |> <| kind := in_kind input |>
                   <| severity := in_severity input |> <| content := in_content input |>
                   <| entity := in_entity input |> <| action := in_action input |>
                   <| occurrence_count := count |>
                   <| updated_at_ms := Z.max now_ms (updated_at_ms existing) |> in
        let? _ := omap_err (error_of "通知记录无效") (record_validate r) in
        Ok (r, Updated, None)
    | None =>
        let r := {|
          id := new_id; scope := in_scope input; category := in_category input; kind := in_kind input;
          severity := in_severity input; content := in_content input; entity := in_entity input;
          action := in_action input; source_event_id := in_source_event_id input;
          dedupe_key := in_dedupe_key input; occurrence_count := 1; created_at_ms := now_ms;
          updated_at_ms := now_ms; read_at_ms := None |} in
        let? _ := omap_err (error_of "通知记录无效") (record_validate r) in
        Ok (r, Created,
            Some {| toast_id := id r; toast_scope := scope r; toast_session_epoch := in_session_epoch input;
                    toast_category := category r; toast_severity := severity r;
                    toast_content := content r; toast_action := action r |})
    end in
  let '(r, change, toast) := prepared in
  Ok {| pp_record := r; pp_change := change; pp_toast_candidate := toast;
        pp_source_entry :=
          option_map (fun k => {| se_scope := k.1; se_source_event_id := k.2; se_notification_id := id r |})
            (source_key input) |}.
End Publish.

(** [partition_mut(file, scope).items.push(record)]. *)
Fixpoint push_record (r : NotificationRecord) (l : list NotificationPartition) : list NotificationPartition :=
  match l with
  | [] => [{| pt_scope := scope r; items := [r] |}]
  | p :: l' =>
      if bool_decide (pt_scope p = scope r) then {| pt_scope := pt_scope p; items := items p ++ [r] |} :: l'
      else p :: push_record r l'
  end.

Fixpoint replace_first (i : string) (r : NotificationRecord) (l : list NotificationRecord)
    : option (list NotificationRecord) :=
  match l with
  | [] => None
  | x :: l' => if id x ==s i then Some (r :: l') else option_map (cons x) (replace_first i r l')
  end.

(** The first partition of the scope, the first record of the identity. *)
Fixpoint replace_record (r : NotificationRecord) (l : list NotificationPartition)
    : option (list NotificationPartition) :=
  match l with
  | [] => None
  | p :: l' =>
      if bool_decide (pt_scope p = scope r)
      then option_map (fun l => {| pt_scope := pt_scope p; items := l |} :: l') (replace_first (id r) r (items p))
      else option_map (cons p) (replace_record r l')
  end.

Definition apply_prepared_to_file (prepared : PreparedPublish) (file : NotificationFileV1)
    : outcome NotificationError NotificationFileV1 :=
  let? file :=
    match pp_change prepared with
    | Created => Ok (file <| partitions ::= push_record (pp_record prepared) |>)
    | Updated =>
        let? l := ok_or state_conflict (replace_record (pp_record prepared) (partitions file)) in
        Ok (file <| partitions := l |>)
    | Removed | Reset => Err state_conflict
    end in
  Ok (file <| source_event_index ::= fun l => l ++ option_list (pp_source_entry prepared) |>).

Definition can_reduce_source_index_without_record (required : option NotificationScope) (limit : Z)
    (protected_id : string) (file : NotificationFileV1) : bool :=
  let entries := List.filter (fun e => in_scope_of required (se_scope e)) (source_event_index file) in
  (lenz entries <=? limit)
  || (lenz (List.filter (fun e => se_notification_id e ==s protected_id) entries) <=? limit).

(** Room for one more record; the fuel is the number of records, one of which
    goes at each turn. *)
Fixpoint make_room (fuel : nat) (s : NotificationScope) (st : NotificationFileV1 * HousekeepingMutation)
    : NotificationFileV1 * HousekeepingMutation :=
  match fuel with
  | O => st
  | S fuel =>
      if MAX_NOTIFICATION_PARTITION_ITEMS <=? partition_record_count st.1 s
      then match evict_oldest_record (Some s) st.1 with
           | Some (removed, file) => make_room fuel s (file, note_removed_record st.2 removed)
           | None => st
           end
      else st
  end.

Definition prepare_file_for_publish (input : NotificationInput) (now_ms : Z) (file : NotificationFileV1)
    : outcome NotificationError (NotificationFileV1 * HousekeepingMutation) :=
  let '(file, mutation) := prune_file None now_ms file in
  let protected_id := option_map id (semantic_target input file) in
  let scope_limit := saturating_sub MAX_NOTIFICATION_SOURCE_INDEX_PER_SCOPE 1 in
  let total_limit := saturating_sub MAX_NOTIFICATION_SOURCE_INDEX_TOTAL 1 in
  let? st :=
    match in_source_event_id input with
    | Some _ =>
        let? _ := guard (match protected_id with
                         | Some id =>
                             negb (can_reduce_source_index_without_record (Some (in_scope input)) scope_limit id file)
                             || negb (can_reduce_source_index_without_record None total_limit id file)
                         | None => false
                         end) index_capacity_exceeded in
        let st := evict_noting (Some (in_scope input)) scope_limit protected_id (file, mutation) in
        Ok (evict_noting None total_limit protected_id st)
    | None => Ok (file, mutation)
    end in
  match semantic_target input st.1 with
  | Some _ => Ok st
  | None => Ok (make_room (List.length (file_keys st.1)) (in_scope input) st)
  end.

(** ** The size of the document *)

Section Size.
(** Whether the serialized document keeps within [MAX_NOTIFICATION_FILE_BYTES]. *)
Context (file_fits : NotificationFileV1 -> bool).

Definition bump (n : Z) (file : NotificationFileV1) : outcome NotificationError NotificationFileV1 :=
  let? r := ok_or revision_exhausted (u64_checked_add (revision file) n) in
  Ok (file <| revision := r |>).

Definition serialized_file_fits_after_eviction (original : NotificationFileV1)
    (candidates : list Candidate) (revision_increment : Z) : outcome NotificationError bool :=
  let? trial := bump revision_increment (remove_record_candidates candidates original) in
  Ok (file_fits trial).

Definition prepared_file_fits_after_eviction (original : NotificationFileV1) (prepared : PreparedPublish)
    (candidates : list Candidate) (revision_increment : Z) : outcome NotificationError bool :=
  let? trial := apply_prepared_to_file prepared (remove_record_candidates candidates original) in
  let? trial := bump revision_increment trial in
  Ok (file_fits trial).

Definition candidate_leb (a b : Candidate) : bool :=
  let '(t, i, _) := a in let '(t', i', _) := b in age_leb (t, i) (t', i').

Definition eviction_candidates (keep : option string) (file : NotificationFileV1) : list Candidate :=
  sort_by candidate_leb
    (flat_map (fun p => map (fun r => (created_at_ms r, id r, pt_scope p))
                          (List.filter (fun r => negb (protects keep (id r))) (items p)))
       (partitions file)).

(** [while lower + 1 < upper]: the fuel is the distance, which shrinks. *)
Fixpoint bisect (fuel : nat) (fits : nat -> outcome NotificationError bool) (lower upper : nat)
    : outcome NotificationError nat :=
  match fuel with
  | O => Ok upper
  | S fuel =>
      if Nat.ltb (lower + 1) upper then
        let middle := (lower + Nat.div (upper - lower) 2)%nat in
        let? fit := fits middle in
        if fit then bisect fuel fits lower middle else bisect fuel fits middle upper
      else Ok upper
  end.

Definition note_candidates (m : HousekeepingMutation) (l : list Candidate) : HousekeepingMutation :=
  foldl (fun m c => note_removed_record m (candidate_key c).1) m l.

Definition reserve_serialized_capacity_for_publish (prepared : PreparedPublish)
    (st : NotificationFileV1 * HousekeepingMutation)
    : outcome NotificationError (NotificationFileV1 * HousekeepingMutation) :=
  let '(file, mutation) := st in
  let? fit := prepared_file_fits_after_eviction file prepared [] (if hk_changed mutation then 2 else 1) in
  if fit then Ok st
  else
    let keep := if bool_decide (pp_change prepared = Updated) then Some (id (pp_record prepared)) else None in
    let candidates := eviction_candidates keep file in
    let fits n := prepared_file_fits_after_eviction file prepared (take n candidates) 2 in
    let? _ := guard (bool_decide (candidates = [])) file_capacity_exceeded in
    let? fit := fits (List.length candidates) in
    let? _ := guard (negb fit) file_capacity_exceeded in
    let? n := bisect (List.length candidates) fits 0 (List.length candidates) in
    let selected := take n candidates in
    Ok (remove_record_candidates selected file, note_candidates mutation selected).

(** Doubling until it fits: the fuel is the number of candidates. *)
Fixpoint gallop (fuel : nat) (fits : nat -> outcome NotificationError bool) (total lower upper : nat)
    : outcome NotificationError (nat * nat) :=
  match fuel with
  | O => Err file_capacity_exceeded
  | S fuel =>
      let? fit := fits upper in
      if fit then Ok (lower, upper)
      else if Nat.eqb upper total then Err file_capacity_exceeded
      else gallop fuel fits total upper (Nat.min (upper * 2) total)
  end.

Definition enforce_serialized_file_cap (persists_revision : bool)
    (st : NotificationFileV1 * HousekeepingMutation)
    : outcome NotificationError (NotificationFileV1 * HousekeepingMutation) :=
  let '(file, mutation) := st in
  let? fit := serialized_file_fits_after_eviction file []
                (if persists_revision && hk_changed mutation then 1 else 0) in
  if fit then Ok st
  else
    let candidates := eviction_candidates None file in
    let fits n := serialized_file_fits_after_eviction file (take n candidates)
                    (if persists_revision then 1 else 0) in
    let? _ := guard (bool_decide (candidates = [])) file_capacity_exceeded in
    let? bounds := gallop (S (List.length candidates)) fits (List.length candidates) 0 1 in
    let '(lower, upper) := bounds in
    let? n := bisect (List.length candidates) fits lower upper in
    let selected := take n candidates in
    Ok (remove_record_candidates selected file, note_candidates mutation selected).
End Size.
