(* ===== verification/NotificationIncidents.v ===== *)
(** services/notification.rs: the incidents and orders a service finds in the
    stored document, and the order of the index that tells them apart. *)
From coqutil Require Import Datatypes.RecordSettersUsingExistingGetters.
From stdpp Require Import gmap strings.
From S2P Require Import Prelude RustStr External Models NotificationTypes NotificationPolicy NotificationFile.
#[local] Open Scope list_scope.

Inductive IncidentKey :=
| ConnectionKey (account_id : string) (channel : NotificationChannel)
| EnvironmentKey (account_id environment_key : string).
#[export] Instance IncidentKey_eq_dec : EqDecision IncidentKey.
Proof. solve_decision. Defined.
#[export] Instance IncidentKey_countable : Countable IncidentKey.
Proof.
  refine (inj_countable'
    (fun k => match k with
              | ConnectionKey a Api => (a, inl true) | ConnectionKey a Websocket => (a, inl false)
              | EnvironmentKey a e => (a, inr e)
              end)
    (fun p => match p with
              | (a, inl true) => ConnectionKey a Api | (a, inl false) => ConnectionKey a Websocket
              | (a, inr e) => EnvironmentKey a e
              end) _).
  by intros [? []|].
Defined.

Record IncidentHistoryEdge := {
  ed_key : IncidentKey;
  ed_incident_id : string;
  ed_unavailable : bool;
  ed_created_at_ms : Z;
  ed_record_id : string;
  ed_creation_position : option nat;
}.

Definition owner_of (k : IncidentKey) : string :=
  match k with ConnectionKey a _ | EnvironmentKey a _ => a end.

(** The key a record of an incident belongs to. *)
Definition incident_key (account_id : string) (r : NotificationRecord) : option IncidentKey :=
  match kind r with
  | ConnectionUnavailable | ConnectionRecovered =>
      match params_get "channel" (params (content r)) with
      | Some (ScalarString channel) =>
          if channel ==s "api" then Some (ConnectionKey account_id Api)
          else if channel ==s "websocket" then Some (ConnectionKey account_id Websocket)
          else None
      | _ => None
      end
  | EnvironmentUnavailable | EnvironmentRecovered =>
      match entity r with
      | Some {| entity_type := EntityEnvironment; entity_id := i |} => Some (EnvironmentKey account_id i)
      | _ =>
          match params_get "environment" (params (content r)) with
          | Some (ScalarString value) => Some (EnvironmentKey account_id ("legacy-" +:+ value))
          | _ => None
          end
      end
  | _ => None
  end.

Definition incident_history_edge (r : NotificationRecord) (position : option nat)
    : option IncidentHistoryEdge :=
  match scope r with
  | AccountScope account_id =>
      match split_on colon (dedupe_key r) !! 2%nat with
      | Some incident_id =>
          if is_empty incident_id then None
          else option_map (fun key => {|
                 ed_key := key; ed_incident_id := incident_id;
                 ed_unavailable := bool_decide (kind r = ConnectionUnavailable)
                                   || bool_decide (kind r = EnvironmentUnavailable);
                 ed_created_at_ms := created_at_ms r; ed_record_id := id r;
                 ed_creation_position := position |}) (incident_key account_id r)
      | None => None
      end
  | Global => None
  end.

(** [records_by_id]: of records with one identity the last is kept. *)
Definition all_records (file : NotificationFileV1) : list NotificationRecord :=
  flat_map items (partitions file).
Definition record_by_id (i : string) (file : NotificationFileV1) : option NotificationRecord :=
  List.find (fun r => id r ==s i) (rev (all_records file)).

Definition creates (r : NotificationRecord) (e : NotificationSourceEventIndexEntry) : bool :=
  bool_decide (scope r = se_scope e) && bool_decide (source_event_id r = Some (se_source_event_id e)).

(** The first position of the entry of a record's creation. *)
Fixpoint creation_position_from (n : nat) (i : string) (file : NotificationFileV1)
    (l : list NotificationSourceEventIndexEntry) : option nat :=
  match l with
  | [] => None
  | e :: l' =>
      if (se_notification_id e ==s i)
         && match record_by_id i file with Some r => creates r e | None => false end
      then Some n
      else creation_position_from (S n) i file l'
  end.
Definition creation_position (i : string) (file : NotificationFileV1) : option nat :=
  creation_position_from 0 i file (source_event_index file).

Definition incident_edges (file : NotificationFileV1) : list IncidentHistoryEdge :=
  omap (fun r => incident_history_edge r (creation_position (id r) file)) (all_records file).

Definition needs_fallback (edges : list IncidentHistoryEdge) (k : IncidentKey) : bool :=
  existsb (fun e => bool_decide (ed_key e = k) && bool_decide (ed_creation_position e = None)) edges.

Definition position_leb (a b : IncidentHistoryEdge) : bool :=
  match ed_creation_position a, ed_creation_position b with
  | Some x, Some y => Nat.leb x y
  | Some _, None => true
  | None, Some _ => false
  | None, None => true
  end.

(** [created_at_ms], then the record, then the incident. *)
Definition legacy_leb (a b : IncidentHistoryEdge) : bool :=
  (ed_created_at_ms a <? ed_created_at_ms b)
  || ((ed_created_at_ms a =? ed_created_at_ms b)
      && match String.compare (ed_record_id a) (ed_record_id b) with
         | Lt => true
         | Gt => false
         | Eq => match String.compare (ed_incident_id a) (ed_incident_id b) with Gt => false | _ => true end
         end).

(** [Iterator::max_by]: of equal elements the last. *)
Definition max_edge (l : list IncidentHistoryEdge) : option IncidentHistoryEdge :=
  foldl (fun best e => match best with
                       | Some b => if legacy_leb b e then Some e else best
                       | None => Some e
                       end) None l.

Definition follow_edge (m : gmap IncidentKey string) (e : IncidentHistoryEdge) : gmap IncidentKey string :=
  if ed_unavailable e then <[ed_key e := ed_incident_id e]> m
  else if bool_decide (m !! ed_key e = Some (ed_incident_id e)) then delete (ed_key e) m else m.

Definition of_key (k : IncidentKey) (edges : list IncidentHistoryEdge) : list IncidentHistoryEdge :=
  List.filter (fun e => bool_decide (ed_key e = k)) edges.
Definition recovered_in (edges : list IncidentHistoryEdge) (i : string) : bool :=
  existsb (fun e => negb (ed_unavailable e) && (ed_incident_id e ==s i)) edges.
Definition unavailable_in (edges : list IncidentHistoryEdge) (i : string) : bool :=
  existsb (fun e => ed_unavailable e && (ed_incident_id e ==s i)) edges.

Definition rebuild_active_incidents (file : NotificationFileV1) : gmap IncidentKey string :=
  let edges := sort_by position_leb (incident_edges file) in
  let followed := foldl follow_edge ∅ (List.filter (fun e => negb (needs_fallback edges (ed_key e))) edges) in
  foldl (fun m k =>
           let own := of_key k edges in
           match max_edge (List.filter (fun e => ed_unavailable e && negb (recovered_in own (ed_incident_id e))) own) with
           | Some e => <[k := ed_incident_id e]> m
           | None => m
           end) followed
    (List.filter (needs_fallback edges) (remove_dups (map ed_key edges))).

(** ** The order of creation where the index does not tell it *)

Definition channel_tag (c : NotificationChannel) : string := match c with Api => "api" | Websocket => "websocket" end.
Definition incident_key_sort_key (k : IncidentKey) : string * Z * string :=
  match k with
  | ConnectionKey a c => (a, 0, channel_tag c)
  | EnvironmentKey a e => (a, 1, e)
  end.
Definition incident_key_leb (a b : IncidentKey) : bool :=
  let '(a1, a2, a3) := incident_key_sort_key a in
  let '(b1, b2, b3) := incident_key_sort_key b in
  match String.compare a1 b1 with
  | Lt => true
  | Gt => false
  | Eq => (a2 <? b2) || ((a2 =? b2) && match String.compare a3 b3 with Gt => false | _ => true end)
  end.

(** [HashMap] of the entries that created the records, by record. *)
Definition creation_entry (i : string) (file : NotificationFileV1) : option NotificationSourceEventIndexEntry :=
  foldl (fun found p =>
           foldl (fun found r =>
                    match source_event_id r with
                    | Some source => if id r ==s i
                                     then Some {| se_scope := pt_scope p; se_source_event_id := source;
                                                  se_notification_id := id r |}
                                     else found
                    | None => found
                    end) found (items p)) None (partitions file).

Definition append_incident_creation_entries (file : NotificationFileV1)
    (st : list string * list NotificationSourceEventIndexEntry) (edges : list IncidentHistoryEdge)
    : list string * list NotificationSourceEventIndexEntry :=
  foldl (fun '(appended, index) e =>
           if bool_decide (ed_record_id e ∈ appended) then (appended, index)
           else (ed_record_id e :: appended,
                 index ++ option_list (creation_entry (ed_record_id e) file))) st edges.

Definition string_leb (a b : string) : bool := match String.compare a b with Gt => false | _ => true end.

Definition canonicalize_partial_incident_creation_order (file : NotificationFileV1) : NotificationFileV1 :=
  let edges := incident_edges file in
  let fallback := List.filter (needs_fallback edges) (remove_dups (map ed_key edges)) in
  if bool_decide (fallback = []) then file
  else
    let moved := map ed_record_id (List.filter (fun e => needs_fallback edges (ed_key e)) edges) in
    let kept := List.filter (fun e => negb (bool_decide (se_notification_id e ∈ moved))
                                      || match creation_entry (se_notification_id e) file with
                                         | Some c => negb (bool_decide (se_scope e = se_scope c)
                                                           && (se_source_event_id e ==s se_source_event_id c))
                                         | None => true
                                         end)
                  (source_event_index file) in
    let add st l := append_incident_creation_entries file st (sort_by legacy_leb l) in
    let '(_, index) :=
      foldl (fun st k =>
               let own := of_key k edges in
               let st := add st (List.filter (fun e => negb (ed_unavailable e)
                                                       && negb (unavailable_in own (ed_incident_id e))) own) in
               let closed := sort_by string_leb
                               (remove_dups (List.filter (recovered_in own)
                                  (map ed_incident_id (List.filter ed_unavailable own)))) in
               let st := foldl (fun st i =>
                                  let st := add st (List.filter (fun e => ed_unavailable e && (ed_incident_id e ==s i)) own) in
                                  add st (List.filter (fun e => negb (ed_unavailable e) && (ed_incident_id e ==s i)) own))
                           st closed in
               add st (List.filter (fun e => ed_unavailable e && negb (recovered_in own (ed_incident_id e))) own))
        ([], kept) (sort_by incident_key_leb fallback) in
    file <| source_event_index := index |>.

Definition incident_edge_priority (k : NotificationKind) : Z :=
  match k with
  | ConnectionUnavailable | EnvironmentUnavailable => 0
  | ConnectionRecovered | EnvironmentRecovered => 1
  | _ => 2
  end.

Definition source_index_mutation_since (before after : list NotificationSourceEventIndexEntry)
    : HousekeepingMutation :=
  if bool_decide (before = after) then no_mutation
  else
    let of_scope s := List.filter (fun e => bool_decide (se_scope e = s)) in
    let scopes := sort_by scope_leb (remove_dups (map se_scope (before ++ after))) in
    let m := foldl (fun m s => if bool_decide (of_scope s before = of_scope s after) then m else note_scope m s)
               no_mutation scopes in
    if hk_changed m then m else foldl (fun m e => note_scope m (se_scope e)) m (before ++ after).

(** A record that created its source but is not in the index joins it. *)
Definition missing_candidate : Type := (Z * Z * string * NotificationScope * string)%type.
Definition missing_leb (a b : missing_candidate) : bool :=
  let '(t, p, i, s, _) := a in
  let '(t', p', i', s', _) := b in
  (t <? t')
  || ((t =? t')
      && ((p <? p')
          || ((p =? p')
              && match String.compare i i' with Lt => true | Gt => false | Eq => scope_leb s s' end))).

Definition normalize_source_event_index (file : NotificationFileV1)
    : NotificationFileV1 * HousekeepingMutation :=
  let before := source_event_index file in
  let file := canonicalize_partial_incident_creation_order file in
  let indexed := map (fun e => (se_scope e, se_source_event_id e)) (source_event_index file) in
  let candidates : list missing_candidate :=
    flat_map (fun p => omap (fun r => option_map (fun source =>
                (created_at_ms r, incident_edge_priority (kind r), id r, pt_scope p, source))
                (source_event_id r)) (items p)) (partitions file) in
  let '(_, missing) :=
    foldl (fun '(indexed, missing) (c : missing_candidate) =>
             let '(_, _, i, s, source) := c in
             if bool_decide ((s, source) ∈ indexed) then (indexed, missing)
             else ((s, source) :: indexed,
                   missing ++ [{| se_scope := s; se_source_event_id := source; se_notification_id := i |}]))
      (indexed, []) (sort_by missing_leb candidates) in
  let file := file <| source_event_index ::= fun l => l ++ missing |> in
  (file, source_index_mutation_since before (source_event_index file)).

(** ** Orders *)

Inductive ObservedOrderStatus := New | PartiallyFilled | Filled | Canceled | Rejected.
#[export] Instance ObservedOrderStatus_eq_dec : EqDecision ObservedOrderStatus.
Proof. solve_decision. Defined.

Definition is_terminal (s : ObservedOrderStatus) : bool :=
  match s with Filled | Canceled | Rejected => true | _ => false end.

Record ObservedOrderState := { os_status : ObservedOrderStatus; os_terminal_notified : bool }.

(** [OrderKey]: the account and the alias of the order. *)
Abbreviation OrderKey := (string * string)%type.

Section Orders.
Context `{Sha256Lib}.

Definition order_alias_token (domain prefix value : string) : string :=
  prefix +:+ sha256_hex ("easiflux.notification.order-alias.v1" +:+ String (Ascii.ascii_of_nat 0) domain
                         +:+ String (Ascii.ascii_of_nat 0) value).

Definition is_alias (alias : string) : bool :=
  (len alias =? 65)
  && match alias with
     | String c rest =>
         ((byte_val c =? 111) || (byte_val c =? 115) || (byte_val c =? 108))
         && forallb is_ascii_hexdigit (bytes_of rest)
     | EmptyString => false
     end.

Definition persisted_order_aliases_from_source (source : string) : list string :=
  match strip_prefix "order:terminal:" source with
  | Some aliases => List.filter is_alias (split_on colon aliases)
  | None => []
  end.

Definition persisted_order_aliases (r : NotificationRecord) : list string :=
  match match source_event_id r with Some source => persisted_order_aliases_from_source source | None => [] end with
  | [] =>
      omap (fun '(name, domain, prefix) =>
              match params_get name (params (content r)) with
              | Some (ScalarString value) =>
                  if trim_is_empty value then None else Some (order_alias_token domain prefix value)
              | _ => None
              end)
        [("orderId", "order-id", "o"); ("submissionId", "submission-id", "s")]
  | aliases => aliases
  end.

Definition order_status_of (k : NotificationKind) : option ObservedOrderStatus :=
  match k with
  | OrderFilled => Some Filled | OrderCanceled => Some Canceled | OrderRejected => Some Rejected
  | _ => None
  end.

Definition note_order (account_id : string) (m : gmap OrderKey ObservedOrderState) (r : NotificationRecord)
    : gmap OrderKey ObservedOrderState :=
  match order_status_of (kind r) with
  | Some status =>
      foldl (fun m alias =>
               match m !! (account_id, alias) with
               | Some _ => m
               | None => <[(account_id, alias) := {| os_status := status; os_terminal_notified := true |}]> m
               end) m (persisted_order_aliases r)
  | None => m
  end.

Definition rebuild_order_states (file : NotificationFileV1) : gmap OrderKey ObservedOrderState :=
  foldl (fun m p => match pt_scope p with
                    | AccountScope account_id => foldl (note_order account_id) m (items p)
                    | Global => m
                    end) ∅ (partitions file).
End Orders.
