(* ===== verification/NotificationStore.v ===== *)
(** storage/notification_store.rs: the notification document in its file, with
    a temporary and a backup beside it, and what makes a document acceptable. *)
From stdpp Require Import gmap strings.
From S2P Require Import Prelude RustStr FileSystem External Models SafeDocument AtomicFile NotificationTypes NotificationPolicy NotificationFile.
#[local] Open Scope list_scope.

Definition MAX_NOTIFICATION_SCHEMA_SNIFF_BYTES : Z := 4096.
Definition NOTIFICATION_STORAGE_UNAVAILABLE : string := "NOTIFICATION_STORAGE_UNAVAILABLE".
Definition INVALID_NOTIFICATION_FILE : string := "INVALID_NOTIFICATION_FILE".

Definition storage_unavailable : AppError := Storage NOTIFICATION_STORAGE_UNAVAILABLE.
Definition invalid_file : AppError := Storage INVALID_NOTIFICATION_FILE.

(** [map_err(|error| storage_unavailable(..))]; the operation is only logged. *)
Definition su {A} (c : IO A) : M fs_world AppError A := mmap_err (fun _ => storage_unavailable) c.

(** ** Which documents are accepted *)

Section Validation.
Context `{UuidText}.

Definition creating_source (s : NotificationScope) (r : NotificationRecord)
    : option (NotificationScope * string) :=
  option_map (pair s) (source_event_id r).

(** [creating_sources], with the record of each. *)
Definition creating_sources (file : NotificationFileV1) : list ((NotificationScope * string) * string) :=
  flat_map (fun p => omap (fun r => option_map (fun k => (k, id r)) (creating_source (pt_scope p) r)) (items p))
    (partitions file).

Definition partition_valid (p : NotificationPartition) : bool :=
  (lenz (items p) <=? MAX_NOTIFICATION_PARTITION_ITEMS)
  && is_ok (scope_validate (pt_scope p))
  && forallb (fun r => is_ok (record_validate r) && bool_decide (scope r = pt_scope p)) (items p).

(** [records_by_id.get(id)]: the scope of the partition and the record. *)
Definition indexed_record (i : string) (file : NotificationFileV1)
    : option (NotificationScope * NotificationRecord) :=
  List.find (fun e => id e.2 ==s i)
    (rev (flat_map (fun p => map (pair (pt_scope p)) (items p)) (partitions file))).

Definition valid_client_source_target (e : NotificationSourceEventIndexEntry)
    (target : option (NotificationScope * NotificationRecord)) : bool :=
  if starts_with (se_source_event_id e) "client:" then
    match client_notification_source_parts (se_source_event_id e), target with
    | Some (_, expected_kind, _), Some (_, record) =>
        bool_decide (kind record = expected_kind)
        && bool_decide (source_event_id record = Some (se_source_event_id e))
    | _, _ => false
    end
  else true.

Definition scope_count (s : NotificationScope) (index : list NotificationSourceEventIndexEntry) : Z :=
  lenz (List.filter (fun e => bool_decide (se_scope e = s)) index).

Definition entry_valid (file : NotificationFileV1) (e : NotificationSourceEventIndexEntry) : bool :=
  let target := indexed_record (se_notification_id e) file in
  is_ok (scope_validate (se_scope e))
  && (scope_count (se_scope e) (source_event_index file) <=? MAX_NOTIFICATION_SOURCE_INDEX_PER_SCOPE)
  && is_safe_notification_source_event_id (se_source_event_id e)
  && match target with Some (s, _) => bool_decide (s = se_scope e) | None => false end
  && valid_client_source_target e target
  && negb (existsb (fun c => bool_decide (c.1 = (se_scope e, se_source_event_id e))
                             && (c.2 !=s se_notification_id e)) (creating_sources file)).

(** Every refusal is the same error; [!set.insert(x)] along an iteration says
    that some element comes twice. *)
Definition file_valid (file : NotificationFileV1) : bool :=
  (schema_version file =? NOTIFICATION_SCHEMA_VERSION)
  && (lenz (source_event_index file) <=? MAX_NOTIFICATION_SOURCE_INDEX_TOTAL)
  && forallb partition_valid (partitions file)
  && bool_decide (NoDup (map pt_scope (partitions file)))
  && bool_decide (NoDup (map id (flat_map items (partitions file))))
  && bool_decide (NoDup (map fst (creating_sources file)))
  && forallb (entry_valid file) (source_event_index file)
  && bool_decide (NoDup (map (fun e => (se_scope e, se_source_event_id e)) (source_event_index file))).

Definition validate_file (file : NotificationFileV1) : outcome AppError unit :=
  guard (negb (file_valid file)) invalid_file.
End Validation.

(** ** Reading a candidate *)

Inductive Candidate :=
| Valid (file : NotificationFileV1)
| Future (found : Z)
| Corrupt
| OversizedUnknown.

Definition is_ascii_whitespace (b : Z) : bool :=
  (b =? 32) || (b =? 9) || (b =? 10) || (b =? 12) || (b =? 13).

Fixpoint skip_ascii_whitespace (l : list Z) : list Z :=
  match l with
  | b :: l' => if is_ascii_whitespace b then skip_ascii_whitespace l' else l
  | [] => []
  end.

(** The digits at the head: the value, the rest, whether there was a digit. *)
Fixpoint sniff_digits (value : Z) (seen : bool) (l : list Z) : option (Z * bool * list Z) :=
  match l with
  | b :: l' =>
      if is_ascii_digit b then
        if u32_max <? value * 10 then None
        else match u32_checked_add (value * 10) (b - 48) with
             | Some value => sniff_digits value true l'
             | None => None
             end
      else Some (value, seen, l)
  | [] => Some (value, seen, [])
  end.

Fixpoint strip_bytes (p l : list Z) : option (list Z) :=
  match p, l with
  | [], _ => Some l
  | a :: p', b :: l' => if a =? b then strip_bytes p' l' else None
  | _ :: _, [] => None
  end.

(** The bytes of ["schemaVersion"], quotes included. *)
Definition SCHEMA_KEY : list Z := 34 :: bytes_of "schemaVersion" ++ [34].

Definition sniff_leading_schema_version (bytes : list Z) : option Z :=
  match skip_ascii_whitespace bytes with
  | 123 :: l =>
      match strip_bytes SCHEMA_KEY (skip_ascii_whitespace l) with
      | Some l =>
          match skip_ascii_whitespace l with
          | 58 :: l =>
              match sniff_digits 0 false (skip_ascii_whitespace l) with
              | Some (value, true, b :: _) =>
                  if is_ascii_whitespace b || (b =? 44) || (b =? 125) then Some value else None
              | _ => None
              end
          | _ => None
          end
      | None => None
      end
  | _ => None
  end.

Definition classify_oversized_prefix (bytes : list Z) : Candidate :=
  match sniff_leading_schema_version (take (Z.to_nat MAX_NOTIFICATION_SCHEMA_SNIFF_BYTES) bytes) with
  | Some v => if NOTIFICATION_SCHEMA_VERSION <? v then Future v else Corrupt
  | None => OversizedUnknown
  end.

(** serde_json at the document: the value a typed document is read from, and
    the indented text of a document. *)
Class NotificationJson := {
  file_from_value : json -> option NotificationFileV1;
  to_pretty : NotificationFileV1 -> option string;
}.

Section Store.
Context `{UuidText} `{Codec json} `{NotificationJson}.

Definition candidate_of_text (text : string) : Candidate :=
  match decode text with
  | None => Corrupt
  | Some value =>
      match json_get "schemaVersion" value ≫= as_u64_value with
      | None => Corrupt
      | Some v =>
          if u32_max <? v then Corrupt
          else if NOTIFICATION_SCHEMA_VERSION <? v then Future v
          else if negb (v =? NOTIFICATION_SCHEMA_VERSION) then Corrupt
          else match file_from_value value with
               | None => Corrupt
               | Some file => if is_ok (validate_file file) then Valid file else Corrupt
               end
      end
  end.

Definition read_candidate (p : path) : IO Candidate :=
  fs_openat p ;;;
  let* observed_len := fs_len p in
  let* bytes := fs_read p in
  mret (if (MAX_NOTIFICATION_FILE_BYTES <? observed_len) || (MAX_NOTIFICATION_FILE_BYTES <? len bytes)
        then classify_oversized_prefix (bytes_of bytes)
        else candidate_of_text bytes).

Definition existing_candidate (p : path) : M fs_world AppError (option Candidate) :=
  let* found := mtry (fs_metadata p) in
  match found with
  | inr _ => let* c := su (read_candidate p) in mret (Some c)
  | inl NotFound => mret None
  | inl _ => mfail storage_unavailable
  end.

(** [SizeLimitedWriter] refuses the text that grows past the limit. *)
Definition serialize_file (file : NotificationFileV1) : outcome AppError string :=
  match to_pretty file with
  | Some bytes => if len bytes <=? MAX_NOTIFICATION_FILE_BYTES then Ok bytes else Err invalid_file
  | None => Err invalid_file
  end.

Definition notification_file_fits_serialized_limit (file : NotificationFileV1) : bool :=
  is_ok (serialize_file file).

(** ** Saving *)

Fixpoint ensure_supported_save_target (paths : list path) : M fs_world AppError unit :=
  match paths with
  | [] => mret tt
  | p :: rest =>
      let* c := existing_candidate p in
      match c with
      | None | Some Corrupt => ensure_supported_save_target rest
      | Some (Valid _) => mret tt
      | Some (Future _) | Some OversizedUnknown => mfail storage_unavailable
      end
  end.

Definition write_and_sync (p : path) (bytes : string) : M fs_world AppError unit :=
  su (fs_open_truncate p) ;;; su (fs_write_all p bytes) ;;; su (fs_sync_all p).

Definition sync_parent_directory (p : path) : M fs_world AppError unit :=
  su (fs_openat (parent p) ;;; fs_sync_dir (parent p)).

Definition remove_if_present (p : path) : M fs_world AppError unit :=
  let* removed := mtry (fs_remove_file p) in
  match removed with
  | inr _ => sync_parent_directory p
  | inl NotFound => mret tt
  | inl _ => mfail storage_unavailable
  end.

Definition rename_and_sync (from to : path) : M fs_world AppError unit :=
  su (fs_rename from to) ;;; sync_parent_directory to.

Definition is_valid (c : option Candidate) : bool :=
  match c with Some (Valid _) => true | _ => false end.

Definition save_validated (p : path) (file : NotificationFileV1) : M fs_world AppError unit :=
  mlift (validate_file file) ;;;
  ensure_supported_save_target [p; temp p; backup p] ;;;
  let* main_candidate := existing_candidate p in
  let main_is_valid := is_valid main_candidate in
  let* backup_candidate := existing_candidate (backup p) in
  let backup_is_valid := is_valid backup_candidate in
  let* bytes := mlift (serialize_file file) in
  su (fs_create_dir_all (parent p)) ;;;
  write_and_sync (temp p) bytes ;;;
  (if main_is_valid
   then remove_if_present (backup p) ;;; rename_and_sync p (backup p)
   else remove_if_present p) ;;;
  let* promoted := mtry (rename_and_sync (temp p) p) in
  match promoted with
  | inr _ => mret tt
  | inl replace_error =>
      (if main_is_valid || backup_is_valid
       then let* _ := mtry (rename_and_sync (backup p) p) in mret tt
       else mret tt) ;;;
      mfail replace_error
  end.

Definition save (p : path) (file : NotificationFileV1) : M fs_world AppError unit :=
  mlift (validate_file file) ;;;
  save_validated p file.

(** ** Loading *)

Inductive RecoverySource := Temp | Backup.

Inductive NotificationLoadStatus :=
| Clean
| Recovered (source : RecoverySource)
| ResetFromCorruption
| UnsupportedSchema (found : Z).

Record NotificationStorageWriteFailure := { wf_operation : string; wf_path_kind : string }.

Record NotificationLoadReport := {
  lr_file : NotificationFileV1;
  lr_status : NotificationLoadStatus;
  lr_write_failures : list NotificationStorageWriteFailure;
}.

(** [NotificationLoadFailure]. *)
Abbreviation load_failure := (AppError * list NotificationStorageWriteFailure)%type.

Definition without_write (e : AppError) : load_failure := (e, []).

Definition recovery_source_name (s : RecoverySource) : string :=
  match s with Temp => "temp" | Backup => "backup" end.

Definition digits (n : nat) : string := u64_to_string (Z.of_nat n).

Fixpoint preserve_corrupt_candidates (timestamp : Z) (index : nat) (candidates : list (path * string))
    : M fs_world load_failure unit :=
  match candidates with
  | [] => mret tt
  | (p, path_kind) :: rest =>
      let evidence := sibling p (".corrupt-" +:+ u64_to_string timestamp +:+ "-" +:+ digits index) in
      let* renamed := mtry (fs_rename p evidence) in
      match renamed with
      | inr _ =>
          let* _ := mtry (sync_parent_directory evidence) in
          preserve_corrupt_candidates timestamp (S index) rest
      | inl _ =>
          let* copied := mtry (fs_copy p evidence) in
          match copied with
          | inr _ => preserve_corrupt_candidates timestamp (S index) rest
          | inl _ => mfail (storage_unavailable,
                            [{| wf_operation := "preserve_corrupt"; wf_path_kind := path_kind |}])
          end
      end
  end.

Definition report (file : NotificationFileV1) (status : NotificationLoadStatus)
    (failures : list NotificationStorageWriteFailure) : NotificationLoadReport :=
  {| lr_file := file; lr_status := status; lr_write_failures := failures |}.

Fixpoint load_candidates (main : path) (timestamp : Z) (corrupt : list (path * string))
    (candidates : list (path * option RecoverySource * string))
    : M fs_world load_failure NotificationLoadReport :=
  match candidates with
  | [] =>
      match corrupt with
      | [] => mret (report NotificationFileV1_empty Clean [])
      | _ =>
          preserve_corrupt_candidates timestamp 0 corrupt ;;;
          mret (report NotificationFileV1_empty ResetFromCorruption [])
      end
  | (p, source, path_kind) :: rest =>
      let* found := mtry (fs_metadata p) in
      match found with
      | inl NotFound => load_candidates main timestamp corrupt rest
      | inl _ => mfail (without_write storage_unavailable)
      | inr _ =>
          let* c := mtry (read_candidate p) in
          match c with
          | inr (Valid file) =>
              match source with
              | None => mret (report file Clean [])
              | Some source =>
                  let* normalized := mtry (save_validated main file) in
                  mret (report file (Recovered source)
                    match normalized with
                    | inl e => if bool_decide (e = storage_unavailable)
                               then [{| wf_operation := "normalize_recovery";
                                        wf_path_kind := recovery_source_name source |}]
                               else []
                    | inr _ => []
                    end)
              end
          | inr (Future found) => mret (report NotificationFileV1_empty (UnsupportedSchema found) [])
          | inr Corrupt => load_candidates main timestamp (corrupt ++ [(p, path_kind)]) rest
          | inr OversizedUnknown => mfail (without_write storage_unavailable)
          | inl _ => mfail (without_write storage_unavailable)
          end
      end
  end.

Definition load_report (p : path) (timestamp : Z) : M fs_world load_failure NotificationLoadReport :=
  load_candidates p timestamp []
    [(p, None, "main"); (temp p, Some Temp, "temp"); (backup p, Some Backup, "backup")].
End Store.
