(* ===== verification/NotificationService.v ===== *)
(** services/notification.rs: the service that publishes notifications, answers
    queries and follows connections, environments and orders.

    The state is guarded by one mutex, held from the first look to the answer,
    so an operation is one function of the world.  The events are listed in the
    order of emission; the callback's own failure is only logged.  The identities
    of [Uuid::new_v4] are arguments. *)
From Stdlib Require Import Ascii.
From coqutil Require Import Datatypes.RecordSettersUsingExistingGetters.
From stdpp Require Import gmap strings.
From S2P Require Import Prelude RustStr FileSystem External Models NotificationTypes NotificationPolicy NotificationFile NotificationIncidents NotificationStore.
#[local] Open Scope list_scope.

Definition MAINTENANCE_INTERVAL_MS : Z := 24 * 60 * 60 * 1000.
Definition STORAGE_FAILURE_TOAST_INTERVAL_MS : Z := 60000.

Definition unavailable : NotificationError :=
  {| ne_code := NOTIFICATION_STORAGE_UNAVAILABLE; ne_message := "通知存储不可用" |}.
Definition not_found : NotificationError :=
  {| ne_code := "NOTIFICATION_NOT_FOUND"; ne_message := "通知不存在" |}.
Definition scope_mismatch : NotificationError :=
  {| ne_code := "NOTIFICATION_SCOPE_MISMATCH"; ne_message := "通知账户范围不匹配" |}.
Definition invalid_cursor : NotificationError :=
  {| ne_code := "INVALID_NOTIFICATION_CURSOR"; ne_message := "通知游标无效" |}.

(** Both arms of the source's [match] are the same error. *)
Definition map_persistence_error (e : AppError) : NotificationError := unavailable.

Definition is_retryable_persistence_failure (e : NotificationError) : bool :=
  ne_code e ==s NOTIFICATION_STORAGE_UNAVAILABLE.

(** ** What the service answers and observes *)

Record PublishOutcome := {
  po_notification : option NotificationRecord;
  po_revision : string;
  po_committed : bool;
}.

Record ClientNotificationPublishResult := {
  cn_notification : NotificationRecord;
  cn_unread_count : Z;
  cn_revision : string;
  cn_committed : bool;
}.

Record PruneOutcome := {
  pr_affected_count : Z;
  pr_affected_scopes : list NotificationScope;
  pr_revision : string;
}.

Record NotificationSummary := { sm_unread_count : Z; sm_revision : string }.

Inductive AvailabilityState := Available | Unavailable.

Record ConnectionObservation := {
  co_account_id : string;
  co_session_epoch : Z;
  co_channel : NotificationChannel;
  co_state : AvailabilityState;
}.

Record EnvironmentObservation := {
  eo_account_id : string;
  eo_session_epoch : Z;
  eo_environment_key : string;
  eo_environment : NotificationEnvironment;
  eo_state : AvailabilityState;
}.

Inductive OrderObservationOrigin := Command | Realtime | Snapshot.

Record OrderObservation := {
  oo_account_id : string;
  oo_session_epoch : Z;
  oo_order_id : option string;
  oo_submission_id : option string;
  oo_order_link_id : option string;
  oo_status : ObservedOrderStatus;
  oo_origin : OrderObservationOrigin;
}.

(** ** Who looks *)

Record ViewContext := { vc_account_id : option string }.

Definition ViewContext_global : ViewContext := {| vc_account_id := None |}.

Definition ViewContext_account (account_id : string) : outcome NotificationError ViewContext :=
  let? _ := omap_err (error_of "通知账户范围无效") (scope_validate (AccountScope account_id)) in
  Ok {| vc_account_id := Some account_id |}.

Definition visible (context : ViewContext) (s : NotificationScope) : bool :=
  match s with
  | Global => true
  | AccountScope account_id => bool_decide (vc_account_id context = Some account_id)
  end.

(** ** State *)

Record ServiceState := {
  st_file : NotificationFileV1;
  st_seen_source_events : gset (NotificationScope * string);
  st_last_pruned_at_ms : Z;
  st_active_incidents : gmap IncidentKey string;
  st_order_states : gmap OrderKey ObservedOrderState;
}.

(** [NotificationStorageFailureReporter], with the diagnostics it emitted and
    whether each came with an error event. *)
Record Reporter := {
  last_toast_at_ms : option Z;
  diagnostics : list bool;
}.

Definition reporter_report (now_ms : Z) (r : Reporter) : Reporter :=
  let allowed := match last_toast_at_ms r with
                 | None => true
                 | Some last => STORAGE_FAILURE_TOAST_INTERVAL_MS <=? saturating_sub now_ms last
                 end in
  {| last_toast_at_ms := if allowed then Some now_ms else last_toast_at_ms r;
     diagnostics := diagnostics r ++ [allowed] |}.

Definition reporter_reset (r : Reporter) : Reporter :=
  {| last_toast_at_ms := None; diagnostics := diagnostics r |}.

(** The trait [NotificationPersistence] over the world [X] it writes to. *)
Class NotificationPersistence (X : Type) := {
  persist : NotificationFileV1 -> M X AppError unit;
}.

Record Service (X : Type) := {
  sv_state : ServiceState;
  sv_persistence : X;
  sv_events : list NotificationChangedEvent;
  sv_reporter : option Reporter;
}.
Arguments sv_state {X} _.
Arguments sv_persistence {X} _.
Arguments sv_events {X} _.
Arguments sv_reporter {X} _.

(** ** Reading the document *)

Definition visible_unread_count (file : NotificationFileV1) (context : ViewContext) (now_ms : Z) : Z :=
  lenz (List.filter (fun r => bool_decide (read_at_ms r = None) && negb (is_expired r now_ms))
          (flat_map items (List.filter (fun p => visible context (pt_scope p)) (partitions file)))).

(** The first partition that holds a record of the identity, and the record. *)
Definition find_record (file : NotificationFileV1) (i : string)
    : option (NotificationScope * NotificationRecord) :=
  find_map (fun p => option_map (pair (pt_scope p)) (List.find (fun r => id r ==s i) (items p)))
    (partitions file).

Definition position {A} (f : A -> bool) : list A -> option nat :=
  fix go l := match l with
              | [] => None
              | x :: l' => if f x then Some O else option_map S (go l')
              end.

Fixpoint find_record_index_from (n : nat) (i : string) (l : list NotificationPartition)
    : option (nat * nat) :=
  match l with
  | [] => None
  | p :: l' => match position (fun r => id r ==s i) (items p) with
               | Some j => Some (n, j)
               | None => find_record_index_from (S n) i l'
               end
  end.
Definition find_record_index (file : NotificationFileV1) (i : string) : option (nat * nat) :=
  find_record_index_from 0 i (partitions file).

Definition remove_empty_partitions (file : NotificationFileV1) : NotificationFileV1 :=
  file <| partitions ::= List.filter (fun p => negb (no_items p)) |>.

Definition record_for_source (file : NotificationFileV1) (source : NotificationScope * string)
    : option NotificationRecord :=
  match List.find (fun e => bool_decide (se_scope e = source.1) && (se_source_event_id e ==s source.2))
          (source_event_index file) with
  | Some e => match find_partition source.1 file with
              | Some p => List.find (fun r => id r ==s se_notification_id e) (items p)
              | None => None
              end
  | None => None
  end.

Definition no_publish_outcome (s : ServiceState) : PublishOutcome :=
  {| po_notification := None; po_revision := u64_to_string (revision (st_file s)); po_committed := false |}.

(** ** Cursors *)

Record CursorV1 := {
  cu_version : Z;
  cu_fingerprint : string;
  cu_filter : NotificationFilter;
  cu_created_at_ms : Z;
  cu_id : string;
}.

Definition query_fingerprint (context : ViewContext) : string :=
  match vc_account_id context with
  | None => "global"
  | Some account_id => "account:" +:+ account_id +:+ "|global"
  end.

(** [{byte:02x}]. *)
Definition nibble (n : Z) : ascii := ascii_of_N (Z.to_N (if n <? 10 then 48 + n else 87 + n)).

Fixpoint hex_encode (s : string) : string :=
  match s with
  | EmptyString => ""
  | String c s' => String (nibble (byte_val c / 16)) (String (nibble (byte_val c mod 16)) (hex_encode s'))
  end.

Definition hex_value (b : Z) : option Z :=
  if is_ascii_digit b then Some (b - 48)
  else if (97 <=? b) && (b <=? 102) then Some (b - 87)
  else if (65 <=? b) && (b <=? 70) then Some (b - 55)
  else None.

(** [u8::from_str_radix(s, 16)] of two characters: a sign [+] may take the
    place of the first digit. *)
Definition hex_byte (a b : Z) : option Z :=
  match hex_value b with
  | Some low => if a =? 43 then Some low
                else match hex_value a with Some high => Some (16 * high + low) | None => None end
  | None => None
  end.

Fixpoint hex_decode (s : string) : option string :=
  match s with
  | EmptyString => Some ""
  | String a (String b s') =>
      match hex_byte (byte_val a) (byte_val b), hex_decode s' with
      | Some z, Some t => Some (String (ascii_of_N (Z.to_N z)) t)
      | _, _ => None
      end
  | String _ EmptyString => None
  end.

(** Record updates of a service that keep its type of worlds. *)
Definition with_state {X} (s : ServiceState) (w : Service X) : Service X :=
  {| sv_state := s; sv_persistence := sv_persistence w; sv_events := sv_events w;
     sv_reporter := sv_reporter w |}.
Definition with_event {X} (e : NotificationChangedEvent) (w : Service X) : Service X :=
  {| sv_state := sv_state w; sv_persistence := sv_persistence w; sv_events := sv_events w ++ [e];
     sv_reporter := sv_reporter w |}.

(** The event of a change that names no notification and shows nothing. *)
Definition plain_event (previous next : Z) (change : NotificationChange)
    (scopes : list NotificationScope) (i : option string) : NotificationChangedEvent := {|
  ev_previous_revision := u64_to_string previous; ev_revision := u64_to_string next;
  ev_change := change; ev_affected_scopes := scopes; ev_notification_id := i;
  ev_toast_candidate := None |}.

Section Cursor.
Context `{Codec CursorV1}.

Definition encode_cursor (c : CursorV1) : outcome NotificationError string :=
  match encode c with
  | Some bytes => Ok ("n1." +:+ hex_encode bytes)
  | None => Halt Panicked
  end.

Definition decode_cursor (encoded fingerprint : string) (filter : NotificationFilter)
    : outcome NotificationError CursorV1 :=
  let? hex := ok_or invalid_cursor (strip_prefix "n1." encoded) in
  let? _ := guard (is_empty hex || negb (forallb (fun b => b <? 128) (bytes_of hex))
                   || negb (len hex mod 2 =? 0)) invalid_cursor in
  let? bytes := ok_or invalid_cursor (hex_decode hex) in
  let? cursor := ok_or invalid_cursor (decode bytes) in
  let? _ := guard (negb (cu_version cursor =? 1) || (cu_fingerprint cursor !=s fingerprint)
                   || negb (bool_decide (cu_filter cursor = filter)) || is_empty (cu_id cursor))
              invalid_cursor in
  Ok cursor.

(** [(record.created_at_ms, record.id) < (cursor.created_at_ms, cursor.id)]. *)
Definition before_cursor (cursor : option CursorV1) (r : NotificationRecord) : bool :=
  match cursor with
  | Some c => negb (age_leb (cu_created_at_ms c, cu_id c) (age r))
  | None => true
  end.

Definition list_state (context : ViewContext) (request : ListNotificationsRequest) (now_ms : Z)
    (s : ServiceState) : outcome NotificationError NotificationPage :=
  let? _ := omap_err (error_of "通知查询请求无效") (request_validate request) in
  let? _ := guard (negb (bool_decide (req_account_id request = vc_account_id context))) scope_mismatch in
  let fingerprint := query_fingerprint context in
  let? cursor := match req_cursor request with
                 | Some cursor => let? c := decode_cursor cursor fingerprint (req_filter request) in Ok (Some c)
                 | None => Ok None
                 end in
  let selected :=
    List.filter (before_cursor cursor)
      (List.filter (fun r => bool_decide (req_filter request = All) || bool_decide (read_at_ms r = None))
         (List.filter (fun r => negb (is_expired r now_ms))
            (flat_map items (List.filter (fun p => visible context (pt_scope p)) (partitions (st_file s)))))) in
  let sorted := sort_by newest_first selected in
  let page := take (Z.to_nat (req_limit request)) sorted in
  let? next :=
    if req_limit request <? lenz sorted then
      match last page with
      | Some r =>
          let? c := encode_cursor {| cu_version := 1; cu_fingerprint := fingerprint;
                                     cu_filter := req_filter request;
                                     cu_created_at_ms := created_at_ms r; cu_id := id r |} in
          Ok (Some c)
      | None => Ok None
      end
    else Ok None in
  Ok {| page_items := page; next_cursor := next;
        page_unread_count := visible_unread_count (st_file s) context now_ms;
        page_revision := u64_to_string (revision (st_file s)) |}.
End Cursor.

(** ** Operations *)

Section Service.
Context {X : Type} `{NotificationPersistence X} `{UuidText} `{Sha256Lib}.
Context `{Codec CursorV1} `{Codec json} `{NotificationJson}.

Local Abbreviation Run A := (M (Service X) NotificationError A).
Local Abbreviation fits := notification_file_fits_serialized_limit.

Definition get_state : Run ServiceState := fun w => (Ok (sv_state w), w).
Definition put_state (s : ServiceState) : Run unit := fun w => (Ok tt, with_state s w).
Definition emit_diagnostic_only (e : NotificationChangedEvent) : Run unit := fun w => (Ok tt, with_event e w).

(** A failed save reports the storage failure; a good one ends the quiet time. *)
Definition save_file (file : NotificationFileV1) (now_ms : Z) : Run unit := fun w =>
  let '(saved, x) := persist file (sv_persistence w) in
  let report f := {| sv_state := sv_state w; sv_persistence := x; sv_events := sv_events w;
                     sv_reporter := option_map f (sv_reporter w) |} in
  match saved with
  | Ok _ => (Ok tt, report reporter_reset)
  | Err e =>
      let error := map_persistence_error e in
      (Err error, report (if is_retryable_persistence_failure error then reporter_report now_ms else fun r => r))
  | Halt h => (Halt h, report (fun r => r))
  end.

Definition next_revision (file : NotificationFileV1) : outcome NotificationError NotificationFileV1 :=
  let? r := ok_or revision_exhausted (u64_checked_add (revision file) 1) in
  Ok (file <| revision := r |>).

Definition commit_file (next : ServiceState) (now_ms : Z) : Run Z :=
  let previous_revision := revision (st_file next) in
  let* file := mlift (next_revision (st_file next)) in
  save_file file now_ms ;;;
  put_state (next <| st_file := file |>) ;;;
  mret previous_revision.

(** The commit and the announcement of a change. *)
Definition commit_announced (next : ServiceState) (now_ms : Z) (change : NotificationChange)
    (scopes : list NotificationScope) (i : option string) : Run ServiceState :=
  let* previous := commit_file next now_ms in
  let* s := get_state in
  emit_diagnostic_only (plain_event previous (revision (st_file s)) change scopes i) ;;;
  mret s.

(** *** Publishing *)

Record PublishMutation := {
  pm_record : option NotificationRecord;
  pm_change : option NotificationChange;
  pm_toast_candidate : option NotificationToastCandidate;
  pm_affected_scopes : list NotificationScope;
}.

Definition validate_publish_input (input : NotificationInput) : outcome NotificationError unit :=
  let? _ := omap_err (error_of "通知输入无效") (input_validate input) in
  guard (match in_session_epoch input with
         | Some epoch => MAX_JAVASCRIPT_SAFE_INTEGER <? epoch
         | None => false
         end) (content_invalid "通知会话代次无效").

Definition apply_prepared_publish (prepared : PreparedPublish) (next : ServiceState)
    : outcome NotificationError (ServiceState * PublishMutation) :=
  let? file := apply_prepared_to_file prepared (st_file next) in
  let seen := match pp_source_entry prepared with
              | Some e => {[(se_scope e, se_source_event_id e)]} ∪ st_seen_source_events next
              | None => st_seen_source_events next
              end in
  Ok (next <| st_file := file |> <| st_seen_source_events := seen |>,
      {| pm_record := Some (pp_record prepared); pm_change := Some (pp_change prepared);
         pm_toast_candidate := pp_toast_candidate prepared;
         pm_affected_scopes := [scope (pp_record prepared)] |}).

Definition seen_source (s : ServiceState) (source : option (NotificationScope * string)) : bool :=
  match source with Some k => bool_decide (k ∈ st_seen_source_events s) | None => false end.

Definition prepare_publish_locked (input : NotificationInput) (now_ms : Z) (new_id : string)
    : Run (option PreparedPublish) :=
  mlift (validate_publish_input input) ;;;
  let* s := get_state in
  if seen_source s (source_key input) then mret None
  else
    let* housekeeping := mlift (prepare_file_for_publish input now_ms (st_file s)) in
    let* prepared := mlift (prepare_publish_record housekeeping.1 input now_ms new_id) in
    let* reserved := mlift (reserve_serialized_capacity_for_publish fits prepared housekeeping) in
    let '(file, mutation) := reserved in
    if negb (hk_changed mutation) then mret (Some prepared)
    else
      let next := s <| st_file := file |>
                    <| st_seen_source_events := rebuild_seen_source_events file |>
                    <| st_active_incidents := rebuild_active_incidents file |> in
      let* _ := commit_announced next now_ms Reset (hk_scopes mutation) None in
      mret (Some prepared).

Definition commit_publish (next : ServiceState) (mutation : PublishMutation) (now_ms : Z)
    : Run PublishOutcome :=
  match pm_record mutation with
  | None =>
      put_state next ;;;
      mret (no_publish_outcome next)
  | Some record =>
      let previous_revision := revision (st_file next) in
      let* file := mlift (next_revision (st_file next)) in
      save_file file now_ms ;;;
      put_state (next <| st_file := file |>) ;;;
      match pm_change mutation with
      | None => mlift (Halt Panicked)
      | Some change =>
          emit_diagnostic_only {|
            ev_previous_revision := u64_to_string previous_revision;
            ev_revision := u64_to_string (revision file); ev_change := change;
            ev_affected_scopes := pm_affected_scopes mutation;
            ev_notification_id := Some (id record);
            ev_toast_candidate := pm_toast_candidate mutation |} ;;;
          mret {| po_notification := Some record; po_revision := u64_to_string (revision file);
                  po_committed := true |}
      end
  end.

(** What the observers and [publish] share once the input is at hand: [change]
    is what else moves when the notification is committed. *)
Definition publish_prepared (input : NotificationInput) (change : ServiceState -> ServiceState)
    (now_ms : Z) (new_id : string) : Run PublishOutcome :=
  let* prepared := prepare_publish_locked input now_ms new_id in
  let* s := get_state in
  match prepared with
  | None => mret (no_publish_outcome s)
  | Some prepared =>
      let* applied := mlift (apply_prepared_publish prepared (change s)) in
      let '(next, mutation) := applied in
      commit_publish next mutation now_ms
  end.

Definition publish (input : NotificationInput) (now_ms : Z) (new_id : string) : Run PublishOutcome :=
  mlift (validate_publish_input input) ;;;
  let* s := get_state in
  match source_key input with
  | Some source =>
      if bool_decide (source ∈ st_seen_source_events s) then
        let* r := mlift (ok_or state_conflict (record_for_source (st_file s) source)) in
        mret {| po_notification := Some r; po_revision := u64_to_string (revision (st_file s));
                po_committed := false |}
      else publish_prepared input (fun s => s) now_ms new_id
  | None => publish_prepared input (fun s => s) now_ms new_id
  end.

Definition client_input_invalid : NotificationError := content_invalid "客户端通知输入无效".

Definition publish_client_account_failure (input : NotificationInput) (now_ms : Z) (new_id : string)
    : Run ClientNotificationPublishResult :=
  mlift (validate_publish_input input) ;;;
  mlift (guard (negb (is_client_kind (in_kind input))) client_input_invalid) ;;;
  let* account_id := mlift match in_scope input with
                           | AccountScope account_id => Ok account_id
                           | Global => Err client_input_invalid
                           end in
  let* context := mlift (ViewContext_account account_id) in
  let* source := mlift (ok_or (content_invalid "客户端通知来源无效") (source_key input)) in
  let* s := get_state in
  if bool_decide (source ∈ st_seen_source_events s) then
    let* r := mlift (ok_or state_conflict (record_for_source (st_file s) source)) in
    mlift (guard (negb (client_notification_record_matches_input r input)) state_conflict) ;;;
    mret {| cn_notification := r; cn_unread_count := visible_unread_count (st_file s) context now_ms;
            cn_revision := u64_to_string (revision (st_file s)); cn_committed := false |}
  else
    let* prepared := prepare_publish_locked input now_ms new_id in
    let* prepared := mlift (ok_or state_conflict prepared) in
    let* s := get_state in
    let* applied := mlift (apply_prepared_publish prepared s) in
    let '(next, mutation) := applied in
    let* outcome := commit_publish next mutation now_ms in
    let* r := mlift (ok_or state_conflict (po_notification outcome)) in
    let* s := get_state in
    mret {| cn_notification := r; cn_unread_count := visible_unread_count (st_file s) context now_ms;
            cn_revision := po_revision outcome; cn_committed := true |}.

(** *** Queries *)

Definition list_notifications (context : ViewContext) (request : ListNotificationsRequest) (now_ms : Z) : Run NotificationPage :=
  let* s := get_state in
  mlift (list_state context request now_ms s).

Definition summary (context : ViewContext) (now_ms : Z) : Run NotificationSummary :=
  let* s := get_state in
  mret {| sm_unread_count := visible_unread_count (st_file s) context now_ms;
          sm_revision := u64_to_string (revision (st_file s)) |}.

Definition maintenance_due (now_ms : Z) : Run bool :=
  let* s := get_state in
  mret (MAINTENANCE_INTERVAL_MS <=? saturating_sub now_ms (st_last_pruned_at_ms s)).

(** *** Reading and deleting *)

Definition mutation_result (r : option NotificationRecord) (count : Z) (scopes : list NotificationScope)
    (context : ViewContext) (now_ms : Z) (s : ServiceState) : NotificationMutationResult :=
  {| res_notification := r; affected_count := count; affected_scopes := scopes;
     res_unread_count := visible_unread_count (st_file s) context now_ms;
     res_revision := u64_to_string (revision (st_file s)) |}.

Definition read_now (now_ms : Z) (r : NotificationRecord) : NotificationRecord :=
  r <| read_at_ms := Some (Z.max now_ms (created_at_ms r)) |>
    <| updated_at_ms := Z.max (updated_at_ms r) now_ms |>.

(** The record [find_record] finds, replaced. *)
Definition update_first (f : NotificationRecord -> NotificationRecord) (i : string)
    : list NotificationRecord -> list NotificationRecord :=
  fix go l := match l with
              | [] => []
              | r :: l' => if id r ==s i then f r :: l' else r :: go l'
              end.
Fixpoint update_record (f : NotificationRecord -> NotificationRecord) (i : string)
    (l : list NotificationPartition) : list NotificationPartition :=
  match l with
  | [] => []
  | p :: l' =>
      if existsb (fun r => id r ==s i) (items p)
      then {| pt_scope := pt_scope p; items := update_first f i (items p) |} :: l'
      else p :: update_record f i l'
  end.

Definition mark_read (context : ViewContext) (i : string) (now_ms : Z) : Run NotificationMutationResult :=
  let* s := get_state in
  let* found := mlift (ok_or not_found (find_record (st_file s) i)) in
  let '(scope, record) := found in
  mlift (guard (negb (visible context scope)) scope_mismatch) ;;;
  match read_at_ms record with
  | Some _ => mret (mutation_result (Some record) 0 [] context now_ms s)
  | None =>
      let changed := read_now now_ms record in
      let next := s <| st_file ::= fun file => file <| partitions ::= update_record (read_now now_ms) i |> |> in
      let* s := commit_announced next now_ms Updated [scope] (Some i) in
      mret (mutation_result (Some changed) 1 [scope] context now_ms s)
  end.

Definition read_if_due (now_ms : Z) (r : NotificationRecord) : NotificationRecord :=
  if bool_decide (read_at_ms r = None) && negb (is_expired r now_ms) then read_now now_ms r else r.

Definition is_due (now_ms : Z) (r : NotificationRecord) : bool :=
  bool_decide (read_at_ms r = None) && negb (is_expired r now_ms).

Definition read_partition (context : ViewContext) (now_ms : Z) (p : NotificationPartition)
    : NotificationPartition :=
  if visible context (pt_scope p)
  then {| pt_scope := pt_scope p; items := map (read_if_due now_ms) (items p) |}
  else p.

Definition mark_visible_read (context : ViewContext) (now_ms : Z) : Run NotificationMutationResult :=
  let* s := get_state in
  let visible_partitions := List.filter (fun p => visible context (pt_scope p)) (partitions (st_file s)) in
  let affected_count := lenz (List.filter (is_due now_ms) (flat_map items visible_partitions)) in
  let affected_scopes := map pt_scope (List.filter (fun p => existsb (is_due now_ms) (items p)) visible_partitions) in
  if affected_count =? 0 then mret (mutation_result None 0 affected_scopes context now_ms s)
  else
    let next := s <| st_file ::= fun file => file <| partitions ::= map (read_partition context now_ms) |> |> in
    let* s := commit_announced next now_ms Updated affected_scopes None in
    mret (mutation_result None affected_count affected_scopes context now_ms s).

(** The index and the sources seen, after records went. *)
Definition reindex (s : ServiceState) : ServiceState :=
  let file := (cleanup_source_event_index (st_file s)).2 in
  s <| st_file := file |> <| st_seen_source_events := rebuild_seen_source_events file |>.

Definition delete_visible (context : ViewContext) (i : string) (now_ms : Z) : Run NotificationMutationResult :=
  let* s := get_state in
  let* found := mlift (ok_or not_found (find_record_index (st_file s) i)) in
  let '(partition_index, item_index) := found in
  let* p := mlift match partitions (st_file s) !! partition_index with
                  | Some p => Ok p
                  | None => Halt Panicked
                  end in
  let scope := pt_scope p in
  mlift (guard (negb (visible context scope)) scope_mismatch) ;;;
  let next := s <| st_file ::= fun file => remove_empty_partitions (remove_at partition_index item_index file) |> in
  let* s := commit_announced (reindex next) now_ms Removed [scope] (Some i) in
  mret (mutation_result None 1 [scope] context now_ms s).

Definition drop_scope (scope : NotificationScope) (s : ServiceState) : ServiceState :=
  reindex (s <| st_file ::= fun file =>
                  file <| partitions ::= List.filter (fun p => negb (bool_decide (pt_scope p = scope))) |> |>).

Definition clear_account (active_account_id requested_account_id : string) (now_ms : Z)
    : Run NotificationMutationResult :=
  let* context := mlift (ViewContext_account active_account_id) in
  mlift (guard (active_account_id !=s requested_account_id) scope_mismatch) ;;;
  let scope := AccountScope requested_account_id in
  let* s := get_state in
  let affected_count := partition_record_count (st_file s) scope in
  if affected_count =? 0 then mret (mutation_result None 0 [] context now_ms s)
  else
    let* s := commit_announced (drop_scope scope s) now_ms Reset [scope] None in
    mret (mutation_result None affected_count [scope] context now_ms s).

(** *** Maintenance *)

Definition prune (configured_accounts : gset string) (now_ms : Z) : Run PruneOutcome :=
  let* s := get_state in
  let* pruned := mlift (enforce_serialized_file_cap fits true
                          (prune_file (Some configured_accounts) now_ms (st_file s))) in
  let '(file, pruning) := pruned in
  let next := s <| st_last_pruned_at_ms := now_ms |> <| st_file := file |>
                <| st_seen_source_events := rebuild_seen_source_events file |>
                <| st_active_incidents := rebuild_active_incidents file |>
                <| st_order_states ::= filter (fun e => e.1.1 ∈ configured_accounts) |> in
  if negb (hk_changed pruning) then
    put_state next ;;;
    mret {| pr_affected_count := 0; pr_affected_scopes := hk_scopes pruning;
            pr_revision := u64_to_string (revision file) |}
  else
    let* s := commit_announced next now_ms Reset (hk_scopes pruning) None in
    mret {| pr_affected_count := hk_count pruning; pr_affected_scopes := hk_scopes pruning;
            pr_revision := u64_to_string (revision (st_file s)) |}.

Definition delete_account_partition (account_id : string) (now_ms : Z) : Run unit :=
  let* _ := mlift (ViewContext_account account_id) in
  let scope := AccountScope account_id in
  let* s := get_state in
  let partition_existed := existsb (fun p => bool_decide (pt_scope p = scope)) (partitions (st_file s)) in
  let next := drop_scope scope s
                <| st_active_incidents ::= filter (fun e => owner_of e.1 <> account_id) |>
                <| st_order_states ::= filter (fun e => e.1.1 <> account_id) |> in
  if negb partition_existed then put_state next
  else
    let* _ := commit_announced next now_ms Reset [scope] None in
    mret tt.

(** *** Incidents *)

Definition set_incident (k : IncidentKey) (i : option string) (s : ServiceState) : ServiceState :=
  s <| st_active_incidents ::= fun m => match i with Some i => <[k := i]> m | None => delete k m end |>.

(** An unavailable state opens an incident unless one is open, an available one
    closes the open incident; [edge] makes the notification of the edge. *)
Definition observe_incident (k : IncidentKey) (account_id : string) (session_epoch : Z)
    (state : AvailabilityState) (source_head : string)
    (edge : PolicyContext -> string -> bool -> outcome NotificationError NotificationInput)
    (now_ms : Z) (incident_id new_id : string) : Run PublishOutcome :=
  let* s := get_state in
  match state, st_active_incidents s !! k with
  | Unavailable, Some _ | Available, None => mret (no_publish_outcome s)
  | Unavailable, None =>
      let* context := mlift (PolicyContext_new account_id session_epoch
                               (source_head +:+ ":" +:+ incident_id +:+ ":unavailable")) in
      let* input := mlift (edge context incident_id false) in
      publish_prepared input (set_incident k (Some incident_id)) now_ms new_id
  | Available, Some incident =>
      let* context := mlift (PolicyContext_new account_id session_epoch
                               (source_head +:+ ":" +:+ incident +:+ ":recovered")) in
      let* input := mlift (edge context incident true) in
      publish_prepared input (set_incident k None) now_ms new_id
  end.

Definition observe_connection (o : ConnectionObservation) (now_ms : Z) (incident_id new_id : string)
    : Run PublishOutcome :=
  let* _ := mlift (ViewContext_account (co_account_id o)) in
  observe_incident (ConnectionKey (co_account_id o) (co_channel o)) (co_account_id o) (co_session_epoch o)
    (co_state o) ("connection:" +:+ channel_tag (co_channel o))
    (fun context => connection_edge context (co_channel o)) now_ms incident_id new_id.

Definition validate_environment_key (environment_key : string) : outcome NotificationError unit :=
  let? digest := ok_or (content_invalid "环境标识无效") (strip_prefix "env-v1-" environment_key) in
  guard (negb ((len digest =? 64)
               && forallb (fun b => is_ascii_digit b || ((97 <=? b) && (b <=? 102))) (bytes_of digest)))
    (content_invalid "环境标识无效").

Definition observe_environment (o : EnvironmentObservation) (now_ms : Z) (incident_id new_id : string)
    : Run PublishOutcome :=
  let* _ := mlift (ViewContext_account (eo_account_id o)) in
  mlift (validate_environment_key (eo_environment_key o)) ;;;
  observe_incident (EnvironmentKey (eo_account_id o) (eo_environment_key o)) (eo_account_id o)
    (eo_session_epoch o) (eo_state o) ("environment:" +:+ eo_environment_key o)
    (fun context => environment_edge context (eo_environment o) (eo_environment_key o))
    now_ms incident_id new_id.

Definition observe_session_expired (account_id : string) (session_epoch : Z) (token : string)
    (now_ms : Z) (new_id : string) : Run PublishOutcome :=
  let* _ := mlift (ViewContext_account account_id) in
  mlift (guard (negb (is_generated_uuid token)) (content_invalid "通知会话标识无效")) ;;;
  let* context := mlift (PolicyContext_new account_id session_epoch ("session:" +:+ token +:+ ":expired")) in
  let* input := mlift (session_expired context) in
  publish input now_ms new_id.

(** *** Orders *)

Definition is_uuid_v4 (value : string) : bool :=
  match uuid_parse value with Some (version, _) => version =? 4 | None => false end.

Definition when {A} (f : A -> bool) (x : option A) : option A :=
  match x with Some a => if f a then Some a else None | None => None end.

Definition order_observation_entity_ids (o : OrderObservation)
    : outcome NotificationError (list string) :=
  let order_id := when (fun v => negb (trim_is_empty v) && (len v <=? 128) && negb (any_control v)) (oo_order_id o) in
  let submission_id := when is_uuid_v4 (oo_submission_id o) in
  let order_link_id := when (fun v => negb (is_empty v) && (chars_count v <=? 36)) (oo_order_link_id o) in
  let ids := option_list (option_map (order_alias_token "order-id" "o") order_id)
             ++ option_list (option_map (order_alias_token "submission-id" "s") submission_id)
             ++ option_list (option_map (order_alias_token "order-link-id" "l") order_link_id) in
  (* their first letters differ: [dedup] finds nothing *)
  let ids := sort_by string_leb ids in
  let? _ := guard (bool_decide (ids = [])) (content_invalid "订单观察标识无效") in
  Ok ids.

(** The first terminal state among the aliases, else the first state. *)
Definition previous_order_state (m : gmap OrderKey ObservedOrderState) (keys : list OrderKey)
    : option ObservedOrderState :=
  let states := omap (fun k => m !! k) keys in
  match List.find (fun s => is_terminal (os_status s)) states with
  | Some s => Some s
  | None => hd_error states
  end.

Definition note_orders (keys : list OrderKey) (st : ObservedOrderState) (s : ServiceState) : ServiceState :=
  s <| st_order_states ::= fun m => foldl (fun m k => <[k := st]> m) m keys |>.

Definition should_publish_order (o : OrderObservation) (previous : option ObservedOrderState) : bool :=
  is_terminal (oo_status o)
  && negb (match previous with Some s => os_terminal_notified s | None => false end)
  && match oo_origin o with
     | Snapshot => false
     | Command => true
     | Realtime => match previous with Some s => negb (is_terminal (os_status s)) | None => false end
     end.

Definition order_input (o : OrderObservation) (context : PolicyContext) : outcome NotificationError NotificationInput :=
  match oo_status o with
  | Filled =>
      let? order_id := ok_or (content_invalid "成交订单标识无效") (oo_order_id o) in order_filled context order_id
  | Canceled =>
      let? order_id := ok_or (content_invalid "取消订单标识无效") (oo_order_id o) in order_canceled context order_id
  | Rejected => order_rejected context (oo_order_id o) (oo_submission_id o)
  | New | PartiallyFilled => Halt Panicked
  end.

Definition observe_order (o : OrderObservation) (now_ms : Z) (new_id : string) : Run PublishOutcome :=
  let* _ := mlift (ViewContext_account (oo_account_id o)) in
  let* entity_ids := mlift (order_observation_entity_ids o) in
  let keys := map (pair (oo_account_id o)) entity_ids in
  let* s := get_state in
  let previous := previous_order_state (st_order_states s) keys in
  let ignored := match previous with
                 | Some p => is_terminal (os_status p)
                             && (negb (is_terminal (oo_status o)) || negb (bool_decide (os_status p = oo_status o)))
                 | None => false
                 end in
  if ignored then mret (no_publish_outcome s)
  else if negb (should_publish_order o previous) then
    let already := match previous with Some p => os_terminal_notified p | None => false end in
    let next := note_orders keys {| os_status := oo_status o; os_terminal_notified := already |} s in
    put_state next ;;;
    mret (no_publish_outcome next)
  else
    let* context := mlift (PolicyContext_new (oo_account_id o) (oo_session_epoch o)
                             ("order:terminal:" +:+ String.concat ":" entity_ids)) in
    let* input := mlift (order_input o context) in
    publish_prepared input (note_orders keys {| os_status := oo_status o; os_terminal_notified := true |})
      now_ms new_id.
End Service.

(** ** Starting *)

Section Start.
Context `{UuidText} `{Sha256Lib} `{Codec json} `{NotificationJson} `{ErrorText}.

Local Abbreviation fits := notification_file_fits_serialized_limit.

(** A document that stays too large is kept as it is. *)
Definition from_snapshot_internal {X} (file : NotificationFileV1) (x : X) (reporter : option Reporter)
    (last_pruned_at_ms : Z) : Service X :=
  let file := (normalize_source_event_index file).1 in
  let capped := enforce_source_index_caps (file, no_mutation) in
  let file := match enforce_serialized_file_cap fits false capped with
              | Ok st => st.1
              | _ => capped.1
              end in
  {| sv_state := {| st_file := file; st_seen_source_events := rebuild_seen_source_events file;
                    st_last_pruned_at_ms := last_pruned_at_ms;
                    st_active_incidents := rebuild_active_incidents file;
                    st_order_states := rebuild_order_states file |};
     sv_persistence := x; sv_events := []; sv_reporter := reporter |}.

(** [impl NotificationPersistence for NotificationStore]. *)
Definition file_persistence (p : path) : NotificationPersistence fs_world := {|
  persist := fun file => NotificationStore.save p file |}.

Definition unsupported_schema : NotificationError :=
  {| ne_code := "UNSUPPORTED_NOTIFICATION_SCHEMA"; ne_message := "通知存储版本暂不支持" |}.

(** The retention and the caps, applied to a document just loaded. *)
Definition housekeep_loaded (configured : gset string) (now_ms : Z) (file : NotificationFileV1)
    : outcome NotificationError (NotificationFileV1 * HousekeepingMutation) :=
  let '(file, pruning) := prune_file (Some configured) now_ms file in
  let '(file, normalized) := normalize_source_event_index file in
  enforce_serialized_file_cap fits true
    (enforce_source_index_caps (file, merge_mutation pruning normalized)).

Definition report_times (n : nat) (now_ms : Z) (r : option Reporter) : option Reporter :=
  Nat.iter n (option_map (reporter_report now_ms)) r.

(** [NotificationService::load]; the reporter outlives a failed start. *)
Definition load_internal (p : path) (configured : gset string) (now_ms timestamp : Z)
    (reporter : option Reporter) (x : fs_world)
    : outcome NotificationError (Service fs_world) * (fs_world * option Reporter) :=
  let '(loaded, x) := load_report p timestamp x in
  match loaded with
  | Halt h => (Halt h, (x, reporter))
  | Err (e, failures) =>
      (Err (map_persistence_error e), (x, report_times (List.length failures) now_ms reporter))
  | Ok report =>
      let reporter := report_times (List.length (lr_write_failures report)) now_ms reporter in
      match lr_status report with
      | UnsupportedSchema _ => (Err unsupported_schema, (x, reporter))
      | _ =>
          match housekeep_loaded configured now_ms (lr_file report) with
          | Err e => (Err e, (x, reporter))
          | Halt h => (Halt h, (x, reporter))
          | Ok (file, pruning) =>
              if negb (hk_changed pruning)
              then (Ok (from_snapshot_internal file x reporter now_ms), (x, reporter))
              else
                let previous_revision := revision file in
                match next_revision file with
                | Err e => (Err e, (x, reporter))
                | Halt h => (Halt h, (x, reporter))
                | Ok file =>
                    let '(saved, x) := NotificationStore.save p file x in
                    match saved with
                    | Err e => (Err (map_persistence_error e), (x, option_map (reporter_report now_ms) reporter))
                    | Halt h => (Halt h, (x, reporter))
                    | Ok _ =>
                        let reporter := option_map reporter_reset reporter in
                        let service := from_snapshot_internal file x reporter now_ms in
                        (Ok (with_event (plain_event previous_revision (previous_revision + 1) Reset
                                           (hk_scopes pruning) None) service), (x, reporter))
                    end
                end
          end
      end
  end.
End Start.
