(* ===== verification/NotificationFacts.v ===== *)
(** Facts of the notification document the theorems share: sorting by age, and
    what [validate_file] says of a document. *)
From coqutil Require Import Datatypes.RecordSettersUsingExistingGetters.
From stdpp Require Import gmap strings sorting.
From Stdlib Require Import Ascii.
From S2P Require Import Prelude RustStr External Models NotificationTypes NotificationPolicy NotificationFile NotificationIncidents NotificationStore NotificationService.
#[local] Open Scope list_scope.

(** No text without characters is a UUID. *)
Class UuidTextLaws `{UuidText} := { uuid_parse_empty : uuid_parse "" = None }.

Create HintDb notification.

(** ** Texts in order *)

Lemma string_compare_refl s : String.compare s s = Eq.
Proof.
  induction s as [|c s IH]; simpl; [done|]. unfold Ascii.compare. by rewrite N.compare_refl.
Qed.

Lemma string_leb_total a b : string_leb a b = true \/ string_leb b a = true.
Proof. unfold string_leb. rewrite (String.compare_antisym b a). destruct (String.compare a b); auto. Qed.

Lemma string_compare_trans a b c :
  string_leb a b = true -> string_leb b c = true -> string_leb a c = true.
Proof.
  unfold string_leb. revert b c. induction a as [|x a IH]; intros [|y b] [|z c]; simpl; try done.
  unfold Ascii.compare.
  destruct (N.compare_spec (Ascii.N_of_ascii x) (Ascii.N_of_ascii y)) as [E|E|E];
  destruct (N.compare_spec (Ascii.N_of_ascii y) (Ascii.N_of_ascii z)) as [F|F|F];
  destruct (N.compare_spec (Ascii.N_of_ascii x) (Ascii.N_of_ascii z)) as [G|G|G];
    try done; try lia. apply IH.
Qed.

(** ** Lists *)

Lemma bool_filter_perm {A} (f : A -> bool) l l' : l ≡ₚ l' -> List.filter f l ≡ₚ List.filter f l'.
Proof.
  induction 1 as [|x l l' H IH|x y l|l l' l'' H IH H' IH']; simpl; [done|..].
  - destruct (f x); [by constructor|done].
  - destruct (f x), (f y); try done. constructor.
  - by etrans.
Qed.

Lemma elem_of_bool_filter {A} (f : A -> bool) x l : x ∈ List.filter f l <-> x ∈ l /\ f x = true.
Proof. rewrite !list_elem_of_In. apply filter_In. Qed.

(** ** Sorting *)

Section Sorting.
Context {A : Type} (leb : A -> A -> bool).
Local Abbreviation le := (fun a b => leb a b = true).

Lemma insert_by_perm x l : insert_by leb x l ≡ₚ x :: l.
Proof.
  induction l as [|y l IH]; simpl; [done|]. destruct (leb x y); [done|]. rewrite IH. constructor.
Qed.

Lemma sort_by_perm l : sort_by leb l ≡ₚ l.
Proof. induction l as [|x l IH]; simpl; [done|]. by rewrite insert_by_perm, IH. Qed.

Context (total : forall a b, le a b \/ le b a) (trans : forall a b c, le a b -> le b c -> le a c).

Lemma insert_by_sorted x l : StronglySorted le l -> StronglySorted le (insert_by leb x l).
Proof.
  induction 1 as [|y l Hs IH Hy]; simpl; [by repeat constructor|].
  destruct (leb x y) eqn:E.
  - repeat constructor; [done..|]. eapply Forall_impl; [exact Hy|]. intros z. by apply trans.
  - constructor; [done|]. rewrite insert_by_perm. constructor; [|done].
    destruct (total x y); congruence.
Qed.

Lemma sort_by_sorted l : StronglySorted le (sort_by leb l).
Proof. induction l; simpl; [constructor|]. by apply insert_by_sorted. Qed.

(** Where the order tells the elements apart, filtering and sorting commute. *)
Lemma sort_by_filter (f : A -> bool) l :
  (forall a b, a ∈ l -> b ∈ l -> le a b -> le b a -> a = b) ->
  sort_by leb (List.filter f l) = List.filter f (sort_by leb l).
Proof.
  intros Ha. apply (StronglySorted_unique_strong le).
  - intros a b Ia Ib. rewrite sort_by_perm in Ia. apply list_elem_of_In, filter_In in Ia as [Ia _].
    apply list_elem_of_In, filter_In in Ib as [Ib _]. apply Ha; [by apply list_elem_of_In|].
    rewrite <- (sort_by_perm l). by apply list_elem_of_In.
  - apply sort_by_sorted.
  - induction (sort_by_sorted l) as [|x l' Hs IH Hx]; simpl; [constructor|].
    destruct (f x); [|done]. constructor; [done|].
    rewrite Forall_forall in Hx. apply Forall_forall. intros y Hy. apply Hx.
    apply list_elem_of_In, filter_In in Hy as [Hy _]. by apply list_elem_of_In.
  - rewrite sort_by_perm. apply bool_filter_perm. by rewrite sort_by_perm.
Qed.
End Sorting.

Lemma age_leb_total a b : age_leb a b = true \/ age_leb b a = true.
Proof.
  destruct a as [t i], b as [t' i']. unfold age_leb. simpl.
  pose proof (string_leb_total i i') as H. unfold string_leb in H.
  destruct (Z.ltb_spec t t'), (Z.ltb_spec t' t), (Z.eqb_spec t t'), (Z.eqb_spec t' t);
    simpl; try lia; auto.
Qed.

Lemma age_leb_trans a b c : age_leb a b = true -> age_leb b c = true -> age_leb a c = true.
Proof.
  destruct a as [t i], b as [t' i'], c as [t'' i'']. unfold age_leb. simpl.
  pose proof (string_compare_trans i i' i'') as H. unfold string_leb in H.
  destruct (Z.ltb_spec t t'), (Z.ltb_spec t' t''), (Z.ltb_spec t t''),
    (Z.eqb_spec t t'), (Z.eqb_spec t' t''), (Z.eqb_spec t t''); simpl; try lia; auto.
Qed.

Lemma age_leb_antisym a b : age_leb a b = true -> age_leb b a = true -> a = b.
Proof.
  destruct a as [t i], b as [t' i']. unfold age_leb. simpl.
  rewrite (String.compare_antisym i' i).
  destruct (Z.ltb_spec t t'), (Z.ltb_spec t' t), (Z.eqb_spec t t'), (Z.eqb_spec t' t);
    simpl; try lia; try done.
  destruct (String.compare i i') eqn:E; simpl; try done.
  apply String.compare_eq_iff in E. congruence.
Qed.

Lemma newest_first_total a b : newest_first a b = true \/ newest_first b a = true.
Proof. apply age_leb_total. Qed.
Lemma newest_first_trans a b c :
  newest_first a b = true -> newest_first b c = true -> newest_first a c = true.
Proof. unfold newest_first. eauto using age_leb_trans. Qed.

(** ** Elements by a key *)

Lemma submseteq_NoDup {A} (l l' : list A) : l ⊆+ l' -> NoDup l' -> NoDup l.
Proof. intros [k ->]%submseteq_Permutation Hd. by apply NoDup_app in Hd as [? _]. Qed.

Lemma elem_of_flat_map {A B} (f : A -> list B) y l : y ∈ flat_map f l <-> exists x, x ∈ l /\ y ∈ f x.
Proof.
  rewrite list_elem_of_In, in_flat_map. by setoid_rewrite list_elem_of_In.
Qed.

(** ** Accepted documents *)

Lemma is_ok_unit {E} (x : outcome E unit) : is_ok x = true <-> x = Ok tt.
Proof. destruct x as [[]|e|h]; simpl; naive_solver. Qed.

Section Accepted.
Context `{UuidText}.

Lemma record_facts r :
  record_validate r = Ok tt ->
  is_generated_uuid (id r) = true /\ created_at_ms r <= MAX_JAVASCRIPT_SAFE_INTEGER /\
  match source_event_id r with
  | Some source => is_safe_notification_source_event_id source = true
  | None => True
  end /\ validate_exact_task5_shape (record_shape r) = Ok tt.
Proof.
  unfold record_validate, is_safe_timestamp. intros Hr. run_ok.
  repeat match goal with E : omap_err _ ?x = Ok _ |- _ => destruct x as [[]| |] eqn:?; simplify_eq/= end.
  bools. split_and!; [done|lia| |done]. destruct (source_event_id r); [by bools|done].
Qed.

Lemma valid_ids file : file_valid file = true -> NoDup (map id (flat_map items (partitions file))).
Proof. unfold file_valid. intros Hf. by bools. Qed.

Lemma valid_record file r :
  file_valid file = true -> r ∈ flat_map items (partitions file) -> record_validate r = Ok tt.
Proof.
  unfold file_valid. intros Hf (p & Hp & Hr)%elem_of_flat_map. bools.
  match goal with E : forallb partition_valid _ = true |- _ =>
    pose proof (proj1 (forallb_forall _ _) E p) as Hpv end.
  rewrite <- list_elem_of_In in Hpv. specialize (Hpv Hp). unfold partition_valid in Hpv. bools.
  match goal with E : forallb _ (items p) = true |- _ =>
    pose proof (proj1 (forallb_forall _ _) E r) as Hrv end.
  rewrite <- list_elem_of_In in Hrv. specialize (Hrv Hr). bools. by apply is_ok_unit.
Qed.

Lemma valid_time file r :
  file_valid file = true -> r ∈ flat_map items (partitions file) ->
  created_at_ms r <= MAX_JAVASCRIPT_SAFE_INTEGER.
Proof. intros Hf Hr. by apply record_facts, (valid_record file). Qed.

Lemma valid_id_present `{!UuidTextLaws} file r :
  file_valid file = true -> r ∈ flat_map items (partitions file) -> id r <> "".
Proof.
  intros Hf Hr E. destruct (record_facts r) as (Hi & _); [by apply (valid_record file)|].
  rewrite E in Hi. unfold is_generated_uuid in Hi. by rewrite uuid_parse_empty in Hi.
Qed.
End Accepted.

(** * Pages of a view *)

(** serde_json at cursors: a cursor of a [u64] time has a text, which reads
    back as the cursor. *)
Class CursorLaws `{Codec CursorV1} := {
  cursor_text c : in_u64 (cu_created_at_ms c) ->
    exists bytes, encode c = Some bytes /\ bytes <> "" /\ decode bytes = Some c;
}.

(** ** The text of a cursor *)

Lemma nibbles_read c :
  hex_byte (byte_val (nibble (byte_val c / 16))) (byte_val (nibble (byte_val c mod 16))) = Some (byte_val c) /\
  byte_val (nibble (byte_val c / 16)) < 128 /\ byte_val (nibble (byte_val c mod 16)) < 128.
Proof. by destruct c as [[] [] [] [] [] [] [] []]. Qed.

Lemma byte_val_ascii c : ascii_of_N (Z.to_N (byte_val c)) = c.
Proof. unfold byte_val. rewrite N2Z.id. apply ascii_N_embedding. Qed.

Lemma hex_round_trip s : hex_decode (hex_encode s) = Some s.
Proof.
  induction s as [|c s IH]; [done|]. cbn -[nibble byte_val].
  destruct (nibbles_read c) as [-> _]. rewrite IH. by rewrite byte_val_ascii.
Qed.

Lemma hex_ascii s : forallb (fun b => b <? 128) (bytes_of (hex_encode s)) = true.
Proof.
  induction s as [|c s IH]; [done|]. unfold bytes_of in *. cbn -[nibble byte_val] in *.
  destruct (nibbles_read c) as (_ & H1 & H2).
  rewrite (proj2 (Z.ltb_lt _ _) H1), (proj2 (Z.ltb_lt _ _) H2). apply IH.
Qed.

Lemma hex_even s : len (hex_encode s) mod 2 = 0.
Proof.
  unfold len. induction s as [|c s IH]; [done|]. cbn [hex_encode String.length].
  rewrite !Nat2Z.inj_succ. replace (Z.succ (Z.succ (Z.of_nat (String.length (hex_encode s)))))
    with (Z.of_nat (String.length (hex_encode s)) + 1 * 2) by lia.
  by rewrite Z_mod_plus_full.
Qed.

Section Cursors.
Context `{CursorLaws}.

Lemma cursor_round_trip c fingerprint filter :
  in_u64 (cu_created_at_ms c) -> cu_version c = 1 -> cu_fingerprint c = fingerprint ->
  cu_filter c = filter -> cu_id c <> "" ->
  exists text, encode_cursor c = Ok ("n1." +:+ text) /\
               decode_cursor ("n1." +:+ text) fingerprint filter = Ok c.
Proof.
  intros Hc Hv Hf Hr Hi. destruct (cursor_text c Hc) as (bytes & E & Hne & D).
  exists (hex_encode bytes). unfold encode_cursor, decode_cursor. rewrite E. split; [done|].
  assert (strip_prefix "n1." ("n1." +:+ hex_encode bytes) = Some (hex_encode bytes)) as -> by done.
  cbn [ok_or obind]. rewrite hex_ascii, hex_even, hex_round_trip.
  destruct bytes as [|b bytes]; [done|]. cbn [ok_or obind]. rewrite D. cbn [ok_or obind guard].
  rewrite Hv, Hf, Hr, String.eqb_refl, bool_decide_eq_true_2 by done.
  destruct (cu_id c); [done|]. done.
Qed.

(** ** A sorted list cut where a cursor stands *)

Lemma filter_drop_sorted (l : list NotificationRecord) n r :
  StronglySorted (fun a b => newest_first a b = true) l ->
  NoDup (map id l) -> last (take (S n) l) = Some r -> (S n <= length l)%nat ->
  List.filter (fun x => negb (age_leb (age r) (age x))) l = drop (S n) l.
Proof.
  intros Hs. revert n. induction Hs as [|x l Hs IH Hx]; intros n Hd Hr Hn; simpl in Hn; [lia|].
  simpl in Hd. apply NoDup_cons in Hd as [Hxn Hd]. simpl drop.
  assert (forall y, y ∈ l -> age_leb (age x) (age y) = false) as Hlt.
  { intros y Hy. apply not_true_iff_false. intros E. rewrite Forall_forall in Hx.
    specialize (Hx y Hy). unfold newest_first in Hx.
    pose proof (age_leb_antisym _ _ E Hx) as Ea. injection Ea as _ Ei.
    destruct Hxn. rewrite Ei. by apply list_elem_of_fmap_2. }
  simpl. destruct n as [|n].
  - simpl in Hr. injection Hr as <-.
    destruct (age_leb_total (age x) (age x)) as [-> | ->]; simpl; rewrite drop_0;
      clear -Hlt; induction l as [|y l IH]; simpl; try done;
      (rewrite Hlt by (apply elem_of_cons; by left)); simpl; f_equal; apply IH; intros z Hz;
      apply Hlt, elem_of_cons; by right.
  - assert (last (take (S n) l) = Some r) as Hr'.
    { destruct l as [|y l]; [simpl in Hn; lia|]. exact Hr. }
    rewrite (IH n) by (done || lia).
    assert (r ∈ l) as Hrl.
    { assert (r ∈ take (S n) l) as Hin by by apply last_Some_elem_of.
      rewrite <- (take_drop (S n) l). apply elem_of_app. by left. }
    rewrite Forall_forall in Hx. specialize (Hx r Hrl). unfold newest_first in Hx.
    by rewrite Hx.
Qed.
End Cursors.

(** ** The pages of a view *)

Section Pages.
Context `{CursorLaws} (s : ServiceState) (context : ViewContext) (filter : NotificationFilter).
Context (limit now_ms : Z).

(** What the view shows: neither expired nor, for an unread query, read. *)
Definition shown (r : NotificationRecord) : bool :=
  negb (is_expired r now_ms) && (bool_decide (filter = All) || bool_decide (read_at_ms r = None)).

Definition visible_records : list NotificationRecord :=
  flat_map items (List.filter (fun p => visible context (pt_scope p)) (partitions (st_file s))).

Definition request_at (cursor : option string) : ListNotificationsRequest :=
  {| req_account_id := vc_account_id context; req_filter := filter; req_cursor := cursor; req_limit := limit |}.

(** A client that follows the cursors. *)
Fixpoint follow (fuel : nat) (cursor : option string)
    : outcome NotificationError (list (list NotificationRecord)) :=
  match fuel with
  | O => Ok []
  | S fuel =>
      let? page := list_state context (request_at cursor) now_ms s in
      match next_cursor page with
      | Some next => let? rest := follow fuel (Some next) in Ok (page_items page :: rest)
      | None => Ok [page_items page]
      end
  end.

Hypothesis request_ok : request_validate (request_at None) = Ok tt.
Hypothesis ids_distinct : NoDup (map id visible_records).
Hypothesis ids_present : Forall (fun r => id r <> "") visible_records.
Hypothesis times_u64 : Forall (fun r => in_u64 (created_at_ms r)) visible_records.

Let k : nat := Z.to_nat limit.
Let matching := List.filter shown visible_records.
Let all := sort_by newest_first matching.

Lemma all_from r : r ∈ all -> r ∈ visible_records.
Proof. unfold all, matching. rewrite sort_by_perm. by intros [? _]%elem_of_bool_filter. Qed.

Lemma all_ids : NoDup (map id all).
Proof.
  unfold all. rewrite sort_by_perm. unfold matching.
  revert ids_distinct. clear. induction visible_records as [|x l IH]; simpl; [done|].
  intros [Hx Hl]%NoDup_cons. destruct (shown x); simpl; [|by apply IH].
  apply NoDup_cons. split; [|by apply IH]. intros (y & E & Hy)%list_elem_of_fmap_1.
  apply elem_of_bool_filter in Hy as [Hy _]. destruct Hx. rewrite E. by apply list_elem_of_fmap_2.
Qed.

Lemma all_sorted : StronglySorted (fun a b => newest_first a b = true) all.
Proof. apply sort_by_sorted; [apply newest_first_total|apply newest_first_trans]. Qed.

Lemma limit_range : 1 <= limit <= MAX_NOTIFICATION_PAGE_LIMIT.
Proof.
  unfold request_validate in request_ok. apply guard_ok in request_ok. bools. simpl in *. bools. lia.
Qed.

Lemma request_later text : request_validate (request_at (Some ("n1." +:+ text))) = Ok tt.
Proof.
  unfold request_validate in *. apply guard_ok in request_ok. bools. apply guard_ok.
  cbn [req_account_id req_cursor req_limit request_at] in *.
  apply orb_false_iff. split; [apply orb_false_iff; split|]; [done|done|].
  by apply negb_false_iff, andb_true_iff.
Qed.

Definition cursor_of (r : NotificationRecord) : CursorV1 :=
  {| cu_version := 1; cu_fingerprint := query_fingerprint context; cu_filter := filter;
     cu_created_at_ms := created_at_ms r; cu_id := id r |}.

(** A cursor that stands after the first [n] records. *)
Definition stands (cursor : option string) (n : nat) : Prop :=
  match n with
  | O => cursor = None
  | S _ => exists text r, cursor = Some ("n1." +:+ text) /\ last (take n all) = Some r /\
             decode_cursor ("n1." +:+ text) (query_fingerprint context) filter = Ok (cursor_of r)
  end.

Lemma selected_matching cursor :
  List.filter (before_cursor cursor)
    (List.filter (fun r => bool_decide (filter = All) || bool_decide (read_at_ms r = None))
       (List.filter (fun r => negb (is_expired r now_ms)) visible_records))
  = List.filter (before_cursor cursor) matching.
Proof.
  f_equal. unfold matching. clear. induction visible_records as [|x l IH]; simpl; [done|].
  unfold shown at 1. destruct (negb (is_expired x now_ms)); simpl; [|done].
  by destruct (_ || _); [f_equal|].
Qed.

Lemma page_at cursor n :
  stands cursor n -> (n <= length all)%nat ->
  exists page, list_state context (request_at cursor) now_ms s = Ok page /\
    page_items page = take k (drop n all) /\
    if Nat.ltb k (length (drop n all))
    then is_Some (next_cursor page) /\ stands (next_cursor page) (n + k)
    else next_cursor page = None.
Proof.
  intros Hc Hn. pose proof limit_range as Hl.
  assert (exists c, match cursor with
                    | Some t => let? c := decode_cursor t (query_fingerprint context) filter in Ok (Some c)
                    | None => Ok None
                    end = Ok (E:=NotificationError) c /\
                    request_validate (request_at cursor) = Ok tt /\
                    List.filter (before_cursor c) all = drop n all) as (c & Ec & Er & Ef).
  { destruct n as [|n]; simpl in Hc.
    - subst cursor. exists None. split_and!; [done..|]. rewrite drop_0. simpl.
      clear. induction all; simpl; congruence.
    - destruct Hc as (text & r & -> & Hr & D). exists (Some (cursor_of r)). rewrite D.
      split_and!; [done|apply request_later|].
      apply (filter_drop_sorted all n r); auto using all_sorted, all_ids. }
  unfold list_state. rewrite Er. cbn [obind omap_err req_account_id req_cursor req_filter req_limit request_at].
  rewrite bool_decide_eq_true_2 by done. cbn [negb guard obind]. rewrite Ec. cbn [obind].
  fold visible_records. rewrite selected_matching, sort_by_filter;
    [|apply newest_first_total|apply newest_first_trans|].
  2: { intros a b Ha Hb H1 H2. pose proof (age_leb_antisym _ _ H1 H2) as E. injection E as _ Ei.
       apply (NoDup_map_inj id visible_records); auto.
       - by apply elem_of_bool_filter in Ha as [? _].
       - by apply elem_of_bool_filter in Hb as [? _]. }
  change (sort_by newest_first matching) with all. rewrite Ef.
  unfold lenz. assert (limit <? Z.of_nat (length (drop n all)) = Nat.ltb k (length (drop n all))) as ->.
  { destruct (Z.ltb_spec limit (Z.of_nat (length (drop n all)))), (Nat.ltb_spec k (length (drop n all)));
      unfold k in *; try done; lia. }
  fold k. destruct (Nat.ltb_spec k (length (drop n all))) as [Hk|Hk].
  2: { eexists. split; [reflexivity|]. done. }
  destruct (last (take k (drop n all))) as [r|] eqn:Hr.
  2: { apply last_None in Hr. apply (f_equal length) in Hr. rewrite length_take in Hr.
       simpl in Hr. unfold k in *. lia. }
  assert (r ∈ visible_records) as Hrv.
  { apply all_from. apply last_Some_elem_of in Hr. apply subseteq_take in Hr. by apply subseteq_drop in Hr. }
  rewrite Forall_forall in ids_present, times_u64.
  destruct (cursor_round_trip (cursor_of r) (query_fingerprint context) filter) as (text & E & D);
    [by apply times_u64|done|done|done|by apply ids_present|].
  fold (cursor_of r). rewrite E. cbn [obind]. eexists. split; [reflexivity|].
  cbn [page_items next_cursor]. split_and!; [done|done|].
  unfold stands. destruct (n + k)%nat eqn:Enk; [unfold k in Enk; lia|]. rewrite <- Enk.
  exists text, r. split_and!; [done| |done].
  rewrite <- (take_drop n all), take_app_ge by (rewrite length_take; lia).
  rewrite length_take, Nat.min_l, last_app by lia.
  replace (n + k - n)%nat with k by lia. by rewrite Hr.
Qed.

(** Every page but the last is full. *)
Fixpoint full_but_last (pages : list (list NotificationRecord)) : Prop :=
  match pages with
  | [] => False
  | [p] => (length p <= k)%nat
  | p :: pages' => length p = k /\ full_but_last pages'
  end.

Lemma follow_from fuel cursor n :
  stands cursor n -> (n <= length all)%nat -> (length all - n < fuel)%nat ->
  exists pages, follow fuel cursor = Ok pages /\ concat pages = drop n all /\ full_but_last pages.
Proof.
  revert cursor n. induction fuel as [|fuel IH]; intros cursor n Hc Hn Hf; [lia|].
  pose proof limit_range. destruct (page_at cursor n Hc Hn) as (page & E & Ei & En).
  cbn [follow]. rewrite E. cbn [obind].
  destruct (Nat.ltb_spec k (length (drop n all))) as [Hk|Hk].
  - destruct En as [[next Hx] Hs]. rewrite Hx in *.
    rewrite length_drop in Hk.
    destruct (IH (Some next) (n + k)%nat) as (pages & Ep & Eq & Hful); [done|lia|unfold k in *; lia|].
    rewrite Ep. cbn [obind]. eexists. split; [reflexivity|]. simpl concat.
    rewrite Eq, Ei, <- drop_drop, take_drop. split; [done|].
    destruct pages; [done|]. split; [|done]. rewrite length_take, length_drop. lia.
  - rewrite En. eexists. split; [reflexivity|]. simpl. rewrite app_nil_r, Ei, take_ge by done.
    split; [done|]. done.
Qed.
End Pages.

(** C34: A client that asks for the first page of a view and follows the cursors it
    is given until there is none reads, with any accepted page size, every
    notification of the view once and nothing else, from the newest to the
    oldest, in pages of which all but the last are full. *)
Theorem pages_enumerate_view `{CursorLaws} `{UuidTextLaws} (s : ServiceState) (context : ViewContext)
    (filter : NotificationFilter) (limit now_ms : Z) (fuel : nat)
    (request_ok : request_validate (request_at context filter limit None) = Ok tt)
    (stored : file_valid (st_file s) = true)
    (typed : Forall (fun r => 0 <= created_at_ms r) (flat_map items (partitions (st_file s))))
    (enough : (length (visible_records s context) < fuel)%nat) :
  exists pages,
    follow s context filter limit now_ms fuel None = Ok pages /\
    concat pages ≡ₚ List.filter (shown filter now_ms) (visible_records s context) /\
    StronglySorted (fun a b => newest_first a b = true) (concat pages) /\
    full_but_last limit pages.
Proof.
  assert (visible_records s context ⊆+ flat_map items (partitions (st_file s))) as Hsub.
  { unfold visible_records. clear. induction (partitions (st_file s)) as [|p l IH]; simpl; [done|].
    destruct (visible context (pt_scope p)); simpl.
    - by apply submseteq_skips_l.
    - by apply submseteq_inserts_l. }
  pose proof (valid_ids _ stored) as Hids.
  destruct (follow_from s context filter limit now_ms request_ok) with (fuel := fuel) (cursor := @None string) (n := 0%nat)
    as (pages & E & Ec & Hf).
  - eapply submseteq_NoDup, Hids. by apply fmap_submseteq.
  - apply Forall_forall. intros r Hr. eapply valid_id_present, elem_of_submseteq, Hsub; [exact stored|done].
  - apply Forall_forall. intros r Hr. assert (r ∈ flat_map items (partitions (st_file s))) as Hin
      by by eapply elem_of_submseteq.
    rewrite Forall_forall in typed. pose proof (typed r Hin). pose proof (valid_time _ r stored Hin).
    unfold in_u64, u64_max, MAX_JAVASCRIPT_SAFE_INTEGER in *. lia.
  - done.
  - lia.
  - rewrite sort_by_perm. pose proof (List.filter_length_le (shown filter now_ms) (visible_records s context)). lia.
  - exists pages. rewrite drop_0 in Ec. split_and!; [done| | |done].
    + by rewrite Ec, sort_by_perm.
    + rewrite Ec. apply sort_by_sorted; [apply newest_first_total|apply newest_first_trans].
Qed.
