(* ===== verification/NotificationValid.v ===== *)
(** services/notification.rs and storage/notification_store.rs: a document is
    accepted by [validate_file] and indexes every source it was created from;
    what takes records out of it keeps it so. *)
From coqutil Require Import Datatypes.RecordSettersUsingExistingGetters.
From stdpp Require Import gmap strings sorting.
From S2P Require Import Prelude RustStr External Models NotificationTypes NotificationPolicy NotificationFile NotificationIncidents NotificationStore NotificationService NotificationFacts.
#[local] Open Scope list_scope.

(** ** The records of a document, with the scope of their partition *)

Definition keyed (p : NotificationPartition) : list (NotificationScope * NotificationRecord) :=
  map (pair (pt_scope p)) (items p).
Definition recs (ps : list NotificationPartition) : list (NotificationScope * NotificationRecord) :=
  flat_map keyed ps.

Definition rec_key (e : NotificationScope * NotificationRecord) : NotificationScope * string := (e.1, id e.2).

Lemma recs_file_keys file : file_keys file = map rec_key (recs (partitions file)).
Proof.
  unfold file_keys, recs. induction (partitions file) as [|p l IH]; simpl; [done|].
  rewrite map_app, IH. f_equal. unfold keyed. by rewrite map_map.
Qed.

Lemma recs_items ps : map snd (recs ps) = flat_map items ps.
Proof.
  unfold recs. induction ps as [|p l IH]; simpl; [done|]. rewrite map_app, IH. f_equal.
  unfold keyed. rewrite map_map. apply map_id.
Qed.

Lemma elem_of_recs s r ps : (s, r) ∈ recs ps <-> exists p, p ∈ ps /\ pt_scope p = s /\ r ∈ items p.
Proof.
  unfold recs, keyed. rewrite elem_of_flat_map. split.
  - intros (p & Hp & (x & [= -> ->] & Hx)%list_elem_of_fmap_1). eauto.
  - intros (p & Hp & <- & Hr). exists p. split; [done|]. by apply (list_elem_of_fmap_2 (pair (pt_scope p))).
Qed.

Definition source_of (e : NotificationSourceEventIndexEntry) : NotificationScope * string :=
  (se_scope e, se_source_event_id e).

(** An entry for a client's source points at the record the source created. *)
Definition client_ok `{UuidText} (e : NotificationSourceEventIndexEntry) (r : NotificationRecord) : Prop :=
  starts_with (se_source_event_id e) "client:" = true ->
  exists attempt suffix,
    client_notification_source_parts (se_source_event_id e) = Some (attempt, kind r, suffix) /\
    source_event_id r = Some (se_source_event_id e).

(** Every record that came from a source is what the index says of the source. *)
Definition indexed (file : NotificationFileV1) : Prop :=
  forall s r source, (s, r) ∈ recs (partitions file) -> source_event_id r = Some source ->
    {| se_scope := s; se_source_event_id := source; se_notification_id := id r |} ∈ source_event_index file.

Section Valid.
Context `{UuidText}.

Record Good (file : NotificationFileV1) : Prop := {
  g_schema : schema_version file = NOTIFICATION_SCHEMA_VERSION;
  g_total : lenz (source_event_index file) <= MAX_NOTIFICATION_SOURCE_INDEX_TOTAL;
  g_counts s : scope_count s (source_event_index file) <= MAX_NOTIFICATION_SOURCE_INDEX_PER_SCOPE;
  g_scopes : NoDup (map pt_scope (partitions file));
  g_parts p : p ∈ partitions file ->
    lenz (items p) <= MAX_NOTIFICATION_PARTITION_ITEMS /\ scope_validate (pt_scope p) = Ok tt;
  g_recs s r : (s, r) ∈ recs (partitions file) -> record_validate r = Ok tt /\ scope r = s;
  g_ids : NoDup (map (fun e => id e.2) (recs (partitions file)));
  g_index : NoDup (map source_of (source_event_index file));
  g_entries e : e ∈ source_event_index file ->
    is_safe_notification_source_event_id (se_source_event_id e) = true /\
    exists r, (se_scope e, r) ∈ recs (partitions file) /\ id r = se_notification_id e /\ client_ok e r;
  g_indexed : indexed file;
}.

Lemma good_id file s r s' r' :
  Good file -> (s, r) ∈ recs (partitions file) -> (s', r') ∈ recs (partitions file) ->
  id r = id r' -> (s, r) = (s', r').
Proof. intros Hg Hr Hr' E. by apply (NoDup_map_inj (fun e => id e.2) _ _ _ (g_ids _ Hg)). Qed.

(** ** [Good] documents are those [validate_file] accepts *)

Definition created_from (e : NotificationScope * NotificationRecord)
    : option ((NotificationScope * string) * string) :=
  option_map (fun k => (k, id e.2)) (creating_source e.1 e.2).

Lemma creating_recs file : creating_sources file = omap created_from (recs (partitions file)).
Proof.
  unfold creating_sources, recs. induction (partitions file) as [|p l IH]; simpl; [done|].
  rewrite omap_app, IH. f_equal. unfold keyed. induction (items p) as [|r l' IH']; [done|].
  unfold omap in *. simpl. by rewrite IH'.
Qed.

Lemma created_from_spec s r k i :
  created_from (s, r) = Some (k, i) <-> source_event_id r = Some k.2 /\ k.1 = s /\ i = id r.
Proof.
  unfold created_from, creating_source. simpl. destruct (source_event_id r), k; simpl; naive_solver.
Qed.

Lemma sources_NoDup l :
  NoDup (map (fun e => id e.2) l) ->
  (forall e e' k i i', e ∈ l -> e' ∈ l -> created_from e = Some (k, i) -> created_from e' = Some (k, i') -> i = i') ->
  NoDup (map fst (omap created_from l)).
Proof.
  induction l as [|[s r] l IH]; intros Hd Hk; [constructor|]. simpl in Hd. apply NoDup_cons in Hd as [Hn Hd].
  assert (NoDup (map fst (omap created_from l))) as Hl.
  { apply IH; [done|]. intros e e' k i i' He He'. apply Hk; by apply elem_of_cons; right. }
  change (omap created_from ((s, r) :: l)) with
    (match created_from (s, r) with Some y => y :: omap created_from l | None => omap created_from l end).
  destruct (created_from (s, r)) as [[k i]|] eqn:E; [|done]. simpl. apply NoDup_cons. split; [|done].
  intros ([k' i'] & -> & ([s' r'] & Hr' & E')%list_elem_of_omap)%list_elem_of_fmap_1. simpl in E.
  assert (i = i') as <- by (eapply (Hk (s, r) (s', r')); [apply elem_of_cons; by left|by apply elem_of_cons; right|exact E|exact E']).
  apply created_from_spec in E as (_ & _ & ->). apply created_from_spec in E' as (_ & _ & Ei).
  apply Hn. rewrite Ei. by apply (list_elem_of_fmap_2 (fun e => id e.2) _ (s', r')).
Qed.

(** Two entries of one source are one entry. *)
Lemma good_source file s r source e :
  Good file -> (s, r) ∈ recs (partitions file) -> source_event_id r = Some source ->
  e ∈ source_event_index file -> source_of e = (s, source) -> se_notification_id e = id r.
Proof.
  intros Hg Hr Hs He Ee. pose proof (g_indexed _ Hg _ _ _ Hr Hs) as Hx.
  by rewrite (NoDup_map_inj source_of _ _ _ (g_index _ Hg) He Hx Ee).
Qed.

Lemma indexed_record_good file s r i :
  NoDup (map (fun e => id e.2) (recs (partitions file))) ->
  (s, r) ∈ recs (partitions file) -> id r = i -> indexed_record i file = Some (s, r).
Proof.
  intros Hd Hr <-. unfold indexed_record.
  change (flat_map (fun p => map (pair (pt_scope p)) (items p)) (partitions file)) with (recs (partitions file)).
  destruct (List.find (fun e => id e.2 ==s id r) (rev (recs (partitions file)))) as [[s' r']|] eqn:E.
  - apply List.find_some in E as [Hin%in_rev Ei]. apply list_elem_of_In in Hin.
    apply String.eqb_eq in Ei. f_equal. by apply (NoDup_map_inj (fun e => id e.2) _ _ _ Hd).
  - eapply List.find_none in E; [|rewrite <- in_rev; by apply list_elem_of_In in Hr].
    simpl in E. by rewrite String.eqb_refl in E.
Qed.

Lemma client_ok_target e s r :
  client_ok e r <-> valid_client_source_target e (Some (s, r)) = true.
Proof.
  unfold client_ok, valid_client_source_target. destruct (starts_with _ _); [|naive_solver].
  destruct (client_notification_source_parts (se_source_event_id e)) as [[[a k] x]|]; split.
  - intros (a' & x' & [= <- -> <-] & E); [done|]. by rewrite E, !bool_decide_eq_true_2.
  - intros Hb _. bools. subst k. eauto.
  - by intros (? & ? & ? & _).
  - done.
Qed.

Lemma good_valid file : Good file -> file_valid file = true.
Proof.
  intros Hg. unfold file_valid. rewrite (g_schema _ Hg), Z.eqb_refl.
  rewrite (proj2 (Z.leb_le _ _) (g_total _ Hg)).
  rewrite (bool_decide_eq_true_2 _ (g_scopes _ Hg)).
  rewrite (bool_decide_eq_true_2 (NoDup (map _ (source_event_index file))) (g_index _ Hg)).
  rewrite <- recs_items, map_map. rewrite (bool_decide_eq_true_2 _ (g_ids _ Hg)).
  rewrite bool_decide_eq_true_2.
  2: { rewrite creating_recs. apply sources_NoDup; [apply (g_ids _ Hg)|].
       intros [s r] [s' r'] k i i' Hr Hr' (E & E1 & ->)%created_from_spec (E' & E1' & ->)%created_from_spec.
       pose proof (g_indexed _ Hg _ _ _ Hr E) as Hx.
       assert (s = s') as -> by congruence. exact (good_source file s' r' k.2 _ Hg Hr' E' Hx eq_refl). }
  rewrite !andb_true_r, andb_true_l. apply andb_true_iff. split.
  - apply forallb_forall. intros p Hp%list_elem_of_In. destruct (g_parts _ Hg p Hp) as [Hl Hs].
    unfold partition_valid. rewrite (proj2 (Z.leb_le _ _) Hl), Hs. simpl. apply forallb_forall.
    intros r Hr%list_elem_of_In. destruct (g_recs _ Hg (pt_scope p) r) as [-> ->].
    { apply elem_of_recs. eauto. }
    by rewrite bool_decide_eq_true_2.
  - apply forallb_forall. intros e He%list_elem_of_In.
    destruct (g_entries _ Hg e He) as (Hs & r & Hr & Hi & Hc).
    unfold entry_valid. rewrite (indexed_record_good file _ _ _ (g_ids _ Hg) Hr Hi), Hs.
    rewrite (proj2 (Z.leb_le _ _) (g_counts _ Hg (se_scope e))), bool_decide_eq_true_2 by done.
    rewrite (proj1 (client_ok_target e _ r) Hc).
    assert (scope_validate (se_scope e) = Ok tt) as ->.
    { apply elem_of_recs in Hr as (p & Hp & <- & _). apply (g_parts _ Hg p Hp). }
    simpl. rewrite negb_true_iff. apply not_true_iff_false.
    intros ([k i] & Hk & Hb)%existsb_exists. simpl in Hb. bools. subst k.
    rewrite <- list_elem_of_In, creating_recs, list_elem_of_omap in Hk. destruct Hk as ([s r'] & Hr' & E).
    apply created_from_spec in E as (E & E1 & ->). simpl in *.
    subst s. pose proof (good_source file _ r' _ e Hg Hr' E He eq_refl) as Ei.
    match goal with E : (_ ==s _) = false |- _ => by rewrite Ei, String.eqb_refl in E end.
Qed.

Lemma valid_good file : file_valid file = true -> indexed file -> Good file.
Proof.
  intros Hv Hx. pose proof (valid_ids file Hv) as Hids. unfold file_valid in Hv. bools.
  rewrite <- recs_items, map_map in Hids.
  match goal with E : forallb partition_valid _ = true |- _ =>
    pose proof (proj1 (forallb_forall _ _) E) as Hp end.
  match goal with E : forallb (entry_valid file) _ = true |- _ =>
    pose proof (proj1 (forallb_forall _ _) E) as He end.
  assert (forall e, e ∈ source_event_index file -> entry_valid file e = true) as He'.
  { intros e Hin. by apply He, list_elem_of_In. }
  split; try done; try lia.
  - intros s. destruct (decide (Exists (fun e => se_scope e = s) (source_event_index file))) as [Hin|Hin].
    + apply Exists_exists in Hin as (e & Hin & <-). specialize (He' e Hin). unfold entry_valid in He'. bools. lia.
    + assert (scope_count s (source_event_index file) = 0) as ->.
      { apply not_Exists_Forall in Hin; [|solve_decision || apply _]. unfold scope_count, lenz. clear -Hin.
        induction Hin as [|e l Hne Hl IH]; [done|]. simpl. by rewrite bool_decide_eq_false_2. }
      unfold MAX_NOTIFICATION_SOURCE_INDEX_PER_SCOPE. lia.
  - intros p Hin%list_elem_of_In. specialize (Hp p Hin). unfold partition_valid in Hp. bools.
    split; [lia|]. by apply is_ok_unit.
  - intros s r (p & Hin%list_elem_of_In & <- & Hr)%elem_of_recs. specialize (Hp p Hin).
    unfold partition_valid in Hp. bools.
    match goal with E : forallb _ (items p) = true |- _ => pose proof (proj1 (forallb_forall _ _) E r) as Hrv end.
    rewrite <- list_elem_of_In in Hrv. specialize (Hrv Hr). bools. split; [by apply is_ok_unit|done].
  - intros e Hin. specialize (He' e Hin). unfold entry_valid in He'. bools. split; [done|].
    destruct (indexed_record (se_notification_id e) file) as [[s r]|] eqn:E; [|done]. bools. subst s.
    exists r. unfold indexed_record in E. apply List.find_some in E as [Hr%in_rev Ei%String.eqb_eq].
    split_and!; [by apply list_elem_of_In|done|]. by apply (client_ok_target e (se_scope e)).
Qed.

(** ** Taking records out *)

(** Partitions dropped, or left with some of their records in any order. *)
Inductive thins : list NotificationPartition -> list NotificationPartition -> Prop :=
| thins_nil : thins [] []
| thins_drop p l l' : thins l l' -> thins (p :: l) l'
| thins_keep p p' l l' :
    pt_scope p' = pt_scope p -> items p' ⊆+ items p -> thins l l' -> thins (p :: l) (p' :: l').

Record shrinks (file file' : NotificationFileV1) : Prop := {
  sh_schema : schema_version file' = schema_version file;
  sh_revision : revision file' = revision file;
  sh_parts : thins (partitions file) (partitions file');
  sh_index : sublist (source_event_index file') (source_event_index file);
  sh_entries e : e ∈ source_event_index file ->
    (e ∈ source_event_index file' <-> entry_key e ∈ file_keys file');
}.

Lemma thins_refl l : thins l l.
Proof. induction l; by constructor. Qed.

Lemma thins_trans l1 l2 l3 : thins l1 l2 -> thins l2 l3 -> thins l1 l3.
Proof.
  intros H12. revert l3. induction H12 as [|p l l' H12 IH|p p' l l' Es Ei H12 IH]; intros l3 H23.
  - done.
  - constructor. by apply IH.
  - inversion H23; subst; [constructor; by apply IH|].
    constructor; [congruence|by etrans|by apply IH].
Qed.

Lemma thins_recs l l' : thins l l' -> recs l' ⊆+ recs l.
Proof.
  unfold recs. induction 1 as [|p l l' H1 IH|p p' l l' Es Ei H1 IH]; simpl; [done|..].
  - by apply submseteq_inserts_l.
  - apply submseteq_app; [|done]. unfold keyed. rewrite Es. by apply fmap_submseteq.
Qed.

Lemma thins_scopes l l' : thins l l' -> sublist (map pt_scope l') (map pt_scope l).
Proof.
  induction 1 as [|p l l' H1 IH|p p' l l' Es Ei H1 IH]; simpl; [constructor|by constructor|].
  rewrite Es. by constructor.
Qed.

Lemma thins_elem l l' p' :
  thins l l' -> p' ∈ l' -> exists p, p ∈ l /\ pt_scope p' = pt_scope p /\ items p' ⊆+ items p.
Proof.
  induction 1 as [|p l l' H1 IH|p q l l' Es Ei H1 IH]; [by intros ?%elem_of_nil|..].
  - intros (x & ? & ?)%IH. exists x. split; [apply elem_of_cons; by right|done].
  - intros [->|Hp]%elem_of_cons; [exists p; split; [apply elem_of_cons; by left|done]|].
    destruct (IH Hp) as (x & ? & ?). exists x. split; [apply elem_of_cons; by right|done].
Qed.

Lemma thins_filter f l : thins l (List.filter f l).
Proof.
  induction l as [|p l IH]; simpl; [constructor|]. destruct (f p); by constructor.
Qed.

Lemma thins_map f l :
  (forall p, pt_scope (f p) = pt_scope p /\ items (f p) ⊆+ items p) -> thins l (map f l).
Proof. intros Hf. induction l as [|p l IH]; simpl; constructor; by try apply Hf. Qed.

Lemma bool_filter_sublist {A} (f : A -> bool) l : sublist (List.filter f l) l.
Proof. induction l as [|x l IH]; simpl; [constructor|]. destruct (f x); by constructor. Qed.

Lemma filter_lenz_sublist {A} (f : A -> bool) l l' :
  sublist l' l -> lenz (List.filter f l') <= lenz (List.filter f l).
Proof.
  unfold lenz. induction 1 as [|x l1 l2 H1 IH|x l1 l2 H1 IH]; simpl; [lia|..];
    destruct (f x); simpl; lia.
Qed.

Lemma key_in_recs file s i :
  (s, i) ∈ file_keys file <-> exists r, (s, r) ∈ recs (partitions file) /\ id r = i.
Proof.
  rewrite recs_file_keys. split.
  - intros ([s' r] & [= -> ->] & Hr)%list_elem_of_fmap_1. eauto.
  - intros (r & Hr & <-). by apply (list_elem_of_fmap_2 rec_key _ (s, r)).
Qed.

Lemma shrinks_recs file file' e :
  shrinks file file' -> e ∈ recs (partitions file') -> e ∈ recs (partitions file).
Proof. intros Hs He. by eapply elem_of_submseteq, thins_recs, (sh_parts _ _ Hs). Qed.

Lemma shrinks_keys file file' k : shrinks file file' -> k ∈ file_keys file' -> k ∈ file_keys file.
Proof.
  destruct k as [s i]. rewrite !key_in_recs. intros Hs (r & Hr & E). exists r. split; [|done].
  by eapply shrinks_recs.
Qed.

Lemma shrinks_good file file' : Good file -> shrinks file file' -> Good file'.
Proof.
  intros Hg Hs. pose proof (sh_parts _ _ Hs) as Ht. pose proof (sh_index _ _ Hs) as Hi.
  assert (forall e, e ∈ source_event_index file' -> e ∈ source_event_index file) as Hin.
  { intros e. by apply sublist_subseteq. }
  split.
  - rewrite (sh_schema _ _ Hs). apply (g_schema _ Hg).
  - pose proof (g_total _ Hg). pose proof (sublist_length _ _ Hi). unfold lenz in *. lia.
  - intros s. pose proof (g_counts _ Hg s). unfold scope_count in *.
    pose proof (filter_lenz_sublist (fun e => bool_decide (se_scope e = s)) _ _ Hi). lia.
  - eapply submseteq_NoDup, (g_scopes _ Hg). by apply sublist_submseteq, thins_scopes.
  - intros p' (p & Hp & -> & Hl)%(thins_elem _ _ _ Ht). destruct (g_parts _ Hg p Hp) as [H1 H2].
    split; [|done]. apply submseteq_length in Hl. unfold lenz in *. lia.
  - intros s r Hr. apply (g_recs _ Hg). by eapply shrinks_recs.
  - eapply submseteq_NoDup, (g_ids _ Hg). by apply fmap_submseteq, thins_recs.
  - eapply submseteq_NoDup, (g_index _ Hg). by apply fmap_submseteq, sublist_submseteq.
  - intros e He. pose proof (proj1 (sh_entries _ _ Hs e (Hin e He)) He) as Hk.
    destruct (g_entries _ Hg e (Hin e He)) as (Hsafe & r & Hr & Hid & Hc). split; [done|].
    apply key_in_recs in Hk as (r' & Hr' & Ei). exists r'. split_and!; [done|done|].
    pose proof (good_id file _ _ _ _ Hg (shrinks_recs _ _ _ Hs Hr') Hr) as E.
    rewrite Ei, Hid in E. specialize (E eq_refl). injection E as ->. done.
  - intros s r source Hr Es. pose proof (g_indexed _ Hg s r source (shrinks_recs _ _ _ Hs Hr) Es) as Hx.
    apply (sh_entries _ _ Hs _ Hx). apply key_in_recs. eauto.
Qed.

Lemma shrinks_refl file : Good file -> shrinks file file.
Proof.
  intros Hg. split; [done|done|apply thins_refl|done|]. intros e He. split; [|done]. intros _.
  destruct (g_entries _ Hg e He) as (_ & r & Hr & Hi & _). apply key_in_recs. eauto.
Qed.

Lemma shrinks_trans f1 f2 f3 : shrinks f1 f2 -> shrinks f2 f3 -> shrinks f1 f3.
Proof.
  intros H12 H23. split.
  - by rewrite (sh_schema _ _ H23), (sh_schema _ _ H12).
  - by rewrite (sh_revision _ _ H23), (sh_revision _ _ H12).
  - eapply thins_trans; [apply H12|apply H23].
  - etrans; [apply (sh_index _ _ H23)|apply (sh_index _ _ H12)].
  - intros e He. split.
    + intros Hx. apply (sh_entries _ _ H23); [|done].
      by eapply sublist_subseteq; [apply (sh_index _ _ H23)|].
    + intros Hk. apply (sh_entries _ _ H23); [|done]. apply (sh_entries _ _ H12); [done|].
      by eapply shrinks_keys.
Qed.

(** Partitions thinned, and the index cleaned after them. *)
Lemma cleanup_shrinks file file' :
  schema_version file' = schema_version file -> revision file' = revision file ->
  source_event_index file' = source_event_index file ->
  thins (partitions file) (partitions file') ->
  shrinks file (cleanup_source_event_index file').2.
Proof.
  intros E1 E2 E3 Ht. unfold cleanup_source_event_index. split; simpl; [done|done|done|..].
  - rewrite E3. apply bool_filter_sublist.
  - intros e He. rewrite E3, elem_of_bool_filter, bool_decide_eq_true. naive_solver.
Qed.

Lemma without_shrinks targets drop file :
  Good file -> (forall p, drop p = true -> items p = []) ->
  shrinks file (without targets drop file).
Proof.
  intros Hg Hd. split; simpl; [done|done|..].
  - eapply thins_trans; [|apply thins_filter]. apply thins_map. intros p. simpl. split; [done|].
    apply sublist_submseteq, bool_filter_sublist.
  - apply bool_filter_sublist.
  - intros e He. destruct (g_entries _ Hg e He) as (_ & r & Hr & Hi & _).
    rewrite elem_of_bool_filter, negb_true_iff, bool_decide_eq_false. destruct (entry_key e) as [s i] eqn:Ek.
    assert (s = se_scope e /\ i = se_notification_id e) as [-> ->] by by injection Ek.
    rewrite key_in_recs. simpl. setoid_rewrite elem_of_recs. split.
    + intros [_ Hn]. exists r. split; [|done]. apply elem_of_recs in Hr as (p & Hp & Es & Hrp).
      eexists. split; [|split].
      * apply elem_of_bool_filter. split; [by apply (list_elem_of_fmap_2 _ _ p)|].
        apply negb_true_iff, not_true_iff_false. intros Ed%Hd. simpl in Ed.
        assert (r ∈ []) as ?%elem_of_nil; [|done]. rewrite <- Ed. apply elem_of_bool_filter.
        split; [done|]. rewrite Es, Hi. by rewrite bool_decide_eq_false_2.
      * done.
      * simpl. apply elem_of_bool_filter. split; [done|]. rewrite Es, Hi. by rewrite bool_decide_eq_false_2.
    + intros (r' & (p' & Hp' & Es & Hr') & Ei). split; [done|].
      apply elem_of_bool_filter in Hp' as [(p & -> & Hp)%list_elem_of_fmap_1 _]. simpl in *.
      apply elem_of_bool_filter in Hr' as [_ Hb]. bools. by rewrite Es, Ei in Hb.
Qed.
End Valid.
