(* ===== verification/NotificationKeep.v ===== *)
(** services/notification.rs: retention and the capacities take records out of
    a document and leave it accepted, within the limits they enforce. *)
From coqutil Require Import Datatypes.RecordSettersUsingExistingGetters.
From stdpp Require Import gmap strings sorting.
From S2P Require Import Prelude RustStr External Models NotificationTypes NotificationPolicy NotificationFile NotificationIncidents NotificationStore NotificationService NotificationFacts NotificationValid.
#[local] Open Scope list_scope.

(** ** Counting what leaves *)

Definition count {A} (f : A -> bool) (l : list A) : Z := lenz (List.filter f l).

Lemma scoped_nonneg {A} (f : A -> bool) l : 0 <= count f l.
Proof. unfold count, lenz. lia. Qed.

Lemma scoped_cons {A} (f : A -> bool) x l : count f (x :: l) = (if f x then 1 else 0) + count f l.
Proof. unfold count, lenz. simpl. destruct (f x); simpl; lia. Qed.

Lemma count_ext {A} (f g : A -> bool) l : (forall x, x ∈ l -> f x = g x) -> count f l = count g l.
Proof.
  intros Hfg. unfold count. f_equal. apply List.filter_ext_in. intros x Hx. apply Hfg. by apply list_elem_of_In.
Qed.

Lemma scoped_zero {A} (f : A -> bool) l : (forall x, x ∈ l -> f x = false) -> count f l = 0.
Proof.
  intros Hf. induction l as [|x l IH]; [done|]. rewrite scoped_cons, Hf by (apply elem_of_cons; by left).
  rewrite IH; [done|]. intros y Hy. apply Hf, elem_of_cons. by right.
Qed.

Lemma count_perm {A} (f : A -> bool) l l' : l ≡ₚ l' -> count f l = count f l'.
Proof. intros P. unfold count, lenz. by rewrite (Permutation_length (bool_filter_perm f _ _ P)). Qed.

(** Elements whose key is in a list of distinct keys leave: each key takes its
    own. *)
Lemma count_without {A K} `{EqDecision K} (key : A -> K) (l : list A) (targets : list K) :
  NoDup targets ->
  lenz l = count (fun x => negb (bool_decide (key x ∈ targets))) l
           + foldr (fun k n => count (fun x => bool_decide (key x = k)) l + n) 0 targets.
Proof.
  intros Hd. induction l as [|x l IH].
  - assert (foldr (fun k n => count (fun x => bool_decide (key x = k)) [] + n) 0 targets = 0) as ->; [|done].
    clear Hd. induction targets as [|k t IHt]; [done|]. simpl. by rewrite IHt.
  - assert (forall t, NoDup t ->
              foldr (fun k n => count (fun x => bool_decide (key x = k)) (x :: l) + n) 0 t
              = (if bool_decide (key x ∈ t) then 1 else 0)
                + foldr (fun k n => count (fun x => bool_decide (key x = k)) l + n) 0 t) as Hs.
    { clear. induction 1 as [|k t Hk Hd IH]; [done|]. cbn [foldr]. rewrite IH, scoped_cons.
      destruct (decide (key x = k)) as [<-|Hn].
      - rewrite (bool_decide_eq_true_2 (key x = key x)), (bool_decide_eq_false_2 (key x ∈ t)) by done.
        rewrite bool_decide_eq_true_2 by (apply elem_of_cons; by left). lia.
      - rewrite (bool_decide_eq_false_2 (key x = k)) by done.
        assert (bool_decide (key x ∈ k :: t) = bool_decide (key x ∈ t)) as ->; [|lia].
        apply bool_decide_ext. rewrite elem_of_cons. naive_solver. }
    rewrite Hs, scoped_cons by done. unfold lenz in *. simpl List.length. rewrite Nat2Z.inj_succ, IH.
    destruct (bool_decide (key x ∈ targets)); simpl; lia.
Qed.

(** What [select_until] takes brings the count down to the limit, or is all. *)
Lemma select_until_spec limit current l :
  0 <= limit -> Forall (fun c => 0 <= c.2) l ->
  exists n, select_until limit current l = map fst (take n l) /\
    (current - foldr (fun c n => c.2 + n) 0 (take n l) <= limit \/ (length l <= n)%nat).
Proof.
  intros Hl. revert current. induction l as [|[r c] l IH]; intros current Hp.
  - exists 0%nat. simpl. split; [done|by right].
  - apply Forall_cons in Hp as [Hc Hp]. simpl in *. unfold saturating_sub.
    destruct (Z.leb_spec (Z.max 0 (current - c)) limit) as [Hle|Hgt].
    + exists 1%nat. simpl. split; [done|]. left. lia.
    + destruct (IH (Z.max 0 (current - c)) Hp) as (n & E & Hn). exists (S n). simpl. rewrite E.
      split; [done|]. destruct Hn; [left; lia|right; lia].
Qed.

Section Keep.
Context `{UuidText}.

(** ** Eviction for the index *)

Definition in_required (required : option NotificationScope) (e : NotificationSourceEventIndexEntry) : bool :=
  in_scope_of required (se_scope e).

(** The candidates [evict_indexed_records_to_limit] sorts. *)
Definition indexed_candidates (required : option NotificationScope) (file : NotificationFileV1)
    : list (NotificationRecord * Z) :=
  let entries := List.filter (in_required required) (source_event_index file) in
  flat_map (fun p => if in_scope_of required (pt_scope p)
                     then List.filter (fun c => 0 <? c.2)
                            (map (fun r => (r, count (fun e => bool_decide (entry_key e = (pt_scope p, id r))) entries))
                               (items p))
                     else []) (partitions file).

Lemma elem_of_candidates required file r n :
  (r, n) ∈ indexed_candidates required file <->
  exists s, (s, r) ∈ recs (partitions file) /\ in_scope_of required s = true /\
    n = count (fun e => bool_decide (entry_key e = (s, id r)))
          (List.filter (in_required required) (source_event_index file)) /\ 0 < n.
Proof.
  unfold indexed_candidates. rewrite elem_of_flat_map. setoid_rewrite elem_of_recs. split.
  - intros (p & Hp & Hc). destruct (in_scope_of required (pt_scope p)) eqn:Es; [|by apply elem_of_nil in Hc].
    apply elem_of_bool_filter in Hc as [(x & [= -> ->] & Hx)%list_elem_of_fmap_1 Hn]. simpl in Hn.
    exists (pt_scope p). split_and!; [by exists p|done|done|lia].
  - intros (s & (p & Hp & <- & Hr) & Es & -> & Hn). exists p. split; [done|]. rewrite Es.
    apply elem_of_bool_filter. split; [|simpl; lia].
    apply list_elem_of_In, in_map_iff. exists r. split; [done|by apply list_elem_of_In].
Qed.

Lemma candidates_ids required file :
  NoDup (map (fun e => id e.2) (recs (partitions file))) ->
  NoDup (map (fun c => id c.1) (indexed_candidates required file)).
Proof.
  intros Hd. eapply submseteq_NoDup, Hd. clear Hd. unfold indexed_candidates, recs.
  set (entries := List.filter _ _). clearbody entries.
  induction (partitions file) as [|p l IH]; simpl; [done|]. rewrite !map_app.
  apply submseteq_app; [|apply IH].
  unfold keyed. rewrite map_map. simpl. destruct (in_scope_of required (pt_scope p)); [|apply submseteq_nil_l].
  induction (items p) as [|r l' IH']; simpl; [done|].
  destruct (0 <? _); simpl; [by apply submseteq_skip|by apply submseteq_cons].
Qed.

Lemma filter_all_in {A} (f : A -> bool) l : (forall x, x ∈ l -> f x = true) -> List.filter f l = l.
Proof.
  intros Hf. induction l as [|x l IH]; [done|]. simpl. rewrite Hf by (apply elem_of_cons; by left).
  f_equal. apply IH. intros y Hy. apply Hf, elem_of_cons. by right.
Qed.

Lemma filter_all {A} (f : A -> bool) l : (forall x, f x = true) -> List.filter f l = l.
Proof. intros Hf. induction l as [|x l IH]; [done|]. simpl. by rewrite Hf, IH. Qed.

Lemma without_nothing (file : NotificationFileV1) :
  without [] (fun p => no_items p && bool_decide (pt_scope p ∈ [])) file = file.
Proof.
  destruct file as [v rv ix ps].
  change (Build_NotificationFileV1 v rv (List.filter (fun _ => true) ix)
    (List.filter (fun p => negb (no_items p && false))
       (map (fun p => {| pt_scope := pt_scope p; items := List.filter (fun _ => true) (items p) |}) ps))
    = Build_NotificationFileV1 v rv ix ps). f_equal.
  - by apply filter_all.
  - rewrite filter_all by (intros p; by rewrite andb_false_r).
    induction ps as [|[s l] ps IH]; [done|]. simpl. rewrite IH. do 2 f_equal. by apply filter_all.
Qed.

Lemma foldr_sum_ext (l : list (NotificationRecord * Z)) (f : NotificationScope * string -> Z) :
  (forall c, c ∈ l -> c.2 = f (scope c.1, id c.1)) ->
  foldr (fun k n => f k + n) 0 (map (fun r => (scope r, id r)) (map fst l)) = foldr (fun c n => c.2 + n) 0 l.
Proof.
  intros Hf. induction l as [|c l IH]; [done|]. simpl. rewrite IH, (Hf c).
  - done.
  - apply elem_of_cons. by left.
  - intros x Hx. apply Hf, elem_of_cons. by right.
Qed.

Lemma evict_indexed_spec required limit protected_id file removed file' :
  Good file -> 0 <= limit ->
  evict_indexed_records_to_limit required limit protected_id file = (removed, file') ->
  shrinks file file' /\
  count (in_required required) (source_event_index file') <= limit /\
  (removed = [] -> file' = file).
Proof.
  intros Hg Hl. unfold evict_indexed_records_to_limit.
  change (fun e => in_scope_of required (se_scope e)) with (in_required required).
  set (entries := List.filter (in_required required) (source_event_index file)).
  destruct (Z.leb_spec (lenz entries) limit) as [Hle|Hgt].
  { intros [= <- <-]. split_and!; [by apply shrinks_refl|done|done]. }
  change (flat_map _ (partitions file)) with (indexed_candidates required file).
  set (order := fun a b : NotificationRecord * Z => _).
  destruct (select_until_spec limit (lenz entries) (sort_by order (indexed_candidates required file)))
    as (n & En & Hsel); [done| |].
  { rewrite sort_by_perm. apply Forall_forall. intros [r c] (s & _ & _ & _ & Hc)%elem_of_candidates.
    simpl. lia. }
  rewrite En. set (taken := take n _) in *. intros [= <- <-].
  assert (taken ⊆+ indexed_candidates required file) as Hsub.
  { unfold taken. rewrite <- (sort_by_perm order (indexed_candidates required file)) at 2.
    apply sublist_submseteq, sublist_take. }
  assert (forall c, c ∈ taken -> exists s, (s, c.1) ∈ recs (partitions file) /\ scope c.1 = s /\
            in_scope_of required s = true /\ c.2 = count (fun e => bool_decide (entry_key e = (s, id c.1))) entries)
    as Htaken.
  { intros [r c] Hc. eapply elem_of_submseteq in Hc; [|exact Hsub].
    apply elem_of_candidates in Hc as (s & Hr & Hs & Ec & _). exists s. split_and!; [done| |done|done].
    by apply (g_recs _ Hg). }
  split_and!.
  - apply without_shrinks; [done|]. intros p Hp. bools. unfold no_items in *. by destruct (items p).
  - set (targets := map (fun r => (scope r, id r)) (map fst taken)).
    assert (NoDup targets) as Hd.
    { unfold targets. assert (NoDup (map (fun c : NotificationRecord * Z => id c.1) taken)) as Hd.
      { eapply submseteq_NoDup, candidates_ids, (g_ids _ Hg); by apply fmap_submseteq. }
      clear -Hd. induction taken as [|c l IH]; [constructor|]. simpl in *. apply NoDup_cons in Hd as [Hc Hd].
      apply NoDup_cons. split; [|by apply IH]. intros (r & [= _ Ei] & (c' & -> & Hc')%list_elem_of_fmap_1)%list_elem_of_fmap_1.
      apply Hc. rewrite Ei. by apply (list_elem_of_fmap_2 (fun c : NotificationRecord * Z => id c.1)). }
    assert (count (in_required required) (source_event_index (without targets
              (fun p => no_items p && bool_decide (pt_scope p ∈ map scope (map fst taken))) file))
            = count (fun e => negb (bool_decide (entry_key e ∈ targets))) entries) as ->.
    { unfold count, entries. simpl. f_equal. clear. induction (source_event_index file) as [|e l IH]; [done|].
      simpl. destruct (in_required required e) eqn:Ei, (negb (bool_decide (entry_key e ∈ targets))) eqn:Et; simpl;
        rewrite ?Ei, ?Et; simpl; by rewrite ?IH. }
    pose proof (count_without entry_key entries targets Hd) as Hc.
    assert (foldr (fun k n => count (fun x => bool_decide (entry_key x = k)) entries + n) 0 targets
            = foldr (fun c n => c.2 + n) 0 taken) as Et.
    { apply (foldr_sum_ext taken (fun k => count (fun x => bool_decide (entry_key x = k)) entries)).
      intros c Hcin. destruct (Htaken c Hcin) as (s & _ & <- & _ & ->). done. }
    rewrite Et in Hc.
    destruct Hsel as [Hsel|Hall]; [lia|].
    assert (count (fun e => negb (bool_decide (entry_key e ∈ targets))) entries = 0) as ->; [|done].
    apply scoped_zero. intros e He. rewrite negb_false_iff, bool_decide_eq_true.
    pose proof He as [Hin Hreq]%elem_of_bool_filter.
    destruct (g_entries _ Hg e Hin) as (_ & r & Hr & Hi & _).
    assert ((r, count (fun e' => bool_decide (entry_key e' = (se_scope e, id r))) entries) ∈ taken) as Ht.
    { unfold taken. rewrite take_ge by done. rewrite sort_by_perm. apply elem_of_candidates.
      exists (se_scope e). split_and!; [done|done|done|].
      assert (e ∈ List.filter (fun e' => bool_decide (entry_key e' = (se_scope e, id r))) entries) as Hx.
      { apply elem_of_bool_filter. split; [done|]. apply bool_decide_eq_true. unfold entry_key. by rewrite Hi. }
      unfold count, lenz. destruct (List.filter _ entries); [by apply elem_of_nil in Hx|]. simpl. lia. }
    unfold targets, entry_key. rewrite <- Hi.
    assert (scope r = se_scope e) as <- by by apply (g_recs _ Hg).
    apply (list_elem_of_fmap_2 (fun r => (scope r, id r))). by apply (list_elem_of_fmap_2 fst _ _ Ht).
  - intros E%fmap_nil_inv. rewrite E. apply without_nothing.
Qed.

(** ** Housekeeping steps *)

(** A step takes records out, and notes it when it does. *)
Definition keeps (st st' : NotificationFileV1 * HousekeepingMutation) : Prop :=
  shrinks st.1 st'.1 /\ (hk_changed st'.2 = false -> st'.1 = st.1 /\ hk_changed st.2 = false).

Lemma keeps_refl st : Good st.1 -> keeps st st.
Proof. intros Hg. split; [by apply shrinks_refl|done]. Qed.

Lemma keeps_trans s1 s2 s3 : keeps s1 s2 -> keeps s2 s3 -> keeps s1 s3.
Proof.
  intros [H1 C1] [H2 C2]. split; [by eapply shrinks_trans|]. intros Hc.
  destruct (C2 Hc) as [-> Hc2]. by apply C1.
Qed.

Lemma keeps_good st st' : Good st.1 -> keeps st st' -> Good st'.1.
Proof. intros Hg [Hs _]. by eapply shrinks_good. Qed.

Lemma note_scope_changed m s : hk_changed (note_scope m s) = true.
Proof. done. Qed.

Lemma foldl_note {A} (f : HousekeepingMutation -> A -> HousekeepingMutation) l m :
  (forall m a, hk_changed (f m a) = true) -> hk_changed (foldl f m l) = false -> l = [] /\ hk_changed m = false.
Proof.
  intros Hf. revert m. induction l as [|a l IH]; intros m; simpl; [done|].
  intros [-> Hc]%IH. by rewrite Hf in Hc.
Qed.

Lemma evict_noting_keeps required limit protected_id st :
  Good st.1 -> 0 <= limit ->
  keeps st (evict_noting required limit protected_id st) /\
  count (in_required required) (source_event_index (evict_noting required limit protected_id st).1) <= limit.
Proof.
  intros Hg Hl. unfold evict_noting.
  destruct (evict_indexed_records_to_limit required limit protected_id st.1) as [removed file'] eqn:E.
  destruct (evict_indexed_spec _ _ _ _ _ _ Hg Hl E) as (Hs & Hc & Hn). simpl. split; [|done].
  split; simpl; [done|]. intros [-> Hm]%foldl_note; [by split; [apply Hn|]|done].
Qed.

Lemma caps_keeps st : Good st.1 -> keeps st (enforce_source_index_caps st).
Proof.
  intros Hg. unfold enforce_source_index_caps. cbn zeta.
  set (over := sort_by _ _). clearbody over.
  assert (forall st, Good st.1 ->
            keeps st (foldl (fun s sc => evict_noting (Some sc) MAX_NOTIFICATION_SOURCE_INDEX_PER_SCOPE None s) st over))
    as Hfold.
  { clear. induction over as [|sc over IH]; intros st Hg; simpl; [by apply keeps_refl|].
    destruct (evict_noting_keeps (Some sc) MAX_NOTIFICATION_SOURCE_INDEX_PER_SCOPE None st Hg) as [Hk _]; [done|].
    eapply keeps_trans; [exact Hk|]. apply IH. by eapply keeps_good. }
  eapply keeps_trans; [by apply Hfold|]. apply evict_noting_keeps; [|done].
  eapply keeps_good; [exact Hg|by apply Hfold].
Qed.

(** *** Retention *)

Lemma prune_items_sub now l : prune_items now l ⊆+ l.
Proof.
  unfold prune_items. set (kept := List.filter _ l).
  assert (kept ⊆+ l) as Hk by apply sublist_submseteq, bool_filter_sublist.
  destruct (_ <? _); [|done]. etrans; [|exact Hk]. rewrite <- (sort_by_perm newest_first kept) at 2.
  apply sublist_submseteq, sublist_take.
Qed.

Lemma filter_full {A} (f : A -> bool) l : length (List.filter f l) = length l -> List.filter f l = l.
Proof.
  induction l as [|x l IH]; [done|]. simpl. destruct (f x); simpl.
  - intros [= E]. by rewrite IH.
  - pose proof (List.filter_length_le f l). lia.
Qed.

Lemma prune_items_full now l : length (prune_items now l) = length l -> prune_items now l = l.
Proof.
  unfold prune_items. set (kept := List.filter _ l).
  pose proof (List.filter_length_le (fun r => negb (is_expired r now)) l) as Hle. fold kept in Hle.
  destruct (Z.ltb_spec MAX_NOTIFICATION_PARTITION_ITEMS (lenz kept)) as [Hgt|_]; [|apply filter_full].
  rewrite length_take. unfold lenz, MAX_NOTIFICATION_PARTITION_ITEMS in *. lia.
Qed.

Lemma note_times_changed n m s : hk_changed (note_times n m s) = false -> n = 0%nat /\ hk_changed m = false.
Proof. revert m. induction n as [|n IH]; intros m; simpl; [done|]. intros [-> Hc]%IH. done. Qed.

Definition note_pruned (now : Z) (m : HousekeepingMutation) (p : NotificationPartition) : HousekeepingMutation :=
  note_times (List.length (items p) - List.length (prune_items now (items p)))%nat m (pt_scope p).
Definition prune_partition (now : Z) (p : NotificationPartition) : NotificationPartition :=
  {| pt_scope := pt_scope p; items := prune_items now (items p) |}.

Lemma note_pruned_changed now ps m :
  hk_changed (foldl (note_pruned now) m ps) = false ->
  map (prune_partition now) ps = ps /\ foldl (note_pruned now) m ps = m.
Proof.
  revert m. induction ps as [|p ps IH]; intros m; simpl; [done|]. intros Hc.
  destruct (IH _ Hc) as [Ep Em]. rewrite Em in *. unfold note_pruned in Hc |- * at 1.
  apply note_times_changed in Hc as [Hn _]. rewrite Hn, Ep. split; [|done]. f_equal.
  destruct p as [s l]. unfold prune_partition. simpl in *. f_equal.
  apply prune_items_full. pose proof (submseteq_length _ _ (prune_items_sub now l)). lia.
Qed.

Lemma note_orphan_changed m p : hk_changed (note_orphan m p) = true.
Proof.
  unfold note_orphan. destruct (items p) as [|r l]; [done|].
  destruct (hk_changed (note_times _ m _)) eqn:E; [done|]. apply note_times_changed in E as [? _]. done.
Qed.

Lemma add_scope_fold_nil (keep : NotificationSourceEventIndexEntry -> bool) l acc :
  foldl (fun l e => if keep e then l else add_scope (se_scope e) l) acc l = [] ->
  List.filter keep l = l /\ acc = [].
Proof.
  revert acc. induction l as [|e l IH]; intros acc; simpl; [done|].
  intros [E Ea]%IH. destruct (keep e); [by rewrite E|].
  unfold add_scope in Ea. destruct (bool_decide (se_scope e ∈ acc)) eqn:Eb; [subst acc; by bools; apply elem_of_nil in Eb|].
  by destruct acc.
Qed.

(** The partitions a pruning keeps, and what it notes before the index. *)
Definition prune_partitions (configured : option (gset string)) (now : Z) (ps : list NotificationPartition)
    : list NotificationPartition * HousekeepingMutation :=
  let pruned := map (prune_partition now) ps in
  let m := foldl (note_pruned now) no_mutation ps in
  let '(kept, m) :=
    match configured with
    | Some configured =>
        (List.filter (fun p => negb (is_orphan configured p)) pruned,
         foldl note_orphan m (List.filter (is_orphan configured) pruned))
    | None => (pruned, m)
    end in
  (List.filter (fun p => negb (no_items p) || negb (bool_decide (pt_scope p ∈ hk_scopes m))) kept, m).

Lemma prune_partitions_thins configured now ps : thins ps (prune_partitions configured now ps).1.
Proof.
  assert (thins ps (map (prune_partition now) ps)) as Hm.
  { apply thins_map. intros p. split; [done|]. apply prune_items_sub. }
  unfold prune_partitions. destruct configured; simpl;
    repeat (eapply thins_trans; [|apply thins_filter]); done.
Qed.

Lemma prune_partitions_unchanged configured now ps :
  hk_changed (prune_partitions configured now ps).2 = false -> (prune_partitions configured now ps).1 = ps.
Proof.
  unfold prune_partitions. destruct configured as [cs|]; simpl; intros Hc.
  - apply foldl_note in Hc as [Eo Hm]; [|apply note_orphan_changed].
    apply note_pruned_changed in Hm as [Ep Em]. rewrite Eo. simpl. rewrite Em, Ep in *. simpl.
    rewrite (filter_all (fun p => _ || _)) by (intros p; by rewrite orb_true_r).
    apply filter_full. clear -Eo. induction ps as [|p ps IH]; [done|]. simpl in *.
    destruct (is_orphan cs p); simpl; [done|]. by rewrite IH.
  - apply note_pruned_changed in Hc as [Ep Em]. rewrite Em, Ep. simpl.
    apply filter_all. intros p. by rewrite orb_true_r.
Qed.

Lemma prune_file_keeps configured now file :
  Good file -> keeps (file, no_mutation) (prune_file configured now file).
Proof.
  intros Hg.
  assert (prune_file configured now file =
    let '(kept, m) := prune_partitions configured now (partitions file) in
    let '(scopes, file) := cleanup_source_event_index (file <| partitions := kept |>) in
    enforce_source_index_caps (file, foldl note_scope m scopes)) as ->.
  { unfold prune_file, prune_partitions. by destruct configured. }
  pose proof (prune_partitions_thins configured now (partitions file)) as Ht.
  pose proof (prune_partitions_unchanged configured now (partitions file)) as Hu.
  destruct (prune_partitions configured now (partitions file)) as [kept m]. cbn [fst snd] in *.
  assert (shrinks file (cleanup_source_event_index (file <| partitions := kept |>)).2) as Hs
    by by apply cleanup_shrinks.
  destruct (cleanup_source_event_index (file <| partitions := kept |>)) as [scopes cleaned] eqn:Ec.
  simpl in Hs. assert (Good cleaned) as Hgc by by eapply shrinks_good.
  destruct (caps_keeps (cleaned, foldl note_scope m scopes) Hgc) as [Hs2 Hc2].
  split; cbn [fst snd] in *; [eapply shrinks_trans; [exact Hs|exact Hs2]|].
  intros Hc. destruct (Hc2 Hc) as [-> [-> Hm]%foldl_note]; [|apply note_scope_changed].
  split; [|done]. rewrite (Hu Hm) in *. unfold cleanup_source_event_index in Ec.
  injection Ec as Esc <-. apply add_scope_fold_nil in Esc as [Ei _].
  destruct file as [v rv ix ps]. exact (f_equal (fun l => Build_NotificationFileV1 v rv l ps) Ei).
Qed.

(** *** Room for one more record *)

Lemma concat_imap_elem {A B} (f : nat -> A -> list B) (l : list A) y :
  y ∈ concat (imap f l) <-> exists i x, l !! i = Some x /\ y ∈ f i x.
Proof.
  rewrite list_elem_of_In, in_concat. setoid_rewrite <- list_elem_of_In. split.
  - intros (z & (i & x & -> & Hx)%elem_of_lookup_imap_1 & Hy). eauto.
  - intros (i & x & Hx & Hy). exists (f i x). split; [|done]. by apply elem_of_lookup_imap_2.
Qed.

Lemma positions_elem required file i j r :
  (i, j, r) ∈ positions required file <->
  exists p, partitions file !! i = Some p /\ items p !! j = Some r /\ in_scope_of required (pt_scope p) = true.
Proof.
  unfold positions. rewrite concat_imap_elem. split.
  - intros (i' & p & Hp & Hin). destruct (in_scope_of required (pt_scope p)) eqn:Es; [|by apply elem_of_nil in Hin].
    apply elem_of_lookup_imap_1 in Hin as (j' & x & [= -> -> ->] & Hx). eauto.
  - intros (p & Hp & Hr & Es). exists i, p. split; [done|]. rewrite Es.
    by apply (elem_of_lookup_imap_2 (fun j r => (i, j, r)) (items p) r j).
Qed.

Lemma oldest_of_spec required file :
  match oldest_of required file with
  | Some c => c ∈ positions required file
  | None => positions required file = []
  end.
Proof.
  unfold oldest_of.
  assert (forall (l : list (nat * nat * NotificationRecord)) best,
    match foldl (fun best c => match best with
                               | Some b => if age_leb (age b.2) (age c.2) then best else Some c
                               | None => Some c
                               end) best l with
    | Some c => c ∈ l \/ best = Some c
    | None => l = [] /\ best = None
    end) as H0.
  { induction l as [|c l IH]; intros best; simpl; [destruct best; auto|].
    set (best' := match best with Some b => _ | None => _ end). specialize (IH best').
    destruct (foldl _ best' l) as [x|] eqn:E.
    - destruct IH as [Hx|Hx]; [left; apply elem_of_cons; by right|]. subst best'.
      destruct best as [b|]; [|left; apply elem_of_cons; left; congruence].
      destruct (age_leb _ _); [by right|left; apply elem_of_cons; left; congruence].
    - destruct IH as [-> Hb]. subst best'. destruct best as [b|]; [|done]. by destruct (age_leb _ _). }
  specialize (H0 (positions required file) None). destruct (foldl _ _ _); [|by destruct H0].
  destruct H0; [done|discriminate].
Qed.

(** The records of one scope. *)
Definition of_scope (s : NotificationScope) (e : NotificationScope * NotificationRecord) : bool :=
  bool_decide (e.1 = s).

Lemma scope_count_recs file s :
  NoDup (map pt_scope (partitions file)) ->
  partition_record_count file s = count (of_scope s) (recs (partitions file)).
Proof.
  unfold partition_record_count, find_partition, recs, count. intros Hd.
  assert (forall p, List.filter (of_scope s) (keyed p) = if bool_decide (pt_scope p = s) then keyed p else []) as Hk.
  { intros p. unfold keyed. induction (items p) as [|r l IH]; simpl; [by case_bool_decide|].
    rewrite IH. unfold of_scope. simpl. by case_bool_decide. }
  induction (partitions file) as [|p ps IH]; [done|]. simpl in *. apply NoDup_cons in Hd as [Hp Hd].
  rewrite List.filter_app, Hk. destruct (bool_decide (pt_scope p = s)) eqn:E; [|by apply IH]. bools. subst s.
  assert (List.filter (of_scope (pt_scope p)) (flat_map keyed ps) = []) as ->.
  { clear -Hp. induction ps as [|q ps IH]; [done|]. simpl in *. rewrite List.filter_app, IH by set_solver.
    rewrite app_nil_r. unfold keyed. induction (items q) as [|r l IHl]; [done|]. simpl. unfold of_scope at 1. simpl.
    rewrite bool_decide_eq_false_2; [done|]. set_solver. }
  rewrite app_nil_r. unfold keyed, lenz. by rewrite length_map.
Qed.

Lemma recs_delete_item ps i j p r :
  ps !! i = Some p -> items p !! j = Some r ->
  let ps' := alter (fun p => {| pt_scope := pt_scope p; items := delete j (items p) |}) i ps in
  recs ps ≡ₚ (pt_scope p, r) :: recs ps' /\ thins ps ps' /\
  (items p = [r] -> recs (delete i ps') = recs ps').
Proof.
  revert i. induction ps as [|q ps IH]; intros i Hp Hr; [done|]. destruct i as [|i]; simpl in *.
  - injection Hp as ->. unfold recs. simpl. split_and!.
    + unfold keyed at 1 3. simpl. apply delete_Permutation in Hr as Hperm.
      change (map (pair (pt_scope p)) (items p) ++ flat_map keyed ps ≡ₚ
        map (pair (pt_scope p)) (r :: delete j (items p)) ++ flat_map keyed ps). by rewrite <- Hperm.
    + constructor; [done| |apply thins_refl]. simpl. apply sublist_submseteq, sublist_delete.
    + intros E. rewrite E in *. by destruct j as [|[|]].
  - destruct (IH i Hp Hr) as (H1 & H2 & H3). unfold recs in *. simpl. split_and!.
    + rewrite H1. by rewrite <- Permutation_middle.
    + by constructor.
    + intros E. f_equal. exact (H3 E).
Qed.

Lemma evict_oldest_spec s file :
  Good file ->
  match evict_oldest_record (Some s) file with
  | Some (s', file') =>
      s' = s /\ shrinks file file' /\
      count (of_scope s) (recs (partitions file)) = 1 + count (of_scope s) (recs (partitions file'))
  | None => count (of_scope s) (recs (partitions file)) = 0
  end.
Proof.
  intros Hg. unfold evict_oldest_record. pose proof (oldest_of_spec (Some s) file) as Ho.
  destruct (oldest_of (Some s) file) as [[[i j] r]|].
  2: { apply scoped_zero. intros [s' r] (p & [i Hp]%list_elem_of_lookup & <- & [j Hr]%list_elem_of_lookup)%elem_of_recs.
       unfold of_scope. apply bool_decide_eq_false. simpl. intros E.
       assert ((i, j, r) ∈ positions (Some s) file) as Hx; [|rewrite Ho in Hx; by apply elem_of_nil in Hx].
       apply positions_elem. exists p. split_and!; [done|done|]. by apply bool_decide_eq_true. }
  apply positions_elem in Ho as (p & Hp & Hr & Hs). simpl in Hs. bools. rewrite Hp.
  destruct (recs_delete_item (partitions file) i j p r Hp Hr) as (Hperm & Ht & Hone).
  set (f1 := remove_at i j file).
  set (f2 := match items p with [_] => _ | _ => _ end).
  assert (recs (partitions f2) = recs (partitions f1) /\ thins (partitions file) (partitions f2) /\
          schema_version f2 = schema_version file /\ revision f2 = revision file /\
          source_event_index f2 = source_event_index file) as (Er & Ht2 & E1 & E2 & E3).
  { subst f2. destruct (items p) as [|x [|y l]] eqn:Ei; [done| |done].
    assert (x = r) as -> by (destruct j as [|[|]]; simpl in Hr; congruence).
    split_and!; [by apply Hone| |done|done|done].
    eapply thins_trans; [exact Ht|]. simpl. clear. generalize (alter
      (λ p : NotificationPartition, {| pt_scope := pt_scope p; items := delete j (items p) |}) i (partitions file)).
    intros l. revert i. induction l as [|q l IH]; intros i; [constructor|]. destruct i; simpl; [constructor; apply thins_refl|].
    constructor; [done..|apply IH]. }
  split_and!; [by subst|by apply cleanup_shrinks|].
  change (partitions (cleanup_source_event_index f2).2) with (partitions f2). rewrite Er, (count_perm _ _ _ Hperm), scoped_cons.
  unfold of_scope at 1. simpl. subst s. by rewrite bool_decide_eq_true_2.
Qed.

Lemma make_room_keeps fuel s st :
  Good st.1 -> count (of_scope s) (recs (partitions st.1)) < Z.of_nat fuel + MAX_NOTIFICATION_PARTITION_ITEMS ->
  keeps st (make_room fuel s st) /\
  partition_record_count (make_room fuel s st).1 s < MAX_NOTIFICATION_PARTITION_ITEMS.
Proof.
  revert st. induction fuel as [|fuel IH]; intros st Hg Hf; cbn [make_room].
  { split; [by apply keeps_refl|]. rewrite scope_count_recs by apply (g_scopes _ Hg). lia. }
  destruct (Z.leb_spec MAX_NOTIFICATION_PARTITION_ITEMS (partition_record_count st.1 s)) as [Hle|Hgt];
    [|by split; [apply keeps_refl|]].
  rewrite scope_count_recs in Hle by apply (g_scopes _ Hg).
  pose proof (evict_oldest_spec s st.1 Hg) as He.
  destruct (evict_oldest_record (Some s) st.1) as [[s' file']|].
  - destruct He as (-> & Hs & Hc).
    destruct (IH (file', note_removed_record st.2 s)) as [Hk Hlt]; simpl; [by eapply shrinks_good|lia|].
    split; [|done]. eapply keeps_trans; [|exact Hk]. split; simpl; [done|]. by intros.
  - split; [by apply keeps_refl|]. unfold MAX_NOTIFICATION_PARTITION_ITEMS in *. lia.
Qed.

(** ** Before a publication *)

Lemma shrinks_count f file file' :
  shrinks file file' -> count f (source_event_index file') <= count f (source_event_index file).
Proof. intros Hs. apply filter_lenz_sublist, Hs. Qed.

Definition scope_room (s : NotificationScope) (file : NotificationFileV1) : Prop :=
  count (in_required (Some s)) (source_event_index file) <= MAX_NOTIFICATION_SOURCE_INDEX_PER_SCOPE - 1 /\
  count (in_required None) (source_event_index file) <= MAX_NOTIFICATION_SOURCE_INDEX_TOTAL - 1.

Lemma scope_room_shrinks s file file' : shrinks file file' -> scope_room s file -> scope_room s file'.
Proof.
  intros Hs [H1 H2]. pose proof (shrinks_count (in_required (Some s)) _ _ Hs).
  pose proof (shrinks_count (in_required None) _ _ Hs). split; lia.
Qed.

Lemma make_room_ready s st :
  Good st.1 ->
  keeps st (make_room (List.length (file_keys st.1)) s st) /\
  partition_record_count (make_room (List.length (file_keys st.1)) s st).1 s < MAX_NOTIFICATION_PARTITION_ITEMS.
Proof.
  intros Hg. apply make_room_keeps; [done|]. rewrite recs_file_keys, length_map.
  pose proof (List.filter_length_le (of_scope s) (recs (partitions st.1))).
  unfold count, lenz, MAX_NOTIFICATION_PARTITION_ITEMS. lia.
Qed.

Lemma prepare_file_spec input now file st :
  Good file -> prepare_file_for_publish input now file = Ok st ->
  keeps (file, no_mutation) st /\
  (is_Some (in_source_event_id input) -> scope_room (in_scope input) st.1) /\
  (semantic_target input st.1 = None ->
   partition_record_count st.1 (in_scope input) < MAX_NOTIFICATION_PARTITION_ITEMS).
Proof.
  intros Hg. unfold prepare_file_for_publish. pose proof (prune_file_keeps None now file Hg) as Hk.
  destruct (prune_file None now file) as [f1 m1]. intros Hp. run_ok. rename x into st1.
  assert (keeps (f1, m1) st1 /\ (is_Some (in_source_event_id input) -> scope_room (in_scope input) st1.1)) as [Hk1 Hr1].
  { assert (Good f1) as Hg1 by exact (keeps_good (file, no_mutation) (f1, m1) Hg Hk).
    destruct (in_source_event_id input).
    2: { run_ok. split; [by apply keeps_refl|by intros []]. }
    run_ok. set (protected_id := option_map id (semantic_target input f1)).
    destruct (evict_noting_keeps (Some (in_scope input)) (saturating_sub MAX_NOTIFICATION_SOURCE_INDEX_PER_SCOPE 1)
                protected_id (f1, m1) Hg1) as [Ha Ca]; [done|].
    set (st2 := evict_noting (Some _) _ _ _) in *.
    destruct (evict_noting_keeps None (saturating_sub MAX_NOTIFICATION_SOURCE_INDEX_TOTAL 1)
                protected_id st2) as [Hb Cb]; [exact (keeps_good (f1, m1) st2 Hg1 Ha)|done|].
    split; [by eapply keeps_trans|]. intros _. split; [|exact Cb].
    pose proof (shrinks_count (in_required (Some (in_scope input))) _ _ (proj1 Hb)).
    unfold saturating_sub, MAX_NOTIFICATION_SOURCE_INDEX_PER_SCOPE in *. lia. }
  assert (keeps (file, no_mutation) st1) as Hk01 by by eapply keeps_trans.
  assert (Good st1.1) as Hg1 by exact (keeps_good (file, no_mutation) st1 Hg Hk01).
  destruct (semantic_target input st1.1) eqn:Et; run_ok.
  - split_and!; [done|done|]. by rewrite Et.
  - destruct (make_room_ready (in_scope input) st1 Hg1) as [Hm Hlt]. split_and!; [by eapply keeps_trans| |done].
    intros Hs. eapply scope_room_shrinks; [apply Hm|by apply Hr1].
Qed.

Lemma bisect_above fuel fits lower upper n :
  (lower < upper)%nat -> bisect fuel fits lower upper = Ok n -> (lower < n)%nat.
Proof.
  revert lower upper. induction fuel as [|fuel IH]; intros lower upper Hlt; cbn [bisect]; [by intros [= <-]|].
  destruct (Nat.ltb_spec (lower + 1) upper) as [Hgap|]; [|by intros [= <-]]. intros Hb. run_ok.
  pose proof (Nat.div_str_pos (upper - lower) 2 ltac:(lia)). pose proof (Nat.div_lt (upper - lower) 2 ltac:(lia) ltac:(lia)).
  destruct x.
  - eapply (IH lower); [|done]. lia.
  - apply IH in Hb; lia.
Qed.

Lemma remove_candidates_keeps st selected :
  Good st.1 -> selected <> [] -> keeps st (remove_record_candidates selected st.1, note_candidates st.2 selected).
Proof.
  intros Hg Hn. split; simpl.
  - apply without_shrinks; [done|]. unfold no_items. intros p. by destruct (items p).
  - unfold note_candidates. by intros [? _]%foldl_note.
Qed.

Lemma reserve_keeps fits prepared st st' :
  Good st.1 -> reserve_serialized_capacity_for_publish fits prepared st = Ok st' -> keeps st st'.
Proof.
  intros Hg. unfold reserve_serialized_capacity_for_publish. destruct st as [file m]. intros Hr. run_ok.
  destruct x; run_ok; [by apply keeps_refl|]. bools.
  match goal with E : bisect _ _ _ _ = Ok ?n |- _ => rename n into k; apply bisect_above in E end.
  - apply (remove_candidates_keeps (file, m)); [done|]. intros E. apply (f_equal length) in E.
    rewrite length_take in E. simpl in E. destruct (eviction_candidates _ _); simpl in *; [done|lia].
  - destruct (eviction_candidates _ _); simpl in *; [done|lia].
Qed.

Lemma gallop_above fuel fits total lower upper lo up :
  (lower < upper <= total)%nat -> gallop fuel fits total lower upper = Ok (lo, up) -> (lo < up <= total)%nat.
Proof.
  revert lower upper. induction fuel as [|fuel IH]; intros lower upper Hlt; simpl; [done|]. intros Hx. run_ok.
  destruct x; run_ok; [done|]. destruct (Nat.eqb_spec upper total); run_ok. eapply IH; [|done]. lia.
Qed.

Lemma enforce_cap_keeps fits persists st st' :
  Good st.1 -> enforce_serialized_file_cap fits persists st = Ok st' -> keeps st st'.
Proof.
  intros Hg. unfold enforce_serialized_file_cap. destruct st as [file m]. intros Hr. run_ok.
  destruct x; run_ok; [by apply keeps_refl|]. bools.
  match goal with E : gallop _ _ _ _ _ = Ok ?x |- _ => destruct x as [lo up] end. run_ok.
  set (candidates := eviction_candidates None file) in *.
  assert (length candidates <> 0)%nat as Hl by by destruct candidates.
  match goal with E : gallop _ _ _ _ _ = Ok _ |- _ => apply gallop_above in E; [|lia] end.
  match goal with E : bisect _ _ _ _ = Ok ?n |- _ => apply bisect_above in E; [|lia] end.
  apply (remove_candidates_keeps (file, m)); [done|]. intros E. apply (f_equal length) in E.
  rewrite length_take in E. simpl in E. lia.
Qed.
End Keep.
