(* ===== verification/NotificationPublish.v ===== *)
(** services/notification.rs: writing a prepared notification into a document
    that has room for it leaves the document accepted. *)
From Stdlib Require Import Ascii.
From coqutil Require Import Datatypes.RecordSettersUsingExistingGetters.
From stdpp Require Import gmap strings sorting.
From S2P Require Import Prelude RustStr External Models NotificationTypes NotificationPolicy NotificationFile NotificationIncidents NotificationStore NotificationService NotificationFacts NotificationValid NotificationKeep.
#[local] Open Scope list_scope.

(** ** The source of a client's notification *)

Lemma split_on_nonempty p s : split_on p s <> [].
Proof. destruct s as [|c s]; simpl; [done|]. destruct (p (byte_val c)); [done|]. by destruct (split_on p s). Qed.

Lemma split_single p s b : split_on p s = [b] -> s = b.
Proof.
  revert b. induction s as [|c s IH]; intros b; simpl; [congruence|].
  destruct (p (byte_val c)); [intros [= _ E]; by apply split_on_nonempty in E|].
  pose proof (split_on_nonempty p s). destruct (split_on p s) as [|x l]; [done|].
  intros [= <- ->]. by rewrite (IH x eq_refl).
Qed.

Lemma split_pair s a b : split_on colon s = [a; b] -> s = a +:+ ":" +:+ b.
Proof.
  revert a b. induction s as [|c s IH]; intros a b; simpl; [done|].
  destruct (colon (byte_val c)) eqn:Ec.
  - intros [= <- E]. apply split_single in E as ->.
    by assert (c = ":"%char) as -> by (destruct c as [[] [] [] [] [] [] [] []]; done).
  - pose proof (split_on_nonempty colon s). destruct (split_on colon s) as [|x l]; [done|].
    intros [= <- ->]. simpl. by rewrite (IH x b eq_refl).
Qed.

Lemma strip_prefix_app p s t : strip_prefix p s = Some t -> s = p +:+ t.
Proof.
  revert s. induction p as [|c p IH]; intros s; simpl; [by intros [= ->]|].
  destruct s as [|d s]; [done|]. destruct (Ascii.eqb_spec c d) as [->|]; [|done].
  intros E. by rewrite (IH s E).
Qed.

Section Publish.
Context `{UuidText}.

Lemma client_source_text source attempt k suffix :
  client_notification_source_parts source = Some (attempt, k, suffix) ->
  source = "client:" +:+ attempt +:+ ":" +:+ suffix /\ is_client_kind k = true.
Proof.
  unfold client_notification_source_parts, client_parts.
  destruct (strip_prefix "client:" source) as [rest|] eqn:E; [|done]. apply strip_prefix_app in E as ->.
  destruct (split_on colon rest) as [|a [|b [|? ?]]] eqn:Es; try done. apply split_pair in Es as ->.
  destruct (is_generated_uuid a); [|done]. simpl.
  destruct (String.eqb_spec b "recovery") as [->|]; [by intros [= <- <- <-]|].
  destruct (String.eqb_spec b "reconciliation") as [->|]; [by intros [= <- <- <-]|done].
Qed.

(** A shape the source's rules accept, of a client's kind, comes from the
    client source its dedupe key repeats. *)
Lemma client_shape_source input :
  validate_exact_task5_shape input = Ok tt -> is_client_kind (in_kind input) = true ->
  exists source attempt suffix,
    in_source_event_id input = Some source /\ in_dedupe_key input = source /\
    client_notification_source_parts source = Some (attempt, in_kind input, suffix).
Proof.
  unfold validate_exact_task5_shape. intros Hv Hk. run_ok. bools.
  match goal with E : kind_shape input = true |- _ => rename E into Hs end.
  assert (exists suffix, client_failure_identity_matches input suffix = true) as (suffix & Hm).
  { unfold kind_shape in Hs. destruct (in_kind input) eqn:Ek; try done; unfold client_shape in Hs;
      destruct (in_scope input); try done; bools; eauto. }
  unfold client_failure_identity_matches in Hm. destruct (in_source_event_id input) as [source|]; [|done].
  destruct (client_notification_source_parts source) as [[[a k] x]|] eqn:Ep; [|done]. bools.
  match goal with E : (x ==s suffix) = true |- _ => apply String.eqb_eq in E as -> end. subst k.
  destruct (client_source_text _ _ _ _ Ep) as [Et _]. exists source, a, suffix. split_and!; [done| |done].
  match goal with E : (in_dedupe_key input ==s _) = true |- _ => apply String.eqb_eq in E as -> end. done.
Qed.

(** What a producer may hand over: only a client's notification uses a client's
    source or dedupe key. *)
Definition client_marked (input : NotificationInput) : Prop :=
  is_client_kind (in_kind input) = false ->
  starts_with (in_dedupe_key input) "client:" = false /\
  forall source, in_source_event_id input = Some source -> starts_with source "client:" = false.

Lemma validate_publish_facts input :
  validate_publish_input input = Ok tt ->
  validate_exact_task5_shape input = Ok tt /\
  match in_session_epoch input with Some e => e <= MAX_JAVASCRIPT_SAFE_INTEGER | None => True end.
Proof.
  unfold validate_publish_input, input_validate. intros Hv. run_ok.
  match goal with E : omap_err _ ?x = Ok _ |- _ => destruct x as [[]| |] eqn:Hi; simplify_eq/= end.
  run_ok. split; [done|]. destruct (in_session_epoch input); [lia|done].
Qed.

(** ** What is prepared *)

Lemma find_partition_elem s file p : find_partition s file = Some p -> p ∈ partitions file /\ pt_scope p = s.
Proof. unfold find_partition. intros [Hp Hb]%List.find_some. bools. by rewrite list_elem_of_In. Qed.

Lemma semantic_target_spec input file x :
  semantic_target input file = Some x ->
  (in_scope input, x) ∈ recs (partitions file) /\ dedupe_key x = in_dedupe_key input.
Proof.
  unfold semantic_target. destruct (find_partition (in_scope input) file) as [p|] eqn:E; [|done].
  apply find_partition_elem in E as [Hp Hs]. intros [Hx Hk%String.eqb_eq]%List.find_some. split; [|done].
  rewrite <- list_elem_of_In in Hx. apply elem_of_recs. eauto.
Qed.

(** The entry the source of an input adds. *)
Definition prepared_entry (input : NotificationInput) (r : NotificationRecord)
    : option NotificationSourceEventIndexEntry :=
  option_map (fun source => {| se_scope := in_scope input; se_source_event_id := source; se_notification_id := id r |})
    (in_source_event_id input).

(** A prepared publication of [input] over a document. *)
Inductive prepared_for (input : NotificationInput) (new_id : string) (file : NotificationFileV1)
    (pp : PreparedPublish) : Prop :=
| prepared_created :
    pp_change pp = Created ->
    semantic_target input file = None ->
    id (pp_record pp) = new_id -> source_event_id (pp_record pp) = in_source_event_id input ->
    pp_toast_candidate pp = Some {|
      toast_id := id (pp_record pp); toast_scope := scope (pp_record pp);
      toast_session_epoch := in_session_epoch input; toast_category := category (pp_record pp);
      toast_severity := severity (pp_record pp); toast_content := content (pp_record pp);
      toast_action := action (pp_record pp) |} ->
    prepared_for input new_id file pp
| prepared_updated x :
    pp_change pp = Updated ->
    semantic_target input file = Some x ->
    id (pp_record pp) = id x -> source_event_id (pp_record pp) = source_event_id x ->
    dedupe_key (pp_record pp) = dedupe_key x ->
    pp_toast_candidate pp = None ->
    prepared_for input new_id file pp.

Lemma prepare_record_spec file input now new_id pp :
  Good file -> prepare_publish_record file input now new_id = Ok pp ->
  prepared_for input new_id file pp /\ record_validate (pp_record pp) = Ok tt /\
  scope (pp_record pp) = in_scope input /\ kind (pp_record pp) = in_kind input /\
  pp_source_entry pp = prepared_entry input (pp_record pp).
Proof.
  intros Hg. unfold prepare_publish_record.
  destruct (semantic_target input file) as [x|] eqn:Et; intros Hp; run_ok; cbn zeta beta in *; run_ok;
    match goal with E : omap_err _ ?v = Ok _ |- _ => destruct v as [[]| |] eqn:Hv; simplify_eq/= end;
    simpl; (split_and!; [|done| |done|unfold prepared_entry, source_key; by destruct (in_source_event_id input)]).
  - by eapply prepared_updated.
  - destruct (semantic_target_spec _ _ _ Et) as [Hx _]. by apply (g_recs _ Hg) in Hx as [_ ->].
  - by apply prepared_created.
  - done.
Qed.

(** ** Writing it *)

Lemma push_record_recs r ps : recs (push_record r ps) ≡ₚ (scope r, r) :: recs ps.
Proof.
  unfold recs. induction ps as [|p ps IH]; simpl; [done|].
  destruct (bool_decide (pt_scope p = scope r)) eqn:E; simpl.
  - bools. unfold keyed. simpl. rewrite map_app, E. simpl. rewrite <- app_assoc. simpl.
    by rewrite <- Permutation_middle.
  - rewrite IH. by rewrite <- Permutation_middle.
Qed.

Lemma push_record_scopes r ps :
  NoDup (map pt_scope ps) ->
  NoDup (map pt_scope (push_record r ps)) /\
  (forall s, s ∈ map pt_scope (push_record r ps) <-> s ∈ map pt_scope ps \/ s = scope r).
Proof.
  induction ps as [|p ps IH]; simpl.
  - intros _. split; [apply NoDup_singleton|]. set_solver.
  - intros [Hp Hd]%NoDup_cons. destruct (bool_decide (pt_scope p = scope r)) eqn:E; simpl; bools.
    + split; [by apply NoDup_cons|]. intros s. rewrite elem_of_cons. naive_solver.
    + destruct (IH Hd) as [Hd' Hs]. split; [|intros s; rewrite !elem_of_cons, Hs; naive_solver].
      apply NoDup_cons. split; [|done]. rewrite Hs. naive_solver.
Qed.

Lemma push_record_parts r ps q :
  q ∈ push_record r ps ->
  q ∈ ps \/ q = {| pt_scope := scope r; items := [r] |} \/
  exists p, List.find (fun p => bool_decide (pt_scope p = scope r)) ps = Some p /\
            q = {| pt_scope := pt_scope p; items := items p ++ [r] |}.
Proof.
  induction ps as [|p ps IH]; simpl.
  - intros ->%list_elem_of_singleton. auto.
  - destruct (bool_decide (pt_scope p = scope r)) eqn:E.
    + intros [->|Hq]%elem_of_cons; [by eauto|]. left. apply elem_of_cons. by right.
    + intros [->|Hq]%elem_of_cons; [left; apply elem_of_cons; by left|].
      destruct (IH Hq) as [?|?]; [left; apply elem_of_cons; by right|by right].
Qed.

Lemma record_scope_valid r : record_validate r = Ok tt -> scope_validate (scope r) = Ok tt.
Proof.
  unfold record_validate. intros Hr. run_ok. by destruct (scope_validate (scope r)) as [[]| |].
Qed.

(** The index grows by an entry for a record that is there. *)
Definition entry_fits (file : NotificationFileV1) (e : NotificationSourceEventIndexEntry) (r : NotificationRecord) : Prop :=
  se_scope e = scope r /\ se_notification_id e = id r /\ source_of e ∉ map source_of (source_event_index file) /\
  is_safe_notification_source_event_id (se_source_event_id e) = true /\ client_ok e r /\
  scope_room (scope r) file.

Lemma room_counts file s e s' :
  scope_room s file -> se_scope e = s ->
  scope_count s' (source_event_index file) <= MAX_NOTIFICATION_SOURCE_INDEX_PER_SCOPE ->
  scope_count s' (source_event_index file ++ [e]) <= MAX_NOTIFICATION_SOURCE_INDEX_PER_SCOPE /\
  lenz (source_event_index file ++ [e]) <= MAX_NOTIFICATION_SOURCE_INDEX_TOTAL.
Proof.
  intros [H1 H2] <- Hs. unfold scope_count, lenz, count, in_required, in_scope_of in *.
  rewrite List.filter_app, !length_app. simpl.
  assert (List.filter (fun _ => true) (source_event_index file) = source_event_index file) as E by by apply filter_all.
  rewrite E in H2. unfold lenz in *. split; [|lia].
  destruct (decide (se_scope e = s')) as [<-|Hn].
  - rewrite bool_decide_eq_true_2 by done. simpl.
    assert (List.filter (fun e0 => bool_decide (se_scope e0 = se_scope e)) (source_event_index file)
            = List.filter (fun e0 => bool_decide (se_scope e = se_scope e0)) (source_event_index file)) as ->; [|lia].
    apply List.filter_ext. intros e0. apply bool_decide_ext. naive_solver.
  - rewrite bool_decide_eq_false_2 by done. simpl. lia.
Qed.

Lemma good_push file r e :
  Good file -> record_validate r = Ok tt -> id r ∉ map (fun x => id x.2) (recs (partitions file)) ->
  partition_record_count file (scope r) < MAX_NOTIFICATION_PARTITION_ITEMS ->
  match source_event_id r with
  | Some source => e = Some {| se_scope := scope r; se_source_event_id := source; se_notification_id := id r |}
  | None => e = None
  end ->
  (forall x, e = Some x -> entry_fits file x r) ->
  Good (file <| partitions ::= push_record r |> <| source_event_index ::= fun l => l ++ option_list e |>).
Proof.
  intros Hg Hr Hid Hc He Hfit.
  assert (forall x, x ∈ recs (push_record r (partitions file)) <-> x = (scope r, r) \/ x ∈ recs (partitions file)) as Hrecs.
  { intros x. by rewrite push_record_recs, elem_of_cons. }
  destruct (push_record_scopes r (partitions file) (g_scopes _ Hg)) as [Hsd _].
  split; simpl.
  - apply (g_schema _ Hg).
  - destruct e as [x|]; simpl; [|rewrite app_nil_r; apply (g_total _ Hg)].
    destruct (Hfit x eq_refl) as (Es & _ & _ & _ & _ & Hroom).
    by apply (room_counts file (scope r) x (scope r) Hroom Es), (g_counts _ Hg).
  - intros s. destruct e as [x|]; simpl; [|rewrite app_nil_r; apply (g_counts _ Hg)].
    destruct (Hfit x eq_refl) as (Es & _ & _ & _ & _ & Hroom).
    by apply (room_counts file (scope r) x s Hroom Es), (g_counts _ Hg).
  - done.
  - intros q [Hq|[->|(p & Hp & ->)]]%push_record_parts; simpl.
    + by apply (g_parts _ Hg).
    + split; [done|]. by apply record_scope_valid.
    + unfold partition_record_count, find_partition in Hc. rewrite Hp in Hc.
      apply List.find_some in Hp as [Hp%list_elem_of_In _]. destruct (g_parts _ Hg p Hp) as [Hl Hs].
      split; [|done]. unfold lenz in *. rewrite length_app. simpl. lia.
  - intros s x [[= -> ->]|Hx]%Hrecs; [done|by apply (g_recs _ Hg)].
  - rewrite push_record_recs. simpl. apply NoDup_cons. split; [done|apply (g_ids _ Hg)].
  - rewrite map_app. apply NoDup_app. split_and!; [apply (g_index _ Hg)| |by destruct e; [apply NoDup_singleton|constructor]].
    destruct e as [x|]; simpl; [|by intros ? _ ?%elem_of_nil].
    intros k Hk ->%list_elem_of_singleton. by destruct (Hfit x eq_refl) as (_ & _ & Hn & _).
  - intros x [Hx|Hx]%elem_of_app.
    + destruct (g_entries _ Hg x Hx) as (Hs & r' & Hr' & Hi & Hcl). split; [done|]. exists r'. split_and!; [|done|done].
      apply Hrecs. by right.
    + destruct e as [y|]; [|by apply elem_of_nil in Hx]. apply list_elem_of_singleton in Hx as ->.
      destruct (Hfit y eq_refl) as (Es & Ei & _ & Hs & Hcl & _). split; [done|]. exists r. split_and!; [|done|done].
      apply Hrecs. left. by rewrite Es.
  - intros s x source [[= -> ->]|Hx]%Hrecs Hsrc; simpl; apply elem_of_app.
    + right. rewrite Hsrc in He. subst e. by apply list_elem_of_singleton.
    + left. by apply (g_indexed _ Hg).
Qed.

Lemma replace_first_spec i r l l' :
  replace_first i r l = Some l' ->
  exists l1 x l2, l = l1 ++ x :: l2 /\ l' = l1 ++ r :: l2 /\ id x = i.
Proof.
  revert l'. induction l as [|y l IH]; intros l'; simpl; [done|].
  destruct (String.eqb_spec (id y) i) as [E|_].
  - intros [= <-]. by exists [], y, l.
  - destruct (replace_first i r l) as [m|]; [|done]. intros [= <-].
    destruct (IH m eq_refl) as (l1 & x & l2 & -> & -> & E). by exists (y :: l1), x, l2.
Qed.

(** One record takes the place of another. *)
Definition replaces (ps ps' : list NotificationPartition) (x r : NotificationRecord) : Prop :=
  (exists l1 l2, recs ps = l1 ++ (scope r, x) :: l2 /\ recs ps' = l1 ++ (scope r, r) :: l2) /\
  map pt_scope ps' = map pt_scope ps /\
  (forall q, q ∈ ps' -> exists p, p ∈ ps /\ pt_scope q = pt_scope p /\ length (items q) = length (items p)).

Lemma replaces_there p q l x r l1 l2 :
  pt_scope p = scope r -> pt_scope q = pt_scope p -> items p = l1 ++ x :: l2 -> items q = l1 ++ r :: l2 ->
  replaces (p :: l) (q :: l) x r.
Proof.
  intros Es Eq Ep Er. split_and!.
  - exists (map (pair (scope r)) l1), (map (pair (scope r)) l2 ++ recs l). unfold recs, keyed. simpl.
    rewrite Eq, Es, Ep, Er, !map_app. simpl. by rewrite <- !app_assoc.
  - simpl. by rewrite Eq.
  - intros y [->|Hy]%elem_of_cons; [exists p|exists y]; (split; [apply elem_of_cons; auto|]); [|done].
    split; [done|]. rewrite Ep, Er, !length_app. done.
Qed.

Lemma replaces_later p l l' x r : replaces l l' x r -> replaces (p :: l) (p :: l') x r.
Proof.
  intros ((l1 & l2 & E & E') & Em & Hq). split_and!.
  - exists (keyed p ++ l1), l2. unfold recs in *. simpl. by rewrite E, E', <- !app_assoc.
  - simpl. by rewrite Em.
  - intros y [->|Hy]%elem_of_cons; [exists p; split; [apply elem_of_cons; by left|done]|].
    destruct (Hq y Hy) as (z & ? & ?). exists z. split; [apply elem_of_cons; by right|done].
Qed.

Lemma replace_record_spec r ps ps' :
  replace_record r ps = Some ps' -> exists x, id x = id r /\ replaces ps ps' x r.
Proof.
  revert ps'. induction ps as [|p ps IH]; intros ps'; simpl; [done|].
  destruct (bool_decide (pt_scope p = scope r)) eqn:E; bools.
  - destruct (replace_first (id r) r (items p)) as [l|] eqn:El; [|done]. intros [= <-].
    apply replace_first_spec in El as (l1 & x & l2 & Ep & -> & Ei). exists x. split; [done|].
    by eapply replaces_there.
  - destruct (replace_record r ps) as [l|]; [|done]. intros [= <-].
    destruct (IH l eq_refl) as (x & Ei & Hr). exists x. split; [done|]. by apply replaces_later.
Qed.

Lemma good_replace file ps' x r e :
  Good file -> replaces (partitions file) ps' x r -> id x = id r ->
  source_event_id r = source_event_id x -> record_validate r = Ok tt ->
  (forall y, y ∈ source_event_index file -> client_ok y x -> se_notification_id y = id r -> client_ok y r) ->
  (forall y, e = Some y -> entry_fits file y r) ->
  Good (file <| partitions := ps' |> <| source_event_index ::= fun l => l ++ option_list e |>).
Proof.
  intros Hg ((l1 & l2 & Eo & En) & Em & Hq) Ei Esrc Hr Hcl Hfit.
  assert (forall z, z ∈ recs ps' -> z = (scope r, r) \/ z ∈ recs (partitions file)) as Hnew.
  { intros z. rewrite En, Eo, !elem_of_app, !elem_of_cons. naive_solver. }
  assert (forall s z, (s, z) ∈ recs (partitions file) -> (s, z) = (scope r, x) \/ (s, z) ∈ recs ps') as Hold.
  { intros s z. rewrite En, Eo, !elem_of_app, !elem_of_cons. naive_solver. }
  assert ((scope r, r) ∈ recs ps') as Hrin by (rewrite En; apply elem_of_app; right; apply elem_of_cons; by left).
  assert ((scope r, x) ∈ recs (partitions file)) as Hxin
    by (rewrite Eo; apply elem_of_app; right; apply elem_of_cons; by left).
  split; simpl.
  - apply (g_schema _ Hg).
  - destruct e as [y|]; simpl; [|rewrite app_nil_r; apply (g_total _ Hg)].
    destruct (Hfit y eq_refl) as (Es & _ & _ & _ & _ & Hroom).
    by apply (room_counts file (scope r) y (scope r) Hroom Es), (g_counts _ Hg).
  - intros s. destruct e as [y|]; simpl; [|rewrite app_nil_r; apply (g_counts _ Hg)].
    destruct (Hfit y eq_refl) as (Es & _ & _ & _ & _ & Hroom).
    by apply (room_counts file (scope r) y s Hroom Es), (g_counts _ Hg).
  - change (NoDup (map pt_scope ps')). rewrite Em. apply (g_scopes _ Hg).
  - intros q Hin. destruct (Hq q Hin) as (p & Hp & -> & El). unfold lenz. rewrite El. by apply (g_parts _ Hg).
  - intros s z [[= -> ->]|Hz]%Hnew; [done|by apply (g_recs _ Hg)].
  - pose proof (g_ids _ Hg) as Hd. rewrite Eo in Hd. change (NoDup (map (fun e => id e.2) (recs ps'))).
    rewrite En. rewrite !map_app in *. simpl in *. by rewrite <- Ei.
  - rewrite map_app. apply NoDup_app. split_and!; [apply (g_index _ Hg)| |by destruct e; [apply NoDup_singleton|constructor]].
    destruct e as [y|]; simpl; [|by intros ? _ ?%elem_of_nil].
    intros k Hk ->%list_elem_of_singleton. by destruct (Hfit y eq_refl) as (_ & _ & Hn & _).
  - intros y [Hy|Hy]%elem_of_app.
    + destruct (g_entries _ Hg y Hy) as (Hs & z & Hz & Hi & Hc). split; [done|].
      destruct (Hold _ _ Hz) as [[= Es ->]|Hz']; [|by exists z].
      exists r. split_and!; [by rewrite Es|congruence|]. apply Hcl; [done|done|congruence].
    + destruct e as [z|]; [|by apply elem_of_nil in Hy]. apply list_elem_of_singleton in Hy as ->.
      destruct (Hfit z eq_refl) as (Es & Eid & _ & Hs & Hc & _). split; [done|]. exists r. split_and!; [by rewrite Es|done|done].
  - intros s z source [[= -> ->]|Hz]%Hnew Hsrc; simpl; apply elem_of_app; left.
    + rewrite <- Ei. apply (g_indexed _ Hg); [done|congruence].
    + by apply (g_indexed _ Hg).
Qed.

Lemma record_client_source r :
  record_validate r = Ok tt -> is_client_kind (kind r) = true ->
  exists source attempt suffix,
    source_event_id r = Some source /\ dedupe_key r = source /\
    client_notification_source_parts source = Some (attempt, kind r, suffix).
Proof.
  intros (_ & _ & _ & Hs)%record_facts Hk. exact (client_shape_source (record_shape r) Hs Hk).
Qed.

Lemma starts_with_app p s : starts_with (p +:+ s) p = true.
Proof.
  unfold starts_with. induction p as [|c p IH]; simpl; [by destruct s|].
  destruct (ascii_dec c c); [done|done].
Qed.

Lemma entry_client_ok input r source :
  validate_publish_input input = Ok tt -> client_marked input -> in_source_event_id input = Some source ->
  record_validate r = Ok tt -> kind r = in_kind input ->
  source_event_id r = Some source \/ dedupe_key r = in_dedupe_key input ->
  client_ok {| se_scope := in_scope input; se_source_event_id := source; se_notification_id := id r |} r.
Proof.
  intros [Hi _]%validate_publish_facts Hm Es Hr Hk Hor Hc. simpl in *.
  destruct (is_client_kind (in_kind input)) eqn:Ek.
  2: { destruct (Hm Ek) as [_ Hn]. by rewrite Hn in Hc. }
  destruct (client_shape_source input Hi Ek) as (s1 & a1 & x1 & E1 & D1 & _).
  rewrite <- Hk in Ek. destruct (record_client_source r Hr Ek) as (s2 & a2 & x2 & E2 & D2 & P2).
  assert (s2 = source) as -> by (destruct Hor; congruence). eauto.
Qed.

Lemma kept_client_ok input x r e :
  client_marked input -> record_validate x = Ok tt -> record_validate r = Ok tt ->
  kind r = in_kind input -> source_event_id r = source_event_id x -> dedupe_key x = in_dedupe_key input ->
  client_ok e x -> client_ok e r.
Proof.
  intros Hm Hx Hr Hk Es Ed Hc Hs. destruct (Hc Hs) as (a & x' & Hp & Hsx).
  destruct (client_source_text _ _ _ _ Hp) as [Ht Hkx].
  destruct (is_client_kind (in_kind input)) eqn:Ek.
  - rewrite <- Hk in Ek. destruct (record_client_source r Hr Ek) as (s2 & a2 & x2 & E2 & _ & P2).
    assert (s2 = se_source_event_id e) as -> by congruence. rewrite P2. eauto.
  - destruct (Hm Ek) as [Hn _]. destruct (record_client_source x Hx Hkx) as (s2 & a2 & x2 & E2 & D2 & P2).
    destruct (client_source_text _ _ _ _ P2) as [Et _]. rewrite <- Ed, D2, Et, starts_with_app in Hn. done.
Qed.

Lemma shrinks_scope_count s file file' :
  Good file -> Good file' -> thins (partitions file) (partitions file') ->
  partition_record_count file' s <= partition_record_count file s.
Proof.
  intros Hg Hg' Ht. rewrite (scope_count_recs file), (scope_count_recs file') by by apply g_scopes.
  apply thins_recs, submseteq_Permutation in Ht as [k Hk].
  rewrite (count_perm _ _ _ Hk). unfold count, lenz. rewrite List.filter_app, length_app. lia.
Qed.

Lemma good_revision n file : Good file <-> Good (file <| revision := n |>).
Proof. split; (intros [? ? ? ? ? ? ? ? ? ?]; split; assumption). Qed.

Lemma apply_good input file file' pp now new_id f2 :
  Good file -> prepare_publish_record file input now new_id = Ok pp ->
  validate_publish_input input = Ok tt -> client_marked input ->
  shrinks file (file' <| revision := revision file |>) ->
  new_id ∉ map (fun x => id x.2) (recs (partitions file')) ->
  (semantic_target input file = None -> partition_record_count file (in_scope input) < MAX_NOTIFICATION_PARTITION_ITEMS) ->
  (is_Some (in_source_event_id input) -> scope_room (in_scope input) file) ->
  (forall source, in_source_event_id input = Some source ->
     (in_scope input, source) ∉ map source_of (source_event_index file')) ->
  apply_prepared_to_file pp file' = Ok f2 ->
  Good f2 /\ revision f2 = revision file' /\
  source_event_index f2 = source_event_index file' ++ option_list (prepared_entry input (pp_record pp)).
Proof.
  intros Hg Hp Hv Hm Hs Hid Hroom Hcap Hsrc Ha.
  pose proof (proj2 (good_revision (revision file) file') (shrinks_good _ _ Hg Hs)) as Hg'.
  destruct (prepare_record_spec _ _ _ _ _ Hg Hp) as (Hfor & Hr & Esc & Ek & Een).
  set (r := pp_record pp) in *.
  assert (forall y, prepared_entry input r = Some y ->
    source_event_id r = in_source_event_id input \/ dedupe_key r = in_dedupe_key input ->
    entry_fits file' y r) as Hfit.
  { unfold prepared_entry. intros y Hy Hor. destruct (in_source_event_id input) as [source|] eqn:Es; [|done].
    injection Hy as <-. split_and!; simpl; [done|done|by apply Hsrc| |eapply entry_client_ok; eauto; naive_solver|].
    - unfold validate_publish_input, input_validate in Hv. rewrite Es in Hv. run_ok.
      match goal with E : omap_err _ ?x = Ok _ |- _ => destruct x as [[]| |] eqn:Hi; simplify_eq/= end. run_ok. by bools.
    - rewrite Esc. change (scope_room (in_scope input) (file' <| revision := revision file |>)).
      eapply scope_room_shrinks; [done|]. by apply Hcap. }
  unfold apply_prepared_to_file in Ha. rewrite Een in Ha. fold r in Ha.
  destruct Hfor as [Ec Et Ei Esrc _|x Ec Et Ei Esrc Ed _]; rewrite Ec in Ha; run_ok.
  - split_and!; [|done|done]. apply good_push; fold r; [done|done|exact Hid|..].
    + rewrite Esc. pose proof (shrinks_scope_count (in_scope input) _ _ Hg Hg' (sh_parts _ _ Hs)). specialize (Hroom Et). lia.
    + fold r in Esrc. rewrite Esrc. unfold prepared_entry. rewrite <- Esc. by destruct (in_source_event_id input).
    + intros y Hy. apply Hfit; [done|by left].
  - match goal with E : replace_record _ _ = Some ?l |- _ => rename E into Hrep, l into ps' end.
    split_and!; [|done|done]. destruct (replace_record_spec _ _ _ Hrep) as (y & Ey & Hrp).
    assert (y = x) as ->.
    { destruct Hrp as ((l1 & l2 & Eo & _) & _). destruct (semantic_target_spec _ _ _ Et) as [Hx _].
      assert ((scope r, y) ∈ recs (partitions file')) as Hy
        by (rewrite Eo; apply elem_of_app; right; apply elem_of_cons; by left).
      apply (shrinks_recs _ _ _ Hs) in Hy.
      assert ((scope r, y) = (in_scope input, x)) as [= _ ->]; [|done].
      eapply good_id; [exact Hg|done|done|]. rewrite Ey. exact Ei. }
    destruct (semantic_target_spec _ _ _ Et) as [Hx Hdx].
    eapply good_replace; [done|exact Hrp|done|exact Esrc|done| |].
    + intros e _ Hc _. eapply (kept_client_ok input x); eauto. by apply (g_recs _ Hg) in Hx as [? _].
    + intros e He. apply Hfit; [done|]. right. unfold r. by rewrite Ed.
Qed.

(** ** Records changed in place *)

Definition same_record (r r' : NotificationRecord) : Prop :=
  id r' = id r /\ scope r' = scope r /\ source_event_id r' = source_event_id r /\ kind r' = kind r /\
  (record_validate r = Ok tt -> record_validate r' = Ok tt).

Definition same_partition (p p' : NotificationPartition) : Prop :=
  pt_scope p' = pt_scope p /\ Forall2 same_record (items p) (items p').

Definition same_rec (e e' : NotificationScope * NotificationRecord) : Prop :=
  e'.1 = e.1 /\ same_record e.2 e'.2.

Lemma Forall2_partner_r {A B} (R : A -> B -> Prop) l l' y :
  Forall2 R l l' -> y ∈ l' -> exists x, x ∈ l /\ R x y.
Proof.
  induction 1 as [|x z l l' Hx H1 IH]; [by intros ?%elem_of_nil|].
  intros [->|Hy]%elem_of_cons; [exists x; split; [apply elem_of_cons; by left|done]|].
  destruct (IH Hy) as (x' & ? & ?). exists x'. split; [apply elem_of_cons; by right|done].
Qed.

Lemma Forall2_partner_l {A B} (R : A -> B -> Prop) l l' x :
  Forall2 R l l' -> x ∈ l -> exists y, y ∈ l' /\ R x y.
Proof. intros Hl Hx. apply Forall2_flip in Hl. by apply (Forall2_partner_r (flip R) l' l). Qed.

Lemma same_recs ps ps' : Forall2 same_partition ps ps' -> Forall2 same_rec (recs ps) (recs ps').
Proof.
  unfold recs. induction 1 as [|p p' ps ps' [Es Hi] H1 IH]; simpl; [constructor|].
  apply Forall2_app; [|done]. unfold keyed. rewrite Es. clear -Hi. induction Hi; simpl; constructor; done.
Qed.

Lemma same_keys {A} (f : NotificationScope * NotificationRecord -> A) l l' :
  (forall e e', same_rec e e' -> f e' = f e) -> Forall2 same_rec l l' -> map f l' = map f l.
Proof. intros Hf. induction 1 as [|e e' l l' He H1 IH]; [done|]. simpl. by rewrite IH, (Hf e e'). Qed.

Lemma good_same file ps' :
  Good file -> Forall2 same_partition (partitions file) ps' -> Good (file <| partitions := ps' |>).
Proof.
  intros Hg Hp. pose proof (same_recs _ _ Hp) as Hr.
  assert (map pt_scope ps' = map pt_scope (partitions file)) as Em.
  { clear -Hp. induction Hp as [|p p' ps ps' [Es _] H1 IH]; [done|]. simpl. by rewrite Es, IH. }
  assert (forall s r', (s, r') ∈ recs ps' -> exists r, (s, r) ∈ recs (partitions file) /\ same_record r r') as Hback.
  { intros s r' Hin. destruct (Forall2_partner_r _ _ _ _ Hr Hin) as ([s0 r0] & Hin0 & Es & Hs). simpl in *. subst s0. eauto. }
  assert (forall s r, (s, r) ∈ recs (partitions file) -> exists r', (s, r') ∈ recs ps' /\ same_record r r') as Hforth.
  { intros s r Hin. destruct (Forall2_partner_l _ _ _ _ Hr Hin) as ([s0 r0] & Hin0 & Es & Hs). simpl in *. subst s0. eauto. }
  split; simpl.
  - apply (g_schema _ Hg).
  - apply (g_total _ Hg).
  - apply (g_counts _ Hg).
  - change (NoDup (map pt_scope ps')). rewrite Em. apply (g_scopes _ Hg).
  - intros q Hq. destruct (Forall2_partner_r _ _ _ _ Hp Hq) as (p & Hin & -> & Hl).
    unfold lenz. rewrite <- (Forall2_length _ _ _ Hl). by apply (g_parts _ Hg).
  - intros s r' (r & Hin & _ & Esc & _ & _ & Hv)%Hback. apply (g_recs _ Hg) in Hin as [Hr1 Hr2].
    split; [by apply Hv|congruence].
  - change (NoDup (map (fun e => id e.2) (recs ps'))). rewrite (same_keys _ (recs (partitions file))); [apply (g_ids _ Hg)| |done].
    intros e e' [_ (-> & _)]. done.
  - apply (g_index _ Hg).
  - intros e He. destruct (g_entries _ Hg e He) as (Hs & r & Hin & Hi & Hc). split; [done|].
    destruct (Hforth _ _ Hin) as (r' & Hin' & Ei & _ & Esrc & Ek & _). exists r'.
    split_and!; [done|congruence|]. intros Hcl. destruct (Hc Hcl) as (a & x & Hx & Hy). exists a, x. by rewrite Ek, Esrc.
  - intros s r' source (r & Hin & Ei & _ & Esrc & _)%Hback Hs. simpl. rewrite Ei.
    apply (g_indexed _ Hg); [done|congruence].
Qed.

(** Reading a notification now. *)
Lemma read_now_same now r : now <= MAX_JAVASCRIPT_SAFE_INTEGER -> same_record r (read_now now r).
Proof.
  intros Hn. split_and!; [done|done|done|done|]. unfold record_validate.
  change (record_shape (read_now now r)) with (record_shape r). unfold read_now.
  destruct r as [i s c k sv ct en ac so dk oc cr up rd]; cbn.
  intros Hv. run_ok. bools.
  repeat match goal with E : ?x = _ |- context [?x] => rewrite E end. cbn.
  unfold is_safe_timestamp in *.
  match goal with |- obind (guard ?b _) _ = _ => assert (b = false) as ->; [|done] end.
  unfold RecordSettersUsingExistingGetters.const.
  repeat (apply orb_false_iff; split); first [done|lia|apply negb_false_iff; lia].
Qed.
End Publish.
