(* ===== verification/NotificationHistory.v ===== *)
(** services/notification.rs: whatever an operation does, it offers the store
    only documents the store accepts, one revision after the other, keeps in
    memory what was saved last, and announces each revision once. *)
From coqutil Require Import Datatypes.RecordSettersUsingExistingGetters.
From stdpp Require Import gmap strings sorting.
From S2P Require Import Prelude RustStr External Models NotificationTypes NotificationPolicy NotificationFile NotificationIncidents NotificationStore NotificationService NotificationFacts NotificationValid NotificationKeep NotificationPublish.
#[local] Open Scope list_scope.

Section History.
Context {X : Type} `{NotificationPersistence X} `{UuidText} `{Sha256Lib}.
Context `{Codec CursorV1} `{Codec json} `{NotificationJson}.

Local Abbreviation Run A := (M (Service X) NotificationError A).
Local Abbreviation file_of w := (st_file (sv_state w)).

(** ** What an operation may do to the service *)

Inductive history : Service X -> Service X -> Prop :=
| history_quiet w w' :
    file_of w' = file_of w -> sv_persistence w' = sv_persistence w -> sv_events w' = sv_events w ->
    history w w'
| history_refused w w' file o :
    file_valid file = true -> revision file = revision (file_of w) + 1 ->
    persist file (sv_persistence w) = (o, sv_persistence w') -> o <> Ok tt ->
    sv_state w' = sv_state w -> sv_events w' = sv_events w ->
    history w w'
| history_committed w w' e :
    file_valid (file_of w') = true -> revision (file_of w') = revision (file_of w) + 1 ->
    revision (file_of w') <= u64_max ->
    persist (file_of w') (sv_persistence w) = (Ok tt, sv_persistence w') ->
    sv_events w' = sv_events w ++ [e] ->
    ev_previous_revision e = u64_to_string (revision (file_of w)) ->
    ev_revision e = u64_to_string (revision (file_of w')) ->
    event_validate e = Ok tt ->
    history w w'
| history_then w1 w2 w3 : history w1 w2 -> history w2 w3 -> history w1 w3.

(** The document is accepted and indexed, and the sources seen are its index. *)
Definition Inv (w : Service X) : Prop :=
  Good (file_of w) /\ st_seen_source_events (sv_state w) = rebuild_seen_source_events (file_of w).

Definition advances {A} (c : Run A) (w : Service X) (Q : A -> Service X -> Prop) : Prop :=
  history w (c w).2 /\ Inv (c w).2 /\ forall a, (c w).1 = Ok a -> Q a (c w).2.

Lemma history_refl w : history w w.
Proof. by apply history_quiet. Qed.

Lemma advances_bind {A B} (c : Run A) (k : A -> Run B) w Q :
  advances c w (fun a w' => advances (k a) w' Q) -> advances (mbind c k) w Q.
Proof.
  unfold advances, mbind. destruct (c w) as [[a|e|h] w1]; simpl; intros (Hh & Hi & HQ).
  - destruct (HQ a eq_refl) as (Hh2 & Hi2 & HQ2). split_and!; [by eapply history_then|done|done].
  - done.
  - done.
Qed.

Lemma advances_ret {A} (a : A) w (Q : A -> Service X -> Prop) :
  Inv w -> Q a w -> advances (mret a) w Q.
Proof. intros Hi HQ. split_and!; [apply history_refl|done|by intros ? [= <-]]. Qed.

Lemma advances_lift {A} (x : outcome NotificationError A) w (Q : A -> Service X -> Prop) :
  Inv w -> (forall a, x = Ok a -> Q a w) -> advances (mlift x) w Q.
Proof. intros Hi HQ. split_and!; [apply history_refl|done|exact HQ]. Qed.

Lemma advances_get w (Q : ServiceState -> Service X -> Prop) :
  Inv w -> Q (sv_state w) w -> advances get_state w Q.
Proof. intros Hi HQ. split_and!; [apply history_refl|done|by intros ? [= <-]]. Qed.

Lemma advances_put s w (Q : unit -> Service X -> Prop) :
  Inv w -> st_file s = file_of w -> st_seen_source_events s = st_seen_source_events (sv_state w) ->
  Q tt (with_state s w) -> advances (put_state s) w Q.
Proof.
  intros [Hg Hs] Ef Es HQ. split_and!; simpl.
  - by apply history_quiet.
  - split; simpl; congruence.
  - by intros [] _.
Qed.

Lemma advances_mono {A} (c : Run A) w (Q Q' : A -> Service X -> Prop) :
  advances c w Q -> (forall a w', Inv w' -> Q a w' -> Q' a w') -> advances c w Q'.
Proof. intros (Hh & Hi & HQ) Hm. split_and!; [done|done|]. intros a E. auto. Qed.

(** What an answer to [input] says about the document: its source is indexed,
    and under the notification answered. *)
Definition published (input : NotificationInput) (o : PublishOutcome) (w : Service X) : Prop :=
  forall source, source_key input = Some source ->
    match po_notification o with
    | Some r => {| se_scope := source.1; se_source_event_id := source.2; se_notification_id := id r |}
                  ∈ source_event_index (file_of w)
    | None => source ∈ st_seen_source_events (sv_state w)
    end.

(** ** Committing *)

Definition bumped (file : NotificationFileV1) : NotificationFileV1 := file <| revision := revision file + 1 |>.

Lemma next_revision_ok file file' :
  next_revision file = Ok file' -> file' = bumped file /\ revision file + 1 <= u64_max.
Proof.
  unfold next_revision, u64_checked_add. intros Hn. run_ok.
  destruct (Z.leb_spec (revision file + 1) u64_max); simplify_eq. done.
Qed.

(** A save, the new state, and an event about it. *)
Lemma commit_advances (next : ServiceState) now (event : NotificationFileV1 -> NotificationChangedEvent) {A}
    (answer : NotificationFileV1 -> A) w (Q : A -> Service X -> Prop) :
  Inv w -> Good (st_file next) -> revision (st_file next) = revision (file_of w) ->
  st_seen_source_events next = rebuild_seen_source_events (st_file next) ->
  (forall file, ev_previous_revision (event file) = u64_to_string (revision (st_file next)) /\
                ev_revision (event file) = u64_to_string (revision file) /\
                event_validate (event file) = Ok tt) ->
  (forall w', Inv w' -> sv_state w' = next <| st_file := bumped (st_file next) |> ->
              Q (answer (bumped (st_file next))) w') ->
  advances (let* file := mlift (next_revision (st_file next)) in
            save_file file now ;;;
            put_state (next <| st_file := file |>) ;;;
            emit_diagnostic_only (event file) ;;;
            mret (answer file)) w Q.
Proof.
  intros Hi Hg Hr Hs He HQ. apply advances_bind, advances_lift; [done|].
  intros file [-> Hmax]%next_revision_ok.
  assert (Good (bumped (st_file next))) as Hgb by by apply good_revision.
  unfold save_file, put_state, emit_diagnostic_only, mbind, mret, advances.
  destruct (persist (bumped (st_file next)) (sv_persistence w)) as [[[]|e|h] x] eqn:Ep; simpl.
  - assert (Inv {| sv_state := next <| st_file := bumped (st_file next) |>; sv_persistence := x;
                   sv_events := sv_events w ++ [event (bumped (st_file next))];
                   sv_reporter := option_map reporter_reset (sv_reporter w) |}) as Hi' by by split.
    split_and!; [|done|intros a [= <-]; by apply HQ].
    destruct (He (bumped (st_file next))) as (E1 & E2 & E3).
    eapply history_committed; simpl; [by apply good_valid| |done|exact Ep|done|congruence|done|done].
    by rewrite Hr.
  - split_and!; [|done|done]. eapply (history_refused _ _ (bumped (st_file next))); simpl;
      [by apply good_valid|by rewrite <- Hr|exact Ep|done..].
  - split_and!; [|done|done]. eapply (history_refused _ _ (bumped (st_file next))); simpl;
      [by apply good_valid|by rewrite <- Hr|exact Ep|done..].
Qed.

Lemma plain_event_ok previous change scopes i file :
  ev_previous_revision (plain_event previous (revision file) change scopes i) = u64_to_string previous /\
  ev_revision (plain_event previous (revision file) change scopes i) = u64_to_string (revision file) /\
  event_validate (plain_event previous (revision file) change scopes i) = Ok tt.
Proof. split_and!; [done|done|]. unfold event_validate. simpl. by rewrite andb_false_r. Qed.

Lemma commit_announced_advances next now change scopes i w (Q : ServiceState -> Service X -> Prop) :
  Inv w -> Good (st_file next) -> revision (st_file next) = revision (file_of w) ->
  st_seen_source_events next = rebuild_seen_source_events (st_file next) ->
  (forall w', Inv w' -> sv_state w' = next <| st_file := bumped (st_file next) |> -> Q (sv_state w') w') ->
  advances (commit_announced next now change scopes i) w Q.
Proof.
  intros Hi Hg Hr Hs HQ.
  assert (forall w, commit_announced next now change scopes i w =
    (let* file := mlift (next_revision (st_file next)) in
     save_file file now ;;;
     put_state (next <| st_file := file |>) ;;;
     emit_diagnostic_only (plain_event (revision (st_file next)) (revision file) change scopes i) ;;;
     mret (next <| st_file := file |>)) w) as E.
  { intros w0. unfold commit_announced, commit_file, mbind, mlift.
    destruct (next_revision (st_file next)); [|done..]. unfold save_file.
    by destruct (persist a (sv_persistence w0)) as [[] ?]. }
  unfold advances. rewrite E.
  apply (commit_advances next now (fun file => plain_event (revision (st_file next)) (revision file) change scopes i)
           (fun file => next <| st_file := file |>)); [done..| |].
  - intros file. apply plain_event_ok.
  - intros w' Hi' Es. rewrite <- Es. by apply HQ.
Qed.

(** ** Publishing *)

Definition ids_of (w : Service X) : list string := map (fun x => id x.2) (recs (partitions (file_of w))).

Lemma unseen_source s source :
  st_seen_source_events s = rebuild_seen_source_events (st_file s) ->
  seen_source s (Some source) = false -> source ∉ map source_of (source_event_index (st_file s)).
Proof.
  unfold seen_source. intros Es Hb. bools. rewrite Es in Hb. unfold rebuild_seen_source_events in Hb.
  by rewrite elem_of_list_to_set in Hb.
Qed.

(** What [prepare_publish_locked] hands on fits the document as it is then. *)
Definition ready (input : NotificationInput) (now : Z) (new_id : string) (pp : PreparedPublish) (w : Service X) : Prop :=
  exists file,
    Good file /\ prepare_publish_record file input now new_id = Ok pp /\
    validate_publish_input input = Ok tt /\
    shrinks file ((file_of w) <| revision := revision file |>) /\
    new_id ∉ ids_of w /\
    (semantic_target input file = None ->
     partition_record_count file (in_scope input) < MAX_NOTIFICATION_PARTITION_ITEMS) /\
    (is_Some (in_source_event_id input) -> scope_room (in_scope input) file) /\
    (forall source, in_source_event_id input = Some source ->
       (in_scope input, source) ∉ map source_of (source_event_index (file_of w))).

Lemma same_revision file : file <| revision := revision file |> = file.
Proof. by destruct file. Qed.

Lemma shrinks_ids file file' i :
  shrinks file file' -> i ∉ map (fun x => id x.2) (recs (partitions file)) ->
  i ∉ map (fun x => id x.2) (recs (partitions file')).
Proof.
  intros Hs Hn Hx. apply Hn. eapply elem_of_submseteq; [exact Hx|]. apply fmap_submseteq, thins_recs, Hs.
Qed.

Lemma shrinks_sources file file' k :
  shrinks file file' -> k ∉ map source_of (source_event_index file) ->
  k ∉ map source_of (source_event_index file').
Proof.
  intros Hs Hn Hx. apply Hn. eapply elem_of_submseteq; [exact Hx|]. apply fmap_submseteq, sublist_submseteq, Hs.
Qed.

Lemma prepare_advances input now new_id w :
  Inv w -> new_id ∉ ids_of w ->
  advances (prepare_publish_locked input now new_id) w
    (fun o w' => match o with
                 | Some pp => ready input now new_id pp w'
                 | None => exists source, source_key input = Some source /\
                             source ∈ st_seen_source_events (sv_state w')
                 end).
Proof.
  intros Hi Hid. pose proof Hi as [Hg Hseen]. unfold prepare_publish_locked.
  apply advances_bind, advances_lift; [done|]. intros [] Hv.
  apply advances_bind, advances_get; [done|].
  destruct (seen_source (sv_state w) (source_key input)) eqn:Esrc.
  { apply advances_ret; [done|]. unfold seen_source in Esrc.
    destruct (source_key input) as [source|]; [|done]. exists source. bools. done. }
  assert (forall source, in_source_event_id input = Some source ->
            (in_scope input, source) ∉ map source_of (source_event_index (file_of w))) as Hun.
  { intros source E. apply unseen_source; [done|]. unfold source_key in Esrc. by rewrite E in Esrc. }
  apply advances_bind, advances_lift; [done|]. intros st Est.
  destruct (prepare_file_spec input now (file_of w) st Hg Est) as (Hk & Hcap & Hroom).
  assert (Good st.1) as Hg1 by exact (keeps_good (file_of w, no_mutation) st Hg Hk).
  apply advances_bind, advances_lift; [done|]. intros pp Epp.
  apply advances_bind, advances_lift; [done|]. intros [f2 m2] Eres.
  pose proof (reserve_keeps _ _ _ _ Hg1 Eres) as Hk2.
  pose proof (keeps_trans _ _ _ Hk Hk2) as [Hs02 Hc02]. cbn [fst snd] in *.
  assert (Good f2) as Hg2 by exact (shrinks_good _ _ Hg Hs02).
  destruct (hk_changed m2) eqn:Ec; cbn [negb].
  - apply advances_bind, commit_announced_advances; [done|done|by rewrite <- (sh_revision _ _ Hs02)|done|].
    intros w' Hi' Es. apply advances_ret; [done|]. exists st.1. unfold ids_of. rewrite Es.
    split_and!; [done|done|done| |exact (shrinks_ids _ f2 _ Hs02 Hid)|done|done|].
    + assert (shrinks st.1 f2) as Hs12 by apply Hk2.
      cbn [st_file]. destruct Hs12 as [A1 A2 A3 A4 A5]. split; [exact A1|done|exact A3|exact A4|exact A5].
    + intros source E. exact (shrinks_sources _ f2 _ Hs02 (Hun source E)).
  - apply advances_ret; [done|]. exists st.1. destruct Hk2 as [_ Hc2]. destruct (Hc2 Ec) as [_ Ec1].
    destruct Hk as [_ Hc1]. destruct (Hc1 Ec1) as [E1 _]. cbn [fst] in E1. rewrite E1 in *.
    split_and!; [done|done|done| |done|done|done|done]. rewrite same_revision. by apply shrinks_refl.
Qed.

Lemma toast_ok r epoch :
  record_validate r = Ok tt ->
  match epoch with Some e => e <= MAX_JAVASCRIPT_SAFE_INTEGER | None => True end ->
  toast_validate {| toast_id := id r; toast_scope := scope r; toast_session_epoch := epoch;
                    toast_category := category r; toast_severity := severity r;
                    toast_content := content r; toast_action := action r |} = Ok tt.
Proof.
  unfold record_validate, toast_validate. intros Hr He. run_ok. cbn [toast_id toast_scope toast_content toast_session_epoch toast_action].
  repeat match goal with E : omap_err _ ?x = Ok _ |- _ => destruct x as [[]| |] eqn:?; simplify_eq/= end.
  bools. repeat match goal with E : _ = true |- _ => rewrite E end.
  repeat match goal with E : ?x = Ok _ |- context [?x] => rewrite E end. simpl.
  destruct epoch as [e|]; simpl; [|done]. unfold is_safe_timestamp. by rewrite (proj2 (Z.leb_le _ _) He).
Qed.

Lemma publish_mutation_ok input now new_id pp w :
  ready input now new_id pp w ->
  forall file, event_validate {|
    ev_previous_revision := u64_to_string (revision (file_of w));
    ev_revision := u64_to_string (revision file); ev_change := pp_change pp;
    ev_affected_scopes := [scope (pp_record pp)]; ev_notification_id := Some (id (pp_record pp));
    ev_toast_candidate := pp_toast_candidate pp |} = Ok tt.
Proof.
  intros (f & Hg & Hp & Hv & _) file. destruct (prepare_record_spec _ _ _ _ _ Hg Hp) as (Hfor & Hr & _).
  apply validate_publish_facts in Hv as [_ He]. unfold event_validate.
  destruct Hfor as [Ec _ _ _ Et|x Ec _ _ _ _ Et]; cbn [ev_change ev_toast_candidate]; rewrite Ec, Et; [|done].
  cbn. by apply toast_ok.
Qed.

Lemma apply_prepared_keeps input now new_id pp w next next' mutation :
  Inv w -> client_marked input -> ready input now new_id pp w ->
  apply_prepared_publish pp next = Ok (next', mutation) ->
  st_file next = file_of w -> st_seen_source_events next = st_seen_source_events (sv_state w) ->
  Good (st_file next') /\ revision (st_file next') = revision (file_of w) /\
  source_event_index (st_file next') =
    source_event_index (file_of w) ++ option_list (prepared_entry input (pp_record pp)) /\
  st_seen_source_events next' = rebuild_seen_source_events (st_file next') /\
  mutation = {| pm_record := Some (pp_record pp); pm_change := Some (pp_change pp);
                pm_toast_candidate := pp_toast_candidate pp; pm_affected_scopes := [scope (pp_record pp)] |}.
Proof.
  intros [Hg Hseen] Hm (f & Hgf & Hp & Hv & Hs & Hid & Hroom & Hcap & Hun) Ha Ef Es.
  unfold apply_prepared_publish in Ha. rewrite Ef in Ha.
  destruct (apply_prepared_to_file pp (file_of w)) as [f2| |] eqn:Hf2; simplify_eq/=.
  destruct (apply_good input f (file_of w) pp now new_id f2) as (Hg2 & Hr2 & Hx2); try done.
  split_and!; [done|done|done| |done]. destruct (prepare_record_spec _ _ _ _ _ Hgf Hp) as (_ & _ & Esc & _ & Een).
  change (match pp_source_entry pp with
          | Some e => {[(se_scope e, se_source_event_id e)]} ∪ st_seen_source_events next
          | None => st_seen_source_events next
          end = rebuild_seen_source_events f2).
  rewrite Es, Hseen, Een. unfold rebuild_seen_source_events. rewrite Hx2, map_app, list_to_set_app_L.
  unfold prepared_entry. destruct (in_source_event_id input); simpl; set_solver.
Qed.

Lemma commit_publish_advances input now new_id pp w next next' mutation (Q : PublishOutcome -> Service X -> Prop) :
  Inv w -> client_marked input -> ready input now new_id pp w ->
  apply_prepared_publish pp next = Ok (next', mutation) ->
  st_file next = file_of w -> st_seen_source_events next = st_seen_source_events (sv_state w) ->
  (forall w', let o := {| po_notification := Some (pp_record pp);
                          po_revision := u64_to_string (revision (file_of w')); po_committed := true |} in
              Inv w' -> published input o w' -> Q o w') ->
  advances (commit_publish next' mutation now) w Q.
Proof.
  intros Hi Hm Hr Ha Ef Es HQ.
  destruct (apply_prepared_keeps input now new_id pp w next next' mutation Hi Hm Hr Ha Ef Es) as (Hg & Hrev & Hx & Hs & ->).
  unfold commit_publish. cbn [pm_record pm_change].
  apply (commit_advances next' now
    (fun file => {| ev_previous_revision := u64_to_string (revision (st_file next'));
                    ev_revision := u64_to_string (revision file); ev_change := pp_change pp;
                    ev_affected_scopes := [scope (pp_record pp)]; ev_notification_id := Some (id (pp_record pp));
                    ev_toast_candidate := pp_toast_candidate pp |})
    (fun file => {| po_notification := Some (pp_record pp); po_revision := u64_to_string (revision file);
                    po_committed := true |})); [done..| |].
  - intros file. split_and!; [done|done|]. rewrite Hrev. by apply (publish_mutation_ok input now new_id).
  - intros w' Hi' Ew. specialize (HQ w' Hi'). rewrite Ew in HQ. apply HQ. clear HQ.
    intros source Esrc. rewrite Ew. cbn [po_notification].
    change (source_event_index _) with (source_event_index (st_file next')). rewrite Hx.
    unfold source_key in Esrc. unfold prepared_entry.
    destruct (in_source_event_id input); simplify_eq/=. set_solver.
Qed.

Lemma publish_prepared_advances input change now new_id w (Q : PublishOutcome -> Service X -> Prop) :
  Inv w -> client_marked input -> new_id ∉ ids_of w ->
  (forall s, st_file (change s) = st_file s /\ st_seen_source_events (change s) = st_seen_source_events s) ->
  (forall o w', Inv w' -> published input o w' -> Q o w') ->
  advances (publish_prepared input change now new_id) w Q.
Proof.
  intros Hi Hm Hid Hch HQ. unfold publish_prepared. apply advances_bind.
  eapply advances_mono; [by apply prepare_advances|]. intros o w1 Hi1 Ho.
  apply advances_bind, advances_get; [done|]. destruct o as [pp|].
  2: { destruct Ho as (source & Ek & Hin). apply advances_ret; [done|]. apply HQ; [done|].
       intros source' Ek'. simplify_eq. exact Hin. }
  apply advances_bind, advances_lift; [done|]. intros [next' mutation] Ha.
  destruct (Hch (sv_state w1)) as [Ef Es]. eapply commit_publish_advances; eauto.
Qed.

Lemma record_for_source_entry file source r :
  record_for_source file source = Some r ->
  {| se_scope := source.1; se_source_event_id := source.2; se_notification_id := id r |}
    ∈ source_event_index file.
Proof.
  unfold record_for_source. destruct (List.find _ (source_event_index file)) as [e|] eqn:Ee; [|done].
  destruct (find_partition _ _) as [q|]; [|done]. intros [_ Hr]%find_some. apply find_some in Ee as [Hin He].
  apply list_elem_of_In in Hin. bools.
  repeat match goal with E : (_ ==s _) = true |- _ => apply String.eqb_eq in E end.
  destruct e; simpl in *. by subst.
Qed.

Lemma publish_advances input now new_id w (Q : PublishOutcome -> Service X -> Prop) :
  Inv w -> client_marked input -> new_id ∉ ids_of w -> (forall o w', Inv w' -> published input o w' -> Q o w') ->
  advances (publish input now new_id) w Q.
Proof.
  intros Hi Hm Hid HQ. unfold publish. apply advances_bind, advances_lift; [done|]. intros _ _.
  apply advances_bind, advances_get; [done|].
  destruct (source_key input) as [source|] eqn:Ek; [|by apply publish_prepared_advances].
  destruct (bool_decide _); [|by apply publish_prepared_advances].
  apply advances_bind, advances_lift; [done|]. intros r Hr. apply advances_ret; [done|].
  apply HQ; [done|]. intros source' Ek'. simplify_eq. cbn [po_notification].
  apply record_for_source_entry. by destruct (record_for_source _ _); simplify_eq/=.
Qed.

Lemma publish_client_advances input now new_id w (Q : ClientNotificationPublishResult -> Service X -> Prop) :
  Inv w -> new_id ∉ ids_of w -> (forall o w', Inv w' -> Q o w') ->
  advances (publish_client_account_failure input now new_id) w Q.
Proof.
  intros Hi Hid HQ. unfold publish_client_account_failure.
  do 2 (apply advances_bind, advances_lift; [done|]; intros ? ?). run_ok.
  assert (client_marked input) as Hm by (unfold client_marked; bools; congruence).
  do 3 (apply advances_bind, advances_lift; [done|]; intros ? _).
  apply advances_bind, advances_get; [done|]. destruct (bool_decide _).
  - do 2 (apply advances_bind, advances_lift; [done|]; intros ? _). apply advances_ret; auto.
  - apply advances_bind. eapply advances_mono; [by apply prepare_advances|]. intros o w1 Hi1 Ho.
    apply advances_bind, advances_lift; [done|]. intros pp Epp. run_ok. subst o.
    apply advances_bind, advances_get; [done|].
    apply advances_bind, advances_lift; [done|]. intros [next' mutation] Ha.
    apply advances_bind. eapply commit_publish_advances; eauto. intros w2 o2 Hi2 _.
    apply advances_bind, advances_lift; [done|]. intros r _.
    apply advances_bind, advances_get; [done|]. apply advances_ret; auto.
Qed.

(** ** Inputs the policy makes *)

Lemma controlled_marked context category k severity content entity action key input :
  controlled_input context category k severity content entity action key = Ok input ->
  is_client_kind k = false -> starts_with key "client:" = false ->
  starts_with (pc_source_event_id context) "client:" = false ->
  client_marked input.
Proof.
  unfold controlled_input. intros Hc Hk Hd Hs. run_ok. intros _. simpl. split; [done|]. by intros ? [= <-].
Qed.

Lemma PolicyContext_source account epoch source context :
  PolicyContext_new account epoch source = Ok context -> pc_source_event_id context = source.
Proof. unfold PolicyContext_new. intros Hc. by run_ok. Qed.

(** ** Incidents, sessions and orders *)

Lemma observe_incident_advances k account epoch state head edge now incident_id new_id w
    (Q : PublishOutcome -> Service X -> Prop) :
  Inv w -> new_id ∉ ids_of w -> (forall o w', Inv w' -> Q o w') ->
  (forall s, starts_with (head +:+ ":" +:+ s) "client:" = false) ->
  (forall context i b input, edge context i b = Ok input ->
     starts_with (pc_source_event_id context) "client:" = false -> client_marked input) ->
  advances (observe_incident k account epoch state head edge now incident_id new_id) w Q.
Proof.
  intros Hi Hid HQ Hh He. unfold observe_incident. apply advances_bind, advances_get; [done|].
  assert (forall i b s change,
    (forall s, st_file (change s) = st_file s /\ st_seen_source_events (change s) = st_seen_source_events s) ->
    advances (let* context := mlift (PolicyContext_new account epoch (head +:+ ":" +:+ s)) in
              let* input := mlift (edge context i b) in publish_prepared input change now new_id) w Q) as Hgo.
  { intros i b s change Hch. apply advances_bind, advances_lift; [done|]. intros context Hc.
    apply advances_bind, advances_lift; [done|]. intros input Hin. apply publish_prepared_advances; auto.
    eapply He; [exact Hin|]. by rewrite (PolicyContext_source _ _ _ _ Hc). }
  destruct state, (st_active_incidents (sv_state w) !! k) as [incident|];
    solve [by apply advances_ret; auto | by apply Hgo].
Qed.

Lemma observe_connection_advances o now incident_id new_id w (Q : PublishOutcome -> Service X -> Prop) :
  Inv w -> new_id ∉ ids_of w -> (forall o w', Inv w' -> Q o w') ->
  advances (observe_connection o now incident_id new_id) w Q.
Proof.
  intros Hi Hid HQ. apply advances_bind, advances_lift; [done|]. intros _ _.
  apply observe_incident_advances; [done..| |].
  - intros s. by destruct (co_channel o).
  - unfold connection_edge. intros context i b input Hin Hs. run_ok.
    destruct b; eapply controlled_marked; try done; by destruct (co_channel o).
Qed.

Lemma observe_environment_advances o now incident_id new_id w (Q : PublishOutcome -> Service X -> Prop) :
  Inv w -> new_id ∉ ids_of w -> (forall o w', Inv w' -> Q o w') ->
  advances (observe_environment o now incident_id new_id) w Q.
Proof.
  intros Hi Hid HQ. do 2 (apply advances_bind, advances_lift; [done|]; intros _ _).
  apply observe_incident_advances; [done..|].
  unfold environment_edge. intros context i b input Hin Hs. run_ok.
  destruct b; eapply controlled_marked; try done.
Qed.

Lemma observe_session_advances account epoch token now new_id w (Q : PublishOutcome -> Service X -> Prop) :
  Inv w -> new_id ∉ ids_of w -> (forall o w', Inv w' -> Q o w') ->
  advances (observe_session_expired account epoch token now new_id) w Q.
Proof.
  intros Hi Hid HQ. do 2 (apply advances_bind, advances_lift; [done|]; intros _ _).
  apply advances_bind, advances_lift; [done|]. intros context Hc.
  apply advances_bind, advances_lift; [done|]. intros input Hin.
  apply publish_advances; auto. unfold session_expired in Hin.
  pose proof (PolicyContext_source _ _ _ _ Hc) as Es. eapply controlled_marked; [exact Hin|done|..]; by rewrite Es.
Qed.

Lemma note_orders_same keys st s :
  st_file (note_orders keys st s) = st_file s /\
  st_seen_source_events (note_orders keys st s) = st_seen_source_events s.
Proof. done. Qed.

Lemma order_input_marked o context input :
  order_input o context = Ok input -> starts_with (pc_source_event_id context) "client:" = false ->
  client_marked input.
Proof.
  unfold order_input, order_filled, order_canceled, order_rejected, order_terminal. intros Hin Hs.
  destruct (oo_status o); run_ok.
  - eapply controlled_marked; [exact Hin|done|done|done].
  - eapply controlled_marked; [exact Hin|done|done|done].
  - destruct x as [ps identity]. eapply controlled_marked; [exact Hin|done|done|done].
Qed.

Lemma observe_order_advances o now new_id w (Q : PublishOutcome -> Service X -> Prop) :
  Inv w -> new_id ∉ ids_of w -> (forall o w', Inv w' -> Q o w') ->
  advances (observe_order o now new_id) w Q.
Proof.
  intros Hi Hid HQ. unfold observe_order. do 2 (apply advances_bind, advances_lift; [done|]; intros ? _).
  apply advances_bind, advances_get; [done|].
  match goal with |- advances (if ?b then _ else _) _ _ => destruct b end; [by apply advances_ret; auto|].
  destruct (negb _).
  - apply advances_bind, advances_put; [done|done|done|]. apply advances_ret; [|apply HQ]; by apply Hi.
  - apply advances_bind, advances_lift; [done|]. intros context Hc.
    apply advances_bind, advances_lift; [done|]. intros input Hin.
    apply publish_prepared_advances; auto. eapply order_input_marked; [exact Hin|].
    by rewrite (PolicyContext_source _ _ _ _ Hc).
Qed.

(** ** Reading *)

Lemma update_first_same f i l :
  (forall r, same_record r (f r)) -> Forall2 same_record l (update_first f i l).
Proof.
  intros Hf. induction l as [|r l IH]; simpl; [constructor|].
  destruct (id r ==s i); constructor; try done. clear. induction l; by constructor.
Qed.

Lemma same_partition_refl p : same_partition p p.
Proof. split; [done|]. induction (items p); by constructor. Qed.

Lemma update_record_same f i ps :
  (forall r, same_record r (f r)) -> Forall2 same_partition ps (update_record f i ps).
Proof.
  intros Hf. induction ps as [|p ps IH]; simpl; [constructor|].
  destruct (existsb _ (items p)); constructor.
  - split; [done|]. by apply update_first_same.
  - clear. induction ps; constructor; [apply same_partition_refl|done].
  - apply same_partition_refl.
  - done.
Qed.

Lemma read_partition_same context now ps :
  now <= MAX_JAVASCRIPT_SAFE_INTEGER -> Forall2 same_partition ps (map (read_partition context now) ps).
Proof.
  intros Hn. induction ps as [|p ps IH]; simpl; constructor; [|done].
  unfold read_partition. destruct (visible _ _); [|apply same_partition_refl]. split; [done|]. simpl.
  induction (items p) as [|r l IHl]; simpl; constructor; [|done].
  unfold read_if_due. destruct (_ && _); [by apply read_now_same|done].
Qed.

(** A commit of the state with other partitions, whose records are the same. *)
Lemma read_commit_advances ps now change scopes i w (Q : ServiceState -> Service X -> Prop) :
  Inv w -> Forall2 same_partition (partitions (file_of w)) ps -> (forall s w', Inv w' -> Q s w') ->
  advances (commit_announced ((sv_state w) <| st_file ::= fun file => file <| partitions := ps |> |>) now change scopes i) w Q.
Proof.
  intros [Hg Hs] Hp HQ. apply commit_announced_advances; [done| |done| |].
  - exact (good_same _ _ Hg Hp).
  - exact Hs.
  - intros w' Hi' _. by apply HQ.
Qed.

Lemma mark_read_advances context i now w (Q : NotificationMutationResult -> Service X -> Prop) :
  Inv w -> now <= MAX_JAVASCRIPT_SAFE_INTEGER -> (forall o w', Inv w' -> Q o w') ->
  advances (mark_read context i now) w Q.
Proof.
  intros Hi Hn HQ. unfold mark_read. apply advances_bind, advances_get; [done|].
  apply advances_bind, advances_lift; [done|]. intros [s r] _.
  apply advances_bind, advances_lift; [done|]. intros _ _. destruct (read_at_ms r); [by apply advances_ret; auto|].
  apply advances_bind.
  apply (read_commit_advances (update_record (read_now now) i (partitions (file_of w)))); [done| |].
  - apply update_record_same. intros. by apply read_now_same.
  - intros s' w' Hi'. apply advances_ret; auto.
Qed.

Lemma mark_visible_read_advances context now w (Q : NotificationMutationResult -> Service X -> Prop) :
  Inv w -> now <= MAX_JAVASCRIPT_SAFE_INTEGER -> (forall o w', Inv w' -> Q o w') ->
  advances (mark_visible_read context now) w Q.
Proof.
  intros Hi Hn HQ. unfold mark_visible_read. apply advances_bind, advances_get; [done|].
  destruct (_ =? 0); [by apply advances_ret; auto|]. apply advances_bind.
  apply (read_commit_advances (map (read_partition context now) (partitions (file_of w)))); [done| |].
  - by apply read_partition_same.
  - intros s' w' Hi'. apply advances_ret; auto.
Qed.

(** ** Deleting *)

(** A state whose partitions are thinned and whose index was cleaned. *)
Lemma reindex_good s w :
  Inv w -> schema_version (st_file s) = schema_version (file_of w) -> revision (st_file s) = revision (file_of w) ->
  source_event_index (st_file s) = source_event_index (file_of w) ->
  thins (partitions (file_of w)) (partitions (st_file s)) ->
  Good (st_file (reindex s)) /\ revision (st_file (reindex s)) = revision (file_of w) /\
  st_seen_source_events (reindex s) = rebuild_seen_source_events (st_file (reindex s)).
Proof.
  intros [Hg _] E1 E2 E3 Ht. split_and!; [|done|done].
  eapply shrinks_good; [exact Hg|]. by apply (cleanup_shrinks (file_of w) (st_file s)).
Qed.

Lemma thins_remove_at i j (ps : list NotificationPartition) :
  thins ps (alter (fun p => {| pt_scope := pt_scope p; items := delete j (items p) |}) i ps).
Proof.
  revert i. induction ps as [|p ps IH]; intros i; [constructor|]. destruct i; simpl.
  - constructor; [done| |apply thins_refl]. simpl. apply sublist_submseteq, sublist_delete.
  - apply thins_keep; [done|done|apply IH].
Qed.

Lemma delete_visible_advances context i now w (Q : NotificationMutationResult -> Service X -> Prop) :
  Inv w -> (forall o w', Inv w' -> Q o w') -> advances (delete_visible context i now) w Q.
Proof.
  intros Hi HQ. unfold delete_visible. apply advances_bind, advances_get; [done|].
  apply advances_bind, advances_lift; [done|]. intros [pi ri] _.
  apply advances_bind, advances_lift; [done|]. intros p _.
  apply advances_bind, advances_lift; [done|]. intros _ _. apply advances_bind.
  set (next := (sv_state w) <| st_file ::= _ |>).
  destruct (reindex_good next w Hi) as (Hg & Hr & Hs); [done|done|done| |].
  { eapply thins_trans; [apply thins_remove_at|apply thins_filter]. }
  apply commit_announced_advances; [done..|]. intros w' Hi' _. apply advances_ret; auto.
Qed.

Lemma drop_scope_good sc w :
  Inv w ->
  Good (st_file (drop_scope sc (sv_state w))) /\
  revision (st_file (drop_scope sc (sv_state w))) = revision (file_of w) /\
  st_seen_source_events (drop_scope sc (sv_state w)) = rebuild_seen_source_events (st_file (drop_scope sc (sv_state w))).
Proof. intros Hi. apply reindex_good; [done|done|done|done|]. apply thins_filter. Qed.

Lemma clear_account_advances active requested now w (Q : NotificationMutationResult -> Service X -> Prop) :
  Inv w -> (forall o w', Inv w' -> Q o w') -> advances (clear_account active requested now) w Q.
Proof.
  intros Hi HQ. unfold clear_account. do 2 (apply advances_bind, advances_lift; [done|]; intros ? _).
  apply advances_bind, advances_get; [done|]. destruct (_ =? 0); [by apply advances_ret; auto|].
  apply advances_bind. destruct (drop_scope_good (AccountScope requested) w Hi) as (Hg & Hr & Hs).
  apply commit_announced_advances; [done..|]. intros w' Hi' _. apply advances_ret; auto.
Qed.

(** Without a partition of the account there is nothing to clean. *)
Lemma drop_scope_nothing sc w :
  Inv w -> existsb (fun p => bool_decide (pt_scope p = sc)) (partitions (file_of w)) = false ->
  st_file (drop_scope sc (sv_state w)) = file_of w /\
  st_seen_source_events (drop_scope sc (sv_state w)) = st_seen_source_events (sv_state w).
Proof.
  intros [Hg Hs] Hn.
  assert (List.filter (fun p => negb (bool_decide (pt_scope p = sc))) (partitions (file_of w)) = partitions (file_of w)) as Ep.
  { clear -Hn. induction (partitions (file_of w)) as [|p l IH]; [done|]. simpl in *.
    apply orb_false_iff in Hn as [-> Hn]. simpl. by rewrite IH. }
  assert (List.filter (fun e => bool_decide (entry_key e ∈ file_keys (file_of w))) (source_event_index (file_of w))
          = source_event_index (file_of w)) as Ei.
  { apply filter_all_in. intros e He. apply bool_decide_eq_true.
    destruct (g_entries _ Hg e He) as (_ & r & Hr & Hid & _). apply key_in_recs. eauto. }
  assert (st_file (drop_scope sc (sv_state w)) = file_of w) as E.
  { clear -Ep Ei. destruct (sv_state w) as [[v rv ix ps] sn lp ai os]. cbn [st_file partitions source_event_index] in *.
    set (ps' := List.filter _ ps) in Ep.
    change (Build_NotificationFileV1 v rv
      (List.filter (fun e => bool_decide (entry_key e ∈ file_keys (Build_NotificationFileV1 v rv ix ps'))) ix) ps'
      = Build_NotificationFileV1 v rv ix ps). rewrite Ep. by rewrite Ei. }
  split; [done|]. rewrite Hs, <- E. by apply drop_scope_good.
Qed.

Lemma delete_partition_advances account now w (Q : unit -> Service X -> Prop) :
  Inv w -> (forall o w', Inv w' -> Q o w') -> advances (delete_account_partition account now) w Q.
Proof.
  intros Hi HQ. unfold delete_account_partition. apply advances_bind, advances_lift; [done|]. intros ctx _.
  apply advances_bind, advances_get; [done|]. destruct (existsb _ _) eqn:Ee; cbn [negb].
  - apply advances_bind. destruct (drop_scope_good (AccountScope account) w Hi) as (Hg & Hr & Hs).
    apply commit_announced_advances; [done..|]. intros w' Hi' _. apply advances_ret; auto.
  - destruct (drop_scope_nothing (AccountScope account) w Hi Ee) as [Ef Es].
    apply advances_put; [done|exact Ef|exact Es|]. apply HQ.
    destruct (drop_scope_good (AccountScope account) w Hi) as (Hg & _ & Hs). split; [exact Hg|exact Hs].
Qed.

(** ** Maintenance *)

Lemma prune_advances configured now w (Q : PruneOutcome -> Service X -> Prop) :
  Inv w -> (forall o w', Inv w' -> Q o w') -> advances (prune configured now) w Q.
Proof.
  intros Hi HQ. pose proof Hi as [Hg Hs]. unfold prune. apply advances_bind, advances_get; [done|].
  apply advances_bind, advances_lift; [done|]. intros [file pruning] Ep.
  pose proof (prune_file_keeps (Some configured) now (file_of w) Hg) as Hk.
  apply enforce_cap_keeps in Ep; [|exact (keeps_good (file_of w, no_mutation) _ Hg Hk)].
  pose proof (keeps_trans _ _ _ Hk Ep) as [Hsh Hc]. cbn [fst snd] in *.
  destruct (hk_changed pruning) eqn:Ec; cbn [negb].
  - apply advances_bind. apply commit_announced_advances; [done|exact (shrinks_good _ _ Hg Hsh)| |done|].
    + apply (sh_revision _ _ Hsh).
    + intros w' Hi' _. apply advances_ret; auto.
  - destruct (Hc eq_refl) as [-> _]. apply advances_bind, advances_put; [done|done|done|]. apply advances_ret; [|apply HQ]; done.
Qed.

(** ** The calls of the service *)

Inductive call :=
| CallPublish (input : NotificationInput) (new_id : string)
| CallPublishClientFailure (input : NotificationInput) (new_id : string)
| CallList (context : ViewContext) (request : ListNotificationsRequest)
| CallSummary (context : ViewContext)
| CallMarkRead (context : ViewContext) (i : string)
| CallMarkVisibleRead (context : ViewContext)
| CallDeleteVisible (context : ViewContext) (i : string)
| CallClearAccount (active requested : string)
| CallMaintenanceDue
| CallPrune (configured : gset string)
| CallDeleteAccountPartition (account : string)
| CallObserveConnection (o : ConnectionObservation) (incident_id new_id : string)
| CallObserveEnvironment (o : EnvironmentObservation) (incident_id new_id : string)
| CallObserveSessionExpired (account : string) (epoch : Z) (token new_id : string)
| CallObserveOrder (o : OrderObservation) (new_id : string).

Definition forget {A} (c : Run A) : Run unit := let* _ := c in mret tt.

Definition perform (c : call) (now : Z) : Run unit :=
  match c with
  | CallPublish input new_id => forget (publish input now new_id)
  | CallPublishClientFailure input new_id => forget (publish_client_account_failure input now new_id)
  | CallList context request => forget (list_notifications context request now)
  | CallSummary context => forget (summary context now)
  | CallMarkRead context i => forget (mark_read context i now)
  | CallMarkVisibleRead context => forget (mark_visible_read context now)
  | CallDeleteVisible context i => forget (delete_visible context i now)
  | CallClearAccount active requested => forget (clear_account active requested now)
  | CallMaintenanceDue => forget (maintenance_due now)
  | CallPrune configured => forget (prune configured now)
  | CallDeleteAccountPartition account => forget (delete_account_partition account now)
  | CallObserveConnection o incident_id new_id => forget (observe_connection o now incident_id new_id)
  | CallObserveEnvironment o incident_id new_id => forget (observe_environment o now incident_id new_id)
  | CallObserveSessionExpired account epoch token new_id =>
      forget (observe_session_expired account epoch token now new_id)
  | CallObserveOrder o new_id => forget (observe_order o now new_id)
  end.

(** The identity [Uuid::new_v4] gives is new, and only a client's notification is
    published under a client's source. *)
Definition call_ok (c : call) (w : Service X) : Prop :=
  match c with
  | CallPublish input new_id => client_marked input /\ new_id ∉ ids_of w
  | CallPublishClientFailure _ new_id | CallObserveConnection _ _ new_id | CallObserveEnvironment _ _ new_id
  | CallObserveSessionExpired _ _ _ new_id | CallObserveOrder _ new_id => new_id ∉ ids_of w
  | _ => True
  end.

Lemma forget_advances {A} (c : Run A) w :
  advances c w (fun _ => Inv) -> advances (forget c) w (fun _ => Inv).
Proof. intros Hc. apply advances_bind. eapply advances_mono; [exact Hc|]. intros. by apply advances_ret. Qed.

Lemma perform_advances c now w :
  Inv w -> now <= MAX_JAVASCRIPT_SAFE_INTEGER -> call_ok c w -> advances (perform c now) w (fun _ => Inv).
Proof.
  intros Hi Hn Hc. destruct c; cbn [perform call_ok] in *; apply forget_advances.
  - destruct Hc. by apply publish_advances.
  - by apply publish_client_advances.
  - apply advances_bind, advances_get; [done|]. by apply advances_lift.
  - apply advances_bind, advances_get; [done|]. by apply advances_ret.
  - by apply mark_read_advances.
  - by apply mark_visible_read_advances.
  - by apply delete_visible_advances.
  - by apply clear_account_advances.
  - apply advances_bind, advances_get; [done|]. by apply advances_ret.
  - by apply prune_advances.
  - by apply delete_partition_advances.
  - by apply observe_connection_advances.
  - by apply observe_environment_advances.
  - by apply observe_session_advances.
  - by apply observe_order_advances.
Qed.
End History.
