(* ===== verification/NotificationDurable.v ===== *)
(** storage/notification_store.rs: whatever interrupts the saves of a running
    process, a later start finds the document saved last or one whose save was
    begun after it; and how a start itself can lose a document. *)
From stdpp Require Import gmap strings.
From S2P Require Import Prelude RustStr FileSystem External Models SafeDocument SafeDocumentFacts AtomicFile NotificationTypes NotificationPolicy NotificationFile NotificationStore.
#[local] Open Scope list_scope.

(** serde_json at the document: the indented text of an accepted document is a
    JSON text from which the document is read back. *)
Class NotificationJsonLaws `{UuidText} `{Codec json} `{NotificationJson} := {
  pretty_reads f text : file_valid f = true -> to_pretty f = Some text ->
    exists v, decode text = Some v /\
      json_get "schemaVersion" v = Some (JPosInt (schema_version f)) /\ file_from_value v = Some f;
}.

Section Durable.
Context `{NotificationJsonLaws} `{!ObjectTextLaws json}.

Definition classify (text : string) : Candidate :=
  if MAX_NOTIFICATION_FILE_BYTES <? len text then classify_oversized_prefix (bytes_of text)
  else candidate_of_text text.

Lemma saved_text_reads f text :
  file_valid f = true -> serialize_file f = Ok text -> classify text = Valid f.
Proof.
  intros Hf Hs. unfold serialize_file in Hs. destruct (to_pretty f) as [t|] eqn:Et; [|done].
  destruct (Z.leb_spec (len t) MAX_NOTIFICATION_FILE_BYTES); [|done]. injection Hs as ->.
  unfold classify. destruct (Z.ltb_spec MAX_NOTIFICATION_FILE_BYTES (len text)); [lia|].
  destruct (pretty_reads f text Hf Et) as (v & Ed & Eg & Ef).
  assert (schema_version f = NOTIFICATION_SCHEMA_VERSION) as Ev
    by (unfold file_valid in Hf; bools; lia).
  unfold candidate_of_text. rewrite Ed, Eg. cbn. rewrite Ev, Ef. unfold validate_file. by rewrite Hf.
Qed.

(** A text cut short is the same document or none. *)
Lemma cut_text_reads f text cut :
  classify text = Valid f -> String.prefix cut text = true -> classify cut = Valid f \/ classify cut = Corrupt.
Proof.
  unfold classify. intros Hc Hp.
  destruct (Z.ltb_spec MAX_NOTIFICATION_FILE_BYTES (len text)) as [|Hl].
  { unfold classify_oversized_prefix in Hc. repeat case_match; done. }
  assert (len cut <= len text) as Hle.
  { unfold len. clear -Hp. revert text Hp. induction cut as [|c cut IH]; intros [|d text]; simpl; try done; try lia.
    destruct (Ascii.ascii_dec c d); [|done]. intros Hp. specialize (IH _ Hp). lia. }
  destruct (Z.ltb_spec MAX_NOTIFICATION_FILE_BYTES (len cut)); [lia|].
  unfold candidate_of_text in *. destruct (decode text) as [v|] eqn:Ed; [|done].
  destruct (decode cut) as [v'|] eqn:Ec; [|by right].
  assert (v' = v) as -> by (eapply decode_prefix; eauto). by left.
Qed.

(** ** Reading candidates *)

(** The disk is as it was. *)
Definition kept (w w' : fs_world) : Prop := disk w' = disk w.

Lemma kept_same w w' : kept w w' -> same w w'.
Proof. unfold kept, same, disk. congruence. Qed.

Lemma read_candidate_reads p : reads disk (read_candidate p).
Proof.
  unfold read_candidate. repeat (apply reads_bind; [apply reads_disk_prim|intros]). apply reads_ret.
Qed.

Lemma metadata_reads p : reads disk (fs_metadata p).
Proof. apply reads_disk_prim. Qed.

Lemma existing_candidate_reads p : reads disk (existing_candidate p).
Proof.
  unfold existing_candidate, su.
  apply reads_bind; [apply reads_try, metadata_reads|intros [[]|]];
    try apply reads_ret; try apply reads_fail.
  apply reads_bind; [apply reads_map_err, read_candidate_reads|intros; apply reads_ret].
Qed.

Lemma ensure_supported_reads ps : reads disk (ensure_supported_save_target ps).
Proof.
  induction ps as [|p ps IH]; simpl; [apply reads_ret|].
  apply reads_bind; [apply existing_candidate_reads|].
  intros [[]|]; auto using reads_ret, reads_fail.
Qed.

Lemma wp_mlift {W E A} (x : outcome E A) (Q : A -> W -> Prop) (R : E -> W -> Prop) C w :
  match x with Ok a => Q a w | Err e => R e w | Halt _ => C w end -> wp (mlift x) Q R C w.
Proof. done. Qed.

Lemma wp_unread {E A} (c : M fs_world E A) (Q : A -> fs_world -> Prop) (R : E -> fs_world -> Prop) C w :
  reads disk c ->
  (forall a w', kept w w' -> Q a w') -> (forall e w', kept w w' -> R e w') ->
  (forall w', kept w w' -> C w') -> wp c Q R C w.
Proof. intros Hr HQ HR HC. specialize (Hr w). unfold wp, kept in *. destruct (c w) as [[] w']; auto. Qed.

(** What holds of a reading run, with the disk it leaves. *)
Lemma wp_kept {E A} (c : M fs_world E A) (Q : A -> fs_world -> Prop) (R : E -> fs_world -> Prop) C w :
  reads disk c -> wp c Q R C w ->
  wp c (fun a w' => kept w w' /\ Q a w') (fun e w' => kept w w' /\ R e w')
       (fun w' => kept w w' /\ C w') w.
Proof. intros Hr Hc. specialize (Hr w). unfold wp, kept in *. by destruct (c w) as [[] w']. Qed.

(** What a look at a candidate answers. *)
Definition looks (n : option node) (c : option Candidate) : Prop :=
  match n with
  | Some (File d _) => c = Some (classify d)
  | None => c = None
  | Some Dir => True
  end.

Lemma existing_candidate_looks dir name w :
  walkable dir (nodes w) ->
  wp (existing_candidate (name :: dir))
     (fun c w' => same w w' /\ looks (entry dir (nodes w) name) c)
     (fun _ => same w) (same w) w.
Proof.
  intros Hw. destruct (entry dir (nodes w) name) as [[d s|]|] eqn:E.
  2: by apply wp_unread; [apply existing_candidate_reads|intros; split; [by apply kept_same|]|intros; by apply kept_same..].
  all: unfold existing_candidate, entry, same in *; do 2 wp_step; unfold fs_metadata; wp_call;
    [by intros; wp_step|done|]; intros fs; unfold lookup_op; rewrite (Hw name), E; cbn [fst].
  - wp_step. unfold su, read_candidate. do 2 wp_step. unfold fs_openat. wp_call; [done..|]. intros fs1.
    unfold lookup_op. rewrite (Hw name), E. cbn.
    wp_step. unfold fs_len. wp_call; [done..|]. intros fs2. rewrite (Hw name), E.
    wp_step. unfold fs_read. wp_call; [done..|]. intros fs3. rewrite (Hw name), E.
    repeat wp_step. split; [done|]. f_equal. unfold classify. by rewrite orb_diag.
  - by wp_step.
Qed.

Lemma existing_candidate_spec dir name w :
  walkable dir (nodes w) ->
  wp (existing_candidate (name :: dir))
     (fun c w' => kept w w' /\ looks (entry dir (nodes w) name) c)
     (fun _ => kept w) (kept w) w.
Proof.
  intros Hw. eapply wp_mono; [apply wp_kept;
    [apply existing_candidate_reads|by apply existing_candidate_looks]|..]; naive_solver.
Qed.

(** ** Replacing the document *)

Section Replacing.
Context (dir : path) (name : string).

Local Abbreviation at_ := (entry dir).
Local Abbreviation tmp_ := (name +:+ ".tmp").
Local Abbreviation bak_ := (name +:+ ".bak").
Local Abbreviation main_ := (name :: dir).

Definition holds (A : list NotificationFileV1) (n : option node) : Prop :=
  exists t f, n = Some (File t true) /\ classify t = Valid f /\ f ∈ A.

Definition staged (A : list NotificationFileV1) (n : option node) : Prop :=
  n = None \/
  exists t s u f, n = Some (File t s) /\ String.prefix t u = true /\ classify u = Valid f /\ f ∈ A.

(** A document of [A] is found again: in the main file, or in the backup while
    the main file is missing. *)
Definition standing (A : list NotificationFileV1) (m : gmap path node) : Prop :=
  walkable dir m /\
  (holds A (at_ m name) \/ (at_ m name = None /\ holds A (at_ m bak_) /\ staged A (at_ m tmp_))).

Lemma holds_mono A B n : A ⊆ B -> holds A n -> holds B n.
Proof. intros HB (t & f & ? & ? & ?). exists t, f. auto. Qed.
Lemma standing_mono A B m : A ⊆ B -> standing A m -> standing B m.
Proof.
  intros HB (Hw & [Hm|(Hn & Hb & Ht)]); (split; [done|]); [left; by eapply holds_mono|right].
  split_and!; [done|by eapply holds_mono|]. destruct Ht as [|(t & s & u & f & ?)]; [by left|].
  right. exists t, s, u, f. naive_solver.
Qed.

Lemma standing_crash A cut m : standing A m -> standing A (crash_nodes cut m).
Proof.
  assert (forall n, at_ (crash_nodes cut m) n = crash_node cut (n :: dir) <$> at_ m n) as He
    by (intros; apply lookup_crash_nodes).
  assert (forall n, holds A (at_ m n) -> holds A (at_ (crash_nodes cut m) n)) as Hh.
  { intros n (t & f & E & ?). exists t, f. by rewrite He, E. }
  intros (Hw & [Hm|(Hn & Hb & Ht)]); (split; [by apply walkable_crash|]); [left; auto|right].
  split_and!; [by rewrite He, Hn|auto|]. rewrite He.
  destruct Ht as [->|(t & s & u & f & -> & Hp & ?)]; [by left|right]. destruct s; cbn.
  - by exists t, true, u, f.
  - exists (String.substring 0 (cut (tmp_ :: dir)) t), true, u, f.
    split_and!; try tauto. by eapply prefix_trans, Hp; apply prefix_substring.
Qed.

Lemma standing_same A m m' :
  (forall n, at_ m' n = at_ m n) -> walkable dir m' -> standing A m -> standing A m'.
Proof. unfold standing. intros He Hw [_ Hs]. by rewrite !He. Qed.

Ltac names :=
  destruct (sibling_names name) as (?&?&_&_&?&_);
  repeat first [rewrite entry_insert | rewrite entry_delete];
  repeat first [rewrite decide_False by congruence | rewrite decide_True by congruence].

(** The temporary copy may hold anything that is being saved. *)
Lemma standing_staged A f text m m' :
  classify text = Valid f -> f ∈ A -> at_entry dir tmp_ (partly text) m m' ->
  standing A m -> standing A m'.
Proof.
  intros Hc Hf [->|(n & -> & Hn)] Hs; [done|].
  destruct Hs as (Hw & Hs). split; [auto with preserve|]. names.
  destruct Hs as [Hs|(Hm & Hb & _)]; [by left|right]. split_and!; [done..|].
  destruct Hn as [|(t & s & [= ->] & Hp)]; [done|right]. by exists t, s, text, f.
Qed.

(** *** The trees a power loss may leave *)

(** An earlier state of the names knows the directory, and its temporary copy
    only under that name. *)
Definition tracked (s : snapshot) : Prop :=
  knows dir s = true /\ forall q, s !! q = Some (Live (tmp_ :: dir)) -> q = tmp_ :: dir.

(** A document of [A] is found again, whichever directory operations are lost. *)
Definition survives (A : list NotificationFileV1) (w : fs_world) : Prop :=
  is_dir_at (nodes w) dir = true /\ Forall (standing A) (trees w) /\
  Forall tracked (older (fs_env w)).

Lemma survives_now A w : survives A w -> standing A (nodes w).
Proof. intros (_ & Hs & _). by apply Forall_inv in Hs. Qed.

Lemma survives_mono A B w : A ⊆ B -> survives A w -> survives B w.
Proof.
  intros HB (Hd & Hs & Ht). split_and!; [done| |done].
  eapply Forall_impl; [exact Hs|]. intros m. by apply standing_mono.
Qed.

Lemma survives_kept A w w' : kept w w' -> survives A w -> survives A w'.
Proof.
  unfold kept, disk, survives, trees. intros [= -> ->]. done.
Qed.

Lemma survives_env A m fs fs' past :
  survives A (FsWorld m (Env fs past)) -> survives A (FsWorld m (Env fs' past)).
Proof. by apply survives_kept. Qed.

Lemma knows_live d s : knows d s = true <-> d = [] \/ s !! d = Some (Live d).
Proof.
  unfold knows. destruct d as [|x d]; [naive_solver|].
  destruct (s !! _) as [[q|]|]; [rewrite bool_decide_eq_true|..]; naive_solver.
Qed.

Lemma knows_links m : is_dir_at m dir = true -> knows dir (links m) = true.
Proof.
  rewrite knows_live, lookup_links. destruct dir as [|x d]; [by left|]. simpl. intros Hd. right.
  by destruct (m !! (x :: d)).
Qed.

Lemma tracked_links m : is_dir_at m dir = true -> tracked (links m).
Proof.
  intros Hd. split; [by apply knows_links|]. intros q. rewrite lookup_links.
  destruct (m !! q); [by intros [= ->]|done].
Qed.

(** A change of the names that leaves the directory and does not make another
    file the temporary copy. *)
Definition gentle (f : path -> option ref) : Prop :=
  (dir <> [] -> f dir = Some (Live dir)) /\
  forall q, f q = Some (Live (tmp_ :: dir)) -> q = tmp_ :: dir.

Lemma tracked_retarget f s : gentle f -> tracked s -> tracked (retarget f s).
Proof.
  intros [Hd Ht] [Hk Hs]. split.
  - rewrite knows_live in *. rewrite lookup_retarget. destruct (decide (dir = [])) as [|Hn]; [by left|right].
    destruct Hk as [?| ->]; [done|]. simpl. auto.
  - intros q. rewrite lookup_retarget. destruct (s !! q) as [[q'|n']|] eqn:E; simpl; [|done..].
    intros ->%Ht. auto.
Qed.

Lemma gentle_unnamed m p : p <> dir -> gentle (unnamed m p).
Proof.
  intros Hp. unfold unnamed. split.
  - intros _. by rewrite bool_decide_false by congruence.
  - intros q. case_bool_decide; [by destruct (m !! p)|]. by intros [= ->].
Qed.

Lemma not_dir x : x :: dir <> dir.
Proof. intros E. apply (f_equal length) in E. simpl in E. lia. Qed.

Lemma gentle_renamed m x y d s :
  m !! (x :: dir) = Some (File d s) -> y <> tmp_ -> gentle (renamed m (x :: dir) (y :: dir)).
Proof.
  intros Hx Hy. unfold renamed. rewrite Hx. simpl.
  destruct (gentle_unnamed m (y :: dir) (not_dir y)) as [Hd Ht]. split.
  - intros Hn. rewrite bool_decide_false by (intros E; by eapply not_dir). simpl. auto.
  - intros q. rewrite orb_false_r. case_bool_decide as E; [|apply Ht].
    subst. rewrite rebase_self. by intros [= ->].
Qed.

(** A directory operation. *)
Lemma grow A m m' f past fs fs' :
  tracks m m' f -> gentle f -> is_dir_at m' dir = true -> standing A m' ->
  survives A (FsWorld m (Env fs past)) ->
  survives A (FsWorld m' (Env fs' (map (retarget f) (links m :: past)))).
Proof.
  intros Hf Hg Hd Hm (Hd0 & Hs & Ht). split_and!; [done|..].
  - rewrite (trees_grow m m' f past fs fs' Hf). by constructor.
  - cbn [fs_env older map] in *. constructor; [by apply tracked_retarget, tracked_links|].
    apply Forall_map. eapply Forall_impl; [exact Ht|]. intros s. by apply tracked_retarget.
Qed.

Lemma dir_kept_insert x n m : is_dir_at m dir = true -> is_dir_at (<[x :: dir := n]> m) dir = true.
Proof.
  unfold is_dir_at. destruct dir as [|y d] eqn:E; [done|]. rewrite <-E. intros Hd.
  rewrite lookup_insert_ne; [done|]. apply not_dir.
Qed.
Lemma dir_kept_delete x m : is_dir_at m dir = true -> is_dir_at (delete (x :: dir) m) dir = true.
Proof.
  unfold is_dir_at. destruct dir as [|y d] eqn:E; [done|]. rewrite <-E. intros Hd.
  rewrite lookup_delete_ne; [done|]. apply not_dir.
Qed.

(** Bytes written to the temporary copy: every tree that shows it shows them. *)
Lemma resolve_temp m s n :
  tracked s ->
  resolve (<[tmp_ :: dir := n]> m) s = resolve m s \/
  resolve (<[tmp_ :: dir := n]> m) s = <[tmp_ :: dir := n]> (resolve m s).
Proof.
  intros [_ Hs]. destruct (decide (s !! (tmp_ :: dir) = Some (Live (tmp_ :: dir)))) as [E|E]; [right|left];
    apply map_eq; intros q; rewrite ?lookup_insert, !lookup_resolve.
  - case_decide as Eq; [subst q; rewrite E; simpl; by rewrite lookup_insert_eq|].
    destruct (s !! q) as [[q'|n']|] eqn:Es; simpl; [|done..]. rewrite lookup_insert_ne; [done|].
    intros <-. apply Hs in Es. congruence.
  - destruct (s !! q) as [[q'|n']|] eqn:Es; simpl; [|done..]. rewrite lookup_insert_ne; [done|].
    intros <-. pose proof (Hs _ Es). congruence.
Qed.

Lemma written A f text t s m past fs fs' :
  classify text = Valid f -> f ∈ A -> String.prefix t text = true ->
  survives A (FsWorld m (Env fs past)) ->
  survives A (FsWorld (<[tmp_ :: dir := File t s]> m) (Env fs' past)).
Proof.
  intros Hc Hf Hp (Hd & Hs & Ht). unfold survives, trees in *. cbn [nodes fs_env older] in *.
  apply Forall_cons in Hs as [Hm Hs].
  assert (forall m1 m2, m2 = m1 \/ m2 = <[tmp_ :: dir := File t s]> m1 -> standing A m1 -> standing A m2) as HT.
  { intros m1 m2 [-> | ->]; [done|]. apply (standing_staged A f text); [done..|].
    right. eexists. split; [done|]. right. by exists t, s. }
  split_and!; [by apply dir_kept_insert| |done]. constructor; [apply (HT m); auto|].
  rewrite Forall_map in Hs |- *. rewrite Forall_forall in Hs, Ht |- *. intros x Hx.
  apply (HT (resolve m x)); [apply resolve_temp|]; auto.
Qed.

(** Once the directory is synced every tree shows the names of the current one. *)
Definition settled (w : fs_world) : Prop :=
  forall B, standing B (nodes w) -> survives B w.

Lemma agree_entry m s n :
  knows dir s = true -> at_ (resolve m (agree_on dir m s)) n = at_ m n.
Proof.
  intros Hk. unfold entry, agree_on. rewrite Hk, lookup_resolve, lookup_union.
  rewrite map_lookup_filter_None_2.
  2: { right. intros r _. simpl. by rewrite bool_decide_true. }
  rewrite (left_id_L None _).
  destruct (m !! (n :: dir)) as [x|] eqn:E.
  - rewrite (map_lookup_filter_Some_2 _ _ _ (Live (n :: dir))).
    + simpl. by rewrite E.
    + by rewrite lookup_links, E.
    + simpl. by rewrite bool_decide_true.
  - rewrite map_lookup_filter_None_2; [done|]. left. by rewrite lookup_links, E.
Qed.

Lemma agree_other m s q :
  (forall n, q <> n :: dir) -> agree_on dir m s !! q = s !! q.
Proof.
  intros Hq. unfold agree_on. destruct (knows dir s); [|done].
  assert (child_name dir q = None) as Ec.
  { destruct q as [|n q]; [done|]. simpl. rewrite bool_decide_false; [done|]. intros ->. by eapply Hq. }
  rewrite lookup_union, (map_lookup_filter_None_2 _ (links m)).
  2: { right. intros r _. simpl. by rewrite Ec; intros []. }
  rewrite (right_id_L None _). rewrite map_lookup_filter. destruct (s !! q); [|done]. simpl.
  by rewrite option_guard_True.
Qed.

Lemma tracked_agree m s : tracked s -> tracked (agree_on dir m s).
Proof.
  intros [Hk Hs]. split.
  - rewrite knows_live in *. rewrite agree_other; [done|]. intros n E. symmetry in E. by apply not_dir in E.
  - intros q. destruct q as [|n q]; [rewrite agree_other by done; auto|].
    destruct (decide (q = dir)) as [->|Hq]; [|rewrite agree_other by congruence; auto].
    intros E. unfold agree_on in E. rewrite Hk, lookup_union in E. revert E.
    rewrite map_lookup_filter_None_2.
    2: { right. intros r _. simpl. by rewrite bool_decide_true. }
    rewrite (left_id_L None _), map_lookup_filter, lookup_links. destruct (m !! (n :: dir)); [|done].
    simpl. rewrite option_guard_True by (by rewrite bool_decide_true). by intros [= ->].
Qed.

Lemma standing_agree A B m s :
  knows dir s = true -> standing A (resolve m s) -> standing B m -> standing B (resolve m (agree_on dir m s)).
Proof.
  intros Hk (Hw & _). apply standing_same; [by intros; apply agree_entry|].
  rewrite walkable_iff in *. intros q Hq.
  rewrite lookup_resolve, agree_other, <-lookup_resolve; [by apply Hw|].
  intros n ->. destruct Hq as [E|E]; [by apply not_dir in E|]. apply ancestor_shorter in E. simpl in E. lia.
Qed.

Lemma sync_parent_spec A x w :
  survives A w ->
  wp (sync_parent_directory (x :: dir))
     (fun _ w' => same w w' /\ survives A w' /\ settled w') (fun _ => kept w) (kept w) w.
Proof.
  intros Hs. unfold sync_parent_directory, su. cbn [parent tail]. do 2 wp_step.
  unfold fs_openat. apply wp_prim_past; [done..|]. intros fs1. destruct (lookup_op _ _); cbn [fst]; [|done..].
  simpl. unfold fs_sync_dir. apply wp_prim_past; [done..|]. intros fs2. cbn [nodes fs_env older].
  set (m := nodes w) in *. set (past := older (fs_env w)) in *. destruct Hs as (Hd & Hs & Ht).
  apply Forall_cons in Hs as [Hm Hs]. fold m past in Hs.
  assert (settled (FsWorld m (Env fs2 (map (agree_on dir m) past)))) as Hset.
  { intros B HB. unfold survives, trees. cbn [nodes fs_env older] in *. split_and!; [done|..].
    - constructor; [done|]. rewrite Forall_map in Hs. rewrite map_map, Forall_map.
      rewrite Forall_forall in Hs, Ht |- *. intros s Hin.
      eapply standing_agree; [by apply Ht|by apply Hs|done].
    - rewrite Forall_map. eapply Forall_impl; [exact Ht|]. intros s. apply tracked_agree. }
  split_and!; [done|by apply Hset|done].
Qed.

Lemma stage_spec A f text w :
  classify text = Valid f -> f ∈ A -> survives A w ->
  wp (write_and_sync (temp main_) text)
     (fun _ w' => nodes w' = <[tmp_ :: dir := File text true]> (nodes w) /\ survives A w')
     (fun _ => survives A) (survives A) w.
Proof.
  intros Hc Hf Hs. unfold write_and_sync, su. change (temp main_) with (tmp_ :: dir).
  destruct w as [m [fs past]]. cbn [nodes].
  assert (forall t s fs' past', String.prefix t text = true ->
    survives A (FsWorld m (Env fs past')) -> survives A (FsWorld (<[tmp_ :: dir := File t s]> m) (Env fs' past'))) as HW
    by (intros; by eapply written).
  do 2 wp_step. unfold fs_open_truncate. apply wp_prim_past; cbn [nodes fs_env older];
    [by intros; eapply survives_env..|]. intros fs1.
  destruct (open_check _ _); [|by eapply survives_env..].
  assert (survives A (FsWorld (<[tmp_ :: dir := File "" false]> m)
            (Env fs1 (before_create (tmp_ :: dir) m past)))) as S1.
  { unfold before_create, before_unlink. destruct (m !! (tmp_ :: dir)) eqn:E; [apply HW; [by destruct text|exact Hs]|].
    apply (grow A m _ _ past fs); [apply tracks_insert|apply gentle_unnamed, not_dir| | |done].
    - apply dir_kept_insert, Hs.
    - eapply (standing_staged A f text); [done..| |by apply survives_now in Hs].
      right. eexists. split; [done|]. right. exists "", false. by destruct text. }
  set (past1 := before_create (tmp_ :: dir) m past) in *.
  assert (forall t s fs', String.prefix t text = true ->
    survives A (FsWorld (<[tmp_ :: dir := File t s]> m) (Env fs' past1))) as HW1.
  { intros t s fs' Ht. pose proof (written A f text t s _ past1 fs1 fs' Hc Hf Ht S1) as Hx.
    by rewrite insert_insert_eq in Hx. }
  assert (forall b, append_bytes (tmp_ :: dir) b (<[tmp_ :: dir := File "" false]> m)
                    = <[tmp_ :: dir := File b false]> m) as Ha.
  { intros b. unfold append_bytes. rewrite lookup_insert_eq. simpl. by rewrite insert_insert_eq. }
  do 2 wp_step. unfold fs_write_all. apply wp_prim_past; cbn [nodes fs_env older].
  1-2: intros n fs2; rewrite Ha; apply HW1, prefix_substring.
  intros fs2. rewrite Ha. wp_step. unfold fs_sync_all. apply wp_prim_past; cbn [nodes fs_env older].
  1-2: intros n fs3; apply HW1, prefix_refl.
  intros fs3. rewrite lookup_insert_eq. cbn [nodes]. rewrite insert_insert_eq.
  split; [done|]. apply HW1, prefix_refl.
Qed.

(** A file is moved to another name than the temporary copy's. *)
Lemma rename_and_sync_spec A source target d w :
  at_ (nodes w) source = Some (File d true) -> source <> target -> target <> tmp_ ->
  let m' := <[target :: dir := File d true]> (delete (source :: dir) (nodes w)) in
  survives A w -> standing A m' ->
  let moved w' := (same w w' \/ nodes w' = m') /\ survives A w' in
  wp (rename_and_sync (source :: dir) (target :: dir))
     (fun _ w' => nodes w' = m' /\ survives A w' /\ settled w') (fun _ => moved) moved w.
Proof.
  intros Hs Hn Ht m' HA Hm' moved. unfold rename_and_sync, su. do 2 wp_step.
  assert (forall fs, survives A (FsWorld (nodes w) (Env fs (older (fs_env w))))) as HE
    by (intros fs; by eapply survives_kept, HA).
  unfold fs_rename. apply wp_prim_past; unfold unchanged.
  1-2: intros n fs; split; [by left|apply HE].
  intros fs. unfold rename_op. unfold entry in Hs. rewrite Hs.
  destruct (_ || _); [split; [by left|apply HE]|].
  destruct (negb _); [split; [by left|apply HE]|].
  destruct (nodes w !! (target :: dir)) as [[]|]; try (split; [by left|apply HE]).
  all: set (w1 := FsWorld m' (Env fs (before_rename (source :: dir) (target :: dir) (nodes w) (older (fs_env w)))));
    assert (survives A w1) as S1;
    [ unfold w1, before_rename; rewrite bool_decide_false by congruence;
      apply (grow A (nodes w) m' _ _ fs); [by apply (tracks_rename _ _ _ d true)|by eapply gentle_renamed
        |apply dir_kept_insert, dir_kept_delete, HA|done|apply HE]
    | eapply wp_mono; [by apply (sync_parent_spec A)|..]; cbn beta; unfold moved;
      [by intros ? w2 (E2 & ? & ?)
      |intros e w2 E2; split; [right; apply (kept_same _ _ E2)|by eapply survives_kept]
      |intros w2 E2; split; [right; apply (kept_same _ _ E2)|by eapply survives_kept]] ].
Qed.

Lemma remove_synced_spec A n w :
  survives A w -> standing A (delete (n :: dir) (nodes w)) ->
  let removed w' := (same w w' \/ nodes w' = delete (n :: dir) (nodes w)) /\ survives A w' in
  wp (remove_if_present (n :: dir))
     (fun _ w' => nodes w' = delete (n :: dir) (nodes w) /\ survives A w') (fun _ => removed) removed w.
Proof.
  intros HA Hm' removed. unfold remove_if_present. do 2 wp_step. unfold fs_remove_file.
  assert (forall fs, survives A (FsWorld (nodes w) (Env fs (older (fs_env w))))) as HE
    by (intros fs; by eapply survives_kept, HA).
  apply wp_prim_past; unfold unchanged; [intros; wp_step; split; [by left|apply HE]
    |split; [by left|apply HE]|].
  intros fs. destruct (blocked _ _); [wp_step; split; [by left|apply HE]|].
  destruct (nodes w !! (n :: dir)) as [[]|] eqn:E; [|wp_step; split; [by left|apply HE]|].
  - set (w1 := FsWorld (delete (n :: dir) (nodes w)) (Env fs (before_unlink (n :: dir) (nodes w) (older (fs_env w))))).
    assert (survives A w1) as S1.
    { unfold w1, before_unlink.
      apply (grow A (nodes w) _ _ _ fs); [apply tracks_delete|apply gentle_unnamed, not_dir
        |apply dir_kept_delete, HA|done|apply HE]. }
    eapply wp_mono; [by apply (sync_parent_spec A)|..]; cbn beta; unfold removed.
    + by intros ? w2 (E2 & ? & _).
    + intros e w2 E2. split; [right; apply (kept_same _ _ E2)|by eapply survives_kept].
    + intros w2 E2. split; [right; apply (kept_same _ _ E2)|by eapply survives_kept].
  - wp_step. cbn [nodes]. rewrite delete_id by done. split; [done|apply HE].
Qed.

(** The main file is missing, its last content is the backup. *)
Definition swapping (old new : string) (m : gmap path node) : Prop :=
  walkable dir m /\ at_ m name = None /\ at_ m bak_ = Some (File old true) /\
  at_ m tmp_ = Some (File new true).

Section Promotion.
Context (A : list NotificationFileV1) (f0 f : NotificationFileV1) (old new : string)
  (Hold : classify old = Valid f0) (Hnew : classify new = Valid f) (Hin : f0 ∈ A).

Lemma swapping_standing m : swapping old new m -> standing (A ++ [f]) m.
Proof.
  intros (Hw & Hm & Hb & Ht). split; [done|right]. split_and!; [done|..].
  - exists old, f0. split_and!; [done..|set_solver].
  - right. exists new, true, new, f. split_and!; [done|apply prefix_refl|done|set_solver].
Qed.

Lemma main_standing B g text m :
  walkable dir m -> at_ m name = Some (File text true) -> classify text = Valid g -> g ∈ B ->
  standing B m.
Proof. intros Hw E Hc Hg. split; [done|left]. by exists text, g. Qed.

Lemma promote_temp_spec w :
  swapping old new (nodes w) -> survives (A ++ [f]) w ->
  wp (let* promoted := mtry (rename_and_sync (temp main_) main_) in
      match promoted with
      | inr _ => mret tt
      | inl replace_error =>
          (let* _ := mtry (rename_and_sync (backup main_) main_) in mret tt) ;;;
          mfail replace_error
      end)
     (fun _ => survives [f]) (fun _ => survives (A ++ [f])) (survives (A ++ [f])) w.
Proof.
  intros Hs HV. pose proof Hs as (Hw & Hm & Hb & Ht).
  destruct (sibling_names name) as (Hn1 & Hn2 & _ & _ & Hn3 & _).
  change (temp main_) with (tmp_ :: dir). change (backup main_) with (bak_ :: dir).
  assert (standing [f] (<[main_ := File new true]> (delete (tmp_ :: dir) (nodes w)))) as HN
    by (eapply main_standing; [by auto with preserve|by names|exact Hnew|set_solver]).
  assert (standing (A ++ [f]) (<[main_ := File new true]> (delete (tmp_ :: dir) (nodes w)))) as HN'
    by (eapply standing_mono, HN; set_solver).
  do 2 wp_step. eapply wp_mono; [by apply (rename_and_sync_spec (A ++ [f]) tmp_ name new)|..].
  - intros ? w1 (E1 & _ & Hset). wp_step. apply Hset. by rewrite E1.
  - intros e w1 (E1 & HV1). wp_step.
    assert (at_ (nodes w1) bak_ = Some (File old true) /\ walkable dir (nodes w1)) as (Hb1 & Hw1).
    { unfold same in E1. destruct E1 as [-> | ->]; [done|]. split; [by names|auto with preserve]. }
    do 2 wp_step. eapply wp_mono; [apply (rename_and_sync_spec (A ++ [f]) bak_ name old); try done|..].
    + eapply main_standing; [by auto with preserve|by names|exact Hold|set_solver].
    + intros ? w2 (_ & HV2 & _). by do 2 wp_step.
    + intros e2 w2 (_ & HV2). by do 2 wp_step.
    + by intros w2 [_ HV2].
  - by intros w1 [_ HV1].
Qed.
End Promotion.

(** Up to the promotion nothing is at stake. *)
Lemma create_keeps A w :
  survives A w ->
  wp (fs_create_dir_all dir)
     (fun _ w' => survives A w' /\ forall n, at_ (nodes w') n = at_ (nodes w) n)
     (fun _ => survives A) (survives A) w.
Proof.
  set (K := fun w' => survives A w' /\ forall n, at_ (nodes w') n = at_ (nodes w) n).
  intros Hs. enough (forall q w', (length q <= length dir)%nat -> K w' ->
    wp (fs_create_dir_all q) (fun _ => K) (fun _ => K) K w') as HK.
  { eapply wp_mono; [apply (HK dir w); [lia|by split]|..]; unfold K; naive_solver. }
  clear Hs. induction q as [|x q IH]; intros w' Hl HK; cbn [fs_create_dir_all]; [by apply wp_ret|].
  simpl in Hl. wp_step. eapply wp_mono; [apply IH; [lia|done]|..]; [|done..]. intros _ w1 [HV HA].
  assert (forall fs, K (FsWorld (nodes w1) (Env fs (older (fs_env w1))))) as HE
    by (intros fs; split; [by eapply survives_kept, HV|done]).
  unfold fs_mkdir. apply wp_prim_past; unfold unchanged; [by intros; apply HE..|]. intros fs.
  destruct (nodes w1 !! (x :: q)) as [[]|] eqn:E; [by apply HE|..].
  { unfold before_create. rewrite E. apply HE. }
  assert (x :: q <> dir) as Hne.
  { intros Eq. pose proof HV as (Hd & _). revert Hd. rewrite <-Eq. simpl. by rewrite E. }
  assert (forall n, n :: dir <> x :: q) as Hne' by (intros n [= _ ->]; lia).
  assert (forall n, at_ (<[x :: q := Dir]> (nodes w1)) n = at_ (nodes w1) n) as He
    by (intros n; unfold entry; apply lookup_insert_ne, not_eq_sym, Hne').
  split; cbn [nodes]; [|intros n; rewrite He; apply HA].
  unfold before_create, before_unlink. rewrite E.
  apply (grow A (nodes w1) _ _ _ fs); [apply tracks_insert|by apply gentle_unnamed| | |apply (HE fs)].
  - pose proof HV as (Hd & _). destruct dir as [|y d]; [done|]. unfold is_dir_at in *.
    by rewrite lookup_insert_ne.
  - eapply standing_same; [exact He| |by apply survives_now]. apply survives_now in HV as (Hw & _).
    auto with preserve.
Qed.

(** With the new document staged, the main file is moved out of the way. *)
Lemma clear_main_spec A f new b w :
  classify new = Valid f -> at_ (nodes w) tmp_ = Some (File new true) ->
  survives (A ++ [f]) w ->
  (b = true -> holds A (at_ (nodes w) name)) ->
  (b = false -> at_ (nodes w) name = None /\ holds A (at_ (nodes w) bak_)) ->
  wp (if b : bool then remove_if_present (backup main_) ;;; rename_and_sync main_ (backup main_)
      else remove_if_present main_)
     (fun _ w' => survives (A ++ [f]) w' /\
        exists old f0, classify old = Valid f0 /\ f0 ∈ A /\ swapping old new (nodes w'))
     (fun _ => survives (A ++ [f])) (survives (A ++ [f])) w.
Proof.
  intros Hc Ht HV Htrue Hfalse. change (backup main_) with (bak_ :: dir).
  destruct (survives_now _ _ HV) as (Hw & _).
  destruct (sibling_names name) as (Hn1 & Hn2 & _ & _ & Hn3 & _). destruct b.
  - destruct (Htrue eq_refl) as (t & f0 & E & Hf & Hin). wp_step.
    eapply wp_mono; [apply (remove_synced_spec (A ++ [f])); [done|]|..]; [| |naive_solver..].
    { eapply main_standing; [by auto with preserve|names; exact E|exact Hf|set_solver]. }
    intros ? w1 (E1 & HV1).
    assert (swapping t new (<[bak_ :: dir := File t true]> (delete main_ (nodes w1)))) as HS.
    { rewrite E1. split_and!; [auto with preserve|by names..]. }
    eapply wp_mono; [apply (rename_and_sync_spec (A ++ [f]) name bak_ t); try done|..]; [..|naive_solver].
    + rewrite E1. by names.
    + eapply swapping_standing; eauto.
    + intros ? w2 (E2 & HV2 & _). split; [done|]. exists t, f0. by rewrite E2.
    + naive_solver.
  - destruct (Hfalse eq_refl) as (Hm & t & f0 & Hb & Hf & Hin).
    assert (swapping t new (delete main_ (nodes w))) as HS
      by (split_and!; [auto with preserve|by names..]).
    eapply wp_mono; [apply (remove_synced_spec (A ++ [f])); [done|eapply swapping_standing; eauto]|..];
      [|naive_solver..].
    intros ? w1 (E1 & HV1). split; [done|]. exists t, f0. by rewrite E1.
Qed.

Lemma save_validated_spec A f w :
  survives A w ->
  wp (save_validated main_ f) (fun _ => survives [f]) (fun _ => survives (A ++ [f]))
     (survives (A ++ [f])) w.
Proof.
  intros HV.
  assert (forall w', survives A w' -> survives (A ++ [f]) w') as HA
    by (intros; eapply survives_mono; [|done]; set_solver).
  assert (forall w', kept w w' -> survives (A ++ [f]) w') as HK
    by (intros; by eapply HA, survives_kept).
  unfold save_validated. wp_step. apply wp_mlift. unfold validate_file, guard.
  destruct (file_valid f) eqn:Hf; [|by apply HA]. cbn [negb]. cbv beta iota.
  wp_step. apply wp_unread; [apply ensure_supported_reads|..]; [|by auto..].
  intros ? w1 E1. eapply survives_kept in HV; [|exact E1].
  assert (forall w', kept w1 w' -> survives (A ++ [f]) w') as HK1
    by (intros; by eapply HA, survives_kept).
  clear E1 w HK. destruct (survives_now _ _ HV) as (Hw & _).
  wp_step. eapply wp_mono; [by apply existing_candidate_spec|..]; [|by auto..].
  intros c w2 (E2 & Hc). rewrite <-(kept_same _ _ E2) in Hw, Hc.
  wp_step. change (backup main_) with (bak_ :: dir).
  eapply wp_mono; [by apply existing_candidate_spec|..];
    [|intros ? w' E; apply HK1; unfold kept in *; congruence
     |intros w' E; apply HK1; unfold kept in *; congruence].
  intros cb w3 (E3 & Hcb). rewrite <-(kept_same _ _ E3) in Hc, Hcb.
  eapply survives_kept in HV; [|exact E2]. eapply survives_kept in HV; [|exact E3].
  clear E2 E3 Hw HK1 w1 w2. destruct (survives_now _ _ HV) as (Hw & Hs).
  assert (is_valid c || is_valid cb = true /\ (is_valid c = true -> holds A (at_ (nodes w3) name)) /\
          (is_valid c = false -> at_ (nodes w3) name = None /\ holds A (at_ (nodes w3) bak_))) as (Hv & Ht & Hn).
  { destruct Hs as [(t & g & E & Hg & Hin)|(E & (t & g & Eb & Hg & Hin) & _)].
    - rewrite E in *. cbn in Hc. subst c. cbn. rewrite Hg. cbn. split_and!; [done|by exists t, g|done].
    - rewrite E, Eb in *. cbn in Hc, Hcb. subst. cbn. rewrite Hg. cbn. split_and!; [done..|]. intros _. split; [done|by exists t, g]. }
  wp_step. apply wp_mlift. destruct (serialize_file f) as [text|e|h] eqn:Es; [|by apply HA..]. cbv beta iota.
  pose proof (saved_text_reads f text Hf Es) as Hc'.
  wp_step. unfold su at 1. wp_step. cbn [parent tail].
  eapply wp_mono; [by apply create_keeps|..]; [|by auto..].
  intros ? w4 (HV4 & He). apply HA in HV4.
  wp_step. eapply wp_mono; [apply (stage_spec (A ++ [f]) f); [done|set_solver|done]|..]; [|by auto..].
  intros ? w5 (E5 & HV5). wp_step. eapply wp_mono; [apply (clear_main_spec A f text)|..].
  - done.
  - rewrite E5. by names.
  - done.
  - intros Hb. rewrite E5. names. rewrite !He. auto.
  - intros Hb. rewrite E5. names. rewrite !He. auto.
  - intros ? w6 (HV6 & old & f0 & Hold & Hin & Hsw). rewrite Hv.
    by apply (promote_temp_spec A f0 f old text).
  - done.
  - done.
Qed.

(** ** Starting again *)

Lemma read_candidate_spec n w :
  wp (read_candidate (n :: dir))
     (fun c w' => same w w' /\ exists d s, at_ (nodes w) n = Some (File d s) /\ c = classify d)
     (fun _ => same w) (same w) w.
Proof.
  unfold read_candidate, same, entry. wp_step. unfold fs_openat. wp_call; [done..|]. intros fs1.
  destruct (lookup_op _ _); cbn; [|done..].
  wp_step. unfold fs_len. wp_call; [done..|]. intros fs2. destruct (blocked _ _) eqn:Eb; [done|].
  assert (forall l fs, wp (let* bytes := fs_read (n :: dir) in
            mret (if (MAX_NOTIFICATION_FILE_BYTES <? l) || (MAX_NOTIFICATION_FILE_BYTES <? len bytes)
                  then classify_oversized_prefix (bytes_of bytes) else candidate_of_text bytes))
     (fun c w' => nodes w' = nodes w /\ exists d s, nodes w !! (n :: dir) = Some (File d s) /\
        ((MAX_NOTIFICATION_FILE_BYTES <? l) = (MAX_NOTIFICATION_FILE_BYTES <? len d) -> c = classify d))
     (fun _ w' => nodes w' = nodes w) (fun w' => nodes w' = nodes w) (FsWorld (nodes w) fs)) as Hr.
  { intros l fs. wp_step. unfold fs_read. wp_call; [done..|]. intros fs3. rewrite Eb.
    destruct (nodes w !! (n :: dir)) as [[d s|]|]; [|done..]. wp_step. split; [done|].
    exists d, s. split; [done|]. intros ->. unfold classify. by rewrite orb_diag. }
  destruct (nodes w !! (n :: dir)) as [[d s|]|] eqn:E; [..|done];
    (eapply wp_mono; [apply Hr|..]; [|done..]); cbn; rewrite ?E.
  - intros c w' (Hn & d' & s' & [= <- <-] & Hc). split; [done|]. exists d, s. auto.
  - naive_solver.
Qed.

Local Abbreviation load_failure := (AppError * list NotificationStorageWriteFailure)%type.

(** A load that ends with a document ends with one of [A]. *)
Definition answers (A : list NotificationFileV1) (c : M fs_world load_failure NotificationLoadReport)
    (w : fs_world) : Prop :=
  wp c (fun r w' => survives A w' /\ lr_file r ∈ A) (fun _ => survives A) (survives A) w.

(** What is done about a candidate that was read. *)
Definition consider timestamp corrupt rest (p : path) (source : option RecoverySource) kind (c : Candidate)
    : M fs_world load_failure NotificationLoadReport :=
  match c with
  | Valid file =>
      match source with
      | None => mret (report file Clean [])
      | Some source =>
          let* normalized := mtry (save_validated main_ file) in
          mret (report file (Recovered source)
            match normalized with
            | inl e => if bool_decide (e = storage_unavailable)
                       then [{| wf_operation := "normalize_recovery";
                                wf_path_kind := recovery_source_name source |}]
                       else []
            | inr _ => []
            end)
      end
  | Future found => mret (report NotificationFileV1_empty (UnsupportedSchema found) [])
  | Corrupt => load_candidates main_ timestamp (corrupt ++ [(p, kind)]) rest
  | OversizedUnknown => mfail (without_write storage_unavailable)
  end.

Lemma load_candidate_spec A timestamp corrupt n source kind rest w :
  survives A w ->
  (forall w', kept w w' -> at_ (nodes w) n = None ->
     answers A (load_candidates main_ timestamp corrupt rest) w') ->
  (forall d s w', kept w w' -> at_ (nodes w) n = Some (File d s) ->
     answers A (consider timestamp corrupt rest (n :: dir) source kind (classify d)) w') ->
  answers A (load_candidates main_ timestamp corrupt ((n :: dir, source, kind) :: rest)) w.
Proof.
  intros Hs Hnone Hfile. unfold answers. cbn [load_candidates].
  assert (forall w', kept w w' -> survives A w') as HS by (intros; by eapply survives_kept).
  do 2 wp_step. eapply wp_mono; [apply wp_kept; [apply metadata_reads|by apply metadata_kind]|..];
    [..|by intros w1 [E1 _]; apply HS].
  - intros k w1 [E1 _]. do 2 wp_step.
    eapply wp_mono; [apply wp_kept; [apply read_candidate_reads|apply read_candidate_spec]|..].
    + intros c w2 (E2 & _ & d & s & E & ->). rewrite (kept_same _ _ E1) in E.
      apply (Hfile d s); [unfold kept in *; congruence|done].
    + intros e w2 (E2 & _). wp_step. apply HS. unfold kept in *. congruence.
    + intros w2 (E2 & _). apply HS. unfold kept in *. congruence.
  - intros e w1 (E1 & _ & En). destruct e; [by apply Hnone; auto|by wp_step; apply HS..].
Qed.

(** A copy that another was recovered from is written back as the main file. *)
Lemma consider_spec A timestamp corrupt rest p source kind g w :
  survives A w -> g ∈ A -> answers A (consider timestamp corrupt rest p source kind (Valid g)) w.
Proof.
  intros Hs Hg. unfold answers, consider. destruct source as [source|]; [|by wp_step]. do 2 wp_step.
  assert (forall B w', B ⊆ A -> survives B w' -> survives A w') as HB
    by (intros; by eapply survives_mono).
  eapply wp_mono; [by apply (save_validated_spec A g)|..]; cbn; intros; try wp_step;
    try split; try done; (eapply HB; [|done]); set_solver.
Qed.

Lemma load_report_spec A timestamp w :
  survives A w -> answers A (load_report main_ timestamp) w.
Proof.
  intros HV. unfold load_report. change (temp main_) with (tmp_ :: dir). change (backup main_) with (bak_ :: dir).
  destruct (survives_now _ _ HV) as (_ & Hs).
  apply load_candidate_spec; [done|..].
  - intros w1 E1 En. destruct Hs as [(? & ? & ? & _)|(_ & Hb & Ht)]; [congruence|].
    assert (forall corrupt w', kept w w' ->
      answers A (load_candidates main_ timestamp corrupt [(bak_ :: dir, Some Backup, "backup")]) w') as HB.
    { intros corrupt w2 E2. rewrite <-(kept_same _ _ E2) in Hb.
      destruct Hb as (t & f & E & Hf & Hin).
      apply load_candidate_spec; [by eapply survives_kept|congruence|].
      intros d s w3 E3 Ed. rewrite E in Ed. injection Ed as <- <-. rewrite Hf.
      apply consider_spec; [|done]. eapply survives_kept, survives_kept; done. }
    rewrite <-(kept_same _ _ E1) in Ht.
    apply load_candidate_spec; [by eapply survives_kept|..].
    + intros w2 E2 _. apply HB. unfold kept in *. congruence.
    + intros d s w2 E2 Ed. destruct Ht as [|(t & s' & u & f & E & Hp & Hf & Hin)]; [congruence|].
      rewrite E in Ed. injection Ed as <- <-.
      destruct (cut_text_reads f u t Hf Hp) as [->| ->].
      * apply consider_spec; [|done]. eapply survives_kept, survives_kept; done.
      * apply HB. unfold kept in *. congruence.
  - intros d s w1 E1 Ed. destruct Hs as [(t & f & E & Hf & Hin)|(En & _)]; [|congruence].
    rewrite E in Ed. injection Ed as <- <-. rewrite Hf.
    apply consider_spec; [by eapply survives_kept|done].
Qed.

(** ** An undisturbed start *)

(** Without faults the code comes back. *)
Definition comes_back {E A : Type} (c : M fs_world E A) : Prop :=
  forall w, faults w = [] -> wp c (fun _ w' => faults w' = []) (fun _ w' => faults w' = []) (fun _ => False) w.

Lemma comes_back_prim {A : Type} (remember : gmap path node -> list snapshot -> list snapshot)
    (partial : nat -> gmap path node -> gmap path node)
    (op : gmap path node -> outcome io_error A * gmap path node) :
  (forall m h, fst (op m) <> Halt h) -> comes_back (prim_with remember partial op).
Proof.
  intros Hop w Hw. unfold wp, prim_with. rewrite Hw.
  specialize (Hop (nodes w)). destruct (op (nodes w)) as [[a|e|h] m]; [done..|]. by specialize (Hop h).
Qed.
Lemma comes_back_ret {E A : Type} (a : A) : comes_back (@mret fs_world E A a).
Proof. by intros w. Qed.
Lemma comes_back_fail {E A : Type} (e : E) : comes_back (@mfail fs_world E A e).
Proof. by intros w. Qed.
Lemma comes_back_lift {E A : Type} (x : outcome E A) : (forall h, x <> Halt h) -> comes_back (@mlift fs_world E A x).
Proof. intros Hx w Hw. apply wp_mlift. destruct x; [done..|by edestruct Hx]. Qed.
Lemma comes_back_bind {E A B : Type} (c : M fs_world E A) (k : A -> M fs_world E B) :
  comes_back c -> (forall a, comes_back (k a)) -> comes_back (mbind c k).
Proof. intros Hc Hk w Hw. apply wp_bind. eapply wp_mono; [by apply Hc|..]; auto. Qed.
Lemma comes_back_try {E F A : Type} (c : M fs_world E A) : comes_back c -> comes_back (@mtry fs_world E F A c).
Proof. intros Hc w Hw. apply wp_try. by apply Hc. Qed.
Lemma comes_back_map_err {E F A : Type} (f : E -> F) (c : M fs_world E A) :
  comes_back c -> comes_back (mmap_err f c).
Proof. intros Hc w Hw. apply wp_map_err. by apply Hc. Qed.

Ltac come_back :=
  repeat first
    [ apply comes_back_bind; [|intros] | apply comes_back_try | apply comes_back_map_err
    | apply comes_back_ret | apply comes_back_fail
    | apply comes_back_prim; intros; unfold lookup_op, rename_op, open_check; repeat case_match; simplify_eq/=; done
    | match goal with |- comes_back (match ?x with _ => _ end) => destruct x end ].

Lemma existing_candidate_comes_back p : comes_back (existing_candidate p).
Proof. unfold existing_candidate, su, read_candidate. come_back. Qed.

Lemma create_dir_all_comes_back p : comes_back (fs_create_dir_all p).
Proof. induction p; cbn [fs_create_dir_all]; [come_back|]. unfold fs_mkdir. come_back. done. Qed.

Lemma save_validated_comes_back p f : comes_back (save_validated p f).
Proof.
  assert (forall ps, comes_back (ensure_supported_save_target ps)) as He.
  { induction ps; cbn [ensure_supported_save_target]; [come_back|].
    apply comes_back_bind; [apply existing_candidate_comes_back|]. intros. by come_back. }
  unfold save_validated, write_and_sync, remove_if_present, rename_and_sync, sync_parent_directory, su,
    fs_sync_dir.
  repeat first
    [ apply He | apply existing_candidate_comes_back | apply create_dir_all_comes_back
    | apply comes_back_lift; unfold validate_file, guard, serialize_file; intros; repeat case_match; done
    | progress come_back ].
Qed.

Lemma metadata_undisturbed n m :
  walkable dir m ->
  fs_metadata (n :: dir) (FsWorld m []) =
  (match at_ m n with
   | Some (File _ _) => Ok KFile | Some Dir => Ok KDir | None => Err NotFound
   end, FsWorld m []).
Proof.
  intros Hw. unfold fs_metadata, prim, prim_with, lookup_op, unchanged, entry.
  cbn [faults nodes fs_env schedule durable_so_far].
  rewrite (Hw n). by destruct (m !! (n :: dir)) as [[]|].
Qed.

Lemma read_undisturbed n m d s :
  walkable dir m -> at_ m n = Some (File d s) ->
  read_candidate (n :: dir) (FsWorld m []) = (Ok (classify d), FsWorld m []).
Proof.
  unfold entry. intros Hw E. unfold read_candidate, mbind, fs_openat, fs_len, fs_read, prim, prim_with, lookup_op.
  unfold unchanged. repeat (cbn [faults nodes fst fs_env schedule older durable_so_far]; rewrite ?(Hw n), ?E).
  unfold mret, classify. by rewrite orb_diag.
Qed.

(** The load ends with a document. *)
Definition ends (c : M fs_world load_failure NotificationLoadReport) (w : fs_world) : Prop :=
  wp c (fun _ _ => True) (fun _ _ => False) (fun _ => False) w.

Lemma load_candidate_ends timestamp corrupt n source kind rest m :
  walkable dir m -> at_ m n <> Some Dir ->
  (at_ m n = None -> ends (load_candidates main_ timestamp corrupt rest) (FsWorld m [])) ->
  (forall d s, at_ m n = Some (File d s) ->
     ends (consider timestamp corrupt rest (n :: dir) source kind (classify d)) (FsWorld m [])) ->
  ends (load_candidates main_ timestamp corrupt ((n :: dir, source, kind) :: rest)) (FsWorld m []).
Proof.
  intros Hw Hd Hnone Hfile. unfold ends, wp, mbind, mtry. cbn [load_candidates].
  unfold mbind at 1, mtry at 1. rewrite metadata_undisturbed by done.
  destruct (at_ m n) as [[d s|]|] eqn:E; [|done|by apply Hnone].
  unfold mbind at 1, mtry at 1. rewrite (read_undisturbed n m d s) by done. by apply (Hfile d s).
Qed.

Lemma consider_ends timestamp corrupt rest p source kind g m :
  ends (consider timestamp corrupt rest p source kind (Valid g)) (FsWorld m []).
Proof.
  unfold ends, consider. destruct source as [source|]; [|by wp_step]. do 2 wp_step.
  eapply wp_mono; [by apply save_validated_comes_back|..]; try done; intros; by apply wp_ret.
Qed.

Lemma load_report_ends A timestamp m :
  standing A m -> ends (load_report main_ timestamp) (FsWorld m []).
Proof.
  intros (Hw & Hs). unfold load_report.
  change (temp main_) with (tmp_ :: dir). change (backup main_) with (bak_ :: dir).
  destruct Hs as [(t & f & E & Hf & _)|(E & (t & f & Eb & Hf & _) & Ht)].
  - apply load_candidate_ends; [done|by rewrite E..|]. rewrite E. intros d s [= <- <-]. rewrite Hf. apply consider_ends.
  - assert (forall corrupt, ends (load_candidates main_ timestamp corrupt [(bak_ :: dir, Some Backup, "backup")])
                              (FsWorld m [])) as HB.
    { intros corrupt. apply load_candidate_ends; [done|by rewrite Eb..|]. rewrite Eb. intros d s [= <- <-]. rewrite Hf.
      apply consider_ends. }
    apply load_candidate_ends; [done|by rewrite E| |by rewrite E]. intros _.
    destruct Ht as [Ht|(t' & s' & u & g & Et & Hp & Hg & _)].
    + apply load_candidate_ends; [done|by rewrite Ht|by intros; apply HB|by rewrite Ht].
    + apply load_candidate_ends; [done|by rewrite Et..|]. rewrite Et. intros d s [= <- <-].
      destruct (cut_text_reads g u t' Hg Hp) as [->| ->]; [apply consider_ends|apply HB].
Qed.
End Replacing.

(** ** A lifetime of the document *)

(** The process saves, starts, also again after it died in a call, and loses
    power with the last [back] directory operations not on the disk, in any
    order and with any faults. *)
Inductive disk_event :=
| Saving (f : NotificationFileV1)
| Starting (timestamp : Z)
| PowerLoss (back : nat) (cut : path -> nat) (schedule : list fault).

(** The documents a start may find, after the events: the one saved last, and
    those whose save was begun after it and not confirmed. *)
Fixpoint lifetime (p : path) (events : list disk_event) (possible : list NotificationFileV1)
    (w : fs_world) : list NotificationFileV1 * fs_world :=
  match events with
  | [] => (possible, w)
  | Saving f :: rest =>
      match save p f w with
      | (Ok _, w') => lifetime p rest [f] w'
      | (_, w') => lifetime p rest (possible ++ [f]) w'
      end
  | Starting timestamp :: rest => lifetime p rest possible (snd (load_report p timestamp w))
  | PowerLoss back cut schedule :: rest => lifetime p rest possible (power_loss back cut schedule w)
  end.

Lemma store_save_spec dir name A f w :
  survives dir name A w ->
  wp (save (name :: dir) f) (fun _ => survives dir name [f])
     (fun _ => survives dir name (A ++ [f])) (survives dir name (A ++ [f])) w.
Proof.
  intros Hs. unfold save. wp_step. apply wp_mlift. unfold validate_file, guard.
  destruct (negb (file_valid f)); [|by apply save_validated_spec].
  eapply survives_mono; [|done]. set_solver.
Qed.

(** Every tree a power loss may leave has the directory. *)
Lemma trees_have_dir dir name A w m : survives dir name A w -> m ∈ trees w -> is_dir_at m dir = true.
Proof.
  intros (Hd & _ & Ht) [->|Hm]%elem_of_cons; [done|].
  apply list_elem_of_fmap_1 in Hm as (s & -> & Hs). rewrite Forall_forall in Ht.
  destruct (Ht s Hs) as [Hk _]. apply knows_live in Hk. destruct dir as [|x d]; [done|].
  destruct Hk as [?|Hk]; [done|]. unfold is_dir_at. by rewrite lookup_resolve, Hk.
Qed.

Lemma survives_power_loss dir name A back cut schedule w :
  survives dir name A w -> survives dir name A (power_loss back cut schedule w).
Proof.
  intros Hs. unfold power_loss.
  assert (default (nodes w) (trees w !! back) ∈ trees w) as Hin.
  { destruct (trees w !! back) as [m|] eqn:E; [by eapply list_elem_of_lookup_2|]. simpl. set_solver. }
  set (m := default _ _) in *. pose proof (trees_have_dir _ _ _ _ _ Hs Hin) as Hd.
  destruct Hs as (_ & Hs & _). rewrite Forall_forall in Hs. specialize (Hs _ Hin).
  unfold survives, trees. cbn [nodes fs_env older durable_so_far map].
  split_and!; [|by apply Forall_singleton, standing_crash|constructor].
  unfold is_dir_at in *. destruct dir; [done|]. rewrite lookup_crash_nodes.
  by destruct (m !! _) as [[]|].
Qed.

(** A document on the disk, with nothing else pending. *)
Lemma survives_saved dir name text f w :
  walkable dir (nodes w) -> is_dir_at (nodes w) dir = true -> older (fs_env w) = [] ->
  nodes w !! (name :: dir) = Some (File text true) -> classify text = Valid f ->
  survives dir name [f] w.
Proof.
  intros Hw Hd Ho Hm Hc. unfold survives, trees. rewrite Ho. split_and!; [done| |constructor].
  apply Forall_singleton. split; [done|left]. exists text, f. split_and!; [done..|set_solver].
Qed.

Lemma lifetime_survives dir name events A w :
  survives dir name A w ->
  let '(possible, w') := lifetime (name :: dir) events A w in survives dir name possible w'.
Proof.
  revert A w. induction events as [|[f|timestamp|back cut schedule] events IH]; intros A w Hs; cbn [lifetime]; [done|..].
  - pose proof (store_save_spec dir name A f w Hs) as Hf. unfold wp in Hf.
    destruct (save (name :: dir) f w) as [[]]; by apply IH.
  - pose proof (load_report_spec dir name A timestamp w Hs) as Hf. unfold answers, wp in Hf.
    destruct (load_report (name :: dir) timestamp w) as [[]]; apply IH; tauto.
  - apply IH. by apply survives_power_loss.
Qed.

(** After a power loss an undisturbed start ends with a document of [A]. *)
Lemma survives_loads dir name A w back cut timestamp :
  survives dir name A w ->
  exists r, fst (load_report (name :: dir) timestamp (power_loss back cut [] w)) = Ok r /\ lr_file r ∈ A.
Proof.
  intros Hs. pose proof (survives_power_loss dir name A back cut [] w Hs) as HC.
  pose proof (survives_now _ _ _ _ HC) as Hn.
  pose proof (load_report_ends dir name A timestamp _ Hn) as He.
  pose proof (load_report_spec dir name A timestamp _ HC) as Ha.
  unfold ends, answers, wp, power_loss in *. cbn [nodes] in He.
  destruct (load_report (name :: dir) timestamp _) as [[r|e|h] w2]; [|done..]. exists r. tauto.
Qed.

End Durable.
