(* ===== verification/NotificationTheorems.v ===== *)
(** services/notification.rs over any number of calls: the document stays
    acceptable, its revisions are announced in order, a source is published
    once, a view changes nothing of another account, and what was announced is
    found again after a power loss. *)
From coqutil Require Import Datatypes.RecordSettersUsingExistingGetters.
From stdpp Require Import gmap strings sorting.
From S2P Require Import Prelude RustStr FileSystem External Models SafeDocument SafeDocumentFacts NotificationTypes NotificationPolicy NotificationFile NotificationIncidents NotificationStore NotificationService NotificationFacts NotificationValid NotificationKeep NotificationPublish NotificationHistory NotificationDurable.
#[local] Open Scope list_scope.

(** ** A session: any calls, at any times, over any store *)

Section Session.
Context {X : Type} `{NotificationPersistence X} `{UuidText} `{Sha256Lib}.
Context `{Codec CursorV1} `{Codec json} `{NotificationJson}.

Local Abbreviation Run A := (M (Service X) NotificationError A).
Local Abbreviation file_of w := (st_file (sv_state w)).

(** Calls follow one another whether they succeed or fail. *)
Fixpoint session (calls : list (call * Z)) (w : Service X) : Service X :=
  match calls with
  | [] => w
  | (c, now) :: rest => session rest (perform c now w).2
  end.

Fixpoint session_ok (calls : list (call * Z)) (w : Service X) : Prop :=
  match calls with
  | [] => True
  | (c, now) :: rest =>
      now <= MAX_JAVASCRIPT_SAFE_INTEGER /\ call_ok c w /\ session_ok rest (perform c now w).2
  end.

Lemma session_history calls w : Inv w -> session_ok calls w -> history w (session calls w) /\ Inv (session calls w).
Proof.
  revert w. induction calls as [|[c now] calls IH]; intros w Hi Hok; simpl in *; [by split; [apply history_refl|]|].
  destruct Hok as (Hn & Hc & Hok). destruct (perform_advances c now w Hi Hn Hc) as (Hh & Hi' & _).
  destruct (IH _ Hi' Hok). split; [by eapply history_then|done].
Qed.

(** The events announce the revisions after [r], one by one. *)
Fixpoint announces (r : Z) (events : list NotificationChangedEvent) : Prop :=
  match events with
  | [] => True
  | e :: rest =>
      ev_previous_revision e = u64_to_string r /\ ev_revision e = u64_to_string (r + 1) /\
      event_validate e = Ok tt /\ announces (r + 1) rest
  end.

Lemma announces_app r es es' :
  announces r es -> announces (r + lenz es) es' -> announces r (es ++ es').
Proof.
  unfold lenz. revert r. induction es as [|e es IH]; intros r Hr Hes; [by rewrite Z.add_0_r in Hes|].
  simpl in *. destruct Hr as (? & ? & ? & Hr). split_and!; [done..|]. apply IH; [done|].
  by replace (r + 1 + Z.of_nat (length es)) with (r + Z.of_nat (S (length es))) by lia.
Qed.

Lemma history_announces w w' :
  history w w' ->
  exists es, sv_events w' = sv_events w ++ es /\ announces (revision (file_of w)) es /\
             revision (file_of w') = revision (file_of w) + lenz es.
Proof.
  induction 1 as [w w' E _ Ee|w w' file o _ _ _ _ E Ee|w w' e _ Er _ _ Ee Ep En Hv|w1 w2 w3 _ IH1 _ IH2].
  - exists []. rewrite Ee, E, app_nil_r. cbn. split_and!; [done..|]. unfold lenz; simpl; lia.
  - exists []. rewrite Ee, E, app_nil_r. cbn. split_and!; [done..|]. unfold lenz; simpl; lia.
  - exists [e]. rewrite Ee. cbn. rewrite Er in En. split_and!; [done..|]. unfold lenz; simpl; lia.
  - destruct IH1 as (es & E1 & A1 & R1), IH2 as (es' & E2 & A2 & R2). exists (es ++ es').
    rewrite E2, E1, app_assoc. split_and!; [done| |].
    + apply announces_app; [done|]. by rewrite R1 in A2.
    + unfold lenz in *. rewrite length_app. lia.
Qed.

(** C33: Whatever calls are made on the service and however the store answers
    them, the change events announce the revisions of the document one by one,
    without gap or repetition, every event is well formed, and their number is
    the number of revisions the document went through. *)
Theorem revisions_are_announced_in_order (calls : list (call * Z)) (w : Service X)
    (accepted : file_valid (file_of w) = true) (listed : indexed (file_of w))
    (known : st_seen_source_events (sv_state w) = rebuild_seen_source_events (file_of w))
    (allowed : session_ok calls w) :
  let w' := session calls w in
  exists events,
    sv_events w' = sv_events w ++ events /\ announces (revision (file_of w)) events /\
    revision (file_of w') = revision (file_of w) + lenz events.
Proof.
  apply history_announces, session_history; [|done]. by split; [apply valid_good|].
Qed.

(** What the store keeps for every acceptable document it is offered. *)
Lemma history_keeps (P : X -> Prop) w w' :
  (forall file x, file_valid file = true -> P x -> P (persist file x).2) ->
  history w w' -> P (sv_persistence w) -> P (sv_persistence w').
Proof.
  intros HP. induction 1 as [w w' _ E _|w w' file o Hv _ Ep _ _ _|w w' e Hv _ _ Ep _ _ _ _|]; intros Hw.
  - by rewrite E.
  - specialize (HP file _ Hv Hw). by rewrite Ep in HP.
  - specialize (HP _ _ Hv Hw). by rewrite Ep in HP.
  - auto.
Qed.

(** C32: Whatever calls are made and however the store answers them, the document
    in memory stays one the store accepts (identities and sources unique, each
    record valid and in the partition of its scope, the caps kept), its index
    lists every source of its records, the sources known as published are those
    of the index, and no document that is not acceptable is ever offered to the
    store. *)
Theorem document_stays_acceptable (calls : list (call * Z)) (w : Service X) (P : X -> Prop)
    (accepted : file_valid (file_of w) = true) (listed : indexed (file_of w))
    (known : st_seen_source_events (sv_state w) = rebuild_seen_source_events (file_of w))
    (allowed : session_ok calls w)
    (store : forall file x, file_valid file = true -> P x -> P (persist file x).2)
    (initial : P (sv_persistence w)) :
  let w' := session calls w in
  file_valid (file_of w') = true /\ indexed (file_of w') /\
  st_seen_source_events (sv_state w') = rebuild_seen_source_events (file_of w') /\
  P (sv_persistence w').
Proof.
  destruct (session_history calls w) as (Hh & Hg & Hs); [by split; [apply valid_good|]|done|].
  split_and!; [by apply good_valid|apply (g_indexed _ Hg)|done|by eapply history_keeps].
Qed.

(** ** A source is published once *)

Lemma find_unique {A} (f : A -> bool) l x :
  x ∈ l -> f x = true -> exists y, List.find f l = Some y /\ f y = true /\ y ∈ l.
Proof.
  intros Hx Hf. destruct (List.find f l) as [y|] eqn:E.
  - apply find_some in E as [Hy Hfy]. exists y. by rewrite list_elem_of_In.
  - apply list_elem_of_In in Hx. by rewrite (find_none _ _ E x Hx) in Hf.
Qed.

(** An indexed source has its record. *)
Lemma record_for_indexed file e :
  Good file -> e ∈ source_event_index file ->
  exists r, record_for_source file (source_of e) = Some r /\ id r = se_notification_id e.
Proof.
  intros Hg He. unfold record_for_source, source_of. cbn [fst snd].
  destruct (find_unique (fun e' => bool_decide (se_scope e' = se_scope e) &&
                                   (se_source_event_id e' ==s se_source_event_id e)) _ e He) as (e' & -> & Hf & He').
  { by rewrite bool_decide_eq_true_2, String.eqb_refl by done. }
  assert (e' = e) as ->.
  { bools. match goal with E : (_ ==s _) = true |- _ => apply String.eqb_eq in E; rename E into E2 end.
    eapply (NoDup_map_inj source_of); [apply (g_index _ Hg)|done|done|]. unfold source_of. congruence. }
  destruct (g_entries _ Hg e He) as (_ & r & (p & Hp & Hsp & Hrp)%elem_of_recs & Hid & _).
  destruct (find_unique (fun q => bool_decide (pt_scope q = se_scope e)) _ p Hp) as (q & Eq & Hfq & Hq);
    [by apply bool_decide_eq_true_2|].
  unfold find_partition. rewrite Eq. apply bool_decide_eq_true in Hfq.
  assert (q = p) as -> by (eapply (NoDup_map_inj pt_scope); [apply (g_scopes _ Hg)|done|done|congruence]).
  destruct (find_unique (fun r => id r ==s se_notification_id e) _ r Hrp) as (r' & -> & Hr' & _);
    [rewrite Hid; apply String.eqb_refl|].
  exists r'. split; [done|]. by apply String.eqb_eq.
Qed.

Lemma seen_record (w : Service X) source :
  Inv w -> source ∈ st_seen_source_events (sv_state w) ->
  exists r, record_for_source (file_of w) source = Some r /\
    {| se_scope := source.1; se_source_event_id := source.2; se_notification_id := id r |}
      ∈ source_event_index (file_of w).
Proof.
  intros [Hg Hs] Hin. rewrite Hs in Hin. unfold rebuild_seen_source_events in Hin.
  apply elem_of_list_to_set, list_elem_of_fmap_1 in Hin as (e & -> & He).
  destruct (record_for_indexed _ _ Hg He) as (r & Er & Hid). exists r. split; [done|].
  by apply record_for_source_entry.
Qed.

Lemma entry_seen (w : Service X) e : Inv w -> e ∈ source_event_index (file_of w) -> source_of e ∈ st_seen_source_events (sv_state w).
Proof.
  intros [_ Hs] He. rewrite Hs. apply elem_of_list_to_set. by apply (list_elem_of_fmap_2 source_of).
Qed.

(** After a notification was published under a source, publishing any input
    under the same source again succeeds, answers the notification published
    before as not committed, and leaves the service, its store and its events
    as they were. *)
Theorem a_source_is_published_once (input again : NotificationInput) (source : NotificationScope * string)
    (now later : Z) (new_id other_id : string) (w w1 : Service X) (out : PublishOutcome)
    (accepted : file_valid (file_of w) = true) (listed : indexed (file_of w))
    (known : st_seen_source_events (sv_state w) = rebuild_seen_source_events (file_of w))
    (fresh : new_id ∉ ids_of w) (marked : client_marked input)
    (run : publish input now new_id w = (Ok out, w1)) (first : source_key input = Some source)
    (second : source_key again = Some source) (valid : validate_publish_input again = Ok tt) :
  exists r,
    publish again later other_id w1 =
      (Ok {| po_notification := Some r; po_revision := u64_to_string (revision (file_of w1));
             po_committed := false |}, w1) /\
    (forall r1, po_notification out = Some r1 -> id r = id r1).
Proof.
  assert (Inv w) as Hi by (by split; [apply valid_good|]).
  destruct (publish_advances input now new_id w (fun o w' => published input o w') Hi marked fresh) as (_ & Hi1 & HQ);
    [done|]. rewrite run in Hi1, HQ. specialize (HQ out eq_refl source first). cbn [snd] in *.
  assert (source ∈ st_seen_source_events (sv_state w1)) as Hseen.
  { destruct (po_notification out) as [r1|]; [|done]. destruct source. by apply (entry_seen w1 _ Hi1) in HQ. }
  destruct (seen_record w1 source Hi1 Hseen) as (r & Er & He). exists r. split.
  - unfold publish. unfold mbind at 1, mlift. rewrite valid. unfold mbind at 1, get_state. rewrite second.
    rewrite bool_decide_eq_true_2 by done. unfold mbind. by rewrite Er.
  - intros r1 E1. rewrite E1 in HQ. destruct Hi1 as [Hg _].
    by pose proof (NoDup_map_inj source_of _ _ _ (g_index _ Hg) He HQ eq_refl) as [= ->].
Qed.

(** ** Views *)

(** The records of a scope, in the order of the document. *)
Definition records_in (s : NotificationScope) (file : NotificationFileV1) : list NotificationRecord :=
  flat_map items (List.filter (fun p => bool_decide (pt_scope p = s)) (partitions file)).

Lemma records_in_map f s ps :
  (forall p, pt_scope (f p) = pt_scope p) -> (forall p, pt_scope p = s -> items (f p) = items p) ->
  flat_map items (List.filter (fun p => bool_decide (pt_scope p = s)) (map f ps)) =
  flat_map items (List.filter (fun p => bool_decide (pt_scope p = s)) ps).
Proof.
  intros Hs Hi. induction ps as [|p ps IH]; simpl; [done|]. rewrite Hs.
  destruct (bool_decide_reflect (pt_scope p = s)); simpl; [|done]. by rewrite IH, Hi.
Qed.

Lemma records_in_filter f s ps :
  (forall p, pt_scope p = s -> f p = false -> items p = []) ->
  flat_map items (List.filter (fun p => bool_decide (pt_scope p = s)) (List.filter f ps)) =
  flat_map items (List.filter (fun p => bool_decide (pt_scope p = s)) ps).
Proof.
  intros Hf. induction ps as [|p ps IH]; simpl; [done|].
  destruct (f p) eqn:E; simpl; destruct (bool_decide_reflect (pt_scope p = s)); simpl; rewrite ?IH; [done..| |done].
  by rewrite Hf.
Qed.

Lemma records_in_update f i s ps context :
  find_map (fun p => option_map (pair (pt_scope p)) (List.find (fun r => id r ==s i) (items p))) ps = Some context ->
  context.1 <> s ->
  flat_map items (List.filter (fun p => bool_decide (pt_scope p = s)) (update_record f i ps)) =
  flat_map items (List.filter (fun p => bool_decide (pt_scope p = s)) ps).
Proof.
  induction ps as [|p ps IH]; simpl; [done|]. intros Hf Hne.
  destruct (existsb (fun r => id r ==s i) (items p)) eqn:Ee.
  - destruct (List.find _ (items p)) as [r|] eqn:Er; simpl in Hf.
    + injection Hf as <-. simpl in *. by rewrite (bool_decide_eq_false_2 _ Hne).
    + apply existsb_exists in Ee as (r & Hr & Hi). by rewrite (find_none _ _ Er r Hr) in Hi.
  - destruct (List.find _ (items p)) as [r|] eqn:Er; simpl in Hf.
    + apply find_some in Er. assert (existsb (fun r => id r ==s i) (items p) = true) as E2
        by (apply existsb_exists; eauto). congruence.
    + simpl. destruct (bool_decide _); simpl; by rewrite IH.
Qed.

Lemma records_in_alter s f i ps p :
  ps !! i = Some p -> pt_scope p <> s -> (forall p, pt_scope (f p) = pt_scope p) ->
  flat_map items (List.filter (fun p => bool_decide (pt_scope p = s)) (alter f i ps)) =
  flat_map items (List.filter (fun p => bool_decide (pt_scope p = s)) ps).
Proof.
  intros Hp Hne Hf. revert i Hp. induction ps as [|q ps IH]; intros i Hp; [done|]. destruct i as [|i]; simpl in *.
  - injection Hp as ->. by rewrite Hf, (bool_decide_eq_false_2 _ Hne).
  - change (list_alter f i ps) with (alter f i ps). destruct (bool_decide _); simpl; by rewrite IH.
Qed.

(** The code leaves the records of [s] as [R]. *)
Section Kept.
Context (s : NotificationScope) (R : list NotificationRecord).

Definition kept {A : Type} (c : Run A) (w : Service X) : Prop := records_in s (file_of (c w).2) = R.

Lemma kept_bind {A B : Type} (c : Run A) (k : A -> Run B) w :
  kept c w -> (forall a w1, c w = (Ok a, w1) -> kept c w -> kept (k a) w1) -> kept (mbind c k) w.
Proof.
  unfold kept, mbind. intros Hc Hk. destruct (c w) as [[a|e|h] w1] eqn:E; [|done..].
  by apply (Hk a w1).
Qed.

Lemma kept_lift {A : Type} (x : outcome NotificationError A) w : records_in s (file_of w) = R -> kept (mlift x) w.
Proof. done. Qed.

Lemma kept_step {A B : Type} (x : outcome NotificationError A) (k : A -> Run B) w :
  records_in s (file_of w) = R -> (forall a, x = Ok a -> kept (k a) w) -> kept (mbind (mlift x) k) w.
Proof. intros Hw Hk. apply kept_bind; [done|]. intros a w1 [= -> <-] _. by apply Hk. Qed.

Lemma kept_get {B : Type} (k : ServiceState -> Run B) w : kept (k (sv_state w)) w -> kept (mbind get_state k) w.
Proof. done. Qed.

Lemma kept_commit next now change scopes i w :
  records_in s (file_of w) = R -> records_in s (st_file next) = R ->
  kept (commit_announced next now change scopes i) w.
Proof.
  intros Hw Hn. unfold kept, commit_announced, commit_file, mbind, mlift.
  destruct (next_revision (st_file next)) as [file|e|h] eqn:Er; [|done..].
  apply next_revision_ok in Er as [-> _]. unfold save_file.
  by destruct (persist _ _) as [[[]|e|h] x].
Qed.

Lemma kept_commit_then {B : Type} next now change scopes i (k : ServiceState -> B) w :
  records_in s (file_of w) = R -> records_in s (st_file next) = R ->
  kept (let* t := commit_announced next now change scopes i in mret (k t)) w.
Proof. intros Hw Hn. apply kept_bind; [by apply kept_commit|]. intros a w1 E. unfold kept. by rewrite E. Qed.
End Kept.

Lemma not_visible context (s s' : NotificationScope) :
  visible context s = false -> visible context s' = true -> s' <> s.
Proof. congruence. Qed.

Lemma find_map_visible context i ps found s :
  find_map (fun p => option_map (pair (pt_scope p)) (List.find (fun r => id r ==s i) (items p))) ps = Some found ->
  visible context found.1 = true -> visible context s = false -> found.1 <> s.
Proof. intros _ Hv Hs. by eapply not_visible. Qed.

Lemma mark_read_kept context i now s w :
  visible context s = false -> kept s (records_in s (file_of w)) (mark_read context i now) w.
Proof.
  intros Hs. unfold mark_read. apply kept_get, kept_step; [done|]. intros [sc r] Ef.
  apply kept_step; [done|]. intros [] Hv. destruct (read_at_ms r); [done|].
  apply kept_commit_then; [done|]. unfold find_record in Ef.
  destruct (find_map _ _) as [found|] eqn:Em; simplify_eq/=.
  apply (records_in_update (read_now now) i s (partitions (file_of w)) (sc, r)); [done|]. cbn.
  eapply not_visible; [exact Hs|]. destruct (visible context sc); done.
Qed.

Lemma mark_visible_read_kept context now s w :
  visible context s = false -> kept s (records_in s (file_of w)) (mark_visible_read context now) w.
Proof.
  intros Hs. unfold mark_visible_read. apply kept_get. destruct (_ =? 0); [done|].
  apply kept_commit_then; [done|].
  apply (records_in_map (read_partition context now) s (partitions (file_of w))).
  - intros p. unfold read_partition. by case_match.
  - intros p <-. unfold read_partition. by rewrite Hs.
Qed.

Lemma delete_visible_kept context i now s w :
  visible context s = false -> kept s (records_in s (file_of w)) (delete_visible context i now) w.
Proof.
  intros Hs. unfold delete_visible. apply kept_get, kept_step; [done|]. intros [pi ri] _.
  apply kept_step; [done|]. intros p Ep. apply kept_step; [done|]. intros [] Hv.
  apply kept_commit_then; [done|].
  destruct (partitions (file_of w) !! pi) as [q|] eqn:Eq; simplify_eq/=.
  assert (pt_scope p <> s) as Hne by (eapply not_visible; [exact Hs|]; by destruct (visible context (pt_scope p))).
  transitivity (flat_map items (List.filter (fun p => bool_decide (pt_scope p = s))
    (alter (fun p => {| pt_scope := pt_scope p; items := delete ri (items p) |}) pi (partitions (file_of w))))).
  - apply (records_in_filter (fun p => negb (no_items p))). intros p' _. unfold no_items. by destruct (items p').
  - by apply (records_in_alter s _ pi _ p).
Qed.

Lemma drop_scope_kept sc s (st : ServiceState) :
  s <> sc -> records_in s (st_file (drop_scope sc st)) = records_in s (st_file st).
Proof.
  intros Hne. apply (records_in_filter (fun p => negb (bool_decide (pt_scope p = sc)))). intros p <-.
  by rewrite bool_decide_eq_false_2.
Qed.

Lemma clear_account_kept active requested now s w :
  s <> AccountScope requested -> kept s (records_in s (file_of w)) (clear_account active requested now) w.
Proof.
  intros Hne. unfold clear_account. do 2 (apply kept_step; [done|]; intros ? _).
  apply kept_get. destruct (_ =? 0); [done|]. apply kept_commit_then; [done|]. by apply drop_scope_kept.
Qed.

Lemma delete_partition_kept account now s w :
  s <> AccountScope account -> kept s (records_in s (file_of w)) (delete_account_partition account now) w.
Proof.
  intros Hne. unfold delete_account_partition. apply kept_step; [done|]. intros ? _. apply kept_get.
  destruct (negb _); [exact (drop_scope_kept _ s (sv_state w) Hne)|].
  apply kept_commit_then; [done|]. exact (drop_scope_kept _ s (sv_state w) Hne).
Qed.

(** The scopes a view operation has no business in. *)
Definition beyond (c : call) (s : NotificationScope) : Prop :=
  match c with
  | CallList _ _ | CallSummary _ | CallMaintenanceDue => True
  | CallMarkRead context _ | CallMarkVisibleRead context | CallDeleteVisible context _ => visible context s = false
  | CallClearAccount _ account | CallDeleteAccountPartition account => s <> AccountScope account
  | _ => False
  end.

(** Listing, counting, reading and deleting in the view of one account, and
    clearing or removing one account, leave the records of every scope outside
    that view or account exactly as they were, whether they succeed or fail. *)
Theorem views_leave_other_accounts (c : call) (now : Z) (w : Service X) (s : NotificationScope)
    (other : beyond c s) :
  records_in s (file_of (perform c now w).2) = records_in s (file_of w).
Proof.
  assert (forall {A : Type} (r : Run A), kept s (records_in s (file_of w)) r w ->
            records_in s (file_of (forget r w).2) = records_in s (file_of w)) as Hf.
  { intros A r Hr. unfold forget, mbind. unfold kept in Hr. by destruct (r w) as [[] ?]. }
  destruct c; cbn [perform beyond] in *; try done; apply Hf; try done.
  - by apply mark_read_kept.
  - by apply mark_visible_read_kept.
  - by apply delete_visible_kept.
  - by apply clear_account_kept.
  - by apply delete_partition_kept.
Qed.

(** ** Orders *)

Lemma note_orders_lookup keys st s k :
  k ∈ keys -> st_order_states (note_orders keys st s) !! k = Some st.
Proof.
  intros Hk. change (foldl (fun m k => <[k := st]> m) (st_order_states s) keys !! k = Some st).
  generalize (st_order_states s) as m. revert k Hk. induction keys as [|k0 keys IH] using rev_ind;
    intros k Hk m; [by apply elem_of_nil in Hk|].
  rewrite foldl_app. simpl. rewrite lookup_insert. case_decide; [done|].
  apply IH. set_solver.
Qed.

Lemma previous_order_state_all m keys st :
  keys <> [] -> (forall k, k ∈ keys -> m !! k = Some st) -> is_terminal (os_status st) = true ->
  previous_order_state m keys = Some st.
Proof.
  intros Hk Hm Ht. destruct keys as [|k keys]; [done|]. unfold previous_order_state. simpl.
  rewrite (Hm k) by set_solver. simpl. by rewrite Ht.
Qed.

(** What a committed publication is committed over. *)
Lemma publish_prepared_committed input change now new_id w out w1 :
  Inv w -> publish_prepared input change now new_id w = (Ok out, w1) -> po_committed out = true ->
  exists s, st_order_states (sv_state w1) = st_order_states (change s).
Proof.
  intros Hi Hp Hc. unfold publish_prepared in Hp.
  destruct (prepare_publish_locked input now new_id w) as [[o|e|h] w2] eqn:Ep; unfold mbind at 1 in Hp;
    rewrite Ep in Hp; [|done..].
  unfold mbind at 1, get_state in Hp. destruct o as [pp|]; [|by injection Hp as <- <-].
  exists (sv_state w2). unfold mbind at 1, mlift in Hp. unfold apply_prepared_publish in Hp.
  destruct (apply_prepared_to_file pp (st_file (change (sv_state w2)))) as [f2|e|h]; [|done..]. cbn in Hp.
  unfold commit_publish, mbind, mlift in Hp. cbn [pm_record pm_change] in Hp.
  match type of Hp with context [next_revision ?f] => destruct (next_revision f) as [file|e|h] end; [|done..].
  unfold save_file, put_state, emit_diagnostic_only, mret in Hp.
  destruct (persist _ _) as [[[]|e|h] x]; simplify_eq/=. done.
Qed.

Lemma order_ids_nonempty o ids : order_observation_entity_ids o = Ok ids -> ids <> [].
Proof.
  unfold order_observation_entity_ids. intros Ho. run_ok. bools. done.
Qed.

(** The outcome is known: nothing is published again. *)
Lemma observe_order_settled o ids st now new_id w :
  (exists v, ViewContext_account (oo_account_id o) = Ok v) -> order_observation_entity_ids o = Ok ids ->
  (forall i, i ∈ ids -> st_order_states (sv_state w) !! (oo_account_id o, i) = Some st) ->
  is_terminal (os_status st) = true -> os_terminal_notified st = true ->
  exists out w2, observe_order o now new_id w = (Ok out, w2) /\ po_committed out = false /\
    file_of w2 = file_of w /\ sv_events w2 = sv_events w /\ sv_persistence w2 = sv_persistence w.
Proof.
  intros [v Hv] Hids Hst Ht Hn. unfold observe_order. unfold mbind at 1, mlift at 1. rewrite Hv.
  unfold mbind at 1, mlift at 1. rewrite Hids. unfold mbind at 1, get_state.
  rewrite (previous_order_state_all _ _ st); [|intros E%map_eq_nil; by eapply order_ids_nonempty| |done].
  2: { intros k (i & -> & Hi)%list_elem_of_fmap_1. auto. }
  destruct (is_terminal (os_status st) && _); [do 2 eexists; by split_and!|].
  unfold should_publish_order. rewrite Hn. cbn. rewrite andb_false_r. cbn.
  do 2 eexists. split; [done|]. by split_and!.
Qed.

(** Once the outcome of an order was published, further observations of the
    order under the same identifiers, from whatever origin and with whatever
    status, succeed and publish nothing: the document, the store and the events
    stay as they are. *)
Theorem an_outcome_is_published_once (o again : OrderObservation) (now later : Z) (new_id other_id : string)
    (w w1 : Service X) (out : PublishOutcome)
    (accepted : file_valid (file_of w) = true) (listed : indexed (file_of w))
    (known : st_seen_source_events (sv_state w) = rebuild_seen_source_events (file_of w))
    (run : observe_order o now new_id w = (Ok out, w1)) (announced : po_committed out = true)
    (account : oo_account_id again = oo_account_id o)
    (identifiers : order_observation_entity_ids again = order_observation_entity_ids o) :
  exists out2 w2,
    observe_order again later other_id w1 = (Ok out2, w2) /\ po_committed out2 = false /\
    file_of w2 = file_of w1 /\ sv_events w2 = sv_events w1 /\ sv_persistence w2 = sv_persistence w1.
Proof.
  assert (Inv w) as Hi by (by split; [apply valid_good|]).
  unfold observe_order in run. unfold mbind at 1, mlift at 1 in run.
  destruct (ViewContext_account (oo_account_id o)) as [v|e|h] eqn:Ev; [|done..].
  unfold mbind at 1, mlift at 1 in run. destruct (order_observation_entity_ids o) as [ids|e|h] eqn:Eids; [|done..].
  unfold mbind at 1, get_state in run.
  match type of run with context [if ?b then mret (no_publish_outcome _) else _] => destruct b end;
    [by injection run as <- <-|].
  destruct (should_publish_order o _) eqn:Es; cbn [negb] in run; [|by injection run as <- <-].
  unfold mbind at 1, mlift at 1 in run. destruct (PolicyContext_new _ _ _) as [context|e|h]; [|done..].
  unfold mbind at 1, mlift at 1 in run. destruct (order_input o context) as [input|e|h]; [|done..].
  destruct (publish_prepared_committed _ _ _ _ _ _ _ Hi run announced) as (s & Hm).
  apply (observe_order_settled again ids {| os_status := oo_status o; os_terminal_notified := true |}).
  - exists v. by rewrite account.
  - congruence.
  - intros i Hin. rewrite Hm, account. apply note_orders_lookup.
    apply (list_elem_of_fmap_2 (pair (oo_account_id o))). exact Hin.
  - unfold should_publish_order in Es. cbn. by destruct (is_terminal (oo_status o)).
  - done.
Qed.
End Session.

(** ** The service over its file *)

Section OnDisk.
Context `{NotificationJsonLaws} `{!ObjectTextLaws json} `{Sha256Lib} `{Codec CursorV1}.
Context (dir : path) (name : string).

#[local] Instance on_disk : NotificationPersistence fs_world := file_persistence (name :: dir).

Local Abbreviation file_of w := (st_file (sv_state w)).

(** What a start may find: the document in memory, or a later revision whose
    save was not confirmed. *)
Definition backed (w : Service fs_world) : Prop :=
  exists unconfirmed,
    survives dir name (file_of w :: unconfirmed) (sv_persistence w) /\
    forall g, g ∈ unconfirmed -> revision g = revision (file_of w) + 1.

Lemma history_backed w w' : history w w' -> backed w -> backed w'.
Proof.
  induction 1 as [w w' E Ep _|w w' file o Hv Hr Ep Ho Es _|w w' e _ _ _ Ep _ _ _ _|w1 w2 w3 _ IH1 _ IH2]; intros (A & Hs & HA).
  - exists A. by rewrite E, Ep.
  - pose proof (store_save_spec dir name _ file _ Hs) as Hf. unfold wp in Hf. cbn in Ep. rewrite Ep in Hf.
    exists (A ++ [file]). rewrite Es. split.
    + by destruct o as [[]|e|h].
    + intros g [Hg| ->%list_elem_of_singleton]%elem_of_app; [by apply HA|done].
  - pose proof (store_save_spec dir name _ (file_of w') _ Hs) as Hf. unfold wp in Hf. cbn in Ep. rewrite Ep in Hf.
    exists []. split; [done|]. by intros g ?%elem_of_nil.
  - apply IH2, IH1. by exists A.
Qed.

End OnDisk.
