(* ===== verification/PluginManifest.v ===== *)
(** plugin/manifest.rs, plugin/contribution.rs, plugin/compute.rs and
    plugin/record.rs: the manifest of a plugin with its validation, what it
    contributes, and the record the catalog keeps of it. *)
From stdpp Require Import strings.
From Stdlib Require Import Ascii.
From S2P Require Import Prelude RustStr External Models Workflow StrategyTypes Supervisor.

(** ** semver *)

Class SemverLib := {
  Version : Type;
  Version_eq_dec :: EqDecision Version;
  version_to_string : Version -> string;
  (* precedence: blind to build metadata *)
  cmp_precedence : Version -> Version -> comparison;
}.

(** ** Texts shown to the user *)

(** White space and U+FEFF. *)
Definition feff (a b c : Z) : bool := (a =? 239) && (b =? 187) && (c =? 191).

Fixpoint all_blank (l : list Z) : bool :=
  match l with
  | [] => true
  | a :: l1 =>
      if white1 a then all_blank l1
      else match l1 with
           | b :: l2 =>
               if white2 a b then all_blank l2
               else match l2 with
                    | c :: l3 => (white3 a b c || feff a b c) && all_blank l3
                    | [] => false
                    end
           | [] => false
           end
  end.

Definition validate_display_text (label value : string) (max_length : Z) : outcome string unit :=
  guard (all_blank (bytes_of value) || (max_length <? len value))
    ("plugin " +:+ label +:+ " must be non-blank and at most "
       +:+ u64_to_string max_length +:+ " bytes").

(** ** contribution.rs *)

Definition MAX_COMMAND_TITLE_LENGTH : Z := 80.
Definition MAX_COMMAND_TEXT_LENGTH : Z := 2000.

Inductive PluginContributionKind := Command.
#[export] Instance PluginContributionKind_eq_dec : EqDecision PluginContributionKind.
Proof. solve_decision. Defined.

Inductive PluginCommandActionId :=
| HostShowInfo | HostOpenPage | SandboxComputeSeries | SandboxAccountWorkflow | SandboxStrategy.
#[export] Instance PluginCommandActionId_eq_dec : EqDecision PluginCommandActionId.
Proof. solve_decision. Defined.

Inductive PluginPageDestination :=
| Home | TradingPage | Charts | SettingsGeneral | SettingsNotifications | SettingsAbout.
#[export] Instance PluginPageDestination_eq_dec : EqDecision PluginPageDestination.
Proof. solve_decision. Defined.

Record PluginInfoParams := {
  info_title : string;
  info_text : string;
}.
#[export] Instance PluginInfoParams_eq_dec : EqDecision PluginInfoParams.
Proof. solve_decision. Defined.

Definition PluginInfoParams_validate (p : PluginInfoParams) : outcome string unit :=
  let? _ := validate_display_text "command params title" (info_title p) MAX_COMMAND_TITLE_LENGTH in
  validate_display_text "command params text" (info_text p) MAX_COMMAND_TEXT_LENGTH.

Record PluginOpenPageParams := { destination : PluginPageDestination }.
#[export] Instance PluginOpenPageParams_eq_dec : EqDecision PluginOpenPageParams.
Proof. solve_decision. Defined.

(** *** compute.rs *)

Definition MAX_MODULE_BYTES : Z := 8192.

Record ComputeParameter := {
  par_label : string;
  par_default : Z;
  par_min : Z;
  par_max : Z;
}.
#[export] Instance ComputeParameter_eq_dec : EqDecision ComputeParameter.
Proof. solve_decision. Defined.

Record PluginComputeParams := {
  pcp_runtime : string;
  pcp_abi : string;
  pcp_module_base64 : string;
  pcp_parameter : ComputeParameter;
}.
#[export] Instance PluginComputeParams_eq_dec : EqDecision PluginComputeParams.
Proof. solve_decision. Defined.

Section Compute.
Context `{Base64Lib}.

Definition compute_module_bytes (p : PluginComputeParams) : outcome string string :=
  (* MAX_MODULE_BYTES.div_ceil(3) * 4 *)
  let? _ := guard ((MAX_MODULE_BYTES + 2) / 3 * 4 <? len (pcp_module_base64 p))
              "compute module too large" in
  let? bytes := ok_or "invalid compute module encoding" (b64_decode (pcp_module_base64 p)) in
  let? _ := guard ((MAX_MODULE_BYTES <? len bytes) || negb (starts_with bytes wasm_magic)
                   || (b64_encode bytes !=s pcp_module_base64 p))
              "invalid compute module header or encoding" in
  Ok bytes.

Definition PluginComputeParams_validate (p : PluginComputeParams) : outcome string unit :=
  let? _ := guard ((pcp_runtime p !=s "wasm-v1") || (pcp_abi p !=s "series-f64-v1"))
              "unsupported compute runtime or ABI" in
  let par := pcp_parameter p in
  let? _ := validate_display_text "parameter label" (par_label par) 80 in
  let? _ := guard ((par_min par <? -1000000) || (1000000 <? par_max par)
                   || (par_default par <? par_min par) || (par_max par <? par_default par))
              "invalid compute parameter bounds" in
  let? _ := compute_module_bytes p in
  Ok tt.
End Compute.

#[export] Instance PluginWorkflowParams_eq_dec : EqDecision PluginWorkflowParams.
Proof. solve_decision. Defined.
#[export] Instance PluginStrategyParams_eq_dec : EqDecision PluginStrategyParams.
Proof. solve_decision. Defined.

Inductive PluginCommandParams :=
| ShowInfo (p : PluginInfoParams)
| OpenPage (p : PluginOpenPageParams)
| ComputeSeries (p : PluginComputeParams)
| Strategy (p : PluginStrategyParams)
| AccountWorkflow (p : PluginWorkflowParams).
#[export] Instance PluginCommandParams_eq_dec : EqDecision PluginCommandParams.
Proof. solve_decision. Defined.

Record PluginCommandContribution := {
  pc_kind : PluginContributionKind;
  pc_contribution_id : string;
  pc_title : string;
  pc_action_id : PluginCommandActionId;
  pc_params : PluginCommandParams;
}.
#[export] Instance PluginCommandContribution_eq_dec : EqDecision PluginCommandContribution.
Proof. solve_decision. Defined.

(** ** manifest.rs *)

Definition APPROVAL_FINGERPRINT_NONE : string := "v1:none".
Definition MAX_NAME_LENGTH : Z := 80.
Definition MAX_DESCRIPTION_LENGTH : Z := 500.
Definition MAX_PUBLISHER_DISPLAY_LENGTH : Z := 80.
Definition MAX_VERSION_LENGTH : Z := 64.

Section Manifest.
Context `{Codec json} `{Base64Lib} `{SemverLib}.

Definition PluginCommandContribution_validate (c : PluginCommandContribution)
    : outcome string unit :=
  let? _ := validate_display_text "command title" (pc_title c) MAX_COMMAND_TITLE_LENGTH in
  match pc_action_id c, pc_params c with
  | HostShowInfo, ShowInfo p => PluginInfoParams_validate p
  | HostOpenPage, OpenPage _ => Ok tt
  | SandboxComputeSeries, ComputeSeries p => PluginComputeParams_validate p
  | SandboxAccountWorkflow, AccountWorkflow p => PluginWorkflowParams_validate p
  | SandboxStrategy, Strategy p => PluginStrategyParams_validate p
  | _, _ => Err "plugin command action does not match params"
  end.

Record PluginManifest := {
  pm_schema_version : Z;
  pm_id : string;
  pm_publisher_id : string;
  pm_publisher : string;
  pm_name : string;
  pm_description : string;
  pm_version : Version;
  pm_contributions : list PluginCommandContribution;
  pm_requested_capabilities : list string;
}.
#[export] Instance PluginManifest_eq_dec : EqDecision PluginManifest.
Proof. solve_decision. Defined.

Definition is_action (a : PluginCommandActionId) (c : PluginCommandContribution) : bool :=
  bool_decide (pc_action_id c = a).

(** What a manifest of each version may contribute. *)
Definition contribution_admitted (version : Z) (c : PluginCommandContribution)
    : outcome string unit :=
  let? _ := guard (is_action SandboxStrategy c && (version <? 6)) "strategy requires manifest v6" in
  let? _ := guard ((6 <=? version) && is_action SandboxAccountWorkflow c)
              "v6 excludes account workflows" in
  let? _ := guard ((version <? 5) && is_action SandboxAccountWorkflow c)
              "account workflow requires manifest v5" in
  let? _ := guard ((version <? 4) && is_action SandboxComputeSeries c)
              "compute requires plugin manifest v4" in
  guard ((version =? 2) && negb (is_action HostShowInfo c))
    "plugin manifest v2 only supports host.showInfo".

(** The loop over the contributions, with the identifiers already seen. *)
Fixpoint validate_contributions (version : Z) (seen : list string)
    (cs : list PluginCommandContribution) : outcome string unit :=
  match cs with
  | [] => Ok tt
  | c :: rest =>
      let? _ := PluginCommandContribution_validate c in
      let? _ := contribution_admitted version c in
      let? _ := guard (has seen (pc_contribution_id c)) "duplicate plugin contribution id" in
      validate_contributions version (pc_contribution_id c :: seen) rest
  end.

Definition validate_schema (m : PluginManifest) : outcome string unit :=
  let version := pm_schema_version m in
  let count := Z.of_nat (length (pm_contributions m)) in
  if (version =? 1) && (count =? 0) then Ok tt
  else if (2 <=? version) && (version <=? 7) && (1 <=? count) && (count <=? 16)
  then validate_contributions version [] (pm_contributions m)
  else Err "unsupported plugin manifest schema or contributions".

Definition validate_requested (m : PluginManifest) : outcome string unit :=
  let caps := pm_requested_capabilities m in
  if pm_schema_version m =? 5 then
    let? _ := validate_capabilities caps in
    guard (negb (has caps "account.read")
           || negb (existsb (is_action SandboxAccountWorkflow) (pm_contributions m)))
      "v5 requires account.read and an account workflow"
  else if (pm_schema_version m =? 6) || (pm_schema_version m =? 7) then
    let? _ := validate_strategy_capabilities caps in
    let? _ := validate_management_dependencies caps in
    let? _ := guard ((pm_schema_version m =? 6)
                     && existsb (fun c => (c ==s "trade.amend") || (c ==s "trade.protect")) caps)
                "management capabilities require v7" in
    guard (negb (existsb (is_action SandboxStrategy) (pm_contributions m)))
      "strategy manifest requires a strategy"
  else guard (bool_decide (caps <> [])) "plugin requested capabilities are reserved".

Definition PluginManifest_validate (m : PluginManifest) : outcome string unit :=
  let? _ := validate_schema m in
  let? _ := validate_display_text "publisher" (pm_publisher m) MAX_PUBLISHER_DISPLAY_LENGTH in
  let? _ := validate_display_text "name" (pm_name m) MAX_NAME_LENGTH in
  let? _ := validate_display_text "description" (pm_description m) MAX_DESCRIPTION_LENGTH in
  let? _ := guard (MAX_VERSION_LENGTH <? len (version_to_string (pm_version m)))
              "plugin version exceeds 64 bytes" in
  validate_requested m.

(** [serde_json::from_slice::<PluginManifest>]: the derived reader of the
    fields, then the checks of the [Deserialize] implementations. *)
Definition manifest_from_slice `{Codec PluginManifest} (bytes : string) : option PluginManifest :=
  m ← decode bytes;
  if is_ok (validate_reverse_domain (pm_id m))
     && is_ok (validate_reverse_domain (pm_publisher_id m))
     && forallb (fun c => is_ok (validate_reverse_domain (pc_contribution_id c))
                          && is_ok (PluginCommandContribution_validate c)) (pm_contributions m)
     && is_ok (PluginManifest_validate m)
  then Some m else None.

(** ** record.rs *)

(** [b"EasiFlux.localDeclarative.manifest.v1\0"]. *)
Definition LOCAL_FINGERPRINT_DOMAIN : string :=
  "EasiFlux.localDeclarative.manifest.v1" +:+ String zero EmptyString.

Record PluginRecord := {
  pr_manifest : PluginManifest;
  pr_source : PluginSource;
  pr_approval_fingerprint : string;
}.
#[export] Instance PluginRecord_eq_dec : EqDecision PluginRecord.
Proof. solve_decision. Defined.

Definition built_in (m : PluginManifest) : outcome string PluginRecord :=
  let? _ := PluginManifest_validate m in
  let? _ := guard (negb (pm_schema_version m =? 1)) "built-in plugins require manifest schema v1" in
  Ok {| pr_manifest := m; pr_source := BuiltIn;
        pr_approval_fingerprint := APPROVAL_FINGERPRINT_NONE |}.

Section Records.
Context `{Codec PluginManifest} `{Sha256Lib}.

(** [CanonicalManifestV1] has the fields of the manifest, in its order. *)
Definition canonical_manifest_bytes (m : PluginManifest) : outcome string string :=
  ok_or "manifest fingerprint failed" (encode m).

Definition local_declarative (m : PluginManifest) : outcome string PluginRecord :=
  let? _ := PluginManifest_validate m in
  let? bytes := canonical_manifest_bytes m in
  Ok {| pr_manifest := m; pr_source := LocalDeclarative;
        pr_approval_fingerprint :=
          "v1:sha256:" +:+ sha256_hex (LOCAL_FINGERPRINT_DOMAIN +:+ bytes) |}.

Definition record_canonical_bytes (r : PluginRecord) : outcome string string :=
  canonical_manifest_bytes (pr_manifest r).
End Records.

Definition identity_of (r : PluginRecord) : PluginIdentity :=
  {| pi_id := pm_id (pr_manifest r); pi_source := pr_source r;
     pi_publisher_id := pm_publisher_id (pr_manifest r);
     pi_approval_fingerprint := pr_approval_fingerprint r |}.

Definition record_id (r : PluginRecord) : string := pm_id (pr_manifest r).
End Manifest.
Arguments PluginManifest {_}.
Arguments PluginRecord {_}.
