(* ===== verification/PluginCatalog.v ===== *)
(** plugin/manifest.rs: the catalog shown to the window.  Items are projected
    from a manifest, a status and a management class; the checks of the
    [Deserialize] implementations say which snapshots are accepted. *)
From stdpp Require Import strings.
From S2P Require Import Prelude RustStr External Models Workflow StrategyTypes Supervisor PluginManifest.

Inductive LocalDiscoveryStatus := DAvailable | DDegraded | DUnavailable.
#[export] Instance LocalDiscoveryStatus_eq_dec : EqDecision LocalDiscoveryStatus.
Proof. solve_decision. Defined.

Record LocalDiscoverySummary := {
  lds_status : LocalDiscoveryStatus;
  rejected_package_count : Z;
}.
#[export] Instance LocalDiscoverySummary_eq_dec : EqDecision LocalDiscoverySummary.
Proof. solve_decision. Defined.

Definition summary_available : LocalDiscoverySummary :=
  {| lds_status := DAvailable; rejected_package_count := 0 |}.
Definition summary_unavailable : LocalDiscoverySummary :=
  {| lds_status := DUnavailable; rejected_package_count := 0 |}.
Definition summary_degraded (n : Z) : outcome string LocalDiscoverySummary :=
  let? _ := guard (negb ((1 <=? n) && (n <=? 256)))
              "degraded discovery count must be between 1 and 256" in
  Ok {| lds_status := DDegraded; rejected_package_count := n |}.

Definition u32_saturating_add (a b : Z) : Z := Z.min (a + b) u32_max.

Definition with_additional_rejections (s : LocalDiscoverySummary) (rejected : Z)
    : LocalDiscoverySummary :=
  if negb (rejected =? 0) && bool_decide (lds_status s <> DUnavailable)
  then {| lds_status := DDegraded;
          rejected_package_count :=
            Z.min (u32_saturating_add (rejected_package_count s) rejected) 256 |}
  else s.

Inductive PluginStatus := Enabled | Disabled | Blocked.
#[export] Instance PluginStatus_eq_dec : EqDecision PluginStatus.
Proof. solve_decision. Defined.
Inductive PluginAvailability := CatalogAvailable | CatalogUnavailable.
#[export] Instance PluginAvailability_eq_dec : EqDecision PluginAvailability.
Proof. solve_decision. Defined.
Inductive PluginAvailabilityReason := ForState | ForCatalog.
#[export] Instance PluginAvailabilityReason_eq_dec : EqDecision PluginAvailabilityReason.
Proof. solve_decision. Defined.
Inductive PluginManagement :=
| MBuiltIn | MManaged | MExternal | MRemovalPending | MOwnershipConflict | MOwnershipUnavailable.
#[export] Instance PluginManagement_eq_dec : EqDecision PluginManagement.
Proof. solve_decision. Defined.
Inductive PluginToggleBlockReason := BlockedByRemoval.
#[export] Instance PluginToggleBlockReason_eq_dec : EqDecision PluginToggleBlockReason.
Proof. solve_decision. Defined.

Definition for_source (source : PluginSource) : PluginManagement :=
  match source with BuiltIn => MBuiltIn | LocalDeclarative => MExternal end.

Record ManagedOwnershipSummary := {
  mos_status : LocalDiscoveryStatus;
  conflicting_entry_count : Z;
  rollback_pending_count : Z;
  cleanup_pending_count : Z;
}.
#[export] Instance ManagedOwnershipSummary_eq_dec : EqDecision ManagedOwnershipSummary.
Proof. solve_decision. Defined.

Definition ownership_available : ManagedOwnershipSummary :=
  {| mos_status := DAvailable; conflicting_entry_count := 0;
     rollback_pending_count := 0; cleanup_pending_count := 0 |}.
Definition ownership_unavailable : ManagedOwnershipSummary :=
  {| mos_status := DUnavailable; conflicting_entry_count := 0;
     rollback_pending_count := 0; cleanup_pending_count := 0 |}.

(** [u32::checked_add]. *)
Definition u32_checked_add (a b : Z) : option Z :=
  if a + b <=? u32_max then Some (a + b) else None.

Definition counts_validate (s : ManagedOwnershipSummary) : outcome string unit :=
  let? first := ok_or "ownership count overflow"
                  (u32_checked_add (conflicting_entry_count s) (rollback_pending_count s)) in
  let? total := ok_or "ownership count overflow" (u32_checked_add first (cleanup_pending_count s)) in
  guard ((176 <? total) || (160 <? rollback_pending_count s) || (160 <? cleanup_pending_count s)
         || negb (Bool.eqb (bool_decide (mos_status s = DDegraded)) (0 <? total)))
    "invalid ownership summary".

(** [ManagedOwnershipSummary::counts]; its check is a [debug_assert]. *)
Definition ownership_counts (conflicts rollback cleanup : Z) : ManagedOwnershipSummary :=
  {| mos_status := if (conflicts =? 0) && (rollback =? 0) && (cleanup =? 0)
                   then DAvailable else DDegraded;
     conflicting_entry_count := conflicts; rollback_pending_count := rollback;
     cleanup_pending_count := cleanup |}.

(** ** Items *)

Section Catalog.
Context `{SemverLib}.

Record PluginCatalogItem := {
  i_manifest : PluginManifest;
  i_source : PluginSource;
  i_status : PluginStatus;
  i_status_reason_code : option PluginAvailabilityReason;
  i_can_toggle : bool;
  i_granted_capabilities : list string;
  i_management : PluginManagement;
  i_can_remove : bool;
  i_toggle_block_reason_code : option PluginToggleBlockReason;
}.
#[export] Instance PluginCatalogItem_eq_dec : EqDecision PluginCatalogItem.
Proof. solve_decision. Defined.

Definition project (m : PluginManifest) (source : PluginSource) (status : PluginStatus)
    (reason : option PluginAvailabilityReason) (management : PluginManagement)
    : PluginCatalogItem :=
  let pending := bool_decide (management = MRemovalPending) in
  let status := if pending then Disabled else status in
  {| i_manifest := m; i_source := source; i_status := status;
     i_status_reason_code := if pending then None else reason;
     i_can_toggle := bool_decide (status <> Blocked) && negb pending;
     i_granted_capabilities := [];
     i_management := management;
     i_can_remove := bool_decide (management = MManaged) && bool_decide (status = Disabled);
     i_toggle_block_reason_code := if pending then Some BlockedByRemoval else None |}.

Definition item_enabled (m : PluginManifest) (source : PluginSource) : PluginCatalogItem :=
  project m source Enabled None (for_source source).
Definition item_disabled (m : PluginManifest) (source : PluginSource) : PluginCatalogItem :=
  project m source Disabled None (for_source source).
Definition item_blocked (m : PluginManifest) (source : PluginSource)
    (reason : PluginAvailabilityReason) : PluginCatalogItem :=
  project m source Blocked (Some reason) (for_source source).

Definition with_management (i : PluginCatalogItem) (management : PluginManagement)
    : PluginCatalogItem :=
  project (i_manifest i) (i_source i) (i_status i) (i_status_reason_code i) management.

Definition differ (a b : bool) : bool := negb (Bool.eqb a b).

(** [PluginCatalogItem::validate]: true where the source refuses the item. *)
Definition item_invalid (i : PluginCatalogItem) : bool :=
  (bool_decide (i_source i = BuiltIn) && negb (pm_schema_version (i_manifest i) =? 1))
  || differ (bool_decide (i_source i = BuiltIn)) (bool_decide (i_management i = MBuiltIn))
  || differ (bool_decide (i_status i = Blocked)) (is_some (i_status_reason_code i))
  || differ (i_can_toggle i)
       (bool_decide (i_status i <> Blocked) && is_none (i_toggle_block_reason_code i))
  || differ (bool_decide (i_management i = MRemovalPending))
       (is_some (i_toggle_block_reason_code i))
  || (bool_decide (i_management i = MRemovalPending) && bool_decide (i_status i <> Disabled))
  || differ (i_can_remove i)
       (bool_decide (i_management i = MManaged) && bool_decide (i_status i = Disabled))
  || bool_decide (i_granted_capabilities i <> []).

Definition item_validate (i : PluginCatalogItem) : outcome string unit :=
  guard (item_invalid i) "invalid catalog management or status".

Definition same_structure (a b : PluginCatalogItem) : bool :=
  bool_decide (i_manifest a = i_manifest b) && bool_decide (i_source a = i_source b)
  && bool_decide (i_management a = i_management b)
  && bool_decide (i_toggle_block_reason_code a = i_toggle_block_reason_code b)
  && bool_decide (i_granted_capabilities a = i_granted_capabilities b).

(** ** Snapshots *)

Definition CATALOG_TRANSPORT_SCHEMA_VERSION : Z := 3.

Record PluginCatalogSnapshot := {
  s_schema_version : Z;
  s_revision : string;
  s_catalog_generation : string;
  s_availability : PluginAvailability;
  s_availability_reason_code : option PluginAvailabilityReason;
  s_local_discovery : LocalDiscoverySummary;
  s_managed_ownership : ManagedOwnershipSummary;
  s_plugins : list PluginCatalogItem;
}.
#[export] Instance PluginCatalogSnapshot_eq_dec : EqDecision PluginCatalogSnapshot.
Proof. solve_decision. Defined.

Definition new_snapshot (revision generation : string) (availability : PluginAvailability)
    (reason : option PluginAvailabilityReason) (local : LocalDiscoverySummary)
    (ownership : ManagedOwnershipSummary) (plugins : list PluginCatalogItem)
    : PluginCatalogSnapshot :=
  {| s_schema_version := CATALOG_TRANSPORT_SCHEMA_VERSION; s_revision := revision;
     s_catalog_generation := generation; s_availability := availability;
     s_availability_reason_code := reason; s_local_discovery := local;
     s_managed_ownership := ownership; s_plugins := plugins |}.

Definition valid_version (value : string) : bool :=
  match parse_u64 value with Some n => u64_to_string n ==s value | None => false end.

(** What the snapshot's reader refuses of one item. *)
Definition item_out_of_place (w : PluginCatalogSnapshot) (i : PluginCatalogItem) : bool :=
  (bool_decide (s_availability w = CatalogAvailable) && bool_decide (i_status i = Blocked))
  || (bool_decide (s_availability w = CatalogUnavailable)
      && bool_decide (i_management i <> MRemovalPending)
      && (bool_decide (i_status i <> Blocked)
          || bool_decide (i_status_reason_code i <> s_availability_reason_code w)))
  || (bool_decide (mos_status (s_managed_ownership w) = DUnavailable)
      && bool_decide (i_management i = MManaged))
  || (bool_decide (mos_status (s_managed_ownership w) <> DUnavailable)
      && bool_decide (i_management i = MOwnershipUnavailable))
  || (bool_decide (i_management i = MRemovalPending)
      && (rollback_pending_count (s_managed_ownership w) =? 0))
  || (bool_decide (i_management i = MOwnershipConflict)
      && (conflicting_entry_count (s_managed_ownership w) =? 0))
  || (bool_decide (lds_status (s_local_discovery w) = DUnavailable)
      && bool_decide (i_source i = LocalDeclarative)).

(** [windows(2)]: no item's identifier reaches the next one's. *)
Fixpoint out_of_order (items : list PluginCatalogItem) : bool :=
  match items with
  | a :: (b :: _) as rest =>
      String.leb (pm_id (i_manifest b)) (pm_id (i_manifest a)) || out_of_order rest
  | _ => false
  end.

Definition snapshot_invalid (w : PluginCatalogSnapshot) : bool :=
  negb (s_schema_version w =? 3)
  || negb (valid_version (s_revision w))
  || negb (valid_version (s_catalog_generation w))
  || differ (bool_decide (s_availability w = CatalogUnavailable))
       (is_some (s_availability_reason_code w))
  || (256 <? rejected_package_count (s_local_discovery w))
  || differ (bool_decide (lds_status (s_local_discovery w) = DDegraded))
       (0 <? rejected_package_count (s_local_discovery w))
  || existsb (item_out_of_place w) (s_plugins w)
  || out_of_order (s_plugins w).

(** [TryFrom<PluginCatalogSnapshotWire>]. *)
Definition snapshot_of_wire (w : PluginCatalogSnapshot) : outcome string PluginCatalogSnapshot :=
  let? _ := guard (snapshot_invalid w) "invalid catalog snapshot" in
  Ok w.

(** [Deserialize] for the whole snapshot: its parts, then the snapshot. *)
Definition read_snapshot (w : PluginCatalogSnapshot) : outcome string PluginCatalogSnapshot :=
  let? _ := counts_validate (s_managed_ownership w) in
  let? _ := guard (existsb item_invalid (s_plugins w)) "invalid catalog management or status" in
  snapshot_of_wire w.

Record PluginCatalogMutationResult := {
  mr_schema_version : Z;
  mr_revision : string;
  mr_catalog_generation : string;
  mr_plugin : PluginCatalogItem;
}.

Definition new_mutation (revision generation : string) (plugin : PluginCatalogItem)
    : PluginCatalogMutationResult :=
  {| mr_schema_version := CATALOG_TRANSPORT_SCHEMA_VERSION; mr_revision := revision;
     mr_catalog_generation := generation; mr_plugin := plugin |}.

(** [TryFrom<PluginCatalogMutationWire>]. *)
Definition mutation_of_wire (w : PluginCatalogMutationResult)
    : outcome string PluginCatalogMutationResult :=
  let? _ := guard (negb (mr_schema_version w =? 3) || negb (valid_version (mr_revision w))
                   || negb (valid_version (mr_catalog_generation w)))
              "invalid catalog mutation" in
  Ok (new_mutation (mr_revision w) (mr_catalog_generation w) (mr_plugin w)).
End Catalog.
