(* ===== verification/PluginPackages.v ===== *)
(** plugin/ownership.rs (slots and receipts) and plugin/discovery.rs: what is
    found in the directories of local plugins and of removals, from the bytes
    a bounded scan read to the outcome the registry is given. *)
From stdpp Require Import gmap strings.
From Stdlib Require Import Ascii.
From S2P Require Import Prelude RustStr External Models BTreeMap Workflow StrategyTypes Supervisor PluginManifest PluginCatalog.

(** ** ownership.rs: identities of files, slots *)

Inductive OwnershipFailure :=
| OwnershipUnavailable | OwnershipPersistFailed | OwnershipCapacityExceeded
| OwnershipRevisionExhausted | OwnershipConflict.
#[export] Instance OwnershipFailure_eq_dec : EqDecision OwnershipFailure.
Proof. solve_decision. Defined.

Definition ownership_failure_code (f : OwnershipFailure) : string :=
  match f with
  | OwnershipUnavailable => "plugin_ownership_unavailable"
  | OwnershipPersistFailed => "plugin_ownership_persist_failed"
  | OwnershipCapacityExceeded => "plugin_ownership_capacity_exceeded"
  | OwnershipRevisionExhausted => "plugin_ownership_revision_exhausted"
  | OwnershipConflict => "plugin_ownership_conflict"
  end.

Record FileIdentity := {
  volume : Z;
  object : Z;
}.
#[export] Instance FileIdentity_eq_dec : EqDecision FileIdentity.
Proof. solve_decision. Defined.
#[export] Instance FileIdentity_countable : Countable FileIdentity.
Proof.
  apply (inj_countable' (fun i => (volume i, object i))
           (fun p => {| volume := p.1; object := p.2 |})). by intros [].
Qed.

Definition RECEIPT_ID_HEX_LEN : Z := 32.
Definition PACKAGE_SLOT_PREFIX : string := "pkg-".
Definition REMOVAL_SLOT_PREFIX : string := "remove-".

(** A digit or a letter from [a] to [f]. *)
Definition lower_hex (b : Z) : bool := is_ascii_digit b || ((97 <=? b) && (b <=? 102)).
Definition all_lower_hex (s : string) : bool := forallb lower_hex (bytes_of s).

(** [Uuid::parse_str] with the random version and the RFC 4122 variant. *)
Class UuidV4Lib := { uuid_v4_rfc4122 : string -> bool }.

Definition validate_lower_hex_32 (value : string) : outcome OwnershipFailure unit :=
  guard (negb (len value =? RECEIPT_ID_HEX_LEN) || negb (all_lower_hex value)) OwnershipConflict.

Definition validate_prefixed_slot (value prefix : string) : outcome OwnershipFailure unit :=
  let? suffix := ok_or OwnershipConflict (strip_prefix prefix value) in
  validate_lower_hex_32 suffix.

Definition PackageSlot_parse (value : string) : outcome OwnershipFailure string :=
  let? _ := validate_prefixed_slot value PACKAGE_SLOT_PREFIX in Ok value.
Definition RemovalSlot_parse (value : string) : outcome OwnershipFailure string :=
  let? _ := validate_prefixed_slot value REMOVAL_SLOT_PREFIX in Ok value.

Definition valid_local_fingerprint (value : string) : bool :=
  match strip_prefix "v1:sha256:" value with
  | Some digest => (len digest =? 64) && all_lower_hex digest
  | None => false
  end.

Section Uuid.
Context `{UuidV4Lib}.

Definition validate_uuid_v4_simple (value : string) : outcome OwnershipFailure unit :=
  let? _ := validate_lower_hex_32 value in
  guard (negb (uuid_v4_rfc4122 value)) OwnershipConflict.

Definition ReceiptId_parse (value : string) : outcome OwnershipFailure string :=
  let? _ := validate_uuid_v4_simple value in Ok value.
End Uuid.

(** ** Receipts *)

Definition MAX_OWNERSHIP_RECEIPT_BYTES : Z := 4 * 1024.
Definition OWNERSHIP_SCHEMA_VERSION_V1 : Z := 1.

Record OwnershipReceiptV1 := {
  or_schema_version : Z;
  or_receipt_id : string;
  or_package_slot : string;
  or_source : PluginSource;
  or_plugin_id : string;
  or_publisher_id : string;
  or_approval_fingerprint : string;
}.
#[export] Instance OwnershipReceiptV1_eq_dec : EqDecision OwnershipReceiptV1.
Proof. solve_decision. Defined.

(** A digest is kept as its hexadecimal text. *)
Record VerifiedPackageReceipt := {
  vr_model : OwnershipReceiptV1;
  vr_canonical_sha256 : string;
  vr_file_identity : FileIdentity;
}.
#[export] Instance VerifiedPackageReceipt_eq_dec : EqDecision VerifiedPackageReceipt.
Proof. solve_decision. Defined.

Section Receipts.
Context `{SemverLib} `{UuidV4Lib} `{Sha256Lib} `{Codec OwnershipReceiptV1}.

Definition receipt_validate (r : OwnershipReceiptV1) : outcome OwnershipFailure unit :=
  let? _ := guard (negb (or_schema_version r =? OWNERSHIP_SCHEMA_VERSION_V1)
                   || bool_decide (or_source r <> LocalDeclarative)
                   || negb (valid_local_fingerprint (or_approval_fingerprint r)))
              OwnershipConflict in
  let? _ := validate_uuid_v4_simple (or_receipt_id r) in
  validate_prefixed_slot (or_package_slot r) PACKAGE_SLOT_PREFIX.

Definition receipt_new (receipt_id package_slot : string) (record : PluginRecord)
    : outcome OwnershipFailure OwnershipReceiptV1 :=
  let? _ := guard (bool_decide (pr_source record <> LocalDeclarative)) OwnershipConflict in
  let identity := identity_of record in
  let receipt :=
    {| or_schema_version := OWNERSHIP_SCHEMA_VERSION_V1; or_receipt_id := receipt_id;
       or_package_slot := package_slot; or_source := pi_source identity;
       or_plugin_id := pi_id identity; or_publisher_id := pi_publisher_id identity;
       or_approval_fingerprint := pi_approval_fingerprint identity |} in
  let? _ := receipt_validate receipt in
  Ok receipt.

(** [serde_json::from_slice]: the fields, their identifiers, the receipt. *)
Definition receipt_from_slice (bytes : string) : option OwnershipReceiptV1 :=
  r ← decode bytes;
  if is_ok (ReceiptId_parse (or_receipt_id r)) && is_ok (PackageSlot_parse (or_package_slot r))
     && is_ok (validate_reverse_domain (or_plugin_id r))
     && is_ok (validate_reverse_domain (or_publisher_id r))
     && is_ok (receipt_validate r)
  then Some r else None.

Definition receipt_parse (bytes : string) : outcome OwnershipFailure OwnershipReceiptV1 :=
  let? _ := guard (MAX_OWNERSHIP_RECEIPT_BYTES <? len bytes) OwnershipCapacityExceeded in
  let? receipt := ok_or OwnershipConflict (receipt_from_slice bytes) in
  let? _ := receipt_validate receipt in
  Ok receipt.

Definition receipt_bytes (r : OwnershipReceiptV1) : outcome OwnershipFailure string :=
  let? _ := receipt_validate r in
  let? bytes := ok_or OwnershipPersistFailed (encode r) in
  let? _ := guard (MAX_OWNERSHIP_RECEIPT_BYTES <? len bytes) OwnershipCapacityExceeded in
  Ok bytes.

(** [expect]: a receipt that does not serialize panics. *)
Definition receipt_sha256 {E} (r : OwnershipReceiptV1) : outcome E string :=
  match receipt_bytes r with
  | Ok bytes => Ok (sha256_hex bytes)
  | Err _ => Halt Panicked
  | Halt h => Halt h
  end.

Definition receipt_matches_record (r : OwnershipReceiptV1) (record : PluginRecord) : bool :=
  let identity := identity_of record in
  bool_decide (or_source r = pi_source identity) && (or_plugin_id r ==s pi_id identity)
  && (or_publisher_id r ==s pi_publisher_id identity)
  && (or_approval_fingerprint r ==s pi_approval_fingerprint identity).
End Receipts.

(** ** discovery.rs: what a scan found *)

Record ScanUsage := {
  su_root_entries : Z;
  su_packages : Z;
  su_bytes_read : Z;
}.
#[export] Instance ScanUsage_eq_dec : EqDecision ScanUsage.
Proof. solve_decision. Defined.

(** [usize::checked_add]. *)
Definition usize_checked_add (a b : Z) : option Z :=
  if a + b <=? u64_max then Some (a + b) else None.

Definition can_add_manifest (u : ScanUsage) (bytes : Z) : bool :=
  (su_root_entries u <? 256) && (su_packages u <? 128) && (bytes <=? 16384)
  && match usize_checked_add (su_bytes_read u) bytes with
     | Some n => n <=? 2097152
     | None => false
     end.

Record LocalPackageLocator := {
  l_package_slot : string;
  l_directory_identity : FileIdentity;
  l_manifest_identity : FileIdentity;
  l_receipt : option VerifiedPackageReceipt;
}.
#[export] Instance LocalPackageLocator_eq_dec : EqDecision LocalPackageLocator.
Proof. solve_decision. Defined.

Inductive RemovalObservationShape :=
| ShapeFull | ShapeReceiptOnly | ShapeManifestOnly | ShapeEmptyDirectory | ShapeUnknown.
#[export] Instance RemovalObservationShape_eq_dec : EqDecision RemovalObservationShape.
Proof. solve_decision. Defined.

(** What the bounded readers return of a package or of a removal directory. *)
Record PackageBytes := {
  pb_package_slot : string;
  pb_directory_identity : FileIdentity;
  pb_manifest_identity : FileIdentity;
  pb_manifest_bytes : string;
  pb_receipt : option (string * FileIdentity);
}.
Record PackageScan := {
  ps_packages : list PackageBytes;
  ps_rejected_package_count : Z;
  ps_usage : ScanUsage;
  ps_occupied_slots : list string;
}.
Record ObjectBytes := {
  ob_unknown_shape : bool;
  ob_directory_identity : FileIdentity;
  ob_manifest : option (string * FileIdentity);
  ob_receipt : option (string * FileIdentity);
}.
Record RemovalScan := {
  rs_objects : list (string * ObjectBytes);
  rs_occupied_slots : list string;
  rs_unknown_count : Z;
  rs_bytes_read : Z;
}.

Section Discovery.
Context `{SemverLib} `{Codec json} `{Base64Lib} `{Codec PluginManifest}.
Context `{UuidV4Lib} `{Sha256Lib} `{Codec OwnershipReceiptV1}.

Record DiscoveredLocalPlugin := {
  dp_record : PluginRecord;
  dp_locator : LocalPackageLocator;
}.
#[export] Instance DiscoveredLocalPlugin_eq_dec : EqDecision DiscoveredLocalPlugin.
Proof. solve_decision. Defined.

Record RemovalObservation := {
  ro_removal_slot : string;
  ro_directory_identity : FileIdentity;
  ro_manifest : option (PluginRecord * FileIdentity);
  ro_receipt : option VerifiedPackageReceipt;
  ro_shape : RemovalObservationShape;
}.
#[export] Instance RemovalObservation_eq_dec : EqDecision RemovalObservation.
Proof. solve_decision. Defined.

Record RemovalDiscoveryOutcome := {
  rd_observations : list RemovalObservation;
  rd_status : LocalDiscoveryStatus;
  rd_bytes_read : Z;
  rd_occupied_slots : list string;
  rd_unknown_entry_count : Z;
}.
#[export] Instance RemovalDiscoveryOutcome_eq_dec : EqDecision RemovalDiscoveryOutcome.
Proof. solve_decision. Defined.

Definition removals_available : RemovalDiscoveryOutcome :=
  {| rd_observations := []; rd_status := DAvailable; rd_bytes_read := 0;
     rd_occupied_slots := []; rd_unknown_entry_count := 0 |}.
Definition removals_unavailable : RemovalDiscoveryOutcome :=
  {| rd_observations := []; rd_status := DUnavailable; rd_bytes_read := 0;
     rd_occupied_slots := []; rd_unknown_entry_count := 0 |}.

Record LocalDiscoveryOutcome := {
  do_plugins : list DiscoveredLocalPlugin;
  do_occupied_slots : list string;
  do_removals : RemovalDiscoveryOutcome;
  do_summary : LocalDiscoverySummary;
  do_usage : option ScanUsage;
}.
#[export] Instance LocalDiscoveryOutcome_eq_dec : EqDecision LocalDiscoveryOutcome.
Proof. solve_decision. Defined.

Definition discovery_unavailable : LocalDiscoveryOutcome :=
  {| do_plugins := []; do_occupied_slots := []; do_removals := removals_unavailable;
     do_summary := summary_unavailable; do_usage := None |}.

Definition package_id (p : DiscoveredLocalPlugin) : string := record_id (dp_record p).

Definition verified_receipt {E} (bytes : string) (file_identity : FileIdentity)
    : outcome E (option VerifiedPackageReceipt) :=
  match receipt_parse bytes with
  | Ok model =>
      let? digest := receipt_sha256 model in
      Ok (Some {| vr_model := model; vr_canonical_sha256 := digest;
                  vr_file_identity := file_identity |})
  | Err _ => Ok None
  | Halt h => Halt h
  end.

Definition parse_record (bytes : string) : option PluginRecord :=
  m ← manifest_from_slice bytes;
  ok_of (local_declarative m).

(** *** Removal directories *)

Definition parse_object {E} (slot : string) (o : ObjectBytes) : outcome E RemovalObservation :=
  let manifest := '(bytes, identity) ← ob_manifest o;
                  r ← parse_record bytes; Some (r, identity) in
  let? receipt := match ob_receipt o with
                  | Some (bytes, identity) => verified_receipt bytes identity
                  | None => Ok None
                  end in
  let has_manifest := is_some (ob_manifest o) in
  let has_receipt := is_some (ob_receipt o) in
  let shape :=
    if ob_unknown_shape o || (has_manifest && is_none manifest)
       || (has_receipt && is_none receipt)
    then ShapeUnknown
    else match has_manifest, has_receipt with
         | true, true => ShapeFull
         | false, true => ShapeReceiptOnly
         | true, false => ShapeManifestOnly
         | false, false => ShapeEmptyDirectory
         end in
  Ok {| ro_removal_slot := slot; ro_directory_identity := ob_directory_identity o;
        ro_manifest := manifest; ro_receipt := receipt; ro_shape := shape |}.

Fixpoint parse_objects {E} (objects : list (string * ObjectBytes))
    : outcome E (list RemovalObservation) :=
  match objects with
  | [] => Ok []
  | (slot, o) :: rest =>
      let? observation := parse_object slot o in
      let? observations := parse_objects rest in
      Ok (observation :: observations)
  end.

Definition parse_removal_scan {E} (scan : RemovalScan) : outcome E RemovalDiscoveryOutcome :=
  let? observations := parse_objects (rs_objects scan) in
  Ok {| rd_observations := observations; rd_status := DAvailable;
        rd_bytes_read := rs_bytes_read scan; rd_occupied_slots := rs_occupied_slots scan;
        rd_unknown_entry_count := rs_unknown_count scan |}.

(** *** Packages *)

(** One package of the scan: [None] is a rejected one.  A malformed receipt
    rejects the package. *)
Definition parse_package {E} (p : PackageBytes) : outcome E (option DiscoveredLocalPlugin) :=
  let found := parse_record (pb_manifest_bytes p) in
  let? receipt := match pb_receipt p with
                  | Some (bytes, identity) =>
                      let? r := verified_receipt bytes identity in Ok (Some r)
                  | None => Ok None
                  end in
  Ok match receipt, found with
     | Some None, _ | _, None => None
     | _, Some r =>
         Some {| dp_record := r;
                 dp_locator := {| l_package_slot := pb_package_slot p;
                                  l_directory_identity := pb_directory_identity p;
                                  l_manifest_identity := pb_manifest_identity p;
                                  l_receipt := match receipt with Some v => v | None => None end |} |}
     end.

(** The loop over the packages: the candidates by identifier, in the order of
    the scan, and the rejections. *)
Fixpoint collect_packages {E} (packages : list PackageBytes)
    (candidates : gmap string (list DiscoveredLocalPlugin)) (rejected : Z)
    : outcome E (gmap string (list DiscoveredLocalPlugin) * Z) :=
  match packages with
  | [] => Ok (candidates, rejected)
  | p :: rest =>
      let? found := parse_package p in
      match found with
      | Some d =>
          let group := default [] (candidates !! package_id d) in
          collect_packages rest (<[package_id d := (group ++ [d])%list]> candidates) rejected
      | None => collect_packages rest candidates (rejected + 1)
      end
  end.

(** A package is kept when no other claims its identifier. *)
Fixpoint keep_single (groups : list (list DiscoveredLocalPlugin)) (rejected : Z)
    : list DiscoveredLocalPlugin * Z :=
  match groups with
  | [] => ([], rejected)
  | [d] :: rest => let '(records, rejected) := keep_single rest rejected in (d :: records, rejected)
  | group :: rest => keep_single rest (rejected + Z.of_nat (length group))
  end.

Definition parse_package_scan {E} (scan : PackageScan) : outcome E LocalDiscoveryOutcome :=
  let? (candidates, rejected) :=
    collect_packages (ps_packages scan) ∅ (ps_rejected_package_count scan) in
  let '(records, rejected) := keep_single (sm_values candidates) rejected in
  match (if rejected =? 0 then Ok summary_available else summary_degraded rejected) with
  | Ok summary =>
      Ok {| do_plugins := records; do_occupied_slots := ps_occupied_slots scan;
            do_removals := removals_available; do_summary := summary;
            do_usage := Some (ps_usage scan) |}
  | Err _ => Ok discovery_unavailable
  | Halt h => Halt h
  end.

(** [discover_bounded], given what [read_both_roots] returned; [None] is a
    root that could not be read. *)
Definition discover_bounded {E} (local : option PackageScan) (removal : option RemovalScan)
    : outcome E LocalDiscoveryOutcome :=
  let? found := match local with
                | Some scan => parse_package_scan scan
                | None => Ok discovery_unavailable
                end in
  let? removals := match removal with
                   | Some scan => parse_removal_scan scan
                   | None => Ok removals_unavailable
                   end in
  Ok {| do_plugins := do_plugins found; do_occupied_slots := do_occupied_slots found;
        do_removals := removals; do_summary := do_summary found; do_usage := do_usage found |}.
End Discovery.
Arguments DiscoveredLocalPlugin {_}.
Arguments RemovalObservation {_}.
Arguments RemovalDiscoveryOutcome {_}.
Arguments LocalDiscoveryOutcome {_}.
