(* ===== verification/PluginState.v ===== *)
(** storage/plugin_state.rs: the document that says which plugins the user
    enabled, its versions and validation, and its store. *)
From stdpp Require Import gmap strings.
From Stdlib Require Import Ascii.
From S2P Require Import Prelude RustStr FileSystem External Models Workflow StrategyTypes StrategyStore SafeDocument Supervisor PluginManifest PluginCatalog PluginPackages.

Definition MAX_PLUGIN_STATE_BYTES : Z := 256 * 1024.
Definition MAX_PLUGIN_STATE_ENTRIES : Z := 512.

Record PluginStateEntryV2 := {
  e_id : string;
  e_source : PluginSource;
  e_publisher_id : string;
  e_approval_fingerprint : string;
  e_enabled : bool;
}.
#[export] Instance PluginStateEntryV2_eq_dec : EqDecision PluginStateEntryV2.
Proof. solve_decision. Defined.

Record PluginStateFileV2 := {
  f_schema_version : Z;
  f_revision : Z;
  f_entries : list PluginStateEntryV2;
}.
#[export] Instance PluginStateFileV2_eq_dec : EqDecision PluginStateFileV2.
Proof. solve_decision. Defined.

Definition empty_state : PluginStateFileV2 :=
  {| f_schema_version := 2; f_revision := 0; f_entries := [] |}.

(** What an entry trusts: the key under which entries are told apart. *)
Definition entry_identity (e : PluginStateEntryV2) : PluginIdentity :=
  {| pi_id := e_id e; pi_source := e_source e; pi_publisher_id := e_publisher_id e;
     pi_approval_fingerprint := e_approval_fingerprint e |}.

Definition valid_fingerprint (source : PluginSource) (fingerprint : string) : bool :=
  match source with
  | BuiltIn => fingerprint ==s APPROVAL_FINGERPRINT_NONE
  | LocalDeclarative => valid_local_fingerprint fingerprint
  end.

(** The loop over the entries, with the identities already seen. *)
Fixpoint validate_entries (seen : list PluginIdentity) (es : list PluginStateEntryV2)
    : outcome string unit :=
  match es with
  | [] => Ok tt
  | e :: rest =>
      let? _ := guard (negb (valid_fingerprint (e_source e) (e_approval_fingerprint e)))
                  "invalid state trust identity" in
      let? _ := guard (bool_decide (entry_identity e ∈ seen)) "duplicate state trust identity" in
      validate_entries (entry_identity e :: seen) rest
  end.

Definition state_validate (s : PluginStateFileV2) : outcome string unit :=
  let? _ := guard (negb (f_schema_version s =? 2)) "unsupported state schema" in
  let? _ := guard (MAX_PLUGIN_STATE_ENTRIES <? Z.of_nat (length (f_entries s)))
              "too many state entries" in
  validate_entries [] (f_entries s).

(** ** The texts of revisions *)

Definition decimal_serialize (value : Z) : string := u64_to_string value.

Definition canonical_decimal (value : string) : bool :=
  negb (is_empty value || ((1 <? len value) && starts_with value "0")
        || negb (forallb is_ascii_digit (bytes_of value))).

Definition decimal_deserialize (value : string) : option Z :=
  if canonical_decimal value then parse_u64 value else None.

(** ** The document as it is written *)

Record StateWire := {
  sw_schema_version : Z;
  sw_revision : string;
  sw_entries : list PluginStateEntryV2;
}.

Record PluginStateEntryV1 := {
  v1_id : string;
  v1_publisher_id : string;
  v1_approval_fingerprint : string;
  v1_enabled : bool;
}.

Record StateV1Wire := {
  w1_schema_version : Z;
  w1_revision : string;
  w1_entries : list PluginStateEntryV1;
}.

Record PluginStateFileV1 := {
  f1_schema_version : Z;
  f1_revision : Z;
  f1_entries : list PluginStateEntryV1;
}.

(** [StateSchema]: the schema version alone.  serde_json gives the members of
    an object in their order; a text that is no object has none. *)
Class ObjectReader := { object_members : string -> option (list (string * json)) }.

(** [visit_map]: one member of that name, an unsigned number. *)
Fixpoint schema_of_members (members : list (string * json)) (found : option Z) : option Z :=
  match members with
  | [] => found
  | (key, value) :: rest =>
      if key ==s "schemaVersion" then
        match found, value with
        | None, JPosInt n => schema_of_members rest (Some n)
        | _, _ => None
        end
      else schema_of_members rest found
  end.

Definition schema_from_slice `{ObjectReader} (bytes : string) : option Z :=
  members ← object_members bytes; schema_of_members members None.

Definition wire_of_state (s : PluginStateFileV2) : StateWire :=
  {| sw_schema_version := f_schema_version s; sw_revision := decimal_serialize (f_revision s);
     sw_entries := f_entries s |}.

Definition state_of_wire (w : StateWire) : option PluginStateFileV2 :=
  revision ← decimal_deserialize (sw_revision w);
  let s := {| f_schema_version := sw_schema_version w; f_revision := revision;
              f_entries := sw_entries w |} in
  if forallb (fun e => is_ok (validate_reverse_domain (e_id e))
                       && is_ok (validate_reverse_domain (e_publisher_id e))) (sw_entries w)
     && is_ok (state_validate s)
  then Some s else None.

Fixpoint validate_v1_entries (seen : list (string * string)) (es : list PluginStateEntryV1)
    : outcome string unit :=
  match es with
  | [] => Ok tt
  | e :: rest =>
      let? _ := guard (v1_approval_fingerprint e !=s APPROVAL_FINGERPRINT_NONE)
                  "invalid state trust identity" in
      let? _ := guard (bool_decide ((v1_id e, v1_publisher_id e) ∈ seen))
                  "duplicate state trust identity" in
      validate_v1_entries ((v1_id e, v1_publisher_id e) :: seen) rest
  end.

Definition v1_validate (s : PluginStateFileV1) : outcome string unit :=
  let? _ := guard (negb (f1_schema_version s =? 1)) "unsupported state schema" in
  let? _ := guard (MAX_PLUGIN_STATE_ENTRIES <? Z.of_nat (length (f1_entries s)))
              "too many state entries" in
  validate_v1_entries [] (f1_entries s).

Definition v1_of_wire (w : StateV1Wire) : option PluginStateFileV1 :=
  revision ← decimal_deserialize (w1_revision w);
  let s := {| f1_schema_version := w1_schema_version w; f1_revision := revision;
              f1_entries := w1_entries w |} in
  if forallb (fun e => is_ok (validate_reverse_domain (v1_id e))
                       && is_ok (validate_reverse_domain (v1_publisher_id e))) (w1_entries w)
     && is_ok (v1_validate s)
  then Some s else None.

Definition migrate_entry (e : PluginStateEntryV1) : PluginStateEntryV2 :=
  {| e_id := v1_id e; e_source := BuiltIn; e_publisher_id := v1_publisher_id e;
     e_approval_fingerprint := v1_approval_fingerprint e; e_enabled := v1_enabled e |}.

Definition migrate (s : PluginStateFileV1) : PluginStateFileV2 :=
  {| f_schema_version := 2; f_revision := f1_revision s;
     f_entries := map migrate_entry (f1_entries s) |}.

Record PluginStateLoad := {
  pl_state : PluginStateFileV2;
  pl_requires_rewrite : bool;
}.
#[export] Instance PluginStateLoad_eq_dec : EqDecision PluginStateLoad.
Proof. solve_decision. Defined.

Definition plugin_error (code message : string) : AppError := Plugin code message None.

Definition state_unavailable : AppError :=
  plugin_error "plugin_state_unavailable" "插件状态存储暂不可用".
Definition unsupported_schema : AppError :=
  plugin_error "plugin_state_unsupported_schema" "插件状态版本暂不受支持".

(** What the registry asks of the store.  The error of a save is the outcome
    it reached. *)
Class PluginStatePersistence (W : Type) := {
  state_load : M W AppError PluginStateLoad;
  state_save : PluginStateFileV2 -> M W PersistOutcome PersistOutcome;
}.

(** [save_before_destructive_rename]. *)
Definition save_before_destructive_rename {W} `{PluginStatePersistence W} (s : PluginStateFileV2)
    : M W PersistOutcome PersistOutcome :=
  let* o := state_save s in
  if outcome_satisfies_destructive_barrier o then mret o else mfail o.

Section Documents.
Context `{Codec StateWire} `{Codec StateV1Wire} `{ObjectReader}.

Definition state_to_vec (s : PluginStateFileV2) : option string := encode (wire_of_state s).

Definition state_from_slice (bytes : string) : option PluginStateFileV2 :=
  w ← decode bytes; state_of_wire w.
Definition v1_from_slice (bytes : string) : option PluginStateFileV1 :=
  w ← decode bytes; v1_of_wire w.

Definition validate_for_persistence (s : PluginStateFileV2) : outcome string unit :=
  let? _ := state_validate s in
  let? bytes := ok_or "state serialization failed" (state_to_vec s) in
  guard (MAX_PLUGIN_STATE_BYTES <? len bytes) "state exceeds byte limit".

(** A candidate of a known schema. *)
Definition read_state (schema : Z) (bytes : string) : option PluginStateLoad :=
  if schema =? 1 then
    s ← v1_from_slice bytes;
    Some {| pl_state := migrate s; pl_requires_rewrite := true |}
  else if schema =? 2 then
    s ← state_from_slice bytes;
    Some {| pl_state := s; pl_requires_rewrite := false |}
  else None.

Definition distrust (e : PluginStateEntryV2) : PluginStateEntryV2 :=
  match e_source e with
  | LocalDeclarative =>
      {| e_id := e_id e; e_source := e_source e; e_publisher_id := e_publisher_id e;
         e_approval_fingerprint := e_approval_fingerprint e; e_enabled := false |}
  | BuiltIn => e
  end.

(** A document that is not the main file: local plugins come back disabled. *)
Definition recovered (l : PluginStateLoad) : PluginStateLoad :=
  {| pl_state := {| f_schema_version := f_schema_version (pl_state l);
                    f_revision := f_revision (pl_state l);
                    f_entries := map distrust (f_entries (pl_state l)) |};
     pl_requires_rewrite := true |}.

(** The loop of [load_locked] over the candidates; [index0] is the main file. *)
Fixpoint pick_state (index0 invalid : bool) (cs : list CandidateBytes)
    : outcome AppError (option PluginStateLoad) :=
  match cs with
  | [] => if invalid then Err state_unavailable else Ok None
  | Missing :: rest => pick_state false invalid rest
  | Oversized :: rest => if index0 then Err state_unavailable else pick_state false true rest
  | Bounded bytes :: rest =>
      match schema_from_slice bytes with
      | None => pick_state false true rest
      | Some schema =>
          if 2 <? schema then Err unsupported_schema
          else match read_state schema bytes with
               | Some l => Ok (Some (if index0 then l else recovered l))
               | None => pick_state false true rest
               end
      end
  end.

(** ** The store *)

Section Store.
Context (root : path).

Definition load_locked : M fs_world AppError (option PluginStateLoad) :=
  let* cs := mmap_err (fun _ => state_unavailable)
               (load_candidates root plugin_state_names MAX_PLUGIN_STATE_BYTES) in
  mlift (pick_state true false cs).

Definition store_load : M fs_world AppError PluginStateLoad :=
  let* found := load_locked in
  mret (default {| pl_state := empty_state; pl_requires_rewrite := false |} found).

(** [From<AppError> for PersistFailure]: nothing was committed. *)
Definition store_save (s : PluginStateFileV2) : M fs_world PersistOutcome PersistOutcome :=
  mlift (omap_err (fun _ => NotCommitted) (validate_for_persistence s)) ;;;
  let* bytes := mlift (ok_or NotCommitted (state_to_vec s)) in
  let* loaded := mmap_err (fun _ => NotCommitted) load_locked in
  let* previous := mlift match loaded with
                         | Some l => let? b := ok_or NotCommitted (state_to_vec (pl_state l)) in
                                     Ok (Some b)
                         | None => Ok None
                         end in
  persist_document root plugin_state_names MAX_PLUGIN_STATE_BYTES previous bytes.

Definition PluginStateStore : PluginStatePersistence fs_world :=
  {| state_load := store_load; state_save := store_save |}.
End Store.
End Documents.
