(* ===== verification/PluginOwnership.v ===== *)
(** plugin/ownership.rs and storage/managed_plugin_ownership.rs: the index of
    the packages this application placed itself, its document, and the
    reconciliation of the index with what a scan found. *)
From stdpp Require Import gmap strings.
From Stdlib Require Import Ascii.
From S2P Require Import Prelude RustStr FileSystem External Models BTreeMap Workflow StrategyTypes StrategyStore SafeDocument Supervisor PluginManifest PluginCatalog PluginPackages PluginState.

Definition MAX_MANAGED_OWNERSHIP_BYTES : Z := 256 * 1024.
Definition MAX_MANAGED_OWNERSHIP_ENTRIES : Z := 160.

Inductive OwnershipLifecycleV1 := Managed | Removing (removal_slot : string).
#[export] Instance OwnershipLifecycleV1_eq_dec : EqDecision OwnershipLifecycleV1.
Proof. solve_decision. Defined.

Record ManagedOwnershipEntryV1 := {
  en_receipt_id : string;
  en_lifecycle : OwnershipLifecycleV1;
  en_package_slot : string;
  en_plugin_id : string;
  en_source : PluginSource;
  en_publisher_id : string;
  en_approval_fingerprint : string;
  en_receipt_sha256 : string;
  en_directory_identity : FileIdentity;
  en_manifest_identity : FileIdentity;
  en_receipt_identity : FileIdentity;
}.
#[export] Instance ManagedOwnershipEntryV1_eq_dec : EqDecision ManagedOwnershipEntryV1.
Proof. solve_decision. Defined.

Definition set_lifecycle (l : OwnershipLifecycleV1) (e : ManagedOwnershipEntryV1)
    : ManagedOwnershipEntryV1 :=
  {| en_receipt_id := en_receipt_id e; en_lifecycle := l; en_package_slot := en_package_slot e;
     en_plugin_id := en_plugin_id e; en_source := en_source e;
     en_publisher_id := en_publisher_id e; en_approval_fingerprint := en_approval_fingerprint e;
     en_receipt_sha256 := en_receipt_sha256 e; en_directory_identity := en_directory_identity e;
     en_manifest_identity := en_manifest_identity e; en_receipt_identity := en_receipt_identity e |}.

Definition removal_slot (e : ManagedOwnershipEntryV1) : option string :=
  match en_lifecycle e with Managed => None | Removing slot => Some slot end.
Definition entry_begin_removal (slot : string) (e : ManagedOwnershipEntryV1)
    : ManagedOwnershipEntryV1 := set_lifecycle (Removing slot) e.
Definition entry_restore_managed (e : ManagedOwnershipEntryV1) : ManagedOwnershipEntryV1 :=
  set_lifecycle Managed e.

(** Equality as a test. *)
Definition same {A} `{EqDecision A} (a b : A) : bool := bool_decide (a = b).

Definition matches_receipt (e : ManagedOwnershipEntryV1) (r : OwnershipReceiptV1)
    (digest : string) : bool :=
  (en_receipt_id e ==s or_receipt_id r) && (en_package_slot e ==s or_package_slot r)
  && (en_plugin_id e ==s or_plugin_id r) && same (en_source e) (or_source r)
  && (en_publisher_id e ==s or_publisher_id r)
  && (en_approval_fingerprint e ==s or_approval_fingerprint r)
  && (en_receipt_sha256 e ==s digest).

Definition matches_locator (e : ManagedOwnershipEntryV1) (l : LocalPackageLocator) : bool :=
  (en_package_slot e ==s l_package_slot l)
  && same (en_directory_identity e) (l_directory_identity l)
  && same (en_manifest_identity e) (l_manifest_identity l)
  && is_some_and (fun r => same (en_receipt_identity e) (vr_file_identity r)) (l_receipt l).

(** ** The index *)

Record ManagedOwnershipIndexV1 := {
  ix_schema_version : Z;
  ix_revision : Z;
  ix_entries : list ManagedOwnershipEntryV1;
}.
#[export] Instance ManagedOwnershipIndexV1_eq_dec : EqDecision ManagedOwnershipIndexV1.
Proof. solve_decision. Defined.

Definition empty_index : ManagedOwnershipIndexV1 :=
  {| ix_schema_version := OWNERSHIP_SCHEMA_VERSION_V1; ix_revision := 0; ix_entries := [] |}.

Definition with_entries (entries : list ManagedOwnershipEntryV1) (i : ManagedOwnershipIndexV1)
    : ManagedOwnershipIndexV1 :=
  {| ix_schema_version := ix_schema_version i; ix_revision := ix_revision i;
     ix_entries := entries |}.
Definition with_revision (revision : Z) (i : ManagedOwnershipIndexV1) : ManagedOwnershipIndexV1 :=
  {| ix_schema_version := ix_schema_version i; ix_revision := revision;
     ix_entries := ix_entries i |}.

(** [u64::checked_add] and [u64::saturating_add]. *)
Definition u64_checked_add (a b : Z) : option Z := if a + b <=? u64_max then Some (a + b) else None.
Definition u64_saturating_add (a b : Z) : Z := Z.min (a + b) u64_max.

Definition require_revision_headroom (steps : Z) (i : ManagedOwnershipIndexV1)
    : outcome OwnershipFailure unit :=
  let? _ := ok_or OwnershipRevisionExhausted (u64_checked_add (ix_revision i) steps) in Ok tt.

(** [iter().find(|e| e.receipt_id() == receipt)]. *)
Definition find_receipt (receipt : string) (entries : list ManagedOwnershipEntryV1)
    : option ManagedOwnershipEntryV1 :=
  List.find (fun e => en_receipt_id e ==s receipt) entries.

(** [iter_mut().find(..)]: the first entry of the receipt is changed. *)
Fixpoint update_receipt (receipt : string) (f : ManagedOwnershipEntryV1 -> ManagedOwnershipEntryV1)
    (entries : list ManagedOwnershipEntryV1) : list ManagedOwnershipEntryV1 :=
  match entries with
  | [] => []
  | e :: rest =>
      if en_receipt_id e ==s receipt then f e :: rest else e :: update_receipt receipt f rest
  end.

Definition receipt_le (a b : ManagedOwnershipEntryV1) : Prop :=
  String.le (en_receipt_id a) (en_receipt_id b).
#[export] Instance receipt_le_dec : RelDecision receipt_le.
Proof. intros a b. apply String.le_dec. Defined.

(** ** As it is written *)

Record FileIdentityWire := { fw_volume : string; fw_object : string }.
Inductive LifecycleWire := LifecycleManaged | LifecycleRemoving.

Record EntryWire := {
  ew_receipt_id : string;
  ew_lifecycle : LifecycleWire;
  ew_package_slot : string;
  ew_removal_slot : option string;
  ew_plugin_id : string;
  ew_source : PluginSource;
  ew_publisher_id : string;
  ew_approval_fingerprint : string;
  ew_receipt_sha256 : string;
  ew_directory_identity : FileIdentityWire;
  ew_manifest_identity : FileIdentityWire;
  ew_receipt_identity : FileIdentityWire;
}.

Record IndexWire := {
  iw_schema_version : Z;
  iw_revision : string;
  iw_entries : list EntryWire;
}.

Definition hex_digit (d : Z) : ascii := ascii_of_N (Z.to_N (if d <? 10 then 48 + d else 87 + d)).

(** [format!("{:0n$x}", z)] of a number of at most [n] digits. *)
Fixpoint hex_fixed (n : nat) (z : Z) (acc : string) : string :=
  match n with
  | O => acc
  | S n => hex_fixed n (z / 16) (String (hex_digit (z mod 16)) acc)
  end.

Definition hex_value (b : Z) : Z := if b <=? 57 then b - 48 else b - 87.

(** [from_str_radix(value, 16)] of lower-case digits that fit. *)
Definition from_lower_hex (value : string) : Z :=
  fold_left (fun acc b => acc * 16 + hex_value b) (bytes_of value) 0.

Definition parse_fixed_lower_hex (width : Z) (value : string) : outcome OwnershipFailure Z :=
  let? _ := guard (negb (len value =? width) || negb (all_lower_hex value)) OwnershipConflict in
  Ok (from_lower_hex value).

Definition identity_wire (i : FileIdentity) : FileIdentityWire :=
  {| fw_volume := hex_fixed 16 (volume i) ""; fw_object := hex_fixed 32 (object i) "" |}.
Definition identity_of_wire (w : FileIdentityWire) : outcome OwnershipFailure FileIdentity :=
  let? v := parse_fixed_lower_hex 16 (fw_volume w) in
  let? o := parse_fixed_lower_hex 32 (fw_object w) in
  Ok {| volume := v; object := o |}.

Definition parse_sha256 (value : string) : outcome OwnershipFailure string :=
  let? _ := guard (negb (len value =? 64) || negb (all_lower_hex value)) OwnershipConflict in
  Ok value.

Definition entry_wire (e : ManagedOwnershipEntryV1) : EntryWire :=
  {| ew_receipt_id := en_receipt_id e;
     ew_lifecycle := match en_lifecycle e with
                     | Managed => LifecycleManaged | Removing _ => LifecycleRemoving end;
     ew_package_slot := en_package_slot e; ew_removal_slot := removal_slot e;
     ew_plugin_id := en_plugin_id e; ew_source := en_source e;
     ew_publisher_id := en_publisher_id e; ew_approval_fingerprint := en_approval_fingerprint e;
     ew_receipt_sha256 := en_receipt_sha256 e;
     ew_directory_identity := identity_wire (en_directory_identity e);
     ew_manifest_identity := identity_wire (en_manifest_identity e);
     ew_receipt_identity := identity_wire (en_receipt_identity e) |}.

Definition index_wire (i : ManagedOwnershipIndexV1) : IndexWire :=
  {| iw_schema_version := ix_schema_version i; iw_revision := decimal_serialize (ix_revision i);
     iw_entries := map entry_wire (ix_entries i) |}.

Definition lifecycle_of_wire (w : EntryWire) : outcome OwnershipFailure OwnershipLifecycleV1 :=
  match ew_lifecycle w, ew_removal_slot w with
  | LifecycleManaged, None => Ok Managed
  | LifecycleRemoving, Some slot => let? slot := RemovalSlot_parse slot in Ok (Removing slot)
  | _, _ => Err OwnershipConflict
  end.

Section Ownership.
Context `{UuidV4Lib}.

Definition entry_validate (e : ManagedOwnershipEntryV1) : outcome OwnershipFailure unit :=
  let? _ := guard (bool_decide (en_source e <> LocalDeclarative)
                   || negb (valid_local_fingerprint (en_approval_fingerprint e)))
              OwnershipConflict in
  let? _ := validate_uuid_v4_simple (en_receipt_id e) in
  let? _ := validate_prefixed_slot (en_package_slot e) PACKAGE_SLOT_PREFIX in
  match removal_slot e with
  | Some slot => validate_prefixed_slot slot REMOVAL_SLOT_PREFIX
  | None => Ok tt
  end.

(** [TryFrom<EntryWireDto>]. *)
Definition entry_of_wire (w : EntryWire) : outcome OwnershipFailure ManagedOwnershipEntryV1 :=
  let? lifecycle := lifecycle_of_wire w in
  let? digest := parse_sha256 (ew_receipt_sha256 w) in
  let? receipt_id := ReceiptId_parse (ew_receipt_id w) in
  let? package_slot := PackageSlot_parse (ew_package_slot w) in
  let? directory := identity_of_wire (ew_directory_identity w) in
  let? manifest := identity_of_wire (ew_manifest_identity w) in
  let? receipt := identity_of_wire (ew_receipt_identity w) in
  let e :=
    {| en_receipt_id := receipt_id; en_lifecycle := lifecycle; en_package_slot := package_slot;
       en_plugin_id := ew_plugin_id w; en_source := ew_source w;
       en_publisher_id := ew_publisher_id w;
       en_approval_fingerprint := ew_approval_fingerprint w; en_receipt_sha256 := digest;
       en_directory_identity := directory; en_manifest_identity := manifest;
       en_receipt_identity := receipt |} in
  let? _ := entry_validate e in
  Ok e.

(** What the loop of [validate] has seen. *)
Record Seen := {
  seen_receipts : list string;
  seen_packages : list string;
  seen_removals : list string;
  seen_plugins : list (string * PluginSource);
  seen_objects : list FileIdentity;
}.

Definition object_identities (e : ManagedOwnershipEntryV1) : list FileIdentity :=
  [en_directory_identity e; en_manifest_identity e; en_receipt_identity e].

(** [BTreeSet::insert] of each: true where one was there. *)
Fixpoint repeats (seen xs : list FileIdentity) : bool :=
  match xs with
  | [] => false
  | x :: rest => bool_decide (x ∈ seen) || repeats (x :: seen) rest
  end.

Fixpoint validate_index_entries (previous : option string) (s : Seen)
    (es : list ManagedOwnershipEntryV1) : outcome OwnershipFailure unit :=
  match es with
  | [] => Ok tt
  | e :: rest =>
      let? _ := entry_validate e in
      let? _ := guard (is_some_and (fun p => String.leb (en_receipt_id e) p) previous)
                  OwnershipConflict in
      let? _ := guard (bool_decide (en_receipt_id e ∈ seen_receipts s)
                       || bool_decide (en_package_slot e ∈ seen_packages s)
                       || bool_decide ((en_plugin_id e, en_source e) ∈ seen_plugins s))
                  OwnershipConflict in
      let? _ := guard (is_some_and (fun slot => bool_decide (slot ∈ seen_removals s))
                         (removal_slot e)) OwnershipConflict in
      let? _ := guard (repeats (seen_objects s) (object_identities e)) OwnershipConflict in
      validate_index_entries (Some (en_receipt_id e))
        {| seen_receipts := en_receipt_id e :: seen_receipts s;
           seen_packages := en_package_slot e :: seen_packages s;
           seen_removals := (option_list (removal_slot e) ++ seen_removals s)%list;
           seen_plugins := (en_plugin_id e, en_source e) :: seen_plugins s;
           seen_objects := (rev (object_identities e) ++ seen_objects s)%list |} rest
  end.

Definition nothing_seen : Seen :=
  {| seen_receipts := []; seen_packages := []; seen_removals := []; seen_plugins := [];
     seen_objects := [] |}.

Definition index_validate (i : ManagedOwnershipIndexV1) : outcome OwnershipFailure unit :=
  let? _ := guard (negb (ix_schema_version i =? OWNERSHIP_SCHEMA_VERSION_V1)) OwnershipConflict in
  let? _ := guard (MAX_MANAGED_OWNERSHIP_ENTRIES <? Z.of_nat (length (ix_entries i)))
              OwnershipCapacityExceeded in
  validate_index_entries None nothing_seen (ix_entries i).

(** [map(try_from).collect::<Result<Vec<_>, _>>()]. *)
Fixpoint entries_of_wire (ws : list EntryWire)
    : outcome OwnershipFailure (list ManagedOwnershipEntryV1) :=
  match ws with
  | [] => Ok []
  | w :: rest =>
      let? e := entry_of_wire w in
      let? es := entries_of_wire rest in
      Ok (e :: es)
  end.

Context `{Codec IndexWire} `{ObjectReader}.

(** [serde_json::from_slice::<ManagedOwnershipIndexV1>]. *)
Definition index_from_slice (bytes : string) : option ManagedOwnershipIndexV1 :=
  w ← decode bytes;
  revision ← decimal_deserialize (iw_revision w);
  if forallb (fun e => is_ok (validate_reverse_domain (ew_plugin_id e))
                       && is_ok (validate_reverse_domain (ew_publisher_id e))) (iw_entries w)
  then es ← ok_of (entries_of_wire (iw_entries w));
       let i := {| ix_schema_version := iw_schema_version w; ix_revision := revision;
                   ix_entries := es |} in
       if is_ok (index_validate i) then Some i else None
  else None.

Definition index_parse (bytes : string) : outcome OwnershipFailure ManagedOwnershipIndexV1 :=
  let? _ := guard (MAX_MANAGED_OWNERSHIP_BYTES <? len bytes) OwnershipCapacityExceeded in
  let? i := ok_or OwnershipConflict (index_from_slice bytes) in
  let? _ := index_validate i in
  Ok i.

Definition serialize_unchecked (i : ManagedOwnershipIndexV1) : outcome OwnershipFailure string :=
  ok_or OwnershipPersistFailed (encode (index_wire i)).

Definition index_bytes (i : ManagedOwnershipIndexV1) : outcome OwnershipFailure string :=
  let? _ := index_validate i in
  let? bytes := serialize_unchecked i in
  let? _ := guard (MAX_MANAGED_OWNERSHIP_BYTES <? len bytes) OwnershipCapacityExceeded in
  Ok bytes.

Definition index_validate_for_persistence (i : ManagedOwnershipIndexV1)
    : outcome OwnershipFailure unit :=
  let? _ := index_validate i in
  let? bytes := serialize_unchecked i in
  guard (MAX_MANAGED_OWNERSHIP_BYTES <? len bytes) OwnershipCapacityExceeded.

(** ** Operations of the index *)

Definition finish_changed (next previous : ManagedOwnershipIndexV1)
    : outcome OwnershipFailure ManagedOwnershipIndexV1 :=
  let next := with_entries (merge_sort receipt_le (ix_entries next)) next in
  let? _ := index_validate_for_persistence next in
  if bool_decide (ix_entries next = ix_entries previous) then Ok previous
  else let? revision := ok_or OwnershipRevisionExhausted
                          (u64_checked_add (ix_revision previous) 1) in
       Ok (with_revision revision next).

Definition index_register (entry : ManagedOwnershipEntryV1) (i : ManagedOwnershipIndexV1)
    : outcome OwnershipFailure ManagedOwnershipIndexV1 :=
  if existsb (fun current => same current entry) (ix_entries i) then Ok i
  else finish_changed (with_entries (ix_entries i ++ [entry])%list i) i.

Definition index_begin_removal (receipt slot : string) (i : ManagedOwnershipIndexV1)
    : outcome OwnershipFailure ManagedOwnershipIndexV1 :=
  match find_receipt receipt (ix_entries i) with
  | None => Err OwnershipConflict
  | Some entry =>
      match en_lifecycle entry with
      | Removing current => if current ==s slot then Ok i else Err OwnershipConflict
      | Managed =>
          let? _ := require_revision_headroom 2 i in
          finish_changed
            (with_entries (update_receipt receipt (entry_begin_removal slot) (ix_entries i)) i) i
      end
  end.

Definition index_restore_managed (receipt : string) (i : ManagedOwnershipIndexV1)
    : outcome OwnershipFailure ManagedOwnershipIndexV1 :=
  finish_changed (with_entries (update_receipt receipt entry_restore_managed (ix_entries i)) i) i.

Definition index_remove (receipt : string) (i : ManagedOwnershipIndexV1)
    : outcome OwnershipFailure ManagedOwnershipIndexV1 :=
  finish_changed
    (with_entries (List.filter (fun e => en_receipt_id e !=s receipt) (ix_entries i)) i) i.

(** The sizing slot has the width of every slot. *)
Definition preflight_removal_capacity (receipt : string) (i : ManagedOwnershipIndexV1)
    : outcome OwnershipFailure unit :=
  let? _ := ok_or OwnershipConflict (find_receipt receipt (ix_entries i)) in
  let? slot := RemovalSlot_parse "remove-00000000000040008000000000000000" in
  let next := with_revision (u64_saturating_add (ix_revision i) 1)
                (with_entries (update_receipt receipt (entry_begin_removal slot) (ix_entries i)) i) in
  let? _ := guard (MAX_MANAGED_OWNERSHIP_ENTRIES <? Z.of_nat (length (ix_entries next)))
              OwnershipCapacityExceeded in
  let? bytes := serialize_unchecked next in
  let? _ := guard (MAX_MANAGED_OWNERSHIP_BYTES <? len bytes) OwnershipCapacityExceeded in
  let? bytes := serialize_unchecked (with_revision (u64_saturating_add (ix_revision i) 2) i) in
  guard (MAX_MANAGED_OWNERSHIP_BYTES <? len bytes) OwnershipCapacityExceeded.
End Ownership.

(** ** storage/managed_plugin_ownership.rs *)

Record ManagedOwnershipLoad := {
  ol_index : ManagedOwnershipIndexV1;
  ol_requires_rewrite : bool;
}.

Definition store_unavailable : AppError :=
  plugin_error "plugin_ownership_unavailable" "所有权记录暂不可用".

Class ManagedOwnershipPersistence (W : Type) := {
  ownership_load : M W AppError ManagedOwnershipLoad;
  ownership_save : ManagedOwnershipIndexV1 -> M W PersistOutcome PersistOutcome;
}.

Section Store.
Context `{UuidV4Lib} `{Codec IndexWire} `{ObjectReader}.

(** The loop of [load_document]; [position0] is the main file. *)
Fixpoint pick_index (position0 present : bool) (cs : list CandidateBytes)
    : outcome AppError (option ManagedOwnershipLoad) :=
  match cs with
  | [] => if present then Err store_unavailable else Ok None
  | Missing :: rest => pick_index false present rest
  | Oversized :: rest => if position0 then Err store_unavailable else pick_index false true rest
  | Bounded bytes :: rest =>
      if is_some_and (fun schema => 1 <? schema) (schema_from_slice bytes)
      then Err store_unavailable
      else match index_parse bytes with
           | Ok index => Ok (Some {| ol_index := index; ol_requires_rewrite := negb position0 |})
           | Err _ => pick_index false true rest
           | Halt h => Halt h
           end
  end.

Context (root : path).

Definition load_document : M fs_world AppError (option ManagedOwnershipLoad) :=
  let* cs := mmap_err (fun _ => store_unavailable)
               (load_candidates root managed_ownership_names MAX_MANAGED_OWNERSHIP_BYTES) in
  mlift (pick_index true false cs).

Definition ownership_store_load : M fs_world AppError ManagedOwnershipLoad :=
  let* found := load_document in
  mret (default {| ol_index := empty_index; ol_requires_rewrite := false |} found).

Definition ownership_store_save (i : ManagedOwnershipIndexV1)
    : M fs_world PersistOutcome PersistOutcome :=
  let* loaded := mmap_err (fun _ => NotCommitted) load_document in
  let* previous := mlift match loaded with
                         | Some l => let? b := omap_err (fun _ => NotCommitted)
                                                 (index_bytes (ol_index l)) in Ok (Some b)
                         | None => Ok None
                         end in
  let* next := mlift (omap_err (fun _ => NotCommitted) (index_bytes i)) in
  persist_document root managed_ownership_names MAX_MANAGED_OWNERSHIP_BYTES previous next.

Definition ManagedOwnershipStore : ManagedOwnershipPersistence fs_world :=
  {| ownership_load := ownership_store_load; ownership_save := ownership_store_save |}.
End Store.

(** ** The runtime of the index *)

Inductive OwnershipRuntime :=
| OAvailable (index : ManagedOwnershipIndexV1) (requires_rewrite : bool)
| OUnavailable.
#[export] Instance OwnershipRuntime_eq_dec : EqDecision OwnershipRuntime.
Proof. solve_decision. Defined.

Definition ownership_requires_retry (o : OwnershipRuntime) : bool :=
  match o with OAvailable _ false => false | _ => true end.
Definition ownership_entries (o : OwnershipRuntime) : option (list ManagedOwnershipEntryV1) :=
  match o with OAvailable index _ => Some (ix_entries index) | OUnavailable => None end.

(** The outcome of a save, committed or not, reported or failed. *)
Definition outcome_of {W E} (c : M W PersistOutcome PersistOutcome)
    : M W E (PersistOutcome + PersistOutcome) := mtry c.
Definition persistence_outcome (r : PersistOutcome + PersistOutcome) : PersistOutcome :=
  match r with inl o | inr o => o end.

Section Reconcile.
Context `{SemverLib} `{UuidV4Lib} `{Codec IndexWire}.
Context {W : Type} `{ManagedOwnershipPersistence W}.

Definition matches_package (e : ManagedOwnershipEntryV1) (p : DiscoveredLocalPlugin) : bool :=
  is_some_and (fun r => matches_receipt e (vr_model r) (vr_canonical_sha256 r)
                        && matches_locator e (dp_locator p)
                        && receipt_matches_record (vr_model r) (dp_record p))
    (l_receipt (dp_locator p)).

Definition proves_managed (e : ManagedOwnershipEntryV1) (p : DiscoveredLocalPlugin) : bool :=
  is_none (removal_slot e) && matches_package e p.

Definition entry_managed `{Sha256Lib} `{Codec OwnershipReceiptV1} (r : VerifiedPackageReceipt)
    (record : PluginRecord) (directory manifest : FileIdentity)
    : outcome OwnershipFailure ManagedOwnershipEntryV1 :=
  let? _ := guard (negb (receipt_matches_record (vr_model r) record)) OwnershipConflict in
  let? digest := receipt_sha256 (vr_model r) in
  let? _ := guard (digest !=s vr_canonical_sha256 r) OwnershipConflict in
  let identity := identity_of record in
  let e :=
    {| en_receipt_id := or_receipt_id (vr_model r); en_lifecycle := Managed;
       en_package_slot := or_package_slot (vr_model r); en_plugin_id := pi_id identity;
       en_source := pi_source identity; en_publisher_id := pi_publisher_id identity;
       en_approval_fingerprint := pi_approval_fingerprint identity;
       en_receipt_sha256 := vr_canonical_sha256 r; en_directory_identity := directory;
       en_manifest_identity := manifest; en_receipt_identity := vr_file_identity r |} in
  let? _ := entry_validate e in
  Ok e.

Definition ownership_initialize {E} : M W E OwnershipRuntime :=
  let* loaded := mtry ownership_load in
  mret match loaded with
       | inr l => if is_ok (index_validate_for_persistence (ol_index l))
                  then OAvailable (ol_index l) (ol_requires_rewrite l) else OUnavailable
       | inl _ => OUnavailable
       end.

(** [OwnershipRuntime::save]: the index to go on with, when the save was
    committed. *)
Definition save_index {E} (next : ManagedOwnershipIndexV1) : M W E bool :=
  let* r := outcome_of (ownership_save next) in
  mret (persist_outcome_committed (persistence_outcome r)).

(** [next.is_ok_and(|next| runtime.save(next.clone()))]: the new index. *)
Definition try_save {E} (allow_writes : bool)
    (next : outcome OwnershipFailure ManagedOwnershipIndexV1)
    : M W E (option ManagedOwnershipIndexV1) :=
  if allow_writes then
    match next with
    | Ok next => let* saved := save_index next in mret (if saved then Some next else None)
    | Err _ => mret None
    | Halt h => mlift (Halt h)
    end
  else mret None.

(** *** Reconciliation of one entry *)

Record Tally := {
  t_index : ManagedOwnershipIndexV1;
  t_conflicts : Z;
  t_rollback : Z;
  t_cleanup : Z;
  t_classes : gmap string PluginManagement;
}.

Definition add_conflict (t : Tally) : Tally :=
  {| t_index := t_index t; t_conflicts := t_conflicts t + 1; t_rollback := t_rollback t;
     t_cleanup := t_cleanup t; t_classes := t_classes t |}.
Definition add_cleanup (t : Tally) : Tally :=
  {| t_index := t_index t; t_conflicts := t_conflicts t; t_rollback := t_rollback t;
     t_cleanup := t_cleanup t + 1; t_classes := t_classes t |}.
Definition add_rollback (id : string) (t : Tally) : Tally :=
  {| t_index := t_index t; t_conflicts := t_conflicts t; t_rollback := t_rollback t + 1;
     t_cleanup := t_cleanup t; t_classes := <[id := MRemovalPending]> (t_classes t) |}.
Definition put_index (i : ManagedOwnershipIndexV1) (t : Tally) : Tally :=
  {| t_index := i; t_conflicts := t_conflicts t; t_rollback := t_rollback t;
     t_cleanup := t_cleanup t; t_classes := t_classes t |}.
Definition class_all (c : PluginManagement) (ps : list DiscoveredLocalPlugin) (t : Tally) : Tally :=
  {| t_index := t_index t; t_conflicts := t_conflicts t; t_rollback := t_rollback t;
     t_cleanup := t_cleanup t;
     t_classes := fold_left (fun m p => <[package_id p := c]> m) ps (t_classes t) |}.

Definition claims (e : ManagedOwnershipEntryV1) (p : DiscoveredLocalPlugin) : bool :=
  (l_package_slot (dp_locator p) ==s en_package_slot e)
  || (package_id p ==s en_plugin_id e)
  || is_some_and (fun r => or_receipt_id (vr_model r) ==s en_receipt_id e)
       (l_receipt (dp_locator p)).

(** The object in the removal slot is what the entry was quarantined as, whole
    or partly deleted. *)
Definition target_matches (e : ManagedOwnershipEntryV1) (o : RemovalObservation) : bool :=
  same (ro_directory_identity o) (en_directory_identity e)
  && let receipt_matches :=
       is_some_and (fun r => same (vr_file_identity r) (en_receipt_identity e)
                             && matches_receipt e (vr_model r) (vr_canonical_sha256 r))
         (ro_receipt o) in
     match ro_shape o with
     | ShapeFull =>
         receipt_matches
         && is_some_and (fun m => same (snd m) (en_manifest_identity e)
                                  && is_some_and (fun r => receipt_matches_record (vr_model r) (fst m))
                                       (ro_receipt o))
              (ro_manifest o)
     | ShapeReceiptOnly => receipt_matches
     | ShapeEmptyDirectory => true
     | ShapeManifestOnly | ShapeUnknown => false
     end.

Definition reconcile_entry {E} (found : LocalDiscoveryOutcome) (allow_writes : bool)
    (e : ManagedOwnershipEntryV1) (t : Tally) : M W E Tally :=
  let claimants := List.filter (claims e) (do_plugins found) in
  if (1 <? length claimants)%nat
  then mret (class_all MOwnershipConflict claimants (add_conflict t))
  else
    let source := List.find (fun p => l_package_slot (dp_locator p) ==s en_package_slot e)
                    (do_plugins found) in
    let source_present :=
      is_some source || bool_decide (en_package_slot e ∈ do_occupied_slots found) in
    match removal_slot e with
    | None => mret (if is_some_and (proves_managed e) source then t else add_conflict t)
    | Some slot =>
        let target_present := bool_decide (slot ∈ rd_occupied_slots (do_removals found)) in
        let target := List.find (fun o => ro_removal_slot o ==s slot)
                        (rd_observations (do_removals found)) in
        match source with
        | Some p =>
            if negb target_present && matches_package e p then
              let* saved := try_save allow_writes (index_restore_managed (en_receipt_id e) (t_index t)) in
              mret match saved with
                   | Some i => put_index i t
                   | None => add_rollback (package_id p) t
                   end
            else mret (add_conflict t)
        | None =>
            if negb source_present && negb target_present then
              let* saved := try_save allow_writes (index_remove (en_receipt_id e) (t_index t)) in
              mret match saved with Some i => put_index i t | None => add_cleanup t end
            else if negb source_present && is_some_and (target_matches e) target
            then mret (add_cleanup t)
            else mret (add_conflict t)
        end
    end.

Fixpoint reconcile_entries {E} (found : LocalDiscoveryOutcome) (allow_writes : bool)
    (es : list ManagedOwnershipEntryV1) (t : Tally) : M W E Tally :=
  match es with
  | [] => mret t
  | e :: rest => let* t := reconcile_entry found allow_writes e t in
                 reconcile_entries found allow_writes rest t
  end.

(** *** Classes of the packages *)

(** The first entry that speaks of a package with a receipt. *)
Definition entry_for (i : ManagedOwnershipIndexV1) (p : DiscoveredLocalPlugin)
    (r : VerifiedPackageReceipt) : option ManagedOwnershipEntryV1 :=
  List.find (fun e => (en_package_slot e ==s l_package_slot (dp_locator p))
                      || (en_receipt_id e ==s or_receipt_id (vr_model r))
                      || (en_plugin_id e ==s package_id p)) (ix_entries i).

Definition classify (i : ManagedOwnershipIndexV1) (classes : gmap string PluginManagement)
    (p : DiscoveredLocalPlugin) : PluginManagement :=
  match l_receipt (dp_locator p) with
  | None => MExternal
  | Some r =>
      match classes !! package_id p with
      | Some c => c
      | None => match entry_for i p r with
                | None => MExternal
                | Some e => if proves_managed e p then MManaged else MOwnershipConflict
                end
      end
  end.

Definition classify_all (i : ManagedOwnershipIndexV1) (ps : list DiscoveredLocalPlugin)
    (classes : gmap string PluginManagement) : gmap string PluginManagement :=
  fold_left (fun m p => <[package_id p := classify i m p]> m) ps classes.

Definition unavailable_classes (found : LocalDiscoveryOutcome) : gmap string PluginManagement :=
  fold_left (fun m p => <[package_id p := if is_some (l_receipt (dp_locator p))
                                          then MOwnershipUnavailable else MExternal]> m)
    (do_plugins found) ∅.

Definition Reconciled : Type :=
  OwnershipRuntime * gmap string PluginManagement * ManagedOwnershipSummary.

Definition not_reconciled (o : OwnershipRuntime) (found : LocalDiscoveryOutcome) : Reconciled :=
  (o, unavailable_classes found, ownership_unavailable).

Definition orphans (i : ManagedOwnershipIndexV1) (found : LocalDiscoveryOutcome) : Z :=
  Z.of_nat (length (List.filter
    (fun slot => negb (existsb (fun e => same (removal_slot e) (Some slot)) (ix_entries i)))
    (rd_occupied_slots (do_removals found)))).

(** Sum up what the loop counted. *)
Definition summed_up (found : LocalDiscoveryOutcome) (t : Tally) : Reconciled :=
  let runtime := OAvailable (t_index t) false in
  match (if orphans (t_index t) found <=? u32_max then
           count ← u32_checked_add (t_conflicts t) (rd_unknown_entry_count (do_removals found));
           u32_checked_add count (orphans (t_index t) found)
         else None) with
  | None => not_reconciled runtime found
  | Some conflicts =>
      (runtime, classify_all (t_index t) (do_plugins found) (t_classes t),
       ownership_counts conflicts (t_rollback t) (t_cleanup t))
  end.

(** [reconcile_loaded] of an index that needs no rewrite. *)
Definition reconcile_settled {E} (index : ManagedOwnershipIndexV1) (found : LocalDiscoveryOutcome)
    (allow_writes : bool) : M W E Reconciled :=
  let* t := reconcile_entries found allow_writes (ix_entries index)
              {| t_index := index; t_conflicts := 0; t_rollback := 0; t_cleanup := 0;
                 t_classes := ∅ |} in
  mret (summed_up found t).

Definition reconcile_loaded {E} (o : OwnershipRuntime) (found : LocalDiscoveryOutcome)
    (allow_writes : bool) : M W E Reconciled :=
  if bool_decide (rd_status (do_removals found) = DUnavailable)
     || bool_decide (lds_status (do_summary found) = DUnavailable)
  then mret (not_reconciled o found)
  else match o with
       | OUnavailable => mret (not_reconciled o found)
       | OAvailable index false => reconcile_settled index found allow_writes
       | OAvailable index true =>
           (* classified once without writes; that classification is dropped *)
           let* _ := reconcile_settled index found false in
           let* saved := if allow_writes then save_index index else mret false in
           if saved then reconcile_settled index found allow_writes
           else mret (not_reconciled OUnavailable found)
       end.

(** Each authoritative scan loads the index again. *)
Definition reconcile {E} (found : LocalDiscoveryOutcome) (allow_writes : bool) : M W E Reconciled :=
  let* o := ownership_initialize in
  reconcile_loaded o found allow_writes.
End Reconcile.
