(* ===== verification/PluginRegistry.v ===== *)
(** plugin/registry.rs: the registry of plugins.  It keeps the records of the
    catalog, the documents it was built from and the snapshot last published;
    decisions, scans, imports and removals change it.  An operation on
    [&mut self] is a computation over the registry and the world of the two
    stores, so that what it did before an error or a panic stays done. *)
From stdpp Require Import gmap strings.
From S2P Require Import Prelude RustStr External Models BTreeMap Workflow StrategyTypes SafeDocument Supervisor PluginManifest PluginCatalog PluginPackages PluginState PluginOwnership.

(** [std::panic::catch_unwind]: [None] is a panic. *)
Definition mcatch {W E F A} (c : M W E A) : M W F (option (E + A)) :=
  fun w => match c w with
           | (Ok a, w') => (Ok (Some (inr a)), w')
           | (Err e, w') => (Ok (Some (inl e)), w')
           | (Halt Panicked, w') => (Ok None, w')
           | (Halt Crashed, w') => (Halt Crashed, w')
           end.

(** A computation of the world alone, beside a state. *)
Definition beside {S W E A} (c : M W E A) : M (S * W) E A :=
  fun sw => let '(o, w) := c sw.2 in (o, (sw.1, w)).
Definition mget {S W E} : M (S * W) E S := fun sw => (Ok sw.1, sw).
Definition mput {S W E} (s : S) : M (S * W) E unit := fun sw => (Ok tt, (s, sw.2)).

(** Each errors as [f]. *)
Definition or_fail {E F A} (f : F) (x : outcome E A) : outcome F A := omap_err (fun _ => f) x.

Definition runtime_error : AppError := Internal "插件目录请求暂不可用".
Definition catalog_stale : AppError :=
  plugin_error "plugin_catalog_stale" "插件目录已更新，请刷新后重试".
Definition catalog_invalid : AppError := plugin_error "plugin_catalog_invalid" "插件目录无效".
Definition generation_exhausted : AppError :=
  plugin_error "plugin_catalog_generation_exhausted" "插件目录版本已达上限".
Definition state_persist_failed : AppError :=
  plugin_error "plugin_state_persist_failed" "插件状态保存失败".

Inductive Runtime :=
| RAvailable (state : PluginStateFileV2) (requires_rewrite : bool)
| RUnavailable (reason : PluginAvailabilityReason).
#[export] Instance Runtime_eq_dec : EqDecision Runtime.
Proof. solve_decision. Defined.

(** ** The order of the entries of the state document *)

Definition source_rank (s : PluginSource) : Z :=
  match s with BuiltIn => 0 | LocalDeclarative => 1 end.

(** [Ord] on the tuple of the fields. *)
Definition entry_compare (a b : PluginStateEntryV2) : comparison :=
  match String.compare (e_id a) (e_id b) with
  | Eq =>
      match source_rank (e_source a) ?= source_rank (e_source b) with
      | Eq =>
          match String.compare (e_publisher_id a) (e_publisher_id b) with
          | Eq => String.compare (e_approval_fingerprint a) (e_approval_fingerprint b)
          | c => c
          end
      | c => c
      end
  | c => c
  end.
Definition entry_le (a b : PluginStateEntryV2) : Prop := entry_compare a b <> Gt.
#[export] Instance entry_le_dec : RelDecision entry_le.
Proof. intros a b. unfold entry_le, Decision. destruct (entry_compare a b); (by left) || (right; by intros []). Defined.

Definition sort_state_entries (es : list PluginStateEntryV2) : list PluginStateEntryV2 :=
  merge_sort entry_le es.

Definition set_entries (es : list PluginStateEntryV2) (s : PluginStateFileV2) : PluginStateFileV2 :=
  {| f_schema_version := f_schema_version s; f_revision := f_revision s; f_entries := es |}.
Definition set_revision (revision : Z) (s : PluginStateFileV2) : PluginStateFileV2 :=
  {| f_schema_version := f_schema_version s; f_revision := revision; f_entries := f_entries s |}.

Inductive BeforeDisabledFailure :=
| BCatalogStale | BCatalogInvalid | BCatalogGenerationExhausted | BStateUnavailable
| BStatePersistFailed | BStateCapacityExceeded | BRevisionExhausted | BOwnershipUnavailable
| BOwnershipCapacityExceeded | BOwnershipRevisionExhausted | BOwnershipConflict
| BDiscoveryUnavailable | BNotManaged | BRequiresDisabled | BStorageUnavailable
| BIdentityChanged | BStagingCapacityExceeded.
#[export] Instance BeforeDisabledFailure_eq_dec : EqDecision BeforeDisabledFailure.
Proof. solve_decision. Defined.

(** import.rs *)
Inductive ImportCommitFailure :=
| ICatalogStale | ICatalogInvalid | ICatalogGenerationExhausted | IStateUnavailable
| IStatePersistFailed | IStateCapacityExceeded | IRevisionExhausted | IOwnershipUnavailable
| IOwnershipCapacityExceeded | IOwnershipRevisionExhausted | IIdConflict
| IDiscoveryUnavailable | ICapacityExceeded | IStagingCapacityExceeded | IWriteFailed.
#[export] Instance ImportCommitFailure_eq_dec : EqDecision ImportCommitFailure.
Proof. solve_decision. Defined.

Record StateDecisionFailure := {
  sd_error : AppError;
  sd_persist_outcome : PersistOutcome;
}.
(** [From<AppError>]. *)
Definition undecided (e : AppError) : StateDecisionFailure :=
  {| sd_error := e; sd_persist_outcome := NotCommitted |}.

Record OwnershipMutationFailure := {
  om_failure : OwnershipFailure;
  om_persist_outcome : PersistOutcome;
}.

Section Registry.
Context `{SemverLib} `{Codec json} `{Base64Lib} `{Codec PluginManifest} `{Sha256Lib}.
Context `{UuidV4Lib} `{Codec OwnershipReceiptV1} `{Codec IndexWire} `{Codec StateWire}.

Record CatalogPublicationCandidate := {
  locals : gmap string PluginRecord;
  locators : gmap string LocalPackageLocator;
  management : gmap string PluginManagement;
  local_summary : LocalDiscoverySummary;
  ownership_summary : ManagedOwnershipSummary;
  discovery : LocalDiscoveryOutcome;
  catalog_generation : Z;
  runtime : Runtime;
  ownership : OwnershipRuntime;
  snapshot : PluginCatalogSnapshot;
}.

Record PluginRegistry := {
  builtins : gmap string PluginRecord;
  publication : CatalogPublicationCandidate;
  removal_authority_unreconciled : bool;
}.

(** *** Fields replaced one at a time *)

Definition with_snapshot (s : PluginCatalogSnapshot) (p : CatalogPublicationCandidate)
    : CatalogPublicationCandidate :=
  {| locals := locals p; locators := locators p; management := management p;
     local_summary := local_summary p; ownership_summary := ownership_summary p;
     discovery := discovery p; catalog_generation := catalog_generation p;
     runtime := runtime p; ownership := ownership p; snapshot := s |}.
Definition with_runtime (r : Runtime) (p : CatalogPublicationCandidate)
    : CatalogPublicationCandidate :=
  {| locals := locals p; locators := locators p; management := management p;
     local_summary := local_summary p; ownership_summary := ownership_summary p;
     discovery := discovery p; catalog_generation := catalog_generation p;
     runtime := r; ownership := ownership p; snapshot := snapshot p |}.
Definition with_ownership (o : OwnershipRuntime) (p : CatalogPublicationCandidate)
    : CatalogPublicationCandidate :=
  {| locals := locals p; locators := locators p; management := management p;
     local_summary := local_summary p; ownership_summary := ownership_summary p;
     discovery := discovery p; catalog_generation := catalog_generation p;
     runtime := runtime p; ownership := o; snapshot := snapshot p |}.
Definition with_generation (g : Z) (p : CatalogPublicationCandidate)
    : CatalogPublicationCandidate :=
  {| locals := locals p; locators := locators p; management := management p;
     local_summary := local_summary p; ownership_summary := ownership_summary p;
     discovery := discovery p; catalog_generation := g; runtime := runtime p;
     ownership := ownership p;
     snapshot :=
       {| s_schema_version := s_schema_version (snapshot p);
          s_revision := s_revision (snapshot p); s_catalog_generation := u64_to_string g;
          s_availability := s_availability (snapshot p);
          s_availability_reason_code := s_availability_reason_code (snapshot p);
          s_local_discovery := s_local_discovery (snapshot p);
          s_managed_ownership := s_managed_ownership (snapshot p);
          s_plugins := s_plugins (snapshot p) |} |}.
Definition with_publication (p : CatalogPublicationCandidate) (r : PluginRegistry)
    : PluginRegistry :=
  {| builtins := builtins r; publication := p;
     removal_authority_unreconciled := removal_authority_unreconciled r |}.
Definition with_unreconciled (b : bool) (r : PluginRegistry) : PluginRegistry :=
  {| builtins := builtins r; publication := publication r;
     removal_authority_unreconciled := b |}.

(** ** Entries and records *)

Definition entry_of (record : PluginRecord) (enabled : bool) : PluginStateEntryV2 :=
  let identity := identity_of record in
  {| e_id := pi_id identity; e_source := pi_source identity;
     e_publisher_id := pi_publisher_id identity;
     e_approval_fingerprint := pi_approval_fingerprint identity; e_enabled := enabled |}.

(** All prior identities of the record's identifier and source go. *)
Definition retain_others (record : PluginRecord) (es : list PluginStateEntryV2)
    : list PluginStateEntryV2 :=
  List.filter (fun e => (e_id e !=s pi_id (identity_of record))
                        || negb (same (e_source e) (pi_source (identity_of record)))) es.

Definition matches_identity (e : PluginStateEntryV2) (record : PluginRecord) : bool :=
  let identity := identity_of record in
  (e_id e ==s pi_id identity) && same (e_source e) (pi_source identity)
  && (e_publisher_id e ==s pi_publisher_id identity)
  && (e_approval_fingerprint e ==s pi_approval_fingerprint identity).

Definition is_enabled (s : PluginStateFileV2) (record : PluginRecord) : bool :=
  existsb (fun e => matches_identity e record && e_enabled e) (f_entries s).

Definition catalog_item (record : PluginRecord) (enabled : bool) : PluginCatalogItem :=
  if enabled then item_enabled (pr_manifest record) (pr_source record)
  else item_disabled (pr_manifest record) (pr_source record).

Definition removal_disabled_candidate (s : PluginStateFileV2) (record : PluginRecord)
    : PluginStateFileV2 :=
  set_revision (u64_saturating_add (f_revision s) 1)
    (set_entries
       (sort_state_entries (retain_others record (f_entries s) ++ [entry_of record false])%list) s).

Definition management_for_record (p : CatalogPublicationCandidate) (record : PluginRecord)
    : PluginManagement :=
  match pr_source record with
  | BuiltIn => MBuiltIn
  | LocalDeclarative => default MExternal (management p !! record_id record)
  end.

(** ** The snapshot of a publication *)

(** [builtins.chain(locals).collect::<BTreeMap<_, _>>().into_values()]. *)
Definition catalog_records (b : gmap string PluginRecord) (p : CatalogPublicationCandidate)
    : list PluginRecord := sm_values (locals p ∪ b).

Definition snapshot_item (p : CatalogPublicationCandidate) (record : PluginRecord)
    : PluginCatalogItem :=
  with_management
    match runtime p with
    | RAvailable s _ => catalog_item record (is_enabled s record)
    | RUnavailable reason => item_blocked (pr_manifest record) (pr_source record) reason
    end (management_for_record p record).

Definition derive_snapshot (b : gmap string PluginRecord) (p : CatalogPublicationCandidate)
    : PluginCatalogSnapshot :=
  let '(revision, availability, reason) :=
    match runtime p with
    | RAvailable s _ => (f_revision s, CatalogAvailable, None)
    | RUnavailable reason => (0, CatalogUnavailable, Some reason)
    end in
  new_snapshot (u64_to_string revision) (u64_to_string (catalog_generation p)) availability reason
    (local_summary p) (ownership_summary p) (map (snapshot_item p) (catalog_records b p)).

Definition catalog_snapshot (r : PluginRegistry) : PluginCatalogSnapshot :=
  snapshot (publication r).
Definition registry_generation (r : PluginRegistry) : Z := catalog_generation (publication r).

(** The items differ in number or in what only a scan changes. *)
Fixpoint structures_differ (xs ys : list PluginCatalogItem) : bool :=
  match xs, ys with
  | x :: xs, y :: ys => negb (same_structure x y) || structures_differ xs ys
  | _, _ => false
  end.

Definition structural (next old : CatalogPublicationCandidate) (first_scan : bool) : bool :=
  negb (same (locals next) (locals old)) || negb (same (locators next) (locators old))
  || negb (same (management next) (management old))
  || negb (same (local_summary next) (local_summary old))
  || negb (same (ownership_summary next) (ownership_summary old))
  || negb (same (ownership_entries (ownership next)) (ownership_entries (ownership old)))
  || negb (same (do_occupied_slots (discovery next)) (do_occupied_slots (discovery old)))
  || negb (same (rd_observations (do_removals (discovery next)))
             (rd_observations (do_removals (discovery old))))
  || negb (same (rd_occupied_slots (do_removals (discovery next)))
             (rd_occupied_slots (do_removals (discovery old))))
  || negb (same (s_availability (snapshot next)) (s_availability (snapshot old)))
  || negb (same (s_availability_reason_code (snapshot next))
             (s_availability_reason_code (snapshot old)))
  || negb (length (s_plugins (snapshot next)) =? length (s_plugins (snapshot old)))%nat
  || structures_differ (s_plugins (snapshot next)) (s_plugins (snapshot old))
  || ((s_revision (snapshot next) ==s s_revision (snapshot old))
      && negb (same (snapshot next) (snapshot old)))
  || (first_scan && (catalog_generation old =? 0)).

(** [publish_candidate]: the registry with the candidate published, and
    whether the snapshot changed. *)
Definition publish_candidate (r : PluginRegistry) (next : CatalogPublicationCandidate)
    (first_scan : bool) : outcome AppError (PluginRegistry * bool) :=
  let old := publication r in
  let next := with_snapshot (derive_snapshot (builtins r) next) next in
  let? next :=
    if structural next old first_scan then
      let? g := ok_or generation_exhausted (u64_checked_add (catalog_generation old) 1) in
      Ok (with_generation g next)
    else Ok next in
  Ok (with_publication next r, negb (same (snapshot next) (snapshot old))).

(** ** Reconciled publications *)

(** The packages that no built-in plugin hides, and the count of the others. *)
Definition visible_packages (b : gmap string PluginRecord) (ps : list DiscoveredLocalPlugin)
    : list DiscoveredLocalPlugin * Z :=
  (List.filter (fun p => is_none (b !! package_id p)) ps,
   Z.of_nat (length (List.filter (fun p => is_some (b !! package_id p)) ps))).

(** The publication after a scan was reconciled with the index. *)
Definition reconciled_publication (b : gmap string PluginRecord)
    (p : CatalogPublicationCandidate) (found : LocalDiscoveryOutcome) (r : Reconciled)
    : CatalogPublicationCandidate :=
  let '(o, classes, summary) := r in
  let '(visible, collisions) := visible_packages b (do_plugins found) in
  let records := fold_left (fun m d => <[package_id d := dp_record d]> m) visible ∅ in
  {| locals := records;
     locators := fold_left (fun m d => <[package_id d := dp_locator d]> m) visible ∅;
     management := filter (fun kv => is_Some (records !! kv.1)) classes;
     local_summary := with_additional_rejections (do_summary found) collisions;
     ownership_summary := summary; discovery := found;
     catalog_generation := catalog_generation p; runtime := runtime p; ownership := o;
     snapshot := snapshot p |}.

Section World.
Context {W : Type} `{PluginStatePersistence W} `{ManagedOwnershipPersistence W}.

(** Operations that may change the registry. *)
Definition Reg (E A : Type) : Type := M (PluginRegistry * W) E A.

(** ** Start *)

(** The loop over the built-in manifests; [None] where one is invalid. *)
Fixpoint collect_builtins (ms : list PluginManifest) (acc : gmap string PluginRecord)
    : option (gmap string PluginRecord) :=
  match ms with
  | [] => Some acc
  | m :: rest =>
      match built_in m with
      | Ok record =>
          if is_none (acc !! record_id record)
          then collect_builtins rest (<[record_id record := record]> acc) else None
      | _ => None
      end
  end.

Definition loaded_runtime (r : AppError + PluginStateLoad) : Runtime :=
  match r with
  | inr l => if is_ok (state_validate (pl_state l))
             then RAvailable (pl_state l) (pl_requires_rewrite l) else RUnavailable ForState
  | inl _ => RUnavailable ForState
  end.

Definition nothing_found : LocalDiscoveryOutcome :=
  {| do_plugins := []; do_occupied_slots := []; do_removals := removals_available;
     do_summary := summary_available; do_usage := None |}.

Definition initialize {E} (manifests : list PluginManifest) : M W E PluginRegistry :=
  let* o := ownership_initialize in
  let collected := collect_builtins manifests ∅ in
  let* runtime := match collected with
                  | None => mret (RUnavailable ForCatalog)
                  | Some _ => let* l := mtry state_load in mret (loaded_runtime l)
                  end in
  let b := default ∅ collected in
  let summary := if ownership_requires_retry o then ownership_unavailable
                 else ownership_available in
  let p :=
    {| locals := ∅; locators := ∅; management := ∅; local_summary := summary_available;
       ownership_summary := summary; discovery := nothing_found; catalog_generation := 0;
       runtime := runtime; ownership := o;
       snapshot := new_snapshot "0" "0" CatalogAvailable None summary_available summary [] |} in
  mret {| builtins := b; publication := with_snapshot (derive_snapshot b p) p;
          removal_authority_unreconciled := false |}.

(** ** The state document again *)

Definition state_requires_retry (r : PluginRegistry) : bool :=
  match runtime (publication r) with RUnavailable ForState => true | _ => false end.

(** [load_state_if_needed]: the candidate, and an error where the load
    panicked. *)
Definition load_state_if_needed {E} (next : CatalogPublicationCandidate)
    : M W E (CatalogPublicationCandidate * outcome AppError unit) :=
  match runtime next with
  | RUnavailable ForState =>
      let* loaded := mcatch state_load in
      mret match loaded with
           | None => (next, Err runtime_error)
           | Some (inr l) =>
               if is_ok (state_validate (pl_state l))
               then (with_runtime (RAvailable (pl_state l) (pl_requires_rewrite l)) next, Ok tt)
               else (next, Ok tt)
           | Some (inl _) => (next, Ok tt)
           end
  | _ => mret (next, Ok tt)
  end.

Definition retry_state_load {E} : Reg E unit :=
  let* r := mget in
  let* (next, retried) := beside (load_state_if_needed (publication r)) in
  match retried with
  | Ok _ => match publish_candidate r next false with
            | Ok (r, _) => mput r
            | _ => mret tt
            end
  | _ => mret tt
  end.

(** ** Scans *)

Definition scan_available (found : LocalDiscoveryOutcome) : bool :=
  bool_decide (lds_status (do_summary found) <> DUnavailable)
  && bool_decide (rd_status (do_removals found) <> DUnavailable).

Definition apply_local_discovery (found : LocalDiscoveryOutcome) : Reg AppError bool :=
  let* r := mget in
  let next := publication r in
  let* reconciled := beside (reconcile found (negb (catalog_generation next =? u64_max))) in
  let next := reconciled_publication (builtins r) next found reconciled in
  let authority_reconciled :=
    scan_available found && negb (ownership_requires_retry (ownership next)) in
  let* (next, retried) := beside (load_state_if_needed next) in
  let* (r, published) := mlift (publish_candidate r next true) in
  mput (if authority_reconciled then with_unreconciled false r else r) ;;;
  mlift retried ;;;
  mret published.

(** ** Decisions *)

(** The documents of a decision: the next state, and whether there is anything
    to save. *)
Definition next_decision (s : PluginStateFileV2) (requires_rewrite : bool) (record : PluginRecord)
    (enabled : bool) : outcome StateDecisionFailure (option PluginStateFileV2) :=
  let previous_entries := sort_state_entries (f_entries s) in
  let entries := (retain_others record previous_entries ++ [entry_of record enabled])%list in
  let? _ := guard (MAX_PLUGIN_STATE_ENTRIES <? Z.of_nat (length entries))
              (undecided (plugin_error "plugin_state_capacity_exceeded" "插件状态容量已达上限")) in
  let next := set_entries (sort_state_entries entries) s in
  if same next s && negb requires_rewrite then Ok None
  else
    let? next :=
      if negb (same (f_entries next) previous_entries) then
        let? revision := ok_or (undecided (plugin_error "plugin_revision_exhausted" "插件状态版本已达上限"))
                           (u64_checked_add (f_revision s) 1) in
        Ok (set_revision revision next)
      else Ok next in
    let? _ := or_fail (undecided state_persist_failed) (validate_for_persistence next) in
    Ok (Some next).

(** The candidate with a saved state, and its snapshot. *)
Definition decided (r : PluginRegistry) (next : PluginStateFileV2) : PluginRegistry :=
  let p := with_runtime (RAvailable next false) (publication r) in
  with_publication (with_snapshot (derive_snapshot (builtins r) p) p) r.

Definition persist_decision_with_outcome (record : PluginRecord) (enabled : bool)
    : Reg StateDecisionFailure unit :=
  let* r := mget in
  mlift (guard (removal_authority_unreconciled r) (undecided catalog_stale)) ;;;
  match runtime (publication r) with
  | RUnavailable _ => mfail (undecided state_unavailable)
  | RAvailable s requires_rewrite =>
      let* decision := mlift (next_decision s requires_rewrite record enabled) in
      match decision with
      | None => mret tt
      | Some next =>
          let* result := beside (outcome_of (state_save next)) in
          let committed := persist_outcome_committed (persistence_outcome result) in
          mput (if committed then decided r next else r) ;;;
          match result with
          | inr o => if persist_outcome_committed o then mret tt
                     else mfail {| sd_error := state_persist_failed; sd_persist_outcome := o |}
          | inl o => mfail {| sd_error := state_persist_failed; sd_persist_outcome := o |}
          end
      end
  end.

Definition persist_decision (record : PluginRecord) (enabled : bool) : Reg AppError unit :=
  mmap_err sd_error (persist_decision_with_outcome record enabled).

Definition set_enabled (id : string) (enabled : bool) (expected_catalog_generation : string)
    : Reg AppError PluginCatalogMutationResult :=
  let* r := mget in
  let generation := catalog_generation (publication r) in
  mlift (guard (removal_authority_unreconciled r
                || bool_decide (parse_u64 expected_catalog_generation <> Some generation)
                || (expected_catalog_generation !=s u64_to_string generation)) catalog_stale) ;;;
  mlift (or_fail (plugin_error "plugin_invalid_id" "插件标识无效") (validate_reverse_domain id)) ;;;
  mlift (guard (same (runtime (publication r)) (RUnavailable ForCatalog)) catalog_invalid) ;;;
  let* record := mlift (ok_or (plugin_error "plugin_not_found" "插件不存在")
                          match builtins r !! id with
                          | Some record => Some record
                          | None => locals (publication r) !! id
                          end) in
  let m := management_for_record (publication r) record in
  mlift (guard (same m MRemovalPending)
           (plugin_error "plugin_removal_pending" "插件移除回退待处理")) ;;;
  persist_decision record enabled ;;;
  let* r := mget in
  match runtime (publication r) with
  | RAvailable s _ =>
      mret (new_mutation (u64_to_string (f_revision s))
              (u64_to_string (catalog_generation (publication r)))
              (with_management (catalog_item record enabled) m))
  | RUnavailable _ => mlift (Halt Panicked)
  end.

(** ** Removal *)

Record RemovalPreflight := {
  rp_record : PluginRecord;
  rp_locator : LocalPackageLocator;
  rp_entry : ManagedOwnershipEntryV1;
}.

Definition preflight_management (p : CatalogPublicationCandidate) (record : PluginRecord)
    : outcome BeforeDisabledFailure unit :=
  match management_for_record p record with
  | MManaged => Ok tt
  | MOwnershipConflict => Err BOwnershipConflict
  | MOwnershipUnavailable => Err BOwnershipUnavailable
  | _ => Err BNotManaged
  end.

(** The documents of the removal fit and have revisions left. *)
Definition preflight_documents (p : CatalogPublicationCandidate) (s : PluginStateFileV2)
    (index : ManagedOwnershipIndexV1) (record : PluginRecord) (entry : ManagedOwnershipEntryV1)
    : outcome BeforeDisabledFailure unit :=
  let next := removal_disabled_candidate s record in
  let? _ := guard (MAX_PLUGIN_STATE_ENTRIES <? Z.of_nat (length (f_entries next)))
              BStateCapacityExceeded in
  let? bytes := ok_or BStateCapacityExceeded (state_to_vec next) in
  let? _ := guard (MAX_PLUGIN_STATE_BYTES <? len bytes) BStateCapacityExceeded in
  let? _ := or_fail BOwnershipCapacityExceeded
              (preflight_removal_capacity (en_receipt_id entry) index) in
  let? _ := ok_or BCatalogGenerationExhausted (u64_checked_add (catalog_generation p) 1) in
  let? _ := ok_or BRevisionExhausted (u64_checked_add (f_revision s) 1) in
  or_fail BOwnershipRevisionExhausted (require_revision_headroom 2 index).

Definition preflight_removal (r : PluginRegistry) (id expected_generation : string)
    : outcome BeforeDisabledFailure RemovalPreflight :=
  let p := publication r in
  let? _ := guard (removal_authority_unreconciled r
                   || (expected_generation !=s u64_to_string (catalog_generation p)))
              BCatalogStale in
  let? s := match runtime p with
            | RAvailable s _ => Ok s
            | RUnavailable ForCatalog => Err BCatalogInvalid
            | RUnavailable ForState => Err BStateUnavailable
            end in
  let? _ := guard ((catalog_generation p =? 0) || negb (scan_available (discovery p)))
              BDiscoveryUnavailable in
  let? index := match ownership p with
                | OAvailable index false => Ok index
                | _ => Err BOwnershipUnavailable
                end in
  let? _ := guard (is_some (builtins r !! id)) BNotManaged in
  let? record := ok_or BNotManaged (locals p !! id) in
  let? _ := preflight_management p record in
  match List.filter (fun d => package_id d ==s id) (do_plugins (discovery p)) with
  | [package] =>
      let? entry := ok_or BOwnershipConflict
                      (List.find (fun e => proves_managed e package) (ix_entries index)) in
      let? _ := guard (is_enabled s record) BRequiresDisabled in
      let? _ := preflight_documents p s index record entry in
      Ok {| rp_record := record; rp_locator := dp_locator package; rp_entry := entry |}
  | _ => Err BOwnershipConflict
  end.

Definition persist_disabled_before_removal (record : PluginRecord)
    : Reg PersistOutcome PersistOutcome :=
  let* r := mget in
  match runtime (publication r) with
  | RUnavailable _ => mfail NotCommitted
  | RAvailable s _ =>
      let next := removal_disabled_candidate s record in
      let* result := beside (outcome_of (save_before_destructive_rename next)) in
      mput (if persist_outcome_committed (persistence_outcome result)
            then with_publication (with_runtime (RAvailable next false) (publication r)) r else r) ;;;
      match result with inr o => mret o | inl o => mfail o end
  end.

Definition mutate_removal_index
    (mutation : ManagedOwnershipIndexV1 -> outcome OwnershipFailure ManagedOwnershipIndexV1)
    : Reg PersistOutcome PersistOutcome :=
  let* r := mget in
  match ownership (publication r) with
  | OUnavailable => mfail NotCommitted
  | OAvailable index _ =>
      let* next := mlift (or_fail NotCommitted (mutation index)) in
      let* result := beside (outcome_of (ownership_save next)) in
      mput (if persist_outcome_committed (persistence_outcome result)
            then with_publication (with_ownership (OAvailable next false) (publication r)) r else r) ;;;
      match result with inr o => mret o | inl o => mfail o end
  end.

Definition persist_removing (receipt slot : string) : Reg PersistOutcome PersistOutcome :=
  mutate_removal_index (index_begin_removal receipt slot).
Definition rollback_removing (receipt : string) : Reg PersistOutcome PersistOutcome :=
  mutate_removal_index (index_restore_managed receipt).
Definition delete_removed_entry (receipt : string) : Reg PersistOutcome PersistOutcome :=
  mutate_removal_index (index_remove receipt).

Definition removal_discovery_baseline (r : PluginRegistry) : LocalDiscoveryOutcome :=
  discovery (publication r).

Definition build_reconciled_candidate {E} (found : LocalDiscoveryOutcome) : Reg E unit :=
  let* r := mget in
  let p := publication r in
  let* reconciled := beside (reconcile_loaded (ownership p) found false) in
  let p := reconciled_publication (builtins r) p found reconciled in
  mput (with_publication (with_snapshot (derive_snapshot (builtins r) p) p) r).

(** The documents of a candidate, adopted at once. *)
Definition with_documents (candidate r : PluginRegistry) : PluginRegistry :=
  with_publication
    (with_ownership (ownership (publication candidate))
       (with_runtime (runtime (publication candidate)) (publication r))) r.

Definition entries_changed (candidate r : PluginRegistry) : bool :=
  negb (same (ownership_entries (ownership (publication r)))
          (ownership_entries (ownership (publication candidate)))).

Definition adopt_removal_documents (candidate r : PluginRegistry) : PluginRegistry :=
  with_unreconciled (removal_authority_unreconciled r || entries_changed candidate r)
    (with_documents candidate r).

(** [publish_candidate_once]: the registry to put in place of the live one. *)
Definition publish_candidate_once (candidate baseline : PluginRegistry)
    : outcome AppError PluginRegistry :=
  let? (publisher, _) := publish_candidate baseline (publication candidate) false in
  Ok publisher.

(** ** Import *)

Definition validate_import (r : PluginRegistry) (record : PluginRecord) (usage : ScanUsage)
    : outcome ImportCommitFailure unit :=
  let p := publication r in
  let? _ := guard (removal_authority_unreconciled r) ICatalogStale in
  let? _ := match runtime p with
            | RUnavailable ForCatalog => Err ICatalogInvalid
            | RUnavailable ForState => Err IStateUnavailable
            | RAvailable _ _ => Ok tt
            end in
  let? _ := guard (bool_decide (lds_status (local_summary p) <> DAvailable))
              IDiscoveryUnavailable in
  let? _ := guard (is_some (builtins r !! record_id record)
                   || is_some (locals p !! record_id record)) IIdConflict in
  let? bytes := or_fail ICapacityExceeded (record_canonical_bytes record) in
  let? _ := guard (negb (can_add_manifest usage (len bytes))) ICapacityExceeded in
  guard (catalog_generation p =? u64_max) ICatalogGenerationExhausted.

(** The entry the index is measured with. *)
Definition sizing_entry (record : PluginRecord) (receipt : OwnershipReceiptV1)
    : outcome ImportCommitFailure ManagedOwnershipEntryV1 :=
  let? digest := receipt_sha256 receipt in
  or_fail ICatalogInvalid
    (entry_managed
       {| vr_model := receipt; vr_canonical_sha256 := digest;
          vr_file_identity := {| volume := 0; object := 3 |} |}
       record {| volume := 0; object := 1 |} {| volume := 0; object := 2 |}).

(** A receipt and its entry of the widths every import has. *)
Definition validate_index_room (index : ManagedOwnershipIndexV1) (record : PluginRecord)
    (usage : ScanUsage) : outcome ImportCommitFailure unit :=
  let? _ := guard (MAX_MANAGED_OWNERSHIP_ENTRIES <=? Z.of_nat (length (ix_entries index)))
              IOwnershipCapacityExceeded in
  let? _ := or_fail IOwnershipRevisionExhausted (require_revision_headroom 1 index) in
  let? receipt_id := or_panic (ok_of (ReceiptId_parse "550e8400e29b41d4a716446655440000")) in
  let? slot := or_panic (ok_of (PackageSlot_parse "pkg-00000000000000000000000000000000")) in
  let? receipt := or_fail ICatalogInvalid (receipt_new receipt_id slot record) in
  let? r_bytes := or_fail ICapacityExceeded (receipt_bytes receipt) in
  let? m_bytes := or_fail ICapacityExceeded (record_canonical_bytes record) in
  let? _ := guard match (bytes ← usize_checked_add (su_bytes_read usage) (len m_bytes);
                         usize_checked_add bytes (len r_bytes)) with
                  | Some bytes => 2097152 <? bytes
                  | None => true
                  end ICapacityExceeded in
  let? entry := sizing_entry record receipt in
  let? added := or_fail IOwnershipCapacityExceeded
                  (let? index := index_register entry empty_index in index_bytes index) in
  let? none := or_panic (ok_of (index_bytes empty_index)) in
  let? current := or_fail IOwnershipCapacityExceeded (index_bytes index) in
  guard (MAX_MANAGED_OWNERSHIP_BYTES
         <? len current + (len added - len none)
            + (if bool_decide (ix_entries index = []) then 0 else 1) + 1)
    IOwnershipCapacityExceeded.

(** The disabled decision of the import fits and has a revision left. *)
Definition validate_state_room (s : PluginStateFileV2) (record : PluginRecord)
    : outcome ImportCommitFailure unit :=
  let entries := (retain_others record (f_entries s) ++ [entry_of record false])%list in
  let? _ := guard (MAX_PLUGIN_STATE_ENTRIES <? Z.of_nat (length entries)) IStateCapacityExceeded in
  let next := set_entries (sort_state_entries entries) s in
  let? next :=
    if negb (same (f_entries next) (sort_state_entries (f_entries s))) then
      let? revision := ok_or IRevisionExhausted (u64_checked_add (f_revision s) 1) in
      Ok (set_revision revision next)
    else Ok next in
  or_fail IStatePersistFailed (validate_for_persistence next).

Definition validate_managed_import (r : PluginRegistry) (record : PluginRecord)
    (usage : ScanUsage) (expected_generation : string) : outcome ImportCommitFailure unit :=
  let p := publication r in
  let? _ := guard (expected_generation !=s u64_to_string (catalog_generation p)) ICatalogStale in
  let? _ := validate_import r record usage in
  let? index := match ownership p with
                | OAvailable index false => Ok index
                | _ => Err IOwnershipUnavailable
                end in
  let? _ := guard (same (mos_status (ownership_summary p)) DUnavailable) IOwnershipUnavailable in
  let? _ := validate_index_room index record usage in
  match runtime p with
  | RAvailable s _ => validate_state_room s record
  | RUnavailable _ => Halt Panicked
  end.

Definition register_managed_import (entry : ManagedOwnershipEntryV1)
    : Reg OwnershipMutationFailure PersistOutcome :=
  let failure f := {| om_failure := f; om_persist_outcome := NotCommitted |} in
  let* r := mget in
  match ownership (publication r) with
  | OAvailable index false =>
      let* next := mlift (omap_err failure (index_register entry index)) in
      let* result := beside (outcome_of (ownership_save next)) in
      let o := persistence_outcome result in
      mput (if persist_outcome_committed o
            then with_publication (with_ownership (OAvailable next false) (publication r)) r else r) ;;;
      match result with
      | inr o => if persist_outcome_committed o then mret o
                 else mfail {| om_failure := OwnershipPersistFailed; om_persist_outcome := o |}
      | inl o => mfail {| om_failure := OwnershipPersistFailed; om_persist_outcome := o |}
      end
  | _ => mfail (failure OwnershipUnavailable)
  end.

Definition state_changed (a b : Runtime) : bool :=
  match a, b with
  | RAvailable current _, RAvailable next _ => negb (same current next)
  | RUnavailable current, RUnavailable next => negb (same current next)
  | _, _ => true
  end.

Definition adopt_import_documents (candidate r : PluginRegistry) : PluginRegistry :=
  with_unreconciled
    (removal_authority_unreconciled r
     || state_changed (runtime (publication r)) (runtime (publication candidate))
     || entries_changed candidate r)
    (with_documents candidate r).

Definition publish_import_candidate (candidate r : PluginRegistry)
    : outcome AppError PluginRegistry :=
  let? (r, _) := publish_candidate r (publication candidate) false in
  Ok (with_unreconciled (removal_authority_unreconciled candidate) r).

Definition confirms_import_locator (r : PluginRegistry) (record : PluginRecord)
    (locator : LocalPackageLocator) : bool :=
  same (locals (publication r) !! record_id record) (Some record)
  && same (locators (publication r) !! record_id record) (Some locator).

Definition persist_import_disabled (record : PluginRecord) : Reg StateDecisionFailure unit :=
  let* r := mget in
  mlift (guard (bool_decide (pr_source record <> LocalDeclarative)
                || same (runtime (publication r)) (RUnavailable ForCatalog))
           (undecided catalog_invalid)) ;;;
  persist_decision_with_outcome record false.
End World.
End Registry.
Arguments CatalogPublicationCandidate {_}.
Arguments PluginRegistry {_}.
