(* ===== verification/PluginLifecycle.v ===== *)
(** plugin/runtime.rs, plugin/runtime/removal.rs, plugin/runtime/import.rs and
    plugin/removal.rs: what the runtime does to the registry under its gate.
    The gate admits one operation at a time; readers see every registry the
    lock has held, so the state keeps those it held before. *)
From stdpp Require Import gmap strings.
From S2P Require Import Prelude RustStr External Models BTreeMap Workflow StrategyTypes SafeDocument Supervisor PluginManifest PluginCatalog PluginPackages PluginState PluginOwnership PluginRegistry.

(** ** storage/local_plugin_package.rs, storage/local_plugin_import.rs: the
    interfaces to the package files *)

Inductive RemovalStorageFailure :=
| StorageUnavailable | StorageIdentityChanged | StorageStagingCapacityExceeded
| StorageProvenWriteFailure.
#[export] Instance RemovalStorageFailure_eq_dec : EqDecision RemovalStorageFailure.
Proof. solve_decision. Defined.

Record VerifiedQuarantine := {
  vq_entry : ManagedOwnershipEntryV1;
  vq_removal_slot : string;
}.
Inductive QuarantineRenameOutcome :=
| RenameCommitted (evidence : VerifiedQuarantine)
| RenameProvenNotCommitted (failure : RemovalStorageFailure)
| RenameCommitUnconfirmed.
Inductive KnownCleanupShape := KFull | KReceiptOnly | KEmptyDirectory | KBothAbsent.
#[export] Instance KnownCleanupShape_eq_dec : EqDecision KnownCleanupShape.
Proof. solve_decision. Defined.
Inductive CleanupOutcome := CleanupRemoved | CleanupPending (shape : KnownCleanupShape) | CleanupConflict.
#[export] Instance CleanupOutcome_eq_dec : EqDecision CleanupOutcome.
Proof. solve_decision. Defined.

Inductive ImportPromotionState := PromotionNotCommitted | PromotionCommitted | PromotionUnconfirmed.
#[export] Instance ImportPromotionState_eq_dec : EqDecision ImportPromotionState.
Proof. solve_decision. Defined.

Record PromotedManagedPackage := {
  pp_entry : ManagedOwnershipEntryV1;
  pp_locator : LocalPackageLocator;
}.

(** A call that cannot fail, but may panic. *)
Definition infallible {W E A} (c : M W Empty_set A) : M W E A :=
  fun w => match c w with
           | (Ok a, w') => (Ok a, w')
           | (Err e, w') => match e with end
           | (Halt h, w') => (Halt h, w')
           end.

Class PluginDiscovery `{SemverLib} (W : Type) := { discover : M W Empty_set LocalDiscoveryOutcome }.

Class RemovalStorage (W : Type) := {
  Owned : Type;
  owned_slot : Owned -> string;
  prepare_removal : LocalPackageLocator -> ManagedOwnershipEntryV1 -> M W RemovalStorageFailure Owned;
  reverify_before_rename : Owned -> M W RemovalStorageFailure unit;
  quarantine_once : Owned -> M W Empty_set QuarantineRenameOutcome;
  verify_quarantine : Owned -> M W RemovalStorageFailure VerifiedQuarantine;
  cleanup_once : Owned -> M W Empty_set CleanupOutcome;
}.

Class ImportStorage `{SemverLib} (W : Type) := {
  Stage : Type;
  prepare_stage : PluginRecord -> string -> M W ImportCommitFailure Stage;
  promote : Stage -> M W ImportCommitFailure PromotedManagedPackage;
  promotion_state : Stage -> M W Empty_set ImportPromotionState;
  stage_cleanup : Stage -> M W ImportCommitFailure unit;
}.

(** ** removal.rs: results *)

Inductive AfterDisabledFailure := AOwnershipPersistFailed | ARemoveWriteFailed | AIdentityChanged.
#[export] Instance AfterDisabledFailure_eq_dec : EqDecision AfterDisabledFailure.
Proof. solve_decision. Defined.

Definition before_code (f : BeforeDisabledFailure) : string :=
  match f with
  | BCatalogStale => "plugin_catalog_stale"
  | BCatalogInvalid => "plugin_catalog_invalid"
  | BCatalogGenerationExhausted => "plugin_catalog_generation_exhausted"
  | BStateUnavailable => "plugin_state_unavailable"
  | BStatePersistFailed => "plugin_state_persist_failed"
  | BStateCapacityExceeded => "plugin_state_capacity_exceeded"
  | BRevisionExhausted => "plugin_revision_exhausted"
  | BOwnershipUnavailable => "plugin_ownership_unavailable"
  | BOwnershipCapacityExceeded => "plugin_ownership_capacity_exceeded"
  | BOwnershipRevisionExhausted => "plugin_ownership_revision_exhausted"
  | BOwnershipConflict => "plugin_ownership_conflict"
  | BDiscoveryUnavailable => "plugin_remove_discovery_unavailable"
  | BNotManaged => "plugin_remove_not_managed"
  | BRequiresDisabled => "plugin_remove_requires_disabled"
  | BStorageUnavailable => "plugin_remove_storage_unavailable"
  | BIdentityChanged => "plugin_remove_identity_changed"
  | BStagingCapacityExceeded => "plugin_remove_staging_capacity_exceeded"
  end.
Definition after_code (f : AfterDisabledFailure) : string :=
  match f with
  | AOwnershipPersistFailed => "plugin_ownership_persist_failed"
  | ARemoveWriteFailed => "plugin_remove_write_failed"
  | AIdentityChanged => "plugin_remove_identity_changed"
  end.

Definition import_code (f : ImportCommitFailure) : string :=
  match f with
  | ICatalogStale => "plugin_catalog_stale"
  | ICatalogInvalid => "plugin_catalog_invalid"
  | ICatalogGenerationExhausted => "plugin_catalog_generation_exhausted"
  | IStateUnavailable => "plugin_state_unavailable"
  | IStatePersistFailed => "plugin_state_persist_failed"
  | IStateCapacityExceeded => "plugin_state_capacity_exceeded"
  | IRevisionExhausted => "plugin_revision_exhausted"
  | IOwnershipUnavailable => "plugin_ownership_unavailable"
  | IOwnershipCapacityExceeded => "plugin_ownership_capacity_exceeded"
  | IOwnershipRevisionExhausted => "plugin_ownership_revision_exhausted"
  | IIdConflict => "plugin_import_id_conflict"
  | IDiscoveryUnavailable => "plugin_import_discovery_unavailable"
  | ICapacityExceeded => "plugin_import_capacity_exceeded"
  | IStagingCapacityExceeded => "plugin_import_staging_capacity_exceeded"
  | IWriteFailed => "plugin_import_write_failed"
  end.

Definition before_storage_failure (f : RemovalStorageFailure) : BeforeDisabledFailure :=
  match f with
  | StorageIdentityChanged => BIdentityChanged
  | StorageStagingCapacityExceeded => BStagingCapacityExceeded
  | StorageUnavailable | StorageProvenWriteFailure => BStorageUnavailable
  end.

Definition barrier_succeeded (r : PersistOutcome + PersistOutcome) : bool :=
  match r with inr o => outcome_satisfies_destructive_barrier o | inl _ => false end.

Definition code_of (e : AppError) : string := match e with Plugin code _ _ => code | _ => "" end.

Definition import_state_failure (e : AppError) : ImportCommitFailure :=
  if code_of e ==s "plugin_catalog_invalid" then ICatalogInvalid
  else if code_of e ==s "plugin_state_unavailable" then IStateUnavailable
  else if code_of e ==s "plugin_state_capacity_exceeded" then IStateCapacityExceeded
  else if code_of e ==s "plugin_revision_exhausted" then IRevisionExhausted
  else IStatePersistFailed.

Definition matches_generation (requested : string) (lease current : Z) : bool :=
  bool_decide (parse_u64 requested = Some lease) && (requested ==s u64_to_string lease)
  && (current =? lease).

Section Lifecycle.
Context `{SemverLib} `{Codec json} `{Base64Lib} `{Codec PluginManifest} `{Sha256Lib}.
Context `{UuidV4Lib} `{Codec OwnershipReceiptV1} `{Codec IndexWire} `{Codec StateWire}.

Inductive RemovalResult :=
| Removed (plugin_id : string) (s : PluginCatalogSnapshot)
| RemovedCleanupPending (plugin_id : string) (s : PluginCatalogSnapshot)
| RemovedCatalogUnconfirmed (plugin_id : string) (s : PluginCatalogSnapshot)
| NotRemoved (disabled_decision_saved : bool) (code : string) (s : PluginCatalogSnapshot).

Definition not_removed (f : BeforeDisabledFailure) (s : PluginCatalogSnapshot) : RemovalResult :=
  NotRemoved false (before_code f) s.
Definition not_removed_after_disabled (f : AfterDisabledFailure) (s : PluginCatalogSnapshot)
    : RemovalResult := NotRemoved true (after_code f) s.

Inductive CommitImportResult :=
| Imported (plugin_id : string) (s : PluginCatalogSnapshot)
| NotImported (disabled_decision_saved : bool) (reason : ImportCommitFailure)
    (s : PluginCatalogSnapshot)
| ImportedNotVisible (plugin_id : string) (s : PluginCatalogSnapshot)
| ImportedExternal (plugin_id : string) (s : PluginCatalogSnapshot).

(** ** The state of the runtime *)

(** The registry under the lock, those it held before, and whether a first
    scan was attempted. *)
Record Live := {
  lv_registry : PluginRegistry;
  lv_past : list PluginRegistry;
  lv_attempted : bool;
}.

Definition hold_registry (r : PluginRegistry) (l : Live) : Live :=
  {| lv_registry := r; lv_past := lv_registry l :: lv_past l; lv_attempted := lv_attempted l |}.
Definition set_attempted (l : Live) : Live :=
  {| lv_registry := lv_registry l; lv_past := lv_past l; lv_attempted := true |}.

Section World.
Context {W : Type} `{PluginStatePersistence W} `{ManagedOwnershipPersistence W}.
Context `{!PluginDiscovery W} `{!RemovalStorage W} `{!ImportStorage W}.

Definition Life (E A : Type) : Type := M (Live * W) E A.

(** [blocking_read().clone()]. *)
Definition read_registry {E} : Life E PluginRegistry :=
  let* l := mget in mret (lv_registry l).
Definition current_snapshot {E} : Life E PluginCatalogSnapshot :=
  let* r := read_registry in mret (catalog_snapshot r).

(** A write under one guard. *)
Definition write_registry {E} (f : PluginRegistry -> PluginRegistry) : Life E unit :=
  let* l := mget in mput (hold_registry (f (lv_registry l)) l).

(** An operation on the live registry under one write guard: what it changed
    stays when it fails or panics. *)
Definition locked {E A} (c : M (PluginRegistry * W) E A) : Life E A :=
  fun lw => let '(o, (r, w)) := c (lv_registry lw.1, lw.2) in (o, (hold_registry r lw.1, w)).

(** An operation on a registry the task owns. *)
Definition on_candidate {E F A} (candidate : PluginRegistry) (c : M (PluginRegistry * W) E A)
    : Life F ((E + A) * PluginRegistry) :=
  fun lw => match c (candidate, lw.2) with
            | (Ok a, (r, w)) => (Ok (inr a, r), (lw.1, w))
            | (Err e, (r, w)) => (Ok (inl e, r), (lw.1, w))
            | (Halt h, (_, w)) => (Halt h, (lw.1, w))
            end.

(** The same inside [catch_unwind]. *)
Definition on_candidate_caught {E F A} (candidate : PluginRegistry)
    (c : M (PluginRegistry * W) E A) : Life F (option (E + A) * PluginRegistry) :=
  fun lw => match c (candidate, lw.2) with
            | (Ok a, (r, w)) => (Ok (Some (inr a), r), (lw.1, w))
            | (Err e, (r, w)) => (Ok (Some (inl e), r), (lw.1, w))
            | (Halt Panicked, (r, w)) => (Ok (None, r), (lw.1, w))
            | (Halt Crashed, (_, w)) => (Halt Crashed, (lw.1, w))
            end.

(** A scan; one that panics found nothing. *)
Definition scan {E} : Life E LocalDiscoveryOutcome :=
  let* found := beside (mcatch (E := Empty_set) discover) in
  mret match found with
       | Some (inr found) => found
       | Some (inl e) => match e with end
       | None => discovery_unavailable
       end.

(** The end of an owned task: a panic is an error of the request. *)
Definition task {A} (c : Life AppError A) : Life AppError A :=
  let* r := mcatch c in
  match r with
  | Some (inr a) => mret a
  | Some (inl e) => mfail e
  | None => mfail runtime_error
  end.

(** ** runtime.rs *)

Definition discover_and_publish (force : bool) : Life AppError PluginCatalogSnapshot :=
  let* l := mget in
  if negb force && lv_attempted l then
    if state_requires_retry (lv_registry l) then locked retry_state_load ;;; current_snapshot
    else current_snapshot
  else
    let* found := scan in
    let* l := mget in
    mput (set_attempted l) ;;;
    locked (apply_local_discovery found) ;;;
    current_snapshot.

Definition retry_state_and_snapshot : Life AppError PluginCatalogSnapshot :=
  let* r := read_registry in
  if state_requires_retry r then locked retry_state_load ;;; current_snapshot
  else mret (catalog_snapshot r).

(** What [get_catalog] asks of the gate, read without it. *)
Inductive CatalogRequest := AnswerNow | Discover (force : bool) | RetryState.
Definition get_catalog_request (l : Live) : CatalogRequest :=
  if negb (lv_attempted l) then Discover false
  else if ownership_requires_retry (ownership (publication (lv_registry l))) then Discover true
  else if state_requires_retry (lv_registry l) then RetryState else AnswerNow.

(** ** runtime/removal.rs *)

(** [publish_candidate_once] on the live registry. *)
Definition publish_once (candidate baseline : PluginRegistry)
    : Life AppError PluginCatalogSnapshot :=
  let* r := mlift (publish_candidate_once candidate baseline) in
  write_registry (fun _ => r) ;;;
  mret (catalog_snapshot r).

(** The candidate reconciled with a scan, then published in place of the
    baseline. *)
Definition publish_reconciled (candidate baseline : PluginRegistry) (found : LocalDiscoveryOutcome)
    : Life AppError PluginCatalogSnapshot :=
  let* (_, candidate) := on_candidate (E := AppError) candidate (build_reconciled_candidate found) in
  publish_once candidate baseline.

Definition rollback (candidate baseline : PluginRegistry) (preflight : RemovalPreflight)
    (failure : AfterDisabledFailure) : Life AppError RemovalResult :=
  let* (result, candidate) :=
    on_candidate candidate (rollback_removing (en_receipt_id (rp_entry preflight))) in
  let failure := if persist_outcome_committed (persistence_outcome result) then failure
                 else AOwnershipPersistFailed in
  write_registry (adopt_removal_documents candidate) ;;;
  let* s := publish_reconciled candidate baseline (removal_discovery_baseline baseline) in
  mret (not_removed_after_disabled failure s).

(** The shape the scan is corrected to after the cleanup; [None] keeps it. *)
Definition corrected_shape (c : CleanupOutcome) : option (option RemovalObservationShape) :=
  match c with
  | CleanupConflict => None
  | CleanupRemoved | CleanupPending KBothAbsent => Some None
  | CleanupPending KFull => Some (Some ShapeFull)
  | CleanupPending KReceiptOnly => Some (Some ShapeReceiptOnly)
  | CleanupPending KEmptyDirectory => Some (Some ShapeEmptyDirectory)
  end.

Definition with_removals (removals : RemovalDiscoveryOutcome) (found : LocalDiscoveryOutcome)
    : LocalDiscoveryOutcome :=
  {| do_plugins := do_plugins found; do_occupied_slots := do_occupied_slots found;
     do_removals := removals; do_summary := do_summary found; do_usage := do_usage found |}.

Definition cleaned_observation (preflight : RemovalPreflight) (slot : string)
    (shape : RemovalObservationShape) : RemovalObservation :=
  {| ro_removal_slot := slot;
     ro_directory_identity := en_directory_identity (rp_entry preflight);
     ro_manifest := if bool_decide (shape = ShapeFull)
                    then Some (rp_record preflight, en_manifest_identity (rp_entry preflight))
                    else None;
     ro_receipt := if bool_decide (shape = ShapeEmptyDirectory) then None
                   else l_receipt (rp_locator preflight);
     ro_shape := shape |}.

Definition update_target_observation (found : LocalDiscoveryOutcome) (preflight : RemovalPreflight)
    (slot : string) (cleanup : CleanupOutcome) : LocalDiscoveryOutcome :=
  match corrected_shape cleanup with
  | None => found
  | Some shape =>
      let removals := do_removals found in
      let observations := List.filter (fun o => ro_removal_slot o !=s slot) (rd_observations removals) in
      let occupied := List.filter (fun s => s !=s slot) (rd_occupied_slots removals) in
      with_removals
        {| rd_observations := observations ++ match shape with
                                | Some shape => [cleaned_observation preflight slot shape]
                                | None => []
                                end;
           rd_status := rd_status removals; rd_bytes_read := rd_bytes_read removals;
           rd_occupied_slots := occupied ++ match shape with Some _ => [slot] | None => [] end;
           rd_unknown_entry_count := rd_unknown_entry_count removals |} found
  end.

(** The object in the removal slot is not what was quarantined. *)
Definition observation_conflicts (preflight : RemovalPreflight) (slot : string)
    (o : RemovalObservation) : bool :=
  let e := rp_entry preflight in
  (ro_removal_slot o ==s slot)
  && (negb (same (ro_directory_identity o) (en_directory_identity e))
      || match ro_shape o with ShapeManifestOnly | ShapeUnknown => true | _ => false end
      || is_some_and (fun r => negb (same (vr_file_identity r) (en_receipt_identity e))
                               || negb (matches_receipt e (vr_model r) (vr_canonical_sha256 r)))
           (ro_receipt o)
      || is_some_and (fun m => negb (same (snd m) (en_manifest_identity e))
                               || negb (same (fst m) (rp_record preflight)))
           (ro_manifest o)).

Definition scan_proves_conflict (found : LocalDiscoveryOutcome) (preflight : RemovalPreflight)
    (slot : string) : bool :=
  bool_decide (en_package_slot (rp_entry preflight) ∈ do_occupied_slots found)
  || existsb (observation_conflicts preflight slot) (rd_observations (do_removals found)).

Definition same_quarantine (entry : ManagedOwnershipEntryV1) (slot : string)
    (v : VerifiedQuarantine) : bool :=
  same (vq_entry v) entry && (vq_removal_slot v ==s slot).

Definition physically_clean (c : CleanupOutcome) : bool :=
  match c with CleanupRemoved | CleanupPending KBothAbsent => true | _ => false end.

(** How a removal whose rename was issued is reported. *)
Definition removal_report (id : string) (uncertain clean pending : bool)
    (s : PluginCatalogSnapshot) : RemovalResult :=
  if uncertain then RemovedCatalogUnconfirmed id s
  else if clean then Removed id s
  else if pending then RemovedCleanupPending id s
  else RemovedCatalogUnconfirmed id s.

(** The entry leaves the index once nothing is left of the package. *)
Definition delete_if_clean (candidate : PluginRegistry) (preflight : RemovalPreflight)
    (cleanup : CleanupOutcome)
    : Life AppError (option (PersistOutcome + PersistOutcome) * PluginRegistry) :=
  if physically_clean cleanup then
    let* (result, candidate) :=
      on_candidate candidate (delete_removed_entry (en_receipt_id (rp_entry preflight))) in
    mret (Some result, candidate)
  else mret (None, candidate).

(** The removal reported, and published unless the scan speaks against it. *)
Definition report_rename (id : string) (candidate baseline : PluginRegistry)
    (preflight : RemovalPreflight) (slot : string) (found : LocalDiscoveryOutcome)
    (cleanup : CleanupOutcome) (unconfirmed index_clean : bool) : Life AppError RemovalResult :=
  if negb (scan_available found) || existsb (matches_package (rp_entry preflight)) (do_plugins found)
     || (bool_decide (cleanup = CleanupConflict) && negb (scan_proves_conflict found preflight slot))
  then mret (RemovedCatalogUnconfirmed id (catalog_snapshot baseline))
  else
    let found := update_target_observation found preflight slot cleanup in
    let* (_, candidate) := on_candidate (E := AppError) candidate (build_reconciled_candidate found) in
    let reconciled := s_managed_ownership (catalog_snapshot candidate) in
    let conflicted :=
      (0 <? conflicting_entry_count reconciled) || bool_decide (cleanup = CleanupConflict) in
    let* s := publish_once candidate baseline in
    mret (removal_report id (unconfirmed || conflicted) (physically_clean cleanup && index_clean)
            (0 <? cleanup_pending_count reconciled) s).

(** Everything after the rename that was committed or may have been. *)
Definition after_rename (id : string) (candidate baseline : PluginRegistry)
    (preflight : RemovalPreflight) (owned : Owned) (rename_uncertain : bool)
    : Life AppError RemovalResult :=
  let slot := owned_slot owned in
  let removing_entry := entry_begin_removal slot (rp_entry preflight) in
  let* evidence := beside (mtry (verify_quarantine owned)) in
  let verified := match evidence with inr v => same_quarantine removing_entry slot v | inl _ => false end in
  let* found := scan in
  let* cleanup := beside (infallible (cleanup_once owned)) in
  let* (deletion, candidate) := delete_if_clean candidate preflight cleanup in
  write_registry (adopt_removal_documents candidate) ;;;
  let index_clean :=
    is_some_and (fun r => persist_outcome_committed (persistence_outcome r)) deletion in
  let index_committed_error :=
    is_some_and (fun r => match r with inl o => persist_outcome_committed o | inr _ => false end)
      deletion in
  report_rename id candidate baseline preflight slot found cleanup
    (rename_uncertain || negb verified || index_committed_error) index_clean.

(** The rename, once both documents are durable. *)
Definition quarantine (id : string) (candidate baseline : PluginRegistry)
    (preflight : RemovalPreflight) (owned : Owned) : Life AppError RemovalResult :=
  let* rename := beside (infallible (quarantine_once owned)) in
  match rename with
  | RenameProvenNotCommitted failure =>
      rollback candidate baseline preflight
        (if bool_decide (failure = StorageIdentityChanged) then AIdentityChanged
         else ARemoveWriteFailed)
  | RenameCommitted evidence =>
      if same_quarantine (entry_begin_removal (owned_slot owned) (rp_entry preflight))
           (owned_slot owned) evidence
      then after_rename id candidate baseline preflight owned false
      else mfail runtime_error
  | RenameCommitUnconfirmed => after_rename id candidate baseline preflight owned true
  end.

(** After the disabled decision is durable. *)
Definition remove_disabled (id : string) (candidate baseline : PluginRegistry)
    (preflight : RemovalPreflight) (owned : Owned) : Life AppError RemovalResult :=
  let* (removing, candidate) :=
    on_candidate candidate
      (persist_removing (en_receipt_id (rp_entry preflight)) (owned_slot owned)) in
  write_registry (adopt_removal_documents candidate) ;;;
  if negb (barrier_succeeded removing)
  then rollback candidate baseline preflight AOwnershipPersistFailed
  else
    let* verified := beside (mtry (reverify_before_rename owned)) in
    match verified with
    | inl _ => rollback candidate baseline preflight AIdentityChanged
    | inr _ => quarantine id candidate baseline preflight owned
    end.

Definition run_removal (raw_id generation : string) : Life AppError RemovalResult :=
  mlift (or_fail (plugin_error "plugin_invalid_id" "插件标识无效") (validate_reverse_domain raw_id)) ;;;
  let* baseline := read_registry in
  match preflight_removal baseline raw_id generation with
  | Err reason => mret (not_removed reason (catalog_snapshot baseline))
  | Halt h => mlift (Halt h)
  | Ok preflight =>
      let* prepared := beside (mtry (prepare_removal (rp_locator preflight) (rp_entry preflight))) in
      match prepared with
      | inl failure =>
          mret (not_removed (before_storage_failure failure) (catalog_snapshot baseline))
      | inr owned =>
          let* (disabled, candidate) :=
            on_candidate baseline (persist_disabled_before_removal (rp_record preflight)) in
          write_registry (adopt_removal_documents candidate) ;;;
          if negb (barrier_succeeded disabled) then
            let* s :=
              if persist_outcome_committed (persistence_outcome disabled)
              then publish_reconciled candidate baseline (removal_discovery_baseline baseline)
              else mret (catalog_snapshot baseline) in
            mret (not_removed BStatePersistFailed s)
          else remove_disabled raw_id candidate baseline preflight owned
      end
  end.

Definition remove_managed_local_plugin (raw_id generation : string) : Life AppError RemovalResult :=
  task (run_removal raw_id generation).

(** ** runtime/import.rs *)

Record CommitLease := {
  cl_generation : Z;
  cl_record : PluginRecord;
  cl_bytes : string;
}.

Record CommitProgress := {
  promotion_started : bool;
  postscan_started : bool;
}.

(** A commit beside its progress cells. *)
Definition Commit (E A : Type) : Type := M (CommitProgress * (Live * W)) E A.

Definition set_promotion_started {E} (b : bool) : Commit E unit :=
  let* p := mget in mput {| promotion_started := b; postscan_started := postscan_started p |}.
Definition set_postscan_started {E} : Commit E unit :=
  let* p := mget in mput {| promotion_started := promotion_started p; postscan_started := true |}.

Definition failed_import {E} (failure : ImportCommitFailure) (saved : bool)
    : Life E CommitImportResult :=
  let* s := current_snapshot in mret (NotImported saved failure s).
Definition unconfirmed_import {E} (record : PluginRecord) : Life E CommitImportResult :=
  let* s := current_snapshot in mret (ImportedNotVisible (record_id record) s).

(** The errors and panics of a cleanup are dropped. *)
Definition cleanup_owned_stage {E} (stage : Stage) : Life E unit :=
  let* _ := beside (mcatch (stage_cleanup stage)) in mret tt.

(** [publish_import_candidate] on the live registry. *)
Definition publish_import (candidate : PluginRegistry) : Life AppError unit :=
  let* r := read_registry in
  let* r := mlift (publish_import_candidate candidate r) in
  write_registry (fun _ => r).

Definition classify_import_result (record : PluginRecord) (registered locator_confirmed : bool)
    (s : PluginCatalogSnapshot) : CommitImportResult :=
  let expected := item_disabled (pr_manifest record) (pr_source record) in
  if same (s_availability s) CatalogAvailable then
    if registered && locator_confirmed
       && existsb (fun i => same i (with_management expected MManaged)) (s_plugins s)
    then Imported (record_id record) s
    else if negb registered && locator_confirmed
            && existsb (fun i => same i expected) (s_plugins s)
    then ImportedExternal (record_id record) s
    else ImportedNotVisible (record_id record) s
  else ImportedNotVisible (record_id record) s.

(** The scan after the promotion and what it lets the live registry show. *)
Definition publish_promoted (candidate : PluginRegistry) (record : PluginRecord)
    (promotion : option PromotedManagedPackage) (registered uncertain : bool)
    : Commit AppError CommitImportResult :=
  set_postscan_started ;;;
  let* postscan := beside scan in
  if same (lds_status (do_summary postscan)) DUnavailable
  then beside (unconfirmed_import record)
  else
    let* (published, candidate) :=
      beside (on_candidate_caught candidate (apply_local_discovery postscan)) in
    if uncertain || negb match published with Some (inr _) => true | _ => false end
    then beside (unconfirmed_import record)
    else
      let locator_confirmed :=
        is_some_and (fun proof => confirms_import_locator candidate record (pp_locator proof))
          promotion in
      let* swapped := beside (mtry (F := AppError) (publish_import candidate)) in
      match swapped with
      | inl _ => beside (unconfirmed_import record)
      | inr _ =>
          let* s := beside current_snapshot in
          mret (classify_import_result record registered locator_confirmed s)
      end.

(** After the promotion was issued and not proved undone. *)
Definition after_promotion (candidate : PluginRegistry) (record : PluginRecord)
    (promotion : option PromotedManagedPackage) (uncertain : bool)
    : Commit AppError CommitImportResult :=
  let* (registration, candidate) :=
    beside match promotion with
           | Some proof =>
               if proves_managed (pp_entry proof)
                    {| dp_record := record; dp_locator := pp_locator proof |}
               then
                 let* (r, candidate) :=
                   on_candidate_caught candidate (register_managed_import (pp_entry proof)) in
                 write_registry (adopt_import_documents candidate) ;;;
                 mret (Some r, candidate)
               else mret (None, candidate)
           | None => mret (None, candidate)
           end in
  let registered := match registration with Some (Some (inr _)) => true | _ => false end in
  let uncertain := match registration with
                   | None | Some (Some (inr _)) => uncertain
                   | Some (Some (inl f)) => bool_decide (om_persist_outcome f <> NotCommitted)
                   | Some None => true
                   end in
  publish_promoted candidate record promotion registered uncertain.

(** The promotion of a prepared stage whose disabled decision is saved. *)
Definition promote_stage (candidate : PluginRegistry) (record : PluginRecord) (stage : Stage)
    : Commit AppError CommitImportResult :=
  set_promotion_started true ;;;
  let* promoted := beside (beside (mcatch (promote stage))) in
  match promoted with
  | Some (inr proof) => after_promotion candidate record (Some proof) false
  | Some (inl _) =>
      let* s := beside (beside (infallible (promotion_state stage))) in
      if same s PromotionNotCommitted then
        set_promotion_started false ;;;
        beside (cleanup_owned_stage stage) ;;;
        beside (publish_import candidate) ;;;
        beside (failed_import IWriteFailed true)
      else after_promotion candidate record None true
  | None => after_promotion candidate record None true
  end.

(** The disabled decision of the import, then its promotion. *)
Definition commit_stage (candidate : PluginRegistry) (record : PluginRecord) (stage : Stage)
    : Commit AppError CommitImportResult :=
  let* (persisted, candidate) :=
    beside (on_candidate_caught candidate (persist_import_disabled record)) in
  beside (write_registry (adopt_import_documents candidate)) ;;;
  match persisted with
  | Some (inr _) => promote_stage candidate record stage
  | Some (inl failure) =>
      beside (failed_import (import_state_failure (sd_error failure))
                (persist_outcome_committed (sd_persist_outcome failure)))
  | None => beside (cleanup_owned_stage stage) ;;; mfail runtime_error
  end.

(** The candidate after its scan was admitted. *)
Definition commit_scanned (candidate : PluginRegistry) (lease : CommitLease)
    (usage : option ScanUsage) (expected_generation : string)
    : Commit AppError CommitImportResult :=
  match (let? usage := ok_or IDiscoveryUnavailable usage in
         validate_managed_import candidate (cl_record lease) usage expected_generation) with
  | Halt h => mlift (Halt h)
  | Err reason => beside (failed_import reason false)
  | Ok _ =>
      let* prepared := beside (beside (mtry (prepare_stage (cl_record lease) (cl_bytes lease)))) in
      match prepared with
      | inl reason => beside (failed_import reason false)
      | inr stage => commit_stage candidate (cl_record lease) stage
      end
  end.

Definition run_commit_blocking (lease : CommitLease) (expected_generation : string)
    : Commit AppError CommitImportResult :=
  let* candidate := beside read_registry in
  if negb (matches_generation expected_generation (cl_generation lease)
             (registry_generation candidate))
  then beside (failed_import ICatalogStale false)
  else
    let* prescan := beside scan in
    let* (applied, candidate) := beside (on_candidate candidate (apply_local_discovery prescan)) in
    match applied with
    | inl error =>
        if code_of error ==s "plugin_catalog_generation_exhausted"
        then beside (failed_import ICatalogGenerationExhausted false)
        else mfail runtime_error
    | inr _ =>
        if negb (matches_generation expected_generation (cl_generation lease)
                   (registry_generation candidate))
        then beside (publish_import candidate) ;;; beside (failed_import ICatalogStale false)
        else commit_scanned candidate lease (do_usage prescan) expected_generation
    end.

(** [run_commit]: a panic after the promotion began is an unconfirmed import. *)
Definition run_commit (lease : CommitLease) (expected_generation : string)
    : Life AppError CommitImportResult :=
  fun lw =>
    match run_commit_blocking lease expected_generation
            ({| promotion_started := false; postscan_started := false |}, lw) with
    | (Halt Panicked, (progress, lw')) =>
        if promotion_started progress
        then ((if postscan_started progress then mret tt else (let* _ := scan in mret tt)) ;;;
              unconfirmed_import (cl_record lease)) lw'
        else (Err runtime_error, lw')
    | (Ok r, (_, lw')) => (Ok r, lw')
    | (Err e, (_, lw')) => (Err e, lw')
    | (Halt Crashed, (_, lw')) => (Halt Crashed, lw')
    end.
End World.
End Lifecycle.
