(* ===== verification/PluginScan.v ===== *)
(** plugin/discovery/safe_fs.rs: the bounded reader of the directories of local
    plugins and of removals, over the directory handles of the platform, and the
    platform module of Unix over the system calls. *)
From stdpp Require Import gmap strings sorting.
From S2P Require Import Prelude RustStr FileSystem External Models BTreeMap Workflow StrategyTypes SafeDocument Supervisor PluginManifest PluginCatalog PluginPackages PluginState PluginOwnership PluginRegistry PluginLifecycle.

Record ScanLimits := {
  max_root_entries : Z;
  max_packages : Z;
  max_manifest_bytes : Z;
  max_total_bytes : Z;
}.

Definition production : ScanLimits :=
  {| max_root_entries := 256; max_packages := 128; max_manifest_bytes := 16 * 1024;
     max_total_bytes := 2 * 1024 * 1024 |}.

Definition REMOVAL_BYTE_LIMIT : Z := 328 * 1024.

(** A name of the platform: its bytes, and whether they are UTF-8. *)
Record OsName := {
  on_bytes : string;
  on_utf8 : bool;
}.
Definition to_str (n : OsName) : option string := if on_utf8 n then Some (on_bytes n) else None.
Definition name_le (a b : OsName) : Prop := String.le (on_bytes a) (on_bytes b).
#[export] Instance name_le_dec : RelDecision name_le.
Proof. intros a b. apply String.le_dec. Defined.

Definition parse_slot_name (n : OsName) : option string :=
  name ← to_str n;
  suffix ← strip_prefix "pkg-" name;
  if (len suffix =? 32) && all_lower_hex suffix then Some name else None.

Inductive ReadFailure := FailPackage | FailRoot.
#[export] Instance ReadFailure_eq_dec : EqDecision ReadFailure.
Proof. solve_decision. Defined.

(** [std::path::Component] of the paths of Unix. *)
Inductive Component := RootDir | CurDir | ParentDir | Normal (name : string).

Definition separator (b : Z) : bool := b =? 47.
Definition is_absolute (path : string) : bool := starts_with path "/".
(** [Path::components]: empty segments and inner dots are skipped. *)
Definition component (part : string) : option Component :=
  if (part ==s "") || (part ==s ".") then None
  else if part ==s ".." then Some ParentDir else Some (Normal part).
Definition components (path : string) : list Component :=
  (if is_absolute path then [RootDir]
   else match split_on separator path with
        | part :: _ => if part ==s "." then [CurDir] else []
        | [] => []
        end) ++ omap component (split_on separator path).

Definition is_dots (part : string) : bool := (part ==s ".") || (part ==s "..").
Definition is_dot_component (c : Component) : bool :=
  match c with ParentDir | CurDir => true | _ => false end.
Definition safe_root_path (path : string) : bool :=
  is_absolute path && negb (existsb is_dots (split_on separator path))
  && negb (existsb is_dot_component (components path)).

(** [io::Error::kind] as the reader tells it. *)
Inductive ReadError := Interrupted | ReadRefused.

(** The module [platform]: handles of directories and files, beside the reads of
    files.  [interruptions] is how many reads will yet be interrupted. *)
Class ScanPlatform (W : Type) := {
  Directory : Type;
  File : Type;
  open_root : list Component -> M W unit (option Directory);
  optional_child : Directory -> string -> M W unit (option Directory);
  dir_entries : Directory -> Z -> M W unit (list OsName);
  open_slot : Directory -> string -> M W unit Directory;
  dir_identity : Directory -> M W unit FileIdentity;
  open_regular_file : Directory -> string -> M W unit File;
  file_identity : File -> M W unit FileIdentity;
  file_read : File -> Z -> M W ReadError string;
  interruptions : W -> nat;
  canonical_may_be_occupied : Directory -> string -> M W Empty_set bool;
}.

(** ** The module [platform] of Unix *)

(** [rustix::fs::OFlags], [rustix::io::Errno] and [rustix::fs::Stat], as far as
    the module tells them apart. *)
Inductive OFlag := RDONLY | DIRECTORY | NOFOLLOW | CLOEXEC | NONBLOCK | NOCTTY.
Inductive Errno := NOENT | OtherErrno.
Inductive FileType := RegularFile | OtherFileType.
Record Stat := {
  st_dev : Z;
  st_ino : Z;
  st_mode : FileType;
  st_nlink : Z;
}.

(** The system calls, through [rustix] and the standard library.  [next_entry]
    is a turn of the iterator over a directory; [entries_left] is how many
    turns it has yet. *)
Class Rustix (W : Type) := {
  OwnedFd : Type;
  DirIter : Type;
  sys_open : string -> list OFlag -> M W Errno OwnedFd;
  sys_openat : OwnedFd -> string -> list OFlag -> M W Errno OwnedFd;
  sys_statat_nofollow : OwnedFd -> string -> M W Errno Stat;
  sys_fstat : OwnedFd -> M W Errno Stat;
  sys_read : OwnedFd -> Z -> M W ReadError string;
  reads_interrupted : W -> nat;
  dir_read_from : OwnedFd -> M W Errno DirIter;
  next_entry : DirIter -> M W Errno (option string);
  entries_left : DirIter -> W -> nat;
}.

Section Unix.
Context {W : Type} `{Rustix W}.

Definition DIRECTORY_FLAGS : list OFlag := [RDONLY; DIRECTORY; NOFOLLOW; CLOEXEC].
Definition FILE_FLAGS : list OFlag := [RDONLY; NOFOLLOW; CLOEXEC; NONBLOCK; NOCTTY].

Definition unit_error {A} (c : M W Errno A) : M W unit A := mmap_err (fun _ => tt) c.

Definition unix_occupied (directory : OwnedFd) (slot : string) : M W Empty_set bool :=
  let* r := mtry (sys_statat_nofollow directory slot) in
  mret match r with inl NOENT => false | _ => true end.

Definition unix_identity (directory : OwnedFd) : M W unit FileIdentity :=
  let* metadata := unit_error (sys_fstat directory) in
  mret {| volume := st_dev metadata; object := st_ino metadata |}.

Definition unix_optional_child (directory : OwnedFd) (name : string) : M W unit (option OwnedFd) :=
  let* r := mtry (sys_openat directory name DIRECTORY_FLAGS) in
  match r with
  | inr fd => mret (Some fd)
  | inl NOENT => mret None
  | inl OtherErrno => mfail tt
  end.

(** The loop over the components of [open_root]. *)
Fixpoint open_components (held : OwnedFd) (path : list Component) : M W unit (option OwnedFd) :=
  match path with
  | [] => mret (Some held)
  | Normal name :: rest =>
      let* child := unix_optional_child held name in
      match child with
      | Some held => open_components held rest
      | None => mret None
      end
  | _ :: rest => open_components held rest
  end.
Definition unix_open_root (path : list Component) : M W unit (option OwnedFd) :=
  let* held := unit_error (sys_open "/" DIRECTORY_FLAGS) in open_components held path.

Definition unix_open_slot (directory : OwnedFd) (slot : string) : M W unit OwnedFd :=
  unit_error (sys_openat directory slot DIRECTORY_FLAGS).

(** The loop of [entries]; a turn that yields a dot does not count. *)
Fixpoint collect_entries (fuel : nat) (dir : DirIter) (max : Z) (names : list OsName)
    : M W unit (list OsName) :=
  match fuel with
  | O => mlift (Halt Panicked)
  | S fuel =>
      let* entry := unit_error (next_entry dir) in
      match entry with
      | None => mret names
      | Some name =>
          if is_dots name then collect_entries fuel dir max names
          else if Z.of_nat (length names) =? max then mfail tt
          else
            let name := {| on_bytes := name; on_utf8 := utf8_valid (bytes_of name) |} in
            collect_entries fuel dir max (names ++ [name])%list
      end
  end.
Definition unix_entries (directory : OwnedFd) (max : Z) : M W unit (list OsName) :=
  let* dir := unit_error (dir_read_from directory) in
  fun w => collect_entries (S (entries_left dir w)) dir max [] w.

Definition is_regular_file (m : Stat) : bool :=
  match st_mode m with RegularFile => true | OtherFileType => false end.
Definition is_single_link_regular_file (m : Stat) : bool := is_regular_file m && (st_nlink m =? 1).

Definition unix_open_regular_file (directory : OwnedFd) (name : string) : M W unit OwnedFd :=
  let* fd := unit_error (sys_openat directory name FILE_FLAGS) in
  let* metadata := unit_error (sys_fstat fd) in
  if is_single_link_regular_file metadata then mret fd else mfail tt.

Definition unix_file_identity (file : OwnedFd) : M W unit FileIdentity :=
  let* metadata := unit_error (sys_fstat file) in
  if negb (is_regular_file metadata) || negb (st_nlink metadata =? 1) then mfail tt
  else mret {| volume := st_dev metadata; object := st_ino metadata |}.

#[export] Instance UnixPlatform : ScanPlatform W := {
  Directory := OwnedFd;
  File := OwnedFd;
  open_root := unix_open_root;
  optional_child := unix_optional_child;
  dir_entries := unix_entries;
  open_slot := unix_open_slot;
  dir_identity := unix_identity;
  open_regular_file := unix_open_regular_file;
  file_identity := unix_file_identity;
  file_read := sys_read;
  interruptions := reads_interrupted;
  canonical_may_be_occupied := unix_occupied;
}.
End Unix.

Definition no_usage : ScanUsage := {| su_root_entries := 0; su_packages := 0; su_bytes_read := 0 |}.
Definition empty_package_scan : PackageScan :=
  {| ps_packages := []; ps_rejected_package_count := 0; ps_usage := no_usage;
     ps_occupied_slots := [] |}.
Definition empty_removal_scan : RemovalScan :=
  {| rs_objects := []; rs_occupied_slots := []; rs_unknown_count := 0; rs_bytes_read := 0 |}.

(** [finalize_occupied_slots]: the slots sorted without repetition, and how
    many repetitions there were. *)
Fixpoint dedup (xs : list string) : list string :=
  match xs with
  | x :: (y :: _) as rest => if x ==s y then dedup rest else x :: dedup rest
  | _ => xs
  end.
Definition finalize_occupied_slots (slots : list string) : option (list string * Z) :=
  let kept := dedup (merge_sort String.le slots) in
  let repeated := Z.of_nat (length slots) - Z.of_nat (length kept) in
  if repeated <=? u32_max then Some (kept, repeated) else None.

Section Scan.
Context {W : Type} `{ScanPlatform W}.

(** A reader beside what it has used. *)
Definition Reader (E A : Type) : Type := M (ScanUsage * W) E A.

Definition count_package {E} : Reader E unit :=
  let* u := mget in
  mput {| su_root_entries := su_root_entries u; su_packages := su_packages u + 1;
          su_bytes_read := su_bytes_read u |}.
Definition count_bytes {E} (n : Z) : Reader E unit :=
  let* u := mget in
  mput {| su_root_entries := su_root_entries u; su_packages := su_packages u;
          su_bytes_read := su_bytes_read u + n |}.

(** A platform call whose failure is a failure of the package, or a value. *)
Definition package {A} (c : M W unit A) : Reader ReadFailure A :=
  mmap_err (fun _ => FailPackage) (beside c).
Definition observed {A} (c : M W unit A) : Reader ReadFailure (option A) :=
  let* r := beside (mtry c) in mret match r with inr a => Some a | inl _ => None end.

(** The turns of the loop of [read_bounded] up to the first that is not
    interrupted: an interrupted turn changes nothing, the next asks for as many
    bytes. *)
Fixpoint read_again (fuel : nat) (file : File) (count : Z) : M W unit string :=
  match fuel with
  | O => mlift (Halt Panicked)
  | S fuel =>
      let* r := mtry (file_read file count) in
      match r with
      | inr chunk => mret chunk
      | inl Interrupted => read_again fuel file count
      | inl ReadRefused => mfail tt
      end
  end.
Definition read_chunk (file : File) (count : Z) : M W unit string :=
  fun w => read_again (S (interruptions w)) file count w.

(** The loop of [read_bounded]; each turn but the last reads a byte. *)
Fixpoint read_loop (fuel : nat) (file : File) (limits : ScanLimits) (bytes : string)
    : Reader ReadFailure string :=
  match fuel with
  | O => mlift (Halt Panicked)
  | S fuel =>
      let* u := mget in
      let count := Z.min (Z.min 4096 (max_manifest_bytes limits + 1 - len bytes))
                     (max_total_bytes limits + 1 - su_bytes_read u) in
      let* chunk := package (read_chunk file count) in
      if chunk ==s "" then mret bytes
      else
        count_bytes (len chunk) ;;;
        let* u := mget in
        if max_total_bytes limits <? su_bytes_read u then mfail FailRoot
        else
          let bytes := (bytes ++ chunk)%string in
          if max_manifest_bytes limits <? len bytes then mfail FailPackage
          else read_loop fuel file limits bytes
  end.

Definition read_bounded (file : File) (limits : ScanLimits) : Reader ReadFailure string :=
  read_loop (Z.to_nat (max_manifest_bytes limits + 2)) file limits "".

Definition named (name : string) (n : OsName) : bool := on_bytes n ==s name.

Definition known_shape (directory : Directory) (partial : bool) : M W unit (bool * bool) :=
  let* names := dir_entries directory 3 in
  if existsb (fun n => negb (named "manifest.json" n) && negb (named "ownership-receipt.json" n)) names
  then mfail tt
  else
    let manifest := existsb (named "manifest.json") names in
    let receipt := existsb (named "ownership-receipt.json") names in
    if negb partial && negb manifest then mfail tt else mret (manifest, receipt).

(** [then(..).transpose()?]. *)
Definition when_present {A} (present : bool) (c : M W unit A) : Reader ReadFailure (option A) :=
  if present then let* a := package c in mret (Some a) else mret None.

(** [map(read_bounded).transpose()], returned at once only for the root. *)
Definition read_present (file : option File) (limits : ScanLimits)
    : Reader ReadFailure (ReadFailure + option string) :=
  match file with
  | None => mret (inr None)
  | Some file =>
      let* r := mtry (read_bounded file limits) in
      match r with
      | inr bytes => mret (inr (Some bytes))
      | inl FailRoot => mfail FailRoot
      | inl FailPackage => mret (inl FailPackage)
      end
  end.

Definition unwrapped {A} (r : ReadFailure + A) : Reader ReadFailure A :=
  match r with inr a => mret a | inl e => mfail e end.

(** The object is still the one that was opened under its name. *)
Definition still_named (x : M W unit FileIdentity) (expected : FileIdentity)
    : Reader ReadFailure bool :=
  let* current := observed x in mret (same current (Some expected)).

Definition file_still_named (directory : Directory) (name : string)
    (expected : option FileIdentity) : Reader ReadFailure bool :=
  match expected with
  | None => mret true
  | Some expected =>
      still_named (let* file := open_regular_file directory name in file_identity file) expected
  end.

(** Short-circuit conjunction. *)
Definition and_then (a b : Reader ReadFailure bool) : Reader ReadFailure bool :=
  let* x := a in if x then b else mret false.

Definition on_volume (directory : FileIdentity) (i : option FileIdentity) : bool :=
  match i with Some i => volume i =? volume directory | None => true end.

Definition zip {A B} (a : option A) (b : option B) : option (A * B) :=
  match a, b with Some a, Some b => Some (a, b) | _, _ => None end.

Definition read_object (root : Directory) (name : string) (limits : ScanLimits) (partial : bool)
    (on_shape : Reader ReadFailure unit) : Reader ReadFailure ObjectBytes :=
  let* directory := package (open_slot root name) in
  let* shape := package (known_shape directory partial) in
  let* identity := package (dir_identity directory) in
  let* manifest := when_present (fst shape) (open_regular_file directory "manifest.json") in
  let* receipt := when_present (snd shape) (open_regular_file directory "ownership-receipt.json") in
  on_shape ;;;
  let* manifest_bytes := read_present manifest limits in
  let receipt_limits :=
    {| max_root_entries := max_root_entries limits; max_packages := max_packages limits;
       max_manifest_bytes := 4096; max_total_bytes := max_total_bytes limits |} in
  let* receipt_bytes := read_present receipt receipt_limits in
  let* manifest_bytes := unwrapped manifest_bytes in
  let* receipt_bytes := unwrapped receipt_bytes in
  let* manifest_identity := match manifest with
                            | Some file => let* i := package (file_identity file) in mret (Some i)
                            | None => mret None
                            end in
  let* receipt_identity := match receipt with
                           | Some file => let* i := package (file_identity file) in mret (Some i)
                           | None => mret None
                           end in
  if negb (on_volume identity manifest_identity) || negb (on_volume identity receipt_identity)
  then mfail FailPackage
  else
    let* unchanged :=
      and_then (let* again := observed (known_shape directory partial) in
                mret (same again (Some shape)))
        (and_then (still_named (let* current := open_slot root name in dir_identity current) identity)
           (and_then (file_still_named directory "manifest.json" manifest_identity)
              (file_still_named directory "ownership-receipt.json" receipt_identity))) in
    if unchanged
    then mret {| ob_unknown_shape := false; ob_directory_identity := identity;
                 ob_manifest := zip manifest_bytes manifest_identity;
                 ob_receipt := zip receipt_bytes receipt_identity |}
    else mfail FailPackage.

(** ** The directory of local plugins *)

(** A name that is a slot in other letters marks the slot as occupied. *)
Definition alias_slot (root : Directory) (parse : string -> outcome OwnershipFailure string)
    (n : OsName) : Reader ReadFailure (option string) :=
  match (name ← to_str n; ok_of (parse (to_ascii_lowercase name))) with
  | Some slot =>
      let* occupied := beside (infallible (canonical_may_be_occupied root slot)) in
      mret (if occupied then Some slot else None)
  | None => mret None
  end.

(** The first loop: the slots by name, the rejected names, the slots occupied. *)
Fixpoint sort_names (root : Directory) (names : list OsName)
    : Reader ReadFailure (list string * Z * list string) :=
  match names with
  | [] => mret ([], 0, [])
  | n :: rest =>
      match parse_slot_name n with
      | Some slot =>
          let* (found, occupied) := sort_names root rest in
          mret (slot :: fst found, snd found, occupied)
      | None =>
          let* alias := alias_slot root PackageSlot_parse n in
          let* (found, occupied) := sort_names root rest in
          mret (fst found, snd found + 1, (option_list alias ++ occupied)%list)
      end
  end.

Definition on_package (limits : ScanLimits) : Reader ReadFailure unit :=
  count_package ;;;
  let* u := mget in
  if su_packages u <=? max_packages limits then mret tt else mfail FailRoot.

(** The second loop: the packages in the order of their slots, and the rejected
    ones. *)
Fixpoint read_packages (root : Directory) (limits : ScanLimits) (slots : list string)
    : Reader ReadFailure (list PackageBytes * Z) :=
  match slots with
  | [] => mret ([], 0)
  | slot :: rest =>
      let* slot := mlift (or_fail FailRoot (PackageSlot_parse slot)) in
      let* object := mtry (read_object root slot limits false (on_package limits)) in
      match object with
      | inl FailRoot => mfail FailRoot
      | inr {| ob_directory_identity := directory;
               ob_manifest := Some (bytes, identity); ob_receipt := receipt |} =>
          let* (packages, rejected) := read_packages root limits rest in
          mret ({| pb_package_slot := slot; pb_directory_identity := directory;
                   pb_manifest_identity := identity; pb_manifest_bytes := bytes;
                   pb_receipt := receipt |} :: packages, rejected)
      | _ =>
          let* (packages, rejected) := read_packages root limits rest in
          mret (packages, rejected + 1)
      end
  end.

(** [None] is a root that could not be read. *)
Definition rooted {A} (c : Reader ReadFailure A) : Reader Empty_set (option A) :=
  let* r := mtry c in mret match r with inr a => Some a | inl _ => None end.

Definition read_local_directory (root : Directory) (limits : ScanLimits)
    : Reader ReadFailure PackageScan :=
  let* names := package (dir_entries root (max_root_entries limits)) in
  mput {| su_root_entries := Z.of_nat (length names); su_packages := 0; su_bytes_read := 0 |} ;;;
  let* (found, occupied) := sort_names root names in
  let slots := merge_sort String.le (fst found) in
  let* (packages, rejected) := read_packages root limits slots in
  let* (occupied, _) := mlift (ok_or FailRoot (finalize_occupied_slots (occupied ++ slots)%list)) in
  let* u := mget in
  mret {| ps_packages := packages; ps_rejected_package_count := snd found + rejected;
          ps_usage := u; ps_occupied_slots := occupied |}.

(** ** The directory of removals *)

(** One name: the objects, the slots occupied and the unknown entries after it. *)
Definition read_removal (root : Directory) (limits : ScanLimits) (n : OsName) (scan : RemovalScan)
    : Reader ReadFailure RemovalScan :=
  let with_slot slot objects :=
    {| rs_objects := (rs_objects scan ++ objects)%list;
       rs_occupied_slots := (rs_occupied_slots scan ++ [slot])%list;
       rs_unknown_count := rs_unknown_count scan; rs_bytes_read := rs_bytes_read scan |} in
  match (name ← to_str n; ok_of (RemovalSlot_parse name)) with
  | None =>
      let* alias := alias_slot root RemovalSlot_parse n in
      mret match alias with
           | Some slot => with_slot slot []
           | None =>
               {| rs_objects := rs_objects scan; rs_occupied_slots := rs_occupied_slots scan;
                  rs_unknown_count := rs_unknown_count scan + 1;
                  rs_bytes_read := rs_bytes_read scan |}
           end
  | Some slot =>
      let* object := mtry (read_object root slot limits true (mret tt)) in
      match object with
      | inr object => mret (with_slot slot [(slot, object)])
      | inl FailRoot => mfail FailRoot
      | inl FailPackage =>
          let* identity := observed (let* directory := open_slot root slot in
                                     dir_identity directory) in
          mret (with_slot slot
                  match identity with
                  | Some identity =>
                      [(slot, {| ob_unknown_shape := true; ob_directory_identity := identity;
                                 ob_manifest := None; ob_receipt := None |})]
                  | None => []
                  end)
      end
  end.

Fixpoint read_removals (root : Directory) (limits : ScanLimits) (names : list OsName)
    (scan : RemovalScan) : Reader ReadFailure RemovalScan :=
  match names with
  | [] => mret scan
  | n :: rest => let* scan := read_removal root limits n scan in read_removals root limits rest scan
  end.

Definition read_removal_directory (root : Directory) (limit : Z) : Reader ReadFailure RemovalScan :=
  let* names := package (dir_entries root 16) in
  let limits := {| max_root_entries := 256; max_packages := 128; max_manifest_bytes := 16 * 1024;
                   max_total_bytes := limit |} in
  let* scan := read_removals root limits (merge_sort name_le names) empty_removal_scan in
  let* (occupied, duplicates) := mlift (ok_or FailRoot (finalize_occupied_slots (rs_occupied_slots scan))) in
  let* unknown := mlift (ok_or FailRoot (u32_checked_add (rs_unknown_count scan) duplicates)) in
  let* u := mget in
  mret {| rs_objects := rs_objects scan; rs_occupied_slots := occupied; rs_unknown_count := unknown;
          rs_bytes_read := su_bytes_read u |}.

(** ** Both *)

(** The child, of the root's volume, read from nothing used; an absent child is
    an empty scan. *)
Definition read_child {A} (root : Directory) (root_identity : FileIdentity) (name : string)
    (absent : A) (read : Directory -> Reader ReadFailure A) : M W Empty_set (option A) :=
  fun w =>
    let reader : Reader Empty_set (option A) :=
      rooted (let* child := package (optional_child root name) in
              match child with
              | None => mret absent
              | Some child =>
                  let* identity := package (dir_identity child) in
                  if volume identity =? volume root_identity then read child else mfail FailRoot
              end) in
    let '(o, (_, w)) := reader (no_usage, w) in (o, w).

Definition read_both_roots (path : string)
    : M W Empty_set (option PackageScan * option RemovalScan) :=
  if negb (safe_root_path path) then mret (None, None)
  else
  let* opened := mtry (open_root (components path)) in
  match opened with
  | inl _ => mret (None, None)
  | inr None => mret (Some empty_package_scan, Some empty_removal_scan)
  | inr (Some root) =>
      let* identity := mtry (dir_identity root) in
      match identity with
      | inl _ => mret (None, None)
      | inr identity =>
          let* local := read_child root identity "local" empty_package_scan
                          (fun child => read_local_directory child production) in
          let* removals := read_child root identity "removal-staging" empty_removal_scan
                             (fun child => read_removal_directory child REMOVAL_BYTE_LIMIT) in
          mret (local, removals)
      end
  end.

(** ** The source of an import *)

(** [None] is a [SourceReadError]. *)
Definition read_manifest_source (path : string) : M W Empty_set (option string) :=
  let parts := split_on separator path in
  if negb (is_absolute path) || ends_with path "/" || existsb is_dots parts
     || existsb is_dot_component (components path)
  then mret None
  else
    match List.rev (components path) with
    | Normal name :: parent =>
        let* opened := mtry (open_root (List.rev parent)) in
        match opened with
        | inr (Some directory) =>
            let* opened := mtry (open_regular_file directory name) in
            match opened with
            | inr file =>
                fun w =>
                  let '(o, (_, w)) := rooted (read_bounded file production) (no_usage, w) in (o, w)
            | inl _ => mret None
            end
        | _ => mret None
        end
    | _ => mret None
    end.

Section Discovery.
Context `{SemverLib} `{Codec json} `{Base64Lib} `{Codec PluginManifest}.
Context `{UuidV4Lib} `{Sha256Lib} `{Codec OwnershipReceiptV1}.

Definition discover_from_plugins_root (root : string) : M W Empty_set LocalDiscoveryOutcome :=
  let* (local, removal) := read_both_roots root in
  mlift (discover_bounded local removal).

Definition discover_with_root (root : option string) : M W Empty_set LocalDiscoveryOutcome :=
  match root with
  | None => mret discovery_unavailable
  | Some root => discover_from_plugins_root root
  end.

(** [SystemLocalPluginDiscovery], given the plugins' directory under that of the
    configuration, if there is one. *)
Definition SystemLocalPluginDiscovery (root : option string) : PluginDiscovery W :=
  {| discover := discover_with_root root |}.
End Discovery.
End Scan.
