(* ===== verification/PluginImport.v ===== *)
(** plugin/import.rs, plugin/import/session.rs and plugin/import/assessment.rs:
    the content of a manifest to import, the preview the user confirms, and the
    one session that carries it from preview to commit; at the end the session
    over time, with the previews shown and taken. *)
From stdpp Require Import gmap strings.
From Stdlib Require Import Ascii.
From S2P Require Import Prelude RustStr External Models Workflow StrategyTypes Supervisor PluginManifest PluginCatalog PluginPackages PluginState PluginRegistry.

Definition invalid_manifest : AppError :=
  plugin_error "plugin_import_manifest_invalid" "清单格式或内容不符合当前插件要求。".
Definition import_busy : AppError :=
  plugin_error "plugin_import_busy" "已有清单导入操作，请先完成或取消。".
Definition invalid_token : AppError :=
  plugin_error "plugin_import_token_invalid" "预览已过期或失效，请重新选择清单。".
Definition import_discovery_unavailable : AppError :=
  plugin_error "plugin_import_discovery_unavailable" "请先修复本地插件发现问题，再导入清单。".

(** The byte order mark. *)
Definition utf8_bom : string := String.string_of_list_ascii (map ascii_of_nat [239; 187; 191]%nat).

Definition MAX_MANIFEST_BYTES : Z := 16384.

Inductive ImportVersionRelation := IncomingLower | SamePrecedence | IncomingHigher.

Section Importing.
Context `{SemverLib} `{Codec json} `{Base64Lib} `{Codec PluginManifest} `{Sha256Lib}.

Record PreparedManifest := {
  prep_record : PluginRecord;
  prep_bytes : string;
}.

Definition PreparedManifest_parse (bytes : string) : outcome AppError PreparedManifest :=
  let? _ := guard ((MAX_MANIFEST_BYTES <? len bytes) || starts_with bytes utf8_bom)
              invalid_manifest in
  let? m := ok_or invalid_manifest (manifest_from_slice bytes) in
  let? record := or_fail invalid_manifest (local_declarative m) in
  let? bytes := or_fail invalid_manifest (record_canonical_bytes record) in
  let? _ := guard (MAX_MANIFEST_BYTES <? len bytes) invalid_manifest in
  Ok {| prep_record := record; prep_bytes := bytes |}.

(** ** assessment.rs *)

Inductive ImportAssessment :=
| NotInCatalog
| ExistingId (current : PluginCatalogItem) (version_relation : ImportVersionRelation).

Definition from_catalog (incoming : PluginManifest) (catalog : list PluginCatalogItem)
    : ImportAssessment :=
  match List.find (fun i => pm_id (i_manifest i) ==s pm_id incoming) catalog with
  | None => NotInCatalog
  | Some current =>
      ExistingId current
        match cmp_precedence (pm_version incoming) (pm_version (i_manifest current)) with
        | Lt => IncomingLower
        | Eq => SamePrecedence
        | Gt => IncomingHigher
        end
  end.

Record ImportPreview := {
  ip_schema_version : Z;
  ip_token : string;
  ip_expires_in_seconds : Z;
  ip_catalog_generation : string;
  ip_manifest : PluginManifest;
  ip_assessment : ImportAssessment;
}.

Definition new_preview (token : string) (generation : Z) (m : PluginManifest)
    (assessment : ImportAssessment) : ImportPreview :=
  {| ip_schema_version := 2; ip_token := token; ip_expires_in_seconds := 300;
     ip_catalog_generation := u64_to_string generation; ip_manifest := m;
     ip_assessment := assessment |}.

(** [ensure_import_available]. *)
Definition ensure_import_available (s : PluginCatalogSnapshot) : outcome AppError unit :=
  let? _ := guard (bool_decide (s_availability s <> CatalogAvailable))
              match s_availability_reason_code s with
              | Some ForCatalog => catalog_invalid
              | _ => state_unavailable
              end in
  guard (bool_decide (lds_status (s_local_discovery s) <> DAvailable))
    import_discovery_unavailable.

(** ** session.rs

    A UUID is its text without hyphens, an instant a number of milliseconds.
    A lease is known by its owner; it gives the session back when dropped. *)

Inductive SessionState :=
| Idle
| Preparing (owner : string)
| Ready (owner token : string) (expires_at generation : Z) (content : PreparedManifest)
| Committing (owner : string).

Definition expire (now : Z) (s : SessionState) : SessionState :=
  match s with
  | Ready _ _ expires_at _ _ => if expires_at <=? now then Idle else s
  | _ => s
  end.

(** Operations under the mutex of the session. *)
Definition Session (A : Type) : Type := SessionState -> outcome AppError A * SessionState.

Definition reserve_prepare (fresh : string) (now : Z) : Session string :=
  fun s => match expire now s with
           | Idle => (Ok fresh, Preparing fresh)
           | s => (Err import_busy, s)
           end.

Record SessionCommit := {
  sc_owner : string;
  sc_generation : Z;
  sc_content : PreparedManifest;
}.

Definition token_shape (token : string) : bool := (len token =? 32) && all_lower_hex token.

Definition claim_commit (token : string) (now : Z) : Session SessionCommit :=
  fun s =>
    let s := expire now s in
    if negb (token_shape token) then (Err invalid_token, s)
    else match s with
         | Ready owner current _ generation content =>
             if current ==s token
             then (Ok {| sc_owner := owner; sc_generation := generation; sc_content := content |},
                   Committing owner)
             else (Err invalid_token, s)
         | _ => (Err invalid_token, s)
         end.

Definition cancel_session (token : string) (now : Z) : Session unit :=
  fun s => match expire now s with
           | Committing owner => (Err import_busy, Committing owner)
           | Ready owner current expires_at generation content =>
               if current ==s token then (Ok tt, Idle)
               else (Ok tt, Ready owner current expires_at generation content)
           | s => (Ok tt, s)
           end.

(** [publish] of a prepare lease: the token is an identifier other than the
    owner's, the first such that was drawn; while there is none the source draws
    again, here it stops. *)
Definition publish_preview (owner : string) (drawn : list string) (content : PreparedManifest)
    (generation : Z) (catalog : list PluginCatalogItem) (now : Z) : Session ImportPreview :=
  fun s => match s with
           | Preparing current =>
               if current ==s owner then
                 match List.find (fun id => id !=s owner) drawn with
                 | Some token =>
                     let m := pr_manifest (prep_record content) in
                     (Ok (new_preview token generation m (from_catalog m catalog)),
                      Ready owner token (now + 300000) generation content)
                 | None => (Halt Panicked, s)
                 end
               else (Err import_busy, s)
           | _ => (Err import_busy, s)
           end.

Definition drop_prepare (owner : string) (s : SessionState) : SessionState :=
  match s with Preparing current => if current ==s owner then Idle else s | _ => s end.
Definition drop_commit (owner : string) (s : SessionState) : SessionState :=
  match s with Committing current => if current ==s owner then Idle else s | _ => s end.
End Importing.

(** * The session over time *)

Section SessionFacts.
Context `{SemverLib} `{Codec json} `{Base64Lib} `{Codec PluginManifest} `{Sha256Lib}.

(** What is called on the sessions of the runtime. *)
Inductive SessionCall :=
| CallReserve (fresh : string) (now : Z)
| CallPublish (owner : string) (drawn : list string) (content : PreparedManifest) (generation : Z)
    (catalog : list PluginCatalogItem) (now : Z)
| CallClaim (token : string) (now : Z)
| CallCancel (token : string) (now : Z)
| CallDropPrepare (owner : string)
| CallDropCommit (owner : string).

(** A preview shown, and a preview taken for a commit. *)
Inductive SessionEvent :=
| Previewed (token : string) (content : PreparedManifest) (generation at_ : Z)
| Taken (token : string) (content : PreparedManifest) (generation at_ : Z).

Definition session_step (c : SessionCall) (s : SessionState) : list SessionEvent * SessionState :=
  match c with
  | CallReserve fresh now => let '(_, s) := reserve_prepare fresh now s in ([], s)
  | CallPublish owner drawn content generation catalog now =>
      match publish_preview owner drawn content generation catalog now s with
      | (Ok preview, s) => ([Previewed (ip_token preview) content generation now], s)
      | (_, s) => ([], s)
      end
  | CallClaim token now =>
      match claim_commit token now s with
      | (Ok lease, s) => ([Taken token (sc_content lease) (sc_generation lease) now], s)
      | (_, s) => ([], s)
      end
  | CallCancel token now => let '(_, s) := cancel_session token now s in ([], s)
  | CallDropPrepare owner => ([], drop_prepare owner s)
  | CallDropCommit owner => ([], drop_commit owner s)
  end.

(** The events of the calls, the oldest first, and the state left. *)
Fixpoint session_run (cs : list SessionCall) (s : SessionState) : list SessionEvent * SessionState :=
  match cs with
  | [] => ([], s)
  | c :: cs =>
      let '(now, s) := session_step c s in
      let '(later, s) := session_run cs s in
      ((now ++ later)%list, s)
  end.

(** The preview that waits, if one does. *)
Definition waiting (s : SessionState) : option SessionEvent :=
  match s with
  | Ready _ token expires_at generation content =>
      Some (Previewed token content generation (expires_at - 300000))
  | _ => None
  end.

(** Every preview taken is the one shown just before, within five minutes. *)
Fixpoint taken_in_turn (shown : option SessionEvent) (es : list SessionEvent) : Prop :=
  match es with
  | [] => True
  | Previewed token content generation at_ :: es =>
      taken_in_turn (Some (Previewed token content generation at_)) es
  | Taken token content generation at_ :: es =>
      (exists shown_at, shown = Some (Previewed token content generation shown_at) /\
                        at_ < shown_at + 300000) /\
      taken_in_turn None es
  end.

(** The preview shown last may have gone, but no other waits. *)
Definition at_most (shown : option SessionEvent) (s : SessionState) : Prop :=
  waiting s = None \/ waiting s = shown.

Lemma expire_waiting now s :
  waiting (expire now s) = None \/
  expire now s = s /\ forall owner token expires_at generation content,
    s = Ready owner token expires_at generation content -> now < expires_at.
Proof.
  destruct s; simpl; try by right. destruct (expires_at <=? now) eqn:E; [by left|right].
  split; [done|]. intros ? ? ? ? ? [= <- <- <- <- <-]. lia.
Qed.

Lemma at_most_gone shown s : waiting s = None -> at_most shown s.
Proof. by left. Qed.

(** One call: its events, and what waits after. *)
Lemma step_in_turn c s shown :
  at_most shown s ->
  let '(es, s') := session_step c s in
  match es with
  | [] => at_most shown s'
  | [Previewed token content generation at_] =>
      waiting s' = Some (Previewed token content generation at_)
  | [Taken token content generation at_] =>
      (exists shown_at, shown = Some (Previewed token content generation shown_at) /\
                        at_ < shown_at + 300000) /\ waiting s' = None
  | _ => False
  end.
Proof.
  intros Hs. destruct c; simpl.
  - unfold reserve_prepare. destruct (expire_waiting now s) as [Hw|[-> _]].
    + destruct (expire now s); try done; by left.
    + destruct s; try done; by left.
  - unfold publish_preview. destruct s as [|current| |]; try done.
    destruct (current ==s owner); [|done]. destruct (List.find _ drawn); [|done].
    simpl. do 2 f_equal. lia.
  - unfold claim_commit. destruct (expire_waiting now s) as [Hw|[-> Hn]].
    + destruct (negb (token_shape token)); [by left|]. destruct (expire now s); try done; by left.
    + destruct (negb (token_shape token)); [done|]. destruct s; try done.
      destruct (token0 ==s token) eqn:Et; [|done]. apply String.eqb_eq in Et as ->. simpl.
      specialize (Hn _ _ _ _ _ eq_refl). destruct Hs as [?|<-]; [done|]. split; [|done].
      exists (expires_at - 300000). split; [done|lia].
  - unfold cancel_session. destruct (expire_waiting now s) as [Hw|[-> _]].
    + destruct (expire now s); try done; by left.
    + destruct s as [| |o current e g c|]; try done.
      destruct (current ==s token); [by left|exact Hs].
  - unfold drop_prepare. destruct s as [|current| |]; try done. destruct (current ==s owner); by left.
  - unfold drop_commit. destruct s as [| | |current]; try done. destruct (current ==s owner); by left.
Qed.

Lemma run_in_turn cs s shown :
  at_most shown s -> taken_in_turn shown (fst (session_run cs s)).
Proof.
  revert s shown. induction cs as [|c cs IH]; intros s shown Hs; [done|]. cbn [session_run].
  pose proof (step_in_turn c s shown Hs) as Hc. destruct (session_step c s) as [es s'].
  destruct (session_run cs s') as [later s2] eqn:El.
  assert (forall shown', at_most shown' s' -> taken_in_turn shown' later) as Hl.
  { intros shown' Hs'. specialize (IH s' shown' Hs'). by rewrite El in IH. }
  destruct es as [|[token content generation at_|token content generation at_] [|]]; try done; simpl.
  - by apply Hl.
  - apply Hl. by right.
  - destruct Hc as [Hx Hw]. split; [done|]. apply Hl. by left.
Qed.
End SessionFacts.
