(* ===== verification/PluginIndexFacts.v ===== *)
(** The ownership index: what its validation decides and what its operations
    do to the entries. *)
From stdpp Require Import gmap strings sorting.
From S2P Require Import Prelude RustStr External Models BTreeMap Workflow StrategyTypes SafeDocument Supervisor PluginManifest PluginCatalog PluginPackages PluginState PluginOwnership.

(** ** Values seen once *)

(** The values are distinct and none was seen before. *)
Definition fresh {A} (seen xs : list A) : Prop := NoDup xs /\ forall x, x ∈ xs -> x ∉ seen.

Lemma fresh_nil {A} (seen : list A) : fresh seen [].
Proof. split; [constructor|]. intros x Hx. by apply elem_of_nil in Hx. Qed.

Lemma fresh_cons {A} (seen : list A) x xs :
  fresh seen (x :: xs) <-> x ∉ seen /\ fresh (x :: seen) xs.
Proof.
  unfold fresh. rewrite NoDup_cons. split.
  - intros [[Hn Hd] Hs]. split; [apply Hs; left|split; [done|]].
    intros y Hy [->|Hin]%elem_of_cons; [done|]. by eapply Hs; [right|].
  - intros [Hx [Hd Hs]]. split; [split; [|done]|].
    + intros Hin. eapply Hs; [exact Hin|left].
    + intros y [->|Hy]%elem_of_cons; [done|]. intros Hin. eapply Hs; [exact Hy|by right].
Qed.

Lemma fresh_app {A} (seen xs ys : list A) :
  fresh seen (xs ++ ys) <-> fresh seen xs /\ fresh (rev xs ++ seen) ys.
Proof.
  revert seen. induction xs as [|x xs IH]; intros seen; simpl.
  - split; [|tauto]. intros Hf. split; [apply fresh_nil|exact Hf].
  - rewrite !fresh_cons, IH, <- app_assoc. simpl. tauto.
Qed.

Lemma fresh_empty {A} (xs : list A) : fresh [] xs <-> NoDup xs.
Proof. unfold fresh. split; [tauto|]. intros Hd. split; [done|]. intros x _. apply not_elem_of_nil. Qed.

Lemma repeats_fresh seen xs : repeats seen xs = false <-> fresh seen xs.
Proof.
  revert seen. induction xs as [|x xs IH]; intros seen; simpl.
  - split; [intros _; apply fresh_nil|done].
  - rewrite orb_false_iff, bool_decide_eq_false, IH, fresh_cons. done.
Qed.

Lemma guarded_ok {E A} (b : bool) (e : E) (k : outcome E A) a :
  (let? _ := guard b e in k) = Ok a <-> b = false /\ k = Ok a.
Proof. destruct b; simpl; naive_solver. Qed.

Section Facts.
Context `{UuidV4Lib}.
Implicit Types (e : ManagedOwnershipEntryV1) (es : list ManagedOwnershipEntryV1)
  (i : ManagedOwnershipIndexV1).

(** ** Validation *)

(** The receipts grow strictly, from [previous] on. *)
Fixpoint growing (previous : option string) es : Prop :=
  match es with
  | [] => True
  | e :: rest =>
      is_some_and (fun p => String.leb (en_receipt_id e) p) previous = false /\
      growing (Some (en_receipt_id e)) rest
  end.

(** No entry is ambiguous: each identifier, directory and file is of one entry. *)
Record unambiguous es : Prop := {
  receipts_distinct : NoDup (map en_receipt_id es);
  package_slots_distinct : NoDup (map en_package_slot es);
  plugins_distinct : NoDup (map (fun e => (en_plugin_id e, en_source e)) es);
  removal_slots_distinct : NoDup (concat (map (fun e => option_list (removal_slot e)) es));
  objects_distinct : NoDup (concat (map object_identities es));
}.

Lemma rev_option_list {A} (x : option A) : rev (option_list x) = option_list x.
Proof. by destruct x. Qed.

Lemma validate_entries_exact previous s es :
  validate_index_entries previous s es = Ok tt <->
  Forall (fun e => entry_validate e = Ok tt) es /\ growing previous es /\
  fresh (seen_receipts s) (map en_receipt_id es) /\
  fresh (seen_packages s) (map en_package_slot es) /\
  fresh (seen_plugins s) (map (fun e => (en_plugin_id e, en_source e)) es) /\
  fresh (seen_removals s) (concat (map (fun e => option_list (removal_slot e)) es)) /\
  fresh (seen_objects s) (concat (map object_identities es)).
Proof.
  revert previous s. induction es as [|e es IH]; intros previous s.
  { simpl. split; [|done]. intros _. split_and!; auto using Forall_nil_2, fresh_nil. }
  cbn [validate_index_entries map concat growing].
  rewrite Forall_cons, !fresh_cons, !fresh_app, <- repeats_fresh, rev_option_list.
  destruct (entry_validate e) as [[]|?|?]; [|split; [done|by intros [[? _] _]]..].
  cbn [obind]. rewrite !guarded_ok, IH. cbn [seen_receipts seen_packages seen_plugins seen_removals seen_objects].
  rewrite !orb_false_iff, !bool_decide_eq_false.
  assert (is_some_and (fun slot => bool_decide (slot ∈ seen_removals s)) (removal_slot e) = false
          <-> fresh (seen_removals s) (option_list (removal_slot e))) as ->.
  { destruct (removal_slot e) as [slot|]; simpl.
    - rewrite bool_decide_eq_false, fresh_cons. split; [|tauto]. intros; auto using fresh_nil.
    - split; [intros; apply fresh_nil|done]. }
  tauto.
Qed.

(** The whole document. *)
Lemma index_validate_exact i :
  index_validate i = Ok tt <->
  ix_schema_version i = OWNERSHIP_SCHEMA_VERSION_V1 /\
  Z.of_nat (length (ix_entries i)) <= MAX_MANAGED_OWNERSHIP_ENTRIES /\
  Forall (fun e => entry_validate e = Ok tt) (ix_entries i) /\ growing None (ix_entries i) /\
  unambiguous (ix_entries i).
Proof.
  unfold index_validate. rewrite !guarded_ok, validate_entries_exact.
  cbn [nothing_seen seen_receipts seen_packages seen_plugins seen_removals seen_objects].
  rewrite !fresh_empty, negb_false_iff, Z.eqb_eq, Z.ltb_ge.
  split; [intros (? & ? & ? & ? & ? & ? & ? & ? & ?); split_and!; [done..|by constructor]|].
  intros (? & ? & ? & ? & []). done.
Qed.

(** ** The order of the entries *)

Lemma growing_after p es :
  growing (Some p) es ->
  Forall (fun e => String.le p (en_receipt_id e)) es /\ StronglySorted receipt_le es.
Proof.
  revert p. induction es as [|e es IH]; intros p; simpl; [by repeat constructor|].
  intros [Hp Hg]. destruct (IH _ Hg) as [Hf Hs].
  assert (String.le p (en_receipt_id e)) as Hle.
  { destruct (total String.le p (en_receipt_id e)) as [?|Hle]; [done|].
    unfold String.le in Hle. rewrite Hp in Hle. done. }
  split; [|by constructor]. constructor; [done|]. eapply Forall_impl; [exact Hf|].
  intros x Hx. by transitivity (en_receipt_id e).
Qed.

Lemma growing_sorted es : growing None es -> StronglySorted receipt_le es.
Proof.
  destruct es as [|e es]; [constructor|]. intros [_ Hg].
  destruct (growing_after _ _ Hg) as [Hf Hs]. by constructor.
Qed.

(** Entries in order are what sorting makes of them. *)
Lemma sort_receipts es :
  StronglySorted receipt_le es -> NoDup (map en_receipt_id es) -> merge_sort receipt_le es = es.
Proof.
  intros Hs Hd. pose proof (merge_sort_Permutation receipt_le es) as Hp.
  apply (StronglySorted_unique_strong receipt_le); [|apply StronglySorted_merge_sort|done|done].
  - intros x y Hx Hy Hxy Hyx. rewrite Hp in Hx. eapply NoDup_map_inj; [done..|].
    by apply (anti_symm String.le).
  - intros x y z. unfold receipt_le. apply transitivity.
  - intros x y. apply (total String.le).
Qed.

(** ** Entries changed *)

Section Update.
Context (receipt : string) (f : ManagedOwnershipEntryV1 -> ManagedOwnershipEntryV1).
Hypothesis Hf : forall e, en_receipt_id (f e) = en_receipt_id e.

Lemma update_receipts es :
  map en_receipt_id (update_receipt receipt f es) = map en_receipt_id es.
Proof.
  induction es as [|e es IH]; [done|]. simpl. case_match; simpl; [by rewrite Hf|by rewrite IH].
Qed.

Lemma update_twice g es :
  update_receipt receipt g (update_receipt receipt f es) =
  update_receipt receipt (fun e => g (f e)) es.
Proof.
  induction es as [|e es IH]; [done|]. simpl.
  destruct (en_receipt_id e ==s receipt) eqn:E; simpl; [by rewrite Hf, E|by rewrite E, IH].
Qed.

Lemma update_found es e :
  find_receipt receipt es = Some e -> f e ∈ update_receipt receipt f es.
Proof.
  unfold find_receipt. induction es as [|x es IH]; [done|]. simpl.
  case_match; [intros [= <-]; left|right; auto].
Qed.

Lemma find_updated es :
  find_receipt receipt (update_receipt receipt f es) = f <$> find_receipt receipt es.
Proof.
  unfold find_receipt. induction es as [|x es IH]; [done|]. simpl.
  destruct (en_receipt_id x ==s receipt) eqn:E; simpl; [by rewrite Hf, E|by rewrite E].
Qed.

Lemma update_unfound es :
  find_receipt receipt es = None -> update_receipt receipt f es = es.
Proof.
  unfold find_receipt. induction es as [|x es IH]; [done|]. simpl. case_match; [done|].
  intros Hn. by rewrite IH.
Qed.

Lemma update_nothing es :
  (forall e, find_receipt receipt es = Some e -> f e = e) -> update_receipt receipt f es = es.
Proof.
  unfold find_receipt. induction es as [|x es IH]; [done|]. simpl. case_match; intros Hs.
  - by rewrite Hs.
  - by rewrite IH.
Qed.
End Update.

Lemma sorted_receipts es :
  StronglySorted receipt_le es <-> StronglySorted String.le (map en_receipt_id es).
Proof.
  induction es as [|e es IH]; simpl; [split; constructor|].
  rewrite !StronglySorted_cons, IH, Forall_map. done.
Qed.

(** ** Operations *)

Section Operations.
Context `{Codec IndexWire}.

(** The revision is no part of what is validated. *)
Lemma validate_entries_only i i' :
  ix_schema_version i' = ix_schema_version i -> ix_entries i' = ix_entries i ->
  index_validate i' = index_validate i.
Proof. unfold index_validate. by intros -> ->. Qed.

Lemma persistable_valid i :
  index_validate_for_persistence i = Ok tt -> index_validate i = Ok tt.
Proof. unfold index_validate_for_persistence. intros E. run_ok. by destruct_var unit. Qed.

Lemma finish_changed_spec es i i' :
  finish_changed (with_entries es i) i = Ok i' ->
  ix_entries i' = merge_sort receipt_le es /\ index_validate i' = Ok tt /\
  (ix_revision i' = ix_revision i + 1 /\ ix_revision i' <= u64_max \/ i' = i).
Proof.
  unfold finish_changed. cbn [with_entries ix_entries ix_schema_version ix_revision].
  intros E. run_ok. destruct_var unit.
  match goal with H : index_validate_for_persistence _ = _ |- _ => apply persistable_valid in H end.
  case_bool_decide; run_ok.
  - split_and!; [done| |by right]. by erewrite <- validate_entries_only.
  - match goal with H : u64_checked_add _ _ = Some _ |- _ =>
      unfold u64_checked_add in H; case_match; [|done]; injection H as <- end.
    split_and!; [done|by erewrite validate_entries_only|left; simpl; lia].
Qed.

(** What every operation keeps of the index. *)
Definition changed_index i i' : Prop :=
  index_validate i' = Ok tt /\
  (ix_revision i' = ix_revision i + 1 /\ ix_revision i' <= u64_max \/ i' = i).

Lemma register_spec e i i' :
  index_validate i = Ok tt -> index_register e i = Ok i' ->
  changed_index i i' /\ e ∈ ix_entries i' /\ forall x, x ∈ ix_entries i -> x ∈ ix_entries i'.
Proof.
  intros Hv. unfold index_register. case_match eqn:E.
  - intros [= <-]. split; [split; [done|by right]|]. split; [|done].
    apply existsb_exists in E as (x & Hx & Hs). unfold same in Hs. bools. subst.
    by apply list_elem_of_In.
  - intros (He & Hi)%finish_changed_spec. split; [exact Hi|]. rewrite He.
    setoid_rewrite merge_sort_Permutation.
    split; [apply elem_of_app; right; by left|intros; apply elem_of_app; by left].
Qed.

(** The entry of the receipt is in removal. *)
Definition removing_in i receipt slot : Prop :=
  exists e, e ∈ ix_entries i /\ en_receipt_id e = receipt /\ removal_slot e = Some slot.

Lemma begin_removal_entry receipt slot i i' :
  index_begin_removal receipt slot i = Ok i' -> removing_in i' receipt slot.
Proof.
  unfold index_begin_removal.
  destruct (find_receipt receipt (ix_entries i)) as [e|] eqn:Ef; [|done].
  pose proof Ef as Hfind. apply find_some in Hfind as [Hin%list_elem_of_In Hid].
  apply String.eqb_eq in Hid.
  destruct (en_lifecycle e) as [|current] eqn:El.
  - intros E. run_ok. apply finish_changed_spec in E as (He & Hi).
    exists (entry_begin_removal slot e). split_and!; [|done..].
    rewrite He, merge_sort_Permutation. by apply update_found.
  - case_match eqn:Es; [|done]. intros [= <-]. apply String.eqb_eq in Es as ->.
    exists e. split_and!; [done..|]. unfold removal_slot. by rewrite El.
Qed.

Lemma begin_removal_changed receipt slot i i' :
  index_validate i = Ok tt -> index_begin_removal receipt slot i = Ok i' -> changed_index i i'.
Proof.
  intros Hv. unfold index_begin_removal. repeat case_match; try done.
  - intros E. run_ok. by apply finish_changed_spec in E as (_ & Hi).
  - intros [= <-]. split; [done|by right].
Qed.

Lemma restore_changed receipt i i' :
  index_restore_managed receipt i = Ok i' -> changed_index i i'.
Proof. by intros (_ & Hi)%finish_changed_spec. Qed.

Lemma remove_spec receipt i i' :
  index_remove receipt i = Ok i' ->
  changed_index i i' /\
  forall e, e ∈ ix_entries i' <-> e ∈ ix_entries i /\ en_receipt_id e <> receipt.
Proof.
  intros (He & Hi)%finish_changed_spec. split; [exact Hi|]. intros e.
  rewrite He, merge_sort_Permutation, !list_elem_of_In, filter_In, negb_true_iff, String.eqb_neq.
  done.
Qed.

(** ** Rolling a removal back *)

Lemma valid_in_order i :
  index_validate i = Ok tt -> StronglySorted receipt_le (ix_entries i) /\ NoDup (map en_receipt_id (ix_entries i)).
Proof. intros (_ & _ & _ & Hg & [])%index_validate_exact. auto using growing_sorted. Qed.

Lemma updated_in_order receipt f i :
  (forall e, en_receipt_id (f e) = en_receipt_id e) -> index_validate i = Ok tt ->
  merge_sort receipt_le (update_receipt receipt f (ix_entries i)) =
  update_receipt receipt f (ix_entries i).
Proof.
  intros Hf [Hs Hd]%valid_in_order.
  apply sort_receipts; rewrite ?sorted_receipts, update_receipts by done; [|done].
  by apply sorted_receipts.
Qed.

Lemma begin_removal_managed receipt slot i i1 e :
  index_validate i = Ok tt -> find_receipt receipt (ix_entries i) = Some e ->
  en_lifecycle e = Managed -> index_begin_removal receipt slot i = Ok i1 ->
  i1 = with_revision (ix_revision i + 1)
         (with_entries (update_receipt receipt (entry_begin_removal slot) (ix_entries i)) i) /\
  ix_revision i + 2 <= u64_max.
Proof.
  intros Hv Hfind Hm. unfold index_begin_removal. rewrite Hfind, Hm. intros E. run_ok.
  match goal with H : require_revision_headroom _ _ = _ |- _ =>
    unfold require_revision_headroom in H; run_ok end.
  match goal with H : u64_checked_add _ _ = Some _ |- _ =>
    unfold u64_checked_add in H; case_match; [|done]; injection H as <- end.
  unfold finish_changed in E. cbn [with_entries ix_entries ix_schema_version ix_revision] in E.
  rewrite updated_in_order in E by done. run_ok. split; [|lia].
  case_bool_decide as Heq.
  - apply (f_equal (find_receipt receipt)) in Heq. rewrite find_updated, Hfind in Heq by done.
    injection Heq as Heq. rewrite <- Heq in Hm. done.
  - run_ok. match goal with H : u64_checked_add _ _ = Some _ |- _ =>
      unfold u64_checked_add in H; case_match; [|done]; by injection H as <- end.
Qed.

(** Restoring what a removal began gives the entries back. *)
Lemma restore_begun receipt slot i e :
  find_receipt receipt (ix_entries i) = Some e -> en_lifecycle e = Managed ->
  update_receipt receipt entry_restore_managed
    (update_receipt receipt (entry_begin_removal slot) (ix_entries i)) = ix_entries i.
Proof.
  intros Hfind Hm. rewrite update_twice by done. apply update_nothing. intros x Hx.
  rewrite Hfind in Hx. injection Hx as <-. destruct e; simpl in *. by subst.
Qed.
End Operations.
End Facts.
