(* ===== verification/PluginRegistryFacts.v ===== *)
(** How the registry advances: what every operation keeps of a registry whose
    snapshot was served, and how its versions grow. *)
From stdpp Require Import gmap strings sorting.
From S2P Require Import Prelude RustStr FileSystem External Models BTreeMap Workflow StrategyTypes StrategyStore SafeDocument Supervisor PluginManifest PluginCatalog PluginPackages PluginState PluginOwnership PluginRegistry.

(** ** Weakest preconditions of the combinators *)

Lemma wp_any {W E A : Type} (c : M W E A) (w : W) :
  wp c (fun _ _ => True) (fun _ _ => True) (fun _ => True) w.
Proof. unfold wp. by destruct (c w) as [[]]. Qed.

Lemma wp_beside {S W E A : Type} (c : M W E A) (Q : A -> S * W -> Prop) (R : E -> S * W -> Prop)
    (C : S * W -> Prop) (s : S) (w : W) :
  wp c (fun a w' => Q a (s, w')) (fun e w' => R e (s, w')) (fun w' => C (s, w')) w ->
  wp (beside c) Q R C (s, w).
Proof. unfold wp, beside. simpl. by destruct (c w) as [[] w']. Qed.

(** Nothing of the world matters, only the state beside it. *)
Lemma wp_beside_any {S W E A : Type} (c : M W E A) (Q : A -> S * W -> Prop)
    (R : E -> S * W -> Prop) (C : S * W -> Prop) (s : S) (w : W) :
  (forall a w', Q a (s, w')) -> (forall e w', R e (s, w')) -> (forall w', C (s, w')) ->
  wp (beside c) Q R C (s, w).
Proof. intros. apply wp_beside. eapply wp_mono; [apply wp_any|auto..]. Qed.

(** A call whose error is a value. *)
Lemma wp_beside_try {S W E F A : Type} (c : M W E A) (Q : E + A -> S * W -> Prop)
    (R : F -> S * W -> Prop) (C : S * W -> Prop) (s : S) (w : W) :
  (forall a w', Q a (s, w')) -> (forall w', C (s, w')) -> wp (beside (mtry c)) Q R C (s, w).
Proof. intros. apply wp_beside, wp_try. eapply wp_mono; [apply wp_any|auto..]. Qed.

Lemma wp_get {S W E : Type} (Q : S -> S * W -> Prop) (R : E -> S * W -> Prop) C (s : S) (w : W) :
  Q s (s, w) -> wp mget Q R C (s, w).
Proof. done. Qed.
Lemma wp_put {S W E : Type} (s' : S) (Q : unit -> S * W -> Prop) (R : E -> S * W -> Prop) C
    (s : S) (w : W) :
  Q tt (s', w) -> wp (mput s') Q R C (s, w).
Proof. done. Qed.
Lemma wp_lift_outcome {W E A : Type} (x : outcome E A) (Q : A -> W -> Prop) (R : E -> W -> Prop) C w :
  (forall a, x = Ok a -> Q a w) -> (forall e, x = Err e -> R e w) -> C w ->
  wp (mlift x) Q R C w.
Proof. unfold wp, mlift. destruct x; auto. Qed.
Lemma wp_catch {W E F A : Type} (c : M W E A) (Q : option (E + A) -> W -> Prop)
    (R : F -> W -> Prop) C w :
  wp c (fun a => Q (Some (inr a))) (fun e => Q (Some (inl e))) (fun w => Q None w /\ C w) w ->
  wp (mcatch c) Q R C w.
Proof. unfold wp, mcatch. destruct (c w) as [[a|e|[]] w']; tauto. Qed.

(** Take one step of a computation beside a state. *)
Ltac wp_reg :=
  cbn beta iota;
  lazymatch goal with
  | |- wp (mbind _ _) _ _ _ _ => apply wp_bind
  | |- wp (mret _) _ _ _ _ => apply wp_ret
  | |- wp (mfail _) _ _ _ _ => apply wp_fail
  | |- wp mget _ _ _ _ => apply wp_get
  | |- wp (mput _) _ _ _ _ => apply wp_put
  | |- wp (mtry _) _ _ _ _ => apply wp_try
  | |- wp (mcatch _) _ _ _ _ => apply wp_catch
  | |- wp (mmap_err _ _) _ _ _ _ => apply wp_map_err
  | |- wp (mlift _) _ _ _ _ => apply wp_lift_outcome; [| |]
  end.

Section Facts.
Context `{SemverLib} `{Codec json} `{Base64Lib} `{Codec PluginManifest} `{Sha256Lib}.
Context `{UuidV4Lib} `{Codec OwnershipReceiptV1} `{Codec IndexWire} `{Codec StateWire}.
Implicit Types (r : PluginRegistry) (p : CatalogPublicationCandidate) (s : PluginStateFileV2).

(** ** Versions *)

(** The generation and the revision a snapshot carries. *)
Definition version_is (x : PluginCatalogSnapshot) (g v : Z) : Prop :=
  in_u64 g /\ in_u64 v /\
  s_catalog_generation x = u64_to_string g /\ s_revision x = u64_to_string v.

Lemma version_is_unique x g v g' v' :
  version_is x g v -> version_is x g' v' -> g = g' /\ v = v'.
Proof.
  intros (Hg & Hv & Eg & Ev) (Hg' & Hv' & Eg' & Ev').
  split; apply u64_to_string_inj; congruence.
Qed.

(** The same snapshot, or one of a greater version. *)
Definition snapshot_later (x y : PluginCatalogSnapshot) : Prop :=
  y = x \/
  exists g v g' v', version_is x g v /\ version_is y g' v' /\ (g < g' \/ g = g' /\ v < v').

Lemma snapshot_later_refl x : snapshot_later x x.
Proof. by left. Qed.

Lemma snapshot_later_trans x y z : snapshot_later x y -> snapshot_later y z -> snapshot_later x z.
Proof.
  intros [->|(g & v & g1 & v1 & Hx & Hy & Hl)] [->|(g2 & v2 & g3 & v3 & Hy' & Hz & Hl')];
    [by left|right; eauto 10|right; eauto 10|].
  destruct (version_is_unique _ _ _ _ _ Hy Hy') as [<- <-].
  right. exists g, v, g3, v3. split_and!; [done..|lia].
Qed.

(** Two snapshots of one version in such an order are the same. *)
Lemma snapshot_later_same x y :
  snapshot_later x y -> s_revision x = s_revision y ->
  s_catalog_generation x = s_catalog_generation y -> x = y.
Proof.
  intros [->|(g & v & g' & v' & (Hg & Hv & Eg & Ev) & (Hg' & Hv' & Eg' & Ev') & Hl)] Er Ec; [done|].
  assert (g = g') by (apply u64_to_string_inj; congruence).
  assert (v = v') by (apply u64_to_string_inj; congruence). lia.
Qed.

(** ** State documents *)

(** A later revision, or the same with the same decisions. *)
Definition state_later s s' : Prop :=
  f_revision s < f_revision s' \/
  f_revision s = f_revision s' /\ forall record, is_enabled s' record = is_enabled s record.

Lemma state_later_refl s : state_later s s.
Proof. by right. Qed.
Lemma state_later_trans s1 s2 s3 : state_later s1 s2 -> state_later s2 s3 -> state_later s1 s3.
Proof.
  intros [Hl|[El He]] [Hl'|[El' He']]; [left; lia..|].
  right. split; [congruence|]. intros record. by rewrite He', He.
Qed.

(** Which runtime may follow which while the generation goes from [g] to [g']. *)
Definition runtime_later (g g' : Z) (a b : Runtime) : Prop :=
  match a, b with
  | RAvailable s _, RAvailable s' _ => state_later s s'
  | RUnavailable x, RUnavailable y => x = y
  | RUnavailable _, RAvailable _ _ => g < g'
  | RAvailable _ _, RUnavailable _ => False
  end.

Lemma runtime_later_refl g g' a : runtime_later g g' a a.
Proof. destruct a; simpl; [apply state_later_refl|done]. Qed.
Lemma runtime_later_trans g1 g2 g3 a b c :
  g1 <= g2 -> g2 <= g3 ->
  runtime_later g1 g2 a b -> runtime_later g2 g3 b c -> runtime_later g1 g3 a c.
Proof.
  destruct a, b, c; simpl; try done; try (intros; lia).
  - intros _ _. apply state_later_trans.
  - intros _ _. congruence.
Qed.

(** What a runtime holds is typed. *)
Definition runtime_typed (a : Runtime) : Prop :=
  match a with RAvailable s _ => in_u64 (f_revision s) | RUnavailable _ => True end.

(** ** A registry whose snapshot was served *)

(** The documents may be ahead of the snapshot; at the snapshot's own revision
    it is the projection of the publication. *)
Definition served r : Prop :=
  let p := publication r in
  in_u64 (catalog_generation p) /\ runtime_typed (runtime p) /\
  match runtime p with
  | RAvailable s _ =>
      exists v, version_is (snapshot p) (catalog_generation p) v /\ v <= f_revision s /\
        s_availability (snapshot p) = CatalogAvailable /\
        s_availability_reason_code (snapshot p) = None /\
        (v = f_revision s -> snapshot p = derive_snapshot (builtins r) p)
  | RUnavailable _ => snapshot p = derive_snapshot (builtins r) p
  end.

(** One registry may follow the other under the lock. *)
Definition later r r' : Prop :=
  builtins r' = builtins r /\
  catalog_generation (publication r) <= catalog_generation (publication r') /\
  runtime_later (catalog_generation (publication r)) (catalog_generation (publication r'))
    (runtime (publication r)) (runtime (publication r')) /\
  snapshot_later (catalog_snapshot r) (catalog_snapshot r').

Lemma later_refl r : later r r.
Proof. split_and!; [done|lia|apply runtime_later_refl|apply snapshot_later_refl]. Qed.
Lemma later_trans r1 r2 r3 : later r1 r2 -> later r2 r3 -> later r1 r3.
Proof.
  intros (Hb & Hg & Hr & Hs) (Hb' & Hg' & Hr' & Hs'). split_and!.
  - congruence.
  - lia.
  - by eapply runtime_later_trans.
  - by eapply snapshot_later_trans.
Qed.

(** The revision a derived snapshot shows. *)
Definition shown_revision (a : Runtime) : Z :=
  match a with RAvailable s _ => f_revision s | RUnavailable _ => 0 end.

Lemma derived_version b p :
  in_u64 (catalog_generation p) -> runtime_typed (runtime p) ->
  version_is (derive_snapshot b p) (catalog_generation p) (shown_revision (runtime p)).
Proof.
  intros Hg Hr. unfold derive_snapshot. destruct (runtime p) as [s ?|?]; simpl in *.
  - by split_and!.
  - split_and!; done.
Qed.

Lemma served_version r :
  served r -> exists v, version_is (catalog_snapshot r) (catalog_generation (publication r)) v /\
                        v <= shown_revision (runtime (publication r)).
Proof.
  intros (Hg & Ht & Hm). unfold catalog_snapshot.
  destruct (runtime (publication r)) as [s rw|reason] eqn:Er.
  - destruct Hm as (v & Hv & Hle & _). by exists v.
  - rewrite Hm. exists 0. split; [|simpl; lia].
    pose proof (derived_version (builtins r) (publication r) Hg) as Hd.
    rewrite Er in Hd. by apply Hd.
Qed.

(** ** Publication *)

(** A publication that may be put in the place of the registry's. *)
Definition runtime_follows (a b : Runtime) : Prop :=
  match a, b with
  | RAvailable s _, RAvailable s' _ => state_later s s'
  | RUnavailable x, RUnavailable y => x = y
  | RUnavailable _, RAvailable _ _ => True
  | RAvailable _ _, RUnavailable _ => False
  end.

Lemma runtime_later_follows g g' a b : runtime_later g g' a b -> runtime_follows a b.
Proof. by destruct a, b. Qed.
Lemma runtime_follows_refl a : runtime_follows a a.
Proof. destruct a; simpl; [apply state_later_refl|done]. Qed.
Lemma runtime_follows_trans a b c :
  runtime_follows a b -> runtime_follows b c -> runtime_follows a c.
Proof.
  destruct a, b, c; simpl; try done; [apply state_later_trans|congruence].
Qed.

Definition may_follow r p : Prop :=
  catalog_generation (publication r) <= catalog_generation p /\
  in_u64 (catalog_generation p) /\ runtime_typed (runtime p) /\
  runtime_follows (runtime (publication r)) (runtime p).

Lemma derive_with_snapshot b x p : derive_snapshot b (with_snapshot x p) = derive_snapshot b p.
Proof. done. Qed.

Lemma derive_with_generation b g p :
  snapshot p = derive_snapshot b p ->
  snapshot (with_generation g p) = derive_snapshot b (with_generation g p).
Proof. intros E. simpl. rewrite E. unfold derive_snapshot. simpl. by destruct (runtime p). Qed.

Lemma derived_served b p u :
  in_u64 (catalog_generation p) -> runtime_typed (runtime p) ->
  snapshot p = derive_snapshot b p ->
  served {| builtins := b; publication := p; removal_authority_unreconciled := u |}.
Proof.
  intros Hg Ht E. split_and!; [done..|]. simpl. pose proof (derived_version b p Hg Ht) as Hv.
  rewrite <- E in Hv. destruct (runtime p) as [s rw|reason] eqn:Er; [|done].
  exists (f_revision s). split_and!; [done|lia| | |done].
  - rewrite E. unfold derive_snapshot. by rewrite Er.
  - rewrite E. unfold derive_snapshot. by rewrite Er.
Qed.

Lemma u64_checked_add_some a b c :
  u64_checked_add a b = Some c -> c = a + b /\ c <= u64_max.
Proof. unfold u64_checked_add. case_match eqn:E; [|done]. intros [= <-]. lia. Qed.

(** What a publication that is not structural leaves alone. *)
Lemma not_structural next old first :
  structural next old first = false ->
  s_availability (snapshot next) = s_availability (snapshot old) /\
  (s_revision (snapshot next) = s_revision (snapshot old) -> snapshot next = snapshot old).
Proof.
  unfold structural, same. intros E. bools. split; [done|]. intros Er.
  match goal with H : (_ ==s _) && _ = false |- _ => rename H into Hs end.
  apply String.eqb_eq in Er. rewrite Er in Hs. simpl in Hs. by bools.
Qed.

(** Publishing what may follow goes to a later registry. *)
Lemma publish_later r p first r' b :
  served r -> may_follow r p -> publish_candidate r p first = Ok (r', b) ->
  served r' /\ later r r' /\ runtime (publication r') = runtime p /\
  ownership (publication r') = ownership p.
Proof.
  intros Hs (Hle & Hg & Ht & Hf) Hp. unfold publish_candidate in Hp.
  set (next := with_snapshot (derive_snapshot (builtins r) p) p) in Hp.
  destruct (structural next (publication r) first) eqn:E.
  - cbn [obind] in Hp. destruct (u64_checked_add _ 1) as [g|] eqn:Eg; simpl in Hp; [|done].
    apply u64_checked_add_some in Eg as [-> Hmax]. injection Hp as <- _.
    pose proof (proj1 Hs) as [Hg0 _].
    assert (served (with_publication (with_generation (catalog_generation (publication r) + 1) next) r))
      as Hs'.
    { apply derived_served; simpl; [split; lia|done|].
      apply (derive_with_generation _ _ next eq_refl). }
    split_and!; [done| |done..]. split_and!; [done|simpl; lia| |].
    + simpl. destruct (runtime (publication r)), (runtime p); simpl in *; try done. lia.
    + destruct (served_version _ Hs) as (v & Hv & _).
      destruct (served_version _ Hs') as (v' & Hv' & _). right. simpl in Hv'.
      exists (catalog_generation (publication r)), v, (catalog_generation (publication r) + 1), v'.
      split_and!; [done..|left; lia].
  - simpl in Hp. injection Hp as <- _.
    apply not_structural in E as [Ea Er].
    assert (served (with_publication next r)) as Hs' by by apply derived_served.
    assert (later r (with_publication next r)) as Hl.
    { split_and!; [done|done| |].
      - simpl. destruct Hs as (_ & _ & Hm).
        destruct (runtime (publication r)) as [s rw|reason] eqn:E1, (runtime p) as [s' rw'|reason'] eqn:E2;
          simpl in *; try done.
        exfalso. rewrite Hm in Ea. unfold derive_snapshot in Ea. rewrite E1, E2 in Ea. done.
      - destruct (decide (s_revision (snapshot next) = s_revision (snapshot (publication r))))
          as [Eq|Hne]; [left; by apply Er|].
        destruct (served_version _ Hs) as (v & Hv & Hve). right.
        exists (catalog_generation (publication r)), v, (catalog_generation p), (shown_revision (runtime p)).
        pose proof (derived_version (builtins r) p Hg Ht) as Hd.
        split_and!; [done|done|].
        assert (v <= shown_revision (runtime p) /\ v <> shown_revision (runtime p)) as [? ?]; [|lia].
        split.
        + destruct (runtime (publication r)) as [s rw|], (runtime p) as [s' rw'|]; simpl in *; try lia.
          * destruct Hf as [?|[? _]]; lia.
          * destruct Ht. lia.
        + intros ->. apply Hne. destruct Hv as (_ & _ & _ & Ev), Hd as (_ & _ & _ & Ed).
          unfold catalog_snapshot in Ev. simpl. congruence. }
    split_and!; done.
Qed.

(** ** Documents replaced *)

Lemma derive_same_decisions b p s rw s' rw' :
  runtime p = RAvailable s rw -> f_revision s' = f_revision s ->
  (forall record, is_enabled s' record = is_enabled s record) ->
  derive_snapshot b (with_runtime (RAvailable s' rw') p) = derive_snapshot b p.
Proof.
  intros Er Ev Hd. unfold derive_snapshot. simpl. rewrite Er, Ev. f_equal.
  apply map_ext. intros record. unfold snapshot_item. simpl. by rewrite Er, Hd.
Qed.

(** A later state in the place of the registry's, under the old snapshot. *)
Lemma with_runtime_later r s rw s' rw' :
  served r -> runtime (publication r) = RAvailable s rw -> state_later s s' ->
  in_u64 (f_revision s') ->
  let r' := with_publication (with_runtime (RAvailable s' rw') (publication r)) r in
  served r' /\ later r r'.
Proof.
  intros (Hg & Ht & Hm) Er Hl Hu r'. subst r'. rewrite Er in Hm.
  destruct Hm as (v & Hv & Hle & Ha & Hn & Hd).
  assert (f_revision s <= f_revision s') by (destruct Hl as [?|[? _]]; lia).
  split.
  - split_and!; [done..|]. simpl. exists v. split_and!; [done|lia|done|done|].
    intros ->. destruct Hl as [?|[E He]]; [lia|].
    rewrite (derive_same_decisions _ _ _ _ _ _ Er) by done. apply Hd. lia.
  - split_and!; [done|simpl; lia| |apply snapshot_later_refl]. simpl. by rewrite Er.
Qed.

(** An index in the place of the registry's. *)
Lemma with_ownership_later r o :
  served r ->
  let r' := with_publication (with_ownership o (publication r)) r in
  served r' /\ later r r'.
Proof.
  intros Hs r'. subst r'. split.
  - destruct Hs as (Hg & Ht & Hm). split_and!; [done..|]. simpl.
    by destruct (runtime (publication r)).
  - split_and!; [done|simpl; lia|apply runtime_later_refl|apply snapshot_later_refl].
Qed.

(** The documents of a candidate adopted under the old snapshot. *)
Lemma with_documents_later r c :
  served r -> runtime_typed (runtime (publication c)) ->
  runtime_later 0 0 (runtime (publication r)) (runtime (publication c)) ->
  served (with_documents c r) /\ later r (with_documents c r).
Proof.
  intros Hs Ht Hl.
  destruct (runtime (publication r)) as [s rw|x] eqn:E, (runtime (publication c)) as [s' rw'|y] eqn:E';
    simpl in *; try done; [|subst y].
  - destruct (with_runtime_later r s rw s' rw' Hs E Hl Ht) as [Hs1 Hl1].
    destruct (with_ownership_later _ (ownership (publication c)) Hs1) as [Hs2 Hl2].
    unfold with_documents. rewrite E'. split; [exact Hs2|by eapply later_trans].
  - assert (with_runtime (RUnavailable x) (publication r) = publication r) as Eq.
    { unfold with_runtime. rewrite <- E. by destruct (publication r). }
    unfold with_documents. rewrite E', Eq. by apply with_ownership_later.
Qed.

Lemma with_unreconciled_later r r' u : served r' /\ later r r' ->
  served (with_unreconciled u r') /\ later r (with_unreconciled u r').
Proof. by intros [Hs Hl]. Qed.

(** ** Decisions *)

Lemma is_enabled_perm s s' record :
  f_entries s' ≡ₚ f_entries s -> is_enabled s' record = is_enabled s record.
Proof.
  intros Hp. unfold is_enabled. apply eq_true_iff_eq. rewrite !existsb_exists.
  setoid_rewrite <- list_elem_of_In. by setoid_rewrite Hp.
Qed.

Lemma next_decision_later s rw record enabled next :
  in_u64 (f_revision s) -> next_decision s rw record enabled = Ok (Some next) ->
  state_later s next /\ in_u64 (f_revision next).
Proof.
  intros Hu Hn. unfold next_decision in Hn. run_ok. case_match; [done|]. run_ok.
  match goal with H : (if _ then _ else _) = Ok _ |- _ => rename H into Hc end.
  case_match eqn:E; run_ok.
  - match goal with H : u64_checked_add _ _ = Some _ |- _ =>
      apply u64_checked_add_some in H as [-> Hmax] end.
    destruct Hu. split; [left; simpl; lia|split; simpl; lia].
  - unfold same in E. bools. simpl in E. split; [|done]. right. split; [done|].
    intros record'. apply is_enabled_perm. simpl. rewrite E. apply merge_sort_Permutation.
Qed.

Lemma decided_later r s rw next :
  served r -> runtime (publication r) = RAvailable s rw -> state_later s next ->
  in_u64 (f_revision next) -> served (decided r next) /\ later r (decided r next).
Proof.
  intros Hs Er Hl Hu.
  destruct (with_runtime_later r s rw next false Hs Er Hl Hu) as [Hs1 Hl1].
  set (r1 := with_publication (with_runtime (RAvailable next false) (publication r)) r) in *.
  assert (served (decided r next)) as Hd.
  { apply derived_served; simpl; [apply Hs|done|done]. }
  split; [done|]. eapply later_trans; [exact Hl1|].
  split_and!; [done|simpl; lia|apply runtime_later_refl|].
  destruct Hs1 as (_ & _ & v & Hv & Hle & _ & _ & Hsame).
  destruct (decide (v = f_revision next)) as [->|Hne].
  - left. unfold catalog_snapshot. rewrite Hsame by done. done.
  - right. exists (catalog_generation (publication r)), v, (catalog_generation (publication r)),
      (f_revision next).
    split_and!; [exact Hv| |right; simpl in Hle; lia].
    pose proof (derived_version (builtins r)
      (with_runtime (RAvailable next false) (publication r)) (proj1 Hs) Hu) as Hd'. exact Hd'.
Qed.

(** ** Operations *)

Section World.
Context {W : Type} `{PluginStatePersistence W} `{ManagedOwnershipPersistence W}.

(** A load answers a revision of 64 bits. *)
Definition loads_typed : Prop :=
  forall w l w', state_load w = (Ok l, w') -> in_u64 (f_revision (pl_state l)).

(** Where an operation may leave the registry it began with. *)
Definition onward r (rw : PluginRegistry * W) : Prop := served rw.1 /\ later r rw.1.

Lemma onward_refl r w : served r -> onward r (r, w).
Proof. split; [done|apply later_refl]. Qed.

(** Every end of an operation is onward. *)
Definition goes_on {E A} (c : M (PluginRegistry * W) E A) : Prop :=
  forall r w, served r -> wp c (fun _ => onward r) (fun _ => onward r) (onward r) (r, w).

(** A candidate publication with more loaded than before. *)
Definition reloaded p p' : Prop :=
  runtime_typed (runtime p') /\ runtime_follows (runtime p) (runtime p') /\
  catalog_generation p' = catalog_generation p /\ ownership p' = ownership p.

Lemma load_state_spec {E} p (w : W) :
  loads_typed -> runtime_typed (runtime p) ->
  wp (load_state_if_needed (E := E) p) (fun x _ => reloaded p x.1) (fun _ _ => True) (fun _ => True) w.
Proof.
  intros Hty Ht. unfold load_state_if_needed.
  assert (reloaded p p) as Hp by (split_and!; [done|apply runtime_follows_refl|done..]).
  destruct (runtime p) as [s rw|[]] eqn:Er; [by wp_reg| |by wp_reg].
  do 2 wp_reg. unfold wp. destruct (state_load w) as [[l|e|h] w'] eqn:El; simpl; [|done|done].
  destruct (is_ok _); simpl; [|done]. split_and!; [by eapply Hty|by rewrite Er|done..].
Qed.

Lemma follows_of_reloaded r p p' :
  served r -> runtime p = runtime (publication r) ->
  catalog_generation p = catalog_generation (publication r) ->
  reloaded p p' -> may_follow r p'.
Proof.
  intros (Hg & Ht & _) Er Eg (Ht' & Hf & Eg' & _). rewrite Er in Hf.
  split_and!; [lia|by rewrite Eg', Eg|done..].
Qed.

Lemma retry_state_load_on {E} : loads_typed -> goes_on (retry_state_load (E := E)).
Proof.
  intros Hty r w Hs. unfold retry_state_load. do 3 wp_reg. apply wp_beside.
  eapply wp_mono; [apply load_state_spec; [done|apply Hs]| |auto using onward_refl..].
  intros [p retried] w' Hp. simpl in Hp.
  destruct retried; simpl; [|by apply wp_ret, onward_refl..].
  destruct (publish_candidate r p false) as [[r' b]|e|h] eqn:Ep;
    [|by apply wp_ret, onward_refl..].
  wp_reg. pose proof (follows_of_reloaded r (publication r) p Hs eq_refl eq_refl Hp) as Hf.
  destruct (publish_later _ _ _ _ _ Hs Hf Ep) as (? & ? & _). by split.
Qed.

Lemma apply_local_discovery_on found :
  loads_typed ->
  goes_on (apply_local_discovery found).
Proof.
  intros Hty r w Hs. unfold apply_local_discovery. do 3 wp_reg.
  apply wp_beside_any; [|auto using onward_refl..]. intros rec w1. wp_reg.
  apply wp_beside.
  eapply wp_mono; [apply load_state_spec; [done|]| |auto using onward_refl..].
  { destruct rec as [[o cl] su]. apply Hs. }
  intros [p retried] w2 Hp. do 2 wp_reg; [|auto using onward_refl..].
  intros [r' b] Epub. do 2 wp_reg.
  assert (served r' /\ later r r') as Hr'.
  { assert (may_follow r p) as Hf.
    { destruct rec as [[o cl] su].
      by eapply follows_of_reloaded; [| | |exact Hp]. }
    destruct (publish_later _ _ _ _ _ Hs Hf Epub) as (? & ? & _). by split. }
  assert (onward r (if scan_available found
      && negb (ownership_requires_retry
                 (ownership (reconciled_publication (builtins r) (publication r) found rec)))
    then with_unreconciled false r' else r', w2)) as Ho.
  { case_match; [by apply with_unreconciled_later|exact Hr']. }
  wp_reg. wp_reg; [intros; wp_reg; exact Ho|intros; exact Ho|exact Ho].
Qed.

Lemma persist_decision_on record enabled :
  goes_on (persist_decision_with_outcome record enabled).
Proof.
  intros r w Hs. unfold persist_decision_with_outcome. do 4 wp_reg; [|auto using onward_refl..].
  intros _ _. destruct (runtime (publication r)) as [s rw|x] eqn:Er;
    [|wp_reg; by apply onward_refl].
  do 2 wp_reg; [|auto using onward_refl..]. intros decision Ed.
  destruct decision as [next|]; [|wp_reg; by apply onward_refl].
  wp_reg. unfold outcome_of. apply wp_beside_any; [|auto using onward_refl..].
  intros result w1. do 2 wp_reg.
  assert (onward r (if persist_outcome_committed (persistence_outcome result)
                    then decided r next else r, w1)) as Ho.
  { case_match; [|by apply onward_refl].
    pose proof (proj1 (proj2 Hs)) as Ht. rewrite Er in Ht.
    destruct (next_decision_later _ _ _ _ _ Ht Ed). by eapply decided_later. }
  destruct result as [o|o]; simpl in *; [wp_reg; exact Ho|].
  destruct (persist_outcome_committed o); wp_reg; exact Ho.
Qed.

Lemma set_enabled_on id enabled generation :
  goes_on (set_enabled id enabled generation).
Proof.
  intros r w Hs. unfold set_enabled. do 4 wp_reg; [|auto using onward_refl..]. intros _ _.
  do 2 wp_reg; [|auto using onward_refl..]. intros _ _.
  do 2 wp_reg; [|auto using onward_refl..]. intros _ _.
  do 2 wp_reg; [|auto using onward_refl..]. intros record _.
  do 2 wp_reg; [|auto using onward_refl..]. intros _ _.
  wp_reg. unfold persist_decision. wp_reg.
  eapply wp_mono; [by apply persist_decision_on|..]; [|done..].
  intros _ [r' w'] Ho. do 2 wp_reg.
  destruct (runtime (publication r')); [wp_reg; exact Ho|wp_reg; intros; try done; exact Ho].
Qed.

Lemma persist_import_disabled_on record : goes_on (persist_import_disabled record).
Proof.
  intros r w Hs. unfold persist_import_disabled. do 4 wp_reg; [|auto using onward_refl..].
  intros _ _. by apply persist_decision_on.
Qed.

(** Saving a document that the registry then adopts. *)
Lemma mutate_removal_index_on mutation : goes_on (mutate_removal_index mutation).
Proof.
  intros r w Hs. unfold mutate_removal_index. do 2 wp_reg.
  destruct (ownership (publication r)) as [index rw|]; [|wp_reg; by apply onward_refl].
  do 2 wp_reg; [|auto using onward_refl..]. intros next _.
  wp_reg. apply wp_beside_any; [|auto using onward_refl..]. intros result w1. do 2 wp_reg.
  match goal with |- wp _ _ _ _ (?r', _) => assert (onward r (r', w1)) as Ho end.
  { case_match; [|by apply onward_refl]. by apply with_ownership_later. }
  destruct result; wp_reg; exact Ho.
Qed.

Lemma register_managed_import_on entry : goes_on (register_managed_import entry).
Proof.
  intros r w Hs. unfold register_managed_import. do 2 wp_reg.
  destruct (ownership (publication r)) as [index []|]; try (wp_reg; by apply onward_refl).
  do 2 wp_reg; [|auto using onward_refl..]. intros next _.
  wp_reg. apply wp_beside_any; [|auto using onward_refl..]. intros result w1. do 2 wp_reg.
  match goal with |- wp _ _ _ _ (?r', _) => assert (onward r (r', w1)) as Ho end.
  { case_match; [|by apply onward_refl]. by apply with_ownership_later. }
  destruct result as [o|o]; simpl in *; [wp_reg; exact Ho|].
  destruct (persist_outcome_committed o); wp_reg; exact Ho.
Qed.

(** The revision a removal saves is new: its preflight saw one left. *)
Definition revision_left r : Prop :=
  match runtime (publication r) with
  | RAvailable s _ => f_revision s < u64_max
  | RUnavailable _ => True
  end.

Lemma persist_disabled_on record r w :
  served r -> revision_left r ->
  wp (persist_disabled_before_removal record) (fun _ => onward r) (fun _ => onward r) (onward r)
    (r, w).
Proof.
  intros Hs Hr. unfold persist_disabled_before_removal, revision_left in *. do 2 wp_reg.
  destruct (runtime (publication r)) as [s rw|x] eqn:Er; [|wp_reg; by apply onward_refl].
  wp_reg. apply wp_beside_any; [|auto using onward_refl..]. intros result w1. do 2 wp_reg.
  match goal with |- wp _ _ _ _ (?r', _) => assert (onward r (r', w1)) as Ho end.
  { case_match; [|by apply onward_refl].
    pose proof (proj1 (proj2 Hs)) as Ht. rewrite Er in Ht. destruct Ht.
    apply (with_runtime_later r s rw); [done|done|left|split]; simpl; unfold u64_saturating_add; lia. }
  destruct result; wp_reg; exact Ho.
Qed.

(** A candidate reconciled again keeps its documents' state, its generation and
    its built-in plugins. *)
Definition rebuilt r (rw : PluginRegistry * W) : Prop :=
  builtins rw.1 = builtins r /\
  catalog_generation (publication rw.1) = catalog_generation (publication r) /\
  runtime (publication rw.1) = runtime (publication r).

Lemma build_reconciled_spec {E} found r (w : W) :
  wp (build_reconciled_candidate (E := E) found) (fun _ => rebuilt r) (fun _ => rebuilt r)
    (rebuilt r) (r, w).
Proof.
  unfold build_reconciled_candidate. do 3 wp_reg. apply wp_beside_any; [|done..].
  intros [[o cl] su] w1. wp_reg. by split_and!.
Qed.
End World.
End Facts.

(** * Decisions *)

Section Facts.
Context `{Codec StateWire} `{Codec StateV1Wire} `{ObjectReader}.

Lemma decimal_range text z : decimal_deserialize text = Some z -> in_u64 z.
Proof. unfold decimal_deserialize. case_match; [|done]. apply parse_u64_range. Qed.

Lemma read_state_typed schema bytes l :
  read_state schema bytes = Some l -> in_u64 (f_revision (pl_state l)).
Proof.
  unfold read_state. case_match; [|case_match; [|done]].
  - destruct (v1_from_slice bytes) as [s|] eqn:E; [|done]. intros [= <-]. simpl.
    unfold v1_from_slice in E. destruct (decode bytes) as [w|]; [|done]. simpl in E.
    unfold v1_of_wire in E. destruct (decimal_deserialize (w1_revision w)) as [z|] eqn:Ez; [|done].
    simpl in E. case_match; [|done]. injection E as <-. by eapply decimal_range.
  - destruct (state_from_slice bytes) as [s|] eqn:E; [|done]. intros [= <-]. simpl.
    unfold state_from_slice in E. destruct (decode bytes) as [w|]; [|done]. simpl in E.
    unfold state_of_wire in E. destruct (decimal_deserialize (sw_revision w)) as [z|] eqn:Ez; [|done].
    simpl in E. case_match; [|done]. injection E as <-. by eapply decimal_range.
Qed.

(** An entry that a recovered document may hold. *)
Definition untrusted (e : PluginStateEntryV2) : Prop :=
  e_source e = LocalDeclarative -> e_enabled e = false.

Lemma recovered_untrusted l : Forall untrusted (f_entries (pl_state (recovered l))).
Proof.
  simpl. apply Forall_map, Forall_forall. intros e _. unfold untrusted, distrust.
  destruct (e_source e) eqn:E; simpl; congruence.
Qed.

(** Where a document that a load answers comes from. *)
(** A candidate other than the main file the answer comes from. *)
Definition recovered_from (cs : list CandidateBytes) (l : PluginStateLoad) : Prop :=
  exists bytes schema x, List.In (Bounded bytes) cs /\ schema_from_slice bytes = Some schema /\
    read_state schema bytes = Some x /\ l = recovered x.

Lemma pick_state_spec index0 invalid cs l :
  pick_state index0 invalid cs = Ok (Some l) ->
  in_u64 (f_revision (pl_state l)) /\
  ((index0 = true /\ exists bytes schema rest,
      cs = Bounded bytes :: rest /\ schema_from_slice bytes = Some schema /\
      read_state schema bytes = Some l) \/
   recovered_from (if index0 then tl cs else cs) l).
Proof.
  revert index0 invalid. induction cs as [|c cs IH]; intros index0 invalid; cbn [pick_state].
  { by case_match. }
  assert (forall invalid', pick_state false invalid' cs = Ok (Some l) ->
    in_u64 (f_revision (pl_state l)) /\
    recovered_from (if index0 then tl (c :: cs) else c :: cs) l) as Hrest.
  { intros invalid' Hp. apply IH in Hp as [Ht [[? _]|Hu]]; [done|]. split; [done|].
    destruct index0; [exact Hu|]. destruct Hu as (b & sc & x & Hin & Hu).
    exists b, sc, x. split; [by right|done]. }
  destruct c as [| |bytes].
  - intros Hp%Hrest. tauto.
  - destruct index0; [done|]. intros Hp%Hrest. tauto.
  - destruct (schema_from_slice bytes) as [schema|] eqn:Es; [|intros Hp%Hrest; tauto].
    destruct (2 <? schema); [done|].
    destruct (read_state schema bytes) as [x|] eqn:Er; [|intros Hp%Hrest; tauto].
    intros [= <-]. pose proof (read_state_typed _ _ _ Er). destruct index0.
    + split; [done|]. left. split; [done|]. by exists bytes, schema, cs.
    + split; [done|]. right. exists bytes, schema, x. split; [by left|done].
Qed.

Lemma pick_state_none index0 invalid cs :
  pick_state index0 invalid cs = Ok None -> invalid = false /\ Forall (eq Missing) cs.
Proof.
  revert index0 invalid. induction cs as [|c cs IH]; intros index0 invalid; cbn [pick_state].
  { by destruct invalid. }
  assert (pick_state false true cs <> Ok None) as Hi by (intros [? _]%IH; done).
  repeat case_match; try done. intros [-> Hc]%IH. by split; [|constructor].
Qed.

(** The store answers revisions of 64 bits. *)
Lemma store_loads_typed root : @loads_typed fs_world (PluginStateStore root).
Proof.
  intros w l w' Hl. simpl in Hl. unfold store_load, load_locked in Hl. run_ok.
  match goal with H : pick_state _ _ _ = Ok ?x |- _ => destruct x as [x|] end; simpl; [|done].
  by match goal with H : pick_state _ _ _ = Ok _ |- _ => apply pick_state_spec in H as [? _] end.
Qed.

(** C39: the state the store loads is the one of the main file; or it was read from
    one of the other candidates with every local plugin disabled, and is to be
    written again; or it is empty and every candidate is missing. *)
Theorem recovered_state_trusts_no_local_plugin root w l w' :
  store_load root w = (Ok l, w') ->
  exists candidates,
  load_candidates root plugin_state_names MAX_PLUGIN_STATE_BYTES w = (Ok candidates, w') /\
  ((exists bytes schema rest,
      candidates = Bounded bytes :: rest /\ schema_from_slice bytes = Some schema /\
      read_state schema bytes = Some l) \/
   (exists bytes schema read,
      List.In (Bounded bytes) (tl candidates) /\ schema_from_slice bytes = Some schema /\
      read_state schema bytes = Some read /\ f_revision (pl_state l) = f_revision (pl_state read) /\
      pl_requires_rewrite l = true /\ Forall untrusted (f_entries (pl_state l))) \/
   Forall (eq Missing) candidates /\
   l = {| pl_state := empty_state; pl_requires_rewrite := false |}).
Proof.
  intros Hl. unfold store_load, load_locked in Hl. run_ok.
  match goal with H : load_candidates _ _ _ _ = (Ok ?cs, _) |- _ => exists cs; split; [exact H|] end.
  match goal with H : pick_state _ _ _ = Ok ?x |- _ => destruct x as [x|]; simpl end.
  - match goal with H : pick_state _ _ _ = Ok _ |- _ => apply pick_state_spec in H as [_ [(_ & ?)|H]] end;
      [by left|right; left].
    match goal with H : recovered_from _ _ |- _ => destruct H as (b & sc & y & ? & ? & ? & ->) end.
    exists b, sc, y. split_and!; [done..|apply recovered_untrusted].
  - match goal with H : pick_state _ _ _ = Ok _ |- _ => apply pick_state_none in H as [_ H] end. auto.
Qed.
End Facts.

(** * Decisions *)

Section Facts.
Context `{SemverLib} `{Codec json} `{Base64Lib} `{Codec PluginManifest} `{Sha256Lib}.
Context `{UuidV4Lib} `{Codec OwnershipReceiptV1} `{Codec IndexWire} `{Codec StateWire}.

(** The two records are of one plugin, maybe in different versions. *)
Definition same_plugin (a b : PluginRecord) : bool :=
  (record_id a ==s record_id b) && same (pr_source a) (pr_source b).

(** What holds of [other] once [record] was decided. *)
Definition decided_for (s : PluginStateFileV2) (record other : PluginRecord) (enabled : bool) : bool :=
  if same (identity_of other) (identity_of record) then enabled
  else if same_plugin other record then false else is_enabled s other.

Lemma matches_same e record : matches_identity e record = same (entry_identity e) (identity_of record).
Proof.
  apply eq_true_iff_eq. unfold matches_identity, same.
  rewrite !andb_true_iff, !String.eqb_eq, !bool_decide_eq_true. unfold entry_identity.
  destruct (identity_of record); simpl. split; [by intros [[[-> ->] ->] ->]|by intros [= -> -> -> ->]].
Qed.

Lemma existsb_filter {A} (f g : A -> bool) l :
  existsb f (List.filter g l) = existsb (fun x => f x && g x) l.
Proof.
  induction l as [|x l IH]; [done|]. simpl. destruct (g x); simpl; [by rewrite andb_true_r, IH|].
  by rewrite andb_false_r.
Qed.

Lemma existsb_ext_in {A} (f g : A -> bool) l :
  (forall x, x ∈ l -> f x = g x) -> existsb f l = existsb g l.
Proof.
  intros Hl. induction l as [|x l IH]; [done|]. simpl. rewrite Hl by left. f_equal. apply IH.
  intros y Hy. apply Hl. by right.
Qed.

Lemma existsb_none {A} (l : list A) : existsb (fun _ => false) l = false.
Proof. by induction l. Qed.

(** What of the retained entries speaks of [other]. *)
Lemma retained_for es record other :
  existsb (fun e => matches_identity e other && e_enabled e) (retain_others record es) =
  if same_plugin other record then false
  else existsb (fun e => matches_identity e other && e_enabled e) es.
Proof.
  unfold retain_others. rewrite existsb_filter.
  destruct (same_plugin other record) eqn:Es; [rewrite <- (existsb_none es)|];
    apply existsb_ext_in; intros e _; rewrite matches_same;
    destruct (same (entry_identity e) (identity_of other)) eqn:Ei; try done;
    unfold same in Ei; apply bool_decide_eq_true in Ei; rewrite ?andb_true_l;
    unfold same_plugin, record_id in Es; cbn [identity_of] in *;
    unfold entry_identity, identity_of in Ei; injection Ei as E1 E2 _ _;
    unfold identity_of; cbn [pi_id pi_source]; rewrite E1, E2.
  - apply andb_true_iff in Es as [-> ->]. by rewrite andb_false_r.
  - apply andb_false_iff in Es as [->| ->]; cbn [negb orb]; by rewrite ?orb_true_r, ?andb_true_r.
Qed.

(** The entries of a decision, in any order. *)
Lemma decision_entries s s' es record other enabled :
  es ≡ₚ f_entries s ->
  f_entries s' ≡ₚ (retain_others record es ++ [entry_of record enabled])%list ->
  is_enabled s' other = decided_for s record other enabled.
Proof.
  intros Hes Hp.
  rewrite <- (is_enabled_perm s' (set_entries (retain_others record es ++ [entry_of record enabled])%list s))
    by (by rewrite Hp).
  unfold is_enabled, decided_for. cbn [f_entries set_entries].
  rewrite existsb_app, retained_for. cbn [existsb]. rewrite orb_false_r, matches_same.
  change (entry_identity (entry_of record enabled)) with (identity_of record). cbn [e_enabled entry_of].
  assert (existsb (fun e => matches_identity e other && e_enabled e) es = is_enabled s other) as ->.
  { symmetry. apply (is_enabled_perm (set_entries es s) s). by symmetry. }
  unfold same. rewrite (bool_decide_ext (identity_of record = identity_of other) 
    (identity_of other = identity_of record)) by done.
  case_bool_decide as Ei; [|by rewrite orb_false_r].
  assert (same_plugin other record = true) as ->; [|done].
  unfold identity_of in Ei. injection Ei as E1 E2 _ _. unfold same_plugin, record_id, same. rewrite E1, E2.
  rewrite String.eqb_refl. by rewrite bool_decide_eq_true_2.
Qed.

Lemma decided_itself s record enabled : decided_for s record record enabled = enabled.
Proof. unfold decided_for, same. by rewrite bool_decide_eq_true_2. Qed.

Lemma removal_disables s record : is_enabled (removal_disabled_candidate s record) record = false.
Proof.
  rewrite <- (decided_itself s record false).
  apply (decision_entries _ _ (f_entries s)); [done|]. apply merge_sort_Permutation.
Qed.

(** What a decision says, whether or not there was anything to save. *)
Lemma next_decision_spec s rw record enabled decision other :
  next_decision s rw record enabled = Ok decision ->
  is_enabled (default s decision) other = decided_for s record other enabled.
Proof.
  unfold next_decision. intros E. run_ok.
  assert (forall s', f_entries s' ≡ₚ (retain_others record (sort_state_entries (f_entries s)) ++
            [entry_of record enabled])%list -> is_enabled s' other = decided_for s record other enabled) as Hd.
  { intros s'. apply decision_entries, merge_sort_Permutation. }
  case_match eqn:Es; run_ok.
  - unfold same in Es. bools. simpl. apply Hd. match goal with H : _ = s |- _ => rewrite <- H at 1 end.
    apply merge_sort_Permutation.
  - simpl. apply Hd. case_match; run_ok; apply merge_sort_Permutation.
Qed.

Lemma next_decision_uncommitted s rw record enabled failure :
  next_decision s rw record enabled = Err failure -> sd_persist_outcome failure = NotCommitted.
Proof.
  unfold next_decision, guard. destruct (_ <? _); simpl; [by intros [= <-]|].
  destruct (_ && _); [done|]. destruct (negb _).
  - destruct (u64_checked_add _ _); simpl; [|by intros [= <-]].
    destruct (validate_for_persistence _); simpl; [done|by intros [= <-]|done].
  - simpl. destruct (validate_for_persistence _); simpl; [done|by intros [= <-]|done].
Qed.
End Facts.
