(* ===== verification/PluginLifecycleFacts.v ===== *)
(** What the operations of the plugin runtime keep of the registries its lock
    held: each may follow all those before it; at the end the requests a runtime
    serves one after the other. *)
From stdpp Require Import gmap strings sorting.
From S2P Require Import Prelude RustStr FileSystem External Models BTreeMap Workflow StrategyTypes SafeDocument Supervisor PluginManifest PluginCatalog PluginPackages PluginState PluginOwnership PluginRegistry PluginLifecycle PluginRegistryFacts.

Section Facts.
Context `{SemverLib} `{Codec json} `{Base64Lib} `{Codec PluginManifest} `{Sha256Lib}.
Context `{UuidV4Lib} `{Codec OwnershipReceiptV1} `{Codec IndexWire} `{Codec StateWire}.
Context {W : Type} `{PluginStatePersistence W} `{ManagedOwnershipPersistence W}.
Context `{!PluginDiscovery W} `{!RemovalStorage W} `{!ImportStorage W}.
Implicit Types (r c base live : PluginRegistry) (l : Live).

(** ** The registries the lock has held *)

(** Every registry the lock has held, the newest first. *)
Definition held l : list PluginRegistry := lv_registry l :: lv_past l.

Definition log_ok l : Prop :=
  Forall served (held l) /\ StronglySorted (fun newer older => later older newer) (held l).

Lemma log_ok_current l : log_ok l -> served (lv_registry l).
Proof. intros [Hs _]. by inversion Hs. Qed.

Lemma log_ok_hold l r :
  log_ok l -> served r -> later (lv_registry l) r -> log_ok (hold_registry r l).
Proof.
  intros [Hs Ho] Hr Hl. split; [by constructor|].
  constructor; [exact Ho|]. unfold held in *. inversion Ho as [|? ? _ Hf]; subst.
  constructor; [done|]. eapply Forall_impl; [exact Hf|].
  intros x Hx. exact (later_trans _ _ _ Hx Hl).
Qed.

Lemma log_ok_attempted l : log_ok l -> log_ok (set_attempted l).
Proof. done. Qed.

(** However it ends, the log stays in order. *)
Definition tidy {E A} (x : M (Live * W) E A) : Prop :=
  forall l w, log_ok l ->
    wp x (fun _ lw => log_ok lw.1) (fun _ lw => log_ok lw.1) (fun lw => log_ok lw.1) (l, w).

(** ** Rules *)

Lemma wp_locked {E A} (x : M (PluginRegistry * W) E A) Q R C l w :
  wp x (fun a rw => Q a (hold_registry rw.1 l, rw.2)) (fun e rw => R e (hold_registry rw.1 l, rw.2))
    (fun rw => C (hold_registry rw.1 l, rw.2)) (lv_registry l, w) ->
  wp (locked x) Q R C (l, w).
Proof. unfold wp, locked. simpl. by destruct (x _) as [[] [r' w']]. Qed.

Lemma wp_on_candidate {E F A} c (x : M (PluginRegistry * W) E A)
    (Q : (E + A) * PluginRegistry -> Live * W -> Prop) (R : F -> Live * W -> Prop) C l w :
  wp x (fun a rw => Q (inr a, rw.1) (l, rw.2)) (fun e rw => Q (inl e, rw.1) (l, rw.2))
    (fun rw => C (l, rw.2)) (c, w) ->
  wp (on_candidate c x) Q R C (l, w).
Proof. unfold wp, on_candidate. simpl. by destruct (x _) as [[] [r' w']]. Qed.

Lemma wp_on_candidate_caught {E F A} c (x : M (PluginRegistry * W) E A)
    (Q : option (E + A) * PluginRegistry -> Live * W -> Prop) (R : F -> Live * W -> Prop) C l w :
  wp x (fun a rw => Q (Some (inr a), rw.1) (l, rw.2)) (fun e rw => Q (Some (inl e), rw.1) (l, rw.2))
    (fun rw => Q (None, rw.1) (l, rw.2) /\ C (l, rw.2)) (c, w) ->
  wp (on_candidate_caught c x) Q R C (l, w).
Proof. unfold wp, on_candidate_caught. simpl. destruct (x _) as [[a|e|[]] [r' w']]; tauto. Qed.

Lemma wp_read {E} (Q : PluginRegistry -> Live * W -> Prop) (R : E -> Live * W -> Prop) C l w :
  Q (lv_registry l) (l, w) -> wp read_registry Q R C (l, w).
Proof. done. Qed.
Lemma wp_snapshot {E} (Q : PluginCatalogSnapshot -> Live * W -> Prop) (R : E -> Live * W -> Prop)
    C l w :
  Q (catalog_snapshot (lv_registry l)) (l, w) -> wp current_snapshot Q R C (l, w).
Proof. done. Qed.
Lemma wp_write {E} f (Q : unit -> Live * W -> Prop) (R : E -> Live * W -> Prop) C l w :
  Q tt (hold_registry (f (lv_registry l)) l, w) -> wp (write_registry f) Q R C (l, w).
Proof. done. Qed.
Lemma wp_scan {E} (Q : LocalDiscoveryOutcome -> Live * W -> Prop) (R : E -> Live * W -> Prop) C l w :
  (forall found w', Q found (l, w')) -> (forall w', C (l, w')) ->
  wp scan Q R C (l, w).
Proof.
  intros Hq Hc. unfold scan. wp_reg. apply wp_beside. wp_reg.
  eapply wp_mono; [apply wp_any|..].
  - intros found w' _. wp_reg. apply Hq.
  - intros [].
  - intros w' _. split; [wp_reg; apply Hq|apply Hc].
Qed.

(** ** Candidates *)

(** A candidate that began as the registry [base] does now, while the live
    registry shows what [base] showed and holds documents the candidate had. *)
Record in_step base c l : Prop := {
  is_log : log_ok l;
  is_base : served base;
  is_candidate : served c;
  is_later : later base c;
  is_builtins : builtins (lv_registry l) = builtins base;
  is_snapshot : catalog_snapshot (lv_registry l) = catalog_snapshot base;
  is_generation : registry_generation (lv_registry l) = registry_generation base;
  is_runtime : runtime_later 0 0 (runtime (publication (lv_registry l))) (runtime (publication c));
  is_available : exists s rw, runtime (publication (lv_registry l)) = RAvailable s rw;
}.

Lemma runtime_later_available g g' a b s rw :
  a = RAvailable s rw -> runtime_later g g' a b -> runtime_later 0 0 a b.
Proof. intros ->. by destruct b. Qed.

(** A candidate that went on. *)
Lemma in_step_on base c c' l :
  in_step base c l -> served c' -> later c c' -> in_step base c' l.
Proof.
  intros [] Hs Hl. constructor; try done; [by eapply later_trans|].
  destruct is_available0 as (s & rw & Es).
  eapply runtime_later_available; [done|].
  eapply (runtime_later_trans 0 0 0); [lia..|done|].
  destruct Hl as (_ & _ & Hr & _). rewrite Es in is_runtime0. simpl in is_runtime0.
  destruct (runtime (publication c)) as [s' rw'|]; [|done].
  by eapply runtime_later_available.
Qed.

(** Its documents adopted. *)
Lemma in_step_adopt base c l f :
  in_step base c l -> (forall r, exists u, f r = with_unreconciled u (with_documents c r)) ->
  in_step base c (hold_registry (f (lv_registry l)) l) /\
  runtime (publication (f (lv_registry l))) = runtime (publication c).
Proof.
  intros [] Hf. destruct (Hf (lv_registry l)) as (u & ->).
  pose proof (log_ok_current _ is_log0) as Hs.
  pose proof (proj1 (proj2 is_candidate0)) as Ht.
  destruct (with_unreconciled_later _ _ u (with_documents_later _ _ Hs Ht is_runtime0)) as [Hs' Hl'].
  split; [|done]. constructor; simpl; try done.
  - by apply log_ok_hold.
  - apply runtime_later_refl.
  - destruct is_available0 as (s & rw & Es). rewrite Es in is_runtime0.
    destruct (runtime (publication c)) as [s' rw'|]; [by eauto|done].
Qed.

(** The candidate's publication in place of the baseline's. *)
Lemma publish_once_later base c l p r' b :
  in_step base c l -> builtins c = builtins base ->
  catalog_generation p = catalog_generation (publication c) ->
  runtime p = runtime (publication c) ->
  runtime (publication (lv_registry l)) = runtime (publication c) ->
  publish_candidate base p false = Ok (r', b) -> log_ok (hold_registry r' l).
Proof.
  intros [] Hb Hg Hr Hrl Hp. pose proof (log_ok_current _ is_log0) as Hs.
  destruct is_candidate0 as (Hg0 & Ht & _), is_later0 as (_ & Hle & Hrt & _).
  assert (may_follow base p) as Hf.
  { split_and!; [lia|by rewrite Hg|by rewrite Hr|]. rewrite Hr. by eapply runtime_later_follows. }
  destruct (publish_later _ _ _ _ _ is_base0 Hf Hp) as (Hs' & (Hb' & Hg' & _ & Hsn) & Hr' & _).
  apply log_ok_hold; [done..|]. split_and!.
  - congruence.
  - unfold registry_generation in *. lia.
  - rewrite Hrl, Hr', Hr. apply runtime_later_refl.
  - by rewrite is_snapshot0.
Qed.

(** ** The catalog and decisions *)

Hypothesis Htyped : loads_typed (W := W).

(** One guarded operation. *)
Lemma locked_tidy {E A} (x : M (PluginRegistry * W) E A) : goes_on x -> tidy (locked x).
Proof.
  intros Hx l w Hl. apply wp_locked. pose proof (log_ok_current _ Hl) as Hs.
  eapply wp_mono; [by apply Hx|..];
    [intros a [r' w'] [Hs' Hl']|intros e [r' w'] [Hs' Hl']|intros [r' w'] [Hs' Hl']];
    by apply log_ok_hold.
Qed.

Lemma snapshot_tidy {E} : tidy (current_snapshot (E := E)).
Proof. by intros l w Hl. Qed.

Lemma tidy_bind {E A B} (x : M (Live * W) E A) (k : A -> M (Live * W) E B) :
  tidy x -> (forall a, tidy (k a)) -> tidy (mbind x k).
Proof.
  intros Hx Hk l w Hl. wp_reg. eapply wp_mono; [by apply Hx|..]; [|done..].
  intros a [l' w'] Hl'. by apply Hk.
Qed.
Lemma tidy_ret {E A} (a : A) : tidy (mret (E := E) a).
Proof. by intros l w Hl. Qed.
Lemma tidy_scan {E} : tidy (scan (E := E)).
Proof. intros l w Hl. by apply wp_scan. Qed.
Lemma tidy_task {A} (x : M (Live * W) AppError A) : tidy x -> tidy (task x).
Proof.
  intros Hx. apply tidy_bind.
  - intros l w Hl. wp_reg. eapply wp_mono; [by apply Hx|done..].
  - intros [[e|a]|] l w Hl; done.
Qed.

Lemma retry_state_and_snapshot_tidy : tidy retry_state_and_snapshot.
Proof.
  intros l w Hl. unfold retry_state_and_snapshot. wp_reg. apply wp_read.
  case_match; [|by wp_reg].
  by apply tidy_bind; [apply locked_tidy, retry_state_load_on|intros; apply snapshot_tidy|].
Qed.

Lemma discover_and_publish_tidy force : tidy (discover_and_publish force).
Proof.
  intros l w Hl. unfold discover_and_publish. do 2 wp_reg.
  assert (tidy (E := AppError) (locked retry_state_load ;;; current_snapshot)) as Hretry.
  { by apply tidy_bind; [apply locked_tidy, retry_state_load_on|intros; apply snapshot_tidy]. }
  case_match; [case_match; [by apply Hretry|done]|].
  wp_reg. apply wp_scan; [|done]. intros found w1. do 4 wp_reg.
  apply (tidy_bind (locked (apply_local_discovery found)));
    [by apply locked_tidy, apply_local_discovery_on|intros; apply snapshot_tidy|done].
Qed.

(** ** Removal *)

(** An operation on the candidate. *)
Lemma wp_candidate_on {E F A} base c l w (x : M (PluginRegistry * W) E A)
    (Q : (E + A) * PluginRegistry -> Live * W -> Prop) (R : F -> Live * W -> Prop) C :
  in_step base c l ->
  wp x (fun _ => onward c) (fun _ => onward c) (onward c) (c, w) ->
  (forall a c' w', in_step base c' l -> Q (a, c') (l, w')) -> (forall w', C (l, w')) ->
  wp (on_candidate c x) Q R C (l, w).
Proof.
  intros Hi Hx HQ HC. apply wp_on_candidate. eapply wp_mono; [exact Hx|..];
    [intros a [c' w'] [Hs' Hl']|intros e [c' w'] [Hs' Hl']|by intros [c' w'] _];
    apply HQ; by apply (in_step_on base c c').
Qed.

Lemma publish_reconciled_tidy base c l w found :
  in_step base c l -> runtime (publication (lv_registry l)) = runtime (publication c) ->
  wp (publish_reconciled c base found) (fun _ lw => log_ok lw.1) (fun _ lw => log_ok lw.1)
    (fun lw => log_ok lw.1) (l, w).
Proof.
  intros Hi Hr. pose proof (is_log _ _ _ Hi) as Hlog. unfold publish_reconciled. wp_reg.
  apply wp_on_candidate. eapply wp_mono; [apply build_reconciled_spec|..];
    [intros a [c' w'] (Hb & Hg & Hr')|intros e [c' w'] (Hb & Hg & Hr')|done];
    simpl in *; unfold publish_once; wp_reg; (wp_reg; [|done..]);
    intros r' Ep; unfold publish_candidate_once in Ep;
    destruct (publish_candidate base _ false) as [[r1 b]|?|?] eqn:E; simpl in Ep; try done;
    injection Ep as ->; wp_reg; apply wp_write; wp_reg;
    (eapply (publish_once_later base c l (publication c')); [done|by destruct (is_later _ _ _ Hi)|done..]).
Qed.

Lemma adopt_removal_shape c : forall r, exists u, adopt_removal_documents c r = with_unreconciled u (with_documents c r).
Proof. intros r. by eexists. Qed.
Lemma adopt_import_shape c : forall r, exists u, adopt_import_documents c r = with_unreconciled u (with_documents c r).
Proof. intros r. by eexists. Qed.

Lemma rollback_tidy base c l w preflight failure :
  in_step base c l ->
  wp (rollback c base preflight failure) (fun _ lw => log_ok lw.1) (fun _ lw => log_ok lw.1)
    (fun lw => log_ok lw.1) (l, w).
Proof.
  intros Hi. unfold rollback. wp_reg. apply (wp_candidate_on base).
  - done.
  - by apply mutate_removal_index_on, (is_candidate _ _ _ Hi).
  - intros a c' w' Hi'. wp_reg. apply wp_write. wp_reg.
    destruct (in_step_adopt _ _ _ _ Hi' (adopt_removal_shape c')) as [Hi'' Hr].
    eapply wp_mono; [by apply publish_reconciled_tidy|..]; [|done..].
    intros s [l' w''] Hl. by wp_reg.
  - intros. by destruct Hi.
Qed.

Lemma report_rename_tidy id base c l w preflight slot found cleanup unconfirmed clean :
  in_step base c l -> runtime (publication (lv_registry l)) = runtime (publication c) ->
  wp (report_rename id c base preflight slot found cleanup unconfirmed clean)
    (fun _ lw => log_ok lw.1) (fun _ lw => log_ok lw.1) (fun lw => log_ok lw.1) (l, w).
Proof.
  intros Hi Hr. unfold report_rename. case_match; [wp_reg; by destruct Hi|].
  pose proof (publish_reconciled_tidy base c l w
    (update_target_observation found preflight slot cleanup) Hi Hr) as Hp.
  revert Hp. unfold publish_reconciled, wp, mbind.
  destruct (on_candidate _ _ _) as [[[? c'']|?|?] [l1 w4]]; [|done..].
  by destruct (publish_once _ _ _) as [[]].
Qed.

Lemma after_rename_tidy id base c l w preflight owned uncertain :
  in_step base c l ->
  wp (after_rename id c base preflight owned uncertain) (fun _ lw => log_ok lw.1)
    (fun _ lw => log_ok lw.1) (fun lw => log_ok lw.1) (l, w).
Proof.
  intros Hi. pose proof (is_log _ _ _ Hi) as Hlog. unfold after_rename. wp_reg.
  apply wp_beside_any; [|done..]. intros evidence w1. wp_reg. apply wp_scan; [|done].
  intros found w2. wp_reg. apply wp_beside_any; [|done..]. intros cleanup w3. wp_reg.
  unfold delete_if_clean. case_match.
  - wp_reg. apply (wp_candidate_on base); [done| | |done].
    + by apply mutate_removal_index_on, (is_candidate _ _ _ Hi).
    + intros a c' w' Hi'. do 2 wp_reg. apply wp_write.
      destruct (in_step_adopt _ _ _ _ Hi' (adopt_removal_shape c')). by apply report_rename_tidy.
  - do 2 wp_reg. apply wp_write.
    destruct (in_step_adopt _ _ _ _ Hi (adopt_removal_shape c)). by apply report_rename_tidy.
Qed.

Lemma quarantine_tidy id base c l w preflight owned :
  in_step base c l ->
  wp (quarantine id c base preflight owned) (fun _ lw => log_ok lw.1) (fun _ lw => log_ok lw.1)
    (fun lw => log_ok lw.1) (l, w).
Proof.
  intros Hi. pose proof (is_log _ _ _ Hi) as Hlog. unfold quarantine. wp_reg.
  apply wp_beside_any; [|done..]. intros rename w1.
  destruct rename; cbn beta iota;
    [case_match; [by apply after_rename_tidy|by wp_reg]|by apply rollback_tidy|by apply after_rename_tidy].
Qed.

Lemma remove_disabled_tidy id base c l w preflight owned :
  in_step base c l ->
  wp (remove_disabled id c base preflight owned) (fun _ lw => log_ok lw.1) (fun _ lw => log_ok lw.1)
    (fun lw => log_ok lw.1) (l, w).
Proof.
  intros Hi. unfold remove_disabled. wp_reg. apply (wp_candidate_on base).
  - done.
  - by apply mutate_removal_index_on, (is_candidate _ _ _ Hi).
  - intros a c' w' Hi'. wp_reg. apply wp_write.
    destruct (in_step_adopt _ _ _ _ Hi' (adopt_removal_shape c')) as [Hi'' _].
    case_match; [by apply rollback_tidy|]. wp_reg. pose proof (is_log _ _ _ Hi'') as Hlog.
    apply wp_beside_any; [|done..]. intros [?|?] w''; cbn beta iota;
      [by apply rollback_tidy|by apply quarantine_tidy].
  - intros. by destruct Hi.
Qed.

Lemma preflight_available r id generation preflight :
  preflight_removal r id generation = Ok preflight ->
  exists s rw, runtime (publication r) = RAvailable s rw /\ f_revision s < u64_max.
Proof.
  unfold preflight_removal. intros Hp. run_ok.
  destruct (runtime (publication r)) as [s rw|[]] eqn:E; simpl in *; try done.
  exists s, rw. split; [done|]. run_ok.
  repeat case_match; try done. run_ok.
  match goal with H : preflight_documents _ _ _ _ _ = Ok _ |- _ => unfold preflight_documents in H end.
  run_ok. repeat match goal with H : u64_checked_add _ _ = Some _ |- _ =>
    apply u64_checked_add_some in H as [? ?] end.
  subst. lia.
Qed.

Lemma start_in_step l :
  log_ok l -> (exists s rw, runtime (publication (lv_registry l)) = RAvailable s rw) ->
  in_step (lv_registry l) (lv_registry l) l.
Proof.
  intros Hl Ha. pose proof (log_ok_current _ Hl).
  constructor; try done; [apply later_refl|apply runtime_later_refl].
Qed.

Lemma run_removal_tidy id generation : tidy (run_removal id generation).
Proof.
  intros l w Hl. unfold run_removal. do 2 wp_reg; [|done..]. intros _ _. wp_reg. apply wp_read.
  destruct (preflight_removal _ _ _) as [preflight|reason|h] eqn:Ep; [|by wp_reg|by wp_reg].
  destruct (preflight_available _ _ _ _ Ep) as (s & rw & Es & Hs).
  wp_reg. apply wp_beside_any; [|done..]. intros [failure|owned] w1; cbn beta iota; [by wp_reg|].
  assert (in_step (lv_registry l) (lv_registry l) l) as Hi by (apply start_in_step; eauto).
  wp_reg. apply (wp_candidate_on (lv_registry l)); [done| | |done].
  - apply persist_disabled_on; [by apply log_ok_current|]. unfold revision_left. by rewrite Es.
  - intros a c' w' Hi'. wp_reg. apply wp_write.
    destruct (in_step_adopt _ _ _ _ Hi' (adopt_removal_shape c')) as [Hi'' Hr].
    case_match; [|by apply remove_disabled_tidy]. wp_reg.
    case_match; [|by do 2 wp_reg; destruct Hi''].
    eapply wp_mono; [by apply publish_reconciled_tidy|..]; [|done..].
    intros x [l' w''] Hl'. by wp_reg.
Qed.

(** ** Import *)

(** A commit from [x] leaves the log in order. *)
Definition commits {E A} (x : Commit (W := W) E A) (s : CommitProgress * (Live * W)) : Prop :=
  wp x (fun _ s => log_ok s.2.1) (fun _ s => log_ok s.2.1) (fun s => log_ok s.2.1) s.

Lemma commits_beside {E A} (x : Life (W := W) E A) p l w :
  wp x (fun _ lw => log_ok lw.1) (fun _ lw => log_ok lw.1) (fun lw => log_ok lw.1) (l, w) ->
  commits (beside x) (p, (l, w)).
Proof. intros Hx. by apply wp_beside. Qed.

Lemma commits_bind {E A B} (x : Commit (W := W) E A) (k : A -> Commit E B) s :
  wp x (fun a s => commits (k a) s) (fun _ s => log_ok s.2.1) (fun s => log_ok s.2.1) s ->
  commits (mbind x k) s.
Proof. intros Hx. by apply wp_bind. Qed.

(** Storage beside the registry and the progress. *)
Lemma commits_storage {E A B} (x : M W E A) (k : A -> Commit E B) p l w :
  log_ok l -> (forall a w', commits (k a) (p, (l, w'))) ->
  commits (mbind (beside (beside x)) k) (p, (l, w)).
Proof.
  intros Hl Hk. apply commits_bind, wp_beside, wp_beside_any; [|done..]. intros a w'. apply Hk.
Qed.

Lemma commits_failed {E} failure saved p l w :
  log_ok l -> commits (E := E) (beside (failed_import failure saved)) (p, (l, w)).
Proof. intros Hl. by apply commits_beside. Qed.
Lemma commits_unconfirmed {E} record p l w :
  log_ok l -> commits (E := E) (beside (unconfirmed_import record)) (p, (l, w)).
Proof. intros Hl. by apply commits_beside. Qed.

(** The candidate may take the place of the live registry. *)
Definition publishable c l : Prop :=
  log_ok l /\ may_follow (lv_registry l) (publication c).

Lemma publish_import_wp c l (w : W) :
  publishable c l ->
  wp (publish_import c) (fun _ lw => log_ok lw.1) (fun _ lw => log_ok lw.1) (fun lw => log_ok lw.1)
    (l, w).
Proof.
  intros [Hl Hf]. pose proof (log_ok_current _ Hl) as Hs.
  unfold publish_import. wp_reg. apply wp_read. do 2 wp_reg; [|done..]. intros r' Er.
  apply wp_write. unfold publish_import_candidate in Er.
  destruct (publish_candidate _ _ _) as [[r1 b]|?|?] eqn:E; simpl in Er; [|done..].
  injection Er as <-. destruct (publish_later _ _ _ _ _ Hs Hf E) as (Hs' & Hl' & _).
  destruct (with_unreconciled_later _ _ (removal_authority_unreconciled c) (conj Hs' Hl')).
  by apply log_ok_hold.
Qed.

Lemma in_step_publishable base c l : in_step base c l -> publishable c l.
Proof.
  intros []. split; [done|]. destruct is_candidate0 as (Hg & Ht & _), is_later0 as (_ & Hle & _).
  unfold registry_generation in *. split_and!; [lia|done|done|by eapply runtime_later_follows].
Qed.

Lemma onward_publishable c l :
  log_ok l -> served c -> later (lv_registry l) c -> publishable c l.
Proof.
  intros Hl (Hg & Ht & _) (_ & Hle & Hr & _).
  split; [done|]. split_and!; [done..|by eapply runtime_later_follows].
Qed.

Lemma wp_cleanup {E} stage l (w : W) (Q : unit -> Live * W -> Prop) (R : E -> Live * W -> Prop) C :
  (forall w', Q tt (l, w')) -> (forall w', C (l, w')) ->
  wp (cleanup_owned_stage stage) Q R C (l, w).
Proof.
  intros HQ HC. unfold cleanup_owned_stage. wp_reg. unfold wp, beside, mcatch. simpl.
  destruct (stage_cleanup stage w) as [[a|e|[]] w']; simpl; [apply HQ..|apply HC].
Qed.

(** A guarded operation on the candidate of a commit. *)
Lemma wp_caught_on {E F A} base c l (w : W) (x : M (PluginRegistry * W) E A)
    (Q : option (E + A) * PluginRegistry -> Live * W -> Prop) (R : F -> Live * W -> Prop) C :
  in_step base c l -> goes_on x ->
  (forall a c' w', in_step base c' l -> Q (a, c') (l, w')) -> (forall w', C (l, w')) ->
  wp (on_candidate_caught c x) Q R C (l, w).
Proof.
  intros Hi Hx HQ HC. apply wp_on_candidate_caught.
  eapply wp_mono; [apply Hx, (is_candidate _ _ _ Hi)|..];
    [intros a [c' w'] [Hs' Hl']|intros e [c' w'] [Hs' Hl']|intros [c' w'] [Hs' Hl']; split; [|done]];
    apply HQ; by apply (in_step_on base c c').
Qed.

(** What follows the registration of the promoted package. *)
Lemma publish_promoted_commits base c record promotion registered uncertain p l (w : W) :
  in_step base c l ->
  commits (publish_promoted c record promotion registered uncertain) (p, (l, w)).
Proof.
  intros Hi. pose proof (is_log _ _ _ Hi) as Hl. unfold publish_promoted, set_postscan_started.
  apply commits_bind. do 2 wp_reg. apply wp_put. apply commits_bind, wp_beside, wp_scan; [|done].
  intros found w1. case_match; [by apply commits_unconfirmed|].
  apply commits_bind, wp_beside, (wp_caught_on base);
    [done|by apply apply_local_discovery_on| |done].
  intros a c' w2 Hi'. cbn beta iota. case_match; [by apply commits_unconfirmed|].
  apply commits_bind, wp_beside. wp_reg.
  eapply wp_mono; [by apply publish_import_wp, (in_step_publishable base)|..]; [| |done].
  - intros u [l' w3] Hl'. by apply commits_bind, wp_beside, wp_snapshot.
  - intros e [l' w3] Hl'. by apply commits_unconfirmed.
Qed.

Lemma after_promotion_commits base c record promotion uncertain p l (w : W) :
  in_step base c l -> commits (after_promotion c record promotion uncertain) (p, (l, w)).
Proof.
  intros Hi. pose proof (is_log _ _ _ Hi) as Hl. unfold after_promotion.
  apply commits_bind, wp_beside.
  destruct promotion as [proof|];
    [|wp_reg; by apply (publish_promoted_commits base)].
  destruct (proves_managed _ _); [|wp_reg; by apply (publish_promoted_commits base)].
  wp_reg. apply (wp_caught_on base); [done|by apply register_managed_import_on| |done].
  intros a c' w' Hi'. wp_reg. apply wp_write. wp_reg.
  apply (publish_promoted_commits base).
  by destruct (in_step_adopt _ _ _ _ Hi' (adopt_import_shape c')).
Qed.

Lemma promote_stage_commits base c record stage p l (w : W) :
  in_step base c l -> commits (promote_stage c record stage) (p, (l, w)).
Proof.
  intros Hi. pose proof (is_log _ _ _ Hi) as Hl. unfold promote_stage, set_promotion_started.
  apply commits_bind. do 2 wp_reg. apply wp_put. apply commits_storage; [done|].
  intros [[e|proof]|] w1; try by apply (after_promotion_commits base).
  apply commits_storage; [done|]. intros s w2.
  case_match; [|by apply (after_promotion_commits base)].
  apply commits_bind. do 2 wp_reg. apply wp_put.
  apply commits_bind, wp_beside, wp_cleanup; [|done]. intros w3.
  apply commits_bind, wp_beside.
  eapply wp_mono; [by apply publish_import_wp, (in_step_publishable base)|..]; [|done..].
  intros u [l' w4] Hl'. by apply commits_failed.
Qed.

Lemma commit_stage_commits base c record stage p l (w : W) :
  in_step base c l -> commits (commit_stage c record stage) (p, (l, w)).
Proof.
  intros Hi. pose proof (is_log _ _ _ Hi) as Hl. unfold commit_stage.
  apply commits_bind, wp_beside, (wp_caught_on base);
    [done|by apply persist_import_disabled_on| |done].
  intros a c' w1 Hi'. cbn beta iota. apply commits_bind, wp_beside, wp_write.
  destruct (in_step_adopt _ _ _ _ Hi' (adopt_import_shape c')) as [Hi'' _].
  pose proof (is_log _ _ _ Hi'') as Hl''.
  destruct a as [[failure|u]|].
  - by apply commits_failed.
  - by apply (promote_stage_commits base).
  - by apply commits_bind, wp_beside, wp_cleanup.
Qed.

Lemma validated_available r record usage generation u :
  validate_managed_import r record usage generation = Ok u ->
  exists s rw, runtime (publication r) = RAvailable s rw.
Proof.
  unfold validate_managed_import. intros Hv. run_ok.
  repeat case_match; run_ok; try done; eauto.
Qed.

(** A candidate of the live registry's generation whose documents loaded. *)
Lemma candidate_in_step l c :
  log_ok l -> served c -> later (lv_registry l) c ->
  registry_generation c = registry_generation (lv_registry l) ->
  (exists s rw, runtime (publication c) = RAvailable s rw) ->
  in_step (lv_registry l) c l.
Proof.
  intros Hl Hs Hlate Hg (s & rw & Es). pose proof (log_ok_current _ Hl).
  pose proof Hlate as (_ & Hle & Hr & _). unfold registry_generation in *.
  destruct (runtime (publication (lv_registry l))) as [s0 rw0|] eqn:E0; rewrite Es in Hr;
    simpl in Hr; [|lia].
  constructor; try done; [|by eauto]. by rewrite E0, Es.
Qed.

Lemma commit_scanned_commits c lease usage generation p l (w : W) :
  log_ok l -> served c -> later (lv_registry l) c ->
  registry_generation c = registry_generation (lv_registry l) ->
  commits (commit_scanned c lease usage generation) (p, (l, w)).
Proof.
  intros Hl Hs Hlate Hg. unfold commit_scanned.
  destruct (let? usage := ok_or IDiscoveryUnavailable usage in _) as [u|reason|h] eqn:E;
    [|by apply commits_failed|done].
  run_ok. assert (in_step (lv_registry l) c l) as Hi.
  { apply candidate_in_step; [done..|]. by eapply validated_available. }
  apply commits_storage; [done|]. intros [reason|stage] w1; [by apply commits_failed|].
  by apply (commit_stage_commits (lv_registry l)).
Qed.

Lemma matches_current generation lease current :
  matches_generation generation lease current = true -> current = lease.
Proof. unfold matches_generation. intros E. bools. lia. Qed.

Lemma run_commit_blocking_commits lease generation p l (w : W) :
  log_ok l -> commits (run_commit_blocking lease generation) (p, (l, w)).
Proof.
  intros Hl. unfold run_commit_blocking. apply commits_bind, wp_beside, wp_read.
  case_match eqn:E0; [by apply commits_failed|]. apply negb_false_iff, matches_current in E0.
  apply commits_bind, wp_beside, wp_scan; [|done]. intros found w1.
  apply commits_bind, wp_beside, wp_on_candidate.
  eapply wp_mono; [apply apply_local_discovery_on; [done|by apply log_ok_current]|..];
    [intros b [c w2] [Hs Hlate]|intros e [c w2] [Hs Hlate]|done]; cbn -[apply_local_discovery].
  - case_match eqn:E1.
    + apply commits_bind, wp_beside.
      eapply wp_mono; [by apply publish_import_wp, onward_publishable|..]; [|done..].
      intros u [l' w3] Hl'. by apply commits_failed.
    + apply negb_false_iff, matches_current in E1. apply commit_scanned_commits; try done.
      simpl in *. congruence.
  - case_match; [by apply commits_failed|done].
Qed.

Lemma run_commit_tidy lease generation : tidy (run_commit lease generation).
Proof.
  intros l w Hl. unfold wp, run_commit.
  pose proof (run_commit_blocking_commits lease generation
    {| promotion_started := false; postscan_started := false |} l w Hl) as Hc.
  unfold commits, wp in Hc.
  destruct (run_commit_blocking _ _ _) as [[a|e|[]] [progress [l' w']]]; try done.
  destruct (promotion_started progress); [|done].
  assert (tidy (E := AppError)
    ((if postscan_started progress then mret tt else (let* _ := scan in mret tt)) ;;;
     unconfirmed_import (cl_record lease))) as Ht.
  { apply tidy_bind; [|intros; by intros l0 w0 Hl0]. destruct (postscan_started progress);
      [apply tidy_ret|apply tidy_bind; [apply tidy_scan|intros; apply tidy_ret]]. }
  exact (Ht l' w' Hc).
Qed.
End Facts.

(** * Requests *)

Section Requests.
Context `{SemverLib} `{Codec json} `{Base64Lib} `{Codec PluginManifest} `{Sha256Lib}.
Context `{UuidV4Lib} `{Codec OwnershipReceiptV1} `{Codec IndexWire} `{Codec StateWire}.
Context {W : Type} `{PluginStatePersistence W} `{ManagedOwnershipPersistence W}.
Context `{!PluginDiscovery W} `{!RemovalStorage W} `{!ImportStorage W}.

Inductive Request :=
| RequestDiscovery (force : bool)
| RequestStateRetry
| RequestSetEnabled (id : string) (enabled : bool) (generation : string)
| RequestRemoval (id generation : string)
| RequestCommit (lease : CommitLease) (generation : string).

(** [PluginRuntime::set_enabled] under the gate. *)
Definition set_enabled_request (id : string) (enabled : bool) (generation : string)
    : Life (W := W) AppError PluginCatalogMutationResult :=
  task (locked (set_enabled id enabled generation)).

Definition answer (q : Request) : Life (W := W) AppError unit :=
  match q with
  | RequestDiscovery force => task (discover_and_publish force) ;;; mret tt
  | RequestStateRetry => task retry_state_and_snapshot ;;; mret tt
  | RequestSetEnabled id enabled generation => set_enabled_request id enabled generation ;;; mret tt
  | RequestRemoval id generation => remove_managed_local_plugin id generation ;;; mret tt
  | RequestCommit lease generation => run_commit lease generation ;;; mret tt
  end.

(** The gate serves them in order, until the process stops. *)
Fixpoint serve (qs : list Request) : Life (W := W) Empty_set unit :=
  match qs with
  | [] => mret tt
  | q :: qs => let* _ := mtry (answer q) in serve qs
  end.

(** [PluginRuntime::initialize]. *)
Definition started (r : PluginRegistry) : Live :=
  {| lv_registry := r; lv_past := []; lv_attempted := false |}.

Hypothesis Htyped : loads_typed (W := W).

Lemma initialize_served manifests :
  forall w : W, wp (initialize (E := Empty_set) manifests) (fun r _ => served r) (fun _ _ => True) (fun _ => True) w.
Proof.
  intros w. unfold initialize. wp_reg.
  eapply wp_mono; [apply wp_any|..]; [|done..]. intros o w1 _. wp_reg.
  assert (wp (E := Empty_set) match collect_builtins manifests ∅ with
             | None => mret (RUnavailable ForCatalog)
             | Some _ => let* l := mtry state_load in mret (loaded_runtime l)
             end (fun a _ => runtime_typed a) (fun _ _ => True) (fun _ => True) w1) as Hr.
  { case_match; [|done]. do 2 wp_reg. unfold wp.
    destruct (state_load w1) as [[l|e|h] w'] eqn:El; simpl; [|done..].
    case_match; simpl; [by eapply Htyped|done]. }
  eapply wp_mono; [exact Hr|..]; [|done..]. intros a w2 Ha. wp_reg.
  apply derived_served; simpl; [done|done|]. unfold derive_snapshot. done.
Qed.

Lemma started_log r : served r -> log_ok (started r).
Proof. 
  intros Hs. split; [by apply Forall_singleton|]. constructor; [constructor|by apply Forall_nil_2].
Qed.

Lemma answer_tidy q : tidy (answer q).
Proof.
  destruct q; simpl; (apply tidy_bind; [|intros; apply tidy_ret]).
  - by apply tidy_task, discover_and_publish_tidy.
  - by apply tidy_task, retry_state_and_snapshot_tidy.
  - by apply tidy_task, locked_tidy, set_enabled_on.
  - by apply tidy_task, run_removal_tidy.
  - by apply run_commit_tidy.
Qed.

Lemma serve_tidy qs : tidy (serve qs).
Proof.
  induction qs as [|q qs IH]; [apply tidy_ret|].
  apply tidy_bind; [|done]. intros l w Hl. wp_reg.
  eapply wp_mono; [by apply answer_tidy|done..].
Qed.

(** In an ordered log the version tells the snapshot. *)
Lemma log_versions_unique l x y :
  log_ok l -> x ∈ held l -> y ∈ held l ->
  s_revision (catalog_snapshot x) = s_revision (catalog_snapshot y) ->
  s_catalog_generation (catalog_snapshot x) = s_catalog_generation (catalog_snapshot y) ->
  catalog_snapshot x = catalog_snapshot y.
Proof.
  intros [_ Ho] Hx Hy Er Eg. induction Ho as [|r rs Ho IH Hf]; [by apply elem_of_nil in Hx|].
  rewrite Forall_forall in Hf.
  apply elem_of_cons in Hx as [->|Hx], Hy as [->|Hy]; [done| | |by apply IH].
  - symmetry. apply snapshot_later_same; [|done..]. apply (Hf _ Hy).
  - apply snapshot_later_same; [|done..]. apply (Hf _ Hx).
Qed.
End Requests.

(** * Importing a package *)

Section Facts.
Context `{SemverLib} `{Codec json} `{Base64Lib} `{Codec PluginManifest} `{Sha256Lib}.
Context `{UuidV4Lib} `{Codec OwnershipReceiptV1} `{Codec IndexWire} `{Codec StateWire}.

Section World.
Context {W : Type} `{PluginStatePersistence W} `{ManagedOwnershipPersistence W}.
Context `{!PluginDiscovery W} `{!RemovalStorage W} `{!ImportStorage W}.
Context (record : PluginRecord).

(** The state document disables the plugin. *)
Definition decided_off (r : PluginRegistry) : Prop :=
  exists s rw, runtime (publication r) = RAvailable s rw /\ is_enabled s record = false.

Lemma persist_import_off r (w : W) :
  wp (persist_import_disabled record) (fun _ rw => decided_off rw.1)
    (fun failure rw => persist_outcome_committed (sd_persist_outcome failure) = true -> decided_off rw.1)
    (fun _ => True) (r, w).
Proof.
  unfold persist_import_disabled. do 2 wp_reg. wp_reg. wp_reg; [|intros e Hg..|done].
  2:{ unfold guard in Hg. case_match; [|done]. by injection Hg as <-. }
  intros _ _. unfold persist_decision_with_outcome. do 4 wp_reg; [|intros e Hg..|done].
  2:{ unfold guard in Hg. case_match; [|done]. by injection Hg as <-. }
  intros _ _. destruct (runtime (publication r)) as [s rw|x] eqn:Er; [|by wp_reg].
  wp_reg. wp_reg; [|intros e He|done].
  2:{ intros Hc. by rewrite (next_decision_uncommitted _ _ _ _ _ He) in Hc. }
  intros decision Hd. apply (next_decision_spec _ _ _ _ _ record) in Hd.
  rewrite decided_itself in Hd.
  destruct decision as [next|]; [|wp_reg; by exists s, rw].
  wp_reg. apply wp_beside_try; [|done]. intros result w1. do 2 wp_reg.
  assert (decided_off (decided r next)) as Hoff by by exists next, false.
  destruct result as [o|o]; simpl; destruct (persist_outcome_committed o) eqn:Eo; wp_reg; simpl;
    congruence || done.
Qed.

(** ** What keeps the state document *)

(** The runtime of an available registry stays. *)
Definition keeps_runtime {E A} (x : M (PluginRegistry * W) E A) : Prop :=
  forall r w s rw, runtime (publication r) = RAvailable s rw ->
    wp x (fun _ rw' => runtime (publication rw'.1) = RAvailable s rw)
      (fun _ rw' => runtime (publication rw'.1) = RAvailable s rw)
      (fun rw' => runtime (publication rw'.1) = RAvailable s rw) (r, w).

Lemma register_keeps entry : keeps_runtime (register_managed_import entry).
Proof.
  intros r w s rw Er. unfold register_managed_import. do 2 wp_reg.
  destruct (ownership (publication r)) as [index []|]; try by wp_reg.
  wp_reg. wp_reg; [|done..]. intros next _. wp_reg. apply wp_beside_try; [|done].
  intros result w1. do 2 wp_reg.
  destruct result as [o|o]; simpl; destruct (persist_outcome_committed o); by wp_reg.
Qed.

Lemma publish_keeps (r : PluginRegistry) p first r' b :
  publish_candidate r p first = Ok (r', b) -> runtime (publication r') = runtime p.
Proof.
  unfold publish_candidate. intros Hp. destruct (structural _ _ _); [|by run_ok; simplify_eq].
  destruct (u64_checked_add _ _); simpl in Hp; [|done]. by injection Hp as <- _.
Qed.

Lemma apply_discovery_keeps found : keeps_runtime (apply_local_discovery found).
Proof.
  intros r w s rw Er. unfold apply_local_discovery. do 3 wp_reg.
  apply wp_beside_any; [|done..]. intros [[o cl] su] w1. wp_reg.
  apply wp_beside. unfold load_state_if_needed.
  assert (runtime (reconciled_publication (builtins r) (publication r) found (o, cl, su))
          = RAvailable s rw) as Er' by (unfold reconciled_publication; by destruct (visible_packages _ _)).
  rewrite Er'. do 2 wp_reg. wp_reg; [|done..]. intros [r' b] Hp%publish_keeps. do 3 wp_reg.
  wp_reg; [intros; wp_reg|..]; simpl; case_match; simpl; congruence.
Qed.
(** ** A commit after its decision *)

(** The plugin's package may be in place, or its decision is saved. *)
Definition settled (res : CommitImportResult) : bool :=
  match res with NotImported saved _ _ => saved | _ => true end.

(** The live registry and the candidate have the decision. *)
Definition off_everywhere (c : PluginRegistry) (l : Live) : Prop :=
  decided_off c /\ runtime (publication (lv_registry l)) = runtime (publication c).

Lemma off_live c l : off_everywhere c l -> decided_off (lv_registry l).
Proof. intros [(s & rw & Es & Hs) El]. exists s, rw. by rewrite El. Qed.

(** A settled end leaves the live registry with the decision, and so does a
    panic after the promotion began. *)
Definition settles (x : Commit (W := W) AppError CommitImportResult)
    (s : CommitProgress * (Live * W)) : Prop :=
  wp x (fun res s => settled res = true -> decided_off (lv_registry s.2.1)) (fun _ _ => True)
    (fun s => promotion_started s.1 = true -> decided_off (lv_registry s.2.1)) s.

Lemma settles_off (x : Life (W := W) AppError CommitImportResult) p l w c :
  off_everywhere c l ->
  wp x (fun _ lw => lv_registry lw.1 = lv_registry l) (fun _ _ => True)
    (fun lw => lv_registry lw.1 = lv_registry l) (l, w) ->
  settles (beside x) (p, (l, w)).
Proof.
  intros Ho%off_live Hx. apply wp_beside. eapply wp_mono; [exact Hx|..]; simpl.
  - by intros res lw -> _.
  - done.
  - by intros lw -> _.
Qed.

Lemma caught_off {E F A} (x : M (PluginRegistry * W) E A) c l w
    (Q : option (E + A) * PluginRegistry -> Live * W -> Prop) (R : F -> Live * W -> Prop) C :
  keeps_runtime x -> off_everywhere c l ->
  (forall a c' w', off_everywhere c' l -> Q (a, c') (l, w')) -> (forall w', C (l, w')) ->
  wp (on_candidate_caught c x) Q R C (l, w).
Proof.
  intros Hx [(s & rw & Es & Hs) El] HQ HC. apply wp_on_candidate_caught.
  assert (forall c', runtime (publication c') = RAvailable s rw -> off_everywhere c' l) as Hc.
  { intros c' Ec. split; [by exists s, rw|congruence]. }
  eapply wp_mono; [by apply Hx|..]; simpl; [eauto..|]. intros rw' Er. split; [eauto|apply HC].
Qed.

(** Publishing the candidate shows its decision. *)
Lemma publish_import_off c l (w : W) (Q : unit -> Live * W -> Prop) (R : AppError -> Live * W -> Prop) C :
  decided_off c -> (forall l', decided_off (lv_registry l') -> Q tt (l', w)) ->
  (forall e, R e (l, w)) -> C (l, w) ->
  wp (publish_import c) Q R C (l, w).
Proof.
  intros (s & rw & Es & Hs) HQ HR HC. unfold publish_import. wp_reg. apply wp_read. do 2 wp_reg; [|done..].
  intros r' Hr'. apply wp_write, HQ. unfold publish_import_candidate in Hr'.
  destruct (publish_candidate _ _ _) as [[r1 b]|?|?] eqn:Ep; simpl in Hr'; [|done..].
  injection Hr' as <-. apply publish_keeps in Ep. exists s, rw. simpl. by rewrite <- Es, <- Ep.
Qed.

Lemma publish_promoted_settles c promotion registered uncertain p l w :
  off_everywhere c l -> settles (publish_promoted c record promotion registered uncertain) (p, (l, w)).
Proof.
  intros Ho. pose proof (off_live _ _ Ho) as Hoff.
  assert (forall p w', settles (beside (unconfirmed_import record)) (p, (l, w'))) as Hun
    by (intros; by eapply settles_off).
  unfold settles, publish_promoted, set_postscan_started in *.
  wp_reg. do 2 wp_reg. apply wp_put. wp_reg. apply wp_beside, wp_scan; [|done]. intros found w1.
  case_match; [apply Hun|]. wp_reg. apply wp_beside, caught_off;
    [by apply apply_discovery_keeps|done| |done].
  intros a c' w2 Ho'. cbn beta iota. case_match; [apply Hun|]. wp_reg. apply wp_beside. wp_reg.
  apply publish_import_off; [apply Ho'| |intros; apply Hun|done].
  intros l' Hl'. wp_reg. apply wp_beside, wp_snapshot. by wp_reg.
Qed.

Lemma adopted_off c l : decided_off c -> off_everywhere c (hold_registry (adopt_import_documents c (lv_registry l)) l).
Proof. by intros Hc. Qed.

Lemma after_promotion_settles c promotion uncertain p l w :
  off_everywhere c l -> settles (after_promotion c record promotion uncertain) (p, (l, w)).
Proof.
  intros Ho. pose proof (off_live _ _ Ho) as Hoff. unfold settles, after_promotion. wp_reg. apply wp_beside.
  destruct promotion as [proof|]; [|wp_reg; by apply publish_promoted_settles].
  destruct (proves_managed _ _); [|wp_reg; by apply publish_promoted_settles].
  wp_reg. apply caught_off; [apply register_keeps|done| |done].
  intros a c' w' Ho'. wp_reg. apply wp_write. wp_reg.
  apply publish_promoted_settles, adopted_off, Ho'.
Qed.

Lemma promote_stage_settles c stage p l w :
  off_everywhere c l -> settles (promote_stage c record stage) (p, (l, w)).
Proof.
  intros Ho. pose proof (off_live _ _ Ho) as Hoff. unfold settles, promote_stage, set_promotion_started.
  wp_reg. do 2 wp_reg. apply wp_put. wp_reg. apply wp_beside, wp_beside_any; [|done..].
  intros [[e|proof]|] w1; try by apply after_promotion_settles.
  wp_reg. apply wp_beside, wp_beside_any; [|done..]. intros s w2.
  case_match; [|by apply after_promotion_settles].
  wp_reg. do 2 wp_reg. apply wp_put. wp_reg. apply wp_beside, wp_cleanup; [|done]. intros w3.
  wp_reg. apply wp_beside, publish_import_off; [apply Ho| |done..].
  intros l' Hl'. apply wp_beside. intros _. exact Hl'.
Qed.

Lemma commit_stage_settles c stage p l w :
  promotion_started p = false -> settles (commit_stage c record stage) (p, (l, w)).
Proof.
  intros Hp. unfold settles, commit_stage. wp_reg. apply wp_beside, wp_on_candidate_caught.
  eapply wp_mono; [apply persist_import_off|..]; simpl.
  - intros _ [c' w1] Hc. wp_reg. apply wp_beside, wp_write. by apply promote_stage_settles, adopted_off.
  - intros failure [c' w1] Hc. wp_reg. apply wp_beside, wp_write. apply wp_beside.
    unfold failed_import. wp_reg. apply wp_snapshot. wp_reg. exact Hc.
  - intros [c' w1] _. split; [|by rewrite Hp]. wp_reg. apply wp_beside, wp_write. wp_reg.
    apply wp_beside, wp_cleanup; [|simpl; by rewrite Hp]. intros w2. by wp_reg.
Qed.

Lemma unsettled_failure failure p l w :
  promotion_started p = false -> settles (beside (failed_import failure false)) (p, (l, w)).
Proof. intros Hp. by apply wp_beside. Qed.

Lemma run_commit_blocking_settles lease generation p l w :
  cl_record lease = record -> promotion_started p = false ->
  settles (run_commit_blocking lease generation) (p, (l, w)).
Proof.
  intros Hr Hp. assert (forall P : Prop, promotion_started p = true -> P) as Hno
    by (intros P; by rewrite Hp).
  unfold settles, run_commit_blocking. wp_reg. apply wp_beside, wp_read.
  case_match; [by apply unsettled_failure|]. wp_reg. apply wp_beside, wp_scan; [|intros; by apply Hno].
  intros found w1. wp_reg. apply wp_beside, wp_on_candidate.
  eapply wp_mono; [apply wp_any|..]; [intros b [c w2] _|intros e [c w2] _|intros; by apply Hno]; cbn beta iota.
  - case_match.
    + wp_reg. apply wp_beside.
      eapply wp_mono; [apply wp_any|..]; [|done|intros; by apply Hno]. intros u [l' w3] _.
      by apply unsettled_failure.
    + unfold commit_scanned. destruct (let? usage := ok_or _ _ in _) as [u|reason|h];
        [|by apply unsettled_failure|unfold wp; simpl; intros; by apply Hno].
      wp_reg. apply wp_beside, wp_beside_try; [|intros; by apply Hno].
      intros [reason|stage] w3; [by apply unsettled_failure|]. rewrite Hr. by apply commit_stage_settles.
  - case_match; [by apply unsettled_failure|done].
Qed.

Lemma run_commit_off lease generation l w :
  cl_record lease = record ->
  wp (run_commit lease generation)
    (fun res lw => settled res = true -> decided_off (lv_registry lw.1)) (fun _ _ => True)
    (fun _ => True) (l, w).
Proof.
  intros Hr. unfold wp, run_commit.
  pose proof (run_commit_blocking_settles lease generation
    {| promotion_started := false; postscan_started := false |} l w Hr eq_refl) as Hc.
  unfold settles, wp in Hc.
  destruct (run_commit_blocking _ _ _) as [[res|e|[]] [progress [l' w']]]; try done.
  simpl in Hc. destruct (promotion_started progress); [|done].
  assert (forall A (x : Life (W := W) AppError A), wp x (fun _ lw => lv_registry lw.1 = lv_registry l')
            (fun _ _ => True) (fun _ => True) (l', w') ->
          wp (x ;;; unconfirmed_import record)
            (fun res lw => settled res = true -> decided_off (lv_registry lw.1)) (fun _ _ => True)
            (fun _ => True) (l', w')) as Hend.
  { intros A x Hx. wp_reg. eapply wp_mono; [exact Hx|..]; [|done..]. intros a [l2 w2] El.
    unfold unconfirmed_import. wp_reg. apply wp_snapshot. wp_reg. intros _. simpl in *. rewrite El. auto. }
  rewrite Hr. apply (Hend _ (if postscan_started progress then mret tt else (let* _ := scan in mret tt))).
  destruct (postscan_started progress); [done|]. wp_reg. by apply wp_scan.
Qed.
End World.
End Facts.
