(* ===== verification/PluginProtocol.v ===== *)
(** The calls a removal and an import make of the documents and the package
    files, recorded in order, and the discipline they follow. *)
From stdpp Require Import gmap strings sorting.
From S2P Require Import Prelude RustStr FileSystem External Models BTreeMap Workflow StrategyTypes SafeDocument Supervisor PluginManifest PluginCatalog PluginPackages PluginState PluginOwnership PluginRegistry PluginLifecycle PluginIndexFacts PluginRegistryFacts PluginLifecycleFacts.

Section Protocol.
Context `{SemverLib} `{Codec json} `{Base64Lib} `{Codec PluginManifest} `{Sha256Lib}.
Context `{UuidV4Lib} `{Codec OwnershipReceiptV1} `{Codec IndexWire} `{Codec StateWire}.
Context {W : Type} `{PluginStatePersistence W} `{ManagedOwnershipPersistence W}.
Context `{!PluginDiscovery W} `{!RemovalStorage W} `{!ImportStorage W}.

(** ** Recorded calls *)

Inductive Call :=
| SavedState (s : PluginStateFileV2) (answer : outcome PersistOutcome PersistOutcome)
| SavedIndex (i : ManagedOwnershipIndexV1) (answer : outcome PersistOutcome PersistOutcome)
| Reverified (o : Owned) (answer : outcome RemovalStorageFailure unit)
| Renamed (o : Owned) (answer : outcome Empty_set QuarantineRenameOutcome)
| Cleaned (o : Owned) (answer : outcome Empty_set CleanupOutcome)
| Promoted (s : Stage) (answer : outcome ImportCommitFailure PromotedManagedPackage).

(** A world with the calls made of it, the newest first. *)
Definition Recorded : Type := list Call * W.

Definition recorded {E A} (call : outcome E A -> Call) (c : M W E A) : M Recorded E A :=
  fun s => let '(o, w) := c s.2 in (o, (call o :: s.1, w)).

#[local] Instance recorded_state : PluginStatePersistence Recorded :=
  {| state_load := beside state_load; state_save s := recorded (SavedState s) (state_save s) |}.
#[local] Instance recorded_ownership : ManagedOwnershipPersistence Recorded :=
  {| ownership_load := beside ownership_load;
     ownership_save i := recorded (SavedIndex i) (ownership_save i) |}.
#[local] Instance recorded_discovery : PluginDiscovery Recorded := {| discover := beside discover |}.
#[local] Instance recorded_removal : RemovalStorage Recorded :=
  {| Owned := Owned; owned_slot := owned_slot;
     prepare_removal l e := beside (prepare_removal l e);
     reverify_before_rename o := recorded (Reverified o) (reverify_before_rename o);
     quarantine_once o := recorded (Renamed o) (quarantine_once o);
     verify_quarantine o := beside (verify_quarantine o);
     cleanup_once o := recorded (Cleaned o) (cleanup_once o) |}.
#[local] Instance recorded_import : ImportStorage Recorded :=
  {| Stage := Stage; prepare_stage r b := beside (prepare_stage r b);
     promote s := recorded (Promoted s) (promote s);
     promotion_state s := beside (promotion_state s);
     stage_cleanup s := beside (stage_cleanup s) |}.

(** ** What holds of the calls however a computation ends *)

Definition ends {E A} (x : Life (W := Recorded) E A) (P : outcome E A -> list Call -> Prop)
    (l : Live) (s : Recorded) : Prop :=
  wp x (fun a lw => P (Ok a) lw.2.1) (fun e lw => P (Err e) lw.2.1)
    (fun lw => forall h, P (Halt h) lw.2.1) (l, s).

Lemma ends_mono {E A} (x : Life (W := Recorded) E A) (P P' : outcome E A -> list Call -> Prop) l s :
  ends x P l s -> (forall o calls, P o calls -> P' o calls) -> ends x P' l s.
Proof. intros Hx HP. unfold ends in *. eapply wp_mono; [exact Hx|..]; simpl; auto. Qed.

Lemma ends_run {E A} (x : Life (W := Recorded) E A) (P : outcome E A -> list Call -> Prop) l s o l' s' :
  ends x P l s -> x (l, s) = (o, (l', s')) -> P o s'.1.
Proof. intros Hx E0. unfold ends, wp in Hx. rewrite E0 in Hx. by destruct o. Qed.

Lemma wp_recorded {E A} call (c : M W E A) (Q : A -> Recorded -> Prop) (R : E -> Recorded -> Prop) C
    calls (w : W) :
  (forall a w', Q a (call (Ok a) :: calls, w')) -> (forall e w', R e (call (Err e) :: calls, w')) ->
  (forall h w', C (call (Halt h) :: calls, w')) ->
  wp (recorded call c) Q R C (calls, w).
Proof.
  intros HQ HR HC. unfold wp, recorded. simpl.
  destruct (c w) as [[a|e|h] w']; [apply HQ|apply HR|apply (HC h)].
Qed.

(** What is beside the registry and the calls. *)
Lemma wp_unrecorded {E A} (c : M W E A) (Q : A -> Live * Recorded -> Prop)
    (R : E -> Live * Recorded -> Prop) C l calls (w : W) :
  (forall a w', Q a (l, (calls, w'))) -> (forall e w', R e (l, (calls, w'))) ->
  (forall w', C (l, (calls, w'))) ->
  wp (beside (beside c)) Q R C (l, (calls, w)).
Proof. intros. apply wp_beside. by apply wp_beside_any. Qed.

Lemma wp_unrecorded_try {E F A} (c : M W E A) (Q : E + A -> Live * Recorded -> Prop)
    (R : F -> Live * Recorded -> Prop) C l calls (w : W) :
  (forall a w', Q a (l, (calls, w'))) -> (forall w', C (l, (calls, w'))) ->
  wp (beside (mtry (beside c))) Q R C (l, (calls, w)).
Proof. intros. apply wp_beside, wp_try. by apply wp_beside_any. Qed.

Lemma wp_scan_calls {E} (Q : LocalDiscoveryOutcome -> Live * Recorded -> Prop)
    (R : E -> Live * Recorded -> Prop) C l calls (w : W) :
  (forall found w', Q found (l, (calls, w'))) -> (forall w', C (l, (calls, w'))) ->
  wp scan Q R C (l, (calls, w)).
Proof.
  intros HQ HC. unfold scan. wp_reg. apply wp_beside, wp_catch, wp_beside.
  eapply wp_mono; [apply wp_any|..].
  - intros found w' _. wp_reg. apply HQ.
  - intros [].
  - intros w' _. split; [wp_reg; apply HQ|apply HC].
Qed.

(** Rebuilding a candidate without writes makes no call. *)
Lemma reconcile_entries_unwritten {E} found es t (s : Recorded) :
  wp (reconcile_entries (E := E) found false es t) (fun _ s' => s' = s) (fun _ _ => False)
    (fun _ => False) s.
Proof.
  revert t. induction es as [|e es IH]; intros t; simpl; [done|]. wp_reg.
  apply (wp_mono _ (fun _ s' => s' = s) _ (fun _ _ => False) _ (fun _ => False)); [|intros t' s' ->; apply IH|done..].
  unfold reconcile_entry, try_save. repeat case_match; done.
Qed.

Lemma reconcile_loaded_unwritten {E} o found (s : Recorded) :
  wp (reconcile_loaded (E := E) o found false) (fun _ s' => s' = s) (fun _ _ => False)
    (fun _ => False) s.
Proof.
  unfold reconcile_loaded, reconcile_settled. case_match; [done|].
  destruct o as [i []|]; [| |done]; repeat wp_reg;
    (eapply wp_mono; [apply reconcile_entries_unwritten|..]; [|done..]); intros t s' ->;
    by repeat wp_reg.
Qed.

Lemma publish_reconciled_calls c base found l calls (w : W)
    (Q : PluginCatalogSnapshot -> Live * Recorded -> Prop) (R : AppError -> Live * Recorded -> Prop)
    (C : Live * Recorded -> Prop) :
  (forall s l', Q s (l', (calls, w))) -> (forall e, R e (l, (calls, w))) -> C (l, (calls, w)) ->
  wp (publish_reconciled c base found) Q R C (l, (calls, w)).
Proof.
  intros HQ HR HC. unfold publish_reconciled. wp_reg. apply wp_on_candidate.
  unfold build_reconciled_candidate. do 3 wp_reg. apply wp_beside.
  eapply wp_mono; [apply reconcile_loaded_unwritten|..]; [|done..].
  intros [[o cl] su] s' ->. wp_reg. cbn beta iota. unfold publish_once. wp_reg.
  wp_reg; [|intros; apply HR|intros; apply HC].
  intros r _. wp_reg. apply wp_write. wp_reg. apply HQ.
Qed.

(** ** The documents of a removal *)

(** The answer lets a rename follow. *)
Definition barrier (answer : outcome PersistOutcome PersistOutcome) : bool :=
  match answer with Ok o => outcome_satisfies_destructive_barrier o | _ => false end.
Definition committed (answer : outcome PersistOutcome PersistOutcome) : bool :=
  match answer with Ok o | Err o => persist_outcome_committed o | Halt _ => false end.

Lemma disabled_calls record c l calls (w : W) s rw
    (Q : (PersistOutcome + PersistOutcome) * PluginRegistry -> Live * Recorded -> Prop)
    (R : AppError -> Live * Recorded -> Prop) C :
  runtime (publication c) = RAvailable s rw ->
  (forall r answer c' w', barrier_succeeded r = true -> barrier answer = true ->
     Q (r, c') (l, (SavedState (removal_disabled_candidate s record) answer :: calls, w'))) ->
  (forall r answer c' w', barrier_succeeded r = false ->
     Q (r, c') (l, (SavedState (removal_disabled_candidate s record) answer :: calls, w'))) ->
  (forall answer w', C (l, (SavedState (removal_disabled_candidate s record) answer :: calls, w'))) ->
  wp (on_candidate c (persist_disabled_before_removal record)) Q R C (l, (calls, w)).
Proof.
  intros Hr Hok Hno HC. apply wp_on_candidate. unfold persist_disabled_before_removal.
  do 2 wp_reg. rewrite Hr. wp_reg. apply wp_beside. unfold outcome_of. wp_reg.
  unfold save_before_destructive_rename. wp_reg. apply wp_recorded.
  - intros o w'. destruct (outcome_satisfies_destructive_barrier o) eqn:E; repeat wp_reg;
      [by apply Hok|by apply Hno].
  - intros o w'. repeat wp_reg. by apply Hno.
  - intros h w'. apply HC.
Qed.

Lemma index_calls (mutation : ManagedOwnershipIndexV1 -> outcome OwnershipFailure ManagedOwnershipIndexV1)
    (c : PluginRegistry) l calls (w : W)
    (Q : (PersistOutcome + PersistOutcome) * PluginRegistry -> Live * Recorded -> Prop)
    (R : AppError -> Live * Recorded -> Prop) (C : Live * Recorded -> Prop) :
  (forall c' w', Q (inl NotCommitted, c') (l, (calls, w'))) ->
  (forall r answer i i' c' w', mutation i = Ok i' ->
     (barrier_succeeded r = true -> barrier answer = true) ->
     (persist_outcome_committed (persistence_outcome r) = true -> committed answer = true) ->
     Q (r, c') (l, (SavedIndex i' answer :: calls, w'))) ->
  (forall extra w', Forall (fun call => exists i h, call = SavedIndex i (Halt h)) extra ->
     C (l, ((extra ++ calls)%list, w'))) ->
  wp (on_candidate c (mutate_removal_index mutation)) Q R C (l, (calls, w)).
Proof.
  intros Hno Hsave HC. apply wp_on_candidate. unfold mutate_removal_index. do 2 wp_reg.
  destruct (ownership (publication c)) as [index rw|]; [|wp_reg; apply Hno].
  wp_reg. wp_reg; [| |apply (HC []); by constructor];
    [|intros e He; unfold or_fail in He; destruct (mutation index); simpl in He; try done;
      injection He as <-; apply Hno].
  intros i' Hi'. assert (mutation index = Ok i') as Hm.
  { unfold or_fail in Hi'. destruct (mutation index); simpl in Hi'; congruence. }
  wp_reg. apply wp_beside. unfold outcome_of. wp_reg. apply wp_recorded.
  - intros o w'. repeat wp_reg. by eapply Hsave.
  - intros o w'. repeat wp_reg. by eapply Hsave.
  - intros h w'. apply (HC [_]). repeat constructor. by eexists _, _.
Qed.

(** Calls that follow a rename, or that go on after it was given up. *)
Definition is_rename (call : Call) : bool := match call with Renamed _ _ => true | _ => false end.
Definition saves_index (call : Call) : Prop := exists i answer, call = SavedIndex i answer.
Definition after_move (call : Call) : Prop :=
  saves_index call \/ exists o answer, call = Cleaned o answer.

Lemma after_cleaned o answer : after_move (Cleaned o answer).
Proof. right. by eexists _, _. Qed.
Lemma after_saved i answer : after_move (SavedIndex i answer).
Proof. left. by eexists _, _. Qed.
#[local] Hint Resolve after_cleaned after_saved Forall_cons_2 Forall_nil_2 : core.

Lemma halted_saves extra :
  Forall (fun call => exists i h, call = SavedIndex i (Halt h)) extra -> Forall saves_index extra.
Proof.
  intros Hx. eapply Forall_impl; [exact Hx|]. intros call (i & h & ->). by eexists _, _.
Qed.

(** The package is reported where it was. *)
Definition nothing_moved (o : outcome AppError RemovalResult) : Prop :=
  match o with Ok (NotRemoved _ _ _) | Err _ | Halt _ => True | Ok _ => False end.

(** What rolling back calls, and how it ends. *)
Lemma rollback_calls c base preflight failure l calls (w : W) :
  ends (rollback c base preflight failure)
    (fun o calls' => (exists extra, calls' = (extra ++ calls)%list /\ Forall saves_index extra) /\
       nothing_moved o) l (calls, w).
Proof.
  unfold ends, rollback. wp_reg. apply index_calls.
  - intros c' w'. wp_reg. apply wp_write. wp_reg.
    apply publish_reconciled_calls; intros; repeat wp_reg; (split; [by exists []|done]).
  - intros r answer i i' c' w' _ _ _. wp_reg. apply wp_write. wp_reg.
    assert (Forall saves_index [SavedIndex i' answer]) by (repeat constructor; by eexists _, _).
    apply publish_reconciled_calls; intros; repeat wp_reg;
      (split; [by exists [SavedIndex i' answer]|done]).
  - intros extra w' Hx%halted_saves h. split; [by exists extra|done].
Qed.

(** ** After the rename *)

(** Nothing of the package is left, and its entry left the saved index. *)
Definition gone (receipt : string) (extra : list Call) : Prop :=
  (exists o clean, Cleaned o (Ok clean) ∈ extra /\ physically_clean clean = true) /\
  exists i answer, SavedIndex i answer ∈ extra /\ committed answer = true /\
    forall e, e ∈ ix_entries i -> en_receipt_id e <> receipt.

Definition moved_away (id receipt : string) (certain : bool) (o : outcome AppError RemovalResult)
    (extra : list Call) : Prop :=
  Forall after_move extra /\
  match o with
  | Ok (NotRemoved _ _ _) => False
  | Ok (Removed id' _) => id' = id /\ certain = true /\ gone receipt extra
  | _ => True
  end.

(** What follows a rename adds such calls to those before. *)
Definition ends_moved (id receipt : string) (certain : bool) (x : Life (W := Recorded) AppError RemovalResult)
    (calls : list Call) (l : Live) (s : Recorded) : Prop :=
  ends x (fun o calls' => exists extra, calls' = (extra ++ calls)%list /\
                                        moved_away id receipt certain o extra) l s.

Lemma report_rename_calls id receipt c base preflight slot found cleanup unconfirmed clean certain
    extra calls l (w : W) :
  Forall after_move extra -> (unconfirmed = false -> certain = true) ->
  (physically_clean cleanup && clean = true -> gone receipt extra) ->
  ends_moved id receipt certain
    (report_rename id c base preflight slot found cleanup unconfirmed clean) calls l
    ((extra ++ calls)%list, w).
Proof.
  intros Hx Hu Hg. unfold ends_moved, ends, report_rename. case_match.
  { wp_reg. exists extra. by split. }
  wp_reg. apply wp_on_candidate. unfold build_reconciled_candidate. do 3 wp_reg. apply wp_beside.
  eapply wp_mono; [apply reconcile_loaded_unwritten|..]; [|done..].
  intros [[o cl] su] s' ->. wp_reg. cbn beta iota. unfold publish_once. do 2 wp_reg. wp_reg.
  - intros r _. wp_reg. apply wp_write. do 2 wp_reg. exists extra. split; [done|]. split; [done|].
    unfold removal_report.
    destruct (unconfirmed || _) eqn:E1; [done|]. apply orb_false_iff in E1 as [E1 _].
    destruct (physically_clean cleanup && clean) eqn:E2; [by split_and!; auto|]. by destruct (0 <? _).
  - intros e _. exists extra. by split.
  - intros h. exists extra. by split.
Qed.

Lemma wp_infallible {A E} (c : M Recorded Empty_set A) (Q : A -> Recorded -> Prop)
    (R : E -> Recorded -> Prop) C s :
  wp c Q (fun e _ => match e with end) C s -> wp (infallible c) Q R C s.
Proof. unfold wp, infallible. by destruct (c s) as [[a|[]|h] s']. Qed.

Lemma after_rename_calls id c base preflight owned uncertain calls l (w : W) :
  ends_moved id (en_receipt_id (rp_entry preflight)) (negb uncertain)
    (after_rename id c base preflight owned uncertain) calls l (calls, w).
Proof.
  assert (forall o, moved_away id (en_receipt_id (rp_entry preflight)) (negb uncertain)
                      (Halt o : outcome AppError RemovalResult) []) as Hnone by by repeat constructor.
  unfold ends_moved, ends, after_rename. wp_reg. apply wp_unrecorded_try; [|by exists []].
  intros evidence w1. wp_reg. apply wp_scan_calls; [|by exists []]. intros found w2. wp_reg.
  apply wp_beside, wp_infallible, wp_recorded; [|done|].
  2:{ intros h w3 h'. exists [Cleaned owned (Halt h)].
      split; [done|]. split; [|done]. auto. }
  intros cleanup w3. wp_reg. set (cleaned := Cleaned owned (Ok cleanup)).
  assert (after_move cleaned) as Hc by apply after_cleaned.
  unfold delete_if_clean. destruct (physically_clean cleanup) eqn:Ep.
  - wp_reg. apply index_calls.
    + intros c' w'. do 2 wp_reg. apply wp_write.
      apply (report_rename_calls _ _ _ _ _ _ _ _ _ _ _ [cleaned]); [by auto| |].
      * by destruct uncertain.
      * simpl. by rewrite andb_false_r.
    + intros r answer i i' c' w' Hi' _ Hcommitted. do 2 wp_reg. apply wp_write.
      apply (report_rename_calls _ _ _ _ _ _ _ _ _ _ _ [SavedIndex i' answer; cleaned]).
      * auto.
      * by destruct uncertain.
      * intros Eg. apply andb_true_iff in Eg as [_ Eg]. split.
        -- exists owned, cleanup. split; [by right; left|done].
        -- exists i', answer. split; [by left|]. split; [by apply Hcommitted|].
           intros e He. by apply (remove_spec _ _ _ Hi') in He as [_ ?].
    + intros extra w' Hx%halted_saves h. exists (extra ++ [cleaned])%list.
      split; [by rewrite <- app_assoc|]. split; [|done]. apply Forall_app. split; [|by auto].
      eapply Forall_impl; [exact Hx|]. by left.
  - do 2 wp_reg. apply wp_write.
    apply (report_rename_calls _ _ _ _ _ _ _ _ _ _ _ [cleaned]); [by auto| |].
    + by destruct uncertain.
    + by rewrite Ep.
Qed.

(** ** The whole removal *)

(** The calls before a rename: the disabled decision saved, then the entry in
    removal saved, each behind the barrier, then the package verified again. *)
Definition ready (record : PluginRecord) (receipt : string) (owned : Owned) (before : list Call)
    : Prop :=
  exists s state_saved i index_saved,
    before = [Reverified owned (Ok tt); SavedIndex i index_saved; SavedState s state_saved] /\
    barrier state_saved = true /\ barrier index_saved = true /\
    is_enabled s record = false /\ removing_in i receipt (owned_slot owned).

(** What follows the rename by its answer. *)
Definition renamed_run (id receipt : string) (answer : outcome Empty_set QuarantineRenameOutcome)
    (o : outcome AppError RemovalResult) (extra : list Call) : Prop :=
  match answer with
  | Ok (RenameCommitted _) => moved_away id receipt true o extra
  | Ok RenameCommitUnconfirmed => moved_away id receipt false o extra
  | Ok (RenameProvenNotCommitted _) => Forall saves_index extra /\ nothing_moved o
  | Err e => match e with end
  | Halt _ => extra = [] /\ exists h, o = Halt h
  end.

(** A call that moves no file. *)
Definition keeps_files (call : Call) : Prop :=
  match call with
  | SavedState _ _ | SavedIndex _ _ | Reverified _ _ => True
  | Renamed _ _ | Cleaned _ _ | Promoted _ _ => False
  end.

(** A removal of the package found by its preflight, as the calls it makes. *)
Definition removal_run (id : string) (record : PluginRecord) (receipt : string)
    (o : outcome AppError RemovalResult) (calls : list Call) : Prop :=
  Forall keeps_files calls /\ nothing_moved o \/
  exists extra owned answer before,
    calls = (extra ++ Renamed owned answer :: before)%list /\ ready record receipt owned before /\
    renamed_run id receipt answer o extra.

Lemma saves_keep_files extra : Forall saves_index extra -> Forall keeps_files extra.
Proof. intros Hx. eapply Forall_impl; [exact Hx|]. by intros call (i & answer & ->). Qed.

Lemma rollback_run id record receipt c base preflight failure l calls (w : W) :
  Forall keeps_files calls ->
  ends (rollback c base preflight failure) (removal_run id record receipt) l (calls, w).
Proof.
  intros Hk. eapply ends_mono; [apply rollback_calls|].
  intros o calls' ((extra & -> & Hx) & Hn). left. split; [|done].
  apply Forall_app. split; [by apply saves_keep_files|done].
Qed.

Lemma after_rename_run id c base preflight owned uncertain rename calls record l (w : W) :
  ready record (en_receipt_id (rp_entry preflight)) owned calls ->
  match rename with
  | RenameCommitted _ => uncertain = false
  | RenameCommitUnconfirmed => uncertain = true
  | RenameProvenNotCommitted _ => False
  end ->
  ends (after_rename id c base preflight owned uncertain)
    (removal_run id record (en_receipt_id (rp_entry preflight))) l
    (Renamed owned (Ok rename) :: calls, w).
Proof.
  intros Hr Hu. eapply ends_mono; [apply after_rename_calls|].
  intros o calls' (extra & -> & Hm). right. exists extra, owned, (Ok rename), calls.
  split_and!; [done..|]. by destruct rename; subst.
Qed.

Lemma quarantine_run id c base preflight owned calls record l (w : W) :
  ready record (en_receipt_id (rp_entry preflight)) owned calls ->
  ends (quarantine id c base preflight owned)
    (removal_run id record (en_receipt_id (rp_entry preflight))) l (calls, w).
Proof.
  intros Hr. unfold ends, quarantine. wp_reg. apply wp_beside, wp_infallible, wp_recorded; [|done|].
  - intros [v|failure|] w1; cbn beta iota.
    + case_match; [by apply after_rename_run|].
      wp_reg. right. exists [], owned, (Ok (RenameCommitted v)), calls. by repeat constructor.
    + eapply ends_mono; [apply rollback_calls|]. intros o calls' ((extra & -> & Hx) & Hn).
      right. by exists extra, owned, (Ok (RenameProvenNotCommitted failure)), calls.
    + by apply after_rename_run.
  - intros h w1 h'. right. exists [], owned, (Halt h), calls.
    split_and!; [done..|]. split; [done|by exists h'].
Qed.

Lemma remove_disabled_run id c base preflight owned s answer record l (w : W) :
  barrier answer = true ->
  ends (remove_disabled id c base preflight owned)
    (removal_run id record (en_receipt_id (rp_entry preflight))) l
    ([SavedState (removal_disabled_candidate s record) answer], w).
Proof.
  intros Hb. unfold ends, remove_disabled. wp_reg. apply index_calls.
  - intros c' w'. wp_reg. apply wp_write. by apply rollback_run; repeat constructor.
  - intros r saved i i' c' w' Hi Hs _. wp_reg. apply wp_write.
    case_match eqn:Er; [by apply rollback_run; repeat constructor|]. apply negb_false_iff, Hs in Er.
    wp_reg. apply wp_beside. wp_reg. apply wp_recorded.
    + intros [] w1. apply quarantine_run.
      exists (removal_disabled_candidate s record), answer, i', saved.
      split_and!; [done..|apply removal_disables|by eapply begin_removal_entry].
    + intros e w1. by apply rollback_run; repeat constructor.
    + intros h w1 h'. left. by repeat constructor.
  - intros extra w' Hx%halted_saves h. left. split; [|done].
    apply Forall_app. split; [by apply saves_keep_files|by repeat constructor].
Qed.

(** What a removal called from a registry: nothing moved, or the preflight
    found the package and the calls are a removal of it. *)
Definition removal_protocol (r : PluginRegistry) (id generation : string)
    (o : outcome AppError RemovalResult) (calls : list Call) : Prop :=
  Forall keeps_files calls /\ nothing_moved o \/
  exists preflight, preflight_removal r id generation = Ok preflight /\
    removal_run id (rp_record preflight) (en_receipt_id (rp_entry preflight)) o calls.

Lemma run_removal_protocol id generation l (w : W) :
  ends (run_removal id generation) (removal_protocol (lv_registry l) id generation) l ([], w).
Proof.
  unfold ends, run_removal. do 2 wp_reg; [|by left..]. intros _ _. wp_reg. apply wp_read.
  destruct (preflight_removal (lv_registry l) id generation) as [preflight|reason|h] eqn:Ep;
    [|by left|by left].
  destruct (preflight_available _ _ _ _ Ep) as (s & rw & Es & Hs).
  wp_reg. apply wp_unrecorded_try; [|by left]. intros [failure|owned] w1; cbn beta iota; [by left|].
  wp_reg. eapply disabled_calls; [done|..].
  - intros r answer c' w' Hb Ha. wp_reg. apply wp_write. rewrite Hb. cbn [negb].
    eapply ends_mono; [by apply remove_disabled_run|]. intros o calls Hr. right. by exists preflight.
  - intros r answer c' w' Hb. wp_reg. apply wp_write. rewrite Hb. cbn [negb]. wp_reg.
    case_match; [|repeat wp_reg; left; by repeat constructor].
    apply publish_reconciled_calls; intros; repeat wp_reg; left; by repeat constructor.
  - intros answer w' h. left. by repeat constructor.
Qed.

(** C24: a removal makes no call outside its protocol: the package is renamed at
    most once, and only after its disabled decision and then its entry in
    removal were saved behind the barrier and the package was verified again; a
    plugin reported as not removed was not renamed, and one reported as removed
    left neither files nor entry. *)
Theorem removal_follows_protocol id generation l (w : W) end_ l' calls w' :
  run_removal (W := Recorded) id generation (l, ([], w)) = (end_, (l', (calls, w'))) ->
  removal_protocol (lv_registry l) id generation end_ calls.
Proof.
  intros Hr. exact (ends_run _ _ _ _ _ _ _ (run_removal_protocol id generation l w) Hr).
Qed.
End Protocol.
