(* ===== verification/PluginScanFacts.v ===== *)
(** The bounds of a scan: what it reads, what it counts and that it ends, and
    what the outcome it becomes counts. *)
From stdpp Require Import gmap strings sorting.
From S2P Require Import Prelude RustStr FileSystem External Models BTreeMap Workflow StrategyTypes SafeDocument Supervisor PluginManifest PluginCatalog PluginPackages PluginState PluginOwnership PluginRegistry PluginLifecycle PluginScan PluginRegistryFacts.

(** ** Slots without repetition *)

Lemma dedup_cons x y l : dedup (x :: y :: l) = if x ==s y then dedup (y :: l) else x :: dedup (y :: l).
Proof. done. Qed.

Lemma dedup_length l : (length (dedup l) <= length l)%nat.
Proof.
  induction l as [|x [|y l] IH]; [done..|]. rewrite dedup_cons. case_match; cbn [length] in *; lia.
Qed.

Lemma finalize_counts slots kept repeated :
  finalize_occupied_slots slots = Some (kept, repeated) ->
  Z.of_nat (length kept) + repeated = Z.of_nat (length slots) /\ 0 <= repeated.
Proof.
  unfold finalize_occupied_slots. case_match; [|done]. intros [= <- <-].
  pose proof (dedup_length (merge_sort String.le slots)) as Hl.
  rewrite (Permutation_length (merge_sort_Permutation String.le slots)) in Hl. lia.
Qed.

(** A call that answers or fails. *)
Definition returns {W E A} (c : M W E A) : Prop :=
  forall w, wp c (fun _ _ => True) (fun _ _ => True) (fun _ => False) w.

Section Returns.
Context {W : Type}.

Lemma returns_bind {E A B} (c : M W E A) (k : A -> M W E B) :
  returns c -> (forall a, returns (k a)) -> returns (mbind c k).
Proof.
  intros Hc Hk w. apply wp_bind. eapply wp_mono; [apply Hc|..]; [|done..]. intros a w' _. apply Hk.
Qed.
Lemma returns_ret {E A} (a : A) : returns (mret (W := W) (E := E) a).
Proof. by intros w. Qed.
Lemma returns_fail {E A} (e : E) : returns (mfail (W := W) (A := A) e).
Proof. by intros w. Qed.
Lemma returns_try {E F A} (c : M W E A) : returns c -> returns (mtry (F := F) c).
Proof. intros Hc w. apply wp_try. by eapply wp_mono; [apply Hc|..]. Qed.
Lemma returns_map_err {E F A} (f : E -> F) (c : M W E A) : returns c -> returns (mmap_err f c).
Proof. intros Hc w. apply wp_map_err. by eapply wp_mono; [apply Hc|..]. Qed.
End Returns.
#[export] Hint Resolve returns_bind returns_ret returns_fail returns_try returns_map_err : returns.

Section Facts.
Context {W : Type} `{ScanPlatform W}.

(** The calls of the platform answer; a listing is refused beyond its bound, a
    read returns no more than was asked for, and no more reads are interrupted
    than there are interruptions. *)
Class BoundedPlatform : Prop := {
  open_root_returns : forall path, returns (open_root path);
  optional_child_returns : forall d n, returns (optional_child d n);
  dir_entries_returns : forall d n, returns (dir_entries d n);
  open_slot_returns : forall d n, returns (open_slot d n);
  dir_identity_returns : forall d, returns (dir_identity d);
  open_regular_file_returns : forall d n, returns (open_regular_file d n);
  file_identity_returns : forall f, returns (file_identity f);
  file_read_returns : forall f n, returns (file_read f n);
  occupied_returns : forall d n, returns (canonical_may_be_occupied d n);
  entries_bounded : forall d n w names w',
    0 <= n -> dir_entries d n w = (Ok names, w') -> Z.of_nat (length names) <= n;
  read_no_more : forall f n w chunk w',
    0 <= n -> file_read f n w = (Ok chunk, w') -> len chunk <= n;
  interruptions_end : forall f n w w',
    file_read f n w = (Err Interrupted, w') -> (interruptions w' < interruptions w)%nat;
}.
Context `{!BoundedPlatform}.

#[local] Hint Resolve open_root_returns optional_child_returns dir_entries_returns open_slot_returns
  dir_identity_returns open_regular_file_returns file_identity_returns file_read_returns
  occupied_returns returns_bind returns_ret returns_fail : core.

(** ** What reading uses *)

(** Reading ends, having read no more than [total] bytes, and one more only
    when it gave the directory up. *)
Definition reads {A} (total : Z) (x : Reader ReadFailure A) : Prop :=
  forall u (w : W), su_bytes_read u <= total ->
    wp x (fun _ s => su_bytes_read s.1 <= total)
      (fun e s => su_bytes_read s.1 <= total \/ e = FailRoot /\ su_bytes_read s.1 <= total + 1)
      (fun _ => False) (u, w).

Lemma scan_reads_bind {A B} total (x : Reader ReadFailure A) (k : A -> Reader ReadFailure B) :
  reads total x -> (forall a, reads total (k a)) -> reads total (mbind x k).
Proof.
  intros Hx Hk u w Hu. wp_reg. eapply wp_mono; [by apply Hx|..]; [|done..].
  intros a [u' w'] Hu'. by apply Hk.
Qed.
Lemma scan_reads_ret {A} total (a : A) : reads total (mret a).
Proof. by intros u w Hu. Qed.
Lemma scan_reads_fail {A} total e : reads total (mfail (A := A) e).
Proof. intros u w Hu. by left. Qed.
Lemma reads_package {A} total (c : M W unit A) : returns c -> reads total (package c).
Proof.
  intros Hc u w Hu. unfold package. wp_reg. apply wp_beside.
  eapply wp_mono; [apply Hc|..]; simpl; auto.
Qed.
Lemma reads_observed {A} total (c : M W unit A) : returns c -> reads total (observed c).
Proof.
  intros Hc u w Hu. unfold observed. wp_reg. apply wp_beside. wp_reg.
  eapply wp_mono; [apply Hc|..]; simpl; auto.
Qed.
Lemma reads_beside {A} total (c : M W Empty_set A) :
  returns c -> reads total (beside (infallible c)).
Proof.
  intros Hc u w Hu. apply wp_beside. pose proof (Hc w) as Hw. revert Hw. unfold wp, infallible.
  by destruct (c w) as [[a|[]|h] w'].
Qed.
Lemma scan_reads_lift {A} total (x : outcome ReadFailure A) :
  (forall h, x <> Halt h) -> reads total (mlift x).
Proof. intros Hx u w Hu. destruct x; simpl; [done|by left|by eapply Hx]. Qed.
(** A failure of the package is a value, that of the directory goes on. *)
Lemma scan_reads_try {A B} total (x : Reader ReadFailure A) (k : ReadFailure + A -> Reader ReadFailure B) :
  reads total x -> (forall a, reads total (k (inr a))) -> reads total (k (inl FailPackage)) ->
  k (inl FailRoot) = mfail FailRoot -> reads total (mbind (mtry x) k).
Proof.
  intros Hx Hk Hp Hr u w Hu. do 2 wp_reg. eapply wp_mono; [by apply Hx|..]; [| |done].
  - intros a [u' w'] Hu'. by apply Hk.
  - intros [] [u' w'] [Hu'|[Hf Hu']]; [by apply Hp|done|rewrite Hr..]; [by left|by right].
Qed.
#[local] Hint Resolve scan_reads_bind scan_reads_ret scan_reads_fail reads_package reads_observed reads_beside : core.

Lemma len_app a b : len (a ++ b) = len a + len b.
Proof.
  unfold len. assert (String.length (a ++ b) = String.length a + String.length b)%nat as ->; [|lia].
  induction a as [|c a IH]; [done|]. simpl. by rewrite IH.
Qed.
Lemma len_pos a : a <> "" -> 1 <= len a.
Proof. unfold len. destruct a; [done|]. cbn [String.length]. lia. Qed.

(** A read is made again until it was not interrupted. *)
Lemma read_again_spec fuel f n w :
  0 <= n -> (interruptions w < fuel)%nat ->
  wp (read_again fuel f n) (fun chunk _ => len chunk <= n) (fun _ _ => True) (fun _ => False) w.
Proof.
  intros Hn. revert w. induction fuel as [|fuel IH]; intros w Hf; [lia|]. cbn [read_again]. do 2 wp_reg.
  pose proof (file_read_returns f n w) as Hr. pose proof (fun c w' => read_no_more f n w c w' Hn) as Hc.
  pose proof (interruptions_end f n w) as Hi. revert Hr Hc Hi. unfold wp at 1 2.
  destruct (file_read f n w) as [[chunk|[]|h] w']; intros Hr Hc Hi; [by eapply Hc| |done|done].
  apply IH. specialize (Hi _ eq_refl). lia.
Qed.

Lemma wp_read_chunk f n u w (Q : string -> ScanUsage * W -> Prop) R :
  0 <= n ->
  (forall chunk w', len chunk <= n -> Q chunk (u, w')) -> (forall w', R FailPackage (u, w')) ->
  wp (package (read_chunk f n)) Q R (fun _ => False) (u, w).
Proof.
  intros Hz HQ HR. unfold package. wp_reg. apply wp_beside.
  pose proof (read_again_spec (S (interruptions w)) f n w Hz ltac:(lia)) as Hr.
  change (wp (read_chunk f n) (fun chunk _ => len chunk <= n) (fun _ _ => True) (fun _ => False) w) in Hr.
  eapply wp_mono; [exact Hr|..]; simpl; auto.
Qed.

Lemma read_loop_reads fuel file limits bytes :
  max_manifest_bytes limits + 2 - len bytes <= Z.of_nat fuel ->
  len bytes <= max_manifest_bytes limits ->
  reads (max_total_bytes limits) (read_loop fuel file limits bytes).
Proof.
  revert bytes. induction fuel as [|fuel IH]; intros bytes Hf Hb; [lia|].
  intros u w Hu. cbn [read_loop]. do 2 wp_reg. wp_reg. apply wp_read_chunk; [lia| |by left].
  intros chunk w' Hn. case_match eqn:Ec; [by wp_reg|]. apply String.eqb_neq, len_pos in Ec.
  unfold count_bytes. wp_reg. do 2 wp_reg. wp_reg. do 2 wp_reg. cbn [su_bytes_read].
  case_match; [wp_reg; right; cbn [su_bytes_read fst]; split; [done|lia]|].
  rewrite len_app. case_match; [wp_reg; left; cbn [su_bytes_read fst]; lia|].
  apply IH; rewrite ?len_app; cbn [su_bytes_read]; lia.
Qed.

Lemma read_bounded_reads file limits :
  0 <= max_manifest_bytes limits -> reads (max_total_bytes limits) (read_bounded file limits).
Proof. intros Hm. apply read_loop_reads; change (len "") with 0; lia. Qed.

Lemma known_shape_returns d partial : returns (known_shape d partial).
Proof. unfold known_shape. apply returns_bind; [auto|]. intros names. repeat case_match; auto. Qed.
#[local] Hint Resolve known_shape_returns : core.

Lemma when_present_reads {A} total present (c : M W unit A) :
  returns c -> reads total (when_present present c).
Proof. intros Hc. unfold when_present. case_match; auto. Qed.
Lemma read_present_reads file limits :
  0 <= max_manifest_bytes limits -> reads (max_total_bytes limits) (read_present file limits).
Proof.
  intros Hm. unfold read_present. destruct file as [file|]; [|auto].
  apply scan_reads_try; auto using read_bounded_reads.
Qed.
Lemma unwrapped_reads {A} total (r : ReadFailure + A) : reads total (unwrapped r).
Proof. destruct r; simpl; auto. Qed.
Lemma and_then_reads total a b : reads total a -> reads total b -> reads total (and_then a b).
Proof. intros Ha Hb. unfold and_then. apply scan_reads_bind; [done|]. intros []; auto. Qed.
Lemma still_named_reads total (x : M W unit FileIdentity) expected :
  returns x -> reads total (still_named x expected).
Proof. intros Hx. unfold still_named. auto. Qed.
Lemma file_still_named_reads total d name expected : reads total (file_still_named d name expected).
Proof. unfold file_still_named. case_match; auto using still_named_reads. Qed.
#[local] Hint Resolve when_present_reads unwrapped_reads and_then_reads still_named_reads
  file_still_named_reads : core.

Lemma read_object_reads root name limits partial on_shape :
  0 <= max_manifest_bytes limits -> reads (max_total_bytes limits) on_shape ->
  reads (max_total_bytes limits) (read_object root name limits partial on_shape).
Proof.
  intros Hm Hs. unfold read_object.
  apply scan_reads_bind; [auto|intros d]. apply scan_reads_bind; [auto|intros shape].
  apply scan_reads_bind; [auto|intros identity]. apply scan_reads_bind; [auto|intros manifest].
  apply scan_reads_bind; [auto|intros receipt]. apply scan_reads_bind; [done|intros _].
  apply scan_reads_bind; [by apply read_present_reads|intros mb].
  apply scan_reads_bind; [|intros rb].
  { apply (read_present_reads _ {| max_root_entries := _; max_packages := _;
      max_manifest_bytes := 4096; max_total_bytes := max_total_bytes limits |}). simpl. lia. }
  apply scan_reads_bind; [auto|intros mb']. apply scan_reads_bind; [auto|intros rb'].
  apply scan_reads_bind; [case_match; auto|intros mi]. apply scan_reads_bind; [case_match; auto|intros ri].
  case_match; [auto|]. apply scan_reads_bind; [auto 10|]. intros []; auto.
Qed.

(** ** What a scan counts *)

Lemma alias_slot_reads total root parse n : (forall s h, parse s <> Halt h) -> reads total (alias_slot root parse n).
Proof. intros _. unfold alias_slot. case_match; auto. Qed.
#[local] Hint Resolve alias_slot_reads : core.

Lemma slot_parse_ends prefix value h : validate_prefixed_slot value prefix <> Halt h.
Proof.
  unfold validate_prefixed_slot, validate_lower_hex_32, guard. destruct (strip_prefix _ _); [|done].
  simpl. by case_match.
Qed.
Lemma package_slot_ends s h : PackageSlot_parse s <> Halt h.
Proof.
  unfold PackageSlot_parse. pose proof (slot_parse_ends PACKAGE_SLOT_PREFIX s) as Hs.
  destruct (validate_prefixed_slot _ _) as [|?|h']; try done. by destruct (Hs h').
Qed.
Lemma removal_slot_ends s h : RemovalSlot_parse s <> Halt h.
Proof.
  unfold RemovalSlot_parse. pose proof (slot_parse_ends REMOVAL_SLOT_PREFIX s) as Hs.
  destruct (validate_prefixed_slot _ _) as [|?|h']; try done. by destruct (Hs h').
Qed.
Lemma or_fail_ends {E F A} (f : F) (x : outcome E A) : (forall h, x <> Halt h) -> forall h, or_fail f x <> Halt h.
Proof. intros Hx h. unfold or_fail. destruct x; simpl; [done..|]. intros [= ->]. by eapply Hx. Qed.
#[local] Hint Resolve package_slot_ends removal_slot_ends or_fail_ends scan_reads_lift : core.

Lemma sort_names_reads total root names : reads total (sort_names root names).
Proof.
  induction names as [|n names IH]; cbn [sort_names]; [auto|]. case_match.
  - apply scan_reads_bind; [done|]. intros [[]]. auto.
  - apply scan_reads_bind; [by apply alias_slot_reads|]. intros alias. apply scan_reads_bind; [done|]. intros [[]]. auto.
Qed.

Lemma on_package_reads limits : reads (max_total_bytes limits) (on_package limits).
Proof.
  intros u w Hu. unfold on_package, count_package. wp_reg. do 2 wp_reg. wp_reg. do 2 wp_reg.
  case_match; wp_reg; simpl; auto.
Qed.

Lemma read_packages_reads root limits slots :
  0 <= max_manifest_bytes limits ->
  reads (max_total_bytes limits) (read_packages root limits slots).
Proof.
  intros Hm. induction slots as [|slot slots IH]; cbn [read_packages]; [auto|].
  apply scan_reads_bind; [auto|]. intros slot'.
  assert (forall f : list PackageBytes * Z -> list PackageBytes * Z,
            reads (max_total_bytes limits)
              (let* x := read_packages root limits slots in mret (f x))) as Hrest by auto.
  apply scan_reads_try; [by apply read_object_reads, on_package_reads| | |done].
  - intros o. repeat case_match; (apply scan_reads_bind; [done|]); intros []; auto.
  - apply scan_reads_bind; [done|]. intros []; auto.
Qed.

(** What a reader answers. *)
Definition answers {A} (x : Reader (W := W) ReadFailure A) (P : A -> Prop) : Prop :=
  forall s, wp x (fun a _ => P a) (fun _ _ => True) (fun _ => True) s.

Lemma answers_bind {A B} (x : Reader ReadFailure A) (k : A -> Reader ReadFailure B) P Q :
  answers x P -> (forall a, P a -> answers (k a) Q) -> answers (mbind x k) Q.
Proof.
  intros Hx Hk s. wp_reg. eapply wp_mono; [apply Hx|..]; [|done..]. intros a s' Ha. by apply Hk.
Qed.
Lemma answers_any {A} (x : Reader ReadFailure A) : answers x (fun _ => True).
Proof. intros s. apply wp_any. Qed.
Lemma answers_ret {A} (a : A) (P : A -> Prop) : P a -> answers (mret a) P.
Proof. by intros Ha s. Qed.
Lemma answers_fail {A} e (P : A -> Prop) : answers (mfail e) P.
Proof. by intros s. Qed.
Lemma answers_then {A B} (x : Reader ReadFailure A) (k : A -> Reader ReadFailure B) Q :
  (forall a, answers (k a) Q) -> answers (mbind x k) Q.
Proof. intros Hk. eapply answers_bind; [apply answers_any|]. auto. Qed.

(** Every name is a slot or rejected, every slot a package or rejected. *)
Lemma sort_names_counts root names :
  answers (sort_names root names)
    (fun '(slots, rejected, _) =>
       Z.of_nat (length slots) + rejected = Z.of_nat (length names) /\ 0 <= rejected).
Proof.
  induction names as [|n names IH]; cbn [sort_names]; [by apply answers_ret|]. case_match.
  - eapply answers_bind; [exact IH|]. intros [[slots rejected] occupied] [Hc Hr].
    apply answers_ret. cbn [fst snd length]. lia.
  - apply answers_then. intros alias. eapply answers_bind; [exact IH|].
    intros [[slots rejected] occupied] [Hc Hr]. apply answers_ret. cbn [fst snd length]. lia.
Qed.

Lemma read_packages_counts root limits slots :
  answers (read_packages root limits slots)
    (fun '(packages, rejected) =>
       Z.of_nat (length packages) + rejected = Z.of_nat (length slots) /\ 0 <= rejected).
Proof.
  induction slots as [|slot slots IH]; cbn [read_packages]; [by apply answers_ret|].
  apply answers_then. intros slot'. apply answers_then. intros o.
  repeat case_match; try apply answers_fail;
    (eapply answers_bind; [exact IH|]); intros [packages rejected] [Hc Hr]; apply answers_ret;
    cbn [length]; lia.
Qed.

(** Reading leaves the number of entries of the directory as it was noted. *)
Definition keeps_entries {A} (x : Reader (W := W) ReadFailure A) : Prop :=
  forall s, wp x (fun _ s' => su_root_entries s'.1 = su_root_entries s.1)
              (fun _ s' => su_root_entries s'.1 = su_root_entries s.1) (fun _ => True) s.

Lemma entries_kept_bind {A B} (x : Reader ReadFailure A) (k : A -> Reader ReadFailure B) :
  keeps_entries x -> (forall a, keeps_entries (k a)) -> keeps_entries (mbind x k).
Proof.
  intros Hx Hk s. wp_reg. eapply wp_mono; [apply Hx|..]; [|done..]. intros a s' <-. apply Hk.
Qed.
Lemma entries_kept_ret {A} (a : A) : keeps_entries (mret a).
Proof. by intros s. Qed.
Lemma entries_kept_fail {A} e : keeps_entries (mfail (A := A) e).
Proof. by intros s. Qed.
Lemma entries_kept_lift {A} (x : outcome ReadFailure A) : keeps_entries (mlift x).
Proof. intros s. by destruct x. Qed.
Lemma entries_kept_get_bytes {A} n (k : Reader ReadFailure A) : keeps_entries k -> keeps_entries (count_bytes n ;;; k).
Proof. intros Hk. apply entries_kept_bind; [|done]. intros s. by destruct s. Qed.
Lemma entries_kept_get {A} (k : ScanUsage -> Reader ReadFailure A) :
  (forall u, keeps_entries (k u)) -> keeps_entries (mbind mget k).
Proof. intros Hk. apply entries_kept_bind; [|done]. by intros [u w]. Qed.
Lemma entries_kept_try {A B} (x : Reader ReadFailure A) (k : ReadFailure + A -> Reader ReadFailure B) :
  keeps_entries x -> (forall a, keeps_entries (k a)) -> keeps_entries (mbind (mtry x) k).
Proof.
  intros Hx Hk s. do 2 wp_reg. eapply wp_mono; [apply Hx|..]; [| |done]; intros a s' <-; apply Hk.
Qed.
Lemma entries_kept_beside {E A} (c : M W E A) (f : E -> ReadFailure) : keeps_entries (mmap_err f (beside c)).
Proof. intros [u w]. wp_reg. apply wp_beside. unfold wp. by destruct (c w) as [[] w']. Qed.
Lemma entries_kept_infallible {A} (c : M W Empty_set A) : keeps_entries (beside (infallible c)).
Proof. intros [u w]. apply wp_beside. unfold wp, infallible. by destruct (c w) as [[|[]|] w']. Qed.
Lemma entries_kept_observed {A} (c : M W unit A) : keeps_entries (observed c).
Proof.
  intros [u w]. unfold observed. wp_reg. apply wp_beside. wp_reg. unfold wp. by destruct (c w) as [[] w'].
Qed.
#[local] Hint Resolve entries_kept_bind entries_kept_ret entries_kept_fail entries_kept_lift entries_kept_get_bytes entries_kept_get entries_kept_try
  entries_kept_beside entries_kept_infallible entries_kept_observed : keeps_entries.

Lemma entries_kept_loop fuel file limits bytes : keeps_entries (read_loop fuel file limits bytes).
Proof.
  revert bytes. induction fuel as [|fuel IH]; intros bytes; cbn [read_loop]; [by auto with keeps_entries|].
  apply entries_kept_get; intros u. apply entries_kept_bind; [apply entries_kept_beside|]. intros chunk.
  case_match; [by auto with keeps_entries|]. apply entries_kept_get_bytes, entries_kept_get. intros u'.
  repeat case_match; auto with keeps_entries.
Qed.
Lemma entries_kept_present file limits : keeps_entries (read_present file limits).
Proof.
  destruct file; simpl; [|by auto with keeps_entries]. apply entries_kept_try; [apply entries_kept_loop|].
  intros [[]|]; auto with keeps_entries.
Qed.
Lemma entries_kept_when {A} present (c : M W unit A) : keeps_entries (when_present present c).
Proof. unfold when_present. case_match; [apply entries_kept_bind; [apply entries_kept_beside|]|]; auto with keeps_entries. Qed.
Lemma entries_kept_unwrapped {A} (r : ReadFailure + A) : keeps_entries (unwrapped r).
Proof. destruct r; simpl; auto with keeps_entries. Qed.
Lemma entries_kept_and a b : keeps_entries a -> keeps_entries b -> keeps_entries (and_then a b).
Proof. intros Ha Hb. apply entries_kept_bind; [done|]. intros []; auto with keeps_entries. Qed.
Lemma entries_kept_named x expected : keeps_entries (still_named x expected).
Proof. apply entries_kept_bind; auto with keeps_entries. Qed.
Lemma entries_kept_file_named d name expected : keeps_entries (file_still_named d name expected).
Proof. unfold file_still_named. case_match; [apply entries_kept_named|auto with keeps_entries]. Qed.
#[local] Hint Resolve entries_kept_present entries_kept_when entries_kept_unwrapped entries_kept_and entries_kept_named entries_kept_file_named : keeps_entries.

Lemma entries_kept_object root name limits partial on_shape :
  keeps_entries on_shape -> keeps_entries (read_object root name limits partial on_shape).
Proof.
  intros Hs. unfold read_object, package.
  repeat first [progress auto with keeps_entries | apply entries_kept_bind; [by auto with keeps_entries|intros ?]
               | apply entries_kept_bind; [by auto 10 with keeps_entries|intros []] | case_match].
Qed.

Lemma entries_kept_sort root names : keeps_entries (sort_names root names).
Proof.
  induction names as [|n names IH]; cbn [sort_names]; [by auto with keeps_entries|].
  case_match; [apply entries_kept_bind; [done|]; intros [[]]; auto with keeps_entries|].
  apply entries_kept_bind.
  - unfold alias_slot. case_match; auto with keeps_entries.
  - intros alias. apply entries_kept_bind; [done|]. intros [[]]; auto with keeps_entries.
Qed.

Lemma entries_kept_packages root limits slots : keeps_entries (read_packages root limits slots).
Proof.
  induction slots as [|slot slots IH]; cbn [read_packages]; [by auto with keeps_entries|].
  apply entries_kept_bind; [apply entries_kept_lift|]. intros slot'. apply entries_kept_try.
  - apply entries_kept_object. apply entries_kept_bind; [by intros [u w]|]. intros [].
    apply entries_kept_get. intros u. case_match; auto with keeps_entries.
  - intros o. repeat case_match; first [by auto with keeps_entries|apply entries_kept_bind; [done|]; intros []; auto with keeps_entries].
Qed.

(** The scan of the local plugins: every entry of the directory is a package or
    rejected. *)
Record local_bounds (limits : ScanLimits) (scan : PackageScan) : Prop := {
  lb_entries : Z.of_nat (length (ps_packages scan)) + ps_rejected_package_count scan =
               su_root_entries (ps_usage scan);
  lb_names : Z.of_nat (length (ps_packages scan)) + ps_rejected_package_count scan <= max_root_entries limits;
  lb_rejected : 0 <= ps_rejected_package_count scan;
}.

Lemma dir_entries_counts d n :
  0 <= n -> answers (package (dir_entries d n)) (fun names => Z.of_nat (length names) <= n).
Proof.
  intros Hz [u w]. unfold package. wp_reg. apply wp_beside. unfold wp.
  destruct (dir_entries d n w) as [[names|?|?] w'] eqn:E; [|done..]. by eapply entries_bounded.
Qed.

Lemma answers_kept {A} (x : Reader ReadFailure A) P u w (Q : A -> ScanUsage * W -> Prop) :
  answers x P -> keeps_entries x ->
  (forall a u' w', P a -> su_root_entries u' = su_root_entries u -> Q a (u', w')) ->
  wp x Q (fun _ _ => True) (fun _ => True) (u, w).
Proof.
  intros Hx Hk HQ. specialize (Hx (u, w)). specialize (Hk (u, w)). revert Hx Hk. unfold wp.
  destruct (x (u, w)) as [[a|e|h] [u' w']]; auto.
Qed.

Lemma read_local_counts root limits :
  0 <= max_root_entries limits -> answers (read_local_directory root limits) (local_bounds limits).
Proof.
  intros Hz. unfold read_local_directory.
  eapply answers_bind; [by apply dir_entries_counts|]. cbn beta. intros names Hn [u w]. do 2 wp_reg.
  wp_reg. eapply answers_kept; [apply sort_names_counts|apply entries_kept_sort|].
  intros [[slots rejected] occupied] u1 w1 [Hc Hr] E1. wp_reg.
  eapply answers_kept; [apply read_packages_counts|apply entries_kept_packages|].
  intros [packages rejected'] u2 w2 [Hc' Hr'] E2. wp_reg.
  rewrite (Permutation_length (merge_sort_Permutation String.le _)) in Hc'. cbn [fst snd] in Hc'.
  eapply answers_kept; [apply answers_any|apply entries_kept_lift|]. intros [kept repeated] u3 w3 _ E3.
  do 2 wp_reg. wp_reg. cbn [su_root_entries] in *.
  constructor; cbn [ps_packages ps_rejected_package_count ps_usage snd]; lia.
Qed.

Lemma finalize_ends slots : forall h, ok_or FailRoot (finalize_occupied_slots slots) <> Halt h.
Proof. intros h. by destruct (finalize_occupied_slots slots). Qed.

Lemma scan_wp_reads {A} total (x : Reader ReadFailure A) (Q : A -> ScanUsage * W -> Prop)
    (R : ReadFailure -> ScanUsage * W -> Prop) u w :
  reads total x -> su_bytes_read u <= total ->
  (forall a u' w', su_bytes_read u' <= total -> Q a (u', w')) -> (forall e s, R e s) ->
  wp x Q R (fun _ => False) (u, w).
Proof.
  intros Hx Hu HQ HR. eapply wp_mono; [by apply Hx|..]; [|auto..]. intros a [u' w']. apply HQ.
Qed.

(** A directory is read to an end, and its usage is bounded. *)
Lemma read_local_ends root limits u w :
  0 <= max_manifest_bytes limits -> 0 <= max_total_bytes limits ->
  wp (read_local_directory root limits)
    (fun scan _ => su_bytes_read (ps_usage scan) <= max_total_bytes limits) (fun _ _ => True)
    (fun _ => False) (u, w).
Proof.
  intros Hm Ht. unfold read_local_directory. wp_reg. unfold package. wp_reg. apply wp_beside.
  eapply wp_mono; [apply dir_entries_returns|..]; [|done..]. intros names w1 _. do 2 wp_reg. wp_reg.
  apply (scan_wp_reads (max_total_bytes limits)); [apply sort_names_reads|done| |done]. intros [[slots n] occupied] u1 w2 Hu1.
  wp_reg. eapply scan_wp_reads; [by apply read_packages_reads|done| |done].
  intros [packages rejected] u2 w3 Hu2. wp_reg.
  eapply (scan_wp_reads (max_total_bytes limits)); [auto using finalize_ends|done| |done].
  intros [kept repeated] u3 w4 Hu3. wp_reg. by do 2 wp_reg.
Qed.

(** ** Removals *)

Definition seen_names (scan : RemovalScan) : Z :=
  Z.of_nat (length (rs_occupied_slots scan)) + rs_unknown_count scan.

Lemma read_removal_counts root limits n scan :
  answers (read_removal root limits n scan)
    (fun scan' => seen_names scan' = seen_names scan + 1 /\
                  (0 <= rs_unknown_count scan -> 0 <= rs_unknown_count scan')).
Proof.
  unfold read_removal. case_match; apply answers_then.
  - intros [[]|o]; [apply answers_then; intros identity|apply answers_fail|];
      apply answers_ret; unfold seen_names; cbn [rs_occupied_slots rs_unknown_count];
      rewrite List.length_app; simpl; lia.
  - intros [slot|]; apply answers_ret; unfold seen_names; cbn [rs_occupied_slots rs_unknown_count];
      rewrite ?List.length_app; simpl; lia.
Qed.

Lemma read_removals_counts root limits names scan :
  answers (read_removals root limits names scan)
    (fun scan' => seen_names scan' = seen_names scan + Z.of_nat (length names) /\
                  (0 <= rs_unknown_count scan -> 0 <= rs_unknown_count scan')).
Proof.
  revert scan. induction names as [|n names IH]; intros scan; cbn [read_removals].
  - apply answers_ret. simpl. lia.
  - eapply answers_bind; [apply read_removal_counts|]. intros scan1 [H1 H1'].
    intros s. eapply wp_mono; [apply IH|..]; [|done..]. intros scan2 _ [H2 H2'].
    cbn [length]. split; [lia|auto].
Qed.

(** At most sixteen names are behind what a scan of the removals counts. *)
Definition removal_bounds (scan : RemovalScan) : Prop :=
  seen_names scan <= 16 /\ 0 <= rs_unknown_count scan.

Lemma read_removal_directory_counts root limit : answers (read_removal_directory root limit) removal_bounds.
Proof.
  unfold read_removal_directory. eapply answers_bind; [by apply dir_entries_counts|]. cbn beta. intros names Hn.
  eapply answers_bind; [apply read_removals_counts|]. intros scan [Hc Hu].
  rewrite (Permutation_length (merge_sort_Permutation name_le _)) in Hc.
  apply (answers_bind _ _ (fun x => finalize_occupied_slots (rs_occupied_slots scan) = Some x)).
  { intros s. wp_reg; [|done..]. by intros a Ha%ok_or_ok. }
  intros [kept repeated] [Hf Hr]%finalize_counts.
  apply (answers_bind _ _ (fun x => x = rs_unknown_count scan + repeated)).
  { intros s. wp_reg; [|done..]. intros a Ha%ok_or_ok. unfold u32_checked_add in Ha.
    case_match; [|done]. by injection Ha as <-. }
  intros unknown ->. apply answers_then. intros u. apply answers_ret.
  unfold removal_bounds, seen_names in *. cbn [rs_occupied_slots rs_unknown_count empty_removal_scan length] in *.
  specialize (Hu ltac:(lia)). lia.
Qed.

Lemma read_removal_reads root limits n scan :
  0 <= max_manifest_bytes limits ->
  reads (max_total_bytes limits) (read_removal root limits n scan).
Proof.
  intros Hm. unfold read_removal. case_match.
  - apply scan_reads_try; [by apply read_object_reads|by auto| |done].
    apply scan_reads_bind; [apply reads_observed; auto|auto].
  - apply scan_reads_bind; [apply alias_slot_reads; auto|]. intros [slot|]; auto.
Qed.

Lemma read_removals_reads root limits names scan :
  0 <= max_manifest_bytes limits ->
  reads (max_total_bytes limits) (read_removals root limits names scan).
Proof.
  intros Hm. revert scan. induction names as [|n names IH]; intros scan; cbn [read_removals]; [auto|].
  apply scan_reads_bind; [by apply read_removal_reads|done].
Qed.

Lemma read_removal_directory_ends root limit u w :
  0 <= limit -> su_bytes_read u <= limit ->
  wp (read_removal_directory root limit) (fun scan _ => rs_bytes_read scan <= limit)
    (fun _ _ => True) (fun _ => False) (u, w).
Proof.
  intros Hl Hu. unfold read_removal_directory. wp_reg.
  apply (scan_wp_reads limit); [apply reads_package; auto|done| |done]. intros names u1 w1 Hu1. wp_reg.
  apply (scan_wp_reads limit); [by apply (read_removals_reads _ {| max_root_entries := 256;
      max_packages := 128; max_manifest_bytes := 16 * 1024; max_total_bytes := limit |})|done| |done].
  intros scan u2 w2 Hu2. wp_reg.
  apply (scan_wp_reads limit); [apply scan_reads_lift, finalize_ends|done| |done].
  intros [kept repeated] u3 w3 Hu3. wp_reg.
  apply (scan_wp_reads limit); [apply scan_reads_lift; by destruct (u32_checked_add _ _)|done| |done].
  intros unknown u4 w4 Hu4. wp_reg. by do 2 wp_reg.
Qed.

(** ** Both *)

Lemma scan_wp_and {S E A} (x : M S E A) Q Q' R R' C C' s :
  wp x Q R C s -> wp x Q' R' C' s ->
  wp x (fun a s => Q a s /\ Q' a s) (fun e s => R e s /\ R' e s) (fun s => C s /\ C' s) s.
Proof. unfold wp. destruct (x s) as [[]]; auto. Qed.

Lemma read_child_spec {A} root identity name (absent : A) read (P : A -> Prop) w :
  P absent ->
  (forall child w, wp (read child) (fun a _ => P a) (fun _ _ => True) (fun _ => False) (no_usage, w)) ->
  wp (read_child root identity name absent read) (fun o _ => forall a, o = Some a -> P a)
    (fun _ _ => True) (fun _ => False) w.
Proof.
  intros Ha Hr.
  assert (wp (rooted (let* child := package (optional_child root name) in
              match child with
              | None => mret absent
              | Some child =>
                  let* i := package (dir_identity child) in
                  if volume i =? volume identity then read child else mfail FailRoot
              end)) (fun o _ => forall a, o = Some a -> P a) (fun _ _ => True) (fun _ => False)
            (no_usage, w)) as Hw.
  { unfold rooted. wp_reg. wp_reg. wp_reg. unfold package at 1. wp_reg. apply wp_beside.
    eapply wp_mono; [apply optional_child_returns|..]; [|by intros; wp_reg|done].
    intros [child|] w1 _; [|wp_reg; by intros a [= <-]]. wp_reg. unfold package. wp_reg. apply wp_beside.
    eapply wp_mono; [apply dir_identity_returns|..]; [|by intros; wp_reg|done].
    intros i w2 _. case_match; [|by wp_reg].
    eapply wp_mono; [apply Hr|..]; [|by intros; wp_reg|done]. intros a s Pa. wp_reg. by intros ? [= <-]. }
  revert Hw. unfold wp, read_child. destruct (rooted _ _) as [[o|[]|h] [u' w']]; auto.
Qed.

(** Both directories are read to an end within their bounds. *)
Definition scans_bounded (scans : option PackageScan * option RemovalScan) : Prop :=
  (forall scan, scans.1 = Some scan ->
     local_bounds production scan /\ su_bytes_read (ps_usage scan) <= max_total_bytes production) /\
  (forall scan, scans.2 = Some scan ->
     removal_bounds scan /\ rs_bytes_read scan <= REMOVAL_BYTE_LIMIT).

Lemma read_both_roots_bounded path w :
  wp (read_both_roots path) (fun scans _ => scans_bounded scans) (fun _ _ => True) (fun _ => False) w.
Proof.
  assert (local_bounds production empty_package_scan /\ removal_bounds empty_removal_scan) as [He Hr]
    by (split; [constructor; simpl; lia|split; unfold seen_names; simpl; lia]).
  unfold read_both_roots. case_match; [by wp_reg|]. wp_reg. wp_reg.
  eapply wp_mono; [apply open_root_returns|..]; [|by intros; wp_reg|done].
  intros [root|] w1 _; [|wp_reg; split; simpl; intros scan [= <-]; (split; [done|by vm_compute])].
  do 2 wp_reg. eapply wp_mono; [apply dir_identity_returns|..]; [|by intros; wp_reg|done].
  intros identity w2 _. wp_reg.
  eapply wp_mono; [apply (read_child_spec _ _ _ _ _ (fun scan => local_bounds production scan /\
      su_bytes_read (ps_usage scan) <= max_total_bytes production))|..]; [| | |done..].
  { split; [done|by vm_compute]. }
  { intros child w3. eapply wp_mono; [apply scan_wp_and;
      [by apply read_local_counts|by apply read_local_ends]|..]; [done..|]. by intros s []. }
  intros local w3 Hlocal. wp_reg.
  eapply wp_mono; [apply (read_child_spec _ _ _ _ _ (fun scan => removal_bounds scan /\
      rs_bytes_read scan <= REMOVAL_BYTE_LIMIT))|..]; [| | |done..].
  { split; [done|by vm_compute]. }
  { intros child w4. eapply wp_mono; [apply scan_wp_and;
      [apply read_removal_directory_counts|by apply read_removal_directory_ends]|..]; [done..|]. by intros s []. }
  intros removals w4 Hremovals. wp_reg. by split.
Qed.

(** ** The source of an import *)

Lemma read_loop_size fuel file limits bytes :
  len bytes <= max_manifest_bytes limits ->
  answers (read_loop fuel file limits bytes) (fun read => len read <= max_manifest_bytes limits).
Proof.
  revert bytes. induction fuel as [|fuel IH]; intros bytes Hb; cbn [read_loop]; [by intros s|].
  apply answers_then. intros u. apply answers_then. intros chunk.
  case_match; [by apply answers_ret|]. apply answers_then. intros []. apply answers_then. intros u'.
  case_match; [apply answers_fail|]. case_match; [apply answers_fail|]. apply IH. lia.
Qed.

(** A source is read to an end, or refused: what is answered is no longer than a
    manifest may be. *)
Lemma read_manifest_source_bounded path w :
  wp (read_manifest_source path)
    (fun o _ => forall bytes, o = Some bytes -> len bytes <= max_manifest_bytes production)
    (fun _ _ => True) (fun _ => False) w.
Proof.
  unfold read_manifest_source. case_match; [by wp_reg|].
  destruct (List.rev (components path)) as [|[| | |name] parent]; try by wp_reg. do 2 wp_reg.
  eapply wp_mono; [apply open_root_returns|..]; [|by intros; wp_reg|done].
  intros [directory|] w1 _; [|by wp_reg]. do 2 wp_reg.
  eapply wp_mono; [apply open_regular_file_returns|..]; [|by intros; wp_reg|done].
  intros file w2 _. cbn beta iota.
  assert (wp (rooted (read_bounded file production))
            (fun o _ => forall bytes, o = Some bytes -> len bytes <= max_manifest_bytes production)
            (fun _ _ => True) (fun _ => False) (no_usage, w2)) as Hw.
  { unfold rooted. do 2 wp_reg. eapply wp_mono; [apply scan_wp_and;
      [by apply (read_loop_size _ file production "")|by apply (read_bounded_reads file production)]|..].
    - intros bytes s [Hb _]. wp_reg. by intros ? [= <-].
    - intros e s _. by wp_reg.
    - by intros s []. }
  revert Hw. unfold wp. destruct (rooted _ _) as [[o|[]|h] [u w']]; auto.
Qed.
End Facts.

(** * The platform of Unix *)

Section UnixFacts.
Context {W : Type} `{Rustix W}.

(** The system calls answer, a read returns no more than was asked for, reads
    are not interrupted for ever and a directory has an end. *)
Class RustixLaws : Prop := {
  open_returns : forall path flags, returns (sys_open path flags);
  openat_returns : forall fd name flags, returns (sys_openat fd name flags);
  statat_returns : forall fd name, returns (sys_statat_nofollow fd name);
  fstat_returns : forall fd, returns (sys_fstat fd);
  read_returns : forall fd n, returns (sys_read fd n);
  read_from_returns : forall fd, returns (dir_read_from fd);
  next_entry_returns : forall dir, returns (next_entry dir);
  read_at_most : forall fd n w chunk w',
    0 <= n -> sys_read fd n w = (Ok chunk, w') -> len chunk <= n;
  interrupted_less : forall fd n w w',
    sys_read fd n w = (Err Interrupted, w') -> (reads_interrupted w' < reads_interrupted w)%nat;
  entry_less : forall dir w name w',
    next_entry dir w = (Ok (Some name), w') -> (entries_left dir w' < entries_left dir w)%nat;
}.
Context `{!RustixLaws}.
#[local] Hint Resolve open_returns openat_returns statat_returns fstat_returns read_returns
  read_from_returns next_entry_returns : returns.

Lemma open_components_returns held path : returns (open_components held path).
Proof.
  revert held. induction path as [|c path IH]; intros held; cbn [open_components];
    [by auto with returns|].
  destruct c; [apply IH..|]. apply returns_bind; [|intros []; auto with returns].
  unfold unix_optional_child. apply returns_bind; [auto with returns|].
  intros [[]|]; auto with returns.
Qed.

(** A listing ends, and has no more names than it was bounded by. *)
Lemma collect_entries_spec fuel dir max names w :
  (entries_left dir w < fuel)%nat ->
  wp (collect_entries fuel dir max names)
    (fun listed _ => Z.of_nat (length names) <= max -> Z.of_nat (length listed) <= max)
    (fun _ _ => True) (fun _ => False) w.
Proof.
  revert names w. induction fuel as [|fuel IH]; intros names w Hf; [lia|].
  cbn [collect_entries]. unfold unit_error. do 2 wp_reg.
  pose proof (next_entry_returns dir w) as Hr. pose proof (entry_less dir w) as Hl. revert Hr Hl.
  unfold wp at 1 2. destruct (next_entry dir w) as [[[name|]|e|h] w']; intros Hr Hl; [|by wp_reg|done..].
  specialize (Hl _ _ eq_refl). case_match; [apply IH; lia|]. case_match eqn:Em; [by wp_reg|].
  eapply wp_mono; [apply IH; lia|..]; [|done..]. intros listed w1 Hn Hm. apply Hn.
  rewrite List.length_app. simpl. lia.
Qed.

Lemma unix_entries_spec fd max w :
  wp (unix_entries fd max) (fun names _ => 0 <= max -> Z.of_nat (length names) <= max)
    (fun _ _ => True) (fun _ => False) w.
Proof.
  unfold unix_entries, unit_error. do 2 wp_reg.
  eapply wp_mono; [apply read_from_returns|..]; [|done..]. intros dir w' _.
  eapply wp_mono; [apply (collect_entries_spec (S (entries_left dir w')) dir max [] w'); lia|..]; auto.
Qed.

#[export] Instance UnixBounded : BoundedPlatform.
Proof.
  split; simpl.
  - intros path. apply returns_bind; [unfold unit_error; auto with returns|].
    intros held. apply open_components_returns.
  - intros fd name. apply returns_bind; [auto with returns|]. intros [[]|]; auto with returns.
  - intros fd n w. eapply wp_mono; [apply unix_entries_spec|..]; auto.
  - intros fd name. unfold unix_open_slot, unit_error. auto with returns.
  - intros fd. unfold unix_identity, unit_error. auto with returns.
  - intros fd name. unfold unix_open_regular_file, unit_error.
    apply returns_bind; [auto with returns|]. intros file. apply returns_bind; [auto with returns|].
    intros m. case_match; auto with returns.
  - intros fd. unfold unix_file_identity, unit_error. apply returns_bind; [auto with returns|].
    intros m. case_match; auto with returns.
  - apply read_returns.
  - intros fd name. unfold unix_occupied. auto with returns.
  - intros fd n w names w' Hn E. pose proof (unix_entries_spec fd n w) as Hs. unfold wp in Hs.
    rewrite E in Hs. auto.
  - apply read_at_most.
  - apply interrupted_less.
Qed.
End UnixFacts.

(** * From a scan to an outcome *)

(** ** Groups by identifier *)

Lemma sm_values_Permutation {V} (m : gmap string V) : sm_values m ≡ₚ (map_to_list m).*2.
Proof.
  unfold sm_values. rewrite sm_keys_perm.
  assert (forall kvs, (forall kv, kv ∈ kvs -> m !! kv.1 = Some kv.2) ->
            omap (fun k => m !! k) kvs.*1 = kvs.*2) as Hl.
  { induction kvs as [|[k v] kvs IH]; intros Hk; [done|]. simpl.
    assert (m !! k = Some v) as -> by (apply (Hk (k, v)); left). simpl. f_equal. apply IH. intros kv Hin. apply Hk. by right. }
  rewrite Hl; [done|]. intros [k v] Hin. by apply elem_of_map_to_list.
Qed.

(** How many there are in all groups. *)
Definition total {A} (groups : list (list A)) : Z :=
  foldr (fun g n => Z.of_nat (length g) + n) 0 groups.

Lemma total_Permutation {A} (gs gs' : list (list A)) : gs ≡ₚ gs' -> total gs = total gs'.
Proof. induction 1; simpl; lia. Qed.

Lemma total_cons {A} (g : list A) gs : total (g :: gs) = Z.of_nat (length g) + total gs.
Proof. done. Qed.

Lemma total_insert {A} (m : gmap string (list A)) k d :
  total (sm_values (<[k := (default [] (m !! k) ++ [d])%list]> m)) = total (sm_values m) + 1.
Proof.
  rewrite !(total_Permutation _ _ (sm_values_Permutation _)).
  rewrite <- insert_delete_eq.
  rewrite (total_Permutation _ _ (fmap_Permutation _ _ _ (map_to_list_insert _ _ _ (lookup_delete_eq m k)))).
  rewrite fmap_cons, total_cons. cbn [snd].
  destruct (m !! k) as [g|] eqn:E.
  - rewrite <- (total_Permutation _ _ (fmap_Permutation _ _ _ (map_to_list_delete _ _ _ E))).
    rewrite fmap_cons, total_cons. cbn [default snd id]. rewrite List.length_app. cbn [length]. lia.
  - rewrite delete_id by done. cbn [default app length]. lia.
Qed.

Section Parse.
Context `{SemverLib} `{Codec json} `{Base64Lib} `{Codec PluginManifest}.
Context `{UuidV4Lib} `{Sha256Lib} `{Codec OwnershipReceiptV1}.

(** A group holds packages of its own identifier, and local ones. *)
Definition grouped (m : gmap string (list DiscoveredLocalPlugin)) : Prop :=
  forall k g, m !! k = Some g ->
    Forall (fun d => package_id d = k /\ pr_source (dp_record d) = LocalDeclarative) g.

Lemma parse_record_local bytes r : parse_record bytes = Some r -> pr_source r = LocalDeclarative.
Proof.
  unfold parse_record. destruct (manifest_from_slice bytes) as [m|]; [|done]. simpl.
  destruct (local_declarative m) as [x|?|?] eqn:E; try done. intros [= <-].
  unfold local_declarative in E. by run_ok.
Qed.

Lemma parse_package_local {E} p d :
  parse_package (E := E) p = Ok (Some d) -> pr_source (dp_record d) = LocalDeclarative.
Proof.
  unfold parse_package. intros Hp. run_ok.
  destruct (parse_record (pb_manifest_bytes p)) as [r|] eqn:Er; repeat case_match; simplify_eq;
    by eapply parse_record_local.
Qed.

Lemma collect_packages_spec {E} packages m rejected m' rejected' :
  collect_packages (E := E) packages m rejected = Ok (m', rejected') -> grouped m ->
  grouped m' /\ rejected <= rejected' /\
  total (sm_values m') + rejected' = total (sm_values m) + Z.of_nat (length packages) + rejected.
Proof.
  revert m rejected. induction packages as [|p packages IH]; intros m rejected; cbn [collect_packages].
  { intros E0 Hg. run_ok. simplify_eq. simpl. split_and!; [done|lia..]. }
  intros Hc Hg. run_ok. destruct_var (option _).
  - match goal with H : parse_package _ = Ok (Some ?d) |- _ =>
      apply parse_package_local in H as Hd; apply IH in Hc as (Hg' & Hr & Ht) end.
    + split_and!; [done|lia|]. rewrite Ht, total_insert. cbn [length]. lia.
    + intros k g Hk. apply lookup_insert_Some in Hk as [[<- <-]|[_ Hk]]; [|by eapply Hg].
      apply Forall_app. split; [|by apply Forall_singleton].
      match goal with |- Forall _ (default _ (m !! ?i)) => destruct (m !! i) eqn:Ek end; simpl;
        [by apply Hg in Ek|constructor].
  - apply IH in Hc as (Hg' & Hr & Ht); [|done]. split_and!; [done|lia|]. cbn [length]. lia.
Qed.

Lemma keep_single_spec groups rejected records rejected' :
  keep_single groups rejected = (records, rejected') -> 0 <= rejected ->
  Z.of_nat (length records) + rejected' = total groups + rejected /\ rejected <= rejected' /\
  forall d, d ∈ records -> exists g, g ∈ groups /\ d ∈ g.
Proof.
  revert rejected records rejected'.
  induction groups as [|g groups IH]; intros rejected records rejected'; cbn [keep_single].
  { intros [= <- <-] _. simpl. split_and!; [lia..|]. by intros d ?%elem_of_nil. }
  destruct g as [|d [|d' g]].
  - intros E Hr. apply IH in E as (Ht & Hle & Hin); [|simpl; lia]. simpl in *.
    split_and!; [lia..|]. intros d Hd. destruct (Hin d Hd) as (g & Hg & ?). exists g. split; [by right|done].
  - destruct (keep_single groups rejected) as [records1 rejected1] eqn:E. intros [= <- <-] Hr.
    apply IH in E as (Ht & Hle & Hin); [|done]. cbn [total foldr length] in *.
    split_and!; [unfold total in *; simpl; lia|lia|]. intros x [->|Hx]%elem_of_cons.
    + exists [d]. split; [left|by left].
    + destruct (Hin x Hx) as (g & Hg & ?). exists g. split; [by right|done].
  - intros E Hr. apply IH in E as (Ht & Hle & Hin); [|lia]. unfold total in *. cbn [foldr length] in *.
    split_and!; [lia..|]. intros x Hx. destruct (Hin x Hx) as (g0 & Hg & ?). exists g0. split; [by right|done].
Qed.

(** ** Outcomes *)

Definition summary_ok (s : LocalDiscoverySummary) : Prop :=
  0 <= rejected_package_count s <= 256 /\
  (lds_status s = DDegraded <-> 0 < rejected_package_count s).

(** What the registry may rely on of an outcome of the discovery. *)
Record well_found (found : LocalDiscoveryOutcome) : Prop := {
  wf_summary : summary_ok (do_summary found);
  wf_unavailable : lds_status (do_summary found) = DUnavailable -> do_plugins found = [];
  wf_local : Forall (fun d => pr_source (dp_record d) = LocalDeclarative) (do_plugins found);
  wf_removals : Z.of_nat (length (rd_occupied_slots (do_removals found)))
                + rd_unknown_entry_count (do_removals found) <= 16;
  wf_unknown : 0 <= rd_unknown_entry_count (do_removals found);
}.

(** A scan within the bounds becomes an outcome that counts all it found. *)
Lemma parse_package_scan_spec {E} scan found :
  local_bounds production scan -> parse_package_scan (E := E) scan = Ok found ->
  lds_status (do_summary found) <> DUnavailable /\ summary_ok (do_summary found) /\
  Forall (fun d => pr_source (dp_record d) = LocalDeclarative) (do_plugins found) /\
  Z.of_nat (length (do_plugins found)) + rejected_package_count (do_summary found) =
  Z.of_nat (length (ps_packages scan)) + ps_rejected_package_count scan.
Proof.
  intros [He Hn Hr]. unfold parse_package_scan. intros Hp.
  destruct (collect_packages _ _ _) as [[m rejected]|?|?] eqn:Ec; simpl in Hp; [|done..].
  apply collect_packages_spec in Ec as (Hg & Hle & Ht); [|by intros k g ?%lookup_empty_Some].
  destruct (keep_single _ _) as [records rejected'] eqn:Ek.
  apply keep_single_spec in Ek as (Hk & Hle' & Hin); [|lia].
  assert (Forall (fun d => pr_source (dp_record d) = LocalDeclarative) records) as Hl.
  { apply Forall_forall. intros d Hd. destruct (Hin d Hd) as (g & Hgm & Hdg).
    apply sm_values_elem in Hgm as [k Hk']. apply Hg in Hk'. rewrite Forall_forall in Hk'.
    by apply Hk'. }
  change (total (sm_values (∅ : gmap string (list DiscoveredLocalPlugin)))) with 0 in Ht.
  cbn [max_root_entries production] in Hn.
  destruct (Z.eqb_spec rejected' 0) as [->|Hne].
  - run_ok. cbn. unfold summary_ok. cbn. split_and!; done || lia.
  - unfold summary_degraded in Hp. assert ((1 <=? rejected') && (rejected' <=? 256) = true) as Hb.
    { apply andb_true_iff. pose proof (Nat2Z.is_nonneg (length records)). lia. }
    rewrite Hb in Hp. cbn in Hp. injection Hp as <-. cbn. unfold summary_ok. cbn. 
    split_and!; [done|lia|lia|split; [intros _; lia|done]|done|lia].
Qed.

(** Every entry of the scanned directory is a plugin found or rejected. *)
Definition counts_all (local : option PackageScan) (found : LocalDiscoveryOutcome) : Prop :=
  forall scan, local = Some scan ->
    Z.of_nat (length (do_plugins found)) + rejected_package_count (do_summary found) =
    su_root_entries (ps_usage scan) /\ do_usage found = Some (ps_usage scan).

Lemma parse_usage {E} scan found :
  parse_package_scan (E := E) scan = Ok found -> lds_status (do_summary found) <> DUnavailable ->
  do_usage found = Some (ps_usage scan).
Proof.
  unfold parse_package_scan. destruct (collect_packages _ _ _) as [[m rejected]|?|?]; simpl; [|done..].
  destruct (keep_single _ _) as [records rejected']. case_match; by intros [= <-].
Qed.

Lemma discover_bounded_well {E} local removal found :
  scans_bounded (local, removal) -> discover_bounded (E := E) local removal = Ok found ->
  well_found found /\ counts_all local found.
Proof.
  intros [Hlocal Hremoval] Hd. unfold discover_bounded in Hd.
  destruct (match local with Some scan => parse_package_scan scan | None => Ok discovery_unavailable end)
    as [f|?|?] eqn:Ef; simpl in Hd; [|done..].
  destruct (match removal with Some scan => parse_removal_scan scan | None => Ok removals_unavailable end)
    as [removals|?|?] eqn:Er; simpl in Hd; [|done..]. injection Hd as <-.
  assert (summary_ok (do_summary f) /\
          (lds_status (do_summary f) = DUnavailable -> do_plugins f = []) /\
          Forall (fun d => pr_source (dp_record d) = LocalDeclarative) (do_plugins f)) as (Hs & Hu & Hl).
  { destruct local as [scan|]; [|injection Ef as <-; split_and!; [split; simpl; [lia|split; [done|lia]]|done|constructor]].
    destruct (parse_package_scan_spec (E := E) scan f) as (? & ? & ? & _);
      [apply (Hlocal scan eq_refl)|done|]. done. }
  assert (counts_all local f) as Hall.
  { intros scan ->. destruct (Hlocal scan eq_refl) as [Hb _].
    destruct (parse_package_scan_spec (E := E) scan f Hb Ef) as (Ha & _ & _ & Ht).
    split; [by rewrite Ht, (lb_entries _ _ Hb)|by eapply parse_usage]. }
  assert (Z.of_nat (length (rd_occupied_slots removals)) + rd_unknown_entry_count removals <= 16 /\
          0 <= rd_unknown_entry_count removals) as [Hc Hn].
  { destruct removal as [scan|]; [|injection Er as <-; simpl; lia].
    unfold parse_removal_scan in Er. run_ok. apply (Hremoval scan eq_refl). }
  split; [by constructor|exact Hall].
Qed.
End Parse.
