(* ===== verification/PluginReconcileFacts.v ===== *)
(** What reconciling an index with a scan counts and the classes it gives, and
    the catalog published from it. *)
From stdpp Require Import gmap strings sorting.
From S2P Require Import Prelude RustStr FileSystem External Models BTreeMap Workflow StrategyTypes SafeDocument Supervisor PluginManifest PluginCatalog PluginPackages PluginState PluginOwnership PluginRegistry PluginLifecycle PluginScan PluginImport PluginIndexFacts PluginRegistryFacts PluginLifecycleFacts PluginProtocol PluginScanFacts.

Section Facts.
Context `{SemverLib} `{Codec json} `{Base64Lib} `{Codec PluginManifest} `{Sha256Lib}.
Context `{UuidV4Lib} `{Codec OwnershipReceiptV1} `{Codec IndexWire} `{Codec StateWire}.
Context {W : Type} `{ManagedOwnershipPersistence W}.

(** ** The tally *)

(** A class that the counts speak for. *)
Definition class_counted (conflicts rollback : Z) (c : PluginManagement) : Prop :=
  c = MOwnershipConflict /\ 0 < conflicts \/ c = MRemovalPending /\ 0 < rollback.

(** After [n] entries. *)
Record tally_ok (n : Z) (t : Tally) : Prop := {
  tk_conflicts : 0 <= t_conflicts t;
  tk_rollback : 0 <= t_rollback t;
  tk_cleanup : 0 <= t_cleanup t;
  tk_total : t_conflicts t + t_rollback t + t_cleanup t <= n;
  tk_classes : map_Forall (fun _ c => class_counted (t_conflicts t) (t_rollback t) c) (t_classes t);
}.

Lemma class_counted_mono a b a' b' c :
  a <= a' -> b <= b' -> class_counted a b c -> class_counted a' b' c.
Proof. intros Ha Hb [[-> ?]|[-> ?]]; [left|right]; (split; [done|lia]). Qed.

Lemma classes_mono a b a' b' (m : gmap string PluginManagement) :
  a <= a' -> b <= b' -> map_Forall (fun _ c => class_counted a b c) m ->
  map_Forall (fun _ c => class_counted a' b' c) m.
Proof. intros Ha Hb Hm k c Hk. eapply class_counted_mono; [done..|]. by eapply Hm. Qed.

Lemma tally_same n t : tally_ok n t -> tally_ok (n + 1) t.
Proof. intros []. constructor; try done. lia. Qed.
Lemma tally_put n i t : tally_ok n t -> tally_ok (n + 1) (put_index i t).
Proof. intros []. constructor; try done. simpl. lia. Qed.
Lemma tally_conflict n t : tally_ok n t -> tally_ok (n + 1) (add_conflict t).
Proof.
  intros []. constructor; simpl; try lia. eapply classes_mono; [| |exact tk_classes0]; lia.
Qed.
Lemma tally_cleanup n t : tally_ok n t -> tally_ok (n + 1) (add_cleanup t).
Proof. intros []. constructor; simpl; try lia. done. Qed.
Lemma tally_rollback n id t : tally_ok n t -> tally_ok (n + 1) (add_rollback id t).
Proof.
  intros []. constructor; simpl; try lia. apply map_Forall_insert_2; [right; split; [done|lia]|].
  eapply classes_mono; [| |exact tk_classes0]; lia.
Qed.
Lemma tally_all n ps t :
  tally_ok n t -> tally_ok (n + 1) (class_all MOwnershipConflict ps (add_conflict t)).
Proof.
  intros Ht. pose proof (tk_conflicts _ _ Ht) as H0c. apply tally_conflict in Ht. destruct Ht. constructor; try done. cbn [class_all t_classes t_conflicts t_rollback].
  revert tk_classes0. generalize (t_classes (add_conflict t)). intros m Hm.
  revert m Hm. induction ps as [|p ps IH]; intros m Hm; simpl; [done|]. apply IH.
  apply map_Forall_insert_2; [|done]. left. split; [done|]. simpl in *. lia.
Qed.

Lemma reconcile_entry_tally {E} found writes e n t (w : W) :
  tally_ok n t ->
  wp (reconcile_entry (E := E) found writes e t) (fun t' _ => tally_ok (n + 1) t')
    (fun _ _ => False) (fun _ => True) w.
Proof.
  intros Ht. unfold reconcile_entry.
  assert (forall next (k : option ManagedOwnershipIndexV1 -> Tally),
    (forall saved, tally_ok (n + 1) (k saved)) ->
    wp (let* saved := try_save (E := E) writes next in mret (k saved))
      (fun t' _ => tally_ok (n + 1) t') (fun _ _ => False) (fun _ => True) w) as Hsave.
  { intros next k Hk. unfold try_save, save_index, outcome_of. wp_reg.
    case_match; [|repeat wp_reg; apply Hk].
    destruct next as [i|?|?]; [|repeat wp_reg; apply Hk|done]. wp_reg. do 2 wp_reg.
    eapply wp_mono; [apply wp_any|..]; [intros o w' _; repeat wp_reg; apply Hk..|done]. }
  case_match; [wp_reg; by apply tally_all|].
  destruct (removal_slot e) as [slot|]; [|wp_reg; case_match; auto using tally_same, tally_conflict].
  set (source := List.find _ _). destruct source as [p|].
  - case_match; [|wp_reg; auto using tally_conflict].
    apply (Hsave _ (fun saved => match saved with Some i => _ | None => _ end)).
    intros []; auto using tally_put, tally_rollback.
  - case_match.
    + apply (Hsave _ (fun saved => match saved with Some i => _ | None => _ end)).
      intros []; auto using tally_put, tally_cleanup.
    + case_match; wp_reg; auto using tally_cleanup, tally_conflict.
Qed.

Lemma reconcile_entries_tally {E} found writes es n t (w : W) :
  tally_ok n t ->
  wp (reconcile_entries (E := E) found writes es t)
    (fun t' _ => tally_ok (n + Z.of_nat (length es)) t') (fun _ _ => False) (fun _ => True) w.
Proof.
  revert n t w. induction es as [|e es IH]; intros n t w Ht; cbn [reconcile_entries].
  { wp_reg. simpl. by rewrite Z.add_0_r. }
  wp_reg. eapply wp_mono; [by apply reconcile_entry_tally|..]; [|done..]. intros t' w' Ht'.
  eapply wp_mono; [exact (IH _ _ _ Ht')|..]; [|done..]. intros t2 w2 Ht2. cbn [length].
  by replace (n + Z.of_nat (S (length es))) with (n + 1 + Z.of_nat (length es)) by lia.
Qed.

(** ** The counts *)

(** Which classes a summary of the ownership allows. *)
Definition class_allowed (s : ManagedOwnershipSummary) (c : PluginManagement) : Prop :=
  match c with
  | MBuiltIn => False
  | MExternal => True
  | MManaged | MOwnershipConflict => mos_status s <> DUnavailable
  | MRemovalPending => mos_status s <> DUnavailable /\ 0 < rollback_pending_count s
  | MOwnershipUnavailable => mos_status s = DUnavailable
  end.

Definition reconciled_ok (r : Reconciled) : Prop :=
  let '(_, classes, s) := r in
  counts_validate s = Ok tt /\ map_Forall (fun _ c => class_allowed s c) classes.

Lemma not_reconciled_ok o found : reconciled_ok (not_reconciled o found).
Proof.
  split; [done|]. unfold unavailable_classes. generalize (do_plugins found). intros ps.
  assert (map_Forall (fun _ c => class_allowed ownership_unavailable c) (∅ : gmap string PluginManagement)) as Hm
    by apply map_Forall_empty.
  revert Hm. generalize (∅ : gmap string PluginManagement).
  induction ps as [|p ps IH]; intros m Hm; simpl; [done|]. apply IH, map_Forall_insert_2; [|done].
  by case_match.
Qed.

Lemma counts_accepted conflicts rollback cleanup :
  0 <= conflicts -> 0 <= rollback <= 160 -> 0 <= cleanup <= 160 ->
  conflicts + rollback + cleanup <= 176 ->
  counts_validate (ownership_counts conflicts rollback cleanup) = Ok tt.
Proof.
  intros Hc Hr Hl Ht. unfold counts_validate, ownership_counts, u32_checked_add, u32_max.
  cbn [conflicting_entry_count rollback_pending_count cleanup_pending_count mos_status].
  rewrite (proj2 (Z.leb_le (conflicts + rollback) _)) by lia. cbn [ok_or obind].
  rewrite (proj2 (Z.leb_le _ _)) by lia. cbn [ok_or obind]. unfold guard.
  rewrite (proj2 (Z.ltb_ge 176 _)), (proj2 (Z.ltb_ge 160 rollback)), (proj2 (Z.ltb_ge 160 cleanup)) by lia.
  cbn [orb]. destruct (0 <? _) eqn:E; case_bool_decide as Ed; try done; exfalso; revert Ed;
    destruct (Z.eqb_spec conflicts 0), (Z.eqb_spec rollback 0), (Z.eqb_spec cleanup 0); simpl; try done;
    intros; lia.
Qed.

Lemma u32_checked_add_some a b c : u32_checked_add a b = Some c -> c = a + b.
Proof. unfold u32_checked_add. case_match; [|done]. by intros [= <-]. Qed.

Lemma classify_allowed i s (m : gmap string PluginManagement) p :
  mos_status s <> DUnavailable -> map_Forall (fun _ c => class_allowed s c) m ->
  class_allowed s (classify i m p).
Proof.
  intros Hs Hm. unfold classify. destruct (l_receipt _) as [r|]; [|done].
  destruct (m !! package_id p) as [c|] eqn:E; [by eapply Hm|]. by repeat case_match.
Qed.

Lemma classify_all_allowed i s ps (m : gmap string PluginManagement) :
  mos_status s <> DUnavailable -> map_Forall (fun _ c => class_allowed s c) m ->
  map_Forall (fun _ c => class_allowed s c) (classify_all i ps m).
Proof.
  intros Hs. revert m. unfold classify_all. induction ps as [|p ps IH]; intros m Hm; simpl; [done|].
  apply IH, map_Forall_insert_2; [by apply classify_allowed|done].
Qed.

Lemma summed_up_ok found n t :
  well_found found -> n <= MAX_MANAGED_OWNERSHIP_ENTRIES -> tally_ok n t ->
  reconciled_ok (summed_up found t).
Proof.
  intros Hf Hn []. unfold summed_up.
  assert (0 <= orphans (t_index t) found <=
          Z.of_nat (length (rd_occupied_slots (do_removals found)))) as Ho.
  { unfold orphans. split; [lia|]. apply inj_le. apply filter_length_le. }
  destruct Hf. unfold MAX_MANAGED_OWNERSHIP_ENTRIES in Hn.
  rewrite (proj2 (Z.leb_le _ u32_max)) by (unfold u32_max; lia).
  destruct (u32_checked_add (t_conflicts t) _) as [c|] eqn:Ec; simpl; [|apply (not_reconciled_ok OUnavailable)].
  destruct (u32_checked_add c _) as [conflicts|] eqn:Ecs; [|apply (not_reconciled_ok OUnavailable)].
  apply u32_checked_add_some in Ec as ->, Ecs as ->.
  split; [apply counts_accepted; lia|].
  assert (mos_status (ownership_counts (t_conflicts t + rd_unknown_entry_count (do_removals found)
            + orphans (t_index t) found) (t_rollback t) (t_cleanup t)) <> DUnavailable) as Hs
    by (unfold ownership_counts; simpl; by case_match).
  apply classify_all_allowed; [done|]. intros k c Hk.
  destruct (tk_classes0 k c Hk) as [[-> ?]|[-> ?]]; [done|]. by split.
Qed.

Lemma reconcile_settled_ok {E} index found writes (w : W) :
  well_found found -> index_validate index = Ok tt ->
  wp (reconcile_settled (E := E) index found writes) (fun r _ => reconciled_ok r) (fun _ _ => False)
    (fun _ => True) w.
Proof.
  intros Hf (_ & Hn & _)%index_validate_exact. unfold reconcile_settled. wp_reg.
  eapply wp_mono; [apply (reconcile_entries_tally _ _ _ 0)|..]; [|intros t w' Ht; wp_reg|done..].
  - by constructor; simpl.
  - by eapply summed_up_ok; [| |exact Ht].
Qed.

Definition ownership_valid (o : OwnershipRuntime) : Prop :=
  match o with OAvailable index _ => index_validate index = Ok tt | OUnavailable => True end.

Lemma reconcile_loaded_ok {E} o found writes (w : W) :
  well_found found -> ownership_valid o ->
  wp (reconcile_loaded (E := E) o found writes) (fun r _ => reconciled_ok r) (fun _ _ => False)
    (fun _ => True) w.
Proof.
  intros Hf Ho. unfold reconcile_loaded. case_match; [wp_reg; apply (not_reconciled_ok OUnavailable)|].
  destruct o as [i []|]; [|by apply reconcile_settled_ok|wp_reg; apply (not_reconciled_ok OUnavailable)].
  wp_reg. eapply wp_mono; [by apply reconcile_settled_ok|..]; [|done..]. intros _ w1 _. wp_reg.
  assert (wp (E := E) (if writes then save_index i else mret false) (fun _ _ => True)
            (fun _ _ => False) (fun _ => True) w1) as Hw.
  { case_match; [|by wp_reg]. unfold save_index, outcome_of. do 2 wp_reg.
    eapply wp_mono; [apply wp_any|..]; [intros; by wp_reg..|done]. }
  eapply wp_mono; [exact Hw|..]; [|done..]. intros [] w2 _.
  - by apply reconcile_settled_ok.
  - wp_reg. apply (not_reconciled_ok OUnavailable).
Qed.

Lemma reconcile_ok {E} found writes (w : W) :
  well_found found ->
  wp (reconcile (E := E) found writes) (fun r _ => reconciled_ok r) (fun _ _ => False)
    (fun _ => True) w.
Proof.
  intros Hf. unfold reconcile, ownership_initialize. do 3 wp_reg.
  eapply wp_mono; [apply wp_any|..]; [| |done]; intros a w1 _; wp_reg; apply reconcile_loaded_ok; try done.
  case_match eqn:Ev; [|done]. simpl.
  destruct (index_validate_for_persistence (ol_index a)) as [[]|?|?] eqn:E1; try done.
  by eapply persistable_valid.
Qed.
End Facts.

(** * The published catalog *)

Section Facts.
Context `{SemverLib} `{Codec json} `{Base64Lib} `{Codec PluginManifest} `{Sha256Lib}.
Context `{UuidV4Lib} `{Codec OwnershipReceiptV1} `{Codec IndexWire} `{Codec StateWire}.
Implicit Types (r : PluginRegistry) (p : CatalogPublicationCandidate) (record : PluginRecord).

(** ** Publications *)

Definition builtin_record (k : string) record : Prop :=
  record_id record = k /\ pr_source record = BuiltIn /\ pm_schema_version (pr_manifest record) = 1.
Definition local_record (k : string) record : Prop :=
  record_id record = k /\ pr_source record = LocalDeclarative.

(** A publication over the built-in plugins [b], but for its snapshot. *)
Record catalog_ok (b : gmap string PluginRecord) p : Prop := {
  ck_generation : in_u64 (catalog_generation p);
  ck_runtime : runtime_typed (runtime p);
  ck_builtins : map_Forall builtin_record b;
  ck_locals : map_Forall local_record (locals p);
  ck_summary : summary_ok (local_summary p);
  ck_unavailable : lds_status (local_summary p) = DUnavailable -> locals p = ∅;
  ck_counts : counts_validate (ownership_summary p) = Ok tt;
  ck_classes : map_Forall (fun _ c => class_allowed (ownership_summary p) c) (management p);
}.

(** A plugin shown in conflict while no entry is counted in conflict. *)
Definition uncounted_conflict (s : PluginCatalogSnapshot) : Prop :=
  conflicting_entry_count (s_managed_ownership s) = 0 /\
  exists i, i ∈ s_plugins s /\ i_management i = MOwnershipConflict.

(** ** Items *)

Section Item.
Context (b : gmap string PluginRecord) (p : CatalogPublicationCandidate).
Hypothesis Hok : catalog_ok b p.

Definition known record : Prop := exists k, builtin_record k record \/ local_record k record.

Lemma records_known record : record ∈ catalog_records b p -> known record.
Proof.
  unfold catalog_records. intros (k & Hk)%sm_values_elem.
  apply lookup_union_Some_raw in Hk as [Hk|[_ Hk]]; exists k; [right|left].
  - by eapply (ck_locals _ _ Hok).
  - by eapply (ck_builtins _ _ Hok).
Qed.

Lemma item_source record : i_source (snapshot_item p record) = pr_source record.
Proof. unfold snapshot_item, catalog_item. by repeat case_match. Qed.
Lemma item_manifest record : i_manifest (snapshot_item p record) = pr_manifest record.
Proof. unfold snapshot_item, catalog_item. by repeat case_match. Qed.
Lemma item_management record : i_management (snapshot_item p record) = management_for_record p record.
Proof. by unfold snapshot_item. Qed.

(** The class of a record. *)
Lemma record_class record :
  known record ->
  pr_source record = BuiltIn /\ management_for_record p record = MBuiltIn /\
    pm_schema_version (pr_manifest record) = 1 \/
  pr_source record = LocalDeclarative /\ class_allowed (ownership_summary p) (management_for_record p record).
Proof.
  intros [k [(_ & Hs & Hv)|[_ Hs]]]; unfold management_for_record; rewrite Hs; [by left|right].
  split; [done|]. destruct (management p !! record_id record) as [c|] eqn:E; [|done].
  by eapply (ck_classes _ _ Hok).
Qed.

Lemma item_accepted record : known record -> item_invalid (snapshot_item p record) = false.
Proof.
  intros Hk. destruct (record_class record Hk) as [(Hs & Hm & Hv)|(Hs & Hm)];
    unfold item_invalid, snapshot_item, catalog_item.
  - rewrite Hm. destruct (runtime p) as [s rw|x]; [destruct (is_enabled s record)|];
      cbn; by rewrite Hv, Hs.
  - destruct (runtime p) as [s rw|x]; [destruct (is_enabled s record)|];
      cbn; rewrite Hs; by destruct (management_for_record p record).
Qed.

(** Where an item is out of place: only by a conflict that is not counted. *)
Lemma item_placed record :
  known record -> (lds_status (local_summary p) = DUnavailable -> pr_source record = BuiltIn) ->
  item_out_of_place (derive_snapshot b p) (snapshot_item p record) =
  bool_decide (management_for_record p record = MOwnershipConflict)
    && (conflicting_entry_count (ownership_summary p) =? 0).
Proof.
  intros Hk Hu. unfold item_out_of_place, derive_snapshot, snapshot_item, catalog_item.
  destruct (record_class record Hk) as [(Hs & Hm & Hv)|(Hs & Hm)].
  - rewrite Hm. destruct (runtime p) as [s rw|x]; [destruct (is_enabled s record)|destruct x];
      cbn; rewrite Hs; by rewrite ?andb_false_r.
  - assert (bool_decide (lds_status (local_summary p) = DUnavailable) = false) as Hl.
    { apply bool_decide_eq_false. intros E. rewrite (Hu E) in Hs. done. }
    destruct (management_for_record p record); try done; cbn in Hm;
      (destruct (runtime p) as [s rw|x]; [destruct (is_enabled s record)|destruct x]);
      cbn; rewrite Hs, Hl, ?andb_false_r, ?orb_false_r, ?andb_true_r;
      rewrite ?(bool_decide_eq_false_2 (mos_status (ownership_summary p) = DUnavailable)) by tauto;
      rewrite ?(bool_decide_eq_false_2 (mos_status (ownership_summary p) <> DUnavailable)) by tauto;
      try (destruct Hm as [Hm Hr]; rewrite (proj2 (Z.eqb_neq (rollback_pending_count _) 0)) by lia);
      rewrite ?andb_false_r; by repeat (case_bool_decide; try done).
Qed.
End Item.

(** ** Snapshots *)

Lemma sorted_items (items : list PluginCatalogItem) :
  StronglySorted string_lt (map (fun i => pm_id (i_manifest i)) items) -> out_of_order items = false.
Proof.
  induction items as [|a [|b items] IH]; [done..|]. intros [Hs Hf]%StronglySorted_inv.
  cbn [out_of_order map] in *. apply Forall_cons in Hf as [Hab _].
  rewrite (string_lt_leb _ _ Hab). by apply IH.
Qed.

Lemma version_valid z : in_u64 z -> valid_version (u64_to_string z) = true.
Proof. intros Hz. unfold valid_version. rewrite parse_u64_to_string by done. apply String.eqb_refl. Qed.

Lemma existsb_map {A B} (h : A -> B) (f : B -> bool) l : existsb f (map h l) = existsb (fun x => f (h x)) l.
Proof. induction l as [|x l IH]; [done|]. simpl. by rewrite IH. Qed.

(** The derived snapshot is refused for nothing but an uncounted conflict. *)
Lemma derived_refused b p :
  catalog_ok b p ->
  snapshot_invalid (derive_snapshot b p) =
  existsb (fun record => bool_decide (management_for_record p record = MOwnershipConflict)
                         && (conflicting_entry_count (ownership_summary p) =? 0)) (catalog_records b p).
Proof.
  intros Hok. unfold snapshot_invalid.
  assert (s_plugins (derive_snapshot b p) = map (snapshot_item p) (catalog_records b p)) as ->
    by (unfold derive_snapshot; by destruct (runtime p)).
  assert (out_of_order (map (snapshot_item p) (catalog_records b p)) = false) as ->.
  { apply sorted_items. rewrite map_map.
    rewrite (map_ext _ (fun record => record_id record)) by (intros; by rewrite item_manifest).
    unfold catalog_records. rewrite sm_values_keyed; [apply sm_keys_lt|].
    intros k v Hk. apply lookup_union_Some_raw in Hk as [Hk|[_ Hk]];
      [by destruct (ck_locals _ _ Hok k v Hk)|by destruct (ck_builtins _ _ Hok k v Hk)]. }
  rewrite existsb_map, orb_false_r.
  rewrite (existsb_ext_in _ (fun record => bool_decide (management_for_record p record = MOwnershipConflict)
                         && (conflicting_entry_count (ownership_summary p) =? 0))).
  2:{ intros record Hr. apply item_placed; [done|by eapply records_known|]. intros Hu.
      unfold catalog_records in Hr. rewrite (ck_unavailable _ _ Hok Hu), (left_id_L ∅ (∪)) in Hr.
      apply sm_values_elem in Hr as [k Hk]. by destruct (ck_builtins _ _ Hok k record Hk) as (_ & ? & _). }
  match goal with |- ?x || _ = ?y => assert (x = false) as ->; [|done] end.
  destruct (ck_summary _ _ Hok) as [Hc Hd].
  assert (bool_decide (lds_status (local_summary p) = DDegraded)
          = (0 <? rejected_package_count (local_summary p))) as Hb.
  { apply eq_true_iff_eq. by rewrite bool_decide_eq_true, Z.ltb_lt. }
  unfold derive_snapshot. destruct (runtime p) as [s rw|x] eqn:Er; cbn.
  - rewrite !version_valid; [|apply Hok|]; [|pose proof (ck_runtime _ _ Hok) as Ht; by rewrite Er in Ht].
    cbn. rewrite (proj2 (Z.ltb_ge _ _)) by lia. cbn. rewrite Hb. unfold differ. by destruct (0 <? _).
  - rewrite version_valid by apply Hok. change (valid_version (u64_to_string 0)) with true.
    cbn. rewrite (proj2 (Z.ltb_ge _ _)) by lia. cbn. rewrite Hb. unfold differ. by destruct (0 <? _).
Qed.

Lemma derived_accepted b p :
  catalog_ok b p ->
  read_snapshot (derive_snapshot b p) = Ok (derive_snapshot b p) <->
  ~ uncounted_conflict (derive_snapshot b p).
Proof.
  intros Hok. unfold read_snapshot, snapshot_of_wire. rewrite (derived_refused _ _ Hok).
  assert (s_managed_ownership (derive_snapshot b p) = ownership_summary p) as Em
    by (unfold derive_snapshot; by destruct (runtime p)).
  assert (s_plugins (derive_snapshot b p) = map (snapshot_item p) (catalog_records b p)) as Ep
    by (unfold derive_snapshot; by destruct (runtime p)).
  unfold uncounted_conflict. rewrite Em, Ep, (ck_counts _ _ Hok). cbn [obind].
  assert (existsb item_invalid (map (snapshot_item p) (catalog_records b p)) = false) as ->.
  { rewrite existsb_map. apply not_true_is_false. intros (record & Hin & Hi)%existsb_exists.
    rewrite (item_accepted b) in Hi; [done..|]. apply (records_known b p Hok). by apply list_elem_of_In. }
  cbn [guard obind]. destruct (existsb _ _) eqn:E.
  - split; [done|]. intros []. apply existsb_exists in E as (record & Hin & Hc). bools.
    split; [by apply Z.eqb_eq|]. exists (snapshot_item p record).
    split; [by apply list_elem_of_fmap_2, list_elem_of_In|by rewrite item_management].
  - split; [|done]. intros _ [Hz (i & Hi & Hm)]. apply list_elem_of_fmap in Hi as (record & -> & Hr).
    rewrite item_management in Hm. apply not_true_iff_false in E. destruct E.
    apply existsb_exists. exists record. split; [by apply list_elem_of_In|].
    rewrite bool_decide_eq_true_2 by done. by apply Z.eqb_eq.
Qed.

(** ** From the discovery to the catalog *)

Lemma summary_with_rejections s n :
  summary_ok s -> 0 <= n ->
  summary_ok (with_additional_rejections s n) /\
  (lds_status (with_additional_rejections s n) = DUnavailable <-> lds_status s = DUnavailable).
Proof.
  intros Hs Hn. unfold with_additional_rejections.
  destruct (negb (n =? 0) && _) eqn:E; [|by split].
  bools. destruct Hs as [Hc Hd]. unfold u32_saturating_add, u32_max. split; [split|]; simpl.
  - lia.
  - split; [lia|done].
  - by split.
Qed.

Lemma visible_local b found (m : gmap string PluginRecord) :
  well_found found -> map_Forall local_record m ->
  map_Forall local_record
    (fold_left (fun m d => <[package_id d := dp_record d]> m)
       (fst (visible_packages b (do_plugins found))) m).
Proof.
  intros Hf. simpl. pose proof (wf_local _ Hf) as Hl. revert Hl m. generalize (do_plugins found).
  intros ds. induction ds as [|d ds IH]; intros Hl m Hm; [done|]. apply Forall_cons in Hl as [Hd Hl].
  simpl. case_match; [|by apply IH]. simpl. apply IH; [done|]. apply map_Forall_insert_2; [|done]. by split.
Qed.

Lemma reconciled_catalog (b : gmap string PluginRecord) p found (r : Reconciled) :
  in_u64 (catalog_generation p) -> runtime_typed (runtime p) -> map_Forall builtin_record b ->
  well_found found -> reconciled_ok r -> catalog_ok b (reconciled_publication b p found r).
Proof.
  intros Hg Ht Hb Hf Hr. destruct r as [[o classes] summary]. destruct Hr as [Hc Hcl].
  unfold reconciled_publication. cbn [visible_packages].
  destruct (summary_with_rejections (do_summary found)
    (Z.of_nat (length (List.filter (fun d => is_some (b !! package_id d)) (do_plugins found))))
    (wf_summary _ Hf)) as [Hs Hu]; [lia|].
  constructor; cbn -[summary_ok with_additional_rejections]; try done.
  - by apply (visible_local b found), map_Forall_empty.
  - intros E%Hu%(wf_unavailable _ Hf). by rewrite E.
  - intros k c Hk. apply map_lookup_filter_Some in Hk as [Hk _]. by eapply Hcl.
Qed.

(** The catalog of a registry: its publication and the snapshot of it. *)
Definition registry_ok r : Prop :=
  catalog_ok (builtins r) (publication r) /\
  catalog_snapshot r = derive_snapshot (builtins r) (publication r).

Lemma publish_catalog r p first r' changed :
  in_u64 (catalog_generation (publication r)) -> catalog_ok (builtins r) p ->
  publish_candidate r p first = Ok (r', changed) -> registry_ok r'.
Proof.
  intros Hg Hok. unfold publish_candidate.
  set (next := with_snapshot (derive_snapshot (builtins r) p) p).
  assert (catalog_ok (builtins r) next) as Hn by (by destruct Hok).
  destruct (structural next (publication r) first); cbn [obind].
  - destruct (u64_checked_add _ 1) as [g|] eqn:Eg; cbn [ok_or obind]; [|done]. intros [= <- _].
    apply u64_checked_add_some in Eg as [-> Hmax]. unfold in_u64 in *.
    split; [|by apply (derive_with_generation _ _ next)].
    destruct Hn. constructor; try done. simpl. unfold in_u64. lia.
  - intros [= <- _]. by split.
Qed.

Section World.
Context {W : Type} `{PluginStatePersistence W} `{ManagedOwnershipPersistence W}.
Hypothesis Htyped : loads_typed (W := W).

Lemma collect_builtins_known ms m b :
  collect_builtins ms m = Some b -> map_Forall builtin_record m -> map_Forall builtin_record b.
Proof.
  revert m. induction ms as [|x ms IH]; intros m; simpl; [by intros [= <-]|].
  destruct (built_in x) as [record|?|?] eqn:Eb; [|done..]. case_match; [|done].
  intros Hc Hm. apply (IH _ Hc), map_Forall_insert_2; [|done].
  unfold built_in in Eb. run_ok. split_and!; [done..|]. simpl. bools. lia.
Qed.

Lemma initialize_registry {E} manifests (w : W) :
  wp (initialize (E := E) manifests) (fun r _ => registry_ok r) (fun _ _ => True) (fun _ => True) w.
Proof.
  unfold initialize. wp_reg. eapply wp_mono; [apply wp_any|..]; [|done..]. intros o w1 _. wp_reg.
  assert (wp (E := E) match collect_builtins manifests ∅ with
             | None => mret (RUnavailable ForCatalog)
             | Some _ => let* l := mtry state_load in mret (loaded_runtime l)
             end (fun a _ => runtime_typed a) (fun _ _ => True) (fun _ => True) w1) as Hr.
  { case_match; [|done]. do 2 wp_reg. unfold wp.
    destruct (state_load w1) as [[l|e|h] w'] eqn:El; simpl; [|done..].
    case_match; simpl; [by eapply Htyped|done]. }
  eapply wp_mono; [exact Hr|..]; [|done..]. intros a w2 Ha. wp_reg. split; [|done].
  constructor; simpl; try done.
  - destruct (collect_builtins manifests ∅) as [b|] eqn:Eb; simpl; [|by apply map_Forall_empty].
    eapply collect_builtins_known; [exact Eb|by apply map_Forall_empty].
  - by destruct (ownership_requires_retry o).
Qed.

(** A load changes the runtime alone. *)
Lemma load_state_catalog {E} b p (w : W) :
  catalog_ok b p ->
  wp (load_state_if_needed (E := E) p) (fun x _ => catalog_ok b x.1) (fun _ _ => True) (fun _ => True) w.
Proof.
  intros Hok. assert (forall rt, runtime_typed rt -> catalog_ok b (with_runtime rt p)) as Hrt
    by (intros rt Hrt; by destruct Hok).
  unfold load_state_if_needed. destruct (runtime p) as [s rw|[]] eqn:Er; [by wp_reg| |by wp_reg].
  do 2 wp_reg. unfold wp. destruct (state_load w) as [[l|e|[]] w'] eqn:El; simpl; try done.
  destruct (is_ok _); simpl; [|done]. apply Hrt. simpl. by eapply Htyped.
Qed.

Lemma apply_discovery_registry found r (w : W) :
  well_found found -> catalog_ok (builtins r) (publication r) ->
  wp (apply_local_discovery found) (fun _ rw => registry_ok rw.1) (fun _ _ => True) (fun _ => True) (r, w).
Proof.
  intros Hf Hok. unfold apply_local_discovery. do 3 wp_reg. apply wp_beside.
  eapply wp_mono; [by apply reconcile_ok|..]; [|done..]. intros rec w1 Hrec. wp_reg. apply wp_beside.
  pose proof (reconciled_catalog (builtins r) (publication r) found rec (ck_generation _ _ Hok)
    (ck_runtime _ _ Hok) (ck_builtins _ _ Hok) Hf Hrec) as Hc.
  set (next := reconciled_publication _ _ _ _) in *.
  eapply wp_mono; [by apply load_state_catalog|..]; [|done..]. intros [p retried] w2 Hp.
  do 2 wp_reg; [|done..]. intros [r' changed] Hpub%publish_catalog; [|apply Hok|done].
  do 3 wp_reg. wp_reg; [|done..]. intros [] _. wp_reg. simpl. by case_match.
Qed.
End World.
End Facts.

(** * The theorems of the registry *)

Section Catalog.
Context `{SemverLib} `{Codec json} `{Base64Lib} `{Codec PluginManifest} `{Sha256Lib}.
Context `{UuidV4Lib} `{Codec OwnershipReceiptV1} `{Codec IndexWire} `{Codec StateWire}.
Context {W : Type} `{PluginStatePersistence W} `{ManagedOwnershipPersistence W}.

Section Requests.
Context `{!PluginDiscovery W} `{!RemovalStorage W} `{!ImportStorage W}.

(** C23: two catalogs of one revision and one generation are the same catalog:
    from the start of the runtime, whatever requests are served and however the
    storage answers them. *)
Theorem catalog_versions_are_unique manifests (w0 w1 w2 : W) r qs end_ l x y :
  loads_typed (W := W) ->
  initialize (E := Empty_set) manifests w0 = (Ok r, w1) ->
  serve qs (started r, w1) = (end_, (l, w2)) ->
  x ∈ held l -> y ∈ held l ->
  s_revision (catalog_snapshot x) = s_revision (catalog_snapshot y) ->
  s_catalog_generation (catalog_snapshot x) = s_catalog_generation (catalog_snapshot y) ->
  catalog_snapshot x = catalog_snapshot y.
Proof.
  intros Htyped Hi Hs. apply log_versions_unique.
  pose proof (initialize_served Htyped manifests w0) as Hr. unfold wp in Hr. rewrite Hi in Hr.
  pose proof (serve_tidy Htyped qs (started r) w1 (started_log r Hr)) as Hl.
  unfold wp in Hl. rewrite Hs in Hl. by destruct end_.
Qed.

(** a commit that may have put the package in place, or reports its
    decision saved, leaves the live registry with the plugin disabled. *)
Theorem imports_arrive_disabled lease generation l (w : W) result l' w' :
  run_commit lease generation (l, w) = (Ok result, (l', w')) -> settled result = true ->
  decided_off (cl_record lease) (lv_registry l').
Proof.
  intros Hr. pose proof (run_commit_off (cl_record lease) lease generation l w eq_refl) as Ho.
  unfold wp in Ho. by rewrite Hr in Ho.
Qed.
End Requests.

(** C28: the catalog published after a scan is again a good one, and its own
    reader accepts it exactly when no plugin is shown in conflict without an
    entry counted in conflict. *)
Theorem scanned_catalog_accepted found r (w : W) changed r' w' :
  loads_typed (W := W) -> registry_ok r -> well_found found ->
  apply_local_discovery found (r, w) = (Ok changed, (r', w')) ->
  registry_ok r' /\
  (read_snapshot (catalog_snapshot r') = Ok (catalog_snapshot r') <->
   ~ uncounted_conflict (catalog_snapshot r')).
Proof.
  intros Htyped [Hok _] Hf Ha. pose proof (apply_discovery_registry Htyped found r w Hf Hok) as Hr.
  unfold wp in Hr. rewrite Ha in Hr. simpl in Hr. split; [exact Hr|]. destruct Hr as [Hok' ->].
  by apply derived_accepted.
Qed.
End Catalog.


Section Index.
Context `{UuidV4Lib} `{Codec IndexWire}.

(** a removal that was begun can be taken back: as far as the index fits
    its file, restoring answers the entries there were, at the revision after
    next. *)
Theorem removal_rolls_back i receipt slot e i1 bytes :
  index_validate i = Ok tt -> find_receipt receipt (ix_entries i) = Some e ->
  en_lifecycle e = Managed -> index_begin_removal receipt slot i = Ok i1 ->
  index_bytes (with_revision (ix_revision i + 1) i) = Ok bytes ->
  exists i2, index_restore_managed receipt i1 = Ok i2 /\ ix_entries i2 = ix_entries i /\
    ix_revision i2 = ix_revision i + 2 /\ index_validate i2 = Ok tt.
Proof.
  intros Hv Hfind Hm Hb Hbytes.
  destruct (begin_removal_managed _ _ _ _ _ Hv Hfind Hm Hb) as [-> Hmax].
  exists (with_revision (ix_revision i + 2) i). split; [|by split_and!].
  unfold index_restore_managed, finish_changed.
  cbn [with_entries with_revision ix_entries ix_revision ix_schema_version].
  rewrite (restore_begun _ _ _ _ Hfind Hm), sort_receipts by apply (valid_in_order _ Hv).
  assert (index_validate_for_persistence (with_revision (ix_revision i + 1) i) = Ok tt) as Hp.
  { unfold index_validate_for_persistence, index_bytes in *. run_ok.
    match goal with H : index_validate (with_revision _ _) = _ |- _ => rewrite H end. cbn [obind].
    match goal with H : serialize_unchecked _ = _ |- _ => rewrite H end. cbn [obind].
    match goal with H : (_ <? _) = false |- _ => by rewrite H end. }
  match goal with |- context [index_validate_for_persistence ?x] =>
    change x with (with_revision (ix_revision i + 1) i) end.
  rewrite Hp. cbn [obind]. rewrite bool_decide_eq_false_2.
  - unfold u64_checked_add. rewrite (proj2 (Z.leb_le _ _)) by lia. cbn [ok_or obind].
    by replace (ix_revision i + 1 + 1) with (ix_revision i + 2) by lia.
  - intros Eq. apply (f_equal (find_receipt receipt)) in Eq.
    rewrite find_updated, Hfind in Eq by done. injection Eq as Eq. by rewrite Eq in Hm.
Qed.

(** C38: the validation of an index accepts exactly the documents of the current
    schema and size whose entries are valid, in the order of their receipts, and
    share no receipt, slot, plugin, directory or file. *)
Theorem index_validation_exact i :
  index_validate i = Ok tt <->
  ix_schema_version i = OWNERSHIP_SCHEMA_VERSION_V1 /\
  Z.of_nat (length (ix_entries i)) <= MAX_MANAGED_OWNERSHIP_ENTRIES /\
  Forall (fun e => entry_validate e = Ok tt) (ix_entries i) /\ growing None (ix_entries i) /\
  unambiguous (ix_entries i).
Proof. exact (index_validate_exact i). Qed.
End Index.

Section Decisions.
Context `{SemverLib} `{Codec json} `{Base64Lib} `{Codec PluginManifest} `{Sha256Lib} `{Codec StateWire}.

(** a decision holds for exactly the identity it was made for: it disables
    every other version of that plugin and leaves every other plugin as it
    was. *)
Theorem decision_is_exact s requires_rewrite record enabled decision other :
  next_decision s requires_rewrite record enabled = Ok decision ->
  is_enabled (default s decision) other = decided_for s record other enabled.
Proof. exact (next_decision_spec s requires_rewrite record enabled decision other). Qed.

(** every preview a commit takes is the one shown last, with the content
    and the generation shown, less than five minutes before, and it is taken
    once. *)
Theorem taken_previews_were_shown calls : taken_in_turn None (fst (session_run calls Idle)).
Proof. apply run_in_turn. by left. Qed.
End Decisions.
