(* ===== verification/PluginCompute.v ===== *)
(** plugin/registry/workflow.rs, compute.rs and strategy.rs: what the published
    catalog lends to a run; plugin/compute.rs, plugin/compute/slot.rs and
    plugin/runtime/compute.rs: the requests of computations, the slot they
    share, and a computation from its admission to its answer; and
    plugin/compute/sandbox.rs: guests.  What a module must not contain is
    checked before it is compiled; a guest runs on fuel that is issued in
    slices, and its memory is read and written within its bounds.  The engine
    (wasmi) and the parser (wasmparser) are interfaces. *)
From Stdlib Require Import Ascii SpecFloat.
From stdpp Require Import gmap strings.
From S2P Require Import Prelude RustStr FileSystem External Models Workflow StrategyTypes Supervisor PluginManifest PluginCatalog PluginPackages PluginState PluginOwnership PluginRegistry.

Definition compute_error (code : string) : AppError := Plugin code "插件计算请求未完成" None.
Definition compute_invalid_request : AppError := compute_error "plugin_compute_invalid_request".

(** ** compute.rs: requests *)

Record ComputeRequest := {
  cr_request_id : string;
  cr_plugin_id : string;
  cr_contribution_id : string;
  cr_expected_catalog_generation : string;
  cr_expected_revision : string;
  cr_values : list f64;
  cr_parameter : f64;
}.

Record ComputeResult := {
  rs_schema_version : Z;
  rs_request_id : string;
  rs_plugin_id : string;
  rs_contribution_id : string;
  rs_catalog_generation : string;
  rs_revision : string;
  rs_value : f64;
  rs_input_count : Z;
  rs_parameter : f64;
}.

Definition is_ascii_alphanumeric (b : Z) : bool :=
  is_ascii_uppercase b || is_ascii_lowercase b || is_ascii_digit b.

Definition validate_request_id (id : string) : outcome AppError unit :=
  guard (negb ((1 <=? len id) && (len id <=? 64))
         || negb (forallb (fun b => is_ascii_alphanumeric b || (b =? 45)) (bytes_of id)))
    compute_invalid_request.

(** [counter.parse::<u64>()] prints back as [counter]. *)
Definition canonical_counter (value : string) : bool :=
  match parse_u64 value with Some v => u64_to_string v ==s value | None => false end.

Definition ComputeRequest_validate (r : ComputeRequest) : outcome AppError unit :=
  let? _ := validate_request_id (cr_request_id r) in
  let? _ := guard (negb (plugin_id_ok (cr_plugin_id r))) compute_invalid_request in
  let? _ := guard (negb (plugin_id_ok (cr_contribution_id r))) compute_invalid_request in
  let? _ := guard (negb (canonical_counter (cr_expected_catalog_generation r)))
              compute_invalid_request in
  guard (negb (canonical_counter (cr_expected_revision r))) compute_invalid_request.

(** ** What the published catalog lends *)

Section Captures.
Context `{SemverLib} `{Codec json} `{Base64Lib} `{Codec PluginManifest} `{Sha256Lib}.
Context `{UuidV4Lib} `{Codec OwnershipReceiptV1} `{Codec IndexWire} `{Codec StateWire}.

Record CapturedWorkflow := {
  cw_params : PluginWorkflowParams;
  cw_identity : PluginIdentity;
  cw_requested : list string;
}.

Record CapturedCompute := {
  cc_params : PluginComputeParams;
  cc_identity : PluginIdentity;
}.

(** The state document of a publication that is reconciled and complete. *)
Definition lendable (r : PluginRegistry) : option PluginStateFileV2 :=
  let p := publication r in
  match runtime p with
  | RAvailable s _ =>
      if removal_authority_unreconciled r || ownership_requires_retry (ownership p)
         || same (lds_status (local_summary p)) DUnavailable
         || negb (same (mos_status (ownership_summary p)) DAvailable)
      then None else Some s
  | RUnavailable _ => None
  end.

(** The request names the publication it was made on. *)
Definition names_publication (r : PluginRegistry) (s : PluginStateFileV2)
    (generation revision : string) : bool :=
  (generation ==s u64_to_string (catalog_generation (publication r)))
  && (revision ==s u64_to_string (f_revision s)).

(** [publication.locals.get(&id).or_else(|| self.builtins.get(&id))]. *)
Definition find_record (r : PluginRegistry) (id : string) : option PluginRecord :=
  match locals (publication r) !! id with
  | Some record => Some record
  | None => builtins r !! id
  end.

Definition find_contribution (record : PluginRecord) (id : string)
    : option PluginCommandContribution :=
  List.find (fun c => pc_contribution_id c ==s id) (pm_contributions (pr_manifest record)).

Definition lends (m : PluginManagement) : bool :=
  same m MExternal || same m MManaged || same m MBuiltIn.

(** The record and the contribution both captures resolve, each refusal by
    the code its error has after the component's prefix. *)
Definition resolve (fail : string -> AppError) (r : PluginRegistry)
    (plugin contribution generation revision : string)
    : outcome AppError (PluginRecord * PluginCommandContribution) :=
  let? s := ok_or (fail "unavailable") (lendable r) in
  let? _ := guard (negb (names_publication r s generation revision)) (fail "stale") in
  let? _ := guard (negb (plugin_id_ok plugin)) (fail "invalid_request") in
  let? record := ok_or (fail "not_found") (find_record r plugin) in
  let? _ := guard (negb (lends (management_for_record (publication r) record)))
              (fail "unavailable") in
  let? _ := guard (negb (is_enabled s record)) (fail "disabled") in
  let? c := ok_or (fail "not_found") (find_contribution record contribution) in
  Ok (record, c).

Definition capture_workflow (r : PluginRegistry) (request : AuthorityRequest)
    : outcome AppError CapturedWorkflow :=
  let fail code := workflow_error ("plugin_workflow_" +:+ code) in
  let? _ := AuthorityRequest_validate request in
  let? (record, c) := resolve fail r (ar_plugin_id request) (ar_contribution_id request)
                        (ar_expected_catalog_generation request)
                        (ar_expected_revision request) in
  match pc_params c with
  | AccountWorkflow params =>
      let? _ := guard (negb (pm_schema_version (pr_manifest record) =? 5)
                       || negb (same (pc_action_id c) SandboxAccountWorkflow))
                  (fail "not_supported") in
      Ok {| cw_params := params; cw_identity := identity_of record;
            cw_requested := pm_requested_capabilities (pr_manifest record) |}
  | _ => Err (fail "not_supported")
  end.

Definition capture_compute (r : PluginRegistry) (request : ComputeRequest)
    : outcome AppError CapturedCompute :=
  let fail code := compute_error ("plugin_compute_" +:+ code) in
  let? _ := ComputeRequest_validate request in
  let? (record, c) := resolve fail r (cr_plugin_id request) (cr_contribution_id request)
                        (cr_expected_catalog_generation request)
                        (cr_expected_revision request) in
  match pc_params c with
  | ComputeSeries params =>
      let version := pm_schema_version (pr_manifest record) in
      let? _ := guard (negb ((4 <=? version) && (version <=? 5))
                       || negb (same (pc_action_id c) SandboxComputeSeries))
                  (fail "not_supported") in
      Ok {| cc_params := params; cc_identity := identity_of record |}
  | _ => Err (fail "not_supported")
  end.

Definition revalidate_compute (r : PluginRegistry) (request : ComputeRequest)
    (captured : CapturedCompute) : outcome AppError unit :=
  let? current := capture_compute r request in
  guard (bool_decide (cc_identity current <> cc_identity captured)
         || bool_decide (cc_params current <> cc_params captured))
    (compute_error "plugin_compute_stale").

(** Strategies are lent by local plugins only. *)
Definition capture_strategy (r : PluginRegistry) (request : AuthorityRequest)
    : outcome AppError CapturedStrategy :=
  let fail code := strategy_error ("plugin_strategy_" +:+ code) in
  let? _ := or_fail (fail "invalid_request") (AuthorityRequest_validate request) in
  let? s := ok_or (fail "unavailable") (lendable r) in
  let? _ := guard (negb (names_publication r s (ar_expected_catalog_generation request)
                           (ar_expected_revision request))) (fail "stale") in
  let? _ := guard (negb (plugin_id_ok (ar_plugin_id request))) (fail "invalid_request") in
  let? record := ok_or (fail "stale") (locals (publication r) !! ar_plugin_id request) in
  let m := management_for_record (publication r) record in
  let? _ := guard (negb (same m MExternal || same m MManaged) || negb (is_enabled s record))
              (fail "stale") in
  let? c := ok_or (fail "stale") (find_contribution record (ar_contribution_id request)) in
  match pc_params c with
  | Strategy params =>
      let version := pm_schema_version (pr_manifest record) in
      let? _ := guard (negb ((version =? 6) || (version =? 7))
                       || negb (same (pc_action_id c) SandboxStrategy)) (fail "denied") in
      Ok {| cs_params := params; cs_identity := identity_of record;
            cs_requested := pm_requested_capabilities (pr_manifest record) |}
  | _ => Err (fail "denied")
  end.
End Captures.

(** ** compute/slot.rs: one computation at a time *)

(** A cancellation flag is a name; the flags that are set are a set of them. *)
Record ComputeSlot := {
  active : option (string * nat);
  next_flag : nat;
  raised : gset nat;
}.
Definition empty_slot : ComputeSlot := {| active := None; next_flag := 0; raised := ∅ |}.

Definition raise (flag : nat) (s : ComputeSlot) : ComputeSlot :=
  {| active := active s; next_flag := next_flag s; raised := {[flag]} ∪ raised s |}.
Definition is_raised (s : ComputeSlot) (flag : nat) : bool := bool_decide (flag ∈ raised s).

(** [acquire]: the name is the lease's flag. *)
Definition acquire (id : string) : M ComputeSlot AppError nat := fun s =>
  match active s with
  | Some _ => (Err (compute_error "plugin_compute_busy"), s)
  | None =>
      let flag := next_flag s in
      (Ok flag, {| active := Some (id, flag); next_flag := S flag; raised := raised s |})
  end.

Definition cancel (id : string) (s : ComputeSlot) : bool * ComputeSlot :=
  match active s with
  | Some (active_id, flag) => if active_id ==s id then (true, raise flag s) else (false, s)
  | None => (false, s)
  end.

Definition invalidate (s : ComputeSlot) : ComputeSlot :=
  match active s with Some (_, flag) => raise flag s | None => s end.

(** [Drop for ComputeLease]: only the lease that holds the slot frees it. *)
Definition drop_lease (flag : nat) (s : ComputeSlot) : ComputeSlot :=
  match active s with
  | Some (_, held) =>
      if (held =? flag)%nat
      then {| active := None; next_flag := next_flag s; raised := raised s |} else s
  | None => s
  end.

(** [CancelComputeResult] *)
Record CancelComputeResult := {
  ca_schema_version : Z;
  ca_request_id : string;
  ca_cancelled : bool;
}.
Definition cancel_compute (request_id : string) : M ComputeSlot AppError CancelComputeResult :=
  fun s =>
  match validate_request_id request_id with
  | Ok _ => let '(cancelled, s) := cancel request_id s in
            (Ok {| ca_schema_version := 1; ca_request_id := request_id;
                   ca_cancelled := cancelled |}, s)
  | Err e => (Err e, s)
  | Halt h => (Halt h, s)
  end.

(** ** runtime/compute.rs *)

Section Runs.
Context `{SemverLib} `{Codec json} `{Base64Lib} `{Codec PluginManifest} `{Sha256Lib}.
Context `{UuidV4Lib} `{Codec OwnershipReceiptV1} `{Codec IndexWire} `{Codec StateWire}.

(** What [execute_compute] holds while its guest runs. *)
Record ComputeRun := {
  run_request : ComputeRequest;
  run_captured : CapturedCompute;
  run_epoch : Z;
  run_flag : nat;
}.

(** The two guards of an abandoned run: the flag is raised, then the lease
    frees the slot. *)
Definition abandon (flag : nat) (s : ComputeSlot) : ComputeSlot := drop_lease flag (raise flag s).

(** Up to [drop(operation)]: [epoch] is read before the gate is tried,
    [epoch'] after the slot was acquired. *)
Definition compute_admit (r : PluginRegistry) (attempted gate_free : bool) (epoch epoch' : Z)
    (request : ComputeRequest) : M ComputeSlot AppError ComputeRun :=
  mlift (ComputeRequest_validate request) ;;;
  mlift (guard (negb gate_free) (compute_error "plugin_compute_unavailable")) ;;;
  mlift (guard (negb attempted) (compute_error "plugin_compute_unavailable")) ;;;
  let* captured := mlift (capture_compute r request) in
  let* flag := acquire (cr_request_id request) in
  if (epoch =? u64_max) || negb (epoch' =? epoch)
  then fun s => (Err (compute_error "plugin_compute_cancelled"), abandon flag s)
  else mret {| run_request := request; run_captured := captured; run_epoch := epoch;
               run_flag := flag |}.

(** After the guest returned [value]; the lease is gone with the worker. *)
Definition compute_settle (r : PluginRegistry) (gate_free : bool) (epoch' : Z) (s : ComputeSlot)
    (run : ComputeRun) (value : f64) : outcome AppError ComputeResult :=
  let request := run_request run in
  let? _ := guard (negb gate_free) (compute_error "plugin_compute_unavailable") in
  let? _ := guard (is_raised s (run_flag run) || negb (epoch' =? run_epoch run))
              (compute_error "plugin_compute_cancelled") in
  let? _ := revalidate_compute r request (run_captured run) in
  Ok {| rs_schema_version := 1; rs_request_id := cr_request_id request;
        rs_plugin_id := cr_plugin_id request; rs_contribution_id := cr_contribution_id request;
        rs_catalog_generation := cr_expected_catalog_generation request;
        rs_revision := cr_expected_revision request; rs_value := value;
        rs_input_count := Z.of_nat (length (cr_values request));
        rs_parameter := cr_parameter request |}.
End Runs.

(** * The sandbox *)

Definition MEMORY_BYTES : Z := 1048576.
Definition TOTAL_FUEL : Z := 2000000.
Definition FUEL_SLICE : Z := 10000.
Definition DEADLINE_MS : Z := 2000.
Definition MAX_CONTEXT_BYTES : Z := 65536.
Definition MAX_INPUT_BYTES : Z := 4096.
Definition MAX_OUTPUT_BYTES : Z := 16384.

(** ** What a module declares *)

(** wasmparser's memory type. *)
Record MemoryType := {
  memory64 : bool;
  shared : bool;
  custom_page_size : bool;
  initial : Z;
  maximum : option Z;
}.

(** The payloads the check tells apart; an item that does not parse is
    [None].  A type is the number of its parameters and of its results, the
    locals of a body are counted by their groups. *)
Inductive Payload :=
| Version_ | End_ | CustomSection
| TypeSection (count : Z) (types : list (option (Z * Z)))
| ImportSection (count : Z)
| FunctionSection (count : Z)
| GlobalSection (count : Z)
| ExportSection (count : Z)
| DataSection (count : Z)
| DataCountSection (count : Z)
| MemorySection (count : Z) (memories : list (option MemoryType))
| CodeSectionStart (count : Z)
| CodeSectionEntry (locals : option (Z * list (option Z)))
| OtherPayload.

Definition invalid_module : AppError := compute_error "plugin_compute_invalid_module".

Fixpoint all_parsed {A} (check : A -> bool) (xs : list (option A)) : bool :=
  match xs with
  | [] => true
  | Some x :: rest => check x && all_parsed check rest
  | None :: _ => false
  end.

(** The groups of locals, summed up with an early exit. *)
Fixpoint count_locals (total : Z) (groups : list (option Z)) : bool :=
  match groups with
  | [] => true
  | Some n :: rest =>
      match u32_checked_add total n with
      | Some total => (total <=? 256) && count_locals total rest
      | None => false
      end
  | None :: _ => false
  end.

Definition memory_allowed (m : MemoryType) : bool :=
  negb (memory64 m) && negb (shared m) && negb (custom_page_size m) && (initial m <=? 16)
  && match maximum m with Some max => max <=? 16 | None => true end.

Definition payload_allowed (p : Payload) : bool :=
  match p with
  | Version_ | End_ | CustomSection => true
  | TypeSection count types =>
      (count <=? 128) && all_parsed (fun '(params, results) => (params <=? 16) && (results <=? 1)) types
  | ImportSection count => count =? 0
  | FunctionSection count | CodeSectionStart count => count <=? 128
  | GlobalSection count => count <=? 64
  | ExportSection count | DataSection count | DataCountSection count => count <=? 32
  | MemorySection count memories => (count =? 1) && all_parsed memory_allowed memories
  | CodeSectionEntry (Some (groups, locals)) => (groups <=? 256) && count_locals 0 locals
  | CodeSectionEntry None | OtherPayload => false
  end.

Definition preflight (payloads : list (option Payload)) : outcome AppError unit :=
  guard (negb (all_parsed payload_allowed payloads)) invalid_module.

(** ** The engine *)

(** How a resumable call stands; [required] is what the next instruction
    needs. *)
Inductive Resumable (K R : Type) :=
| Finished (value : R)
| HostTrap
| OutOfFuel (required : Z) (suspended : K).
Arguments Finished {K R} _.
Arguments HostTrap {K R}.
Arguments OutOfFuel {K R} _ _.

(** A [Guest] is a store with its instance.  [None] is the error of the call. *)
Class WasmLib := {
  Guest : Type;
  (* a suspended call of a function that returns a [R] *)
  Suspended : Type -> Type;
  parse_all : string -> list (option Payload);
  (* [Module::new], with whether the module imports anything *)
  module_imports : string -> option bool;
  (* the linker's instantiation of the module, on a store with that fuel *)
  instantiate_and_start : string -> Z -> option Guest;
  has_memory : Guest -> bool;
  has_alloc : Guest -> bool;
  has_run_json : Guest -> bool;
  has_run_series : Guest -> bool;
  call_alloc : Z -> Guest -> option (Resumable (Suspended Z) Z * Guest);
  call_run_json : Z * Z * Z * Z -> Guest -> option (Resumable (Suspended Z) Z * Guest);
  call_run_series : Z * Z * f64 -> Guest -> option (Resumable (Suspended f64) f64 * Guest);
  resume : forall R, Suspended R -> Guest -> option (Resumable (Suspended R) R * Guest);
  get_fuel : Guest -> option Z;
  set_fuel : Z -> Guest -> option Guest;
  (* the memory as a text of bytes *)
  memory_data : Guest -> string;
  memory_write : Z -> string -> Guest -> option Guest;
  (* [f64::to_le_bytes] *)
  f64_le_bytes : f64 -> string;
}.

(** [&text[offset..offset + length]] *)
Definition slice (offset length : Z) (text : string) : string :=
  String.substring (Z.to_nat offset) (Z.to_nat length) text.

(** A write changes the bytes it is given and no others. *)
Class WasmLaws `{WasmLib} := {
  write_keeps_size offset bytes g g' :
    memory_write offset bytes g = Some g' -> len (memory_data g') = len (memory_data g);
  write_reads offset bytes g g' :
    memory_write offset bytes g = Some g' -> slice offset (len bytes) (memory_data g') = bytes;
  write_frame offset bytes g g' o l :
    memory_write offset bytes g = Some g' -> 0 <= o -> 0 <= l ->
    o + l <= offset \/ offset + len bytes <= o ->
    slice o l (memory_data g') = slice o l (memory_data g);
}.

(** The fuel of a store: instantiating leaves at most what the store was given,
    setting it sets it, and running only burns it. *)
Class FuelLaws `{WasmLib} := {
  store_fuel bytes fuel g :
    0 <= fuel -> instantiate_and_start bytes fuel = Some g ->
    exists n, get_fuel g = Some n /\ 0 <= n <= fuel;
  set_fuel_sets n g g' : set_fuel n g = Some g' -> get_fuel g' = Some n;
  resume_burns R (k : Suspended R) g call g' n :
    resume R k g = Some (call, g') -> get_fuel g = Some n ->
    exists n', get_fuel g' = Some n' /\ 0 <= n' <= n;
}.

Section Sandbox.
Context `{WasmLib} `{Base64Lib}.

(** ** Budget *)

Record Budget := { unissued_fuel : Z; checks : nat }.
Definition start_budget : Budget := {| unissued_fuel := TOTAL_FUEL - FUEL_SLICE; checks := 0 |}.

(** The flag and the elapsed milliseconds each check reads. *)
Variable clock : nat -> bool * Z.

Definition check : M Budget AppError unit := fun b =>
  let '(cancelled, elapsed) := clock (checks b) in
  (if cancelled then Err (compute_error "plugin_compute_cancelled")
   else if DEADLINE_MS <=? elapsed then Err (compute_error "plugin_compute_deadline")
   else Ok tt,
   {| unissued_fuel := unissued_fuel b; checks := S (checks b) |}).

Definition compute_internal : AppError := compute_error "plugin_compute_internal".
Definition compute_trap : AppError := compute_error "plugin_compute_trap".
Definition compute_memory : AppError := compute_error "plugin_compute_memory".
Definition compute_budget : AppError := compute_error "plugin_compute_budget".
Definition compute_invalid_abi : AppError := compute_error "plugin_compute_invalid_abi".

(** The store refilled for the next slice; the subtraction is of [u64]. *)
Definition refill (required : Z) (g : Guest) : M Budget AppError Guest := fun b =>
  match get_fuel g with
  | None => (Err compute_internal, b)
  | Some remaining =>
      let added := Z.min (as_u64 (FUEL_SLICE - remaining)) (unissued_fuel b) in
      if (added =? 0) || (FUEL_SLICE <? required) then (Err compute_budget, b)
      else (ok_or compute_internal (set_fuel (remaining + added) g),
            {| unissued_fuel := unissued_fuel b - added; checks := checks b |})
  end.

(** The loop, for at most that many rounds. *)
Fixpoint finish_call {R} (rounds : nat) (call : Resumable (Suspended R) R) (g : Guest)
    : M Budget AppError (R * Guest) :=
  match rounds with
  | O => mlift (Halt Crashed)
  | S rounds =>
      check ;;;
      match call with
      | Finished value => mret (value, g)
      | HostTrap => mfail compute_trap
      | OutOfFuel required suspended =>
          let* g := refill required g in
          let* (call, g) := mlift (ok_or compute_trap (resume R suspended g)) in
          finish_call rounds call g
      end
  end.

(** Every round but the last uses up some of what is left to issue. *)
Definition rounds_for (b : Budget) : nat := S (Z.to_nat (unissued_fuel b)).

Definition budget_call {R} (start : Guest -> option (Resumable (Suspended R) R * Guest))
    (g : Guest) : M Budget AppError (R * Guest) :=
  check ;;;
  let* (call, g) := mlift (ok_or compute_trap (start g)) in
  fun b => finish_call (rounds_for b) call g b.

(** ** Guests *)

Definition instantiate (bytes : string) : M Budget AppError Guest :=
  mlift (preflight (parse_all bytes)) ;;;
  let* imports := mlift (ok_or invalid_module (module_imports bytes)) in
  mlift (guard imports invalid_module) ;;;
  check ;;;
  mlift (ok_or invalid_module (instantiate_and_start bytes FUEL_SLICE)).

Definition memory_size (g : Guest) : Z := len (memory_data g).

(** [offset.checked_add(len).is_none_or(|end| end > size)]; a [usize] has 64
    bits. *)
Definition checked_range (offset length size : Z) : outcome AppError unit :=
  guard match u64_checked_add offset length with
        | Some stop => size <? stop
        | None => true
        end compute_memory.

(** [usize::try_from(ptr)] of an [i32]. *)
Definition offset_of (ptr : Z) : outcome AppError Z :=
  let? _ := guard (ptr <? 0) compute_memory in Ok ptr.

Definition overlap (o1 l1 o2 l2 : Z) : bool := (o1 <? o2 + l2) && (o2 <? o1 + l1).

(** Both texts in the memory the guest allotted for them. *)
Definition place_inputs (context input : string) (g : Guest)
    : M Budget AppError (Z * Z * Guest) :=
  let* (cp, g) := budget_call (call_alloc (len context)) g in
  let* (ip, g) := budget_call (call_alloc (len input)) g in
  let* co := mlift (offset_of cp) in
  let* io := mlift (offset_of ip) in
  mlift (checked_range co (len context) (memory_size g)) ;;;
  mlift (checked_range io (len input) (memory_size g)) ;;;
  mlift (guard (overlap co (len context) io (len input)) compute_memory) ;;;
  let* g := mlift (ok_or compute_memory (memory_write co context g)) in
  let* g := mlift (ok_or compute_memory (memory_write io input g)) in
  mret (cp, ip, g).

(** The text the guest points at. *)
Definition read_output (packed : Z) (g : Guest) : outcome AppError string :=
  let invalid := compute_error "plugin_compute_invalid_output" in
  let offset := Z.shiftr (as_u64 packed) 32 in
  let length := Z.land (as_u64 packed) 4294967295 in
  let? _ := guard (MAX_OUTPUT_BYTES <? length) invalid in
  let? _ := checked_range offset length (memory_size g) in
  let output := slice offset length (memory_data g) in
  let? _ := guard (negb (utf8_valid (bytes_of output))) invalid in
  Ok output.

Definition execute_json (bytes context input : string) : M Budget AppError string :=
  mlift (guard ((MAX_CONTEXT_BYTES <? len context) || (MAX_INPUT_BYTES <? len input))
           (compute_error "plugin_compute_invalid_input")) ;;;
  check ;;;
  let* g := instantiate bytes in
  mlift (guard (negb (has_memory g) || negb (has_alloc g) || negb (has_run_json g))
           compute_invalid_abi) ;;;
  let* (cp, ip, g) := place_inputs context input g in
  let* (packed, g) := budget_call (call_run_json (cp, len context, ip, len input)) g in
  mlift (read_output packed g).

(** *** The numerical guests *)

Definition validate_series (values : list f64) (parameter : f64) (params : PluginComputeParams)
    : outcome AppError unit :=
  let count := Z.of_nat (length values) in
  let? _ := guard (negb ((1 <=? count) && (count <=? 4096))
                   || existsb (fun value => negb (f64_is_finite value)) values)
              (compute_error "plugin_compute_invalid_input") in
  guard (negb (f64_is_finite parameter)
         || SFltb parameter (f64_of_Z (par_min (pcp_parameter params)))
         || SFltb (f64_of_Z (par_max (pcp_parameter params))) parameter)
    (compute_error "plugin_compute_invalid_parameter").

Definition le_bytes (values : list f64) : string :=
  fold_right (fun value rest => f64_le_bytes value +:+ rest) "" values.

Definition execute_guest (params : PluginComputeParams) (values : list f64) (parameter : f64)
    : M Budget AppError f64 :=
  check ;;;
  mlift (validate_series values parameter params) ;;;
  mlift (omap_err (fun _ => invalid_module) (PluginComputeParams_validate params)) ;;;
  let* bytes := mlift (omap_err (fun _ => invalid_module) (compute_module_bytes params)) in
  let* g := instantiate bytes in
  mlift (guard (negb (has_memory g) || negb (has_alloc g) || negb (has_run_series g))
           compute_invalid_abi) ;;;
  let count := Z.of_nat (length values) in
  let* (ptr, g) := budget_call (call_alloc (count * 8)) g in
  let* offset := mlift (offset_of ptr) in
  mlift (checked_range offset (count * 8) (memory_size g)) ;;;
  let* g := mlift (ok_or compute_memory (memory_write offset (le_bytes values) g)) in
  let* (value, g) := budget_call (call_run_series (ptr, count, parameter)) g in
  mlift (guard (negb (f64_is_finite value)) (compute_error "plugin_compute_invalid_output")) ;;;
  mret value.
End Sandbox.

(** ** Termination *)

Section Termination.
Context `{WasmLib} `{Base64Lib}.
Variable clock : nat -> bool * Z.

(** A computation from [b] ended with a value or an error, issued fuel only out
    of what was left, and made at most [k] checks beyond one for each unit it
    issued; a check that found the flag raised was the last. *)
Record spent {A} (k : Z) (b : Budget) (r : outcome AppError A * Budget) : Prop := {
  sp_fuel : 0 <= unissued_fuel r.2 <= unissued_fuel b;
  sp_end h : r.1 <> Halt h;
  sp_checks : Z.of_nat (checks r.2)
              <= Z.of_nat (checks b) + k + (unissued_fuel b - unissued_fuel r.2);
  sp_prompt n : (clock n).1 = true -> (checks b <= n)%nat ->
    (checks r.2 <= n)%nat \/ (checks r.2 = S n /\ exists e, r.1 = Err e);
}.
Definition spends {A} (k : Z) (c : M Budget AppError A) : Prop :=
  forall b, 0 <= unissued_fuel b -> spent k b (c b).

Lemma spent_err {A B} k k' b e b1 :
  k <= k' -> spent (A := A) k b (Err e, b1) -> spent (A := B) k' b (Err e, b1).
Proof.
  intros Hk [Hf _ Hc Hp]. split; simpl in *; [done|done|lia|].
  intros n Hcl Hle. destruct (Hp n Hcl Hle) as [?|[? _]]; [by left|right; eauto].
Qed.

Lemma spent_then {A B} k1 k2 b (a : A) b1 (r : outcome AppError B * Budget) :
  spent k1 b (Ok a, b1) -> (0 <= unissued_fuel b1 -> spent k2 b1 r) -> spent (k1 + k2) b r.
Proof.
  intros [Hf _ Hc Hp] Hr. simpl in *. destruct Hr as [Hf' He' Hc' Hp']; [lia|].
  split; [lia|done|lia|]. intros n Hcl Hle.
  destruct (Hp n Hcl Hle) as [?|(_ & e & ?)]; [by apply Hp'|done].
Qed.

Lemma spends_lift {A} (x : outcome AppError A) : (forall h, x <> Halt h) -> spends 0 (mlift x).
Proof. intros Hx b Hb. split; simpl; [lia|done|lia|by left]. Qed.

Lemma spends_ret {A} (x : A) : spends 0 (mret x).
Proof. by apply (spends_lift (Ok x)). Qed.

Lemma spends_bind {A B} k1 k2 (c : M Budget AppError A) (f : A -> M Budget AppError B) :
  0 <= k2 -> spends k1 c -> (forall a, spends k2 (f a)) -> spends (k1 + k2) (mbind c f).
Proof.
  intros Hk Hc Hf b Hb. specialize (Hc b Hb). unfold mbind.
  destruct (c b) as [[a|e|h] b1]; [|by apply (spent_err (A := A) k1); [lia|]|by destruct (sp_end _ _ _ Hc h)].
  eapply spent_then; [done|]. apply Hf.
Qed.

Lemma spends_check : spends 1 (check clock).
Proof.
  intros b Hb. unfold check. destruct (clock (checks b)) as [cancelled elapsed] eqn:Ec.
  split; simpl; [lia| |lia|].
  - intros h. by destruct cancelled, (DEADLINE_MS <=? elapsed).
  - intros n Hcl Hle. destruct (Nat.eq_dec n (checks b)) as [->|]; [right|left; lia].
    rewrite Ec in Hcl. simpl in Hcl. rewrite Hcl. eauto.
Qed.

(** A refill that succeeds uses up something, so the check before it is paid
    for. *)
Lemma spends_refill required g b :
  0 <= unissued_fuel b ->
  spent (match (refill required g b).1 with Ok _ => -1 | _ => 0 end) b (refill required g b).
Proof.
  intros Hb. unfold refill. destruct (get_fuel g) as [remaining|]; [|split; simpl; [lia|done|lia|by left]].
  set (added := Z.min (as_u64 (FUEL_SLICE - remaining)) (unissued_fuel b)).
  assert (0 <= added <= unissued_fuel b).
  { unfold added, as_u64. pose proof (Z.mod_pos_bound (FUEL_SLICE - remaining) (2 ^ 64) ltac:(lia)). lia. }
  destruct (Z.eqb_spec added 0); simpl; [split; simpl; [lia|done|lia|by left]|].
  destruct (FUEL_SLICE <? required); simpl; [split; simpl; [lia|done|lia|by left]|].
  destruct (set_fuel _ _); split; simpl; first [lia|done|by left].
Qed.

Lemma refill_lowers required g b g1 b1 :
  0 <= unissued_fuel b -> refill required g b = (Ok g1, b1) -> unissued_fuel b1 < unissued_fuel b.
Proof.
  intros Hb Hr. destruct (spends_refill required g b Hb) as [_ _ Hc _].
  rewrite Hr in Hc. simpl in Hc.
  assert (checks b1 = checks b) by (unfold refill in Hr; repeat case_match; by simplify_eq). lia.
Qed.

Lemma finish_call_spends {R} rounds (call : Resumable (Suspended R) R) g b :
  0 <= unissued_fuel b -> (Z.to_nat (unissued_fuel b) < rounds)%nat ->
  spent 1 b (finish_call clock rounds call g b).
Proof.
  revert call g b. induction rounds as [|rounds IH]; intros call g b Hb Hr; [lia|].
  pose proof (spends_check b Hb) as Hc. simpl. unfold mbind at 1.
  destruct (check clock b) as [[u|e|h] b1] eqn:Ec;
    [|by apply (spent_err (A := unit) 1)|by destruct (sp_end _ _ _ Hc h)].
  assert (unissued_fuel b1 = unissued_fuel b) as Eu.
  { unfold check in Ec. destruct (clock (checks b)). by simplify_eq. }
  destruct call as [value| |required suspended].
  - apply (spent_then 1 0 _ u b1); [done|]. apply spends_ret.
  - apply (spent_then 1 0 _ u b1); [done|]. by apply (spends_lift (Err compute_trap)).
  - unfold mbind at 1. pose proof (spends_refill required g b1 ltac:(lia)) as Hf.
    destruct (refill required g b1) as [[g1|e|h] b2] eqn:Er; simpl in Hf;
      [|apply (spent_then 1 0 _ u b1); [done|]; intros _; by apply (spent_err (A := Guest) 0)
       |by destruct (sp_end _ _ _ Hf h)].
    apply (spent_then 1 0 _ u b1); [done|]. intros _.
    apply (spent_then (-1) 1 _ g1 b2); [done|]. intros Hb2.
    assert (0 <= unissued_fuel b1) as Hb1 by lia.
    pose proof (refill_lowers _ _ _ _ _ Hb1 Er). unfold mbind, mlift.
    destruct (resume R suspended g1) as [[call' g2]|]; simpl; [apply IH; lia|].
    by apply (spent_err (A := R * Guest) 0); [|apply (spends_lift (Err compute_trap))].
Qed.

Lemma spends_call {R} (start : Guest -> option (Resumable (Suspended R) R * Guest)) g :
  spends 2 (budget_call clock start g).
Proof.
  apply (spends_bind 1 1); [done|apply spends_check|intros _].
  apply (spends_bind 0 1); [done|apply spends_lift; by destruct (start g)|intros [call g1] b Hb].
  apply finish_call_spends; [done|unfold rounds_for; lia].
Qed.

Lemma no_halt_guard b (e : AppError) h : guard b e <> Halt h.
Proof. by destruct b. Qed.
Lemma no_halt_ok_or {A} (e : AppError) (x : option A) h : ok_or e x <> Halt h.
Proof. by destruct x. Qed.

Lemma spends_instantiate bytes : spends 1 (instantiate clock bytes).
Proof.
  apply (spends_bind 0 1); [done|apply spends_lift, no_halt_guard|intros _].
  apply (spends_bind 0 1); [done|apply spends_lift, no_halt_ok_or|intros imports].
  apply (spends_bind 0 1); [done|apply spends_lift, no_halt_guard|intros _].
  apply (spends_bind 1 0); [done|apply spends_check|intros _]. apply spends_lift, no_halt_ok_or.
Qed.

Lemma no_halt_bind {A B} (x : outcome AppError A) (f : A -> outcome AppError B) :
  (forall h, x <> Halt h) -> (forall a h, f a <> Halt h) -> forall h, obind x f <> Halt h.
Proof. intros Hx Hf h. destruct x as [a|e|h']; [apply Hf|done|]. by destruct (Hx h'). Qed.
Lemma offset_of_no_halt ptr h : offset_of ptr <> Halt h.
Proof. apply no_halt_bind; [apply no_halt_guard|done]. Qed.
Lemma read_output_no_halt packed g h : read_output packed g <> Halt h.
Proof. repeat (apply no_halt_bind; [apply no_halt_guard|intros _]). discriminate. Qed.

Lemma spends_place context input g : spends 4 (place_inputs clock context input g).
Proof.
  apply (spends_bind 2 2); [done|apply spends_call|intros [cp g1]].
  apply (spends_bind 2 0); [done|apply spends_call|intros [ip g2]].
  apply (spends_bind 0 0); [done|apply spends_lift, offset_of_no_halt|intros co].
  apply (spends_bind 0 0); [done|apply spends_lift, offset_of_no_halt|intros io].
  apply (spends_bind 0 0); [done|apply spends_lift, no_halt_guard|intros _].
  apply (spends_bind 0 0); [done|apply spends_lift, no_halt_guard|intros _].
  apply (spends_bind 0 0); [done|apply spends_lift, no_halt_guard|intros _].
  apply (spends_bind 0 0); [done|apply spends_lift, no_halt_ok_or|intros g3].
  apply (spends_bind 0 0); [done|apply spends_lift, no_halt_ok_or|intros g4]. apply spends_ret.
Qed.

Lemma spends_execute bytes context input : spends 8 (execute_json clock bytes context input).
Proof.
  apply (spends_bind 0 8); [done|apply spends_lift, no_halt_guard|intros _].
  apply (spends_bind 1 7); [done|apply spends_check|intros _].
  apply (spends_bind 1 6); [done|apply spends_instantiate|intros g].
  apply (spends_bind 0 6); [done|apply spends_lift, no_halt_guard|intros _].
  apply (spends_bind 4 2); [done|apply spends_place|intros [[cp ip] g1]].
  apply (spends_bind 2 0); [done|apply spends_call|intros [packed g2]].
  apply spends_lift, read_output_no_halt.
Qed.

(** C27: Whatever the guest does, [execute_json] returns: it issues no more than
    the total fuel, makes a bounded number of checks, and makes none after one
    that found the run cancelled. *)
Theorem guests_terminate bytes context input :
  exists o b, execute_json clock bytes context input start_budget = (o, b) /\
    (forall h, o <> Halt h) /\
    0 <= unissued_fuel b /\ FUEL_SLICE + (unissued_fuel start_budget - unissued_fuel b) <= TOTAL_FUEL /\
    Z.of_nat (checks b) <= 8 + TOTAL_FUEL /\
    (forall n, (clock n).1 = true -> (checks b <= S n)%nat).
Proof.
  destruct (spends_execute bytes context input start_budget) as [Hu Hh Hk Hn]; [done|].
  destruct (execute_json clock bytes context input start_budget) as [o b]. simpl in *.
  exists o, b. unfold TOTAL_FUEL, FUEL_SLICE in *. split_and!; try done; try lia.
  intros n Hcl. destruct (Hn n Hcl ltac:(lia)) as [?|[? _]]; lia.
Qed.
End Termination.

(** ** The fuel of the store *)

Section Fuel.
Context `{WasmLib} `{!FuelLaws} `{Base64Lib}.
Variable clock : nat -> bool * Z.

(** The store holds [n], no more than a slice. *)
Definition holds (n : Z) (g : Guest) : Prop := get_fuel g = Some n /\ 0 <= n <= FUEL_SLICE.

Lemma instantiate_holds bytes b g b' :
  instantiate clock bytes b = (Ok g, b') ->
  exists n, holds n g /\ n + unissued_fuel b' <= FUEL_SLICE + unissued_fuel b.
Proof.
  unfold instantiate. intros Hi. run_ok. rename select (instantiate_and_start _ _ = _) into Hs.
  apply store_fuel in Hs as (n & Hn & Hb); [|done]. exists n. split; [done|].
  rename select (check _ _ = _) into Hc. unfold check in Hc. destruct (clock _).
  injection Hc as _ <-. simpl. lia.
Qed.

(** A refill issues what the store gains: the subtraction does not wrap, and the
    store never holds more than a slice. *)
Lemma refill_holds required g b g' b' n :
  holds n g -> 0 <= unissued_fuel b -> refill required g b = (Ok g', b') ->
  exists n', holds n' g' /\ n < n' /\ n' + unissued_fuel b' = n + unissued_fuel b.
Proof.
  intros [Hn Hb] Hu. unfold refill, holds. rewrite Hn.
  assert (as_u64 (FUEL_SLICE - n) = FUEL_SLICE - n) as ->.
  { unfold as_u64, FUEL_SLICE in *. apply Z.mod_small. lia. }
  destruct ((_ =? 0) || _) eqn:E; [done|]. apply orb_false_iff in E as [E _].
  destruct (set_fuel _ g) as [g1|] eqn:Es; [|done]. simpl. intros [= <- <-].
  apply set_fuel_sets in Es. eexists. split; [split; [exact Es|]|]; simpl; lia.
Qed.

(** However often a call is resumed, what the store holds and what may yet be
    issued never grow together. *)
Lemma finish_call_holds {R} rounds (call : Resumable (Suspended R) R) g b v g' b' n :
  holds n g -> 0 <= unissued_fuel b -> finish_call clock rounds call g b = (Ok (v, g'), b') ->
  exists n', holds n' g' /\ n' + unissued_fuel b' <= n + unissued_fuel b.
Proof.
  revert call g b n. induction rounds as [|rounds IH]; intros call g b n Hn Hu; cbn [finish_call];
    [done|]. unfold mbind at 1. destruct (check clock b) as [[[]|e|h] b1] eqn:Ec; [|done..].
  assert (unissued_fuel b1 = unissued_fuel b) as E1.
  { unfold check in Ec. destruct (clock _). by injection Ec as _ <-. }
  rewrite <- E1 in Hu |- *. destruct call as [value| |required k]; [|done|].
  { intros [= -> -> ->]. exists n. split; [done|lia]. }
  unfold mbind at 1. destruct (refill required g b1) as [[g1|e|h] b2] eqn:Er; [|done..].
  destruct (refill_holds _ _ _ _ _ _ Hn Hu Er) as (n1 & Hn1 & _ & Ht).
  assert (0 <= unissued_fuel b2) as Hu2.
  { unfold refill in Er. destruct (get_fuel g); [|done]. destruct (_ || _); [done|].
    destruct (set_fuel _ _); [|done]. injection Er as _ <-. simpl. lia. }
  unfold mbind at 1, mlift. destruct (resume R k g1) as [[call2 g2]|] eqn:Es; [|done]. simpl.
  intros Hf. destruct Hn1 as [Hn1 Hb1].
  destruct (resume_burns _ _ _ _ _ _ Es Hn1) as (n2 & Hn2 & Hb2).
  assert (holds n2 g2) as Hh by (split; [done|lia]).
  destruct (IH _ _ _ _ Hh Hu2 Hf) as (n' & Hn' & Ht').
  exists n'. split; [done|lia].
Qed.
End Fuel.

(** ** Memory *)

Section Memory.
Context `{WasmLib} `{!WasmLaws} `{Base64Lib}.
Variable clock : nat -> bool * Z.

Lemma checked_range_ok o l size u :
  checked_range o l size = Ok u -> o + l <= size.
Proof.
  unfold checked_range, u64_checked_add. intros Hg. apply guard_ok in Hg.
  destruct (o + l <=? u64_max); [|done]. lia.
Qed.

Lemma place_inputs_ok context input g cp ip g' b b' :
  place_inputs clock context input g b = (Ok (cp, ip, g'), b') ->
  0 <= cp /\ 0 <= ip /\ cp + len context <= memory_size g' /\ ip + len input <= memory_size g' /\
  slice cp (len context) (memory_data g') = context /\
  slice ip (len input) (memory_data g') = input.
Proof.
  intros Hp. unfold place_inputs, offset_of in Hp.
  do 3 (run_ok; repeat match goal with x : _ * _ |- _ => destruct x end).
  repeat match goal with
  | H : checked_range _ _ _ = Ok _ |- _ => apply checked_range_ok in H
  | H : (_ <? _) = false |- _ => apply Z.ltb_ge in H
  end.
  match goal with
  | H1 : memory_write _ _ _ = Some ?g, H2 : memory_write _ _ ?g = Some _ |- _ =>
      rename H1 into Hw1, H2 into Hw2
  end.
  rename select (overlap _ _ _ _ = false) into Ho. unfold overlap in Ho. unfold memory_size in *.
  rewrite (write_keeps_size _ _ _ _ Hw2), (write_keeps_size _ _ _ _ Hw1).
  split_and!; try lia; [|by apply (write_reads _ _ _ _ Hw2)].
  rewrite (write_frame _ _ _ _ _ _ Hw2); [by apply (write_reads _ _ _ _ Hw1)|lia|unfold len; lia|lia].
Qed.

(** The module a run executes passed the allowlist; when its guest is started
    both texts are in its memory, whole and apart, at the places it is told;
    and what is returned is a text of at most 16384 bytes within the memory
    the guest left. *)
Theorem guest_memory_is_contained bytes context input b output b' :
  execute_json clock bytes context input b = (Ok output, b') ->
  preflight (parse_all bytes) = Ok tt /\
  len context <= 65536 /\ len input <= 4096 /\
  exists g co io b1 packed g',
    slice co (len context) (memory_data g) = context /\
    slice io (len input) (memory_data g) = input /\
    (co + len context <= memory_size g /\ io + len input <= memory_size g) /\
    budget_call clock (call_run_json (co, len context, io, len input)) g b1 = (Ok (packed, g'), b') /\
    let offset := Z.shiftr (as_u64 packed) 32 in
    let length := Z.land (as_u64 packed) 4294967295 in
    output = slice offset length (memory_data g') /\
    offset + length <= memory_size g' /\ length <= 16384 /\
    utf8_valid (bytes_of output) = true.
Proof.
  intros He. unfold execute_json in He.
  do 3 (run_ok; repeat match goal with x : _ * _ |- _ => destruct x end).
  rename select (instantiate _ _ _ = _) into Hi. unfold instantiate in Hi. run_ok.
  rename select (preflight _ = _) into Hpre. rename select (place_inputs _ _ _ _ _ = _) into Hp.
  rename select (read_output _ _ = _) into Ho. unfold read_output in Ho. run_ok. bools.
  rename select (checked_range _ _ _ = _) into Hc. apply checked_range_ok in Hc.
  apply place_inputs_ok in Hp as (? & ? & ? & ? & ? & ?).
  unfold MAX_CONTEXT_BYTES, MAX_INPUT_BYTES, MAX_OUTPUT_BYTES in *.
  split; [by destruct (preflight _) as [[]|?|?]|]. split; [lia|]. split; [lia|].
  eexists _, _, _, _, _, _. split_and!; [eassumption..|done|done|lia|done].
Qed.
End Memory.
