(* ===== verification/WorkflowRuntime.v ===== *)
(** plugin/runtime/workflow.rs: account workflows.  A plugin computes a proposal
    from a snapshot of the account, the user confirms it by a token, and the
    order is handed to the exchange when nothing it rested on changed since.
    Every section of the source under the workflow mutex is one function of
    its state; between two of them anything else may happen, so each call is a
    task that advances section by section, and [step] interleaves them. *)
From Stdlib Require Import Ascii.
From stdpp Require Import gmap strings.
From S2P Require Import Prelude RustStr External Models OrderSubmission BTreeMap Workflow StrategyTypes Supervisor PluginManifest PluginCatalog PluginPackages PluginState PluginOwnership PluginRegistry PluginCompute.

Definition workflow_invalid_request : AppError := workflow_error "plugin_workflow_invalid_request".
Definition workflow_unavailable : AppError := workflow_error "plugin_workflow_unavailable".
Definition workflow_stale : AppError := workflow_error "plugin_workflow_stale".
Definition workflow_denied : AppError := workflow_error "plugin_workflow_denied".
Definition workflow_capacity : AppError := workflow_error "plugin_workflow_capacity".
Definition account_unavailable : AppError := workflow_error "plugin_workflow_account_unavailable".
Definition token_invalid : AppError := workflow_error "plugin_workflow_token_invalid".

(** ** contract.rs: requests and answers *)

Record GrantRequest := {
  gq_plugin_id : string;
  gq_contribution_id : string;
  gq_expected_catalog_generation : string;
  gq_expected_revision : string;
  gq_expected_account_id : string;
  gq_expected_session_epoch : string;
  gq_expected_grant_revision : string;
  gq_capabilities : list string;
}.
Record RunRequest := {
  rq_plugin_id : string;
  rq_contribution_id : string;
  rq_expected_catalog_generation : string;
  rq_expected_revision : string;
  rq_request_id : string;
  rq_expected_account_id : string;
  rq_expected_session_epoch : string;
  rq_expected_grant_revision : string;
  rq_symbol : string;
  rq_input_json : string;
}.
Definition grant_authority (r : GrantRequest) : AuthorityRequest :=
  {| ar_plugin_id := gq_plugin_id r; ar_contribution_id := gq_contribution_id r;
     ar_expected_catalog_generation := gq_expected_catalog_generation r;
     ar_expected_revision := gq_expected_revision r |}.
Definition run_authority (r : RunRequest) : AuthorityRequest :=
  {| ar_plugin_id := rq_plugin_id r; ar_contribution_id := rq_contribution_id r;
     ar_expected_catalog_generation := rq_expected_catalog_generation r;
     ar_expected_revision := rq_expected_revision r |}.

Record Access := {
  ax_schema_version : Z;
  ax_plugin_id : string;
  ax_contribution_id : string;
  ax_catalog_generation : string;
  ax_revision : string;
  ax_account : Account;
  ax_requested_capabilities : list string;
  ax_granted_capabilities : list string;
  ax_grant_revision : string;
}.
Record Confirmation := {
  cf_token : string;
  cf_expires_at_ms : string;
  cf_submission_id : option string;
}.
Record WorkflowResult := {
  wr_schema_version : Z;
  wr_request_id : string;
  wr_plugin_id : string;
  wr_contribution_id : string;
  wr_catalog_generation : string;
  wr_revision : string;
  wr_account : Account;
  wr_grant_revision : string;
  wr_snapshot : Snapshot;
  wr_output : WorkflowOutput;
  wr_confirmation : option Confirmation;
}.
Inductive TradeStatus := TradeAccepted | TradeRejected | TradeUnknown.
Record TradeReceipt := {
  tr_schema_version : Z;
  tr_token : string;
  tr_account : Account;
  tr_action : string;
  tr_status : TradeStatus;
  tr_submission_id : option string;
  tr_order : option Order;
  tr_error_code : option string;
}.

(** ** The state under the mutex *)

Record Binding := {
  bd_identity : PluginIdentity;
  bd_epoch : Z;
  bd_authority : AccountAuthority;
}.
#[export] Instance Binding_eq_dec : EqDecision Binding.
Proof. solve_decision. Defined.

Record Grant := {
  gr_binding : Binding;
  gr_revision : Z;
  gr_intent : Z;
  gr_capabilities : list string;
}.

(** [deadline] is a reading of the monotonic clock, in milliseconds. *)
Record Prepared := {
  p_request : AuthorityRequest;
  p_binding : Binding;
  p_revision : Z;
  p_intent : Z;
  p_deadline : Z;
  p_output : WorkflowOutput;
  p_target : option Order;
  p_submission_id : option string;
}.

Record WorkflowState := {
  serial : Z;
  grants : gmap string Grant;
  pending : gmap string Prepared;
}.
Definition initial_state : WorkflowState := {| serial := 0; grants := ∅; pending := ∅ |}.

Definition set_serial (n : Z) (s : WorkflowState) : WorkflowState :=
  {| serial := n; grants := grants s; pending := pending s |}.
Definition set_grants (g : gmap string Grant) (s : WorkflowState) : WorkflowState :=
  {| serial := serial s; grants := g; pending := pending s |}.
Definition set_pending (p : gmap string Prepared) (s : WorkflowState) : WorkflowState :=
  {| serial := serial s; grants := grants s; pending := p |}.
Definition with_intent (n : Z) (g : Grant) : Grant :=
  {| gr_binding := gr_binding g; gr_revision := gr_revision g; gr_intent := n;
     gr_capabilities := gr_capabilities g |}.

(** [BTreeMap::retain]. *)
Definition retain {V} (keep : V -> bool) (m : gmap string V) : gmap string V :=
  filter (fun kv => keep kv.2 = true) m.

Definition MAX_GRANTS : Z := 256.
Definition MAX_PENDING : Z := 32.

(** [WorkflowState::next]. *)
Definition next : M WorkflowState AppError Z := fun s =>
  match u64_checked_add (serial s) 1 with
  | Some n => (Ok n, set_serial n s)
  | None => (Err workflow_unavailable, s)
  end.

Definition current_pending (epoch now : Z) (p : Prepared) : bool :=
  (now <? p_deadline p) && (bd_epoch (p_binding p) =? epoch).
Definition current_grant (binding : Binding) (g : Grant) : bool :=
  (bd_epoch (gr_binding g) =? bd_epoch binding)
  && bool_decide (bd_authority (gr_binding g) = bd_authority binding).
Definition of_other (id : string) (p : Prepared) : bool := ar_plugin_id (p_request p) !=s id.

(** The two sweeps [WorkflowState::grant] begins with; the clock is read once. *)
Definition sweep (binding : Binding) (now : Z) (s : WorkflowState) : WorkflowState :=
  set_grants (retain (current_grant binding) (grants s))
    (set_pending (retain (current_pending (bd_epoch binding) now) (pending s)) s).

Definition new_grant (binding : Binding) (revision : Z) : Grant :=
  {| gr_binding := binding; gr_revision := revision; gr_intent := revision;
     gr_capabilities := [] |}.

(** [WorkflowState::grant], after the sweeps: no grant of this binding. *)
Definition create_grant (id : string) (binding : Binding) : M WorkflowState AppError Grant :=
  fun s =>
  let s := set_pending (retain (of_other id) (pending s)) s in
  if MAX_GRANTS <=? Z.of_nat (size (grants s)) then (Err workflow_capacity, s)
  else match next s with
       | (Ok revision, s) =>
           let g := new_grant binding revision in
           (Ok g, set_grants (<[id := g]> (grants s)) s)
       | (Err e, s) => (Err e, s)
       | (Halt h, s) => (Halt h, s)
       end.

Definition grant (id : string) (binding : Binding) (now : Z) : M WorkflowState AppError Grant :=
  fun s =>
  let s := sweep binding now s in
  match grants s !! id with
  | Some g => if bool_decide (gr_binding g = binding) then (Ok g, s)
              else create_grant id binding s
  | None => create_grant id binding s
  end.

Definition check_expected (g : Grant) (id epoch revision : string) : outcome AppError unit :=
  let? _ := counter epoch in
  let? _ := counter revision in
  let account := au_account (bd_authority (gr_binding g)) in
  guard ((account_id account !=s id) || (session_epoch account !=s epoch)
         || (u64_to_string (gr_revision g) !=s revision)) workflow_stale.

(** ** set_workflow_grants *)

(** The section of an accepted intent: what the plugin prepared is void. *)
Definition accept_intent (id : string) : M WorkflowState AppError Z := fun s =>
  match next s with
  | (Ok n, s) =>
      let s := set_grants (match grants s !! id with
                           | Some g => <[id := with_intent n g]> (grants s)
                           | None => grants s
                           end) s in
      (Ok n, set_pending (retain (of_other id) (pending s)) s)
  | (Err e, s) => (Err e, s)
  | (Halt h, s) => (Halt h, s)
  end.

Definition GrantRequest_validate (r : GrantRequest) : outcome AppError unit :=
  let? _ := AuthorityRequest_validate (grant_authority r) in
  let? _ := or_fail workflow_invalid_request (validate_capabilities (gq_capabilities r)) in
  let? _ := counter (gq_expected_session_epoch r) in
  let? _ := counter (gq_expected_grant_revision r) in
  Ok tt.

Definition access (request : AuthorityRequest) (requested : list string) (g : Grant) : Access :=
  {| ax_schema_version := 1; ax_plugin_id := ar_plugin_id request;
     ax_contribution_id := ar_contribution_id request;
     ax_catalog_generation := ar_expected_catalog_generation request;
     ax_revision := ar_expected_revision request;
     ax_account := au_account (bd_authority (gr_binding g));
     ax_requested_capabilities := requested; ax_granted_capabilities := gr_capabilities g;
     ax_grant_revision := u64_to_string (gr_revision g) |}.

(** The section of [set_workflow_grants_locked]. *)
Definition set_grant (r : GrantRequest) (requested : list string) (binding : Binding)
    (intent now : Z) : M WorkflowState AppError Grant :=
  let* g := grant (gq_plugin_id r) binding now in
  mlift (check_expected g (gq_expected_account_id r) (gq_expected_session_epoch r)
           (gq_expected_grant_revision r)) ;;;
  mlift (guard (existsb (fun v => negb (has requested v)) (gq_capabilities r)) workflow_denied) ;;;
  mlift (guard (negb (gr_intent g =? intent)) workflow_stale) ;;;
  let* revision := next in
  let g := {| gr_binding := gr_binding g; gr_revision := revision; gr_intent := gr_intent g;
              gr_capabilities := gq_capabilities r |} in
  fun s => (Ok g, set_grants (<[gq_plugin_id r := g]> (grants s)) s).

(** ** The binding of a call *)

Section Runtime.
Context `{SemverLib} `{Codec json} `{Base64Lib} `{Codec PluginManifest} `{Sha256Lib}.
Context `{UuidV4Lib} `{Codec OwnershipReceiptV1} `{Codec IndexWire} `{Codec StateWire}.
Context `{DecimalLib} `{Codec Snapshot} `{Codec WorkflowOutput}.

Definition workflow_epoch (attempted : bool) (epoch : Z) : outcome AppError Z :=
  if (epoch =? u64_max) || negb attempted then Err workflow_unavailable else Ok epoch.

Definition account_ok (a : AccountAuthority) : bool :=
  bounded_id (account_id (au_account a)) && negb (is_empty (au_private_session a))
  && negb (is_empty (environment (au_account a)))
  && (len (environment (au_account a)) <=? 256).

(** [binding_locked]: the catalog, then the epoch, then the account. *)
Definition binding_locked (r : PluginRegistry) (attempted : bool) (epoch : Z)
    (authority : outcome AppError AccountAuthority) (request : AuthorityRequest)
    : outcome AppError (CapturedWorkflow * Binding) :=
  let? captured := capture_workflow r request in
  let? epoch := workflow_epoch attempted epoch in
  let? authority := or_fail account_unavailable authority in
  let? _ := counter (session_epoch (au_account authority)) in
  let? _ := guard (negb (account_ok authority)) account_unavailable in
  Ok (captured, {| bd_identity := cw_identity captured; bd_epoch := epoch;
                   bd_authority := authority |}).

(** ** run_workflow *)

Definition RunRequest_validate (r : RunRequest) : outcome AppError unit :=
  let? _ := AuthorityRequest_validate (run_authority r) in
  let? _ := or_fail workflow_invalid_request (validate_request_id (rq_request_id r)) in
  let? _ := or_fail workflow_invalid_request (validate_input (rq_input_json r)) in
  symbol (rq_symbol r).

(** The section of the admission and the checks of the grant it returns. *)
Definition admit_run (r : RunRequest) (binding : Binding) (now : Z)
    : M WorkflowState AppError Grant :=
  let* g := grant (rq_plugin_id r) binding now in
  mlift (check_expected g (rq_expected_account_id r) (rq_expected_session_epoch r)
           (rq_expected_grant_revision r)) ;;;
  mlift (guard (negb (has (gr_capabilities g) "account.read")) workflow_denied) ;;;
  mret g.

(** What the guest is given. *)
Definition guest_context (sn : Snapshot) : outcome AppError string :=
  let? context := ok_or (workflow_error "plugin_workflow_invalid_output") (encode sn) in
  let? _ := guard (65536 <? len context) (workflow_error "plugin_workflow_data_unavailable") in
  Ok context.

(** The guest's answer, read and validated; [guest] is [sandbox::execute_json]
    on the module, the context and the input. *)
Definition run_guest (guest : string -> string -> string -> outcome AppError string)
    (captured : CapturedWorkflow) (r : RunRequest) (g : Grant) (sn : Snapshot)
    : outcome AppError WorkflowOutput :=
  let? context := guest_context sn in
  let? bytes := or_fail (workflow_error "plugin_workflow_invalid_module")
                  (module_bytes (cw_params captured)) in
  let? answer := or_fail (workflow_error "plugin_workflow_compute_failed")
                   (guest bytes context (rq_input_json r)) in
  let? output := ok_or (workflow_error "plugin_workflow_invalid_output") (decode answer) in
  validate_output output (rq_symbol r) (gr_capabilities g) (sn_orders sn).

(** The order a proposed cancellation is about, as the snapshot has it. *)
Definition target_of (output : WorkflowOutput) (sn : Snapshot) : option Order :=
  match output, sn_orders sn with
  | CancelOrder order, Some section =>
      List.find (fun o => o_order_id o ==s cp_order_id order) (items section)
  | _, _ => None
  end.

Definition TOKEN_MS : Z := 60000.

Definition is_display (output : WorkflowOutput) : bool :=
  match output with Display _ => true | _ => false end.
Definition is_place (output : WorkflowOutput) : bool :=
  match output with PlaceOrder _ => true | _ => false end.

Definition prepare (r : RunRequest) (binding : Binding) (g : Grant) (sn : Snapshot)
    (output : WorkflowOutput) (submission : string) (now : Z) : Prepared :=
  {| p_request := run_authority r; p_binding := binding; p_revision := gr_revision g;
     p_intent := gr_intent g; p_deadline := now + TOKEN_MS; p_output := output;
     p_target := target_of output sn;
     p_submission_id := if is_place output then Some submission else None |}.

(** The section after the guest answered.  [epoch] is [workflow_epoch], read
    under the mutex; [token] and [submission] are the fresh identifiers. *)
Definition settle_run (r : RunRequest) (binding current : Binding) (g : Grant) (sn : Snapshot)
    (output : WorkflowOutput) (cancelled : bool) (epoch : outcome AppError Z)
    (token submission : string) (now now_ms : Z)
    : M WorkflowState AppError (option Confirmation) :=
  let* latest := grant (rq_plugin_id r) current now in
  let changed := cancelled || bool_decide (binding <> current)
                 || negb (gr_revision g =? gr_revision latest)
                 || negb (gr_intent g =? gr_intent latest) in
  mlift (guard changed workflow_stale) ;;;
  let* epoch := mlift epoch in
  mlift (guard (negb (epoch =? bd_epoch binding)) workflow_stale) ;;;
  if is_display output then mret None
  else fun s =>
    if MAX_PENDING <=? Z.of_nat (size (pending s)) then (Err workflow_capacity, s)
    else let p := prepare r binding g sn output submission now in
         (Ok (Some {| cf_token := token;
                      cf_expires_at_ms := u64_to_string (u64_saturating_add now_ms TOKEN_MS);
                      cf_submission_id := p_submission_id p |}),
          set_pending (<[token := p]> (pending s)) s).

(** [WorkflowResult] *)
Definition run_result (r : RunRequest) (binding : Binding) (g : Grant) (sn : Snapshot)
    (output : WorkflowOutput) (confirmation : option Confirmation) : WorkflowResult :=
  {| wr_schema_version := 1; wr_request_id := rq_request_id r; wr_plugin_id := rq_plugin_id r;
     wr_contribution_id := rq_contribution_id r;
     wr_catalog_generation := rq_expected_catalog_generation r;
     wr_revision := rq_expected_revision r; wr_account := au_account (bd_authority binding);
     wr_grant_revision := u64_to_string (gr_revision g); wr_snapshot := sn; wr_output := output;
     wr_confirmation := confirmation |}.

(** ** confirm_workflow *)

(** A token is taken once, whatever becomes of its confirmation. *)
Definition take_token (token : string) : M WorkflowState AppError Prepared := fun s =>
  match pending s !! token with
  | Some p => (Ok p, set_pending (delete token (pending s)) s)
  | None => (Err token_invalid, s)
  end.

(** The section of the confirmation. *)
Definition confirm_grant (p : Prepared) (current : Binding) (now : Z)
    : M WorkflowState AppError Grant := grant (ar_plugin_id (p_request p)) current now.

Inductive HostCall :=
| HostPlace (context : SubmissionContext) (request : PlaceOrderRequest)
| HostCancel (context : SessionContext) (request : CancelOrderRequest).

Definition confirm_fresh (p : Prepared) (current : Binding) (g : Grant)
    (epoch : outcome AppError Z) (now : Z) : outcome AppError unit :=
  let? _ := guard ((p_deadline p <=? now) || bool_decide (current <> p_binding p)
                   || negb (gr_revision g =? p_revision p) || negb (gr_intent g =? p_intent p))
              workflow_stale in
  let? epoch := epoch in
  guard (negb (epoch =? bd_epoch (p_binding p))) workflow_stale.

Definition placed (submission : string) (order : PlaceProposal) : PlaceOrderRequest :=
  {| r_symbol := pp_symbol order; r_side := pp_side order; r_order_type := pp_order_type order;
     r_qty := pp_qty order; r_position_idx := pp_position_idx order; r_price := pp_price order;
     r_time_in_force := Some (pp_time_in_force order); r_order_link_id := Some submission;
     r_reduce_only := Some (pp_reduce_only order); r_protection := None |}.

(** The call the proposal becomes, checked again against the grant. *)
Definition confirm_call (p : Prepared) (current : Binding) (g : Grant)
    : outcome AppError HostCall :=
  let account := au_account (bd_authority current) in
  let? epoch := counter (session_epoch account) in
  match p_output p with
  | PlaceOrder order =>
      let? _ := validate_output (p_output p) (pp_symbol order) (gr_capabilities g) None in
      let? submission := ok_or workflow_stale (p_submission_id p) in
      Ok (HostPlace {| sc_submission_id := submission; sc_account_id := account_id account;
                       sc_session_epoch := epoch |} (placed submission order))
  | CancelOrder order =>
      let? target := ok_or workflow_stale (p_target p) in
      let section := {| items := [target]; fetched_at_ms := "0"; partial := true |} in
      let? _ := validate_output (p_output p) (cp_symbol order) (gr_capabilities g)
                  (Some section) in
      Ok (HostCancel {| ses_account_id := account_id account; ses_session_epoch := epoch |}
            {| c_symbol := cp_symbol order; c_order_id := Some (cp_order_id order);
               c_order_link_id := None |})
  | Display _ => Err token_invalid
  end.

Definition decide_call (p : Prepared) (current : Binding) (g : Grant)
    (epoch : outcome AppError Z) (now : Z) : outcome AppError HostCall :=
  let? _ := confirm_fresh p current g epoch now in
  confirm_call p current g.

Definition known_rejection (failure : AppError) : bool :=
  is_certain_submission_failure failure
  || match failure with
     | OrderSubmissionRejected _ | OrderSubmissionBlocked _ | Risk _ => true
     | Notified code _ _ _ => one_of code ["RISK_ORDER_BLOCKED"; "ORDER_REJECTED"]
     | _ => false
     end.

Definition receipt (token : string) (account : Account) (action : string) (status : TradeStatus)
    (submission : option string) (order : option Order) (code : option string) : TradeReceipt :=
  {| tr_schema_version := 1; tr_token := token; tr_account := account; tr_action := action;
     tr_status := status; tr_submission_id := submission; tr_order := order;
     tr_error_code := code |}.

Definition action_of (output : WorkflowOutput) : string :=
  match output with PlaceOrder _ => "placeOrder" | _ => "cancelOrder" end.
Definition symbol_of (output : WorkflowOutput) : string :=
  match output with
  | PlaceOrder order => pp_symbol order
  | CancelOrder order => cp_symbol order
  | Display _ => ""
  end.

(** A cancelled order is reported as it was captured, its status unknown. *)
Definition with_unknown_status (o : Order) : Order :=
  {| o_order_id := o_order_id o; o_symbol := o_symbol o; o_side := o_side o;
     o_order_type := o_order_type o; o_price := o_price o; o_qty := o_qty o;
     o_status := Unknown; o_order_link_id := o_order_link_id o; o_filled_qty := o_filled_qty o;
     o_avg_price := o_avg_price o |}.

(** What the answer of the exchange is reported as. *)
Definition settle_answer (p : Prepared) (answer : AppError + Order)
    : TradeStatus * option Order * option string :=
  let unknown := (TradeUnknown, None, Some "plugin_workflow_unknown") in
  match answer with
  | inr order =>
      if negb (bounded_id (o_order_id order)) then unknown
      else match p_target p with
           | Some target =>
               if o_order_id order !=s o_order_id target then unknown
               else let order := with_unknown_status target in
                    if is_ok (validate_order order (symbol_of (p_output p)))
                    then (TradeAccepted, Some order, None) else unknown
           | None =>
               if is_ok (validate_order order (symbol_of (p_output p)))
               then (TradeAccepted, Some order, None) else unknown
           end
  | inl failure =>
      if known_rejection failure then (TradeRejected, None, Some "plugin_workflow_rejected")
      else unknown
  end.

Definition confirm_receipt (token : string) (p : Prepared) (current : Binding)
    (answer : AppError + Order) : TradeReceipt :=
  let '(status, order, code) := settle_answer p answer in
  receipt token (au_account (bd_authority current)) (action_of (p_output p)) status
    (p_submission_id p) order code.
End Runtime.
