(* ===== verification/WorkflowSafety.v ===== *)
(** The calls of account workflows interleaved: tasks that advance section by
    section over the shared state, the trace of what happened to grants and
    tokens, and what that trace shows of every confirmed order. *)
From Stdlib Require Import Ascii.
From stdpp Require Import gmap strings.
From S2P Require Import Prelude RustStr External Models OrderSubmission BTreeMap Workflow StrategyTypes SafeDocument Supervisor PluginManifest PluginCatalog PluginPackages PluginState PluginOwnership PluginRegistry PluginRegistryFacts PluginReconcileFacts PluginCompute WorkflowRuntime.

(** ** What the calls share *)

Record Shared := {
  sh_workflow : WorkflowState;
  sh_slot : ComputeSlot;
  sh_epoch : Z;
  sh_attempted : bool;
}.
Definition on_workflow (f : WorkflowState) (s : Shared) : Shared :=
  {| sh_workflow := f; sh_slot := sh_slot s; sh_epoch := sh_epoch s;
     sh_attempted := sh_attempted s |}.
Definition on_slot (f : ComputeSlot -> ComputeSlot) (s : Shared) : Shared :=
  {| sh_workflow := sh_workflow s; sh_slot := f (sh_slot s); sh_epoch := sh_epoch s;
     sh_attempted := sh_attempted s |}.
Definition initial_shared : Shared :=
  {| sh_workflow := initial_state; sh_slot := empty_slot; sh_epoch := 0;
     sh_attempted := false |}.

(** ** What is recorded of a run *)

Inductive Event :=
(* a new choice of grants was accepted, with its number *)
| EAccepted (plugin : string) (intent : Z)
(* a grant appeared or was changed *)
| ECreated (plugin : string) (g : Grant)
| EGranted (plugin : string) (g : Grant)
(* a run was admitted under a grant *)
| EAdmitted (plugin : string) (g : Grant)
| EPrepared (token : string) (p : Prepared)
| ETaken (token : string)
(* a taken token was bound again, and the grant found for it *)
| EBound (token : string) (p : Prepared) (current : Binding) (g : Grant)
(* the call was handed to the exchange *)
| EHanded (token : string) (p : Prepared) (call : HostCall) (now : Z)
| EEpoch.

Section Steps.
Context `{SemverLib} `{Codec json} `{Base64Lib} `{Codec PluginManifest} `{Sha256Lib}.
Context `{UuidV4Lib} `{Codec OwnershipReceiptV1} `{Codec IndexWire} `{Codec StateWire}.
Context `{DecimalLib} `{Codec Snapshot} `{Codec WorkflowOutput} `{UuidLib}.
Context {X : Type} `{WorkflowHost X}.

(** ** Tasks: where a call stands between two sections *)

Inductive Task :=
(* set_workflow_grants: its intent accepted; bound *)
| Setting (r : GrantRequest) (intent : Z)
| SettingBound (r : GrantRequest) (intent : Z) (captured : CapturedWorkflow) (b : Binding)
(* get_workflow_access: bound *)
| ReadingBound (r : AuthorityRequest) (captured : CapturedWorkflow) (b : Binding)
(* run_workflow: bound; admitted; the slot acquired; the guest answered; bound again *)
| Starting (r : RunRequest) (captured : CapturedWorkflow) (b : Binding)
| Entered (r : RunRequest) (captured : CapturedWorkflow) (b : Binding) (g : Grant)
| Running (r : RunRequest) (captured : CapturedWorkflow) (b : Binding) (g : Grant) (flag : nat)
| Answered (r : RunRequest) (b : Binding) (g : Grant) (flag : nat) (sn : Snapshot)
    (output : WorkflowOutput)
| Settling (r : RunRequest) (b : Binding) (g : Grant) (flag : nat) (sn : Snapshot)
    (output : WorkflowOutput) (current : Binding)
(* confirm_workflow: its token taken; bound; the grant found *)
| Confirming (token : string) (p : Prepared)
| ConfirmingBound (token : string) (p : Prepared) (current : Binding)
| Deciding (token : string) (p : Prepared) (current : Binding) (g : Grant)
(* a computation of another kind, or the worker of an abandoned run *)
| Holding (flag : nat).

(** What the environment supplies to one advance. *)
Record Input := {
  in_registry : PluginRegistry;
  in_authority : outcome AppError AccountAuthority;
  in_now : Z;
  in_now_ms : Z;
  in_host : X;
  in_guest : string -> string -> string -> outcome AppError string;
  in_token : string;
  in_submission : string;
}.

Definition bind_call (i : Input) (s : Shared) (r : AuthorityRequest)
    : option (CapturedWorkflow * Binding) :=
  ok_of (binding_locked (in_registry i) (sh_attempted s) (sh_epoch s) (in_authority i) r).

Definition epoch_now (s : Shared) : outcome AppError Z :=
  workflow_epoch (sh_attempted s) (sh_epoch s).

(** A section, with the event of a grant it created: only [next] moves the
    serial number. *)
Definition created (before after : WorkflowState) (id : string) : list Event :=
  if serial before =? serial after then []
  else match grants after !! id with Some g => [ECreated id g] | None => [] end.

Definition Advance : Type := option Task * Shared * list Event.

Definition advance_setting (i : Input) (s : Shared) (r : GrantRequest) (intent : Z)
    (captured : CapturedWorkflow) (b : Binding) : Advance :=
  let before := sh_workflow s in
  let found := (grant (gq_plugin_id r) b (in_now i) before).2 in
  let '(o, after) := set_grant r (cw_requested captured) b intent (in_now i) before in
  (None, on_workflow after s,
   (match o with Ok g => [EGranted (gq_plugin_id r) g] | _ => [] end
    ++ created before found (gq_plugin_id r))%list).

Definition advance_admission (i : Input) (s : Shared) (r : RunRequest)
    (captured : CapturedWorkflow) (b : Binding) : Advance :=
  let before := sh_workflow s in
  let '(o, after) := admit_run r b (in_now i) before in
  (match o with Ok g => Some (Entered r captured b g) | _ => None end,
   on_workflow after s,
   (match o with Ok g => [EAdmitted (rq_plugin_id r) g] | _ => [] end
    ++ created before after (rq_plugin_id r))%list).

(** The snapshot under the account lock, then the guest; a failure raises the
    flag and frees the slot, an answer frees the slot alone. *)
Definition advance_running (i : Input) (s : Shared) (r : RunRequest)
    (captured : CapturedWorkflow) (b : Binding) (g : Grant) (flag : nat) : Advance :=
  let failed := (None, on_slot (abandon flag) s, []) in
  match (snapshot_locked (bd_authority b) (rq_symbol r) (gr_capabilities g) (in_host i)).1 with
  | Ok sn =>
      match run_guest (in_guest i) captured r g sn with
      | Ok output => (Some (Answered r b g flag sn output), on_slot (drop_lease flag) s, [])
      | _ => failed
      end
  | _ => failed
  end.

(** The run's guard raises its flag when the call returns. *)
Definition advance_settling (i : Input) (s : Shared) (r : RunRequest) (b : Binding) (g : Grant)
    (flag : nat) (sn : Snapshot) (output : WorkflowOutput) (current : Binding) : Advance :=
  let before := sh_workflow s in
  let found := (grant (rq_plugin_id r) current (in_now i) before).2 in
  let '(o, after) :=
    settle_run r b current g sn output (is_raised (sh_slot s) flag) (epoch_now s)
      (in_token i) (in_submission i) (in_now i) (in_now_ms i) before in
  (None, on_slot (raise flag) (on_workflow after s),
   (match o with
    | Ok (Some c) => match pending after !! cf_token c with
                     | Some p => [EPrepared (cf_token c) p]
                     | None => []
                     end
    | _ => []
    end ++ created before found (rq_plugin_id r))%list).

Definition advance_confirming (i : Input) (s : Shared) (token : string) (p : Prepared)
    (current : Binding) : Advance :=
  let id := ar_plugin_id (p_request p) in
  let before := sh_workflow s in
  let '(o, after) := confirm_grant p current (in_now i) before in
  (match o with Ok g => Some (Deciding token p current g) | _ => None end,
   on_workflow after s,
   (match o with Ok g => [EBound token p current g] | _ => [] end
    ++ created before after id)%list).

Definition advance (i : Input) (s : Shared) (t : Task) : Advance :=
  match t with
  | Setting r intent =>
      (match bind_call i s (grant_authority r) with
       | Some (captured, b) => Some (SettingBound r intent captured b)
       | None => None
       end, s, [])
  | SettingBound r intent captured b => advance_setting i s r intent captured b
  | ReadingBound r captured b =>
      let before := sh_workflow s in
      let '(_, after) := grant (ar_plugin_id r) b (in_now i) before in
      (None, on_workflow after s, created before after (ar_plugin_id r))
  | Starting r captured b => advance_admission i s r captured b
  | Entered r captured b g =>
      match acquire (rq_request_id r) (sh_slot s) with
      | (Ok flag, slot) => (Some (Running r captured b g flag), on_slot (fun _ => slot) s, [])
      | _ => (None, s, [])
      end
  | Running r captured b g flag => advance_running i s r captured b g flag
  | Answered r b g flag sn output =>
      match bind_call i s (run_authority r) with
      | Some (_, current) => (Some (Settling r b g flag sn output current), s, [])
      | None => (None, on_slot (raise flag) s, [])
      end
  | Settling r b g flag sn output current => advance_settling i s r b g flag sn output current
  | Confirming token p =>
      (match bind_call i s (p_request p) with
       | Some (_, current) => Some (ConfirmingBound token p current)
       | None => None
       end, s, [])
  | ConfirmingBound token p current => advance_confirming i s token p current
  | Deciding token p current g =>
      (None, s,
       match decide_call p current g (epoch_now s) (in_now i) with
       | Ok call => [EHanded token p call (in_now i)]
       | _ => []
       end)
  | Holding flag => (None, on_slot (drop_lease flag) s, [])
  end.

(** ** Calls that begin *)

Inductive Call :=
| CallAccess (r : AuthorityRequest)
| CallGrants (r : GrantRequest)
| CallRun (r : RunRequest)
| CallConfirm (token : string).

Definition begin_grants (s : Shared) (r : GrantRequest) : Advance :=
  if is_ok (GrantRequest_validate r) then
    match accept_intent (gq_plugin_id r) (sh_workflow s) with
    | (Ok n, after) => (Some (Setting r n), on_workflow after s, [EAccepted (gq_plugin_id r) n])
    | (_, after) => (None, on_workflow after s, [])
    end
  else (None, s, []).

Definition begin_confirm (s : Shared) (token : string) : Advance :=
  if uuid_ok token then
    match take_token token (sh_workflow s) with
    | (Ok p, after) => (Some (Confirming token p), on_workflow after s, [ETaken token])
    | (_, after) => (None, on_workflow after s, [])
    end
  else (None, s, []).

Definition begin_call (i : Input) (s : Shared) (c : Call) : Advance :=
  match c with
  | CallAccess r =>
      (if is_ok (AuthorityRequest_validate r) then
         match bind_call i s r with
         | Some (captured, b) => Some (ReadingBound r captured b)
         | None => None
         end
       else None, s, [])
  | CallGrants r => begin_grants s r
  | CallRun r =>
      (if is_ok (RunRequest_validate r) then
         match bind_call i s (run_authority r) with
         | Some (captured, b) => Some (Starting r captured b)
         | None => None
         end
       else None, s, [])
  | CallConfirm token => begin_confirm s token
  end.

(** A call whose future is dropped where it waits; grants and confirmations
    run in tasks of their own and are not. *)
Definition dropped (t : Task) (s : Shared) : option (option Task * Shared) :=
  match t with
  | ReadingBound _ _ _ | Starting _ _ _ | Entered _ _ _ _ => Some (None, s)
  | Running _ _ _ _ flag => Some (Some (Holding flag), on_slot (raise flag) s)
  | Answered _ _ _ flag _ _ | Settling _ _ _ flag _ _ _ => Some (None, on_slot (raise flag) s)
  | _ => None
  end.

(** ** The interleaving *)

Record System := { sy_shared : Shared; sy_tasks : list Task }.
Definition initial_system : System := {| sy_shared := initial_shared; sy_tasks := [] |}.

Definition opt_list {A} (x : option A) : list A := match x with Some a => [a] | None => [] end.

(** [reserve_operation]: the epoch is advanced, then the slot invalidated. *)
Definition bump_epoch (s : Shared) : Shared :=
  {| sh_workflow := sh_workflow s; sh_slot := sh_slot s;
     sh_epoch := u64_saturating_add (sh_epoch s) 1; sh_attempted := sh_attempted s |}.
Definition discovered (s : Shared) : Shared :=
  {| sh_workflow := sh_workflow s; sh_slot := sh_slot s; sh_epoch := sh_epoch s;
     sh_attempted := true |}.

(** Steps of other parts on what is shared. *)
Inductive outside : Shared -> list Event -> Shared -> Prop :=
| outside_epoch s : outside s [EEpoch] (bump_epoch s)
| outside_invalidate s : outside s [] (on_slot invalidate s)
| outside_cancel s id : outside s [] (on_slot (fun x => (cancel id x).2) s)
| outside_discovered s : outside s [] (discovered s).

Inductive step : System -> list Event -> System -> Prop :=
| step_begin i c s ts t s' es :
    begin_call i s c = (t, s', es) ->
    step {| sy_shared := s; sy_tasks := ts |} es
         {| sy_shared := s'; sy_tasks := (opt_list t ++ ts)%list |}
| step_advance i s ts1 t ts2 t' s' es :
    advance i s t = (t', s', es) ->
    step {| sy_shared := s; sy_tasks := (ts1 ++ t :: ts2)%list |} es
         {| sy_shared := s'; sy_tasks := (ts1 ++ opt_list t' ++ ts2)%list |}
| step_drop s ts1 t ts2 t' s' :
    dropped t s = Some (t', s') ->
    step {| sy_shared := s; sy_tasks := (ts1 ++ t :: ts2)%list |} []
         {| sy_shared := s'; sy_tasks := (ts1 ++ opt_list t' ++ ts2)%list |}
| step_compute s id flag slot ts :
    acquire id (sh_slot s) = (Ok flag, slot) ->
    step {| sy_shared := s; sy_tasks := ts |} []
         {| sy_shared := on_slot (fun _ => slot) s; sy_tasks := Holding flag :: ts |}
| step_outside s es s' ts :
    outside s es s' ->
    step {| sy_shared := s; sy_tasks := ts |} es {| sy_shared := s'; sy_tasks := ts |}.

(** The trace has the latest event first. *)
Inductive execution : list Event -> System -> Prop :=
| execution_start : execution [] initial_system
| execution_step tr y es y' :
    execution tr y -> step y es y' -> execution (es ++ tr)%list y'.
End Steps.

(** ** What a trace tells *)

Definition touches (id : string) (e : Event) : bool :=
  match e with
  | EAccepted plugin _ | ECreated plugin _ | EGranted plugin _ => bool_decide (plugin = id)
  | _ => false
  end.
Definition is_epoch (e : Event) : bool := match e with EEpoch => true | _ => false end.

(** Nothing happened to the grants of [id], the plugins were not reloaded. *)
Definition undisturbed (id : string) (tr : list Event) : Prop :=
  Forall (fun e => touches id e = false) tr.
Definition same_epoch (tr : list Event) : Prop := Forall (fun e => is_epoch e = false) tr.

(** The grant of a plugin as the events left it. *)
Fixpoint last_grant (tr : list Event) (id : string) : option Grant :=
  match tr with
  | [] => None
  | EAccepted plugin n :: tr =>
      if bool_decide (plugin = id) then with_intent n <$> last_grant tr id else last_grant tr id
  | ECreated plugin g :: tr | EGranted plugin g :: tr =>
      if bool_decide (plugin = id) then Some g else last_grant tr id
  | _ :: tr => last_grant tr id
  end.

(** The serial number the events used last, and the epoch they count. *)
Fixpoint serial_of (tr : list Event) : Z :=
  match tr with
  | [] => 0
  | EAccepted _ n :: _ => n
  | ECreated _ g :: _ | EGranted _ g :: _ => gr_revision g
  | _ :: tr => serial_of tr
  end.
Fixpoint epoch_of (tr : list Event) : Z :=
  match tr with
  | [] => 0
  | EEpoch :: tr => u64_saturating_add (epoch_of tr) 1
  | _ :: tr => epoch_of tr
  end.

(** Capabilities come from a choice of the user. *)
Definition chosen (tr : list Event) (id : string) (g : Grant) : Prop :=
  gr_capabilities g = [] \/
  exists g1, EGranted id g1 ∈ tr /\ EAccepted id (gr_intent g1) ∈ tr /\
             gr_revision g1 = gr_revision g /\ gr_binding g1 = gr_binding g /\
             gr_capabilities g1 = gr_capabilities g.

(** Every number is the next one, and a change keeps the binding and the
    intent of the grant it changes. *)
Definition numbered_event (e : Event) (tr : list Event) : Prop :=
  match e with
  | EAccepted _ n => n = serial_of tr + 1
  | ECreated _ g =>
      gr_revision g = serial_of tr + 1 /\ gr_intent g = gr_revision g /\ gr_capabilities g = []
  | EGranted id g =>
      gr_revision g = serial_of tr + 1 /\ EAccepted id (gr_intent g) ∈ tr /\
      exists g0, last_grant tr id = Some g0 /\ gr_binding g0 = gr_binding g /\
                 gr_intent g0 = gr_intent g
  | _ => True
  end.
Fixpoint numbered (tr : list Event) : Prop :=
  match tr with [] => True | e :: tr => numbered_event e tr /\ numbered tr end.

Lemma serial_nonneg tr : numbered tr -> 0 <= serial_of tr.
Proof.
  induction tr as [|e tr IH]; simpl; [lia|]. intros [He Hn]. specialize (IH Hn).
  destruct e; simpl in *; try done; destruct_and?; lia.
Qed.

Lemma serial_app mid tr : numbered (mid ++ tr)%list -> serial_of tr <= serial_of (mid ++ tr)%list.
Proof.
  induction mid as [|e mid IH]; simpl; [lia|]. intros [He Hn]. specialize (IH Hn).
  destruct e; simpl in *; try done; destruct_and?; lia.
Qed.

Lemma last_grant_bounds tr id g :
  numbered tr -> last_grant tr id = Some g ->
  gr_revision g <= serial_of tr /\ gr_intent g <= serial_of tr.
Proof.
  revert g. induction tr as [|e tr IH]; simpl; [done|]. intros g [He Hn] Hl.
  destruct e; simpl in *; try (by apply IH);
    (case_bool_decide;
     [|destruct (IH _ Hn Hl); destruct_and?; lia]).
  - apply fmap_Some in Hl as (g0 & Hl & ->). destruct (IH _ Hn Hl). simpl. lia.
  - simplify_eq. lia.
  - simplify_eq. destruct He as (? & _ & g0 & Hl & _ & Hi). destruct (IH _ Hn Hl). lia.
Qed.

(** A grant's two numbers tell whether anything happened to it. *)
Lemma last_grant_moves mid tr id g0 g :
  numbered (mid ++ tr)%list -> last_grant tr id = Some g0 ->
  last_grant (mid ++ tr)%list id = Some g ->
  gr_revision g0 <= gr_revision g /\ gr_intent g0 <= gr_intent g /\
  (gr_revision g = gr_revision g0 -> gr_intent g = gr_intent g0 -> g = g0 /\ undisturbed id mid).
Proof.
  intros Hn H0. revert g. induction mid as [|e mid IH]; simpl.
  { intros g Hg. simplify_eq. split_and!; try lia. intros; split; [done|constructor]. }
  intros g Hg. destruct Hn as [He Hn]. pose proof (serial_app _ _ Hn) as Hs.
  assert (exists g1, last_grant (mid ++ tr)%list id = Some g1) as [g1 Hg1].
  { clear -H0. induction mid as [|e mid IH]; simpl; [eauto|]. destruct IH as [g1 Hg1].
    destruct e; try (by eauto); case_bool_decide; eauto. rewrite Hg1. simpl. eauto. }
  specialize (IH Hn _ Hg1) as (Hr & Hi & Hq).
  pose proof (last_grant_bounds _ _ _ Hn Hg1) as [Hb1 Hb2].
  destruct e; simpl in *; try (by (assert (g = g1) as -> by congruence; split_and!; try lia;
    intros E1 E2; destruct (Hq E1 E2); split; [done|by constructor]));
    (case_bool_decide as Eid;
     [|assert (g = g1) as -> by congruence; split_and!; try lia; intros E1 E2;
       destruct (Hq E1 E2); split; [done|]; constructor; [by apply bool_decide_eq_false|done]]).
  - rewrite Hg1 in Hg. simpl in Hg. injection Hg as <-. simpl. split_and!; lia.
  - simplify_eq. destruct_and?. split_and!; lia.
  - simplify_eq. destruct He as (? & _ & g2 & Hl & _ & Hi2).
    assert (g2 = g1) as -> by congruence. split_and!; lia.
Qed.

Lemma last_grant_chosen tr id g :
  numbered tr -> last_grant tr id = Some g -> chosen tr id g.
Proof.
  revert g. induction tr as [|e tr IH]; simpl; [done|]. intros g [He Hn] Hl.
  assert (forall g0, chosen tr id g0 -> chosen (e :: tr) id g0) as Hup.
  { intros g0 [?|(g1 & ? & ? & ?)]; [by left|right]. exists g1. rewrite !elem_of_cons. auto. }
  destruct e; simpl in *; try (by apply Hup, IH);
    (case_bool_decide; [|by apply Hup, IH]).
  - apply fmap_Some in Hl as (g0 & Hl & ->).
    destruct (Hup _ (IH _ Hn Hl)) as [?|?]; [by left|by right].
  - simplify_eq. left. by destruct He as (_ & _ & ?).
  - simplify_eq. destruct He as (_ & Ha & _). right. exists g.
    rewrite !elem_of_cons. auto.
Qed.

Lemma epoch_of_range tr : 0 <= epoch_of tr <= u64_max.
Proof.
  induction tr as [|e tr IH]; simpl; [unfold u64_max; lia|].
  destruct e; try done. unfold u64_saturating_add. lia.
Qed.
Lemma epoch_of_mono mid tr : epoch_of tr <= epoch_of (mid ++ tr)%list.
Proof.
  induction mid as [|e mid IH]; simpl; [lia|]. pose proof (epoch_of_range (mid ++ tr)%list).
  destruct e; try done. unfold u64_saturating_add. lia.
Qed.
(** Below its maximum the epoch tells whether the plugins were reloaded. *)
Lemma epoch_of_same mid tr :
  epoch_of (mid ++ tr)%list = epoch_of tr -> epoch_of tr < u64_max -> same_epoch mid.
Proof.
  induction mid as [|e mid IH]; simpl; intros He Hm; [constructor|].
  pose proof (epoch_of_mono mid tr). pose proof (epoch_of_range (mid ++ tr)%list).
  destruct e; try (constructor; [done|by apply IH]).
  unfold u64_saturating_add in He. lia.
Qed.

(** ** The sections and the trace *)

(** The state agrees with the trace. *)
Definition tracked (ws : WorkflowState) (tr : list Event) : Prop :=
  serial ws = serial_of tr /\
  (forall id g, grants ws !! id = Some g -> last_grant tr id = Some g).

Lemma retain_lookup {V} (keep : V -> bool) (m : gmap string V) k v :
  retain keep m !! k = Some v <-> m !! k = Some v /\ keep v = true.
Proof. unfold retain. by rewrite map_lookup_filter_Some. Qed.

Lemma next_ok ws o ws' :
  next ws = (o, ws') ->
  (exists n, o = Ok n /\ n = serial ws + 1 /\ ws' = set_serial n ws) \/
  (o = Err workflow_unavailable /\ ws' = ws).
Proof. unfold next, u64_checked_add. case_match; intros; case_match; simplify_eq; eauto. Qed.

Lemma sweep_tracked binding now ws tr : tracked ws tr -> tracked (sweep binding now ws) tr.
Proof. intros [Hs Hg]. split; [done|]. simpl. intros id g [? _]%retain_lookup. auto. Qed.

(** What [grant] does: the state it leaves agrees with the trace and the event
    of a creation, and the grant it answers is the last. *)
Record grant_effect (id : string) (b : Binding) (ws : WorkflowState) (o : outcome AppError Grant)
    (ws' : WorkflowState) (tr : list Event) : Prop := {
  ge_tracked : tracked ws' (created ws ws' id ++ tr)%list;
  ge_numbered : numbered (created ws ws' id ++ tr)%list;
  ge_last g : o = Ok g ->
    last_grant (created ws ws' id ++ tr)%list id = Some g /\ gr_binding g = b /\
    grants ws' !! id = Some g;
  ge_pending token p : pending ws' !! token = Some p -> pending ws !! token = Some p;
  ge_same_epoch : same_epoch (created ws ws' id);
}.

Lemma created_same ws ws' id : serial ws = serial ws' -> created ws ws' id = [].
Proof. unfold created. intros ->. by rewrite Z.eqb_refl. Qed.

Lemma grant_effects id b now ws tr o ws' :
  tracked ws tr -> numbered tr -> grant id b now ws = (o, ws') -> grant_effect id b ws o ws' tr.
Proof.
  intros Ht Hn Hg. pose proof (sweep_tracked b now _ _ Ht) as [Hs Hl].
  set (ws1 := sweep b now ws) in *.
  assert (Hpend : forall token p, pending ws1 !! token = Some p -> pending ws !! token = Some p).
  { intros token p. simpl. by intros [? _]%retain_lookup. }
  assert (Hsame : (exists e, o = Err e) -> serial ws' = serial ws1 -> grants ws' = grants ws1 ->
    (forall token p, pending ws' !! token = Some p -> pending ws1 !! token = Some p) ->
    grant_effect id b ws o ws' tr).
  { intros [e ->] Es Eg Hp. assert (created ws ws' id = []) as Ec by (apply created_same; by rewrite Es).
    split; rewrite ?Ec; simpl; [split; [by rewrite Es|by rewrite Eg]|done|done|eauto|constructor]. }
  assert (Hcreate : create_grant id b ws1 = (o, ws') -> grant_effect id b ws o ws' tr).
  { unfold create_grant. set (ws2 := set_pending _ ws1).
    assert (forall token p, pending ws2 !! token = Some p -> pending ws1 !! token = Some p) as Hp2
      by (intros token p [? _]%retain_lookup; done).
    case_match; [intros; simplify_eq; apply Hsame; by eauto|].
    destruct (next ws2) as [o2 ws3] eqn:En.
    apply next_ok in En as [(n & -> & -> & ->)|[-> ->]].
    - intros. simplify_eq. simpl in Hs.
      match goal with |- grant_effect _ _ _ _ ?w _ => set (ws3 := w) in * end.
      assert (created ws ws3 id = [ECreated id (new_grant b (serial ws2 + 1))]) as Ec.
      { unfold created. simpl. rewrite lookup_insert_eq.
        destruct (Z.eqb_spec (serial ws) (serial ws + 1)); [lia|done]. }
      split; rewrite ?Ec; simpl.
      + split; [done|]. simpl. intros id' g. rewrite lookup_insert_Some.
        intros [[<- <-]|[Hne Hg']]; [by rewrite bool_decide_true|].
        rewrite bool_decide_false by done. by apply Hl.
      + by rewrite Hs.
      + intros g [= <-]. rewrite bool_decide_true by done. by rewrite lookup_insert_eq.
      + eauto.
      + by repeat constructor.
    - intros. simplify_eq. apply Hsame; eauto. }
  unfold grant in Hg. fold ws1 in Hg. destruct (grants ws1 !! id) as [g|] eqn:Eg; [|auto].
  case_bool_decide as Eb; [|auto]. injection Hg as <- <-.
  assert (created ws ws1 id = []) as Ec by (by apply created_same).
  split; rewrite ?Ec; simpl; [done|done| |done|constructor].
  intros g' [= <-]. eauto.
Qed.

(** ** What is known of tasks and tokens *)

(** A run was admitted under [g], with the plugins as they were loaded. *)
Definition admitted (tr : list Event) (id : string) (g : Grant) : Prop :=
  exists mid tr0, tr = (mid ++ EAdmitted id g :: tr0)%list /\ last_grant tr0 id = Some g /\
    bd_epoch (gr_binding g) <= epoch_of tr0 /\ bd_epoch (gr_binding g) < u64_max.

Definition plugin_of (p : Prepared) : string := ar_plugin_id (p_request p).

(** A token was prepared by an admitted run under its grant [g]. *)
Definition prepared_by (tr : list Event) (token : string) (p : Prepared) (g : Grant)
    (mid2 mid1 tr0 : list Event) : Prop :=
  tr = (mid2 ++ EPrepared token p :: mid1 ++ EAdmitted (plugin_of p) g :: tr0)%list /\
  last_grant tr0 (plugin_of p) = Some g /\ gr_binding g = p_binding p /\
  gr_revision g = p_revision p /\ gr_intent g = p_intent p /\
  undisturbed (plugin_of p) mid1 /\
  last_grant (mid1 ++ EAdmitted (plugin_of p) g :: tr0)%list (plugin_of p) = Some g /\
  bd_epoch (p_binding p) <= epoch_of tr0 /\ bd_epoch (p_binding p) < u64_max.
Definition prepared_under (tr : list Event) (token : string) (p : Prepared) : Prop :=
  exists g mid2 mid1 tr0, prepared_by tr token p g mid2 mid1 tr0.

(** The confirmation of a token found [g] for its plugin. *)
Definition bound_under (tr : list Event) (token : string) (p : Prepared) (current : Binding)
    (g : Grant) : Prop :=
  exists mid tr1, tr = (mid ++ EBound token p current g :: tr1)%list /\
    prepared_under tr1 token p /\ last_grant tr1 (plugin_of p) = Some g /\
    gr_binding g = current.

Definition task_ok (tr : list Event) (t : Task) : Prop :=
  match t with
  | Setting r n | SettingBound r n _ _ => EAccepted (gq_plugin_id r) n ∈ tr
  | Starting _ _ b => bd_epoch b <= epoch_of tr /\ bd_epoch b < u64_max
  | Entered r _ b g | Running r _ b g _ | Answered r b g _ _ _ | Settling r b g _ _ _ _ =>
      admitted tr (rq_plugin_id r) g /\ gr_binding g = b
  | Confirming token p | ConfirmingBound token p _ => prepared_under tr token p
  | Deciding token p current g => bound_under tr token p current g
  | _ => True
  end.

Lemma admitted_later es tr id g : admitted tr id g -> admitted (es ++ tr)%list id g.
Proof. intros (mid & tr0 & -> & ?). exists (es ++ mid)%list, tr0. by rewrite <- app_assoc. Qed.
Lemma prepared_later es tr token p :
  prepared_under tr token p -> prepared_under (es ++ tr)%list token p.
Proof.
  intros (g & mid2 & mid1 & tr0 & -> & ?). exists g, (es ++ mid2)%list, mid1, tr0.
  split; [by rewrite <- app_assoc|done].
Qed.
Lemma bound_later es tr token p current g :
  bound_under tr token p current g -> bound_under (es ++ tr)%list token p current g.
Proof. intros (mid & tr0 & -> & ?). exists (es ++ mid)%list, tr0. by rewrite <- app_assoc. Qed.
Lemma task_later es tr t : task_ok tr t -> task_ok (es ++ tr)%list t.
Proof.
  pose proof (epoch_of_mono es tr).
  destruct t; simpl; rewrite ?elem_of_app; try (intros [? ?]; split; [|done]);
    auto using admitted_later, prepared_later, bound_later; lia.
Qed.

(** The call [p] becomes under [g], and what entitles it to. *)
Inductive entitled (p : Prepared) (g : Grant) : HostCall -> Prop :=
| entitled_place order submission epoch :
    p_output p = PlaceOrder order ->
    has (gr_capabilities g) "trade.place" = true ->
    p_submission_id p = Some submission ->
    counter (session_epoch (au_account (bd_authority (p_binding p)))) = Ok epoch ->
    entitled p g (HostPlace {| sc_submission_id := submission;
                               sc_account_id := account_id (au_account (bd_authority (p_binding p)));
                               sc_session_epoch := epoch |} (placed submission order))
| entitled_cancel order target epoch :
    p_output p = CancelOrder order ->
    has (gr_capabilities g) "trade.cancel" = true ->
    p_target p = Some target ->
    o_order_id target = cp_order_id order -> o_symbol target = cp_symbol order ->
    is_working (o_status target) = true ->
    counter (session_epoch (au_account (bd_authority (p_binding p)))) = Ok epoch ->
    entitled p g (HostCancel {| ses_account_id := account_id (au_account (bd_authority (p_binding p)));
                                ses_session_epoch := epoch |}
                    {| c_symbol := cp_symbol order; c_order_id := Some (cp_order_id order);
                       c_order_link_id := None |}).

Lemma confirm_call_entitled `{DecimalLib} p g call :
  confirm_call p (p_binding p) g = Ok call -> entitled p g call.
Proof.
  unfold confirm_call. intros Hc. apply obind_ok in Hc as (epoch & He & Hc).
  destruct (p_output p) as [text|order|order] eqn:Eo; [done|..].
  - run_ok. rename select (validate_output _ _ _ _ = _) into Hv. simpl in Hv.
    unfold validate_place in Hv. run_ok. bools. by eapply entitled_place.
  - run_ok. rename select (validate_output _ _ _ _ = _) into Hv. simpl in Hv.
    unfold validate_cancel in Hv. run_ok. bools. simpl in *.
    rename select (_ || false = true) into Ho. rewrite orb_false_r in Ho. bools.
    eapply entitled_cancel; eauto; by apply String.eqb_eq.
Qed.

(** Everything a call handed to the exchange rests on. *)
Definition authorized (tr : list Event) (token : string) (p : Prepared) (call : HostCall)
    (now : Z) : Prop :=
  exists g mid3 mid2 mid1 tr0,
    tr = (mid3 ++ EBound token p (p_binding p) g :: mid2 ++ EPrepared token p ::
          mid1 ++ EAdmitted (plugin_of p) g :: tr0)%list /\
    undisturbed (plugin_of p) (mid2 ++ mid1)%list /\
    same_epoch (mid3 ++ mid2 ++ mid1)%list /\
    chosen tr0 (plugin_of p) g /\ gr_binding g = p_binding p /\
    now < p_deadline p /\ entitled p g call.

Definition handed_ok (tr : list Event) : Prop :=
  forall later token p call now tr1,
    tr = (later ++ EHanded token p call now :: tr1)%list -> authorized tr1 token p call now.

Lemma numbered_app mid tr : numbered (mid ++ tr)%list -> numbered tr.
Proof. induction mid; simpl; [done|]. intros [_ ?]; auto. Qed.

(** An epoch read at the end that was already current is current throughout. *)
Lemma epoch_settled mid tr n :
  n <= epoch_of tr -> n < u64_max -> epoch_of (mid ++ tr)%list = n -> same_epoch mid.
Proof.
  intros Hn Hm He. pose proof (epoch_of_mono mid tr). apply (epoch_of_same _ tr); lia.
Qed.

Lemma decision_authorized `{DecimalLib} tr token p current g epoch now call :
  numbered tr -> bound_under tr token p current g ->
  epoch = Ok (epoch_of tr) ->
  decide_call p current g epoch now = Ok call -> authorized tr token p call now.
Proof.
  intros Hn (mid3 & tr1 & -> & (g0 & mid2 & mid1 & tr0 & -> & H0 & Hb & Hr & Hi & Hu & Hl & He & Hm)
              & Hg & Hc) -> Hd.
  unfold decide_call, confirm_fresh in Hd. run_ok. bools.
  match goal with H : ~ _ <> _ |- _ => apply dec_stable in H; subst end.
  rewrite <- ?Z.eqb_eq in *.
  apply numbered_app in Hn as Hn1. destruct Hn1 as [_ Hn1].
  destruct (last_grant_moves mid2 (EPrepared token p :: mid1 ++ EAdmitted (plugin_of p) g0 :: tr0)
              (plugin_of p) g0 g) as (_ & _ & Hsame); [done|exact Hl|done|].
  destruct Hsame as [-> Hu2]; [lia..|].
  exists g0, mid3, mid2, mid1, tr0. split; [congruence|].
  assert (same_epoch (mid3 ++ EBound token p (gr_binding g0) g0 :: mid2 ++ EPrepared token p ::
            mid1 ++ [EAdmitted (plugin_of p) g0])%list) as Hse.
  { apply (epoch_settled _ tr0 (bd_epoch (p_binding p))); [done|done|].
    rewrite <- app_assoc, <- app_comm_cons, <- app_assoc, <- app_comm_cons, <- app_assoc.
    simpl. lia. }
  unfold same_epoch, undisturbed in *.
  repeat (rewrite ?Forall_app, ?Forall_cons in Hse).
  rewrite !Forall_app. apply numbered_app in Hn1 as [_ Hn1]. apply numbered_app in Hn1 as [_ Hn1].
  pose proof (last_grant_chosen _ _ _ Hn1 H0).
  split_and!; try tauto; [lia|].
  apply confirm_call_entitled. congruence.
Qed.

(** ** The invariant of an execution *)

Definition is_handed (e : Event) : bool := match e with EHanded _ _ _ _ => true | _ => false end.
Definition unhanded (tr : list Event) : Prop := Forall (fun e => is_handed e = false) tr.

Record agrees (tr : list Event) (s : Shared) : Prop := {
  ag_tracked : tracked (sh_workflow s) tr;
  ag_numbered : numbered tr;
  ag_epoch : sh_epoch s = epoch_of tr;
  ag_pending token p : pending (sh_workflow s) !! token = Some p -> prepared_under tr token p;
  ag_handed : handed_ok tr;
}.

Lemma handed_later es tr : unhanded es -> handed_ok tr -> handed_ok (es ++ tr)%list.
Proof.
  intros He Hh. induction es as [|e es IH]; [done|]. inversion_clear He.
  intros later token p call now tr1 E. destruct later as [|e' later]; simplify_eq/=.
  by eapply IH.
Qed.

Lemma epoch_of_app es tr : same_epoch es -> epoch_of (es ++ tr)%list = epoch_of tr.
Proof. induction 1 as [|e es He _ IH]; simpl; [done|]. by destruct e. Qed.

Lemma agrees_section tr s es ws :
  agrees tr s -> tracked ws (es ++ tr)%list -> numbered (es ++ tr)%list -> same_epoch es ->
  unhanded es ->
  (forall token p, pending ws !! token = Some p ->
     pending (sh_workflow s) !! token = Some p \/ prepared_under (es ++ tr)%list token p) ->
  agrees (es ++ tr)%list (on_workflow ws s).
Proof.
  intros Ha Ht Hn He Hh Hp. destruct Ha. split; simpl; [done|done| | |by apply handed_later].
  - by rewrite epoch_of_app.
  - intros token p Hl. destruct (Hp _ _ Hl); auto using prepared_later.
Qed.

Lemma created_unhanded ws ws' id : unhanded (created ws ws' id).
Proof. unfold created. repeat case_match; repeat constructor. Qed.

(** A section that is [grant] and then leaves the state. *)
Lemma agrees_grant tr s id b now o ws :
  agrees tr s -> grant id b now (sh_workflow s) = (o, ws) ->
  agrees (created (sh_workflow s) ws id ++ tr)%list (on_workflow ws s).
Proof.
  intros Ha Hg. destruct (grant_effects _ _ _ _ _ _ _ (ag_tracked _ _ Ha) (ag_numbered _ _ Ha) Hg).
  apply agrees_section; auto using created_unhanded.
Qed.

(** The events that say nothing of grants, epochs or hand-overs. *)
Definition inert (e : Event) : bool :=
  match e with EAdmitted _ _ | EPrepared _ _ | ETaken _ | EBound _ _ _ _ => true | _ => false end.

Lemma agrees_inert tr s e : inert e = true -> agrees tr s -> agrees (e :: tr) s.
Proof.
  intros He [[Hs Hl] Hn Ha Hp Hh]. split.
  - destruct e; done.
  - by destruct e.
  - by destruct e.
  - intros token p Hl'. apply (prepared_later [e]). auto.
  - apply (handed_later [e]); [by constructor; destruct e|done].
Qed.

(** Only the workflow state, the epoch and the trace matter. *)
Lemma agrees_shared tr s s' :
  agrees tr s -> sh_workflow s' = sh_workflow s -> sh_epoch s' = sh_epoch s -> agrees tr s'.
Proof. intros [] Ew Ee. split; rewrite ?Ew, ?Ee; auto. Qed.

(** *** set_workflow_grants *)

Lemma accept_agrees tr s r s' t es :
  agrees tr s -> begin_grants s r = (t, s', es) ->
  agrees (es ++ tr)%list s' /\ Forall (task_ok (es ++ tr)%list) (opt_list t).
Proof.
  intros Ha Hb. unfold begin_grants in Hb. case_match; [|by simplify_eq; split; [|constructor]].
  unfold accept_intent in Hb. destruct Ha as [[Hs Hl] Hn He Hp Hh] eqn:E; clear E.
  destruct (next (sh_workflow s)) as [o ws] eqn:En.
  apply next_ok in En as [(n & -> & -> & ->)|[-> ->]]; simplify_eq/=.
  2: { split; [|constructor]. by apply (agrees_shared tr s). }
  split; [|constructor; [simpl; rewrite elem_of_cons; by left|constructor]].
  apply (agrees_section tr s [EAccepted _ _]); [done| |by rewrite Hs|by repeat constructor..|].
  - split; [done|]. simpl. intros id g. destruct (grants (sh_workflow s) !! gq_plugin_id r) as [g0|] eqn:Eg.
    + rewrite lookup_insert_Some. intros [[<- <-]|[Hne Hg]].
      * rewrite bool_decide_true by done. by rewrite (Hl _ _ Eg).
      * rewrite bool_decide_false by done. auto.
    + intros Hg. rewrite bool_decide_false; [auto|]. congruence.
  - simpl. intros token p [? _]%retain_lookup. by left.
Qed.

Lemma set_grant_ok r requested b intent now ws o ws' og ws1 :
  grant (gq_plugin_id r) b now ws = (og, ws1) ->
  set_grant r requested b intent now ws = (o, ws') ->
  (exists g0 g, og = Ok g0 /\ o = Ok g /\ gr_intent g0 = intent /\ gr_intent g = intent /\
     gr_binding g = gr_binding g0 /\ gr_revision g = serial ws1 + 1 /\
     ws' = set_grants (<[gq_plugin_id r := g]> (grants ws1)) (set_serial (serial ws1 + 1) ws1)) \/
  ((forall g, o <> Ok g) /\ ws' = ws1).
Proof.
  unfold set_grant, mbind, mlift. intros -> Hs.
  destruct og as [g0|e|h]; [|by simplify_eq; right..].
  destruct (check_expected _ _ _ _); [|by simplify_eq; right..].
  destruct (guard _ workflow_denied); [|by simplify_eq; right..].
  destruct (gr_intent g0 =? intent) eqn:Ei; [|by simplify_eq/=; right]. simpl in Hs.
  destruct (next ws1) as [on ws2] eqn:En.
  apply next_ok in En as [(n & -> & -> & ->)|[-> ->]]; simplify_eq; [left|by right].
  apply Z.eqb_eq in Ei. exists g0. eexists. split_and!; done.
Qed.

Section Invariant.
Context `{SemverLib} `{Codec json} `{Base64Lib} `{Codec PluginManifest} `{Sha256Lib}.
Context `{UuidV4Lib} `{Codec OwnershipReceiptV1} `{Codec IndexWire} `{Codec StateWire}.
Context `{DecimalLib} `{Codec Snapshot} `{Codec WorkflowOutput} `{UuidLib}.
Context {X : Type} `{WorkflowHost X}.

Lemma setting_agrees (i : @Input _ X) tr s r intent captured b t s' es :
  agrees tr s -> EAccepted (gq_plugin_id r) intent ∈ tr ->
  advance_setting i s r intent captured b = (t, s', es) ->
  agrees (es ++ tr)%list s' /\ t = None.
Proof.
  intros Ha Hin Hs. unfold advance_setting in Hs.
  destruct (grant (gq_plugin_id r) b (in_now i) (sh_workflow s)) as [og ws1] eqn:Eg.
  destruct (set_grant _ _ _ _ _ _) as [o ws2] eqn:Es. simplify_eq/=.
  destruct (set_grant_ok _ _ _ _ _ _ _ _ _ _ Eg Es)
    as [(g0 & g & -> & -> & Hi0 & Hi & Hb & Hr & ->)|[Hno ->]]; split; try done.
  - destruct (grant_effects _ _ _ _ _ _ _ (ag_tracked _ _ Ha) (ag_numbered _ _ Ha) Eg)
      as [[Hs1 Hl1] Hn1 Hlast Hp1 He1].
    destruct (Hlast _ eq_refl) as (Hl0 & _ & _). rewrite <- app_assoc. simpl.
    apply (agrees_section _ s (EGranted (gq_plugin_id r) g :: created _ _ _)); simpl; auto.
    + split; [done|]. simpl. intros id g'. rewrite lookup_insert_Some.
      intros [[<- <-]|[Hne Hg]]; [by rewrite bool_decide_true|].
      rewrite bool_decide_false by done. auto.
    + split; [|done]. split; [by rewrite Hr, Hs1|]. split.
      * rewrite elem_of_app. right. by rewrite Hi.
      * exists g0. split; [done|]. split; [done|]. by rewrite Hi.
    + by constructor.
    + constructor; [done|]. apply created_unhanded.
  - assert (match o with Ok g => [EGranted (gq_plugin_id r) g] | _ => [] end = []) as es0.
    { destruct o; [by destruct (Hno a)|done..]. }
    rewrite es0. simpl. by eapply agrees_grant.
Qed.

Lemma admit_run_ok r b now ws o ws' og ws1 :
  grant (rq_plugin_id r) b now ws = (og, ws1) -> admit_run r b now ws = (o, ws') ->
  ws' = ws1 /\ (forall g, o = Ok g -> og = Ok g).
Proof.
  unfold admit_run, mbind, mlift. intros -> Hs.
  destruct og as [g|e|h]; [|by injection Hs as <- <-..].
  destruct (check_expected _ _ _ _); [|by injection Hs as <- <-..].
  destruct (guard _ workflow_denied); by injection Hs as <- <-.
Qed.

Lemma admission_agrees (i : @Input _ X) tr s r captured b t s' es :
  agrees tr s -> bd_epoch b <= epoch_of tr -> bd_epoch b < u64_max ->
  advance_admission i s r captured b = (t, s', es) ->
  agrees (es ++ tr)%list s' /\ Forall (task_ok (es ++ tr)%list) (opt_list t).
Proof.
  intros Ha He Hm Hd. unfold advance_admission in Hd.
  destruct (admit_run _ _ _ _) as [o ws] eqn:Er. simplify_eq/=.
  destruct (grant (rq_plugin_id r) b (in_now i) (sh_workflow s)) as [og ws1] eqn:Eg.
  destruct (admit_run_ok _ _ _ _ _ _ _ _ Eg Er) as [-> Ho].
  pose proof (agrees_grant _ _ _ _ _ _ _ Ha Eg) as Hg.
  destruct (grant_effects _ _ _ _ _ _ _ (ag_tracked _ _ Ha) (ag_numbered _ _ Ha) Eg)
    as [_ _ Hlast _ _].
  destruct o as [g|e|h]; simpl; [|by split..].
  destruct (Hlast _ (Ho _ eq_refl)) as (Hl & Hb & _).
  split; [by apply agrees_inert|]. constructor; [|constructor]. simpl. split; [|done].
  eexists [], _. split; [done|]. split; [done|].
  pose proof (epoch_of_mono (created (sh_workflow s) ws1 (rq_plugin_id r)) tr). rewrite Hb. lia.
Qed.

Lemma settle_run_ok r b current g sn output cancelled epoch token submission now now_ms ws o ws'
    og ws1 :
  grant (rq_plugin_id r) current now ws = (og, ws1) ->
  settle_run r b current g sn output cancelled epoch token submission now now_ms ws = (o, ws') ->
  (exists latest c, og = Ok latest /\ o = Ok (Some c) /\ cf_token c = token /\
     cancelled = false /\ is_display output = false /\ b = current /\
     gr_revision g = gr_revision latest /\ gr_intent g = gr_intent latest /\
     Z.of_nat (size (pending ws1)) < MAX_PENDING /\
     ws' = set_pending (<[token := prepare r b g sn output submission now]> (pending ws1)) ws1) \/
  ((forall c, o <> Ok (Some c)) /\ ws' = ws1).
Proof.
  unfold settle_run, mbind, mlift. intros -> Hs.
  destruct og as [latest|e|h]; [|by simplify_eq; right..].
  destruct (guard _ workflow_stale) eqn:Eg1; [|by simplify_eq; right..].
  destruct epoch; [|by simplify_eq; right..].
  destruct (guard (negb (a0 =? _)) workflow_stale); [|by simplify_eq; right..].
  destruct (is_display output) eqn:Ed; [by injection Hs as <- <-; right|].
  case_match eqn:Em; [by simplify_eq; right|]. injection Hs as <- <-. left.
  apply guard_ok in Eg1. bools. apply Z.leb_gt in Em.
  match goal with H : ~ _ <> _ |- _ => apply dec_stable in H end.
  rewrite Z.eqb_eq in *. eexists latest, _. split_and!; done.
Qed.

Lemma settling_agrees (i : @Input _ X) tr s r b g flag sn output current t s' es :
  agrees tr s -> admitted tr (rq_plugin_id r) g -> gr_binding g = b ->
  advance_settling i s r b g flag sn output current = (t, s', es) ->
  agrees (es ++ tr)%list s' /\ t = None.
Proof.
  intros Ha Had Hgb Hs. unfold advance_settling in Hs.
  destruct (grant (rq_plugin_id r) current (in_now i) (sh_workflow s)) as [og ws1] eqn:Eg.
  destruct (settle_run _ _ _ _ _ _ _ _ _ _ _ _ _) as [o ws2] eqn:Es. simplify_eq/=.
  pose proof (agrees_grant _ _ _ _ _ _ _ Ha Eg) as Hag.
  split; [|done]. apply (agrees_shared _ (on_workflow ws2 s)); [|done..].
  destruct (settle_run_ok _ _ _ _ _ _ _ _ _ _ _ _ _ _ _ _ _ Eg Es)
    as [(latest & c & -> & -> & Ht & _ & _ & <- & Hr & Hi & _ & ->)|[Hno ->]].
  - destruct (grant_effects _ _ _ _ _ _ _ (ag_tracked _ _ Ha) (ag_numbered _ _ Ha) Eg)
      as [Ht1 Hn1 Hlast Hp1 He1].
    destruct (Hlast _ eq_refl) as (Hl & Hb & _).
    destruct Had as (mid & tr0 & -> & Hg0 & Hep & Hm).
    destruct (last_grant_moves (created (sh_workflow s) ws1 (rq_plugin_id r) ++ mid)%list
                (EAdmitted (rq_plugin_id r) g :: tr0) (rq_plugin_id r) g latest)
      as (_ & _ & Hsame); [by rewrite <- app_assoc|done|by rewrite <- app_assoc|].
    destruct Hsame as [-> Hu]; [done..|]. simpl. rewrite Ht, lookup_insert_eq. simpl.
    apply (agrees_section _ s (EPrepared (in_token i) _ :: created _ _ _));
      [done|apply Ht1|by split|by constructor|constructor; [done|apply created_unhanded]|].
    simpl. intros token p. rewrite lookup_insert_Some. intros [[<- <-]|[_ Hp]]; [right|by left; auto].
    exists g, [], (created (sh_workflow s) ws1 (rq_plugin_id r) ++ mid)%list, tr0.
    unfold prepared_by. simpl. rewrite <- !app_assoc. split_and!; done.
  - destruct o as [[c|]|e|h]; [by destruct (Hno c)|done..].
Qed.

Lemma confirming_agrees (i : @Input _ X) tr s token p current t s' es :
  agrees tr s -> prepared_under tr token p ->
  advance_confirming i s token p current = (t, s', es) ->
  agrees (es ++ tr)%list s' /\ Forall (task_ok (es ++ tr)%list) (opt_list t).
Proof.
  intros Ha Hp Hd. unfold advance_confirming, confirm_grant in Hd.
  destruct (grant _ _ _ _) as [o ws] eqn:Eg. simplify_eq/=.
  pose proof (agrees_grant _ _ _ _ _ _ _ Ha Eg) as Hg.
  destruct (grant_effects _ _ _ _ _ _ _ (ag_tracked _ _ Ha) (ag_numbered _ _ Ha) Eg)
    as [_ _ Hlast _ _].
  destruct o as [g|e|h]; simpl; [|by split..].
  destruct (Hlast _ eq_refl) as (Hl & Hb & _).
  split; [by apply agrees_inert|]. constructor; [|constructor]. simpl.
  eexists [], _. split; [done|]. split; [by apply prepared_later|]. by split.
Qed.

Lemma take_agrees tr s token t s' es :
  agrees tr s -> begin_confirm s token = (t, s', es) ->
  agrees (es ++ tr)%list s' /\ Forall (task_ok (es ++ tr)%list) (opt_list t).
Proof.
  intros Ha Hb. unfold begin_confirm, take_token in Hb. case_match; [|by simplify_eq; split].
  destruct (pending (sh_workflow s) !! token) as [p|] eqn:Ep; simplify_eq/=.
  - split; [|constructor; [|constructor]].
    + apply agrees_inert; [done|]. apply (agrees_section tr s []); try done; try apply Ha.
      * constructor.
      * constructor.
      * simpl. intros token' p'. rewrite lookup_delete_Some. intros [_ ?]. by left.
    + apply (prepared_later [_]). by apply (ag_pending _ _ Ha).
  - split; [|done]. by apply (agrees_shared tr s).
Qed.

Lemma bind_call_epoch (i : @Input _ X) tr s r captured b :
  agrees tr s -> bind_call i s r = Some (captured, b) ->
  bd_epoch b <= epoch_of tr /\ bd_epoch b < u64_max.
Proof.
  intros Ha Hb. unfold bind_call, binding_locked in Hb.
  match type of Hb with ok_of ?o = _ => destruct o eqn:E; simplify_eq/= end. run_ok. simpl.
  rename select (workflow_epoch _ _ = _) into He. unfold workflow_epoch in He.
  case_match; [done|]. simplify_eq. bools.
  rename select ((_ =? u64_max) = false) into Em. apply Z.eqb_neq in Em.
  pose proof (epoch_of_range tr). rewrite <- (ag_epoch _ _ Ha) in *. lia.
Qed.

(** A step that leaves the workflow state. *)
Ltac unmoved :=
  split; [first [assumption | eapply agrees_shared; [eassumption|reflexivity|reflexivity]]
         |first [apply Forall_nil_2 | apply Forall_singleton]; simpl; auto].

Lemma advance_agrees (i : @Input _ X) tr s t t' s' es :
  agrees tr s -> task_ok tr t -> advance i s t = (t', s', es) ->
  agrees (es ++ tr)%list s' /\ Forall (task_ok (es ++ tr)%list) (opt_list t').
Proof.
  intros Ha Ht Hd. destruct t; simpl in *.
  - destruct (bind_call _ _ _) as [[? ?]|]; simplify_eq/=; unmoved.
  - by apply (setting_agrees i tr) in Hd as [? ->]; [split|..].
  - destruct (grant _ _ _ _) as [o ws] eqn:Eg. simplify_eq/=.
    split; [by eapply agrees_grant|done].
  - destruct Ht. by eapply admission_agrees.
  - destruct (acquire _ _) as [[?|?|?] ?]; simplify_eq/=; unmoved.
  - unfold advance_running in Hd. repeat case_match; simplify_eq/=; unmoved.
  - destruct (bind_call _ _ _) as [[? ?]|]; simplify_eq/=; unmoved.
  - destruct Ht. eapply settling_agrees in Hd as [? ->]; [|done..]. by split.
  - destruct (bind_call _ _ _) as [[? ?]|]; simplify_eq/=; unmoved.
  - by eapply confirming_agrees.
  - injection Hd as <- <- <-. split; [|constructor].
    destruct (decide_call _ _ _ _ _) as [call|e|h] eqn:Ed; [|done..].
    destruct Ha as [[Hs Hl] Hn He Hp Hh]. split; simpl; try done.
    + intros token' p' Hl'. apply (prepared_later [_]). auto.
    + intros [|e later] token' p' call' now' tr1 E; simplify_eq/=; [|by eapply Hh].
      unfold epoch_now in Ed. eapply decision_authorized; [done|done| |done].
      unfold decide_call, confirm_fresh in Ed. run_ok. subst.
      rename select (workflow_epoch _ _ = _) into Ew. rewrite Ew. unfold workflow_epoch in Ew.
      case_match; [done|]. simplify_eq. by rewrite He.
  - simplify_eq. split; [by apply (agrees_shared tr s)|done].
Qed.

Lemma begin_agrees (i : @Input _ X) tr s c t s' es :
  agrees tr s -> begin_call i s c = (t, s', es) ->
  agrees (es ++ tr)%list s' /\ Forall (task_ok (es ++ tr)%list) (opt_list t).
Proof.
  intros Ha Hb. destruct c; simpl in Hb.
  - repeat case_match; simplify_eq/=; unmoved.
  - by eapply accept_agrees.
  - repeat case_match; simplify_eq/=; unmoved. by eapply bind_call_epoch.
  - by eapply take_agrees.
Qed.

Lemma outside_agrees tr s es s' : agrees tr s -> outside s es s' -> agrees (es ++ tr)%list s'.
Proof.
  intros Ha Ho. inversion Ho; subst; simpl; try (by apply (agrees_shared tr s)).
  destruct Ha as [[Hs Hl] Hn He Hp Hh]. split; simpl; try done.
  - by rewrite He.
  - intros token p Hp'. apply (prepared_later [_]). auto.
  - apply (handed_later [_]); [by repeat constructor|done].
Qed.

Lemma dropped_agrees tr s t t' s' :
  agrees tr s -> dropped t s = Some (t', s') ->
  agrees tr s' /\ Forall (task_ok tr) (opt_list t').
Proof.
  intros Ha Hd. destruct t; simplify_eq/=; unmoved.
Qed.

Lemma initial_agrees : agrees [] initial_shared.
Proof.
  split; simpl; try done.
  intros later token p call now tr1 E. by destruct later.
Qed.

Lemma execution_agrees tr (y : System) :
  execution (X := X) tr y -> agrees tr (sy_shared y) /\ Forall (task_ok tr) (sy_tasks y).
Proof.
  induction 1 as [|tr y es y' He [Ha Ht] Hs]; [split; [apply initial_agrees|constructor]|].
  assert (forall ts, Forall (task_ok tr) ts -> Forall (task_ok (es ++ tr)%list) ts) as Hlater.
  { intros ts Hts. eapply Forall_impl; [exact Hts|]. intros. by apply task_later. }
  destruct Hs as [i c s ts t s' es Hb|i s ts1 t ts2 t' s' es Hd|s ts1 t ts2 t' s' Hd|s id flag slot ts _|s es s' ts Ho];
    simpl in *.
  - eapply begin_agrees in Hb as [? ?]; [|done]. rewrite Forall_app. auto.
  - apply Forall_app in Ht as [Ht1 Ht2]. inversion_clear Ht2.
    eapply advance_agrees in Hd as [? ?]; [|done..]. rewrite !Forall_app. auto.
  - apply Forall_app in Ht as [Ht1 Ht2]. inversion_clear Ht2.
    eapply dropped_agrees in Hd as [? ?]; [|done..]. rewrite !Forall_app. auto.
  - split; [by apply (agrees_shared tr s)|]. by constructor.
  - split; [by eapply outside_agrees|auto].
Qed.
End Invariant.

(** ** Counting tokens *)

Definition count (f : Event -> bool) (tr : list Event) : nat := length (List.filter f tr).
Definition is_handed_of (token : string) (e : Event) : bool :=
  match e with EHanded t _ _ _ => t ==s token | _ => false end.
Definition is_taken_of (token : string) (e : Event) : bool :=
  match e with ETaken t => t ==s token | _ => false end.
Definition is_prepared_of (token : string) (e : Event) : bool :=
  match e with EPrepared t _ => t ==s token | _ => false end.

Lemma count_app f tr1 tr2 : count f (tr1 ++ tr2)%list = (count f tr1 + count f tr2)%nat.
Proof. unfold count. by rewrite List.filter_app, length_app. Qed.
Lemma events_cons f e tr : count f (e :: tr) = ((if f e then 1 else 0) + count f tr)%nat.
Proof. unfold count. simpl. by destruct (f e). Qed.
Lemma count_created f ws ws' id :
  (forall g, f (ECreated id g) = false) -> count f (created ws ws' id) = 0%nat.
Proof. intros Hf. unfold created, count. repeat case_match; simpl; by rewrite ?Hf. Qed.

(** The confirmations that hold a token, and whether it is still outstanding. *)
Definition holds (token : string) (t : Task) : nat :=
  match t with
  | Confirming t _ | ConfirmingBound t _ _ | Deciding t _ _ _ => if t ==s token then 1 else 0
  | _ => 0
  end.
Definition held (token : string) (ts : list Task) : nat := list_sum (map (holds token) ts).
Definition outstanding (token : string) (s : Shared) : nat :=
  match pending (sh_workflow s) !! token with Some _ => 1 | None => 0 end.

Lemma held_app token ts1 ts2 : held token (ts1 ++ ts2)%list = (held token ts1 + held token ts2)%nat.
Proof. unfold held. by rewrite map_app, list_sum_app. Qed.

(** *** Sizes and sweeps *)

Lemma retain_subseteq {V} (keep : V -> bool) (m : gmap string V) : retain keep m ⊆ m.
Proof. apply map_filter_subseteq. Qed.
Lemma retain_size {V} (keep : V -> bool) (m : gmap string V) :
  (size (retain keep m) <= size m)%nat.
Proof. apply map_subseteq_size, retain_subseteq. Qed.

(** What [grant] does to the sizes, whatever the trace. *)
Lemma grant_sizes id b now ws o ws' :
  grant id b now ws = (o, ws') ->
  pending ws' ⊆ pending ws /\
  (Z.of_nat (size (grants ws)) <= MAX_GRANTS -> Z.of_nat (size (grants ws')) <= MAX_GRANTS) /\
  (forall g, o = Ok g -> is_Some (grants ws' !! id)).
Proof.
  intros Hg. unfold grant in Hg. set (ws1 := sweep b now ws) in *.
  assert (pending ws1 ⊆ pending ws) as Hp1 by apply retain_subseteq.
  assert (Z.of_nat (size (grants ws1)) <= Z.of_nat (size (grants ws))) as Hg1
    by (pose proof (retain_size (current_grant b) (grants ws)); simpl; lia).
  assert (create_grant id b ws1 = (o, ws') ->
    pending ws' ⊆ pending ws1 /\
    (Z.of_nat (size (grants ws1)) <= MAX_GRANTS -> Z.of_nat (size (grants ws')) <= MAX_GRANTS) /\
    (forall g, o = Ok g -> is_Some (grants ws' !! id))) as Hcreate.
  { unfold create_grant. set (ws2 := set_pending _ ws1).
    assert (pending ws2 ⊆ pending ws1) by apply retain_subseteq.
    destruct (Z.leb_spec MAX_GRANTS (Z.of_nat (size (grants ws2)))); [by intros; simplify_eq|].
    destruct (next ws2) as [on ws3] eqn:En.
    apply next_ok in En as [(n & -> & -> & ->)|[-> ->]]; intros; simplify_eq; [|done].
    split; [done|]. simpl in *. split; [|intros; rewrite lookup_insert_eq; eauto].
    intros _. pose proof (map_size_insert id (new_grant b (serial ws + 1)) (retain (current_grant b) (grants ws))) as E.
    rewrite E. destruct (_ !! _); simpl; lia. }
  assert (create_grant id b ws1 = (o, ws') -> pending ws' ⊆ pending ws /\
    (Z.of_nat (size (grants ws)) <= MAX_GRANTS -> Z.of_nat (size (grants ws')) <= MAX_GRANTS) /\
    (forall g, o = Ok g -> is_Some (grants ws' !! id))) as Hc2.
  { intros Hc. destruct (Hcreate Hc) as (H1 & H2 & H3).
    split; [by etrans|]. split; [intros; apply H2; lia|done]. }
  destruct (grants ws1 !! id) as [g|] eqn:Eg; [|auto].
  case_bool_decide; [|auto]. simplify_eq. split; [done|]. split; [lia|]. rewrite Eg. eauto.
Qed.

(** A section that prepares nothing: no token appears, the limits stay. *)
Definition within (ws : WorkflowState) : Prop :=
  Z.of_nat (size (grants ws)) <= MAX_GRANTS /\ Z.of_nat (size (pending ws)) <= MAX_PENDING.
Definition shrinks (ws ws' : WorkflowState) : Prop :=
  pending ws' ⊆ pending ws /\
  (Z.of_nat (size (grants ws)) <= MAX_GRANTS -> Z.of_nat (size (grants ws')) <= MAX_GRANTS).

Lemma runtime_shrinks_refl ws : shrinks ws ws.
Proof. by split. Qed.
Lemma shrinks_within ws ws' : shrinks ws ws' -> within ws -> within ws'.
Proof. intros [Hp Hg] [? ?]. apply map_subseteq_size in Hp. split; [auto|lia]. Qed.
Lemma grant_shrinks id b now ws o ws' : grant id b now ws = (o, ws') -> shrinks ws ws'.
Proof. intros Hg. by destruct (grant_sizes _ _ _ _ _ _ Hg) as (? & ? & _). Qed.
Lemma shrinks_outstanding token s ws :
  shrinks (sh_workflow s) ws -> (outstanding token (on_workflow ws s) <= outstanding token s)%nat.
Proof.
  intros [Hp _]. unfold outstanding. simpl. destruct (pending ws !! token) eqn:E; [|lia].
  by rewrite (lookup_weaken _ _ _ _ E Hp).
Qed.

Lemma set_grant_shrinks r requested b intent now ws o ws' :
  set_grant r requested b intent now ws = (o, ws') -> shrinks ws ws'.
Proof.
  intros Hs. destruct (grant (gq_plugin_id r) b now ws) as [og ws1] eqn:Eg.
  destruct (grant_sizes _ _ _ _ _ _ Eg) as (Hp & Hz & Hin).
  destruct (set_grant_ok _ _ _ _ _ _ _ _ _ _ Eg Hs)
    as [(g0 & g & -> & _ & _ & _ & _ & _ & ->)|[_ ->]]; split; simpl; try done.
  rewrite map_size_insert. destruct (Hin _ eq_refl) as [g' ->]. done.
Qed.
Lemma accept_shrinks id ws o ws' : accept_intent id ws = (o, ws') -> shrinks ws ws'.
Proof.
  unfold accept_intent. destruct (next ws) as [on ws1] eqn:En.
  apply next_ok in En as [(n & -> & -> & ->)|[-> ->]]; intros; simplify_eq; [|apply runtime_shrinks_refl].
  split; simpl; [apply retain_subseteq|]. destruct (grants ws !! id) eqn:E; [|done].
  rewrite map_size_insert, E. done.
Qed.

(** What one advance does to the tokens and the limits. *)
Record tallied (token : string) (s s' : Shared) (before after : nat) (es : list Event) : Prop := {
  tl_outstanding : (outstanding token s' + count (is_taken_of token) es
                    <= outstanding token s + count (is_prepared_of token) es)%nat;
  tl_held : (count (is_handed_of token) es + after
             <= before + count (is_taken_of token) es)%nat;
  tl_within : within (sh_workflow s) -> within (sh_workflow s');
}.

Lemma tallied_section token s ws s' before after es :
  shrinks (sh_workflow s) ws -> sh_workflow s' = ws -> (after <= before)%nat ->
  count (is_taken_of token) es = 0%nat -> count (is_handed_of token) es = 0%nat ->
  tallied token s s' before after es.
Proof.
  intros Hs <- Ha Ht Hh. pose proof (shrinks_outstanding token s _ Hs) as Ho.
  unfold outstanding in *. simpl in Ho. split; unfold outstanding; [lia|lia|].
  by apply shrinks_within.
Qed.

Section Tally.
Context `{SemverLib} `{Codec json} `{Base64Lib} `{Codec PluginManifest} `{Sha256Lib}.
Context `{UuidV4Lib} `{Codec OwnershipReceiptV1} `{Codec IndexWire} `{Codec StateWire}.
Context `{DecimalLib} `{Codec Snapshot} `{Codec WorkflowOutput} `{UuidLib}.
Context {X : Type} `{WorkflowHost X}.

Lemma settling_tallied (i : @Input _ X) token s r b g flag sn output current t' s' es before :
  advance_settling i s r b g flag sn output current = (t', s', es) ->
  tallied token s s' before 0 es.
Proof.
  intros Hs. unfold advance_settling in Hs.
  destruct (grant (rq_plugin_id r) current (in_now i) (sh_workflow s)) as [og ws1] eqn:Eg.
  destruct (settle_run _ _ _ _ _ _ _ _ _ _ _ _ _) as [o ws2] eqn:Es. simplify_eq/=.
  pose proof (grant_shrinks _ _ _ _ _ _ Eg) as Hsh.
  destruct (settle_run_ok _ _ _ _ _ _ _ _ _ _ _ _ _ _ _ _ _ Eg Es)
    as [(latest & c & -> & -> & Ht & _ & _ & _ & _ & _ & Hroom & ->)|[Hno ->]].
  - simpl. rewrite Ht, lookup_insert_eq. pose proof (shrinks_outstanding token s _ Hsh) as Ho.
    unfold outstanding in *. simpl in *.
    split; unfold outstanding; rewrite ?events_cons, ?count_created by done; simpl; [|lia|].
    + rewrite lookup_insert. destruct (String.eqb_spec (in_token i) token) as [->|Hne].
      * rewrite decide_True by done. lia.
      * rewrite decide_False by done. lia.
    + intros Hw. destruct (shrinks_within _ _ Hsh Hw). split; simpl; [done|].
      rewrite map_size_insert. destruct (pending ws1 !! in_token i); simpl; lia.
  - apply (tallied_section token s ws1); try done; try lia;
      destruct o as [[c|]|e|h]; try (by destruct (Hno c)); simpl; by rewrite count_created.
Qed.

Ltac quiet_tally :=
  eapply tallied_section;
    [apply runtime_shrinks_refl|reflexivity|unfold held; simpl; lia|reflexivity|reflexivity].

Lemma advance_tallied (i : @Input _ X) token s t t' s' es :
  advance i s t = (t', s', es) -> tallied token s s' (holds token t) (held token (opt_list t')) es.
Proof.
  intros Hd. destruct t; simpl in *.
  - destruct (bind_call _ _ _) as [[? ?]|]; simplify_eq/=;
      quiet_tally.
  - unfold advance_setting in Hd. destruct (set_grant _ _ _ _ _ _) as [o ws] eqn:Es.
    apply set_grant_shrinks in Es. simplify_eq/=. apply (tallied_section token s ws); try done;
      destruct o; simpl; rewrite ?events_cons, ?count_created by done; done.
  - destruct (grant _ _ _ _) as [o ws] eqn:Eg. apply grant_shrinks in Eg. simplify_eq/=.
    by apply (tallied_section token s ws); rewrite ?count_created.
  - unfold advance_admission in Hd. destruct (admit_run _ _ _ _) as [o ws] eqn:Er.
    destruct (grant (rq_plugin_id r) b (in_now i) (sh_workflow s)) as [og ws1] eqn:Eg.
    destruct (admit_run_ok _ _ _ _ _ _ _ _ Eg Er) as [-> _]. apply grant_shrinks in Eg.
    simplify_eq/=. apply (tallied_section token s ws1); try done;
      destruct o; simpl; rewrite ?events_cons, ?count_created by done; done.
  - destruct (acquire _ _) as [[?|?|?] ?]; simplify_eq/=;
      quiet_tally.
  - unfold advance_running in Hd. repeat case_match; simplify_eq/=;
      quiet_tally.
  - destruct (bind_call _ _ _) as [[? ?]|]; simplify_eq/=;
      quiet_tally.
  - assert (t' = None) as -> by (unfold advance_settling in Hd; repeat case_match; by simplify_eq).
    by eapply settling_tallied.
  - destruct (bind_call _ _ _) as [[? ?]|]; simplify_eq/=;
      quiet_tally.
  - unfold advance_confirming, confirm_grant in Hd.
    destruct (grant _ _ _ _) as [o ws] eqn:Eg. apply grant_shrinks in Eg. simplify_eq/=.
    apply (tallied_section token s ws); try done;
      destruct o; unfold held; simpl; rewrite ?events_cons, ?count_created by done; simpl; try lia; done.
  - simplify_eq. split; [|unfold count, held; case_match; simpl; repeat case_match; simpl in *; lia|done].
    unfold count. case_match; simpl; lia.
  - simplify_eq. quiet_tally.
Qed.

Lemma begin_tallied (i : @Input _ X) token s c t' s' es :
  begin_call i s c = (t', s', es) -> tallied token s s' 0 (held token (opt_list t')) es.
Proof.
  intros Hb. destruct c; simpl in Hb.
  - repeat case_match; simplify_eq/=; quiet_tally.
  - unfold begin_grants in Hb. case_match; [|simplify_eq/=; quiet_tally].
    destruct (accept_intent _ _) as [o ws] eqn:Ea. apply accept_shrinks in Ea.
    destruct o; simplify_eq/=; by apply (tallied_section token s ws).
  - repeat case_match; simplify_eq/=; quiet_tally.
  - unfold begin_confirm, take_token in Hb. case_match; [|simplify_eq/=; quiet_tally].
    destruct (pending (sh_workflow s) !! token0) as [p|] eqn:Ep; simplify_eq/=; [|quiet_tally].
    split; unfold outstanding; rewrite ?events_cons; simpl.
    + rewrite lookup_delete. destruct (String.eqb_spec token0 token) as [->|Hne].
      * rewrite decide_True, Ep by done. done.
      * rewrite decide_False by done. unfold count. simpl. lia.
    + unfold held, count. simpl. destruct (token0 ==s token); simpl; lia.
    + intros [? ?]. split; simpl; [done|].
      pose proof (map_subseteq_size _ _ (delete_subseteq (pending (sh_workflow s)) token0)). lia.
Qed.

(** The leases of the compute slot. *)
Definition leases (t : Task) : list nat :=
  match t with Running _ _ _ _ flag | Holding flag => [flag] | _ => [] end.
Definition lent (s : ComputeSlot) : list nat :=
  match active s with Some (_, flag) => [flag] | None => [] end.

Lemma raise_active flag s : active (raise flag s) = active s.
Proof. done. Qed.
Lemma drop_lent flag s : lent s = [flag] -> lent (drop_lease flag s) = [].
Proof.
  unfold lent, drop_lease. destruct (active s) as [[id held_flag]|]; [|done].
  intros [= ->]. by rewrite Nat.eqb_refl.
Qed.
Lemma acquire_lent id s flag s' :
  acquire id s = (Ok flag, s') -> lent s = [] /\ lent s' = [flag].
Proof. unfold acquire, lent. destruct (active s); intros; by simplify_eq/=. Qed.

(** The leases that tasks hold before and after a step of one of them. *)
Definition lends_on (s s' : Shared) (before after : list nat) : Prop :=
  (lent (sh_slot s') = lent (sh_slot s) /\ after = before) \/
  (before = [] /\ exists flag, after = [flag] /\ lent (sh_slot s) = [] /\
                               lent (sh_slot s') = [flag]) \/
  (exists flag, before = [flag] /\ after = [] /\
                (lent (sh_slot s) = [flag] -> lent (sh_slot s') = [])).

Lemma advance_leases (i : @Input _ X) s t t' s' es :
  advance i s t = (t', s', es) ->
  lends_on s s' (leases t) (concat (map leases (opt_list t'))).
Proof.
  intros Hd. destruct t; simpl in *.
  11: { simplify_eq. by left. }
  5: { destruct (acquire _ _) as [[flag|?|?] slot] eqn:Ea; simplify_eq/=; [|by left..].
       apply acquire_lent in Ea as [? ?]. right; left. eauto 6. }
  5: { right; right. exists flag. unfold advance_running in Hd.
       repeat case_match; simplify_eq/=; split_and!; try done; intros; by apply drop_lent. }
  9: { simplify_eq. right; right. exists flag. split_and!; try done. by apply drop_lent. }
  all: left; unfold advance_setting, advance_admission, advance_settling, advance_confirming in Hd;
    repeat case_match; by simplify_eq/=.
Qed.

Lemma begin_leases (i : @Input _ X) s c t' s' es :
  begin_call i s c = (t', s', es) ->
  sh_slot s' = sh_slot s /\ concat (map leases (opt_list t')) = [].
Proof.
  intros Hb. destruct c; simpl in *; unfold begin_grants, begin_confirm in Hb;
    repeat case_match; by simplify_eq/=.
Qed.

Lemma lends_on_frame s s' before after ls1 ls2 :
  lends_on s s' before after -> (ls1 ++ before ++ ls2)%list = lent (sh_slot s) ->
  (ls1 ++ after ++ ls2)%list = lent (sh_slot s').
Proof.
  intros [[-> ->]|[(-> & flag & -> & He & ->)|(flag & -> & -> & He)]]; [done|..]; intros Hl.
  - rewrite He in Hl. apply app_nil in Hl as [-> Hl]. simpl in Hl. by subst.
  - assert (ls1 = [] /\ ls2 = []) as [-> ->].
    { unfold lent in Hl. destruct (active (sh_slot s)) as [[id f]|]; [|by destruct ls1].
      destruct ls1 as [|x [|y ls1]]; by simplify_eq/=. }
    simpl in *. by rewrite He.
Qed.

Lemma invalidate_lent s : lent (invalidate s) = lent s.
Proof. unfold invalidate. destruct (active s) as [[id flag]|] eqn:E; [|done]. unfold lent. by rewrite raise_active. Qed.
Lemma cancel_lent id s : lent (cancel id s).2 = lent s.
Proof.
  unfold cancel. destruct (active s) as [[active_id flag]|] eqn:E; [|done].
  by destruct (active_id ==s id).
Qed.

(** What every state of an execution is like, token by token. *)
Record accounted (tr : list Event) (y : System) : Prop := {
  ac_outstanding token :
    (outstanding token (sy_shared y) + count (is_taken_of token) tr
     <= count (is_prepared_of token) tr)%nat;
  ac_held token :
    (count (is_handed_of token) tr + held token (sy_tasks y)
     <= count (is_taken_of token) tr)%nat;
  ac_within : within (sh_workflow (sy_shared y));
  ac_leases : concat (map leases (sy_tasks y)) = lent (sh_slot (sy_shared y));
}.

Lemma accounted_step tr s ts1 ts2 s' es before after (tb ta : list Task) :
  accounted tr {| sy_shared := s; sy_tasks := (ts1 ++ tb ++ ts2)%list |} ->
  (forall token, tallied token s s' (before token) (after token) es) ->
  (forall token, held token tb = before token) -> (forall token, held token ta = after token) ->
  lends_on s s' (concat (map leases tb)) (concat (map leases ta)) ->
  accounted (es ++ tr)%list {| sy_shared := s'; sy_tasks := (ts1 ++ ta ++ ts2)%list |}.
Proof.
  intros [Ho Hh Hw Hl] Ht Hb Ha Hls. simpl in *. split; simpl.
  - intros token. specialize (Ho token). destruct (Ht token). rewrite !count_app. lia.
  - intros token. specialize (Hh token). destruct (Ht token). specialize (Hb token).
    specialize (Ha token). rewrite !count_app, !held_app in *. lia.
  - by apply (Ht "").
  - rewrite !map_app, !concat_app in *. by eapply lends_on_frame.
Qed.

Lemma execution_accounted tr (y : System) : execution (X := X) tr y -> accounted tr y.
Proof.
  induction 1 as [|tr y es y' He IH Hs].
  { by split. }
  destruct Hs as [i c s ts t s' es Hb|i s ts1 t ts2 t' s' es Hd|s ts1 t ts2 t' s' Hd
                 |s id flag slot ts Hq|s es s' ts Ho].
  - eapply (accounted_step tr s [] ts s' es _ _ []); [exact IH|by intros; eapply begin_tallied|done|done|].
    destruct (begin_leases _ _ _ _ _ _ Hb) as [E ->]. left. by rewrite E.
  - eapply (accounted_step tr s ts1 ts2 s' es _ _ [t]);
      [exact IH|by intros; eapply advance_tallied|intros; unfold held; simpl; lia|done|].
    apply advance_leases in Hd. simpl. by rewrite app_nil_r.
  - eapply (accounted_step tr s ts1 ts2 s' [] (fun token => held token [t]) (fun token => held token (opt_list t')) [t]); try done.
    + intros token. destruct t; simplify_eq/=; quiet_tally.
    + destruct t; simplify_eq/=; by left.
  - eapply (accounted_step tr s [] ts _ [] (fun _ => 0%nat) (fun _ => 0%nat) [] [Holding flag]);
      [exact IH|intros; quiet_tally|done|done|].
    apply acquire_lent in Hq as [? ?]. right; left. simpl. eauto 6.
  - eapply (accounted_step tr s [] ts s' es (fun _ => 0%nat) (fun _ => 0%nat) [] []);
      [exact IH|intros; destruct Ho; quiet_tally|done|done|].
    left. split; [|done]. destruct Ho; simpl; auto using invalidate_lent, cancel_lent.
Qed.

(** C12: In every interleaving of calls, reloads and cancellations a call reaches
    the exchange only for a token that an admitted run prepared.  From the
    admission of that run until the confirmation looked the grant up for the
    hand-over nothing happened to the plugin's grant; a choice of grants that is
    accepted after that look-up comes too late to stop the call, as in the
    source.  No plugin was reloaded up to the hand-over itself; the grant is one
    the user chose, it is bound to the account and the plugin the confirmation
    found current, and it permits what is handed over; and the token had not
    expired when the hand-over was decided. *)
Theorem confirmed_orders_are_authorized later token p call now tr y :
  execution (X := X) (later ++ EHanded token p call now :: tr) y ->
  authorized tr token p call now.
Proof.
  intros He. destruct (execution_agrees _ _ He) as [Ha _].
  by eapply (ag_handed _ _ Ha).
Qed.

(** C13: A token is confirmed at most as often as it was prepared. *)
Theorem tokens_are_single_use tr y token :
  execution (X := X) tr y ->
  (count (is_handed_of token) tr <= count (is_prepared_of token) tr)%nat.
Proof.
  intros He. destruct (execution_accounted _ _ He) as [Ho Hh _ _].
  specialize (Ho token). specialize (Hh token). lia.
Qed.

(** C25: What the runtime holds stays bounded, and one computation at a time has
    the slot: the tasks that hold a lease are exactly the one the slot names. *)
Theorem workflow_limits_hold tr y :
  execution (X := X) tr y ->
  Z.of_nat (size (grants (sh_workflow (sy_shared y)))) <= 256 /\
  Z.of_nat (size (pending (sh_workflow (sy_shared y)))) <= 32 /\
  concat (map leases (sy_tasks y)) = lent (sh_slot (sy_shared y)) /\
  (length (concat (map leases (sy_tasks y))) <= 1)%nat.
Proof.
  intros He. destruct (execution_accounted _ _ He) as [_ _ [Hg Hp] Hl].
  split; [done|]. split; [done|]. split; [done|]. rewrite Hl. unfold lent. case_match; simpl; [|lia].
  by destruct p.
Qed.
End Tally.

(** ** Receipts *)

Section Receipts.
Context `{DecimalLib}.

(** A rejection of the submission service means that no order was accepted,
    or that the identity is still to be settled and nothing was sent. *)
Lemma known_rejection_certain e :
  known_rejection e = true ->
  definitely_not_accepted e = true \/ exists id, e = OrderSubmissionBlocked id.
Proof.
  unfold known_rejection, definitely_not_accepted. rewrite orb_true_iff.
  intros [->|He]; [by left|].
  destruct e; try done; try (by left; rewrite ?orb_true_r); [|by right; eauto].
  left. by rewrite He, !orb_true_r.
Qed.

Lemma validate_order_ok o symbol_value :
  is_ok (validate_order o symbol_value) = true ->
  bounded_id (o_order_id o) = true /\ o_symbol o = symbol_value.
Proof.
  unfold validate_order. destruct (guard _ _) as [u|e|h] eqn:Eg; [|done..]. intros _.
  apply guard_ok in Eg. bools. split; [done|]. by apply String.eqb_eq.
Qed.

Lemma settle_answer_order p o status order code :
  settle_answer p (inr o) = (status, order, code) ->
  (status = TradeUnknown /\ order = None /\ is_Some code) \/
  (status = TradeAccepted /\ code = None /\ exists o', order = Some o' /\
     o_order_id o' = o_order_id o /\ o_symbol o' = symbol_of (p_output p) /\
     (forall target, p_target p = Some target -> o' = with_unknown_status target)).
Proof.
  unfold settle_answer. intros Es.
  destruct (bounded_id (o_order_id o)); [|by simplify_eq/=; left; eauto]. simpl in Es.
  destruct (p_target p) as [target|].
  - destruct (String.eqb_spec (o_order_id o) (o_order_id target)) as [Eid|];
      [|by simplify_eq/=; left; eauto].
    simpl in Es. destruct (is_ok _) eqn:Ev; simplify_eq; [right|by left; eauto].
    destruct (validate_order_ok _ _ Ev). split_and!; [done..|].
    exists (with_unknown_status target). split_and!; [done..|]. by intros ? [= <-].
  - destruct (is_ok _) eqn:Ev; simplify_eq; [right|by left; eauto].
    destruct (validate_order_ok _ _ Ev). split_and!; [done..|]. by exists o.
Qed.

(** What a receipt says is what the exchange answered: accepted only with an
    order of the proposal's symbol and, for a cancellation, of the captured
    identity, whose status is not claimed; rejected exactly on an answer that
    says that nothing was accepted; unknown otherwise. *)
Theorem receipts_are_truthful token p current answer :
  let r := confirm_receipt token p current answer in
  tr_token r = token /\ tr_submission_id r = p_submission_id p /\
  (tr_status r = TradeAccepted ->
     exists o o', answer = inr o /\ tr_order r = Some o' /\ tr_error_code r = None /\
       o_order_id o' = o_order_id o /\ o_symbol o' = symbol_of (p_output p) /\
       (forall target, p_target p = Some target -> o' = with_unknown_status target)) /\
  (tr_status r = TradeRejected <-> exists e, answer = inl e /\ known_rejection e = true) /\
  (tr_status r <> TradeAccepted -> tr_order r = None /\ is_Some (tr_error_code r)).
Proof.
  unfold confirm_receipt. destruct (settle_answer p answer) as [[status order] code] eqn:Es.
  simpl. split; [done|]. split; [done|].
  unfold settle_answer in Es. destruct answer as [e|o].
  - destruct (known_rejection e) eqn:Ek; simplify_eq.
    + split; [done|]. split; [|by eauto]. split; [by eauto|done].
    + split; [done|]. split; [|by eauto]. split; [done|]. intros (e' & [= <-] & ?). congruence.
  - destruct (settle_answer_order _ _ _ _ _ Es) as [(-> & -> & ?)|(-> & -> & o' & -> & ? & ? & ?)].
    + split; [done|]. split; [|done]. split; [done|by intros (? & ? & _)].
    + split; [by eauto 10|]. split; [|done]. split; [done|by intros (? & ? & _)].
Qed.
End Receipts.

(** ** Disabled plugins *)

Section Disabled.
Context `{SemverLib} `{Codec json} `{Base64Lib} `{Codec PluginManifest} `{Sha256Lib}.
Context `{UuidV4Lib} `{Codec OwnershipReceiptV1} `{Codec IndexWire} `{Codec StateWire}.
Context {W : Type} `{PluginStatePersistence W} `{ManagedOwnershipPersistence W}.

Lemma reconciled_disjoint b p found (r : Reconciled) : b ##ₘ locals (reconciled_publication b p found r).
Proof.
  destruct r as [[o classes] summary]. unfold reconciled_publication, visible_packages. simpl.
  apply map_disjoint_spec. intros k record record' Hb Hl.
  assert (forall ds (m : gmap string PluginRecord), (forall d, d ∈ ds -> b !! package_id d = None) ->
    m !! k = None -> fold_left (fun m d => <[package_id d := dp_record d]> m) ds m !! k = None) as Hf.
  { induction ds as [|d ds IH]; simpl; [done|]. intros m Hd Hm. apply IH.
    - intros d' Hd'. apply Hd. rewrite elem_of_cons. by right.
    - rewrite lookup_insert_ne; [done|]. intros E.
      assert (b !! package_id d = None) as Hn by (apply Hd; rewrite elem_of_cons; by left).
      by rewrite E, Hb in Hn. }
  rewrite Hf in Hl; [done| |by rewrite lookup_empty].
  intros d Hd. rewrite list_elem_of_In, List.filter_In in Hd. destruct Hd as [_ Hd].
  by destruct (b !! package_id d).
Qed.

(** A capture is of a plugin the state document enables. *)
Lemma resolve_enabled fail (r : PluginRegistry) plugin contribution generation revision record c :
  resolve fail r plugin contribution generation revision = Ok (record, c) ->
  exists s rw, runtime (publication r) = RAvailable s rw /\ find_record r plugin = Some record /\
               is_enabled s record = true.
Proof.
  unfold resolve. intros Hr. run_ok. bools. rename select (lendable r = _) into Hl.
  unfold lendable in Hl.
  destruct (runtime (publication r)) as [s rw|]; [|done]. case_match; [done|]. simplify_eq.
  by eexists _, rw.
Qed.

(** What a saved or needless decision leaves. *)
Definition decided_as (r r' : PluginRegistry) (record : PluginRecord) (enabled : bool) : Prop :=
  exists s rw next rw',
    runtime (publication r) = RAvailable s rw /\ runtime (publication r') = RAvailable next rw' /\
    (forall other, is_enabled next other = decided_for s record other enabled) /\
    builtins r' = builtins r /\ locals (publication r') = locals (publication r).

Lemma persist_decision_decided record enabled r (w : W) u r' w' :
  persist_decision record enabled (r, w) = (Ok u, (r', w')) -> decided_as r r' record enabled.
Proof.
  unfold persist_decision. intros Hp. apply mmap_err_ok in Hp.
  unfold persist_decision_with_outcome, mget in Hp. apply mbind_ok in Hp as (r0 & w0 & Hg & Hp).
  injection Hg as <- <-. simpl in Hp. apply mbind_ok in Hp as (u0 & w1 & Hg & Hp).
  apply mlift_ok in Hg as [_ ->].
  destruct (runtime (publication r)) as [s rw|] eqn:Er; [|done].
  apply mbind_ok in Hp as (decision & w1 & Hd & Hp). apply mlift_ok in Hd as [Hd ->].
  pose proof (next_decision_spec s rw record enabled decision) as Hspec.
  destruct decision as [next|]; [|injection Hp as <- <- <-; exists s, rw, s, rw; split_and!; auto].
  apply mbind_ok in Hp as (result & w1 & Hb & Hp). unfold beside in Hb. simpl in Hb.
  destruct (outcome_of (state_save next) w) as [o w2]. injection Hb as -> <-.
  unfold mput in Hp. apply mbind_ok in Hp as (u1 & w3 & Hput & Hp). injection Hput as <- <-.
  destruct result as [o|o]; [done|]. simpl in Hp.
  destruct (persist_outcome_committed o); [|done]. injection Hp as <- <- <-.
  exists s, rw, next, false. split_and!; auto.
Qed.

Lemma set_enabled_decided id enabled generation r (w : W) result r' w' :
  set_enabled id enabled generation (r, w) = (Ok result, (r', w')) ->
  exists record,
    match builtins r !! id with Some record => Some record | None => locals (publication r) !! id end
      = Some record /\ decided_as r r' record enabled.
Proof.
  unfold set_enabled, mget. intros Hs. apply mbind_ok in Hs as (r0 & w0 & Hg & Hs).
  injection Hg as <- <-. simpl in Hs.
  do 3 (apply mbind_ok in Hs as (? & ? & Hg & Hs); apply mlift_ok in Hg as [_ ->]).
  apply mbind_ok in Hs as (record & ? & Hg & Hs); apply mlift_ok in Hg as [Hg ->].
  apply mbind_ok in Hs as (? & ? & Hq & Hs); apply mlift_ok in Hq as [_ ->].
  apply mbind_ok in Hs as (u & [r1 w1] & Hp & Hs). apply ok_or_ok in Hg. exists record. split; [done|].
  apply mbind_ok in Hs as (r2 & w2 & Hq & Hs). injection Hq as <- <-. simpl in Hs.
  assert ((r1, w1) = (r', w')) as [= <- <-].
  { destruct (runtime (publication r1)); [|by apply mlift_ok in Hs as [? _]].
    unfold mret in Hs. congruence. }
  by eapply persist_decision_decided.
Qed.

(** The plugin a decision disabled is enabled in no version. *)
Lemma disabled_everywhere r r' record record' id :
  catalog_ok (builtins r) (publication r) -> builtins r ##ₘ locals (publication r) ->
  match builtins r !! id with Some record => Some record | None => locals (publication r) !! id end
    = Some record ->
  decided_as r r' record false ->
  find_record r' id = Some record' ->
  forall s rw, runtime (publication r') = RAvailable s rw -> is_enabled s record' = false.
Proof.
  intros Hok Hdis Hr (s0 & rw0 & next & rw' & _ & Hr' & Hd & Hb & Hl) Hf s rw Hs.
  assert (next = s) as -> by congruence. rewrite Hd.
  assert (record' = record) as ->.
  { unfold find_record in Hf. rewrite Hb, Hl in Hf. rewrite map_disjoint_spec in Hdis.
    destruct (builtins r !! id) eqn:E1, (locals (publication r) !! id) eqn:E2;
      [by destruct (Hdis id p p0)|congruence..]. }
  unfold decided_for, same. by rewrite bool_decide_eq_true_2.
Qed.

(** C26: Once a plugin is disabled nothing of it is lent: no workflow and no
    computation of it is admitted, bound or confirmed on that catalog. *)
Theorem disabled_plugins_lend_nothing id generation r (w : W) result r' w' :
  catalog_ok (builtins r) (publication r) -> builtins r ##ₘ locals (publication r) ->
  set_enabled id false generation (r, w) = (Ok result, (r', w')) ->
  (forall request c, ar_plugin_id request = id -> capture_workflow r' request <> Ok c) /\
  (forall request c, cr_plugin_id request = id -> capture_compute r' request <> Ok c).
Proof.
  intros Hok Hdis Hs. destruct (set_enabled_decided _ _ _ _ _ _ _ _ Hs) as (record & Hr & Hd).
  assert (forall fail contribution generation revision x,
    resolve fail r' id contribution generation revision <> Ok x) as Hno.
  { intros fail contribution gen revision [record' c] Hres.
    destruct (resolve_enabled _ _ _ _ _ _ _ _ Hres) as (s & rw & Hrt & Hf & He).
    rewrite (disabled_everywhere _ _ _ _ _ Hok Hdis Hr Hd Hf _ _ Hrt) in He. done. }
  split; intros request c Hid Hc; [unfold capture_workflow in Hc|unfold capture_compute in Hc];
    rewrite Hid in Hc; apply obind_ok in Hc as (_ & _ & Hc); apply obind_ok in Hc as (x & Hx & _);
    by eapply Hno.
Qed.
End Disabled.
