(* ===== verification/Concrete.v ===== *)
(** Concrete instances of the interfaces of External.v and of the codecs: small
    functions with the documented behaviour, at which the theorems are applied
    to concrete inputs. *)
From stdpp Require Import gmap countable.
From Stdlib Require Import Ascii DecimalFacts DecimalString DecimalPos DecimalN DecimalZ SpecFloat.
From S2P Require Import Prelude RustStr FileSystem External Models Time ConfigPersistence OrderJournal RiskUsage OrderSubmission KlineStore KlineFacts StrategyTypes StrategyStore Engine.

(** ** Numbers as text: decimals without a fraction *)

Definition z_to_text (z : Z) : string := NilZero.string_of_int (Z.to_int z).
Definition text_to_z (s : string) : option Z := option_map Z.of_int (NilZero.int_of_string s).

Lemma text_to_z_to_text z : text_to_z (z_to_text z) = Some z.
Proof.
  assert (forall p, Pos.to_uint p <> Decimal.Nil) as Hp by apply DecimalPos.Unsigned.to_uint_nonnil.
  unfold text_to_z, z_to_text. rewrite NilZero.isi.
  - simpl. by rewrite DecimalZ.of_to.
  - intros E. destruct z as [|q|q]; simpl in E; try done. injection E as E. by apply (Hp q).
  - intros E. destruct z as [|q|q]; simpl in E; try done. injection E as E. by apply (Hp q).
Qed.

(** Decimal digits of a number below a power of ten. *)
Lemma of_uint_acc_lower l acc :
  Z.pos acc * 10 ^ Z.of_nat (Decimal.nb_digits l) <= Z.pos (Pos.of_uint_acc l acc).
Proof.
  revert acc. induction l; intros acc; cbn [Decimal.nb_digits Pos.of_uint_acc]; [lia|..];
    (rewrite Nat2Z.inj_succ, Z.pow_succ_r by lia;
     etrans; [|apply IHl]; rewrite Z.mul_assoc; apply Z.mul_le_mono_nonneg_r; lia).
Qed.

Lemma to_uint_digits p : 10 ^ (Z.of_nat (Decimal.nb_digits (Pos.to_uint p)) - 1) <= Z.pos p.
Proof.
  pose proof (DecimalPos.Unsigned.of_to p) as Ho.
  pose proof (DecimalPos.Unsigned.to_uint_nonnil p) as Hn.
  assert (Decimal.unorm (Pos.to_uint p) = Pos.to_uint p) as Hu.
  { rewrite <-(DecimalN.Unsigned.to_of (Pos.to_uint p)). unfold N.of_uint. by rewrite Ho. }
  destruct (Pos.to_uint p) as [|l|l|l|l|l|l|l|l|l|l]; [done| |
    cbn [Decimal.nb_digits] in *; unfold Pos.of_uint in Ho; injection Ho as Ho; rewrite <-Ho;
    rewrite Nat2Z.inj_succ, Z.sub_1_r, Z.pred_succ;
    (etrans; [|apply of_uint_acc_lower]); nia ..].
  exfalso. assert (Decimal.nzhead l = Decimal.D0 l \/ l = Decimal.Nil) as [E|E].
  { unfold Decimal.unorm in Hu. cbn [Decimal.nzhead] in Hu.
    destruct (Decimal.nzhead l) eqn:E; try (left; congruence). right. by injection Hu as <-. }
  - assert (Decimal.nb_digits (Decimal.nzhead l) <= Decimal.nb_digits l)%nat by apply nb_digits_nzhead.
    rewrite E in *. cbn in *. lia.
  - subst l. discriminate Ho.
Qed.

Lemma uint_text_length d : String.length (NilEmpty.string_of_uint d) = Decimal.nb_digits d.
Proof. induction d; simpl; by rewrite ?IHd. Qed.

Lemma uint_text_digits d : forallb is_ascii_digit (bytes_of (NilEmpty.string_of_uint d)) = true.
Proof. induction d; done. Qed.

Definition digits_of (p : positive) : string := NilEmpty.string_of_uint (Pos.to_uint p).

Lemma z_text_pos p : z_to_text (Z.pos p) = digits_of p.
Proof.
  unfold z_to_text, digits_of. simpl. pose proof (DecimalPos.Unsigned.to_uint_nonnil p).
  by destruct (Pos.to_uint p).
Qed.
Lemma z_text_neg p : z_to_text (Z.neg p) = String "-" (digits_of p).
Proof.
  unfold z_to_text, digits_of. simpl. pose proof (DecimalPos.Unsigned.to_uint_nonnil p).
  by destruct (Pos.to_uint p).
Qed.

Definition dec96_max : Z := 79228162514264337593543950335.

Lemma digits_of_length p : Z.pos p <= dec96_max -> 1 <= len (digits_of p) <= 29.
Proof.
  intros Hp. unfold len, digits_of. rewrite uint_text_length.
  pose proof (DecimalPos.Unsigned.to_uint_nonnil p) as Hn. pose proof (to_uint_digits p) as Hd.
  split; [destruct (Pos.to_uint p); [by destruct Hn|cbn [Decimal.nb_digits]; lia..]|].
  destruct (Z.le_gt_cases (Z.of_nat (Decimal.nb_digits (Pos.to_uint p))) 29) as [|Hl]; [done|].
  assert (10 ^ 29 <= 10 ^ (Z.of_nat (Decimal.nb_digits (Pos.to_uint p)) - 1))
    by (apply Z.pow_le_mono_r; lia).
  unfold dec96_max in Hp. lia.
Qed.

(** A text of digits neither starts nor ends with a point. *)
Lemma digits_no_point s :
  forallb is_ascii_digit (bytes_of s) = true ->
  starts_with s "." = false /\ ends_with s "." = false.
Proof.
  intros Hs. split.
  - unfold starts_with. destruct s as [|c s]; [done|]. simpl in Hs.
    cbn [String.prefix]. destruct (ascii_dec "." c) as [E|]; [by subst c|done].
  - unfold ends_with, strip_suffix. cbn [string_rev string_rev_app].
    assert (forall acc, strip_prefix "." acc = None ->
              strip_prefix "." (string_rev_app s acc) = None) as Hrev.
    { induction s as [|c s IH]; intros acc Ha; [done|]. cbn [string_rev_app].
      apply andb_true_iff in Hs as [Hc Hs]. apply (IH Hs). cbn [strip_prefix].
      destruct (Ascii.eqb_spec "." c) as [E|]; [by subst c|done]. }
    unfold string_rev. cbn [string_rev_app]. by rewrite (Hrev ""%string eq_refl).
Qed.

(** A number of at most 96 bits. *)
Definition dec96 : Type := {z : Z | (Z.abs z <=? dec96_max) = true}.

Definition bounded (z : Z) : option dec96 :=
  match bool_dec (Z.abs z <=? dec96_max) true with left H => Some (exist _ z H) | right _ => None end.

Definition dec96_of (z : Z) : dec96 :=
  match bounded z with Some d => d | None => exist _ 0 eq_refl end.

Lemma bounded_val z d : bounded z = Some d -> `d = z.
Proof. unfold bounded. destruct (bool_dec _ _); [|done]. by intros [= <-]. Qed.

Lemma bounded_self (d : dec96) : exists d', bounded (`d) = Some d' /\ `d' = `d.
Proof.
  unfold bounded. destruct d as [z Hz]. simpl. destruct (bool_dec _ _); [by eexists|done].
Qed.

#[export] Instance IntegerDecimal : DecimalLib := {
  Dec := dec96;
  dec_from_str s := text_to_z s ≫= bounded;
  dec_from_str_exact s := text_to_z s ≫= bounded;
  dec_cmp a b := Z.compare (`a) (`b);
  dec_of_Z := dec96_of;
  dec_checked_add a b := bounded (`a + `b);
  dec_sub a b := bounded (`a - `b);
  dec_mul a b := bounded (`a * `b);
  dec_div a b := if `b =? 0 then None else bounded (Z.quot (`a) (`b));
  dec_abs d := dec96_of (Z.abs (`d));
  dec_normalize d := d;
  dec_to_string d := z_to_text (`d);
  dec_to_f64 d := Some (f64_of_Z (`d));
}.

#[export] Instance IntegerDecimalLaws : DecimalLaws.
Proof.
  split; simpl.
  - intros a b. apply Z.compare_antisym.
  - intros a b c. unfold dec_leb. simpl. generalize (`a), (`b), (`c). intros x y z.
    destruct (Z.compare_spec x y), (Z.compare_spec y z), (Z.compare_spec x z); intros; try done; lia.
  - intros d. apply Z.compare_refl.
  - intros a b c Hc%bounded_val. unfold dec_leb, dec_zero. simpl. rewrite Hc.
    change (`(dec96_of 0)) with 0. generalize (`a), (`b). intros x y.
    destruct (Z.compare_spec y (x + y)), x; intros; try done; lia.
  - intros d. rewrite text_to_z_to_text. destruct (bounded_self d) as (d' & E & Ev).
    exists d'. split; [done|]. rewrite Ev. apply Z.compare_refl.
Defined.

#[export] Instance IntegerDecimalTextLaws : DecimalTextLaws.
Proof.
  split; cbn [dec_normalize dec_to_string dec_cmp IntegerDecimal].
  - eexists. split; [reflexivity|done].
  - intros a b E%Z.compare_eq. by rewrite E.
  - intros [z Hz]. simpl. apply Z.leb_le in Hz. destruct z as [|p|p]; [done|..].
    + rewrite z_text_pos. pose proof (digits_of_length p). lia.
    + rewrite z_text_neg. pose proof (digits_of_length p). unfold len in *. cbn [String.length]. lia.
  - intros [z Hz]. cbn [proj1_sig].
    assert (dec_ltb (exist _ z Hz) dec_zero = (z <? 0)) as -> by (by destruct z).
    destruct z as [|p|p]; [done|..]; pose proof (uint_text_digits (Pos.to_uint p)) as Hd;
      rewrite ?z_text_pos, ?z_text_neg.
    + eapply forallb_impl; [|exact Hd]. by intros b ->.
    + cbn -[digits_of]. eapply forallb_impl; [|exact Hd]. by intros b ->.
  - intros [z Hz]. cbn [proj1_sig]. destruct z as [|p|p]; [done|..].
    + rewrite z_text_pos.
      assert (strip_prefix "-" (digits_of p) = None) as E
        by (unfold digits_of; by destruct (Pos.to_uint p)).
      cbn zeta. rewrite E. by apply digits_no_point, uint_text_digits.
    + rewrite z_text_neg. apply (digits_no_point (digits_of p)), uint_text_digits.
Defined.

(** ** Zones: a fixed offset, and one whose midnights are all lost *)

Inductive zone := Shanghai | LostMidnight.

Definition zone_offset (z : zone) : Z := match z with Shanghai => 28800000 | LostMidnight => 0 end.

#[export] Instance FixedZones : TimezoneLib := {
  Tz := zone;
  DateTime := Z;
  LocalMidnight := Z;
  tz_parse s :=
    if s ==s "Asia/Shanghai" then Some Shanghai
    else if s ==s "Lost/Midnight" then Some LostMidnight else None;
  tz_shanghai := Shanghai;
  utc_from_millis ms := Some ms;
  local_midnight z ms := (ms + zone_offset z) / 86400000;
  date_text day := z_to_text day;
  local_single_millis z day :=
    match z with Shanghai => Some (day * 86400000 - zone_offset z) | LostMidnight => None end;
}.

(** ** A digest of 64 hexadecimal digits *)

Definition hex_digit (n : Z) : ascii :=
  ascii_of_N (Z.to_N (if n <? 10 then 48 + n else 87 + n)).

Fixpoint hex_digits (count : nat) (n : Z) : string :=
  match count with
  | O => ""
  | S count => String (hex_digit (n mod 16)) (hex_digits count (n / 16))
  end.

Definition digest (s : string) : string :=
  hex_digits 64 (fold_left (fun acc b => (acc * 257 + b) mod 2 ^ 256) (bytes_of s) 7).

#[export] Instance SmallDigest : Sha256Lib := { sha256_hex := digest }.

Lemma hex_digits_length count n : String.length (hex_digits count n) = count.
Proof. revert n. induction count; intros n; simpl; [done|]. by rewrite IHcount. Qed.

Lemma hex_digit_ok n : 0 <= n < 16 -> is_ascii_hexdigit (byte_val (hex_digit n)) = true.
Proof.
  intros Hn. assert (exists k, n = Z.of_nat k /\ (k < 16)%nat) as (k & -> & Hk).
  { exists (Z.to_nat n). lia. }
  do 16 (destruct k as [|k]; [done|]). lia.
Qed.

Lemma hex_digits_ok count n : forallb is_ascii_hexdigit (bytes_of (hex_digits count n)) = true.
Proof.
  revert n. induction count; intros n; simpl; [done|].
  rewrite hex_digit_ok by (apply Z.mod_pos_bound; lia). apply IHcount.
Qed.

#[export] Instance SmallDigestLaws : Sha256Laws.
Proof. split; intros s; [apply hex_digits_length|apply hex_digits_ok]. Defined.

(** ** A self-delimiting text for every countable type *)

Fixpoint pos_text (p : positive) : string :=
  match p with
  | xH => "."
  | xO p => String "0" (pos_text p)
  | xI p => String "1" (pos_text p)
  end.

Fixpoint text_pos (s : string) : option positive :=
  match s with
  | EmptyString => None
  | String c s' =>
      if Ascii.eqb c "." then (if is_empty s' then Some xH else None)
      else if Ascii.eqb c "0" then option_map xO (text_pos s')
      else if Ascii.eqb c "1" then option_map xI (text_pos s')
      else None
  end.

Lemma text_pos_text p : text_pos (pos_text p) = Some p.
Proof. induction p; simpl; try done; by rewrite IHp. Qed.

(** A proper prefix of a text decodes to nothing. *)
Lemma text_pos_prefix p torn :
  String.prefix torn (pos_text p) = true -> torn = pos_text p \/ text_pos torn = None.
Proof.
  revert torn. induction p; intros [|c torn]; simpl; auto.
  - destruct (ascii_dec c "1") as [->|]; [|done]. intros [->| ->]%IHp; auto.
  - destruct (ascii_dec c "0") as [->|]; [|done]. intros [->| ->]%IHp; auto.
  - destruct (ascii_dec c ".") as [->|]; [|done]. destruct torn; [by left|done].
Qed.

Lemma pos_text_line p :
  forallb (fun b => negb (b =? 10)) (bytes_of (pos_text p)) = true /\
  drop_last_cr (pos_text p) = pos_text p /\ trim_is_empty (pos_text p) = false /\
  utf8_valid (bytes_of (pos_text p)) = true.
Proof.
  assert (forall q, exists c s, pos_text q = String c s) as Hne by (intros []; simpl; eauto).
  split_and!.
  - induction p; simpl; auto.
  - induction p as [p IH|p IH|]; [| |done].
    + simpl. destruct (Hne p) as (c & s & E). rewrite E in *. by rewrite IH.
    + simpl. destruct (Hne p) as (c & s & E). rewrite E in *. by rewrite IH.
  - do 4 (try (destruct p as [p|p|]; try done)).
  - induction p; simpl; auto.
Qed.

Definition countable_encode {A} `{Countable A} (a : A) : option string :=
  Some (pos_text (countable.encode a)).
Definition countable_decode {A} `{Countable A} (s : string) : option A :=
  match text_pos s with Some p => countable.decode p | None => None end.

Lemma countable_decode_encode {A} `{Countable A} (a : A) text :
  countable_encode a = Some text -> countable_decode text = Some a.
Proof.
  intros [= <-]. unfold countable_decode. rewrite text_pos_text. apply countable.decode_encode.
Qed.

(** ** The records of the stores *)

Abbreviation enc := countable.encode.
Abbreviation dec := countable.decode.

Lemma bind_dec {A B : Type} `{Countable A} (a : A) (f : A -> option B) : (dec (enc a) ≫= f) = f a.
Proof. by rewrite countable.decode_encode. Qed.

#[export] Instance RiskUsage_countable : Countable RiskUsage.
Proof.
  refine (inj_countable
    (fun u => [enc (u_schema_version u); enc (u_trading_day u); enc (u_timezone u);
               enc (u_occupied_orders u); enc (u_updated_at_ms u)])
    (fun l => match l with
              | [a; b; c; d; e] =>
                  a ← dec a; b ← dec b; c ← dec c; d ← dec d; e ← dec e;
                  Some (Build_RiskUsage a b c d e)
              | _ => None
              end) _).
  intros []. cbn beta iota. by rewrite !bind_dec.
Defined.

#[export] Instance Kline_countable : Countable Kline.
Proof.
  refine (inj_countable
    (fun k => [enc (k_symbol k); enc (k_interval k); enc (k_open_time k); enc (k_open k);
               enc (k_high k); enc (k_low k); enc (k_close k); enc (k_volume k)])
    (fun l => match l with
              | [a; b; c; d; e; f; g; h] =>
                  a ← dec a; b ← dec b; c ← dec c; d ← dec d;
                  e ← dec e; f ← dec f; g ← dec g; h ← dec h;
                  Some (Build_Kline a b c d e f g h)
              | _ => None
              end) _).
  intros []. cbn beta iota. by rewrite !bind_dec.
Defined.

#[export] Instance OrderStatus_countable : Countable OrderStatus.
Proof.
  refine (inj_countable
    (fun s => match s with New => 0%nat | PartiallyFilled => 1%nat | Filled => 2%nat
                         | Cancelled => 3%nat | Rejected => 4%nat | Unknown => 5%nat end)
    (fun n => match n with 0%nat => Some New | 1%nat => Some PartiallyFilled | 2%nat => Some Filled
                         | 3%nat => Some Cancelled | 4%nat => Some Rejected | 5%nat => Some Unknown
                         | _ => None end) _).
  by intros [].
Defined.

#[export] Instance Order_countable : Countable Order.
Proof.
  refine (inj_countable
    (fun o => [enc (o_order_id o); enc (o_symbol o); enc (o_side o); enc (o_order_type o);
               enc (o_price o); enc (o_qty o); enc (o_status o); enc (o_order_link_id o);
               enc (o_filled_qty o); enc (o_avg_price o)])
    (fun l => match l with
              | [a; b; c; d; e; f; g; h; i; j] =>
                  a ← dec a; b ← dec b; c ← dec c; d ← dec d; e ← dec e;
                  f ← dec f; g ← dec g; h ← dec h; i ← dec i; j ← dec j;
                  Some (Build_Order a b c d e f g h i j)
              | _ => None
              end) _).
  intros []. cbn beta iota. by rewrite !bind_dec.
Defined.

#[export] Instance OrderProtection_countable : Countable OrderProtection.
Proof.
  refine (inj_countable
    (fun p => [enc (take_profit p); enc (stop_loss p); enc (trigger_by p)])
    (fun l => match l with
              | [a; b; c] => a ← dec a; b ← dec b; c ← dec c; Some (Build_OrderProtection a b c)
              | _ => None
              end) _).
  intros []. cbn beta iota. by rewrite !bind_dec.
Defined.

#[export] Instance PlaceOrderRequest_countable : Countable PlaceOrderRequest.
Proof.
  refine (inj_countable
    (fun r => [enc (r_symbol r); enc (r_side r); enc (r_order_type r); enc (r_qty r);
               enc (r_position_idx r); enc (r_price r); enc (r_time_in_force r);
               enc (r_order_link_id r); enc (r_reduce_only r); enc (r_protection r)])
    (fun l => match l with
              | [a; b; c; d; e; f; g; h; i; j] =>
                  a ← dec a; b ← dec b; c ← dec c; d ← dec d; e ← dec e;
                  f ← dec f; g ← dec g; h ← dec h; i ← dec i; j ← dec j;
                  Some (Build_PlaceOrderRequest a b c d e f g h i j)
              | _ => None
              end) _).
  intros []. cbn beta iota. by rewrite !bind_dec.
Defined.

#[export] Instance SubmissionOutcome_countable : Countable SubmissionOutcome.
Proof.
  refine (inj_countable
    (fun o => match o with Pending => inl false | SubRejected => inl true | Accepted a => inr a end)
    (fun x => match x with inl false => Some Pending | inl true => Some SubRejected
                         | inr a => Some (Accepted a) end) _).
  by intros [].
Defined.

#[export] Instance StoredSubmission_countable : Countable StoredSubmission.
Proof.
  refine (inj_countable
    (fun s => [enc (s_schema_version s); enc (s_scope s); enc (s_order_link_id s);
               enc (s_request s); enc (s_created_at_ms s); enc (s_outcome s); enc (s_acknowledged s)])
    (fun l => match l with
              | [a; b; c; d; e; f; g] =>
                  a ← dec a; b ← dec b; c ← dec c; d ← dec d; e ← dec e; f ← dec f; g ← dec g;
                  Some (Build_StoredSubmission a b c d e f g)
              | _ => None
              end) _).
  intros []. cbn beta iota. by rewrite !bind_dec.
Defined.

(** ** The codecs and their laws *)

#[export] Instance SubmissionCodec : Codec StoredSubmission :=
  { encode := countable_encode; decode := countable_decode }.
#[export] Instance SubmissionCodecLaws : CodecLaws StoredSubmission (fun _ => True).
Proof. split. intros a bytes _. apply countable_decode_encode. Defined.

#[export] Instance KlineCodec : Codec Kline :=
  { encode := countable_encode; decode := countable_decode }.
#[export] Instance KlineCodecLaws : KlineLaws.
Proof.
  split; simpl.
  - intros k text. apply countable_decode_encode.
  - intros k text [= <-]. apply pos_text_line.
Defined.

(** A ledger whose count is negative decodes to nothing. *)
#[export] Instance UsageCodec : Codec RiskUsage :=
  { encode := countable_encode;
    decode s := match countable_decode s with
                | Some u => if 0 <=? u_occupied_orders u then Some u else None
                | None => None
                end }.
#[export] Instance UsageCodecLaws : TornLaws.
Proof.
  split; simpl.
  - intros u text torn u' [= <-] Hp Hd.
    destruct (text_pos_prefix _ _ Hp) as [->|Hn].
    + rewrite (countable_decode_encode u) in Hd by done. destruct (0 <=? _); by simplify_eq.
    + unfold countable_decode in Hd. by rewrite Hn in Hd.
  - intros text u Hd. destruct (countable_decode text) as [u'|]; [|done].
    destruct (Z.leb_spec 0 (u_occupied_orders u')); by simplify_eq.
Defined.

#[export] Instance RequestEq : JsonEq PlaceOrderRequest := { json_eqb a b := bool_decide (a = b) }.
#[export] Instance RequestEqLaws : JsonEqLaws PlaceOrderRequest.
Proof. split. intros a b. apply bool_decide_eq_true. Defined.

#[export] Instance PlainErrors : ErrorText := {
  io_display e := match e with NotFound => "not found" | AlreadyExists => "exists" | OtherIo => "io" end;
  toml_error_text s := s;
}.

(** ** The strategy engine *)

(** Identifiers in the form of a UUID: 36 hexadecimal digits or hyphens. *)
#[export] Instance UuidText : UuidLib := {
  uuid_ok s := (len s =? 36)
               && forallb (fun b => is_ascii_hexdigit b || (b =? 45)) (bytes_of s);
}.

(** JSON texts of flat objects of strings: enough for states and inputs. *)
Definition member_text (m : string * json) : option string :=
  match m.2 with JString v => Some (m.1 +:+ ":" +:+ v +:+ ",") | _ => None end.

Definition flat_text (j : json) : option string :=
  match j with
  | JObject members =>
      option_map (fun texts => "{" +:+ String.concat "" texts +:+ "}") (mapM member_text members)
  | _ => None
  end.

#[export] Instance FlatJson : Codec json :=
  { encode := flat_text; decode s := if s ==s "{}" then Some (JObject []) else None }.

(** A store of one document whose saves fail while it is [broken]. *)
Record Disk := { stored : StrategyDocument; broken : bool }.

#[export] Instance DiskStore : StrategyStore Disk := {
  store_load x := (if broken x then Err storage_unavailable else Ok (stored x), x);
  store_save doc x :=
    if broken x then (Err storage_unavailable, x)
    else (Ok tt, {| stored := doc; broken := false |});
}.

Definition disk_holds (x : Disk) (d : StrategyDocument) : Prop := stored x = d.
Definition disk_crash (x y : Disk) : Prop := stored x = stored y.

#[export] Instance DiskStoreLaws : StoreLaws Disk disk_holds disk_crash.
Proof.
  split; unfold disk_holds, disk_crash; simpl.
  - intros x d x'. destruct (broken x); [done|]. by intros [= <-].
  - done.
  - intros x doc x' d. destruct (broken x); [done|]. by intros [= <-].
  - intros x doc d. destruct (broken x); simpl; auto.
  - by intros x y d -> <-.
Defined.

(** Texts of strategy documents without runs: the revision in braces. *)
Fixpoint revision_end (s : string) : option string :=
  match s with
  | EmptyString => None
  | String c s =>
      if Ascii.eqb c "}" then (if is_empty s then Some "" else None)
      else if is_ascii_digit (byte_val c) then option_map (String c) (revision_end s) else None
  end.

Definition document_text (d : StrategyDocument) : option string :=
  if (d_schema_version d =? 1) && forallb is_ascii_digit (bytes_of (d_revision d))
  then match d_runs d with [] => Some ("{" +:+ d_revision d +:+ "}") | _ => None end
  else None.

Definition text_document (s : string) : option StrategyDocument :=
  match strip_prefix "{" s with
  | Some s => option_map (fun r => {| d_schema_version := 1; d_revision := r; d_runs := [] |})
                (revision_end s)
  | None => None
  end.

#[export] Instance DocumentCodec : Codec StrategyDocument :=
  { encode := document_text; decode := text_document }.

Lemma revision_end_text r :
  forallb is_ascii_digit (bytes_of r) = true -> revision_end (r +:+ "}") = Some r.
Proof.
  induction r as [|c r IH]; [done|]. intros [Hc Hr]%andb_true_iff.
  change (revision_end (String c (r +:+ "}")) = Some (String c r)). cbn [revision_end].
  rewrite Hc, (IH Hr). destruct (Ascii.eqb_spec c "}") as [->|]; done.
Qed.

Lemma revision_end_prefix s s' r r' :
  revision_end s = Some r -> String.prefix s' s = true -> revision_end s' = Some r' -> r' = r.
Proof.
  revert s' r r'. induction s as [|c s IH]; intros [|c' s'] r r'; try done.
  cbn [String.prefix revision_end]. destruct (ascii_dec c' c) as [->|]; [|done].
  destruct (Ascii.eqb c "}").
  - destruct s as [|a s]; [|done]. destruct s' as [|a' s']; [|done]. by intros [= <-] _ [= <-].
  - destruct (is_ascii_digit (byte_val c)); [|done].
    destruct (revision_end s) as [r1|] eqn:E1; [|done]. intros [= <-] Hp.
    destruct (revision_end s') as [r2|] eqn:E2; [|done]. intros [= <-]. f_equal. eauto.
Qed.

#[export] Instance DocumentCodecLaws `{DecimalLib} `{Codec json} `{UuidLib} :
  CodecLaws StrategyDocument (fun d => StrategyDocument_validate d = Ok tt).
Proof.
  split. intros [v r runs] bytes _. cbn [encode decode DocumentCodec]. unfold document_text. simpl.
  destruct (Z.eqb_spec v 1) as [->|]; [|done].
  destruct (forallb is_ascii_digit (bytes_of r)) eqn:Er; [|done]. simpl.
  destruct runs; [|done]. intros [= <-].
  assert (text_document ("{" +:+ r +:+ "}")
          = option_map (fun r => {| d_schema_version := 1; d_revision := r; d_runs := [] |})
              (revision_end (r +:+ "}"))) as E by reflexivity.
  change (text_document ("{" +:+ r +:+ "}")
          = Some {| d_schema_version := 1; d_revision := r; d_runs := [] |}).
  by rewrite E, revision_end_text.
Defined.

#[export] Instance DocumentTextLaws : ObjectTextLaws StrategyDocument.
Proof.
  split. intros t t' a a'. cbn [decode DocumentCodec]. unfold text_document.
  destruct t as [|c t]; [done|]. destruct t' as [|c' t']; [done|]. cbn [strip_prefix String.prefix].
  destruct (Ascii.eqb_spec "{" c) as [<-|]; [|done].
  destruct (ascii_dec c' "{") as [->|]; [|done]. cbn.
  destruct (revision_end t) as [r|] eqn:E1; [|done]. intros [= <-] Hp.
  destruct (revision_end t') as [r'|] eqn:E2; [|done]. intros [= <-]. f_equal.
  by eapply revision_end_prefix.
Defined.
