(* ===== verification/Witnesses.v ===== *)
(** The theorems applied to concrete inputs, with the instances of Concrete.v. *)
From stdpp Require Import gmap relations.
From S2P Require Import Prelude RustStr FileSystem External Models Time ConfigPersistence OrderJournal RiskUsage Risk OrderSubmission Trading BTreeMap KlineStore KlineFacts Concrete.

(** ** Shared inputs *)

Definition buy : PlaceOrderRequest :=
  {| r_symbol := "BTCUSDT"; r_side := "Buy"; r_order_type := "Limit"; r_qty := "2";
     r_position_idx := 0; r_price := Some "101"; r_time_in_force := None;
     r_order_link_id := Some "id-1"; r_reduce_only := None; r_protection := None |}.

Definition receipt : Order :=
  {| o_order_id := "77"; o_symbol := ""; o_side := ""; o_order_type := ""; o_price := ""; o_qty := "";
     o_status := New; o_order_link_id := None; o_filled_qty := "0"; o_avg_price := "" |}.

Definition blank_world : fs_world := FsWorld ∅ [].

(** ** Order submissions *)

(** An exchange that answers every submission with the receipt. *)
Definition accepting (request : PlaceOrderRequest) (x : unit) : outcome AppError Order * unit :=
  (Ok receipt, x).

Definition submit_twice : sub_world unit :=
  let w0 := SubWorld blank_world [] tt in
  let w1 := snd (submit_once ["journal"] "scope" buy 5 accepting w0) in
  snd (submit_once ["journal"] "scope" buy 6 accepting w1).

Lemma at_most_one_submission_witness :
  w_sent submit_twice = [("scope", buy)] /\ NoDup (map identity_of (w_sent submit_twice)).
Proof.
  split; [vm_compute; reflexivity|].
  apply (at_most_one_submission ["journal"] (SubWorld blank_world [] tt) submit_twice); [reflexivity|].
  eapply rtc_l; [apply (step_submit _ _ "scope" buy 5 accepting)|].
  eapply rtc_l; [apply (step_submit _ _ "scope" buy 6 accepting)|]. apply rtc_refl.
Defined.

(** ** Saving a configuration *)

Definition config_world (schedule : list fault) : fs_world :=
  FsWorld {[ ["app"] := Dir; ["config.toml"; "app"] := File "old" true ]} schedule.

Definition parse_any (text : string) : outcome AppError string := Ok text.

Lemma walkable_app schedule : walkable ["app"] (nodes (config_world schedule)).
Proof. intros name. vm_compute. reflexivity. Defined.

(** The process dies while the temporary is half written. *)
Lemma save_crash_atomic_witness :
  let w := config_world [Pass; Pass; CrashOp 1] in
  fst (ConfigPersistence.save ["config.toml"; "app"] "new" w) = Halt Crashed /\
  let '(saved, w1) := ConfigPersistence.save ["config.toml"; "app"] "new" w in
  exists c w2,
    ConfigPersistence.load parse_any ["config.toml"; "app"] (restart (fun _ => 0%nat) [] w1) = (Ok (Some c), w2) /\
    (c = "old" \/ c = "new") /\ (saved = Ok tt -> c = "new").
Proof.
  split; [vm_compute; reflexivity|].
  apply (save_crash_atomic parse_any "config.toml" ["app"] "old" "new" "old" "new"
           (config_world [Pass; Pass; CrashOp 1]) (fun _ => 0%nat));
    [apply walkable_app|vm_compute; reflexivity..].
Defined.

(** Only whole texts parse. *)
Definition parse_whole (text : string) : outcome AppError string :=
  if bool_decide (text ∈ ["old"; "newer"; "newest"]) then Ok text else Err (Config "torn").

(** A save that begins without a main file is not protected: the save of "newer"
    is cut off before its promotion, and a load answers "newer"; the save of
    "newest" then truncates the only copy of it, and when that save is cut off
    too a load answers "old". *)
Example interrupted_saves_lose_a_version :
  let p := ["config.toml"; "app"] in
  let none := fun _ : path => 0%nat in
  let w1 := restart none [Pass; Pass; CrashOp 3]
              (snd (ConfigPersistence.save p "newer" (config_world (repeat Pass 7 ++ [CrashOp 0])))) in
  let w2 := restart none [] (snd (ConfigPersistence.save p "newest" w1)) in
  fst (ConfigPersistence.load parse_whole p (restart none [] w1)) = Ok (Some "newer") /\
  fst (ConfigPersistence.load parse_whole p w2) = Ok (Some "old").
Proof. split; vm_compute; reflexivity. Qed.

(** ** Risk *)

Definition ledger_world (schedule : list fault) : fs_world :=
  FsWorld {[ ["app"] := Dir ]} schedule.

Definition ledger_path : path := ["risk_usage.toml"; "app"].

Definition service_with (config : RiskConfig) : RiskService :=
  {| rs_config := config; rs_usage := None; rs_load_error := None; rs_poisoned := false |}.

Definition risk_start : risk_world := RiskWorld (ledger_world []) (service_with RiskConfig_default).

Definition noon : Z := 1000000000000.
Definition utc_fallback : DateTime := 0.

Definition reserved : outcome RiskViolation RiskReservation * risk_world :=
  reserve_order ledger_path utc_fallback buy (Some "100") noon risk_start.

Lemma validate_order_iff_witness :
  validate_order RiskConfig_default buy (Some "100") = Ok tt <->
  quantity_within RiskConfig_default buy /\
  (is_limit (r_order_type buy) = true -> price_within RiskConfig_default buy (Some "100")).
Proof. apply (validate_order_iff RiskConfig_default buy (Some "100")). Defined.

(** A reservation, a crash in the middle of the second one, a restart. *)
Definition day_text : string := trading_day_key utc_fallback noon "Asia/Shanghai".

Definition after_crash : risk_world :=
  let w1 := snd reserved in
  let w2 := RiskWorld (FsWorld (nodes (rw_fs w1)) [Pass; Pass; CrashOp 3]) (rw_service w1) in
  snd (reserve_order ledger_path utc_fallback buy (Some "100") noon w2).

Lemma daily_order_limit_witness :
  (exists service fs,
     with_store (E := AppError) ledger_path RiskConfig_default (restart (fun _ => 2%nat) [] (rw_fs after_crash))
     = (Ok service, fs) /\ option_map u_occupied_orders (rs_usage service) = Some 1) /\
  Z.of_nat 1 <= 500.
Proof.
  split; [eexists _, _; split; vm_compute; reflexivity|].
  eapply (daily_order_limit "risk_usage.toml" ["app"] utc_fallback day_text "Asia/Shanghai" 500
            risk_start after_crash 1); [intros n; vm_compute; reflexivity|vm_compute; discriminate|
            discriminate|lia|simpl; lia|].
  eapply rtc_l; [apply (day_reserve _ _ _ _ _ _ risk_start 0 buy (Some "100") noon); by split|].
  eapply rtc_l; [apply (day_faults _ _ _ _ _ _ _ _ [Pass; Pass; CrashOp 3])|].
  eapply rtc_l; [apply (day_reserve _ _ _ _ _ _ _ _ buy (Some "100") noon); by split|].
  match goal with |- rtc _ (?a, ?g) _ => let a' := eval vm_compute in a in
    let g' := eval vm_compute in g in change (rtc (day_step "risk_usage.toml" ["app"] utc_fallback day_text "Asia/Shanghai" 500) (after_crash, g') (after_crash, 1%nat)) end.
  apply rtc_refl.
Defined.

Lemma status_agrees_with_limit_witness :
  exists occupied remaining,
    st_occupied_orders (status utc_fallback (rw_service risk_start) noon) = Some occupied /\
    st_remaining_orders (status utc_fallback (rw_service risk_start) noon) = Some remaining /\
    0 < remaining /\
    st_occupied_orders (status utc_fallback (rw_service (snd reserved)) noon) = Some (occupied + 1) /\
    st_remaining_orders (status utc_fallback (rw_service (snd reserved)) noon) = Some (remaining - 1).
Proof.
  apply (status_agrees_with_limit ledger_path utc_fallback buy (Some "100") noon risk_start
           (counted day_text "Asia/Shanghai") (snd reserved));
    [vm_compute; reflexivity|reflexivity|vm_compute; reflexivity|discriminate].
Defined.

Definition lost_zone_config : RiskConfig :=
  {| max_order_qty := "100"; max_price_deviation_pct := "5"; max_daily_orders := 3;
     trading_day_timezone := "Nowhere/Land"; enabled := true |}.

Definition lost_zone_start : risk_world := RiskWorld (ledger_world []) (service_with lost_zone_config).

Lemma status_hides_usage_witness :
  let w' := snd (reserve_order ledger_path utc_fallback buy (Some "100") noon lost_zone_start) in
  (exists u, rs_usage (rw_service w') = Some u /\
     u_occupied_orders u = u_occupied_orders (usage_for
       (trading_day_key utc_fallback noon DEFAULT_TRADING_DAY_TIMEZONE)
       DEFAULT_TRADING_DAY_TIMEZONE noon (rs_usage (rw_service lost_zone_start))) + 1) /\
  st_occupied_orders (status utc_fallback (rw_service w') noon) = Some 0 /\
  st_remaining_orders (status utc_fallback (rw_service w') noon)
    = Some (max_daily_orders (rs_config (rw_service lost_zone_start))).
Proof.
  apply (status_hides_usage ledger_path utc_fallback buy (Some "100") noon lost_zone_start
           (counted day_text "Asia/Shanghai")
           (snd (reserve_order ledger_path utc_fallback buy (Some "100") noon lost_zone_start)) noon);
    vm_compute; reflexivity.
Defined.

Definition given_back : outcome AppError unit * risk_world :=
  release_reservation ledger_path (counted day_text "Asia/Shanghai") noon (snd reserved).

Lemma release_undoes_reserve_witness :
  exists before after,
    before = usage_for day_text "Asia/Shanghai" noon (rs_usage (rw_service risk_start)) /\
    rs_usage (rw_service (snd given_back)) = Some after /\
    u_trading_day after = u_trading_day before /\ u_timezone after = u_timezone before /\
    u_occupied_orders after = u_occupied_orders before.
Proof.
  apply (release_undoes_reserve ledger_path utc_fallback buy (Some "100") noon risk_start
           (counted day_text "Asia/Shanghai") (snd reserved) noon tt (snd given_back));
    [vm_compute; reflexivity|reflexivity|discriminate|vm_compute; reflexivity].
Defined.

Lemma load_fails_open_witness :
  let ledger := File "a ledger" true in
  with_store (E := AppError) ledger_path RiskConfig_default
    (FsWorld {[ ["app"] := Dir; ledger_path := ledger ]} [FailOp 0; FailOp 0; FailOp 0])
  = (Ok (service_with RiskConfig_default), FsWorld {[ ["app"] := Dir; ledger_path := ledger ]} []).
Proof.
  apply (load_fails_open ledger_path RiskConfig_default {[ ["app"] := Dir; ledger_path := File "a ledger" true ]}).
  reflexivity.
Defined.

(** ** Time *)

Lemma parse_server_time_milliseconds_witness :
  parse_server_time (JObject [("time", JString "1782850580")]) = Ok 1782850580000 /\
  10 ^ 12 <= 1782850580000.
Proof.
  split; [vm_compute; reflexivity|].
  apply (parse_server_time_milliseconds (JObject [("time", JString "1782850580")])). vm_compute. reflexivity.
Defined.

Lemma midpoint_error_witness :
  Z.abs (timestamp_ms (set_server_time_midpoint 10000 4000 6000) 7000 - (10000 + (7000 - 4500)))
  <= (6000 - 4000 + 1) / 2.
Proof. apply (midpoint_error 10000 4000 6000 4500 7000); lia. Defined.

Lemma trading_day_bounds_lost_witness :
  let '(start, stop) := trading_day_bounds utc_fallback noon "Lost/Midnight" in ~ (start <= noon < stop).
Proof.
  apply (trading_day_bounds_lost utc_fallback noon "Lost/Midnight"); [reflexivity|unfold noon; lia].
Defined.

(** ** Trading *)

Definition silent : NotificationEnv unit :=
  {| env_available _ := true;
     env_observe_order _ _ x := (inr (Some "note"), x);
     env_publish_risk_block _ _ _ x := (Some "note", x) |}.

Definition session : SubmissionContext :=
  {| sc_submission_id := "sub-1"; sc_account_id := "acct"; sc_session_epoch := 1 |}.

(** An exchange whose answer is lost. *)
Definition losing (request : PlaceOrderRequest) (x : unit) : outcome AppError Order * unit :=
  (Err (Connection "timeout"), x).

Definition trading_start : trading_world unit := TradingWorld risk_start [] [] tt.

Definition lost_placement : outcome AppError Order * trading_world unit :=
  execute_place_order silent ledger_path utc_fallback (fun _ => "n") session buy (Some "100") noon losing
    trading_start.

Lemma placement_accounting_witness :
  option_map u_occupied_orders (rs_usage (rw_service (tw_risk (snd lost_placement)))) = Some 1 /\
  ((tw_submitted (snd lost_placement) = [] /\ tw_reported (snd lost_placement) = [] /\
    is_ok (fst lost_placement) = false) \/
   exists link reservation w1,
    transmitted_link session buy = Ok link /\
    reserve_order ledger_path utc_fallback (with_link link buy) (Some "100") noon risk_start
      = (Ok reservation, w1) /\
    handed_over (with_link link buy) w1 trading_start (fst lost_placement) (snd lost_placement)).
Proof.
  split; [vm_compute; reflexivity|].
  apply (placement_accounting silent ledger_path utc_fallback (fun _ => "n") session buy (Some "100") noon
           None (fun x => (Ok tt, x)) losing trading_start). reflexivity.
Defined.

(** ** Klines *)

Definition btc_1m : ChartWorkspaceKey := {| key_symbol := "BTCUSDT"; key_interval := "1" |}.

Definition bar_at (t : Z) : Kline :=
  {| k_symbol := "BTCUSDT"; k_interval := "1"; k_open_time := t; k_open := "1"; k_high := "2";
     k_low := "1"; k_close := "2"; k_volume := "9" |}.

Definition empty_series : BufferedSeries :=
  {| loaded := true; bars := ∅; pending := ∅; revision := 0; physical_records := 0;
     compaction_revision := None |}.

Lemma empty_well_formed : well_formed btc_1m empty_series.
Proof. split; simpl; [vm_compute; lia|done..]. Defined.

Definition one_bar : BufferedSeries := (upsert_series [bar_at 60] empty_series).1.

Lemma upsert_keeps_well_formed_witness : well_formed btc_1m one_bar.
Proof.
  apply (upsert_keeps_well_formed btc_1m [bar_at 60] empty_series);
    [apply empty_well_formed|vm_compute; reflexivity|repeat constructor].
Defined.

Lemma one_bar_well_formed : well_formed btc_1m one_bar.
Proof.
  assert (bars one_bar = {[ 60 := bar_at 60 ]}) as Eb by (vm_compute; reflexivity).
  split.
  - vm_compute. lia.
  - intros t b Hb. rewrite Eb in Hb. destruct (decide (t = 60)) as [->|Hne].
    + rewrite lookup_singleton_eq in Hb. injection Hb as <-. split; vm_compute; reflexivity.
    + by rewrite lookup_singleton_ne in Hb.
  - intros t e He. destruct (decide (t = 60)) as [->|Hne].
    + vm_compute in He. injection He as <-. split; vm_compute; [reflexivity|discriminate].
    + exfalso. assert (pending one_bar = {[ 60 := {| pe_kline := bar_at 60; pe_revision := 1 |} ]}) as E
        by (vm_compute; reflexivity).
      rewrite E in He. by rewrite lookup_singleton_ne in He.
  - intros r Hr. vm_compute in Hr. discriminate Hr.
Defined.

Definition kline_files : fs_world := FsWorld {[ ["klines"] := Dir ]} [].

Lemma one_bar_undisturbed : undisturbed ["klines"] btc_1m one_bar (nodes kline_files).
Proof.
  apply updates; [|repeat constructor|vm_compute; reflexivity].
  apply (first_start ["klines"] btc_1m (nodes kline_files)
           {| ls_bars := ∅; ls_physical_records := 0; ls_recovered_fallback := false |}
           (FsWorld (nodes kline_files) []));
    [intros n; vm_compute; reflexivity|repeat split; vm_compute; reflexivity|vm_compute; reflexivity].
Defined.

Definition first_batch : FlushBatch :=
  {| fb_key := btc_1m; fb_entries := [{| pe_kline := bar_at 60; pe_revision := 1 |}];
     fb_snapshot := [bar_at 60]; fb_snapshot_revision := 1; fb_compact := false |}.

Definition flushed : outcome AppError unit * fs_world := write_batch ["klines"] first_batch kline_files.

Lemma flush_durable_witness :
  (exists l w2, load_from_disk ["klines"] btc_1m (restart (fun _ => 0%nat) [] (snd flushed)) = (Ok l, w2) /\
     ls_bars l = bars one_bar) /\
  consistent ["klines"] btc_1m
    (acknowledge_flush first_batch (upsert_series [bar_at 120] one_bar).1) (nodes (snd flushed)).
Proof.
  apply (flush_durable ["klines"] btc_1m one_bar first_batch kline_files tt (snd flushed) [bar_at 120] (fun _ => 0%nat));
    [apply one_bar_undisturbed|vm_compute; reflexivity|vm_compute; reflexivity|repeat constructor
    |vm_compute; reflexivity].
Defined.

Lemma load_range_newest_witness :
  let result := range_of None None 5 one_bar in
  StronglySorted Z.lt (map k_open_time result) /\
  (length result <= clamp 1 MAX_STORED_BARS 5)%nat /\
  (forall b, b ∈ result -> bars one_bar !! k_open_time b = Some b /\ i64_min <= k_open_time b <= i64_max) /\
  (forall b, bars one_bar !! k_open_time b = Some b -> i64_min <= k_open_time b <= i64_max -> b ∉ result ->
     length result = clamp 1 MAX_STORED_BARS 5 /\
     forall b', b' ∈ result -> k_open_time b < k_open_time b').
Proof. apply (load_range_newest btc_1m one_bar None None 5). apply one_bar_well_formed. Defined.

Lemma detect_gaps_exact_witness :
  in_gap (detect_gaps [bar_at 60; bar_at 120; bar_at 300] 60) 240 <->
  ~ exists k, k ∈ [bar_at 60; bar_at 120; bar_at 300] /\ k_open_time k = 240.
Proof.
  apply (detect_gaps_exact (bar_at 60) [bar_at 120; bar_at 300] 60 240);
    [lia|repeat constructor; lia|repeat constructor|reflexivity|simpl; lia].
Defined.

(** The text of the bar at 60, and a write of it that failed after one byte. *)
Definition line_60 : string := default "" (encode (bar_at 60)).
Definition torn_files : fs_world :=
  FsWorld {[ ["klines"] := Dir; ["BTCUSDT_1.jsonl"; "klines"] := File "0" false ]} [].

Lemma torn_append_loses_bar_witness :
  decode (drop_last_cr ("0" +:+ line_60)) <> Some (bar_at 60) /\
  let w' := snd (append_batch ["klines"] first_batch torn_files) in
  exists contents, nodes w' !! ["BTCUSDT_1.jsonl"; "klines"] = Some (File contents true) /\
    parse_main_lines btc_1m (lines contents) ∅ 0 = Ok (∅, 0 + 1).
Proof.
  split; [vm_compute; discriminate|].
  apply (torn_append_loses_bar ["klines"] btc_1m "" false "0" {| pe_kline := bar_at 60; pe_revision := 1 |}
           line_60 torn_files tt (snd (append_batch ["klines"] first_batch torn_files)) ∅ 0 1);
    vm_compute; reflexivity.
Defined.
