(* ===== verification/SessionWitnesses.v ===== *)
(** The theorems about accounts and streams applied to concrete inputs: a desktop
    in memory that keeps the laws of the port, and a run of the streams that ends
    healthy. *)
From stdpp Require Import gmap.
From S2P Require Import Prelude RustStr FileSystem External Models Time Mapper ApiClient Accounts Trading WsManager WsSafety Connection Concrete Witnesses.

(** ** One exchange *)

(** Two addresses: of the test exchange, and of the exchange itself. *)
#[local] Instance TwoUrls : UrlLib := {
  Url := bool;
  url_parse s :=
    if one_of s ["https://api.test"; "https://api.test/"] then Some true
    else if one_of s [DEFAULT_BASE_URL; DEFAULT_BASE_URL +:+ "/"] then Some false else None;
  url_scheme _ := "https"; url_username _ := ""; url_password _ := None; url_query _ := None;
  url_fragment _ := None; url_host_str u := Some (if u : bool then "api.test" else "api.easicoin.io");
  url_port _ := None; url_path _ := "/";
  url_without_port u := Some u; url_with_path _ u := u;
  url_to_string u := if u : bool then "https://api.test/" else DEFAULT_BASE_URL +:+ "/";
  form_urlencode _ := "";
}.

#[local] Instance TwoUrlsLaws : UrlLaws.
Proof.
  split.
  - by intros [].
  - intros [] _; (split_and!; [reflexivity..|]); [exists true|exists false]; done.
  - by exists false.
Qed.

#[local] Instance PlainHmac : HmacLib := { hmac_sha256_hex key payload := key +:+ payload }.
#[local] Instance PlainJsonText : JsonText :=
  { json_text v := match v with JString s => s | JPosInt n => z_to_text n | _ => "" end }.

(** ** A desktop in memory *)

Record desk := Desk {
  ds_config : AppConfig;
  ds_saved : AppConfig;
  ds_keys : gmap string ApiCredential;
  ds_status : ConnectionStatus;
}.

(** The credentials that load as they are. *)
Definition ds_vault (d : desk) : gmap string ApiCredential :=
  filter (fun e => normalize e.2 = e.2) (ds_keys d).

#[local] Instance DeskPort : AccountLifecyclePort desk := {
  read_config := ds_config;
  replace_runtime_config c d := Desk c (ds_saved d) (ds_keys d) (ds_status d);
  persist_config c d := (Ok tt, Desk (ds_config d) c (ds_keys d) (ds_status d));
  load_credential i d := (Ok (ds_vault d !! i), d);
  save_credential i c d :=
    if is_valid c && bool_decide (normalize (normalize c) = normalize c) then
      (Ok tt, Desk (ds_config d) (ds_saved d) (<[i := normalize c]> (ds_keys d)) (ds_status d))
    else (Err (Auth "refused"), d);
  delete_credential i d := (Ok tt, Desk (ds_config d) (ds_saved d) (delete i (ds_keys d)) (ds_status d));
  connection_status := ds_status;
  preflight _ d := (Ok tt, d);
  disconnect _ d := Desk (ds_config d) (ds_saved d) (ds_keys d) Disconnected;
  connect i realtime c _ _ d :=
    if api_key c ==s "down" then
      (Err (Connection "down"), Desk (ds_config d) (ds_saved d) (ds_keys d) ConnectionError)
    else (Ok tt, Desk (ds_config d) (ds_saved d) (ds_keys d) Connected);
  activate_public_environment _ d := d;
  activate_session _ _ d := d;
  clear_account_data d := d;
  delete_notification_partition _ d := (true, d);
}.

#[local] Program Instance DeskLaws : AccountLifecycleLaws desk := {
  view d := AccountView (ds_config d) (ds_saved d) (ds_vault d) (ds_status d);
}.
Next Obligation. done. Qed.
Next Obligation. done. Qed.
Next Obligation. intros i c d. simpl. intros [_ Hn]%map_lookup_filter_Some. exact Hn. Qed.
Next Obligation. done. Qed.
Next Obligation. done. Qed.
Next Obligation. done. Qed.
Next Obligation.
  intros i c d. unfold wp. simpl. destruct (is_valid c); simpl; [|by eauto].
  case_bool_decide as Hn; [|by eauto]. split; [done|]. unfold ds_vault. simpl.
  by rewrite map_filter_insert_True.
Qed.
Next Obligation. intros i d. unfold wp, ds_vault. simpl. by rewrite map_filter_delete. Qed.
Next Obligation. done. Qed.
Next Obligation. done. Qed.
Next Obligation. intros i realtime c epoch now d. unfold wp. simpl. by destruct (_ ==s _). Qed.
Next Obligation. done. Qed.
Next Obligation. done. Qed.
Next Obligation. done. Qed.
Next Obligation. done. Qed.

Definition key_of (name : string) : ApiCredential :=
  {| api_key := name; api_secret := "secret"; base_url := "https://api.test"; label := name |}.

Definition two_accounts : AppConfig :=
  {| active_symbol := "BTCUSDT"; active_account_id := "main"; watchlist_symbols := []; theme := Dark;
     kline_interval := "1"; use_websocket := true; ws_public_url := "wss://p"; ws_private_url := "wss://q";
     ticker_poll_interval := f64_of_Z 1; window_width := 1; window_height := 1;
     accounts := ["main"; "spare"; "broken"]; risk_enabled := true; risk_max_order_qty := "1";
     risk_max_price_deviation_pct := "1"; risk_max_daily_orders := 5; trading_day_timezone := "UTC";
     notification_settings := {| trading_toast := true; risk_account_toast := true;
                                 connection_system_toast := true |} |}.

Definition desk_start : lifecycle desk :=
  Lifecycle 7 (Desk two_accounts two_accounts
    (<["main" := key_of "main"]> (<["spare" := key_of "spare"]> {["broken" := key_of "down"]})) Connected).

Lemma switch_is_all_or_nothing_witness :
  (switch_account "spare" None desk_start).1 =
    Ok {| sw_active_account_id := "spare"; sw_connected := true; sw_session_epoch := 8 |} /\
  (let '(o, w') := switch_account "spare" None desk_start in switched "spare" desk_start w' o) /\
  (let '(o, w') := switch_account "broken" None desk_start in
   o = Err (Connection "down") /\ seen w' = seen desk_start /\ switched "broken" desk_start w' o).
Proof.
  split; [vm_compute; reflexivity|]. split; [apply (switch_is_all_or_nothing "spare" None desk_start)|].
  pose proof (switch_is_all_or_nothing "broken" None desk_start) as Hb.
  destruct (switch_account "broken" None desk_start) as [o w'] eqn:E.
  assert (Ho : o = (switch_account "broken" None desk_start).1) by (by rewrite E).
  assert (Hw : w' = (switch_account "broken" None desk_start).2) by (by rewrite E).
  split; [rewrite Ho; vm_compute; reflexivity|]. split; [|exact Hb].
  rewrite Hw. vm_compute. reflexivity.
Defined.

Definition spare_request : SaveCredentialRequest :=
  {| sv_account_id := " spare "; sv_api_key := "fresh"; sv_api_secret := "hidden"; sv_base_url := "https://api.test/";
     sv_label := "" |}.

Lemma credential_edits_are_undone_witness :
  (save_credentials spare_request desk_start).1 = Ok tt /\
  (delete_account "spare" desk_start).1 = Ok DeleteAccountResult_complete /\
  (let '(o, w') := save_credentials spare_request desk_start in
   credential_saved spare_request desk_start w' o) /\
  (let '(o, w') := delete_account "spare" desk_start in account_deleted "spare" desk_start w' o).
Proof.
  split; [vm_compute; reflexivity|]. split; [vm_compute; reflexivity|].
  apply (credential_edits_are_undone spare_request "spare" desk_start).
Defined.

(** ** The desktop *)

#[local] Instance ApiCredential_countable : Countable ApiCredential.
Proof.
  refine (inj_countable
    (fun c => [enc (api_key c); enc (api_secret c); enc (base_url c); enc (label c)])
    (fun l => match l with
              | [a; b; c; d] =>
                  a ← dec a; b ← dec b; c ← dec c; d ← dec d; Some (Build_ApiCredential a b c d)
              | _ => None
              end) _).
  intros []. cbn beta iota. by rewrite !bind_dec.
Defined.

#[local] Instance CountedCredentials : CredentialJson := {
  credential_to_json c := match countable_encode c with Some text => Ok text | None => Err "" end;
  credential_from_json text := match countable_decode text with Some c => Ok c | None => Err "unreadable" end;
}.
#[local] Instance CountedCredentialsLaws : CredentialJsonLaws.
Proof.
  split.
  - intros c text. simpl. intros [= <-]. by rewrite (countable_decode_encode c _ eq_refl).
  - done.
  - intros text. simpl. by destruct (countable_decode text).
Qed.

(** A shelf of keys and the stored configuration. *)
Record shelf := Shelf { sh_keys : gmap string string; sh_config : AppConfig }.

#[local] Instance ShelfParts : DesktopParts shelf := {
  keyring_get i p := (match sh_keys p !! i with Some text => inr text | None => inl NoEntry end, p);
  keyring_set i text p := (None, Shelf (<[i := text]> (sh_keys p)) (sh_config p));
  keyring_delete i p := (None, Shelf (delete i (sh_keys p)) (sh_config p));
  config_store_save c p := (Ok tt, Shelf (sh_keys p) c);
  notify_connection _ _ _ _ p := (None, p);
  notify_environment _ _ _ _ _ p := (None, p);
  notify_session_expired _ _ _ p := (None, p);
  notify_delete_partition _ _ p := (true, p);
  market_kline_interval _ := "1";
  analytics_clear p := p;
}.
#[local] Program Instance ShelfLaws : DesktopPartsLaws shelf :=
  { parts_keys := sh_keys; parts_config := sh_config }.
Next Obligation. intros i p. simpl. by destruct (sh_keys p !! i). Qed.
Next Obligation. intros i text p. simpl. auto. Qed.
Next Obligation. intros i p. simpl. auto. Qed.
Next Obligation. done. Qed.
Next Obligation. done. Qed.
Next Obligation. done. Qed.
Next Obligation. done. Qed.

(** An exchange whose clock answers. *)
#[local] Instance ClockJson : Codec json :=
  { encode _ := None; decode _ := Some (JObject [("code", JPosInt 0); ("time", JPosInt 1700000000000)]) }.
#[local] Instance PlainStatus : StatusText := { status_text := z_to_text }.
#[local] Instance ClockExchange : ApiEnvironment unit := {
  env_uuid x := ("00000000-0000-4000-8000-000000000001", x);
  env_local_ms x := (1700000000000, x);
  env_send _ c x := (Answered 200 (Some "{}"), (c, x));
  env_observe_auth := None;
}.

Definition shelf_start : shelf :=
  Shelf (<["main" := default "" (countable_encode (key_of "main"))]>
           {["spare" := default "" (countable_encode (key_of "spare"))]}) two_accounts.

Definition desktop_start : desktop unit shelf :=
  Desktop two_accounts Connected (ApiWorld ApiClient_new [] tt) TimeMeta_default
    (WsManager_new "wss://p" "wss://q") 0 EventEmitter_new shelf_start.

Definition main_session : SessionContext := {| ses_account_id := "main"; ses_session_epoch := 7 |}.

Lemma desktop_connection_refines_port_witness :
  is_ok (connect_for_session 7 main_session true "BTCUSDT" None desktop_start).1 = true /\
  (switch_account "spare" None (Lifecycle 7 desktop_start)).1 =
    Ok {| sw_active_account_id := "spare"; sw_connected := true; sw_session_epoch := 8 |} /\
  (let '(o, d') := connect_for_session 7 main_session true "BTCUSDT" None desktop_start in
   match o with
   | Ok _ => desktop_view d' = with_status Connected (desktop_view desktop_start) /\
             streams_as true main_session "BTCUSDT" (dk_ws d')
   | Err _ => desktop_view d' = with_status ConnectionError (desktop_view desktop_start)
   | Halt _ => False
   end).
Proof.
  split; [vm_compute; reflexivity|]. split; [vm_compute; reflexivity|].
  pose proof (proj1 (desktop_connection_refines_port 7 main_session true "BTCUSDT" None desktop_start "spare" None))
    as Hends.
  exact Hends.
Defined.

(** ** The streams *)

Definition context : SessionContext := {| ses_account_id := "main"; ses_session_epoch := 7 |}.

Definition pushed (topic : string) : json :=
  JObject [("topic", JString topic); ("data", JObject [("orderId", JString "77")])].
Definition auth_ack : json := JObject [("op", JString "auth"); ("success", JBool true)].

(** The session starts, an order arrives, the snapshot is seeded, and a position
    arrives. *)
Lemma healthy_run : exists tr (s : stream_system unit),
  execution true silent tr s /\ stopping (control s) = false /\
  is_private_panels_healthy (manager s) 130 30 = true /\ snapshot_seeded (gate s) = true /\
  handed (this_session tr) <> [] /\
  exists order, In (EAttempted context [(Realtime, order)]) (this_session tr).
Proof.
  pose proof (ex_start true silent "wss://p" "wss://q" "main" 7 tt) as E.
  assert (next : forall tr s s' es, execution true silent tr s -> step true silent s s' es ->
            exists tr' s1, tr' = (es ++ tr)%list /\ s1 = s' /\ execution true silent tr' s1).
  { intros tr s s' es Hex Hs. exists (es ++ tr)%list, s'. split_and!; [done..|]. by eapply ex_step. }
  eapply next in E as (tr & s & Ht & Hs & E); [|by apply st_lock]. vm_compute in Ht, Hs; subst tr s.
  eapply next in E as (tr & s & Ht & Hs & E); [|by apply (st_configure _ _ _ "wss://p" "wss://q" (Signer_new (key_of "main")))]. vm_compute in Ht, Hs; subst tr s.
  eapply next in E as (tr & s & Ht & Hs & E); [|by apply (st_subscribe _ _ _ "BTCUSDT" "1")]. vm_compute in Ht, Hs; subst tr s.
  eapply next in E as (tr & s & Ht & Hs & E); [|by apply (st_stop _ _ _ (Some ("BTCUSDT", context)))]. vm_compute in Ht, Hs; subst tr s.
  eapply next in E as (tr & s & Ht & Hs & E); [|by eapply st_start]. vm_compute in Ht, Hs; subst tr s.
  eapply next in E as (tr & s & Ht & Hs & E); [|by apply st_unlock]. vm_compute in Ht, Hs; subst tr s.
  eapply next in E as (tr & s & Ht & Hs & E); [|by eapply (st_local _ _ _ 1), ls_top]. vm_compute in Ht, Hs; subst tr s.
  eapply next in E as (tr & s & Ht & Hs & E); [|eapply (st_local _ _ _ 1), (ls_dialed_private _ _ _ _ (AwaitingAck _)); try reflexivity; by left]. vm_compute in Ht, Hs; subst tr s.
  eapply next in E as (tr & s & Ht & Hs & E); [|eapply (st_local _ _ _ 1), (ls_ack _ _ _ auth_ack _ (Acknowledged _)); try reflexivity; by left]. vm_compute in Ht, Hs; subst tr s.
  eapply next in E as (tr & s & Ht & Hs & E); [|by eapply (st_local _ _ _ 1), ls_running]. vm_compute in Ht, Hs; subst tr s.
  eapply next in E as (tr & s & Ht & Hs & E); [|by eapply (st_local _ _ _ 1), ls_raise]. vm_compute in Ht, Hs; subst tr s.
  eapply next in E as (tr & s & Ht & Hs & E); [|by eapply (st_local _ _ _ 1), ls_check]. vm_compute in Ht, Hs; subst tr s.
  eapply next in E as (tr & s & Ht & Hs & E); [|by eapply (st_report _ _ _ 1)]. vm_compute in Ht, Hs; subst tr s.
  eapply next in E as (tr & s & Ht & Hs & E); [|by eapply (st_local _ _ _ 1), (ls_text _ _ _ (pushed "contract.order") 101)]. vm_compute in Ht, Hs; subst tr s.
  eapply next in E as (tr & s & Ht & Hs & E); [|by eapply (st_observe _ _ _ 1 _ _ (fun _ => 102))]. vm_compute in Ht, Hs; subst tr s.
  eapply next in E as (tr & s & Ht & Hs & E); [|by eapply (st_seed_dropped _ _ _ context [] _ 103 1)]. vm_compute in Ht, Hs; subst tr s.
  eapply next in E as (tr & s & Ht & Hs & E); [|by eapply (st_seed _ _ _ context [] 103)]. vm_compute in Ht, Hs; subst tr s.
  eapply next in E as (tr & s & Ht & Hs & E); [|by eapply (st_local _ _ _ 1), (ls_text _ _ _ (pushed "contract.position") 120)]. vm_compute in Ht, Hs; subst tr s.
  eexists _, _. split; [exact E|]. clear. split_and!; [vm_compute; done..|].
  eexists. vm_compute. repeat first [left; reflexivity|right].
Qed.

Lemma live_orders_pass_the_gate_once_witness :
  exists tr (s : stream_system unit), execution true silent tr s /\ snapshot_seeded (gate s) = true /\
    handed (this_session tr) <> [] /\ arrived (this_session tr) = handed (this_session tr) /\
    replays (this_session tr) = 1%nat /\ gate_history (this_session tr) /\
    exists order, In (EAttempted context [(Realtime, order)]) (this_session tr).
Proof.
  destruct healthy_run as (tr & s & E & _ & _ & Hg & Hne & Ha).
  pose proof (live_orders_pass_the_gate_once tr s E) as (_ & Hh & Hflow & Hopen).
  rewrite Hg in Hopen. destruct Hopen as [Hp Hr]. rewrite Hp, app_nil_r in Hflow.
  exists tr, s. by split_and!.
Defined.

Lemma stream_health_is_current_witness :
  exists tr (s : stream_system unit) i t, execution true silent tr s /\
    is_private_panels_healthy (manager s) 130 30 = true /\
    tasks s !! i = Some t /\ t_private t = true /\ linked (t_pc t) = true /\
    In (EAcked (t_context t)) (recent (resets true) tr) /\ heard tr 130 30 DOrder.
Proof.
  destruct healthy_run as (tr & s & E & Hc & Hh & _).
  pose proof (stream_health_is_current tr s 130 30 E Hc) as (_ & Hpanels & _).
  destruct (Hpanels Hh) as (i & t & snapshots & pending & Hi & Ht & Hl & Ha & _ & Ho & _).
  exists tr, s, i, t. by split_and!.
Defined.
