(* ===== verification/EngineWitnesses.v ===== *)
(** The theorems of the strategy engine applied to a concrete run: a strategy
    that starts, commits an order and hands it over, with the instances of
    Concrete.v. *)
From stdpp Require Import gmap strings relations.
From S2P Require Import Prelude RustStr FileSystem External Models Workflow StrategyTypes StrategyStore SafeDocument SafeDocumentFacts AtomicFile StrategyRun Supervisor Worker ContractFacts Engine EngineFacts EngineSafety StrategyDurable Concrete.
#[local] Open Scope list_scope.

(** Equal by evaluation, compared by the virtual machine. *)
Ltac by_conversion := match goal with |- ?a = ?b => exact (@eq_refl _ a <: a = b) end.

(** ** Inputs *)

Definition hex64 : string := "0123456789abcdef0123456789abcdef0123456789abcdef0123456789abcdef".
Definition uuid_a : string := "aaaaaaaa-0000-4000-8000-000000000001".
Definition uuid_b : string := "bbbbbbbb-0000-4000-8000-000000000002".
Definition uuid_c : string := "cccccccc-0000-4000-8000-000000000003".
Definition uuid_d : string := "dddddddd-0000-4000-8000-000000000004".

Definition account_a : Account :=
  {| account_id := "acc"; session_epoch := "1"; environment := "mainnet" |}.
Definition authority_a : AccountAuthority :=
  {| au_account := account_a; au_private_session := "secret" |}.

Definition policy_a : StrategyPolicy :=
  {| interval_ms := 5000; sp_max_order_qty := "2"; max_total_qty := "3"; max_actions := 2;
     max_run_seconds := 60; sp_reduce_only := false |}.

Definition caps_a : list string := ["account.read"; "strategy.run"; "trade.place"].

Definition identity_a : PluginIdentity :=
  {| pi_id := "com.example.plugin"; pi_source := LocalDeclarative;
     pi_publisher_id := "com.example"; pi_approval_fingerprint := "v1:sha256:" +:+ hex64 |}.
Definition captured_a : CapturedStrategy :=
  {| cs_params := {| psp_runtime := "wasm-v1"; psp_abi := "strategy-json-v1";
                     psp_module_base64 := ""; psp_default_input := "{}" |};
     cs_identity := identity_a; cs_requested := caps_a |}.
Definition ticket_a : Ticket :=
  {| t_request := {| ar_plugin_id := "com.example.plugin"; ar_contribution_id := "com.example.run";
                     ar_expected_catalog_generation := "1"; ar_expected_revision := "1" |};
     t_captured := captured_a; t_authority := authority_a; t_scope := hex64; t_epoch := 7;
     t_admission := 0; t_deadline := 60000 |}.
Definition request_a : StrategyStartRequest :=
  {| sr_authorization_token := uuid_a; sr_request_id := uuid_b; sr_resume_run_id := None;
     sr_symbol := "BTCUSDT"; sr_input_json := "{}"; sr_capabilities := caps_a;
     sr_policy := policy_a; sr_acknowledge_automatic_trading := true |}.

Definition buy_one : PlaceProposal :=
  {| pp_symbol := "BTCUSDT"; pp_side := "Buy"; pp_order_type := "Market"; pp_qty := "1";
     pp_price := None; pp_time_in_force := "IOC"; pp_position_idx := 1; pp_reduce_only := false |}.
Definition output_a : StrategyOutput :=
  {| so_state := JObject []; so_action := APlaceOrder buy_one; so_message := "buy" |}.
Definition snapshot_a : Snapshot :=
  {| sn_schema_version := 1; sn_account := account_a; sn_captured_at_ms := "1000";
     sn_symbol := "BTCUSDT"; sn_granted_capabilities := caps_a; sn_balances := None;
     sn_positions := None; sn_orders := None; sn_market := None |}.

Definition disk_a : Disk := {| stored := default_document; broken := false |}.

(** ** The run *)

Definition blank_run : RunRecord :=
  {| view :=
       {| v_schema_version := 1; v_run_id := ""; v_request_id := ""; v_plugin_id := "";
          v_contribution_id := ""; v_account := account_a; v_symbol := ""; v_status := Running;
          v_reason := None; v_policy := policy_a; v_capabilities := []; v_input_json := "";
          v_started_at_ms := ""; v_expires_at_ms := ""; v_sequence := "";
          v_actions_submitted := 0; v_total_submitted_qty := ""; v_last_message := "";
          v_last_receipt := None |};
     fingerprint := ""; scope := ""; state := JNull; owned := ∅; pending_action := None;
     last_observed_at_ms := "" |}.
Definition run_of (s : Supervisor Disk) : RunRecord :=
  default blank_run (find_run uuid_c (d_runs (s_document s))).

Definition s_new : Supervisor Disk := new_supervisor disk_a.
Definition s_started : Supervisor Disk :=
  snd (start_owned ticket_a request_a captured_a authority_a hex64 uuid_c 7 1000 1000 1000
         (Some 0) s_new).
Definition record_a : RunRecord := run_of s_started.
Definition s_committed : Supervisor Disk :=
  snd (pass_commit uuid_c 1 record_a "1" (APlaceOrder buy_one) output_a uuid_d (Ok 7) 1200 1200
         1200 s_started).
Definition pending_a : PendingAction :=
  {| pa_sequence := "1"; pa_action := APlaceOrder buy_one; pa_submission_id := Some uuid_d;
     pa_state := JObject []; pa_message := "buy" |}.
Definition sight_a : Sight := {| g_now := 1300; g_later := 1300; g_mono := 1300; g_epoch := Ok 7 |}.
Definition s_sent : Supervisor Disk :=
  snd (check_dispatch 1 record_a 1100 1100 sight_a s_committed).

Definition at_worker (t : Task) (tasks : gmap nat Task) : gmap nat Task := <[1%nat := t]> tasks.
Definition tasks_1 := at_worker (Looping uuid_c) ∅.
Definition tasks_2 := at_worker (Deciding uuid_c record_a "1") tasks_1.
Definition tasks_3 := at_worker (Prepared uuid_c record_a pending_a) tasks_2.
Definition tasks_4 := at_worker (Awaiting uuid_c record_a pending_a) tasks_3.
Definition engine_a : Engine Disk := MkEngine s_sent tasks_4 [(uuid_c, pending_a)].

#[local] Opaque s_new s_started s_committed s_sent record_a tasks_1 tasks_2 tasks_3 tasks_4.

Lemma start_a : start_owned ticket_a request_a captured_a authority_a hex64 uuid_c 7 1000 1000 1000
                  (Some 0) s_new = (Ok (view record_a), s_started).
Proof. by_conversion. Qed.
Lemma read_a : pass_read uuid_c s_started = (Ok (record_a, "1"), s_started).
Proof. by_conversion. Qed.
Lemma decide_a : pass_decide record_a output_a snapshot_a (Ok snapshot_a) = Ok (APlaceOrder buy_one).
Proof. by_conversion. Qed.
Lemma commit_a : pass_commit uuid_c 1 record_a "1" (APlaceOrder buy_one) output_a uuid_d (Ok 7) 1200
                   1200 1200 s_started = (Ok (inr pending_a), s_committed).
Proof. by_conversion. Qed.
Lemma dispatch_a : check_dispatch 1 record_a 1100 1100 sight_a s_committed = (Ok tt, s_sent).
Proof. by_conversion. Qed.

Lemma engine_a_reached : rtc (step disk_crash) (started disk_a) engine_a.
Proof.
  assert (started disk_a = MkEngine s_new ∅ []) as -> by by_conversion.
  eapply rtc_l.
  { eapply step_start with (p := 1%nat); [| |exact start_a|]; by_conversion. }
  eapply rtc_l; [eapply step_read with (p := 1%nat); [|exact read_a]; by_conversion|].
  eapply rtc_l; [eapply step_commit with (p := 1%nat); [|exact decide_a|exact commit_a]; by_conversion|].
  eapply rtc_l; [eapply step_dispatch with (p := 1%nat) (id := uuid_c) (pending := pending_a)
      (request := PlaceRequest (placement buy_one uuid_d)); [| |exact dispatch_a]; [by_conversion|by_conversion]|].
  match goal with |- rtc _ ?a ?b => assert (a = b) as <- by by_conversion end.
  apply rtc_refl.
Qed.

Lemma disk_a_loadable d : disk_holds disk_a d -> loadable d.
Proof. intros <-. split; [by_conversion|constructor]. Qed.

(** ** The engine *)

Lemma handed_over_once_witness :
  e_sent engine_a = [(uuid_c, pending_a)] /\ NoDup (map key_of (e_sent engine_a)).
Proof.
  split; [reflexivity|].
  exact (handed_over_once disk_a engine_a disk_a_loadable engine_a_reached).
Defined.

Lemma awaiting_a : e_tasks engine_a !! 1%nat = Some (Awaiting uuid_c record_a pending_a).
Proof. by_conversion. Qed.

Lemma intent_durable_first_witness :
  exists r, find_run uuid_c (d_runs (stored (s_store s_sent))) = Some r /\
            pending_action r = Some pending_a.
Proof.
  exact (intent_durable_first disk_a engine_a 1 uuid_c record_a pending_a
           (stored (s_store s_sent)) disk_a_loadable engine_a_reached (or_intror awaiting_a) eq_refl).
Defined.

Lemma spent_within_limits_witness :
  Z.of_nat (count_sent uuid_c [(uuid_c, pending_a)]) = 1 /\
  v_actions_submitted (view (run_of s_committed)) = 1 /\
  exists total limit,
    dec_from_str_exact (v_total_submitted_qty (view (run_of s_committed))) = Some total /\
    quantity (max_total_qty (v_policy (view (run_of s_committed)))) = Ok limit /\
    dec_leb total limit = true.
Proof.
  split; [by_conversion|]. split; [by_conversion|].
  destruct (spent_within_limits disk_a engine_a (stored (s_store s_sent)) uuid_c
              (run_of s_committed) disk_a_loadable engine_a_reached eq_refl
              ltac:(by_conversion)) as (_ & _ & H). exact H.
Defined.

Lemma crash_a : disk_crash (s_store (e_sup engine_a)) (s_store s_sent).
Proof. reflexivity. Qed.

Lemma unresolved_survives_restart_witness :
  let s := new_supervisor (s_store s_sent) in
  s_unavailable s = true \/
  exists r, find_run uuid_c (d_runs (s_document s)) = Some r /\
    pending_action r = Some pending_a /\ v_status (view r) = RecoveryRequired.
Proof.
  pose proof (unresolved_survives_restart disk_a (s_store s_sent) engine_a 1 uuid_c record_a
                pending_a disk_a_loadable engine_a_reached awaiting_a crash_a) as H.
  cbv zeta in H |- *. destruct H as [H|(r & H1 & H2 & H3 & _)]; [by left|right].
  exists r. exact (conj H1 (conj H2 H3)).
Defined.

(** ** The contracts *)

Lemma decimal_canonical_witness :
  decimal "007" true = Ok "7" /\ decimal "7" true = Ok "7".
Proof.
  assert (decimal "007" true = Ok "7") as E by by_conversion.
  exact (conj E (proj1 (decimal_canonical "007" true "7" E))).
Defined.

Definition bracket : OrderProtection :=
  {| take_profit := Some "110"; stop_loss := Some "90"; trigger_by := "LastPrice" |}.

Lemma protection_brackets_witness :
  exists n, dec_from_str_exact "110" = Some n /\
    leg_ok true n (snd (match canonical_decimal "100" with Ok r => r | _ => ("", dec96_of 0) end))
      (Some (dec96_of 101)) = true.
Proof.
  assert (OrderProtection_validate "Buy" (Some "101") "100" bracket = Ok bracket) as E
    by by_conversion.
  destruct (protection_brackets "Buy" (Some "101") "100" bracket bracket E)
    as (r & e & Hr & He & Hp & _).
  destruct (Hp "110" eq_refl) as (n & Hn & Hok). exists n. split; [done|].
  rewrite Hr. destruct He as (t & m & Ht & ->).
  assert (m = dec96_of 101) as <-; [|exact Hok].
  assert (canonical_decimal "101" = Ok ("101", dec96_of 101)) as E1 by by_conversion. congruence.
Defined.

Lemma canonical_placement_accepted_witness :
  exists c, canonical_placement buy_one uuid_d None = Ok c /\
            validate_canonical_placement uuid_d c = Ok tt.
Proof.
  assert (validate_place buy_one "BTCUSDT" ["trade.place"] = Ok buy_one) as E by by_conversion.
  exact (canonical_placement_accepted buy_one buy_one "BTCUSDT" uuid_d ["trade.place"] None E
           eq_refl I).
Defined.

(** The run as it is committed, before the save raises its observation time. *)
Definition committed_a : RunRecord :=
  match commit_submission (APlaceOrder buy_one) uuid_d "1" "1200" output_a record_a with
  | Ok (r, _) => r
  | _ => blank_run
  end.

Lemma admitted_intent_storable_witness : validate_pending committed_a pending_a = Ok tt.
Proof.
  assert (StrategyRunView_validate (view record_a) = Ok tt) as Ev by by_conversion.
  assert (validate_tail record_a = Ok tt) as Et by by_conversion.
  assert (0 <= v_actions_submitted (view record_a)) as En by (apply Z.leb_le; by_conversion).
  assert (StrategyOutput_validate output_a = Ok tt) as Eo by by_conversion.
  assert (validate_action (so_action output_a) record_a snapshot_a = Ok (APlaceOrder buy_one)) as Ea
    by by_conversion.
  assert (commit_submission (APlaceOrder buy_one) uuid_d "1" "1200" output_a record_a
          = Ok (committed_a, pending_a)) as Ec by by_conversion.
  exact (admitted_intent_storable record_a committed_a output_a snapshot_a (APlaceOrder buy_one)
           uuid_d "1" "1200" pending_a Ev Et En Eo Ea eq_refl Ec).
Defined.

(** * Durable documents *)

Definition doc_of (r : string) : StrategyDocument :=
  {| d_schema_version := 1; d_revision := r; d_runs := [] |}.
Definition dir_a : path := ["strategies"].

(** Revision 5 is in place, revision 6 still under its pending name. *)
Definition tree_a : gmap path node :=
  <["strategy.json" :: dir_a := File "{5}" true]>
    (<["strategy.json.pending" :: dir_a := File "{6}" true]> (<[dir_a := Dir]> ∅)).

Definition load_a := @store_load fs_world (file_store dir_a).
Definition save_a := @store_save fs_world (file_store dir_a).
Definition revision_of (o : outcome AppError StrategyDocument) : option string :=
  match o with Ok d => Some (d_revision d) | _ => None end.

(** The world after a save of revision 7 that crashed at its [n]-th call. *)
Definition crashed_at (n : nat) : fs_world :=
  restart (fun _ => 0%nat) [] (snd (save_a (doc_of "7") (FsWorld tree_a (repeat Pass n ++ [CrashOp 0])))).

(** A version that only its pending file holds is what loads answer, and yet
    the next save removes that file before it has written anything: a crash
    there brings back the version before. *)
Theorem pending_version_rolls_back :
  revision_of (fst (load_a (FsWorld tree_a []))) = Some "6" /\
  exists n, revision_of (fst (load_a (crashed_at n))) = Some "5".
Proof. split; [by vm_compute|]. exists 54%nat. by vm_compute. Qed.

(** A crash while a work file is written leaves a store that answers nothing
    until the file is removed by hand. *)
Lemma torn_work_file_blocks : exists n, fst (load_a (crashed_at n)) = Err storage_unavailable.
Proof. exists 58%nat. by vm_compute. Qed.

Lemma persist_crash_atomic_witness :
  let w := FsWorld tree_a (repeat Pass 41 ++ [CrashOp 0]) in
  let w' := snd (persist_document dir_a strategy_names 100 (Some "{6}") "{7}" w) in
  let after := nodes (restart (fun _ => 0%nat) [] w') in
  entry dir_a after "strategy.json" = entry dir_a (crash_nodes (fun _ => 0%nat) tree_a) "strategy.json"
  \/ entry dir_a after "strategy.json" = Some (File "{7}" true).
Proof.
  exact (proj1 (persist_crash_atomic dir_a strategy_names 100 (Some "{6}") "{7}"
    (FsWorld tree_a (repeat Pass 41 ++ [CrashOp 0]))
    (snd (persist_document dir_a strategy_names 100 (Some "{6}") "{7}"
            (FsWorld tree_a (repeat Pass 41 ++ [CrashOp 0]))))
    (fst (persist_document dir_a strategy_names 100 (Some "{6}") "{7}"
            (FsWorld tree_a (repeat Pass 41 ++ [CrashOp 0]))))
    (fun _ => 0%nat) [] strategy_names_distinct (surjective_pairing _))).
Defined.

(** The promise at the concrete store: what a load answered stays what the
    store holds. *)
Lemma file_store_refines_witness :
  file_holds dir_a (FsWorld tree_a []) (doc_of "6").
Proof.
  eapply (load_holds (StoreLaws := file_store_refines dir_a)).
  rewrite (surjective_pairing (store_load _)). f_equal; by vm_compute.
Defined.

(** The promotion is refused and so is its restoration: the backup has the
    previous document. *)
Definition twice_refused : list fault :=
  repeat Pass 12 ++ [FailOp 0; FailOp 0].

Lemma replace_keeps_a_version_witness :
  let run := replace_file ("state.json" :: dir_a) "new" (Some "old")
    (FsWorld (<["state.json" :: dir_a := File "old" true]> (<[dir_a := Dir]> ∅)) twice_refused) in
  let after := entry dir_a (nodes (restart (fun _ => 0%nat) [] (snd run))) in
  partly "old" (after "state.json") /\ after "state.json.bak" = Some (File "old" true).
Proof.
  intros run after.
  assert (fst run = Err OtherIo) as E by by vm_compute.
  pose proof (replace_keeps_a_version dir_a "state.json" "new" (Some "old")
    (FsWorld (<["state.json" :: dir_a := File "old" true]> (<[dir_a := Dir]> ∅)) twice_refused)
    (snd run) (fst run) (fun _ => 0%nat) [] (surjective_pairing run)) as H.
  rewrite E in H. destruct H as [(_ & [(_ & H)|(H & [Ht|Ht])])|(H & _ & Hb)].
  - exfalso. revert H. by vm_compute.
  - split; [by vm_compute; left|exact H].
  - split; [by vm_compute; left|exact H].
  - by split.
Defined.
