(* ===== verification/SchedulerWitnesses.v ===== *)
(** The theorems about the scheduler applied to concrete schedules. *)
From stdpp Require Import gmap strings relations.
From S2P Require Import Prelude RustStr Models TaskRun Scheduler SchedulerSteps SchedulerTheorems SchedulerProgress.
#[local] Open Scope list_scope.

(** ** Schedules as lists of actions *)

Definition two_loops : list TaskId := [TimeSync; KlineFlush].

(** Every state on the way fits. *)
Fixpoint run_fitting (l : list Action) (w : World) : option World :=
  match l with
  | [] => Some w
  | a :: l =>
      match exec two_loops a w with
      | Some w' => if Z.of_nat (length (guards (heap w'))) <=? usize_max then run_fitting l w' else None
      | None => None
      end
  end.

Lemma run_reached l w w' : run_fitting l w = Some w' -> rtc (step two_loops) w w'.
Proof.
  revert w. induction l as [|a l IH]; simpl; intros w H; [injection H as ->; apply rtc_refl|].
  destruct (exec two_loops a w) as [v|] eqn:E; [|done].
  destruct (Z.leb_spec (Z.of_nat (length (guards (heap v)))) usize_max) as [Hf|]; [|done].
  eapply rtc_l; [|by apply IH]. split; [by exists a|done].
Qed.

Lemma run_reaches l w w' : run_actions two_loops l w = Some w' ->
  Forall (fun a => a <> StartExplicit) l -> rtc (step_but_start two_loops) w w'.
Proof.
  revert w. induction l as [|a l IH]; simpl; intros w H Hl; [injection H as ->; apply rtc_refl|].
  destruct (exec two_loops a w) as [v|] eqn:E; [|done]. apply Forall_cons in Hl as [Ha Hl].
  eapply rtc_l; [|by apply IH]. by exists a.
Qed.

Definition after (l : list Action) (w : World) : World :=
  match run_fitting l w with Some w' => w' | None => w end.

Definition starting_up : list Action :=
  StartExplicit :: repeat (StartStep 1) 7 ++ [WatchStep 1 TimeSync; WatchStep 1 KlineFlush] ++
  repeat (StartStep 1) 7 ++ [WatchStep 1 TimeSync; WatchStep 1 KlineFlush; StartStep 1].

Definition cleaning_up : list Action :=
  repeat (CleanStep 1) 13 ++
  [WorkerLaunch 0 1; WorkerStep 0; WorkerStep 0; WatchAbort 1 TimeSync; WatchAbort 1 KlineFlush;
   LoopExit 1 TimeSync; LoopExit 1 KlineFlush; HandleDropped 1 TimeSync; HandleDropped 1 KlineFlush;
   LoopDropped 1 TimeSync; LoopDropped 1 KlineFlush] ++ repeat (WorkerStep 0) 4.

(** The first generation runs, and one of its tasks with it. *)
Definition running_world : World := after (starting_up ++ [RunClaim 1 TimeSync false 0]) new_world.
Definition ended_world : World := after [RunTurn 1 TimeSync 1 (Ok tt)] running_world.

Lemma running_reached : rtc (step two_loops) new_world running_world.
Proof. apply (run_reached (starting_up ++ [RunClaim 1 TimeSync false 0])). by vm_compute. Qed.

(** ** Witnesses *)

Lemma generations_exclusive_witness :
  guards (heap running_world)
    = [RunOwner 1 TimeSync 1; HandleOwner 1 KlineFlush; HandleOwner 1 TimeSync;
       LoopOwner 1 KlineFlush; LoopOwner 1 TimeSync] /\
  ((forall x, x ∈ guards (heap running_world) ->
      active_generation (lc running_world) = Some (guard_generation x)) /\
   (forall t g tok g' tok', RunOwner g t tok ∈ guards (heap running_world) ->
      RunOwner g' t tok' ∈ guards (heap running_world) -> g = g' /\ tok = tok')).
Proof. split; [by vm_compute|]. apply (generations_exclusive two_loops), running_reached. Defined.

Lemma running_has_all_loops_witness :
  state (lc running_world) = Running 1 /\
  ((forall t, t ∈ two_loops -> (1, t) ∈ loops running_world) /\
   is_cancelled (heap running_world) 1 = false /\ 1 = next_generation (lc running_world)).
Proof.
  split; [by vm_compute|]. apply (running_has_all_loops two_loops); [exact running_reached|by vm_compute].
Defined.

(** A stop and its whole cleanup. *)
Lemma stop_holds_witness :
  state (lc (after cleaning_up (stop false ended_world))) = Stopped /\
  ((forall g, state (lc (after cleaning_up (stop false ended_world))) <> Starting g /\
              state (lc (after cleaning_up (stop false ended_world))) <> Running g) /\
   next_generation (lc (after cleaning_up (stop false ended_world))) = next_generation (lc ended_world)).
Proof.
  split; [by vm_compute|].
  apply (proj1 (stop_holds two_loops ended_world (after cleaning_up (stop false ended_world)))).
  apply (run_reaches cleaning_up); [by vm_compute|]. by repeat constructor.
Defined.

Lemma recovery_backoff_bounded_witness :
  map recovery_backoff [1; 2; 3; 6; 7; 40] = [100; 200; 400; 3200; 5000; 5000] /\
  (recovery_backoff 3 = Z.min 5000 (100 * 2 ^ (3 - 1)) /\
   100 <= recovery_backoff 3 <= 5000 /\ recovery_backoff 3 <= recovery_backoff 7).
Proof. split; [by vm_compute|]. apply (recovery_backoff_bounded 3 7). lia. Defined.

(** A stop of a generation whose task still runs. *)
Lemma cleanup_can_finish_witness :
  state (lc (after [Stop false; CleanStep 1] running_world)) = Stopping 1 /\
  exists w', rtc (step two_loops) (after [Stop false; CleanStep 1] running_world) w' /\ state (lc w') = Stopped.
Proof.
  split; [by vm_compute|]. apply (cleanup_can_finish two_loops _ 1); [|by vm_compute].
  etrans; [exact running_reached|]. apply (run_reached [Stop false; CleanStep 1]). by vm_compute.
Defined.

(** *** One task: two forced requests while it runs *)

Definition forced_claims : Task := claimed true 2 (claimed true 1 (claimed true 0 idle_task)).
Definition forced_rerun_ends : Task := turned 1 2 2 (Ok tt) (turned 1 1 1 (Ok tt) forced_claims).

Lemma forced_reached : rtc task_step idle_task forced_claims.
Proof.
  eapply rtc_l; [by apply (task_claim true 0)|]. eapply rtc_l; [by apply (task_claim true 1)|].
  eapply rtc_l; [by apply (task_claim true 2)|]. apply rtc_refl.
Qed.

Lemma rerun_reached : rtc task_step forced_claims forced_rerun_ends.
Proof.
  eapply rtc_l; [by apply (task_turn 1 1 1 (Ok tt))|]. eapply rtc_l; [by apply (task_turn 1 2 2 (Ok tt))|].
  apply rtc_refl.
Qed.

Lemma forced_requests_served_witness :
  x_answers forced_rerun_ends !! 2%nat = Some {| answer_of := Some 2%nat; answer := Ok tt |} /\
  (forall w q, x_asked forced_rerun_ends !! w = Some q ->
     (exists a, x_answers forced_rerun_ends !! w = Some a /\
        (answer a = cancelled_task_result \/
         exists e, answer_of a = Some e /\
           ((asked_during q < e)%nat \/ asked_during q = e /\ asked_in_rerun q = true))) \/
     (exists tok, is_Some (x_drivers forced_rerun_ends !! tok))).
Proof.
  split; [by vm_compute|]. apply (forced_requests_served forced_rerun_ends).
  etrans; [exact forced_reached|exact rerun_reached].
Defined.

(** The answer of the rerun stays after the task is closed. *)
Lemma answers_are_final_witness :
  x_answers (abandoned 2 (claimed true 3 forced_rerun_ends)) !! 2%nat
    = Some {| answer_of := Some 2%nat; answer := Ok tt |}.
Proof.
  apply (answers_are_final forced_rerun_ends).
  - etrans; [exact forced_reached|exact rerun_reached].
  - eapply rtc_l; [by apply (task_claim true 3)|]. eapply rtc_l; [|apply rtc_refl].
    apply task_abandon. by vm_compute; eexists.
  - by vm_compute.
Defined.
