(* ===== verification/NotificationWitnesses.v ===== *)
(** The notification theorems at concrete inputs: a store of documents in
    memory, and one on disk whose documents have texts. *)
From Stdlib Require Import Ascii.
From stdpp Require Import gmap strings.
From S2P Require Import Prelude RustStr FileSystem External Models SafeDocument NotificationTypes NotificationPolicy NotificationFile NotificationIncidents NotificationStore NotificationService NotificationFacts NotificationValid NotificationPublish NotificationHistory NotificationDurable NotificationTheorems.
#[local] Open Scope list_scope.

(** ** The libraries *)

#[local] Instance Uuids : UuidText :=
  { uuid_parse s := if (String.length s =? 36)%nat then Some (4, s) else None }.
#[local] Instance UuidsLaws : UuidTextLaws.
Proof. by split. Defined.

Definition zeros : string := "0000000000000000000000000000000000000000000000000000000000000000".
#[local] Instance Digests : Sha256Lib := { sha256_hex s := String.substring 0 64 zeros }.

(** Cursors as binary numerals. *)
Fixpoint numeral (p : positive) : string :=
  match p with
  | xH => "."
  | xO p => String "0"%char (numeral p)
  | xI p => String "1"%char (numeral p)
  end.
Fixpoint numeral_value (s : string) : option positive :=
  match s with
  | String "0"%char s => option_map xO (numeral_value s)
  | String "1"%char s => option_map xI (numeral_value s)
  | String _ EmptyString => Some xH
  | _ => None
  end.
Lemma numeral_value_of p : numeral_value (numeral p) = Some p.
Proof. induction p as [p IH|p IH|]; simpl; rewrite ?IH; done. Qed.

Definition cursor_tuple (c : CursorV1) : Z * string * bool * Z * string :=
  (cu_version c, cu_fingerprint c, bool_decide (cu_filter c = All), cu_created_at_ms c, cu_id c).
Definition tuple_cursor (t : Z * string * bool * Z * string) : CursorV1 :=
  let '(version, fingerprint, all, created, i) := t in
  {| cu_version := version; cu_fingerprint := fingerprint; cu_filter := if all : bool then All else Unread;
     cu_created_at_ms := created; cu_id := i |}.
#[local] Instance Cursors : Codec CursorV1 := {
  encode c := Some (numeral (countable.encode (cursor_tuple c)));
  decode s := option_map tuple_cursor (numeral_value s ≫= countable.decode);
}.
#[local] Instance CursorsLaws : CursorLaws.
Proof.
  split. intros c _. eexists. split; [done|]. split.
  - by destruct (countable.encode (cursor_tuple c)).
  - cbn [decode Cursors]. rewrite numeral_value_of. 
    change (option_map tuple_cursor (countable.decode (countable.encode (cursor_tuple c))) = Some c).
    rewrite countable.decode_encode. by destruct c as [v fp [] t i].
Defined.

(** ** The documents *)

Definition order7_source : string :=
  Eval vm_compute in "order:terminal:" +:+ order_alias_token "order-id" "o" "7".

Definition order7 : NotificationRecord := {|
  id := "00000000-0000-4000-8000-000000000001"; scope := AccountScope "main"; category := TradingCategory;
  kind := OrderFilled; severity := Success;
  content := {| message_key := "order.filled"; params := [("orderId", ScalarString "7")];
                fallback_title := "订单已成交"; fallback_body := "订单已完全成交，请前往交易页查看。" |};
  entity := Some {| entity_type := EntityOrder; entity_id := "7" |};
  action := Some (OpenTrading (Some "7")); source_event_id := Some order7_source;
  dedupe_key := "order:7:filled"; occurrence_count := 1; created_at_ms := 1000; updated_at_ms := 1000;
  read_at_ms := None |}.

Definition document_with (r : NotificationRecord) (n : Z) : NotificationFileV1 := {|
  schema_version := 1; revision := n;
  source_event_index := [{| se_scope := AccountScope "main"; se_source_event_id := order7_source;
                            se_notification_id := id order7 |}];
  partitions := [{| pt_scope := AccountScope "main"; items := [r] |}] |}.

Definition order7_read : NotificationRecord := read_now 2000 order7.

#[local] Instance f64_eq_dec : EqDecision f64.
Proof. solve_decision. Defined.
#[local] Instance Scalar_eq_dec : EqDecision NotificationScalar.
Proof. solve_decision. Defined.
#[local] Instance Content_eq_dec : EqDecision NotificationContent.
Proof. solve_decision. Defined.
#[local] Instance Record_eq_dec : EqDecision NotificationRecord.
Proof. solve_decision. Defined.
#[local] Instance Partition_eq_dec : EqDecision NotificationPartition.
Proof. solve_decision. Defined.
#[local] Instance File_eq_dec : EqDecision NotificationFileV1.
Proof. solve_decision. Defined.

(** The documents of the histories below, and their texts. *)
Definition known_documents : list (string * NotificationFileV1) :=
  [("{0}", NotificationFileV1_empty); ("{1}", document_with order7 1); ("{2}", document_with order7_read 2)].

Definition text_of (f : NotificationFileV1) : option string :=
  option_map fst (List.find (fun e => bool_decide (e.2 = f)) known_documents).

Definition value_of (f : NotificationFileV1) : json :=
  JObject [("schemaVersion", JPosInt (schema_version f)); ("revision", JPosInt (revision f))].

#[local] Instance Texts : Codec json := {
  encode _ := None;
  decode s := option_map (fun e => value_of e.2) (List.find (fun e => e.1 ==s s) known_documents);
}.
#[local] Instance Documents : NotificationJson := {
  to_pretty := text_of;
  file_from_value v :=
    n ← json_get "revision" v ≫= as_u64_value;
    option_map snd (List.find (fun e => revision e.2 =? n) known_documents);
}.

Lemma known_text s v :
  decode s = Some v -> exists e, e ∈ known_documents /\ e.1 = s /\ v = value_of e.2.
Proof.
  cbn [decode Texts]. destruct (List.find _ known_documents) as [e|] eqn:E; [|done]. intros [= <-].
  apply find_some in E as [Hin E]. apply String.eqb_eq in E. exists e. by rewrite list_elem_of_In.
Qed.

#[local] Instance TextsLaws : ObjectTextLaws json.
Proof.
  split. intros t t' v v' (e & He & <- & ->)%known_text Hp (e' & He' & <- & ->)%known_text.
  unfold known_documents in He, He'. rewrite !elem_of_cons, elem_of_nil in He, He'.
  by destruct He as [->|[->|[->|[]]]], He' as [->|[->|[->|[]]]].
Defined.

#[local] Instance DocumentsLaws : NotificationJsonLaws.
Proof.
  split. intros f text _ Ht. cbn [to_pretty Documents] in Ht. unfold text_of in Ht.
  destruct (List.find _ known_documents) as [e|] eqn:E; [|done]. injection Ht as <-.
  apply find_some in E as [Hin Hf]. apply bool_decide_eq_true in Hf. subst f.
  exists (value_of e.2). apply list_elem_of_In in Hin. unfold known_documents in Hin.
  rewrite !elem_of_cons, elem_of_nil in Hin.
  destruct Hin as [->|[->|[->|[]]]]; split_and!; vm_compute; reflexivity.
Defined.

(** ** The stores and the service *)

(** A store that takes every document and remembers them. *)
#[local] Instance Memory : NotificationPersistence (list NotificationFileV1) :=
  { persist f l := (Ok tt, f :: l) }.

Definition new_service {X} (file : NotificationFileV1) (x : X) : Service X := {|
  sv_state := {| st_file := file; st_seen_source_events := rebuild_seen_source_events file;
                 st_last_pruned_at_ms := 0; st_active_incidents := ∅; st_order_states := ∅ |};
  sv_persistence := x; sv_events := []; sv_reporter := None |}.

Definition empty_service : Service (list NotificationFileV1) := new_service NotificationFileV1_empty [].

Definition order7_filled : NotificationInput := {|
  in_scope := scope order7; in_category := category order7; in_kind := kind order7; in_severity := severity order7;
  in_content := content order7; in_entity := entity order7; in_action := action order7;
  in_source_event_id := source_event_id order7; in_dedupe_key := dedupe_key order7; in_session_epoch := Some 1 |}.

Definition main_view : ViewContext := {| vc_account_id := Some "main" |}.

(** An order is filled, and its notification is read. *)
Definition history_of_order7 : list (call * Z) :=
  [(CallPublish order7_filled (id order7), 1000); (CallMarkRead main_view (id order7), 2000)].

Lemma indexed_empty : indexed NotificationFileV1_empty.
Proof. intros s r source Hr. by apply elem_of_nil in Hr. Qed.

Lemma order7_marked : client_marked order7_filled.
Proof. intros _. split; [reflexivity|]. intros source [= <-]. reflexivity. Qed.

Lemma history_ok {X} `{NotificationPersistence X} (w : Service X) :
  st_file (sv_state w) = NotificationFileV1_empty -> session_ok history_of_order7 w.
Proof.
  intros Hw. cbn [history_of_order7 session_ok]. split_and!; try done.
  unfold call_ok. split; [apply order7_marked|]. unfold ids_of. rewrite Hw. apply not_elem_of_nil.
Qed.

Lemma revisions_are_announced_in_order_witness :
  exists events,
    sv_events (session history_of_order7 empty_service) = [] ++ events /\ announces 0 events /\
    revision (st_file (sv_state (session history_of_order7 empty_service))) = 0 + lenz events.
Proof.
  apply (revisions_are_announced_in_order history_of_order7 empty_service);
    [reflexivity|apply indexed_empty|reflexivity|by apply history_ok].
Defined.

Lemma document_stays_acceptable_witness :
  let w' := session history_of_order7 empty_service in
  file_valid (st_file (sv_state w')) = true /\ indexed (st_file (sv_state w')) /\
  st_seen_source_events (sv_state w') = rebuild_seen_source_events (st_file (sv_state w')) /\
  Forall (fun f => file_valid f = true) (sv_persistence w').
Proof.
  apply (document_stays_acceptable history_of_order7 empty_service (Forall (fun f => file_valid f = true)));
    [reflexivity|apply indexed_empty|reflexivity|by apply history_ok| |constructor].
  intros file x Hf Hx. by constructor.
Defined.

Lemma a_source_is_published_once_witness :
  let w1 := snd (publish order7_filled 1000 (id order7) empty_service) in
  exists r,
    publish order7_filled 3000 "00000000-0000-4000-8000-000000000002" w1 =
      (Ok {| po_notification := Some r; po_revision := u64_to_string (revision (st_file (sv_state w1)));
             po_committed := false |}, w1) /\
    (forall r1, Some order7 = Some r1 -> id r = id r1).
Proof.
  apply (a_source_is_published_once order7_filled order7_filled (AccountScope "main", order7_source) 1000 3000
           (id order7) "00000000-0000-4000-8000-000000000002" empty_service
           (snd (publish order7_filled 1000 (id order7) empty_service))
           {| po_notification := Some order7; po_revision := "1"; po_committed := true |});
    [reflexivity|apply indexed_empty|reflexivity|apply not_elem_of_nil|apply order7_marked
    |vm_compute; reflexivity|reflexivity|reflexivity|vm_compute; reflexivity].
Defined.

Lemma views_leave_other_accounts_witness :
  records_in (AccountScope "main")
    (st_file (sv_state (snd (perform (CallMarkVisibleRead {| vc_account_id := Some "other" |}) 5000
                               (new_service (document_with order7 1) []))))) =
  [order7].
Proof.
  apply (views_leave_other_accounts (CallMarkVisibleRead {| vc_account_id := Some "other" |}) 5000
           (new_service (document_with order7 1) []) (AccountScope "main")).
  reflexivity.
Defined.

Definition observed (status : ObservedOrderStatus) (origin : OrderObservationOrigin) : OrderObservation := {|
  oo_account_id := "main"; oo_session_epoch := 1; oo_order_id := Some "7"; oo_submission_id := None;
  oo_order_link_id := None; oo_status := status; oo_origin := origin |}.

Lemma an_outcome_is_published_once_witness :
  let w1 := snd (observe_order (observed Filled Command) 1000 (id order7) empty_service) in
  exists out2 w2,
    observe_order (observed Filled Snapshot) 3000 "00000000-0000-4000-8000-000000000002" w1 = (Ok out2, w2) /\
    po_committed out2 = false /\ st_file (sv_state w2) = st_file (sv_state w1) /\ sv_events w2 = sv_events w1 /\
    sv_persistence w2 = sv_persistence w1.
Proof.
  apply (an_outcome_is_published_once (observed Filled Command) (observed Filled Snapshot) 1000 3000 (id order7)
           "00000000-0000-4000-8000-000000000002" empty_service
           (snd (observe_order (observed Filled Command) 1000 (id order7) empty_service))
           {| po_notification := Some order7; po_revision := "1"; po_committed := true |});
    [reflexivity|apply indexed_empty|reflexivity|vm_compute; reflexivity|reflexivity..].
Defined.

Lemma pages_enumerate_view_witness :
  exists pages,
    follow (sv_state (new_service (document_with order7 1) tt)) main_view Unread 1 5000 2 None = Ok pages /\
    concat pages ≡ₚ [order7] /\ StronglySorted (fun a b => newest_first a b = true) (concat pages) /\
    full_but_last 1 pages.
Proof.
  apply (pages_enumerate_view (sv_state (new_service (document_with order7 1) tt)) main_view Unread 1 5000 2);
    [reflexivity|vm_compute; reflexivity|repeat constructor; by vm_compute|vm_compute; lia].
Defined.

(** ** On disk *)

Definition data : path := ["data"].
Definition main_file : path := "notifications.json" :: data.

(** The empty document is on disk; the 40th call of the file system is the last. *)
Definition disk : fs_world :=
  FsWorld (<[data := Dir]> (<[main_file := File "{0}" true]> ∅)) (repeat Pass 39 ++ [CrashOp 0]).

Lemma disk_walkable : walkable data (nodes disk).
Proof.
  intros name. unfold blocked. apply not_true_iff_false. intros (q & Hq & Ef)%existsb_exists.
  simpl in Hq. destruct Hq as [<-|[<-|[]]]; by vm_compute in Ef.
Qed.

(** A save, one that is cut off, a start, and another save. *)
Definition events_on_disk : list disk_event :=
  [Saving (document_with order7 1); Saving (document_with order7_read 2); PowerLoss 1 (fun _ => O) [];
   Starting 5000; Saving (document_with order7_read 2)].


Definition service_on_disk : Service fs_world := new_service NotificationFileV1_empty disk.


(** In this history the first change is saved and the second is cut off: the
    service holds the unread notification, which a start finds. *)
Example order7_survives :
  let w' := session (H := on_disk data "notifications.json") history_of_order7 service_on_disk in
  st_file (sv_state w') = document_with order7 1.
Proof. vm_compute. reflexivity. Qed.
