(* ===== verification/PluginWitnesses.v ===== *)
(** The plugin theorems at concrete inputs: a world of two documents, one
    managed package and a scan that shows it until it is renamed. *)
From stdpp Require Import gmap strings sorting.
From Stdlib Require Import Ascii.
From S2P Require Import PluginCompute WorkflowRuntime WorkflowSafety Prelude RustStr FileSystem External Models BTreeMap Workflow StrategyTypes StrategyStore SafeDocument Supervisor PluginManifest PluginCatalog PluginPackages PluginState PluginOwnership PluginRegistry PluginLifecycle PluginScan PluginImport PluginRegistryFacts PluginLifecycleFacts PluginProtocol PluginScanFacts PluginReconcileFacts.

(** ** The libraries *)

#[local] Instance Versions : SemverLib :=
  { Version := Z; version_to_string z := "1.0.0"; cmp_precedence := Z.compare }.
#[local] Instance FewTexts : Codec json :=
  { encode j := None; decode t := if t ==s "{}" then Some (JObject []) else None }.
#[local] Instance Verbatim : Base64Lib := { b64_encode t := t; b64_decode t := Some t }.
#[local] Instance Manifests : Codec PluginManifest := { encode m := Some (pm_id m); decode t := None }.
Definition zeros64 : string := "0000000000000000000000000000000000000000000000000000000000000000".
#[local] Instance ZeroDigest : Sha256Lib := { sha256_hex s := zeros64 }.
#[local] Instance AnyUuid : UuidV4Lib := { uuid_v4_rfc4122 s := true }.
#[local] Instance Receipts : Codec OwnershipReceiptV1 :=
  { encode r := Some (or_receipt_id r); decode t := None }.
#[local] Instance Indexes : Codec IndexWire := { encode i := Some (iw_revision i); decode t := None }.

(** An enabled local plugin, and the document it is saved in. *)
Definition saved_entry : PluginStateEntryV2 := {|
  e_id := "com.example.notes"; e_source := LocalDeclarative; e_publisher_id := "com.example";
  e_approval_fingerprint := "v1:sha256:" +:+ zeros64; e_enabled := true |}.
#[local] Instance States : Codec StateWire := {
  encode s := Some (sw_revision s);
  decode t := if t ==s "saved"
              then Some {| sw_schema_version := 2; sw_revision := "7"; sw_entries := [saved_entry] |}
              else None;
}.
#[local] Instance OldStates : Codec StateV1Wire := { encode s := None; decode t := None }.
#[local] Instance Members : ObjectReader :=
  { object_members t := if t ==s "saved" then Some [("revision", JString "7"); ("schemaVersion", JPosInt 2)]
                        else None }.

(** ** The world *)

Definition manifest_named (id : string) : PluginManifest := {|
  pm_schema_version := 1; pm_id := id; pm_publisher_id := "com.example"; pm_publisher := "Example";
  pm_name := "Chart notes"; pm_description := "Notes"; pm_version := (1 : @Version Versions);
  pm_contributions := []; pm_requested_capabilities := [] |}.
Definition notes_record : PluginRecord :=
  default {| pr_manifest := manifest_named ""; pr_source := BuiltIn; pr_approval_fingerprint := "" |}
    (ok_of (local_declarative (manifest_named "com.example.notes"))).

Definition notes_receipt : OwnershipReceiptV1 := {|
  or_schema_version := 1; or_receipt_id := "550e8400e29b41d4a716446655440000";
  or_package_slot := "pkg-0123456789abcdef0123456789abcdef"; or_source := LocalDeclarative;
  or_plugin_id := "com.example.notes"; or_publisher_id := "com.example";
  or_approval_fingerprint := pr_approval_fingerprint notes_record |}.
Definition inode (n : Z) : FileIdentity := {| volume := 1; object := n |}.
Definition notes_locator : LocalPackageLocator := {|
  l_package_slot := or_package_slot notes_receipt; l_directory_identity := inode 10;
  l_manifest_identity := inode 11;
  l_receipt := Some {| vr_model := notes_receipt; vr_canonical_sha256 := zeros64;
                       vr_file_identity := inode 12 |} |}.
Definition notes_entry : ManagedOwnershipEntryV1 := {|
  en_receipt_id := or_receipt_id notes_receipt; en_lifecycle := Managed;
  en_package_slot := or_package_slot notes_receipt; en_plugin_id := "com.example.notes";
  en_source := LocalDeclarative; en_publisher_id := "com.example";
  en_approval_fingerprint := pr_approval_fingerprint notes_record;
  en_receipt_sha256 := zeros64; en_directory_identity := inode 10;
  en_manifest_identity := inode 11; en_receipt_identity := inode 12 |}.
Definition notes_index : ManagedOwnershipIndexV1 :=
  {| ix_schema_version := 1; ix_revision := 1; ix_entries := [notes_entry] |}.

Definition found_of (ps : list DiscoveredLocalPlugin) : LocalDiscoveryOutcome :=
  {| do_plugins := ps; do_occupied_slots := map (fun p => l_package_slot (dp_locator p)) ps;
     do_removals := removals_available; do_summary := summary_available;
     do_usage := Some {| su_root_entries := 1; su_packages := 1; su_bytes_read := 100 |} |}.
Definition notes_found : DiscoveredLocalPlugin :=
  {| dp_record := notes_record; dp_locator := notes_locator |}.

Record Docs := {
  d_state : PluginStateFileV2;
  d_index : ManagedOwnershipIndexV1;
  d_found : list DiscoveredLocalPlugin;
}.

#[local] Instance docs_state : PluginStatePersistence Docs := {
  state_load w := (if (0 <=? f_revision (d_state w)) && (f_revision (d_state w) <=? u64_max)
                   then Ok {| pl_state := d_state w; pl_requires_rewrite := false |}
                   else Err state_unavailable, w);
  state_save s w :=
    (Ok CommittedDurable, {| d_state := s; d_index := d_index w; d_found := d_found w |});
}.
#[local] Instance docs_index : ManagedOwnershipPersistence Docs := {
  ownership_load w := (Ok {| ol_index := d_index w; ol_requires_rewrite := false |}, w);
  ownership_save i w :=
    (Ok CommittedDurable, {| d_state := d_state w; d_index := i; d_found := d_found w |});
}.
#[local] Instance docs_scan : PluginDiscovery Docs :=
  { discover w := (Ok (found_of (d_found w)), w) }.

Definition notes_slot : string := "remove-0123456789abcdef0123456789abcdef".
#[local] Instance docs_removal : RemovalStorage Docs := {
  Owned := ManagedOwnershipEntryV1;
  owned_slot o := notes_slot;
  prepare_removal l e w := (Ok e, w);
  reverify_before_rename o w := (Ok tt, w);
  quarantine_once e w :=
    (Ok (RenameCommitted {| vq_entry := entry_begin_removal notes_slot e; vq_removal_slot := notes_slot |}),
     {| d_state := d_state w; d_index := d_index w; d_found := [] |});
  verify_quarantine e w :=
    (Ok {| vq_entry := entry_begin_removal notes_slot e; vq_removal_slot := notes_slot |}, w);
  cleanup_once e w := (Ok CleanupRemoved, w);
}.
#[local] Instance docs_import : ImportStorage Docs := {
  Stage := unit;
  prepare_stage r b w := (Ok tt, w);
  promote s w :=
    (Ok {| pp_entry := notes_entry; pp_locator := notes_locator |},
     {| d_state := d_state w; d_index := d_index w; d_found := [notes_found] |});
  promotion_state s w := (Ok PromotionCommitted, w);
  stage_cleanup s w := (Ok tt, w);
}.

Lemma docs_typed : loads_typed (W := Docs).
Proof.
  intros w l w'. simpl. destruct ((0 <=? _) && _) eqn:E; [|done]. intros [= <- _]. simpl.
  apply andb_true_iff in E as [?%Z.leb_le ?%Z.leb_le]. by split.
Qed.

(** The world with the package, and without it. *)
Definition with_notes : Docs :=
  {| d_state := empty_state; d_index := notes_index; d_found := [notes_found] |}.
Definition without_notes : Docs :=
  {| d_state := empty_state; d_index := empty_index; d_found := [] |}.

(** The registry a runtime starts with in a world. *)
Definition first_registry (w : Docs) : PluginRegistry :=
  match initialize (E := Empty_set) [manifest_named "com.easiflux.charts"] w with
  | (Ok r, _) => r
  | _ => {| builtins := ∅;
            publication := {| locals := ∅; locators := ∅; management := ∅;
                              local_summary := summary_available;
                              ownership_summary := ownership_available; discovery := nothing_found;
                              catalog_generation := 0; runtime := RUnavailable ForCatalog;
                              ownership := OUnavailable;
                              snapshot := new_snapshot "0" "0" CatalogAvailable None
                                            summary_available ownership_available [] |};
            removal_authority_unreconciled := false |}
  end.

(** What a runtime holds after requests. *)
Definition served_by (qs : list Request) (w : Docs) : Live * Docs :=
  snd (serve qs (started (first_registry w), w)).

(** The catalogs shown over a run, the newest first: revision, generation and items. *)
Definition shown (l : Live) : list (string * string * nat) :=
  map (fun r => let s := catalog_snapshot r in
                (s_revision s, s_catalog_generation s, length (s_plugins s))) (held l).

Definition some_requests : list Request :=
  [RequestDiscovery false; RequestSetEnabled "com.example.notes" true "1";
   RequestSetEnabled "com.example.notes" false "1"; RequestRemoval "com.example.notes" "1"].

Example some_catalogs :
  shown (fst (served_by some_requests with_notes)) =
  [("3", "2", 1); ("2", "1", 2); ("2", "1", 2); ("2", "1", 2); ("2", "1", 2); ("1", "1", 2);
   ("0", "1", 2); ("0", "0", 1)]%nat.
Proof. by vm_compute. Qed.

Lemma fst_of {A B} (x : A * B) a b : x = (a, b) -> a = fst x.
Proof. by intros ->. Qed.

(** ** The theorems *)

(** The registry after the scan and after two decisions are told apart. *)
Lemma catalog_versions_are_unique_witness :
  let l := fst (served_by some_requests with_notes) in
  length (held l) = 8%nat /\
  forall x y, x ∈ held l -> y ∈ held l ->
    s_revision (catalog_snapshot x) = s_revision (catalog_snapshot y) ->
    s_catalog_generation (catalog_snapshot x) = s_catalog_generation (catalog_snapshot y) ->
    catalog_snapshot x = catalog_snapshot y.
Proof.
  split; [by vm_compute|]. intros x y.
  refine (catalog_versions_are_unique [manifest_named "com.easiflux.charts"] with_notes with_notes
            (snd (served_by some_requests with_notes)) (first_registry with_notes) some_requests
            (fst (serve some_requests (started (first_registry with_notes), with_notes)))
            (fst (served_by some_requests with_notes)) x y docs_typed _ _); by vm_compute.
Defined.

(** A removal of the package with the calls it made, the newest first. *)
Definition notes_live : Live := fst (served_by [RequestDiscovery false] with_notes).
Definition RecordedDocs : Type := Recorded (W := Docs).
#[local] Instance docs_recorded_state : PluginStatePersistence RecordedDocs := recorded_state.
#[local] Instance docs_recorded_index : ManagedOwnershipPersistence RecordedDocs := recorded_ownership.
#[local] Instance docs_recorded_scan : PluginDiscovery RecordedDocs := recorded_discovery.
#[local] Instance docs_recorded_removal : RemovalStorage RecordedDocs := recorded_removal.
#[local] Instance docs_recorded_import : ImportStorage RecordedDocs := recorded_import.
Definition removal_calls : outcome AppError RemovalResult * list (Call (W := Docs)) :=
  let '(o, (_, (calls, _))) :=
    run_removal (W := RecordedDocs) "com.example.notes" "1" (notes_live, ([], with_notes)) in (o, calls).
Definition call_name (c : Call (W := Docs)) : string :=
  match c with
  | SavedState _ _ => "state" | SavedIndex _ _ => "index" | Reverified _ _ => "verify"
  | Renamed _ _ => "rename" | Cleaned _ _ => "clean" | Promoted _ _ => "promote"
  end.

Lemma removal_follows_protocol_witness :
  map call_name (snd removal_calls) = ["index"; "clean"; "rename"; "verify"; "index"; "state"] /\
  removal_protocol (W := Docs) (lv_registry notes_live) "com.example.notes" "1" (fst removal_calls) (snd removal_calls).
Proof.
  split; [by vm_compute|].
  destruct (run_removal (W := RecordedDocs) "com.example.notes" "1" (notes_live, ([], with_notes)))
    as [o [l' [calls w']]] eqn:E.
  unfold removal_calls. rewrite E. exact (removal_follows_protocol _ _ _ _ _ _ _ _ E).
Defined.

(** The package imported into a world without it. *)
Definition empty_live : Live := fst (served_by [RequestDiscovery false] without_notes).
Definition notes_lease : CommitLease :=
  {| cl_generation := 1; cl_record := notes_record; cl_bytes := "com.example.notes" |}.

Lemma imports_arrive_disabled_witness :
  exists id s l' w',
    run_commit notes_lease "1" (empty_live, without_notes) = (Ok (Imported id s), (l', w')) /\
    decided_off notes_record (lv_registry l').
Proof.
  destruct (run_commit notes_lease "1" (empty_live, without_notes)) as [o [l' w']] eqn:E.
  assert (exists id s, o = Ok (Imported id s)) as (id & s & ->).
  { rewrite (fst_of _ _ _ E). eexists _, _. by vm_compute. }
  exists id, s, l', w'. split; [done|].
  exact (imports_arrive_disabled _ _ _ _ _ _ _ E eq_refl).
Defined.

Lemma found_well ps :
  Forall (fun d => pr_source (dp_record d) = LocalDeclarative) ps -> well_found (found_of ps).
Proof. intros Hps. by split. Qed.

Lemma first_registry_ok w :
  (exists r w', initialize (E := Empty_set) [manifest_named "com.easiflux.charts"] w = (Ok r, w')) ->
  registry_ok (first_registry w).
Proof.
  intros (r & w' & E). unfold first_registry. rewrite E.
  pose proof (initialize_registry docs_typed (E := Empty_set) [manifest_named "com.easiflux.charts"] w) as Hr.
  unfold wp in Hr. by rewrite E in Hr.
Qed.

Lemma scanned_catalog_accepted_witness :
  exists changed r' w',
    apply_local_discovery (found_of [notes_found]) (first_registry with_notes, with_notes)
    = (Ok changed, (r', w')) /\
    (read_snapshot (catalog_snapshot r') = Ok (catalog_snapshot r') <->
     ~ uncounted_conflict (catalog_snapshot r')).
Proof.
  destruct (apply_local_discovery (found_of [notes_found]) (first_registry with_notes, with_notes))
    as [o [r' w']] eqn:E.
  assert (o = Ok true) as -> by (rewrite (fst_of _ _ _ E); by vm_compute).
  exists true, r', w'. split; [done|].
  refine (proj2 (scanned_catalog_accepted _ _ _ _ _ _ docs_typed _ _ E)).
  - apply first_registry_ok. eexists _, _. by vm_compute.
  - by apply found_well; repeat constructor.
Defined.

(** ** A scan *)

(** What is left of the listing and of the file being read, and how many reads
    will be interrupted. *)
Record machine := Machine { mc_entries : list string; mc_text : string; mc_signals : nat }.

(** A directory of packages that holds a slot with a manifest, and a stray file. *)
Definition listing (directory : string) : list string :=
  if directory ==s "local" then ["."; ".."; or_package_slot notes_receipt; "stray"]
  else ["."; "manifest.json"; ".."].

#[local] Instance Machine_rustix : Rustix machine := {
  OwnedFd := string; DirIter := unit;
  sys_open path _ w := (Ok path, w);
  sys_openat _ name _ w :=
    (if bool_decide (name ∈ ["srv"; "plugins"; "local"; or_package_slot notes_receipt; "manifest.json"])
     then Ok name else Err NOENT, w);
  sys_statat_nofollow _ _ w := (Err NOENT, w);
  sys_fstat fd w :=
    (Ok {| st_dev := 1; st_ino := len fd; st_nlink := 1;
           st_mode := if fd ==s "manifest.json" then RegularFile else OtherFileType |}, w);
  sys_read _ n w :=
    match mc_signals w with
    | S signals => (Err Interrupted, Machine (mc_entries w) (mc_text w) signals)
    | O => match mc_text w with
           | String c rest =>
               if 1 <=? n then (Ok (String c ""), Machine (mc_entries w) rest 0) else (Ok "", w)
           | EmptyString => (Ok "", w)
           end
    end;
  reads_interrupted := mc_signals;
  dir_read_from fd w := (Ok tt, Machine (listing fd) (mc_text w) (mc_signals w));
  next_entry _ w :=
    match mc_entries w with
    | [] => (Ok None, w)
    | name :: rest => (Ok (Some name), Machine rest (mc_text w) (mc_signals w))
    end;
  entries_left _ w := length (mc_entries w);
}.
#[local] Instance Machine_laws : RustixLaws.
Proof.
  split; try done.
  - intros fd name flags w. unfold wp. simpl. by case_bool_decide.
  - intros fd n w. unfold wp. simpl.
    destruct (mc_signals w); [destruct (mc_text w); [|destruct (1 <=? n)]|]; done.
  - intros dir w. unfold wp. simpl. by destruct (mc_entries w).
  - intros fd n w chunk w' Hn. simpl. repeat case_match; intros [= <- <-]; unfold len; simpl; lia.
  - intros fd n w w'. simpl. destruct (mc_signals w) as [|signals] eqn:E.
    + by repeat case_match.
    + intros [= <-]. simpl. lia.
  - intros [] w name w'. simpl. destruct (mc_entries w) as [|x rest]; [done|].
    intros [= _ <-]. simpl. lia.
Qed.

Definition plugged : machine := Machine [] "{}" 2.


(** ** The documents *)

Lemma removal_rolls_back_witness :
  exists i1 i2,
    index_begin_removal (en_receipt_id notes_entry) notes_slot notes_index = Ok i1 /\
    ix_entries i1 <> ix_entries notes_index /\
    index_restore_managed (en_receipt_id notes_entry) i1 = Ok i2 /\
    ix_entries i2 = ix_entries notes_index /\ ix_revision i2 = ix_revision notes_index + 2.
Proof.
  destruct (index_begin_removal (en_receipt_id notes_entry) notes_slot notes_index) as [i1|?|?] eqn:Eb;
    [|by vm_compute in Eb..].
  destruct (removal_rolls_back notes_index (en_receipt_id notes_entry) notes_slot notes_entry i1 "2")
    as (i2 & Er & Ee & Ei & _); [by vm_compute..|done|by vm_compute|].
  exists i1, i2. split_and!; [done| |done..].
  vm_compute in Eb. injection Eb as <-. done.
Defined.

(** Enabling the plugin disables what was decided of its earlier version. *)
Definition old_notes : PluginRecord := {|
  pr_manifest := manifest_named "com.example.notes"; pr_source := LocalDeclarative;
  pr_approval_fingerprint := "v1:sha256:1" |}.
Definition old_state : PluginStateFileV2 :=
  {| f_schema_version := 2; f_revision := 3; f_entries := [entry_of old_notes true] |}.

Lemma decision_is_exact_witness :
  exists s, next_decision old_state false notes_record true = Ok (Some s) /\
    is_enabled old_state old_notes = true /\ is_enabled s old_notes = false /\
    is_enabled s notes_record = true.
Proof.
  destruct (next_decision old_state false notes_record true) as [[s|]|?|?] eqn:E;
    [|by vm_compute in E..].
  exists s. pose proof (fun other => decision_is_exact _ _ _ _ _ other E) as Hd. simpl in Hd.
  split_and!; [done|by vm_compute|rewrite Hd; by vm_compute|rewrite Hd; by vm_compute].
Defined.

(** The main file is torn; the state is read from its backup. *)
Definition torn_state : fs_world :=
  FsWorld (<[["plugins"] := Dir]> (<[["state.json"; "plugins"] := FileSystem.File "{" true]>
             (<[["state.json.bak"; "plugins"] := FileSystem.File "saved" true]> ∅))) [].

Definition recovered_notes : PluginStateLoad := recovered
  {| pl_state := {| f_schema_version := 2; f_revision := 7; f_entries := [saved_entry] |};
     pl_requires_rewrite := false |}.

Lemma torn_main_file :
  fst (load_candidates ["plugins"] plugin_state_names MAX_PLUGIN_STATE_BYTES torn_state)
  = Ok [Bounded "{"; Missing; Bounded "saved"].
Proof. by vm_compute. Qed.

Lemma recovered_state_trusts_no_local_plugin_witness :
  fst (store_load ["plugins"] torn_state) = Ok recovered_notes /\
  Forall untrusted (f_entries (pl_state recovered_notes)).
Proof.
  assert (fst (store_load ["plugins"] torn_state) = Ok recovered_notes) as El by by vm_compute.
  split; [exact El|].
  destruct (recovered_state_trusts_no_local_plugin ["plugins"] torn_state recovered_notes
              (snd (store_load ["plugins"] torn_state)))
    as (cs & Ec & H).
  - rewrite <-El. apply surjective_pairing.
  - apply fst_of in Ec. rewrite torn_main_file in Ec. injection Ec as Ec. clear El. subst cs.
    destruct H as [(bytes & schema & rest & [= <- <-] & Es & _)|[(_ & _ & _ & _ & _ & _ & _ & _ & Hu)|[Hm _]]].
    + discriminate Es.
    + exact Hu.
    + apply Forall_inv in Hm. discriminate Hm.
Defined.

(** ** Account workflows *)

(** Decimals that are the number one. *)
#[local] Instance Ones : DecimalLib := {
  Dec := Z; dec_from_str t := Some 1; dec_from_str_exact t := Some 1; dec_cmp := Z.compare;
  dec_of_Z z := z; dec_checked_add a b := Some (a + b); dec_sub a b := Some (a - b);
  dec_mul a b := Some (a * b); dec_div a b := Some a; dec_abs := Z.abs; dec_normalize d := d;
  dec_to_string d := "1"; dec_to_f64 d := None;
}.
#[local] Instance AnyToken : UuidLib := { uuid_ok t := true }.
Definition buy_one : PlaceProposal := {|
  pp_symbol := "BTCUSDT"; pp_side := "Buy"; pp_order_type := "Limit"; pp_qty := "1";
  pp_price := Some "1"; pp_time_in_force := "GTC"; pp_position_idx := 1; pp_reduce_only := false |}.
#[local] Instance Contexts : Codec Snapshot := { encode sn := Some "{}"; decode t := None }.
#[local] Instance Answers : Codec WorkflowOutput :=
  { encode o := None; decode t := if t ==s "buy" then Some (PlaceOrder buy_one) else None }.
#[local] Instance QuietHost : WorkflowHost unit := {
  host_now_ms w := (Ok 1000, w); host_balances w := (Ok [], w);
  host_positions s w := (Ok [], w); host_orders s w := (Ok [], w);
  host_market s w := (Err NotConnected, w);
}.

(** A registry that lends one workflow. *)
Definition trader_record : PluginRecord := {|
  pr_manifest := {|
    pm_schema_version := 5; pm_id := "com.example.trader"; pm_publisher_id := "com.example";
    pm_publisher := "Example"; pm_name := "Trader"; pm_description := "Trades";
    pm_version := (1 : @Version Versions);
    pm_contributions := [{|
      pc_kind := Command; pc_contribution_id := "com.example.trader.run"; pc_title := "Run";
      pc_action_id := SandboxAccountWorkflow;
      pc_params := AccountWorkflow {| wp_runtime := "wasm-v1"; wp_abi := "account-json-v1";
                                      wp_module_base64 := wasm_magic; wp_default_input := "{}" |} |}];
    pm_requested_capabilities := ["account.read"; "trade.place"] |};
  pr_source := LocalDeclarative; pr_approval_fingerprint := "v1:sha256:" +:+ zeros64 |}.

Definition lending : PluginRegistry :=
  let r := first_registry without_notes in
  let p := publication r in
  with_publication
    {| locals := {["com.example.trader" := trader_record]}; locators := ∅; management := ∅;
       local_summary := local_summary p; ownership_summary := ownership_summary p;
       discovery := discovery p; catalog_generation := 1;
       runtime := RAvailable {| f_schema_version := 2; f_revision := 1;
                                f_entries := [entry_of trader_record true] |} false;
       ownership := ownership p; snapshot := snapshot p |} r.

Definition trader_request : AuthorityRequest := {|
  ar_plugin_id := "com.example.trader"; ar_contribution_id := "com.example.trader.run";
  ar_expected_catalog_generation := "1"; ar_expected_revision := "1" |}.
Definition grant_both : GrantRequest := {|
  gq_plugin_id := "com.example.trader"; gq_contribution_id := "com.example.trader.run";
  gq_expected_catalog_generation := "1"; gq_expected_revision := "1";
  gq_expected_account_id := "main"; gq_expected_session_epoch := "7";
  gq_expected_grant_revision := "1"; gq_capabilities := ["account.read"; "trade.place"] |}.
Definition run_once : RunRequest := {|
  rq_plugin_id := "com.example.trader"; rq_contribution_id := "com.example.trader.run";
  rq_expected_catalog_generation := "1"; rq_expected_revision := "1"; rq_request_id := "run-1";
  rq_expected_account_id := "main"; rq_expected_session_epoch := "7";
  rq_expected_grant_revision := "3"; rq_symbol := "BTCUSDT"; rq_input_json := "{}" |}.

Definition surroundings : WorkflowSafety.Input (X := unit) := {|
  in_registry := lending;
  in_authority := Ok {| au_account := {| account_id := "main"; session_epoch := "7";
                                         environment := "live" |};
                        au_private_session := "s" |};
  in_now := 1000; in_now_ms := 1000; in_host := tt;
  in_guest bytes context input := Ok "buy"; in_token := "token"; in_submission := "order" |}.

(** One call at a time: the next step of the latest task, or a new call. *)
Inductive Act := Begin (c : WorkflowSafety.Call) | Go | Found.
Definition act (a : Act) (y : System) : option (list Event * System) :=
  match a with
  | Begin c =>
      let '(t, s, es) := begin_call surroundings (sy_shared y) c in
      Some (es, {| sy_shared := s; sy_tasks := (opt_list t ++ sy_tasks y)%list |})
  | Go => match sy_tasks y with
          | t :: ts => let '(t', s, es) := advance surroundings (sy_shared y) t in
                       Some (es, {| sy_shared := s; sy_tasks := (opt_list t' ++ ts)%list |})
          | [] => None
          end
  | Found => Some ([], {| sy_shared := discovered (sy_shared y); sy_tasks := sy_tasks y |})
  end.
Fixpoint acted (acts : list Act) (tr : list Event) (y : System) : list Event * System :=
  match acts with
  | [] => (tr, y)
  | a :: acts => match act a y with
                 | Some (es, y') => acted acts (es ++ tr)%list y'
                 | None => (tr, y)
                 end
  end.

Lemma act_step a y es y' : act a y = Some (es, y') -> step (X := unit) y es y'.
Proof.
  destruct y as [s ts]. destruct a as [c| |]; simpl.
  - destruct (begin_call _ _ _) as [[t s'] es'] eqn:E. intros [= <- <-]. by eapply step_begin.
  - destruct ts as [|t ts]; [done|]. destruct (advance _ _ _) as [[t' s'] es'] eqn:E.
    intros [= <- <-]. by apply (step_advance surroundings s [] t ts t' s' es').
  - intros [= <- <-]. apply step_outside. constructor.
Qed.
Lemma acted_execution acts tr y :
  execution (X := unit) tr y -> execution (X := unit) (fst (acted acts tr y)) (snd (acted acts tr y)).
Proof.
  revert tr y. induction acts as [|a acts IH]; intros tr y He; [done|]. simpl.
  destruct (act a y) as [[es y']|] eqn:E; [|done]. apply IH.
  eapply execution_step; [done|by eapply act_step].
Qed.

(** The user looks at the grants, grants both capabilities, runs the plugin
    and confirms what it proposes. *)
Definition confirmed_run : list Event * System :=
  acted [Found; Begin (CallAccess trader_request); Go; Begin (CallGrants grant_both); Go; Go;
         Begin (CallRun run_once); Go; Go; Go; Go; Go; Begin (CallConfirm "token"); Go; Go; Go]
    [] initial_system.
Lemma confirmed_execution : execution (X := unit) (fst confirmed_run) (snd confirmed_run).
Proof. apply acted_execution. constructor. Qed.

Definition bought : HostCall := HostPlace
  {| sc_submission_id := "order"; sc_account_id := "main"; sc_session_epoch := 7 |}
  (placed "order" buy_one).

Lemma confirmed_orders_are_authorized_witness :
  exists p tr, fst confirmed_run = EHanded "token" p bought 1000 :: tr /\
               authorized tr "token" p bought 1000.
Proof.
  pose proof confirmed_execution as He.
  assert (exists p tr, fst confirmed_run = EHanded "token" p bought 1000 :: tr) as (p & tr & E)
    by (eexists _, _; vm_compute; reflexivity).
  exists p, tr. split; [exact E|]. rewrite E in He.
  exact (confirmed_orders_are_authorized [] _ _ _ _ _ _ He).
Defined.

Lemma tokens_are_single_use_witness :
  count (is_handed_of "token") (fst confirmed_run) = 1%nat /\
  (count (is_handed_of "token") (fst confirmed_run)
   <= count (is_prepared_of "token") (fst confirmed_run))%nat.
Proof.
  split; [by vm_compute|]. exact (tokens_are_single_use _ _ "token" confirmed_execution).
Defined.

Lemma workflow_limits_hold_witness :
  size (grants (sh_workflow (sy_shared (snd confirmed_run)))) = 1%nat /\
  Z.of_nat (size (grants (sh_workflow (sy_shared (snd confirmed_run))))) <= 256.
Proof.
  split; [by vm_compute|]. exact (proj1 (workflow_limits_hold _ _ confirmed_execution)).
Defined.

Lemma lending_ok : catalog_ok (builtins lending) (publication lending).
Proof.
  destruct (first_registry_ok without_notes) as [[Hg Hr Hb Hl Hs Hu Hc Hk] _];
    [eexists _, _; by vm_compute|].
  split; cbn -[first_registry]; [by split|by split|exact Hb| |exact Hs| |exact Hc|].
  - apply map_Forall_singleton. by split.
  - by vm_compute.
  - by apply map_Forall_empty.
Qed.

Lemma disabled_plugins_lend_nothing_witness :
  is_ok (capture_workflow lending trader_request) = true /\
  exists result r' w',
    set_enabled "com.example.trader" false "1" (lending, without_notes) = (Ok result, (r', w')) /\
    forall c, capture_workflow r' trader_request <> Ok c.
Proof.
  split; [by vm_compute|].
  destruct (set_enabled "com.example.trader" false "1" (lending, without_notes)) as [o [r' w']] eqn:E.
  assert (exists result, o = Ok result) as [result ->]
    by (rewrite (fst_of _ _ _ E); eexists; vm_compute; reflexivity).
  exists result, r', w'. split; [done|]. intros c.
  refine (proj1 (disabled_plugins_lend_nothing _ _ _ _ _ _ _ _ _ E) trader_request c eq_refl).
  - exact lending_ok.
  - apply map_disjoint_singleton_r_2. by vm_compute.
Defined.

(** ** A guest *)

Lemma substring_list n m s :
  String.list_ascii_of_string (String.substring n m s) = take m (drop n (String.list_ascii_of_string s)).
Proof.
  revert n m. induction s as [|c s IH]; intros [|n] [|m]; simpl; try done; rewrite IH; try done.
Qed.
Lemma text_inj s t : String.list_ascii_of_string s = String.list_ascii_of_string t -> s = t.
Proof.
  intros E. rewrite <- (String.string_of_list_ascii_of_string s), E.
  apply String.string_of_list_ascii_of_string.
Qed.
Lemma text_app s t : String.list_ascii_of_string (s +:+ t) =
  (String.list_ascii_of_string s ++ String.list_ascii_of_string t)%list.
Proof. induction s; simpl; [done|by f_equal]. Qed.
Lemma text_length s : length (String.list_ascii_of_string s) = String.length s.
Proof. induction s; simpl; auto. Qed.

(** A guest that allots its memory from the start on and answers with what it
    finds at the first text it is given. *)
Record Toy := { toy_memory : string; toy_free : Z }.
Definition spliced (offset : nat) (bytes memory : string) : string :=
  String.substring 0 offset memory +:+ bytes +:+
  String.substring (offset + String.length bytes) (String.length memory) memory.
#[local] Instance ToyEngine : WasmLib := {
  Guest := Toy; Suspended R := unit;
  parse_all bytes := [Some Version_; Some (MemorySection 1 [Some {| memory64 := false; shared := false;
                        custom_page_size := false; initial := 1; maximum := Some 1 |}]); Some End_];
  module_imports bytes := Some false;
  instantiate_and_start bytes fuel := Some {| toy_memory := "................"; toy_free := 2 |};
  has_memory g := true; has_alloc g := true; has_run_json g := true; has_run_series g := false;
  call_alloc n g :=
    Some (Finished (toy_free g), {| toy_memory := toy_memory g; toy_free := toy_free g + n |});
  call_run_json '(cp, cl, ip, il) g := Some (Finished (Z.lor (Z.shiftl cp 32) cl), g);
  call_run_series args g := None;
  resume R k g := None;
  get_fuel g := Some 0; set_fuel n g := if n =? 0 then Some g else None;
  memory_data := toy_memory;
  memory_write offset bytes g :=
    if (0 <=? offset) && (offset + len bytes <=? len (toy_memory g))
    then Some {| toy_memory := spliced (Z.to_nat offset) bytes (toy_memory g); toy_free := toy_free g |}
    else None;
  f64_le_bytes x := "00000000";
}.

Lemma spliced_list offset bytes memory :
  String.list_ascii_of_string (spliced offset bytes memory) =
  (take offset (String.list_ascii_of_string memory) ++ String.list_ascii_of_string bytes ++
   drop (offset + String.length bytes) (String.list_ascii_of_string memory))%list.
Proof.
  unfold spliced. rewrite !text_app, !substring_list, drop_0. do 2 f_equal.
  apply take_ge. rewrite length_drop, text_length. lia.
Qed.

#[local] Instance ToyFuel : FuelLaws.
Proof.
  split; [|intros n g g'|done]; simpl.
  - intros bytes fuel g Hf _. by exists 0.
  - case_match; [|done]. intros [= <-]. f_equal. lia.
Qed.
#[local] Instance ToyLaws : WasmLaws.
Proof.
  split; [intros offset bytes g g' Hw|intros offset bytes g g' Hw
         |intros offset bytes g g' o l Hw Ho Hl Hapart].
  all: unfold memory_write, memory_data, len, slice in *; simpl in *.
  all: destruct ((0 <=? offset) && _) eqn:E in Hw; [|done].
  all: injection Hw as <-; simpl; apply andb_true_iff in E as [?%Z.leb_le ?%Z.leb_le];
    unfold len in *.
  - rewrite <- (text_length (spliced _ _ _)), spliced_list, !length_app, length_take, length_drop, !text_length. lia.
  - apply text_inj. rewrite substring_list, spliced_list, drop_app_length'
      by (rewrite length_take, text_length; lia).
    rewrite take_app_length'; [done|]. rewrite text_length. lia.
  - apply text_inj. rewrite !substring_list, spliced_list.
    set (m := String.list_ascii_of_string (toy_memory g)).
    assert (length m = String.length (toy_memory g)) as Em by apply text_length.
    destruct Hapart.
    + rewrite drop_app_le, take_app_le by (rewrite ?length_drop, ?length_take; lia).
      rewrite skipn_firstn_comm, take_take. f_equal. lia.
    + rewrite (app_assoc (take _ m)), drop_app_ge
        by (rewrite length_app, length_take, text_length; lia).
      rewrite drop_drop, length_app, length_take, text_length. do 2 f_equal. lia.
Qed.

Definition idle_clock (n : nat) : bool * Z := (false, 0).

Lemma guest_memory_is_contained_witness :
  exists output b',
    execute_json idle_clock wasm_magic "context" "input" start_budget = (Ok output, b') /\
    output = "context" /\ utf8_valid (bytes_of output) = true.
Proof.
  destruct (execute_json idle_clock wasm_magic "context" "input" start_budget) as [o b'] eqn:E.
  assert (o = Ok "context") as -> by (rewrite (fst_of _ _ _ E); by vm_compute).
  exists "context", b'. split; [done|]. split; [done|].
  destruct (guest_memory_is_contained idle_clock wasm_magic "context" "input" start_budget _ _ E)
    as (_ & _ & _ & g & co & io & b1 & packed & g' & _ & _ & _ & _ & Hu).
  apply Hu.
Defined.
